(* ===== verification/_CoqProject ===== *)
-Q . S2P
Prelude.v
Subscription.v
NodeTable.v
Trie.v
Radix.v
Mtrie.v
Yqueue.v
Ypipe.v
Wire.v
Z85.v
Options.v
OptionsProps.v
Timers.v
Mechanism.v
Array.v
Frame.v
Fq.v
Lb.v
Dist.v
Msg.v
MsgProg.v
Duplex.v
Xpub.v
XpubProps.v
Xsub.v
XsubProps.v
Dealer.v
Req.v
ReqProps.v
Router.v
Rep.v
RepProps.v
RouterProps.v
Upipe.v
Pipe.v
PipePair.v
PipeSim.v
PipeProps.v
PipeFlow.v
Codec.v
V2.v
V1.v
Zap.v
Handshake.v
HandshakeProps.v
Curve.v
CurveProps.v
Ws.v
Alloc.v
Own.v
OwnInv.v
OwnSteps.v
OwnProps.v
OwnLive.v
Mailbox.v
Sockets.v
Server.v
Stream.v
Session.v
SessionProps.v
Greeting.v
Engine.v
EngineOut.v
EngineIn.v
EngineProps.v
Text.v
Radio.v
RadioProps.v
Connecter.v
ConnecterProps.v
Socks.v
SocksProps.v
SocksLive.v
Udp.v
UdpProps.v
Poller.v
