(* ===== verification/Prelude.v ===== *)
(** * libzmq: the messaging core

    libzmq moves messages between threads and hosts.  An application
    calls a socket; the socket hands frames to pipes, one per peer; a
    pipe is a pair of lock-free queues and the commands its two ends
    exchange; a session and an engine on an I/O thread take the frames
    from the other end and encode them for the wire, after a handshake
    in which the two sides present themselves.  This development models
    that path in the order of the layers, each over the interface of the
    one below.

    ** Conventions

    - An unsigned integer of the source is a [Z] whose wrap-around is
      written out ([u8], [u16], [u32], [u64] below); pointers to pipes
      and other objects are integers that name them.
    - An assertion of the source ([zmq_assert], [errno_assert],
      [alloc_assert]) aborts the process.  Code that can reach one, or
      that can read outside the memory it is given, returns an [option],
      [None] being the abort; a theorem that an operation returns [Some]
      says that no assertion fails.  Errors reported with [errno] are
      ordinary values.
    - Loops of the source are structural, or take a fuel; a theorem about
      the loop then proves that the fuel the caller passes is enough.
      The fuels: three steps of a decoder or four of an encoder per byte
      ([Codec]), the number of active or matching pipes for the loops of
      [Fq], [Lb] and [Dist], the frames that wait ([fq_frames]) for the
      receive loops of REQ, REP and SUB, the length of the queue for the
      reader of XPUB, the length of the key plus one for the walk of the
      radix tree, the length of the command for the parser of metadata
      (each round takes five bytes).  [timers_execute] has no bound of
      its own: the theorem gives one when it returns, and another shows
      when it never does.  The loop over the timers of a poller takes one
      step per timer that is due, since a handler arms its timers behind
      those.

    ** Files, what they model and what they show

    - [Subscription]: the abstract contract of the subscription
      structures, a multiset of prefixes and a relation of prefixes and
      pipes.  [NodeTable]: the child table shared by the two tries
      (trie.cpp, generic_mtrie_impl.hpp), with its [min] and [count]
      kept as in the source.  [Trie] (trie.cpp), [Radix] (radix_tree.cpp)
      and [Mtrie] (generic_mtrie_impl.hpp): every operation, with pruning,
      compaction and the merging of edges; they refine the contract, the
      radix tree and the trie give the same answers, and an empty trie is
      back at its initial size.
    - [Yqueue] (yqueue.hpp): the queue of chunks on a heap, with the
      spare chunk.  [Ypipe] (ypipe.hpp, atomic_ptr.hpp): the lock-free
      pipe, its operations cut at their accesses to the shared pointer;
      every interleaving of a writer and a reader behaves as a queue.
      [Upipe] (ypipe_base.hpp, ypipe_conflate.hpp, dbuffer.hpp): the
      interface of the two queue implementations as a class, and the
      implementations as its instances.
    - [Pipe], [PipePair], [PipeSim], [PipeProps], [PipeFlow] (pipe.cpp,
      pipe.hpp): a pair of pipes over any queue of that class, its
      commands delivered in any order the mailboxes allow: safety of the
      termination handshake, flow control by the water marks, refinement
      of the queue.
    - [Array] (array.hpp), [Frame] (msg.hpp flags and types, and the
      interfaces of pipes that sockets read from and write to), [Fq]
      (fq.cpp), [Lb] (lb.cpp), [Dist] (dist.cpp): how a socket spreads
      messages over its pipes; multipart messages stay whole, also when
      pipes fill, come and go between their parts, and pipes are served in
      turn.
    - [Msg], [MsgProg] (msg.cpp, metadata.cpp, atomic_counter.hpp, and the
      use dist.cpp makes of them): messages on a heap of shared
      contents, with their reference counts; nothing is freed twice or
      left over.
    - [Duplex], [Dealer], [Req], [ReqProps], [Router], [Rep], [RepProps],
      [RouterProps] (dealer.cpp, req.cpp, router.cpp, rep.cpp and the
      routing_socket_base_t of socket_base.cpp): the request-reply
      sockets over fair queueing and load balancing; a request comes back
      with its reply, stray replies are dropped, the table of routing ids
      stays consistent.
    - [Xpub], [XpubProps], [Xsub], [XsubProps] (xpub.cpp, pub.cpp,
      xsub.cpp, sub.cpp): publishing and subscribing; a message reaches
      exactly the pipes that subscribed to a prefix of it, and the filter
      of the subscriber and that of the publisher agree.
    - [Own], [OwnInv], [OwnSteps], [OwnProps], [OwnLive] (own.cpp,
      object.cpp): the tree of objects that own each other, on threads
      that interleave call by call; no deleted object is used, and what is
      told to terminate is deleted with all it owns.  [Mailbox]
      (mailbox.cpp, mailbox_safe.cpp): the queues of commands between the
      threads, over [Ypipe]; no command and no wake-up is lost.
    - [Options], [OptionsProps] (options.cpp): setting and reading the
      options of a socket; they stay in range, a refused value changes
      nothing, an accepted one is read back.
    - [Timers] (timers.cpp): the timers of the application, with handlers
      that call back into them; they refine a map of the live timers and
      [execute] returns.
    - [Mechanism] (mechanism.cpp), [Zap] (zap_client.cpp,
      mechanism_base.cpp), [Handshake], [HandshakeProps]
      (null_mechanism.cpp, plain_client.cpp, plain_server.cpp): what two
      sockets tell each other before the first message, and who is let
      in.
    - [Curve], [CurveProps] (curve_client.cpp, curve_client_tools.hpp,
      curve_server.cpp, curve_mechanism_base.cpp): the CURVE mechanism over
      a class [NaCl] of the cryptographic functions it calls, with keys and
      random bytes as arguments; a handshake between matching keys
      succeeds, messages cross it, a replayed message is refused, and a
      client is let in only with the key it vouched for.
    - [Sockets] (pair.cpp, push.cpp, pull.cpp, scatter.cpp, gather.cpp,
      client.cpp), [Server] (server.cpp), [Stream] (stream.cpp), [Radio],
      [RadioProps] (radio.cpp, dish.cpp): the other socket types over the
      same queues and interfaces; a reply goes to the peer of its request,
      a message to the members of its group and to no one else, and what
      their sessions put on the wire is read back at the other end.
    - [Session], [SessionProps] (session_base.cpp): the session between
      the pipe of a socket and an engine, with the ZAP pipe, reconnection
      and linger; no assertion fails, a half-read message is never mixed
      with the next, and a session that is told to terminate ends.
    - [Greeting] (the handshake of zmtp_engine.cpp), [Engine], [EngineOut],
      [EngineIn], [EngineProps] (zmtp_engine.cpp and
      stream_engine_base.cpp after the greeting): two peers agree on a
      version however their bytes are cut; what a session gives the engine
      leaves as the encoded frames, and what arrives reaches the session
      decoded and in order, through full pipes, partial writes, restarts,
      heartbeats and errors that the poller reports, up to the calls that
      [engine_fault] names, in which the code makes an assertion fail.
    - [Text]: the C strings and decimal numbers that addresses are made
      of, with the round trip of a port.  [Connecter], [ConnecterProps]
      (stream_connecter_base.cpp, tcp_connecter.cpp, ipc_connecter.cpp, and
      the registrations of epoll.cpp that they use): a connection attempt
      with its two timers; every sequence of events the poller may deliver
      is safe, but for the errors of sockets that the code takes for its
      own mistakes, and the delay between attempts backs off within its
      bounds.
      [Socks], [SocksProps], [SocksLive] (socks.cpp, socks_connecter.cpp):
      the SOCKS5 exchange with a proxy over partial reads and writes; it
      reaches the engine against a proxy that answers as documented, and
      leaves what the peer sends behind the reply to the engine.
    - [Udp], [UdpProps] (udp_engine.cpp, dgram.cpp): datagrams of RADIO,
      DISH and DGRAM; a datagram a RADIO sends is the message its DISH
      receives, a DGRAM reply goes to the address of the request.
    - [Poller] (poller_base.cpp): the timers of an I/O thread, ordered by
      expiry; those that are due run, in order, and the loop ends.
    - [Wire] (wire.hpp), [Codec] (encoder.hpp, decoder.hpp,
      decoder_allocators.cpp and the loop of stream_engine_base.cpp that
      feeds a decoder), [V2] and [V1] (v2_encoder.cpp, v2_decoder.cpp,
      v1_encoder.cpp, v1_decoder.cpp): the framing of ZMTP; frames round
      trip over buffers and reads of any sizes.  [Ws] (ws_encoder.cpp,
      ws_decoder.cpp): the frames of WebSocket, masked or not.  [Alloc]
      (decoder_allocators.cpp, raw_decoder.cpp, raw_encoder.cpp): the
      receive buffer that messages share with the decoder.  [Z85]
      (zmq_utils.cpp): the text encoding of keys.

    ** Not modelled

    Listeners, the waiting for events (epoll, select and the like), the
    resolution of names and the C API are system calls and their
    bookkeeping.  socket_base_t, ctx_t and reaper_t are the objects, locks
    and tables of names around the parts that are modelled.  The
    cryptography (tweetnacl or libsodium), GSSAPI, OpenPGM and NORM are
    libraries the sources only call.  PROJECT.json lists the other parts
    that are left out, with the reason for each.
*)

From Stdlib Require Export ZArith Lia.
From stdpp Require Export base tactics numbers list gmap option.

#[global] Set Default Goal Selector "!".
#[global] Set Warnings "-register-all,-clear-no-such-hyp".
Open Scope Z_scope.

(** ** Machine integers

    An unsigned C++ integer of width [w] is a [Z] in [0, 2^w); every
    arithmetic result the source stores in such a variable goes through
    the wrap of its width. *)

Definition u8 (x : Z) : Z := x mod 256.
Definition u16 (x : Z) : Z := x mod 65536.
Definition u32 (x : Z) : Z := x mod 4294967296.
Definition u64 (x : Z) : Z := x mod 18446744073709551616.

(** [int] on the machines the library runs on: two's complement, 32 bits. *)
Definition i32 (x : Z) : Z := (x + 2147483648) mod 4294967296 - 2147483648.

(** A byte as a [signed char]. *)
Definition s8 (b : Z) : Z := if b <? 128 then b else b - 256.

Definition is_u8 (x : Z) : Prop := 0 <= x < 256.
Definition is_u32 (x : Z) : Prop := 0 <= x < 4294967296.
Definition is_u64 (x : Z) : Prop := 0 <= x < 18446744073709551616.

(** A byte string is a list of [unsigned char] values. *)
Abbreviation bytes := (list Z).
Definition bytes_ok (bs : bytes) : Prop := Forall is_u8 bs.

(** ** Assertions

    [zmq_assert], [errno_assert] and [alloc_assert] abort the process:
    code that can reach one returns an [option], and [None] is the
    abort. *)

Declare Scope zmq_scope.
Delimit Scope zmq_scope with zmq.
Open Scope zmq_scope.

Notation "'let*' x ':=' m 'in' k" := (mbind (fun x => k) m)
  (at level 100, x pattern, m at next level, right associativity) : zmq_scope.
Notation "'zmq_assert' b ';;' k" := (if b then k else None)
  (at level 100, b at next level, right associativity, only parsing) : zmq_scope.

(** ** The values of [errno] that operations return *)

Inductive errno := EPROTO | EMSGSIZE | ENOMEM | EINVAL | EFAULT | ENOTCONN | ECONNREFUSED | EFSM | EAGAIN.

#[export] Instance errno_eq_dec : EqDecision errno.
Proof. solve_decision. Defined.

(** ** Bounds of the wraps *)

Lemma u8_small x : is_u8 x -> u8 x = x.
Proof. unfold is_u8, u8. intros. apply Z.mod_small. lia. Qed.
Lemma u16_small x : 0 <= x < 65536 -> u16 x = x.
Proof. unfold u16. intros. apply Z.mod_small. lia. Qed.
Lemma u32_small x : is_u32 x -> u32 x = x.
Proof. unfold is_u32, u32. intros. apply Z.mod_small. lia. Qed.
Lemma u64_small x : is_u64 x -> u64 x = x.
Proof. unfold is_u64, u64. intros. apply Z.mod_small. lia. Qed.

Lemma i32_small x : -2147483648 <= x < 2147483648 -> i32 x = x.
Proof. unfold i32. intros. rewrite Z.mod_small; lia. Qed.

Lemma u8_range x : is_u8 (u8 x).
Proof. unfold is_u8, u8. apply Z.mod_pos_bound. lia. Qed.
Lemma u32_range x : is_u32 (u32 x).
Proof. unfold is_u32, u32. apply Z.mod_pos_bound. lia. Qed.
Lemma u64_range x : is_u64 (u64 x).
Proof. unfold is_u64, u64. apply Z.mod_pos_bound. lia. Qed.

(** [wrap_small] removes a wrap whose argument [lia] can bound. *)
Ltac wrap_small :=
  repeat match goal with
    | |- context [u8 ?x] => rewrite (u8_small x) by (unfold is_u8 in *; lia)
    | |- context [u16 ?x] => rewrite (u16_small x) by lia
    | |- context [u32 ?x] => rewrite (u32_small x) by (unfold is_u32 in *; lia)
    | |- context [u64 ?x] => rewrite (u64_small x) by (unfold is_u64 in *; lia)
    end.

(** [bool_prop] turns the boolean tests of the code in hypotheses into
    linear arithmetic; [case_test] splits on the next test of the goal. *)
Ltac bool_prop :=
  repeat match goal with
    | H : _ && _ = true |- _ => apply andb_true_iff in H as [? ?]
    | H : _ || _ = false |- _ => apply orb_false_iff in H as [? ?]
    | H : negb _ = true |- _ => apply negb_true_iff in H
    | H : negb _ = false |- _ => apply negb_false_iff in H
    | H : (_ =? _) = true |- _ => apply Z.eqb_eq in H
    | H : (_ =? _) = false |- _ => apply Z.eqb_neq in H
    | H : (_ <? _) = true |- _ => apply Z.ltb_lt in H
    | H : (_ <? _) = false |- _ => apply Z.ltb_ge in H
    | H : (_ <=? _) = true |- _ => apply Z.leb_le in H
    | H : (_ <=? _) = false |- _ => apply Z.leb_gt in H
    | H : _ || _ = true |- _ => apply orb_true_iff in H
    | H : _ && _ = false |- _ => apply andb_false_iff in H
    end.

Ltac case_test :=
  match goal with
  | |- context [if ?b then _ else _] =>
      lazymatch type of b with bool => destruct b eqn:?; bool_prop end
  | _ : context [if ?b then _ else _] |- _ =>
      lazymatch type of b with bool => destruct b eqn:?; bool_prop end
  end.

(** Evaluates the tests of the goal that [lia] decides. *)
Ltac simpl_test :=
  repeat match goal with
    | |- context [?a =? ?b] =>
        first [ rewrite (proj2 (Z.eqb_eq a b)) by lia
              | rewrite (proj2 (Z.eqb_neq a b)) by lia ]
    | |- context [?a <? ?b] =>
        first [ rewrite (proj2 (Z.ltb_lt a b)) by lia
              | rewrite (proj2 (Z.ltb_ge a b)) by lia ]
    | |- context [?a <=? ?b] =>
        first [ rewrite (proj2 (Z.leb_le a b)) by lia
              | rewrite (proj2 (Z.leb_gt a b)) by lia ]
    end; cbn [andb orb negb].

Create HintDb zmq.
#[export] Hint Resolve u8_range u32_range u64_range : zmq.

(** ** Lists *)

Lemma Forall_elem {A} (P : A -> Prop) (l : list A) (x : A) : Forall P l -> x ∈ l -> P x.
Proof. intros H Hx. by eapply (proj1 (Forall_forall _ _) H), list_elem_of_In. Qed.

Lemma Forall_of_elem {A} (P : A -> Prop) (l : list A) : (forall x, x ∈ l -> P x) -> Forall P l.
Proof. intros H. apply Forall_forall. intros x Hx. by apply H, list_elem_of_In. Qed.

Lemma Forall_sublist {A} (P : A -> Prop) (l l' : list A) : Forall P l' -> sublist l l' -> Forall P l.
Proof. intros Hf Hl. apply Forall_of_elem. intros x Hx. eapply Forall_elem; [exact Hf|]. by eapply elem_of_sublist. Qed.
