(* ===== verification/Subscription.v ===== *)
(** * What a subscription store promises to its clients

    [xsub_t] keeps its subscriptions in a [trie_t] or, when built with
    ZMQ_USE_RADIX_TREE, in a [radix_tree_t].  Both offer [add], [rm],
    [check] and [apply]; [SubStore] is that interface, [SubStoreLaws] its
    contract, stated over the number of references of each key.  The
    abstract store is a finite map from keys to positive counts, and
    every store that meets the contract refines it on every sequence of
    operations. *)

From S2P Require Import Prelude.

Class SubStore (S : Type) := {
  ss_new : S;
  ss_add : S -> bytes -> option (S * bool);
  ss_rm : S -> bytes -> option (S * bool);
  ss_check : S -> bytes -> option bool;
  ss_apply : S -> option (list bytes);
  ss_refs : S -> bytes -> Z;
  ss_wf : S -> Prop;
}.

Class SubStoreLaws (S : Type) `{SubStore S} := {
  ss_new_ok : ss_wf ss_new /\ forall k, ss_refs ss_new k = 0;
  ss_refs_nonneg s k : ss_wf s -> 0 <= ss_refs s k;
  ss_add_ok s k : ss_wf s -> bytes_ok k -> ss_refs s k + 1 < 4294967296 ->
    exists s' b, ss_add s k = Some (s', b) /\ ss_wf s' /\ b = (ss_refs s k =? 0) /\
      forall k', ss_refs s' k' = if decide (k' = k) then ss_refs s k + 1 else ss_refs s k';
  ss_rm_ok s k : ss_wf s ->
    exists s' b, ss_rm s k = Some (s', b) /\ ss_wf s' /\ b = (ss_refs s k =? 1) /\
      forall k', ss_refs s' k' = if decide (k' = k) then Z.max 0 (ss_refs s k - 1)
                                 else ss_refs s k';
  ss_check_ok s d : ss_wf s ->
    exists b, ss_check s d = Some b /\
      (b = true <-> exists p, p `prefix_of` d /\ ss_refs s p <> 0);
  ss_apply_ok s : ss_wf s ->
    exists l, ss_apply s = Some l /\ NoDup l /\ forall k, k ∈ l <-> ss_refs s k <> 0;
}.

(** ** The abstract store *)

Abbreviation subs := (gmap (list Z) positive).

Definition subs_add (m : subs) (k : bytes) : subs * bool :=
  match m !! k with
  | Some n => (<[k := Pos.succ n]> m, false)
  | None => (<[k := 1%positive]> m, true)
  end.

Definition subs_rm (m : subs) (k : bytes) : subs * bool :=
  match m !! k with
  | Some 1%positive => (delete k m, true)
  | Some n => (<[k := Pos.pred n]> m, false)
  | None => (m, false)
  end.

(** Some prefix of [d] is subscribed. *)
Fixpoint subs_check (m : subs) (pre d : bytes) : bool :=
  match m !! pre with
  | Some _ => true
  | None => match d with [] => false | c :: d' => subs_check m (pre ++ [c]) d' end
  end.

Inductive sub_op := SubAdd (k : bytes) | SubRm (k : bytes).

Definition sub_op_key (o : sub_op) : bytes :=
  match o with SubAdd k => k | SubRm k => k end.

Fixpoint subs_run (m : subs) (ops : list sub_op) : subs * list bool :=
  match ops with
  | [] => (m, [])
  | o :: ops' =>
      let '(m', b) := match o with SubAdd k => subs_add m k | SubRm k => subs_rm m k end in
      let '(m'', bs) := subs_run m' ops' in (m'', b :: bs)
  end.

Section store.
Context {S : Type} `{SubStoreLaws S}.

Fixpoint ss_run (s : S) (ops : list sub_op) : option (S * list bool) :=
  match ops with
  | [] => Some (s, [])
  | o :: ops' =>
      let* (s', b) := match o with SubAdd k => ss_add s k | SubRm k => ss_rm s k end in
      let* (s'', bs) := ss_run s' ops' in
      Some (s'', b :: bs)
  end.

(** ** Refinement *)

(** The store [s] represents the map [m]. *)
Definition ss_repr (s : S) (m : subs) : Prop :=
  ss_wf s /\ forall k, ss_refs s k = match m !! k with Some n => Zpos n | None => 0 end.

Lemma ss_repr_new : ss_repr ss_new ∅.
Proof.
  destruct ss_new_ok as [Hwf Hr]. split; [done|]. intros k. by rewrite lookup_empty.
Qed.

Lemma ss_add_repr s m k :
  ss_repr s m -> bytes_ok k -> ss_refs s k + 1 < 4294967296 ->
  exists s', ss_add s k = Some (s', snd (subs_add m k)) /\ ss_repr s' (fst (subs_add m k)).
Proof.
  intros [Hwf Hr] Hk Hov. destruct (ss_add_ok s k Hwf Hk Hov) as (s' & b & -> & Hwf' & -> & Hrefs).
  exists s'. unfold subs_add. rewrite Hr. destruct (m !! k) eqn:E; simpl.
  - split; [done|]. split; [done|]. intros k'. rewrite Hrefs, lookup_insert.
    case_decide; [subst; rewrite decide_True by done; rewrite Hr, E; lia|].
    by rewrite decide_False, Hr by done.
  - split; [done|]. split; [done|]. intros k'. rewrite Hrefs, lookup_insert.
    case_decide; [subst; rewrite decide_True by done; by rewrite Hr, E|].
    by rewrite decide_False, Hr by done.
Qed.

Lemma ss_rm_repr s m k :
  ss_repr s m ->
  exists s', ss_rm s k = Some (s', snd (subs_rm m k)) /\ ss_repr s' (fst (subs_rm m k)).
Proof.
  intros [Hwf Hr]. destruct (ss_rm_ok s k Hwf) as (s' & b & -> & Hwf' & -> & Hrefs).
  exists s'. unfold subs_rm. rewrite Hr. destruct (m !! k) as [n|] eqn:E; simpl.
  - destruct (decide (n = 1%positive)) as [->|Hn]; simpl.
    + split; [done|]. split; [done|]. intros k'. rewrite Hrefs, lookup_delete.
      case_decide; [subst; rewrite decide_True by done; by rewrite Hr, E|].
      by rewrite decide_False, Hr by done.
    + assert (match n with 1%positive => (delete k m, true) | _ => (<[k:=Pos.pred n]> m, false) end
              = (<[k:=Pos.pred n]> m, false)) as -> by (destruct n; done).
      split; [by destruct n|]. split; [done|].
      intros k'. simpl. rewrite Hrefs, lookup_insert.
      case_decide; [subst; rewrite decide_True by done; rewrite Hr, E; lia|].
      by rewrite decide_False, Hr by done.
  - split; [done|]. split; [done|]. intros k'. rewrite Hrefs. case_decide; [|done].
    subst. by rewrite Hr, E.
Qed.

Lemma subs_check_spec (m : subs) d : forall pre,
  subs_check m pre d = true <-> exists p, p `prefix_of` d /\ is_Some (m !! (pre ++ p)).
Proof.
  induction d as [|c d IH]; intros pre; simpl; destruct (m !! pre) as [n|] eqn:E.
  - split; [|done]. intros _. exists []. rewrite app_nil_r, E. split; [done|by eexists].
  - split; [done|]. intros (p & Hp & Hs). apply prefix_nil_inv in Hp. subst.
    rewrite app_nil_r, E in Hs. by destruct Hs.
  - split; [|done]. intros _. exists []. rewrite app_nil_r, E.
    split; [apply prefix_nil|by eexists].
  - rewrite IH. split.
    + intros (p & Hp & Hs). exists (c :: p). split; [by apply prefix_cons|].
      by rewrite <- app_assoc in Hs.
    + intros ([|c' p] & Hp & Hs); [rewrite app_nil_r, E in Hs; by destruct Hs|].
      apply prefix_cons_inv_1 in Hp as Hc. subst. apply prefix_cons_inv_2 in Hp.
      exists p. rewrite <- app_assoc. done.
Qed.

Lemma ss_check_repr s m d : ss_repr s m -> ss_check s d = Some (subs_check m [] d).
Proof.
  intros [Hwf Hr]. destruct (ss_check_ok s d Hwf) as (b & -> & Hb). f_equal.
  apply eq_true_iff_eq. rewrite Hb, subs_check_spec. split; intros (p & Hp & Hs);
    exists p; split; try done; rewrite Hr in *; simpl in *; destruct (m !! p); try done.
Qed.

Lemma ss_apply_repr s m :
  ss_repr s m -> exists l, ss_apply s = Some l /\ l ≡ₚ (map_to_list m).*1.
Proof.
  intros [Hwf Hr]. destruct (ss_apply_ok s Hwf) as (l & -> & Hnd & Hin). exists l. split; [done|].
  apply NoDup_Permutation; [done|apply NoDup_fst_map_to_list|]. intros k.
  rewrite Hin, Hr, list_elem_of_fmap. split.
  - destruct (m !! k) as [n|] eqn:E; [|done]. intros _. exists (k, n).
    split; [done|]. by apply elem_of_map_to_list.
  - intros ([k' n] & -> & Hk). apply elem_of_map_to_list in Hk. simpl. by rewrite Hk.
Qed.

(** The count of a key grows by at most one per operation. *)
Lemma ss_run_repr ops : forall s m,
  ss_repr s m -> Forall (fun o => bytes_ok (sub_op_key o)) ops ->
  (forall k, ss_refs s k + Z.of_nat (length ops) < 4294967296) ->
  exists s', ss_run s ops = Some (s', snd (subs_run m ops)) /\ ss_repr s' (fst (subs_run m ops)).
Proof.
  induction ops as [|o ops IH]; intros s m Hrep Hops Hov; [by exists s|].
  apply Forall_cons_1 in Hops as [Hk Hops]. cbn [length] in Hov.
  assert (exists s1 m1 b, match o with SubAdd k => ss_add s k | SubRm k => ss_rm s k end
             = Some (s1, b) /\
            match o with SubAdd k => subs_add m k | SubRm k => subs_rm m k end = (m1, b) /\
            ss_repr s1 m1 /\ forall k, ss_refs s1 k <= ss_refs s k + 1) as (s1&m1&b&E1&E2&Hrep1&Hle).
  { destruct o as [k|k]; simpl in Hk.
    - destruct (ss_add_repr s m k Hrep Hk) as (s1 & E1 & Hr1); [specialize (Hov k); lia|].
      exists s1, (fst (subs_add m k)), (snd (subs_add m k)). split_and!; try done.
      { by destruct (subs_add m k). }
      destruct Hrep as [Hwf _]. destruct (ss_add_ok s k Hwf Hk) as (s'&b&E&_&_&Hrefs);
        [specialize (Hov k); lia|]. rewrite E1 in E. simplify_eq.
      intros k'. rewrite Hrefs. case_decide; subst; lia.
    - destruct (ss_rm_repr s m k Hrep) as (s1 & E1 & Hr1).
      exists s1, (fst (subs_rm m k)), (snd (subs_rm m k)). split_and!; try done.
      { by destruct (subs_rm m k). }
      destruct Hrep as [Hwf _]. destruct (ss_rm_ok s k Hwf) as (s'&b&E&_&_&Hrefs).
      rewrite E1 in E. simplify_eq. intros k'. rewrite Hrefs.
      pose proof (ss_refs_nonneg s k Hwf). pose proof (ss_refs_nonneg s k' Hwf).
      case_decide; subst; lia. }
  destruct (IH s1 m1 Hrep1 Hops) as (s2 & Er & Hr2).
  { intros k. specialize (Hov k). specialize (Hle k). lia. }
  simpl. rewrite E1, E2. simpl. rewrite Er. simpl.
  destruct (subs_run m1 ops) as [m2 bs]. simpl in *. eauto.
Qed.

End store.
