(* ===== verification/NodeTable.v ===== *)
(** * The child table of the two byte tries

    [trie_t] (src/src/trie.cpp) and [generic_mtrie_t]
    (src/src/generic_mtrie_impl.hpp) keep their children in the same
    four fields: [_min], [_count], [_live_nodes] and the union [_next] of
    one node pointer and a table of pointers.  This file models those
    fields, the growth of the table, which both classes write
    identically, and the facts on pointer tables that both use. *)

From S2P Require Import Prelude.

Section node_table.
Context {A : Type}.

(** The union [_next]: one pointer, or an array of pointers. *)
Inductive next_t :=
| Node (node : option A)
| Table (table : list (option A)).

Record slots := Slots {
  s_min : Z;              (* unsigned char _min *)
  s_count : Z;            (* unsigned short _count *)
  s_live : Z;             (* unsigned short _live_nodes *)
  s_next : next_t;        (* union _next *)
}.

Definition slots_new : slots := Slots 0 0 0 (Node None).

(** [c < _min || c >= _min + _count] *)
Definition slots_out (s : slots) (c : Z) : bool :=
  (c <? s_min s) || (s_min s + s_count s <=? c).

(** [_count == 1 ? _next.node : _next.table[c - _min]].  The outer [None]
    is a read of the wrong member of the union or outside the table. *)
Definition slots_ptr (s : slots) (c : Z) : option (option A) :=
  match s_next s with
  | Node n => if s_count s =? 1 then Some n else None
  | Table t => if s_count s =? 1 then None else t !! Z.to_nat (c - s_min s)
  end.

(** The assignment to the same location. *)
Definition slots_store (s : slots) (c : Z) (p : option A) : slots :=
  match s_next s with
  | Node _ => Slots (s_min s) (s_count s) (s_live s) (Node p)
  | Table t => Slots (s_min s) (s_count s) (s_live s)
                 (Table (<[Z.to_nat (c - s_min s) := p]> t))
  end.

(** The growth of the table to a character out of its range. *)
Definition slots_extend (s : slots) (c : Z) : option slots :=
  let '(Slots mn cnt live nx) := s in
  if cnt =? 0 then Some (Slots c 1 live (Node None))
  else if cnt =? 1 then
    match nx with
    | Node oldp =>
        let cnt' := u16 ((if mn <? c then c - mn else mn - c) + 1) in
        let tbl := replicate (Z.to_nat cnt') None in
        let mn' := Z.min mn c in
        Some (Slots mn' cnt' live (Table (<[Z.to_nat (mn - mn') := oldp]> tbl)))
    | Table _ => None
    end
  else
    match nx with
    | Table t =>
        if mn <? c then
          let cnt' := u16 (c - mn + 1) in
          Some (Slots mn cnt' live (Table (resize (Z.to_nat cnt') None t)))
        else
          let cnt' := u16 (mn + cnt - c) in
          Some (Slots c cnt' live (Table (replicate (Z.to_nat (mn - c)) None ++ t)))
    | Node _ => None
    end.

(** The index of the first pointer of a list that is not null, which is
    what the compaction loops search for. *)
Fixpoint first_live (t : list (option A)) : option nat :=
  match t with
  | [] => None
  | Some _ :: _ => Some 0%nat
  | None :: t' => S <$> first_live t'
  end.

(** A loop over the table that calls [f] on each child with its index and
    collects what the calls produce. *)
Section visit.
Context {B : Type} (f : A -> Z -> option (list B)).
Fixpoint table_visit (t : list (option A)) (c : Z) : option (list B) :=
  match t with
  | [] => Some []
  | None :: t' => table_visit t' (c + 1)
  | Some n :: t' =>
      let* l := f n c in let* l' := table_visit t' (c + 1) in Some (l ++ l')
  end.
End visit.

(** The same over the three states of the fields; the callback is given
    the character of the child. *)
Definition slots_visit {B} (f : A -> Z -> option (list B)) (s : slots) : option (list B) :=
  if s_count s =? 0 then Some []
  else
    match s_next s with
    | Node None => None
    | Node (Some n) => f n (s_min s)
    | Table t => table_visit (fun n i => f n (u8 (s_min s + i))) t 0
    end.

(** ** Reading a table as a partial map from characters to children *)

Definition slots_get (s : slots) (c : Z) : option A :=
  match s_next s with
  | Node n => if (s_count s =? 1) && (c =? s_min s) then n else None
  | Table t => if c <? s_min s then None else mjoin (t !! Z.to_nat (c - s_min s))
  end.

Fixpoint live_count (t : list (option A)) : Z :=
  match t with
  | [] => 0
  | Some _ :: t' => 1 + live_count t'
  | None :: t' => live_count t'
  end.

(** The state of the four fields between two operations: no child and no
    table, one child and no table, or a table of at least two children
    whose first and last pointers are not null. *)
Definition slots_shape (s : slots) : Prop :=
  is_u8 (s_min s) /\
  match s_next s with
  | Node None => s_count s = 0 /\ s_live s = 0
  | Node (Some _) => s_count s = 1 /\ s_live s = 1
  | Table t =>
      s_count s = Z.of_nat (length t) /\ (2 <= length t)%nat /\
      s_min s + s_count s <= 256 /\ s_live s = live_count t /\
      is_Some (mjoin (t !! 0%nat)) /\ is_Some (mjoin (t !! (length t - 1)%nat))
  end.

(** ** Facts on pointer lists *)

Implicit Types (t : list (option A)) (s : slots).

Lemma live_count_nonneg t : 0 <= live_count t.
Proof. induction t as [|[]]; simpl; lia. Qed.

Lemma live_count_app t1 t2 : live_count (t1 ++ t2) = live_count t1 + live_count t2.
Proof. induction t1 as [|[]]; simpl; lia. Qed.

Lemma live_count_replicate n : live_count (replicate n None) = 0.
Proof. induction n; simpl; lia. Qed.

Definition live1 (p : option A) : Z := match p with Some _ => 1 | None => 0 end.

Lemma live_count_insert t i o p :
  t !! i = Some o ->
  live_count (<[i := p]> t) = live_count t - live1 o + live1 p.
Proof.
  revert i; induction t as [|x t IH]; intros [|i] Hi; simpl in *; simplify_eq.
  - destruct o, p; simpl; lia.
  - rewrite (IH _ Hi). destruct x; lia.
Qed.

Lemma live_count_length t : live_count t <= Z.of_nat (length t).
Proof. induction t as [|[]]; simpl; lia. Qed.

Lemma live_count_pos t i a : t !! i = Some (Some a) -> 1 <= live_count t.
Proof.
  intros Hi. pose proof (live_count_insert t i _ None Hi) as H. simpl in H.
  pose proof (live_count_nonneg (<[i:=None]> t)). lia.
Qed.

Lemma live_count_two t i j a b :
  i <> j -> t !! i = Some (Some a) -> t !! j = Some (Some b) -> 2 <= live_count t.
Proof.
  intros Hij Hi Hj. pose proof (live_count_insert t i _ None Hi) as H. simpl in H.
  pose proof (live_count_pos (<[i:=None]> t) j b) as H2.
  rewrite list_lookup_insert_ne in H2 by done. specialize (H2 Hj). lia.
Qed.

Lemma live_count_one t i j a x :
  live_count t = 1 -> t !! i = Some (Some a) -> i <> j -> t !! j = Some x -> x = None.
Proof.
  intros H1 Hi Hij Hj. destruct x as [b|]; [|done].
  pose proof (live_count_two t i j a b Hij Hi Hj). lia.
Qed.

Lemma live_count_exists t : 1 <= live_count t -> exists i a, t !! i = Some (Some a).
Proof.
  induction t as [|[a|] t IH]; simpl; intros H; [lia| |].
  - by exists 0%nat, a.
  - destruct (IH H) as (i & a & Hi). by exists (S i), a.
Qed.

Lemma live_count_ge_2 t : 2 <= live_count t ->
  exists i j a b, (i < j)%nat /\ t !! i = Some (Some a) /\ t !! j = Some (Some b).
Proof.
  intros H. destruct (live_count_exists t) as (i & a & Hi); [lia|].
  destruct (live_count_exists (<[i:=None]> t)) as (j & b & Hj).
  { rewrite (live_count_insert _ _ _ None Hi). simpl. lia. }
  destruct (decide (i = j)) as [->|Hij].
  { rewrite list_lookup_insert_eq in Hj; [done|by eapply lookup_lt_Some]. }
  rewrite list_lookup_insert_ne in Hj by done.
  destruct (decide (i < j)%nat); [by exists i, j, a, b|]. exists j, i, b, a. split_and!; done || lia.
Qed.

Lemma first_live_Some t n :
  first_live t = Some n ->
  (exists a, t !! n = Some (Some a)) /\ forall j, (j < n)%nat -> t !! j = Some None.
Proof.
  revert n; induction t as [|[a|] t IH]; simpl; intros n H; simplify_eq.
  - split; [by exists a|]. intros j Hj. lia.
  - apply fmap_Some in H as (m & Hm & ->). destruct (IH _ Hm) as [Ha Hlt].
    split; [done|]. intros [|j] Hj; [done|]. simpl. apply Hlt. lia.
Qed.

Lemma first_live_None t : first_live t = None -> live_count t = 0.
Proof.
  induction t as [|[a|] t IH]; simpl; intros H; [done|done|].
  apply fmap_None in H. auto.
Qed.

Lemma first_live_exists t : 1 <= live_count t -> exists n, first_live t = Some n.
Proof.
  intros H. destruct (first_live t) eqn:E; [eauto|].
  apply first_live_None in E. lia.
Qed.

Lemma live_count_null t : (forall j, mjoin (t !! j) = None) -> live_count t = 0.
Proof.
  intros Ht. destruct (decide (1 <= live_count t)) as [H|H].
  - destruct (live_count_exists t H) as (i & a & Hi).
    specialize (Ht i). by rewrite Hi in Ht.
  - pose proof (live_count_nonneg t). lia.
Qed.

Lemma live_count_unique t i a :
  t !! i = Some (Some a) -> (forall j, j <> i -> mjoin (t !! j) = None) -> live_count t = 1.
Proof.
  intros Hi Ho. pose proof (live_count_insert t i _ None Hi) as H. simpl in H.
  rewrite live_count_null in H; [lia|]. intros j. destruct (decide (j = i)) as [->|].
  - by rewrite list_lookup_insert_eq by by eapply lookup_lt_Some.
  - rewrite list_lookup_insert_ne by done. auto.
Qed.

Lemma mjoin_Some_lookup t i a : mjoin (t !! i) = Some a <-> t !! i = Some (Some a).
Proof. destruct (t !! i) as [[]|]; simpl; split; congruence. Qed.

Lemma table_visit_spec {B} (f : A -> Z -> option (list B)) (g : nat -> list B) t c :
  0 <= c ->
  (forall i n, t !! i = Some (Some n) -> f n (c + Z.of_nat i) = Some (g i)) ->
  exists l, table_visit f t c = Some l /\
    (forall x, x ∈ l <-> exists i n, t !! i = Some (Some n) /\ x ∈ g i) /\
    ((forall i n, t !! i = Some (Some n) -> NoDup (g i)) ->
     (forall i j x, i <> j -> x ∈ g i -> x ∈ g j -> False) -> NoDup l).
Proof.
  revert g c. induction t as [|o t IH]; intros g c Hc Hf.
  - exists []. split_and!; [done| |constructor].
    intros x. rewrite elem_of_nil. split; [done|]. by intros (?&?&?&?).
  - destruct (IH (fun i => g (S i)) (c + 1)) as (l & Hl & Hin & Hnd); [lia| |].
    { intros i n Hi. rewrite <- (Hf (S i) n Hi). f_equal. lia. }
    destruct o as [n|]; simpl; rewrite Hl.
    + pose proof (Hf 0%nat n eq_refl) as H0. rewrite Z.add_0_r in H0. rewrite H0. simpl.
      eexists; split; [done|]. split.
      * intros x. rewrite elem_of_app, Hin. split.
        -- intros [Hx|(i&m&Hi&Hx)]; [by exists 0%nat, n|by exists (S i), m].
        -- intros ([|i]&m&Hi&Hx); [by left|right; eauto].
      * intros Hg Hdis. apply list.NoDup_app. split_and!.
        -- by apply (Hg 0%nat n).
        -- intros x Hx Hx'. apply Hin in Hx' as (i&m&Hi&Hx'). by apply (Hdis 0%nat (S i) x).
        -- apply Hnd; [intros i m Hi; by apply (Hg (S i) m)|].
           intros i j x Hij. apply Hdis. congruence.
    + eexists; split; [done|]. split.
      * intros x. rewrite Hin. split.
        -- intros (i&m&Hi&Hx). by exists (S i), m.
        -- intros ([|i]&m&Hi&Hx); [done|eauto].
      * intros Hg Hdis. apply Hnd; [intros i m Hi; by apply (Hg (S i) m)|].
        intros i j x Hij. apply Hdis. congruence.
Qed.

(** ** The child found at a character *)

Lemma slots_get_out s c : slots_shape s -> slots_out s c = true -> slots_get s c = None.
Proof.
  unfold slots_out, slots_get, slots_shape. destruct s as [mn cnt live [[n|]|t]]; simpl.
  - intros (?&?&?) Ho. case_test; [|done]. bool_prop; lia.
  - intros (?&?&?) Ho. case_test; [|done]. bool_prop; lia.
  - intros (?&?&?&?&?&?) Ho. case_test; [done|].
    rewrite lookup_ge_None_2; [done|]. bool_prop; lia.
Qed.

Lemma slots_get_ptr s c :
  slots_shape s -> slots_out s c = false -> slots_ptr s c = Some (slots_get s c).
Proof.
  unfold slots_out, slots_get, slots_ptr, slots_shape.
  destruct s as [mn cnt live [[n|]|t]]; simpl.
  - intros (?&?&?) Ho. bool_prop. by simpl_test.
  - intros (?&?&?) Ho. bool_prop. lia.
  - intros (?&?&?&?&?&?) Ho. bool_prop. simpl_test.
    destruct (lookup_lt_is_Some_2 t (Z.to_nat (c - mn))) as [x Hx]; [lia|].
    rewrite Hx. done.
Qed.

Lemma slots_get_range s c n : slots_shape s -> slots_get s c = Some n -> is_u8 c.
Proof.
  intros Hs Hg. destruct (slots_out s c) eqn:E.
  - rewrite slots_get_out in Hg; done.
  - unfold slots_out in E. bool_prop. unfold slots_shape, is_u8 in *.
    destruct s as [mn cnt live [[?|]|t]]; simpl in *; lia.
Qed.

Lemma slots_get_count_0 s c : s_count s = 0 -> slots_shape s -> slots_get s c = None.
Proof.
  intros H Hs. apply slots_get_out; [done|]. unfold slots_out. rewrite H.
  destruct (c <? s_min s) eqn:?; [done|]. bool_prop. simpl. apply Z.leb_le. lia.
Qed.

Lemma slots_live_0 s : slots_shape s -> s_live s = 0 -> forall c, slots_get s c = None.
Proof.
  intros Hs Hl c. apply slots_get_count_0; [|done].
  destruct s as [mn cnt live [[?|]|t]]; unfold slots_shape in Hs; simpl in *; try lia.
  destruct Hs as (_&_&_&_&Hlive&[a Ha]&_).
  apply mjoin_Some_lookup, live_count_pos in Ha. lia.
Qed.

Lemma slots_live_pos s c n : slots_shape s -> slots_get s c = Some n -> 1 <= s_live s.
Proof.
  intros Hs Hg. destruct s as [mn cnt live [[m|]|t]] eqn:E; unfold slots_shape in Hs; simpl in *.
  - lia.
  - unfold slots_get in Hg; simpl in Hg. case_test; done.
  - destruct Hs as (_&_&_&_&->&_). unfold slots_get in Hg; simpl in Hg.
    case_test; [done|]. apply mjoin_Some_lookup, live_count_pos in Hg. done.
Qed.

Lemma slots_get_table mn cnt live t i n :
  0 <= mn -> t !! i = Some (Some n) ->
  slots_get (Slots mn cnt live (Table t)) (mn + Z.of_nat i) = Some n.
Proof.
  intros ? Hi. unfold slots_get; simpl. simpl_test.
  replace (Z.to_nat _) with i by lia. by rewrite Hi.
Qed.

Lemma slots_table_get mn cnt live t c n :
  slots_get (Slots mn cnt live (Table t)) c = Some n ->
  mn <= c /\ t !! Z.to_nat (c - mn) = Some (Some n).
Proof.
  unfold slots_get; simpl. case_test; [done|]. by intros ?%mjoin_Some_lookup.
Qed.

Lemma slots_visit_spec {B} (f : A -> Z -> option (list B)) (g : Z -> list B) s :
  slots_shape s ->
  (forall c n, slots_get s c = Some n -> f n c = Some (g c) /\ NoDup (g c)) ->
  (forall c c' x, c <> c' -> x ∈ g c -> x ∈ g c' -> False) ->
  exists l, slots_visit f s = Some l /\ NoDup l /\
    forall x, x ∈ l <-> exists c n, slots_get s c = Some n /\ x ∈ g c.
Proof.
  intros Hs Hf Hdis. unfold slots_visit. destruct (s_count s =? 0) eqn:E0; bool_prop.
  { exists []. split_and!; [done|constructor|]. intros x. rewrite elem_of_nil.
    split; [done|]. intros (c&n&Hg&_). by rewrite slots_get_count_0 in Hg. }
  destruct s as [mn cnt live [[m|]|t]]; unfold slots_shape in Hs; simpl in *.
  - destruct Hs as (Hmn&->&->).
    assert (slots_get (Slots mn 1 1 (Node (Some m))) mn = Some m) as Hg
      by (unfold slots_get; simpl; by simpl_test).
    destruct (Hf mn m Hg) as [-> Hnd]. exists (g mn). split_and!; [done|done|].
    intros x. split; [by exists mn, m|]. intros (c&n&Hg'&Hx).
    unfold slots_get in Hg'; simpl in Hg'. case_test; [by subst|done].
  - lia.
  - destruct Hs as (Hmn&->&Hlen&Hle&_). unfold is_u8 in Hmn.
    destruct (table_visit_spec (fun n i => f n (u8 (mn + i)))
                (fun i => g (mn + Z.of_nat i)) t 0) as (l & -> & Hin & Hnd); [lia| |].
    { intros i n Hi. pose proof (lookup_lt_Some _ _ _ Hi). rewrite Z.add_0_l. wrap_small.
      eapply Hf, slots_get_table; [lia|done]. }
    exists l. split_and!; [done| |].
    + apply Hnd.
      * intros i n Hi. eapply Hf, slots_get_table; [lia|done].
      * intros i j x Hij. apply Hdis. lia.
    + intros x. rewrite Hin. split.
      * intros (i&n&Hi&Hx). exists (mn + Z.of_nat i), n. split; [|done].
        apply slots_get_table; [lia|done].
      * intros (c&n&[Hc Hi]%slots_table_get&Hx). exists (Z.to_nat (c - mn)), n.
        split; [done|]. by replace (mn + Z.of_nat (Z.to_nat (c - mn))) with c by lia.
Qed.

(** ** Growing the table and filling the slot of a character *)

(** The table after the growth step of [add]: in shape but for the slot
    of [c], which may still be null. *)
Definition slots_reserved (s : slots) (c : Z) : Prop :=
  is_u8 (s_min s) /\ slots_out s c = false /\
  match s_next s with
  | Node n => s_count s = 1 /\ s_live s = live1 n
  | Table t =>
      s_count s = Z.of_nat (length t) /\ (2 <= length t)%nat /\
      s_min s + s_count s <= 256 /\ s_live s = live_count t /\
      (is_Some (mjoin (t !! 0%nat)) \/ c = s_min s) /\
      (is_Some (mjoin (t !! (length t - 1)%nat)) \/ c = s_min s + s_count s - 1) /\
      1 <= live_count t
  end.

Lemma slots_shape_reserved s c :
  slots_shape s -> slots_out s c = false -> slots_reserved s c.
Proof.
  unfold slots_shape, slots_reserved, slots_out.
  destruct s as [mn cnt live [[n|]|t]]; simpl; intros Hs Ho; bool_prop.
  - intuition auto with lia.
  - lia.
  - destruct Hs as (?&?&?&?&?&Hfst&?).
    assert (1 <= live_count t).
    { destruct Hfst as [a Ha]. by apply mjoin_Some_lookup, live_count_pos in Ha. }
    split_and!; try done; try lia; by left.
Qed.

Lemma slots_extend_reserved s c :
  slots_shape s -> is_u8 c -> slots_out s c = true ->
  exists s', slots_extend s c = Some s' /\ slots_reserved s' c /\
             (forall c', slots_get s' c' = slots_get s c').
Proof.
  unfold is_u8. intros Hs Hc Ho.
  destruct s as [mn cnt live [[n|]|t]]; unfold slots_shape, slots_out, is_u8 in *; simpl in *.
  - (* one child: a table from the smaller to the larger character *)
    destruct Hs as (?&->&->). simpl.
    rewrite u16_small by (case_match; bool_prop; lia).
    set (k := (if mn <? c then c - mn else mn - c) + 1).
    assert (Hk : 2 <= k <= 256 /\ k = Z.max mn c - Z.min mn c + 1).
    { unfold k. case_match; bool_prop; lia. }
    eexists; split; [done|]. split.
    + unfold slots_reserved, slots_out, is_u8; simpl.
      rewrite length_insert, length_replicate.
      assert (live_count (<[Z.to_nat (mn - Z.min mn c):=Some n]>
                (replicate (Z.to_nat k) None)) = 1) as Hl.
      { rewrite (live_count_insert _ _ None).
        - rewrite live_count_replicate. done.
        - apply lookup_replicate_2. lia. }
      split_and!; try lia.
      * destruct (decide (c < mn)); [right; lia|]. left.
        replace (Z.to_nat (mn - Z.min mn c)) with 0%nat by lia.
        rewrite list_lookup_insert_eq by (rewrite length_replicate; lia). by eexists.
      * destruct (decide (mn < c)); [right; lia|]. left.
        replace (Z.to_nat k - 1)%nat with (Z.to_nat (mn - Z.min mn c)) by lia.
        rewrite list_lookup_insert_eq by (rewrite length_replicate; lia). by eexists.
    + intros c'. unfold slots_get; simpl.
      destruct (c' =? mn) eqn:E; bool_prop.
      * subst. simpl_test.
        rewrite list_lookup_insert_eq by (rewrite length_replicate; lia). done.
      * case_test; [done|]. rewrite list_lookup_insert_ne by lia.
        destruct (decide (Z.to_nat (c' - Z.min mn c) < Z.to_nat k)%nat).
        -- by rewrite lookup_replicate_2.
        -- rewrite lookup_ge_None_2; [done|]. rewrite length_replicate. lia.
  - (* empty *)
    destruct Hs as (?&->&->). simpl. eexists; split; [done|]. split.
    + unfold slots_reserved, slots_out, is_u8; simpl. split_and!; try lia.
    + intros c'. unfold slots_get; simpl. by destruct (c' =? c).
  - destruct Hs as (?&->&?&?&->&Hfst&Hlst). simpl_test.
    assert (1 <= live_count t) as Hlive.
    { destruct Hfst as [a Ha]. by apply mjoin_Some_lookup, live_count_pos in Ha. }
    destruct (mn <? c) eqn:E; bool_prop; try lia.
    + (* above the range *)
      rewrite u16_small by lia. eexists; split; [done|].
      rewrite resize_ge by lia. split.
      * unfold slots_reserved, slots_out, is_u8; simpl.
        rewrite length_app, length_replicate, live_count_app, live_count_replicate.
        split_and!; try lia.
        -- left. rewrite lookup_app_l by lia. done.
      * intros c'. unfold slots_get; simpl. case_test; [done|].
        destruct (decide (Z.to_nat (c' - mn) < length t)%nat).
        -- by rewrite lookup_app_l.
        -- rewrite lookup_app_r by lia. rewrite (lookup_ge_None_2 t) by lia. simpl.
           destruct (replicate _ _ !! _) eqn:El; [|done].
           apply lookup_replicate in El as [-> _]. done.
    + (* below the range *)
      rewrite u16_small by lia. eexists; split; [done|]. split.
      * unfold slots_reserved, slots_out, is_u8; simpl.
        rewrite length_app, length_replicate, live_count_app, live_count_replicate.
        split_and!; try lia.
        -- left. rewrite lookup_app_r by (rewrite length_replicate; lia).
           rewrite length_replicate. idtac.
           match goal with |- is_Some (mjoin (t !! ?i)) =>
             replace i with (length t - 1)%nat by lia end. done.
      * intros c'. unfold slots_get; simpl.
        destruct (decide (c' < c)); [by simpl_test|].
        destruct (decide (c' < mn)).
        -- simpl_test. rewrite lookup_app_l by (rewrite length_replicate; lia).
           by rewrite lookup_replicate_2 by lia.
        -- simpl_test. rewrite lookup_app_r by (rewrite length_replicate; lia).
           rewrite length_replicate. do 2 f_equal. lia.
Qed.

(** Reading the reserved slot, counting a new child in it, and storing the
    child puts the table back in shape. *)
Lemma slots_reserved_ptr s c :
  slots_reserved s c -> slots_ptr s c = Some (slots_get s c).
Proof.
  unfold slots_reserved, slots_out, slots_get, slots_ptr.
  destruct s as [mn cnt live [n|t]]; simpl; intros (?&Ho&Hs); bool_prop.
  - destruct Hs as [-> _]. by simpl_test.
  - destruct Hs as (?&?&?&?&?). simpl_test.
    destruct (lookup_lt_is_Some_2 t (Z.to_nat (c - mn))) as [x Hx]; [lia|].
    by rewrite Hx.
Qed.

Definition slots_set_live (s : slots) (l : Z) : slots :=
  Slots (s_min s) (s_count s) l (s_next s).

(** [++_live_nodes] when the slot was null. *)
Definition slots_count_new (s : slots) (p : option A) : slots :=
  match p with Some _ => s | None => slots_set_live s (u16 (s_live s + 1)) end.

Lemma slots_reserved_live s c :
  slots_reserved s c -> slots_get s c = None ->
  u16 (s_live s + 1) = s_live s + 1 /\
  if s_count s =? 1 then s_live s = 0 else 0 < s_live s.
Proof.
  unfold slots_reserved, slots_out, slots_get, is_u8.
  destruct s as [mn cnt live [n|t]]; simpl; intros (?&Ho&Hs) Hg; bool_prop.
  - destruct Hs as [-> ->]. simpl in *. rewrite (proj2 (Z.eqb_eq c mn)) in Hg by lia.
    subst n. by rewrite u16_small by (simpl; lia).
  - destruct Hs as (?&?&?&->&?&?&?). pose proof (live_count_length t).
    rewrite u16_small by lia. simpl_test. lia.
Qed.

Lemma slots_fill_shape s c n :
  slots_reserved s c ->
  slots_shape (slots_store (slots_count_new s (slots_get s c)) c (Some n)).
Proof.
  intros Hr. pose proof (slots_reserved_ptr s c Hr) as Hp.
  destruct s as [mn cnt live [m|t]].
  - destruct Hr as (?&Ho&?&Hl). unfold slots_out in Ho; simpl in *; subst.
    unfold slots_get, slots_shape; simpl.
    destruct (c =? mn) eqn:E; bool_prop; [|lia]. simpl.
    destruct m; simpl; wrap_small; split_and!; done.
  - pose proof (slots_reserved_live _ _ Hr) as Hl.
    destruct Hr as (?&Ho&?&?&?&Hlv&Hfst&Hlst&?). simpl in *. subst live.
    unfold slots_out, slots_ptr in *; simpl in *; bool_prop. simpl_test.
    rewrite (proj2 (Z.eqb_neq cnt 1)) in Hp by lia.
    set (g := slots_get _ _) in *.
    assert (s_live (slots_count_new (Slots mn cnt (live_count t) (Table t)) g)
            = live_count t - live1 g + 1 /\
            s_next (slots_count_new (Slots mn cnt (live_count t) (Table t)) g) = Table t /\
            s_min (slots_count_new (Slots mn cnt (live_count t) (Table t)) g) = mn /\
            s_count (slots_count_new (Slots mn cnt (live_count t) (Table t)) g) = cnt)
      as (E1 & E2 & E3 & E4).
    { destruct g; simpl; [split_and!; done || lia|].
      destruct (Hl eq_refl) as [-> _]. split_and!; done || lia. }
    unfold slots_store. rewrite E2. unfold slots_shape; simpl. rewrite E1, E3, E4.
    rewrite length_insert. split_and!; try done.
    + by rewrite (live_count_insert _ _ _ (Some n) Hp).
    + destruct (decide (c = mn)) as [->|Hne].
      * rewrite Z.sub_diag. simpl. rewrite list_lookup_insert_eq by lia. by eexists.
      * rewrite list_lookup_insert_ne by lia. destruct Hfst; [done|lia].
    + destruct (decide (c = mn + cnt - 1)) as [->|Hne].
      * replace (Z.to_nat (mn + cnt - 1 - mn)) with (length t - 1)%nat by lia.
        rewrite list_lookup_insert_eq by lia. by eexists.
      * rewrite list_lookup_insert_ne by lia. destruct Hlst; [done|lia].
Qed.

Lemma slots_fill_get s c n c' :
  slots_reserved s c ->
  slots_get (slots_store (slots_count_new s (slots_get s c)) c (Some n)) c' =
  if decide (c' = c) then Some n else slots_get s c'.
Proof.
  intros (?&Ho&Hs). unfold slots_out in Ho.
  assert (forall s', s_min s' = s_min s -> s_count s' = s_count s -> s_next s' = s_next s ->
    slots_get (slots_store s' c (Some n)) c' =
    if decide (c' = c) then Some n else slots_get s c') as Hgen.
  { intros s' E1 E2 E3. unfold slots_store. rewrite E3. bool_prop.
    destruct s as [mn cnt live [m|t]]; simpl in *; unfold slots_get; simpl;
      rewrite ?E1, ?E2.
    - destruct Hs as [-> _]. assert (c = mn) as -> by lia. simpl.
      case_decide; subst; simpl_test; done.
    - destruct Hs as (?&?&?&?). case_decide; subst.
      + simpl_test. by rewrite list_lookup_insert_eq by lia.
      + case_test; [done|]. by rewrite list_lookup_insert_ne by lia. }
  apply Hgen; by destruct (slots_get s c).
Qed.

(** ** Shrinking the table *)

(** A window of the table that cuts off only null pointers. *)
Lemma slots_window mn t k n live :
  is_u8 mn -> mn + Z.of_nat (length t) <= 256 ->
  (k + n <= length t)%nat -> (2 <= n)%nat -> live = live_count t ->
  is_Some (mjoin (t !! k)) -> is_Some (mjoin (t !! (k + n - 1)%nat)) ->
  (forall j, (j < k)%nat \/ (k + n <= j)%nat -> mjoin (t !! j) = None) ->
  let s' := Slots (mn + Z.of_nat k) (Z.of_nat n) live (Table (take n (drop k t))) in
  slots_shape s' /\
  forall c l c0, slots_get s' c = slots_get (Slots mn c0 l (Table t)) c.
Proof.
  unfold is_u8. intros ? ? Hkn Hn -> Hf Hl Hout. simpl.
  assert (Hlk : forall j, take n (drop k t) !! j =
                     if decide (j < n)%nat then t !! (k + j)%nat else None).
  { intros j. case_decide.
    - rewrite lookup_take_lt by done. by rewrite lookup_drop.
    - apply lookup_take_ge. lia. }
  assert (live_count (take n (drop k t)) = live_count t) as Hlive.
  { rewrite <- (take_drop k t) at 2. rewrite <- (take_drop n (drop k t)) at 2.
    rewrite !live_count_app. rewrite (live_count_null (take k t)), (live_count_null (drop n (drop k t))); [lia| |].
    - intros j. rewrite drop_drop, lookup_drop. apply Hout. lia.
    - intros j. destruct (decide (j < k)%nat).
      + rewrite lookup_take_lt by done. apply Hout. lia.
      + by rewrite lookup_take_ge by lia. }
  assert (length (take n (drop k t)) = n) as Hlen
    by (rewrite length_take, length_drop; lia).
  split.
  - unfold slots_shape, is_u8; simpl. rewrite Hlen, !Hlk, Hlive.
    rewrite !decide_True by lia. rewrite Nat.add_0_r.
    replace (k + (n - 1))%nat with (k + n - 1)%nat by lia.
    destruct Hf as [a Ha]. apply mjoin_Some_lookup, lookup_lt_Some in Ha as Hlt.
    rewrite Ha. split_and!; try lia; [by eexists|done].
  - intros c l c0. unfold slots_get; simpl. rewrite Hlk.
    destruct (c <? mn) eqn:E1; bool_prop; [by simpl_test|].
    destruct (c <? mn + Z.of_nat k) eqn:E2; bool_prop.
    + symmetry. apply Hout. lia.
    + case_decide.
      * do 2 f_equal. lia.
      * simpl. symmetry. apply Hout. lia.
Qed.

(** A table with one live pointer becomes a single node. *)
Lemma slots_single mn t k a :
  is_u8 mn -> mn + Z.of_nat (length t) <= 256 -> t !! k = Some (Some a) ->
  (forall j, j <> k -> mjoin (t !! j) = None) ->
  let s' := Slots (mn + Z.of_nat k) 1 1 (Node (Some a)) in
  slots_shape s' /\
  forall c l c0, slots_get s' c = slots_get (Slots mn c0 l (Table t)) c.
Proof.
  unfold is_u8. intros ? ? Hk Hout. pose proof (lookup_lt_Some _ _ _ Hk). split.
  - unfold slots_shape, is_u8; simpl. lia.
  - intros c l c0. unfold slots_get; simpl.
    destruct (c =? mn + Z.of_nat k) eqn:E; bool_prop.
    + subst. simpl_test. replace (Z.to_nat _) with k by lia. by rewrite Hk.
    + case_test; [done|]. symmetry. apply Hout. lia.
Qed.

(** Clearing a pointer of the table. *)
Lemma slots_get_clear mn cnt live t c l c0 c' :
  mn <= c ->
  slots_get (Slots mn cnt live (Table (<[Z.to_nat (c - mn) := None]> t))) c' =
  if decide (c' = c) then None else slots_get (Slots mn c0 l (Table t)) c'.
Proof.
  intros Hc. unfold slots_get; simpl. case_decide; subst.
  - case_test; [done|]. destruct (decide (Z.to_nat (c - mn) < length t)%nat).
    + by rewrite list_lookup_insert_eq.
    + rewrite lookup_ge_None_2; [done|]. rewrite length_insert. lia.
  - case_test; [done|]. by rewrite list_lookup_insert_ne by lia.
Qed.

(** A smaller table [s'] holds the children of the table [t] from [mn]. *)
Definition same_children (s' : slots) (mn : Z) t : Prop :=
  slots_shape s' /\ forall c l c0, slots_get s' c = slots_get (Slots mn c0 l (Table t)) c.

Section cut.
Context (mn : Z) (t : list (option A)).
Hypothesis Hmn : is_u8 mn.
Hypothesis Hle : mn + Z.of_nat (length t) <= 256.
Hypothesis Hlen : (2 <= length t)%nat.

(** The first pointer was cleared: the window starts at the next live one. *)
Lemma cut_left a1 :
  t !! 0%nat = Some None -> t !! (length t - 1)%nat = Some (Some a1) -> live_count t <> 1 ->
  exists i, first_live (drop 1 t) = Some i /\ (S i < length t - 1)%nat /\
    same_children (Slots (mn + Z.of_nat (S i)) (Z.of_nat (length t - S i)) (live_count t)
                     (Table (take (length t - S i) (drop (S i) t)))) mn t.
Proof.
  intros H0 Hlst E1.
  assert (1 <= live_count (drop 1 t)) as Hd.
  { apply (live_count_pos _ (length t - 2) a1). rewrite lookup_drop, <- Hlst. f_equal. lia. }
  destruct (first_live_exists _ Hd) as [i Ef]. exists i. split; [done|].
  apply first_live_Some in Ef as [[a Ha] Hbefore]. rewrite lookup_drop in Ha. simpl in Ha.
  pose proof (lookup_lt_Some _ _ _ Ha) as Hlt.
  assert (Hnull : forall j, (j < S i)%nat \/ (length t <= j)%nat -> mjoin (t !! j) = None).
  { intros j [Hj|Hj]; [|by rewrite lookup_ge_None_2].
    destruct j as [|j]; [by rewrite H0|].
    specialize (Hbefore j ltac:(lia)). rewrite lookup_drop in Hbefore. simpl in Hbefore. by rewrite Hbefore. }
  assert (S i <> length t - 1)%nat as Hi1.
  { intros Heq. apply E1, (live_count_unique t (S i) a); [done|]. intros j Hj. apply Hnull. lia. }
  split; [lia|]. apply slots_window; try done; try lia.
  - rewrite Ha. by eexists.
  - replace (S i + (length t - S i) - 1)%nat with (length t - 1)%nat by lia.
    rewrite Hlst. by eexists.
  - intros j Hj. apply Hnull. lia.
Qed.

(** The last pointer was cleared: the window ends at the previous live one. *)
Lemma cut_right a0 :
  t !! 0%nat = Some (Some a0) -> t !! (length t - 1)%nat = Some None -> live_count t <> 1 ->
  exists i, first_live (drop 1 (reverse t)) = Some i /\ (S i < length t - 1)%nat /\
    same_children (Slots mn (Z.of_nat (length t - S i)) (live_count t)
                     (Table (take (length t - S i) t))) mn t.
Proof.
  intros Hfst H1 E1.
  assert (1 <= live_count (drop 1 (reverse t))) as Hd.
  { apply (live_count_pos _ (length t - 2) a0).
    rewrite lookup_drop, reverse_lookup, <- Hfst by lia. f_equal. lia. }
  destruct (first_live_exists _ Hd) as [i Ef]. exists i. split; [done|].
  apply first_live_Some in Ef as [[a Ha] Hbefore].
  pose proof (lookup_lt_Some _ _ _ Ha) as Hli. rewrite length_drop, length_reverse in Hli.
  rewrite lookup_drop, reverse_lookup in Ha by lia.
  assert (Hnull : forall j, (length t - S (S i) < j)%nat -> mjoin (t !! j) = None).
  { intros j Hj. destruct (decide (j < length t)%nat); [|by rewrite lookup_ge_None_2 by lia].
    destruct (decide (j = length t - 1)%nat) as [->|]; [by rewrite H1|].
    specialize (Hbefore (length t - 2 - j)%nat ltac:(lia)).
    rewrite lookup_drop, reverse_lookup in Hbefore by lia.
    replace (length t - S (1 + (length t - 2 - j)))%nat with j in Hbefore by lia.
    by rewrite Hbefore. }
  assert (length t - S (S i) <> 0)%nat as Hi0.
  { intros Heq. apply E1, (live_count_unique t 0 a).
    - rewrite <- Ha. f_equal. lia.
    - intros j Hj. apply Hnull. lia. }
  split; [lia|]. pose proof (slots_window mn t 0 (length t - S i) (live_count t)) as Hw.
  rewrite Z.add_0_r, drop_0 in Hw. apply Hw; try done; try lia.
  - rewrite Hfst. by eexists.
  - replace (0 + (length t - S i) - 1)%nat with (length t - S (1 + i))%nat by lia.
    rewrite Ha. by eexists.
  - intros j [Hj|Hj]; [lia|]. apply Hnull. lia.
Qed.

(** Neither end was cleared: the table stays. *)
Lemma cut_none a0 a1 :
  t !! 0%nat = Some (Some a0) -> t !! (length t - 1)%nat = Some (Some a1) ->
  same_children (Slots mn (Z.of_nat (length t)) (live_count t) (Table t)) mn t.
Proof.
  intros Hfst Hlst. split; [|done]. unfold slots_shape; simpl.
  rewrite Hfst, Hlst. split_and!; first [done | lia | by eexists].
Qed.

(** One live pointer is left. *)
Lemma cut_one k a :
  t !! k = Some (Some a) -> live_count t = 1 ->
  same_children (Slots (mn + Z.of_nat k) 1 1 (Node (Some a))) mn t.
Proof.
  intros Hk H1. apply slots_single; try done.
  intros j Hj. destruct (t !! j) eqn:Ej; [|done]. by eapply (live_count_one t k).
Qed.
End cut.

(** What clearing the pointer of a child leaves of a table in shape. *)
Lemma clear_table mn cnt live t c n :
  let s := Slots mn cnt live (Table t) in
  slots_shape s -> slots_get s c = Some n ->
  let t' := <[Z.to_nat (c - mn) := None]> t in
  exists a0 a1,
  is_u8 mn /\ cnt = Z.of_nat (length t') /\ (2 <= length t')%nat /\
  mn + Z.of_nat (length t') <= 256 /\ mn <= c < mn + Z.of_nat (length t') /\
  2 <= live < 65536 /\ live - 1 = live_count t' /\
  t' !! 0%nat = Some (if c =? mn then None else Some a0) /\
  t' !! (length t' - 1)%nat = Some (if c =? mn + cnt - 1 then None else Some a1) /\
  (forall s', same_children s' mn t' -> slots_shape s' /\ forall c',
     slots_get s' c' = if decide (c' = c) then None else slots_get s c').
Proof.
  simpl. intros Hs Hg. destruct Hs as (Hmn&Hcnt&Hlen&Hle&Hlive&[a0 Hfst]&[a1 Hlst]). simpl in *.
  unfold slots_get in Hg; simpl in Hg. destruct (c <? mn) eqn:Hc; [done|].
  apply mjoin_Some_lookup in Hg. apply mjoin_Some_lookup in Hfst, Hlst. bool_prop.
  pose proof (lookup_lt_Some _ _ _ Hg). pose proof (live_count_length t).
  assert (2 <= live_count t) by (eapply (live_count_two t 0 (length t - 1)); eauto; lia).
  unfold is_u8 in *. exists a0, a1. rewrite length_insert. split_and!; try lia.
  - rewrite (live_count_insert _ _ _ _ Hg). simpl. lia.
  - destruct (c =? mn) eqn:E; bool_prop.
    + replace (Z.to_nat (c - mn)) with 0%nat by lia. by rewrite list_lookup_insert_eq by lia.
    + by rewrite list_lookup_insert_ne by lia.
  - destruct (c =? mn + cnt - 1) eqn:E; bool_prop.
    + replace (Z.to_nat (c - mn)) with (length t - 1)%nat by lia.
      by rewrite list_lookup_insert_eq by lia.
    + by rewrite list_lookup_insert_ne by lia.
  - intros s' [Hsh Hget]. split; [done|]. intros c'. rewrite (Hget c' 0 0).
    by apply slots_get_clear.
Qed.

End node_table.

Arguments next_t : clear implicits.
Arguments slots : clear implicits.
