(* ===== verification/Trie.v ===== *)
(** * The subscription trie, [trie_t] (src/src/trie.cpp, src/src/trie.hpp)

    A node counts the subscriptions equal to the path that leads to it.
    [add], [rm], [check] and [apply] are translated statement by
    statement over the child table of [NodeTable]; an abort, a null
    dereference or a read of the wrong union member is [None]. *)

From S2P Require Import Prelude NodeTable Subscription.

Inductive trie := Trie (refcnt : Z) (next : slots trie).

Definition trie_refcnt (t : trie) : Z := let 'Trie r _ := t in r.
Definition trie_next (t : trie) : slots trie := let 'Trie _ s := t in s.

(** The constructor of [trie_t]. *)
Definition trie_new : trie := Trie 0 slots_new.

Definition trie_is_redundant (t : trie) : bool :=
  (trie_refcnt t =? 0) && (s_live (trie_next t) =? 0).

Fixpoint trie_add (t : trie) (prefix : bytes) : option (trie * bool) :=
  let 'Trie r s := t in
  match prefix with
  | [] => let r' := u32 (r + 1) in Some (Trie r' s, r' =? 1)
  | c :: prefix' =>
      let* s1 := if slots_out s c then slots_extend s c else Some s in
      let* p := slots_ptr s1 c in
      let s2 := slots_count_new s1 p in
      let node := match p with Some n => n | None => trie_new end in
      zmq_assert (match p with
                  | Some _ => true
                  | None => if s_count s2 =? 1 then s_live s2 =? 1 else 1 <? s_live s2
                  end) ;;
      let* (node', ret) := trie_add node prefix' in
      Some (Trie r (slots_store s2 c (Some node')), ret)
  end.

(** The pruning of a child of [rm] and the compaction of the table. *)
Definition trie_prune (s : slots trie) (c : Z) : option (slots trie) :=
  let '(Slots mn cnt live nx) := s in
  zmq_assert (0 <? cnt) ;;
  if cnt =? 1 then
    let live' := u16 (live - 1) in
    zmq_assert (live' =? 0) ;;
    Some (Slots mn 0 live' (Node None))
  else
    match nx with
    | Node _ => None
    | Table t =>
        let t := <[Z.to_nat (c - mn) := None]> t in
        zmq_assert (1 <? live) ;;
        let live' := u16 (live - 1) in
        if live' =? 1 then
          let* (mn', node) :=
            if c =? mn then
              let* n := t !! Z.to_nat (cnt - 1) in Some (u8 (mn + cnt - 1), n)
            else if c =? mn + cnt - 1 then
              let* n := t !! 0%nat in Some (mn, n)
            else Some (mn, None) in
          match node with
          | Some _ => Some (Slots mn' 1 live' (Node node))
          | None => None
          end
        else if c =? mn then
          let new_min := match first_live (drop 1 t) with
                         | Some i => u8 (Z.of_nat (S i) + mn)
                         | None => mn
                         end in
          zmq_assert (negb (new_min =? mn)) ;;
          zmq_assert (mn <? new_min) ;;
          zmq_assert (new_min - mn <? cnt) ;;
          let cnt' := u16 (cnt - (new_min - mn)) in
          Some (Slots new_min cnt' live'
                  (Table (take (Z.to_nat cnt') (drop (Z.to_nat (new_min - mn)) t))))
        else if c =? mn + cnt - 1 then
          let new_count := match first_live (drop 1 (reverse t)) with
                           | Some i => u16 (cnt - Z.of_nat (S i))
                           | None => cnt
                           end in
          zmq_assert (negb (new_count =? cnt)) ;;
          Some (Slots mn new_count live' (Table (take (Z.to_nat new_count) t)))
        else Some (Slots mn cnt live' (Table t))
    end.

Fixpoint trie_rm (t : trie) (prefix : bytes) : option (trie * bool) :=
  let 'Trie r s := t in
  match prefix with
  | [] =>
      if r =? 0 then Some (t, false)
      else let r' := u32 (r - 1) in Some (Trie r' s, r' =? 0)
  | c :: prefix' =>
      if (s_count s =? 0) || slots_out s c then Some (t, false)
      else
        let* p := slots_ptr s c in
        match p with
        | None => Some (t, false)
        | Some node =>
            let* (node', ret) := trie_rm node prefix' in
            if trie_is_redundant node' then
              let* s' := trie_prune s c in Some (Trie r s', ret)
            else Some (Trie r (slots_store s c (Some node')), ret)
        end
  end.

Fixpoint trie_check (t : trie) (data : bytes) : option bool :=
  let 'Trie r s := t in
  if negb (r =? 0) then Some true
  else
    match data with
    | [] => Some false
    | c :: data' =>
        if slots_out s c then Some false
        else
          let* p := slots_ptr s c in
          match p with
          | Some n => trie_check n data'
          | None => if s_count s =? 1 then None else Some false
          end
    end.

(** The keys [apply_helper] hands to the callback, in its order; [buff]
    is the part of the buffer filled so far. *)
Fixpoint trie_apply_helper (t : trie) (buff : bytes) : option (list bytes) :=
  let 'Trie r s := t in
  let here := if r =? 0 then [] else [buff] in
  let* l := slots_visit (fun n c => trie_apply_helper n (buff ++ [c])) s in
  Some (here ++ l).

Definition trie_apply (t : trie) : option (list bytes) := trie_apply_helper t [].

(** ** What a trie stores: the number of subscriptions of each key *)

Fixpoint trie_refs (t : trie) (k : bytes) : Z :=
  match k with
  | [] => trie_refcnt t
  | c :: k' =>
      match slots_get (trie_next t) c with
      | Some n => trie_refs n k'
      | None => 0
      end
  end.

(** Reference counts are 32 bits wide, tables are in shape, and no child
    is redundant. *)
Inductive trie_wf : trie -> Prop :=
| trie_wf_node r s :
    is_u32 r -> slots_shape s ->
    (forall c n, slots_get s c = Some n -> trie_wf n) ->
    (forall c n, slots_get s c = Some n -> trie_is_redundant n = false) ->
    trie_wf (Trie r s).

(** ** Growth *)

(** The table [add] works on after the growth step. *)
Lemma trie_reserve (s : slots trie) c :
  slots_shape s -> is_u8 c ->
  exists s1, (if slots_out s c then slots_extend s c else Some s) = Some s1 /\
    slots_reserved s1 c /\ forall c', slots_get s1 c' = slots_get s c'.
Proof.
  intros Hs Hc. destruct (slots_out s c) eqn:E.
  - by apply slots_extend_reserved.
  - exists s. split_and!; try done. by apply slots_shape_reserved.
Qed.

Lemma trie_new_wf : trie_wf trie_new.
Proof.
  constructor; try done; intros c n; unfold slots_get; simpl; done.
Qed.

Lemma trie_refs_new k : trie_refs trie_new k = 0.
Proof. destruct k; done. Qed.

Lemma trie_add_step r s c k :
  slots_shape s -> is_u8 c ->
  exists s', (forall node', slots_shape (s' node') /\
     (forall c', slots_get (s' node') c' =
                 if decide (c' = c) then Some node' else slots_get s c')) /\
  trie_add (Trie r s) (c :: k) =
    (let* (node', ret) := trie_add (default trie_new (slots_get s c)) k in
     Some (Trie r (s' node'), ret)).
Proof.
  intros Hs Hc. destruct (trie_reserve s c Hs Hc) as (s1 & E1 & Hr & Hg).
  exists (fun node' => slots_store (slots_count_new s1 (slots_get s1 c)) c (Some node')).
  split.
  - intros node'. split; [by apply slots_fill_shape|]. intros c'.
    rewrite slots_fill_get by done. case_decide; [done|]. apply Hg.
  - simpl. rewrite E1. simpl. rewrite (slots_reserved_ptr _ _ Hr). simpl.
    rewrite <- (Hg c).
    destruct (slots_get s1 c) as [n|] eqn:En; [done|]. simpl.
    destruct (slots_reserved_live _ _ Hr En) as [-> Hl].
    destruct (s_count s1 =? 1); simpl_test; done.
Qed.

Lemma trie_add_spec k : forall t,
  trie_wf t -> bytes_ok k -> trie_refs t k + 1 < 4294967296 ->
  exists t' b, trie_add t k = Some (t', b) /\ trie_wf t' /\
    trie_is_redundant t' = false /\ b = (trie_refs t k =? 0) /\
    forall k', trie_refs t' k' =
               if decide (k' = k) then trie_refs t k + 1 else trie_refs t k'.
Proof.
  induction k as [|c k IH]; intros t Hwf Hk Hov; destruct Hwf as [r s Hr Hs Hch Hnr0].
  - simpl in *. unfold is_u32 in Hr. rewrite u32_small by (unfold is_u32; lia).
    eexists _, _; split; [done|]. split_and!.
    + constructor; [unfold is_u32; lia|done|done|done].
    + unfold trie_is_redundant; simpl. by simpl_test.
    + apply eq_true_iff_eq. rewrite !Z.eqb_eq. lia.
    + intros [|c' k']; done.
  - apply Forall_cons_1 in Hk as [Hc Hk].
    destruct (trie_add_step r s c k Hs Hc) as (s' & Hs' & ->). simpl in Hov.
    set (n := default trie_new (slots_get s c)).
    assert (trie_wf n) as Hn.
    { unfold n. destruct (slots_get s c) eqn:E; [by eapply Hch|apply trie_new_wf]. }
    assert (forall k', trie_refs n k' = trie_refs (Trie r s) (c :: k')) as Hnr.
    { intros k'. unfold n; simpl. destruct (slots_get s c); [done|]. apply trie_refs_new. }
    destruct (IH n Hn Hk) as (n' & b & -> & Hwf' & Hred & -> & Hrefs).
    { rewrite Hnr. done. }
    destruct (Hs' n') as [Hsh Hget]. simpl.
    eexists _, _; split; [done|]. split_and!.
    + constructor; [done|done| |]; intros c' m; rewrite Hget; case_decide;
        [intros [= <-]; done|by apply Hch|intros [= <-]; done|by apply Hnr0].
    + unfold trie_is_redundant; simpl.
      assert (1 <= s_live (s' n')) by (eapply (slots_live_pos _ c); [done|];
        rewrite Hget; by rewrite decide_True).
      destruct (r =? 0); by simpl_test.
    + by rewrite Hnr.
    + intros [|c' k']; [done|]. simpl. rewrite Hget. case_decide as Ec.
      * subst. rewrite Hrefs, !Hnr. simpl.
        destruct (decide (k' = k)) as [->|].
        -- by rewrite decide_True.
        -- rewrite decide_False by congruence. done.
      * rewrite decide_False by congruence. done.
Qed.

(** ** Pruning *)

Lemma trie_prune_spec s c n :
  slots_shape s -> slots_get s c = Some n ->
  exists s', trie_prune s c = Some s' /\ slots_shape s' /\
    forall c', slots_get s' c' = if decide (c' = c) then None else slots_get s c'.
Proof.
  intros Hs Hg. destruct s as [mn cnt live [[m|]|t]].
  - destruct Hs as (?&Hc&Hl). simpl in *. subst. simpl. eexists; split; [done|].
    split; [done|]. intros c'. unfold slots_get in *; simpl in *. case_decide; [done|].
    destruct (c =? mn) eqn:?; [|done]. bool_prop. subst. by simpl_test.
  - unfold slots_get in Hg; simpl in Hg. case_test; done.
  - destruct (clear_table _ _ _ _ _ _ Hs Hg)
      as (a0&a1&Hmn&->&Hlen&Hle&Hc&Hlive&Hl'&Hfst&Hlst&Hdone).
    unfold trie_prune. simpl_test. rewrite u16_small by lia. rewrite Hl' in *.
    set (t' := <[Z.to_nat (c - mn):=None]> t) in *. clearbody t'. unfold is_u8 in Hmn.
    enough (forall s0, same_children s0 mn t' -> exists s' : slots trie,
      Some s0 = Some s' /\ slots_shape s' /\ forall c', slots_get s' c' =
        if decide (c' = c) then None
        else slots_get (Slots mn (Z.of_nat (length t')) live (Table t)) c') as Hfin.
    2:{ intros s0 H0. exists s0. split; [done|]. by apply Hdone. }
    destruct (live_count t' =? 1) eqn:E1; bool_prop.
    + (* one live pointer is left *)
      rewrite E1. destruct (c =? mn) eqn:E2; bool_prop.
      * rewrite (proj2 (Z.eqb_neq _ _)) in Hlst by lia.
        replace (Z.to_nat (Z.of_nat (length t') - 1)) with (length t' - 1)%nat by lia.
        rewrite Hlst. simpl. wrap_small. apply Hfin.
        replace (mn + Z.of_nat (length t') - 1) with (mn + Z.of_nat (length t' - 1)) by lia.
        by apply cut_one.
      * destruct (c =? mn + Z.of_nat (length t') - 1) eqn:E3.
        -- rewrite Hfst. simpl. apply Hfin. rewrite <- (Z.add_0_r mn) at 1.
           by apply (cut_one mn t' Hmn Hle 0).
        -- exfalso. pose proof (live_count_two t' 0 (length t' - 1) a0 a1 ltac:(lia) Hfst Hlst). lia.
    + destruct (c =? mn) eqn:E2; bool_prop.
      * (* the table shrinks from the left *)
        rewrite (proj2 (Z.eqb_neq _ _)) in Hlst by lia.
        destruct (cut_left mn t' Hmn Hle Hlen a1) as (i&->&Hi&Hsame); try done.
        wrap_small. simpl_test.
        replace (Z.of_nat (S i) + mn - mn) with (Z.of_nat (S i)) by lia.
        rewrite <- Nat2Z.inj_sub by lia. rewrite !Nat2Z.id, (Z.add_comm _ mn). by apply Hfin.
      * destruct (c =? mn + Z.of_nat (length t') - 1) eqn:E3.
        -- (* the table shrinks from the right *)
           destruct (cut_right mn t' Hmn Hle Hlen a0) as (i&->&Hi&Hsame); try done.
           wrap_small. simpl_test. rewrite <- Nat2Z.inj_sub by lia. rewrite !Nat2Z.id.
           by apply Hfin.
        -- apply Hfin. by eapply cut_none.
Qed.

(** ** Removal, lookup and enumeration *)

Lemma trie_refs_range k : forall t, trie_wf t -> is_u32 (trie_refs t k).
Proof.
  induction k as [|c k IH]; intros t Hwf; destruct Hwf as [r s Hr Hs Hch _]; simpl; [done|].
  destruct (slots_get s c) eqn:E; [|done]. eauto.
Qed.

Lemma trie_redundant_refs t k : trie_wf t -> trie_is_redundant t = true -> trie_refs t k = 0.
Proof.
  intros Hwf Hr. destruct Hwf as [r s _ Hs _ _]. unfold trie_is_redundant in Hr. simpl in Hr.
  bool_prop. subst. destruct k as [|c k]; simpl; [done|]. by rewrite slots_live_0.
Qed.

(** Replacing an existing child. *)
Lemma trie_store_child r s c n n' :
  trie_wf (Trie r s) -> slots_get s c = Some n -> trie_wf n' -> trie_is_redundant n' = false ->
  trie_wf (Trie r (slots_store s c (Some n'))) /\
  forall c', slots_get (slots_store s c (Some n')) c' =
             if decide (c' = c) then Some n' else slots_get s c'.
Proof.
  intros Hwf Hg Hn' Hr'. inversion_clear Hwf as [? ? Hr Hs Hch Hnr].
  assert (slots_out s c = false) as Ho.
  { destruct (slots_out s c) eqn:E; [|done]. by rewrite slots_get_out in Hg. }
  pose proof (slots_shape_reserved s c Hs Ho) as Hres.
  pose proof (slots_fill_shape s c n' Hres) as Hsh.
  assert (Hget := fun c' => slots_fill_get s c n' c' Hres). rewrite Hg in *. simpl in *.
  split; [|done]. constructor; [done|done| |]; intros c' m; rewrite Hget; case_decide;
    [intros [= <-]; done|by apply Hch|intros [= <-]; done|by apply Hnr].
Qed.

Lemma trie_rm_spec k : forall t,
  trie_wf t ->
  exists t' b, trie_rm t k = Some (t', b) /\ trie_wf t' /\ b = (trie_refs t k =? 1) /\
    forall k', trie_refs t' k' =
               if decide (k' = k) then Z.max 0 (trie_refs t k - 1) else trie_refs t k'.
Proof.
  induction k as [|c k IH]; intros t Hwf; inversion Hwf as [r s Hr Hs Hch Hnr]; subst.
  - simpl. unfold is_u32 in Hr. destruct (r =? 0) eqn:E; bool_prop.
    + subst. eexists _, _; split; [done|]. split_and!; [done|done|]. intros [|c' k']; done.
    + rewrite u32_small by (unfold is_u32; lia). eexists _, _; split; [done|]. split_and!.
      * constructor; [unfold is_u32; lia|done|done|done].
      * apply eq_true_iff_eq. rewrite !Z.eqb_eq. lia.
      * intros [|c' k']; simpl; [lia|done].
  - assert (slots_get s c = None -> exists t' b,
      Some (Trie r s, false) = Some (t', b) /\ trie_wf t' /\
      b = (trie_refs (Trie r s) (c :: k) =? 1) /\ forall k', trie_refs t' k' =
        if decide (k' = c :: k) then Z.max 0 (trie_refs (Trie r s) (c :: k) - 1)
        else trie_refs (Trie r s) k') as Habsent.
    { intros Hn. exists (Trie r s), false. simpl. rewrite Hn. split_and!; try done.
      intros k'. case_decide; [|done]. subst. simpl. by rewrite Hn. }
    cbn [trie_rm]. destruct (s_count s =? 0) eqn:E0; bool_prop; cbn [orb].
    { apply Habsent. by apply slots_get_count_0. }
    destruct (slots_out s c) eqn:Eo; [by apply Habsent, slots_get_out|].
    rewrite (slots_get_ptr s c Hs Eo). cbn [mbind option_bind].
    destruct (slots_get s c) as [n|] eqn:Hg; [|by apply Habsent].
    destruct (IH n (Hch _ _ Hg)) as (n' & b & Hrm & Hwf' & Hb & Hrefs).
    rewrite Hrm. cbn [mbind option_bind]. destruct (trie_is_redundant n') eqn:Hred.
    + destruct (trie_prune_spec s c n Hs Hg) as (s' & -> & Hsh & Hget). simpl.
      eexists _, _; split; [done|]. split_and!.
      * constructor; [done|done| |]; intros c' m; rewrite Hget; case_decide; try done;
          [by apply Hch|by apply Hnr].
      * simpl. by rewrite Hg.
      * intros [|c' k']; [done|]. simpl. rewrite Hget, Hg. case_decide as Ec.
        -- subst. rewrite Hg.
           assert (trie_refs n' k' = 0) as H0 by by apply trie_redundant_refs.
           rewrite Hrefs in H0. destruct (decide (k' = k)) as [->|].
           ++ rewrite decide_True by done. done.
           ++ rewrite decide_False by congruence. done.
        -- by rewrite decide_False by congruence.
    + destruct (trie_store_child r s c n n' Hwf Hg Hwf' Hred) as [Hwf'' Hget].
      eexists _, _; split; [done|]. split_and!.
      * done.
      * simpl. by rewrite Hg.
      * intros [|c' k']; [done|]. simpl. rewrite Hget, Hg. case_decide as Ec.
        -- subst. rewrite Hrefs, Hg. destruct (decide (k' = k)) as [->|].
           ++ by rewrite decide_True by done.
           ++ by rewrite decide_False by congruence.
        -- by rewrite decide_False by congruence.
Qed.

Lemma trie_check_spec d : forall t, trie_wf t ->
  exists b, trie_check t d = Some b /\
    (b = true <-> exists p, p `prefix_of` d /\ trie_refs t p <> 0).
Proof.
  induction d as [|c d IH]; intros t Hwf; inversion Hwf as [r s Hr Hs Hch Hnr]; subst;
    cbn [trie_check]; destruct (r =? 0) eqn:E; bool_prop; simpl.
  - subst. exists false. split; [done|]. split; [done|]. intros (p & Hp & Hne).
    apply prefix_nil_inv in Hp. by subst.
  - exists true. split; [done|]. split; [|done]. intros _. exists []. split; [done|done].
  - subst.
    assert (slots_get s c = None -> exists b, Some false = Some b /\
      (b = true <-> exists p, p `prefix_of` c :: d /\ trie_refs (Trie 0 s) p <> 0)) as Habsent.
    { intros Hg. exists false. split; [done|]. split; [done|]. intros ([|c' p] & Hp & Hne); [done|].
      apply prefix_cons_inv_1 in Hp as Hc. subst. simpl in Hne. by rewrite Hg in Hne. }
    destruct (slots_out s c) eqn:Eo; [by apply Habsent, slots_get_out|].
    rewrite (slots_get_ptr s c Hs Eo). simpl. destruct (slots_get s c) as [n|] eqn:Hg.
    + destruct (IH n (Hch _ _ Hg)) as (b & -> & Hb). exists b. split; [done|]. rewrite Hb. split.
      * intros (p & Hp & Hne). exists (c :: p). split; [by apply prefix_cons|]. simpl. by rewrite Hg.
      * intros ([|c' p] & Hp & Hne); [done|]. apply prefix_cons_inv_1 in Hp as Hc. subst.
        apply prefix_cons_inv_2 in Hp. simpl in Hne. rewrite Hg in Hne. eauto.
    + destruct (s_count s =? 1) eqn:E1; bool_prop; [|by apply Habsent].
      exfalso. destruct s as [mn cnt live [[m|]|tb]]; unfold slots_shape in Hs; simpl in *.
      * unfold slots_get, slots_out in *; simpl in *. subst. bool_prop.
        rewrite (proj2 (Z.eqb_eq c mn)) in Hg by lia. done.
      * lia.
      * lia.
  - exists true. split; [done|]. split; [|done]. intros _. exists []. split; [|done].
    apply prefix_nil.
Qed.

Lemma trie_apply_spec t : trie_wf t -> forall buff,
  exists l, trie_apply_helper t buff = Some l /\ NoDup l /\
    forall x, x ∈ l <-> exists k, x = buff ++ k /\ trie_refs t k <> 0.
Proof.
  induction 1 as [r s Hr Hs Hch IH Hnr]. intros buff.
  set (here := if r =? 0 then [] else [buff]).
  assert (forall x, x ∈ here <-> x = buff /\ r <> 0) as Hhere.
  { intros x. unfold here. destruct (r =? 0) eqn:?; bool_prop.
    - rewrite elem_of_nil. split; [done|by intros [_ ?]].
    - rewrite list_elem_of_singleton. split; [done|by intros [? _]]. }
  assert (NoDup here) by (unfold here; case_match; repeat constructor; set_solver).
  set (g := fun c => match slots_get s c with
                     | Some n => default [] (trie_apply_helper n (buff ++ [c]))
                     | None => [] end).
  assert (forall c n x, slots_get s c = Some n ->
    x ∈ g c <-> exists k, x = buff ++ c :: k /\ trie_refs n k <> 0) as Hg.
  { intros c n x Hc. unfold g. rewrite Hc. destruct (IH c n Hc (buff ++ [c])) as (l&->&_&Hin).
    simpl. rewrite Hin. by setoid_rewrite <- app_assoc. }
  destruct (slots_visit_spec (fun n c => trie_apply_helper n (buff ++ [c])) g s Hs)
    as (l & Hl & Hnd & Hin).
  { intros c n Hc. unfold g. rewrite Hc. by destruct (IH c n Hc (buff ++ [c])) as (l&->&?&_). }
  { intros c c' x Hcc Hx Hx'. destruct (slots_get s c) as [n|] eqn:Hc; [|unfold g in Hx; rewrite Hc in Hx; set_solver].
    destruct (slots_get s c') as [n'|] eqn:Hc'; [|unfold g in Hx'; rewrite Hc' in Hx'; set_solver].
    apply (Hg c n) in Hx as (k&->&_); [|done]. apply (Hg c' n') in Hx' as (k'&Heq&_); [|done].
    apply app_inv_head in Heq. congruence. }
  cbn [trie_apply_helper]. rewrite Hl. cbn [mbind option_bind]. exists (here ++ l). split; [done|]. split.
  - apply list.NoDup_app. split_and!; try done. intros x [-> _]%Hhere (c&n&Hc&Hx)%Hin.
    apply (Hg c n) in Hx as (k&Heq&_); [|done].
    apply (f_equal length) in Heq. rewrite length_app in Heq. simpl in Heq. lia.
  - intros x. rewrite elem_of_app, Hhere, Hin. split.
    + intros [[-> Hne]|(c&n&Hc&Hx)].
      * exists []. by rewrite app_nil_r.
      * apply (Hg c n) in Hx as (k&->&?); [|done]. exists (c :: k). simpl. by rewrite Hc.
    + intros ([|c k] & -> & Hne); simpl in Hne.
      * left. by rewrite app_nil_r.
      * right. destruct (slots_get s c) as [n|] eqn:Hc; [|done]. exists c, n. split; [done|].
        apply (Hg c n); [done|]. by exists k.
Qed.

(** ** The trie meets the contract of a subscription store *)

#[export] Instance trie_store : SubStore trie := {
  ss_new := trie_new;
  ss_add := trie_add;
  ss_rm := trie_rm;
  ss_check := trie_check;
  ss_apply := trie_apply;
  ss_refs := trie_refs;
  ss_wf := trie_wf;
}.

#[export] Instance trie_store_laws : SubStoreLaws trie.
Proof.
  constructor; simpl.
  - split; [apply trie_new_wf|apply trie_refs_new].
  - intros s k Hwf. by apply trie_refs_range.
  - intros s k Hwf Hk Hov. destruct (trie_add_spec k s Hwf Hk Hov) as (t&b&?&?&_&?&?). eauto 6.
  - intros s k Hwf. apply trie_rm_spec; done.
  - intros s d Hwf. by apply trie_check_spec.
  - intros s Hwf. destruct (trie_apply_spec s Hwf []) as (l & Hl & Hnd & Hin).
    exists l. split_and!; try done. intros k. rewrite Hin. simpl. split; [|eauto].
    by intros (k' & -> & ?).
Qed.

(** A node that is not redundant has a subscription at or below it. *)
Lemma trie_live_key t : trie_wf t -> trie_is_redundant t = false ->
  exists k, bytes_ok k /\ trie_refs t k <> 0.
Proof.
  induction 1 as [r s Hr Hs Hch IH Hnr]. intros Hred.
  unfold trie_is_redundant in Hred. simpl in Hred.
  destruct (r =? 0) eqn:E; bool_prop.
  - destruct Hred as [|Hl]; [done|]. bool_prop.
    assert (exists c n, slots_get s c = Some n) as (c & n & Hg).
    { destruct s as [mn cnt live [[m|]|t]]; unfold slots_shape in Hs; simpl in *.
      - exists mn, m. unfold slots_get; simpl. by simpl_test.
      - lia.
      - destruct Hs as (?&_&_&_&_&[a Ha]&_). apply mjoin_Some_lookup in Ha.
        exists (mn + Z.of_nat 0), a. unfold is_u8 in *. apply slots_get_table; [lia|done]. }
    destruct (IH c n Hg (Hnr c n Hg)) as (k & Hk & Hne). exists (c :: k). split.
    + constructor; [by eapply slots_get_range|done].
    + simpl. by rewrite Hg.
  - exists []. split; [constructor|done].
Qed.

(** C12: on every sequence of [add] and [rm] from the empty trie, of fewer
    than 2^32 operations, no assertion fails, each call returns what the
    abstract multiset of subscriptions returns (true exactly when a key
    appears or disappears), [check] finds a match exactly when a prefix
    of the data is subscribed, and [apply] visits every subscribed key
    once and nothing else. *)
Theorem trie_refines_subscriptions (ops : list sub_op) :
  Forall (fun o => bytes_ok (sub_op_key o)) ops ->
  Z.of_nat (length ops) < 4294967296 ->
  exists t l,
    ss_run trie_new ops = Some (t, snd (subs_run ∅ ops)) /\
    (forall d, trie_check t d = Some (subs_check (fst (subs_run ∅ ops)) [] d)) /\
    trie_apply t = Some l /\ l ≡ₚ (map_to_list (fst (subs_run ∅ ops))).*1.
Proof.
  intros Hops Hlen.
  destruct (@ss_run_repr trie trie_store trie_store_laws ops trie_new ∅ ss_repr_new Hops) as (t & Hrun & Hrep).
  { intros k. simpl. rewrite trie_refs_new. lia. }
  destruct (ss_apply_repr t _ Hrep) as (l & Hl & Hp).
  exists t, l. split_and!; try done. intros d. exact (ss_check_repr t _ d Hrep).
Qed.

(** [rm] gives back all the memory of removed subscriptions.  When the
    abstract multiset is empty after a sequence of operations, the trie
    is the single root node without a child table. *)
Theorem trie_rm_reclaims (ops : list sub_op) (t : trie) (bs : list bool) :
  Forall (fun o => bytes_ok (sub_op_key o)) ops ->
  Z.of_nat (length ops) < 4294967296 ->
  ss_run trie_new ops = Some (t, bs) ->
  fst (subs_run ∅ ops) = ∅ ->
  trie_refcnt t = 0 /\ s_count (trie_next t) = 0 /\ s_live (trie_next t) = 0 /\
  s_next (trie_next t) = Node None.
Proof.
  intros Hops Hlen Hrun Hempty.
  destruct (@ss_run_repr trie trie_store trie_store_laws ops trie_new ∅ ss_repr_new Hops) as (t' & Hrun' & Hwf & Hrefs).
  { intros k. simpl. rewrite trie_refs_new. lia. }
  rewrite Hrun in Hrun'. simplify_eq. rewrite Hempty in Hrefs. simpl in Hrefs, Hwf.
  destruct (trie_is_redundant t') eqn:Hred.
  - unfold trie_is_redundant in Hred. bool_prop. destruct Hwf as [r s _ Hs _ _]. simpl in *.
    destruct s as [mn cnt live [[m|]|tb]]; unfold slots_shape in Hs; simpl in *; try lia.
    + split_and!; done || lia.
    + destruct Hs as (_&_&_&_&?&[a Ha]&_). apply mjoin_Some_lookup, live_count_pos in Ha. lia.
  - destruct (trie_live_key t' Hwf Hred) as (k & _ & Hne). by rewrite Hrefs, lookup_empty in Hne.
Qed.

(** ** Concrete runs *)

Definition example_ops : list sub_op :=
  [SubAdd [97; 98]; SubAdd [97; 122]; SubAdd [120]; SubAdd [97; 98];
   SubRm [97; 98]; SubRm [97; 122]; SubRm [113]].

Lemma trie_refines_subscriptions_witness :
  exists t l, ss_run trie_new example_ops = Some (t, [true; true; true; false; false; true; false]) /\
    trie_check t [97; 98; 99] = Some true /\ trie_check t [97; 99] = Some false /\
    trie_apply t = Some l /\ l ≡ₚ [[97; 98]; [120]].
Proof.
  destruct (trie_refines_subscriptions example_ops) as (t & l & Hrun & Hck & Hl & Hp).
  - repeat constructor; simpl; unfold is_u8; lia.
  - simpl. lia.
  - exists t, l. split_and!; [exact Hrun|apply Hck|apply Hck|exact Hl|].
    rewrite Hp. vm_compute. first [reflexivity | apply perm_swap].
Defined.

Definition example_empty_ops : list sub_op :=
  [SubAdd [1; 2]; SubAdd [1; 250]; SubRm [1; 2]; SubAdd [7]; SubRm [1; 250]; SubRm [7]].

Lemma trie_rm_reclaims_witness :
  exists t bs, ss_run trie_new example_empty_ops = Some (t, bs) /\
    s_next (trie_next t) = Node None.
Proof.
  destruct (ss_run trie_new example_empty_ops) as [[t bs]|] eqn:E; [|vm_compute in E; discriminate].
  exists t, bs. split; [done|].
  apply (trie_rm_reclaims example_empty_ops t bs); [|simpl; lia|exact E|vm_compute; reflexivity].
  repeat constructor; simpl; unfold is_u8; lia.
Defined.
