(* ===== verification/Radix.v ===== *)
(** * The radix tree of subscriptions, [radix_tree_t] (src/src/radix_tree.cpp)

    With ZMQ_USE_RADIX_TREE an XSUB socket keeps its subscriptions in a
    tree whose nodes hold a piece of the key, the number of references of
    the key that ends there, and edges marked with the first byte of the
    piece below.  A node of the source is one block of memory reached by a
    pointer; here it is a record, and the pointer is the path of edges
    from the root, so that writing a node back into its parent is setting
    it at its path.  Keys are shorter than 2^32 bytes. *)

From S2P Require Import Prelude Subscription Trie.

Inductive rnode := RNode (refcount : Z) (prefix : bytes) (edges : list (Z * rnode)).

Definition rn_refcount (n : rnode) : Z := let 'RNode r _ _ := n in r.
Definition rn_prefix (n : rnode) : bytes := let 'RNode _ p _ := n in p.
Definition rn_edges (n : rnode) : list (Z * rnode) := let 'RNode _ _ e := n in e.

Record radix_tree := RadixTree { rt_root : rnode; rt_size : Z }.

Definition radix_new : radix_tree := RadixTree (RNode 0 [] []) 0.

(** ** Nodes and paths *)

Fixpoint node_at (n : rnode) (path : list nat) : option rnode :=
  match path with
  | [] => Some n
  | i :: path' => let* (_, m) := rn_edges n !! i in node_at m path'
  end.

(** [set_node_at], in every node above as well. *)
Fixpoint set_node_at (n : rnode) (path : list nat) (m : rnode) : option rnode :=
  match path with
  | [] => Some m
  | i :: path' =>
      let '(RNode r p es) := n in
      let* (c, child) := es !! i in
      let* child := set_node_at child path' m in
      Some (RNode r p (<[i := (c, child)]> es))
  end.

Fixpoint find_edge (es : list (Z * rnode)) (c : Z) : option (nat * rnode) :=
  match es with
  | [] => None
  | (c', m) :: es' => if c' =? c then Some (0%nat, m) else let* (i, m) := find_edge es' c in Some (S i, m)
  end.

(** ** Matching *)

Record match_result := MatchResult {
  mr_key_bytes_matched : nat;
  mr_prefix_bytes_matched : nat;
  mr_path : list nat;            (** of the current node; the parent and the grandparent are above it *)
}.

(** [for (...; prefix_byte_index < prefix_length && key_byte_index < key_size_; ...)] *)
Fixpoint common_bytes (prefix key : bytes) : nat :=
  match prefix, key with
  | x :: prefix', y :: key' => if x =? y then S (common_bytes prefix' key') else 0%nat
  | _, _ => 0%nat
  end.

Fixpoint radix_match_loop (fuel : nat) (key : bytes) (is_lookup : bool) (current : rnode) (path : list nat) (kbi pbi : nat)
  : option match_result :=
  let '(RNode refcount prefix edges) := current in
  if (length prefix =? 0)%nat && (length edges =? 0)%nat then Some (MatchResult kbi pbi path)
  else
    let pbi := common_bytes prefix (drop kbi key) in
    let kbi := (kbi + pbi)%nat in
    if is_lookup && (pbi =? length prefix)%nat && (0 <? refcount) then Some (MatchResult (length key) pbi path)
    else if negb (pbi =? length prefix)%nat || (kbi =? length key)%nat then Some (MatchResult kbi pbi path)
    else
      let* c := key !! kbi in
      match find_edge edges c with
      | None => Some (MatchResult kbi pbi path)
      | Some (i, next) =>
          match fuel with
          | O => None
          | S fuel' => radix_match_loop fuel' key is_lookup next (path ++ [i]) kbi pbi
          end
      end.

Definition radix_match (t : radix_tree) (key : bytes) (is_lookup : bool) : option match_result :=
  radix_match_loop (S (length key)) key is_lookup (rt_root t) [] 0 0.

(** ** Adding *)

Definition new_leaf (key : bytes) : rnode := RNode 1 key [].

(** The new current node: an edge to a new leaf, a split into two, a split
    above the rest, or one more reference. *)
Definition radix_add_node (current : rnode) (rest : bytes) (matched : nat) : option rnode :=
  let '(RNode refcount prefix edges) := current in
  match rest with
  | c :: _ =>
      if (matched =? length prefix)%nat then Some (RNode refcount prefix (edges ++ [(c, new_leaf rest)]))
      else
        let split_prefix := drop matched prefix in
        let* c' := head split_prefix in
        Some (RNode 0 (take matched prefix) [(c, new_leaf rest); (c', RNode refcount split_prefix edges)])
  | [] =>
      if negb (matched =? length prefix)%nat then
        let split_prefix := drop matched prefix in
        let* c' := head split_prefix in
        Some (RNode 1 (take matched prefix) [(c', RNode refcount split_prefix edges)])
      else Some (RNode (u32 (refcount + 1)) prefix edges)
  end.

Definition radix_add (t : radix_tree) (key : bytes) : option (radix_tree * bool) :=
  let* m := radix_match t key false in
  let* current := node_at (rt_root t) (mr_path m) in
  let rest := drop (mr_key_bytes_matched m) key in
  let* current' := radix_add_node current rest (mr_prefix_bytes_matched m) in
  let* root := set_node_at (rt_root t) (mr_path m) current' in
  let added := match rest with
               | [] => negb (mr_prefix_bytes_matched m =? length (rn_prefix current))%nat || (rn_refcount current' =? 1)
               | _ => true
               end in
  Some (RadixTree root (u64 (rt_size t + 1)), added).

(** ** Removing *)

(** A node with the single child it keeps: the child's data behind its own piece of the key. *)
Definition merge_child (n child : rnode) : rnode :=
  RNode (rn_refcount child) (rn_prefix n ++ rn_prefix child) (rn_edges child).

(** The last edge takes the place of the edge [i]. *)
Definition remove_edge (es : list (Z * rnode)) (i : nat) : option (list (Z * rnode)) :=
  let* e := list.last es in Some (take (length es - 1) (<[i := e]> es)).

Definition radix_unlink (root : rnode) (path : list nat) (current : rnode) : option rnode :=
  match rn_edges current with
  | _ :: _ :: _ => set_node_at root path current
  | [(_, child)] => set_node_at root path (merge_child current child)
  | [] =>
      let parent_path := removelast path in
      let* edge_index := list.last path in
      let* parent := node_at root parent_path in
      let '(RNode r p es) := parent in
      if (length es =? 2)%nat && (r =? 0) && negb (bool_decide (parent_path = [])) then
        zmq_assert (edge_index <? 2)%nat ;;
        let* (_, other) := es !! (1 - edge_index)%nat in
        set_node_at root parent_path (merge_child parent other)
      else
        let* es' := remove_edge es edge_index in
        set_node_at root parent_path (RNode r p es')
  end.

Definition radix_rm (t : radix_tree) (key : bytes) : option (radix_tree * bool) :=
  let* m := radix_match t key false in
  let* current := node_at (rt_root t) (mr_path m) in
  if negb (mr_key_bytes_matched m =? length key)%nat || negb (mr_prefix_bytes_matched m =? length (rn_prefix current))%nat
     || (rn_refcount current =? 0) then Some (t, false)
  else
    let current' := RNode (u32 (rn_refcount current - 1)) (rn_prefix current) (rn_edges current) in
    let size := u64 (rt_size t - 1) in
    if (0 <? rn_refcount current') || bool_decide (mr_path m = []) then
      let* root := set_node_at (rt_root t) (mr_path m) current' in
      Some (RadixTree root size, negb (0 <? rn_refcount current'))
    else
      let* root := radix_unlink (rt_root t) (mr_path m) current' in
      Some (RadixTree root size, true).

(** ** Looking up and visiting *)

Definition radix_check (t : radix_tree) (key : bytes) : option bool :=
  if 0 <? rn_refcount (rt_root t) then Some true
  else
    let* m := radix_match t key true in
    let* current := node_at (rt_root t) (mr_path m) in
    Some ((mr_key_bytes_matched m =? length key)%nat && (mr_prefix_bytes_matched m =? length (rn_prefix current))%nat
          && (0 <? rn_refcount current)).

(** [for (i = 0; i < edgecount; ++i) visit_keys (node_.node_at (i), ...);] *)
Definition visit_edges (visit : rnode -> option (list bytes)) : list (Z * rnode) -> option (list bytes) :=
  fix go (es : list (Z * rnode)) : option (list bytes) :=
    match es with
    | [] => Some []
    | (_, m) :: es' => let* l := visit m in let* l' := go es' in Some (l ++ l')
    end.

Fixpoint visit_keys (n : rnode) (buffer : bytes) : option (list bytes) :=
  let '(RNode refcount prefix edges) := n in
  let buffer := buffer ++ prefix in
  let* here := (if 0 <? refcount then zmq_assert (negb (bool_decide (buffer = []))) ;; Some [buffer] else Some []) in
  let* below := visit_edges (fun m => visit_keys m buffer) edges in
  Some (here ++ below).

Definition radix_apply (t : radix_tree) : option (list bytes) :=
  let* below := visit_edges (fun m => visit_keys m []) (rn_edges (rt_root t)) in
  Some ((if 0 <? rn_refcount (rt_root t) then [[]] else []) ++ below).

(** ** The references of a key *)

Fixpoint strip (p k : bytes) : option bytes :=
  match p with
  | [] => Some k
  | x :: p' => match k with y :: k' => if x =? y then strip p' k' else None | [] => None end
  end.

Fixpoint rn_refs (n : rnode) (k : bytes) : Z :=
  let '(RNode r p es) := n in
  match strip p k with
  | None => 0
  | Some [] => r
  | Some ((c :: _) as rest) =>
      (fix go (es : list (Z * rnode)) : Z :=
         match es with [] => 0 | (c', m) :: es' => if c' =? c then rn_refs m rest else go es' end) es
  end.

(** ** Well-formed trees: edges lead to nodes that begin with their byte. *)

Inductive rn_wf : rnode -> Prop :=
| rn_wf_intro r p es : is_u32 r -> NoDup (fst <$> es) -> Forall (fun e => rn_wf e.2 /\ head (rn_prefix e.2) = Some e.1) es -> rn_wf (RNode r p es).

Lemma rn_ind (P : rnode -> Prop) : (forall r p es, Forall (fun e => P e.2) es -> P (RNode r p es)) -> forall n, P n.
Proof.
  intros Hstep. fix IH 1. intros [r p es]. apply Hstep. revert es. fix IHes 1. intros [|[c m] es]; constructor; [apply IH|apply IHes].
Qed.

Lemma strip_spec p : forall k r, strip p k = Some r <-> k = p ++ r.
Proof.
  induction p as [|x p IH]; intros k r; simpl; [split; congruence|]. destruct k as [|y k]; [done|].
  destruct (x =? y) eqn:E; bool_prop; [subst; rewrite IH; split; [by intros ->|by intros [= ->]]|]. split; [done|]. intros [= -> _]. done.
Qed.

Lemma strip_app p r : strip p (p ++ r) = Some r.
Proof. by apply strip_spec. Qed.

Lemma strip_refl p : strip p p = Some [].
Proof. apply strip_spec. by rewrite app_nil_r. Qed.

Lemma rn_refs_eq r p es k : rn_refs (RNode r p es) k =
  match strip p k with
  | None => 0
  | Some [] => r
  | Some (c :: k') => match find_edge es c with Some (_, m) => rn_refs m (c :: k') | None => 0 end
  end.
Proof.
  cbn [rn_refs]. destruct (strip p k) as [[|c k']|]; try done. induction es as [|[c' m] es IH]; [done|]. cbn [find_edge].
  destruct (c' =? c); [done|]. rewrite IH. by destruct (find_edge es c) as [[i m']|].
Qed.

Lemma find_edge_lookup es c i m : NoDup (fst <$> es) -> find_edge es c = Some (i, m) <-> es !! i = Some (c, m).
Proof.
  revert i. induction es as [|[c' m'] es IH]; intros i Hnd; [done|]. rewrite fmap_cons in Hnd. apply list.NoDup_cons in Hnd as [Hn Hnd]. cbn [find_edge].
  destruct (c' =? c) eqn:E; bool_prop.
  - subst c'. split; [by intros [= <- <-]|]. destruct i; cbn; [by intros [= <-]|]. intros Hl. destruct Hn.
    apply list_elem_of_fmap. exists (c, m). split; [done|]. by eapply list_elem_of_lookup_2.
  - destruct (find_edge es c) as [[j mj]|] eqn:Ef; cbn [mbind option_bind].
    + split; [intros [= <- <-]; cbn; by apply IH|]. destruct i; cbn; [by intros [= ? _]|]. intros Hl. apply (IH i Hnd) in Hl. by injection Hl as -> ->.
    + split; [done|]. destruct i; cbn; [by intros [= ? _]|]. intros Hl. by apply (IH i Hnd) in Hl.
Qed.

Lemma find_edge_insert es i c m m' c' : NoDup (fst <$> es) -> es !! i = Some (c, m) ->
  snd <$> find_edge (<[i := (c, m')]> es) c' = if decide (c' = c) then Some m' else snd <$> find_edge es c'.
Proof.
  intros Hnd Hi. assert (NoDup (fst <$> <[i := (c, m')]> es)) as Hnd'.
  { rewrite list_fmap_insert. cbn [fst]. rewrite list_insert_id; [done|]. by rewrite list_lookup_fmap, Hi. }
  pose proof (lookup_lt_Some _ _ _ Hi) as Hlt.
  destruct (decide (c' = c)) as [->|Hne].
  - assert (find_edge (<[i := (c, m')]> es) c = Some (i, m')) as ->; [|done]. apply find_edge_lookup; [done|]. by rewrite list_lookup_insert_eq.
  - destruct (find_edge es c') as [[j x]|] eqn:E.
    + apply find_edge_lookup in E; [|done]. assert (i <> j) by congruence.
      assert (find_edge (<[i := (c, m')]> es) c' = Some (j, x)) as ->; [|done]. apply find_edge_lookup; [done|]. by rewrite list_lookup_insert_ne.
    + destruct (find_edge (<[i := (c, m')]> es) c') as [[j x]|] eqn:E'; [|done]. apply find_edge_lookup in E'; [|done].
      destruct (decide (i = j)) as [->|Hij]; [rewrite list_lookup_insert_eq in E' by done; congruence|]. rewrite list_lookup_insert_ne in E' by done.
      apply find_edge_lookup in E'; [|done]. congruence.
Qed.

Lemma rn_refs_range n : rn_wf n -> forall k, is_u32 (rn_refs n k).
Proof.
  induction n as [r p es IH] using rn_ind. intros Hwf k. inversion Hwf as [? ? ? Hr Hnd Hall]; subst. rewrite rn_refs_eq.
  assert (is_u32 0) as H0 by (unfold is_u32; lia). destruct (strip p k) as [[|c k']|]; try done.
  destruct (find_edge es c) as [[i m]|] eqn:E; [|done]. apply find_edge_lookup in E; [|done].
  destruct (Forall_lookup_1 _ _ _ _ Hall E) as [Hm _]. exact (Forall_lookup_1 _ _ _ _ IH E Hm _).
Qed.

(** Outside the byte a node begins with there is nothing. *)
Lemma rn_refs_head n k : rn_refs n k <> 0 -> rn_prefix n <> [] -> head k = head (rn_prefix n).
Proof.
  destruct n as [r p es]. rewrite rn_refs_eq. destruct (strip p k) as [rest|] eqn:E; [|done]. apply strip_spec in E as ->.
  by destruct p.
Qed.

(** ** Changing one key below a node *)

(** The pieces of the key above the node at a path. *)
Fixpoint above (n : rnode) (path : list nat) : bytes :=
  match path with
  | [] => []
  | i :: path' => rn_prefix n ++ match rn_edges n !! i with Some (_, m) => above m path' | None => [] end
  end.

Definition begins (path : list nat) (m : rnode) (k : bytes) : Prop := path = [] \/ head k = head (rn_prefix m).

(** What lies below an edge begins with the byte of the edge. *)
Lemma child_head (es : list (Z * rnode)) i c m path x k : Forall (fun e => rn_wf e.2 /\ head (rn_prefix e.2) = Some e.1) es -> es !! i = Some (c, m) ->
  node_at m path = Some x -> head k = head (rn_prefix x) -> head (above m path ++ k) = Some c.
Proof.
  intros Hall Hi Hx Hk. destruct (Forall_lookup_1 _ _ _ _ Hall Hi) as [_ Hc]. cbn [fst snd] in Hc. destruct path as [|j path]; cbn [above].
  - injection Hx as <-. cbn. congruence.
  - destruct (rn_prefix m) as [|y l]; [done|]. exact Hc.
Qed.

Lemma node_at_wf path : forall n m, rn_wf n -> node_at n path = Some m -> rn_wf m.
Proof.
  induction path as [|i path IH]; intros n m Hn; [by intros [= <-]|]. inversion Hn as [r p es _ _ Hall]; subst. cbn.
  destruct (es !! i) as [[c child]|] eqn:E; [|done]. cbn. apply IH. by destruct (Forall_lookup_1 _ _ _ _ Hall E).
Qed.

Lemma node_refs path : forall n m k, rn_wf n -> node_at n path = Some m -> begins path m k -> rn_refs n (above n path ++ k) = rn_refs m k.
Proof.
  induction path as [|i path IH]; intros n m k Hn Hm Hb; [by injection Hm as <-|]. inversion Hn as [r p es Hr Hnd Hall]; subst.
  cbn [node_at above rn_prefix rn_edges] in *. destruct Hb as [?|Hk]; [done|]. destruct (es !! i) as [[c child]|] eqn:E; [|done]. cbn [mbind option_bind] in Hm.
  pose proof (child_head es i c child path m k Hall E Hm Hk) as Hc. destruct (Forall_lookup_1 _ _ _ _ Hall E) as [Hwf _].
  rewrite rn_refs_eq, <- app_assoc, strip_app. specialize (IH child m k Hwf Hm (or_intror Hk)).
  destruct (above child path ++ k) as [|c' l]; [done|]. injection Hc as ->. apply find_edge_lookup in E as ->; done.
Qed.

(** Setting a node that differs from the old one in a single key. *)
Lemma set_node_spec path : forall n m m' k v, rn_wf n -> node_at n path = Some m -> begins path m k -> rn_wf m' ->
  (path <> [] -> head (rn_prefix m') = head (rn_prefix m)) -> (forall k', rn_refs m' k' = if decide (k' = k) then v else rn_refs m k') ->
  exists n', set_node_at n path m' = Some n' /\ rn_wf n' /\ (path <> [] -> rn_prefix n' = rn_prefix n) /\
    forall k', rn_refs n' k' = if decide (k' = above n path ++ k) then v else rn_refs n k'.
Proof.
  induction path as [|i path IH]; intros n m m' k v Hn Hm Hb Hm' Hh Hv.
  { injection Hm as <-. exists m'. by split_and!. }
  inversion Hn as [r p es Hr Hnd Hall]; subst. cbn [node_at set_node_at above rn_prefix rn_edges] in *. destruct Hb as [?|Hk]; [done|].
  specialize (Hh ltac:(done)). destruct (es !! i) as [[c child]|] eqn:E; [|done]. cbn [mbind option_bind] in *.
  pose proof (child_head es i c child path m k Hall E Hm Hk) as Hc. destruct (Forall_lookup_1 _ _ _ _ Hall E) as [Hwf Hcc]. cbn [fst snd] in *.
  destruct (IH child m m' k v Hwf Hm (or_intror Hk) Hm' (fun _ => Hh) Hv) as (child' & Eset & Hwf' & Hp' & Hrefs). rewrite Eset. cbn [mbind option_bind].
  assert (head (rn_prefix child') = Some c) as Hc'.
  { destruct path as [|j path]; [|by rewrite Hp']. cbn in Hm, Eset. injection Hm as <-. injection Eset as <-. congruence. }
  eexists. split; [done|]. split_and!; try done.
  - constructor; try done; [rewrite list_fmap_insert; cbn; rewrite list_insert_id; [done|by rewrite list_lookup_fmap, E]|]. by apply Forall_insert.
  - intros k'. rewrite !rn_refs_eq. destruct (strip p k') as [rest|] eqn:Es.
    + apply strip_spec in Es as ->. rewrite <- app_assoc. destruct rest as [|c' l].
      { rewrite decide_False; [done|]. intros Heq%app_inv_head. by rewrite <- Heq in Hc. }
      pose proof (find_edge_insert es i c child child' c' Hnd E) as Hf. destruct (decide (c' = c)) as [->|Hne].
      * apply find_edge_lookup in E as ->; [|done]. destruct (find_edge (<[i := (c, child')]> es) c) as [[j x]|]; [|done]. injection Hf as ->.
        rewrite Hrefs. destruct (decide (c :: l = above child path ++ k)) as [Heq|Heq].
        -- rewrite decide_True by congruence. done.
        -- rewrite decide_False; [done|]. by intros ?%app_inv_head.
      * rewrite decide_False; [|intros Heq%app_inv_head; rewrite <- Heq in Hc; injection Hc; congruence].
        destruct (find_edge (<[i := (c, child')]> es) c') as [[j x]|], (find_edge es c') as [[j' x']|]; try done. by injection Hf as ->.
    + rewrite decide_False; [done|]. intros ->. by rewrite <- app_assoc, strip_app in Es.
Qed.

(** ** What [match] finds *)

Lemma common_spec p : forall k, take (common_bytes p k) p = take (common_bytes p k) k /\ (common_bytes p k <= length p)%nat /\ (common_bytes p k <= length k)%nat /\
  (forall x y, p !! common_bytes p k = Some x -> k !! common_bytes p k = Some y -> x <> y).
Proof.
  induction p as [|x p IH]; intros [|y k]; cbn [common_bytes]; try (split_and!; simpl; try lia; try done; by destruct (_ : nat)).
  destruct (x =? y) eqn:E; bool_prop; [|split_and!; simpl; try lia; [done|]; by intros ? ? [= <-] [= <-]].
  subst. destruct (IH k) as (H1 & H2 & H3 & H4). split_and!; simpl; [by f_equal|lia|lia|done].
Qed.

Lemma common_full p k : common_bytes p k = length p -> exists r, k = p ++ r.
Proof.
  intros E. destruct (common_spec p k) as (H & _). rewrite E, take_ge in H by lia. exists (drop (length p) k). rewrite H at 1. by rewrite take_drop.
Qed.

Lemma common_app p r : common_bytes p (p ++ r) = length p.
Proof. induction p as [|x p IH]; [done|]. cbn. by rewrite Z.eqb_refl, IH. Qed.

(** The node where the traversal for a key stops. *)
Definition stops_at (n : rnode) (key : bytes) (path : list nat) (kb pb : nat) : Prop :=
  exists m rest, node_at n path = Some m /\ key = above n path ++ rest /\ begins path m rest /\ pb = common_bytes (rn_prefix m) rest /\
    kb = (length (above n path) + pb)%nat /\
    (pb = length (rn_prefix m) -> kb <> length key -> forall c, rest !! pb = Some c -> find_edge (rn_edges m) c = None).

Lemma radix_match_loop_spec fuel : forall n path a key pbi, rn_wf n -> (rn_prefix n = [] -> pbi = 0%nat) ->
  (length key + (if bool_decide (rn_prefix n = []) then 1 else 0) <= fuel)%nat ->
  exists path' kb pb, radix_match_loop fuel (a ++ key) false n path (length a) pbi = Some (MatchResult (length a + kb) pb (path ++ path')) /\
    stops_at n key path' kb pb.
Proof.
  induction fuel as [|fuel IH]; intros n path a key pbi Hn H0 Hfuel; inversion Hn as [r p es Hr Hnd Hall]; subst; cbn [radix_match_loop rn_prefix] in *;
    rewrite drop_app_length, length_app;
    (destruct ((length p =? 0)%nat && (length es =? 0)%nat) eqn:Etop;
      [apply andb_true_iff in Etop as [Ep Ee]; apply Nat.eqb_eq in Ep, Ee; apply nil_length_inv in Ep, Ee; subst;
       exists [], 0%nat, 0%nat; rewrite H0, app_nil_r, Nat.add_0_r by done; split; [done|]; exists (RNode r [] []), key; split_and!; try done; by left|]);
    cbn [andb]; destruct (common_spec p key) as (Hc1 & Hc2 & Hc3 & _).
  all: destruct (negb (common_bytes p key =? length p)%nat || (length a + common_bytes p key =? length a + length key)%nat) eqn:Estop;
    [exists [], (common_bytes p key), (common_bytes p key); rewrite app_nil_r; split; [done|]; exists (RNode r p es), key; split_and!; try done;
       [by left|]; intros E1 E2; apply orb_true_iff in Estop as [Estop|Estop]; [by rewrite E1, Nat.eqb_refl in Estop|apply Nat.eqb_eq in Estop; cbn in E2; lia]|].
  all: apply orb_false_iff in Estop as [E1 E2]; apply negb_false_iff, Nat.eqb_eq in E1; apply Nat.eqb_neq in E2;
    destruct (common_full p key E1) as [[|c rest] ->]; [rewrite app_nil_r in *; lia|].
  { rewrite length_app in *. cbn in *. lia. }
  assert ((a ++ p ++ c :: rest) !! (length a + common_bytes p (p ++ c :: rest))%nat = Some c) as ->.
  { rewrite E1, lookup_app_r by lia. rewrite lookup_app_r by lia. by replace (length a + length p - length a - length p)%nat with 0%nat by lia. }
  cbn [mbind option_bind]. destruct (find_edge es c) as [[i next]|] eqn:Ef.
  - apply find_edge_lookup in Ef; [|done]. destruct (Forall_lookup_1 _ _ _ _ Hall Ef) as [Hwf Hc]. cbn [fst snd] in *.
    destruct (IH next (path ++ [i]) (a ++ p) (c :: rest) (common_bytes p (p ++ c :: rest)) Hwf) as (path' & kb & pb & E & Hst).
    { intros Hx. by rewrite Hx in Hc. }
    { rewrite bool_decide_false by (intros Hx; by rewrite Hx in Hc). rewrite length_app in Hfuel. cbn in *. destruct p; cbn in *; lia. }
    rewrite length_app, <- app_assoc in E. rewrite E1 in E |- *. rewrite E. exists (i :: path'), (length p + kb)%nat, pb.
    rewrite <- app_assoc, Nat.add_assoc. split; [done|]. destruct Hst as (m & rest' & Hm & Hk & Hb & -> & -> & Hend).
    exists m, rest'. cbn [node_at above rn_prefix rn_edges]. rewrite Ef. cbn [mbind option_bind]. split_and!; try done.
    + by rewrite Hk, <- app_assoc.
    + right. destruct Hb as [-> |Hb]; [|done]. cbn in Hm, Hk. injection Hm as <-. subst rest'. by rewrite Hc.
    + rewrite length_app. lia.
    + intros H1 H2. apply Hend; [done|]. rewrite length_app in H2. cbn in *. lia.
  - exists [], (common_bytes p (p ++ c :: rest)), (common_bytes p (p ++ c :: rest)). rewrite app_nil_r. split; [done|].
    exists (RNode r p es), (p ++ c :: rest). split_and!; try done; [by left|]. intros _ _ c'. cbn [rn_edges]. rewrite E1, lookup_app_r by lia.
    rewrite Nat.sub_diag. intros [= <-]. done.
Qed.

(** ** Adding: the new current node *)

Lemma strip_app_l p q : forall k, strip (p ++ q) k = strip p k ≫= strip q.
Proof. induction p as [|x p IH]; intros k; [done|]. destruct k as [|y k]; [done|]. cbn. destruct (x =? y); [apply IH|done]. Qed.

Lemma rn_refs_split r q s es k : rn_refs (RNode r (q ++ s) es) k = match strip q k with Some k' => rn_refs (RNode r s es) k' | None => 0 end.
Proof. rewrite rn_refs_eq, strip_app_l. destruct (strip q k) as [k'|]; [|done]. cbn [mbind option_bind]. by rewrite rn_refs_eq. Qed.

Lemma rn_refs_none r s es k : head k <> head s -> s <> [] -> rn_refs (RNode r s es) k = 0.
Proof.
  intros Hh Hs. rewrite rn_refs_eq. destruct (strip s k) as [r'|] eqn:E; [|done]. apply strip_spec in E as ->. by destruct s.
Qed.

Lemma new_leaf_refs key k : rn_refs (new_leaf key) k = if decide (k = key) then 1 else 0.
Proof.
  unfold new_leaf. rewrite rn_refs_eq. destruct (strip key k) as [r|] eqn:E.
  - apply strip_spec in E as ->. destruct r as [|c r]; [by rewrite app_nil_r, decide_True|]. cbn [find_edge]. rewrite decide_False; [done|].
    intros Hx. apply (f_equal length) in Hx. rewrite length_app in Hx. simpl in Hx. lia.
  - rewrite decide_False; [done|]. intros ->. by rewrite strip_refl in E.
Qed.

Lemma new_leaf_wf key : rn_wf (new_leaf key).
Proof. constructor; [unfold is_u32; lia|constructor|constructor]. Qed.

Lemma find_edge_app es c0 m c : find_edge es c0 = None ->
  snd <$> find_edge (es ++ [(c0, m)]) c = if decide (c = c0) then Some m else snd <$> find_edge es c.
Proof.
  induction es as [|[c' m'] es IH]; cbn [find_edge app].
  - intros _. destruct (c0 =? c) eqn:E; bool_prop; [by rewrite decide_True|by rewrite decide_False].
  - destruct (c' =? c0) eqn:E0; bool_prop; [done|]. destruct (find_edge es c0) as [[??]|]; [done|]. intros _. specialize (IH eq_refl).
    destruct (c' =? c) eqn:E; bool_prop; [rewrite decide_False; [done|congruence]|].
    destruct (find_edge (es ++ [(c0, m)]) c) as [[??]|], (find_edge es c) as [[??]|]; cbn in *; exact IH.
Qed.

Lemma find_edge_none es c : find_edge es c = None -> c ∉ (fst <$> es).
Proof.
  induction es as [|[c' m'] es IH]; [intros _; by apply not_elem_of_nil|]. cbn [find_edge]. destruct (c' =? c) eqn:E; bool_prop; [done|].
  destruct (find_edge es c) as [[??]|]; [done|]. intros _. rewrite fmap_cons. apply not_elem_of_cons. cbn. auto.
Qed.

(** The result of a lookup, as a node that is set. *)
Definition sets (m m' : rnode) (key : bytes) (v : Z) : Prop :=
  rn_wf m' /\ (head key = head (rn_prefix m) -> head (rn_prefix m') = head (rn_prefix m)) /\
  forall k, rn_refs m' k = if decide (k = key) then v else rn_refs m k.

Lemma add_edge_sets m c l : rn_wf m -> find_edge (rn_edges m) c = None ->
  rn_refs m (rn_prefix m ++ c :: l) = 0 /\
  sets m (RNode (rn_refcount m) (rn_prefix m) (rn_edges m ++ [(c, new_leaf (c :: l))])) (rn_prefix m ++ c :: l) 1.
Proof.
  intros Hm Hf. inversion Hm as [r p es Hr Hnd Hall]; subst. cbn [rn_refcount rn_prefix rn_edges] in *. split; [by rewrite rn_refs_eq, strip_app, Hf|].
  split_and!; try done.
  - constructor; [done| |].
    + rewrite fmap_app. apply list.NoDup_app. split_and!; [done| |apply NoDup_singleton]. intros x Hx Hc. cbn in Hc. apply list_elem_of_singleton in Hc as ->.
      by apply (find_edge_none es c).
    + apply Forall_app. split; [done|]. constructor; [|constructor]. split; [apply new_leaf_wf|done].
  - intros k. rewrite !rn_refs_eq. destruct (strip p k) as [rest|] eqn:E; [apply strip_spec in E as ->|rewrite decide_False; [done|intros ->; by rewrite strip_app in E]].
    destruct rest as [|c' l']; [rewrite decide_False; [done|intros Hx%app_inv_head; done]|].
    pose proof (find_edge_app es c (new_leaf (c :: l)) c' Hf) as Hfe. destruct (decide (c' = c)) as [->|Hne].
    + destruct (find_edge (es ++ _) c) as [[j x]|]; [|done]. injection Hfe as ->. rewrite new_leaf_refs, Hf.
      destruct (decide (c :: l' = c :: l)) as [->|Hn]; [by rewrite decide_True|]. rewrite decide_False; [done|]. by intros ?%app_inv_head.
    + rewrite decide_False by (intros Hx%app_inv_head; congruence).
      destruct (find_edge (es ++ _) c') as [[j x]|], (find_edge es c') as [[j' x']|]; try done. by injection Hfe as ->.
Qed.

(** A piece of the key split in two, with the lower half below a new node. *)
Lemma split_wf r c s es q : rn_wf (RNode r (q ++ c :: s) es) -> rn_wf (RNode r (c :: s) es).
Proof. intros H. inversion H. by constructor. Qed.

Lemma split_leaf_sets r q c c' l s es : rn_wf (RNode r (q ++ c' :: s) es) -> c <> c' ->
  rn_refs (RNode r (q ++ c' :: s) es) (q ++ c :: l) = 0 /\
  sets (RNode r (q ++ c' :: s) es) (RNode 0 q [(c, new_leaf (c :: l)); (c', RNode r (c' :: s) es)]) (q ++ c :: l) 1.
Proof.
  intros Hwf Hne. assert (rn_refs (RNode r (q ++ c' :: s) es) (q ++ c :: l) = 0) as H0.
  { rewrite rn_refs_split, strip_app. apply rn_refs_none; [cbn; congruence|done]. }
  split; [done|]. pose proof (split_wf r c' s es q Hwf) as Hs. unfold sets. cbn [rn_prefix]. split_and!.
  - constructor; [unfold is_u32; lia| |].
    + cbn. constructor; [|apply NoDup_singleton]. by rewrite list_elem_of_singleton.
    + constructor; [split; [apply new_leaf_wf|done]|constructor; [by split|constructor]].
  - destruct q; cbn; congruence.
  - intros k. rewrite rn_refs_split, rn_refs_eq. destruct (strip q k) as [rest|] eqn:E; [apply strip_spec in E as ->|rewrite decide_False; [done|intros ->; by rewrite strip_app in E]].
    destruct rest as [|x rest]; [rewrite decide_False by (by intros ?%app_inv_head); symmetry; apply rn_refs_none; [by cbn|done]|]. cbn [find_edge].
    destruct (c =? x) eqn:Ex; bool_prop.
    + subst x. rewrite new_leaf_refs. destruct (decide (c :: rest = c :: l)) as [->|Hn]; [by rewrite decide_True|].
      rewrite decide_False by (by intros ?%app_inv_head). symmetry. apply rn_refs_none; [cbn; congruence|done].
    + rewrite decide_False by (intros Hx%app_inv_head; congruence). destruct (c' =? x) eqn:Ex'; bool_prop; cbn [mbind option_bind]; [by subst|].
      symmetry. apply rn_refs_none; [cbn; congruence|done].
Qed.

Lemma split_above_sets r q c' s es : rn_wf (RNode r (q ++ c' :: s) es) ->
  rn_refs (RNode r (q ++ c' :: s) es) q = 0 /\ sets (RNode r (q ++ c' :: s) es) (RNode 1 q [(c', RNode r (c' :: s) es)]) q 1.
Proof.
  intros Hwf. pose proof (split_wf r c' s es q Hwf) as Hs. assert (forall k, head k <> Some c' -> rn_refs (RNode r (c' :: s) es) k = 0) as Hz.
  { intros k Hk. by apply rn_refs_none. }
  split; [rewrite rn_refs_split, strip_refl; by apply Hz|]. unfold sets. cbn [rn_prefix]. split_and!.
  - constructor; [unfold is_u32; lia|apply NoDup_singleton|]. constructor; [by split|constructor].
  - destruct q; cbn; congruence.
  - intros k. rewrite rn_refs_split, rn_refs_eq. destruct (strip q k) as [rest|] eqn:E.
    + apply strip_spec in E as ->. destruct rest as [|x rest]; [by rewrite app_nil_r, decide_True|].
      rewrite decide_False by (intros Hx; apply (f_equal length) in Hx; rewrite length_app in Hx; simpl in Hx; lia). cbn [find_edge].
      destruct (c' =? x) eqn:Ex; bool_prop; [by subst|]. symmetry. apply Hz. cbn. congruence.
    + rewrite decide_False; [done|]. intros ->. by rewrite strip_refl in E.
Qed.

Lemma add_node_spec m rest : rn_wf m -> rn_refs m rest + 1 < 4294967296 ->
  let pb := common_bytes (rn_prefix m) rest in
  (pb = length (rn_prefix m) -> forall c, rest !! pb = Some c -> find_edge (rn_edges m) c = None) ->
  exists m', radix_add_node m (drop pb rest) pb = Some m' /\ sets m m' rest (rn_refs m rest + 1) /\ (rn_prefix m = [] -> rn_prefix m' = []) /\
    (match drop pb rest with [] => negb (pb =? length (rn_prefix m))%nat || (rn_refcount m' =? 1) | _ => true end) = (rn_refs m rest =? 0).
Proof.
  intros Hm Hov pb Hend. pose proof (rn_refs_range m Hm rest) as Hrange. inversion Hm as [r p es Hr Hnd Hall]; subst. cbn [rn_prefix rn_edges rn_refcount radix_add_node] in *.
  destruct (common_spec p rest) as (Hc1 & Hc2 & Hc3 & Hc4). fold pb in Hc1, Hc2, Hc3, Hc4.
  assert (rest = take pb p ++ drop pb rest) as Hrest by (rewrite Hc1; by rewrite take_drop).
  destruct (decide (pb = length p)) as [Hfull|Hpart].
  - rewrite Hfull, Nat.eqb_refl in *. rewrite take_ge in Hrest by lia. cbn [negb orb]. destruct (drop (length p) rest) as [|c l] eqn:Ed.
    + rewrite app_nil_r in Hrest. subst rest. assert (rn_refs (RNode r p es) p = r) as Hrr by (by rewrite rn_refs_eq, strip_refl). rewrite Hrr in *.
      eexists. split; [done|]. rewrite u32_small by (unfold is_u32 in *; lia). split_and!; try done.
      * split_and!; try done; [constructor; try done; unfold is_u32 in *; lia|]. intros k. rewrite !rn_refs_eq. destruct (strip p k) as [rest|] eqn:E.
        -- apply strip_spec in E as ->. destruct rest as [|c l]; [by rewrite app_nil_r, decide_True|]. rewrite decide_False; [done|].
           intros Hx. apply (f_equal length) in Hx. rewrite length_app in Hx. simpl in Hx. lia.
        -- rewrite decide_False; [done|]. intros ->. by rewrite strip_refl in E.
      * cbn [rn_refcount]. destruct (r =? 0) eqn:E; bool_prop; [by subst|]. apply Z.eqb_neq. lia.
    + destruct (add_edge_sets (RNode r p es) c l Hm) as [H0 Hsets].
      { apply Hend; [done|]. rewrite Hrest. rewrite lookup_app_r by lia. by rewrite Nat.sub_diag. }
      cbn [rn_prefix rn_refcount rn_edges] in *. rewrite <- Hrest in *. rewrite H0. eexists. by split_and!.
  - assert ((pb =? length p)%nat = false) as -> by (by apply Nat.eqb_neq). cbn [negb orb].
    destruct (drop pb p) as [|c' s] eqn:Edp; [apply (f_equal length) in Edp; rewrite length_drop in Edp; cbn in Edp; lia|].
    assert (p = take pb p ++ c' :: s) as Hp by (by rewrite <- Edp, take_drop). cbn [head mbind option_bind].
    assert (p !! pb = Some c') as Hpc by (rewrite <- (Nat.add_0_r pb), <- lookup_drop, Edp; done).
    assert (p = [] -> False) as Hpne by (intros ->; by rewrite lookup_nil in Hpc).
    destruct (drop pb rest) as [|c l] eqn:Ed.
    + rewrite app_nil_r in Hrest. destruct (split_above_sets r (take pb p) c' s es) as [H0 Hsets]; [by rewrite <- Hp|].
      rewrite <- Hp, <- Hrest in *. rewrite H0. eexists. split_and!; try done.
    + assert (c <> c') as Hcc. { intros ->. eapply (Hc4 c' c'); [done| |done]. rewrite <- (Nat.add_0_r pb), <- lookup_drop, Ed. done. }
      destruct (split_leaf_sets r (take pb p) c c' l s es) as [H0 Hsets]; [by rewrite <- Hp|done|].
      rewrite <- Hp, <- Hrest in *. rewrite H0. eexists. split_and!; try done.
Qed.

(** ** The tree as a store of subscriptions *)

Definition radix_wf (t : radix_tree) : Prop := rn_wf (rt_root t) /\ rn_prefix (rt_root t) = [].
Definition radix_refs (t : radix_tree) (k : bytes) : Z := rn_refs (rt_root t) k.

Lemma radix_match_spec t key : radix_wf t -> exists path kb pb, radix_match t key false = Some (MatchResult kb pb path) /\ stops_at (rt_root t) key path kb pb.
Proof.
  intros [Hwf Hp]. unfold radix_match. destruct (radix_match_loop_spec (S (length key)) (rt_root t) [] [] key 0 Hwf) as (path & kb & pb & E & Hst); [done| |].
  - rewrite Hp, bool_decide_true by done. lia.
  - exists path, kb, pb. split; [exact E|done].
Qed.

(** Setting the node a traversal stopped at. *)
Lemma set_stop t path m m' rest v : radix_wf t -> node_at (rt_root t) path = Some m -> begins path m rest -> sets m m' rest v ->
  (path = [] -> rn_prefix m' = []) -> exists root, set_node_at (rt_root t) path m' = Some root /\
    rn_wf root /\ rn_prefix root = [] /\ forall k, rn_refs root k = if decide (k = above (rt_root t) path ++ rest) then v else radix_refs t k.
Proof.
  intros [Hwf Hp] Hm Hb (Hm' & Hh & Hv) Hroot.
  destruct (set_node_spec path (rt_root t) m m' rest v Hwf Hm Hb Hm') as (root & E & Hr & Hpr & Hrefs); [|done|].
  - intros Hne. apply Hh. by destruct Hb.
  - exists root. split_and!; try done. destruct path as [|i path]; [injection E as <-; by apply Hroot|]. by rewrite Hpr.
Qed.

Lemma radix_add_spec t key : radix_wf t -> radix_refs t key + 1 < 4294967296 ->
  exists t', radix_add t key = Some (t', radix_refs t key =? 0) /\ radix_wf t' /\ rt_size t' = u64 (rt_size t + 1) /\
    forall k, radix_refs t' k = if decide (k = key) then radix_refs t key + 1 else radix_refs t k.
Proof.
  intros Hwf Hov. destruct (radix_match_spec t key Hwf) as (path & kb & pb & E & m & rest & Hm & Hkey & Hb & Hpb & Hkb & Hend).
  assert (radix_refs t key = rn_refs m rest) as Href.
  { unfold radix_refs. rewrite Hkey. apply node_refs; [apply Hwf|done|done]. }
  unfold radix_add. rewrite E. cbn [mbind option_bind mr_path mr_key_bytes_matched mr_prefix_bytes_matched]. rewrite Hm. cbn [mbind option_bind].
  assert (drop kb key = drop pb rest) as -> by (rewrite Hkey, Hkb, <- drop_drop, drop_app_length; done).
  rewrite Href in *. subst pb. destruct (add_node_spec m rest (node_at_wf _ _ _ (proj1 Hwf) Hm) Hov) as (m' & -> & Hsets & Hpm & Hans).
  { intros Hfull c Hc. apply Hend; [done| |done]. apply lookup_lt_Some in Hc. rewrite Hkey, length_app. lia. }
  cbn [mbind option_bind]. destruct (set_stop t path m m' rest (rn_refs m rest + 1) Hwf Hm Hb Hsets) as (root & -> & Hr & Hpr & Hrefs).
  { intros ->. apply Hpm. injection Hm as <-. apply Hwf. }
  cbn [mbind option_bind]. rewrite Hans. eexists. split; [done|]. split_and!; try done. intros k. unfold radix_refs at 1. cbn [rt_root]. by rewrite Hrefs, <- Hkey.
Qed.

(** ** Removing *)

Lemma find_edge_elem es c m : NoDup (fst <$> es) -> snd <$> find_edge es c = Some m <-> (c, m) ∈ es.
Proof.
  intros Hnd. rewrite list_elem_of_lookup. split.
  - destruct (find_edge es c) as [[i m']|] eqn:E; [|done]. intros [= ->]. exists i. by apply find_edge_lookup.
  - intros [i Hi]. apply find_edge_lookup in Hi as ->; done.
Qed.

Lemma find_edge_perm es es' c : NoDup (fst <$> es) -> es ≡ₚ es' -> snd <$> find_edge es c = snd <$> find_edge es' c.
Proof.
  intros Hnd Hp. assert (NoDup (fst <$> es')) as Hnd' by (by rewrite <- Hp). apply option_eq. intros m. by rewrite !find_edge_elem, Hp.
Qed.

Lemma rn_refs_edges r p es r' p' es' k : (forall c, snd <$> find_edge es c = snd <$> find_edge es' c) -> r = r' -> p = p' ->
  rn_refs (RNode r p es) k = rn_refs (RNode r' p' es') k.
Proof.
  intros Hf -> ->. rewrite !rn_refs_eq. destruct (strip p' k) as [[|c k']|]; try done. specialize (Hf c).
  destruct (find_edge es c) as [[? ?]|], (find_edge es' c) as [[? ?]|]; try done. by injection Hf as ->.
Qed.

Lemma remove_edge_spec es i e : es !! i = Some e -> exists es', remove_edge es i = Some es' /\ es ≡ₚ e :: es'.
Proof.
  intros Hi. unfold remove_edge. destruct es as [|x es _] using rev_ind; [done|]. rewrite last_snoc. cbn [mbind option_bind]. rewrite length_app. cbn [length].
  replace (length es + 1 - 1)%nat with (length es) by lia. eexists. split; [done|]. destruct (decide (i = length es)) as [->|Hne].
  - rewrite lookup_app_r, Nat.sub_diag in Hi by lia. cbn in Hi. injection Hi as ->.
    rewrite insert_app_r_alt by lia. rewrite take_app_length. symmetry. apply Permutation_cons_append.
  - assert (i < length es)%nat as Hlt by (apply lookup_lt_Some in Hi; rewrite length_app in Hi; cbn in Hi; lia).
    rewrite insert_app_l, take_app_le by (rewrite ?length_insert; lia). rewrite take_ge by (rewrite length_insert; lia).
    rewrite lookup_app_l in Hi by done. rewrite <- (take_drop_middle es i e Hi) at 1. rewrite insert_take_drop by done.
    rewrite <- app_assoc. cbn [app]. rewrite <- (Permutation_middle _ _ e). constructor. apply Permutation_app_head. symmetry. apply Permutation_cons_append.
Qed.

Lemma dec_sets m v : rn_wf m -> is_u32 v -> sets m (RNode v (rn_prefix m) (rn_edges m)) (rn_prefix m) v.
Proof.
  intros Hm Hv. inversion Hm as [r p es Hr Hnd Hall]; subst. cbn [rn_prefix rn_edges]. split_and!; [by constructor|done|].
  intros k. rewrite !rn_refs_eq. destruct (strip p k) as [rest|] eqn:E.
  - apply strip_spec in E as ->. destruct rest as [|c l]; [by rewrite app_nil_r, decide_True|]. rewrite decide_False; [done|].
    intros Hx. apply (f_equal length) in Hx. rewrite length_app in Hx. simpl in Hx. lia.
  - rewrite decide_False; [done|]. intros ->. by rewrite strip_refl in E.
Qed.

(** A node without references and its single child make one node. *)
Lemma merge_refs p c child k : head (rn_prefix child) = Some c -> rn_refs (merge_child (RNode 0 p [(c, child)]) child) k = rn_refs (RNode 0 p [(c, child)]) k.
Proof.
  destruct child as [r q es]. cbn [rn_prefix]. intros Hc. unfold merge_child. cbn [rn_refcount rn_prefix rn_edges]. rewrite rn_refs_split, rn_refs_eq.
  destruct (strip p k) as [[|x l]|]; try done; [apply rn_refs_none; [by rewrite Hc|by intros ->]|]. cbn [find_edge].
  destruct (c =? x) eqn:E; bool_prop; [by subst|]. apply rn_refs_none; [rewrite Hc; cbn; congruence|by intros ->].
Qed.

Lemma merge_wf n child : rn_wf child -> rn_wf (merge_child n child).
Proof. intros H. inversion H; subst. by constructor. Qed.

Lemma sets_same m m' m'' key v : sets m m' key v -> rn_wf m'' -> rn_prefix m'' <> [] -> head (rn_prefix m'') = head (rn_prefix m') -> (forall k, rn_refs m'' k = rn_refs m' k) ->
  sets m m'' key v.
Proof. intros (H1 & H2 & H3) Hw _ Hh Hr. split_and!; [done|rewrite Hh; exact H2|]. intros k. by rewrite Hr. Qed.

(** The parent without the edge to a leaf. *)
Lemma drop_leaf_refs r p es es' c q x k : rn_wf (RNode r p es) -> es ≡ₚ (c, RNode x q []) :: es' -> 
  rn_refs (RNode r p es') k = if decide (k = p ++ q) then 0 else rn_refs (RNode r p es) k.
Proof.
  intros Hwf Hperm. inversion Hwf as [? ? ? Hr Hnd Hall]; subst. rewrite Hperm in Hall. apply Forall_cons_1 in Hall as [[_ Hq] Hall]. cbn in Hq.
  assert (NoDup (fst <$> ((c, RNode x q []) :: es'))) as Hnd' by (by rewrite <- Hperm). cbn in Hnd'. apply list.NoDup_cons in Hnd' as [Hn Hnd'].
  rewrite (rn_refs_edges r p es r p ((c, RNode x q []) :: es') k); [|intros; by apply find_edge_perm|done|done]. rewrite !rn_refs_eq.
  destruct (strip p k) as [rest|] eqn:E; [apply strip_spec in E as ->|by case_decide].
  destruct rest as [|y l]; [rewrite decide_False; [done|]; intros Hx%app_inv_head; by subst q|]. cbn [find_edge]. destruct (c =? y) eqn:Ey; bool_prop.
  - subst y. assert (find_edge es' c = None) as ->.
    { destruct (find_edge es' c) as [[i m]|] eqn:Ef; [|done]. destruct Hn. apply find_edge_lookup in Ef; [|done]. apply list_elem_of_fmap. exists (c, m). split; [done|].
      by eapply list_elem_of_lookup_2. }
    rewrite rn_refs_eq. destruct (strip q (c :: l)) as [rest|] eqn:Es; [apply strip_spec in Es as ->|by case_decide].
    destruct rest; [by rewrite app_nil_r, decide_True|]. by case_decide.
  - rewrite decide_False; [by destruct (find_edge es' y) as [[??]|]|]. intros Hx%app_inv_head. rewrite <- Hx in Hq. injection Hq as ->. done.
Qed.

Lemma node_at_snoc path : forall n i m, node_at n (path ++ [i]) = Some m <-> exists parent c, node_at n path = Some parent /\ rn_edges parent !! i = Some (c, m).
Proof.
  induction path as [|j path IH]; intros n i m; cbn [app node_at].
  - split; [destruct (rn_edges n !! i) as [[c x]|] eqn:E; [|done]; intros [= ->]; by exists n, c|]. intros (parent & c & [= <-] & ->). done.
  - destruct (rn_edges n !! j) as [[c x]|]; cbn [mbind option_bind]; [apply IH|]. split; [done|]. by intros (? & ? & ? & _).
Qed.

Lemma above_snoc path : forall n i parent c m, node_at n path = Some parent -> rn_edges parent !! i = Some (c, m) ->
  above n (path ++ [i]) = above n path ++ rn_prefix parent.
Proof.
  induction path as [|j path IH]; intros n i parent c m Hp Hm; cbn [app above node_at] in *.
  - injection Hp as ->. rewrite Hm. by rewrite app_nil_r.
  - destruct (rn_edges n !! j) as [[c' x]|]; [|done]. cbn [mbind option_bind] in Hp. rewrite (IH x i parent c m Hp Hm). by rewrite app_assoc.
Qed.

Lemma below_root path n m : rn_wf n -> node_at n path = Some m -> path <> [] -> rn_prefix m <> [].
Proof.
  intros Hn Hm Hne. destruct path as [|i path _] using rev_ind; [done|]. apply node_at_snoc in Hm as (parent & c & Hp & Hi).
  pose proof (node_at_wf _ _ _ Hn Hp) as Hw. inversion Hw as [r p es _ _ Hall]; subst. destruct (Forall_lookup_1 _ _ _ _ Hall Hi) as [_ Hc]. cbn in Hc.
  intros Hx. by rewrite Hx in Hc.
Qed.

Lemma unlink_leaf t path i m : radix_wf t -> node_at (rt_root t) (path ++ [i]) = Some m -> rn_edges m = [] ->
  exists root, radix_unlink (rt_root t) (path ++ [i]) (RNode 0 (rn_prefix m) []) = Some root /\ rn_wf root /\ rn_prefix root = [] /\
    forall k, rn_refs root k = if decide (k = above (rt_root t) (path ++ [i]) ++ rn_prefix m) then 0 else radix_refs t k.
Proof.
  intros Hwf Hm Hleaf. pose proof Hm as (parent & c & Hp & Hi)%node_at_snoc. unfold radix_unlink. cbn [rn_edges]. rewrite removelast_last, last_snoc. cbn [mbind option_bind].
  rewrite Hp. cbn [mbind option_bind]. rewrite (above_snoc path _ i parent c m Hp Hi), <- app_assoc.
  pose proof (node_at_wf _ _ _ (proj1 Hwf) Hp) as Hpw. pose proof (below_root path _ _ (proj1 Hwf) Hp) as Hbelow.
  destruct m as [x q ms]. cbn [rn_edges rn_prefix] in *. subst ms. destruct parent as [r p es]. inversion Hpw as [? ? ? Hr Hnd Hall]; subst. cbn [rn_edges rn_prefix] in *.
  assert (begins path (RNode r p es) (p ++ q)) as Hb.
  { destruct (decide (path = [])) as [->|Hne]; [by left|right]. cbn. specialize (Hbelow Hne). by destruct p. }
  destruct ((length es =? 2)%nat && (r =? 0) && negb (bool_decide (path = []))) eqn:Etest.
  - apply andb_true_iff in Etest as [[E2 ->%Z.eqb_eq]%andb_true_iff Ene]. apply Nat.eqb_eq in E2. rewrite negb_true_iff, bool_decide_eq_false in Ene.
    assert (exists c2 o, (i <? 2)%nat = true /\ es !! (1 - i)%nat = Some (c2, o) /\ es ≡ₚ [(c, RNode x q []); (c2, o)]) as (c2 & o & -> & -> & Hperm).
    { destruct es as [|e0 [|[c2 o] [|]]]; try done. destruct i as [|[|i]]; cbn in Hi |- *.
      - injection Hi as ->. by exists c2, o.
      - injection Hi as -> ->. destruct e0 as [c0 o0]. exists c0, o0. split_and!; try done. apply perm_swap.
      - done. }
    cbn [mbind option_bind]. assert (rn_wf o /\ head (rn_prefix o) = Some c2) as [Ho Hoh] by (rewrite Hperm in Hall; inversion Hall as [|? ? _ Hall']; by inversion Hall').
    apply (set_stop t path (RNode 0 p es)); try done. split_and!.
    + by apply merge_wf.
    + intros _. cbn. specialize (Hbelow Ene). by destruct p.
    + intros k. change (merge_child (RNode 0 p es) o) with (merge_child (RNode 0 p [(c2, o)]) o). rewrite merge_refs by done.
      by apply (drop_leaf_refs 0 p es [(c2, o)] c q x k).
  - destruct (remove_edge_spec es i _ Hi) as (es' & -> & Hperm). cbn [mbind option_bind].
    apply (set_stop t path (RNode r p es)); try done.
    + split_and!; [|done|intros k; by apply (drop_leaf_refs r p es es' c q x k)]. constructor; try done.
      * rewrite Hperm in Hnd. by apply list.NoDup_cons in Hnd as [_ Hnd].
      * rewrite Hperm in Hall. by apply Forall_cons_1 in Hall as [_ Hall].
    + cbn. intros ->. cbn in Hp. injection Hp as Hx. destruct Hwf as [_ Hpr]. by rewrite Hx in Hpr.
Qed.

Lemma radix_unlink_spec t path m : radix_wf t -> node_at (rt_root t) path = Some m -> path <> [] ->
  exists root, radix_unlink (rt_root t) path (RNode 0 (rn_prefix m) (rn_edges m)) = Some root /\ rn_wf root /\ rn_prefix root = [] /\
    forall k, rn_refs root k = if decide (k = above (rt_root t) path ++ rn_prefix m) then 0 else radix_refs t k.
Proof.
  intros Hwf Hm Hne. pose proof (node_at_wf _ _ _ (proj1 Hwf) Hm) as Hmw. pose proof (below_root path _ _ (proj1 Hwf) Hm Hne) as Hq.
  assert (sets m (RNode 0 (rn_prefix m) (rn_edges m)) (rn_prefix m) 0) as Hdec by (apply dec_sets; [done|unfold is_u32; lia]).
  destruct (rn_edges m) as [|[c child] [|e es]] eqn:Ees.
  - destruct path as [|i path _] using rev_ind; [done|]. by apply unlink_leaf.
  - unfold radix_unlink. cbn [rn_edges]. apply (set_stop t path m); try done; [by right|].
    assert (rn_wf child /\ head (rn_prefix child) = Some c) as [Hc Hch] by (inversion Hmw as [? ? ? _ _ Hall]; subst; cbn in Ees; subst; by inversion Hall).
    apply (sets_same _ _ _ _ _ Hdec); [by apply merge_wf| | |].
    + cbn. by destruct (rn_prefix m).
    + cbn. by destruct (rn_prefix m).
    + intros k. by apply merge_refs.
  - unfold radix_unlink. cbn [rn_edges]. apply (set_stop t path m); try done. by right.
Qed.

Lemma stop_refs m rest : let pb := common_bytes (rn_prefix m) rest in
  (pb = length (rn_prefix m) -> forall c, rest !! pb = Some c -> find_edge (rn_edges m) c = None) ->
  rn_refs m rest <> 0 -> rest = rn_prefix m.
Proof.
  destruct m as [r p es]. cbn [rn_prefix rn_edges]. cbv zeta. intros Hend. rewrite rn_refs_eq. destruct (strip p rest) as [[|c l]|] eqn:E; [| |done].
  - apply strip_spec in E. by rewrite app_nil_r in E.
  - apply strip_spec in E as ->. rewrite common_app in Hend. rewrite (Hend eq_refl c); [done|]. rewrite lookup_app_r by lia. by rewrite Nat.sub_diag.
Qed.

Lemma radix_rm_spec t key : radix_wf t ->
  exists t', radix_rm t key = Some (t', radix_refs t key =? 1) /\ radix_wf t' /\
    rt_size t' = (if radix_refs t key =? 0 then rt_size t else u64 (rt_size t - 1)) /\
    forall k, radix_refs t' k = if decide (k = key) then Z.max 0 (radix_refs t key - 1) else radix_refs t k.
Proof.
  intros Hwf. destruct (radix_match_spec t key Hwf) as (path & kb & pb & E & m & rest & Hm & Hkey & Hb & Hpb & Hkb & Hend).
  assert (radix_refs t key = rn_refs m rest) as Href. { unfold radix_refs. rewrite Hkey. apply node_refs; [apply Hwf|done|done]. }
  pose proof (node_at_wf _ _ _ (proj1 Hwf) Hm) as Hmw. pose proof (rn_refs_range m Hmw rest) as Hrange.
  assert (rn_refs m (rn_prefix m) = rn_refcount m) as Hself. { destruct m as [r p es]. by rewrite rn_refs_eq, strip_refl. }
  unfold radix_rm. rewrite E. cbn [mbind option_bind mr_path mr_key_bytes_matched mr_prefix_bytes_matched]. rewrite Hm. cbn [mbind option_bind].
  assert (length key = (length (above (rt_root t) path) + length rest)%nat) as Hlen by (by rewrite Hkey, length_app).
  destruct (decide (rn_refs m rest = 0)) as [H0|H0].
  - assert (negb (kb =? length key)%nat || negb (pb =? length (rn_prefix m))%nat || (rn_refcount m =? 0) = true) as ->.
    { destruct (kb =? length key)%nat eqn:E1; [|done]. destruct (pb =? length (rn_prefix m))%nat eqn:E2; [|done]. apply Nat.eqb_eq in E1, E2. cbn [negb orb].
      assert (rest = rn_prefix m) as ->; [|rewrite Hself in H0; by rewrite H0]. destruct (common_full (rn_prefix m) rest) as [r Hr]; [congruence|].
      assert (length r = 0%nat) as Hr0. { rewrite Hr, length_app in Hlen. lia. } apply nil_length_inv in Hr0 as ->. by rewrite app_nil_r in Hr. }
    rewrite Href, H0. exists t. split_and!; try done. intros k. destruct (decide (k = key)) as [->|]; [by rewrite Href, H0|done].
  - assert (rest = rn_prefix m) as ->.
    { apply stop_refs; [|done]. intros Hfull c Hc. apply Hend; [congruence| |by rewrite Hpb]. apply lookup_lt_Some in Hc. lia. }
    assert (pb = length (rn_prefix m)) as Hpb'. { rewrite Hpb. pose proof (common_app (rn_prefix m) []) as Hca. by rewrite app_nil_r in Hca. }
    rewrite Hself in *. assert ((kb =? length key)%nat = true) as -> by (apply Nat.eqb_eq; lia). rewrite Hpb', Nat.eqb_refl. cbn [negb orb].
    destruct (rn_refcount m =? 0) eqn:Ez; bool_prop; [done|]. rewrite Href. cbn [rn_refcount rn_prefix rn_edges].
    unfold is_u32 in Hrange. rewrite u32_small by (unfold is_u32; lia). rewrite Z.max_r by lia.
    destruct (0 <? rn_refcount m - 1) eqn:Epos; bool_prop; cbn [orb negb].
    + destruct (set_stop t path m _ _ _ Hwf Hm Hb (dec_sets m (rn_refcount m - 1) Hmw ltac:(unfold is_u32; lia))) as (root & -> & Hr & Hpr & Hrefs).
      { cbn. intros ->. injection Hm as <-. apply Hwf. }
      cbn [mbind option_bind]. assert ((rn_refcount m =? 1) = false) as -> by (apply Z.eqb_neq; lia).
      assert ((rn_refcount m =? 0) = false) as -> by (apply Z.eqb_neq; lia). eexists. split_and!; try done.
      intros k. unfold radix_refs at 1. cbn [rt_root]. by rewrite Hrefs, <- Hkey.
    + assert (rn_refcount m = 1) as H1 by lia. rewrite H1 in *. cbn [Z.sub Z.opp Z.add Z.pos_sub Z.eqb Pos.eqb]. destruct (bool_decide_reflect (path = [])) as [->|Hne].
      * destruct (set_stop t [] m _ _ _ Hwf Hm Hb (dec_sets m 0 Hmw ltac:(unfold is_u32; lia))) as (root & Es & Hr & Hpr & Hrefs).
        { cbn. intros _. injection Hm as <-. apply Hwf. }
        cbn in Es |- *. injection Es as <-. eexists. split_and!; try done. intros k. unfold radix_refs at 1. cbn [rt_root]. by rewrite Hrefs, <- Hkey.
      * destruct (radix_unlink_spec t path m Hwf Hm Hne) as (root & Es & Hr & Hpr & Hrefs). change (1 - 1) with 0. rewrite Es. cbn [mbind option_bind].
        eexists. split_and!; try done. intros k. unfold radix_refs at 1. cbn [rt_root]. by rewrite Hrefs, <- Hkey.
Qed.

(** ** Looking up *)

Lemma radix_lookup_spec fuel : forall n path a key pbi, rn_wf n -> (rn_prefix n = [] -> rn_refcount n = 0) ->
  (length key + (if bool_decide (rn_prefix n = []) then 1 else 0) <= fuel)%nat ->
  exists path' kb pb m, radix_match_loop fuel (a ++ key) true n path (length a) pbi = Some (MatchResult kb pb (path ++ path')) /\ node_at n path' = Some m /\
    ((kb = length (a ++ key) /\ pb = length (rn_prefix m) /\ 0 < rn_refcount m) <-> exists k, k `prefix_of` key /\ rn_refs n k <> 0).
Proof.
  induction fuel as [|fuel IH]; intros n path a key pbi Hn H0 Hfuel; inversion Hn as [r p es Hr Hnd Hall]; subst; cbn [radix_match_loop rn_prefix rn_refcount] in *;
    rewrite drop_app_length, length_app; unfold is_u32 in Hr;
    (destruct ((length p =? 0)%nat && (length es =? 0)%nat) eqn:Etop;
      [apply andb_true_iff in Etop as [Ep Ee]; apply Nat.eqb_eq in Ep, Ee; apply nil_length_inv in Ep, Ee; subst; rewrite H0 in * by done;
       eexists [], _, _, _; rewrite app_nil_r; split; [done|]; split; [done|]; cbn; split; [lia|]; intros (k & _ & Hk); by destruct k|]).
  all: cbn [andb]; destruct ((common_bytes p key =? length p)%nat && (0 <? r)) eqn:Ehit;
    [apply andb_true_iff in Ehit as [E1%Nat.eqb_eq E2%Z.ltb_lt]; eexists [], _, _, _; rewrite app_nil_r; split; [done|]; split; [done|]; cbn [rn_prefix rn_refcount];
     split; [|by rewrite E1]; intros _; destruct (common_full p key E1) as [l ->]; exists p; split; [by exists l|]; rewrite rn_refs_eq, strip_refl; lia|].
  all: cbn [andb]; destruct (negb (common_bytes p key =? length p)%nat || (length a + common_bytes p key =? length a + length key)%nat) eqn:Estop;
    [eexists [], _, _, _; rewrite app_nil_r; split; [done|]; split; [done|]; cbn [rn_prefix rn_refcount]; split;
       [intros (_ & E1 & E2); rewrite E1, Nat.eqb_refl in Ehit; cbn in Ehit; apply Z.ltb_nlt in Ehit; lia|];
     intros (k & [l ->] & Hk); exfalso; rewrite rn_refs_eq in Hk; destruct (strip p k) as [rest|] eqn:Es; [|done]; apply strip_spec in Es as ->;
     rewrite <- app_assoc, common_app in Estop, Ehit; rewrite Nat.eqb_refl in Estop, Ehit; cbn in Estop, Ehit; apply Nat.eqb_eq in Estop; rewrite !length_app in Estop;
     destruct rest; [cbn in *; apply Z.ltb_nlt in Ehit; lia|cbn in *; lia]|].
  all: apply orb_false_iff in Estop as [E1 E2]; apply negb_false_iff, Nat.eqb_eq in E1; apply Nat.eqb_neq in E2;
    rewrite E1, Nat.eqb_refl in Ehit; cbn [andb] in Ehit; apply Z.ltb_nlt in Ehit; assert (r = 0) as -> by lia;
    destruct (common_full p key E1) as [[|c rest] ->]; [rewrite app_nil_r in *; lia|].
  { rewrite length_app in *. cbn in *. lia. }
  assert ((a ++ p ++ c :: rest) !! (length a + common_bytes p (p ++ c :: rest))%nat = Some c) as ->.
  { rewrite E1, lookup_app_r by lia. rewrite lookup_app_r by lia. by replace (length a + length p - length a - length p)%nat with 0%nat by lia. }
  cbn [mbind option_bind]. rewrite E1.
  assert (forall k, k `prefix_of` p ++ c :: rest -> rn_refs (RNode 0 p es) k <> 0 -> exists l i m, k = p ++ c :: l /\ find_edge es c = Some (i, m) /\ (c :: l) `prefix_of` c :: rest /\
    rn_refs m (c :: l) <> 0) as Hdown.
  { intros k Hpre Hk. rewrite rn_refs_eq in Hk. destruct (strip p k) as [[|c' l]|] eqn:Es; try done. apply strip_spec in Es as ->.
    apply prefix_app_inv in Hpre. pose proof (prefix_cons_inv_1 _ _ _ _ Hpre) as ->. destruct (find_edge es c) as [[i m]|]; [|done]. by exists l, i, m. }
  destruct (find_edge es c) as [[i next]|] eqn:Ef.
  - apply find_edge_lookup in Ef; [|done]. destruct (Forall_lookup_1 _ _ _ _ Hall Ef) as [Hwf Hc]. cbn [fst snd] in *.
    assert (rn_prefix next <> []) as Hne by (intros Hx; by rewrite Hx in Hc).
    destruct (IH next (path ++ [i]) (a ++ p) (c :: rest) (length p) Hwf) as (path' & kb & pb & m & E & Hm & Hiff); [done| |].
    { rewrite bool_decide_false by done. rewrite length_app in Hfuel. cbn in *. destruct p; cbn in *; lia. }
    rewrite length_app, <- app_assoc in E. rewrite E. exists (i :: path'), kb, pb, m. cbn [node_at rn_edges]. rewrite Ef, <- app_assoc. cbn [mbind option_bind].
    split; [done|]. split; [done|]. rewrite <- app_assoc, length_app in Hiff. rewrite Hiff. split.
    + intros (k & Hpre & Hk). pose proof (rn_refs_head next k Hk Hne) as Hh. destruct k as [|c' k]; [by rewrite Hc in Hh|]. exists (p ++ c' :: k).
      split; [by apply prefix_app|]. rewrite rn_refs_eq, strip_app. rewrite Hc in Hh. injection Hh as ->. apply find_edge_lookup in Ef as ->; done.
    + intros (k & Hpre & Hk). destruct (Hdown k Hpre Hk) as (l & i' & m' & -> & [= <- <-] & Hpre' & Hk'). by exists (c :: l).
  - eexists [], _, _, _. rewrite app_nil_r. split; [done|]. split; [done|]. cbn [rn_prefix rn_refcount]. split; [lia|].
    intros (k & Hpre & Hk). by destruct (Hdown k Hpre Hk) as (l & i' & m' & _ & ? & _).
Qed.

Lemma radix_check_spec t key : radix_wf t -> exists b, radix_check t key = Some b /\ (b = true <-> exists k, k `prefix_of` key /\ radix_refs t k <> 0).
Proof.
  intros [Hwf Hp]. unfold radix_check. destruct (0 <? rn_refcount (rt_root t)) eqn:E; bool_prop.
  - exists true. split; [done|]. split; [|done]. intros _. exists []. split; [apply prefix_nil|]. unfold radix_refs. destruct (rt_root t) as [r p es]. cbn in Hp, E. subst p. cbn. lia.
  - assert (rn_refcount (rt_root t) = 0) as H0. { destruct (rt_root t) as [r p es]. inversion Hwf as [? ? ? Hr]; subst. cbn in *. unfold is_u32 in Hr. lia. }
    unfold radix_match. destruct (radix_lookup_spec (S (length key)) (rt_root t) [] [] key 0 Hwf (fun _ => H0)) as (path & kb & pb & m & Em & Hm & Hiff).
    { rewrite Hp, bool_decide_true by done. lia. }
    cbn [app length] in Em. rewrite Em. cbn [mbind option_bind mr_path mr_key_bytes_matched mr_prefix_bytes_matched]. rewrite Hm. cbn [mbind option_bind]. eexists. split; [done|].
    unfold radix_refs. rewrite <- Hiff, !andb_true_iff, !Nat.eqb_eq, Z.ltb_lt. cbn [app]. tauto.
Qed.

(** ** Visiting every key *)

Lemma visit_edges_spec (visit : rnode -> option (list bytes)) buffer es : NoDup (fst <$> es) -> Forall (fun e => rn_wf e.2 /\ head (rn_prefix e.2) = Some e.1) es ->
  Forall (fun e => exists l, visit e.2 = Some l /\ NoDup l /\ forall x, x ∈ l <-> exists k, x = buffer ++ k /\ rn_refs e.2 k <> 0) es ->
  exists l, visit_edges visit es = Some l /\ NoDup l /\ forall x, x ∈ l <-> exists c m k, (c, m) ∈ es /\ x = buffer ++ k /\ rn_refs m k <> 0.
Proof.
  intros Hnd Hall Hv. induction es as [|[c m] es IH]; cbn [visit_edges].
  - exists []. split_and!; [done|constructor|]. intros x. split; [by intros ?%not_elem_of_nil|]. by intros (c & m & k & ?%not_elem_of_nil & _).
  - rewrite fmap_cons in Hnd. apply list.NoDup_cons in Hnd as [Hn Hnd]. apply Forall_cons_1 in Hall as [[Hm Hc] Hall]. apply Forall_cons_1 in Hv as [(l & El & Hl & Hin) Hv].
    cbn [fst snd] in *. rewrite El. cbn [mbind option_bind]. destruct (IH Hnd Hall Hv) as (l' & El' & Hl' & Hin'). fold (visit_edges visit) in *. rewrite El'. cbn [mbind option_bind].
    exists (l ++ l'). split; [done|]. assert (rn_prefix m <> []) as Hne by (intros Hx; by rewrite Hx in Hc). split.
    + apply list.NoDup_app. split_and!; try done. intros x (k & -> & Hk)%Hin (c' & m' & k' & Hc' & Heq & Hk')%Hin'. apply app_inv_head in Heq as <-.
      pose proof (rn_refs_head m k Hk Hne) as H1. destruct (Forall_elem _ _ _ Hall Hc') as [_ Hh']. cbn [fst snd] in Hh'.
      pose proof (rn_refs_head m' k Hk' ltac:(intros Hx; by rewrite Hx in Hh')) as H2. assert (c = c') as <- by congruence.
      apply Hn. apply list_elem_of_fmap. by exists (c, m').
    + intros x. rewrite elem_of_app, Hin, Hin'. split.
      * intros [(k & -> & Hk)|(c' & m' & k & Hc' & -> & Hk)]; [exists c, m, k|exists c', m', k]; split_and!; try done; [by left|by right].
      * intros (c' & m' & k & Hc' & -> & Hk). apply elem_of_cons in Hc' as [[= -> ->]|Hc']; [left; by exists k|right; by exists c', m', k].
Qed.

(** What is below a node is what its edges lead to. *)
Lemma rn_refs_below r p es k : NoDup (fst <$> es) -> Forall (fun e => rn_wf e.2 /\ head (rn_prefix e.2) = Some e.1) es ->
  rn_refs (RNode r p es) k <> 0 <-> (k = p /\ r <> 0) \/ exists c m k', (c, m) ∈ es /\ k = p ++ k' /\ rn_refs m k' <> 0.
Proof.
  intros Hnd Hall. rewrite rn_refs_eq. split.
  - destruct (strip p k) as [[|c l]|] eqn:Es; [| |done]; apply strip_spec in Es as ->.
    + rewrite app_nil_r. by left.
    + destruct (find_edge es c) as [[i m]|] eqn:E; [|done]. apply find_edge_lookup in E; [|done]. right. exists c, m, (c :: l). split_and!; try done. by eapply list_elem_of_lookup_2.
  - intros [[-> Hr]|(c & m & k' & Hc & -> & Hk)]; [by rewrite strip_refl|]. rewrite strip_app. destruct (Forall_elem _ _ _ Hall Hc) as [_ Hh]. cbn [fst snd] in Hh.
    pose proof (rn_refs_head m k' Hk ltac:(intros Hx; by rewrite Hx in Hh)) as Hk'. rewrite Hh in Hk'. destruct k' as [|c' k']; [done|]. injection Hk' as ->.
    apply find_edge_elem in Hc; [|done]. destruct (find_edge es c) as [[i m']|]; [|done]. by injection Hc as ->.
Qed.

Lemma visit_keys_spec n : rn_wf n -> rn_prefix n <> [] -> forall buffer,
  exists l, visit_keys n buffer = Some l /\ NoDup l /\ forall x, x ∈ l <-> exists k, x = buffer ++ k /\ rn_refs n k <> 0.
Proof.
  induction n as [r p es IH] using rn_ind. intros Hwf Hp buffer. inversion Hwf as [? ? ? Hr Hnd Hall]; subst. cbn [visit_keys rn_prefix] in *.
  rewrite bool_decide_false by (intros Hx; by apply app_eq_nil in Hx as [_ ?]). cbn [negb].
  destruct (visit_edges_spec (fun m => visit_keys m (buffer ++ p)) (buffer ++ p) es Hnd Hall) as (l & -> & Hl & Hin).
  { apply Forall_of_elem. intros [c m] He. cbn. destruct (Forall_elem _ _ _ Hall He) as [Hm Hh]. cbn in *.
    apply (Forall_elem _ _ _ IH He Hm). cbn. intros Hx. by rewrite Hx in Hh. }
  assert ((if 0 <? r then Some [buffer ++ p] else Some []) = Some (if 0 <? r then [buffer ++ p] else [])) as -> by (by destruct (0 <? r)). cbn [mbind option_bind].
  eexists. split; [done|]. assert (forall x, x ∈ (if 0 <? r then [buffer ++ p] else []) <-> x = buffer ++ p /\ r <> 0) as Hhere.
  { intros x. unfold is_u32 in Hr. destruct (0 <? r) eqn:E; bool_prop; [rewrite list_elem_of_singleton; split; [intros ->; split; [done|lia]|by intros [-> _]]|].
    split; [by intros ?%not_elem_of_nil|]. intros [_ ?]. lia. }
  split.
  - apply list.NoDup_app. split_and!; [destruct (0 <? r); [apply NoDup_singleton|constructor]| |done]. intros x [-> _]%Hhere (c & m & k & Hc & Hx & Hk)%Hin.
    rewrite <- (app_nil_r (buffer ++ p)) in Hx at 1. apply app_inv_head in Hx as <-. destruct (Forall_elem _ _ _ Hall Hc) as [_ Hh]. cbn in Hh.
    pose proof (rn_refs_head m [] Hk ltac:(intros Hx; by rewrite Hx in Hh)) as H2. by rewrite Hh in H2.
  - intros x. rewrite elem_of_app, Hhere, Hin. setoid_rewrite (rn_refs_below r p es _ Hnd Hall). split.
    + intros [[-> ?]|(c & m & k & Hc & -> & Hk)]; [exists p; by split; [|left]|]. exists (p ++ k). rewrite app_assoc. split; [done|]. right. by exists c, m, k.
    + intros (k & -> & [[-> ?]|(c & m & k' & Hc & -> & Hk)]); [by left|]. right. exists c, m, k'. by rewrite app_assoc.
Qed.

Lemma radix_apply_spec t : radix_wf t -> exists l, radix_apply t = Some l /\ NoDup l /\ forall k, k ∈ l <-> radix_refs t k <> 0.
Proof.
  intros [Hwf Hp]. unfold radix_apply, radix_refs. destruct (rt_root t) as [r p es]. inversion Hwf as [? ? ? Hr Hnd Hall]; subst. cbn [rn_prefix rn_edges rn_refcount] in *. subst p.
  destruct (visit_edges_spec (fun m => visit_keys m []) [] es Hnd Hall) as (l & -> & Hl & Hin).
  { apply Forall_of_elem. intros [c m] He. cbn. destruct (Forall_elem _ _ _ Hall He) as [Hm Hh]. cbn in *. apply visit_keys_spec; [done|]. intros Hx. by rewrite Hx in Hh. }
  cbn [mbind option_bind]. eexists. split; [done|]. unfold is_u32 in Hr. split.
  - apply list.NoDup_app. split_and!; [destruct (0 <? r); [apply NoDup_singleton|constructor]| |done]. intros x Hx (c & m & k & Hc & -> & Hk)%Hin.
    assert (k = []) as ->; [destruct (0 <? r); [by apply list_elem_of_singleton in Hx|by apply not_elem_of_nil in Hx]|].
    destruct (Forall_elem _ _ _ Hall Hc) as [_ Hh]. cbn in Hh. pose proof (rn_refs_head m [] Hk ltac:(intros Hx'; by rewrite Hx' in Hh)) as H2. by rewrite Hh in H2.
  - intros k. rewrite elem_of_app, Hin, (rn_refs_below r [] es k Hnd Hall). cbn [app]. destruct (0 <? r) eqn:E; bool_prop.
    + rewrite list_elem_of_singleton. split; [intros [->|?]; [left; split; [done|lia]|by right]|]. intros [[-> _]|?]; [by left|by right].
    + split; [by intros [?%not_elem_of_nil|?]; [|right]|]. intros [[_ ?]|?]; [lia|by right].
Qed.

(** ** The radix tree meets the contract of a subscription store *)

Lemma radix_new_wf : radix_wf radix_new.
Proof. split; [|done]. constructor; [unfold is_u32; lia|constructor|constructor]. Qed.

Lemma radix_new_refs k : radix_refs radix_new k = 0.
Proof. unfold radix_refs. cbn. by destruct k. Qed.

#[export] Instance radix_store : SubStore radix_tree := {
  ss_new := radix_new;
  ss_add := radix_add;
  ss_rm := radix_rm;
  ss_check := radix_check;
  ss_apply := radix_apply;
  ss_refs := radix_refs;
  ss_wf := radix_wf;
}.

#[export] Instance radix_store_laws : SubStoreLaws radix_tree.
Proof.
  constructor; cbn [ss_new ss_add ss_rm ss_check ss_apply ss_refs ss_wf radix_store].
  - split; [apply radix_new_wf|apply radix_new_refs].
  - intros t k [Hwf _]. by apply rn_refs_range.
  - intros t k Hwf _ Hov. destruct (radix_add_spec t k Hwf Hov) as (t' & E & Hwf' & _ & Hr). by exists t', (radix_refs t k =? 0).
  - intros t k Hwf. destruct (radix_rm_spec t k Hwf) as (t' & E & Hwf' & _ & Hr). by exists t', (radix_refs t k =? 1).
  - intros t d. apply radix_check_spec.
  - intros t. apply radix_apply_spec.
Qed.

(** C13: the two implementations of the subscriptions of an XSUB socket cannot be told apart.  After any sequence of subscriptions and
    cancellations the radix tree and the trie have given the same answers and failed no assertion, they agree on every message, and
    visit the same keys. *)
Theorem radix_trie_equivalent (ops : list sub_op) :
  Forall (fun o => bytes_ok (sub_op_key o)) ops -> Z.of_nat (length ops) < 4294967296 ->
  exists (t : trie) (r : radix_tree) bs, ss_run ss_new ops = Some (t, bs) /\ ss_run ss_new ops = Some (r, bs) /\
    (forall d, radix_check r d = trie_check t d) /\
    exists l l', trie_apply t = Some l /\ radix_apply r = Some l' /\ l ≡ₚ l'.
Proof.
  intros Hops Hlen.
  destruct (@ss_run_repr trie trie_store trie_store_laws ops trie_new ∅ ss_repr_new Hops) as (t & Ht & Hrt).
  { intros k. cbn. rewrite trie_refs_new. lia. }
  destruct (@ss_run_repr radix_tree radix_store radix_store_laws ops radix_new ∅ ss_repr_new Hops) as (r & Hr & Hrr).
  { intros k. cbn [ss_refs radix_store]. rewrite radix_new_refs. lia. }
  exists t, r, (snd (subs_run ∅ ops)). split_and!; try done.
  - intros d. pose proof (ss_check_repr t _ d Hrt) as H1. pose proof (ss_check_repr r _ d Hrr) as H2. cbn in H1, H2. by rewrite H1, H2.
  - destruct (ss_apply_repr t _ Hrt) as (l & El & Hl). destruct (ss_apply_repr r _ Hrr) as (l' & El' & Hl'). exists l, l'. split_and!; try done. by rewrite Hl, Hl'.
Qed.

Definition radix_ops : list sub_op :=
  [SubAdd [1; 2; 3]; SubAdd [1; 2; 4]; SubAdd [1]; SubAdd []; SubRm [1]; SubRm [1; 2; 3]; SubRm []; SubAdd [1; 2]; SubRm [9]].

Lemma radix_trie_equivalent_witness : exists (t : trie) (r : radix_tree) bs,
  ss_run ss_new radix_ops = Some (t, bs) /\ ss_run ss_new radix_ops = Some (r, bs) /\ radix_check r [1; 2; 4; 9] = trie_check t [1; 2; 4; 9] /\
  r = RadixTree (RNode 0 [] [(1, RNode 1 [1; 2] [(4, RNode 1 [4] [])])]) 2.
Proof.
  destruct (radix_trie_equivalent radix_ops) as (t & r & bs & Ht & Hr & Hd & _).
  - repeat constructor; cbn; unfold is_u8; lia.
  - reflexivity.
  - exists t, r, bs. split_and!; [exact Ht|exact Hr|apply Hd|]. vm_compute in Hr. by injection Hr as <- _.
Defined.
