(* ===== verification/Mtrie.v ===== *)
(** * The multi-trie, [generic_mtrie_t] (src/src/generic_mtrie_impl.hpp)

    Every node holds the set of pipes subscribed to the path that leads
    to it; [_pipes] is null when there is none.  [xpub_t] keeps the
    subscriptions of its peers in it.  Pipes are named by integers. *)

From S2P Require Import Prelude NodeTable.

Abbreviation pipes_t := (gset Z).

Inductive mtrie := Mtrie (pipes : option pipes_t) (next : slots mtrie).

Definition mtrie_pipes (t : mtrie) : option pipes_t := let 'Mtrie p _ := t in p.
Definition mtrie_next (t : mtrie) : slots mtrie := let 'Mtrie _ s := t in s.

Inductive rm_result := not_found | last_value_removed | values_remain.

Definition mtrie_new : mtrie := Mtrie None slots_new.

Definition mtrie_is_redundant (t : mtrie) : bool :=
  match mtrie_pipes t with Some _ => false | None => s_live (mtrie_next t) =? 0 end.

Fixpoint mtrie_add_helper (t : mtrie) (prefix : bytes) (pipe : Z) : option (mtrie * bool) :=
  let 'Mtrie ps s := t in
  match prefix with
  | [] =>
      let result := match ps with None => true | Some _ => false end in
      Some (Mtrie (Some ({[pipe]} ∪ default ∅ ps)) s, result)
  | c :: prefix' =>
      let* s1 := if slots_out s c then slots_extend s c else Some s in
      let* p := slots_ptr s1 c in
      let s2 := slots_count_new s1 p in
      let node := match p with Some n => n | None => mtrie_new end in
      let* (node', ret) := mtrie_add_helper node prefix' pipe in
      Some (Mtrie ps (slots_store s2 c (Some node')), ret)
  end.

Definition mtrie_add := mtrie_add_helper.

(** The pruning of a child of [rm_helper (prefix_, size_, pipe_)]. *)
Definition mtrie_prune (s : slots mtrie) (c : Z) : option (slots mtrie) :=
  let '(Slots mn cnt live nx) := s in
  zmq_assert (0 <? cnt) ;;
  if cnt =? 1 then
    let live' := u16 (live - 1) in
    zmq_assert (live' =? 0) ;;
    Some (Slots mn 0 live' (Node None))
  else
    match nx with
    | Node _ => None
    | Table t =>
        let t := <[Z.to_nat (c - mn) := None]> t in
        zmq_assert (1 <? live) ;;
        let live' := u16 (live - 1) in
        if live' =? 1 then
          let* i := first_live t in
          let* oldp := t !! i in
          Some (Slots (u8 (mn + Z.of_nat i)) 1 live' (Node oldp))
        else if c =? mn then
          let* j := first_live (drop 1 t) in
          let i := S j in
          let cnt' := u16 (cnt - Z.of_nat i) in
          Some (Slots (u8 (mn + Z.of_nat i)) cnt' live'
                  (Table (take (Z.to_nat cnt') (drop i t))))
        else if c =? mn + cnt - 1 then
          let* j := first_live (drop 1 (reverse t)) in
          let cnt' := u16 (cnt - Z.of_nat (S j)) in
          Some (Slots mn cnt' live' (Table (take (Z.to_nat cnt') t)))
        else Some (Slots mn cnt live' (Table t))
    end.

Fixpoint mtrie_rm_helper (t : mtrie) (prefix : bytes) (pipe : Z) : option (mtrie * rm_result) :=
  let 'Mtrie ps s := t in
  match prefix with
  | [] =>
      match ps with
      | None => Some (t, not_found)
      | Some p =>
          let erased := bool_decide (pipe ∈ p) in
          let p' := p ∖ {[pipe]} in
          if bool_decide (p' = ∅) then
            zmq_assert erased ;; Some (Mtrie None s, last_value_removed)
          else Some (Mtrie (Some p') s, if erased then values_remain else not_found)
      end
  | c :: prefix' =>
      if (s_count s =? 0) || slots_out s c then Some (t, not_found)
      else
        let* p := slots_ptr s c in
        match p with
        | None => Some (t, not_found)
        | Some node =>
            let* (node', ret) := mtrie_rm_helper node prefix' pipe in
            if mtrie_is_redundant node' then
              let* s' := mtrie_prune s c in Some (Mtrie ps s', ret)
            else Some (Mtrie ps (slots_store s c (Some node')), ret)
        end
  end.

Definition mtrie_rm := mtrie_rm_helper.

(** ** Removal of a pipe from every key *)

(** The loop of [rm_helper_multiple_subnodes]: [f] is the recursive call,
    which returns the changed child and the keys given to the callback.
    The state is the table, [_live_nodes], [new_min], [new_max]. *)
Section rm_loop.
Context (f : mtrie -> Z -> option (mtrie * list bytes)) (mn : Z).
Fixpoint rm_subnodes (t : list (option mtrie)) (c live new_min new_max : Z)
  : option (list (option mtrie) * Z * Z * Z * list bytes) :=
  match t with
  | [] => Some ([], live, new_min, new_max, [])
  | None :: t' =>
      let* (t'', live', mi, ma, l) := rm_subnodes t' (c + 1) live new_min new_max in
      Some (None :: t'', live', mi, ma, l)
  | Some n :: t' =>
      let* (n', calls) := f n (u8 (mn + c)) in
      if mtrie_is_redundant n' then
        zmq_assert (0 <? live) ;;
        let* (t'', live', mi, ma, l) := rm_subnodes t' (c + 1) (u16 (live - 1)) new_min new_max in
        Some (None :: t'', live', mi, ma, calls ++ l)
      else
        let new_min := if c + mn <? new_min then u8 (c + mn) else new_min in
        let new_max := if new_max <? c + mn then u8 (c + mn) else new_max in
        let* (t'', live', mi, ma, l) := rm_subnodes t' (c + 1) live new_min new_max in
        Some (Some n' :: t'', live', mi, ma, calls ++ l)
  end.

(** The switch on [_live_nodes] after the loop. *)
Definition rm_compact (cnt : Z) (t : list (option mtrie)) (live new_min new_max : Z)
  : option (slots mtrie) :=
  zmq_assert (1 <? cnt) ;;
  if live =? 0 then Some (Slots mn 0 live (Node None))
  else if live =? 1 then
    zmq_assert (new_min =? new_max) ;;
    zmq_assert (mn <=? new_min) && (new_min <? mn + cnt) ;;
    let* node := t !! Z.to_nat (new_min - mn) in
    match node with
    | Some _ => Some (Slots new_min 1 live (Node node))
    | None => None
    end
  else if (mn <? new_min) || (new_max <? mn + cnt - 1) then
    zmq_assert (1 <? new_max - new_min + 1) ;;
    zmq_assert (mn <=? new_min) ;;
    zmq_assert (new_max <=? mn + cnt - 1) ;;
    zmq_assert (new_max - new_min + 1 <? cnt) ;;
    let cnt' := u16 (new_max - new_min + 1) in
    Some (Slots new_min cnt' live (Table (take (Z.to_nat cnt') (drop (Z.to_nat (new_min - mn)) t))))
  else Some (Slots mn cnt live (Table t)).
End rm_loop.

(** The removal of the subscription from one node, with the callback. *)
Definition mtrie_erase (pipe : Z) (call_on_uniq : bool) (ps : option pipes_t) (buff : bytes)
  : option pipes_t * list bytes :=
  match ps with
  | Some p =>
      if bool_decide (pipe ∈ p) then
        let p' := p ∖ {[pipe]} in
        let empty := bool_decide (p' = ∅) in
        (if empty then None else Some p',
         if negb call_on_uniq || empty then [buff] else [])
      else (ps, [])
  | None => (ps, [])
  end.

(** [rm_helper (pipe_, buff_, ...)] with the callbacks it makes. *)
Fixpoint mtrie_rm_pipe_helper (pipe : Z) (call_on_uniq : bool) (t : mtrie) (buff : bytes)
  : option (mtrie * list bytes) :=
  let 'Mtrie ps s := t in
  let '(ps', here) := mtrie_erase pipe call_on_uniq ps buff in
  if s_count s =? 0 then Some (Mtrie ps' s, here)
  else
    match s_next s with
    | Node nx =>
        match nx with
        | Some n =>
            if negb (s_count s =? 1) then None else
            let* (n', l) := mtrie_rm_pipe_helper pipe call_on_uniq n (buff ++ [s_min s]) in
            if mtrie_is_redundant n' then
              let live' := u16 (s_live s - 1) in
              zmq_assert (live' =? 0) ;;
              Some (Mtrie ps' (Slots (s_min s) 0 live' (Node None)), here ++ l)
            else Some (Mtrie ps' (slots_store s (s_min s) (Some n')), here ++ l)
        | None => None
        end
    | Table t =>
        if s_count s =? 1 then None else
        let* (t', live, new_min, new_max, l) :=
          rm_subnodes (fun n c => mtrie_rm_pipe_helper pipe call_on_uniq n (buff ++ [c])) (s_min s)
            t 0 (s_live s) (u8 (s_min s + s_count s - 1)) (s_min s) in
        let* s' := rm_compact (s_min s) (s_count s) t' live new_min new_max in
        Some (Mtrie ps' s', here ++ l)
    end.

Definition mtrie_rm_pipe (t : mtrie) (pipe : Z) (call_on_uniq : bool) : option (mtrie * list bytes) :=
  mtrie_rm_pipe_helper pipe call_on_uniq t [].

(** ** The pipes [match] signals, in its order *)
Fixpoint mtrie_match (t : mtrie) (data : bytes) : option (list Z) :=
  let 'Mtrie ps s := t in
  let here := match ps with Some p => elements p | None => [] end in
  match data with
  | [] => Some here
  | c :: data' =>
      if s_count s =? 0 then Some here
      else
        let* p :=
          if s_count s =? 1 then
            if negb (c =? s_min s) then Some None else slots_ptr s c
          else if slots_out s c then Some None else slots_ptr s c in
        match p with
        | None => Some here
        | Some n => let* l := mtrie_match n data' in Some (here ++ l)
        end
  end.

(** ** What a multi-trie stores *)

Fixpoint mtrie_vals (t : mtrie) (k : bytes) : pipes_t :=
  match k with
  | [] => default ∅ (mtrie_pipes t)
  | c :: k' =>
      match slots_get (mtrie_next t) c with
      | Some n => mtrie_vals n k'
      | None => ∅
      end
  end.

Inductive mtrie_wf : mtrie -> Prop :=
| mtrie_wf_node ps s :
    ps <> Some ∅ -> slots_shape s ->
    (forall c n, slots_get s c = Some n -> mtrie_wf n) ->
    (forall c n, slots_get s c = Some n -> mtrie_is_redundant n = false) ->
    mtrie_wf (Mtrie ps s).

Lemma mtrie_new_wf : mtrie_wf mtrie_new.
Proof. constructor; try done; intros c n; unfold slots_get; simpl; done. Qed.

Lemma mtrie_vals_new k : mtrie_vals mtrie_new k = ∅.
Proof. by destruct k. Qed.

Lemma mtrie_redundant_vals t k : mtrie_wf t -> mtrie_is_redundant t = true -> mtrie_vals t k = ∅.
Proof.
  intros Hwf Hr. destruct Hwf as [ps s _ Hs _ _]. unfold mtrie_is_redundant in Hr. simpl in Hr.
  destruct ps; [done|]. bool_prop. destruct k as [|c k]; simpl; [done|]. by rewrite slots_live_0.
Qed.

(** A child in place of the slot of [c]. *)
Definition set_child (s s' : slots mtrie) (c : Z) (o : option mtrie) : Prop :=
  slots_shape s' /\ forall c', slots_get s' c' = if decide (c' = c) then o else slots_get s c'.

Lemma mtrie_wf_set_child ps ps' s s' c o :
  mtrie_wf (Mtrie ps s) -> ps' <> Some ∅ -> set_child s s' c o ->
  (forall n, o = Some n -> mtrie_wf n /\ mtrie_is_redundant n = false) ->
  mtrie_wf (Mtrie ps' s').
Proof.
  intros Hwf Hps [Hsh Hget] Ho. inversion_clear Hwf as [? ? _ Hs Hch Hnr].
  constructor; [done|done| |]; intros c' m; rewrite Hget; case_decide;
    [intros ->; by apply Ho|by apply Hch|intros ->; by apply Ho|by apply Hnr].
Qed.

Lemma mtrie_vals_set_child ps s s' c o c' k :
  set_child s s' c o ->
  mtrie_vals (Mtrie ps s') (c' :: k) =
  if decide (c' = c) then match o with Some n => mtrie_vals n k | None => ∅ end
  else mtrie_vals (Mtrie ps s) (c' :: k).
Proof. intros [_ Hget]. simpl. rewrite Hget. by case_decide. Qed.

Lemma set_child_store s c n n' :
  slots_shape s -> slots_get s c = Some n -> set_child s (slots_store s c (Some n')) c (Some n').
Proof.
  intros Hs Hg.
  assert (slots_out s c = false) as Ho.
  { destruct (slots_out s c) eqn:E; [|done]. by rewrite slots_get_out in Hg. }
  pose proof (slots_shape_reserved s c Hs Ho) as Hres.
  pose proof (slots_fill_shape s c n' Hres) as Hsh.
  assert (Hget := fun c' => slots_fill_get s c n' c' Hres). rewrite Hg in *. by split.
Qed.

(** ** Insertion *)

Lemma mtrie_add_step ps s c k p :
  slots_shape s -> is_u8 c ->
  exists s', (forall node', set_child s (s' node') c (Some node')) /\
  mtrie_add_helper (Mtrie ps s) (c :: k) p =
    (let* (node', ret) := mtrie_add_helper (default mtrie_new (slots_get s c)) k p in
     Some (Mtrie ps (s' node'), ret)).
Proof.
  intros Hs Hc.
  assert (exists s1, (if slots_out s c then slots_extend s c else Some s) = Some s1 /\
    slots_reserved s1 c /\ forall c', slots_get s1 c' = slots_get s c') as (s1 & E1 & Hr & Hg).
  { destruct (slots_out s c) eqn:E; [by apply slots_extend_reserved|].
    exists s. split_and!; try done. by apply slots_shape_reserved. }
  exists (fun node' => slots_store (slots_count_new s1 (slots_get s1 c)) c (Some node')).
  split.
  - intros node'. split; [by apply slots_fill_shape|]. intros c'.
    rewrite slots_fill_get by done. case_decide; [done|]. apply Hg.
  - simpl. rewrite E1. simpl. rewrite (slots_reserved_ptr _ _ Hr). simpl.
    by rewrite <- (Hg c).
Qed.

Lemma mtrie_add_spec k p : forall t, mtrie_wf t -> bytes_ok k ->
  exists t', mtrie_add_helper t k p = Some (t', bool_decide (mtrie_vals t k = ∅)) /\
    mtrie_wf t' /\ mtrie_is_redundant t' = false /\
    forall k', mtrie_vals t' k' =
               if decide (k' = k) then {[p]} ∪ mtrie_vals t k else mtrie_vals t k'.
Proof.
  induction k as [|c k IH]; intros t Hwf Hk; inversion Hwf as [ps s Hps Hs Hch Hnr]; subst.
  - simpl. eexists. split.
    { do 2 f_equal. destruct ps as [q|]; simpl; symmetry.
      - apply bool_decide_eq_false. congruence.
      - by apply bool_decide_eq_true. }
    split_and!; [|done|].
    + constructor; try done. intros [= H]. set_solver.
    + intros [|c' k']; done.
  - apply Forall_cons_1 in Hk as [Hc Hk].
    destruct (mtrie_add_step ps s c k p Hs Hc) as (s' & Hset & ->).
    set (n := default mtrie_new (slots_get s c)).
    assert (mtrie_wf n) as Hn
      by (unfold n; destruct (slots_get s c) eqn:E; [by eapply Hch|apply mtrie_new_wf]).
    assert (forall k', mtrie_vals n k' = mtrie_vals (Mtrie ps s) (c :: k')) as Hnv.
    { intros k'. unfold n; simpl. destruct (slots_get s c); [done|]. apply mtrie_vals_new. }
    destruct (IH n Hn Hk) as (n' & -> & Hwf' & Hred & Hv).
    rewrite <- !Hnv. cbn [mbind option_bind]. eexists; split; [done|].
    specialize (Hset n'). split_and!.
    + eapply mtrie_wf_set_child; eauto. by intros ? [= <-].
    + unfold mtrie_is_redundant; simpl. destruct ps; [done|]. destruct Hset as [Hsh Hget].
      assert (1 <= s_live (s' n')); [|by simpl_test].
      eapply (slots_live_pos _ c); [done|]. rewrite Hget. by rewrite decide_True.
    + intros [|c' k']; [done|]. rewrite (mtrie_vals_set_child _ _ _ _ _ _ _ Hset).
      case_decide as Ec; [|by rewrite decide_False by congruence].
      subst. rewrite Hv. destruct (decide (k' = k)) as [->|];
        [by rewrite decide_True|rewrite decide_False by congruence; apply Hnv].
Qed.

(** ** Removal of one entry *)

Lemma mtrie_prune_spec s c n :
  slots_shape s -> slots_get s c = Some n ->
  exists s', mtrie_prune s c = Some s' /\ set_child s s' c None.
Proof.
  intros Hs Hg. destruct s as [mn cnt live [[m|]|t]].
  - destruct Hs as (?&Hc&Hl). simpl in *. subst. simpl. eexists; split; [done|].
    split; [done|]. intros c'. unfold slots_get in *; simpl in *. case_decide; [done|].
    destruct (c =? mn) eqn:?; [|done]. bool_prop. subst. by simpl_test.
  - unfold slots_get in Hg; simpl in Hg. case_test; done.
  - destruct (clear_table _ _ _ _ _ _ Hs Hg)
      as (a0&a1&Hmn&->&Hlen&Hle&Hc&Hlive&Hl'&Hfst&Hlst&Hdone).
    unfold mtrie_prune. simpl_test. rewrite u16_small by lia. rewrite Hl' in *.
    set (t' := <[Z.to_nat (c - mn):=None]> t) in *. clearbody t'. unfold is_u8 in Hmn.
    enough (forall s0, same_children s0 mn t' -> exists s' : slots mtrie,
      Some s0 = Some s' /\ set_child (Slots mn (Z.of_nat (length t')) live (Table t)) s' c None)
      as Hfin.
    2:{ intros s0 H0. exists s0. split; [done|]. by apply Hdone. }
    destruct (live_count t' =? 1) eqn:E1; bool_prop.
    + destruct (first_live_exists t') as [i Hi]; [lia|]. rewrite Hi. simpl.
      apply first_live_Some in Hi as [[a Ha] _]. rewrite Ha. simpl.
      pose proof (lookup_lt_Some _ _ _ Ha). wrap_small. rewrite E1. apply Hfin. by apply cut_one.
    + destruct (c =? mn) eqn:E2; bool_prop.
      * rewrite (proj2 (Z.eqb_neq _ _)) in Hlst by lia.
        destruct (cut_left mn t' Hmn Hle Hlen a1) as (i&->&Hi&Hsame); try done.
        cbn [mbind option_bind]. wrap_small. rewrite <- Nat2Z.inj_sub by lia.
        rewrite !Nat2Z.id. by apply Hfin.
      * destruct (c =? mn + Z.of_nat (length t') - 1) eqn:E3.
        -- destruct (cut_right mn t' Hmn Hle Hlen a0) as (i&->&Hi&Hsame); try done.
           cbn [mbind option_bind]. wrap_small. rewrite <- Nat2Z.inj_sub by lia.
           rewrite !Nat2Z.id. by apply Hfin.
        -- apply Hfin. by eapply cut_none.
Qed.

(** What [rm] answers, by the pipes of the key before the call. *)
Definition rm_answer (vals : pipes_t) (p : Z) : rm_result :=
  if bool_decide (p ∈ vals) then
    if bool_decide (vals ∖ {[p]} = ∅) then last_value_removed else values_remain
  else not_found.

Lemma mtrie_rm_spec k p : forall t, mtrie_wf t ->
  exists t', mtrie_rm_helper t k p = Some (t', rm_answer (mtrie_vals t k) p) /\ mtrie_wf t' /\
    forall k', mtrie_vals t' k' =
               if decide (k' = k) then mtrie_vals t k ∖ {[p]} else mtrie_vals t k'.
Proof.
  induction k as [|c k IH]; intros t Hwf; inversion Hwf as [ps s Hps Hs Hch Hnr]; subst.
  - cbn [mtrie_rm_helper mtrie_vals mtrie_pipes]. destruct ps as [q|]; simpl.
    + unfold rm_answer. destruct (decide (q ∖ {[p]} = ∅)) as [He|He].
      * assert (p ∈ q) as Hpq.
        { destruct (decide (p ∈ q)); [done|]. exfalso. apply Hps. f_equal. set_solver. }
        rewrite !bool_decide_true by done. eexists; split; [done|]. split; [by constructor|].
        intros [|c' k']; [by rewrite decide_True; simpl|done].
      * rewrite (bool_decide_false (q ∖ {[p]} = ∅)) by done. eexists. split.
        { by destruct (bool_decide (p ∈ q)). }
        split; [constructor; try done; congruence|]. intros [|c' k']; done.
    + exists (Mtrie None s). split; [done|]. split; [done|].
      intros [|c' k']; simpl; [set_solver|done].
  - assert (slots_get s c = None -> exists t',
      Some (Mtrie ps s, not_found) = Some (t', rm_answer (mtrie_vals (Mtrie ps s) (c :: k)) p) /\
      mtrie_wf t' /\ forall k', mtrie_vals t' k' =
        if decide (k' = c :: k) then mtrie_vals (Mtrie ps s) (c :: k) ∖ {[p]}
        else mtrie_vals (Mtrie ps s) k') as Habsent.
    { intros Hn. exists (Mtrie ps s).
      assert (mtrie_vals (Mtrie ps s) (c :: k) = ∅) as Hv by (simpl; by rewrite Hn).
      rewrite Hv. split_and!; try done. intros k'. case_decide; [subst; rewrite Hv; set_solver|done]. }
    cbn [mtrie_rm_helper]. destruct (s_count s =? 0) eqn:E0; bool_prop; cbn [orb].
    { apply Habsent. by apply slots_get_count_0. }
    destruct (slots_out s c) eqn:Eo; [by apply Habsent, slots_get_out|].
    rewrite (slots_get_ptr s c Hs Eo). cbn [mbind option_bind].
    destruct (slots_get s c) as [n|] eqn:Hg; [|by apply Habsent]. clear Habsent.
    assert (mtrie_vals (Mtrie ps s) (c :: k) = mtrie_vals n k) as Hnv by (simpl; by rewrite Hg).
    assert (exists t' s' o, (let* (node', ret) := mtrie_rm_helper n k p in
        if mtrie_is_redundant node' then let* s' := mtrie_prune s c in Some (Mtrie ps s', ret)
        else Some (Mtrie ps (slots_store s c (Some node')), ret))
        = Some (t', rm_answer (mtrie_vals n k) p) /\ t' = Mtrie ps s' /\ set_child s s' c o /\
        (forall m, o = Some m -> mtrie_wf m /\ mtrie_is_redundant m = false) /\
        forall k', match o with Some m => mtrie_vals m k' | None => ∅ end =
          if decide (k' = k) then mtrie_vals n k ∖ {[p]} else mtrie_vals n k')
      as (t' & s' & o & -> & -> & Hset & Ho & Hv).
    { destruct (IH n (Hch _ _ Hg)) as (n' & -> & Hwf' & Hv). cbn [mbind option_bind].
      destruct (mtrie_is_redundant n') eqn:Hred.
      - destruct (mtrie_prune_spec s c n Hs Hg) as (s' & -> & Hset).
        exists (Mtrie ps s'), s', None. split_and!; try done.
        intros k'. rewrite <- Hv. symmetry. by apply mtrie_redundant_vals.
      - eexists _, _, (Some n'). split_and!; try done; [by eapply set_child_store|].
        by intros m [= <-]. }
    eexists. rewrite Hnv. split; [done|]. split; [by eapply mtrie_wf_set_child|].
    intros [|c' k']; [done|]. rewrite (mtrie_vals_set_child _ _ _ _ _ _ _ Hset).
    case_decide as Ec; [|by rewrite decide_False by congruence].
    subst. rewrite Hv. destruct (decide (k' = k)) as [->|];
      [by rewrite decide_True|rewrite decide_False by congruence].
    simpl. by rewrite Hg.
Qed.

(** ** Removal of a pipe from every key *)

Definition pruned (g : mtrie) : option mtrie := if mtrie_is_redundant g then None else Some g.

(** [mi] is the least of [mi0] and the characters of the live slots of [t]
    from [c0], and [ma] is the greatest of [ma0] and these. *)
Definition extremes (t : list (option mtrie)) (c0 mi0 ma0 mi ma : Z) : Prop :=
  mi <= mi0 /\ ma0 <= ma /\
  (forall i m, t !! i = Some (Some m) -> mi <= c0 + Z.of_nat i <= ma) /\
  (mi = mi0 \/ exists i m, t !! i = Some (Some m) /\ mi = c0 + Z.of_nat i) /\
  (ma = ma0 \/ exists i m, t !! i = Some (Some m) /\ ma = c0 + Z.of_nat i).

Lemma extremes_cons o t c0 mi0 ma0 mi ma :
  extremes t (c0 + 1) (if o is Some _ then Z.min mi0 c0 else mi0)
    (if o is Some _ then Z.max ma0 c0 else ma0) mi ma ->
  extremes (o :: t) c0 mi0 ma0 mi ma.
Proof.
  intros (H1&H2&H3&H4&H5). split_and!.
  - destruct o; lia.
  - destruct o; lia.
  - intros [|i] m Hi; simpl in Hi.
    + simplify_eq. lia.
    + specialize (H3 i m Hi). lia.
  - destruct H4 as [->|(i&m&Hi&->)].
    + destruct o as [m|]; [|by left]. destruct (decide (c0 < mi0)).
      * right. exists 0%nat, m. split; [done|lia].
      * left. lia.
    + right. exists (S i), m. split; [done|lia].
  - destruct H5 as [->|(i&m&Hi&->)].
    + destruct o as [m|]; [|by left]. destruct (decide (ma0 < c0)).
      * right. exists 0%nat, m. split; [done|lia].
      * left. lia.
    + right. exists (S i), m. split; [done|lia].
Qed.

Section rm_loop_spec.
Context (f : mtrie -> Z -> option (mtrie * list bytes)) (mn : Z).

Lemma rm_subnodes_spec t : forall c live mi ma (g : Z -> mtrie) (calls : Z -> list bytes),
  0 <= mn -> 0 <= c -> mn + c + Z.of_nat (length t) <= 256 -> live_count t <= live < 65536 ->
  (forall i n, t !! i = Some (Some n) ->
     let x := mn + c + Z.of_nat i in f n x = Some (g x, calls x)) ->
  exists t' mi' ma' l,
    rm_subnodes f mn t c live mi ma =
      Some (t', live - live_count t + live_count t', mi', ma', l) /\
    length t' = length t /\ live_count t' <= live_count t /\
    (forall i, t' !! i = match t !! i with
                         | Some (Some _) => Some (pruned (g (mn + c + Z.of_nat i)))
                         | o => o end) /\
    extremes t' (mn + c) mi ma mi' ma' /\
    table_visit (fun _ x => Some (calls (mn + x))) t c = Some l.
Proof.
  induction t as [|o t IH]; intros c live mi ma g calls Hmn Hc Hle Hlive Hf.
  - eexists [], mi, ma, []. simpl. split_and!; try done; [do 5 f_equal; lia|].
    split_and!; lia || (by left) || done.
  - cbn [length] in Hle.
    assert (forall i n, t !! i = Some (Some n) -> let x := mn + (c + 1) + Z.of_nat i in
        f n x = Some (g x, calls x)) as Hf'.
    { intros i n Hi. specialize (Hf (S i) n Hi). cbv zeta in *.
      replace (mn + (c + 1) + Z.of_nat i) with (mn + c + Z.of_nat (S i)) by lia. done. }
    assert (forall t' i, (forall i, t' !! i = match t !! i with
                         | Some (Some _) => Some (pruned (g (mn + (c + 1) + Z.of_nat i)))
                         | o => o end) -> forall o' : option mtrie,
              (o' = match o with Some _ => pruned (g (mn + c)) | None => None end) ->
              (o' :: t') !! i = match (o :: t) !! i with
                         | Some (Some _) => Some (pruned (g (mn + c + Z.of_nat i)))
                         | o => o end) as Hlk.
    { intros t' [|i] Hi o' ->; simpl.
      - rewrite Z.add_0_r. by destruct o.
      - rewrite Hi. replace (mn + (c + 1) + Z.of_nat i) with (mn + c + Z.of_nat (S i)) by lia. done. }
    destruct o as [n|]; simpl in Hlive |- *.
    + specialize (Hf 0%nat n eq_refl). cbv zeta in Hf. rewrite Z.add_0_r in Hf.
      wrap_small. rewrite Hf. cbn [mbind option_bind].
      destruct (mtrie_is_redundant (g (mn + c))) eqn:Hred.
      * pose proof (live_count_nonneg t). simpl_test. wrap_small.
        destruct (IH (c + 1) (live - 1) mi ma g calls) as (t'&mi'&ma'&l&->&Hlen&Hcnt&Hl&Hex&Hv);
          try done; try lia.
        simpl. rewrite Hv. eexists _, mi', ma', _. split_and!.
        -- do 5 f_equal. simpl. lia.
        -- simpl. lia.
        -- simpl. lia.
        -- intros i. apply Hlk; [done|]. unfold pruned. by rewrite Hred.
        -- apply extremes_cons. by rewrite <- Z.add_assoc.
        -- done.
      * rewrite (Z.add_comm c mn).
        assert ((if mn + c <? mi then mn + c else mi) = Z.min mi (mn + c)) as ->.
        { case_test; lia. }
        assert ((if ma <? mn + c then mn + c else ma) = Z.max ma (mn + c)) as ->.
        { case_test; lia. }
        destruct (IH (c + 1) live (Z.min mi (mn + c)) (Z.max ma (mn + c)) g calls)
          as (t'&mi'&ma'&l&->&Hlen&Hcnt&Hl&Hex&Hv); try done; try lia.
        simpl. rewrite Hv. eexists _, mi', ma', _. split_and!.
        -- do 5 f_equal. simpl. lia.
        -- simpl. lia.
        -- simpl. lia.
        -- intros i. apply Hlk; [done|]. unfold pruned. by rewrite Hred.
        -- apply extremes_cons. by rewrite <- Z.add_assoc.
        -- done.
    + destruct (IH (c + 1) live mi ma g calls) as (t'&mi'&ma'&l&->&Hlen&Hcnt&Hl&Hex&Hv);
        try done; try lia.
      simpl. rewrite Hv. exists (None :: t'), mi', ma', l. split_and!.
      * done.
      * simpl. lia.
      * done.
      * intros i. by apply Hlk.
      * apply extremes_cons. by rewrite <- Z.add_assoc.
      * done.
Qed.
End rm_loop_spec.

Lemma rm_compact_spec mn t mi ma :
  is_u8 mn -> (2 <= length t)%nat -> mn + Z.of_nat (length t) <= 256 ->
  extremes t mn (mn + Z.of_nat (length t) - 1) mn mi ma ->
  exists s', rm_compact mn (Z.of_nat (length t)) t (live_count t) mi ma = Some s' /\
             same_children s' mn t.
Proof.
  unfold is_u8. intros Hmn Hlen Hle (_&_&Hall&Hmi&Hma). unfold rm_compact. simpl_test.
  pose proof (live_count_nonneg t) as Hnn. pose proof (live_count_length t).
  destruct (live_count t =? 0) eqn:E0; bool_prop.
  { rewrite E0. eexists; split; [done|]. split; [done|]. intros c l c0.
    unfold slots_get; simpl. case_test; [done|].
    destruct (mjoin _) as [a|] eqn:Ea; [|done].
    apply mjoin_Some_lookup, live_count_pos in Ea. lia. }
  destruct (live_count t =? 1) eqn:E1; bool_prop.
  - destruct (live_count_exists t) as (k & a & Hk); [lia|].
    pose proof (lookup_lt_Some _ _ _ Hk). pose proof (Hall _ _ Hk).
    assert (forall i m, t !! i = Some (Some m) -> i = k) as Huniq.
    { intros i m Hi. destruct (decide (i = k)); [done|].
      by pose proof (live_count_one t k i a (Some m) E1 Hk ltac:(done) Hi). }
    assert (mi = mn + Z.of_nat k) as ->.
    { destruct Hmi as [->|(i&m&Hi&->)]; [lia|]. by rewrite (Huniq i m Hi). }
    assert (ma = mn + Z.of_nat k) as ->.
    { destruct Hma as [->|(i&m&Hi&->)]; [lia|]. by rewrite (Huniq i m Hi). }
    simpl_test. replace (Z.to_nat _) with k by lia. rewrite Hk, E1. simpl.
    eexists; split; [done|]. by apply cut_one.
  - destruct (live_count_ge_2 t) as (i1&i2&b1&b2&Hlt&Hi1&Hi2); [lia|].
    pose proof (lookup_lt_Some _ _ _ Hi2). pose proof (Hall _ _ Hi1). pose proof (Hall _ _ Hi2).
    destruct Hmi as [->|(i&a&Hi&->)]; [lia|]. destruct Hma as [->|(j&b&Hj&->)]; [lia|].
    pose proof (lookup_lt_Some _ _ _ Hi). pose proof (lookup_lt_Some _ _ _ Hj).
    assert (forall x, (x < i)%nat \/ (j < x)%nat -> mjoin (t !! x) = None) as Hnull.
    { intros x Hx. destruct (mjoin _) as [m|] eqn:Em; [|done].
      apply mjoin_Some_lookup, Hall in Em. lia. }
    case_test.
    + simpl_test. rewrite u16_small by lia.
      replace (mn + Z.of_nat j - (mn + Z.of_nat i) + 1) with (Z.of_nat (j - i + 1)) by lia.
      replace (mn + Z.of_nat i - mn) with (Z.of_nat i) by lia. rewrite !Nat2Z.id.
      eexists; split; [done|]. apply slots_window; try done; try lia.
      * rewrite Hi. by eexists.
      * replace (i + (j - i + 1) - 1)%nat with j by lia. rewrite Hj. by eexists.
      * intros x Hx. apply Hnull. lia.
    + eexists; split; [done|]. apply (cut_none mn t Hmn Hle Hlen a b).
      * replace 0%nat with i by lia. done.
      * replace (length t - 1)%nat with j by lia. done.
Qed.

(** The keys [rm] reports: those of the pipe, or, with [call_on_uniq],
    those the pipe is alone on. *)
Definition rm_reported (vals : pipes_t) (pipe : Z) (call_on_uniq : bool) : Prop :=
  pipe ∈ vals /\ (call_on_uniq = true -> vals ∖ {[pipe]} = ∅).

Lemma mtrie_erase_spec pipe uniq ps buff :
  ps <> Some ∅ ->
  let '(ps', here) := mtrie_erase pipe uniq ps buff in
  ps' <> Some ∅ /\ default ∅ ps' = default ∅ ps ∖ {[pipe]} /\ NoDup here /\
  forall x, x ∈ here <-> x = buff /\ rm_reported (default ∅ ps) pipe uniq.
Proof.
  intros Hps. unfold mtrie_erase, rm_reported. destruct ps as [p|]; simpl.
  - destruct (bool_decide_reflect (pipe ∈ p)) as [Hin|Hin].
    + assert (forall b, NoDup (if b : bool then [buff] else [])) as Hnd.
      { intros []; repeat constructor. set_solver. }
      destruct (bool_decide_reflect (p ∖ {[pipe]} = ∅)) as [He|He]; simpl.
      * split_and!; try done. intros x. rewrite orb_true_r, list_elem_of_singleton. naive_solver.
      * split_and!; [congruence|done|by apply Hnd|]. intros x. rewrite orb_false_r.
        destruct uniq; simpl; [rewrite elem_of_nil|rewrite list_elem_of_singleton]; naive_solver.
    + split_and!; [done|set_solver|constructor|]. intros x. rewrite elem_of_nil. naive_solver.
  - split_and!; [done|set_solver|constructor|]. intros x. rewrite elem_of_nil. set_solver.
Qed.

(** The children after the removal, given the outcome of the recursive
    calls as functions of the character. *)
Lemma mtrie_rm_children pipe uniq ps s buff (g : Z -> mtrie) (calls : Z -> list bytes) :
  slots_shape s ->
  (forall c n, slots_get s c = Some n ->
     mtrie_rm_pipe_helper pipe uniq n (buff ++ [c]) = Some (g c, calls c) /\ NoDup (calls c)) ->
  (forall c c' x, c <> c' -> x ∈ calls c -> x ∈ calls c' -> False) ->
  let '(ps', here) := mtrie_erase pipe uniq ps buff in
  exists s' l, mtrie_rm_pipe_helper pipe uniq (Mtrie ps s) buff = Some (Mtrie ps' s', here ++ l) /\
    slots_shape s' /\ (forall c, slots_get s' c = slots_get s c ≫= fun _ => pruned (g c)) /\
    NoDup l /\ (forall x, x ∈ l <-> exists c n, slots_get s c = Some n /\ x ∈ calls c).
Proof.
  intros Hs Hf Hdis. cbn [mtrie_rm_pipe_helper].
  destruct (mtrie_erase pipe uniq ps buff) as [ps' here].
  destruct (s_count s =? 0) eqn:E0; bool_prop.
  { exists s, []. rewrite app_nil_r. split_and!; [done|done| |constructor|].
    - intros c. by rewrite slots_get_count_0.
    - intros x. rewrite elem_of_nil. split; [done|]. intros (c&n&Hg&_).
      by rewrite slots_get_count_0 in Hg. }
  destruct s as [mn cnt live [[m|]|t]]; [|unfold slots_shape in Hs; simpl in *; lia|].
  - destruct Hs as (Hmn&Hc&Hl). simpl in Hmn, Hc, Hl. subst. simpl.
    assert (forall c, slots_get (Slots mn 1 1 (Node (Some m))) c = if decide (c = mn) then Some m else None)
      as Hget by (intros c; unfold slots_get; simpl; case_decide; simpl_test; done).
    destruct (Hf mn m) as [-> Hnd]; [by rewrite Hget, decide_True|]. cbn [mbind option_bind].
    assert (forall x, x ∈ calls mn <-> exists c n,
      slots_get (Slots mn 1 1 (Node (Some m))) c = Some n /\ x ∈ calls c) as Hin.
    { intros x. split; [|intros (c&n&Hg&Hx); rewrite Hget in Hg; by case_decide; subst].
      intros Hx. exists mn, m. by rewrite Hget, decide_True. }
    destruct (mtrie_is_redundant (g mn)) eqn:Hred; (eexists _, (calls mn); split; [done|]);
      (split_and!; [done| |done|done]); intros c; rewrite Hget; unfold slots_get; simpl;
      destruct (decide (c = mn)) as [->|]; simpl_test; unfold pruned; try done;
      simpl; by rewrite Hred.
  - pose proof Hs as (Hmn&Hcnt&Hlen&Hle&Hlive&_). simpl in *. subst. simpl_test.
    pose proof (live_count_length t). unfold is_u8 in Hmn.
    destruct (rm_subnodes_spec
      (fun n c => mtrie_rm_pipe_helper pipe uniq n (buff ++ [c])) mn t 0 (live_count t)
      (mn + Z.of_nat (length t) - 1) mn g calls)
      as (t'&mi&ma&l&Hrun&Hlen'&Hcnt'&Hlk&Hex&Hv); try lia.
    { intros i n Hi. cbv zeta. rewrite Z.add_0_r. eapply Hf, slots_get_table; [lia|done]. }
    rewrite u8_small by (unfold is_u8; lia). rewrite Hrun. cbn [mbind option_bind].
    rewrite Z.sub_diag, Z.add_0_l. rewrite Z.add_0_r in Hex. rewrite <- Hlen' in *.
    destruct (rm_compact_spec mn t' mi ma) as (s' & -> & Hsh & Hget); try done; try lia.
    cbn [mbind option_bind]. exists s', l. split_and!; try done.
    + intros c. rewrite (Hget c 0 0). unfold slots_get; simpl. case_test; [done|].
      rewrite Hlk. replace (mn + 0 + Z.of_nat (Z.to_nat (c - mn))) with c by lia.
      by destruct (t !! Z.to_nat (c - mn)) as [[]|].
    + destruct (table_visit_spec (fun _ x => Some (calls (mn + x))) (fun i => calls (mn + Z.of_nat i)) t 0)
        as (l' & Hv' & _ & Hnd); [lia|intros; f_equal; lia|].
      rewrite Hv in Hv'. simplify_eq. apply Hnd.
      * intros i n Hi. eapply Hf, slots_get_table; [lia|done].
      * intros i j x Hij. apply Hdis. lia.
    + destruct (table_visit_spec (fun _ x => Some (calls (mn + x))) (fun i => calls (mn + Z.of_nat i)) t 0)
        as (l' & Hv' & Hin & _); [lia|intros; f_equal; lia|].
      rewrite Hv in Hv'. simplify_eq. intros x. rewrite Hin. split.
      * intros (i&n&Hi&Hx). exists (mn + Z.of_nat i), n. split; [|done].
        apply slots_get_table; [lia|done].
      * intros (c&n&[Hc Hi]%slots_table_get&Hx). exists (Z.to_nat (c - mn)), n.
        split; [done|]. by replace (mn + Z.of_nat (Z.to_nat (c - mn))) with c by lia.
Qed.

Lemma mtrie_rm_pipe_spec pipe uniq t : mtrie_wf t -> forall buff,
  exists t' l, mtrie_rm_pipe_helper pipe uniq t buff = Some (t', l) /\ mtrie_wf t' /\
    (forall k, mtrie_vals t' k = mtrie_vals t k ∖ {[pipe]}) /\ NoDup l /\
    forall x, x ∈ l <-> exists k, x = buff ++ k /\ rm_reported (mtrie_vals t k) pipe uniq.
Proof.
  induction 1 as [ps s Hps Hs Hch IH Hnr]. intros buff.
  set (res := fun c => match slots_get s c with
                       | Some n => mtrie_rm_pipe_helper pipe uniq n (buff ++ [c])
                       | None => None end).
  set (g := fun c => match res c with Some (n, _) => n | None => mtrie_new end).
  set (calls := fun c => match res c with Some (_, l) => l | None => [] end).
  assert (forall c n, slots_get s c = Some n ->
    mtrie_rm_pipe_helper pipe uniq n (buff ++ [c]) = Some (g c, calls c) /\ NoDup (calls c) /\
    mtrie_wf (g c) /\ (forall k, mtrie_vals (g c) k = mtrie_vals n k ∖ {[pipe]}) /\
    forall x, x ∈ calls c <-> exists k, x = buff ++ c :: k /\ rm_reported (mtrie_vals n k) pipe uniq)
    as Hres.
  { intros c n Hc. unfold g, calls, res. rewrite Hc.
    destruct (IH c n Hc (buff ++ [c])) as (n'&l&->&Hwf&Hv&Hnd&Hin). split_and!; try done.
    intros x. rewrite Hin. by setoid_rewrite <- app_assoc. }
  assert (forall c x, x ∈ calls c -> exists k, x = buff ++ c :: k) as Hpre.
  { intros c x Hx. destruct (slots_get s c) as [n|] eqn:Hc.
    - destruct (Hres c n Hc) as (_&_&_&_&Hin). destruct (proj1 (Hin x) Hx) as (k&Hk&_). eauto.
    - unfold calls, res in Hx. rewrite Hc in Hx. set_solver. }
  pose proof (mtrie_rm_children pipe uniq ps s buff g calls Hs) as Hkids.
  pose proof (mtrie_erase_spec pipe uniq ps buff Hps) as Her.
  destruct (mtrie_erase pipe uniq ps buff) as [ps' here].
  destruct Her as (Hps' & Hdef & Hnd0 & Hin0).
  destruct Hkids as (s' & l & Hrun & Hsh & Hget & Hnd & Hin).
  { intros c n Hc. destruct (Hres c n Hc) as (?&?&_). done. }
  { intros c c' x Hcc (k&->)%Hpre (k'&Heq)%Hpre. apply app_inv_head in Heq. congruence. }
  eexists _, _. split; [exact Hrun|]. split_and!.
  - constructor; [done|done| |]; intros c m; rewrite Hget; destruct (slots_get s c) as [n|] eqn:Hc;
      try done; simpl; unfold pruned; destruct (mtrie_is_redundant (g c)) eqn:Hr; try done;
      intros [= <-]; [|done]. by destruct (Hres c n Hc) as (_&_&?&_).
  - intros [|c k]; [done|]. simpl. rewrite Hget. destruct (slots_get s c) as [n|] eqn:Hc; [|set_solver].
    destruct (Hres c n Hc) as (_&_&Hwf&Hv&_). simpl. unfold pruned.
    destruct (mtrie_is_redundant (g c)) eqn:Hr; [|done]. rewrite <- Hv.
    symmetry. by apply mtrie_redundant_vals.
  - apply list.NoDup_app. split_and!; try done. intros x [-> _]%Hin0 (c&n&Hc&Hx)%Hin.
    apply Hpre in Hx as (k&Heq). apply (f_equal length) in Heq. rewrite length_app in Heq.
    simpl in Heq. lia.
  - intros x. rewrite elem_of_app, Hin0, Hin. split.
    + intros [[-> Hrep]|(c&n&Hc&Hx)].
      * exists []. by rewrite app_nil_r.
      * apply (Hres c n Hc) in Hx as (k&->&?). exists (c :: k). simpl. by rewrite Hc.
    + intros ([|c k] & -> & Hrep); simpl in Hrep.
      * left. by rewrite app_nil_r.
      * right. destruct (slots_get s c) as [n|] eqn:Hc.
        -- exists c, n. split; [done|]. apply (Hres c n Hc). by exists k.
        -- by destruct Hrep as [? _].
Qed.

(** ** Matching *)

(** The pipes of every prefix of the data, shortest prefix first. *)
Definition prefix_pipes (t : mtrie) (d : bytes) : list Z :=
  concat ((fun i => elements (mtrie_vals t (take i d))) <$> seq 0 (S (length d))).

Lemma prefix_pipes_cons t c d :
  prefix_pipes t (c :: d) =
  elements (default ∅ (mtrie_pipes t)) ++
  match slots_get (mtrie_next t) c with Some n => prefix_pipes n d | None => [] end.
Proof.
  unfold prefix_pipes. cbn [length].
  change (seq 0 (S (S (length d)))) with (0%nat :: seq 1 (S (length d))).
  rewrite <- (fmap_S_seq 0 (S (length d))), fmap_cons, <- list_fmap_compose.
  cbn [concat]. f_equal.
  destruct (slots_get (mtrie_next t) c) as [n|] eqn:Hc.
  - f_equal. apply list_fmap_ext. intros i x _. simpl. by rewrite Hc.
  - assert (forall l : list nat, concat ((fun i => elements (mtrie_vals t (take (S i) (c :: d)))) <$> l) = [])
      as H0.
    { induction l as [|i l IH]; [done|].
      rewrite fmap_cons. cbn [concat]. rewrite IH, app_nil_r. simpl. by rewrite Hc, elements_empty. }
    apply H0.
Qed.

Lemma mtrie_match_spec d : forall t, mtrie_wf t -> mtrie_match t d = Some (prefix_pipes t d).
Proof.
  induction d as [|c d IH]; intros t Hwf; destruct Hwf as [ps s Hps Hs Hch Hnr].
  - unfold prefix_pipes. simpl. rewrite app_nil_r. by destruct ps.
  - rewrite prefix_pipes_cons. cbn [mtrie_match mtrie_pipes mtrie_next].
    assert ((match ps with Some p => elements p | None => [] end) = elements (default ∅ ps)) as ->
      by by destruct ps.
    set (here := elements (default ∅ ps)).
    destruct (s_count s =? 0) eqn:E0; bool_prop.
    { rewrite slots_get_count_0 by done. by rewrite app_nil_r. }
    assert ((if s_count s =? 1 then if negb (c =? s_min s) then Some None else slots_ptr s c
             else if slots_out s c then Some None else slots_ptr s c) = Some (slots_get s c)) as ->.
    { destruct (s_count s =? 1) eqn:E1; bool_prop.
      - destruct (c =? s_min s) eqn:Ec; bool_prop; simpl.
        + apply slots_get_ptr; [done|]. unfold slots_out. by simpl_test.
        + f_equal. symmetry. apply slots_get_out; [done|]. unfold slots_out.
          destruct (c <? s_min s) eqn:?; bool_prop; simpl; by simpl_test.
      - destruct (slots_out s c) eqn:Eo; [|by apply slots_get_ptr].
        f_equal. symmetry. by apply slots_get_out. }
    cbn [mbind option_bind]. destruct (slots_get s c) as [n|] eqn:Hc.
    + by rewrite (IH n (Hch c n Hc)).
    + by rewrite app_nil_r.
Qed.

(** ** The multi-trie as a map from keys to sets of pipes *)

Inductive mtrie_op :=
| MAdd (k : bytes) (pipe : Z)
| MRm (k : bytes) (pipe : Z)
| MRmPipe (pipe : Z) (call_on_uniq : bool).

Definition mtrie_op_ok (o : mtrie_op) : Prop :=
  match o with MAdd k _ => bytes_ok k | _ => True end.

Definition mtrie_step (t : mtrie) (o : mtrie_op) : option mtrie :=
  match o with
  | MAdd k p => fst <$> mtrie_add t k p
  | MRm k p => fst <$> mtrie_rm t k p
  | MRmPipe p u => fst <$> mtrie_rm_pipe t p u
  end.

Fixpoint mtrie_run (t : mtrie) (ops : list mtrie_op) : option mtrie :=
  match ops with
  | [] => Some t
  | o :: ops' => let* t' := mtrie_step t o in mtrie_run t' ops'
  end.

(** The abstract operations on the relation between keys and pipes. *)
Definition entries_step (e : bytes -> pipes_t) (o : mtrie_op) : bytes -> pipes_t :=
  match o with
  | MAdd k p => fun k' => if decide (k' = k) then {[p]} ∪ e k' else e k'
  | MRm k p => fun k' => if decide (k' = k) then e k' ∖ {[p]} else e k'
  | MRmPipe p _ => fun k' => e k' ∖ {[p]}
  end.

Lemma mtrie_step_spec t o : mtrie_wf t -> mtrie_op_ok o ->
  exists t', mtrie_step t o = Some t' /\ mtrie_wf t' /\
    forall k, mtrie_vals t' k = entries_step (mtrie_vals t) o k.
Proof.
  intros Hwf Ho. destruct o as [k p|k p|p u]; simpl in *.
  - destruct (mtrie_add_spec k p t Hwf Ho) as (t' & E & Hwf' & _ & Hv). unfold mtrie_add. rewrite E.
    exists t'. split_and!; try done. intros k'. rewrite Hv. repeat case_decide; by simplify_eq.
  - destruct (mtrie_rm_spec k p t Hwf) as (t' & E & Hwf' & Hv). unfold mtrie_rm. rewrite E.
    exists t'. split_and!; try done. intros k'. rewrite Hv. repeat case_decide; by simplify_eq.
  - destruct (mtrie_rm_pipe_spec p u t Hwf []) as (t' & l & E & Hwf' & Hv & _).
    unfold mtrie_rm_pipe. rewrite E. exists t'. done.
Qed.

Lemma entries_run_ext ops : forall e e', (forall k, e k = e' k) ->
  forall k, foldl entries_step e ops k = foldl entries_step e' ops k.
Proof.
  induction ops as [|o ops IH]; intros e e' He k; simpl; [done|]. apply IH.
  intros k'. destruct o; simpl; by rewrite ?He.
Qed.

Lemma mtrie_run_spec ops : forall t, mtrie_wf t -> Forall mtrie_op_ok ops ->
  exists t', mtrie_run t ops = Some t' /\ mtrie_wf t' /\
    forall k, mtrie_vals t' k = foldl entries_step (mtrie_vals t) ops k.
Proof.
  induction ops as [|o ops IH]; intros t Hwf Hok; simpl; [eauto|].
  apply Forall_cons_1 in Hok as [Ho Hok].
  destruct (mtrie_step_spec t o Hwf Ho) as (t1 & -> & Hwf1 & Hv1). simpl.
  destruct (IH t1 Hwf1 Hok) as (t' & -> & Hwf' & Hv). exists t'. split_and!; try done.
  intros k. rewrite Hv. by apply entries_run_ext.
Qed.

(** The entries a sequence of operations leaves in an empty multi-trie. *)
Definition entries_run (ops : list mtrie_op) : bytes -> pipes_t :=
  foldl entries_step (fun _ => ∅) ops.

Lemma mtrie_run_new ops : Forall mtrie_op_ok ops ->
  exists t, mtrie_run mtrie_new ops = Some t /\ mtrie_wf t /\
    forall k, mtrie_vals t k = entries_run ops k.
Proof.
  intros Hok. destruct (mtrie_run_spec ops mtrie_new mtrie_new_wf Hok) as (t & Hrun & Hwf & Hv).
  exists t. split_and!; try done. intros k. rewrite Hv. apply entries_run_ext, mtrie_vals_new.
Qed.

(** C14: from the empty multi-trie, every sequence of [add], [rm] of an
    entry and [rm] of a pipe runs without a failed assertion, and
    [match] then signals every pipe once for each prefix of the data the
    abstract relation has it subscribed to, in order of the prefixes. *)
Theorem mtrie_refines_relation (ops : list mtrie_op) :
  Forall mtrie_op_ok ops ->
  exists t, mtrie_run mtrie_new ops = Some t /\
    forall d, mtrie_match t d =
      Some (concat ((fun i => elements (entries_run ops (take i d))) <$> seq 0 (S (length d)))).
Proof.
  intros (t & Hrun & Hwf & Hv)%mtrie_run_new. exists t. split; [done|]. intros d.
  rewrite mtrie_match_spec by done. unfold prefix_pipes. do 2 f_equal.
  apply list_fmap_ext. intros i x _. by rewrite Hv.
Qed.

(** after every sequence of operations, [add] answers whether the key
    was without pipes, [rm] of an entry answers whether the pipe was
    there and was the last one, and [rm] of a pipe calls back once for
    every key of the pipe (or, with [call_on_uniq], for every key the
    pipe is alone on) and for no other key. *)
Theorem mtrie_answers (ops : list mtrie_op) :
  Forall mtrie_op_ok ops ->
  exists t, mtrie_run mtrie_new ops = Some t /\
    (forall k p, bytes_ok k -> exists t',
       mtrie_add t k p = Some (t', bool_decide (entries_run ops k = ∅))) /\
    (forall k p, exists t', mtrie_rm t k p = Some (t', rm_answer (entries_run ops k) p)) /\
    (forall p u, exists t' l, mtrie_rm_pipe t p u = Some (t', l) /\ NoDup l /\
       forall k, k ∈ l <-> rm_reported (entries_run ops k) p u).
Proof.
  intros (t & Hrun & Hwf & Hv)%mtrie_run_new. exists t. split_and!; [done| | |].
  - intros k p Hk. destruct (mtrie_add_spec k p t Hwf Hk) as (t' & E & _). rewrite Hv in E. by exists t'.
  - intros k p. destruct (mtrie_rm_spec k p t Hwf) as (t' & E & _). rewrite Hv in E. by exists t'.
  - intros p u. destruct (mtrie_rm_pipe_spec p u t Hwf []) as (t' & l & E & _ & _ & Hnd & Hin).
    exists t', l. split_and!; try done. intros k. rewrite Hin. setoid_rewrite Hv. simpl.
    split; [by intros (? & -> & ?)|eauto].
Qed.

(** ** Concrete runs *)

Definition example_mtrie_ops : list mtrie_op :=
  [MAdd [97] 1; MAdd [97; 98] 2; MAdd [97; 120] 1; MAdd [] 3; MAdd [97; 98] 1; MRm [97; 120] 1;
   MAdd [110] 2; MRmPipe 3 true].

Lemma mtrie_refines_relation_witness :
  exists t, mtrie_run mtrie_new example_mtrie_ops = Some t /\
    mtrie_match t [97; 98; 99] = Some [1; 2; 1].
Proof.
  destruct (mtrie_refines_relation example_mtrie_ops) as (t & Hrun & Hm).
  - repeat constructor; simpl; unfold is_u8; lia.
  - exists t. split; [exact Hrun|]. rewrite Hm. vm_compute. reflexivity.
Defined.

Lemma mtrie_answers_witness :
  exists t t' l, mtrie_run mtrie_new example_mtrie_ops = Some t /\
    mtrie_rm_pipe t 2 true = Some (t', l) /\ [110] ∈ l /\ [97; 98] ∉ l.
Proof.
  destruct (mtrie_answers example_mtrie_ops) as (t & Hrun & _ & _ & Hp).
  - repeat constructor; simpl; unfold is_u8; lia.
  - destruct (Hp 2 true) as (t' & l & E & _ & Hin). exists t, t', l.
    split_and!; [exact Hrun|exact E| |].
    + apply Hin. split; [|intros _]; vm_compute; reflexivity.
    + intros H%Hin. destruct H as [_ H]. specialize (H eq_refl). vm_compute in H. discriminate.
Defined.
