(* ===== verification/Yqueue.v ===== *)
(** * The chunked queue, [yqueue_t] (src/src/yqueue.hpp)

    The queue is a doubly linked list of chunks of [N] elements, with one
    spare chunk kept for reuse.  The model keeps the heap of chunks: an
    access to a chunk that is not allocated, a double free, or a null
    pointer is [None].  [malloc] is a parameter: it returns an address
    that is not allocated, possibly one freed before. *)

From S2P Require Import Prelude.

(** ** Data *)

Record chunk (T : Type) := Chunk {
  ck_values : list (option T);
  ck_prev : option Z;
  ck_next : option Z;
}.
Arguments Chunk {T}.
Arguments ck_values {T}.
Arguments ck_prev {T}.
Arguments ck_next {T}.

Abbreviation heap T := (gmap Z (chunk T)).

(** The address of an element: its chunk and its index in [values]. *)
Abbreviation elem_ptr := (Z * nat)%type.

Record yqueue (T : Type) := Yqueue {
  yq_heap : heap T;
  begin_chunk : Z;
  begin_pos : nat;
  back_chunk : option Z;
  back_pos : nat;
  end_chunk : Z;
  end_pos : nat;
  spare_chunk : option Z;
}.
Arguments Yqueue {T}.
Arguments yq_heap {T}.
Arguments begin_chunk {T}.
Arguments begin_pos {T}.
Arguments back_chunk {T}.
Arguments back_pos {T}.
Arguments end_chunk {T}.
Arguments end_pos {T}.
Arguments spare_chunk {T}.

(** What [malloc] promises. *)
Class Allocator (T : Type) (malloc : heap T -> Z) :=
  malloc_fresh (h : heap T) : h !! malloc h = None.

Section yqueue.
Context {T : Type} (malloc : heap T -> Z) (N : nat).

(** ** Memory *)

(** [free]; a null pointer is ignored. *)
Definition yq_free (h : heap T) (p : option Z) : option (heap T) :=
  match p with
  | None => Some h
  | Some c => match h !! c with Some _ => Some (delete c h) | None => None end
  end.

Definition set_next (h : heap T) (c : Z) (n : option Z) : option (heap T) :=
  let* k := h !! c in Some (<[c := Chunk (ck_values k) (ck_prev k) n]> h).

Definition set_prev (h : heap T) (c : Z) (p : option Z) : option (heap T) :=
  let* k := h !! c in Some (<[c := Chunk (ck_values k) p (ck_next k)]> h).

(** The value of the element at an address; [None] inside is an element
    that was never written. *)
Definition yq_load (h : heap T) (a : elem_ptr) : option (option T) :=
  let* k := h !! a.1 in ck_values k !! a.2.

Definition yq_store (h : heap T) (a : elem_ptr) (v : T) : option (heap T) :=
  let* k := h !! a.1 in
  match ck_values k !! a.2 with
  | Some _ => Some (<[a.1 := Chunk (<[a.2 := Some v]> (ck_values k)) (ck_prev k) (ck_next k)]> h)
  | None => None
  end.

(** ** Operations *)

Definition allocate_chunk (h : heap T) : heap T * Z :=
  let c := malloc h in (<[c := Chunk (replicate N None) None None]> h, c).

Definition yqueue_new : yqueue T :=
  let '(h, c) := allocate_chunk ∅ in Yqueue h c 0 None 0 c 0 None.

(** The addresses [&front ()] and [&back ()]. *)
Definition yq_front (q : yqueue T) : elem_ptr := (begin_chunk q, begin_pos q).
Definition yq_back (q : yqueue T) : option elem_ptr :=
  let* c := back_chunk q in Some (c, back_pos q).

Definition yq_set_back (q : yqueue T) (v : T) : option (yqueue T) :=
  let* a := yq_back q in
  let* h := yq_store (yq_heap q) a v in
  Some (Yqueue h (begin_chunk q) (begin_pos q) (back_chunk q) (back_pos q)
          (end_chunk q) (end_pos q) (spare_chunk q)).

Definition yq_push (q : yqueue T) : option (yqueue T) :=
  let back_chunk := end_chunk q in
  let back_pos := end_pos q in
  let end_pos := S (end_pos q) in
  if negb (end_pos =? N)%nat then
    Some (Yqueue (yq_heap q) (begin_chunk q) (begin_pos q) (Some back_chunk) back_pos
            (end_chunk q) end_pos (spare_chunk q))
  else
    let* (h, n) :=
      match spare_chunk q with
      | Some sc =>
          let* h := set_next (yq_heap q) (end_chunk q) (Some sc) in
          let* h := set_prev h sc (Some (end_chunk q)) in
          Some (h, sc)
      | None =>
          let '(h, c) := allocate_chunk (yq_heap q) in
          let* h := set_next h (end_chunk q) (Some c) in
          let* h := set_prev h c (Some (end_chunk q)) in
          Some (h, c)
      end in
    Some (Yqueue h (begin_chunk q) (begin_pos q) (Some back_chunk) back_pos n 0 None).

Definition yq_unpush (q : yqueue T) : option (yqueue T) :=
  let* (back_chunk, back_pos) :=
    if negb (back_pos q =? 0)%nat then Some (back_chunk q, (back_pos q - 1)%nat)
    else
      let* b := back_chunk q in
      let* k := yq_heap q !! b in
      Some (ck_prev k, (N - 1)%nat) in
  let* (h, end_chunk, end_pos) :=
    if negb (end_pos q =? 0)%nat then Some (yq_heap q, end_chunk q, (end_pos q - 1)%nat)
    else
      let* k := yq_heap q !! end_chunk q in
      let* e := ck_prev k in
      let* k' := yq_heap q !! e in
      let* h := yq_free (yq_heap q) (ck_next k') in
      let* h := set_next h e None in
      Some (h, e, (N - 1)%nat) in
  Some (Yqueue h (begin_chunk q) (begin_pos q) back_chunk back_pos end_chunk end_pos
          (spare_chunk q)).

Definition yq_pop (q : yqueue T) : option (yqueue T) :=
  let begin_pos := S (begin_pos q) in
  if (begin_pos =? N)%nat then
    let o := begin_chunk q in
    let* k := yq_heap q !! o in
    let* b := ck_next k in
    let* h := set_prev (yq_heap q) b None in
    let cs := spare_chunk q in
    let* h := yq_free h cs in
    Some (Yqueue h b 0 (back_chunk q) (back_pos q) (end_chunk q) (end_pos q) (Some o))
  else
    Some (Yqueue (yq_heap q) (begin_chunk q) begin_pos (back_chunk q) (back_pos q)
            (end_chunk q) (end_pos q) (spare_chunk q)).

(** The destructor; [fuel] bounds the number of chunks. *)
Fixpoint yq_free_chunks (fuel : nat) (h : heap T) (b e : Z) : option (heap T) :=
  match fuel with
  | O => None
  | S f =>
      if b =? e then yq_free h (Some b)
      else
        let* k := h !! b in
        let* n := ck_next k in
        let* h := yq_free h (Some b) in
        yq_free_chunks f h n e
  end.

Definition yq_destroy (q : yqueue T) : option (heap T) :=
  let* h := yq_free_chunks (S (size (yq_heap q))) (yq_heap q) (begin_chunk q) (end_chunk q) in
  yq_free h (spare_chunk q).

(** ** Representation

    Elements have absolute indices: element [i] lives in chunk [i / N] at
    [i mod N], and [ck] gives the address of a chunk.  The queue holds
    the indices from [hd], the front, to [tl], the back; [vs] are the
    elements before the back one. *)

Definition elem_addr (ck : nat -> Z) (i : nat) : elem_ptr := (ck (i / N)%nat, (i mod N)%nat).

Definition in_chain (hd tl j : nat) : Prop := (hd / N <= j <= S tl / N)%nat.

Record yq_inv (q : yqueue T) (ck : nat -> Z) (hd tl : nat) (vs : list T) : Prop := {
  yi_order : (hd <= tl)%nat;
  yi_begin : yq_front q = elem_addr ck hd;
  yi_back : yq_back q = Some (elem_addr ck tl);
  yi_end : (end_chunk q, end_pos q) = elem_addr ck (S tl);
  yi_values c k : yq_heap q !! c = Some k -> length (ck_values k) = N;
  yi_chain j : in_chain hd tl j -> exists k, yq_heap q !! ck j = Some k /\
    (in_chain hd tl (S j) -> ck_next k = Some (ck (S j))) /\
    (forall i, j = S i -> in_chain hd tl i -> ck_prev k = Some (ck i));
  yi_inj j j' : in_chain hd tl j -> in_chain hd tl j' -> ck j = ck j' -> j = j';
  yi_spare s : spare_chunk q = Some s ->
    is_Some (yq_heap q !! s) /\ forall j, in_chain hd tl j -> ck j <> s;
  yi_owned c : is_Some (yq_heap q !! c) ->
    spare_chunk q = Some c \/ exists j, in_chain hd tl j /\ c = ck j;
  yi_length : (hd + length vs)%nat = tl;
  yi_cells i v : vs !! i = Some v -> yq_load (yq_heap q) (elem_addr ck (hd + i)) = Some (Some v);
}.

Hypothesis HN : (0 < N)%nat.
Context `{!Allocator T malloc}.

Lemma index_succ i :
  (S (i mod N) = N /\ S i / N = S (i / N) /\ S i mod N = 0)%nat \/
  (S (i mod N) < N /\ S i / N = i / N /\ S i mod N = S (i mod N))%nat.
Proof.
  pose proof (Nat.div_mod_eq i N) as Hi. pose proof (Nat.mod_upper_bound i N).
  destruct (decide (S (i mod N) = N)) as [E|E].
  - left. split; [done|].
    split; symmetry; [apply (Nat.div_unique _ _ _ 0)|apply (Nat.mod_unique _ _ (S (i / N)))]; nia.
  - right. split; [lia|].
    split; symmetry; [apply (Nat.div_unique _ _ _ (S (i mod N)))|apply (Nat.mod_unique _ _ (i / N))]; nia.
Qed.

Lemma index_div_le i j : (i <= j)%nat -> (i / N <= j / N)%nat.
Proof. intros. apply Nat.Div0.div_le_mono. done. Qed.

(** Addresses of live elements are distinct, whatever [malloc] reuses. *)
Lemma elem_addr_inj q ck hd tl vs i j :
  yq_inv q ck hd tl vs -> (hd <= i <= S tl)%nat -> (hd <= j <= S tl)%nat ->
  elem_addr ck i = elem_addr ck j -> i = j.
Proof.
  intros Hq Hi Hj [= Hc Hp]. apply (yi_inj _ _ _ _ _ Hq) in Hc.
  - rewrite (Nat.div_mod_eq i N), (Nat.div_mod_eq j N). congruence.
  - split; apply index_div_le; lia.
  - split; apply index_div_le; lia.
Qed.

Lemma elem_addr_ext ck ck' i :
  ck (i / N)%nat = ck' (i / N)%nat -> elem_addr ck i = elem_addr ck' i.
Proof. unfold elem_addr. by intros ->. Qed.

(** The front element. *)
Lemma yq_inv_front q ck hd tl v vs :
  yq_inv q ck hd tl (v :: vs) -> yq_load (yq_heap q) (yq_front q) = Some (Some v).
Proof.
  intros Hq. rewrite (yi_begin _ _ _ _ _ Hq), <- (Nat.add_0_r hd).
  by apply (yi_cells _ _ _ _ _ Hq).
Qed.

(** The cell of the back element after a push is rolled back. *)
Lemma yq_load_store h a v h' b :
  yq_store h a v = Some h' ->
  yq_load h' b = if decide (b = a) then Some (Some v) else yq_load h b.
Proof.
  unfold yq_store, yq_load. destruct a as [c p], b as [c' p']. simpl.
  destruct (h !! c) as [k|] eqn:Hk; [|done]. simpl.
  destruct (ck_values k !! p) eqn:Hp; [|done]. intros [= <-].
  destruct (decide (c' = c)) as [->|Hc].
  - rewrite lookup_insert_eq, Hk. simpl. destruct (decide (p' = p)) as [->|Hpp].
    + rewrite decide_True by done. apply list_lookup_insert_eq. by eapply lookup_lt_Some.
    + rewrite decide_False by congruence. by apply list_lookup_insert_ne.
  - rewrite lookup_insert_ne by done. by rewrite decide_False by congruence.
Qed.

(** ** The back element *)

Lemma yq_set_back_spec q ck hd tl vs v :
  yq_inv q ck hd tl vs ->
  exists q', yq_set_back q v = Some q' /\ yq_inv q' ck hd tl vs /\
    yq_load (yq_heap q') (elem_addr ck tl) = Some (Some v).
Proof.
  intros Hq. unfold yq_set_back. rewrite (yi_back _ _ _ _ _ Hq). cbn [mbind option_bind].
  assert (in_chain hd tl (tl / N)) as Hin.
  { pose proof (yi_order _ _ _ _ _ Hq). split; apply index_div_le; lia. }
  destruct (yi_chain _ _ _ _ _ Hq _ Hin) as (k & Hk & _).
  assert (is_Some (ck_values k !! (tl mod N)%nat)) as [x Hx].
  { apply lookup_lt_is_Some. rewrite (yi_values _ _ _ _ _ Hq _ _ Hk). apply Nat.mod_upper_bound. lia. }
  destruct (yq_store (yq_heap q) (elem_addr ck tl) v) as [h'|] eqn:Hst.
  2:{ exfalso. unfold yq_store in Hst. simpl in Hst. rewrite Hk in Hst. simpl in Hst. by rewrite Hx in Hst. }
  pose proof (fun b => yq_load_store _ _ _ _ b Hst) as Hload.
  unfold yq_store in Hst. simpl in Hst. rewrite Hk in Hst. simpl in Hst. rewrite Hx in Hst.
  injection Hst as <-. simpl. eexists. split; [done|]. split; [|rewrite Hload; by rewrite decide_True].
  destruct Hq as [Hle Hb Hbk He Hv Hch Hinj Hsp Hown Hlen Hcells].
  constructor; simpl; try done.
  - intros c k'. rewrite lookup_insert. case_decide; [|by apply Hv].
    intros [= <-]. simpl. rewrite length_insert. by apply (Hv _ _ Hk).
  - intros j Hj. destruct (Hch j Hj) as (k' & Hk' & Hn & Hp). rewrite lookup_insert.
    case_decide as Ec; [|eauto]. rewrite <- Ec, Hk in Hk'. injection Hk' as <-. eauto.
  - intros s Hs. destruct (Hsp s Hs) as [Hs' Hne]. split; [|done].
    rewrite lookup_insert. case_decide; [by eexists|done].
  - intros c. rewrite lookup_insert. case_decide; [|apply Hown]. intros _. right. eauto.
  - intros i w Hi. rewrite Hload. rewrite decide_False; [by apply Hcells|].
    apply lookup_lt_Some in Hi. intros Heq.
    eapply (elem_addr_inj q ck hd tl vs) in Heq; [lia| |lia|lia]. by constructor.
Qed.

(** ** Push *)

Lemma link_spec (h : heap T) e n ke kn :
  h !! e = Some ke -> h !! n = Some kn -> e <> n ->
  (let* h1 := set_next h e (Some n) in set_prev h1 n (Some e)) =
  Some (<[n := Chunk (ck_values kn) (Some e) (ck_next kn)]>
          (<[e := Chunk (ck_values ke) (ck_prev ke) (Some n)]> h)).
Proof.
  intros He Hn Hne. unfold set_next, set_prev. rewrite He. simpl.
  by rewrite lookup_insert_ne, Hn by done.
Qed.

(** The state after a push that stays in the chunk. *)
Lemma yq_push_within q ck hd tl vs v :
  yq_inv q ck hd tl vs -> yq_load (yq_heap q) (elem_addr ck tl) = Some (Some v) ->
  (S (S tl mod N) < N)%nat ->
  exists q', yq_push q = Some q' /\ yq_inv q' ck hd (S tl) (vs ++ [v]).
Proof.
  intros [Hle Hb Hbk He Hv Hch Hinj Hsp Hown Hlen Hcells] Hl Hlt.
  destruct (index_succ (S tl)) as [(?&_)|(_&Hd&Hm)]; [lia|].
  injection He as He1 He2. unfold yq_push. rewrite He2.
  replace (S (S tl mod N) =? N)%nat with false by (symmetry; apply Nat.eqb_neq; lia).
  eexists. split; [done|].
  assert (forall j, in_chain hd (S tl) j <-> in_chain hd tl j) as Hic
    by (intros j; unfold in_chain; rewrite Hd; done).
  constructor; simpl; try done; try (setoid_rewrite Hic; done).
  - lia.
  - by rewrite He1.
  - unfold elem_addr. by rewrite Hd, Hm, He1.
  - rewrite length_app; simpl; lia.
  - intros i w [Hi|[? Hi]]%lookup_app_Some; [by apply Hcells|].
    apply list_lookup_singleton_Some in Hi as [Hi ->].
    by replace (hd + i)%nat with tl by lia.
Qed.

(** The state after a push that links the chunk [n]. *)
Lemma yq_push_link q ck hd tl vs v (h0 : heap T) n kn ke :
  yq_inv q ck hd tl vs -> yq_load (yq_heap q) (elem_addr ck tl) = Some (Some v) ->
  (S (S tl mod N) = N)%nat ->
  (forall j, in_chain hd tl j -> ck j <> n) ->
  (forall c, c <> n -> h0 !! c = yq_heap q !! c) -> h0 !! n = Some kn -> length (ck_values kn) = N ->
  (forall c, is_Some (yq_heap q !! c) -> c = n \/ exists j, in_chain hd tl j /\ c = ck j) ->
  h0 !! end_chunk q = Some ke ->
  yq_inv (Yqueue (<[n := Chunk (ck_values kn) (Some (end_chunk q)) (ck_next kn)]>
                    (<[end_chunk q := Chunk (ck_values ke) (ck_prev ke) (Some n)]> h0))
            (begin_chunk q) (begin_pos q) (Some (end_chunk q)) (end_pos q) n 0 None)
    (fun j => if decide (j = S (S tl / N)) then n else ck j) hd (S tl) (vs ++ [v]).
Proof.
  intros [Hle Hb Hbk He Hv Hch Hinj Hsp Hown Hlen Hcells] Hl HSN Hnew Hh0 Hn Hkn Hown' Hke.
  destruct (index_succ (S tl)) as [(_&Hd&Hm)|(?&_)]; [|lia].
  injection He as He1 He2. set (ck' := fun j => if decide (j = S (S tl / N)) then n else ck j).
  assert (hd / N <= S tl / N)%nat as Hhi by (apply index_div_le; lia).
  assert (forall j, in_chain hd (S tl) j <-> in_chain hd tl j \/ j = S (S tl / N)) as Hic
    by (intros j; unfold in_chain; lia).
  assert (forall j, in_chain hd tl j -> ck' j = ck j) as Hck.
  { intros j Hj. unfold ck', in_chain in *. rewrite decide_False; [done|lia]. }
  assert (ck' (S (S tl / N)) = n) as Hckn by (unfold ck'; by rewrite decide_True).
  assert (forall i, (hd <= i <= S tl)%nat -> elem_addr ck' i = elem_addr ck i) as Haddr.
  { intros i Hi. apply elem_addr_ext, Hck. split; apply index_div_le; lia. }
  assert (in_chain hd tl (S tl / N)) as Hlast by (unfold in_chain; lia).
  assert (end_chunk q <> n) as Hen by (rewrite He1; by apply Hnew).
  assert (forall a x, yq_load (yq_heap q) a = Some x -> a.1 <> n -> 
    yq_load (<[n := Chunk (ck_values kn) (Some (end_chunk q)) (ck_next kn)]>
      (<[end_chunk q := Chunk (ck_values ke) (ck_prev ke) (Some n)]> h0)) a = Some x) as Hld.
  { intros [c p] x Hx Hc. unfold yq_load in *. simpl in *. rewrite lookup_insert_ne by done.
    rewrite lookup_insert. case_decide as Ec; simpl; [|by rewrite Hh0].
    subst c. by rewrite <- Hh0, Hke in Hx. }
  constructor; simpl; try done.
  - lia.
  - by rewrite Haddr by lia.
  - rewrite Haddr by lia. unfold elem_addr. by rewrite <- He1, <- He2.
  - unfold elem_addr. by rewrite Hd, Hm, Hckn.
  - intros c k. rewrite !lookup_insert. case_decide as E1; [intros [= <-]; done|].
    case_decide as E2; [|rewrite Hh0 by done; apply Hv]. intros [= <-]. simpl.
    rewrite Hh0 in Hke by done. by apply (Hv _ _ Hke).
  - intros j Hj. apply Hic in Hj as [Hj| ->].
    + rewrite Hck by done. destruct (Hch j Hj) as (k & Hk & Hnx & Hpv).
      rewrite lookup_insert_ne by (symmetry; by apply Hnew). rewrite lookup_insert.
      assert (forall i, j = S i -> in_chain hd (S tl) i -> in_chain hd tl i) as Hpi
        by (intros i -> Hi; unfold in_chain in *; lia).
      case_decide as Ec.
      * assert (j = S tl / N)%nat as -> by (apply Hinj; try done; congruence).
        rewrite Hh0, Ec, Hk in Hke by done. injection Hke as <-.
        eexists; split; [done|]. simpl. rewrite Hckn. split; [done|].
        intros i Ei Hi. rewrite Hck by eauto. eauto.
      * rewrite Hh0 by (by apply Hnew). exists k. split; [done|]. split.
        -- intros Hs. rewrite Hck; [apply Hnx|]; unfold in_chain in *;
             (assert (j <> S tl / N)%nat by congruence; lia).
        -- intros i Ei Hi. rewrite Hck by eauto. eauto.
    + rewrite Hckn, lookup_insert_eq. eexists; split; [done|]. simpl. split.
      * intros Hs. unfold in_chain in Hs. lia.
      * intros i [= <-] _. rewrite Hck by done. congruence.
  - intros j j' Hj Hj'. apply Hic in Hj as [Hj| ->], Hj' as [Hj'| ->]; rewrite ?Hckn, ?Hck by done;
      [by apply Hinj|intros ?; by destruct (Hnew j)|intros ?; by destruct (Hnew j')|done].
  - intros c. rewrite !lookup_insert. intros Hc. right.
    assert (c = n \/ exists j, in_chain hd tl j /\ c = ck j) as [->|(j & Hj & ->)].
    { case_decide; [by left|]. case_decide as E2; [right; exists (S tl / N)%nat; split; congruence|].
      apply Hown'. by rewrite <- Hh0. }
    + eexists. by rewrite Hckn, Hic; eauto.
    + exists j. rewrite Hck, Hic by done. eauto.
  - rewrite length_app; simpl; lia.
  - intros i w [Hi|[? Hi]]%lookup_app_Some.
    + pose proof (lookup_lt_Some _ _ _ Hi). rewrite Haddr by lia.
      apply Hld; [by apply Hcells|]. apply Hnew. split; apply index_div_le; lia.
    + apply list_lookup_singleton_Some in Hi as [Hi ->].
      replace (hd + i)%nat with tl by lia. rewrite Haddr by lia.
      apply Hld; [done|]. apply Hnew. split; apply index_div_le; lia.
Qed.

(** [back () = v; push ()] appends [v]; the addresses of the elements
    stay as they are. *)
Lemma yq_append_spec q ck hd tl vs v :
  yq_inv q ck hd tl vs ->
  exists q' ck', (let* q1 := yq_set_back q v in yq_push q1) = Some q' /\
    yq_inv q' ck' hd (S tl) (vs ++ [v]) /\
    forall i, (hd <= i <= S tl)%nat -> elem_addr ck' i = elem_addr ck i.
Proof.
  intros Hq. destruct (yq_set_back_spec q ck hd tl vs v Hq) as (q1 & -> & Hq1 & Hl).
  cbn [mbind option_bind]. clear q Hq. rename q1 into q, Hq1 into Hq.
  destruct (decide (S (S tl mod N) = N)) as [HSN|HSN].
  2:{ pose proof (Nat.mod_upper_bound (S tl) N).
      destruct (yq_push_within q ck hd tl vs v Hq Hl) as (q' & -> & Hq'); [lia|]. by exists q', ck. }
  pose proof (yi_end _ _ _ _ _ Hq) as He. injection He as He1 He2.
  pose proof (yi_order _ _ _ _ _ Hq).
  assert (in_chain hd tl (S tl / N)) as Hlast by (split; apply index_div_le; lia).
  destruct (yi_chain _ _ _ _ _ Hq _ Hlast) as (ke & Hke & _). rewrite <- He1 in Hke.
  assert (forall ck' n, (forall j, ck' j = if decide (j = S (S tl / N)) then n else ck j) ->
    forall i, (hd <= i <= S tl)%nat -> elem_addr ck' i = elem_addr ck i) as Haddr.
  { intros ck' n Hck i Hi. apply elem_addr_ext. rewrite Hck. rewrite decide_False; [done|].
    pose proof (index_div_le i (S tl)). lia. }
  unfold yq_push. rewrite He2, HSN, Nat.eqb_refl. cbn [negb].
  destruct (spare_chunk q) as [sc|] eqn:Hsp.
  - destruct (yi_spare _ _ _ _ _ Hq _ Hsp) as [[kn Hkn] Hne].
    assert (end_chunk q <> sc) by (rewrite He1; by apply Hne).
    pose proof (link_spec (yq_heap q) _ sc _ _ Hke Hkn ltac:(done)) as Hlk.
    destruct (set_next _ _ _) as [h1|]; [|done]. cbn [mbind option_bind] in *.
    rewrite Hlk. cbn [mbind option_bind]. eexists _, _. split; [rewrite <- He2; done|]. split.
    + eapply (yq_push_link q ck hd tl vs v (yq_heap q)); try done.
      * by eapply (yi_values _ _ _ _ _ Hq).
      * intros c Hc. apply (yi_owned _ _ _ _ _ Hq) in Hc. rewrite Hsp in Hc. naive_solver.
    + by eapply Haddr.
  - set (n := malloc (yq_heap q)). unfold allocate_chunk. fold n.
    pose proof (malloc_fresh (yq_heap q)) as Hfr. fold n in Hfr.
    set (h0 := <[n := Chunk (replicate N None) None None]> (yq_heap q)).
    assert (end_chunk q <> n) by congruence.
    assert (h0 !! end_chunk q = Some ke) as Hke0 by (unfold h0; by rewrite lookup_insert_ne).
    assert (h0 !! n = Some (Chunk (replicate N None) None None)) as Hn0
      by (unfold h0; by rewrite lookup_insert_eq).
    pose proof (link_spec h0 _ n _ _ Hke0 Hn0 ltac:(done)) as Hlk.
    destruct (set_next _ _ _) as [h1|]; [|done]. cbn [mbind option_bind] in *.
    rewrite Hlk. cbn [mbind option_bind]. eexists _, _. split; [rewrite <- He2; done|]. split.
    + eapply (yq_push_link q ck hd tl vs v h0); try done.
      * intros j Hj Hc. destruct (yi_chain _ _ _ _ _ Hq j Hj) as (k & Hk & _). congruence.
      * intros c Hc. unfold h0. by rewrite lookup_insert_ne.
      * simpl. apply length_replicate.
      * intros c Hc. apply (yi_owned _ _ _ _ _ Hq) in Hc. rewrite Hsp in Hc. naive_solver.
    + by eapply Haddr.
Qed.

(** The constructor and the first push of [ypipe_t]. *)
Lemma yq_first_push :
  exists q ck, yq_push yqueue_new = Some q /\ yq_inv q ck 0 0 [].
Proof.
  unfold yqueue_new, allocate_chunk. set (c := malloc ∅). cbv beta iota zeta.
  unfold yq_push. cbn [yq_heap begin_chunk begin_pos back_chunk back_pos end_chunk end_pos spare_chunk].
  destruct (index_succ 0) as [(H1&H2&H3)|(H1&H2&H3)];
    rewrite ?Nat.Div0.mod_0_l, ?Nat.Div0.div_0_l in *.
  - rewrite H1, Nat.eqb_refl. cbn [negb].
    set (h := <[c := _]> ∅). set (n := malloc h). pose proof (malloc_fresh h) as Hfr. fold n in Hfr.
    assert (c <> n) as Hcn by (intros E; unfold h in Hfr; by rewrite E, lookup_insert_eq in Hfr).
    assert (<[n := Chunk (replicate N None) None None]> h !! c = Some (Chunk (replicate N None) None None))
      as Hc0 by (unfold h; by rewrite lookup_insert_ne, lookup_insert_eq by done).
    pose proof (link_spec _ c n _ _ Hc0 (lookup_insert_eq _ _ _) Hcn) as Hlk.
    unfold allocate_chunk. fold n. destruct (set_next _ _ _) as [h1|]; [|done].
    cbn [mbind option_bind] in *. rewrite Hlk. cbn [mbind option_bind ck_values ck_prev ck_next].
    eexists _, (fun j => if decide (j = 0%nat) then c else n). split; [done|].
    assert (forall j, in_chain 0 0 j <-> j = 0%nat \/ j = 1%nat) as Hic
      by (intros j; unfold in_chain; rewrite H2, Nat.Div0.div_0_l; lia).
    constructor; simpl; try done.
    + unfold elem_addr, yq_front; simpl. by rewrite Nat.Div0.div_0_l, Nat.Div0.mod_0_l.
    + unfold elem_addr, yq_back; simpl. by rewrite Nat.Div0.div_0_l, Nat.Div0.mod_0_l.
    + unfold elem_addr. by rewrite H2, H3.
    + intros x k. unfold h. rewrite !lookup_insert. repeat case_decide; try done;
        intros [= <-]; simpl; by rewrite length_replicate.
    + intros j [-> | ->]%Hic; simpl; unfold h.
      * rewrite lookup_insert_ne, lookup_insert_eq by done. eexists; split; [done|]. done.
      * rewrite lookup_insert_eq. eexists; split; [done|]. simpl. split.
        -- intros [|]%Hic; lia.
        -- intros i [= <-] _. done.
    + intros j j' [-> | ->]%Hic [-> | ->]%Hic; simpl; congruence.
    + unfold h. intros x Hx. right. destruct (decide (x = n)) as [->|Hxn].
      { exists 1%nat. rewrite Hic. auto. }
      destruct (decide (x = c)) as [->|Hxc]; [exists 0%nat; rewrite Hic; auto|].
      rewrite !lookup_insert_ne, lookup_empty in Hx by done. by destruct Hx.
  - replace (1 =? N)%nat with false by (symmetry; apply Nat.eqb_neq; lia). cbn [negb].
    eexists _, (fun _ => c). split; [done|].
    assert (forall j, in_chain 0 0 j <-> j = 0%nat) as Hic
      by (intros j; unfold in_chain; rewrite H2, Nat.Div0.div_0_l; lia).
    constructor; simpl; try done.
    + unfold elem_addr, yq_front; simpl. by rewrite Nat.Div0.mod_0_l.
    + unfold elem_addr, yq_back; simpl. by rewrite Nat.Div0.mod_0_l.
    + unfold elem_addr. by rewrite H3.
    + intros x k. rewrite lookup_insert. case_decide; [|done]. intros [= <-]. simpl.
      by rewrite length_replicate.
    + intros j ->%Hic. rewrite lookup_insert_eq. eexists; split; [done|]. split.
      * intros ?%Hic. lia.
      * intros i ?. lia.
    + intros j j' ->%Hic ->%Hic. done.
    + intros x. rewrite lookup_insert. intros Hx. right. case_decide; subst.
      * exists 0%nat. by rewrite Hic.
      * rewrite lookup_empty in Hx. by destruct Hx.
Qed.

(** ** Pop *)

Lemma yq_pop_within q ck hd tl v vs :
  yq_inv q ck hd tl (v :: vs) -> (S (hd mod N) < N)%nat ->
  exists q', yq_pop q = Some q' /\ yq_inv q' ck (S hd) tl vs.
Proof.
  intros [Hle Hb Hbk He Hv Hch Hinj Hsp Hown Hlen Hcells] Hlt.
  destruct (index_succ hd) as [(?&_)|(_&Hd&Hm)]; [lia|].
  injection Hb as Hb1 Hb2. unfold yq_pop. rewrite Hb2.
  replace (S (hd mod N) =? N)%nat with false by (symmetry; apply Nat.eqb_neq; lia).
  eexists. split; [done|].
  assert (forall j, in_chain (S hd) tl j <-> in_chain hd tl j) as Hic
    by (intros j; unfold in_chain; rewrite Hd; done).
  simpl in Hlen. constructor; simpl; try done; try (setoid_rewrite Hic; done); try lia.
  - unfold yq_front, elem_addr. simpl. by rewrite Hd, Hm, Hb1.
  - intros i w Hi. replace (S (hd + i)) with (hd + S i)%nat by lia. by apply Hcells.
Qed.

(** The first chunk is left behind: it becomes the spare one. *)
Lemma yq_pop_next q ck hd tl v vs :
  yq_inv q ck hd tl (v :: vs) -> (S (hd mod N) = N)%nat ->
  exists q', yq_pop q = Some q' /\ yq_inv q' ck (S hd) tl vs.
Proof.
  intros Hq HSN. pose proof Hq as [Hle Hb Hbk He Hv Hch Hinj Hsp Hown Hlen Hcells]. simpl in Hlen.
  destruct (index_succ hd) as [(_&Hd&Hm)|(?&_)]; [|lia].
  injection Hb as Hb1 Hb2. unfold yq_pop. rewrite Hb1, Hb2, HSN, Nat.eqb_refl.
  assert (S hd / N <= S tl / N)%nat by (apply index_div_le; lia).
  assert (in_chain hd tl (hd / N) /\ in_chain hd tl (S (hd / N))) as [Hin0 Hin1]
    by (unfold in_chain; lia).
  assert (forall j, in_chain (S hd) tl j <-> in_chain hd tl j /\ j <> (hd / N)%nat) as Hic
    by (intros j; unfold in_chain; lia).
  destruct (Hch _ Hin0) as (k0 & Hk0 & Hn0 & _). destruct (Hch _ Hin1) as (k1 & Hk1 & Hn1 & _).
  rewrite Hk0. simpl. rewrite (Hn0 Hin1). simpl. unfold set_prev. rewrite Hk1. simpl.
  set (h1 := <[ck (S (hd / N)) := _]> (yq_heap q)).
  assert (exists h2, yq_free h1 (spare_chunk q) = Some h2 /\
    forall c, h2 !! c = if decide (spare_chunk q = Some c) then None else h1 !! c) as (h2 & -> & Hh2).
  { destruct (spare_chunk q) as [s|] eqn:Es; simpl; [|by exists h1].
    destruct (Hsp s eq_refl) as [[ks Hks] Hne].
    assert (h1 !! s = Some ks) as ->. { unfold h1. rewrite lookup_insert_ne; [done|by apply Hne]. }
    eexists; split; [done|]. intros c. rewrite lookup_delete. case_decide; case_decide; congruence. }
  assert (forall j, in_chain hd tl j -> h2 !! ck j = h1 !! ck j) as Hh2c.
  { intros j Hj. rewrite Hh2. case_decide as Es; [|done]. by destruct (proj2 (Hsp _ Es) j Hj). }
  assert (forall j, in_chain (S hd) tl j -> exists k, h2 !! ck j = Some k /\
    (exists k', yq_heap q !! ck j = Some k' /\ ck_values k = ck_values k' /\ ck_next k = ck_next k' /\
      (j <> S (hd / N) -> ck_prev k = ck_prev k'))) as Hck2.
  { intros j Hj. apply Hic in Hj as [Hj Hne]. rewrite Hh2c by done. unfold h1. rewrite lookup_insert.
    case_decide as Ec.
    - rewrite <- Ec. eexists; split; [done|]. exists k1. split_and!; try done.
      intros Hj1. apply Hinj in Ec; [congruence|done|done].
    - destruct (Hch j Hj) as (k & Hk & _). exists k. split; [done|]. exists k. done. }
  simpl. eexists. split; [done|]. constructor; simpl; try done; try lia.
  - unfold yq_front, elem_addr. simpl. by rewrite Hd, Hm.
  - intros c k. rewrite Hh2. case_decide; [done|]. unfold h1. rewrite lookup_insert.
    case_decide; [intros [= <-]; simpl; by apply (Hv _ _ Hk1)|apply Hv].
  - intros j Hj. destruct (Hck2 j Hj) as (k & Hk & k' & Hk' & _ & Hn & Hp). exists k. split; [done|].
    apply Hic in Hj as [Hj Hne]. destruct (Hch j Hj) as (k'' & Hk'' & Hn'' & Hp'').
    rewrite Hk' in Hk''. injection Hk'' as <-. split.
    + rewrite Hn. intros [Hs _]%Hic. by apply Hn''.
    + intros i Ei Hi. pose proof Hi as Hi'. apply Hic in Hi' as [Hi' Hne'].
      rewrite Hp; [by apply Hp''|]. intros ->. congruence.
  - intros j j' [Hj _]%Hic [Hj' _]%Hic. by apply Hinj.
  - intros s [= <-]. rewrite Hh2c by done. unfold h1. split.
    + rewrite lookup_insert. case_decide; [by eexists|]. rewrite Hk0. by eexists.
    + intros j [Hj Hne]%Hic Hc. apply Hinj in Hc; done.
  - intros c. rewrite Hh2. case_decide as Es; [by intros [? ?]|]. intros Hc.
    assert (is_Some (yq_heap q !! c)) as Hc'.
    { unfold h1 in Hc. rewrite lookup_insert in Hc. case_decide; [subst; rewrite Hk1; by eexists|done]. }
    apply Hown in Hc' as [?|(j & Hj & ->)]; [done|].
    destruct (decide (j = hd / N)%nat) as [->|Hne]; [by left|].
    right. exists j. by rewrite Hic.
  - intros i w Hi. replace (S (hd + i)) with (hd + S i)%nat by lia.
    pose proof (lookup_lt_Some _ _ _ Hi). specialize (Hcells (S i) w Hi). unfold yq_load in *. simpl in *.
    destruct (Hck2 ((hd + S i) / N)%nat) as (k & -> & k' & Hk' & Hvs & _).
    { split; apply index_div_le; lia. }
    rewrite Hk' in Hcells. simpl in *. by rewrite Hvs.
Qed.

Lemma yq_pop_spec q ck hd tl v vs :
  yq_inv q ck hd tl (v :: vs) -> exists q', yq_pop q = Some q' /\ yq_inv q' ck (S hd) tl vs.
Proof.
  intros Hq. pose proof (Nat.mod_upper_bound hd N). destruct (decide (S (hd mod N) = N)) as [E|E].
  - by eapply yq_pop_next.
  - eapply yq_pop_within; [done|lia].
Qed.

(** ** Unpush *)

(** The shrunk queue, given the new heap. *)
Lemma yq_unpush_inv q ck hd t vs v h' e p :
  yq_inv q ck hd (S t) (vs ++ [v]) ->
  (e, p) = elem_addr ck (S t) ->
  (forall j, in_chain hd t j -> exists k k', h' !! ck j = Some k /\ yq_heap q !! ck j = Some k' /\
     ck_values k = ck_values k' /\ ck_prev k = ck_prev k' /\
     (in_chain hd t (S j) -> ck_next k = ck_next k')) ->
  (forall c, is_Some (h' !! c) -> is_Some (yq_heap q !! c) /\
     forall j, in_chain hd (S t) j -> ~ in_chain hd t j -> c <> ck j) ->
  (forall s, spare_chunk q = Some s -> h' !! s = yq_heap q !! s) ->
  (forall c k, h' !! c = Some k -> length (ck_values k) = N) ->
  yq_inv (Yqueue h' (begin_chunk q) (begin_pos q) (Some (ck (t / N)%nat)) (t mod N)%nat e p
            (spare_chunk q)) ck hd t vs /\
  yq_load h' (elem_addr ck t) = Some (Some v).
Proof.
  intros [Hle Hb Hbk He Hv Hch Hinj Hsp Hown Hlen Hcells] Hep Hh Hdom Hspare Hvals.
  rewrite length_app in Hlen; simpl in Hlen.
  assert (forall j, in_chain hd t j -> in_chain hd (S t) j) as Hic.
  { intros j. unfold in_chain. pose proof (index_div_le (S t) (S (S t))). lia. }
  assert (forall i w, (vs ++ [v]) !! i = Some w -> yq_load h' (elem_addr ck (hd + i)) = Some (Some w)) as Hld.
  { intros i w Hi. pose proof (lookup_lt_Some _ _ _ Hi) as Hlt. rewrite length_app in Hlt. simpl in Hlt.
    specialize (Hcells i w Hi). unfold yq_load in *. simpl in *.
    destruct (Hh ((hd + i) / N)%nat) as (k & k' & -> & Hk' & Hvs & _).
    { split; apply index_div_le; lia. }
    rewrite Hk' in Hcells. simpl in *. by rewrite Hvs. }
  split.
  2:{ replace t with (hd + length vs)%nat by lia. apply Hld. rewrite lookup_app_r, Nat.sub_diag; done. }
  constructor; simpl; try done; try lia.
  - intros j Hj. destruct (Hh j Hj) as (k & k' & Hk & Hk' & _ & Hp & Hn). exists k. split; [done|].
    destruct (Hch j (Hic j Hj)) as (k'' & Hk'' & Hn'' & Hp''). rewrite Hk' in Hk''. injection Hk'' as <-.
    split; [intros Hs; rewrite Hn by done; auto|]. intros i Ei Hi. rewrite Hp. auto.
  - intros j j' Hj Hj'. apply Hinj; auto.
  - intros s Hs. rewrite Hspare by done. destruct (Hsp s Hs). auto.
  - intros c [Hc Hne]%Hdom. apply Hown in Hc as [?|(j & Hj & ->)]; [by left|]. right. exists j.
    split; [|done]. destruct (decide (hd / N <= j <= S t / N)%nat) as [?|Hn]; [done|].
    by destruct (Hne j Hj Hn).
  - intros i w Hi. apply Hld. by apply lookup_app_l_Some.
Qed.

Lemma yq_unpush_spec q ck hd tl vs v :
  yq_inv q ck hd tl (vs ++ [v]) ->
  exists q' t, tl = S t /\ yq_unpush q = Some q' /\ yq_inv q' ck hd t vs /\
    yq_load (yq_heap q') (elem_addr ck t) = Some (Some v).
Proof.
  intros Hq. pose proof Hq as [Hle Hb Hbk He Hv Hch Hinj Hsp Hown Hlen Hcells].
  rewrite length_app in Hlen; simpl in Hlen. destruct tl as [|t]; [lia|].
  assert (hd / N <= t / N)%nat by (apply index_div_le; lia).
  assert (t / N <= S t / N)%nat by (apply index_div_le; lia).
  assert (S t / N <= S (S t) / N)%nat by (apply index_div_le; lia).
  unfold yq_back in Hbk. destruct (back_chunk q) as [b|] eqn:Eb; [|done].
  injection Hbk as Hb1 Hb2. injection He as He1 He2. unfold yq_unpush. rewrite Eb.
  assert ((if negb (back_pos q =? 0)%nat then Some (Some b, (back_pos q - 1)%nat)
    else let* b0 := Some b in let* k := yq_heap q !! b0 in Some (ck_prev k, (N - 1)%nat)) =
    Some (Some (ck (t / N)%nat), (t mod N)%nat)) as ->.
  { rewrite Hb2. destruct (index_succ t) as [(E1&E2&E3)|(E1&E2&E3)]; rewrite E3; simpl.
    - destruct (Hch (S t / N)%nat) as (k & Hk & _ & Hp); [unfold in_chain; lia|].
      rewrite Hb1, Hk. simpl. rewrite (Hp (t / N)%nat); [|lia|unfold in_chain; lia].
      do 2 f_equal. lia.
    - rewrite Hb1, E2. do 2 f_equal. lia. }
  cbn [mbind option_bind].
  destruct (index_succ (S t)) as [(E1&E2&E3)|(E1&E2&E3)]; rewrite He2, E3; simpl.
  - destruct (Hch (S (S t) / N)%nat) as (k & Hk & _ & Hp); [unfold in_chain; lia|].
    destruct (Hch (S t / N)%nat) as (k' & Hk' & Hn' & _); [unfold in_chain; lia|].
    rewrite He1, Hk. simpl. rewrite (Hp (S t / N)%nat); [|lia|unfold in_chain; lia]. simpl.
    rewrite Hk'. simpl. rewrite Hn' by (unfold in_chain; lia). simpl. rewrite <- E2, Hk. simpl.
    assert (ck (S (S t) / N)%nat <> ck (S t / N)%nat) as Hne
      by (intros Hc; apply Hinj in Hc; unfold in_chain; lia).
    unfold set_next. rewrite lookup_delete_ne, Hk' by done. simpl. eexists _, t. split; [done|].
    split; [done|]. eapply yq_unpush_inv; [done| | | | |]; cbn [yq_heap].
    + unfold elem_addr. f_equal. lia.
    + intros j Hj. destruct (Hch j) as (kj & Hkj & _); [unfold in_chain in *; lia|].
      rewrite lookup_insert. case_decide as Ec.
      * eexists _, kj. split; [done|]. rewrite Ec, Hkj in Hk'. injection Hk' as <-.
        split_and!; try done. simpl. intros Hs. exfalso.
        apply Hinj in Ec; unfold in_chain in *; lia.
      * exists kj, kj. split_and!; try done. rewrite lookup_delete_ne; [done|].
        intros Hc. apply Hinj in Hc; unfold in_chain in *; lia.
    + intros c. rewrite lookup_insert. case_decide as Ec.
      * subst c. intros _. split; [by eexists|]. intros j Hj Hnj Hc.
        apply Hinj in Hc; unfold in_chain in *; lia.
      * rewrite lookup_delete. case_decide as Ec2; [by intros [? ?]|]. intros Hc. split; [done|].
        intros j Hj Hnj ->. destruct Ec2. f_equal. unfold in_chain in *. lia.
    + intros s Hs. rewrite lookup_insert_ne, lookup_delete_ne; [done| |];
        apply (Hsp s Hs); unfold in_chain; lia.
    + intros c kc. rewrite lookup_insert. case_decide; [intros [= <-]; simpl; by apply (Hv _ _ Hk')|].
      rewrite lookup_delete. case_decide; [done|]. apply Hv.
  - eexists _, t. split; [done|]. split; [done|]. eapply yq_unpush_inv; [done| | | | |]; cbn [yq_heap]; try done.
    + unfold elem_addr. rewrite He1, E2. f_equal. lia.
    + intros j Hj. destruct (Hch j) as (kj & Hkj & _); [unfold in_chain in *; lia|].
      exists kj, kj. done.
    + intros c Hc. split; [done|]. intros j Hj Hnj. unfold in_chain in *. lia.
Qed.

(** ** The destructor *)

Lemma yq_free_chunks_spec (ck : nat -> Z) n : forall fuel (h : heap T) lo,
  (n < fuel)%nat ->
  (forall j, (lo <= j <= lo + n)%nat -> exists k, h !! ck j = Some k /\
     ((j < lo + n)%nat -> ck_next k = Some (ck (S j)))) ->
  (forall i j, (lo <= i <= lo + n)%nat -> (lo <= j <= lo + n)%nat -> ck i = ck j -> i = j) ->
  exists h', yq_free_chunks fuel h (ck lo) (ck (lo + n)%nat) = Some h' /\
    (forall j, (lo <= j <= lo + n)%nat -> h' !! ck j = None) /\
    (forall c, (forall j, (lo <= j <= lo + n)%nat -> c <> ck j) -> h' !! c = h !! c) /\ h' ⊆ h.
Proof.
  induction n as [|n IH]; intros fuel h lo Hf Hch Hinj; (destruct fuel as [|f]; [lia|]); simpl;
    (destruct (Hch lo) as (k & Hk & Hn); [lia|]).
  - rewrite Nat.add_0_r, Z.eqb_refl, Hk. exists (delete (ck lo) h). split_and!; [done| | |].
    + intros j Hj. replace j with lo by lia. apply lookup_delete_eq.
    + intros c Hc. rewrite lookup_delete_ne; [done|]. apply not_eq_sym, Hc. lia.
    + apply delete_subseteq.
  - replace (ck lo =? ck (lo + S n)%nat) with false.
    2:{ symmetry. apply Z.eqb_neq. intros Hc. apply Hinj in Hc; lia. }
    rewrite Hk. simpl. rewrite Hn by lia. simpl.
    assert (forall j, (S lo <= j <= S lo + n)%nat -> ck lo <> ck j) as Hne.
    { intros j Hj Hc. apply Hinj in Hc; lia. }
    destruct (IH f (delete (ck lo) h) (S lo)) as (h' & Hrun & Hgone & Hkeep & Hsub); [lia| | |].
    + intros j Hj. destruct (Hch j) as (kj & Hkj & Hnj); [lia|]. exists kj.
      rewrite lookup_delete_ne by auto. split; [done|]. intros. apply Hnj. lia.
    + intros i j Hi Hj. apply Hinj; lia.
    + replace (lo + S n)%nat with (S lo + n)%nat by lia. exists h'. split; [done|]. split_and!.
      * intros j Hj. destruct (decide (j = lo)) as [->|]; [|apply Hgone; lia].
        rewrite Hkeep; [apply lookup_delete_eq|auto].
      * intros c Hc. rewrite Hkeep; [|intros j Hj; apply Hc; lia].
        rewrite lookup_delete_ne; [done|]. apply not_eq_sym, Hc. lia.
      * etrans; [done|]. apply delete_subseteq.
Qed.

(** Every chunk and the spare one are freed, once each. *)
Lemma yq_destroy_spec q ck hd tl vs : yq_inv q ck hd tl vs -> yq_destroy q = Some ∅.
Proof.
  intros [Hle Hb Hbk He Hv Hch Hinj Hsp Hown Hlen Hcells]. unfold yq_destroy.
  injection Hb as -> _. injection He as -> _.
  assert (hd / N <= S tl / N)%nat as Hlh by (apply index_div_le; lia).
  set (n := (S tl / N - hd / N)%nat). replace (S tl / N)%nat with (hd / N + n)%nat by lia.
  assert (forall j, (hd / N <= j <= hd / N + n)%nat <-> in_chain hd tl j) as Hic
    by (intros j; unfold in_chain; lia).
  destruct (yq_free_chunks_spec ck n (S (size (yq_heap q))) (yq_heap q) (hd / N))
    as (h' & -> & Hgone & Hkeep & Hsub).
  - assert (size (list_to_set (ck <$> seq (hd / N) (S n)) : gset Z) <= size (yq_heap q))%nat as Hs.
    { rewrite <- size_dom. apply subseteq_size. intros c [j [-> Hj%elem_of_seq]]%elem_of_list_to_set%list_elem_of_fmap.
      apply elem_of_dom. destruct (Hch j) as (k & -> & _); [unfold in_chain; lia|by eexists]. }
    rewrite size_list_to_set in Hs; [rewrite length_fmap, length_seq in Hs; lia|].
    apply NoDup_fmap_2_strong; [|apply NoDup_seq]. intros i j Hi%elem_of_seq Hj%elem_of_seq.
    apply Hinj; unfold in_chain; lia.
  - intros j Hj%Hic. destruct (Hch j Hj) as (k & Hk & Hn & _). exists k. split; [done|].
    intros Hlt. apply Hn, Hic. apply Hic in Hj. lia.
  - intros i j Hi%Hic Hj%Hic. by apply Hinj.
  - cbn [mbind option_bind].
    assert (forall c k, h' !! c = Some k -> spare_chunk q = Some c) as Honly.
    { intros c k Hc. destruct (Hown c) as [?|(j & Hj & ->)]; [|done|].
      - exists k. by eapply lookup_weaken.
      - by rewrite Hgone in Hc by by apply Hic. }
    destruct (spare_chunk q) as [s|] eqn:Es; simpl.
    + destruct (Hsp s eq_refl) as [[ks Hks] Hne]. rewrite Hkeep, Hks.
      2:{ intros j Hj%Hic. apply not_eq_sym. by apply Hne. }
      f_equal. apply map_eq. intros c. rewrite lookup_empty, lookup_delete. case_decide; [done|].
      destruct (h' !! c) eqn:Hc; [|done]. apply Honly in Hc. congruence.
    + f_equal. apply map_eq. intros c. rewrite lookup_empty.
      destruct (h' !! c) eqn:Hc; [|done]. by apply Honly in Hc.
Qed.

End yqueue.
