(* ===== verification/Ypipe.v ===== *)
(** * The lock-free pipe, [ypipe_t] (src/src/ypipe.hpp)

    One thread writes and flushes, another reads; the only word both
    change is [_c], by compare-and-swap.  Every operation is a function
    on the pipe, and those with two accesses to shared memory ([flush]:
    the compare-and-swap and the store when it failed; [read]: the check
    and the removal) are cut there, so that a schedule may place steps
    of the other thread in between.  The pipe refines a FIFO queue with
    three parts: flushed items, complete items not yet flushed, and the
    items of a message that is not complete. *)

From S2P Require Import Prelude Yqueue.

Section ypipe.
Context {T : Type} (malloc : heap T -> Z) (N : nat).

Record ypipe := Ypipe {
  yp_queue : yqueue T;
  yp_w : option elem_ptr;
  yp_r : option elem_ptr;
  yp_f : option elem_ptr;
  yp_c : option elem_ptr;
}.

(** [atomic_ptr_t::cas]: the new value of the pointer and the old one. *)
Definition atomic_cas (ptr cmp val : option elem_ptr) : option elem_ptr * option elem_ptr :=
  (if bool_decide (ptr = cmp) then val else ptr, ptr).

Definition ypipe_new : option ypipe :=
  let* q := yq_push malloc N (yqueue_new malloc N) in
  let b := yq_back q in
  Some (Ypipe q b b b b).

Definition ypipe_write (p : ypipe) (v : T) (incomplete : bool) : option ypipe :=
  let* q := yq_set_back (yp_queue p) v in
  let* q := yq_push malloc N q in
  Some (Ypipe q (yp_w p) (yp_r p) (if negb incomplete then yq_back q else yp_f p) (yp_c p)).

Definition ypipe_unwrite (p : ypipe) : option (ypipe * option T) :=
  if bool_decide (yp_f p = yq_back (yp_queue p)) then Some (p, None)
  else
    let* q := yq_unpush N (yp_queue p) in
    let* a := yq_back q in
    let* cell := yq_load (yq_heap q) a in
    let* v := cell in
    Some (Ypipe q (yp_w p) (yp_r p) (yp_f p) (yp_c p), Some v).

(** [flush] up to the compare-and-swap: [None] when it failed. *)
Definition ypipe_flush_cas (p : ypipe) : ypipe * option bool :=
  if bool_decide (yp_w p = yp_f p) then (p, Some true)
  else
    let '(c, old) := atomic_cas (yp_c p) (yp_w p) (yp_f p) in
    if negb (bool_decide (old = yp_w p)) then
      (Ypipe (yp_queue p) (yp_w p) (yp_r p) (yp_f p) c, None)
    else (Ypipe (yp_queue p) (yp_f p) (yp_r p) (yp_f p) c, Some true).

(** The branch of [flush] after a failed compare-and-swap. *)
Definition ypipe_flush_set (p : ypipe) : ypipe :=
  Ypipe (yp_queue p) (yp_f p) (yp_r p) (yp_f p) (yp_f p).

Definition ypipe_flush (p : ypipe) : ypipe * bool :=
  match ypipe_flush_cas p with
  | (p', Some b) => (p', b)
  | (p', None) => (ypipe_flush_set p', false)
  end.

Definition non_null (p : option elem_ptr) : bool := match p with Some _ => true | None => false end.

Definition ypipe_check_read (p : ypipe) : ypipe * bool :=
  let front := Some (yq_front (yp_queue p)) in
  if negb (bool_decide (front = yp_r p)) && non_null (yp_r p) then (p, true)
  else
    let '(c, r) := atomic_cas (yp_c p) front None in
    let p' := Ypipe (yp_queue p) (yp_w p) r (yp_f p) c in
    if bool_decide (front = r) || negb (non_null r) then (p', false) else (p', true).

(** The end of [read], once [check_read] returned true. *)
Definition ypipe_take (p : ypipe) : option (ypipe * T) :=
  let* cell := yq_load (yq_heap (yp_queue p)) (yq_front (yp_queue p)) in
  let* v := cell in
  let* q := yq_pop N (yp_queue p) in
  Some (Ypipe q (yp_w p) (yp_r p) (yp_f p) (yp_c p), v).

Definition ypipe_read (p : ypipe) : option (ypipe * option T) :=
  let '(p', b) := ypipe_check_read p in
  if negb b then Some (p', None)
  else let* (p'', v) := ypipe_take p' in Some (p'', Some v).

Definition ypipe_probe (p : ypipe) (fn : T -> bool) : option (ypipe * bool) :=
  let '(p', rc) := ypipe_check_read p in
  zmq_assert rc ;;
  let* cell := yq_load (yq_heap (yp_queue p')) (yq_front (yp_queue p')) in
  let* v := cell in
  Some (p', fn v).

(** ** Two threads

    A schedule is a list of actions.  An action of a thread that is in
    the middle of an operation, other than the rest of that operation,
    does nothing. *)

Inductive yp_act :=
| AWrite (v : T) (incomplete : bool) | AUnwrite | AFlush | AFlushSet
| ACheck | ARead | ATake.

Inductive yp_event :=
| EWrite (v : T) (incomplete : bool) | EUnwrite (v : option T) | EFlush (b : bool)
| ECheck (b : bool) | ERead (v : option T).

Record yp_machine := YpMachine {
  m_pipe : ypipe;
  m_flushing : bool;  (** the writer is before the store of [flush] *)
  m_taking : bool;    (** the reader is before the removal of [read] *)
}.

Definition yp_step (m : yp_machine) (a : yp_act) : option (yp_machine * list yp_event) :=
  let '(YpMachine p fl tk) := m in
  match a with
  | AWrite v inc =>
      if fl then Some (m, [])
      else let* p' := ypipe_write p v inc in Some (YpMachine p' fl tk, [EWrite v inc])
  | AUnwrite =>
      if fl then Some (m, [])
      else let* (p', v) := ypipe_unwrite p in Some (YpMachine p' fl tk, [EUnwrite v])
  | AFlush =>
      if fl then Some (m, [])
      else match ypipe_flush_cas p with
           | (p', Some b) => Some (YpMachine p' false tk, [EFlush b])
           | (p', None) => Some (YpMachine p' true tk, [])
           end
  | AFlushSet =>
      if fl then Some (YpMachine (ypipe_flush_set p) false tk, [EFlush false]) else Some (m, [])
  | ACheck =>
      if tk then Some (m, [])
      else let '(p', b) := ypipe_check_read p in Some (YpMachine p' fl tk, [ECheck b])
  | ARead =>
      if tk then Some (m, [])
      else match ypipe_check_read p with
           | (p', true) => Some (YpMachine p' fl true, [])
           | (p', false) => Some (YpMachine p' fl false, [ERead None])
           end
  | ATake =>
      if tk then let* (p', v) := ypipe_take p in Some (YpMachine p' fl false, [ERead (Some v)])
      else Some (m, [])
  end.

Fixpoint yp_run (m : yp_machine) (acts : list yp_act) : option (yp_machine * list yp_event) :=
  match acts with
  | [] => Some (m, [])
  | a :: acts' =>
      let* (m', evs) := yp_step m a in
      let* (m'', evs') := yp_run m' acts' in
      Some (m'', evs ++ evs')
  end.

(** ** The abstract queue *)

Record pq := Pq {
  pq_items : list T;    (** flushed *)
  pq_done : list T;     (** complete, not flushed *)
  pq_part : list T;     (** of an incomplete message *)
  pq_asleep : bool;     (** the reader found the queue empty and was not told of items since *)
}.

Definition pq_new : pq := Pq [] [] [] false.

Inductive pq_step : pq -> yp_event -> pq -> Prop :=
| pq_write_inc xs ys zs s v : pq_step (Pq xs ys zs s) (EWrite v true) (Pq xs ys (zs ++ [v]) s)
| pq_write_last xs ys zs s v : pq_step (Pq xs ys zs s) (EWrite v false) (Pq xs (ys ++ zs ++ [v]) [] s)
| pq_unwrite_some xs ys zs s v : pq_step (Pq xs ys (zs ++ [v]) s) (EUnwrite (Some v)) (Pq xs ys zs s)
| pq_unwrite_none xs ys s : pq_step (Pq xs ys [] s) (EUnwrite None) (Pq xs ys [] s)
| pq_flush_nothing xs zs s : pq_step (Pq xs [] zs s) (EFlush true) (Pq xs [] zs s)
| pq_flush xs ys zs s : ys <> [] -> pq_step (Pq xs ys zs s) (EFlush (negb s)) (Pq (xs ++ ys) [] zs false)
| pq_check_true x xs ys zs s : pq_step (Pq (x :: xs) ys zs s) (ECheck true) (Pq (x :: xs) ys zs s)
| pq_check_false ys zs s : pq_step (Pq [] ys zs s) (ECheck false) (Pq [] ys zs true)
| pq_read_some x xs ys zs s : pq_step (Pq (x :: xs) ys zs s) (ERead (Some x)) (Pq xs ys zs s)
| pq_read_none ys zs s : pq_step (Pq [] ys zs s) (ERead None) (Pq [] ys zs true).

Inductive pq_steps : pq -> list yp_event -> pq -> Prop :=
| pq_steps_nil s : pq_steps s [] s
| pq_steps_cons s e s' es s'' : pq_step s e s' -> pq_steps s' es s'' -> pq_steps s (e :: es) s''.

(** ** The simulation *)

(** [hd] is the index of the front and [ri] the index [_r] points to. *)
Record yp_inv (p : ypipe) (s : pq) (ck : nat -> Z) (hd : nat) (ri : option nat) : Prop := {
  yp_qinv : yq_inv N (yp_queue p) ck hd
    (hd + length (pq_items s) + length (pq_done s) + length (pq_part s))
    (pq_items s ++ pq_done s ++ pq_part s);
  yp_w_ok : yp_w p = Some (elem_addr N ck (hd + length (pq_items s)));
  yp_f_ok : yp_f p = Some (elem_addr N ck (hd + length (pq_items s) + length (pq_done s)));
  yp_c_ok : yp_c p = if pq_asleep s then None else yp_w p;
  yp_asleep : pq_asleep s = true -> pq_items s = [];
  yp_r_ok : yp_r p = elem_addr N ck <$> ri;
  yp_ri i : ri = Some i -> (hd <= i <= hd + length (pq_items s))%nat;
}.

Hypothesis HN : (0 < N)%nat.
Context `{!Allocator T malloc}.

Lemma ypipe_new_spec : exists p ck, ypipe_new = Some p /\ yp_inv p pq_new ck 0 (Some 0%nat).
Proof.
  destruct (yq_first_push malloc N HN) as (q & ck & Hp & Hq).
  unfold ypipe_new. rewrite Hp. cbn [mbind option_bind]. eexists _, ck. split; [done|].
  pose proof (yi_back _ _ _ _ _ _ Hq) as Hb. constructor; simpl; try done.
  intros i [= <-]. lia.
Qed.

Lemma ypipe_write_spec p xs ys zs s ck hd ri v inc :
  yp_inv p (Pq xs ys zs s) ck hd ri ->
  exists p' ck', ypipe_write p v inc = Some p' /\
    yp_inv p' (if inc then Pq xs ys (zs ++ [v]) s else Pq xs (ys ++ zs ++ [v]) [] s) ck' hd ri.
Proof.
  intros [Hq Hw Hf Hc Hs Hr Hri]. simpl in *. unfold ypipe_write.
  destruct (yq_append_spec malloc N HN _ _ _ _ _ v Hq) as (q' & ck' & Hrun & Hq' & Haddr).
  destruct (yq_set_back (yp_queue p) v) as [q1|]; [|done]. simpl in *. rewrite Hrun. simpl.
  exists (Ypipe q' (yp_w p) (yp_r p) (if negb inc then yq_back q' else yp_f p) (yp_c p)), ck'.
  split; [done|]. rewrite <- !app_assoc in Hq'.
  pose proof (yi_back _ _ _ _ _ _ Hq') as Hb.
  assert (yp_w p = Some (elem_addr N ck' (hd + length xs))) as Hw' by (rewrite Hw, Haddr; [done|lia]).
  assert (yp_r p = elem_addr N ck' <$> ri) as Hr'.
  { rewrite Hr. destruct ri as [i|]; [|done]. simpl. specialize (Hri i eq_refl).
    rewrite Haddr; [done|lia]. }
  destruct inc; constructor; simpl; rewrite ?length_app; simpl; try done.
  - replace (hd + length xs + length ys + (length zs + 1))%nat
      with (S (hd + length xs + length ys + length zs)) by lia. done.
  - rewrite Hf, Haddr; [done|lia].
  - rewrite !app_nil_r. replace (hd + length xs + (length ys + (length zs + 1)) + 0)%nat
      with (S (hd + length xs + length ys + length zs)) by lia. done.
  - rewrite Hb. do 2 f_equal. lia.
Qed.

Lemma some_addr_inj q ck hd tl (vs : list T) i j :
  yq_inv N q ck hd tl vs -> (hd <= i <= S tl)%nat -> (hd <= j <= S tl)%nat ->
  Some (elem_addr N ck i) = Some (elem_addr N ck j) -> i = j.
Proof. intros Hq Hi Hj E. apply Some_inj in E. by eapply (elem_addr_inj N HN). Qed.

Lemma ypipe_unwrite_spec p xs ys zs s ck hd ri :
  yp_inv p (Pq xs ys zs s) ck hd ri ->
  exists p' o s', ypipe_unwrite p = Some (p', o) /\
    pq_step (Pq xs ys zs s) (EUnwrite o) s' /\ yp_inv p' s' ck hd ri /\
    pq_items s' = xs /\ pq_done s' = ys /\ pq_asleep s' = s.
Proof.
  intros Hp. pose proof Hp as [Hq Hw Hf Hc Hs Hr Hri]. simpl in *. unfold ypipe_unwrite.
  rewrite Hf, (yi_back _ _ _ _ _ _ Hq).
  destruct (bool_decide_reflect (Some (elem_addr N ck (hd + length xs + length ys)) =
    Some (elem_addr N ck (hd + length xs + length ys + length zs)))) as [E|E].
  - apply (some_addr_inj _ _ _ _ _ _ _ Hq) in E; [|lia|lia].
    assert (zs = []) as -> by (apply nil_length_inv; lia).
    exists p, None, (Pq xs ys [] s). split_and!; try done. constructor.
  - destruct zs as [|v zs _] using rev_ind; [by rewrite Nat.add_0_r in E|].
    rewrite !app_assoc in Hq. destruct (yq_unpush_spec N HN _ _ _ _ _ _ Hq) as (q' & t & Ht & -> & Hq' & Hl).
    rewrite length_app in Ht; simpl in Ht. cbn [mbind option_bind].
    rewrite (yi_back _ _ _ _ _ _ Hq'). cbn [mbind option_bind]. rewrite Hl. cbn [mbind option_bind].
    eexists _, _, (Pq xs ys zs s). split; [done|]. split; [constructor|]. split; [|done].
    constructor; simpl; try done. rewrite <- app_assoc in Hq'.
    replace (hd + length xs + length ys + length zs)%nat with t by lia. done.
Qed.

Lemma ypipe_flush_cas_spec p xs ys zs s ck hd ri :
  yp_inv p (Pq xs ys zs s) ck hd ri ->
  (ys = [] /\ ypipe_flush_cas p = (p, Some true)) \/
  (ys <> [] /\ s = true /\ ypipe_flush_cas p = (p, None)) \/
  (ys <> [] /\ s = false /\ exists p', ypipe_flush_cas p = (p', Some true) /\
     yp_inv p' (Pq (xs ++ ys) [] zs false) ck hd ri).
Proof.
  intros Hp. pose proof Hp as [Hq Hw Hf Hc Hs Hr Hri]. simpl in *.
  unfold ypipe_flush_cas. rewrite Hw, Hf.
  destruct (bool_decide_reflect (Some (elem_addr N ck (hd + length xs)) =
    Some (elem_addr N ck (hd + length xs + length ys)))) as [E|E].
  - left. split; [|done]. apply (some_addr_inj _ _ _ _ _ _ _ Hq) in E; [|lia|lia].
    apply nil_length_inv. lia.
  - right. assert (ys <> []) by (intros ->; by rewrite Nat.add_0_r in E).
    unfold atomic_cas. destruct s; rewrite Hc.
    + left. rewrite !bool_decide_eq_false_2 by done. simpl. split_and!; try done.
      destruct p; simpl in *. congruence.
    + right. rewrite Hw, !bool_decide_eq_true_2 by done. simpl. split_and!; try done.
      eexists. split; [done|]. constructor; simpl; rewrite ?length_app; try done.
      * rewrite <- app_assoc. replace (hd + (length xs + length ys) + 0 + length zs)%nat
          with (hd + length xs + length ys + length zs)%nat by lia. done.
      * do 2 f_equal. lia.
      * do 2 f_equal. lia.
      * intros i Hi. apply Hri in Hi. lia.
Qed.

Lemma ypipe_flush_set_spec p xs ys zs s ck hd ri :
  yp_inv p (Pq xs ys zs s) ck hd ri ->
  yp_inv (ypipe_flush_set p) (Pq (xs ++ ys) [] zs false) ck hd ri.
Proof.
  intros [Hq Hw Hf Hc Hs Hr Hri]. simpl in *. constructor; simpl; rewrite ?length_app; try done.
  - rewrite <- app_assoc. replace (hd + (length xs + length ys) + 0 + length zs)%nat
      with (hd + length xs + length ys + length zs)%nat by lia. done.
  - rewrite Hf. do 2 f_equal. lia.
  - rewrite Hf. do 2 f_equal. lia.
  - intros i Hi. apply Hri in Hi. lia.
Qed.

(** [check_read] answers whether there are flushed items; when there are
    none the reader sleeps, when there are, one of them is prefetched. *)
Lemma ypipe_check_read_spec p xs ys zs s ck hd ri :
  yp_inv p (Pq xs ys zs s) ck hd ri ->
  exists p' ri', ypipe_check_read p = (p', negb (bool_decide (xs = []))) /\
    yp_inv p' (Pq xs ys zs (if bool_decide (xs = []) then true else s)) ck hd ri' /\
    (xs <> [] -> exists i, ri' = Some i /\ (hd < i)%nat).
Proof.
  intros Hp. pose proof Hp as [Hq Hw Hf Hc Hs Hr Hri]. simpl in *. unfold ypipe_check_read.
  assert (forall i, (hd <= i <= hd + length xs)%nat -> Some (elem_addr N ck hd) = Some (elem_addr N ck i) -> hd = i) as Hinj.
  { intros i Hi Heq. apply (some_addr_inj _ _ _ _ _ _ _ Hq) in Heq; lia. }
  rewrite (yi_begin _ _ _ _ _ _ Hq), Hr.
  assert (forall i, ri = Some i -> i = hd \/ xs <> []) as Hpre.
  { intros i Hi. apply Hri in Hi. destruct xs; [simpl in *; left; lia|by right]. }
  assert ((exists i, ri = Some i /\ i <> hd) \/ forall i, ri = Some i -> i = hd) as [(i & -> & Hi)|Hno].
  { destruct ri as [i|]; [|by right]. destruct (decide (i = hd)); [right; congruence|eauto]. }
  - simpl. specialize (Hri i eq_refl). rewrite bool_decide_eq_false_2.
    2:{ intros E. destruct Hi. symmetry. by apply Hinj. }
    simpl.
    destruct (Hpre i eq_refl) as [?|Hxs]; [done|]. rewrite bool_decide_eq_false_2 by done.
    exists p, (Some i). split_and!; try done. intros _. exists i. split; [done|lia].
  - assert (negb (bool_decide (Some (elem_addr N ck hd) = elem_addr N ck <$> ri)) &&
            non_null (elem_addr N ck <$> ri) = false) as ->.
    { destruct ri as [i|]; simpl; [|done].
      rewrite (Hno i) by done. by rewrite bool_decide_eq_true_2. }
    unfold atomic_cas. rewrite Hc. destruct s.
    + rewrite (Hs eq_refl) in *. rewrite (bool_decide_eq_true_2 ([] = [])) by done.
      rewrite orb_true_r. simpl.
      eexists _, None. split; [done|]. split; [|done]. constructor; simpl; try done.
    + rewrite Hw. destruct xs as [|x xs].
      * rewrite Nat.add_0_r in *. rewrite !bool_decide_eq_true_2 by done. simpl.
        eexists _, (Some hd). split; [done|]. split; [|done].
        constructor; simpl; rewrite ?Nat.add_0_r; try done.
        intros i [= <-]. lia.
      * assert (Some (elem_addr N ck hd) <> Some (elem_addr N ck (hd + length (x :: xs)))) as Hne.
        { intros E. apply Hinj in E; simpl in *; lia. }
        rewrite (bool_decide_eq_false_2 (x :: xs = [])) by done.
        rewrite !bool_decide_eq_false_2 by congruence. simpl.
        eexists _, (Some (hd + length (x :: xs))%nat). split; [done|]. split.
        -- constructor; simpl; try done. intros i [= <-]. lia.
        -- intros _. eexists. split; [done|]. simpl. lia.
Qed.

Lemma ypipe_take_spec p x xs ys zs s ck hd i :
  yp_inv p (Pq (x :: xs) ys zs s) ck hd (Some i) -> (hd < i)%nat ->
  exists p', ypipe_take p = Some (p', x) /\ yp_inv p' (Pq xs ys zs s) ck (S hd) (Some i).
Proof.
  intros [Hq Hw Hf Hc Hs Hr Hri] Hi. simpl in *. unfold ypipe_take.
  rewrite (yq_inv_front _ _ _ _ _ _ _ Hq). cbn [mbind option_bind].
  destruct (yq_pop_spec N HN _ _ _ _ _ _ Hq) as (q' & -> & Hq'). cbn [mbind option_bind].
  eexists. split; [done|].
  replace (hd + S (length xs) + length ys + length zs)%nat
    with (S hd + length xs + length ys + length zs)%nat in Hq' by lia.
  constructor; simpl; try done.
  - rewrite Hw. do 2 f_equal. lia.
  - rewrite Hf. do 2 f_equal. lia.
  - intros E. by apply Hs in E.
  - intros j [= <-]. specialize (Hri i eq_refl). lia.
Qed.

Record machine_inv (m : yp_machine) (s : pq) : Prop := {
  mi_pipe : exists ck hd ri, yp_inv (m_pipe m) s ck hd ri /\
    (m_taking m = true -> pq_items s <> [] /\ exists i, ri = Some i /\ (hd < i)%nat);
  mi_flushing : m_flushing m = true -> pq_asleep s = true /\ pq_done s <> [];
}.

Lemma pq_steps_one s e s' : pq_step s e s' -> pq_steps s [e] s'.
Proof. intros. econstructor; [done|constructor]. Qed.

Lemma yp_step_writer m s a :
  machine_inv m s -> match a with AWrite _ _ | AUnwrite | AFlush | AFlushSet => True | _ => False end ->
  exists m' evs s', yp_step m a = Some (m', evs) /\ pq_steps s evs s' /\ machine_inv m' s'.
Proof.
  destruct m as [p fl tk], s as [xs ys zs s]. intros [(ck & hd & ri & Hp & Htk) Hfl] Ha. simpl in *.
  assert (exists m' evs s', Some (YpMachine p fl tk, []) = Some (m', evs) /\
    pq_steps (Pq xs ys zs s) evs s' /\ machine_inv m' s') as Hstutter.
  { eexists _, _, _. split; [done|]. split; [constructor|]. constructor; simpl; eauto 7. }
  destruct a as [v inc| | | | | |]; try done; simpl; destruct fl; try done.
  - destruct (ypipe_write_spec _ _ _ _ _ _ _ _ v inc Hp) as (p' & ck' & -> & Hp').
    cbn [mbind option_bind]. destruct inc; eexists _, _, _; (split; [done|]);
      (split; [apply pq_steps_one; constructor|]);
      (constructor; simpl; [by eexists ck', hd, ri|done]).
  - destruct (ypipe_unwrite_spec _ _ _ _ _ _ _ _ Hp) as (p' & o & s' & -> & Hst & Hp' & H1 & H2 & H3).
    cbn [mbind option_bind]. eexists _, _, _. split; [done|]. split; [by apply pq_steps_one|].
    constructor; simpl; [|done]. exists ck, hd, ri. by rewrite H1.
  - destruct (ypipe_flush_cas_spec _ _ _ _ _ _ _ _ Hp)
      as [[-> ->]|[(Hy & -> & ->)|(Hy & -> & p' & -> & Hp')]].
    + eexists _, _, _. split; [done|]. split; [apply pq_steps_one; constructor|].
      constructor; simpl; [|done]. by exists ck, hd, ri.
    + eexists _, _, _. split; [done|]. split; [constructor|]. constructor; simpl; [|done].
      by exists ck, hd, ri.
    + eexists _, _, _. split; [done|]. split; [apply pq_steps_one; by apply (pq_flush xs ys zs false)|].
      constructor; simpl; [|done]. exists ck, hd, ri. split; [done|]. intros Ht. split; [|by apply Htk].
      intros [-> _]%app_nil. by destruct (Htk Ht).
  - destruct (Hfl eq_refl) as [-> Hy]. eexists _, _, _. split; [done|].
    split; [apply pq_steps_one; by apply (pq_flush xs ys zs true)|]. constructor; simpl; [|done].
    exists ck, hd, ri. split; [by eapply ypipe_flush_set_spec|]. intros Ht. split; [|by apply Htk].
    intros [-> _]%app_nil. by destruct (Htk Ht).
Qed.

Lemma yp_step_reader m s a :
  machine_inv m s -> match a with ACheck | ARead | ATake => True | _ => False end ->
  exists m' evs s', yp_step m a = Some (m', evs) /\ pq_steps s evs s' /\ machine_inv m' s'.
Proof.
  destruct m as [p fl tk], s as [xs ys zs s]. intros [(ck & hd & ri & Hp & Htk) Hfl] Ha. simpl in *.
  assert (exists m' evs s', Some (YpMachine p fl tk, []) = Some (m', evs) /\
    pq_steps (Pq xs ys zs s) evs s' /\ machine_inv m' s') as Hstutter.
  { eexists _, _, _. split; [done|]. split; [constructor|]. constructor; simpl; eauto 7. }
  destruct a; try done; simpl; destruct tk; try done.
  - destruct (ypipe_check_read_spec _ _ _ _ _ _ _ _ Hp) as (p' & ri' & -> & Hp' & _).
    destruct xs as [|x xs]; simpl in *; eexists _, _, _; (split; [done|]);
      (split; [apply pq_steps_one; constructor|]); (constructor; simpl; [by eexists ck, hd, ri'|]); [|done].
    intros Hf. by destruct (Hfl Hf).
  - destruct (ypipe_check_read_spec _ _ _ _ _ _ _ _ Hp) as (p' & ri' & -> & Hp' & Hrdy).
    destruct xs as [|x xs]; simpl in *; eexists _, _, _; (split; [done|]).
    + split; [apply pq_steps_one; constructor|]. constructor; simpl; [by eexists ck, hd, ri'|].
      intros Hf. by destruct (Hfl Hf).
    + split; [constructor|]. constructor; simpl; [|done]. exists ck, hd, ri'. split; [done|].
      intros _. split; [done|]. by apply Hrdy.
  - destruct (Htk eq_refl) as (Hne & i & -> & Hi). destruct xs as [|x xs]; [done|].
    destruct (ypipe_take_spec _ _ _ _ _ _ _ _ _ Hp Hi) as (p' & -> & Hp').
    cbn [mbind option_bind]. eexists _, _, _. split; [done|]. split; [apply pq_steps_one; constructor|].
    constructor; simpl; [|done]. by eexists ck, (S hd), (Some i).
Qed.

Lemma pq_steps_app s es s' es' s'' : pq_steps s es s' -> pq_steps s' es' s'' -> pq_steps s (es ++ es') s''.
Proof. induction 1; simpl; [done|]. intros. econstructor; eauto. Qed.

Lemma yp_run_spec acts : forall m s, machine_inv m s ->
  exists m' evs s', yp_run m acts = Some (m', evs) /\ pq_steps s evs s' /\ machine_inv m' s'.
Proof.
  induction acts as [|a acts IH]; intros m s Hm; simpl.
  { eexists _, _, _. split; [done|]. split; [constructor|done]. }
  assert (exists m' evs s', yp_step m a = Some (m', evs) /\ pq_steps s evs s' /\ machine_inv m' s')
    as (m1 & evs & s1 & -> & Hs1 & Hm1).
  { destruct a; (by apply yp_step_writer) || (by apply yp_step_reader). }
  destruct (IH m1 s1 Hm1) as (m2 & evs' & s2 & Hrun & Hs2 & Hm2). cbn [mbind option_bind].
  rewrite Hrun. eexists _, _, _. split; [done|]. split; [by eapply pq_steps_app|done].
Qed.

(** ** FIFO order *)

Fixpoint reads (evs : list yp_event) : list T :=
  match evs with
  | [] => []
  | ERead (Some v) :: evs' => v :: reads evs'
  | _ :: evs' => reads evs'
  end.

(** The items written, without those taken back. *)
Definition written (evs : list yp_event) (acc : list T) : list T :=
  foldl (fun l e => match e with
                    | EWrite v _ => l ++ [v]
                    | EUnwrite (Some _) => removelast l
                    | _ => l end) acc evs.

Lemma pq_steps_fifo s evs s' : pq_steps s evs s' -> forall acc,
  written evs (acc ++ pq_items s ++ pq_done s ++ pq_part s) =
  acc ++ reads evs ++ pq_items s' ++ pq_done s' ++ pq_part s'.
Proof.
  induction 1 as [s|s e s1 es s2 Hst Hss IH]; intros acc; [done|].
  destruct Hst; simpl in *; try done.
  - rewrite <- IH. f_equal. by rewrite <- !app_assoc.
  - rewrite <- IH. f_equal. by rewrite app_nil_r, <- !app_assoc.
  - rewrite <- IH. f_equal. rewrite !app_assoc. apply removelast_last.
  - rewrite <- IH. f_equal. by rewrite <- !app_assoc.
  - specialize (IH (acc ++ [x])). by rewrite <- !app_assoc in IH.
Qed.

End ypipe.
Arguments yp_event : clear implicits.
Arguments yp_act : clear implicits.

(** C3: for any allocator, whatever addresses it reuses, and any
    interleaving of a writer and a reader, no step of the pipe reads a
    freed or uninitialised chunk, the results the two threads see are
    those of the abstract queue taking the same steps one at a time
    (a reader that found nothing is reported asleep by the next flush
    that publishes an item), items are read in the order in which they
    were written, and the destructor frees every chunk. *)
Theorem ypipe_linearizable {T} (malloc : heap T -> Z) `{!Allocator T malloc} (N : nat)
    (acts : list (yp_act T)) :
  (0 < N)%nat ->
  exists p m evs s,
    ypipe_new malloc N = Some p /\
    yp_run malloc N (YpMachine p false false) acts = Some (m, evs) /\
    pq_steps pq_new evs s /\
    written evs [] = reads evs ++ pq_items s ++ pq_done s ++ pq_part s /\
    yq_destroy (yp_queue (m_pipe m)) = Some ∅.
Proof.
  intros HN. destruct (ypipe_new_spec malloc N HN) as (p & ck & Hnew & Hp).
  destruct (yp_run_spec malloc N HN acts (YpMachine p false false) pq_new) as (m & evs & s & Hrun & Hst & Hm).
  { constructor; simpl; [|done]. by eexists ck, 0%nat, _. }
  exists p, m, evs, s. split_and!; try done.
  - apply (pq_steps_fifo _ _ _ Hst []).
  - destruct Hm as [(ck' & hd & ri & Hp' & _) _]. eapply yq_destroy_spec, Hp'. done.
Qed.

(** An allocator that hands out the least free address, so that freed
    addresses are reused at once. *)
Fixpoint least_free_from {T} (h : heap T) (fuel : nat) (c : Z) : Z :=
  match fuel with
  | O => fresh (dom h)
  | S f => match h !! c with None => c | Some _ => least_free_from h f (c + 1) end
  end.

Definition least_free {T} (h : heap T) : Z := least_free_from h (S (size h)) 0.

#[export] Instance least_free_allocator T : Allocator T least_free.
Proof.
  intros h. assert (forall fuel c, h !! least_free_from h fuel c = None) as Hf; [|apply Hf].
  induction fuel as [|f IH]; intros c; simpl.
  - apply not_elem_of_dom. apply is_fresh.
  - destruct (h !! c) eqn:E; [apply IH|done].
Qed.

Definition example_schedule : list (yp_act Z) :=
  [ARead; AWrite 1 true; AWrite 2 false; AFlush; ACheck; AFlushSet; AWrite 3 true; ARead; AUnwrite;
   ATake; AWrite 4 false; AFlush; ARead; ATake; ARead; ATake; ARead; AUnwrite].

Lemma ypipe_linearizable_witness :
  exists p m evs s,
    ypipe_new least_free 2 = Some p /\
    yp_run least_free 2 (YpMachine p false false) example_schedule = Some (m, evs) /\
    evs = [ERead None; EWrite 1 true; EWrite 2 false; ECheck false; EFlush false; EWrite 3 true;
           EUnwrite (Some 3); ERead (Some 1); EWrite 4 false; EFlush true; ERead (Some 2);
           ERead (Some 4); ERead None; EUnwrite None] /\
    pq_steps pq_new evs s /\ pq_asleep s = true.
Proof.
  destruct (ypipe_linearizable least_free 2 example_schedule) as (p & m & evs & s & Hp & Hrun & Hst & _);
    [lia|].
  exists p, m, evs, s. vm_compute in Hp. injection Hp as <-. vm_compute in Hrun.
  injection Hrun as <- <-. split_and!; try reflexivity; try exact Hst.
  repeat match goal with
         | H : pq_steps _ _ _ |- _ => inversion H; subst; clear H
         | H : pq_step _ _ _ |- _ => inversion H; subst; clear H
         end; reflexivity.
Defined.
