(* ===== verification/Wire.v ===== *)
(** * Integers in network byte order (src/src/wire.hpp)

    [put_uint*] writes into the buffer the bytes the model returns, and
    [get_uint*] reads the bytes at the pointer: a pointer with too few
    bytes behind it is [None]. *)

From S2P Require Import Prelude.

Definition put_uint8 (value : Z) : bytes := [value].

Definition get_uint8 (buffer : bytes) : option Z := buffer !! 0%nat.

Definition put_uint16 (value : Z) : bytes :=
  [Z.land (Z.shiftr value 8) 255; Z.land value 255].

Definition get_uint16 (buffer : bytes) : option Z :=
  let* b0 := buffer !! 0%nat in
  let* b1 := buffer !! 1%nat in
  Some (Z.lor (Z.shiftl b0 8) b1).

Definition put_uint32 (value : Z) : bytes :=
  [Z.land (Z.shiftr value 24) 255; Z.land (Z.shiftr value 16) 255;
   Z.land (Z.shiftr value 8) 255; Z.land value 255].

Definition get_uint32 (buffer : bytes) : option Z :=
  let* b0 := buffer !! 0%nat in
  let* b1 := buffer !! 1%nat in
  let* b2 := buffer !! 2%nat in
  let* b3 := buffer !! 3%nat in
  Some (Z.lor (Z.lor (Z.lor (Z.shiftl b0 24) (Z.shiftl b1 16)) (Z.shiftl b2 8)) b3).

Definition put_uint64 (value : Z) : bytes :=
  [Z.land (Z.shiftr value 56) 255; Z.land (Z.shiftr value 48) 255;
   Z.land (Z.shiftr value 40) 255; Z.land (Z.shiftr value 32) 255;
   Z.land (Z.shiftr value 24) 255; Z.land (Z.shiftr value 16) 255;
   Z.land (Z.shiftr value 8) 255; Z.land value 255].

Definition get_uint64 (buffer : bytes) : option Z :=
  let* b0 := buffer !! 0%nat in
  let* b1 := buffer !! 1%nat in
  let* b2 := buffer !! 2%nat in
  let* b3 := buffer !! 3%nat in
  let* b4 := buffer !! 4%nat in
  let* b5 := buffer !! 5%nat in
  let* b6 := buffer !! 6%nat in
  let* b7 := buffer !! 7%nat in
  Some (Z.lor (Z.lor (Z.lor (Z.lor (Z.lor (Z.lor (Z.lor (Z.shiftl b0 56) (Z.shiftl b1 48))
    (Z.shiftl b2 40)) (Z.shiftl b3 32)) (Z.shiftl b4 24)) (Z.shiftl b5 16)) (Z.shiftl b6 8)) b7).

(** ** Big-endian numerals *)

Fixpoint be_bytes (n : nat) (v : Z) : bytes :=
  match n with
  | O => []
  | S n' => (v / 256 ^ Z.of_nat n') mod 256 :: be_bytes n' v
  end.

Definition be_value (bs : bytes) : Z := foldl (fun acc b => acc * 256 + b) 0 bs.

Lemma be_bytes_length n v : length (be_bytes n v) = n.
Proof. induction n; simpl; congruence. Qed.

Lemma be_bytes_ok n v : bytes_ok (be_bytes n v).
Proof.
  induction n as [|n IH]; simpl; constructor; [|done]. unfold is_u8. apply Z.mod_pos_bound. lia.
Qed.

Lemma be_value_acc bs : forall acc,
  foldl (fun a b => a * 256 + b) acc bs = acc * 256 ^ Z.of_nat (length bs) + be_value bs.
Proof.
  unfold be_value. induction bs as [|b bs IH]; intros acc; cbn [foldl length]; [lia|].
  rewrite (IH (acc * 256 + b)), (IH (0 * 256 + b)), Nat2Z.inj_succ, Z.pow_succ_r by lia. lia.
Qed.

Lemma be_value_cons b bs : be_value (b :: bs) = b * 256 ^ Z.of_nat (length bs) + be_value bs.
Proof. unfold be_value at 1. cbn [foldl]. by rewrite be_value_acc. Qed.

Lemma be_value_range bs : bytes_ok bs -> 0 <= be_value bs < 256 ^ Z.of_nat (length bs).
Proof.
  induction 1 as [|b bs Hb _ IH]; [done|]. rewrite be_value_cons. cbn [length].
  rewrite Nat2Z.inj_succ, Z.pow_succ_r by lia. unfold is_u8 in Hb. nia.
Qed.

Lemma be_value_bytes n v : be_value (be_bytes n v) = v mod 256 ^ Z.of_nat n.
Proof.
  induction n as [|n IH]; [by rewrite Z.mod_1_r|]. cbn [be_bytes].
  rewrite be_value_cons, be_bytes_length, IH, Nat2Z.inj_succ, Z.pow_succ_r, (Z.mul_comm 256) by lia.
  rewrite Z.rem_mul_r by lia. lia.
Qed.

Lemma be_bytes_value bs : bytes_ok bs -> be_bytes (length bs) (be_value bs) = bs.
Proof.
  intros H. assert (forall m, be_bytes (length bs) (m * 256 ^ Z.of_nat (length bs) + be_value bs) = bs) as Hm.
  { induction H as [|b bs Hb Hbs IH]; intros m; [done|]. cbn [length be_bytes].
    pose proof (be_value_range bs Hbs) as Hr. rewrite be_value_cons, Nat2Z.inj_succ, Z.pow_succ_r by lia.
    set (p := 256 ^ Z.of_nat (length bs)) in *. f_equal.
    - replace (m * (256 * p) + (b * p + be_value bs)) with ((m * 256 + b) * p + be_value bs) by lia.
      rewrite Z.div_add_l, Z.div_small, Z.add_0_r by lia.
      rewrite Z.add_comm, Z_mod_plus_full. apply Z.mod_small. exact Hb.
    - replace (m * (256 * p) + (b * p + be_value bs)) with ((m * 256 + b) * p + be_value bs) by lia.
      apply IH. }
  specialize (Hm 0). done.
Qed.

(** ** The bit operations of the source *)

Lemma lor_disjoint x y n : 0 <= n -> 0 <= y < 2 ^ n -> Z.lor (x * 2 ^ n) y = x * 2 ^ n + y.
Proof.
  intros Hn Hy. assert (Z.land (x * 2 ^ n) y = 0) as Hl.
  { apply Z.bits_inj'. intros i Hi. rewrite Z.land_spec, Z.bits_0.
    destruct (decide (i < n)); [by rewrite Z.mul_pow2_bits_low|].
    assert (Z.testbit y i = false) as ->; [|by rewrite andb_false_r].
    apply Z.testbit_false; [done|]. rewrite Z.div_small; [done|].
    split; [lia|]. eapply Z.lt_le_trans; [apply Hy|]. apply Z.pow_le_mono_r; lia. }
  by rewrite Z.add_nocarry_lxor, Z.lxor_lor.
Qed.

Lemma lor_shiftl_byte x b n k : 0 <= n -> k = n + 8 -> is_u8 b ->
  Z.lor (x * 2 ^ k) (Z.shiftl b n) = (x * 256 + b) * 2 ^ n.
Proof.
  intros Hn -> Hb. unfold is_u8 in Hb. rewrite Z.shiftl_mul_pow2 by done.
  rewrite lor_disjoint; [|lia|rewrite Z.pow_add_r by lia; pose proof (Z.pow_pos_nonneg 2 n); nia].
  rewrite Z.pow_add_r by lia. lia.
Qed.

Lemma land_shiftr_byte v k n : k = 8 * Z.of_nat n -> Z.land (Z.shiftr v k) 255 = (v / 256 ^ Z.of_nat n) mod 256.
Proof.
  intros ->. change 255 with (Z.ones 8). rewrite Z.land_ones, Z.shiftr_div_pow2 by lia.
  by rewrite Z.pow_mul_r by lia.
Qed.

Lemma land_byte v : Z.land v 255 = (v / 256 ^ Z.of_nat 0) mod 256.
Proof. rewrite <- (land_shiftr_byte v 0 0) by done. by rewrite Z.shiftr_0_r. Qed.

Lemma put_uint16_be v : put_uint16 v = be_bytes 2 v.
Proof. unfold put_uint16. by rewrite (land_byte v), (land_shiftr_byte v 8 1). Qed.
Lemma put_uint32_be v : put_uint32 v = be_bytes 4 v.
Proof.
  unfold put_uint32. by rewrite (land_byte v), (land_shiftr_byte v 8 1), (land_shiftr_byte v 16 2),
    (land_shiftr_byte v 24 3).
Qed.
Lemma put_uint64_be v : put_uint64 v = be_bytes 8 v.
Proof.
  unfold put_uint64. by rewrite (land_byte v), (land_shiftr_byte v 8 1), (land_shiftr_byte v 16 2),
    (land_shiftr_byte v 24 3), (land_shiftr_byte v 32 4), (land_shiftr_byte v 40 5),
    (land_shiftr_byte v 48 6), (land_shiftr_byte v 56 7).
Qed.

Lemma get_uint16_be bs rest : bytes_ok bs -> length bs = 2%nat ->
  get_uint16 (bs ++ rest) = Some (be_value bs).
Proof.
  intros Hb Hl. destruct bs as [|b0 [|b1 [|]]]; try done. unfold get_uint16. simpl. f_equal.
  repeat (apply Forall_cons_1 in Hb as [? Hb]). rewrite Z.shiftl_mul_pow2 by done.
  rewrite lor_disjoint by (unfold is_u8 in *; lia). unfold be_value. simpl. lia.
Qed.

Lemma get_uint32_be bs rest : bytes_ok bs -> length bs = 4%nat ->
  get_uint32 (bs ++ rest) = Some (be_value bs).
Proof.
  intros Hb Hl. destruct bs as [|b0 [|b1 [|b2 [|b3 [|]]]]]; try done. unfold get_uint32. simpl. f_equal.
  repeat (apply Forall_cons_1 in Hb as [? Hb]). rewrite (Z.shiftl_mul_pow2 b0) by done.
  rewrite !lor_shiftl_byte by done. rewrite lor_disjoint by (unfold is_u8 in *; lia).
  unfold be_value. simpl. lia.
Qed.

Lemma get_uint64_be bs rest : bytes_ok bs -> length bs = 8%nat ->
  get_uint64 (bs ++ rest) = Some (be_value bs).
Proof.
  intros Hb Hl. destruct bs as [|b0 [|b1 [|b2 [|b3 [|b4 [|b5 [|b6 [|b7 [|]]]]]]]]]; try done.
  unfold get_uint64. simpl. f_equal.
  repeat (apply Forall_cons_1 in Hb as [? Hb]). rewrite (Z.shiftl_mul_pow2 b0) by done.
  rewrite !lor_shiftl_byte by done. rewrite lor_disjoint by (unfold is_u8 in *; lia).
  unfold be_value. simpl. lia.
Qed.

(** The forms the codecs use. *)
Lemma get_put_uint16 v rest : 0 <= v < 65536 -> get_uint16 (put_uint16 v ++ rest) = Some v.
Proof.
  intros Hv. rewrite put_uint16_be, get_uint16_be by (apply be_bytes_ok || apply be_bytes_length).
  rewrite be_value_bytes, Z.mod_small; done.
Qed.
Lemma get_put_uint32 v rest : is_u32 v -> get_uint32 (put_uint32 v ++ rest) = Some v.
Proof.
  intros Hv. rewrite put_uint32_be, get_uint32_be by (apply be_bytes_ok || apply be_bytes_length).
  rewrite be_value_bytes, Z.mod_small; done.
Qed.
Lemma get_put_uint64 v rest : is_u64 v -> get_uint64 (put_uint64 v ++ rest) = Some v.
Proof.
  intros Hv. rewrite put_uint64_be, get_uint64_be by (apply be_bytes_ok || apply be_bytes_length).
  rewrite be_value_bytes, Z.mod_small; done.
Qed.

(** the 16-, 32- and 64-bit integers of the wire formats round trip:
    reading what was written gives the value back, whatever follows it
    in the buffer, and the bytes written are bytes. *)
Theorem wire_roundtrip (v : Z) (rest : bytes) :
  get_uint16 (put_uint16 (u16 v) ++ rest) = Some (u16 v) /\
  get_uint32 (put_uint32 (u32 v) ++ rest) = Some (u32 v) /\
  get_uint64 (put_uint64 (u64 v) ++ rest) = Some (u64 v) /\
  bytes_ok (put_uint16 v) /\ bytes_ok (put_uint32 v) /\ bytes_ok (put_uint64 v).
Proof.
  rewrite get_put_uint16, get_put_uint32, get_put_uint64;
    [|apply u64_range|apply u32_range|unfold u16; apply Z.mod_pos_bound; lia].
  rewrite put_uint16_be, put_uint32_be, put_uint64_be. split_and!; done || apply be_bytes_ok.
Qed.
