(* ===== verification/Z85.v ===== *)
(** * Z85, the text form of CURVE keys (src/src/zmq_utils.cpp)

    [zmq_z85_encode] and [zmq_z85_decode] with their tables and their
    32-bit counters.  The outer [option] is a failed assertion or a read
    outside the data; the inner one is the null pointer returned with
    EINVAL.  The destination buffer is the list of characters written,
    without the terminator. *)

From Stdlib Require Import String Ascii.
From S2P Require Import Prelude.
Open Scope Z_scope.

#[local] Ltac Zify.zify_post_hook ::= Z.div_mod_to_equations.

Definition encoder_chars : string :=
  "0123456789abcdefghijklmnopqrstuvwxyzABCDEFGHIJKLMNOPQRSTUVWXYZ.-:+=^!/*?&<>()[]{}@%$#".

Definition z85_encoder : bytes :=
  Eval vm_compute in map (fun a => Z.of_N (N_of_ascii a)) (list_ascii_of_string encoder_chars).

Definition z85_decoder : bytes :=
  [0xFF; 0x44; 0xFF; 0x54; 0x53; 0x52; 0x48; 0xFF; 0x4B; 0x4C; 0x46; 0x41;
   0xFF; 0x3F; 0x3E; 0x45; 0x00; 0x01; 0x02; 0x03; 0x04; 0x05; 0x06; 0x07;
   0x08; 0x09; 0x40; 0xFF; 0x49; 0x42; 0x4A; 0x47; 0x51; 0x24; 0x25; 0x26;
   0x27; 0x28; 0x29; 0x2A; 0x2B; 0x2C; 0x2D; 0x2E; 0x2F; 0x30; 0x31; 0x32;
   0x33; 0x34; 0x35; 0x36; 0x37; 0x38; 0x39; 0x3A; 0x3B; 0x3C; 0x3D; 0x4D;
   0xFF; 0x4E; 0x43; 0xFF; 0xFF; 0x0A; 0x0B; 0x0C; 0x0D; 0x0E; 0x0F; 0x10;
   0x11; 0x12; 0x13; 0x14; 0x15; 0x16; 0x17; 0x18; 0x19; 0x1A; 0x1B; 0x1C;
   0x1D; 0x1E; 0x1F; 0x20; 0x21; 0x22; 0x23; 0x4F; 0xFF; 0x50; 0xFF; 0xFF].

(** ** Encoding *)

(** [while (divisor)]: the base 85 digits of [value]. *)
Fixpoint z85_digits (fuel : nat) (value divisor : Z) : option bytes :=
  if divisor =? 0 then Some []
  else
    match fuel with
    | O => None
    | S f =>
        let* c := z85_encoder !! Z.to_nat (value / divisor mod 85) in
        let* l := z85_digits f value (divisor / 85) in
        Some (c :: l)
    end.

Fixpoint z85_encode_loop (fuel : nat) (data : bytes) (size byte_nbr value : Z) : option bytes :=
  if negb (byte_nbr <? size) then Some []
  else
    match fuel with
    | O => None
    | S f =>
        let* b := data !! Z.to_nat byte_nbr in
        let value := u32 (value * 256 + b) in
        let byte_nbr := u32 (byte_nbr + 1) in
        if byte_nbr mod 4 =? 0 then
          let* out := z85_digits 5 value (85 * 85 * 85 * 85) in
          let* l := z85_encode_loop f data size byte_nbr 0 in
          Some (out ++ l)
        else z85_encode_loop f data size byte_nbr value
    end.

Definition zmq_z85_encode (data : bytes) : option (option bytes) :=
  let size := Z.of_nat (length data) in
  if negb (size mod 4 =? 0) then Some None
  else
    let* dest := z85_encode_loop (length data) data size 0 0 in
    zmq_assert (u32 (Z.of_nat (length dest)) =? size * 5 / 4) ;;
    Some (Some dest).

(** ** Decoding *)

Fixpoint z85_bytes (fuel : nat) (value divisor : Z) : option bytes :=
  if divisor =? 0 then Some []
  else
    match fuel with
    | O => None
    | S f =>
        let* l := z85_bytes f value (divisor / 256) in
        Some (value / divisor mod 256 :: l)
    end.

(** The loop on the string: the bytes written and the final [char_nbr];
    [Some None] is the jump to [error_inval]. *)
Fixpoint z85_decode_loop (string : bytes) (char_nbr value : Z) : option (option (bytes * Z)) :=
  match string with
  | [] => Some (Some ([], char_nbr))
  | c :: string' =>
      if c =? 0 then Some (Some ([], char_nbr))
      else if 4294967295 / 85 <? value then Some None
      else
        let value := u32 (value * 85) in
        let index := u8 (c - 32) in
        let char_nbr := u32 (char_nbr + 1) in
        if 96 <=? index then Some None
        else
          let* summand := z85_decoder !! Z.to_nat index in
          if (summand =? 0xFF) || (4294967295 - value <? summand) then Some None
          else
            let value := u32 (value + summand) in
            if char_nbr mod 5 =? 0 then
              let* out := z85_bytes 4 value (256 * 256 * 256) in
              let* r := z85_decode_loop string' char_nbr 0 in
              match r with
              | Some (l, n) => Some (Some (out ++ l, n))
              | None => Some None
              end
            else z85_decode_loop string' char_nbr value
  end.

Fixpoint strlen (string : bytes) : Z :=
  match string with
  | [] => 0
  | c :: string' => if c =? 0 then 0 else 1 + strlen string'
  end.

Definition zmq_z85_decode (string : bytes) : option (option bytes) :=
  let* r := z85_decode_loop string 0 0 in
  match r with
  | None => Some None
  | Some (dest, char_nbr) =>
      if negb (char_nbr mod 5 =? 0) then Some None
      else
        zmq_assert (u32 (Z.of_nat (length dest)) =? strlen string * 4 / 5) ;;
        Some (Some dest)
  end.

(** ** The tables are inverse of each other *)

Definition z85_char (d : Z) : Z := default 0 (z85_encoder !! Z.to_nat d).

Definition z85_encoder_ok (i : nat) : bool :=
  match z85_encoder !! i with
  | Some c => (33 <=? c) && (c <? 128) &&
      bool_decide (z85_decoder !! Z.to_nat (c - 32) = Some (Z.of_nat i))
  | None => false
  end.

Definition z85_decoder_ok (j : nat) : bool :=
  match z85_decoder !! j with
  | Some d => (d =? 255) || (0 <=? d) && (d <? 85) &&
      bool_decide (z85_encoder !! Z.to_nat d = Some (Z.of_nat j + 32))
  | None => false
  end.

Lemma z85_tables : forallb z85_encoder_ok (seq 0 85) && forallb z85_decoder_ok (seq 0 96) = true.
Proof. vm_compute. reflexivity. Qed.

Lemma z85_char_ok d : 0 <= d < 85 ->
  z85_encoder !! Z.to_nat d = Some (z85_char d) /\ 33 <= z85_char d < 128 /\
  z85_decoder !! Z.to_nat (u8 (z85_char d - 32)) = Some d.
Proof.
  intros Hd. pose proof z85_tables as H. apply andb_true_iff in H as [H _].
  rewrite forallb_forall in H. specialize (H (Z.to_nat d) ltac:(apply in_seq; lia)).
  unfold z85_encoder_ok in H. unfold z85_char. destruct (z85_encoder !! _) as [c|]; [|done].
  simpl. bool_prop. apply bool_decide_eq_true in H0. rewrite Z2Nat.id in H0 by lia.
  wrap_small. split_and!; done || lia.
Qed.

Lemma z85_decoder_inv j d :
  0 <= j < 96 -> z85_decoder !! Z.to_nat j = Some d -> d <> 255 ->
  0 <= d < 85 /\ z85_char d = j + 32.
Proof.
  intros Hj Hd Hne. pose proof z85_tables as H. apply andb_true_iff in H as [_ H].
  rewrite forallb_forall in H. specialize (H (Z.to_nat j) ltac:(apply in_seq; lia)).
  unfold z85_decoder_ok in H. rewrite Hd in H. apply orb_true_iff in H as [H|H]; bool_prop; [done|].
  apply bool_decide_eq_true in H0. unfold z85_char. rewrite H0. simpl. lia.
Qed.

Lemma z85_decoder_lookup j : 0 <= j < 96 -> exists d, z85_decoder !! Z.to_nat j = Some d /\ 0 <= d < 256.
Proof.
  intros Hj. pose proof z85_tables as H. apply andb_true_iff in H as [_ H].
  rewrite forallb_forall in H. specialize (H (Z.to_nat j) ltac:(apply in_seq; lia)).
  unfold z85_decoder_ok in H. destruct (z85_decoder !! _) as [d|]; [|done]. exists d. split; [done|].
  apply orb_true_iff in H as [H|H]; bool_prop; lia.
Qed.

(** ** Groups: four bytes are five characters *)

Definition group_value (a b c d : Z) : Z := ((a * 256 + b) * 256 + c) * 256 + d.

Definition group_chars (v : Z) : bytes :=
  [z85_char (v / 52200625 mod 85); z85_char (v / 614125 mod 85); z85_char (v / 7225 mod 85);
   z85_char (v / 85 mod 85); z85_char (v / 1 mod 85)].

Lemma z85_digits_group v : z85_digits 5 v (85 * 85 * 85 * 85) = Some (group_chars v).
Proof.
  assert (forall x, z85_encoder !! Z.to_nat (x mod 85) = Some (z85_char (x mod 85))) as Hc
    by (intros x; apply z85_char_ok, Z.mod_pos_bound; lia).
  unfold group_chars.
  cbn -[z85_encoder z85_char Z.div Z.modulo Z.to_nat lookup list_lookup].
  rewrite !Hc. reflexivity.
Qed.

Lemma z85_bytes_group v :
  z85_bytes 4 v (256 * 256 * 256) = Some [v / 16777216 mod 256; v / 65536 mod 256; v / 256 mod 256; v / 1 mod 256].
Proof. reflexivity. Qed.

Lemma group_value_bytes a b c d : is_u8 a -> is_u8 b -> is_u8 c -> is_u8 d ->
  let v := group_value a b c d in
  is_u32 v /\ v / 16777216 mod 256 = a /\ v / 65536 mod 256 = b /\ v / 256 mod 256 = c /\ v / 1 mod 256 = d.
Proof. unfold is_u8, is_u32, group_value. intros. cbv zeta. split_and!; lia || (Z.div_mod_to_equations; lia). Qed.

Lemma bytes_group_value v : is_u32 v ->
  group_value (v / 16777216 mod 256) (v / 65536 mod 256) (v / 256 mod 256) (v / 1 mod 256) = v.
Proof. unfold is_u32, group_value. intros. Z.div_mod_to_equations. lia. Qed.

(** The encoding of a whole number of groups. *)
Fixpoint z85_ref (l : bytes) : bytes :=
  match l with
  | a :: b :: c :: d :: l' => group_chars (group_value a b c d) ++ z85_ref l'
  | _ => []
  end.

Lemma quad_ind (P : bytes -> Prop) :
  P [] -> (forall a b c d l, P l -> P (a :: b :: c :: d :: l)) ->
  forall l, Z.of_nat (length l) mod 4 = 0 -> P l.
Proof.
  intros H0 Hs l. induction l as [l IH] using (induction_ltof1 _ (@length Z)). unfold ltof in IH.
  destruct l as [|a [|b [|c [|d l]]]]; simpl length; try done.
  intros Hl. apply Hs, IH; [simpl; lia|]. rewrite <- Hl. rewrite !Nat2Z.inj_succ.
  replace (Z.succ (Z.succ (Z.succ (Z.succ (Z.of_nat (length l)))))) with (Z.of_nat (length l) + 1 * 4) by lia.
  by rewrite Z_mod_plus_full.
Qed.

Lemma z85_ref_length l : Z.of_nat (length l) mod 4 = 0 -> Z.of_nat (length (z85_ref l)) = Z.of_nat (length l) * 5 / 4.
Proof.
  revert l. apply quad_ind; [done|]. intros a b c d l IH. cbn [z85_ref]. rewrite length_app.
  unfold group_chars. cbn [length]. lia.
Qed.

Lemma z85_encode_loop_spec l : Z.of_nat (length l) mod 4 = 0 -> forall pre fuel,
  bytes_ok l -> Z.of_nat (length (pre ++ l)) < 4294967296 -> Z.of_nat (length pre) mod 4 = 0 ->
  (length l <= fuel)%nat ->
  z85_encode_loop fuel (pre ++ l) (Z.of_nat (length (pre ++ l))) (Z.of_nat (length pre)) 0 = Some (z85_ref l).
Proof.
  revert l. apply (quad_ind (fun l => forall pre fuel, _ -> _ -> _ -> _ -> _)).
  - intros pre fuel _ _ _ _. rewrite app_nil_r. destruct fuel; simpl; by rewrite Z.ltb_irrefl.
  - intros a b c d l IH pre fuel Hok Hlen Hpre Hf.
    repeat (apply Forall_cons_1 in Hok as [? Hok]). cbn [length] in Hf. unfold is_u8 in *.
    destruct fuel as [|[|[|[|f]]]]; try lia.
    set (data := pre ++ a :: b :: c :: d :: l) in *.
    assert (forall k x m, [a; b; c; d] !! k = Some x -> m = Z.of_nat (length pre) + Z.of_nat k ->
      data !! Z.to_nat m = Some x) as Hget.
    { intros k x m Hk ->. unfold data. rewrite lookup_app_r by lia.
      replace (Z.to_nat _ - length pre)%nat with k by lia.
      by apply (lookup_app_l_Some [a; b; c; d] l). }
    assert (Z.of_nat (length data) = Z.of_nat (length pre) + 4 + Z.of_nat (length l)) as Hd.
    { unfold data. rewrite length_app. simpl. lia. }
    set (n := Z.of_nat (length pre)) in *. set (size := Z.of_nat (length data)) in *.
    cbn [z85_encode_loop].
    rewrite (Hget 0%nat a n) by (done || lia). cbn [mbind option_bind]. wrap_small. simpl_test.
    rewrite (Hget 1%nat b (n + 1)) by (done || lia). cbn [mbind option_bind]. wrap_small. simpl_test.
    rewrite (Hget 2%nat c (n + 1 + 1)) by (done || lia). cbn [mbind option_bind]. wrap_small. simpl_test.
    rewrite (Hget 3%nat d (n + 1 + 1 + 1)) by (done || lia). cbn [mbind option_bind]. wrap_small. simpl_test.
    replace (n + 1 + 1 + 1 + 1) with (Z.of_nat (length (pre ++ [a; b; c; d]))) by (rewrite length_app; simpl; lia).
    replace (((0 * 256 + a) * 256 + b) * 256 + c) with ((a * 256 + b) * 256 + c) by lia.
    change (((a * 256 + b) * 256 + c) * 256 + d) with (group_value a b c d).
    rewrite z85_digits_group. cbn [mbind option_bind]. unfold size, data.
    replace (pre ++ a :: b :: c :: d :: l) with ((pre ++ [a; b; c; d]) ++ l) by by rewrite <- app_assoc.
    rewrite IH; [done|done| |rewrite length_app; simpl; lia|lia].
    rewrite <- app_assoc. exact Hlen.
Qed.

(** ** Decoding one character *)

(** The value after a character: [None] is the jump to [error_inval]. *)
Definition z85_decode_char (value c : Z) : option (option Z) :=
  if 4294967295 / 85 <? value then Some None
  else
    let value := u32 (value * 85) in
    let index := u8 (c - 32) in
    if 96 <=? index then Some None
    else
      let* summand := z85_decoder !! Z.to_nat index in
      if (summand =? 0xFF) || (4294967295 - value <? summand) then Some None
      else Some (Some (u32 (value + summand))).

Lemma z85_decode_loop_cons c s n v : c <> 0 ->
  z85_decode_loop (c :: s) n v =
  (let* r := z85_decode_char v c in
   match r with
   | None => Some None
   | Some v' =>
       if u32 (n + 1) mod 5 =? 0 then
         let* out := z85_bytes 4 v' (256 * 256 * 256) in
         let* r := z85_decode_loop s (u32 (n + 1)) 0 in
         match r with Some (l, m) => Some (Some (out ++ l, m)) | None => Some None end
       else z85_decode_loop s (u32 (n + 1)) v'
   end).
Proof.
  intros Hc. cbn [z85_decode_loop]. unfold z85_decode_char. rewrite (proj2 (Z.eqb_neq c 0)) by done.
  destruct (4294967295 / 85 <? v); [done|]. destruct (96 <=? u8 (c - 32)); [done|].
  destruct (z85_decoder !! _) as [d|]; [|done]. cbn [mbind option_bind].
  by destruct (_ || _).
Qed.

Lemma z85_decode_char_ok v d : 0 <= v -> 0 <= d < 85 -> v * 85 + d < 4294967296 ->
  z85_decode_char v (z85_char d) = Some (Some (v * 85 + d)).
Proof.
  intros Hv Hd Hlt. destruct (z85_char_ok d Hd) as (_ & Hc & Hdec). unfold z85_decode_char.
  rewrite Hdec. wrap_small. simpl_test. cbn [mbind option_bind]. simpl_test. by wrap_small.
Qed.

Lemma z85_decode_char_inv v c r : is_u8 c -> 0 <= v -> z85_decode_char v c = r ->
  r = Some None \/ exists d, 0 <= d < 85 /\ c = z85_char d /\ r = Some (Some (v * 85 + d)) /\
    v * 85 + d < 4294967296.
Proof.
  intros Hc Hv <-. unfold z85_decode_char. pose proof (u8_range (c - 32)) as Hi. unfold is_u8 in *.
  destruct (4294967295 / 85 <? v) eqn:E1; bool_prop; [by left|].
  destruct (96 <=? u8 (c - 32)) eqn:E2; bool_prop; [by left|].
  destruct (z85_decoder_lookup (u8 (c - 32))) as (d & Hd & Hr); [lia|]. rewrite Hd. cbn [mbind option_bind].
  wrap_small. destruct (d =? 255) eqn:E3; bool_prop; [by left|]. cbn [orb].
  destruct (4294967295 - v * 85 <? d) eqn:E4; bool_prop; [by left|]. right.
  destruct (z85_decoder_inv (u8 (c - 32)) d) as [Hd' Hch]; [lia|done|done|]. exists d.
  wrap_small. split_and!; try done; try lia. rewrite Hch. unfold u8 in *. lia.
Qed.

Lemma group_chars_digits d0 d1 d2 d3 d4 :
  0 <= d0 < 85 -> 0 <= d1 < 85 -> 0 <= d2 < 85 -> 0 <= d3 < 85 -> 0 <= d4 < 85 ->
  group_chars ((((d0 * 85 + d1) * 85 + d2) * 85 + d3) * 85 + d4) =
  [z85_char d0; z85_char d1; z85_char d2; z85_char d3; z85_char d4].
Proof. intros. unfold group_chars. repeat (f_equal; [f_equal; lia|]). f_equal. f_equal. lia. Qed.

Lemma group_chars_value v : is_u32 v -> exists d0 d1 d2 d3 d4,
  0 <= d0 < 85 /\ 0 <= d1 < 85 /\ 0 <= d2 < 85 /\ 0 <= d3 < 85 /\ 0 <= d4 < 85 /\
  v = (((d0 * 85 + d1) * 85 + d2) * 85 + d3) * 85 + d4.
Proof.
  intros Hv. unfold is_u32 in Hv. exists (v / 52200625), (v / 614125 mod 85), (v / 7225 mod 85),
    (v / 85 mod 85), (v mod 85). lia.
Qed.

(** ** Decoding a string *)

Lemma strlen_length s : Forall (fun c => c <> 0) s -> strlen s = Z.of_nat (length s).
Proof.
  induction 1 as [|c s Hc _ IH]; [done|]. cbn [strlen length]. rewrite IH. simpl_test. lia.
Qed.

Lemma group_chars_nonzero v : Forall (fun c => is_u8 c /\ c <> 0) (group_chars v).
Proof.
  assert (forall x, is_u8 (z85_char (x mod 85)) /\ z85_char (x mod 85) <> 0) as H.
  { intros x. destruct (z85_char_ok (x mod 85)) as (_ & Hc & _); [lia|]. unfold is_u8. lia. }
  unfold group_chars. repeat constructor; apply H.
Qed.

Lemma z85_ref_nonzero l : Z.of_nat (length l) mod 4 = 0 -> Forall (fun c => is_u8 c /\ c <> 0) (z85_ref l).
Proof.
  revert l. apply quad_ind; [constructor|]. intros a b c d l IH. cbn [z85_ref].
  apply Forall_app. split; [apply group_chars_nonzero|done].
Qed.

(** A whole group is decoded to its four bytes. *)
Lemma z85_decode_group v rest n :
  is_u32 v -> 0 <= n -> n + 5 < 4294967296 -> n mod 5 = 0 ->
  z85_decode_loop (group_chars v ++ rest) n 0 =
  (let* r := z85_decode_loop rest (n + 5) 0 in
   match r with
   | Some (l, m) => Some (Some ([v / 16777216 mod 256; v / 65536 mod 256; v / 256 mod 256; v / 1 mod 256] ++ l, m))
   | None => Some None end).
Proof.
  intros Hv Hn Hn5 Hm. destruct (group_chars_value v Hv) as (d0 & d1 & d2 & d3 & d4 & H0 & H1 & H2 & H3 & H4 & E).
  pose proof (z85_bytes_group v) as Hout. unfold is_u32 in Hv.
  rewrite E at 1. rewrite group_chars_digits by done.
  assert (forall d, 0 <= d < 85 -> z85_char d <> 0) as Hnz by (intros d Hd; pose proof (z85_char_ok d Hd); lia).
  cbn [app]. rewrite z85_decode_loop_cons by auto.
  rewrite z85_decode_char_ok by lia. cbn [mbind option_bind]. wrap_small. simpl_test.
  rewrite z85_decode_loop_cons, z85_decode_char_ok by (auto || lia). cbn [mbind option_bind]. wrap_small. simpl_test.
  rewrite z85_decode_loop_cons, z85_decode_char_ok by (auto || lia). cbn [mbind option_bind]. wrap_small. simpl_test.
  rewrite z85_decode_loop_cons, z85_decode_char_ok by (auto || lia). cbn [mbind option_bind]. wrap_small. simpl_test.
  rewrite z85_decode_loop_cons, z85_decode_char_ok by (auto || lia). cbn [mbind option_bind]. wrap_small. simpl_test.
  replace (((((0 * 85 + d0) * 85 + d1) * 85 + d2) * 85 + d3) * 85 + d4) with v by lia.
  rewrite Hout. cbn [mbind option_bind]. by replace (n + 1 + 1 + 1 + 1 + 1) with (n + 5) by lia.
Qed.

(** A string of fewer than five characters does not finish a group, and a
    longer one starts with a group, unless it is rejected. *)
Lemma z85_decode_step s n :
  Forall (fun c => is_u8 c /\ c <> 0) s -> s <> [] ->
  0 <= n -> n + Z.of_nat (length s) < 4294967296 -> n mod 5 = 0 ->
  z85_decode_loop s n 0 = Some None \/
  (exists m, z85_decode_loop s n 0 = Some (Some ([], m)) /\ m mod 5 <> 0) \/
  exists v rest, is_u32 v /\ s = group_chars v ++ rest.
Proof.
  intros Hs Hne Hn Hlen Hm.
  assert (forall v c s' k, is_u8 c /\ c <> 0 -> 0 <= v -> n <= k -> k + 1 < 4294967296 ->
    z85_decode_loop (c :: s') k v = Some None \/
    exists d, 0 <= d < 85 /\ c = z85_char d /\ v * 85 + d < 4294967296 /\
      ((k + 1) mod 5 <> 0 -> z85_decode_loop (c :: s') k v = z85_decode_loop s' (k + 1) (v * 85 + d))) as Hstep.
  { intros v c s' k [Hc Hc0] Hv Hk Hk1. rewrite z85_decode_loop_cons by done.
    destruct (z85_decode_char_inv v c _ Hc Hv eq_refl) as [->|(d & Hd & -> & -> & Hlt)]; [by left|].
    right. exists d. split_and!; try done; try lia. intros Hm5. cbn [mbind option_bind]. wrap_small. by simpl_test. }
  destruct s as [|c0 s]; [done|]. apply Forall_cons_1 in Hs as [H0 Hs]. simpl in Hlen.
  destruct (Hstep 0 c0 s n) as [?|(d0 & D0 & E0 & B0 & L0)]; try done; try lia; [by left|]. rewrite L0 by lia.
  destruct s as [|c1 s]; [right; left; eexists; split; [done|lia]|].
  apply Forall_cons_1 in Hs as [H1 Hs]. simpl in Hlen.
  destruct (Hstep (0 * 85 + d0) c1 s (n + 1)) as [?|(d1 & D1 & E1 & B1 & L1)]; try done; try lia; [by left|]. rewrite L1 by lia.
  destruct s as [|c2 s]; [right; left; eexists; split; [done|lia]|].
  apply Forall_cons_1 in Hs as [H2 Hs]. simpl in Hlen.
  destruct (Hstep ((0 * 85 + d0) * 85 + d1) c2 s (n + 1 + 1)) as [?|(d2 & D2 & E2 & B2 & L2)]; try done; try lia; [by left|]. rewrite L2 by lia.
  destruct s as [|c3 s]; [right; left; eexists; split; [done|lia]|].
  apply Forall_cons_1 in Hs as [H3 Hs]. simpl in Hlen.
  destruct (Hstep (((0 * 85 + d0) * 85 + d1) * 85 + d2) c3 s (n + 1 + 1 + 1)) as [?|(d3 & D3 & E3 & B3 & L3)]; try done; try lia; [by left|]. rewrite L3 by lia.
  destruct s as [|c4 s]; [right; left; eexists; split; [done|lia]|].
  apply Forall_cons_1 in Hs as [H4 Hs]. simpl in Hlen.
  destruct (Hstep ((((0 * 85 + d0) * 85 + d1) * 85 + d2) * 85 + d3) c4 s (n + 1 + 1 + 1 + 1)) as [?|(d4 & D4 & E4 & B4 & _)]; try done; try lia; [by left|].
  right; right. exists ((((d0 * 85 + d1) * 85 + d2) * 85 + d3) * 85 + d4), s.
  split; [unfold is_u32; lia|]. rewrite group_chars_digits by done. by subst.
Qed.

Lemma z85_decode_ref l : Z.of_nat (length l) mod 4 = 0 -> forall n,
  bytes_ok l -> 0 <= n -> n + Z.of_nat (length (z85_ref l)) < 4294967296 -> n mod 5 = 0 ->
  z85_decode_loop (z85_ref l) n 0 = Some (Some (l, n + Z.of_nat (length (z85_ref l)))).
Proof.
  revert l. apply (quad_ind (fun l => forall n, _ -> _ -> _ -> _ -> _)).
  - intros n _ _ _ _. simpl. by rewrite Z.add_0_r.
  - intros a b c d l IH n Hok Hn Hlen Hm. repeat (apply Forall_cons_1 in Hok as [? Hok]).
    cbn [z85_ref] in *. rewrite length_app in *. cbn [group_chars length] in Hlen.
    destruct (group_value_bytes a b c d) as (Hv & E1 & E2 & E3 & E4); try done.
    rewrite z85_decode_group, IH by (done || lia). cbn [mbind option_bind].
    rewrite E1, E2, E3, E4. cbn [group_chars length app]. do 3 f_equal. lia.
Qed.

Lemma z85_decode_inv s : forall n,
  Forall (fun c => is_u8 c /\ c <> 0) s -> 0 <= n -> n + Z.of_nat (length s) < 4294967296 -> n mod 5 = 0 ->
  z85_decode_loop s n 0 = Some None \/
  (exists l m, z85_decode_loop s n 0 = Some (Some (l, m)) /\ m mod 5 <> 0) \/
  exists l, Z.of_nat (length l) mod 4 = 0 /\ bytes_ok l /\ s = z85_ref l.
Proof.
  induction s as [s IH] using (induction_ltof1 _ (@length Z)). unfold ltof in IH. intros n Hs Hn Hlen Hm.
  destruct (decide (s = [])) as [->|Hne]; [right; right; by exists []; repeat constructor|].
  destruct (z85_decode_step s n Hs Hne Hn Hlen Hm) as [?|[(m & ? & ?)|(v & rest & Hv & ->)]]; [by left|by right; left; eauto|].
  apply Forall_app in Hs as [_ Hs]. rewrite length_app in Hlen. cbn [group_chars length] in Hlen.
  rewrite z85_decode_group by (done || lia).
  destruct (IH rest ltac:(rewrite length_app; simpl; lia) (n + 5)) as [->|[(l & m & -> & Hm5)|(l & Hl & Hok & ->)]];
    try done; try lia; [by left|by right; left; eauto|]. right; right.
  exists (v / 16777216 mod 256 :: v / 65536 mod 256 :: v / 256 mod 256 :: v / 1 mod 256 :: l).
  split_and!.
  - cbn [length]. lia.
  - repeat constructor; [unfold is_u8; lia..|done].
  - cbn [z85_ref]. by rewrite bytes_group_value.
Qed.

Lemma z85_encode_ref l : Z.of_nat (length l) mod 4 = 0 -> bytes_ok l -> Z.of_nat (length l) < 2147483648 ->
  zmq_z85_encode l = Some (Some (z85_ref l)).
Proof.
  intros Hm Hok Hlen. unfold zmq_z85_encode. rewrite Hm. simpl_test.
  pose proof (z85_encode_loop_spec l Hm [] (length l)) as Hrun. cbn [app length] in Hrun. change (Z.of_nat 0) with 0 in Hrun.
  rewrite Hrun by (done || lia).
  cbn [mbind option_bind]. pose proof (z85_ref_length l Hm) as Hl. rewrite Hl.
  wrap_small. by simpl_test.
Qed.

(** [zmq_z85_encode] and [zmq_z85_decode] are inverse of each other on
    inputs of less than 2 GiB, and neither runs into its assertion: a
    string of non-zero characters decodes to exactly the frame that
    encodes to it, and every other string, and every frame whose size is
    not a multiple of four, is rejected with EINVAL. *)
Theorem z85_bijection (data string : bytes) :
  bytes_ok data -> Z.of_nat (length data) < 2147483648 ->
  Forall (fun c => is_u8 c /\ c <> 0) string -> Z.of_nat (length string) < 2147483648 ->
  (zmq_z85_encode data = Some (Some string) <-> zmq_z85_decode string = Some (Some data)) /\
  (zmq_z85_encode data = Some None <-> Z.of_nat (length data) mod 4 <> 0) /\
  zmq_z85_encode data <> None /\ zmq_z85_decode string <> None.
Proof.
  intros Hd Hdl Hs Hsl.
  assert (forall l, Z.of_nat (length l) mod 4 = 0 -> bytes_ok l -> string = z85_ref l ->
    zmq_z85_decode string = Some (Some l)) as Hdec.
  { intros l Hm Hok ->. unfold zmq_z85_decode. rewrite (z85_decode_ref l Hm 0) by (done || lia).
    cbn [mbind option_bind]. pose proof (z85_ref_length l Hm) as Hl.
    rewrite strlen_length by (eapply list.Forall_impl; [exact Hs|simpl; tauto]). rewrite Hl in *.
    wrap_small. by simpl_test. }
  assert (zmq_z85_decode string = Some None \/ exists l, Z.of_nat (length l) mod 4 = 0 /\ bytes_ok l /\ string = z85_ref l) as Hcase.
  { destruct (z85_decode_inv string 0 Hs) as [E|[(l & m & E & Hm)|?]]; try done; try lia; [| |by right];
      left; unfold zmq_z85_decode; rewrite E; cbn [mbind option_bind]; [done|]. by simpl_test. }
  assert (Z.of_nat (length data) mod 4 <> 0 -> zmq_z85_encode data = Some None) as Hrej.
  { intros Hm. unfold zmq_z85_encode. by simpl_test. }
  pose proof (fun Hm => z85_encode_ref data Hm Hd Hdl) as Henc.
  split_and!; [split| | |].
  - destruct (decide (Z.of_nat (length data) mod 4 = 0)) as [Hm|Hm]; [|by rewrite Hrej].
    rewrite Henc by done. intros [= <-]. by apply Hdec.
  - intros E. destruct Hcase as [E'|(l & Hm & Hok & Hstr)]; [by rewrite E' in E|].
    rewrite (Hdec l Hm Hok Hstr) in E. injection E as ->. by rewrite Hstr, Henc.
  - split; [|done]. intros E Hm. by rewrite Henc in E.
  - destruct (decide (Z.of_nat (length data) mod 4 = 0)) as [Hm|Hm]; [by rewrite Henc|by rewrite Hrej].
  - destruct Hcase as [->|(l & Hm & Hok & Hstr)]; [done|]. by rewrite (Hdec l).
Qed.

(** The test vector of the Z85 specification: "HelloWorld". *)
Lemma z85_bijection_witness :
  zmq_z85_decode [72; 101; 108; 108; 111; 87; 111; 114; 108; 100] =
    Some (Some [0x86; 0x4F; 0xD2; 0x6F; 0xB5; 0x59; 0xF7; 0x5B]).
Proof.
  apply (z85_bijection [0x86; 0x4F; 0xD2; 0x6F; 0xB5; 0x59; 0xF7; 0x5B]
           [72; 101; 108; 108; 111; 87; 111; 114; 108; 100]).
  - repeat constructor; unfold is_u8; lia.
  - simpl. lia.
  - repeat constructor; unfold is_u8; lia.
  - simpl. lia.
  - vm_compute. reflexivity.
Defined.
