(* ===== verification/Options.v ===== *)
(** * Socket options, [options_t] (src/src/options.cpp, src/src/options.hpp)

    The options of a socket that [setsockopt] checks and stores and
    [getsockopt] reads.  Values are passed as the bytes in the caller's
    memory, little endian; a null pointer is [None].  The members of
    [options_t] are the constructors of two enumerations, one of integers
    and flags (0 or 1) and one of strings; the outer [option] of an
    operation is a read or write outside the memory passed.  The options
    that depend on how the library is built take the build as an
    argument; those of VMCI are left out, and the parser of address masks
    is a parameter.  The members that no option of this file sets or reads
    (such as [filter] or [socket_id]) are left out, but for
    [recv_routing_id], which the security mechanisms read. *)

From Stdlib Require Import Bool List.
From S2P Require Import Prelude Z85.

Inductive sockopt :=
| SO_SNDHWM | SO_RCVHWM | SO_AFFINITY | SO_ROUTING_ID | SO_RATE | SO_RECOVERY_IVL | SO_SNDBUF | SO_RCVBUF | SO_TOS | SO_TYPE | SO_LINGER
| SO_CONNECT_TIMEOUT | SO_TCP_MAXRT | SO_RECONNECT_IVL | SO_RECONNECT_IVL_MAX | SO_BACKLOG | SO_MAXMSGSIZE | SO_MULTICAST_HOPS | SO_MULTICAST_MAXTPDU
| SO_RCVTIMEO | SO_SNDTIMEO | SO_IPV4ONLY | SO_IPV6 | SO_SOCKS_PROXY | SO_SOCKS_USERNAME | SO_SOCKS_PASSWORD | SO_TCP_KEEPALIVE | SO_TCP_KEEPALIVE_CNT
| SO_TCP_KEEPALIVE_IDLE | SO_TCP_KEEPALIVE_INTVL | SO_IMMEDIATE | SO_TCP_ACCEPT_FILTER | SO_IPC_FILTER_UID | SO_IPC_FILTER_GID | SO_IPC_FILTER_PID
| SO_MECHANISM | SO_PLAIN_SERVER | SO_PLAIN_USERNAME | SO_PLAIN_PASSWORD | SO_ZAP_DOMAIN | SO_CURVE_SERVER | SO_CURVE_PUBLICKEY | SO_CURVE_SECRETKEY
| SO_CURVE_SERVERKEY | SO_CONFLATE | SO_GSSAPI_SERVER | SO_GSSAPI_PRINCIPAL | SO_GSSAPI_SERVICE_PRINCIPAL | SO_GSSAPI_PLAINTEXT
| SO_GSSAPI_PRINCIPAL_NAMETYPE | SO_GSSAPI_SERVICE_PRINCIPAL_NAMETYPE | SO_HANDSHAKE_IVL | SO_INVERT_MATCHING | SO_HEARTBEAT_IVL | SO_HEARTBEAT_TTL
| SO_HEARTBEAT_TIMEOUT | SO_USE_FD | SO_BINDTODEVICE | SO_ZAP_ENFORCE_DOMAIN | SO_LOOPBACK_FASTPATH | SO_METADATA | SO_MULTICAST_LOOP
| SO_ROUTER_NOTIFY | SO_IN_BATCH_SIZE | SO_OUT_BATCH_SIZE | SO_WSS_KEY_PEM | SO_WSS_CERT_PEM | SO_WSS_TRUST_PEM | SO_WSS_HOSTNAME
| SO_WSS_TRUST_SYSTEM.

Definition sockopt_numbers : list (Z * sockopt) :=
  [(23, SO_SNDHWM); (24, SO_RCVHWM); (4, SO_AFFINITY); (5, SO_ROUTING_ID); (8, SO_RATE); (9, SO_RECOVERY_IVL); (11, SO_SNDBUF); (12, SO_RCVBUF);
   (57, SO_TOS); (16, SO_TYPE); (17, SO_LINGER); (79, SO_CONNECT_TIMEOUT); (80, SO_TCP_MAXRT); (18, SO_RECONNECT_IVL); (21, SO_RECONNECT_IVL_MAX);
   (19, SO_BACKLOG); (22, SO_MAXMSGSIZE); (25, SO_MULTICAST_HOPS); (84, SO_MULTICAST_MAXTPDU); (27, SO_RCVTIMEO); (28, SO_SNDTIMEO);
   (31, SO_IPV4ONLY); (42, SO_IPV6); (68, SO_SOCKS_PROXY); (99, SO_SOCKS_USERNAME); (100, SO_SOCKS_PASSWORD); (34, SO_TCP_KEEPALIVE);
   (35, SO_TCP_KEEPALIVE_CNT); (36, SO_TCP_KEEPALIVE_IDLE); (37, SO_TCP_KEEPALIVE_INTVL); (39, SO_IMMEDIATE); (38, SO_TCP_ACCEPT_FILTER);
   (59, SO_IPC_FILTER_UID); (60, SO_IPC_FILTER_GID); (58, SO_IPC_FILTER_PID); (43, SO_MECHANISM); (44, SO_PLAIN_SERVER); (45, SO_PLAIN_USERNAME);
   (46, SO_PLAIN_PASSWORD); (55, SO_ZAP_DOMAIN); (47, SO_CURVE_SERVER); (48, SO_CURVE_PUBLICKEY); (49, SO_CURVE_SECRETKEY); (50, SO_CURVE_SERVERKEY);
   (54, SO_CONFLATE); (62, SO_GSSAPI_SERVER); (63, SO_GSSAPI_PRINCIPAL); (64, SO_GSSAPI_SERVICE_PRINCIPAL); (65, SO_GSSAPI_PLAINTEXT);
   (90, SO_GSSAPI_PRINCIPAL_NAMETYPE); (91, SO_GSSAPI_SERVICE_PRINCIPAL_NAMETYPE); (66, SO_HANDSHAKE_IVL); (74, SO_INVERT_MATCHING);
   (75, SO_HEARTBEAT_IVL); (76, SO_HEARTBEAT_TTL); (77, SO_HEARTBEAT_TIMEOUT); (89, SO_USE_FD); (92, SO_BINDTODEVICE); (93, SO_ZAP_ENFORCE_DOMAIN);
   (94, SO_LOOPBACK_FASTPATH); (95, SO_METADATA); (96, SO_MULTICAST_LOOP); (97, SO_ROUTER_NOTIFY); (101, SO_IN_BATCH_SIZE); (102, SO_OUT_BATCH_SIZE);
   (103, SO_WSS_KEY_PEM); (104, SO_WSS_CERT_PEM); (105, SO_WSS_TRUST_PEM); (106, SO_WSS_HOSTNAME); (107, SO_WSS_TRUST_SYSTEM)].

Definition sockopt_of (option_ : Z) : option sockopt := snd <$> find (fun e => fst e =? option_) sockopt_numbers.

(** ** Members *)

Inductive imember :=
| m_sndhwm | m_rcvhwm | m_affinity | m_rate | m_recovery_ivl | m_multicast_hops | m_multicast_maxtpdu | m_sndbuf | m_rcvbuf | m_tos | m_type
| m_linger | m_connect_timeout | m_tcp_maxrt | m_reconnect_ivl | m_reconnect_ivl_max | m_backlog | m_maxmsgsize | m_rcvtimeo | m_sndtimeo | m_ipv6
| m_immediate | m_invert_matching | m_tcp_keepalive | m_tcp_keepalive_cnt | m_tcp_keepalive_idle | m_tcp_keepalive_intvl | m_mechanism | m_as_server
| m_gss_principal_nt | m_gss_service_principal_nt | m_gss_plaintext | m_conflate | m_handshake_ivl | m_heartbeat_ttl | m_heartbeat_interval
| m_heartbeat_timeout | m_use_fd | m_zap_enforce_domain | m_loopback_fastpath | m_multicast_loop | m_in_batch_size | m_out_batch_size
| m_router_notify | m_wss_trust_system | m_recv_routing_id.

#[export] Instance imember_eq_dec : EqDecision imember.
Proof. solve_decision. Defined.

Inductive smember :=
| s_routing_id | s_socks_proxy_address | s_socks_proxy_username | s_socks_proxy_password | s_zap_domain | s_plain_username | s_plain_password
| s_curve_public_key | s_curve_secret_key | s_curve_server_key | s_gss_principal | s_gss_service_principal | s_bound_device | s_wss_key_pem
| s_wss_cert_pem | s_wss_trust_pem | s_wss_hostname.

#[export] Instance smember_eq_dec : EqDecision smember.
Proof. solve_decision. Defined.

Record options := Options {
  op_int : imember -> Z;
  op_str : smember -> bytes;
  op_accept_filters : list Z;        (** the resolved masks *)
  op_uid_filters : gset Z;
  op_gid_filters : gset Z;
  op_pid_filters : gset Z;
  op_app_metadata : gmap (list Z) (list Z);
}.

Definition set_int (o : options) (m : imember) (v : Z) : options :=
  Options (fun m' => if decide (m' = m) then v else op_int o m') (op_str o) (op_accept_filters o) (op_uid_filters o) (op_gid_filters o)
    (op_pid_filters o) (op_app_metadata o).
Definition set_str (o : options) (m : smember) (v : bytes) : options :=
  Options (op_int o) (fun m' => if decide (m' = m) then v else op_str o m') (op_accept_filters o) (op_uid_filters o) (op_gid_filters o)
    (op_pid_filters o) (op_app_metadata o).
Definition set_accept_filters (o : options) (l : list Z) : options :=
  Options (op_int o) (op_str o) l (op_uid_filters o) (op_gid_filters o) (op_pid_filters o) (op_app_metadata o).
Definition set_ipc_filters (o : options) (u g p : gset Z) : options :=
  Options (op_int o) (op_str o) (op_accept_filters o) u g p (op_app_metadata o).
Definition set_app_metadata (o : options) (m : gmap (list Z) (list Z)) : options :=
  Options (op_int o) (op_str o) (op_accept_filters o) (op_uid_filters o) (op_gid_filters o) (op_pid_filters o) m.

Definition default_int (m : imember) : Z :=
  match m with
  | m_sndhwm | m_rcvhwm => 1000
  | m_rate | m_reconnect_ivl | m_backlog => 100
  | m_recovery_ivl => 10000
  | m_multicast_hops | m_multicast_loop => 1
  | m_multicast_maxtpdu => 1500
  | m_sndbuf | m_rcvbuf | m_type | m_linger | m_maxmsgsize | m_rcvtimeo | m_sndtimeo | m_tcp_keepalive | m_tcp_keepalive_cnt | m_tcp_keepalive_idle
  | m_tcp_keepalive_intvl | m_heartbeat_timeout | m_use_fd => -1
  | m_handshake_ivl => 30000
  | m_in_batch_size | m_out_batch_size => 8192
  | _ => 0
  end.

Definition CURVE_KEYSIZE : nat := 32.
Definition CURVE_KEYSIZE_Z85 : nat := 40.

Definition default_str (m : smember) : bytes :=
  match m with s_curve_public_key | s_curve_secret_key | s_curve_server_key => replicate CURVE_KEYSIZE 0 | _ => [] end.

Definition options_new : options := Options default_int default_str [] ∅ ∅ ∅ ∅.

(** How the library is built. *)
Record build := Build { b_curve : bool; b_gssapi : bool; b_peercred : bool; b_draft : bool; b_wss : bool }.

(** ** Values in memory *)

Fixpoint le_value (bs : bytes) : Z := match bs with [] => 0 | b :: bs' => b + 256 * le_value bs' end.
Fixpoint le_bytes (n : nat) (v : Z) : bytes := match n with O => [] | S n' => v mod 256 :: le_bytes n' (v / 256) end.

Definition sizeof_int : nat := 4.
Definition sizeof_64 : nat := 8.
Definition int_value (bs : bytes) : Z := i32 (le_value bs).
Definition int64_value (bs : bytes) : Z := (le_value bs + 9223372036854775808) mod 18446744073709551616 - 9223372036854775808.
Definition int_bytes (v : Z) : bytes := le_bytes 4 (u32 v).

(** The string up to its terminator; [None] when there is none in the memory passed. *)
Fixpoint c_str (bs : bytes) : option bytes :=
  match bs with
  | [] => None
  | c :: bs' => if c =? 0 then Some [] else let* s := c_str bs' in Some (c :: s)
  end.

(** ** Setting: the checks options have in common

    The result of a setter, [true] for 0 and [false] for EINVAL. *)

Abbreviation set_result := (option (options * bool)).

Definition accepted (o : options) : set_result := Some (o, true).
Definition refused (o : options) : set_result := Some (o, false).

(** [do_setsockopt] for a type of this size: the value, if the length is right. *)
Definition do_setsockopt (size : nat) (optval : option bytes) : option bytes :=
  let bs := default [] optval in if (length bs =? size)%nat then Some bs else None.

Definition do_setsockopt_int_as_bool_strict (optval : option bytes) : option Z :=
  let* bs := do_setsockopt sizeof_int optval in
  let v := int_value bs in
  if (v =? 0) || (v =? 1) then Some v else None.

Definition do_setsockopt_int_as_bool_relaxed (optval : option bytes) : option Z :=
  let* bs := do_setsockopt sizeof_int optval in Some (if int_value bs =? 0 then 0 else 1).

Definition do_setsockopt_string_allow_empty_strict (optval : option bytes) (max_len : option nat) : option bytes :=
  match optval with
  | None => Some []
  | Some bs =>
      if (0 <? length bs)%nat && match max_len with Some n => (length bs <=? n)%nat | None => true end then Some bs else None
  end.

Definition do_setsockopt_string_allow_empty_relaxed (optval : option bytes) (max_len : nat) : option bytes :=
  let bs := default [] optval in
  if (0 <? length bs)%nat && (length bs <=? max_len)%nat then Some bs else None.

(** [do_setsockopt_set]: of four-byte ids, unsigned ([uid_t], [gid_t]) or signed ([pid_t]). *)
Definition do_setsockopt_set (id : bytes -> Z) (optval : option bytes) (s : gset Z) : option (gset Z) :=
  match optval with
  | None => Some ∅
  | Some bs => if (length bs =? sizeof_int)%nat then Some ({[id bs]} ∪ s) else None
  end.

(** A member that is set when the check succeeds. *)
Definition store_int (o : options) (m : imember) (v : option Z) : set_result :=
  match v with Some v => accepted (set_int o m v) | None => refused o end.
Definition store_str (o : options) (m : smember) (v : option bytes) : set_result :=
  match v with Some v => accepted (set_str o m v) | None => refused o end.

Definition ZMQ_NULL : Z := 0.
Definition ZMQ_PLAIN : Z := 1.
Definition ZMQ_CURVE : Z := 2.
Definition ZMQ_GSSAPI : Z := 3.

(** ** Keys *)

(** What [zmq_z85_decode] leaves in the destination, also when it fails. *)
Fixpoint z85_written (string : bytes) (char_nbr value : Z) : bytes :=
  match string with
  | [] => []
  | c :: string' =>
      if c =? 0 then []
      else if 4294967295 / 85 <? value then []
      else
        let value := u32 (value * 85) in
        let index := u8 (c - 32) in
        let char_nbr := u32 (char_nbr + 1) in
        if 96 <=? index then []
        else
          let summand := default 0xFF (z85_decoder !! Z.to_nat index) in
          if (summand =? 0xFF) || (4294967295 - value <? summand) then []
          else
            let value := u32 (value + summand) in
            if char_nbr mod 5 =? 0 then default [] (z85_bytes 4 value (256 * 256 * 256)) ++ z85_written string' char_nbr 0
            else z85_written string' char_nbr value
  end.

(** The key after decoding, and whether it was valid; [None] when the string is longer than the key has room for. *)
Definition decode_key (key string : bytes) : option (bytes * bool) :=
  let out := z85_written string 0 0 in
  if (CURVE_KEYSIZE <? length out)%nat then None
  else
    let* r := zmq_z85_decode string in
    Some (out ++ drop (length out) key, bool_decide (is_Some r)).

Definition set_curve_key (o : options) (m : smember) (optval : bytes) : set_result :=
  let store (r : option (bytes * bool)) : set_result :=
    let* (key, ok) := r in
    let o := set_str o m key in
    if (ok : bool) then accepted (set_int o m_mechanism ZMQ_CURVE) else refused o in
  if (length optval =? CURVE_KEYSIZE)%nat then store (Some (optval, true))
  else if (length optval =? CURVE_KEYSIZE_Z85 + 1)%nat then let* s := c_str optval in store (decode_key (op_str o m) s)
  else if (length optval =? CURVE_KEYSIZE_Z85)%nat then
    let* s := c_str (optval ++ [0]) in store (decode_key (op_str o m) s)
  else refused o.

(** ** Metadata of the application: a name that begins with X-, a colon, a value *)

Fixpoint split_colon (s : bytes) : option (bytes * bytes) :=
  match s with
  | [] => None
  | c :: s' => if c =? 58 then Some ([], s') else let* (k, v) := split_colon s' in Some (c :: k, v)
  end.

Definition set_metadata (o : options) (optval : option bytes) : set_result :=
  let bs := default [] optval in
  if (0 <? length bs)%nat && negb (length bs =? sizeof_int)%nat then
    let* s := c_str bs in
    match split_colon s with
    | Some (key, val) =>
        if negb (bool_decide (key = [])) && negb (bool_decide (val = [])) && bool_decide (take 2 key = [88; 45]) && (length key <=? 255)%nat
        then accepted (match op_app_metadata o !! key with
                       | Some _ => o
                       | None => set_app_metadata o (<[key := val]> (op_app_metadata o))
                       end)
        else refused o
    | None => refused o
    end
  else refused o.

(** ** [setsockopt] *)

Section setsockopt.
Variable resolve : bytes -> bool -> option Z.    (** [tcp_address_mask_t::resolve] *)

Definition deciseconds_per_millisecond : Z := 100.

Definition setsockopt (b : build) (o : options) (option_ : Z) (optval : option bytes) : set_result :=
  let bs := default [] optval in
  let is_int := (length bs =? sizeof_int)%nat in
  let value := if is_int then int_value bs else 0 in
  let int_if (m : imember) (cond : bool) : set_result := if is_int && cond then accepted (set_int o m value) else refused o in
  let name (m : smember) : set_result :=
    match optval with
    | None => accepted (set_int o m_mechanism ZMQ_NULL)
    | Some bs =>
        if (0 <? length bs)%nat && (length bs <=? 255)%nat
        then accepted (set_int (set_int (set_str o m bs) m_as_server 0) m_mechanism ZMQ_PLAIN) else refused o
    end in
  match sockopt_of option_ with
  | Some SO_SNDHWM => int_if m_sndhwm (0 <=? value)
  | Some SO_RCVHWM => int_if m_rcvhwm (0 <=? value)
  | Some SO_AFFINITY => store_int o m_affinity (le_value <$> do_setsockopt sizeof_64 optval)
  | Some SO_ROUTING_ID => store_str o s_routing_id (if (0 <? length bs)%nat && (length bs <=? 255)%nat then Some bs else None)
  | Some SO_RATE => int_if m_rate (0 <? value)
  | Some SO_RECOVERY_IVL => int_if m_recovery_ivl (0 <=? value)
  | Some SO_SNDBUF => int_if m_sndbuf (-1 <=? value)
  | Some SO_RCVBUF => int_if m_rcvbuf (-1 <=? value)
  | Some SO_TOS => int_if m_tos (0 <=? value)
  | Some SO_LINGER => int_if m_linger (-1 <=? value)
  | Some SO_CONNECT_TIMEOUT => int_if m_connect_timeout (0 <=? value)
  | Some SO_TCP_MAXRT => int_if m_tcp_maxrt (0 <=? value)
  | Some SO_RECONNECT_IVL => int_if m_reconnect_ivl (-1 <=? value)
  | Some SO_RECONNECT_IVL_MAX => int_if m_reconnect_ivl_max (0 <=? value)
  | Some SO_BACKLOG => int_if m_backlog (0 <=? value)
  | Some SO_MAXMSGSIZE => store_int o m_maxmsgsize (int64_value <$> do_setsockopt sizeof_64 optval)
  | Some SO_MULTICAST_HOPS => int_if m_multicast_hops (0 <? value)
  | Some SO_MULTICAST_MAXTPDU => int_if m_multicast_maxtpdu (0 <? value)
  | Some SO_RCVTIMEO => int_if m_rcvtimeo (-1 <=? value)
  | Some SO_SNDTIMEO => int_if m_sndtimeo (-1 <=? value)
  | Some SO_IPV4ONLY => store_int o m_ipv6 ((fun v => 1 - v) <$> do_setsockopt_int_as_bool_strict optval)
  | Some SO_IPV6 => store_int o m_ipv6 (do_setsockopt_int_as_bool_strict optval)
  | Some SO_SOCKS_PROXY => store_str o s_socks_proxy_address (do_setsockopt_string_allow_empty_strict optval None)
  | Some SO_SOCKS_USERNAME =>
      if bool_decide (bs = []) then accepted (set_str o s_socks_proxy_username [])
      else store_str o s_socks_proxy_username (do_setsockopt_string_allow_empty_strict optval (Some 255%nat))
  | Some SO_SOCKS_PASSWORD =>
      if bool_decide (bs = []) then accepted (set_str o s_socks_proxy_password [])
      else store_str o s_socks_proxy_password (do_setsockopt_string_allow_empty_strict optval (Some 255%nat))
  | Some SO_TCP_KEEPALIVE => int_if m_tcp_keepalive ((value =? -1) || (value =? 0) || (value =? 1))
  | Some SO_TCP_KEEPALIVE_CNT => int_if m_tcp_keepalive_cnt ((value =? -1) || (0 <=? value))
  | Some SO_TCP_KEEPALIVE_IDLE => int_if m_tcp_keepalive_idle ((value =? -1) || (0 <=? value))
  | Some SO_TCP_KEEPALIVE_INTVL => int_if m_tcp_keepalive_intvl ((value =? -1) || (0 <=? value))
  | Some SO_IMMEDIATE => int_if m_immediate ((value =? 0) || (value =? 1))
  | Some SO_TCP_ACCEPT_FILTER =>
      match do_setsockopt_string_allow_empty_strict optval (Some 255%nat) with
      | None => refused o
      | Some [] => accepted (set_accept_filters o [])
      | Some s => match resolve s (op_int o m_ipv6 =? 1) with
                  | Some mask => accepted (set_accept_filters o (op_accept_filters o ++ [mask]))
                  | None => refused o
                  end
      end
  | Some SO_IPC_FILTER_UID =>
      match (if b_peercred b then do_setsockopt_set le_value optval (op_uid_filters o) else None) with
      | Some s => accepted (set_ipc_filters o s (op_gid_filters o) (op_pid_filters o)) | None => refused o end
  | Some SO_IPC_FILTER_GID =>
      match (if b_peercred b then do_setsockopt_set le_value optval (op_gid_filters o) else None) with
      | Some s => accepted (set_ipc_filters o (op_uid_filters o) s (op_pid_filters o)) | None => refused o end
  | Some SO_IPC_FILTER_PID =>
      match (if b_peercred b then do_setsockopt_set int_value optval (op_pid_filters o) else None) with
      | Some s => accepted (set_ipc_filters o (op_uid_filters o) (op_gid_filters o) s) | None => refused o end
  | Some SO_PLAIN_SERVER =>
      if is_int && ((value =? 0) || (value =? 1))
      then accepted (set_int (set_int o m_as_server value) m_mechanism (if value =? 0 then ZMQ_NULL else ZMQ_PLAIN)) else refused o
  | Some SO_PLAIN_USERNAME => name s_plain_username
  | Some SO_PLAIN_PASSWORD => name s_plain_password
  | Some SO_ZAP_DOMAIN => store_str o s_zap_domain (do_setsockopt_string_allow_empty_relaxed optval 255%nat)
  | Some SO_CURVE_SERVER =>
      if b_curve b && is_int && ((value =? 0) || (value =? 1))
      then accepted (set_int (set_int o m_as_server value) m_mechanism (if value =? 0 then ZMQ_NULL else ZMQ_CURVE)) else refused o
  | Some SO_CURVE_PUBLICKEY => if b_curve b then set_curve_key o s_curve_public_key bs else refused o
  | Some SO_CURVE_SECRETKEY => if b_curve b then set_curve_key o s_curve_secret_key bs else refused o
  | Some SO_CURVE_SERVERKEY =>
      if b_curve b then
        let* (o', ok) := set_curve_key o s_curve_server_key bs in
        if (ok : bool) then accepted (set_int o' m_as_server 0) else refused o'
      else refused o
  | Some SO_CONFLATE => store_int o m_conflate (do_setsockopt_int_as_bool_strict optval)
  | Some SO_GSSAPI_SERVER =>
      if b_gssapi b && is_int && ((value =? 0) || (value =? 1))
      then accepted (set_int (set_int o m_as_server value) m_mechanism ZMQ_GSSAPI) else refused o
  | Some SO_GSSAPI_PRINCIPAL =>
      if b_gssapi b && (0 <? length bs)%nat && (length bs <=? 255)%nat
      then accepted (set_int (set_str o s_gss_principal bs) m_mechanism ZMQ_GSSAPI) else refused o
  | Some SO_GSSAPI_SERVICE_PRINCIPAL =>
      if b_gssapi b && (0 <? length bs)%nat && (length bs <=? 255)%nat
      then accepted (set_int (set_int (set_str o s_gss_service_principal bs) m_mechanism ZMQ_GSSAPI) m_as_server 0) else refused o
  | Some SO_GSSAPI_PLAINTEXT => store_int o m_gss_plaintext (if b_gssapi b then do_setsockopt_int_as_bool_strict optval else None)
  | Some SO_GSSAPI_PRINCIPAL_NAMETYPE => int_if m_gss_principal_nt (b_gssapi b && ((value =? 0) || (value =? 1) || (value =? 2)))
  | Some SO_GSSAPI_SERVICE_PRINCIPAL_NAMETYPE => int_if m_gss_service_principal_nt (b_gssapi b && ((value =? 0) || (value =? 1) || (value =? 2)))
  | Some SO_HANDSHAKE_IVL => int_if m_handshake_ivl (0 <=? value)
  | Some SO_INVERT_MATCHING => store_int o m_invert_matching (do_setsockopt_int_as_bool_relaxed optval)
  | Some SO_HEARTBEAT_IVL => int_if m_heartbeat_interval (0 <=? value)
  | Some SO_HEARTBEAT_TTL =>
      let value := Z.quot value deciseconds_per_millisecond in
      if is_int && (0 <=? value) && (value <=? 65535) then accepted (set_int o m_heartbeat_ttl (u16 value)) else refused o
  | Some SO_HEARTBEAT_TIMEOUT => int_if m_heartbeat_timeout (0 <=? value)
  | Some SO_USE_FD => int_if m_use_fd (-1 <=? value)
  | Some SO_BINDTODEVICE => store_str o s_bound_device (do_setsockopt_string_allow_empty_strict optval (Some 16%nat))
  | Some SO_ZAP_ENFORCE_DOMAIN => store_int o m_zap_enforce_domain (do_setsockopt_int_as_bool_relaxed optval)
  | Some SO_LOOPBACK_FASTPATH => store_int o m_loopback_fastpath (do_setsockopt_int_as_bool_relaxed optval)
  | Some SO_METADATA => set_metadata o optval
  | Some SO_MULTICAST_LOOP => store_int o m_multicast_loop (do_setsockopt_int_as_bool_relaxed optval)
  | Some SO_IN_BATCH_SIZE => int_if m_in_batch_size (b_draft b && (0 <? value))
  | Some SO_OUT_BATCH_SIZE => int_if m_out_batch_size (b_draft b && (0 <? value))
  | Some SO_WSS_KEY_PEM => if b_draft b && b_wss b then accepted (set_str o s_wss_key_pem bs) else refused o
  | Some SO_WSS_CERT_PEM => if b_draft b && b_wss b then accepted (set_str o s_wss_cert_pem bs) else refused o
  | Some SO_WSS_TRUST_PEM => if b_draft b && b_wss b then accepted (set_str o s_wss_trust_pem bs) else refused o
  | Some SO_WSS_HOSTNAME => if b_draft b && b_wss b then accepted (set_str o s_wss_hostname bs) else refused o
  | Some SO_WSS_TRUST_SYSTEM => store_int o m_wss_trust_system (if b_draft b && b_wss b then do_setsockopt_int_as_bool_strict optval else None)
  | Some SO_TYPE | Some SO_MECHANISM | Some SO_ROUTER_NOTIFY | None => refused o
  end.

End setsockopt.

(** ** [getsockopt]

    The caller passes memory of [*optvallen_] bytes; the result is what
    the memory holds, the new length and whether the call succeeds.  The
    outer [option] is the assertion in [zmq_z85_encode]. *)

Abbreviation get_result := (option (bytes * nat * bool)).

Definition einval (mem : bytes) : get_result := Some (mem, length mem, false).

Definition do_getsockopt (mem value : bytes) : get_result :=
  if (length mem <? length value)%nat then einval mem
  else Some (value ++ replicate (length mem - length value) 0, length value, true).

(** The overload on strings: with the terminator of [c_str]. *)
Definition do_getsockopt_string (mem value : bytes) : get_result := do_getsockopt mem (value ++ [0]).

Definition do_getsockopt_curve_key (mem key : bytes) : get_result :=
  if (length mem =? CURVE_KEYSIZE)%nat then Some (key, CURVE_KEYSIZE, true)
  else if (length mem =? CURVE_KEYSIZE_Z85 + 1)%nat then
    let* r := zmq_z85_encode key in
    match r with
    | Some s => Some (s ++ [0], (CURVE_KEYSIZE_Z85 + 1)%nat, true)
    | None => Some (mem, (CURVE_KEYSIZE_Z85 + 1)%nat, true)
    end
  else einval mem.

Definition getsockopt (b : build) (o : options) (option_ : Z) (mem : bytes) : get_result :=
  let sized (n : nat) (v : Z) : get_result := if (length mem =? n)%nat then Some (le_bytes n v, n, true) else einval mem in
  let int_ (v : Z) : get_result := sized sizeof_int (u32 v) in
  let get (m : imember) : get_result := int_ (op_int o m) in
  let server (mechanism : Z) : get_result :=
    int_ (if negb (op_int o m_as_server =? 0) && (op_int o m_mechanism =? mechanism) then 1 else 0) in
  let str (m : smember) : get_result := do_getsockopt_string mem (op_str o m) in
  let key (m : smember) : get_result := if b_curve b then do_getsockopt_curve_key mem (op_str o m) else einval mem in
  let gss (r : get_result) : get_result := if b_gssapi b then r else einval mem in
  let draft (r : get_result) : get_result := if b_draft b then r else einval mem in
  match sockopt_of option_ with
  | Some SO_SNDHWM => get m_sndhwm
  | Some SO_RCVHWM => get m_rcvhwm
  | Some SO_AFFINITY => sized sizeof_64 (op_int o m_affinity)
  | Some SO_ROUTING_ID => do_getsockopt mem (op_str o s_routing_id)
  | Some SO_RATE => get m_rate
  | Some SO_RECOVERY_IVL => get m_recovery_ivl
  | Some SO_SNDBUF => get m_sndbuf
  | Some SO_RCVBUF => get m_rcvbuf
  | Some SO_TOS => get m_tos
  | Some SO_TYPE => get m_type
  | Some SO_LINGER => get m_linger
  | Some SO_CONNECT_TIMEOUT => get m_connect_timeout
  | Some SO_TCP_MAXRT => get m_tcp_maxrt
  | Some SO_RECONNECT_IVL => get m_reconnect_ivl
  | Some SO_RECONNECT_IVL_MAX => get m_reconnect_ivl_max
  | Some SO_BACKLOG => get m_backlog
  | Some SO_MAXMSGSIZE => sized sizeof_64 (op_int o m_maxmsgsize mod 18446744073709551616)
  | Some SO_MULTICAST_HOPS => get m_multicast_hops
  | Some SO_MULTICAST_MAXTPDU => get m_multicast_maxtpdu
  | Some SO_RCVTIMEO => get m_rcvtimeo
  | Some SO_SNDTIMEO => get m_sndtimeo
  | Some SO_IPV4ONLY => int_ (1 - op_int o m_ipv6)
  | Some SO_IPV6 => get m_ipv6
  | Some SO_IMMEDIATE => get m_immediate
  | Some SO_SOCKS_PROXY => str s_socks_proxy_address
  | Some SO_SOCKS_USERNAME => str s_socks_proxy_username
  | Some SO_SOCKS_PASSWORD => str s_socks_proxy_password
  | Some SO_TCP_KEEPALIVE => get m_tcp_keepalive
  | Some SO_TCP_KEEPALIVE_CNT => get m_tcp_keepalive_cnt
  | Some SO_TCP_KEEPALIVE_IDLE => get m_tcp_keepalive_idle
  | Some SO_TCP_KEEPALIVE_INTVL => get m_tcp_keepalive_intvl
  | Some SO_MECHANISM => get m_mechanism
  | Some SO_PLAIN_SERVER => server ZMQ_PLAIN
  | Some SO_PLAIN_USERNAME => str s_plain_username
  | Some SO_PLAIN_PASSWORD => str s_plain_password
  | Some SO_ZAP_DOMAIN => str s_zap_domain
  | Some SO_CURVE_SERVER => if b_curve b then server ZMQ_CURVE else einval mem
  | Some SO_CURVE_PUBLICKEY => key s_curve_public_key
  | Some SO_CURVE_SECRETKEY => key s_curve_secret_key
  | Some SO_CURVE_SERVERKEY => key s_curve_server_key
  | Some SO_CONFLATE => get m_conflate
  | Some SO_GSSAPI_SERVER => gss (server ZMQ_GSSAPI)
  | Some SO_GSSAPI_PRINCIPAL => gss (str s_gss_principal)
  | Some SO_GSSAPI_SERVICE_PRINCIPAL => gss (str s_gss_service_principal)
  | Some SO_GSSAPI_PLAINTEXT => gss (get m_gss_plaintext)
  | Some SO_GSSAPI_PRINCIPAL_NAMETYPE => gss (get m_gss_principal_nt)
  | Some SO_GSSAPI_SERVICE_PRINCIPAL_NAMETYPE => gss (get m_gss_service_principal_nt)
  | Some SO_HANDSHAKE_IVL => get m_handshake_ivl
  | Some SO_INVERT_MATCHING => get m_invert_matching
  | Some SO_HEARTBEAT_IVL => get m_heartbeat_interval
  | Some SO_HEARTBEAT_TTL => int_ (op_int o m_heartbeat_ttl * 100)
  | Some SO_HEARTBEAT_TIMEOUT => get m_heartbeat_timeout
  | Some SO_USE_FD => get m_use_fd
  | Some SO_BINDTODEVICE => str s_bound_device
  | Some SO_ZAP_ENFORCE_DOMAIN => get m_zap_enforce_domain
  | Some SO_LOOPBACK_FASTPATH => get m_loopback_fastpath
  | Some SO_MULTICAST_LOOP => get m_multicast_loop
  | Some SO_ROUTER_NOTIFY => draft (get m_router_notify)
  | Some SO_IN_BATCH_SIZE => draft (get m_in_batch_size)
  | Some SO_OUT_BATCH_SIZE => draft (get m_out_batch_size)
  | Some SO_TCP_ACCEPT_FILTER | Some SO_IPC_FILTER_UID | Some SO_IPC_FILTER_GID | Some SO_IPC_FILTER_PID | Some SO_METADATA
  | Some SO_WSS_KEY_PEM | Some SO_WSS_CERT_PEM | Some SO_WSS_TRUST_PEM | Some SO_WSS_HOSTNAME | Some SO_WSS_TRUST_SYSTEM | None => einval mem
  end.
