(* ===== verification/OptionsProps.v ===== *)
(** * Socket options: the invariant, refusals and read-back

    What [setsockopt] keeps true of the members of [options_t]
    ([options_ok]), that a refused call changes nothing, except a CURVE
    key it half decoded, when the call reads past the memory it is given,
    and that [getsockopt] reads back what [setsockopt] stored and nothing
    else changed. *)

From Stdlib Require Import Bool List.
From S2P Require Import Prelude Z85 Options.

#[local] Ltac Zify.zify_post_hook ::= Z.div_mod_to_equations.

Ltac len_prop :=
  bool_prop;
  repeat match goal with
    | H : (_ =? _)%nat = true |- _ => apply Nat.eqb_eq in H
    | H : (_ =? _)%nat = false |- _ => apply Nat.eqb_neq in H
    | H : (_ <? _)%nat = true |- _ => apply Nat.ltb_lt in H
    | H : (_ <=? _)%nat = true |- _ => apply Nat.leb_le in H
    end.

(** ** The invariant *)

Definition INT_MAX : Z := 2147483647.

(** The range of an integer member. *)
Definition imember_range (m : imember) : Z * Z :=
  match m with
  | m_sndhwm | m_rcvhwm | m_recovery_ivl | m_tos | m_connect_timeout | m_tcp_maxrt | m_reconnect_ivl_max | m_backlog | m_handshake_ivl
  | m_heartbeat_interval => (0, INT_MAX)
  | m_rate | m_multicast_hops | m_multicast_maxtpdu | m_in_batch_size | m_out_batch_size => (1, INT_MAX)
  | m_sndbuf | m_rcvbuf | m_linger | m_reconnect_ivl | m_rcvtimeo | m_sndtimeo | m_tcp_keepalive_cnt | m_tcp_keepalive_idle
  | m_tcp_keepalive_intvl | m_heartbeat_timeout | m_use_fd | m_type | m_router_notify => (-1, INT_MAX)
  | m_tcp_keepalive => (-1, 1)
  | m_ipv6 | m_immediate | m_invert_matching | m_as_server | m_gss_plaintext | m_conflate | m_zap_enforce_domain | m_loopback_fastpath
  | m_multicast_loop | m_wss_trust_system | m_recv_routing_id => (0, 1)
  | m_gss_principal_nt | m_gss_service_principal_nt => (0, 2)
  | m_mechanism => (0, 3)
  | m_heartbeat_ttl => (0, 65535)
  | m_affinity => (0, 18446744073709551615)
  | m_maxmsgsize => (-9223372036854775808, 9223372036854775807)
  end.

Definition imember_ok (m : imember) (v : Z) : Prop := fst (imember_range m) <= v <= snd (imember_range m).

(** The lengths of a string member. *)
Definition smember_ok (m : smember) (v : bytes) : Prop :=
  bytes_ok v /\
  match m with
  | s_curve_public_key | s_curve_secret_key | s_curve_server_key => length v = CURVE_KEYSIZE
  | s_bound_device => (length v <= 16)%nat
  | s_socks_proxy_address | s_wss_key_pem | s_wss_cert_pem | s_wss_trust_pem | s_wss_hostname => True
  | _ => (length v <= 255)%nat
  end.

(** Names of metadata begin with X- and their length fits a byte, values are
    not empty, and neither holds a terminator. *)
Definition metadata_ok (key val : bytes) : Prop :=
  take 2 key = [88; 45] /\ (length key <= 255)%nat /\ val <> [] /\ Forall (fun c => is_u8 c /\ c <> 0) (key ++ 58 :: val).

Record options_ok (o : options) : Prop := {
  ok_int m : imember_ok m (op_int o m);
  ok_str m : smember_ok m (op_str o m);
  ok_metadata : map_Forall metadata_ok (op_app_metadata o);
}.

Lemma options_new_ok : options_ok options_new.
Proof.
  split.
  - intros []; unfold imember_ok; simpl; unfold INT_MAX; lia.
  - intros []; split; simpl; try (lia || done); repeat constructor; unfold is_u8; lia.
  - apply map_Forall_empty.
Qed.

Lemma set_int_ok o m v : options_ok o -> imember_ok m v -> options_ok (set_int o m v).
Proof. intros [Hi Hs Hm] Hv. split; simpl; [|done..]. intros m'. case_decide; [by subst|done]. Qed.

Lemma set_str_ok o m v : options_ok o -> smember_ok m v -> options_ok (set_str o m v).
Proof. intros [Hi Hs Hm] Hv. split; simpl; [done| |done]. intros m'. case_decide; [by subst|done]. Qed.

Lemma set_accept_filters_ok o l : options_ok o -> options_ok (set_accept_filters o l).
Proof. by intros [? ? ?]. Qed.

Lemma set_ipc_filters_ok o u g p : options_ok o -> options_ok (set_ipc_filters o u g p).
Proof. by intros [? ? ?]. Qed.

Lemma set_app_metadata_ok o key val : options_ok o -> metadata_ok key val -> options_ok (set_app_metadata o (<[key := val]> (op_app_metadata o))).
Proof. intros [? ? ?] ?. split; simpl; [done..|]. by apply map_Forall_insert_2. Qed.

Create HintDb options.
#[export] Hint Resolve set_int_ok set_str_ok set_accept_filters_ok set_ipc_filters_ok set_app_metadata_ok : options.

(** ** Values *)

Lemma le_value_range bs : bytes_ok bs -> 0 <= le_value bs < 256 ^ Z.of_nat (length bs).
Proof.
  induction 1 as [|b bs Hb _ IH]; [simpl; lia|]. unfold is_u8 in Hb. cbn [le_value length].
  rewrite Nat2Z.inj_succ, Z.pow_succ_r by lia. lia.
Qed.

Lemma le_bytes_value bs : bytes_ok bs -> le_bytes (length bs) (le_value bs) = bs.
Proof.
  induction 1 as [|b bs Hb _ IH]; [done|]. unfold is_u8 in Hb. cbn [le_value length le_bytes].
  f_equal; [lia|]. by replace ((b + 256 * le_value bs) / 256) with (le_value bs) by lia.
Qed.

Lemma int_value_range bs : -2147483648 <= int_value bs <= INT_MAX.
Proof. unfold int_value, i32, INT_MAX. lia. Qed.

Lemma int_value_bytes bs : bytes_ok bs -> length bs = sizeof_int -> int_bytes (int_value bs) = bs.
Proof.
  intros Hok Hl. pose proof (le_value_range bs Hok) as Hr. rewrite Hl in Hr. change (256 ^ Z.of_nat sizeof_int) with 4294967296 in Hr.
  unfold int_bytes. replace (u32 (int_value bs)) with (le_value bs) by (unfold u32, int_value, i32; lia).
  rewrite <- Hl at 1. by apply le_bytes_value.
Qed.

Lemma c_str_spec bs s : c_str bs = Some s -> exists rest, bs = s ++ 0 :: rest.
Proof.
  revert s. induction bs as [|c bs IH]; intros s; simpl; [done|]. destruct (c =? 0) eqn:E; bool_prop.
  - intros [= <-]. exists bs. by subst.
  - destruct (c_str bs) as [s'|]; [|done]. cbn. intros [= <-]. destruct (IH s' eq_refl) as [rest ->]. by exists rest.
Qed.

Lemma c_str_nonzero bs s : bytes_ok bs -> c_str bs = Some s -> Forall (fun c => is_u8 c /\ c <> 0) s.
Proof.
  revert s. induction bs as [|c bs IH]; intros s Hok; simpl; [done|]. apply Forall_cons_1 in Hok as [Hc Hok].
  destruct (c =? 0) eqn:E; bool_prop; [intros [= <-]; constructor|].
  destruct (c_str bs) as [s'|]; [|done]. cbn. intros [= <-]. constructor; [done|auto].
Qed.

(** A string is read only up to a terminator in the memory. *)
Lemma c_str_None bs : c_str bs = None <-> 0 ∉ bs.
Proof.
  induction bs as [|c bs IH]; simpl; [split; [intros _; apply not_elem_of_nil|done]|]. rewrite not_elem_of_cons.
  destruct (c =? 0) eqn:E; bool_prop; [split; [done|intros []; lia]|].
  destruct (c_str bs); cbn; split; try done.
  - intros [_ H]. by apply IH in H.
  - intros _. split; [lia|by apply IH].
Qed.

(** ** Keys *)

Lemma z85_written_length s : Forall (fun c => is_u8 c /\ c <> 0) s -> forall n v,
  0 <= n -> n + Z.of_nat (length s) < 4294967296 ->
  Z.of_nat (length (z85_written s n v)) <= 4 * ((n mod 5 + Z.of_nat (length s)) / 5).
Proof.
  induction 1 as [|c s [Hc Hc0] _ IH]; intros n v Hn Hlen; [simpl; lia|]. cbn [z85_written length] in *.
  rewrite (proj2 (Z.eqb_neq c 0)) by done.
  assert (0 <= 4 * ((n mod 5 + Z.of_nat (S (length s))) / 5)) by lia.
  destruct (_ <? v); [simpl; lia|]. destruct (96 <=? _); [simpl; lia|]. destruct (_ || _); [simpl; lia|].
  replace (u32 (n + 1)) with (n + 1) by (symmetry; apply u32_small; unfold is_u32; lia).
  destruct ((n + 1) mod 5 =? 0) eqn:E; bool_prop.
  - rewrite z85_bytes_group. cbn [default from_option]. rewrite length_app. cbn [length id].
    specialize (IH (n + 1) 0 ltac:(lia) ltac:(lia)). lia.
  - etransitivity; [apply IH; lia|]. lia.
Qed.

Lemma z85_written_bytes s n v : bytes_ok (z85_written s n v).
Proof.
  revert n v. induction s as [|c s IH]; intros n v; [constructor|]. cbn [z85_written].
  destruct (c =? 0); [constructor|]. destruct (_ <? v); [constructor|]. destruct (96 <=? _); [constructor|].
  destruct (_ || _); [constructor|]. destruct (_ =? 0); [|apply IH]. rewrite z85_bytes_group. cbn [default from_option].
  apply Forall_app. split; [|apply IH]. repeat constructor; unfold is_u8; lia.
Qed.

Lemma z85_decode_defined s : Forall (fun c => is_u8 c /\ c <> 0) s -> Z.of_nat (length s) < 2147483648 ->
  exists r, zmq_z85_decode s = Some r.
Proof.
  intros Hs Hl. unfold zmq_z85_decode.
  destruct (z85_decode_inv s 0 Hs) as [->|[(l & m & -> & Hm)|(l & Hm & Hok & ->)]]; [lia..| | |]; [by eexists| |].
  - cbn [mbind option_bind]. simpl_test. by eexists.
  - pose proof (z85_ref_length l Hm) as Hlen. rewrite z85_decode_ref by (done || lia). cbn [mbind option_bind].
    rewrite strlen_length by (eapply Forall_impl; [|exact Hs]; by intros ? []). rewrite Hlen.
    assert (negb ((0 + Z.of_nat (length l) * 5 / 4) mod 5 =? 0) = false) as -> by (apply negb_false_iff, Z.eqb_eq; lia).
    wrap_small. simpl_test. by eexists.
Qed.

(** A string of forty characters or fewer is decoded within the key. *)
Lemma decode_key_ok key s : length key = CURVE_KEYSIZE -> bytes_ok key ->
  Forall (fun c => is_u8 c /\ c <> 0) s -> (length s <= CURVE_KEYSIZE_Z85)%nat ->
  exists key' ok, decode_key key s = Some (key', ok) /\ length key' = CURVE_KEYSIZE /\ bytes_ok key'.
Proof.
  intros Hk Hb Hs Hl. unfold CURVE_KEYSIZE, CURVE_KEYSIZE_Z85 in *. pose proof (z85_written_length s Hs 0 0 ltac:(lia) ltac:(lia)) as Hw.
  unfold decode_key. destruct (z85_decode_defined s Hs ltac:(lia)) as [r Hr]. unfold CURVE_KEYSIZE.
  rewrite (proj2 (Nat.ltb_ge _ _)), Hr by lia. cbn [mbind option_bind]. eexists _, _. split_and!; [done| |].
  - rewrite length_app, length_drop. lia.
  - apply Forall_app. split; [apply z85_written_bytes|]. by apply Forall_drop.
Qed.

Definition curve_member (m : smember) : Prop := m = s_curve_public_key \/ m = s_curve_secret_key \/ m = s_curve_server_key.

Lemma curve_member_ok m v : curve_member m -> smember_ok m v <-> bytes_ok v /\ length v = CURVE_KEYSIZE.
Proof. by intros [->|[->| ->]]. Qed.

(** [set_curve_key] reads past the value only when it has 41 bytes and no
    terminator; it keeps the invariant, and refusing a value it changes the
    key at most. *)
Lemma set_curve_key_spec o m optval : options_ok o -> curve_member m -> bytes_ok optval ->
  match set_curve_key o m optval with
  | None => length optval = (CURVE_KEYSIZE_Z85 + 1)%nat /\ 0 ∉ optval
  | Some (o', true) => options_ok o' /\ exists k, o' = set_int (set_str o m k) m_mechanism ZMQ_CURVE
  | Some (o', false) => options_ok o' /\ (o' = o \/ exists k, o' = set_str o m k)
  end.
Proof.
  intros Ho Hm Hb. pose proof (ok_str _ Ho m) as Hkey. rewrite curve_member_ok in Hkey by done. destruct Hkey as [Hkb Hkl].
  assert (forall s, Forall (fun c => is_u8 c /\ c <> 0) s -> (length s <= CURVE_KEYSIZE_Z85)%nat ->
    exists key ok, decode_key (op_str o m) s = Some (key, ok) /\ options_ok (set_str o m key)) as Hdec.
  { intros s Hs Hl. destruct (decode_key_ok (op_str o m) s Hkl Hkb Hs Hl) as (key & ok & E & ? & ?).
    exists key, ok. split; [done|]. apply set_str_ok; [done|]. by apply curve_member_ok. }
  assert (forall o', options_ok o' -> options_ok (set_int o' m_mechanism ZMQ_CURVE)) as Hmech
    by (intros; apply set_int_ok; [done|]; unfold imember_ok, ZMQ_CURVE; simpl; lia).
  assert (forall r, (exists key ok, r = Some (key, ok) /\ options_ok (set_str o m key)) ->
    match (let* (key, ok) := r in if (ok : bool) then accepted (set_int (set_str o m key) m_mechanism ZMQ_CURVE) else refused (set_str o m key)) with
    | None => False
    | Some (o', true) => options_ok o' /\ exists k, o' = set_int (set_str o m k) m_mechanism ZMQ_CURVE
    | Some (o', false) => options_ok o' /\ (o' = o \/ exists k, o' = set_str o m k)
    end) as Hstore by (intros r (key & [] & -> & ?); simpl; eauto).
  unfold set_curve_key.
  destruct (length optval =? CURVE_KEYSIZE)%nat eqn:E1; len_prop.
  { apply (Hstore (Some (optval, true))). exists optval, true. split; [done|]. apply set_str_ok; [done|]. by apply curve_member_ok. }
  destruct (length optval =? CURVE_KEYSIZE_Z85 + 1)%nat eqn:E2; len_prop.
  { destruct (c_str optval) as [s|] eqn:Es; cbn [mbind option_bind]; [|by apply c_str_None in Es].
    destruct (c_str_spec _ _ Es) as [rest Er]. apply (f_equal length) in Er. rewrite length_app in Er. cbn [length] in Er.
    assert (length s <= CURVE_KEYSIZE_Z85)%nat as Hl by (unfold CURVE_KEYSIZE_Z85 in *; lia).
    specialize (Hstore _ (Hdec s (c_str_nonzero _ _ Hb Es) Hl)).
    by destruct (_ ≫= _) as [[? []]|]. }
  destruct (length optval =? CURVE_KEYSIZE_Z85)%nat eqn:E3; len_prop; [|simpl; by auto].
  destruct (c_str (optval ++ [0])) as [s|] eqn:Es; cbn [mbind option_bind].
  - assert (bytes_ok (optval ++ [0])) as Hb0 by (apply Forall_app; split; [done|]; repeat constructor; unfold is_u8; lia).
    destruct (c_str_spec _ _ Es) as [rest Er]. apply (f_equal length) in Er. rewrite !length_app in Er. cbn [length] in Er.
    assert (length s <= CURVE_KEYSIZE_Z85)%nat as Hl by (unfold CURVE_KEYSIZE_Z85 in *; lia).
    specialize (Hstore _ (Hdec s (c_str_nonzero _ _ Hb0 Es) Hl)). by destruct (_ ≫= _) as [[? []]|].
  - apply c_str_None in Es. destruct Es. apply elem_of_app. right. by apply list_elem_of_singleton.
Qed.

Lemma split_colon_spec s key val : split_colon s = Some (key, val) -> s = key ++ 58 :: val.
Proof.
  revert key. induction s as [|c s IH]; intros key; simpl; [done|]. destruct (c =? 58) eqn:E; bool_prop.
  - intros [= <- <-]. by rewrite E.
  - destruct (split_colon s) as [[k v]|]; [|done]. cbn. intros [= <- <-]. simpl. by rewrite <- (IH k eq_refl).
Qed.

Lemma set_metadata_spec o optval : options_ok o -> bytes_ok (default [] optval) ->
  match set_metadata o optval with
  | None => 0 ∉ default [] optval
  | Some (o', true) => options_ok o'
  | Some (o', false) => o' = o
  end.
Proof.
  intros Ho Hb. unfold set_metadata. destruct (_ && _); [|done].
  destruct (c_str _) as [s|] eqn:Es; cbn [mbind option_bind]; [|by apply c_str_None].
  destruct (split_colon s) as [[key val]|] eqn:Ec; [|done]. apply split_colon_spec in Ec. subst s.
  destruct (_ && _) eqn:E; [|done]. len_prop. simpl. destruct (op_app_metadata o !! key); [done|].
  apply set_app_metadata_ok; [done|]. split_and!; [by eapply bool_decide_eq_true_1|done| |by eapply c_str_nonzero].
  match goal with H : bool_decide (val = []) = false |- _ => by apply bool_decide_eq_false_1 in H end.
Qed.

(** ** Every option at once *)

Definition curve_key_of (option_ : Z) : option smember :=
  match sockopt_of option_ with
  | Some SO_CURVE_PUBLICKEY => Some s_curve_public_key
  | Some SO_CURVE_SECRETKEY => Some s_curve_secret_key
  | Some SO_CURVE_SERVERKEY => Some s_curve_server_key
  | _ => None
  end.

(** What a call may do: the specification all options share. *)
Definition set_spec (o : options) (option_ : Z) (optval : option bytes) (r : option (options * bool)) : Prop :=
  match r with
  | None => (0 ∉ default [] optval) /\
      (curve_key_of option_ <> None /\ length (default [] optval) = (CURVE_KEYSIZE_Z85 + 1)%nat \/ sockopt_of option_ = Some SO_METADATA)
  | Some (o', true) => options_ok o'
  | Some (o', false) => o' = o \/ options_ok o' /\ exists m k, curve_key_of option_ = Some m /\ o' = set_str o m k
  end.

Section spec.
Context (o : options) (option_ : Z) (optval : option bytes) (Ho : options_ok o) (Hb : bytes_ok (default [] optval)).

Lemma spec_refused : set_spec o option_ optval (refused o).
Proof. by left. Qed.

Lemma spec_accepted (o' : options) : options_ok o' -> set_spec o option_ optval (accepted o').
Proof. done. Qed.

Lemma spec_if (c : bool) (o' : options) : (c = true -> options_ok o') -> set_spec o option_ optval (if c then accepted o' else refused o).
Proof. destruct c; [simpl; auto|intros _; apply spec_refused]. Qed.

Lemma spec_store_int m v : (forall x, v = Some x -> imember_ok m x) -> set_spec o option_ optval (store_int o m v).
Proof. destruct v as [x|]; [|intros _; apply spec_refused]. intros H. simpl. apply set_int_ok; auto. Qed.

Lemma spec_store_str m v : (forall x, v = Some x -> smember_ok m x) -> set_spec o option_ optval (store_str o m v).
Proof. destruct v as [x|]; [|intros _; apply spec_refused]. intros H. simpl. apply set_str_ok; auto. Qed.

Lemma spec_curve_key m : curve_key_of option_ = Some m ->
  set_spec o option_ optval (set_curve_key o m (default [] optval)) /\
  set_spec o option_ optval
    (let* (o', ok) := set_curve_key o m (default [] optval) in if (ok : bool) then accepted (set_int o' m_as_server 0) else refused o').
Proof.
  intros Hm. assert (curve_member m) as Hc by (unfold curve_key_of, curve_member in *; destruct (sockopt_of option_) as [[]|]; naive_solver).
  pose proof (set_curve_key_spec o m (default [] optval) Ho Hc Hb) as H.
  destruct (set_curve_key o m _) as [[o' []]|]; cbn.
  - split; [tauto|]. apply set_int_ok; [tauto|]. unfold imember_ok. simpl. lia.
  - assert (o' = o \/ options_ok o' /\ exists m k, curve_key_of option_ = Some m /\ o' = set_str o m k)
      by (destruct H as [? [->|[k ->]]]; [by left|right; eauto]). by split.
  - destruct H. rewrite Hm. split; (split; [done|left; done]).
Qed.

Lemma strict_range v : do_setsockopt_int_as_bool_strict optval = Some v -> v = 0 \/ v = 1.
Proof.
  unfold do_setsockopt_int_as_bool_strict. destruct (do_setsockopt _ _); cbn [mbind option_bind]; [|done].
  destruct (_ || _) eqn:E; [|done]. intros [= <-]. len_prop. destruct E; len_prop; auto.
Qed.

Lemma relaxed_range v : do_setsockopt_int_as_bool_relaxed optval = Some v -> v = 0 \/ v = 1.
Proof.
  unfold do_setsockopt_int_as_bool_relaxed. destruct (do_setsockopt _ _); cbn [mbind option_bind]; [|done].
  intros [= <-]. destruct (_ =? 0); auto.
Qed.

Lemma do_setsockopt_bytes n v : do_setsockopt n optval = Some v -> bytes_ok v /\ length v = n.
Proof. unfold do_setsockopt. destruct (_ =? _)%nat eqn:E; [|done]. intros [= <-]. by len_prop. Qed.

Lemma strict_string max_len v : do_setsockopt_string_allow_empty_strict optval max_len = Some v ->
  bytes_ok v /\ match max_len with Some n => (length v <= n)%nat | None => True end.
Proof.
  unfold do_setsockopt_string_allow_empty_strict. destruct optval as [bs|].
  - destruct (_ && _) eqn:E; [|done]. intros [= <-]. split; [done|]. destruct max_len; len_prop; done || lia.
  - intros [= <-]. split; [constructor|]. destruct max_len; simpl; done || lia.
Qed.

Lemma relaxed_string max_len v : do_setsockopt_string_allow_empty_relaxed optval max_len = Some v ->
  bytes_ok v /\ (length v <= max_len)%nat.
Proof. unfold do_setsockopt_string_allow_empty_relaxed. destruct (_ && _) eqn:E; [|done]. intros [= <-]. by len_prop. Qed.

Lemma spec_store_64 m (f : bytes -> Z) :
  (forall bs, 0 <= le_value bs < 18446744073709551616 -> imember_ok m (f bs)) ->
  set_spec o option_ optval (store_int o m (f <$> do_setsockopt sizeof_64 optval)).
Proof.
  intros Hm. apply spec_store_int. intros x E. destruct (do_setsockopt sizeof_64 optval) as [bs|] eqn:Eb; [|done].
  apply do_setsockopt_bytes in Eb as [Hbs Hl]. pose proof (le_value_range bs Hbs) as Hr. rewrite Hl in Hr.
  injection E as <-. by apply Hm.
Qed.

Lemma spec_socks m : smember_ok m [] -> (forall v, bytes_ok v -> (length v <= 255)%nat -> smember_ok m v) ->
  set_spec o option_ optval
    (if bool_decide (default [] optval = []) then accepted (set_str o m [])
     else store_str o m (do_setsockopt_string_allow_empty_strict optval (Some 255%nat))).
Proof.
  intros H0 Hm. case_bool_decide; [by apply set_str_ok|]. apply spec_store_str. intros x E.
  apply strict_string in E as [? ?]. auto.
Qed.

Lemma spec_ipv4only : set_spec o option_ optval (store_int o m_ipv6 ((fun v => 1 - v) <$> do_setsockopt_int_as_bool_strict optval)).
Proof.
  apply spec_store_int. intros x E. destruct (do_setsockopt_int_as_bool_strict optval) as [v|] eqn:Ev; [|done].
  apply strict_range in Ev. injection E as <-. unfold imember_ok. simpl. lia.
Qed.

Lemma spec_metadata : sockopt_of option_ = Some SO_METADATA -> set_spec o option_ optval (set_metadata o optval).
Proof.
  intros Hm. pose proof (set_metadata_spec o optval Ho Hb) as H. destruct (set_metadata o optval) as [[o' []]|]; simpl; auto.
Qed.

End spec.

(** An integer option: the range is checked by the condition. *)
Ltac int_range :=
  try match goal with |- context [int_value ?bs] => pose proof (int_value_range bs) end;
  unfold imember_ok; simpl; unfold INT_MAX, ZMQ_NULL, ZMQ_PLAIN, ZMQ_CURVE, ZMQ_GSSAPI in *; repeat case_match; lia.

Ltac test_cases :=
  len_prop;
  repeat match goal with
    | H : _ \/ _ |- _ => destruct H; len_prop
    | H : (_ =? _)%nat = true |- _ => apply Nat.eqb_eq in H
    end.

Lemma setsockopt_spec resolve b o option_ optval : options_ok o -> bytes_ok (default [] optval) ->
  set_spec o option_ optval (setsockopt resolve b o option_ optval).
Proof.
  intros Ho Hb. pose proof (spec_curve_key o option_ optval Ho Hb) as Hkey. unfold curve_key_of in Hkey.
  assert (forall m v, v = 0 \/ v = 1 -> (fst (imember_range m) <= 0 /\ 1 <= snd (imember_range m)) -> imember_ok m v) as Hbool
    by (unfold imember_ok; intros; lia).
  unfold setsockopt. destruct (length (default [] optval) =? sizeof_int)%nat eqn:Elen; cbv zeta; cbn [andb];
  (destruct (sockopt_of option_) as [[]|] eqn:Eo; try apply spec_refused;
    rewrite ?andb_false_r; cbn [andb]; try apply spec_refused;
    try (apply spec_if; intros E; repeat apply set_int_ok; test_cases; try done; int_range);
    try (apply spec_store_int; [done|]; intros x E; first [apply strict_range in E | apply relaxed_range in E]; apply Hbool; [done|simpl; lia]);
    try (apply spec_store_str; [done|]; intros x E; first [apply (strict_string _ Hb) in E | apply (relaxed_string _ Hb) in E]; split; simpl in *; naive_solver)).
  all: try (destruct (b_curve b); [by apply Hkey|apply spec_refused]).
  all: try (destruct (b_gssapi b); [|apply spec_refused]; cbn [andb]).
  all: try (destruct (b_draft b && b_wss b); [|apply spec_refused]; cbn [andb]).
  all: try (apply spec_store_int; [done|]; intros x E; apply strict_range in E; apply Hbool; [done|simpl; lia]).
  all: try (by apply spec_metadata).
  all: try (apply spec_store_64; [done..|]; intros bs Hr; unfold imember_ok, int64_value; simpl; lia).
  all: try (apply spec_socks; [done..|split; [constructor|simpl; lia]|by split]).
  all: try (apply spec_if; intros E; repeat apply set_int_ok; try apply set_str_ok; test_cases; try done; try int_range; by split).
  all: try (repeat case_match; first [apply spec_refused|apply spec_accepted; by auto with options]).
  all: try (destruct optval; [apply spec_if; intros E|]; repeat apply set_int_ok; try apply set_str_ok; test_cases; try done; try int_range; by split).
  all: try (apply spec_accepted, set_str_ok; [done|split; [exact Hb|exact I]]).
  all: try (by apply spec_ipv4only).
  all: apply spec_if; intros E; apply set_int_ok; [done|]; test_cases; unfold imember_ok, u16; simpl; lia.
Qed.

(** A sequence of calls on a socket, whether or not each succeeds. *)
Fixpoint setsockopts (resolve : bytes -> bool -> option Z) (b : build) (o : options) (calls : list (Z * option bytes)) : option options :=
  match calls with
  | [] => Some o
  | (option_, optval) :: calls => let* (o, _) := setsockopt resolve b o option_ optval in setsockopts resolve b o calls
  end.

(** C38: The options of a socket are always in range: in a new socket, and
    after any accepted or refused [setsockopt] with any option number and
    value, every integer member is within the range that the rest of the
    library assumes (water marks and intervals not negative, batch sizes and
    rates positive, flags 0 or 1, the mechanism one of the four), strings
    have at most the length the protocols can carry, CURVE keys have exactly
    32 bytes and application metadata begin with X-. *)
Theorem options_in_range resolve b (calls : list (Z * option bytes)) (o' : options) :
  Forall (fun c => bytes_ok (default [] (snd c))) calls ->
  setsockopts resolve b options_new calls = Some o' ->
  (forall m, imember_ok m (op_int o' m)) /\ (forall m, smember_ok m (op_str o' m)) /\ map_Forall metadata_ok (op_app_metadata o').
Proof.
  intros Hb. assert (options_ok options_new) as Ho by apply options_new_ok. revert Ho. generalize options_new.
  induction Hb as [|[n v] calls Hv _ IH]; intros o Ho E; simpl in *; [by injection E as <-; destruct Ho|].
  pose proof (setsockopt_spec resolve b o n v Ho Hv) as Hs. destruct (setsockopt resolve b o n v) as [[o1 ok]|]; simpl in *; [|done].
  apply (IH o1); [|done]. destruct ok; [done|]. destruct Hs as [->|[? _]]; done.
Qed.

Lemma options_in_range_witness :
  let calls := [(23, Some [5; 0; 0; 0]); (5, Some [1; 2; 3]); (23, Some [255; 255; 255; 255])] in
  Forall (fun c => bytes_ok (default [] (snd c))) calls /\
  exists o', op_int o' m_sndhwm = 5 /\ imember_ok m_sndhwm (op_int o' m_sndhwm).
Proof.
  intros calls. assert (Forall (fun c : Z * option bytes => bytes_ok (default [] (snd c))) calls) as Hb
    by (repeat constructor; unfold is_u8; lia).
  split; [done|]. exists (set_str (set_int options_new m_sndhwm 5) s_routing_id [1; 2; 3]). split; [reflexivity|].
  apply (options_in_range (fun _ _ => None) (Build true true true true true) calls _ Hb). reflexivity.
Defined.

(** A refused option changes nothing. When [setsockopt] fails, every member is
    what it was, for every option number and value; the exception is the
    CURVE keys, which the text form overwrites while it decodes, and even
    then the other members and the mechanism are untouched. *)
Theorem setsockopt_refused resolve b o option_ optval o' :
  options_ok o -> bytes_ok (default [] optval) ->
  setsockopt resolve b o option_ optval = Some (o', false) ->
  o' = o \/ exists m k, curve_key_of option_ = Some m /\ o' = set_str o m k /\ length k = CURVE_KEYSIZE.
Proof.
  intros Ho Hb E. pose proof (setsockopt_spec resolve b o option_ optval Ho Hb) as H. rewrite E in H.
  destruct H as [->|(Ho' & m & k & Hm & ->)]; [by left|right]. exists m, k. split_and!; [done..|].
  pose proof (ok_str _ Ho' m) as [_ Hl]. simpl in Hl. rewrite decide_True in Hl by done.
  unfold curve_key_of in Hm. destruct (sockopt_of option_) as [[]|]; by simplify_eq.
Qed.

Lemma setsockopt_refused_witness : exists o', options_ok options_new /\
  setsockopt (fun _ _ => None) (Build true true true true true) options_new 23 (Some [255; 255; 255; 255]) = Some (o', false) /\
  (o' = options_new \/ exists m k, curve_key_of 23 = Some m /\ o' = set_str options_new m k /\ length k = CURVE_KEYSIZE).
Proof.
  exists options_new. split; [apply options_new_ok|]. split; [reflexivity|].
  apply (setsockopt_refused (fun _ _ => None) (Build true true true true true) options_new 23 (Some [255; 255; 255; 255])).
  - apply options_new_ok.
  - repeat constructor; unfold is_u8; lia.
  - reflexivity.
Defined.

(** [setsockopt] stays within the memory it is passed, and within the
    keys it writes, for every option and value but two: it reads past a
    CURVE key of 41 bytes that has no terminator, and past application
    metadata that have none. *)
Theorem setsockopt_bounds resolve b o option_ optval : options_ok o -> bytes_ok (default [] optval) ->
  setsockopt resolve b o option_ optval = None <->
  (0 ∉ default [] optval) /\
  (b_curve b = true /\ curve_key_of option_ <> None /\ length (default [] optval) = (CURVE_KEYSIZE_Z85 + 1)%nat \/
   sockopt_of option_ = Some SO_METADATA /\ length (default [] optval) <> 0%nat /\ length (default [] optval) <> sizeof_int).
Proof.
  intros Ho Hb. pose proof (setsockopt_spec resolve b o option_ optval Ho Hb) as Hs. split.
  - intros E. rewrite E in Hs. destruct Hs as [H0 Hs]. split; [done|]. unfold curve_key_of in *.
    destruct Hs as [[Hk Hl]|Hm].
    + left. split_and!; [|done..]. destruct (b_curve b) eqn:Ec; [done|]. unfold setsockopt in E. rewrite Ec in E.
      by destruct (sockopt_of option_) as [[]|].
    + right. split; [done|]. unfold setsockopt in E. rewrite Hm in E. unfold set_metadata in E.
      destruct (_ && _) eqn:Et; [|done]. len_prop. split; lia.
  - intros [H0 [(Hc & Hk & Hl)|(Hm & Hl0 & Hl4)]]; apply c_str_None in H0; unfold setsockopt.
    + assert (forall m, set_curve_key o m (default [] optval) = None) as HN.
      { intros m. unfold set_curve_key. rewrite Hl, H0. reflexivity. }
      unfold curve_key_of in Hk. destruct (sockopt_of option_) as [[]|]; try done; by rewrite Hc, HN.
    + rewrite Hm. unfold set_metadata. rewrite H0, (proj2 (Nat.ltb_lt _ _)), (proj2 (Nat.eqb_neq _ _)) by lia. done.
Qed.

Lemma setsockopt_bounds_witness :
  setsockopt (fun _ _ => None) (Build true true true true true) options_new 48 (Some (replicate 41 48)) = None /\
  (0 ∉ replicate 41 48).
Proof.
  assert (setsockopt (fun _ _ => None) (Build true true true true true) options_new 48 (Some (replicate 41 48)) = None) as E by reflexivity.
  split; [done|].
  eapply (setsockopt_bounds (fun _ _ => None) (Build true true true true true) options_new 48 (Some (replicate 41 48))).
  - apply options_new_ok.
  - repeat constructor; unfold is_u8; lia.
  - exact E.
Defined.

(** ** Reading back *)

(** The options that are a single integer member, stored as passed. *)
Definition int_option (s : sockopt) : option imember :=
  match s with
  | SO_SNDHWM => Some m_sndhwm | SO_RCVHWM => Some m_rcvhwm | SO_RATE => Some m_rate | SO_RECOVERY_IVL => Some m_recovery_ivl
  | SO_SNDBUF => Some m_sndbuf | SO_RCVBUF => Some m_rcvbuf | SO_TOS => Some m_tos | SO_LINGER => Some m_linger
  | SO_CONNECT_TIMEOUT => Some m_connect_timeout | SO_TCP_MAXRT => Some m_tcp_maxrt | SO_RECONNECT_IVL => Some m_reconnect_ivl
  | SO_RECONNECT_IVL_MAX => Some m_reconnect_ivl_max | SO_BACKLOG => Some m_backlog | SO_MULTICAST_HOPS => Some m_multicast_hops
  | SO_MULTICAST_MAXTPDU => Some m_multicast_maxtpdu | SO_RCVTIMEO => Some m_rcvtimeo | SO_SNDTIMEO => Some m_sndtimeo
  | SO_IPV6 => Some m_ipv6 | SO_TCP_KEEPALIVE => Some m_tcp_keepalive | SO_TCP_KEEPALIVE_CNT => Some m_tcp_keepalive_cnt
  | SO_TCP_KEEPALIVE_IDLE => Some m_tcp_keepalive_idle | SO_TCP_KEEPALIVE_INTVL => Some m_tcp_keepalive_intvl
  | SO_IMMEDIATE => Some m_immediate | SO_CONFLATE => Some m_conflate | SO_GSSAPI_PLAINTEXT => Some m_gss_plaintext
  | SO_GSSAPI_PRINCIPAL_NAMETYPE => Some m_gss_principal_nt | SO_GSSAPI_SERVICE_PRINCIPAL_NAMETYPE => Some m_gss_service_principal_nt
  | SO_HANDSHAKE_IVL => Some m_handshake_ivl | SO_HEARTBEAT_IVL => Some m_heartbeat_interval
  | SO_HEARTBEAT_TIMEOUT => Some m_heartbeat_timeout | SO_USE_FD => Some m_use_fd
  | SO_IN_BATCH_SIZE => Some m_in_batch_size | SO_OUT_BATCH_SIZE => Some m_out_batch_size
  | _ => None
  end.

(** The options that are a single string, with the terminator or not. *)
Definition str_option (s : sockopt) : option (smember * bool) :=
  match s with
  | SO_ROUTING_ID => Some (s_routing_id, false)
  | SO_SOCKS_PROXY => Some (s_socks_proxy_address, true) | SO_SOCKS_USERNAME => Some (s_socks_proxy_username, true)
  | SO_SOCKS_PASSWORD => Some (s_socks_proxy_password, true) | SO_ZAP_DOMAIN => Some (s_zap_domain, true)
  | SO_BINDTODEVICE => Some (s_bound_device, true)
  | _ => None
  end.

Lemma strict_int bs v : do_setsockopt_int_as_bool_strict (Some bs) = Some v -> length bs = sizeof_int /\ v = int_value bs.
Proof.
  unfold do_setsockopt_int_as_bool_strict, do_setsockopt. cbn [default from_option].
  destruct (_ =? _)%nat eqn:E; cbn [mbind option_bind id]; [|done]. destruct (_ || _); [|done]. intros [= <-]. by len_prop.
Qed.

Lemma store_int_inv o m v o' : store_int o m v = Some (o', true) -> exists x, v = Some x /\ o' = set_int o m x.
Proof. destruct v; [|done]. intros [= <-]. by eexists. Qed.

(** Whether the build has the option. *)
Definition int_option_built (b : build) (s : sockopt) : bool :=
  match s with
  | SO_GSSAPI_PLAINTEXT | SO_GSSAPI_PRINCIPAL_NAMETYPE | SO_GSSAPI_SERVICE_PRINCIPAL_NAMETYPE => b_gssapi b
  | SO_IN_BATCH_SIZE | SO_OUT_BATCH_SIZE => b_draft b
  | _ => true
  end.

Lemma setsockopt_int resolve b o option_ bs o' s m : sockopt_of option_ = Some s -> int_option s = Some m ->
  setsockopt resolve b o option_ (Some bs) = Some (o', true) ->
  int_option_built b s = true /\ length bs = sizeof_int /\ o' = set_int o m (int_value bs).
Proof.
  intros Hs Hm. unfold setsockopt. rewrite Hs. cbn [default from_option id].
  destruct (length bs =? sizeof_int)%nat eqn:El; cbv zeta; cbn [andb]; len_prop;
    destruct s; try done; simpl in Hm; injection Hm as <-; intros E; cbn [int_option_built];
    try (destruct (_ : bool) eqn:Eb in E; [|done]; injection E as <-; len_prop; by split_and!).
  all: apply store_int_inv in E as (x & E & ->).
  all: try (destruct (b_gssapi b); [|done]).
  all: apply strict_int in E as [? ->]; by split_and!.
Qed.

Lemma getsockopt_int b o option_ mem s m : sockopt_of option_ = Some s -> int_option s = Some m ->
  getsockopt b o option_ mem =
  if int_option_built b s && (length mem =? sizeof_int)%nat then Some (int_bytes (op_int o m), sizeof_int, true) else einval mem.
Proof.
  intros Hs Hm. unfold getsockopt. rewrite Hs. destruct s; try done; injection Hm as <-; try done; cbn [int_option_built].
  all: by destruct (_ b).
Qed.

Lemma setsockopt_str resolve b o option_ bs o' s m nul : sockopt_of option_ = Some s -> str_option s = Some (m, nul) -> bs <> [] ->
  setsockopt resolve b o option_ (Some bs) = Some (o', true) -> o' = set_str o m bs.
Proof.
  intros Hs Hm Hne. unfold setsockopt. rewrite Hs. cbn [default from_option id].
  destruct s; try done; simpl in Hm; injection Hm as <- <-;
    unfold do_setsockopt_string_allow_empty_strict, do_setsockopt_string_allow_empty_relaxed; cbn [default from_option id];
    rewrite ?(bool_decide_eq_false_2 (bs = [])) by done; (destruct (_ && _); [|done]); by intros [= <-].
Qed.

Lemma getsockopt_str b o option_ mem s m nul : sockopt_of option_ = Some s -> str_option s = Some (m, nul) ->
  getsockopt b o option_ mem = do_getsockopt mem (op_str o m ++ if nul then [0] else []).
Proof.
  intros Hs Hm. unfold getsockopt. rewrite Hs. destruct s; try done; injection Hm as <- <-; try done. by rewrite app_nil_r.
Qed.

Lemma int_option_inj s s' m : int_option s = Some m -> int_option s' = Some m -> s = s'.
Proof. by destruct s; intros [= <-]; destruct s'. Qed.

Lemma str_option_inj s s' m nul nul' : str_option s = Some (m, nul) -> str_option s' = Some (m, nul') -> s = s'.
Proof. by destruct s; intros [= <- <-]; destruct s'. Qed.

(** The options above are a store of independent cells. *)
Definition cell (s : sockopt) : option (imember + smember) :=
  match int_option s, str_option s with
  | Some m, _ => Some (inl m)
  | _, Some (m, _) => Some (inr m)
  | _, _ => None
  end.

(** An accepted option is read back. For the 33 options that are one
    integer and the 6 that are one string, [getsockopt] after an accepted
    [setsockopt] returns exactly the bytes that were set (followed by a
    terminator for text, and by zeros up to the size of the buffer), and
    every other one of these options reads as before. *)
Theorem options_roundtrip resolve b o option_ bs o' s c :
  bytes_ok bs -> bs <> [] -> sockopt_of option_ = Some s -> cell s = Some c ->
  setsockopt resolve b o option_ (Some bs) = Some (o', true) ->
  (forall mem, int_option s <> None -> length mem = sizeof_int -> getsockopt b o' option_ mem = Some (bs, sizeof_int, true)) /\
  (forall mem m nul, str_option s = Some (m, nul) -> (length bs < length mem)%nat ->
     exists len pad, getsockopt b o' option_ mem = Some (bs ++ replicate pad 0, len, true) /\
       len = (length bs + if nul then 1 else 0)%nat /\ length (bs ++ replicate pad 0) = length mem) /\
  (forall option_' s' c' mem, sockopt_of option_' = Some s' -> s' <> s -> cell s' = Some c' ->
     getsockopt b o' option_' mem = getsockopt b o option_' mem).
Proof.
  intros Hb Hne Hs Hc E. unfold cell in Hc. destruct (int_option s) as [m|] eqn:Hi.
  - destruct (setsockopt_int _ _ _ _ _ _ _ _ Hs Hi E) as (Hon & Hl & ->). split_and!.
    + intros mem _ Hmem. rewrite (getsockopt_int _ _ _ _ _ _ Hs Hi), Hon, Hmem. simpl. rewrite decide_True by done.
      by rewrite int_value_bytes.
    + intros mem m' nul Hstr. by destruct s.
    + intros n' s' c' mem Hs' Hd Hc'. unfold cell in Hc'. destruct (int_option s') as [m'|] eqn:Hi'.
      * rewrite !(getsockopt_int _ _ _ _ _ _ Hs' Hi'). simpl. rewrite decide_False; [done|]. intros ->. by pose proof (int_option_inj _ _ _ Hi Hi').
      * destruct (str_option s') as [[m' nul]|] eqn:Hs2; [|done]. by rewrite !(getsockopt_str _ _ _ _ _ _ _ Hs' Hs2).
  - destruct (str_option s) as [[m nul]|] eqn:Hstr; [|done].
    rewrite (setsockopt_str _ _ _ _ _ _ _ _ _ Hs Hstr Hne E). split_and!; [done| |].
    + intros mem m' nul' [= <- <-] Hlt. rewrite (getsockopt_str _ _ _ _ _ _ _ Hs Hstr). simpl. rewrite decide_True by done.
      unfold do_getsockopt. rewrite (proj2 (Nat.ltb_ge _ _)) by (rewrite length_app; destruct nul; simpl; lia).
      exists (length (bs ++ if nul then [0] else [])), (length mem - length bs)%nat. rewrite !length_app, length_replicate.
      split_and!; [|by destruct nul|lia]. do 3 f_equal. rewrite <- app_assoc. f_equal. destruct nul; simpl; [|by rewrite Nat.add_0_r].
      replace (length mem - length bs)%nat with (S (length mem - (length bs + 1))) by lia. done.
    + intros n' s' c' mem Hs' Hd Hc'. unfold cell in Hc'. destruct (int_option s') as [m'|] eqn:Hi'.
      * by rewrite !(getsockopt_int _ _ _ _ _ _ Hs' Hi').
      * destruct (str_option s') as [[m' nul']|] eqn:Hs2; [|done]. rewrite !(getsockopt_str _ _ _ _ _ _ _ Hs' Hs2). simpl.
        rewrite decide_False; [done|]. intros ->. by pose proof (str_option_inj _ _ _ _ _ Hstr Hs2).
Qed.

Lemma options_roundtrip_witness :
  setsockopt (fun _ _ => None) (Build true true true true true) options_new 23 (Some [5; 0; 0; 0]) = Some (set_int options_new m_sndhwm 5, true) /\
  getsockopt (Build true true true true true) (set_int options_new m_sndhwm 5) 23 [9; 9; 9; 9] = Some ([5; 0; 0; 0], sizeof_int, true).
Proof.
  split; [reflexivity|].
  apply (options_roundtrip (fun _ _ => None) (Build true true true true true) options_new 23 [5; 0; 0; 0] (set_int options_new m_sndhwm 5)
    SO_SNDHWM (inl m_sndhwm)); try reflexivity; try done.
  repeat constructor; unfold is_u8; lia.
Defined.

(** A time to live between -99 and -1 is accepted, as 0. *)
Theorem heartbeat_ttl_negative resolve b o v : -99 <= v <= -1 ->
  setsockopt resolve b o 76 (Some (int_bytes v)) = Some (set_int o m_heartbeat_ttl 0, true).
Proof.
  intros Hv. assert (int_value (int_bytes v) = v) as E.
  { unfold int_bytes, int_value, i32, u32. cbn [le_bytes le_value]. lia. }
  unfold setsockopt. change (sockopt_of 76) with (Some SO_HEARTBEAT_TTL). cbn [default from_option id].
  change (length (int_bytes v) =? sizeof_int)%nat with true. cbv zeta iota. rewrite E. unfold deciseconds_per_millisecond.
  replace (Z.quot v 100) with 0 by (rewrite <- (Z.opp_involutive v), Z.quot_opp_l, Z.quot_small by lia; lia). reflexivity.
Qed.

(** A key in text form that is not valid is refused but has replaced the beginning of the key. *)
Theorem curve_key_half_written resolve b : b_curve b = true ->
  exists o', setsockopt resolve b options_new 48 (Some (replicate 5 49 ++ replicate 35 34)) = Some (o', false) /\
    op_str o' s_curve_public_key <> op_str options_new s_curve_public_key.
Proof.
  intros Hc. eexists. split.
  - unfold setsockopt. change (sockopt_of 48) with (Some SO_CURVE_PUBLICKEY). rewrite Hc. cbn [default from_option id].
    unfold set_curve_key. vm_compute (length _ =? _)%nat. vm_compute (c_str _). cbn [mbind option_bind]. vm_compute (decode_key _ _).
    reflexivity.
  - done.
Qed.
