(* ===== verification/Timers.v ===== *)
(** * Timers, [timers_t] (src/src/timers.cpp, src/src/timers.hpp)

    The timers of an application: a multimap from the time a timer is due
    to the timer, and the set of cancelled ids, which [timeout] and
    [execute] purge as they pass over them.  Every node of the multimap has
    a number, so that the iterators of [execute] can be checked: a handler
    may call back into the same timers, and an iterator whose node it
    erased is undefined behaviour ([Undefined]).  The clock is read by the
    operations as the argument [now]; handlers are a parameter that gives
    the calls each makes.

    The specification is the finite map of the timers that are not
    cancelled. *)

From Stdlib Require Import Sorted.
From S2P Require Import Prelude.

Record timer := Timer {
  timer_id : Z;
  interval : Z;
  handler : Z;     (** a pointer, 0 is null *)
  arg : Z;
}.

Record tnode := TNode { tn_node : nat; tn_when : Z; tn_timer : timer }.
Abbreviation tn_id n := (timer_id (tn_timer n)).

Record timers := Timers {
  t_next_timer_id : Z;
  t_timers : list tnode;
  t_cancelled_timers : gset Z;
  t_fresh : nat;                 (** the next number of a node *)
}.

Definition timers_new : timers := Timers 0 [] ∅ 0.

(** ** The multimap *)

(** [insert] puts the node behind those with the same key. *)
Fixpoint mm_insert (l : list tnode) (n : tnode) : list tnode :=
  match l with
  | [] => [n]
  | m :: l' => if tn_when m <=? tn_when n then m :: mm_insert l' n else n :: l
  end.

Fixpoint mm_erase (l : list tnode) (i : nat) : list tnode :=
  match l with [] => [] | n :: l' => if (tn_node n =? i)%nat then l' else n :: mm_erase l' i end.

(** [find_if] with [match_by_id]. *)
Definition match_by_id (l : list tnode) (id : Z) : option tnode := List.find (fun n => tn_id n =? id) l.

(** An iterator is the number of a node, or the end. The nodes from it on. *)
Abbreviation iterator := (option nat).

Fixpoint from_node (l : list tnode) (i : nat) : option (list tnode) :=
  match l with [] => None | n :: l' => if (tn_node n =? i)%nat then Some l else from_node l' i end.

Definition mm_begin (l : list tnode) : iterator := tn_node <$> head l.

(** [erase (first, last)]; [None] when [first] is gone or [last] cannot be reached from it. *)
Definition mm_erase_range (l : list tnode) (first last : iterator) : option (list tnode) :=
  if decide (first = last) then Some l
  else
    let* i := first in
    let* s := from_node l i in
    let pre := take (length l - length s) l in
    match last with
    | None => Some pre
    | Some j => let* s' := from_node s j in Some (pre ++ s')
    end.

(** ** Operations

    The outer [option] is signed overflow of the id; -1 is the error. *)

Definition insert_timer (ts : timers) (when : Z) (t : timer) : timers :=
  Timers (t_next_timer_id ts) (mm_insert (t_timers ts) (TNode (t_fresh ts) when t)) (t_cancelled_timers ts) (S (t_fresh ts)).

Definition timers_add (ts : timers) (now interval_ handler_ arg_ : Z) : option (timers * Z) :=
  if handler_ =? 0 then Some (ts, -1)
  else
    let when := u64 (now + interval_) in
    zmq_assert (t_next_timer_id ts <? 2147483647) ;;
    let id := t_next_timer_id ts + 1 in
    let ts := Timers id (t_timers ts) (t_cancelled_timers ts) (t_fresh ts) in
    Some (insert_timer ts when (Timer id interval_ handler_ arg_), id).

Definition timers_cancel (ts : timers) (timer_id_ : Z) : timers * Z :=
  match match_by_id (t_timers ts) timer_id_ with
  | None => (ts, -1)
  | Some _ =>
      if bool_decide (timer_id_ ∈ t_cancelled_timers ts) then (ts, -1)
      else (Timers (t_next_timer_id ts) (t_timers ts) ({[timer_id_]} ∪ t_cancelled_timers ts) (t_fresh ts), 0)
  end.

Definition erase_timer (ts : timers) (i : nat) : timers :=
  Timers (t_next_timer_id ts) (mm_erase (t_timers ts) i) (t_cancelled_timers ts) (t_fresh ts).

Definition timers_set_interval (ts : timers) (now timer_id_ interval_ : Z) : timers * Z :=
  match match_by_id (t_timers ts) timer_id_ with
  | Some n =>
      let t := tn_timer n in
      let t := Timer (timer_id t) interval_ (handler t) (arg t) in
      let when := u64 (now + interval_) in
      (insert_timer (erase_timer ts (tn_node n)) when t, 0)
  | None => (ts, -1)
  end.

Definition timers_reset (ts : timers) (now timer_id_ : Z) : timers * Z :=
  match match_by_id (t_timers ts) timer_id_ with
  | Some n =>
      let t := tn_timer n in
      let when := u64 (now + interval t) in
      (insert_timer (erase_timer ts (tn_node n)) when t, 0)
  | None => (ts, -1)
  end.

(** [static_cast<long>]. *)
Definition i64 (x : Z) : Z := (x + 9223372036854775808) mod 18446744073709551616 - 9223372036854775808.

(** The loop of [timeout]: the timers left, the cancelled ids left and the result. *)
Fixpoint timeout_loop (l : list tnode) (cancelled : gset Z) (now : Z) : list tnode * gset Z * Z :=
  match l with
  | [] => ([], cancelled, -1)
  | n :: l' =>
      if bool_decide (tn_id n ∈ cancelled) then timeout_loop l' (cancelled ∖ {[tn_id n]}) now
      else (l, cancelled, Z.max (i64 (u64 (tn_when n - now))) 0)
  end.

Definition timers_timeout (ts : timers) (now : Z) : timers * Z :=
  let '(l, c, res) := timeout_loop (t_timers ts) (t_cancelled_timers ts) now in
  (Timers (t_next_timer_id ts) l c (t_fresh ts), res).

(** ** [execute] *)

(** What a handler can do to the timers. *)
Inductive tcall :=
| TC_add (now interval_ handler_ arg_ : Z)
| TC_cancel (timer_id_ : Z)
| TC_set_interval (now timer_id_ interval_ : Z)
| TC_reset (now timer_id_ : Z).

Definition tcall_run (ts : timers) (c : tcall) : option timers :=
  match c with
  | TC_add now i h a => fst <$> timers_add ts now i h a
  | TC_cancel id => Some (fst (timers_cancel ts id))
  | TC_set_interval now id i => Some (fst (timers_set_interval ts now id i))
  | TC_reset now id => Some (fst (timers_reset ts now id))
  end.

Fixpoint tcalls_run (ts : timers) (cs : list tcall) : option timers :=
  match cs with [] => Some ts | c :: cs' => let* ts := tcall_run ts c in tcalls_run ts cs' end.

Inductive exec_result :=
| Executed (ts : timers) (called : list Z)   (** the ids whose handlers ran, in order *)
| Undefined
| OutOfFuel.

Section execute.
Variable client : list Z -> timer -> list tcall.   (** what the handler does, given the handlers that ran before it *)

Definition execute_finish (ts : timers) (first it : iterator) (called : list Z) : exec_result :=
  match mm_erase_range (t_timers ts) first it with
  | Some l => Executed (Timers (t_next_timer_id ts) l (t_cancelled_timers ts) (t_fresh ts)) called
  | None => Undefined
  end.

Definition it_next (ts : timers) (i : nat) : option iterator :=
  let* s := from_node (t_timers ts) i in Some (mm_begin (tail s)).

Fixpoint execute_loop (fuel : nat) (ts : timers) (now : Z) (first it : iterator) (called : list Z) : exec_result :=
  match fuel with
  | O => OutOfFuel
  | S f =>
      match it with
      | None => execute_finish ts first it called
      | Some i =>
          match from_node (t_timers ts) i with
          | Some (n :: _) =>
              if bool_decide (tn_id n ∈ t_cancelled_timers ts) then
                let ts := Timers (t_next_timer_id ts) (t_timers ts) (t_cancelled_timers ts ∖ {[tn_id n]}) (t_fresh ts) in
                match it_next ts i with Some it => execute_loop f ts now first it called | None => Undefined end
              else if now <? tn_when n then execute_finish ts first it called
              else
                match tcalls_run ts (client called (tn_timer n)) with
                | None => Undefined
                | Some ts =>
                    match from_node (t_timers ts) i with
                    | Some (n :: _) =>
                        let ts := insert_timer ts (u64 (now + interval (tn_timer n))) (tn_timer n) in
                        match it_next ts i with
                        | Some it => execute_loop f ts now first it (called ++ [tn_id n])
                        | None => Undefined
                        end
                    | _ => Undefined
                    end
                end
          | _ => Undefined
          end
      end
  end.

Definition timers_execute (fuel : nat) (ts : timers) (now : Z) : exec_result :=
  let first := mm_begin (t_timers ts) in execute_loop fuel ts now first first [].

End execute.

(** ** The specification: the timers that are not cancelled *)

Abbreviation live_t := (gmap Z (Z * timer)).

Definition live_list (l : list tnode) (c : gset Z) : live_t :=
  list_to_map ((fun n => (tn_id n, (tn_when n, tn_timer n))) <$> filter (fun n => tn_id n ∉ c) l).

Definition live (ts : timers) : live_t := live_list (t_timers ts) (t_cancelled_timers ts).

(** The state of the specification: the timers and the last id given. *)
Abbreviation spec_t := (live_t * Z)%type.

Definition spec_add (s : spec_t) (now i h a : Z) : spec_t :=
  if h =? 0 then s else (<[s.2 + 1 := (u64 (now + i), Timer (s.2 + 1) i h a)]> s.1, s.2 + 1).
Definition spec_cancel (s : spec_t) (id : Z) : spec_t := (delete id s.1, s.2).
Definition spec_restart (f : timer -> timer) (s : spec_t) (now id : Z) : spec_t :=
  match s.1 !! id with
  | Some (_, t) => (<[id := (u64 (now + interval (f t)), f t)]> s.1, s.2)
  | None => s
  end.
Definition spec_set_interval (s : spec_t) (now id i : Z) : spec_t :=
  spec_restart (fun t => Timer (timer_id t) i (handler t) (arg t)) s now id.
Definition spec_reset (s : spec_t) (now id : Z) : spec_t := spec_restart (fun t => t) s now id.

Definition spec_call (s : spec_t) (c : tcall) : spec_t :=
  match c with
  | TC_add now i h a => spec_add s now i h a
  | TC_cancel id => spec_cancel s id
  | TC_set_interval now id i => spec_set_interval s now id i
  | TC_reset now id => spec_reset s now id
  end.

(** The handlers of the timers due, one after the other: a timer that was
    cancelled meanwhile is left out, and one that its handler did not
    cancel is due again after its interval. *)
Fixpoint spec_execute (client : list Z -> timer -> list tcall) (now : Z) (due : list Z) (s : spec_t) (called : list Z) : spec_t * list Z :=
  match due with
  | [] => (s, called)
  | id :: due' =>
      match s.1 !! id with
      | None => spec_execute client now due' s called
      | Some (_, t) =>
          let s := foldl spec_call s (client called t) in
          spec_execute client now due' (spec_reset s now id) (called ++ [id])
      end
  end.

Definition spec_of (ts : timers) : spec_t := (live ts, t_next_timer_id ts).

(** ** The multimap: lemmas *)

Abbreviation before_eq := (fun a b : tnode => tn_when a <= tn_when b).

Lemma mm_insert_perm l n : mm_insert l n ≡ₚ n :: l.
Proof.
  induction l as [|m l IH]; simpl; [done|]. destruct (_ <=? _); [|done]. rewrite IH. by apply Permutation_swap.
Qed.

Lemma mm_insert_sorted l n : StronglySorted before_eq l -> StronglySorted before_eq (mm_insert l n).
Proof.
  induction 1 as [|m l Hs IH Hm]; simpl; [repeat constructor|]. destruct (tn_when m <=? tn_when n) eqn:E; bool_prop.
  - constructor; [done|]. rewrite mm_insert_perm. by constructor.
  - constructor; [by constructor|]. constructor; [lia|]. eapply Forall_impl; [|exact Hm]. simpl. intros. lia.
Qed.

Lemma mm_insert_app pre post n : Forall (fun m => tn_when m <= tn_when n) pre -> mm_insert (pre ++ post) n = pre ++ mm_insert post n.
Proof. induction 1 as [|m pre Hm _ IH]; simpl; [done|]. rewrite (proj2 (Z.leb_le _ _)) by done. by rewrite IH. Qed.

Lemma mm_erase_split pre n post : tn_node n ∉ tn_node <$> pre -> mm_erase (pre ++ n :: post) (tn_node n) = pre ++ post.
Proof.
  induction pre as [|m pre IH]; simpl; intros Hn; [by rewrite Nat.eqb_refl|].
  apply not_elem_of_cons in Hn as [Hm Hn]. rewrite (proj2 (Nat.eqb_neq _ _)) by done. by rewrite IH.
Qed.

Lemma from_node_app pre n post : tn_node n ∉ tn_node <$> pre -> from_node (pre ++ n :: post) (tn_node n) = Some (n :: post).
Proof.
  induction pre as [|m pre IH]; simpl; intros Hn; [by rewrite Nat.eqb_refl|].
  apply not_elem_of_cons in Hn as [Hm Hn]. rewrite (proj2 (Nat.eqb_neq _ _)) by done. by rewrite IH.
Qed.

Lemma match_by_id_None l id : match_by_id l id = None <-> id ∉ (fun n => tn_id n) <$> l.
Proof.
  unfold match_by_id. induction l as [|n l IH]; simpl; [split; [intros _; apply not_elem_of_nil|done]|].
  rewrite not_elem_of_cons, <- IH. destruct (tn_id n =? id) eqn:E; bool_prop; [split; [done|intros []; by symmetry in E]|].
  split; [by intros ->|by intros [_ ?]].
Qed.

Lemma match_by_id_Some l id n : match_by_id l id = Some n -> tn_id n = id /\ exists pre post, l = pre ++ n :: post.
Proof.
  unfold match_by_id. induction l as [|m l IH]; simpl; [done|]. destruct (tn_id m =? id) eqn:E; bool_prop.
  - intros [= <-]. split; [done|]. by exists [], l.
  - intros H. destruct (IH H) as (? & pre & post & ->). split; [done|]. by exists (m :: pre), post.
Qed.

(** ** The map of live timers *)

Abbreviation ids l := ((fun n : tnode => tn_id n) <$> l).

Lemma live_list_cons n l c : live_list (n :: l) c =
  if decide (tn_id n ∈ c) then live_list l c else <[tn_id n := (tn_when n, tn_timer n)]> (live_list l c).
Proof.
  unfold live_list. rewrite filter_cons. case_decide as H1; case_decide as H2; try done.
Qed.

Lemma live_list_None l c id : live_list l c !! id = None <-> id ∈ c \/ id ∉ ids l.
Proof.
  unfold live_list. rewrite <- not_elem_of_list_to_map, <- list_fmap_compose.
  destruct (decide (id ∈ c)) as [Hc|Hc].
  - split; [by left|]. intros _ (n & -> & Hn)%list_elem_of_fmap. apply list_elem_of_filter in Hn as [? _]. done.
  - split.
    + intros H. right. intros (n & -> & Hn)%list_elem_of_fmap. apply H, list_elem_of_fmap. exists n. split; [done|].
      by apply list_elem_of_filter.
    + intros [?|H]; [done|]. intros (n & -> & Hn)%list_elem_of_fmap. apply list_elem_of_filter in Hn as [_ Hn].
      apply H, list_elem_of_fmap. by exists n.
Qed.

Lemma ids_filter_NoDup (P : tnode -> Prop) `{!forall n, Decision (P n)} l : NoDup (ids l) -> NoDup (ids (filter P l)).
Proof. intros Hd. eapply sublist_NoDup; [exact Hd|]. apply fmap_sublist, sublist_filter. Qed.

Lemma live_list_perm l l' c : NoDup (ids l) -> l ≡ₚ l' -> live_list l c = live_list l' c.
Proof.
  intros Hd Hp. unfold live_list. apply list_to_map_proper; [|by rewrite Hp].
  rewrite <- list_fmap_compose. by apply ids_filter_NoDup.
Qed.

Lemma live_list_insert l n c : NoDup (ids l) -> tn_id n ∉ ids l -> live_list (mm_insert l n) c = live_list (n :: l) c.
Proof.
  intros Hd Hn. apply live_list_perm; [|apply mm_insert_perm]. rewrite mm_insert_perm. by constructor.
Qed.

Lemma live_list_app_cons pre n post c : NoDup (ids (pre ++ n :: post)) -> live_list (pre ++ n :: post) c = live_list (n :: pre ++ post) c.
Proof. intros Hd. apply live_list_perm; [done|]. by rewrite Permutation_middle. Qed.

Lemma live_list_cancel l c id : live_list l ({[id]} ∪ c) = delete id (live_list l c).
Proof.
  induction l as [|n l IH]; [symmetry; apply (delete_empty (M := gmap Z))|]. rewrite !live_list_cons, IH.
  destruct (decide (tn_id n = id)) as [->|Hne].
  - rewrite decide_True by (apply elem_of_union_l, elem_of_singleton; done). case_decide; [done|]. by rewrite delete_insert_eq.
  - destruct (decide (tn_id n ∈ c)) as [Hc|Hc].
    + by rewrite decide_True by (by apply elem_of_union_r).
    + rewrite decide_False by (rewrite elem_of_union, elem_of_singleton; tauto). by rewrite delete_insert_ne.
Qed.

Lemma live_list_purge l c id : id ∉ ids l -> live_list l (c ∖ {[id]}) = live_list l c.
Proof.
  induction l as [|n l IH]; [done|]. intros [Hn Hl]%not_elem_of_cons. rewrite !live_list_cons, IH by done.
  destruct (decide (tn_id n ∈ c)) as [Hc|Hc].
  - rewrite decide_True; [done|]. apply elem_of_difference. rewrite elem_of_singleton. by split.
  - rewrite decide_False; [done|]. rewrite elem_of_difference. tauto.
Qed.

(** ** The invariant *)

(** Nodes in order, with numbers and ids of their own. *)
Record nodes_ok (l : list tnode) (ts : timers) : Prop := {
  no_sorted : StronglySorted before_eq l;
  no_nodes : NoDup (tn_node <$> l);
  no_fresh : Forall (fun n => (tn_node n < t_fresh ts)%nat) l;
  no_known : Forall (fun n => tn_id n <= t_next_timer_id ts) l;
  no_cancelled : forall id, id ∈ t_cancelled_timers ts -> id <= t_next_timer_id ts;
}.

Record timers_ok (ts : timers) : Prop := {
  tok_nodes : nodes_ok (t_timers ts) ts;
  tok_ids : NoDup (ids (t_timers ts));
}.

Lemma timers_new_ok : timers_ok timers_new.
Proof. split; [split|]; simpl; try constructor. by intros id ?%not_elem_of_empty. Qed.

Lemma nodes_ok_insert ts when t : nodes_ok (t_timers ts) ts -> timer_id t <= t_next_timer_id ts ->
  nodes_ok (t_timers (insert_timer ts when t)) (insert_timer ts when t).
Proof.
  intros [Hs Hn Hf Hk Hc] Ht. split; simpl; [by apply mm_insert_sorted| | | |done].
  - rewrite mm_insert_perm. constructor; [|done]. intros (n & E & Hin)%list_elem_of_fmap. simpl in E.
    pose proof (Forall_elem _ _ _ Hf Hin). simpl in *. lia.
  - rewrite mm_insert_perm. constructor; [simpl; lia|]. eapply Forall_impl; [|exact Hf]. simpl. lia.
  - rewrite mm_insert_perm. by constructor.
Qed.

Lemma nodes_ok_next ts id : nodes_ok (t_timers ts) ts -> t_next_timer_id ts <= id ->
  let ts' := Timers id (t_timers ts) (t_cancelled_timers ts) (t_fresh ts) in nodes_ok (t_timers ts') ts'.
Proof.
  intros [Hs Hn Hf Hk Hc] Hid. split; simpl; try done.
  - eapply Forall_impl; [|exact Hk]. simpl. lia.
  - intros x Hx. specialize (Hc x Hx). lia.
Qed.

Lemma nodes_ok_sub ts l c : nodes_ok (t_timers ts) ts -> sublist l (t_timers ts) -> (forall id, id ∈ c -> id ∈ t_cancelled_timers ts) ->
  let ts' := Timers (t_next_timer_id ts) l c (t_fresh ts) in nodes_ok (t_timers ts') ts'.
Proof.
  intros [Hs Hn Hf Hk Hc] Hl Hsub. split; simpl.
  - revert Hs. clear -Hl. induction Hl as [|n l l' Hl IH|n l l' Hl IH]; intros Hs; [done| |].
    + inversion Hs as [|? ? Hs' Hall]; subst. constructor; [auto|]. eapply Forall_sublist; [exact Hall|done].
    + inversion Hs; auto.
  - eapply sublist_NoDup; [exact Hn|]. by apply fmap_sublist.
  - by eapply Forall_sublist.
  - by eapply Forall_sublist.
  - intros id Hid. by apply Hc, Hsub.
Qed.

(** ** Operations against the specification *)

Lemma live_lookup_id l c n pre post : l = pre ++ n :: post -> NoDup (ids l) ->
  live_list l c !! tn_id n = if decide (tn_id n ∈ c) then None else Some (tn_when n, tn_timer n).
Proof.
  intros -> Hd. rewrite live_list_app_cons by done. rewrite live_list_cons. case_decide; [|by rewrite lookup_insert_eq].
  apply live_list_None. by left.
Qed.

Lemma timers_add_refines ts now i h a ts' r : timers_ok ts -> timers_add ts now i h a = Some (ts', r) ->
  timers_ok ts' /\ spec_of ts' = spec_add (spec_of ts) now i h a /\ r = (if h =? 0 then -1 else t_next_timer_id ts + 1).
Proof.
  intros [Hn Hd] E. unfold timers_add, spec_add in *. destruct (h =? 0); [by simplify_eq|].
  destruct (_ <? _); [|done]. injection E as <- <-.
  set (id := t_next_timer_id ts + 1) in *. set (ts1 := Timers id _ _ _).
  assert (id ∉ ids (t_timers ts)) as Hid.
  { intros (n & E & Hin)%list_elem_of_fmap. pose proof (Forall_elem _ _ _ (no_known _ _ Hn) Hin). simpl in *. lia. }
  assert (id ∉ t_cancelled_timers ts) as Hc by (intros Hc; pose proof (no_cancelled _ _ Hn _ Hc); lia).
  split_and!; [|unfold spec_of; simpl; f_equal|done].
  - split; [|simpl; rewrite mm_insert_perm; by constructor].
    apply nodes_ok_insert; [apply nodes_ok_next; [done|lia]|done].
  - unfold live. simpl. rewrite live_list_insert, live_list_cons by done. simpl. by rewrite decide_False.
Qed.

Lemma timers_cancel_refines ts id : timers_ok ts ->
  timers_ok (timers_cancel ts id).1 /\ spec_of (timers_cancel ts id).1 = spec_cancel (spec_of ts) id /\
  (timers_cancel ts id).2 = if decide (live ts !! id = None) then -1 else 0.
Proof.
  intros [Hn Hd]. unfold timers_cancel, spec_cancel. pose proof (live_list_None (t_timers ts) (t_cancelled_timers ts) id) as HN.
  destruct (match_by_id (t_timers ts) id) as [n|] eqn:Em.
  - destruct (match_by_id_Some _ _ _ Em) as (<- & pre & post & El).
    assert (tn_id n ∈ ids (t_timers ts)) as Hin by (rewrite El, fmap_app; apply elem_of_app; right; apply list_elem_of_here).
    case_bool_decide as Hc; simpl.
    + rewrite decide_True by (apply HN; by left). split_and!; [by split| |done]. unfold spec_of. simpl. f_equal.
      symmetry. apply delete_id, HN. by left.
    + rewrite decide_False by (unfold live; rewrite HN; tauto). split_and!; [split; [|done]| |done].
      * destruct Hn. split; try done. intros x [->%elem_of_singleton|]%elem_of_union; [|auto]. simpl.
        apply (Forall_elem (fun n => tn_id n <= t_next_timer_id ts) (t_timers ts)); [done|].
        rewrite El. apply elem_of_app. right. apply list_elem_of_here.
      * unfold spec_of, live. simpl. f_equal. apply live_list_cancel.
  - apply match_by_id_None in Em. simpl. rewrite decide_True by (apply HN; by right). split_and!; [by split| |done].
    unfold spec_of. simpl. f_equal. symmetry. apply delete_id, HN. by right.
Qed.

(** Both [set_interval] and [reset] take a timer out and put it in again. *)
Lemma restart_refines ts now n f : timers_ok ts -> n ∈ t_timers ts -> (forall t, timer_id (f t) = timer_id t) ->
  let ts' := insert_timer (erase_timer ts (tn_node n)) (u64 (now + interval (f (tn_timer n)))) (f (tn_timer n)) in
  timers_ok ts' /\ spec_of ts' = spec_restart f (spec_of ts) now (tn_id n).
Proof.
  intros [Hn Hd] Hin Hf ts'. destruct (list_elem_of_split _ _ Hin) as (pre & post & El).
  assert (tn_node n ∉ tn_node <$> pre) as Hpre.
  { pose proof (no_nodes _ _ Hn) as Hnd. rewrite El, fmap_app in Hnd. apply list.NoDup_app in Hnd as (_ & H & _).
    intros Hx. eapply H; [exact Hx|]. apply list_elem_of_here. }
  assert (t_timers (erase_timer ts (tn_node n)) = pre ++ post) as Ee by (simpl; rewrite El; by apply mm_erase_split).
  assert (NoDup (ids (n :: pre ++ post))) as Hd' by (rewrite Permutation_middle, <- El; exact Hd).
  apply list.NoDup_cons in Hd' as [Hni Hd'].
  assert (nodes_ok (t_timers (erase_timer ts (tn_node n))) (erase_timer ts (tn_node n))) as Hn'.
  { apply nodes_ok_sub; [done| |done]. change (sublist (t_timers (erase_timer ts (tn_node n))) (t_timers ts)). rewrite Ee, El. apply sublist_app; [done|]. by apply sublist_cons. }
  split; [split|].
  - apply nodes_ok_insert; [done|]. simpl. rewrite Hf. apply (Forall_elem _ _ _ (no_known _ _ Hn) Hin).
  - unfold ts'. simpl. rewrite mm_insert_perm. simpl. rewrite Hf. change (mm_erase _ _) with (t_timers (erase_timer ts (tn_node n))).
    rewrite Ee. by constructor.
  - unfold ts', spec_of, spec_restart, live. simpl. change (mm_erase _ _) with (t_timers (erase_timer ts (tn_node n))).
    rewrite Ee, live_list_insert; [|done|simpl; by rewrite Hf]. rewrite live_list_cons. simpl. rewrite Hf.
    rewrite (live_lookup_id _ _ n pre post El Hd).
    assert (live_list (t_timers ts) (t_cancelled_timers ts) = live_list (n :: pre ++ post) (t_cancelled_timers ts)) as ->
      by (rewrite El in *; by apply live_list_app_cons).
    rewrite live_list_cons. case_decide; [done|]. simpl. by rewrite insert_insert_eq.
Qed.

Lemma restart_absent f ts now id : id ∉ ids (t_timers ts) -> spec_restart f (spec_of ts) now id = spec_of ts.
Proof.
  intros Hid. unfold spec_restart. simpl. unfold live.
  by rewrite (proj2 (live_list_None (t_timers ts) (t_cancelled_timers ts) id)) by (by right).
Qed.

Lemma match_by_id_elem l id n : match_by_id l id = Some n -> tn_id n = id /\ n ∈ l.
Proof. intros (? & pre & post & ->)%match_by_id_Some. split; [done|]. apply elem_of_app. right. apply list_elem_of_here. Qed.

Lemma timers_set_interval_refines ts now id i : timers_ok ts ->
  timers_ok (timers_set_interval ts now id i).1 /\
  spec_of (timers_set_interval ts now id i).1 = spec_set_interval (spec_of ts) now id i.
Proof.
  intros Hok. unfold timers_set_interval, spec_set_interval. destruct (match_by_id _ _) as [n|] eqn:Em.
  - destruct (match_by_id_elem _ _ _ Em) as [<- Hin]. by apply (restart_refines ts now n (fun t => Timer (timer_id t) i (handler t) (arg t))).
  - apply match_by_id_None in Em. split; [done|]. symmetry. by apply restart_absent.
Qed.

Lemma timers_reset_refines ts now id : timers_ok ts ->
  timers_ok (timers_reset ts now id).1 /\ spec_of (timers_reset ts now id).1 = spec_reset (spec_of ts) now id.
Proof.
  intros Hok. unfold timers_reset, spec_reset. destruct (match_by_id _ _) as [n|] eqn:Em.
  - destruct (match_by_id_elem _ _ _ Em) as [<- Hin]. by apply (restart_refines ts now n (fun t => t)).
  - apply match_by_id_None in Em. split; [done|]. symmetry. by apply restart_absent.
Qed.

(** ** [timeout] *)

Lemma live_list_elem l c id w t : live_list l c !! id = Some (w, t) -> exists n, n ∈ l /\ tn_id n = id /\ tn_when n = w /\ tn_timer n = t.
Proof.
  intros (n & E & Hn)%elem_of_list_to_map_2%list_elem_of_fmap. injection E as -> -> ->.
  apply list_elem_of_filter in Hn as [_ Hn]. by exists n.
Qed.

Lemma timeout_loop_spec l c now l' c' r : NoDup (ids l) -> timeout_loop l c now = (l', c', r) ->
  live_list l' c' = live_list l c /\ sublist l' l /\ (forall id, id ∈ c' -> id ∈ c) /\
  match l' with
  | [] => r = -1
  | n :: _ => (tn_id n ∉ c') /\ r = Z.max (i64 (u64 (tn_when n - now))) 0
  end.
Proof.
  revert c. induction l as [|n l IH]; intros c Hd E; cbn [timeout_loop] in E; [by simplify_eq|].
  apply list.NoDup_cons in Hd as [Hn Hd]. case_bool_decide as Hc.
  - destruct (IH _ Hd E) as (Hl & Hs & Hsub & Hr). split_and!; [|by apply sublist_cons| |done].
    + rewrite Hl, live_list_cons, decide_True by done. by apply live_list_purge.
    + intros id Hid. apply Hsub in Hid. by apply elem_of_difference in Hid as [? _].
  - injection E as <- <- <-. done.
Qed.

Lemma timers_timeout_refines ts now : timers_ok ts ->
  0 <= now < 9223372036854775808 -> Forall (fun n => 0 <= tn_when n < 9223372036854775808) (t_timers ts) ->
  let r := (timers_timeout ts now).2 in
  timers_ok (timers_timeout ts now).1 /\ spec_of (timers_timeout ts now).1 = spec_of ts /\
  (live ts = ∅ /\ r = -1 \/
   exists id w t, live ts !! id = Some (w, t) /\ r = Z.max (w - now) 0 /\ forall id' w' t', live ts !! id' = Some (w', t') -> w <= w').
Proof.
  intros [Hn Hd] Hnow Hw. unfold timers_timeout. destruct (timeout_loop _ _ _) as [[l c] r] eqn:E. simpl.
  destruct (timeout_loop_spec _ _ _ _ _ _ Hd E) as (Hl & Hs & Hsub & Hr).
  assert (nodes_ok l (Timers (t_next_timer_id ts) l c (t_fresh ts))) as Hn' by (by apply (nodes_ok_sub ts l c)).
  assert (NoDup (ids l)) as Hd' by (eapply sublist_NoDup; [exact Hd|by apply fmap_sublist]).
  split; [by split|]. split; [unfold spec_of, live; simpl; by rewrite Hl|]. unfold live. rewrite <- Hl.
  destruct l as [|n l]; [left; by split|right]. destruct Hr as [Hnc ->]. exists (tn_id n), (tn_when n), (tn_timer n). split_and!.
  - rewrite live_list_cons, decide_False by done. by rewrite lookup_insert_eq.
  - assert (0 <= tn_when n < 9223372036854775808) as Hwn
      by (apply (Forall_elem _ _ _ Hw); eapply elem_of_sublist; [apply list_elem_of_here|exact Hs]).
    f_equal. unfold i64, u64. Z.div_mod_to_equations. lia.
  - intros id' w' t' (m & Hm & _ & <- & _)%live_list_elem. apply elem_of_cons in Hm as [->|Hm]; [lia|].
    destruct Hn' as [Hsort _ _ _ _]. inversion Hsort as [|? ? _ Hall]; subst. exact (Forall_elem _ _ _ Hall Hm).
Qed.

(** ** [execute] *)

Section executes.
Context (client : list Z -> timer -> list tcall) (now : Z) (K : nat).

(** Handlers may add timers that are due later, and cancel any. *)
Definition polite (c : tcall) : Prop :=
  match c with
  | TC_add now' i _ _ => now <= now' /\ 0 < i /\ 0 <= now' + i < 18446744073709551616
  | TC_cancel _ => True
  | _ => False
  end.
Hypothesis client_polite : forall called t, Forall polite (client called t).
Hypothesis client_short : forall called t, (length (client called t) <= K)%nat.

Definition due (l : list tnode) : list tnode := filter (fun n => tn_when n <= now) l.

(** The timer can be put off: it is due later than now when it is put in again. *)
Definition defers (n : tnode) : Prop := 0 < interval (tn_timer n) /\ 0 <= now + interval (tn_timer n) < 18446744073709551616.

(** The nodes the iterator has passed, and those from it on. *)
Record loop_ok (ts : timers) (pre post : list tnode) : Prop := {
  lo_split : t_timers ts = pre ++ post;
  lo_nodes : nodes_ok (t_timers ts) ts;
  lo_ids : NoDup (ids post);
  lo_defers : Forall defers (due post);
}.

Definition abs_post (ts : timers) (post : list tnode) : spec_t := (live_list post (t_cancelled_timers ts), t_next_timer_id ts).

Lemma due_insert l m : now < tn_when m -> due (mm_insert l m) = due l.
Proof.
  intros Hm. unfold due. induction l as [|n l IH]; simpl.
  - rewrite filter_cons, decide_False by lia. done.
  - destruct (_ <=? _); [by rewrite !filter_cons, IH|]. rewrite (filter_cons _ m), decide_False by lia. done.
Qed.

Lemma sorted_before pre n post : StronglySorted before_eq (pre ++ n :: post) -> Forall (fun m => tn_when m <= tn_when n) pre.
Proof.
  intros Hs. apply Forall_of_elem. intros m Hm. revert Hs Hm. induction pre as [|p pre IH]; intros Hs Hm; [by apply not_elem_of_nil in Hm|].
  simpl in Hs. inversion Hs as [|? ? Hs' Hall]; subst. apply elem_of_cons in Hm as [->|Hm]; [|by apply IH].
  apply (Forall_elem _ _ _ Hall), elem_of_app. right. apply list_elem_of_here.
Qed.

Lemma sorted_after pre n post : StronglySorted before_eq (pre ++ n :: post) -> Forall (fun m => tn_when n <= tn_when m) post.
Proof. induction pre as [|p pre IH]; simpl; intros Hs; inversion Hs; subst; auto. Qed.

Lemma due_later l : Forall (fun m => now < tn_when m) l -> due l = [].
Proof. induction 1 as [|m l Hm _ IH]; [done|]. unfold due in *. by rewrite filter_cons, decide_False by lia. Qed.

(** A timer put in while the iterator is at [n] goes behind it. *)
Lemma insert_behind ts pre n post m : StronglySorted before_eq (t_timers ts) -> t_timers ts = pre ++ n :: post ->
  tn_when n <= now < tn_when m -> mm_insert (t_timers ts) m = pre ++ n :: mm_insert post m.
Proof.
  intros Hs E Hm. rewrite E in *. rewrite mm_insert_app.
  - simpl. by rewrite (proj2 (Z.leb_le _ _)) by lia.
  - eapply Forall_impl; [|exact (sorted_before _ _ _ Hs)]. simpl. lia.
Qed.

Lemma tcall_run_ok ts pre n post c : loop_ok ts pre (n :: post) -> tn_when n <= now -> polite c -> t_next_timer_id ts < 2147483647 ->
  exists ts' post', tcall_run ts c = Some ts' /\ loop_ok ts' pre (n :: post') /\ due post' = due post /\
    abs_post ts' (n :: post') = spec_call (abs_post ts (n :: post)) c /\ t_next_timer_id ts' <= t_next_timer_id ts + 1.
Proof.
  intros [El Hn Hd Hf] Hwn Hc Hcap. destruct c as [now' i h a|id| |]; try done; cbn [polite tcall_run spec_call] in *.
  - unfold timers_add, spec_add. destruct (h =? 0); [exists ts, post; split_and!; done || lia|].
    rewrite (proj2 (Z.ltb_lt _ _)) by done. set (id := t_next_timer_id ts + 1). set (m := TNode (t_fresh ts) (u64 (now' + i)) (Timer id i h a)).
    assert (tn_when m = now' + i) as Hwm by (simpl; apply u64_small; unfold is_u64; lia).
    assert (id ∉ ids (n :: post)) as Hid.
    { intros (x & E & Hin)%list_elem_of_fmap. assert (x ∈ t_timers ts) as Hx by (rewrite El; apply elem_of_app; by right).
      pose proof (Forall_elem _ _ _ (no_known _ _ Hn) Hx). simpl in *. lia. }
    assert (id ∉ t_cancelled_timers ts) as Hnc by (intros Hx; pose proof (no_cancelled _ _ Hn _ Hx); lia).
    pose proof (insert_behind ts pre n post m (no_sorted _ _ Hn) El ltac:(lia)) as Hins.
    eexists _, (mm_insert post m). split; [reflexivity|].
    apply list.NoDup_cons in Hd as [Hnn Hd]. cbn [fmap list_fmap] in Hid. apply not_elem_of_cons in Hid as [Hidn Hid].
    split_and!; [split| | |simpl; lia].
    + exact Hins.
    + apply (nodes_ok_insert (Timers id (t_timers ts) (t_cancelled_timers ts) (t_fresh ts))); [apply nodes_ok_next; [done|lia]|done].
    + cbn [fmap list_fmap]. rewrite mm_insert_perm. constructor; [|by constructor].
      intros [E|E]%elem_of_cons; [by apply Hidn|done].
    + unfold due in *. rewrite filter_cons in *. change (filter (fun n => tn_when n <= now) (mm_insert post m)) with (due (mm_insert post m)).
      rewrite due_insert by lia. done.
    + by rewrite due_insert by lia.
    + unfold abs_post. simpl. f_equal. rewrite !live_list_cons, live_list_insert, live_list_cons by done. simpl.
      rewrite (decide_False (P := id ∈ _)) by done. case_decide; [done|]. by apply insert_insert_ne.
  - pose proof (live_list_None (n :: post) (t_cancelled_timers ts) id) as HN. unfold timers_cancel, spec_cancel.
    destruct (match_by_id (t_timers ts) id) as [x|] eqn:Em; [case_bool_decide as Hx|].
    + exists ts, post. split_and!; try done; [|simpl; lia]. unfold abs_post. simpl. f_equal. symmetry. apply delete_id, HN. by left.
    + eexists _, post. split; [reflexivity|]. split_and!; [split|done| |simpl; lia]; simpl; try done.
      * destruct Hn. split; try done. intros y [->%elem_of_singleton|]%elem_of_union; [|auto]. simpl.
        destruct (match_by_id_elem _ _ _ Em) as [<- Hin]. by apply (Forall_elem (fun n => tn_id n <= t_next_timer_id ts) (t_timers ts)).
      * unfold abs_post. simpl. f_equal. apply live_list_cancel.
    + exists ts, post. split_and!; try done; [|simpl; lia]. unfold abs_post. simpl. f_equal. symmetry. apply delete_id, HN. right.
      apply match_by_id_None in Em. rewrite El, fmap_app in Em. intros H. apply Em, elem_of_app. by right.
Qed.

Lemma tcalls_run_ok cs : Forall polite cs -> forall ts pre n post,
  loop_ok ts pre (n :: post) -> tn_when n <= now -> t_next_timer_id ts + Z.of_nat (length cs) <= 2147483647 ->
  exists ts' post', tcalls_run ts cs = Some ts' /\ loop_ok ts' pre (n :: post') /\ due post' = due post /\
    abs_post ts' (n :: post') = foldl spec_call (abs_post ts (n :: post)) cs /\
    t_next_timer_id ts' <= t_next_timer_id ts + Z.of_nat (length cs).
Proof.
  induction 1 as [|c cs Hc _ IH]; intros ts pre n post Hok Hwn Hcap; cbn [tcalls_run foldl length] in *.
  - exists ts, post. split_and!; try done. lia.
  - destruct (tcall_run_ok ts pre n post c Hok Hwn Hc) as (ts1 & post1 & -> & Hok1 & Hdue1 & Habs1 & Hnext1); [lia|].
    destruct (IH ts1 pre n post1 Hok1 Hwn) as (ts2 & post2 & E2 & Hok2 & Hdue2 & Habs2 & Hnext2); [lia|].
    exists ts2, post2. cbn [mbind option_bind]. split_and!; try done; [congruence|congruence|lia].
Qed.

(** What the loop computes from here on. *)
Definition loop_result (ts : timers) (pre post : list tnode) (called : list Z) (res : spec_t * list Z) : Prop :=
  exists fuel0 ts', timers_ok ts' /\ spec_of ts' = res.1 /\
    forall fuel, (fuel0 <= fuel)%nat ->
      execute_loop client fuel ts now (mm_begin (pre ++ post)) (mm_begin post) called = Executed ts' res.2.

Lemma not_node_before ts pre n post : loop_ok ts pre (n :: post) -> tn_node n ∉ tn_node <$> pre.
Proof.
  intros [El Hn _ _]. pose proof (no_nodes _ _ Hn) as Hnd. rewrite El, fmap_app in Hnd. apply list.NoDup_app in Hnd as (_ & H & _).
  intros Hx. eapply H; [exact Hx|]. apply list_elem_of_here.
Qed.

Lemma from_node_here ts pre n post : loop_ok ts pre (n :: post) -> from_node (t_timers ts) (tn_node n) = Some (n :: post).
Proof. intros Hok. rewrite (lo_split _ _ _ Hok). apply from_node_app. by eapply not_node_before. Qed.

Lemma erase_passed ts pre post : loop_ok ts pre post -> mm_erase_range (t_timers ts) (mm_begin (pre ++ post)) (mm_begin post) = Some post.
Proof.
  intros Hok. rewrite (lo_split _ _ _ Hok). unfold mm_erase_range. destruct pre as [|p pre]; [by rewrite decide_True|].
  assert (from_node ((p :: pre) ++ post) (tn_node p) = Some ((p :: pre) ++ post)) as Hfirst by (simpl; by rewrite Nat.eqb_refl).
  rewrite decide_False; cycle 1.
  { destruct post as [|n post]; [done|]. intros [= E]. eapply not_node_before; [exact Hok|]. simpl. rewrite E. apply list_elem_of_here. }
  change (mm_begin ((p :: pre) ++ post)) with (Some (tn_node p)). cbn [mbind option_bind]. rewrite Hfirst. cbn [mbind option_bind].
  rewrite Nat.sub_diag. cbn [take app]. destruct post as [|n post]; [done|]. unfold mm_begin. cbn [head fmap option_fmap option_map].
  change (p :: pre ++ n :: post) with ((p :: pre) ++ n :: post). rewrite <- (lo_split _ _ _ Hok).
  by rewrite (from_node_here ts (p :: pre) n post Hok).
Qed.

Lemma loop_finish ts pre post called : loop_ok ts pre post ->
  exists ts', timers_ok ts' /\ spec_of ts' = abs_post ts post /\
    execute_finish ts (mm_begin (pre ++ post)) (mm_begin post) called = Executed ts' called.
Proof.
  intros Hok. unfold execute_finish. rewrite (erase_passed _ _ _ Hok).
  exists (Timers (t_next_timer_id ts) post (t_cancelled_timers ts) (t_fresh ts)). split_and!; [|reflexivity|reflexivity].
  split; [|by apply lo_ids in Hok]. apply (nodes_ok_sub ts post); [by apply lo_nodes in Hok| |done].
  rewrite (lo_split _ _ _ Hok). by apply sublist_inserts_l.
Qed.

(** A cancelled timer is passed over, and forgotten. *)
Lemma loop_skip ts pre n post : loop_ok ts pre (n :: post) ->
  let ts' := Timers (t_next_timer_id ts) (t_timers ts) (t_cancelled_timers ts ∖ {[tn_id n]}) (t_fresh ts) in
  loop_ok ts' (pre ++ [n]) post /\ it_next ts' (tn_node n) = Some (mm_begin post) /\
  (tn_id n ∈ t_cancelled_timers ts -> abs_post ts' post = abs_post ts (n :: post)).
Proof.
  intros Hok ts'. pose proof (from_node_here _ _ _ _ Hok) as Hfrom. destruct Hok as [El Hn Hd Hf].
  apply list.NoDup_cons in Hd as [Hnn Hd]. split_and!.
  - split; [simpl; by rewrite <- app_assoc| |done|].
    + apply (nodes_ok_sub ts (t_timers ts)); [done|done|]. by intros id [? _]%elem_of_difference.
    + unfold due in *. rewrite filter_cons in Hf. case_decide; [|done]. by apply Forall_cons_1 in Hf as [_ ?].
  - unfold it_next. simpl. by rewrite Hfrom.
  - intros Hc. unfold abs_post. simpl. f_equal. rewrite live_list_cons, decide_True by done. by apply live_list_purge.
Qed.

Lemma loop_tail post : forall ts pre called, loop_ok ts pre post -> due post = [] -> loop_result ts pre post called (abs_post ts post, called).
Proof.
  induction post as [|n post IH]; intros ts pre called Hok Hdue.
  - destruct (loop_finish _ _ _ called Hok) as (ts' & ? & ? & E). exists 1%nat, ts'. split_and!; [done..|].
    intros [|fuel] Hfuel; [lia|]. exact E.
  - unfold due in Hdue. rewrite filter_cons in Hdue. case_decide as Hw; [done|].
    destruct (decide (tn_id n ∈ t_cancelled_timers ts)) as [Hc|Hc].
    + destruct (loop_skip ts pre n post Hok) as (Hok' & Hnext & Habs). specialize (Habs Hc).
      destruct (IH _ (pre ++ [n]) called Hok' Hdue) as (fuel0 & ts' & ? & E & Hrun). rewrite Habs in E.
      exists (S fuel0), ts'. split_and!; [done..|]. intros [|fuel] Hfuel; [lia|]. cbn [execute_loop mm_begin head fmap option_fmap option_map].
      change (mm_begin (n :: post)) with (Some (tn_node n)). cbv iota. rewrite (from_node_here _ _ _ _ Hok), bool_decide_eq_true_2 by done.
      cbv zeta. rewrite Hnext. rewrite <- app_assoc in Hrun. apply Hrun. lia.
    + destruct (loop_finish _ _ _ called Hok) as (ts' & ? & ? & E). exists 1%nat, ts'. split_and!; [done..|].
      intros [|fuel] Hfuel; [lia|]. cbn [execute_loop]. change (mm_begin (n :: post)) with (Some (tn_node n)) in *. cbv iota.
      rewrite (from_node_here _ _ _ _ Hok), bool_decide_eq_false_2 by done. by rewrite (proj2 (Z.ltb_lt _ _)) by lia.
Qed.

(** A timer that is due: its handler runs, and it is put in again. *)
Lemma loop_handler ts pre n post called first : loop_ok ts pre (n :: post) -> tn_when n <= now ->
  tn_id n ∉ t_cancelled_timers ts -> t_next_timer_id ts + Z.of_nat K <= 2147483647 ->
  exists ts2 post2, loop_ok ts2 (pre ++ [n]) post2 /\ due post2 = due post /\
    abs_post ts2 post2 = spec_reset (foldl spec_call (abs_post ts (n :: post)) (client called (tn_timer n))) now (tn_id n) /\
    t_next_timer_id ts2 <= t_next_timer_id ts + Z.of_nat K /\
    forall f, execute_loop client (S f) ts now first (Some (tn_node n)) called =
      execute_loop client f ts2 now first (mm_begin post2) (called ++ [tn_id n]).
Proof.
  intros Hok Hwn Hc Hcap. pose proof (client_short called (tn_timer n)) as HK.
  destruct (tcalls_run_ok _ (client_polite called (tn_timer n)) ts pre n post Hok Hwn) as (ts1 & post1 & E1 & Hok1 & Hdue1 & Habs1 & Hnext1); [lia|].
  assert (defers n) as [Hi Hib].
  { pose proof (lo_defers _ _ _ Hok) as Hf. unfold due in Hf. rewrite filter_cons, decide_True in Hf by done. by apply Forall_cons_1 in Hf as [? _]. }
  set (m := TNode (t_fresh ts1) (u64 (now + interval (tn_timer n))) (tn_timer n)).
  assert (tn_when m = now + interval (tn_timer n)) as Hwm by (simpl; apply u64_small; unfold is_u64; lia).
  pose proof (insert_behind ts1 pre n post1 m (no_sorted _ _ (lo_nodes _ _ _ Hok1)) (lo_split _ _ _ Hok1) ltac:(lia)) as Hins.
  set (ts2 := insert_timer ts1 (u64 (now + interval (tn_timer n))) (tn_timer n)).
  assert (n ∈ t_timers ts1) as Hin by (rewrite (lo_split _ _ _ Hok1); apply elem_of_app; right; apply list_elem_of_here).
  assert (nodes_ok (t_timers ts2) ts2) as Hn2.
  { apply nodes_ok_insert; [apply Hok1|]. apply (Forall_elem _ _ _ (no_known _ _ (lo_nodes _ _ _ Hok1)) Hin). }
  pose proof (lo_ids _ _ _ Hok1) as Hd. apply list.NoDup_cons in Hd as [Hnn Hd].
  assert (t_timers ts2 = (pre ++ [n]) ++ mm_insert post1 m) as Hsplit by (rewrite <- app_assoc; exact Hins).
  exists ts2, (mm_insert post1 m). split_and!.
  - split; [done|done| |].
    + rewrite mm_insert_perm. by constructor.
    + rewrite due_insert by lia. pose proof (lo_defers _ _ _ Hok1) as Hf. unfold due in Hf. rewrite filter_cons in Hf.
      case_decide; [|done]. by apply Forall_cons_1 in Hf as [_ ?].
  - by rewrite due_insert by lia.
  - rewrite <- Habs1. unfold abs_post, spec_reset, spec_restart. simpl. rewrite live_list_insert by done. rewrite !live_list_cons. simpl.
    case_decide as Hx.
    + by rewrite (proj2 (live_list_None post1 (t_cancelled_timers ts1) (tn_id n))) by (by left).
    + rewrite lookup_insert_eq. by rewrite insert_insert_eq.
  - simpl. lia.
  - intros f. cbn [execute_loop]. rewrite (from_node_here _ _ _ _ Hok), bool_decide_eq_false_2 by done.
    rewrite (proj2 (Z.ltb_ge _ _)) by lia. rewrite E1, (from_node_here _ _ _ _ Hok1). cbv zeta. fold ts2.
    unfold it_next. rewrite Hsplit, <- app_assoc. cbn [app].
    rewrite from_node_app by (by eapply not_node_before). done.
Qed.

Lemma loop_run k : forall ts pre post called, length (due post) = k -> loop_ok ts pre post ->
  t_next_timer_id ts + Z.of_nat k * Z.of_nat K <= 2147483647 ->
  loop_result ts pre post called (spec_execute client now (ids (due post)) (abs_post ts post) called).
Proof.
  induction k as [|k IH]; intros ts pre post called Hk Hok Hcap.
  - apply nil_length_inv in Hk. rewrite Hk. by apply loop_tail.
  - destruct post as [|n post]; [done|]. destruct (decide (tn_when n <= now)) as [Hwn|Hwn].
    2:{ rewrite due_later in Hk; [done|]. pose proof (no_sorted _ _ (lo_nodes _ _ _ Hok)) as Hs. rewrite (lo_split _ _ _ Hok) in Hs.
        constructor; [lia|]. eapply Forall_impl; [|exact (sorted_after _ _ _ Hs)]. simpl. lia. }
    assert (due (n :: post) = n :: due post) as Hdue by (unfold due; by rewrite filter_cons, decide_True).
    rewrite Hdue in *. injection Hk as Hk. cbn [fmap list_fmap spec_execute].
    destruct (decide (tn_id n ∈ t_cancelled_timers ts)) as [Hc|Hc].
    + assert ((abs_post ts (n :: post)).1 !! tn_id n = None) as -> by (apply live_list_None; by left).
      destruct (loop_skip ts pre n post Hok) as (Hok' & Hnext & Habs). specialize (Habs Hc).
      destruct (IH _ (pre ++ [n]) post called Hk Hok') as (fuel0 & ts' & ? & E & Hrun); [simpl; lia|]. rewrite Habs in E, Hrun.
      exists (S fuel0), ts'. split_and!; [done..|]. intros [|fuel] Hfuel; [lia|]. cbn [execute_loop].
      change (mm_begin (n :: post)) with (Some (tn_node n)). cbv iota. rewrite (from_node_here _ _ _ _ Hok), bool_decide_eq_true_2 by done.
      cbv zeta. rewrite Hnext. rewrite <- app_assoc in Hrun. apply Hrun. lia.
    + assert ((abs_post ts (n :: post)).1 !! tn_id n = Some (tn_when n, tn_timer n)) as ->
        by (unfold abs_post; simpl; by rewrite live_list_cons, decide_False, lookup_insert_eq by done).
      destruct (loop_handler ts pre n post called (mm_begin (pre ++ n :: post)) Hok Hwn Hc) as (ts2 & post2 & Hok2 & Hdue2 & Habs2 & Hnext2 & Hrun2); [lia|].
      destruct (IH ts2 (pre ++ [n]) post2 (called ++ [tn_id n])) as (fuel0 & ts' & ? & E & Hrun); [congruence|done|lia|].
      rewrite Hdue2, Habs2 in E, Hrun. exists (S fuel0), ts'. split_and!; [done|exact E|]. intros [|fuel] Hfuel; [lia|].
      change (mm_begin (n :: post)) with (Some (tn_node n)). rewrite Hrun2.
      assert (mm_begin (pre ++ n :: post) = mm_begin ((pre ++ [n]) ++ post2)) as -> by (destruct pre; done). apply Hrun. lia.
Qed.

End executes.

(** ** Theorems *)

Lemma tcall_run_refines ts c ts' : timers_ok ts -> tcall_run ts c = Some ts' -> timers_ok ts' /\ spec_of ts' = spec_call (spec_of ts) c.
Proof.
  intros Hok E. destruct c as [now i h a|id|now id i|now id]; simpl in *.
  - destruct (timers_add ts now i h a) as [[ts1 r]|] eqn:Ea; [|done]. injection E as <-.
    by destruct (timers_add_refines _ _ _ _ _ _ _ Hok Ea) as (? & ? & _).
  - injection E as <-. by destruct (timers_cancel_refines ts id Hok) as (? & ? & _).
  - injection E as <-. by apply timers_set_interval_refines.
  - injection E as <-. by apply timers_reset_refines.
Qed.

Lemma tcalls_run_refines cs : forall ts ts', timers_ok ts -> tcalls_run ts cs = Some ts' ->
  timers_ok ts' /\ spec_of ts' = foldl spec_call (spec_of ts) cs.
Proof.
  induction cs as [|c cs IH]; intros ts ts' Hok E; simpl in *; [by injection E as <-|].
  destruct (tcall_run ts c) as [ts1|] eqn:Ec; [|done]. cbn [mbind option_bind] in E.
  destruct (tcall_run_refines _ _ _ Hok Ec) as [Hok1 <-]. by apply IH.
Qed.

(** The timers are the map of the timers that are not cancelled. After any
    sequence of [add], [cancel], [set_interval] and [reset] the multimap and
    the set of cancelled ids represent exactly the map that these operations
    give on it; [cancel] then succeeds exactly on the live timers, and
    [timeout] changes nothing that can be seen and returns the time until
    the first live timer is due, 0 when it is overdue and -1 when there is
    none (clock and due times below 2^63 milliseconds). *)
Theorem timers_refine (cs : list tcall) (ts : timers) (now : Z) :
  tcalls_run timers_new cs = Some ts ->
  0 <= now < 9223372036854775808 -> Forall (fun n => 0 <= tn_when n < 9223372036854775808) (t_timers ts) ->
  let spec := foldl spec_call (∅, 0) cs in
  spec_of ts = spec /\
  (forall id, (timers_cancel ts id).2 = if decide (spec.1 !! id = None) then -1 else 0) /\
  spec_of (timers_timeout ts now).1 = spec /\
  (spec.1 = ∅ /\ (timers_timeout ts now).2 = -1 \/
   exists id w t, spec.1 !! id = Some (w, t) /\ (timers_timeout ts now).2 = Z.max (w - now) 0 /\
     forall id' w' t', spec.1 !! id' = Some (w', t') -> w <= w').
Proof.
  intros E Hnow Hw spec. destruct (tcalls_run_refines cs _ _ timers_new_ok E) as [Hok Habs]. change (spec_of timers_new) with ((∅, 0) : spec_t) in Habs.
  destruct (timers_timeout_refines ts now Hok Hnow Hw) as (_ & Ht & Hr). unfold spec. rewrite <- Habs. split_and!; [done| |done|exact Hr].
  intros id. by destruct (timers_cancel_refines ts id Hok) as (_ & _ & ->).
Qed.

Lemma timers_refine_witness :
  let cs := [TC_add 10 5 1 0; TC_add 10 3 1 0; TC_cancel 2; TC_reset 12 1] in
  exists ts, tcalls_run timers_new cs = Some ts /\ (timers_timeout ts 13).2 = 4 /\ spec_of ts = foldl spec_call (∅, 0) cs.
Proof.
  intros cs. set (ts := default timers_new (tcalls_run timers_new cs)).
  assert (tcalls_run timers_new cs = Some ts) as Hts by reflexivity. exists ts. split; [done|]. split; [reflexivity|].
  assert (t_timers ts = [TNode 1 13 (Timer 2 3 1 0); TNode 2 17 (Timer 1 5 1 0)]) as Hl by reflexivity.
  apply (timers_refine cs ts 13 Hts); [lia|]. rewrite Hl. repeat constructor; simpl; lia.
Defined.

(** C39: [execute] returns, and runs the handlers that are due. Provided that
    the timers that are due have a positive interval and that the handlers
    only add timers that are due later and cancel timers, the loop ends
    without using an erased node: the handlers of the timers due run in the
    order of their times, once each, those that an earlier handler cancelled
    left out; every timer that ran and was not cancelled is due again one
    interval from now, and all others are as they were. *)
Theorem timers_execute_runs (client : list Z -> timer -> list tcall) (now : Z) (K : nat) (ts : timers) :
  timers_ok ts ->
  (forall called t, Forall (polite now) (client called t)) -> (forall called t, (length (client called t) <= K)%nat) ->
  Forall (defers now) (due now (t_timers ts)) ->
  t_next_timer_id ts + Z.of_nat (length (due now (t_timers ts))) * Z.of_nat K <= 2147483647 ->
  let '(spec, called) := spec_execute client now (ids (due now (t_timers ts))) (spec_of ts) [] in
  exists fuel0 ts', timers_ok ts' /\ spec_of ts' = spec /\
    forall fuel, (fuel0 <= fuel)%nat -> timers_execute client fuel ts now = Executed ts' called.
Proof.
  intros [Hn Hd] Hp Hs Hf Hcap. assert (loop_ok now ts [] (t_timers ts)) as Hok by (by split).
  pose proof (loop_run client now K Hp Hs _ ts [] (t_timers ts) [] eq_refl Hok Hcap) as H.
  change (abs_post ts (t_timers ts)) with (spec_of ts) in H. by destruct (spec_execute _ _ _ _ _) as [spec called].
Qed.

Lemma timers_execute_runs_witness :
  exists ts, tcalls_run timers_new [TC_add 0 5 1 0; TC_add 0 3 1 0; TC_add 0 4 1 0] = Some ts /\
  exists fuel0 ts', forall fuel, (fuel0 <= fuel)%nat ->
    timers_execute (fun _ t => if timer_id t =? 2 then [TC_cancel 3; TC_add 6 1 1 0] else []) fuel ts 6 = Executed ts' [2; 1].
Proof.
  set (client := fun (_ : list Z) t => if timer_id t =? 2 then [TC_cancel 3; TC_add 6 1 1 0] else []).
  set (ts := default timers_new (tcalls_run timers_new [TC_add 0 5 1 0; TC_add 0 3 1 0; TC_add 0 4 1 0])).
  assert (tcalls_run timers_new [TC_add 0 5 1 0; TC_add 0 3 1 0; TC_add 0 4 1 0] = Some ts) as Hts by reflexivity.
  assert (timers_ok ts) as Hok by (by eapply tcalls_run_refines; [apply timers_new_ok|]).
  assert (due 6 (t_timers ts) = [TNode 1 3 (Timer 2 3 1 0); TNode 2 4 (Timer 3 4 1 0); TNode 0 5 (Timer 1 5 1 0)]) as Hdue by reflexivity.
  exists ts. split; [done|]. pose proof (timers_execute_runs client 6 2 ts Hok) as H.
  destruct (spec_execute client 6 _ (spec_of ts) []) as [spec called] eqn:Es.
  apply (f_equal snd) in Es. vm_compute in Es. subst called. cbv iota in H.
  destruct H as (fuel0 & ts' & _ & _ & H); [| | | |by exists fuel0, ts'].
  - intros cl t. unfold client. destruct (_ =? _); repeat constructor; lia.
  - intros cl t. unfold client. destruct (_ =? _); simpl; lia.
  - rewrite Hdue. repeat constructor; simpl; lia.
  - rewrite Hdue. simpl. lia.
Defined.

(** ** Handlers the loop cannot cope with *)

Lemma zero_interval_loop fuel : forall ts pre m now first called,
  t_timers ts = pre ++ [m] -> nodes_ok (t_timers ts) ts -> t_cancelled_timers ts = ∅ -> interval (tn_timer m) = 0 ->
  tn_when m <= now -> is_u64 now -> execute_loop (fun _ _ => []) fuel ts now first (Some (tn_node m)) called = OutOfFuel.
Proof.
  induction fuel as [|fuel IH]; intros ts pre m now first called El Hn Hc Hi Hw Hnow; [done|]. cbn [execute_loop tcalls_run].
  assert (tn_node m ∉ tn_node <$> pre) as Hm.
  { pose proof (no_nodes _ _ Hn) as Hnd. rewrite El, fmap_app in Hnd. apply list.NoDup_app in Hnd as (_ & H & _).
    intros Hx. eapply H; [exact Hx|]. apply list_elem_of_here. }
  rewrite El, from_node_app by done. rewrite Hc, bool_decide_eq_false_2 by apply not_elem_of_empty.
  rewrite (proj2 (Z.ltb_ge _ _)) by lia. rewrite Hi, Z.add_0_r, u64_small by done. cbv zeta.
  set (m' := TNode (t_fresh ts) now (tn_timer m)).
  assert (t_timers (insert_timer ts now (tn_timer m)) = (pre ++ [m]) ++ [m']) as El'.
  { simpl. rewrite El. rewrite <- (app_nil_r (pre ++ [m])) at 1. rewrite mm_insert_app; [done|]. pose proof (no_sorted _ _ Hn) as Hs. rewrite El in Hs.
    apply Forall_app. split; [|by repeat constructor]. eapply Forall_impl; [|exact (sorted_before _ _ _ Hs)]. simpl. lia. }
  unfold it_next. rewrite El', <- app_assoc. cbn [app]. rewrite from_node_app by done.
  apply (IH (insert_timer ts now (tn_timer m)) (pre ++ [m]) m'); try done.
  apply nodes_ok_insert; [done|]. apply (Forall_elem _ _ _ (no_known _ _ Hn)). rewrite El. apply elem_of_app. right. apply list_elem_of_here.
Qed.

(** A timer with interval 0 is put in again where the loop finds it at once: [execute] never returns. *)
Theorem timers_zero_interval_diverges ts now h a id fuel now' : timers_add timers_new now 0 h a = Some (ts, id) -> h <> 0 ->
  is_u64 now -> is_u64 now' -> now <= now' -> timers_execute (fun _ _ => []) fuel ts now' = OutOfFuel.
Proof.
  intros E Hh Hn Hn' Hle. destruct (timers_add_refines _ _ _ _ _ _ _ timers_new_ok E) as ([Hok _] & _).
  unfold timers_add in E. rewrite (proj2 (Z.eqb_neq _ _)) in E by done. simpl in E. injection E as <- <-.
  rewrite Z.add_0_r, u64_small in * by done.
  by apply (zero_interval_loop fuel _ [] (TNode 0 now (Timer 1 0 h a))).
Qed.

(** A handler that resets its own timer erases the node the loop stands on. *)
Theorem timers_reset_in_handler : exists ts id, timers_add timers_new 0 1 7 0 = Some (ts, id) /\
  forall fuel, (0 < fuel)%nat -> timers_execute (fun _ t => [TC_reset 1 (timer_id t)]) fuel ts 1 = Undefined.
Proof. eexists _, _. split; [reflexivity|]. intros [|fuel] Hf; [lia|]. reflexivity. Qed.

(** A handler that resets a timer whose handler ran before it in the same
    pass restarts the node that is about to be erased: the timer is there twice. *)
Theorem timers_reset_twice :
  let client := fun (called : list Z) t => if timer_id t =? 3 then [TC_reset 4 2] else [] in
  exists ts ts', tcalls_run timers_new [TC_add 0 1 7 0; TC_add 0 2 7 0; TC_add 0 3 7 0] = Some ts /\
    timers_execute client 10 ts 4 = Executed ts' [1; 2; 3] /\ ids (t_timers ts') = [1; 2; 2; 3].
Proof. eexists _, _. split_and!; reflexivity. Qed.
