(* ===== verification/Mechanism.v ===== *)
(** * Metadata of a connection, [mechanism_t] (src/src/mechanism.cpp, src/src/mechanism.hpp)

    What every security mechanism shares: the properties a socket announces
    in its handshake commands (its type, its routing id and the metadata of
    the application), how the peer's are parsed and stored, and which
    socket types may talk to each other.  The outer [option] is a failed
    assertion or a read outside the command. *)

From Stdlib Require Import Bool String Ascii.
From stdpp Require Import sorting.
From S2P Require Import Prelude Wire Options OptionsProps.

Definition ascii_bytes (s : string) : bytes := map (fun a => Z.of_N (N_of_ascii a)) (list_ascii_of_string s).

(** ** Socket types *)

Definition ZMQ_PAIR : Z := 0.
Definition ZMQ_PUB : Z := 1.
Definition ZMQ_SUB : Z := 2.
Definition ZMQ_REQ : Z := 3.
Definition ZMQ_REP : Z := 4.
Definition ZMQ_DEALER : Z := 5.
Definition ZMQ_ROUTER : Z := 6.
Definition ZMQ_PULL : Z := 7.
Definition ZMQ_PUSH : Z := 8.
Definition ZMQ_XPUB : Z := 9.
Definition ZMQ_XSUB : Z := 10.
Definition ZMQ_STREAM : Z := 11.
Definition ZMQ_SERVER : Z := 12.
Definition ZMQ_CLIENT : Z := 13.
Definition ZMQ_RADIO : Z := 14.
Definition ZMQ_DISH : Z := 15.
Definition ZMQ_GATHER : Z := 16.
Definition ZMQ_SCATTER : Z := 17.
Definition ZMQ_DGRAM : Z := 18.

Definition socket_type_names : list bytes := Eval vm_compute in
  map ascii_bytes ["PAIR"; "PUB"; "SUB"; "REQ"; "REP"; "DEALER"; "ROUTER"; "PULL"; "PUSH"; "XPUB"; "XSUB"; "STREAM"]%string.
Definition draft_type_names : list bytes := Eval vm_compute in
  map ascii_bytes ["SERVER"; "CLIENT"; "RADIO"; "DISH"; "GATHER"; "SCATTER"; "DGRAM"]%string.

Definition type_names (b : build) : list bytes := socket_type_names ++ if b_draft b then draft_type_names else [].

Definition socket_type_string (b : build) (socket_type_ : Z) : option bytes :=
  zmq_assert (0 <=? socket_type_) ;; type_names b !! Z.to_nat socket_type_.

(** The types that [check_socket_type] accepts from the peer. *)
Definition peer_types (b : build) (type : Z) : list Z :=
  if type =? ZMQ_REQ then [ZMQ_REP; ZMQ_ROUTER]
  else if type =? ZMQ_REP then [ZMQ_REQ; ZMQ_DEALER]
  else if type =? ZMQ_DEALER then [ZMQ_REP; ZMQ_DEALER; ZMQ_ROUTER]
  else if type =? ZMQ_ROUTER then [ZMQ_REQ; ZMQ_DEALER; ZMQ_ROUTER]
  else if type =? ZMQ_PUSH then [ZMQ_PULL]
  else if type =? ZMQ_PULL then [ZMQ_PUSH]
  else if type =? ZMQ_PUB then [ZMQ_SUB; ZMQ_XSUB]
  else if type =? ZMQ_SUB then [ZMQ_PUB; ZMQ_XPUB]
  else if type =? ZMQ_XPUB then [ZMQ_SUB; ZMQ_XSUB]
  else if type =? ZMQ_XSUB then [ZMQ_PUB; ZMQ_XPUB]
  else if type =? ZMQ_PAIR then [ZMQ_PAIR]
  else if negb (b_draft b) then []
  else if type =? ZMQ_SERVER then [ZMQ_CLIENT]
  else if type =? ZMQ_CLIENT then [ZMQ_SERVER]
  else if type =? ZMQ_RADIO then [ZMQ_DISH]
  else if type =? ZMQ_DISH then [ZMQ_RADIO]
  else if type =? ZMQ_GATHER then [ZMQ_SCATTER]
  else if type =? ZMQ_SCATTER then [ZMQ_GATHER]
  else if type =? ZMQ_DGRAM then [ZMQ_DGRAM]
  else [].

Definition check_socket_type (b : build) (type : Z) (name : bytes) : bool :=
  existsb (fun t => bool_decide (type_names b !! Z.to_nat t = Some name)) (peer_types b type).

(** ** Writing properties *)

(** The string a [char *] points to: up to the terminator. *)
Fixpoint c_chars (s : bytes) : bytes := match s with [] => [] | c :: s' => if c =? 0 then [] else c :: c_chars s' end.

Definition name_len_size : Z := 1.
Definition value_len_size : Z := 4.

Definition name_len (name_ : bytes) : option Z :=
  let len := Z.of_nat (length (c_chars name_)) in zmq_assert (len <=? 255) ;; Some len.

Definition property_len (name_ : bytes) (value_len_ : Z) : option Z :=
  let* n := name_len name_ in Some (name_len_size + n + value_len_size + value_len_).

(** The bytes [add_property] writes. *)
Definition add_property (ptr_capacity_ : Z) (name_ value_ : bytes) : option bytes :=
  let* n := name_len name_ in
  let value_len := Z.of_nat (length value_) in
  let total_len := name_len_size + n + value_len_size + value_len in
  zmq_assert (total_len <=? ptr_capacity_) ;;
  zmq_assert (value_len <=? 0x7FFFFFFF) ;;
  Some ([n] ++ c_chars name_ ++ put_uint32 value_len ++ value_).

Definition ZMTP_PROPERTY_SOCKET_TYPE : bytes := Eval vm_compute in ascii_bytes "Socket-Type".
Definition ZMTP_PROPERTY_IDENTITY : bytes := Eval vm_compute in ascii_bytes "Identity".
Definition ZMQ_MSG_PROPERTY_USER_ID : bytes := Eval vm_compute in ascii_bytes "User-Id".

(** The order of [std::map<std::string, std::string>]. *)
Fixpoint bytes_leb (a b : bytes) : bool :=
  match a, b with
  | [], _ => true
  | _ :: _, [] => false
  | x :: a', y :: b' => if x <? y then true else if y <? x then false else bytes_leb a' b'
  end.

Definition metadata_le (p q : bytes * bytes) : Prop := bytes_leb p.1 q.1 = true.

#[export] Instance metadata_le_dec : RelDecision metadata_le := fun p q => decide (bytes_leb p.1 q.1 = true).

Definition metadata_list (o : options) : list (bytes * bytes) := merge_sort metadata_le (map_to_list (op_app_metadata o)).

Definition has_identity (o : options) : bool :=
  let type := op_int o m_type in (type =? ZMQ_REQ) || (type =? ZMQ_DEALER) || (type =? ZMQ_ROUTER).

Fixpoint add_metadata (l : list (bytes * bytes)) (ptr_capacity_ : Z) (written : bytes) : option bytes :=
  match l with
  | [] => Some written
  | (k, v) :: l' =>
      let* p := add_property (ptr_capacity_ - Z.of_nat (length written)) k (c_chars v) in
      add_metadata l' ptr_capacity_ (written ++ p)
  end.

Definition add_basic_properties (b : build) (o : options) (ptr_capacity_ : Z) : option bytes :=
  let* socket_type := socket_type_string b (op_int o m_type) in
  let* ptr := add_property ptr_capacity_ ZMTP_PROPERTY_SOCKET_TYPE socket_type in
  let* ptr :=
    if has_identity o then
      let* p := add_property (ptr_capacity_ - Z.of_nat (length ptr)) ZMTP_PROPERTY_IDENTITY (op_str o s_routing_id) in Some (ptr ++ p)
    else Some ptr in
  add_metadata (metadata_list o) ptr_capacity_ ptr.

Fixpoint metadata_len (l : list (bytes * bytes)) : option Z :=
  match l with
  | [] => Some 0
  | (k, v) :: l' => let* n := property_len k (Z.of_nat (length (c_chars v))) in let* m := metadata_len l' in Some (n + m)
  end.

Definition basic_properties_len (b : build) (o : options) : option Z :=
  let* socket_type := socket_type_string b (op_int o m_type) in
  let* meta_len := metadata_len (metadata_list o) in
  let* n := property_len ZMTP_PROPERTY_SOCKET_TYPE (Z.of_nat (length socket_type)) in
  let* i := if has_identity o then property_len ZMTP_PROPERTY_IDENTITY (Z.of_nat (length (op_str o s_routing_id))) else Some 0 in
  Some (n + meta_len + i).

(** The size of the command and the bytes written into it. *)
Definition make_command_with_basic_properties (b : build) (o : options) (prefix_ : bytes) : option (Z * bytes) :=
  let* len := basic_properties_len b o in
  let command_size := Z.of_nat (length prefix_) + len in
  let* props := add_basic_properties b o (command_size - Z.of_nat (length prefix_)) in
  Some (command_size, prefix_ ++ props).

(** ** Parsing properties *)

Record mech := Mech {
  mc_routing_id : bytes;
  mc_user_id : bytes;
  mc_zmtp_properties : gmap bytes bytes;
  mc_zap_properties : gmap bytes bytes;
}.

Definition mech_new : mech := Mech [] [] ∅ ∅.

Definition set_peer_routing_id (m : mech) (id : bytes) : mech :=
  Mech id (mc_user_id m) (mc_zmtp_properties m) (mc_zap_properties m).

(** [insert] of a [std::map] keeps the element that is there. *)
Definition map_emplace (d : gmap bytes bytes) (k v : bytes) : gmap bytes bytes :=
  match d !! k with Some _ => d | None => <[k := v]> d end.

Definition insert_property (m : mech) (zap_flag_ : bool) (name value : bytes) : mech :=
  if zap_flag_ then Mech (mc_routing_id m) (mc_user_id m) (mc_zmtp_properties m) (map_emplace (mc_zap_properties m) name value)
  else Mech (mc_routing_id m) (mc_user_id m) (map_emplace (mc_zmtp_properties m) name value) (mc_zap_properties m).

Definition set_user_id (m : mech) (user_id_ : bytes) : mech :=
  Mech (mc_routing_id m) user_id_ (mc_zmtp_properties m) (map_emplace (mc_zap_properties m) ZMQ_MSG_PROPERTY_USER_ID user_id_).

(** 0, or -1 with [errno]. *)
Abbreviation rc_t := (option errno).

Section parse.
Context (b : build) (o : options).

(** A property that was read whole. *)
Definition apply_property (m : mech) (zap_flag_ : bool) (name value : bytes) : mech * rc_t :=
  if bool_decide (name = ZMTP_PROPERTY_IDENTITY) && negb (op_int o m_recv_routing_id =? 0) then
    (insert_property (set_peer_routing_id m value) zap_flag_ name value, None)
  else if bool_decide (name = ZMTP_PROPERTY_SOCKET_TYPE) then
    if negb (check_socket_type b (op_int o m_type) value) then (m, Some EINVAL)
    else (insert_property m zap_flag_ name value, None)
  else (insert_property m zap_flag_ name value, None).

(** The loop: the bytes at [ptr_] and how many of them are left. *)
Fixpoint parse_loop (fuel : nat) (m : mech) (ptr_ : bytes) (bytes_left : Z) (zap_flag_ : bool) : option (mech * rc_t) :=
  let leave (m : mech) (bytes_left : Z) : option (mech * rc_t) := Some (m, if 0 <? bytes_left then Some EPROTO else None) in
  if negb (1 <? bytes_left) then leave m bytes_left
  else
    match fuel with
    | O => None
    | S f =>
        let* name_length := ptr_ !! 0%nat in
        let ptr_ := drop 1 ptr_ in
        let bytes_left := bytes_left - name_len_size in
        if bytes_left <? name_length then leave m bytes_left
        else
          zmq_assert (name_length <=? Z.of_nat (length ptr_)) ;;
          let name := take (Z.to_nat name_length) ptr_ in
          let ptr_ := drop (Z.to_nat name_length) ptr_ in
          let bytes_left := bytes_left - name_length in
          if bytes_left <? value_len_size then leave m bytes_left
          else
            let* value_length := get_uint32 ptr_ in
            let ptr_ := drop 4 ptr_ in
            let bytes_left := bytes_left - value_len_size in
            if bytes_left <? value_length then leave m bytes_left
            else
              zmq_assert (value_length <=? Z.of_nat (length ptr_)) ;;
              let value := take (Z.to_nat value_length) ptr_ in
              let ptr_ := drop (Z.to_nat value_length) ptr_ in
              let bytes_left := bytes_left - value_length in
              match apply_property m zap_flag_ name value with
              | (m, None) => parse_loop f m ptr_ bytes_left zap_flag_
              | (m, Some e) => Some (m, Some e)
              end
    end.

(** Every round takes at least five bytes. *)
Definition parse_metadata (m : mech) (ptr_ : bytes) (length_ : Z) (zap_flag_ : bool) : option (mech * rc_t) :=
  parse_loop (length ptr_) m ptr_ length_ zap_flag_.

End parse.

(** ** The wire form of a list of properties *)

Abbreviation property := (bytes * bytes)%type.

Definition encode_property (p : property) : bytes :=
  [Z.of_nat (length p.1)] ++ p.1 ++ put_uint32 (Z.of_nat (length p.2)) ++ p.2.
Definition encode_properties (l : list property) : bytes := concat (encode_property <$> l).

(** What fits the wire, and what a socket writes. *)
Definition wire_ok (p : property) : Prop := (length p.1 <= 255)%nat /\ Z.of_nat (length p.2) < 4294967296.
Definition writable (p : property) : Prop :=
  (length p.1 <= 255)%nat /\ Z.of_nat (length p.2) <= 0x7FFFFFFF /\ Forall (fun c => is_u8 c /\ c <> 0) p.1.

Lemma c_chars_nonzero s : Forall (fun c => is_u8 c /\ c <> 0) s -> c_chars s = s.
Proof. induction 1 as [|c s [_ Hc] _ IH]; simpl; [done|]. by rewrite (proj2 (Z.eqb_neq _ _)), IH. Qed.

Lemma put_uint32_length v : length (put_uint32 v) = 4%nat.
Proof. done. Qed.

Lemma encode_property_length p : Z.of_nat (length (encode_property p)) = 5 + Z.of_nat (length p.1) + Z.of_nat (length p.2).
Proof. unfold encode_property. rewrite !length_app, put_uint32_length. simpl. lia. Qed.

Lemma encode_properties_cons p l : encode_properties (p :: l) = encode_property p ++ encode_properties l.
Proof. done. Qed.

Lemma encode_properties_app l l' : encode_properties (l ++ l') = encode_properties l ++ encode_properties l'.
Proof. unfold encode_properties. by rewrite fmap_app, concat_app. Qed.

(** ** Reading the properties back *)

Section parsing.
Context (b : build) (o : options) (zap_flag_ : bool).

Fixpoint apply_properties (m : mech) (l : list property) : mech * rc_t :=
  match l with
  | [] => (m, None)
  | (k, v) :: l' =>
      match apply_property b o m zap_flag_ k v with
      | (m, None) => apply_properties m l'
      | r => r
      end
  end.

(** One round of the loop on a whole property. *)
Lemma parse_loop_property f m p rest : wire_ok p ->
  parse_loop b o (S f) m (encode_property p ++ rest) (Z.of_nat (length (encode_property p ++ rest))) zap_flag_ =
  match apply_property b o m zap_flag_ p.1 p.2 with
  | (m, None) => parse_loop b o f m rest (Z.of_nat (length rest)) zap_flag_
  | (m, Some e) => Some (m, Some e)
  end.
Proof.
  intros [Hk Hv]. destruct p as [k v]. cbn [fst snd] in *. pose proof (encode_property_length (k, v)) as Hl. cbn [fst snd] in Hl.
  assert (Z.of_nat (length (encode_property (k, v) ++ rest)) = 5 + Z.of_nat (length k) + Z.of_nat (length v) + Z.of_nat (length rest)) as ->
    by (rewrite length_app; lia).
  assert (encode_property (k, v) ++ rest = Z.of_nat (length k) :: k ++ put_uint32 (Z.of_nat (length v)) ++ v ++ rest) as ->
    by (unfold encode_property; cbn [fst snd app]; by rewrite <- !app_assoc).
  cbn [parse_loop]. rewrite (proj2 (Z.ltb_lt _ _)) by lia. cbn [negb].
  cbn [lookup list_lookup mbind option_bind drop]. rewrite drop_0. unfold name_len_size, value_len_size.
  rewrite (proj2 (Z.ltb_ge _ (Z.of_nat (length k)))) by lia. rewrite (proj2 (Z.leb_le (Z.of_nat (length k)) _)) by (rewrite length_app; lia).
  rewrite Nat2Z.id, take_app_length, drop_app_length. rewrite (proj2 (Z.ltb_ge _ 4)) by lia.
  rewrite get_put_uint32 by (unfold is_u32; lia). cbn [mbind option_bind].
  change 4%nat with (length (put_uint32 (Z.of_nat (length v)))). rewrite drop_app_length.
  rewrite (proj2 (Z.ltb_ge _ (Z.of_nat (length v)))) by lia. rewrite (proj2 (Z.leb_le (Z.of_nat (length v)) _)) by (rewrite length_app; lia).
  rewrite Nat2Z.id, take_app_length, drop_app_length.
  destruct (apply_property _ _ _ _ _ _) as [m' [e|]]; [done|]. f_equal. lia.
Qed.

Lemma parse_loop_end f m zap : parse_loop b o f m [] 0 zap = Some (m, None).
Proof. by destruct f. Qed.

Lemma parse_encoded l : Forall wire_ok l -> forall f m, (length (encode_properties l) <= f)%nat ->
  parse_loop b o f m (encode_properties l) (Z.of_nat (length (encode_properties l))) zap_flag_ = Some (apply_properties m l).
Proof.
  induction 1 as [|[k v] l Hp _ IH]; intros f m Hf; [apply parse_loop_end|]. rewrite encode_properties_cons in *.
  pose proof (encode_property_length (k, v)). rewrite length_app in Hf. destruct f as [|f]; [lia|].
  rewrite parse_loop_property by done. cbn [apply_properties fst snd]. destruct (apply_property _ _ _ _ _ _) as [m' [e|]]; [done|]. apply IH. lia.
Qed.

(** A property whose name, or whose length of the value, is the last thing in the command. *)
Definition cut_off (rest : bytes) : Prop :=
  exists name, rest = Z.of_nat (length name) :: name /\ name <> [] \/
    exists v, rest = Z.of_nat (length name) :: name ++ put_uint32 v /\ 0 < v < 4294967296.

(** How a round of the loop ends: with a whole property, or leaving the loop. *)
Lemma parse_loop_cases f m ptr : bytes_ok ptr -> ptr <> [] ->
  (exists p rest, wire_ok p /\ ptr = encode_property p ++ rest) \/
  exists rc, parse_loop b o (S f) m ptr (Z.of_nat (length ptr)) zap_flag_ = Some (m, rc) /\
    (rc = None /\ cut_off ptr \/ rc = Some EPROTO /\ ~ cut_off ptr).
Proof.
  intros Hok Hne. destruct ptr as [|n ptr]; [done|]. apply Forall_cons_1 in Hok as [Hn Hok]. unfold is_u8 in Hn.
  assert (forall len, 0 < len -> Some (m, if 0 <? len then Some EPROTO else None) = Some (m, Some EPROTO)) as Hleave
    by (intros len Hlen; by rewrite (proj2 (Z.ltb_lt _ _))).
  assert (cut_off (n :: ptr) -> Z.of_nat (length ptr) = n /\ ptr <> [] \/ Z.of_nat (length ptr) = n + 4) as Hcut.
  { intros (name & [[[= -> ->] H]|(v & [= -> ->] & Hv)]); [by left|right]. rewrite length_app, put_uint32_length. lia. }
  cbn [parse_loop length]. unfold name_len_size, value_len_size.
  destruct (1 <? Z.of_nat (S (length ptr))) eqn:E1; bool_prop; cbn [negb].
  2:{ right. eexists. split; [apply Hleave; lia|]. right. split; [done|]. intros H. destruct ptr; simpl in *; [|lia]. destruct (Hcut H) as [[]|]; [done|lia]. }
  cbn [lookup list_lookup mbind option_bind drop]. rewrite drop_0. replace (Z.of_nat (S (length ptr)) - 1) with (Z.of_nat (length ptr)) by lia.
  destruct (Z.of_nat (length ptr) <? n) eqn:E2; bool_prop.
  { right. eexists. split; [apply Hleave; lia|]. right. split; [done|]. intros H. destruct (Hcut H); lia. }
  rewrite (proj2 (Z.leb_le _ _)) by lia. rewrite <- (take_drop (Z.to_nat n) ptr) in Hcut, Hok |- *.
  assert (length (take (Z.to_nat n) ptr) = Z.to_nat n) as Hname by (rewrite length_take; lia).
  assert (length (drop (Z.to_nat n) ptr) = (length ptr - Z.to_nat n)%nat) as Hptr by (by rewrite length_drop).
  revert Hname Hptr Hcut Hok. generalize (take (Z.to_nat n) ptr) as name, (drop (Z.to_nat n) ptr) as ptr1. intros name ptr1 Hname Hptr Hcut Hok.
  replace (Z.of_nat (length (name ++ ptr1)) - n) with (Z.of_nat (length ptr1)) by (rewrite length_app; lia).
  assert (n = Z.of_nat (length name)) as En by lia. rewrite length_app in Hcut.
  assert (drop (Z.to_nat n) (name ++ ptr1) = ptr1) as -> by (rewrite En, Nat2Z.id; apply drop_app_length).
  destruct (Z.of_nat (length ptr1) <? 4) eqn:E3; bool_prop.
  { right. destruct ptr1 as [|c ptr1].
    - eexists. split; [reflexivity|]. left. split; [done|]. exists name. left. rewrite app_nil_r, En. split; [done|]. intros ->. simpl in *. lia.
    - eexists. split; [apply Hleave; simpl; lia|]. right. split; [done|]. simpl in *. intros H. destruct (Hcut H); lia. }
  destruct ptr1 as [|a [|b0 [|c [|d ptr2]]]]; simpl in E3; try lia. apply Forall_app in Hok as [Hnok Hok]. fold (bytes_ok name) in *.
  change (a :: b0 :: c :: d :: ptr2) with ([a; b0; c; d] ++ ptr2) in Hok. apply Forall_app in Hok as [Hq Hok].
  set (v := be_value [a; b0; c; d]). pose proof (be_value_range _ Hq) as Hv. fold v in Hv. change (256 ^ Z.of_nat (length [a; b0; c; d])) with 4294967296 in Hv.
  assert (get_uint32 (a :: b0 :: c :: d :: ptr2) = Some v) as -> by (by apply (get_uint32_be [a; b0; c; d] ptr2)).
  assert (put_uint32 v = [a; b0; c; d]) as Ev by (rewrite put_uint32_be; by apply (be_bytes_value [a; b0; c; d])).
  change (a :: b0 :: c :: d :: ptr2) with ([a; b0; c; d] ++ ptr2) in *. rewrite <- Ev in *.
  cbn [mbind option_bind]. change 4%nat with (length (put_uint32 v)) at 1. rewrite drop_app_length, length_app, put_uint32_length.
  replace (Z.of_nat (4 + length ptr2) - 4) with (Z.of_nat (length ptr2)) by lia. rewrite length_app, put_uint32_length in Hcut.
  destruct (Z.of_nat (length ptr2) <? v) eqn:E4; bool_prop.
  { right. destruct ptr2 as [|e ptr2].
    - eexists. split; [reflexivity|]. left. split; [done|]. exists name. right. exists v. rewrite app_nil_r, En. split; [done|]. simpl in E4. lia.
    - eexists. split; [apply Hleave; simpl; lia|]. right. split; [done|]. simpl in *. intros H. destruct (Hcut H); lia. }
  left. exists (name, take (Z.to_nat v) ptr2), (drop (Z.to_nat v) ptr2).
  assert (Z.of_nat (length (take (Z.to_nat v) ptr2)) = v) as Hval by (rewrite length_take; lia).
  split; [split; cbn [fst snd]; lia|]. unfold encode_property. cbn [fst snd]. rewrite Hval, En. rewrite <- !app_assoc. cbn [app].
  by rewrite take_drop.
Qed.

(** The loop ends, within the command. *)
Lemma parse_loop_split f : forall m ptr, bytes_ok ptr -> (length ptr <= f)%nat ->
  exists l rest m' rc, ptr = encode_properties l ++ rest /\ Forall wire_ok l /\
    parse_loop b o f m ptr (Z.of_nat (length ptr)) zap_flag_ = Some (m', rc) /\
    (apply_properties m l = (m', rc) /\ (rc <> None \/ rest = []) \/
     apply_properties m l = (m', None) /\ rest <> [] /\ (rc = None /\ cut_off rest \/ rc = Some EPROTO /\ ~ cut_off rest)).
Proof.
  induction f as [|f IH]; intros m ptr Hok Hf.
  { destruct ptr as [|c ptr]; [|simpl in Hf; lia]. exists [], [], m, None. split_and!; try done. left. by split; [|right]. }
  destruct (decide (ptr = [])) as [->|Hne]; [exists [], [], m, None; split_and!; try done; left; by split; [|right]|].
  destruct (parse_loop_cases f m ptr Hok Hne) as [([k v] & rest & Hp & ->)|(rc & E & Hrc)].
  - pose proof (encode_property_length (k, v)) as Hl. rewrite length_app in Hf. rewrite parse_loop_property by done.
    apply Forall_app in Hok as [_ Hok]. cbn [fst snd]. destruct (apply_property b o m zap_flag_ k v) as [m1 [e|]] eqn:Ea.
    + exists [(k, v)], rest, m1, (Some e). split_and!; [by rewrite encode_properties_cons, app_nil_r|by constructor|done|].
      left. cbn [apply_properties]. rewrite Ea. by split; [|left].
    + destruct (IH m1 rest Hok ltac:(lia)) as (l & rest' & m' & rc & -> & Hl' & E & H). exists ((k, v) :: l), rest', m', rc.
      split_and!; [by rewrite encode_properties_cons, <- app_assoc|by constructor|done|]. cbn [apply_properties]. by rewrite Ea.
  - exists [], ptr, m, rc. split_and!; try done. right. by split_and!.
Qed.

End parsing.

(** ** What a socket announces *)

Definition announces (b : build) (o : options) : list property :=
  [(ZMTP_PROPERTY_SOCKET_TYPE, default [] (type_names b !! Z.to_nat (op_int o m_type)))] ++
  (if has_identity o then [(ZMTP_PROPERTY_IDENTITY, op_str o s_routing_id)] else []) ++ metadata_list o.

(** A socket that can announce itself: a type of this build, and values that fit. *)
Record announce_ok (b : build) (o : options) : Prop := {
  an_options : options_ok o;
  an_type : 0 <= op_int o m_type < Z.of_nat (length (type_names b));
  an_values k v : op_app_metadata o !! k = Some v -> Z.of_nat (length v) <= 0x7FFFFFFF;
}.

Lemma metadata_list_elem b o k v : announce_ok b o -> (k, v) ∈ metadata_list o ->
  op_app_metadata o !! k = Some v /\ metadata_ok k v /\ writable (k, v) /\ c_chars v = v.
Proof.
  intros [Ho _ Hv] Hin. unfold metadata_list in Hin. rewrite merge_sort_Permutation in Hin. apply elem_of_map_to_list in Hin.
  pose proof (ok_metadata _ Ho k v Hin) as Hm. split_and!; [done|done| |].
  - destruct Hm as (_ & Hl & _ & Hz). apply Forall_app in Hz as [Hk _]. split_and!; [done|by eapply Hv|done].
  - destruct Hm as (_ & _ & _ & Hz). apply Forall_app in Hz as [_ Hz]. apply Forall_cons_1 in Hz as [_ Hz]. by apply c_chars_nonzero.
Qed.

Lemma add_property_ok cap k v : writable (k, v) -> Z.of_nat (length (encode_property (k, v))) <= cap ->
  add_property cap k v = Some (encode_property (k, v)).
Proof.
  intros (Hk & Hv & Hz) Hcap. rewrite encode_property_length in Hcap. cbn [fst snd] in *. unfold add_property, name_len, name_len_size, value_len_size.
  rewrite c_chars_nonzero by done. rewrite (proj2 (Z.leb_le _ 255)) by lia. cbn [mbind option_bind].
  rewrite (proj2 (Z.leb_le _ cap)), (proj2 (Z.leb_le _ 0x7FFFFFFF)) by lia. done.
Qed.

Lemma property_len_ok k v : writable (k, v) -> property_len k (Z.of_nat (length v)) = Some (Z.of_nat (length (encode_property (k, v)))).
Proof.
  intros (Hk & Hv & Hz). rewrite encode_property_length. cbn [fst snd] in *. unfold property_len, name_len, name_len_size, value_len_size.
  rewrite c_chars_nonzero by done. rewrite (proj2 (Z.leb_le _ 255)) by lia. cbn [mbind option_bind]. f_equal. lia.
Qed.

Lemma add_metadata_ok l cap : Forall (fun p => writable p /\ c_chars p.2 = p.2) l -> forall written,
  Z.of_nat (length (written ++ encode_properties l)) <= cap -> add_metadata l cap written = Some (written ++ encode_properties l).
Proof.
  induction 1 as [|[k v] l [Hw Hc] _ IH]; intros written Hcap; [by rewrite app_nil_r|]. cbn [add_metadata snd] in *.
  rewrite encode_properties_cons, !length_app in Hcap. rewrite Hc.
  rewrite (add_property_ok _ k v) by (done || lia). cbn [mbind option_bind]. rewrite IH; rewrite <- !app_assoc; [by rewrite encode_properties_cons|].
  rewrite !length_app. lia.
Qed.

Lemma metadata_len_ok l : Forall (fun p => writable p /\ c_chars p.2 = p.2) l -> metadata_len l = Some (Z.of_nat (length (encode_properties l))).
Proof.
  induction 1 as [|[k v] l [Hw Hc] _ IH]; [done|]. cbn [metadata_len snd] in *. rewrite Hc, (property_len_ok k v) by done.
  cbn [mbind option_bind]. rewrite IH. cbn [mbind option_bind]. rewrite encode_properties_cons, length_app. f_equal. lia.
Qed.

Lemma type_names_writable b t name : type_names b !! t = Some name -> writable (ZMTP_PROPERTY_SOCKET_TYPE, name).
Proof.
  intros Hn. split_and!; cbn [fst snd]; [vm_compute; lia| |repeat constructor; unfold is_u8; vm_compute; congruence].
  assert (Forall (fun n : bytes => (length n <= 10)%nat) (type_names b)) as Hall.
  { unfold type_names. apply Forall_app. split; [|destruct (b_draft b)]; repeat constructor; vm_compute; lia. }
  pose proof (Forall_elem _ _ _ Hall (list_elem_of_lookup_2 _ _ _ Hn)). simpl in *. lia.
Qed.

(** The command holds exactly what is announced: the size computed in
    advance is the size of what is written, and no assertion fails. *)
Lemma make_command_ok b o prefix : announce_ok b o ->
  make_command_with_basic_properties b o prefix =
  Some (Z.of_nat (length (prefix ++ encode_properties (announces b o))), prefix ++ encode_properties (announces b o)).
Proof.
  intros Han. pose proof (an_type _ _ Han) as Ht. pose proof (an_options _ _ Han) as Ho.
  destruct (lookup_lt_is_Some_2 (type_names b) (Z.to_nat (op_int o m_type))) as [name Hn]; [lia|].
  assert (socket_type_string b (op_int o m_type) = Some name) as Hs by (unfold socket_type_string; by rewrite (proj2 (Z.leb_le _ _)) by lia).
  assert (writable (ZMTP_PROPERTY_SOCKET_TYPE, name)) as Hw by (by eapply type_names_writable).
  assert (writable (ZMTP_PROPERTY_IDENTITY, op_str o s_routing_id)) as Hi.
  { destruct (ok_str _ Ho s_routing_id) as [_ Hl]. simpl in Hl.
    split_and!; cbn [fst snd]; [vm_compute; lia|lia|repeat constructor; unfold is_u8; vm_compute; congruence]. }
  assert (Forall (fun p => writable p /\ c_chars p.2 = p.2) (metadata_list o)) as Hm.
  { apply Forall_of_elem. intros [k v] Hin. by destruct (metadata_list_elem b o k v Han Hin) as (_ & _ & ? & ?). }
  unfold make_command_with_basic_properties, basic_properties_len, add_basic_properties, announces. rewrite Hs, Hn. cbn [mbind option_bind default from_option].
  rewrite metadata_len_ok by done. rewrite (property_len_ok _ name) by done. cbn [mbind option_bind fst snd id app].
  destruct (has_identity o).
  - rewrite (property_len_ok _ (op_str o s_routing_id)) by done. cbn [mbind option_bind app]. rewrite !encode_properties_cons.
    rewrite (add_property_ok _ _ name) by (done || lia). cbn [mbind option_bind].
    rewrite (add_property_ok _ _ (op_str o s_routing_id)) by (done || lia). cbn [mbind option_bind].
    rewrite add_metadata_ok by (done || (rewrite !length_app; lia)). cbn [mbind option_bind]. rewrite <- !app_assoc. f_equal. f_equal.
    rewrite !length_app. lia.
  - cbn [mbind option_bind app]. rewrite !encode_properties_cons.
    rewrite (add_property_ok _ _ name) by (done || lia). cbn [mbind option_bind].
    rewrite add_metadata_ok by (done || (rewrite !length_app; lia)). cbn [mbind option_bind]. f_equal. f_equal.
    rewrite !length_app. lia.
Qed.

Lemma announces_wire_ok b o : announce_ok b o -> Forall wire_ok (announces b o).
Proof.
  intros Han. pose proof (an_type _ _ Han) as Ht. destruct (lookup_lt_is_Some_2 (type_names b) (Z.to_nat (op_int o m_type))) as [name Hn]; [lia|].
  unfold announces. rewrite Hn. repeat apply Forall_app_2.
  - constructor; [|constructor]. destruct (type_names_writable _ _ _ Hn) as (? & ? & _). cbn [fst snd] in *. split; cbn [fst snd default from_option id]; lia.
  - destruct (has_identity o); [|constructor]. destruct (ok_str _ (an_options _ _ Han) s_routing_id) as [_ Hl]. simpl in Hl.
    constructor; [|constructor]. split; cbn [fst snd]; [vm_compute; lia|lia].
  - apply Forall_of_elem. intros [k v] Hin. destruct (metadata_list_elem b o k v Han Hin) as (_ & _ & (? & ? & _) & _). cbn [fst snd] in *. split; cbn [fst snd]; lia.
Qed.

(** ** Reading what a socket announces *)

Lemma map_emplace_union d k v : map_emplace d k v = d ∪ {[k := v]}.
Proof.
  unfold map_emplace. destruct (d !! k) as [w|] eqn:E; [symmetry; by eapply union_singleton_r|by apply insert_union_singleton_r].
Qed.

Lemma insert_properties l : forall m,
  foldl (fun m p => insert_property m false p.1 p.2) m l =
  Mech (mc_routing_id m) (mc_user_id m) (mc_zmtp_properties m ∪ list_to_map l) (mc_zap_properties m).
Proof.
  induction l as [|[k v] l IH]; intros m; simpl; [rewrite map_union_empty; by destruct m|]. rewrite IH. simpl.
  by rewrite map_emplace_union, <- (assoc_L (∪)), <- insert_union_singleton_l.
Qed.

(** Properties that mean nothing to the socket are stored. *)
Lemma apply_plain b o l : Forall (fun p => p.1 <> ZMTP_PROPERTY_IDENTITY /\ p.1 <> ZMTP_PROPERTY_SOCKET_TYPE) l -> forall m,
  apply_properties b o false m l = (foldl (fun m p => insert_property m false p.1 p.2) m l, None).
Proof.
  induction 1 as [|[k v] l [Hi Ht] _ IH]; intros m; [done|]. cbn [apply_properties fst snd foldl] in *. unfold apply_property.
  rewrite !bool_decide_eq_false_2 by done. apply IH.
Qed.

Definition accepts (b : build) (o o' : options) : bool :=
  check_socket_type b (op_int o m_type) (default [] (type_names b !! Z.to_nat (op_int o' m_type))).

(** What a socket knows of its peer after the handshake. *)
Definition learn_peer (b : build) (o o' : options) (m : mech) : mech :=
  Mech (if has_identity o' && negb (op_int o m_recv_routing_id =? 0) then op_str o' s_routing_id else mc_routing_id m) (mc_user_id m)
    (list_to_map (announces b o')) (mc_zap_properties m).

Lemma metadata_names b o : announce_ok b o ->
  Forall (fun p => p.1 <> ZMTP_PROPERTY_IDENTITY /\ p.1 <> ZMTP_PROPERTY_SOCKET_TYPE) (metadata_list o).
Proof.
  intros Han. apply Forall_of_elem. intros [k v] Hin. destruct (metadata_list_elem b o k v Han Hin) as (_ & (Hx & _) & _). cbn [fst snd].
  split; intros ->; vm_compute in Hx; discriminate.
Qed.

Lemma apply_announces b o o' m : announce_ok b o' -> mc_zmtp_properties m = ∅ ->
  apply_properties b o false m (announces b o') =
  if accepts b o o' then (learn_peer b o o' m, None) else (m, Some EINVAL).
Proof.
  intros Han Hz. pose proof (metadata_names _ _ Han) as Hm. unfold accepts, learn_peer, announces. cbn [app apply_properties].
  set (name := default [] (type_names b !! _)). unfold apply_property at 1.
  rewrite bool_decide_eq_false_2, bool_decide_eq_true_2 by done. cbn [andb].
  destruct (check_socket_type _ _ _); cbn [negb]; [|done].
  destruct (has_identity o') eqn:Hid; cbn [app andb apply_properties].
  - unfold apply_property at 1. rewrite bool_decide_eq_true_2 by done. cbn [andb].
    destruct (op_int o m_recv_routing_id =? 0); cbn [negb].
    + rewrite bool_decide_eq_false_2 by done. rewrite apply_plain, insert_properties by done. unfold insert_property. cbn. f_equal. f_equal.
      rewrite Hz, !map_emplace_union, map_empty_union. by rewrite ?list_to_map_cons, !insert_union_singleton_l, (assoc_L (∪)).
    + rewrite apply_plain, insert_properties by done. unfold insert_property. cbn. f_equal. f_equal.
      rewrite Hz, !map_emplace_union, map_empty_union. by rewrite ?list_to_map_cons, !insert_union_singleton_l, (assoc_L (∪)).
  - rewrite apply_plain, insert_properties by done. unfold insert_property. cbn. f_equal. f_equal.
    rewrite Hz, !map_emplace_union, map_empty_union. by rewrite ?list_to_map_cons, !insert_union_singleton_l.
Qed.

(** A command is parsed to what was announced. *)
Lemma parse_announced b o o' m : announce_ok b o' -> mc_zmtp_properties m = ∅ ->
  parse_metadata b o m (encode_properties (announces b o')) (Z.of_nat (length (encode_properties (announces b o')))) false =
  Some (if accepts b o o' then (learn_peer b o o' m, None) else (m, Some EINVAL)).
Proof. intros Han Hz. unfold parse_metadata. rewrite parse_encoded by (done || by apply announces_wire_ok). by rewrite apply_announces. Qed.

(** ** Theorems *)

Lemma accepts_table :
  forallb (fun draft => let b := Build true true true draft true in
    forallb (fun t => forallb (fun t' =>
      eqb (check_socket_type b (Z.of_nat t) (default [] (type_names b !! t'))) (check_socket_type b (Z.of_nat t') (default [] (type_names b !! t))))
      (seq 0 (length (type_names b)))) (seq 0 (length (type_names b)))) [true; false] = true.
Proof. vm_compute. reflexivity. Qed.

(** Socket types agree on whether they can talk: [check_socket_type] is
    symmetric, so that a handshake cannot succeed on one side only. *)
Lemma accepts_symmetric b o o' :
  0 <= op_int o m_type < Z.of_nat (length (type_names b)) -> 0 <= op_int o' m_type < Z.of_nat (length (type_names b)) ->
  accepts b o o' = accepts b o' o.
Proof.
  intros Ht Ht'. pose proof accepts_table as H. rewrite forallb_forall in H. specialize (H (b_draft b) ltac:(destruct (b_draft b); simpl; auto)).
  assert (type_names (Build true true true (b_draft b) true) = type_names b) as En by done.
  assert (forall t n, check_socket_type (Build true true true (b_draft b) true) t n = check_socket_type b t n) as Ec by done.
  cbv zeta in H. rewrite En, forallb_forall in H. specialize (H (Z.to_nat (op_int o m_type)) ltac:(apply in_seq; lia)).
  rewrite forallb_forall in H. specialize (H (Z.to_nat (op_int o' m_type)) ltac:(apply in_seq; lia)).
  rewrite !Ec, !Z2Nat.id in H by lia. by apply eqb_prop in H.
Qed.

(** What a socket announces is what its peer learns. The command that
    [make_command_with_basic_properties] writes has exactly the size that
    was computed for it, no assertion fails on options that [setsockopt]
    accepted, and parsing it leaves the peer with every announced property,
    and with the routing id when it asked for one; a peer of a type that
    cannot talk to this socket refuses it with EINVAL, and the two sides
    always agree on that. *)
Theorem metadata_exchanged b o o' (prefix : bytes) : announce_ok b o -> announce_ok b o' ->
  exists size body, make_command_with_basic_properties b o' prefix = Some (size, prefix ++ body) /\
    size = Z.of_nat (length (prefix ++ body)) /\
    parse_metadata b o mech_new body (size - Z.of_nat (length prefix)) false =
      Some (if accepts b o o' then (learn_peer b o o' mech_new, None) else (mech_new, Some EINVAL)) /\
    accepts b o o' = accepts b o' o.
Proof.
  intros Han Han'. eexists _, _. split; [by apply make_command_ok|]. split; [done|]. split; [|apply accepts_symmetric; by apply an_type].
  rewrite length_app. replace (Z.of_nat _ - Z.of_nat _) with (Z.of_nat (length (encode_properties (announces b o')))) by lia.
  by rewrite parse_announced.
Qed.

Definition dealer_options : options := set_int (set_str options_new s_routing_id [1; 2]) m_type ZMQ_DEALER.
Definition router_options : options := set_int (set_int options_new m_type ZMQ_ROUTER) m_recv_routing_id 1.

Lemma example_announce_ok (b : build) o : o = dealer_options \/ o = router_options -> announce_ok b o.
Proof.
  intros Ho. split.
  - destruct Ho as [->| ->]; [apply set_int_ok; [apply set_str_ok|]|apply set_int_ok; [apply set_int_ok|]]; try apply options_new_ok;
      unfold imember_ok; simpl; unfold INT_MAX; try (vm_compute; split; congruence).
    split; [repeat constructor; unfold is_u8; lia|simpl; lia].
  - assert (12 <= Z.of_nat (length (type_names b))) by (unfold type_names; rewrite length_app; simpl; lia).
    destruct Ho as [->| ->]; [change (op_int dealer_options m_type) with 5|change (op_int router_options m_type) with 6]; lia.
  - by destruct Ho as [->| ->].
Qed.

Lemma metadata_exchanged_witness : exists size body,
  make_command_with_basic_properties (Build true true true true true) dealer_options [5; 82; 69; 65; 68; 89] = Some (size, [5; 82; 69; 65; 68; 89] ++ body) /\
  parse_metadata (Build true true true true true) router_options mech_new body (size - 6) false =
    Some (learn_peer (Build true true true true true) router_options dealer_options mech_new, None) /\
  mc_routing_id (learn_peer (Build true true true true true) router_options dealer_options mech_new) = [1; 2].
Proof.
  destruct (metadata_exchanged (Build true true true true true) router_options dealer_options [5; 82; 69; 65; 68; 89]) as (size & body & H1 & H2 & H3 & _).
  - apply example_announce_ok. by right.
  - apply example_announce_ok. by left.
  - exists size, body. split; [exact H1|]. split; [|reflexivity].
    assert (accepts (Build true true true true true) router_options dealer_options = true) as E by reflexivity. rewrite E in H3. exact H3.
Defined.

(** Metadata of a peer are parsed within the command, and whatever the
    peer sent: the parser reads a list of properties and stops at the first
    that is refused (EINVAL) or not whole; what is left over is reported as
    EPROTO, unless it is a property that was cut off right behind its name
    or behind the length of its value, which is ignored. *)
Theorem metadata_parse b o m ptr zap_flag_ : bytes_ok ptr ->
  exists l rest m' rc, ptr = encode_properties l ++ rest /\ Forall wire_ok l /\
    parse_metadata b o m ptr (Z.of_nat (length ptr)) zap_flag_ = Some (m', rc) /\
    (apply_properties b o zap_flag_ m l = (m', rc) /\ (rc <> None \/ rest = []) \/
     apply_properties b o zap_flag_ m l = (m', None) /\ rest <> [] /\ (rc = None /\ cut_off rest \/ rc = Some EPROTO /\ ~ cut_off rest)).
Proof. intros Hok. by apply parse_loop_split. Qed.

Lemma metadata_parse_witness :
  let ptr := [2; 65; 66; 0; 0; 0; 1; 67; 9] in
  bytes_ok ptr /\ exists m', parse_metadata (Build true true true true true) options_new mech_new ptr (Z.of_nat (length ptr)) false = Some (m', Some EPROTO).
Proof.
  intros ptr. assert (bytes_ok ptr) as Hok by (repeat constructor; unfold is_u8; lia). split; [done|].
  destruct (metadata_parse (Build true true true true true) options_new mech_new ptr false Hok) as (l & rest & m' & rc & _ & _ & E & _).
  exists m'. rewrite E. f_equal. f_equal. apply (f_equal (fmap snd)) in E. vm_compute in E. injection E as <-. reflexivity.
Defined.

(** A command that ends behind the name of a property is accepted without it. *)
Theorem metadata_cut_off_accepted : exists m',
  parse_metadata (Build true true true true true) options_new mech_new [2; 65; 66] 3 false = Some (m', None) /\ m' = mech_new.
Proof. eexists. split; reflexivity. Qed.
