(* ===== verification/Array.v ===== *)
(** * Arrays of pointers whose items know their position (src/src/array.hpp)

    [array_t<T, ID>] keeps the vector of items; each item stores its index
    in its [array_item_t<ID>] base.  Items are named by integers (no null
    pointer is ever stored), and [a_index] is the [_array_index] of the
    items; an access outside the vector is [None]. *)

From S2P Require Import Prelude.

Record array := Array { a_items : list Z; a_index : gmap Z nat }.

Definition array_new : array := Array [] ∅.

Definition array_size (a : array) : nat := length (a_items a).

Definition array_empty (a : array) : bool := match a_items a with [] => true | _ => false end.

Definition array_get (a : array) (i : nat) : option Z := a_items a !! i.

Definition array_index (a : array) (item : Z) : option nat := a_index a !! item.

Definition array_push_back (a : array) (item : Z) : array :=
  Array (a_items a ++ [item]) (<[item := length (a_items a)]> (a_index a)).

(** [erase (size_type index_)] *)
Definition array_erase_at (a : array) (i : nat) : option array :=
  match list.last (a_items a) with
  | None => Some a
  | Some b =>
      if (i <? length (a_items a))%nat then
        Some (Array (take (length (a_items a) - 1) (<[i := b]> (a_items a))) (<[b := i]> (a_index a)))
      else None
  end.

(** [erase (T *item_)] *)
Definition array_erase (a : array) (item : Z) : option array :=
  let* i := array_index a item in array_erase_at a i.

Definition array_swap (a : array) (i j : nat) : option array :=
  let* x := a_items a !! i in
  let* y := a_items a !! j in
  Some (Array (<[j := x]> (<[i := y]> (a_items a))) (<[y := i]> (<[x := j]> (a_index a)))).

(** ** The stored positions are right *)

Record array_wf (a : array) : Prop := {
  aw_nodup : NoDup (a_items a);
  aw_index i x : a_items a !! i = Some x -> a_index a !! x = Some i;
}.

Lemma array_new_wf : array_wf array_new.
Proof. constructor; [constructor|done]. Qed.

Lemma array_index_get a x i : array_wf a -> x ∈ a_items a ->
  array_index a x = Some i <-> array_get a i = Some x.
Proof.
  intros Hwf Hx. split; [|apply aw_index; done].
  apply list_elem_of_lookup in Hx as [j Hj]. unfold array_index, array_get.
  rewrite (aw_index _ Hwf _ _ Hj). congruence.
Qed.

Lemma array_index_mem a x : array_wf a -> x ∈ a_items a ->
  exists i, array_index a x = Some i /\ a_items a !! i = Some x.
Proof.
  intros Hwf Hx. apply list_elem_of_lookup in Hx as [i Hi]. exists i. split; [|done].
  by apply (aw_index _ Hwf).
Qed.

Lemma array_push_back_wf a x : array_wf a -> x ∉ a_items a -> array_wf (array_push_back a x).
Proof.
  intros [Hnd Hix] Hx. constructor; simpl.
  - apply list.NoDup_app. split_and!; [done| |apply NoDup_singleton]. set_solver.
  - intros i y [Hy|[Hi Hy]]%lookup_app_Some.
    + rewrite lookup_insert_ne; [by apply Hix|]. intros ->. apply Hx. by eapply list_elem_of_lookup_2.
    + apply list_lookup_singleton_Some in Hy as [Hi' <-]. rewrite lookup_insert_eq. f_equal. lia.
Qed.

(** The position an item has after the swap of [i] and [j]. *)
Definition swap_pos (i j k : nat) : nat :=
  if decide (k = i) then j else if decide (k = j) then i else k.

Lemma swap_pos_involutive i j k : swap_pos i j (swap_pos i j k) = k.
Proof. unfold swap_pos. repeat case_decide; congruence. Qed.

Lemma swap_lookup (l : list Z) i j x y k : l !! i = Some x -> l !! j = Some y ->
  <[j := x]> (<[i := y]> l) !! k = l !! swap_pos i j k.
Proof.
  intros Hi Hj. pose proof (lookup_lt_Some _ _ _ Hi). pose proof (lookup_lt_Some _ _ _ Hj).
  unfold swap_pos. destruct (decide (k = j)) as [->|Hkj].
  - rewrite list_lookup_insert_eq by (rewrite length_insert; lia). by case_decide; subst.
  - rewrite list_lookup_insert_ne by done. destruct (decide (k = i)) as [->|Hki].
    + by rewrite list_lookup_insert_eq by lia.
    + by rewrite list_lookup_insert_ne by done.
Qed.

Lemma array_swap_mem a i j a' : array_swap a i j = Some a' -> forall x, x ∈ a_items a' <-> x ∈ a_items a.
Proof.
  unfold array_swap. destruct (a_items a !! i) as [y|] eqn:Hi; [|done]. cbn [mbind option_bind].
  destruct (a_items a !! j) as [z|] eqn:Hj; [|done]. intros [= <-] x. cbn [a_items]. rewrite !list_elem_of_lookup.
  setoid_rewrite (swap_lookup _ _ _ _ _ _ Hi Hj). split; intros [k Hk]; [by eexists|].
  exists (swap_pos i j k). by rewrite swap_pos_involutive.
Qed.

Lemma array_swap_spec a i j : array_wf a -> (i < array_size a)%nat -> (j < array_size a)%nat ->
  exists a', array_swap a i j = Some a' /\ array_wf a' /\ array_size a' = array_size a /\
    (forall k, a_items a' !! k = a_items a !! swap_pos i j k) /\
    (forall x, x ∈ a_items a' <-> x ∈ a_items a).
Proof.
  intros [Hnd Hix] Hi Hj. unfold array_swap, array_size in *.
  destruct (lookup_lt_is_Some_2 _ _ Hi) as [x Hx]. destruct (lookup_lt_is_Some_2 _ _ Hj) as [y Hy].
  rewrite Hx, Hy. simpl. eexists. split; [done|]. simpl.
  pose proof (fun k => swap_lookup (a_items a) i j x y k Hx Hy) as Hl.
  assert (forall k z, a_items a !! swap_pos i j k = Some z ->
    <[y := i]> (<[x := j]> (a_index a)) !! z = Some k) as Hidx.
  { intros k z Hz. unfold swap_pos in Hz. destruct (decide (k = i)) as [->|Hki].
    - simplify_eq. by rewrite lookup_insert_eq.
    - destruct (decide (k = j)) as [->|Hkj].
      + simplify_eq. rewrite lookup_insert_ne, lookup_insert_eq; [done|].
        intros ->. apply Hki. symmetry. by eapply NoDup_lookup.
      + pose proof (Hix _ _ Hz) as Hk. rewrite !lookup_insert_ne; [done| |].
        * intros ->. pose proof (Hix _ _ Hx). congruence.
        * intros ->. pose proof (Hix _ _ Hy). congruence. }
  split_and!.
  - constructor; simpl.
    + apply NoDup_alt. intros k k' z. rewrite !Hl. intros Hk Hk'.
      rewrite <- (swap_pos_involutive i j k), <- (swap_pos_involutive i j k'). f_equal.
      by eapply NoDup_lookup.
    + intros k z. rewrite Hl. apply Hidx.
  - by rewrite !length_insert.
  - done.
  - intros z. rewrite !list_elem_of_lookup. setoid_rewrite Hl. split; intros [k Hk]; [eauto|].
    exists (swap_pos i j k). by rewrite swap_pos_involutive.
Qed.

(** Erasing an item moves the last one into its place. *)
Lemma array_erase_spec a x : array_wf a -> x ∈ a_items a ->
  exists a' i, array_erase a x = Some a' /\ array_wf a' /\ a_items a !! i = Some x /\
    S (array_size a') = array_size a /\
    (forall k, (k < array_size a')%nat ->
       a_items a' !! k = if decide (k = i) then list.last (a_items a) else a_items a !! k) /\
    (forall y, y ∈ a_items a' <-> y ∈ a_items a /\ y <> x).
Proof.
  intros Hwf Hx. destruct (array_index_mem a x Hwf Hx) as (i & Hi & Hix). unfold array_erase.
  rewrite Hi. simpl. unfold array_erase_at, array_size.
  pose proof (lookup_lt_Some _ _ _ Hix) as Hlt.
  destruct (list.last (a_items a)) as [b|] eqn:Hb; [|apply last_None in Hb; rewrite Hb in Hlt; simpl in Hlt; lia].
  replace (i <? length (a_items a))%nat with true by (symmetry; by apply Nat.ltb_lt).
  pose proof Hb as Hb'. rewrite last_lookup in Hb'.
  set (n := length (a_items a)) in *. replace (pred n) with (n - 1)%nat in Hb' by lia.
  destruct Hwf as [Hnd Hidx].
  assert (forall k, (k < n - 1)%nat -> take (n - 1) (<[i := b]> (a_items a)) !! k =
    if decide (k = i) then Some b else a_items a !! k) as Hl.
  { intros k Hk. rewrite lookup_take_lt by done. case_decide; subst.
    - by rewrite list_lookup_insert_eq by done.
    - by rewrite list_lookup_insert_ne by done. }
  assert (length (take (n - 1) (<[i := b]> (a_items a))) = (n - 1)%nat) as Hlen.
  { rewrite length_take, length_insert. fold n. lia. }
  assert (forall k y, take (n - 1) (<[i := b]> (a_items a)) !! k = Some y ->
    (k < n - 1)%nat /\ (k = i /\ y = b /\ i <> (n - 1)%nat \/ k <> i /\ a_items a !! k = Some y)) as Hget.
  { intros k y Hk. pose proof (lookup_lt_Some _ _ _ Hk). rewrite Hlen in *. rewrite Hl in Hk by done.
    split; [done|]. case_decide; [left|right]; simplify_eq; split_and!; done || lia. }
  eexists _, i. split; [done|]. cbn [a_items a_index]. rewrite Hlen. split_and!; [|done|lia|done|].
  - constructor; cbn [a_items a_index].
    + apply NoDup_alt. intros k k' y [Hk [(Ek&Ey&?)|(Hn&Hy)]]%Hget [Hk' [(Ek'&Ey'&?)|(Hn'&Hy')]]%Hget.
      * congruence.
      * exfalso. rewrite Ey in Hy'. pose proof (NoDup_lookup _ _ _ _ Hnd Hy' Hb'). lia.
      * exfalso. rewrite Ey' in Hy. pose proof (NoDup_lookup _ _ _ _ Hnd Hy Hb'). lia.
      * by eapply NoDup_lookup.
    + intros k y [Hk [(->&->&?)|(Hn&Hy)]]%Hget; [by rewrite lookup_insert_eq|].
      rewrite lookup_insert_ne; [by apply Hidx|]. intros ->.
      pose proof (NoDup_lookup _ _ _ _ Hnd Hy Hb'). lia.
  - intros y. rewrite !list_elem_of_lookup. split.
    + intros [k [Hk [(->&->&?)|(Hn&Hy)]]%Hget].
      * split; [by eexists|]. intros ->. pose proof (NoDup_lookup _ _ _ _ Hnd Hix Hb'). lia.
      * split; [by eexists|]. intros ->. by pose proof (NoDup_lookup _ _ _ _ Hnd Hix Hy).
    + intros [[k Hk] Hne]. pose proof (lookup_lt_Some _ _ _ Hk) as Hkn. fold n in Hkn.
      destruct (decide (k = (n - 1)%nat)) as [->|Hkn'].
      * exists i. rewrite Hl; [rewrite decide_True by done; congruence|].
        assert (i <> (n - 1)%nat) by congruence. lia.
      * exists k. rewrite Hl by lia. rewrite decide_False; [done|]. congruence.
Qed.

(** ** The leading part of an array

    The routing components keep the pipes in a given state in the first
    [n] places and move items over that boundary with swaps. *)

Definition in_part (a : array) (n : nat) (x : Z) : Prop :=
  exists k, (k < n)%nat /\ a_items a !! k = Some x.

Lemma in_part_mem a n x : in_part a n x -> x ∈ a_items a.
Proof. intros (k & _ & Hk). by eapply list_elem_of_lookup_2. Qed.

#[export] Instance in_part_dec a n x : Decision (in_part a n x).
Proof.
  refine (cast_if (decide (x ∈ take n (a_items a)))); unfold in_part.
  - rewrite list_elem_of_lookup in *. destruct e as [k Hk]. exists k. apply lookup_take_Some in Hk. tauto.
  - intros (k & Hk & Hx). apply n0. apply list_elem_of_lookup. exists k. by apply lookup_take_Some.
Defined.

Lemma in_part_all a x : in_part a (array_size a) x <-> x ∈ a_items a.
Proof.
  split; [apply in_part_mem|]. intros [k Hk]%list_elem_of_lookup. exists k.
  split; [|done]. by eapply lookup_lt_Some.
Qed.

(** A swap inside a part, or outside it, keeps the part. *)
Lemma in_part_swap a a' i j n x :
  (forall k, a_items a' !! k = a_items a !! swap_pos i j k) ->
  (i < n /\ j < n \/ n <= i /\ n <= j)%nat -> in_part a' n x <-> in_part a n x.
Proof.
  intros Hget Hn. unfold in_part. setoid_rewrite Hget.
  assert (forall k, (k < n)%nat -> (swap_pos i j k < n)%nat) as Hs
    by (intros k Hk; unfold swap_pos; repeat case_decide; lia).
  split; intros (k & Hk & Hx); exists (swap_pos i j k); rewrite ?swap_pos_involutive; auto.
Qed.

(** The item at [i] leaves the part. *)
Lemma array_shrink_spec a n i x : array_wf a -> (i < n <= array_size a)%nat -> a_items a !! i = Some x ->
  exists a', array_swap a i (n - 1) = Some a' /\ array_wf a' /\ array_size a' = array_size a /\
    (forall y, y ∈ a_items a' <-> y ∈ a_items a) /\ a_items a' !! (n - 1)%nat = Some x /\
    (forall m y, (n <= m)%nat -> in_part a' m y <-> in_part a m y) /\
    (forall y, in_part a' (n - 1) y <-> in_part a n y /\ y <> x).
Proof.
  intros Hwf Hi Hx.
  destruct (array_swap_spec a i (n - 1)) as (a' & Hsw & Hwf' & Hsz & Hget & Hmem); [done|lia|lia|].
  exists a'. split_and!; try done.
  - rewrite Hget. unfold swap_pos. case_decide as E; [by rewrite E|]. by rewrite decide_True.
  - intros m y Hm. apply (in_part_swap _ _ _ _ _ _ Hget). lia.
  - intros y. unfold in_part. setoid_rewrite Hget. unfold swap_pos. split.
    + intros (k & Hk & Hy). split; [|intros ->]; repeat case_decide; try lia; eauto using Nat.lt_trans.
      * exists (n - 1)%nat. split; [lia|done].
      * exists k. split; [lia|done].
      * pose proof (NoDup_lookup _ _ _ _ (aw_nodup _ Hwf) Hx Hy). lia.
      * by pose proof (NoDup_lookup _ _ _ _ (aw_nodup _ Hwf) Hx Hy).
    + intros [(k & Hk & Hy) Hne]. destruct (decide (k = (n - 1)%nat)) as [->|Hk'].
      * assert (i <> (n - 1)%nat) by congruence. exists i. rewrite decide_True by done. split; [lia|done].
      * exists k. assert (k <> i) by congruence. rewrite !decide_False by done. split; [lia|done].
Qed.

(** An item from outside enters the part. *)
Lemma array_grow_spec a n i x : array_wf a -> (n <= i)%nat -> a_items a !! i = Some x ->
  exists a', array_swap a i n = Some a' /\ array_wf a' /\ array_size a' = array_size a /\
    (forall y, y ∈ a_items a' <-> y ∈ a_items a) /\ a_items a' !! n = Some x /\
    (forall m y, (m <= n \/ i < m)%nat -> in_part a' m y <-> in_part a m y) /\
    (forall y, in_part a' (S n) y <-> in_part a n y \/ y = x).
Proof.
  intros Hwf Hi Hx. pose proof (lookup_lt_Some _ _ _ Hx) as Hlt.
  destruct (array_swap_spec a i n) as (a' & Hsw & Hwf' & Hsz & Hget & Hmem);
    [done|done|unfold array_size; lia|].
  exists a'. split_and!; try done.
  - rewrite Hget. unfold swap_pos. case_decide as E; [by rewrite E|]. by rewrite decide_True.
  - intros m y Hm. apply (in_part_swap _ _ _ _ _ _ Hget). lia.
  - intros y. unfold in_part. setoid_rewrite Hget. unfold swap_pos. split.
    + intros (k & Hk & Hy). destruct (decide (k = n)) as [->|Hkn].
      * right. case_decide as E; [|congruence]. rewrite E in *. congruence.
      * left. exists k. rewrite !decide_False in Hy by lia. split; [lia|done].
    + intros [(k & Hk & Hy)| ->].
      * exists k. rewrite !decide_False by lia. split; [lia|done].
      * exists n. case_decide as E; [rewrite E in *; split; [lia|done]|].
        rewrite decide_True by done. split; [lia|done].
Qed.

(** [push_back] and the swap that moves the new item into the part. *)
Lemma array_attach_spec a n x : array_wf a -> (n <= array_size a)%nat -> x ∉ a_items a ->
  let a1 := array_push_back a x in
  exists a', array_swap a1 n (array_size a1 - 1) = Some a' /\ array_wf a' /\
    array_size a' = S (array_size a) /\
    (forall y, y ∈ a_items a' <-> y ∈ a_items a \/ y = x) /\ a_items a' !! n = Some x /\
    (forall k, (k < n)%nat -> a_items a' !! k = a_items a !! k) /\
    (forall m y, (m <= n)%nat -> in_part a' m y <-> in_part a m y) /\
    (forall y, in_part a' (S n) y <-> in_part a n y \/ y = x).
Proof.
  intros Hwf Hn Hx a1. pose proof (array_push_back_wf a x Hwf Hx) as Hwf1.
  assert (array_size a1 = S (array_size a)) as Hs by (unfold a1, array_size; simpl; rewrite length_app; simpl; lia).
  assert (forall k, (k < array_size a)%nat -> a_items a1 !! k = a_items a !! k) as Hlow.
  { intros k Hk. unfold a1. simpl. by rewrite lookup_app_l. }
  assert (a_items a1 !! (array_size a1 - 1)%nat = Some x) as Hlast.
  { rewrite Hs. unfold a1, array_size. simpl. rewrite Nat.sub_0_r, lookup_app_r, Nat.sub_diag; done. }
  destruct (array_swap_spec a1 n (array_size a1 - 1)) as (a' & Hsw & Hwf' & Hsz & Hget & Hmem);
    [done|lia|lia|].
  assert (a_items a' !! n = Some x) as Hat by (rewrite Hget; unfold swap_pos; by rewrite decide_True).
  assert (forall k, (k < n)%nat -> a_items a' !! k = a_items a !! k) as Hkeep.
  { intros k Hk. rewrite Hget. unfold swap_pos. rewrite !decide_False by lia. apply Hlow. lia. }
  assert (forall m y, (m <= n)%nat -> in_part a' m y <-> in_part a m y) as Hpart.
  { intros m y Hm. unfold in_part. split; intros (k & Hk & Hy); exists k; rewrite ?Hkeep in * by lia; done. }
  exists a'. split_and!; try done; try lia.
  - intros y. rewrite Hmem. unfold a1. simpl. set_solver.
  - intros y. split.
    + intros (k & Hk & Hy). destruct (decide (k = n)) as [->|]; [right; congruence|].
      left. exists k. rewrite <- Hkeep by lia. split; [lia|done].
    + intros [(k & Hk & Hy)| ->]; [exists k; rewrite Hkeep by lia; split; [lia|done]|].
      exists n. split; [lia|done].
Qed.
