(* ===== verification/Frame.v ===== *)
(** * What the layers above see of a message (src/src/msg.hpp)

    A frame is the type, the flags, the body, the group and the routing id
    of a [msg_t]: what its accessors return.  How the body is stored and
    shared is a matter of [Msg]. *)

From S2P Require Import Prelude.

Inductive msg_type :=
| type_vsm | type_lmsg | type_delimiter | type_cmsg | type_zclmsg | type_join | type_leave.

#[export] Instance msg_type_eq_dec : EqDecision msg_type.
Proof. solve_decision. Defined.

Definition flag_more : Z := 1.
Definition flag_command : Z := 2.
Definition flag_credential : Z := 32.
Definition flag_routing_id : Z := 64.
Definition flag_shared : Z := 128.
Definition cmd_type_mask : Z := 0x1c.
Definition cmd_ping : Z := 4.
Definition cmd_pong : Z := 8.
Definition cmd_subscribe : Z := 12.
Definition cmd_cancel : Z := 16.
Definition cmd_close : Z := 20.

Record frame := MkFrame {
  fr_type : msg_type;
  fr_flags : Z;
  fr_body : bytes;
  fr_group : bytes;        (** [group ()], up to its terminating zero *)
  fr_routing_id : Z;       (** [get_routing_id ()] *)
}.

(** As the [init] functions make it: no group, no routing id. *)
Abbreviation Frame ty flags body := (MkFrame ty flags body [] 0).

#[export] Instance frame_eq_dec : EqDecision frame.
Proof. solve_decision. Defined.

(** [(flags () & msg_t::more) != 0] *)
Definition fr_more (f : frame) : bool := negb (Z.land (fr_flags f) flag_more =? 0).
Definition fr_is_command (f : frame) : bool := negb (Z.land (fr_flags f) flag_command =? 0).
Definition fr_is_routing_id (f : frame) : bool :=
  Z.land (fr_flags f) flag_routing_id =? flag_routing_id.
Definition fr_is_credential (f : frame) : bool :=
  Z.land (fr_flags f) flag_credential =? flag_credential.
Definition fr_is_delimiter (f : frame) : bool := bool_decide (fr_type f = type_delimiter).
Definition fr_is_vsm (f : frame) : bool := bool_decide (fr_type f = type_vsm).
Definition fr_is_subscribe (f : frame) : bool := Z.land (fr_flags f) cmd_type_mask =? cmd_subscribe.
Definition fr_is_cancel (f : frame) : bool := Z.land (fr_flags f) cmd_type_mask =? cmd_cancel.
Definition fr_is_ping (f : frame) : bool := Z.land (fr_flags f) cmd_type_mask =? cmd_ping.
Definition fr_is_pong (f : frame) : bool := Z.land (fr_flags f) cmd_type_mask =? cmd_pong.
Definition fr_is_close_cmd (f : frame) : bool := Z.land (fr_flags f) cmd_type_mask =? cmd_close.

(** The empty message [init ()] makes. *)
Definition fr_empty : frame := Frame type_vsm 0 [].

(** The frames of one message: all but the last are followed by more. *)
Fixpoint is_message (fs : list frame) : bool :=
  match fs with
  | [] => false
  | [f] => negb (fr_more f)
  | f :: fs' => fr_more f && is_message fs'
  end.

(** Messages end where they end. *)
Lemma is_message_app_inj f a b x y : is_message (f :: a) = true -> is_message (f :: b) = true -> a ++ x = b ++ y -> a = b /\ x = y.
Proof.
  revert f b. induction a as [|g a IH]; intros f b Ha Hb E; destruct b as [|h b]; cbn [is_message app] in *.
  - done.
  - apply andb_true_iff in Hb as [Hb _]. by rewrite Hb in Ha.
  - apply andb_true_iff in Ha as [Ha _]. by rewrite Ha in Hb.
  - injection E as <- E. apply andb_true_iff in Ha as [_ Ha]. apply andb_true_iff in Hb as [_ Hb].
    destruct (IH g b Ha Hb E) as [-> ->]. done.
Qed.

(** ** What pipes promise to the routing components

    [fq_t], [lb_t] and [dist_t] use the pipes of a socket through these
    operations, on the state [W] of all of them. *)

Class InPipes (W : Type) := {
  ip_read : W -> Z -> option (W * option frame);
  ip_check_read : W -> Z -> option (W * bool);
  ip_queue : W -> Z -> list frame;  (** the frames a pipe has for the reader *)
}.

Class InPipesLaws (W : Type) `{InPipes W} := {
  ip_read_ok w p : exists w', ip_read w p = Some (w', head (ip_queue w p)) /\
    forall p', ip_queue w' p' = if decide (p' = p) then tail (ip_queue w p) else ip_queue w p';
  ip_check_ok w p : exists w', ip_check_read w p = Some (w', negb (bool_decide (ip_queue w p = []))) /\
    forall p', ip_queue w' p' = ip_queue w p';
}.

(** The simplest pipes: queues. *)
Abbreviation queues := (gmap Z (list frame)).

#[export] Instance queues_in : InPipes queues := {
  ip_read w p := match default [] (w !! p) with
                 | [] => Some (w, None)
                 | f :: l => Some (<[p := l]> w, Some f)
                 end;
  ip_check_read w p := Some (w, negb (bool_decide (default [] (w !! p) = [])));
  ip_queue w p := default [] (w !! p);
}.

#[export] Instance queues_in_laws : InPipesLaws queues.
Proof.
  constructor; simpl; intros w p; [|by exists w].
  destruct (default [] (w !! p)) as [|f l] eqn:E; simpl.
  - exists w. split; [done|]. intros p'. case_decide; by subst.
  - eexists. split; [done|]. intros p'. rewrite lookup_insert. by repeat case_decide.
Qed.

(** Outbound pipes: whether a pipe has room, the frames written and not
    flushed, and those flushed to the peer. *)
Class OutPipes (W : Type) := {
  op_write : W -> Z -> frame -> option (W * bool);
  op_check_write : W -> Z -> option (W * bool);
  op_flush : W -> Z -> option W;
  op_rollback : W -> Z -> option W;
  op_room : W -> Z -> bool;
  op_pending : W -> Z -> list frame;
  op_sent : W -> Z -> list frame;
}.

Class OutPipesLaws (W : Type) `{OutPipes W} := {
  op_write_ok w p f : exists w', op_write w p f = Some (w', op_room w p) /\
    (forall p', op_pending w' p' =
       if decide (p' = p) then if op_room w p then op_pending w p ++ [f] else op_pending w p
       else op_pending w p') /\
    (forall p', op_sent w' p' = op_sent w p') /\
    (forall p', p' <> p \/ op_room w p = false \/ fr_more f = true -> op_room w' p' = op_room w p');
  op_check_write_ok w p : exists w', op_check_write w p = Some (w', op_room w p) /\
    (forall p', op_pending w' p' = op_pending w p' /\ op_sent w' p' = op_sent w p' /\
       op_room w' p' = op_room w p');
  op_flush_ok w p : exists w', op_flush w p = Some w' /\
    (forall p', op_sent w' p' = if decide (p' = p) then op_sent w p ++ op_pending w p else op_sent w p') /\
    (forall p', op_pending w' p' = if decide (p' = p) then [] else op_pending w p') /\
    (forall p', op_room w' p' = op_room w p');
  op_rollback_ok w p : exists w', op_rollback w p = Some w' /\
    (forall p', op_sent w' p' = op_sent w p') /\
    (forall p', op_pending w' p' = if decide (p' = p) then [] else op_pending w p') /\
    (forall p', op_room w' p' = op_room w p');
}.

(** Pipes with room for a number of messages: credit, pending, sent. *)
Abbreviation credits := (gmap Z (nat * list frame * list frame)).

Definition credit_of (w : credits) (p : Z) : nat * list frame * list frame :=
  default (0%nat, [], []) (w !! p).

#[export] Instance credits_out : OutPipes credits := {
  op_write w p f :=
    let '(n, pend, sent) := credit_of w p in
    match n with
    | O => Some (w, false)
    | S n' => Some (<[p := (if fr_more f then n else n', pend ++ [f], sent)]> w, true)
    end;
  op_check_write w p := Some (w, match (credit_of w p).1.1 with O => false | S _ => true end);
  op_flush w p := let '(n, pend, sent) := credit_of w p in Some (<[p := (n, [], sent ++ pend)]> w);
  op_rollback w p := let '(n, pend, sent) := credit_of w p in Some (<[p := (n, [], sent)]> w);
  op_room w p := match (credit_of w p).1.1 with O => false | S _ => true end;
  op_pending w p := (credit_of w p).1.2;
  op_sent w p := (credit_of w p).2;
}.

Lemma credit_of_insert w p c p' : credit_of (<[p := c]> w) p' = if decide (p' = p) then c else credit_of w p'.
Proof. unfold credit_of. rewrite lookup_insert. by repeat case_decide. Qed.

#[export] Instance credits_out_laws : OutPipesLaws credits.
Proof.
  constructor; simpl; intros w p.
  - intros f. destruct (credit_of w p) as [[[|n] pend] sent] eqn:E; simpl.
    + exists w. split_and!; try done. intros p'. case_decide; [subst; by rewrite E|done].
    + eexists. split; [done|]. split_and!; intros p'; rewrite credit_of_insert; case_decide; subst; rewrite ?E; try done.
      intros [?|[?|Hm]]; try done. by rewrite Hm.
  - exists w. done.
  - destruct (credit_of w p) as [[n pend] sent] eqn:E. eexists. split; [done|].
    split_and!; intros p'; rewrite credit_of_insert; case_decide; subst; rewrite ?E; done.
  - destruct (credit_of w p) as [[n pend] sent] eqn:E. eexists. split; [done|].
    split_and!; intros p'; rewrite credit_of_insert; case_decide; subst; rewrite ?E; done.
Qed.
