(* ===== verification/Fq.v ===== *)
(** * Fair queueing of inbound pipes, [fq_t] (src/src/fq.cpp)

    The first [active] pipes of the array are those that may have
    messages; [recvpipe] reads from them round robin and moves a pipe
    without messages out of that part.  The pipes are any [InPipes]. *)

From S2P Require Import Prelude Array Frame.

Record fq := Fq {
  fq_pipes : array;
  fq_active : nat;
  fq_last_in : option Z;
  fq_current : nat;
  fq_more : bool;
}.

Definition fq_new : fq := Fq array_new 0 None 0 false.

(** The destructor's assertion. *)
Definition fq_destroy (q : fq) : option unit :=
  zmq_assert (array_empty (fq_pipes q)) ;; Some tt.

Definition fq_attach (q : fq) (pipe : Z) : option fq :=
  let pipes := array_push_back (fq_pipes q) pipe in
  let* pipes := array_swap pipes (fq_active q) (array_size pipes - 1) in
  Some (Fq pipes (S (fq_active q)) (fq_last_in q) (fq_current q) (fq_more q)).

(** [_active--; _pipes.swap (index, _active); if (_current == _active) _current = 0;] *)
Definition fq_deactivate (q : fq) (index : nat) : option fq :=
  let active := (fq_active q - 1)%nat in
  let* pipes := array_swap (fq_pipes q) index active in
  Some (Fq pipes active (fq_last_in q)
          (if (fq_current q =? active)%nat then 0%nat else fq_current q) (fq_more q)).

Definition fq_pipe_terminated (q : fq) (pipe : Z) : option fq :=
  let* index := array_index (fq_pipes q) pipe in
  let* q := if (index <? fq_active q)%nat then fq_deactivate q index else Some q in
  let* pipes := array_erase (fq_pipes q) pipe in
  let last_in := if bool_decide (fq_last_in q = Some pipe) then None else fq_last_in q in
  Some (Fq pipes (fq_active q) last_in (fq_current q) (fq_more q)).

Definition fq_activated (q : fq) (pipe : Z) : option fq :=
  let* index := array_index (fq_pipes q) pipe in
  let* pipes := array_swap (fq_pipes q) index (fq_active q) in
  Some (Fq pipes (S (fq_active q)) (fq_last_in q) (fq_current q) (fq_more q)).

Section fq.
Context {W : Type} `{InPipesLaws W}.

(** [recvpipe]: the pipe and the frame, or EAGAIN.  The loop runs at most
    once per active pipe. *)
Fixpoint fq_recv_loop (fuel : nat) (w : W) (q : fq) : option (W * fq * option (Z * frame)) :=
  if (fq_active q =? 0)%nat then Some (w, q, None)
  else
    match fuel with
    | O => None
    | S fuel' =>
        let* pipe := array_get (fq_pipes q) (fq_current q) in
        let* (w', fetched) := ip_read w pipe in
        match fetched with
        | Some msg =>
            let more := fr_more msg in
            Some (w',
                  if negb more then
                    Fq (fq_pipes q) (fq_active q) (Some pipe)
                      ((fq_current q + 1) mod fq_active q)%nat more
                  else Fq (fq_pipes q) (fq_active q) (fq_last_in q) (fq_current q) more,
                  Some (pipe, msg))
        | None =>
            zmq_assert (negb (fq_more q)) ;;
            let* q' := fq_deactivate q (fq_current q) in
            fq_recv_loop fuel' w' q'
        end
    end.

Definition fq_recvpipe (w : W) (q : fq) : option (W * fq * option (Z * frame)) :=
  fq_recv_loop (fq_active q) w q.

Fixpoint fq_has_in_loop (fuel : nat) (w : W) (q : fq) : option (W * fq * bool) :=
  if (fq_active q =? 0)%nat then Some (w, q, false)
  else
    match fuel with
    | O => None
    | S fuel' =>
        let* pipe := array_get (fq_pipes q) (fq_current q) in
        let* (w', b) := ip_check_read w pipe in
        if (b : bool) then Some (w', q, true)
        else let* q' := fq_deactivate q (fq_current q) in fq_has_in_loop fuel' w' q'
    end.

Definition fq_has_in (w : W) (q : fq) : option (W * fq * bool) :=
  if fq_more q then Some (w, q, true) else fq_has_in_loop (fq_active q) w q.

(** ** Invariant *)

Record fq_inv (q : fq) : Prop := {
  fi_array : array_wf (fq_pipes q);
  fi_active : (fq_active q <= array_size (fq_pipes q))%nat;
  fi_current : (fq_current q < fq_active q)%nat \/ fq_active q = 0%nat /\ fq_current q = 0%nat;
}.

(** A pipe of the active part. *)
Definition fq_is_active (q : fq) (p : Z) : Prop := in_part (fq_pipes q) (fq_active q) p.

Lemma fq_new_inv : fq_inv fq_new.
Proof. constructor; [apply array_new_wf|done|by right]. Qed.

Lemma fq_attach_spec q p : fq_inv q -> p ∉ a_items (fq_pipes q) ->
  exists q', fq_attach q p = Some q' /\ fq_inv q' /\
    (forall x, fq_is_active q' x <-> fq_is_active q x \/ x = p) /\
    (forall x, x ∈ a_items (fq_pipes q') <-> x ∈ a_items (fq_pipes q) \/ x = p).
Proof.
  intros [Ha Hact Hcur] Hp. unfold fq_attach.
  destruct (array_attach_spec _ _ _ Ha Hact Hp) as (a' & -> & Hwf & Hsz & Hmem & _ & _ & _ & Hpart).
  cbn [mbind option_bind]. eexists. split; [done|]. split; [|done]. constructor; simpl; done || lia.
Qed.

Lemma fq_activated_spec q p : fq_inv q -> p ∈ a_items (fq_pipes q) -> ~ fq_is_active q p ->
  exists q', fq_activated q p = Some q' /\ fq_inv q' /\
    (forall x, fq_is_active q' x <-> fq_is_active q x \/ x = p) /\
    (forall x, x ∈ a_items (fq_pipes q') <-> x ∈ a_items (fq_pipes q)).
Proof.
  intros [Ha Hact Hcur] Hp Hna. unfold fq_activated.
  destruct (array_index_mem _ _ Ha Hp) as (i & -> & Hi). cbn [mbind option_bind].
  assert (fq_active q <= i)%nat as Hle.
  { destruct (decide (fq_active q <= i)%nat); [done|]. destruct Hna. exists i. split; [lia|done]. }
  pose proof (lookup_lt_Some _ _ _ Hi) as Hlt. fold (array_size (fq_pipes q)) in Hlt.
  destruct (array_grow_spec _ _ _ _ Ha Hle Hi) as (a' & -> & Hwf & Hsz & Hmem & _ & _ & Hpart).
  cbn [mbind option_bind]. eexists. split; [done|]. split; [|done]. constructor; simpl; done || lia.
Qed.

(** A pipe leaves the active part. *)
Lemma fq_deactivate_spec q i p : fq_inv q -> (i < fq_active q)%nat -> a_items (fq_pipes q) !! i = Some p ->
  exists q', fq_deactivate q i = Some q' /\ fq_inv q' /\
    fq_active q' = (fq_active q - 1)%nat /\ fq_more q' = fq_more q /\
    (forall x, fq_is_active q' x <-> fq_is_active q x /\ x <> p) /\
    (forall x, x ∈ a_items (fq_pipes q') <-> x ∈ a_items (fq_pipes q)).
Proof.
  intros [Ha Hact Hcur] Hi Hp. unfold fq_deactivate.
  destruct (array_shrink_spec (fq_pipes q) (fq_active q) i p Ha ltac:(lia) Hp)
    as (a' & -> & Hwf & Hsz & Hmem & Hat & _ & Hpart).
  cbn [mbind option_bind]. eexists. split; [done|]. split_and!; try done.
  constructor; simpl; [done|lia|].
  destruct (fq_current q =? fq_active q - 1)%nat eqn:E2; [apply Nat.eqb_eq in E2|apply Nat.eqb_neq in E2]; lia.
Qed.

(** Erasing a pipe from outside the active part. *)
Lemma fq_erase_spec q p : fq_inv q -> p ∈ a_items (fq_pipes q) -> ~ fq_is_active q p ->
  exists a', array_erase (fq_pipes q) p = Some a' /\ array_wf a' /\ (fq_active q <= array_size a')%nat /\
    (forall x, in_part a' (fq_active q) x <-> fq_is_active q x) /\
    (forall x, x ∈ a_items a' <-> x ∈ a_items (fq_pipes q) /\ x <> p).
Proof.
  intros [Ha Hact Hcur] Hp Hna.
  destruct (array_erase_spec _ p Ha Hp) as (a' & j & -> & Hwf & Hj & Hsz & Hget & Hmem).
  assert (fq_active q <= j)%nat as Hle.
  { destruct (decide (fq_active q <= j)%nat); [done|]. destruct Hna. exists j. split; [lia|done]. }
  pose proof (lookup_lt_Some _ _ _ Hj) as Hlt. fold (array_size (fq_pipes q)) in Hlt.
  exists a'. split_and!; try done; [lia|]. intros x. unfold fq_is_active, in_part.
  assert (forall k, (k < fq_active q)%nat -> a_items a' !! k = a_items (fq_pipes q) !! k) as Hk.
  { intros k Hk. rewrite Hget by lia. by rewrite decide_False by lia. }
  split; intros (k & Hk' & Hx); exists k; (split; [done|]); [by rewrite <- Hk|by rewrite Hk].
Qed.

Lemma fq_pipe_terminated_spec q p : fq_inv q -> p ∈ a_items (fq_pipes q) ->
  exists q', fq_pipe_terminated q p = Some q' /\ fq_inv q' /\
    (forall x, fq_is_active q' x <-> fq_is_active q x /\ x <> p) /\
    (forall x, x ∈ a_items (fq_pipes q') <-> x ∈ a_items (fq_pipes q) /\ x <> p) /\
    fq_last_in q' <> Some p.
Proof.
  intros Hq Hp. unfold fq_pipe_terminated.
  destruct (array_index_mem _ _ (fi_array _ Hq) Hp) as (i & -> & Hi). cbn [mbind option_bind].
  assert (exists q1, (if (i <? fq_active q)%nat then fq_deactivate q i else Some q) = Some q1 /\ fq_inv q1 /\
    (forall x, fq_is_active q1 x <-> fq_is_active q x /\ x <> p) /\
    (forall x, x ∈ a_items (fq_pipes q1) <-> x ∈ a_items (fq_pipes q))) as (q1 & -> & Hq1 & Hact & Hmem).
  { destruct (i <? fq_active q)%nat eqn:E; [apply Nat.ltb_lt in E|apply Nat.ltb_ge in E].
    - destruct (fq_deactivate_spec q i p Hq E Hi) as (q1 & ? & ? & _ & _ & ? & ?). by exists q1.
    - exists q. split_and!; try done. intros x. split; [|tauto]. intros Hx. split; [done|]. intros ->.
      destruct Hx as (k & Hk & Hkp). pose proof (NoDup_lookup _ _ _ _ (aw_nodup _ (fi_array _ Hq)) Hi Hkp). lia. }
  cbn [mbind option_bind].
  destruct (fq_erase_spec q1 p Hq1) as (a' & -> & Hwf & Hle & Hpart & Hmem').
  { by apply Hmem. }
  { intros [_ ?]%Hact. done. }
  cbn [mbind option_bind]. eexists. split; [done|]. split_and!.
  - destruct Hq1. by constructor.
  - intros x. rewrite <- Hact. apply Hpart.
  - intros x. simpl. by rewrite Hmem', Hmem.
  - simpl. by case_bool_decide.
Qed.

Lemma fq_current_active q p : fq_inv q -> fq_active q <> 0%nat ->
  array_get (fq_pipes q) (fq_current q) = Some p -> fq_is_active q p.
Proof. intros [_ _ Hc] Hz Hp. exists (fq_current q). split; [lia|done]. Qed.

(** What one call of [recvpipe] does. *)
Definition fq_recv_result (w : W) (q : fq) (w' : W) (q' : fq) (r : option (Z * frame)) : Prop :=
  match r with
  | None => (forall p, fq_is_active q p -> ip_queue w p = []) /\ fq_active q' = 0%nat /\
      (forall p, ip_queue w' p = ip_queue w p) /\ fq_more q' = fq_more q
  | Some (p, f) => fq_is_active q p /\ ip_queue w p = f :: ip_queue w' p /\
      (forall p', p' <> p -> ip_queue w' p' = ip_queue w p') /\
      (forall p', fq_is_active q' p' -> fq_is_active q p') /\
      (forall p', fq_is_active q p' -> ip_queue w p' <> [] -> fq_is_active q' p') /\
      fq_is_active q' p /\
      fq_more q' = fr_more f /\
      (if fr_more f then array_get (fq_pipes q') (fq_current q') = Some p else fq_last_in q' = Some p)
  end.

Lemma fq_recv_loop_spec fuel : forall w q, fq_inv q -> (fq_active q <= fuel)%nat ->
  (fq_more q = true -> exists p, array_get (fq_pipes q) (fq_current q) = Some p /\ ip_queue w p <> []) ->
  (fq_more q = true -> fq_active q <> 0%nat) ->
  exists w' q' r, fq_recv_loop fuel w q = Some (w', q', r) /\ fq_inv q' /\
    (forall x, x ∈ a_items (fq_pipes q') <-> x ∈ a_items (fq_pipes q)) /\ fq_recv_result w q w' q' r.
Proof.
  induction fuel as [|fuel IH]; intros w q Hq Hf Hm Hm0.
  { simpl. replace (fq_active q) with 0%nat by lia. simpl. exists w, q, None. split_and!; try done.
    split_and!; try done; [|lia]. intros p (k & Hk & _). lia. }
  simpl. destruct (fq_active q =? 0)%nat eqn:E0; [apply Nat.eqb_eq in E0|apply Nat.eqb_neq in E0].
  { exists w, q, None. split_and!; try done. split_and!; try done. intros p (k & Hk & _). lia. }
  pose proof Hq as [Ha Hact Hcur].
  destruct (lookup_lt_is_Some_2 (a_items (fq_pipes q)) (fq_current q)) as [p Hp];
    [unfold array_size in *; lia|].
  unfold array_get. rewrite Hp. cbn [mbind option_bind].
  destruct (ip_read_ok w p) as (w1 & -> & Hw1). cbn [mbind option_bind].
  pose proof (fq_current_active q p Hq E0 Hp) as Hpa.
  destruct (ip_queue w p) as [|f fs] eqn:Ew; simpl.
  - destruct (fq_more q) eqn:Em.
    { destruct (Hm eq_refl) as (p' & Hp' & Hne). unfold array_get in Hp'. congruence. }
    simpl. destruct (fq_deactivate_spec q (fq_current q) p Hq) as (q1 & -> & Hq1 & Hact1 & Hmore1 & Hin1 & Hmem1);
      [lia|done|].
    cbn [mbind option_bind].
    assert (forall p', ip_queue w1 p' = ip_queue w p') as Hsame
      by (intros p'; rewrite Hw1; case_decide; by subst).
    destruct (IH w1 q1) as (w2 & q2 & r & -> & Hq2 & Hmem2 & Hres); try done; try lia; try congruence.
    exists w2, q2, r. split_and!; try done; [intros x; by rewrite Hmem2|].
    destruct r as [[p' f]|]; unfold fq_recv_result in *.
    + destruct Hres as (R1 & R2 & R3 & R4 & R5 & R6 & R7 & R8). apply Hin1 in R1 as [R1 Rne].
      split_and!; try done.
      * by rewrite <- Hsame.
      * intros p'' Hne. rewrite R3, Hsame; done.
      * intros p'' Hx. apply R4 in Hx. by apply Hin1 in Hx as [? _].
      * intros p'' Hx Hne. apply R5; [|by rewrite Hsame]. apply Hin1. split; [done|]. congruence.
    + destruct Hres as (R1 & R2 & R3 & R4). split_and!; try done.
      * intros p' Hx. destruct (decide (p' = p)) as [->|Hne]; [done|]. rewrite <- Hsame. apply R1.
        by apply Hin1.
      * intros p'. by rewrite R3.
      * congruence.
  - eexists _, _, _. split; [done|].
    assert (ip_queue w1 p = fs) as Hwp by (rewrite Hw1; by rewrite decide_True).
    assert (forall p', p' <> p -> ip_queue w1 p' = ip_queue w p') as Hoth
      by (intros p' Hne; rewrite Hw1; by rewrite decide_False).
    destruct (fr_more f) eqn:Ef; simpl.
    + split; [by constructor|]. split; [done|]. unfold fq_recv_result. rewrite Ef, Hwp.
      split_and!; try done.
    + split; [|split; [done|]].
      * constructor; simpl; try done. left. apply Nat.mod_upper_bound. lia.
      * unfold fq_recv_result. rewrite Ef, Hwp. split_and!; try done.
Qed.

Lemma fq_recvpipe_ok w q : fq_inv q ->
  (fq_more q = true -> exists p, array_get (fq_pipes q) (fq_current q) = Some p /\ ip_queue w p <> []) ->
  (fq_more q = true -> fq_active q <> 0%nat) ->
  exists w' q' r, fq_recvpipe w q = Some (w', q', r) /\ fq_inv q' /\
    (forall x, x ∈ a_items (fq_pipes q') <-> x ∈ a_items (fq_pipes q)) /\ fq_recv_result w q w' q' r.
Proof. intros. by apply fq_recv_loop_spec. Qed.

(** ** Several receives *)

Fixpoint fq_recv_n (n : nat) (w : W) (q : fq) : option (W * fq * list (option (Z * frame))) :=
  match n with
  | O => Some (w, q, [])
  | S n' =>
      let* (w', q', r) := fq_recvpipe w q in
      let* (w'', q'', rs) := fq_recv_n n' w' q' in
      Some (w'', q'', r :: rs)
  end.

(** The pipes the frames came from. *)
Definition recv_pipes (rs : list (option (Z * frame))) : list (option Z) :=
  map (fun r => match r with Some (p, _) => Some p | None => None end) rs.

(** A pipe with a frame is read without skipping it. *)
Lemma fq_recv_current w q p f fs : fq_inv q -> fq_active q <> 0%nat ->
  array_get (fq_pipes q) (fq_current q) = Some p -> ip_queue w p = f :: fs ->
  exists w', fq_recvpipe w q =
    Some (w', if negb (fr_more f) then
                Fq (fq_pipes q) (fq_active q) (Some p) ((fq_current q + 1) mod fq_active q)%nat (fr_more f)
              else Fq (fq_pipes q) (fq_active q) (fq_last_in q) (fq_current q) (fr_more f), Some (p, f)) /\
    forall p', ip_queue w' p' = if decide (p' = p) then fs else ip_queue w p'.
Proof.
  intros Hq Hz Hp Hw. unfold fq_recvpipe. destruct (fq_active q) as [|n] eqn:En; [done|]. cbn [fq_recv_loop].
  rewrite En. cbn [Nat.eqb]. rewrite Hp. cbn [mbind option_bind].
  destruct (ip_read_ok w p) as (w1 & -> & Hw1). rewrite Hw in *. cbn [mbind option_bind head].
  exists w1. split; [|done]. done.
Qed.

Lemma fq_recv_rest fs : forall w q p rest, fq_inv q -> fq_active q <> 0%nat ->
  array_get (fq_pipes q) (fq_current q) = Some p -> is_message fs = true -> ip_queue w p = fs ++ rest ->
  exists w' q', fq_recv_n (length fs) w q = Some (w', q', (fun f => Some (p, f)) <$> fs) /\ fq_inv q' /\
    fq_more q' = false /\ ip_queue w' p = rest /\ forall p', p' <> p -> ip_queue w' p' = ip_queue w p'.
Proof.
  induction fs as [|f fs IH]; intros w q p rest Hq Hz Hp Hmsg Hw; [done|]. cbn [length fq_recv_n app] in *.
  destruct (fq_recv_current w q p f (fs ++ rest) Hq Hz Hp Hw) as (w1 & -> & Hw1). cbn [mbind option_bind].
  pose proof Hq as [Ha Hact Hc]. destruct fs as [|f' fs]; cbn [is_message] in Hmsg.
  - apply negb_true_iff in Hmsg. rewrite Hmsg. cbn [negb length fq_recv_n mbind option_bind].
    eexists _, _. split; [done|]. split; [|split_and!; try done].
    + constructor; simpl; try done. left. apply Nat.mod_upper_bound. done.
    + by rewrite Hw1, decide_True.
    + intros p' Hne. by rewrite Hw1, decide_False.
  - apply andb_true_iff in Hmsg as [Hf Hmsg]. rewrite Hf. cbn [negb].
    set (q1 := Fq _ _ _ _ true). destruct (IH w1 q1 p rest) as (w2 & q2 & -> & Hq2 & Hm2 & Hr2 & Ho2); try done.
    { by rewrite Hw1, decide_True. }
    cbn [mbind option_bind]. exists w2, q2. split_and!; try done.
    intros p' Hne. rewrite Ho2 by done. by rewrite Hw1, decide_False.
Qed.

Lemma fq_has_in_loop_spec fuel : forall w q, fq_inv q -> (fq_active q <= fuel)%nat ->
  exists w' q' b, fq_has_in_loop fuel w q = Some (w', q', b) /\ fq_inv q' /\
    (forall p, ip_queue w' p = ip_queue w p) /\
    (b = true -> exists p, fq_is_active q' p /\ fq_is_active q p /\ ip_queue w p <> [] /\
       array_get (fq_pipes q') (fq_current q') = Some p) /\
    (b = false -> fq_active q' = 0%nat /\ forall p, fq_is_active q p -> ip_queue w p = []) /\
    fq_more q' = fq_more q /\
    (forall p, fq_is_active q' p -> fq_is_active q p) /\
    (forall p, fq_is_active q p -> ip_queue w p <> [] -> fq_is_active q' p).
Proof.
  assert (forall w q, fq_active q = 0%nat -> fq_inv q -> exists w' q' b,
    Some (w, q, false) = Some (w', q', b) /\ fq_inv q' /\ (forall p, ip_queue w' p = ip_queue w p) /\
    (b = true -> exists p, fq_is_active q' p /\ fq_is_active q p /\ ip_queue w p <> [] /\
       array_get (fq_pipes q') (fq_current q') = Some p) /\
    (b = false -> fq_active q' = 0%nat /\ forall p, fq_is_active q p -> ip_queue w p = []) /\
    fq_more q' = fq_more q /\ (forall p, fq_is_active q' p -> fq_is_active q p) /\
    (forall p, fq_is_active q p -> ip_queue w p <> [] -> fq_is_active q' p)) as Hdone.
  { intros w q Hz Hq. exists w, q, false. split_and!; try done. intros _. split; [done|].
    intros p (k & Hk & _). lia. }
  induction fuel as [|fuel IH]; intros w q Hq Hf; simpl.
  { replace (fq_active q) with 0%nat by lia. simpl. apply Hdone; [lia|done]. }
  destruct (fq_active q =? 0)%nat eqn:E0; [apply Nat.eqb_eq in E0; by apply Hdone|apply Nat.eqb_neq in E0].
  pose proof Hq as [Ha Hact Hcur].
  destruct (lookup_lt_is_Some_2 (a_items (fq_pipes q)) (fq_current q)) as [p Hp];
    [unfold array_size in *; lia|].
  pose proof (fq_current_active q p Hq E0 Hp) as Hpa.
  unfold array_get. rewrite Hp. cbn [mbind option_bind].
  destruct (ip_check_ok w p) as (w1 & -> & Hw1). cbn [mbind option_bind].
  destruct (bool_decide_reflect (ip_queue w p = [])) as [Hnil|Hne]; cbn [negb].
  - destruct (fq_deactivate_spec q (fq_current q) p Hq) as (q1 & -> & Hq1 & Hact1 & Hmore1 & Hin1 & Hmem1);
      [lia|done|].
    cbn [mbind option_bind]. destruct (IH w1 q1) as (w2 & q2 & b & -> & Hq2 & Hw2 & Ht & Hff & Hm & Hs1 & Hs2);
      [done|lia|].
    exists w2, q2, b. split_and!; try done.
    + intros p'. by rewrite Hw2.
    + intros Hb. destruct (Ht Hb) as (p' & A1 & A2 & A3 & A4). exists p'. rewrite Hw1 in A3.
      apply Hin1 in A2 as [? ?]. done.
    + intros Hb. destruct (Hff Hb) as [A1 A2]. split; [done|]. intros p' Hp'.
      destruct (decide (p' = p)) as [->|]; [done|]. rewrite <- Hw1. apply A2. by apply Hin1.
    + congruence.
    + intros p' Hx. apply Hs1 in Hx. by apply Hin1 in Hx as [? _].
    + intros p' Hx Hne. apply Hs2; [|by rewrite Hw1]. apply Hin1. split; [done|]. congruence.
  - exists w1, q, true. split_and!; try done. intros _. by exists p.
Qed.

(** The pipes stay the same. *)
Lemma fq_has_in_loop_mem fuel : forall w q w' q' b, fq_inv q -> fq_has_in_loop fuel w q = Some (w', q', b) ->
  forall x, x ∈ a_items (fq_pipes q') <-> x ∈ a_items (fq_pipes q).
Proof.
  induction fuel as [|fuel IH]; intros w q w' q' b Hq; simpl; (destruct (fq_active q =? 0)%nat eqn:E0; [by intros [= <- <- <-]|]); [done|].
  apply Nat.eqb_neq in E0. pose proof Hq as [Ha Hact Hcur].
  destruct (lookup_lt_is_Some_2 (a_items (fq_pipes q)) (fq_current q)) as [p Hp]; [unfold array_size in *; lia|].
  unfold array_get. rewrite Hp. cbn [mbind option_bind]. destruct (ip_check_read w p) as [[w1 [|]]|]; cbn [mbind option_bind]; [by intros [= <- <- <-]| |done].
  destruct (fq_deactivate_spec q (fq_current q) p Hq) as (q1 & -> & Hq1 & _ & _ & _ & Hmem1); [lia|done|]. cbn [mbind option_bind].
  intros Hrun x. by rewrite (IH _ _ _ _ _ Hq1 Hrun), Hmem1.
Qed.

Lemma fq_has_in_ok w q : fq_inv q -> exists w' q' b, fq_has_in w q = Some (w', q', b) /\ fq_inv q' /\
  (forall x, x ∈ a_items (fq_pipes q') <-> x ∈ a_items (fq_pipes q)).
Proof.
  intros Hq. unfold fq_has_in. destruct (fq_more q); [by exists w, q, true|].
  destruct (fq_has_in_loop_spec (fq_active q) w q Hq) as (w' & q' & b & E & Hq' & _); [lia|]. exists w', q', b. split_and!; try done.
  by apply (fq_has_in_loop_mem _ _ _ _ _ _ Hq E).
Qed.

End fq.

(** [recvpipe] loses nothing and skips nothing.  On a fair queue whose
    invariant holds, and whose current pipe has the rest of a message
    when one was started, the call does not fail an assertion; it
    returns EAGAIN exactly when no active pipe has a frame, and
    otherwise the first frame of an active pipe; the other pipes keep
    their frames, and every pipe with frames stays active. *)
Theorem fq_recvpipe_spec {W} `{InPipesLaws W} (w : W) (q : fq) :
  fq_inv q ->
  (fq_more q = true -> fq_active q <> 0%nat /\
     exists p, array_get (fq_pipes q) (fq_current q) = Some p /\ ip_queue w p <> []) ->
  exists w' q' r, fq_recvpipe w q = Some (w', q', r) /\ fq_inv q' /\ fq_recv_result w q w' q' r.
Proof.
  intros Hq Hm. destruct (fq_recvpipe_ok w q Hq) as (w' & q' & r & ? & ? & _ & ?); [naive_solver..|].
  by exists w', q', r.
Qed.

(** C16: messages are received whole: when a receive starts a message of
    some pipe, the next receives return the rest of it, in order and
    from the same pipe, and leave the other pipes alone. *)
Theorem fq_message_atomic {W} `{InPipesLaws W} (w w1 : W) (q q1 : fq) (p : Z) (f : frame)
    (msg rest : list frame) :
  fq_inv q -> fq_more q = false ->
  fq_recvpipe w q = Some (w1, q1, Some (p, f)) ->
  ip_queue w p = f :: msg ++ rest -> is_message (f :: msg) = true ->
  exists w' q', fq_recv_n (length msg) w1 q1 = Some (w', q', (fun g => Some (p, g)) <$> msg) /\
    fq_inv q' /\ fq_more q' = false /\ ip_queue w' p = rest /\
    forall p', p' <> p -> ip_queue w' p' = ip_queue w p'.
Proof.
  intros Hq Hm Hrun Hqp Hmsg.
  destruct (fq_recvpipe_ok w q Hq) as (w2 & q2 & r & Hrun2 & Hq2 & _ & Hres); [congruence..|].
  rewrite Hrun in Hrun2. simplify_eq. destruct Hres as (_ & R2 & R3 & _ & _ & R6 & R7 & R8).
  rewrite Hqp in R2. injection R2 as R2. destruct msg as [|g msg]; cbn [is_message] in Hmsg.
  - apply negb_true_iff in Hmsg. exists w2, q2. split_and!; try done. congruence.
  - apply andb_true_iff in Hmsg as [Hf Hmsg]. rewrite Hf in *.
    destruct (fq_recv_rest (g :: msg) w2 q2 p rest) as (w' & q' & ? & ? & ? & ? & Ho); try done.
    { destruct R6 as (k & Hk & _). lia. }
    exists w', q'. split_and!; try done. intros p' Hne. rewrite Ho, R3; done.
Qed.

(** round robin: as long as every active pipe has single-part
    messages, successive receives take the pipes in the order of the
    array, starting at the current one. *)
Theorem fq_round_robin {W} `{InPipesLaws W} (n : nat) : forall (w : W) (q : fq),
  fq_inv q -> fq_active q <> 0%nat ->
  (forall p, fq_is_active q p -> (n <= length (ip_queue w p))%nat /\
     Forall (fun f => fr_more f = false) (ip_queue w p)) ->
  exists w' q' rs, fq_recv_n n w q = Some (w', q', rs) /\
    recv_pipes rs =
      ((fun i => a_items (fq_pipes q) !! ((fq_current q + i) mod fq_active q)%nat) <$> seq 0 n).
Proof.
  induction n as [|n IH]; intros w q Hq Hz Hall; [by eexists _, _, _|].
  destruct (lookup_lt_is_Some_2 (a_items (fq_pipes q)) (fq_current q)) as [p Hp].
  { destruct Hq. unfold array_size in *. lia. }
  pose proof (fq_current_active q p Hq Hz Hp) as Hpa. destruct (Hall p Hpa) as [Hlen Hsingle].
  destruct (ip_queue w p) as [|f fs] eqn:Ew; [simpl in Hlen; lia|]. apply Forall_cons_1 in Hsingle as [Hf Hfs].
  destruct (fq_recv_current w q p f fs Hq Hz Hp Ew) as (w1 & Hrun & Hw1). rewrite Hf in Hrun. cbn [negb] in Hrun.
  set (q1 := Fq _ _ _ _ _) in Hrun. pose proof Hq as [Ha Hact Hc].
  assert (fq_inv q1) as Hq1 by (constructor; simpl; try done; left; apply Nat.mod_upper_bound; done).
  destruct (IH w1 q1) as (w2 & q2 & rs & Hrun2 & Hrs); [done|done| |].
  { intros p' Hp'. rewrite Hw1. case_decide as E; [|destruct (Hall p' Hp'); split; [lia|done]].
    split; [simpl in Hlen; lia|done]. }
  cbn [fq_recv_n]. rewrite Hrun. cbn [mbind option_bind]. rewrite Hrun2. cbn [mbind option_bind].
  exists w2, q2, (Some (p, f) :: rs). split; [done|].
  change (seq 0 (S n)) with (0%nat :: seq 1 n). rewrite <- (fmap_S_seq 0 n). cbn [recv_pipes map].
  fold (recv_pipes rs). rewrite fmap_cons, Hrs.
  f_equal.
  - simpl. rewrite Nat.add_0_r, Nat.mod_small by lia. done.
  - rewrite <- list_fmap_compose. apply list_fmap_ext. intros i x _. simpl. f_equal.
    rewrite Nat.Div0.add_mod_idemp_l. f_equal. lia.
Qed.

(** [has_in] answers true exactly when a message is being read or an
    active pipe has a frame; it takes no frame and deactivates only pipes
    without one. *)
Theorem fq_has_in_spec {W} `{InPipesLaws W} (w : W) (q : fq) :
  fq_inv q ->
  exists w' q' b, fq_has_in w q = Some (w', q', b) /\ fq_inv q' /\
    (forall p, ip_queue w' p = ip_queue w p) /\
    (b = true <-> fq_more q = true \/ exists p, fq_is_active q p /\ ip_queue w p <> []) /\
    (forall p, fq_is_active q p -> ip_queue w p <> [] -> fq_is_active q' p).
Proof.
  intros Hq. unfold fq_has_in. destruct (fq_more q) eqn:Em.
  { exists w, q, true. split_and!; try done. split; [by left|done]. }
  destruct (fq_has_in_loop_spec (fq_active q) w q Hq) as (w' & q' & b & -> & ? & ? & Ht & Hf & _ & _ & ?);
    [done|].
  exists w', q', b. split_and!; try done. split.
  - intros Hb. right. destruct (Ht Hb) as (p & _ & ? & ? & _). eauto.
  - intros [?|(p & Hp & Hne)]; [done|]. destruct b; [done|]. destruct (Hf eq_refl) as [_ Hnil].
    by destruct Hne; apply Hnil.
Qed.

(** ** A termination in the middle of a message *)

Definition part (b : Z) : frame := Frame type_vsm flag_more [b].
Definition single (b : Z) : frame := Frame type_vsm 0 [b].

(** Three pipes; 1 and 2 have one single-part message, 3 has a message of
    two parts. *)
Definition fq_example_pipes : queues :=
  list_to_map [(1, [single 10; single 11]); (2, [single 20]); (3, [part 30; single 31])].

Definition fq_example : option (queues * fq * list (option (Z * frame))) :=
  let* q := fq_attach fq_new 1 in
  let* q := fq_attach q 2 in
  let* q := fq_attach q 3 in
  fq_recv_n 3 fq_example_pipes q.

(** the pointer to the current pipe is lost when another pipe
    terminates and the current one is the last active pipe.  With three
    pipes, after the first part of a message from pipe 3, the
    termination of pipe 2 makes the next receive return a frame of
    pipe 1, in the middle of the message; and when pipe 1 has nothing
    the assertion on [_more] aborts the process although pipe 3 has the
    second part. *)
Theorem fq_terminated_splits_message :
  exists w q rs q', fq_example = Some (w, q, rs) /\ list.last rs = Some (Some (3, part 30)) /\
    ip_queue w 3 = [single 31] /\ fq_pipe_terminated q 2 = Some q' /\
    (exists w' q'', fq_recvpipe w q' = Some (w', q'', Some (1, single 11))) /\
    fq_recvpipe (<[1 := []]> w) q' = None.
Proof.
  destruct fq_example as [[[w q] rs]|] eqn:E; [|vm_compute in E; discriminate].
  destruct (fq_pipe_terminated q 2) as [q'|] eqn:E'; [|vm_compute in E; simplify_eq; vm_compute in E'; discriminate].
  exists w, q, rs, q'. vm_compute in E. simplify_eq. vm_compute in E'. simplify_eq.
  split_and!; try (vm_compute; reflexivity). eexists _, _. vm_compute. reflexivity.
Qed.

(** ** Concrete runs *)

Definition fq_example_state : fq :=
  Eval vm_compute in match fq_example with Some (_, q, _) => q | None => fq_new end.

Lemma fq_example_inv : fq_inv fq_example_state.
Proof.
  constructor; [|vm_compute; lia|vm_compute; lia]. constructor; simpl.
  - repeat constructor; set_solver.
  - intros [|[|[|]]] x; simpl; intros [= <-]; reflexivity.
Qed.

Definition fq_three (current : nat) : fq := Fq (fq_pipes fq_example_state) 3 None current false.

Lemma fq_three_inv i : (i < 3)%nat -> fq_inv (fq_three i).
Proof. intros. constructor; [apply fq_example_inv|vm_compute; lia|simpl; lia]. Qed.

Lemma fq_recvpipe_spec_witness :
  exists w' q' r, fq_recvpipe fq_example_pipes (fq_three 1) = Some (w', q', r) /\
    fq_recv_result fq_example_pipes (fq_three 1) w' q' r.
Proof.
  destruct (fq_recvpipe_spec fq_example_pipes (fq_three 1)) as (w' & q' & r & ? & ? & ?).
  - apply fq_three_inv; lia.
  - discriminate.
  - by exists w', q', r.
Defined.

Lemma fq_message_atomic_witness :
  exists w1 q1 w' q',
    fq_recvpipe fq_example_pipes (fq_three 2) = Some (w1, q1, Some (3, part 30)) /\
    fq_recv_n 1 w1 q1 = Some (w', q', [Some (3, single 31)]).
Proof.
  destruct (fq_recvpipe fq_example_pipes (fq_three 2)) as [[[w1 q1] r]|] eqn:E;
    [|vm_compute in E; discriminate].
  assert (r = Some (3, part 30)) as -> by (vm_compute in E; injection E as _ _ <-; reflexivity).
  destruct (fq_message_atomic _ _ _ _ 3 (part 30) [single 31] [] (fq_three_inv 2 ltac:(lia))
    eq_refl E) as (w' & q' & Hrun & _); [vm_compute; reflexivity|reflexivity|].
  exists w1, q1, w', q'. split; [reflexivity|exact Hrun].
Defined.

Definition fq_busy_pipes : queues :=
  list_to_map [(1, [single 10; single 11; single 12; single 13]); (2, [single 20; single 21; single 22; single 23]);
               (3, [single 30; single 31; single 32; single 33])].

Lemma fq_round_robin_witness :
  exists w' q' rs, fq_recv_n 4 fq_busy_pipes (fq_three 1) = Some (w', q', rs) /\
    recv_pipes rs = [Some 2; Some 3; Some 1; Some 2].
Proof.
  destruct (fq_round_robin 4 fq_busy_pipes (fq_three 1)) as (w' & q' & rs & Hrun & Hrs).
  - apply fq_three_inv; lia.
  - discriminate.
  - intros p (k & Hk & Hp). simpl in Hk. destruct k as [|[|[|]]]; [| | |lia]; vm_compute in Hp;
      injection Hp as <-; (split; [vm_compute; lia|]); repeat constructor.
  - exists w', q', rs. split; [exact Hrun|]. rewrite Hrs. vm_compute. reflexivity.
Defined.

Lemma fq_has_in_spec_witness :
  exists w' q', fq_has_in fq_example_pipes (fq_three 1) = Some (w', q', true).
Proof.
  destruct (fq_has_in_spec fq_example_pipes (fq_three 1) (fq_three_inv 1 ltac:(lia))) as (w' & q' & b & Hrun & _ & _ & Hb & _).
  exists w', q'. rewrite Hrun. do 2 f_equal. apply Hb. right. exists 1. split; [|vm_compute; discriminate].
  exists 0%nat. split; [vm_compute; lia|vm_compute; reflexivity].
Defined.
