(* ===== verification/Lb.v ===== *)
(** * Load balancing of outbound pipes, [lb_t] (src/src/lb.cpp)

    The first [active] pipes of the array may have room; [sendpipe]
    writes a message to the current one, flushes it at the last part and
    moves on.  The pipes are any [OutPipes]; between the parts of a message
    they may get and lose room, be attached, activated and terminated. *)

From S2P Require Import Prelude Array Frame.

Record lb := Lb {
  lb_pipes : array;
  lb_active : nat;
  lb_current : nat;
  lb_more : bool;
  lb_dropping : bool;
}.

Definition lb_new : lb := Lb array_new 0 0 false false.

Definition lb_destroy (q : lb) : option unit :=
  zmq_assert (array_empty (lb_pipes q)) ;; Some tt.

Definition lb_activated (q : lb) (pipe : Z) : option lb :=
  let* index := array_index (lb_pipes q) pipe in
  let* pipes := array_swap (lb_pipes q) index (lb_active q) in
  Some (Lb pipes (S (lb_active q)) (lb_current q) (lb_more q) (lb_dropping q)).

Definition lb_attach (q : lb) (pipe : Z) : option lb :=
  lb_activated (Lb (array_push_back (lb_pipes q) pipe) (lb_active q) (lb_current q) (lb_more q)
                  (lb_dropping q)) pipe.

(** [_active--; _pipes.swap (index, _active); if (_current == _active) _current = 0;] *)
Definition lb_deactivate (q : lb) (index : nat) : option lb :=
  let active := (lb_active q - 1)%nat in
  let* pipes := array_swap (lb_pipes q) index active in
  Some (Lb pipes active (if (lb_current q =? active)%nat then 0%nat else lb_current q)
          (lb_more q) (lb_dropping q)).

Definition lb_pipe_terminated (q : lb) (pipe : Z) : option lb :=
  let* index := array_index (lb_pipes q) pipe in
  let dropping := if (index =? lb_current q)%nat && lb_more q then true else lb_dropping q in
  let q := Lb (lb_pipes q) (lb_active q) (lb_current q) (lb_more q) dropping in
  let* q := if (index <? lb_active q)%nat then lb_deactivate q index else Some q in
  let* pipes := array_erase (lb_pipes q) pipe in
  Some (Lb pipes (lb_active q) (lb_current q) (lb_more q) (lb_dropping q)).

(** The result of [sendpipe]: 0 with the pipe written to (none when the
    message is dropped), -1 and EAGAIN, or -2 and EAGAIN. *)
Inductive send_result := SendOk (pipe : option Z) | SendAgain | SendAborted.

(** How the loop of [sendpipe] ends. *)
Inductive lb_loop_end := LbWritten (pipe : Z) | LbNoPipe | LbRolledBack.

Section lb.
Context {W : Type} `{OutPipesLaws W}.

Fixpoint lb_send_loop (fuel : nat) (w : W) (q : lb) (msg : frame) : option (W * lb * lb_loop_end) :=
  if (lb_active q =? 0)%nat then Some (w, q, LbNoPipe)
  else
    match fuel with
    | O => None
    | S fuel' =>
        let* pipe := array_get (lb_pipes q) (lb_current q) in
        let* (w, written) := op_write w pipe msg in
        if (written : bool) then Some (w, q, LbWritten pipe)
        else if lb_more q then
          let* w := op_rollback w pipe in
          Some (w, Lb (lb_pipes q) (lb_active q) (lb_current q) false (fr_more msg), LbRolledBack)
        else
          let active := (lb_active q - 1)%nat in
          let* q' :=
            if (lb_current q <? active)%nat then
              let* pipes := array_swap (lb_pipes q) (lb_current q) active in
              Some (Lb pipes active (lb_current q) (lb_more q) (lb_dropping q))
            else Some (Lb (lb_pipes q) active 0 (lb_more q) (lb_dropping q)) in
          lb_send_loop fuel' w q' msg
    end.

Definition lb_sendpipe (w : W) (q : lb) (msg : frame) : option (W * lb * send_result) :=
  if lb_dropping q then
    let more := fr_more msg in
    Some (w, Lb (lb_pipes q) (lb_active q) (lb_current q) more more, SendOk None)
  else
    let* (w, q, e) := lb_send_loop (lb_active q) w q msg in
    match e with
    | LbRolledBack => Some (w, q, SendAborted)
    | LbNoPipe => Some (w, q, SendAgain)
    | LbWritten pipe =>
        let more := fr_more msg in
        if negb more then
          let* w := op_flush w pipe in
          let current := if (lb_active q <=? S (lb_current q))%nat then 0%nat else S (lb_current q) in
          Some (w, Lb (lb_pipes q) (lb_active q) current more (lb_dropping q), SendOk (Some pipe))
        else
          Some (w, Lb (lb_pipes q) (lb_active q) (lb_current q) more (lb_dropping q), SendOk (Some pipe))
    end.

Fixpoint lb_has_out_loop (fuel : nat) (w : W) (q : lb) : option (W * lb * bool) :=
  if (lb_active q =? 0)%nat then Some (w, q, false)
  else
    match fuel with
    | O => None
    | S fuel' =>
        let* pipe := array_get (lb_pipes q) (lb_current q) in
        let* (w, b) := op_check_write w pipe in
        if (b : bool) then Some (w, q, true)
        else let* q := lb_deactivate q (lb_current q) in lb_has_out_loop fuel' w q
    end.

Definition lb_has_out (w : W) (q : lb) : option (W * lb * bool) :=
  if lb_more q then Some (w, q, true) else lb_has_out_loop (lb_active q) w q.

(** ** Invariant *)

Record lb_inv (q : lb) : Prop := {
  li_array : array_wf (lb_pipes q);
  li_active : (lb_active q <= array_size (lb_pipes q))%nat;
  li_current : (lb_current q < lb_active q)%nat \/ lb_active q = 0%nat /\ lb_current q = 0%nat;
}.

Definition lb_is_active (q : lb) (p : Z) : Prop := in_part (lb_pipes q) (lb_active q) p.

Lemma lb_current_active q : lb_inv q -> lb_active q <> 0%nat ->
  exists p, a_items (lb_pipes q) !! lb_current q = Some p /\ lb_is_active q p.
Proof.
  intros [Ha Hact Hc] Hz.
  destruct (lookup_lt_is_Some_2 (a_items (lb_pipes q)) (lb_current q)) as [p Hp];
    [unfold array_size in *; lia|].
  exists p. split; [done|]. exists (lb_current q). split; [lia|done].
Qed.

Lemma lb_deactivate_spec q i p : lb_inv q -> (i < lb_active q)%nat -> a_items (lb_pipes q) !! i = Some p ->
  exists q', lb_deactivate q i = Some q' /\ lb_inv q' /\
    lb_active q' = (lb_active q - 1)%nat /\ lb_more q' = lb_more q /\ lb_dropping q' = lb_dropping q /\
    (forall x, lb_is_active q' x <-> lb_is_active q x /\ x <> p) /\
    (forall x, x ∈ a_items (lb_pipes q') <-> x ∈ a_items (lb_pipes q)).
Proof.
  intros [Ha Hact Hcur] Hi Hp. unfold lb_deactivate.
  destruct (array_shrink_spec (lb_pipes q) (lb_active q) i p Ha ltac:(lia) Hp)
    as (a' & -> & Hwf & Hsz & Hmem & Hat & _ & Hpart).
  cbn [mbind option_bind]. eexists. split; [done|]. split_and!; try done.
  constructor; simpl; [done|lia|].
  destruct (lb_current q =? lb_active q - 1)%nat eqn:E2; [apply Nat.eqb_eq in E2|apply Nat.eqb_neq in E2]; lia.
Qed.

(** The deactivation written out in [sendpipe] is the same step: when the
    current pipe is the last active one the swap is of a place with
    itself. *)
Lemma lb_send_deactivate q : lb_inv q -> lb_active q <> 0%nat ->
  exists q' p, a_items (lb_pipes q) !! lb_current q = Some p /\
    (if (lb_current q <? lb_active q - 1)%nat then
       let* pipes := array_swap (lb_pipes q) (lb_current q) (lb_active q - 1) in
       Some (Lb pipes (lb_active q - 1) (lb_current q) (lb_more q) (lb_dropping q))
     else Some (Lb (lb_pipes q) (lb_active q - 1) 0 (lb_more q) (lb_dropping q))) = Some q' /\
    lb_inv q' /\ lb_active q' = (lb_active q - 1)%nat /\ lb_more q' = lb_more q /\
    lb_dropping q' = lb_dropping q /\
    (forall x, lb_is_active q' x <-> lb_is_active q x /\ x <> p) /\
    (forall x, x ∈ a_items (lb_pipes q') <-> x ∈ a_items (lb_pipes q)).
Proof.
  intros Hq Hz. destruct (lb_current_active q Hq Hz) as (p & Hp & _). pose proof Hq as [Ha Hact Hcur].
  destruct (lb_current q <? lb_active q - 1)%nat eqn:E; [apply Nat.ltb_lt in E|apply Nat.ltb_ge in E].
  - destruct (array_shrink_spec (lb_pipes q) (lb_active q) (lb_current q) p Ha ltac:(lia) Hp)
      as (a' & -> & Hwf & Hsz & Hmem & Hat & _ & Hpart).
    cbn [mbind option_bind]. eexists _, p. split; [done|]. split; [done|]. split_and!; try done.
    constructor; simpl; [done|lia|lia].
  - eexists _, p. split; [done|]. split; [done|]. split_and!; try done; [constructor; simpl; [done|lia|lia]|].
    intros x. unfold lb_is_active, in_part. simpl. split.
    + intros (k & Hk & Hx). split; [exists k; split; [lia|done]|]. intros ->.
      pose proof (NoDup_lookup _ _ _ _ (aw_nodup _ Ha) Hp Hx). lia.
    + intros [(k & Hk & Hx) Hne]. exists k. split; [|done]. assert (k <> lb_current q) by congruence. lia.
Qed.

Lemma lb_activated_spec q p : lb_inv q -> p ∈ a_items (lb_pipes q) -> ~ lb_is_active q p ->
  exists q', lb_activated q p = Some q' /\ lb_inv q' /\
    (forall x, lb_is_active q' x <-> lb_is_active q x \/ x = p) /\
    (forall x, x ∈ a_items (lb_pipes q') <-> x ∈ a_items (lb_pipes q)).
Proof.
  intros [Ha Hact Hcur] Hp Hna. unfold lb_activated.
  destruct (array_index_mem _ _ Ha Hp) as (i & -> & Hi). cbn [mbind option_bind].
  assert (lb_active q <= i)%nat as Hle.
  { destruct (decide (lb_active q <= i)%nat); [done|]. destruct Hna. exists i. split; [lia|done]. }
  pose proof (lookup_lt_Some _ _ _ Hi) as Hlt. fold (array_size (lb_pipes q)) in Hlt.
  destruct (array_grow_spec _ _ _ _ Ha Hle Hi) as (a' & -> & Hwf & Hsz & Hmem & _ & _ & Hpart).
  cbn [mbind option_bind]. eexists. split; [done|]. split; [|done]. constructor; simpl; done || lia.
Qed.

Lemma lb_attach_spec q p : lb_inv q -> p ∉ a_items (lb_pipes q) ->
  exists q', lb_attach q p = Some q' /\ lb_inv q' /\
    (forall x, lb_is_active q' x <-> lb_is_active q x \/ x = p) /\
    (forall x, x ∈ a_items (lb_pipes q') <-> x ∈ a_items (lb_pipes q) \/ x = p).
Proof.
  intros [Ha Hact Hcur] Hp. unfold lb_attach. set (q1 := Lb _ _ _ _ _).
  assert (forall k x, (k < lb_active q)%nat ->
    a_items (lb_pipes q1) !! k = Some x <-> a_items (lb_pipes q) !! k = Some x) as Hk.
  { intros k x Hk. simpl. rewrite lookup_app_l; [done|]. unfold array_size in *. lia. }
  assert (forall x, lb_is_active q1 x <-> lb_is_active q x) as Hin.
  { intros x. unfold lb_is_active, in_part. split; intros (k & Hk' & Hx); exists k; (split; [done|]);
      by apply Hk. }
  destruct (lb_activated_spec q1 p) as (q' & ? & ? & Hin' & Hmem').
  - constructor; simpl; [by apply array_push_back_wf| |done]. unfold array_size in *. simpl.
    rewrite length_app. lia.
  - simpl. set_solver.
  - rewrite Hin. intros ?%in_part_mem. done.
  - exists q'. split_and!; try done.
    + intros x. by rewrite Hin', Hin.
    + intros x. rewrite Hmem'. simpl. set_solver.
Qed.

Lemma lb_pipe_terminated_spec q p : lb_inv q -> p ∈ a_items (lb_pipes q) ->
  exists q', lb_pipe_terminated q p = Some q' /\ lb_inv q' /\
    (forall x, lb_is_active q' x <-> lb_is_active q x /\ x <> p) /\
    (forall x, x ∈ a_items (lb_pipes q') <-> x ∈ a_items (lb_pipes q) /\ x <> p) /\
    (lb_more q = true -> a_items (lb_pipes q) !! lb_current q = Some p -> lb_dropping q' = true).
Proof.
  intros Hq Hp. unfold lb_pipe_terminated.
  destruct (array_index_mem _ _ (li_array _ Hq) Hp) as (i & -> & Hi). cbn [mbind option_bind].
  set (d := if (i =? lb_current q)%nat && lb_more q then true else lb_dropping q).
  set (q0 := Lb _ _ _ _ d).
  assert (lb_inv q0) as Hq0 by (destruct Hq; by constructor).
  assert (exists q1, (if (i <? lb_active q0)%nat then lb_deactivate q0 i else Some q0) = Some q1 /\ lb_inv q1 /\
    lb_dropping q1 = d /\ (forall x, lb_is_active q1 x <-> lb_is_active q x /\ x <> p) /\
    (forall x, x ∈ a_items (lb_pipes q1) <-> x ∈ a_items (lb_pipes q))) as (q1 & -> & Hq1 & Hd & Hact & Hmem).
  { destruct (i <? lb_active q0)%nat eqn:E; [apply Nat.ltb_lt in E|apply Nat.ltb_ge in E].
    - destruct (lb_deactivate_spec q0 i p Hq0 E Hi) as (q1 & ? & ? & _ & _ & ? & ? & ?). by exists q1.
    - exists q0. split_and!; try done. intros x. split; [|intros [? _]; done]. intros Hx. split; [done|].
      intros ->. destruct Hx as (k & Hk & Hkp).
      pose proof (NoDup_lookup _ _ _ _ (aw_nodup _ (li_array _ Hq)) Hi Hkp). simpl in *. lia. }
  cbn [mbind option_bind]. pose proof Hq1 as [Ha1 Hact1 Hc1].
  destruct (array_erase_spec (lb_pipes q1) p Ha1) as (a' & j & -> & Hwf & Hj & Hsz & Hget & Hmem').
  { by apply Hmem. }
  assert (lb_active q1 <= j)%nat as Hle.
  { destruct (decide (lb_active q1 <= j)%nat); [done|]. exfalso.
    assert (lb_is_active q1 p) as [_ ?]%Hact by (exists j; split; [lia|done]). done. }
  pose proof (lookup_lt_Some _ _ _ Hj) as Hlt. fold (array_size (lb_pipes q1)) in Hlt.
  cbn [mbind option_bind]. eexists. split; [done|]. split_and!.
  - constructor; simpl; [done|lia|done].
  - intros x. rewrite <- Hact. unfold lb_is_active, in_part. simpl.
    split; intros (k & Hk & Hx); exists k; (split; [done|]); rewrite Hget in * by lia;
      by rewrite decide_False in * by lia.
  - intros x. simpl. by rewrite Hmem', Hmem.
  - simpl. rewrite Hd. intros Hm Hcur. unfold d.
    assert (i = lb_current q) as -> by (eapply NoDup_lookup; [apply Hq|done|done]).
    by rewrite Nat.eqb_refl, Hm.
Qed.

(** ** Sending *)

(** What one call of [sendpipe] does when no message is being dropped. *)
Definition lb_send_ok (w : W) (q : lb) (f : frame) (w' : W) (q' : lb) (r : send_result) : Prop :=
  match r with
  | SendOk (Some p) =>
      lb_is_active q p /\ op_room w p = true /\
      (lb_more q = true -> a_items (lb_pipes q) !! lb_current q = Some p) /\
      lb_more q' = fr_more f /\ lb_dropping q' = false /\
      (forall p', p' <> p -> op_pending w' p' = op_pending w p' /\ op_sent w' p' = op_sent w p') /\
      (if fr_more f then
         op_pending w' p = op_pending w p ++ [f] /\ op_sent w' p = op_sent w p /\
         lb_active q' <> 0%nat /\ a_items (lb_pipes q') !! lb_current q' = Some p
       else op_pending w' p = [] /\ op_sent w' p = op_sent w p ++ op_pending w p ++ [f])
  | SendOk None => False
  | SendAgain =>
      lb_active q' = 0%nat /\
      (if lb_more q then lb_active q = 0%nat else forall p, lb_is_active q p -> op_room w p = false) /\
      (forall p, op_pending w' p = op_pending w p /\ op_sent w' p = op_sent w p)
  | SendAborted => exists p,
      lb_more q = true /\ a_items (lb_pipes q) !! lb_current q = Some p /\ op_room w p = false /\
      op_pending w' p = [] /\ (forall p', p' <> p -> op_pending w' p' = op_pending w p') /\
      (forall p', op_sent w' p' = op_sent w p') /\
      lb_more q' = false /\ lb_dropping q' = fr_more f
  end.

(** The loop finds the first pipe with room, or none. *)
Lemma lb_send_loop_spec fuel f : forall w q, lb_inv q -> (lb_active q <= fuel)%nat -> lb_more q = false ->
  exists w' q' e, lb_send_loop fuel w q f = Some (w', q', e) /\ lb_inv q' /\
    lb_more q' = false /\ lb_dropping q' = lb_dropping q /\
    match e with
    | LbWritten p => lb_is_active q p /\ op_room w p = true /\ lb_active q' <> 0%nat /\
        a_items (lb_pipes q') !! lb_current q' = Some p /\
        op_pending w' p = op_pending w p ++ [f] /\
        (forall p', p' <> p -> op_pending w' p' = op_pending w p') /\
        (forall p', op_sent w' p' = op_sent w p')
    | LbNoPipe => lb_active q' = 0%nat /\ (forall p, lb_is_active q p -> op_room w p = false) /\
        (forall p, op_pending w' p = op_pending w p /\ op_sent w' p = op_sent w p)
    | LbRolledBack => False
    end.
Proof.
  induction fuel as [|fuel IH]; intros w q Hq Hf Hm; simpl.
  { replace (lb_active q) with 0%nat by lia. simpl. exists w, q, LbNoPipe. split_and!; try done; [lia|].
    intros p (k & Hk & _). lia. }
  destruct (lb_active q =? 0)%nat eqn:E0; [apply Nat.eqb_eq in E0|apply Nat.eqb_neq in E0].
  { exists w, q, LbNoPipe. split_and!; try done. intros p (k & Hk & _). lia. }
  destruct (lb_current_active q Hq E0) as (p & Hp & Hpa). unfold array_get. rewrite Hp.
  cbn [mbind option_bind]. destruct (op_write_ok w p f) as (w1 & -> & Hpend & Hsent & Hroom).
  cbn [mbind option_bind]. destruct (op_room w p) eqn:Er.
  - exists w1, q, (LbWritten p). split_and!; try done.
    + by rewrite Hpend, decide_True.
    + intros p' Hne. by rewrite Hpend, decide_False.
  - rewrite Hm.
    destruct (lb_send_deactivate q Hq E0) as (q1 & p0 & Hp0 & Hrun & Hq1 & Hact1 & Hm1 & Hd1 & Hin1 & _).
    rewrite Hp in Hp0. injection Hp0 as <-. rewrite Hm in Hrun. rewrite Hrun. cbn [mbind option_bind].
    assert (forall p', op_pending w1 p' = op_pending w p') as Hpend'
      by (intros p'; rewrite Hpend; case_decide; by subst).
    assert (forall p', op_room w1 p' = op_room w p') as Hroom' by (intros p'; apply Hroom; by right; left).
    destruct (IH w1 q1) as (w2 & q2 & e & -> & Hq2 & Hm2 & Hd2 & He); try done; try lia; try congruence.
    exists w2, q2, e. split_and!; try done; try congruence. destruct e as [p'| |]; [| |done].
    + destruct He as (H1 & H2 & H3 & H4 & H5 & H6 & H7). apply Hin1 in H1 as [? ?].
      rewrite Hroom', ?Hpend' in *. split_and!; try done.
      * intros p'' Hne. by rewrite H6, Hpend'.
      * intros p''. by rewrite H7.
    + destruct He as (H1 & H2 & H3). split_and!; try done.
      * intros p' Hx. destruct (decide (p' = p)) as [->|]; [done|]. rewrite <- Hroom'. apply H2. by apply Hin1.
      * intros p'. destruct (H3 p') as [-> ->]. by rewrite Hpend', Hsent.
Qed.

Lemma lb_sendpipe_ok w q f : lb_inv q -> lb_dropping q = false ->
  exists w' q' r, lb_sendpipe w q f = Some (w', q', r) /\ lb_inv q' /\ lb_send_ok w q f w' q' r.
Proof.
  intros Hq Hd. unfold lb_sendpipe. rewrite Hd.
  assert (forall q1 w1 p, lb_inv q1 -> lb_dropping q1 = false -> lb_active q1 <> 0%nat -> lb_is_active q p -> op_room w p = true ->
    (lb_more q = true -> a_items (lb_pipes q) !! lb_current q = Some p) ->
    a_items (lb_pipes q1) !! lb_current q1 = Some p -> op_pending w1 p = op_pending w p ++ [f] ->
    (forall p', p' <> p -> op_pending w1 p' = op_pending w p') ->
    (forall p', op_sent w1 p' = op_sent w p') ->
    exists w' q' r, (if negb (fr_more f) then
          let* w := op_flush w1 p in
          Some (w, Lb (lb_pipes q1) (lb_active q1)
            (if (lb_active q1 <=? S (lb_current q1))%nat then 0%nat else S (lb_current q1))
            (fr_more f) (lb_dropping q1), SendOk (Some p))
        else Some (w1, Lb (lb_pipes q1) (lb_active q1) (lb_current q1) (fr_more f) (lb_dropping q1), SendOk (Some p)))
      = Some (w', q', r) /\ lb_inv q' /\ lb_send_ok w q f w' q' r) as Hfin.
  { intros q1 w1 p Hq1 Hd1 Hz Hpa Hr Hmc Hc Hpend Hoth Hsent. pose proof Hq1 as [Ha1 Hact1 Hcur1].
    destruct (fr_more f) eqn:Ef; cbn [negb].
    - eexists _, _, _. split; [done|]. split; [by constructor|]. unfold lb_send_ok. rewrite Ef.
      split_and!; try done. intros p' Hne. by rewrite Hoth, Hsent.
    - destruct (op_flush_ok w1 p) as (w2 & -> & Hs2 & Hp2 & _). cbn [mbind option_bind].
      eexists _, _, _. split; [done|]. split.
      + constructor; simpl; try done.
        destruct (lb_active q1 <=? S (lb_current q1))%nat eqn:E; [apply Nat.leb_le in E|apply Nat.leb_gt in E]; lia.
      + unfold lb_send_ok. rewrite Ef. split_and!; try done.
        * intros p' Hne. rewrite Hs2, Hp2, !decide_False, Hoth, Hsent by done. done.
        * by rewrite Hp2, decide_True.
        * rewrite Hs2, decide_True by done. by rewrite Hsent, Hpend. }
  destruct (lb_more q) eqn:Em.
  - destruct (lb_active q) as [|n] eqn:En.
    { simpl. rewrite En. simpl. exists w, q, SendAgain. split_and!; try done. unfold lb_send_ok. by rewrite Em. }
    cbn [lb_send_loop]. rewrite En. cbn [Nat.eqb].
    destruct (lb_current_active q Hq) as (p & Hp & Hpa); [lia|]. unfold array_get. rewrite Hp.
    cbn [mbind option_bind]. destruct (op_write_ok w p f) as (w1 & -> & Hpend & Hsent & _).
    cbn [mbind option_bind]. destruct (op_room w p) eqn:Er.
    + cbn [mbind option_bind]. apply Hfin; try done; [lia| |].
      * by rewrite Hpend, decide_True.
      * intros p' Hne. by rewrite Hpend, decide_False.
    + rewrite Em. destruct (op_rollback_ok w1 p) as (w2 & -> & Hs2 & Hp2 & _). cbn [mbind option_bind].
      eexists _, _, _. split; [done|]. split; [destruct Hq; by constructor; simpl; rewrite <- ?En|].
      exists p. split_and!; try done.
      * by rewrite Hp2, decide_True.
      * intros p' Hne. by rewrite Hp2, decide_False, Hpend, decide_False.
      * intros p'. by rewrite Hs2.
  - destruct (lb_send_loop_spec (lb_active q) f w q Hq) as (w1 & q1 & e & -> & Hq1 & Hm1 & Hd1 & He); [done|done|].
    cbn [mbind option_bind]. destruct e as [p| |]; [| |done].
    + destruct He as (H1 & H2 & H3 & H4 & H5 & H6 & H7). apply Hfin; try done. congruence.
    + destruct He as (H1 & H2 & H3). exists w1, q1, SendAgain. split_and!; try done.
      unfold lb_send_ok. by rewrite Em.
Qed.

(** The pipe that took a part with more to come has room for the rest, and
    the other pipes keep theirs. *)
Lemma lb_send_loop_room fuel f : forall w q w' q' p, lb_send_loop fuel w q f = Some (w', q', LbWritten p) -> fr_more f = true ->
  forall p', op_room w' p' = op_room w p'.
Proof.
  induction fuel as [|fuel IH]; intros w q w' q' p; simpl; (destruct (_ =? 0)%nat; [done|]); [done|].
  destruct (array_get _ _) as [p1|]; [|done]. cbn [mbind option_bind].
  destruct (op_write_ok w p1 f) as (w1 & -> & _ & _ & Hroom). cbn [mbind option_bind]. intros Hrun Hf p'.
  destruct (op_room w p1) eqn:Er; [simplify_eq; apply Hroom; tauto|].
  destruct (lb_more q); [destruct (op_rollback w1 p1); simplify_eq|].
  destruct (if _ : bool then _ else _) as [q1|]; [|done]. cbn [mbind option_bind] in Hrun.
  rewrite (IH _ _ _ _ _ Hrun Hf p'). apply Hroom. tauto.
Qed.

Lemma lb_sendpipe_room w q f w' q' p : lb_sendpipe w q f = Some (w', q', SendOk (Some p)) -> fr_more f = true ->
  forall p', op_room w' p' = op_room w p'.
Proof.
  unfold lb_sendpipe. destruct (lb_dropping q); [done|].
  destruct (lb_send_loop (lb_active q) w q f) as [[[w1 q1] [p1| |]]|] eqn:E; try done. cbn [mbind option_bind].
  intros Hrun Hf. rewrite Hf in Hrun. cbn [negb] in Hrun. simplify_eq. by apply (lb_send_loop_room _ _ _ _ _ _ _ E).
Qed.

(** ** Whole messages *)

Fixpoint lb_send_all (w : W) (q : lb) (fs : list frame) : option (W * lb * list send_result) :=
  match fs with
  | [] => Some (w, q, [])
  | f :: fs' =>
      let* (w, q, r) := lb_sendpipe w q f in
      let* (w, q, rs) := lb_send_all w q fs' in
      Some (w, q, r :: rs)
  end.

Lemma lb_send_loop_items fuel f : forall w q w' q' e, lb_send_loop fuel w q f = Some (w', q', e) ->
  forall x, x ∈ a_items (lb_pipes q') <-> x ∈ a_items (lb_pipes q).
Proof.
  induction fuel as [|fuel IH]; intros w q w' q' e; cbn [lb_send_loop]; (destruct (_ =? 0)%nat; [by intros [= <- <- <-]|]); [done|].
  destruct (array_get _ _) as [p1|]; [|done]. cbn [mbind option_bind]. destruct (op_write w p1 f) as [[w1 b]|]; [|done]. cbn [mbind option_bind].
  destruct b; [by intros [= <- <- <-]|]. destruct (lb_more q); [destruct (op_rollback w1 p1); [|done]; by intros [= <- <- <-]|].
  destruct (_ <? _)%nat; cbn [mbind option_bind].
  - destruct (array_swap _ _ _) as [a'|] eqn:Es; [|done]. cbn [mbind option_bind]. intros E x. rewrite (IH _ _ _ _ _ E). cbn. by apply (array_swap_mem _ _ _ _ Es).
  - intros E x. by rewrite (IH _ _ _ _ _ E).
Qed.

Lemma lb_sendpipe_items w q f w' q' r : lb_sendpipe w q f = Some (w', q', r) -> forall x, x ∈ a_items (lb_pipes q') <-> x ∈ a_items (lb_pipes q).
Proof.
  unfold lb_sendpipe. destruct (lb_dropping q); [by intros [= <- <- <-]|].
  destruct (lb_send_loop (lb_active q) w q f) as [[[w1 q1] e]|] eqn:E; [|done]. cbn [mbind option_bind]. pose proof (lb_send_loop_items _ _ _ _ _ _ _ E) as Hx.
  destruct e as [p| |]; [|by intros [= <- <- <-]..]. destruct (negb _); [destruct (op_flush _ _); [|done]|]; by intros [= <- <- <-].
Qed.

(** What may happen between two calls: the peers read and the pipes fill,
    so that any pipe may get or lose room; a pipe is activated, attached or
    terminated. *)
Inductive lb_event := le_pipes (w : W) | le_activated (p : Z) | le_attach (p : Z) | le_terminated (p : Z).

Definition lb_happen (w : W) (q : lb) (e : lb_event) : option (W * lb) :=
  match e with
  | le_pipes w' => Some (w', q)
  | le_activated p => let* q := lb_activated q p in Some (w, q)
  | le_attach p => let* q := lb_attach q p in Some (w, q)
  | le_terminated p => let* q := lb_pipe_terminated q p in Some (w, q)
  end.

Fixpoint lb_happens (w : W) (q : lb) (es : list lb_event) : option (W * lb) :=
  match es with [] => Some (w, q) | e :: es => let* (w, q) := lb_happen w q e in lb_happens w q es end.

(** The parts of a message, and what happens after each; no part is sent
    twice. *)
Fixpoint lb_send_parts (w : W) (q : lb) (l : list (frame * list lb_event)) : option (W * lb * list send_result) :=
  match l with
  | [] => Some (w, q, [])
  | (f, es) :: l =>
      let* (w, q, r) := lb_sendpipe w q f in
      let* (w, q) := lb_happens w q es in
      let* (w, q, rs) := lb_send_parts w q l in
      Some (w, q, r :: rs)
  end.

(** The calls that pipes make.  While a message is under way no other
    active pipe terminates when the current one is the last of the active
    ([lb_terminated_splits_message] shows why). *)
Definition lb_event_fits (w : W) (q : lb) (e : lb_event) : Prop :=
  match e with
  | le_pipes w' => forall p, op_pending w' p = op_pending w p /\ op_sent w' p = op_sent w p
  | le_activated p => (p ∈ a_items (lb_pipes q)) /\ ~ lb_is_active q p
  | le_attach p => (p ∉ a_items (lb_pipes q)) /\ op_pending w p = []
  | le_terminated p => (p ∈ a_items (lb_pipes q)) /\
      (lb_more q = true -> lb_dropping q = false ->
       a_items (lb_pipes q) !! lb_current q = Some p \/ ~ lb_is_active q p \/ (S (lb_current q) < lb_active q)%nat)
  end.

Fixpoint lb_events_fit (w : W) (q : lb) (es : list lb_event) : Prop :=
  match es with
  | [] => True
  | e :: es => lb_event_fits w q e /\ match lb_happen w q e with Some (w, q) => lb_events_fit w q es | None => True end
  end.

Fixpoint lb_parts_fit (w : W) (q : lb) (l : list (frame * list lb_event)) : Prop :=
  match l with
  | [] => True
  | (f, es) :: l =>
      match lb_sendpipe w q f with
      | Some (w, q, _) => lb_events_fit w q es /\ match lb_happens w q es with Some (w, q) => lb_parts_fit w q l | None => True end
      | None => True
      end
  end.

(** Why a pipe does not take the rest of a message. *)
Definition lost (p : Z) (es : list lb_event) : Prop :=
  (le_terminated p ∈ es) \/ (exists w, (le_pipes w ∈ es) /\ op_room w p = false).

Lemma lost_app p es es' : lost p es \/ lost p es' -> lost p (es ++ es').
Proof. unfold lost. setoid_rewrite elem_of_app. naive_solver. Qed.

(** No part is pending; [snt] is what was sent. *)
Record lb_quiet (w : W) (q : lb) (snt : Z -> list frame) : Prop := {
  lq_inv : lb_inv q;
  lq_pending p : p ∈ a_items (lb_pipes q) -> op_pending w p = [];
  lq_sent p : op_sent w p = snt p;
}.

(** The parts [pre] of a message are pending on the current pipe. *)
Record lb_mid (w : W) (q : lb) (snt : Z -> list frame) (c : Z) (pre : list frame) : Prop := {
  lm_inv : lb_inv q;
  lm_more : lb_more q = true;
  lm_dropping : lb_dropping q = false;
  lm_current : (lb_current q < lb_active q)%nat /\ a_items (lb_pipes q) !! lb_current q = Some c;
  lm_pre : op_pending w c = pre;
  lm_pending p : p ∈ a_items (lb_pipes q) -> p <> c -> op_pending w p = [];
  lm_sent p : op_sent w p = snt p;
}.

(** *** What the calls of pipes leave alone *)

Definition same_flags (q q' : lb) : Prop := lb_more q' = lb_more q /\ lb_dropping q' = lb_dropping q.

Definition keeps_current (q q' : lb) : Prop :=
  lb_current q' = lb_current q /\ (lb_active q <= lb_active q')%nat /\
  forall k, (k < lb_active q)%nat -> a_items (lb_pipes q') !! k = a_items (lb_pipes q) !! k.

Lemma lb_activated_keeps q p q' : lb_inv q -> p ∈ a_items (lb_pipes q) -> ~ lb_is_active q p -> lb_activated q p = Some q' ->
  same_flags q q' /\ keeps_current q q'.
Proof.
  intros [Ha Hact Hcur] Hp Hna. unfold lb_activated. destruct (array_index_mem _ _ Ha Hp) as (i & -> & Hi). cbn [mbind option_bind].
  assert (lb_active q <= i)%nat as Hle.
  { destruct (decide (lb_active q <= i)%nat); [done|]. destruct Hna. exists i. split; [lia|done]. }
  pose proof (lookup_lt_Some _ _ _ Hi) as Hlt.
  destruct (array_swap_spec (lb_pipes q) i (lb_active q)) as (a' & -> & _ & _ & Hget & _); [done|done|unfold array_size; lia|].
  cbn [mbind option_bind]. intros [= <-]. split; [done|]. split; [done|]. split; [simpl; lia|]. intros k Hk. simpl. rewrite Hget.
  unfold swap_pos. by rewrite !decide_False by lia.
Qed.

Lemma lb_attach_keeps q p q' : lb_inv q -> p ∉ a_items (lb_pipes q) -> lb_attach q p = Some q' -> same_flags q q' /\ keeps_current q q'.
Proof.
  intros [Ha Hact Hcur] Hp. unfold lb_attach. set (q1 := Lb _ _ _ _ _). intros E.
  assert (forall k, (k < lb_active q)%nat -> a_items (lb_pipes q1) !! k = a_items (lb_pipes q) !! k) as Hlow.
  { intros k Hk. simpl. apply lookup_app_l. unfold array_size in *. lia. }
  destruct (lb_activated_keeps q1 p q') as [Hf (H1 & H2 & H3)]; [|simpl; set_solver| |done|].
  - constructor; simpl; [by apply array_push_back_wf| |done]. unfold array_size in *. simpl. rewrite length_app. lia.
  - intros (k & Hk & Hx). rewrite Hlow in Hx by done. by apply Hp, (list_elem_of_lookup_2 _ k).
  - split; [done|]. split; [done|]. split; [done|]. intros k Hk. rewrite H3 by done. by apply Hlow.
Qed.

Lemma lb_terminated_flags q p q' : lb_pipe_terminated q p = Some q' ->
  lb_more q' = lb_more q /\ (lb_dropping q' = lb_dropping q \/ lb_dropping q' = true /\ lb_more q = true).
Proof.
  unfold lb_pipe_terminated, lb_deactivate. destruct (array_index _ _) as [i|]; [|done]. cbn [mbind option_bind].
  set (d := if (i =? lb_current q)%nat && lb_more q then true else lb_dropping q).
  assert (d = lb_dropping q \/ d = true /\ lb_more q = true) as Hd by (unfold d; destruct (_ =? _)%nat, (lb_more q); simpl; auto).
  destruct (_ <? _)%nat; [destruct (array_swap _ _ _) as [a1|]; [|done]|]; cbn [mbind option_bind lb_pipes]; destruct (array_erase _ p); cbn [mbind option_bind]; intros; by simplify_eq.
Qed.

Lemma lb_terminated_keeps q p q' c : lb_inv q -> p ∈ a_items (lb_pipes q) -> (lb_current q < lb_active q)%nat ->
  a_items (lb_pipes q) !! lb_current q = Some c -> p <> c -> ~ lb_is_active q p \/ (S (lb_current q) < lb_active q)%nat ->
  lb_pipe_terminated q p = Some q' -> same_flags q q' /\ (lb_current q' < lb_active q')%nat /\ a_items (lb_pipes q') !! lb_current q' = Some c.
Proof.
  intros Hq Hp Hlt Hc Hne Hok E. destruct (lb_pipe_terminated_spec q p Hq Hp) as (q2 & E2 & Hinv & _). rewrite E in E2. injection E2 as <-. revert E.
  unfold lb_pipe_terminated. destruct (array_index_mem _ _ (li_array _ Hq) Hp) as (i & -> & Hi). cbn [mbind option_bind].
  assert (i <> lb_current q) as Hic by congruence. rewrite (proj2 (Nat.eqb_neq i _) Hic). cbn [andb]. set (q0 := Lb _ _ _ _ _).
  assert (exists q1, (if (i <? lb_active q0)%nat then lb_deactivate q0 i else Some q0) = Some q1 /\ same_flags q q1 /\ lb_current q1 = lb_current q /\
    (lb_current q < lb_active q1)%nat /\ array_wf (lb_pipes q1) /\ a_items (lb_pipes q1) !! lb_current q = Some c /\ p ∈ a_items (lb_pipes q1))
    as (q1 & -> & Hf & Hcur1 & Hlt1 & Hwf1 & Hc1 & Hp1).
  { destruct (i <? lb_active q0)%nat eqn:Ei; [apply Nat.ltb_lt in Ei|by exists q0; destruct Hq].
    assert (S (lb_current q) < lb_active q)%nat as Hlast by (destruct Hok as [Hna|]; [destruct Hna; by exists i|done]).
    assert (lb_inv q0) as Hq0 by (destruct Hq; by constructor).
    destruct (lb_deactivate_spec q0 i p Hq0 Ei Hi) as (q1 & E1 & Hq1 & Ha1 & Hm1 & Hd1 & _ & Hmem1). exists q1. split; [done|].
    split; [done|]. unfold lb_deactivate in E1. destruct (array_swap_spec (lb_pipes q) i (lb_active q - 1)) as (a' & Hs & _ & _ & Hget & _);
      [apply Hq|by eapply lookup_lt_Some|destruct Hq; unfold array_size in *; lia|].
    cbn [lb_pipes lb_active q0] in E1. rewrite Hs in E1. cbn [mbind option_bind lb_current q0] in E1. rewrite (proj2 (Nat.eqb_neq _ _)) in E1 by lia.
    injection E1 as <-. simpl. split_and!; try done; [lia|apply Hq1| |by apply Hmem1]. rewrite Hget. unfold swap_pos. by rewrite !decide_False by lia. }
  cbn [mbind option_bind]. destruct (array_erase_spec (lb_pipes q1) p Hwf1 Hp1) as (a' & j & -> & Hwf & Hj & Hsz & Hget & _). cbn [mbind option_bind].
  intros [= <-]. split; [done|]. simpl. rewrite Hcur1. split; [done|]. destruct Hinv as [_ Hact _]. cbn [lb_active lb_pipes] in Hact.
  rewrite Hget by lia. rewrite decide_False; [done|]. intros <-. congruence.
Qed.

Lemma keeps_mid q q' c : keeps_current q q' -> (lb_current q < lb_active q)%nat -> a_items (lb_pipes q) !! lb_current q = Some c ->
  (lb_current q' < lb_active q')%nat /\ a_items (lb_pipes q') !! lb_current q' = Some c.
Proof. intros (-> & Hle & Hk) Hlt Hc. split; [lia|]. by rewrite Hk. Qed.

(** *** Events between messages and parts *)

Lemma lb_happen_quiet w q snt e : lb_quiet w q snt -> lb_event_fits w q e -> (lb_more q = true -> lb_dropping q = true) ->
  exists w' q', lb_happen w q e = Some (w', q') /\ lb_quiet w' q' snt /\ same_flags q q'.
Proof.
  intros [Hq Hpn Hs] He Hmd. destruct e as [w'|p|p|p]; cbn [lb_happen lb_event_fits] in *.
  - exists w', q. split; [done|]. split; [|done]. constructor; [done| |]; intros p; [intros Hp|]; rewrite ?(proj1 (He p)), ?(proj2 (He p)); auto.
  - destruct He as [Hp Hna]. destruct (lb_activated_spec q p Hq Hp Hna) as (q' & E & Hq' & _ & Hmem). rewrite E. exists w, q'. split; [done|].
    split; [|by apply (lb_activated_keeps q p)]. constructor; [done| |done]. intros x Hx. by apply Hpn, Hmem.
  - destruct He as [Hp Hn]. destruct (lb_attach_spec q p Hq Hp) as (q' & E & Hq' & _ & Hmem). rewrite E. exists w, q'. split; [done|].
    split; [|by apply (lb_attach_keeps q p)]. constructor; [done| |done]. intros x [Hx| ->]%Hmem; auto.
  - destruct He as [Hp _]. destruct (lb_pipe_terminated_spec q p Hq Hp) as (q' & E & Hq' & _ & Hmem & _). rewrite E. exists w, q'. split; [done|].
    split; [constructor; [done| |done]; intros x [Hx _]%Hmem; auto|]. destruct (lb_terminated_flags q p q' E) as [Hm [Hd|[Hd Hmt]]]; split; try done.
    rewrite Hd. symmetry. auto.
Qed.

Lemma lb_happens_quiet es : forall w q snt, lb_quiet w q snt -> lb_events_fit w q es -> (lb_more q = true -> lb_dropping q = true) ->
  exists w' q', lb_happens w q es = Some (w', q') /\ lb_quiet w' q' snt /\ same_flags q q'.
Proof.
  induction es as [|e es IH]; intros w q snt Hq He Hmd; cbn [lb_happens lb_events_fit] in *; [by exists w, q|]. destruct He as [He Hes].
  destruct (lb_happen_quiet w q snt e Hq He Hmd) as (w1 & q1 & E & Hq1 & [Hm1 Hd1]). rewrite E in *. cbn [mbind option_bind].
  destruct (IH w1 q1 snt Hq1 Hes) as (w2 & q2 & -> & Hq2 & [Hm2 Hd2]); [by rewrite Hm1, Hd1|]. exists w2, q2. split; [done|]. split; [done|].
  split; congruence.
Qed.

(** In the middle of a message the current pipe stays the current one,
    unless it terminates. *)
Lemma lb_happen_mid w q snt c pre e : lb_mid w q snt c pre -> lb_event_fits w q e ->
  exists w' q', lb_happen w q e = Some (w', q') /\
    (lb_mid w' q' snt c pre /\ (op_room w c = true -> op_room w' c = true \/ lost c [e]) \/
     lb_quiet w' q' snt /\ lb_more q' = true /\ lb_dropping q' = true /\ lost c [e]).
Proof.
  intros [Hq Hm Hd [Hlt Hc] Hpre Hpn Hs] He. destruct e as [w'|p|p|p]; cbn [lb_happen lb_event_fits] in *.
  - exists w', q. split; [done|left]. split.
    + constructor; try done; [by rewrite (proj1 (He c))|intros p Hp Hne; rewrite (proj1 (He p)); auto|intros p; by rewrite (proj2 (He p))].
    + intros _. destruct (op_room w' c) eqn:Er; [by left|]. right. right. exists w'. split; [by left|done].
  - destruct He as [Hp Hna]. destruct (lb_activated_spec q p Hq Hp Hna) as (q' & E & Hq' & _ & Hmem). rewrite E. exists w, q'. split; [done|left].
    destruct (lb_activated_keeps q p q' Hq Hp Hna E) as [[Hm' Hd'] Hk]. split; [|by left].
    constructor; try done; [congruence..|by apply (keeps_mid q)|]. intros x Hx. by apply Hpn, Hmem.
  - destruct He as [Hp Hn]. destruct (lb_attach_spec q p Hq Hp) as (q' & E & Hq' & _ & Hmem). rewrite E. exists w, q'. split; [done|left].
    destruct (lb_attach_keeps q p q' Hq Hp E) as [[Hm' Hd'] Hk]. split; [|by left].
    constructor; try done; [congruence..|by apply (keeps_mid q)|]. intros x [Hx| ->]%Hmem; auto.
  - destruct He as [Hp Hok]. destruct (lb_pipe_terminated_spec q p Hq Hp) as (q' & E & Hq' & _ & Hmem & Hdrop). rewrite E. exists w, q'. split; [done|].
    destruct (decide (p = c)) as [->|Hne].
    + right. destruct (lb_terminated_flags q c q' E) as [Hm' _]. split; [|split; [congruence|split; [by apply Hdrop|by left; left]]].
      constructor; [done| |done]. intros x [Hx ?]%Hmem; auto.
    + left. split; [|by left].
      destruct (lb_terminated_keeps q p q' c Hq Hp Hlt Hc Hne) as [[Hm' Hd'] [Hlt' Hc']]; [|done|].
      { destruct (Hok Hm Hd) as [Hc2|]; [congruence|done]. }
      constructor; try done; [congruence..|]. intros x [Hx _]%Hmem; auto.
Qed.

Lemma lb_happens_mid es : forall w q snt c pre, lb_mid w q snt c pre -> lb_events_fit w q es ->
  exists w' q', lb_happens w q es = Some (w', q') /\
    (lb_mid w' q' snt c pre /\ (op_room w c = true -> op_room w' c = true \/ lost c es) \/
     lb_quiet w' q' snt /\ lb_more q' = true /\ lb_dropping q' = true /\ lost c es).
Proof.
  induction es as [|e es IH]; intros w q snt c pre Hq He; cbn [lb_happens lb_events_fit] in *; [exists w, q; split; [done|]; left; split; [done|by left]|].
  destruct He as [He Hes]. destruct (lb_happen_mid w q snt c pre e Hq He) as (w1 & q1 & E & Hcase). rewrite E in *. cbn [mbind option_bind].
  destruct Hcase as [[Hq1 Hr1]|(Hq1 & Hm1 & Hd1 & Hl1)].
  - destruct (IH w1 q1 snt c pre Hq1 Hes) as (w2 & q2 & -> & [[Hq2 Hr2]|(Hq2 & Hm2 & Hd2 & Hl2)]); exists w2, q2; (split; [done|]); [left|right].
    + split; [done|]. intros Hr. destruct (Hr1 Hr) as [Hr'|Hl]; [destruct (Hr2 Hr') as [|Hl]; [by left|]|]; right; apply (lost_app c [e]); auto.
    + split_and!; try done. apply (lost_app c [e]). auto.
  - destruct (lb_happens_quiet es w1 q1 snt Hq1 Hes) as (w2 & q2 & -> & Hq2 & [Hm2 Hd2]); [done|]. exists w2, q2. split; [done|right].
    split; [done|]. split; [congruence|]. split; [congruence|]. apply (lost_app c [e]). auto.
Qed.

(** *** The rest of a message *)

(** Parts that are dropped. *)
Lemma lb_parts_dropped l : forall w q snt, is_message l.*1 = true -> lb_quiet w q snt -> lb_dropping q = true -> lb_parts_fit w q l ->
  exists w' q', lb_send_parts w q l = Some (w', q', replicate (length l) (SendOk None)) /\
    lb_quiet w' q' snt /\ lb_more q' = false /\ lb_dropping q' = false.
Proof.
  induction l as [|[f es] l IH]; intros w q snt Hmsg Hq Hd Hfit; [done|]. cbn [lb_send_parts lb_parts_fit] in *.
  unfold lb_sendpipe in *. rewrite Hd in *. cbn [mbind option_bind] in *. set (q1 := Lb _ _ _ (fr_more f) (fr_more f)) in *. destruct Hfit as [He Hfit].
  assert (lb_quiet w q1 snt) as Hq1 by (destruct Hq as [[] Hp Hs]; by constructor).
  destruct (lb_happens_quiet es w q1 snt Hq1 He) as (w2 & q2 & E & Hq2 & [Hm2 Hd2]); [done|]. rewrite E in *. cbn [mbind option_bind].
  cbn [fmap list_fmap fst is_message] in Hmsg. destruct l as [|x l].
  - apply negb_true_iff in Hmsg. cbn [lb_send_parts mbind option_bind]. exists w2, q2. split; [done|]. split; [done|].
    rewrite Hm2, Hd2. by cbn.
  - cbn [fmap list_fmap] in Hmsg. apply andb_true_iff in Hmsg as [Hf Hmsg].
    destruct (IH w2 q2 snt Hmsg Hq2) as (w3 & q3 & -> & H3); [by rewrite Hd2|done|]. cbn [mbind option_bind]. by exists w3, q3.
Qed.

(** The answers for the parts of a message that is cut short: [p] takes
    some, perhaps one is refused, and the rest is dropped. *)
Definition cut_short (p : Z) (rs : list send_result) : Prop :=
  exists k m, rs = replicate k (SendOk (Some p)) ++ SendAborted :: replicate m (SendOk None) \/
    rs = replicate k (SendOk (Some p)) ++ replicate (S m) (SendOk None).

Lemma cut_short_cons p rs : cut_short p rs -> cut_short p (SendOk (Some p) :: rs).
Proof. intros (k & m & [-> | ->]); exists (S k), m; [by left|by right]. Qed.

Lemma lb_parts_rest l : forall w q snt c pre, is_message l.*1 = true -> lb_mid w q snt c pre -> lb_parts_fit w q l ->
  exists w' q' rs, lb_send_parts w q l = Some (w', q', rs) /\ length rs = length l /\ lb_more q' = false /\ lb_dropping q' = false /\
    (lb_quiet w' q' (fun p => if decide (p = c) then snt c ++ pre ++ l.*1 else snt p) /\ rs = replicate (length l) (SendOk (Some c)) \/
     lb_quiet w' q' snt /\ cut_short c rs /\ (op_room w c = true -> lost c (concat l.*2))).
Proof.
  induction l as [|[f es] l IH]; intros w q snt c pre Hmsg Hq Hfit; [done|]. cbn [lb_send_parts lb_parts_fit] in *.
  pose proof Hq as [Hi Hm Hd [Hlt Hc] Hpre Hpn Hs].
  destruct (lb_sendpipe_ok w q f Hi Hd) as (w1 & q1 & r & E & Hi1 & Hr). rewrite E in *. cbn [mbind option_bind]. destruct Hfit as [He Hfit].
  pose proof (lb_sendpipe_items _ _ _ _ _ _ E) as Hitems. cbn [fmap list_fmap fst snd is_message concat length] in *.
  destruct r as [[p|]| |]; cbn [lb_send_ok] in Hr; [|done|rewrite Hm in Hr; destruct Hr as (_ & Hz & _); lia|].
  - destruct Hr as (_ & Hroom & Hcur & Hm1 & Hd1 & Hoth & Hres). specialize (Hcur Hm). rewrite Hc in Hcur. injection Hcur as <-.
    destruct l as [|x l].
    + apply negb_true_iff in Hmsg. rewrite Hmsg in *. destruct Hres as [Hp1 Hs1].
      destruct (lb_happens_quiet es w1 q1 (fun p => if decide (p = c) then snt c ++ pre ++ [f] else snt p)) as (w2 & q2 & E2 & Hq2 & [Hm2 Hd2]); [|done|congruence|].
      { constructor; [done| |]; intros p.
        - intros Hp. destruct (decide (p = c)) as [->|Hne]; [done|]. rewrite (proj1 (Hoth p Hne)). apply Hpn; [by apply Hitems|done].
        - destruct (decide (p = c)) as [->|Hne]; [by rewrite Hs1, Hs, Hpre|]. by rewrite (proj2 (Hoth p Hne)). }
      rewrite E2. cbn [lb_send_parts mbind option_bind]. exists w2, q2, [SendOk (Some c)]. split_and!; try done; [congruence..|]. by left.
    + apply andb_true_iff in Hmsg as [Hf Hmsg]. rewrite Hf in *. destruct Hres as (Hp1 & Hs1 & Hz1 & Hc1).
      assert (lb_mid w1 q1 snt c (pre ++ [f])) as Hq1.
      { constructor; try done; [split; [|done]; destruct Hi1; lia|by rewrite Hp1, Hpre| |].
        - intros p Hp Hne. rewrite (proj1 (Hoth p Hne)). apply Hpn; [by apply Hitems|done].
        - intros p. destruct (decide (p = c)) as [->|Hne]; [by rewrite Hs1|]. by rewrite (proj2 (Hoth p Hne)). }
      destruct (lb_happens_mid es w1 q1 snt c (pre ++ [f]) Hq1 He) as (w2 & q2 & E2 & Hcase). rewrite E2 in *. cbn [mbind option_bind].
      destruct Hcase as [[Hq2 Hr2]|(Hq2 & Hm2 & Hd2 & Hl2)].
      * destruct (IH w2 q2 snt c (pre ++ [f]) Hmsg Hq2 Hfit) as (w3 & q3 & rs & -> & Hlen & Hm3 & Hd3 & Hcase). cbn [mbind option_bind].
        exists w3, q3, (SendOk (Some c) :: rs). split; [done|]. split; [by cbn; rewrite Hlen|]. split; [done|]. split; [done|].
        destruct Hcase as [[Hq3 ->]|(Hq3 & Hrs & Hl3)]; [left|right].
        -- split; [|done]. rewrite <- app_assoc in Hq3. done.
        -- split; [done|]. split; [by apply cut_short_cons|]. intros _. apply lost_app. destruct Hr2 as [Hr2|]; [by rewrite (lb_sendpipe_room _ _ _ _ _ _ E Hf)|right; by apply Hl3|by left].
      * destruct (lb_parts_dropped (x :: l) w2 q2 snt Hmsg Hq2 Hd2 Hfit) as (w3 & q3 & -> & Hq3 & Hm3 & Hd3). cbn [mbind option_bind].
        exists w3, q3, (SendOk (Some c) :: replicate (length (x :: l)) (SendOk None)). split; [done|]. split; [cbn; by rewrite length_replicate|].
        split; [done|]. split; [done|]. right. split; [done|]. split; [exists 1%nat, (length l); by right|]. intros _. apply lost_app. by left.
  - destruct Hr as (p & _ & Hc' & Hroom & Hp1 & Hoth & Hs1 & Hm1 & Hd1). rewrite Hc in Hc'. injection Hc' as <-.
    assert (lb_quiet w1 q1 snt) as Hq1.
    { constructor; [done| |intros p; by rewrite Hs1]. intros p Hp. destruct (decide (p = c)) as [->|Hne]; [done|]. rewrite Hoth by done. apply Hpn; [by apply Hitems|done]. }
    destruct (lb_happens_quiet es w1 q1 snt Hq1 He) as (w2 & q2 & E2 & Hq2 & [Hm2 Hd2]); [congruence|]. rewrite E2 in *. cbn [mbind option_bind].
    destruct l as [|x l].
    + apply negb_true_iff in Hmsg. rewrite Hmsg in Hd1. cbn [lb_send_parts mbind option_bind]. exists w2, q2, [SendAborted]. split_and!; try done; [congruence..|].
      right. split; [done|]. split; [exists 0%nat, 0%nat; by left|congruence].
    + apply andb_true_iff in Hmsg as [Hf Hmsg]. rewrite Hf in Hd1.
      destruct (lb_parts_dropped (x :: l) w2 q2 snt Hmsg Hq2 ltac:(congruence) Hfit) as (w3 & q3 & -> & Hq3 & Hm3 & Hd3). cbn [mbind option_bind].
      exists w3, q3, (SendAborted :: replicate (length (x :: l)) (SendOk None)). split; [done|]. split; [cbn; by rewrite length_replicate|].
      split; [done|]. split; [done|]. right. split; [done|]. split; [exists 0%nat, (length (x :: l)); by left|congruence].
Qed.

Lemma lb_has_out_loop_spec fuel : forall w q, lb_inv q -> (lb_active q <= fuel)%nat ->
  exists w' q' b, lb_has_out_loop fuel w q = Some (w', q', b) /\ lb_inv q' /\
    (b = true <-> exists p, lb_is_active q p /\ op_room w p = true) /\
    (forall p, lb_is_active q p -> op_room w p = true -> lb_is_active q' p) /\
    (forall p, op_pending w' p = op_pending w p /\ op_sent w' p = op_sent w p).
Proof.
  assert (forall w q, lb_active q = 0%nat -> lb_inv q -> exists w' q' b,
    Some (w, q, false) = Some (w', q', b) /\ lb_inv q' /\
    (b = true <-> exists p, lb_is_active q p /\ op_room w p = true) /\
    (forall p, lb_is_active q p -> op_room w p = true -> lb_is_active q' p) /\
    (forall p, op_pending w' p = op_pending w p /\ op_sent w' p = op_sent w p)) as Hdone.
  { intros w q Hz Hq. exists w, q, false. split_and!; try done. split; [done|].
    intros (p & (k & Hk & _) & _). lia. }
  induction fuel as [|fuel IH]; intros w q Hq Hf; simpl.
  { replace (lb_active q) with 0%nat by lia. simpl. apply Hdone; [lia|done]. }
  destruct (lb_active q =? 0)%nat eqn:E0; [apply Nat.eqb_eq in E0; by apply Hdone|apply Nat.eqb_neq in E0].
  destruct (lb_current_active q Hq E0) as (p & Hp & Hpa). unfold array_get. rewrite Hp. cbn [mbind option_bind].
  destruct (op_check_write_ok w p) as (w1 & -> & Hw1). cbn [mbind option_bind].
  destruct (op_room w p) eqn:Er.
  - exists w1, q, true. split_and!; try done; [|intros p'; destruct (Hw1 p') as (?&?&_); done].
    split; [|done]. intros _. eauto.
  - destruct (lb_deactivate_spec q (lb_current q) p Hq) as (q1 & -> & Hq1 & Hact1 & _ & _ & Hin1 & _);
      [destruct Hq; lia|done|].
    cbn [mbind option_bind]. destruct (IH w1 q1) as (w2 & q2 & b & -> & Hq2 & Hb & Hkeep & Hsame); [done|lia|].
    assert (forall p', op_room w1 p' = op_room w p') as Hroom by (intros p'; apply Hw1).
    exists w2, q2, b. split_and!; try done.
    + rewrite Hb. setoid_rewrite Hroom. setoid_rewrite Hin1. split.
      * intros (p' & [? _] & ?). eauto.
      * intros (p' & ? & ?). exists p'. split_and!; try done. congruence.
    + intros p' Hx Hr. apply Hkeep; [|by rewrite Hroom]. apply Hin1. split; [done|]. congruence.
    + intros p'. destruct (Hsame p') as [-> ->]. destruct (Hw1 p') as (?&?&_). done.
Qed.

End lb.

(** one call of [sendpipe], on any state the invariant allows and not
    dropping, keeps the invariant; a frame is written to an active pipe
    with room (the one the message was started on, in the middle of a
    message) and flushed when it is the last part; EAGAIN is returned
    only when no active pipe has room, and then nothing was written;
    a pipe that takes no further part of a message it was sent is rolled
    back, and the rest of the message will be dropped. *)
Theorem lb_sendpipe_spec {W} `{OutPipesLaws W} (w : W) (q : lb) (f : frame) :
  lb_inv q -> lb_dropping q = false ->
  exists w' q' r, lb_sendpipe w q f = Some (w', q', r) /\ lb_inv q' /\ lb_send_ok w q f w' q' r.
Proof. apply lb_sendpipe_ok. Qed.

(** C17: a message goes out whole or not at all.  Its parts are sent one
    after the other, with no message under way and a pipe with room; after
    each part the pipes may get or lose room, and be activated, attached or
    terminated ([lb_event_fits] leaves out one case, in which a message is
    split: the termination of another active pipe when the current one is
    the last of the active).  All parts are delivered, in order, to one
    pipe, which has taken each; or nothing is delivered to any pipe, because
    the pipe was terminated or lost its room: it took some parts, perhaps
    one was refused, and the rest was dropped.  No part is left behind on a
    pipe, and the load balancer is ready for the next message.  A part that
    is refused is not sent again ([lb_retry_sends_tail] shows why). *)
Theorem lb_message_atomic {W} `{OutPipesLaws W} (w : W) (q : lb) (msg : list (frame * list lb_event)) :
  lb_inv q -> lb_dropping q = false -> lb_more q = false -> is_message msg.*1 = true ->
  (forall p, p ∈ a_items (lb_pipes q) -> op_pending w p = []) ->
  (exists p, lb_is_active q p /\ op_room w p = true) ->
  lb_parts_fit w q msg ->
  exists w' q' rs p, lb_send_parts w q msg = Some (w', q', rs) /\ lb_inv q' /\
    lb_more q' = false /\ lb_dropping q' = false /\
    (forall p', p' ∈ a_items (lb_pipes q') -> op_pending w' p' = []) /\
    (forall p', p' <> p -> op_sent w' p' = op_sent w p') /\
    (op_sent w' p = op_sent w p ++ msg.*1 /\ rs = replicate (length msg) (SendOk (Some p)) \/
     op_sent w' p = op_sent w p /\ lost p (concat msg.*2) /\ length rs = length msg /\
       exists rs', rs = SendOk (Some p) :: rs' /\ cut_short p rs').
Proof.
  intros Hq Hd Hm Hmsg Hpend (p0 & Hp0 & Hr0) Hfit. destruct msg as [|[f es] l]; [done|]. cbn [lb_send_parts lb_parts_fit] in *.
  destruct (lb_sendpipe_ok w q f Hq Hd) as (w1 & q1 & r & E & Hq1 & Hr). rewrite E in *. cbn [mbind option_bind]. destruct Hfit as [He Hfit].
  pose proof (lb_sendpipe_items _ _ _ _ _ _ E) as Hitems. cbn [fmap list_fmap fst snd is_message concat length] in *.
  destruct r as [[p|]| |]; cbn [lb_send_ok] in Hr; [|done| |destruct Hr as (?&?&_); congruence].
  2:{ rewrite Hm in Hr. destruct Hr as (_ & Hr & _). rewrite (Hr p0 Hp0) in Hr0. done. }
  destruct Hr as (Hact & Hroom & _ & Hm1 & Hd1 & Hoth & Hres). pose proof (Hpend p (in_part_mem _ _ _ Hact)) as Hpp.
  destruct l as [|x l].
  - apply negb_true_iff in Hmsg. rewrite Hmsg in *. destruct Hres as [Hpn Hs]. rewrite Hpp in Hs.
    destruct (lb_happens_quiet es w1 q1 (op_sent w1)) as (w2 & q2 & E2 & [Hi2 Hp2 Hs2] & [Hm2 Hd2]); [|done|congruence|].
    { constructor; [done| |done]. intros x Hx. destruct (decide (x = p)) as [->|Hne]; [done|]. rewrite (proj1 (Hoth x Hne)). by apply Hpend, Hitems. }
    rewrite E2. cbn [lb_send_parts mbind option_bind]. exists w2, q2, [SendOk (Some p)], p. split_and!; try done; [congruence..| |].
    + intros x Hne. rewrite Hs2. by apply Hoth.
    + left. by rewrite Hs2.
  - apply andb_true_iff in Hmsg as [Hf Hmsg]. rewrite Hf in *. destruct Hres as (Hpn & Hs & Hz & Hc).
    assert (lb_mid w1 q1 (op_sent w) p [f]) as Hmid.
    { constructor; try done; [split; [|done]; destruct Hq1; lia|by rewrite Hpn, Hpp| |].
      - intros y Hy Hne. rewrite (proj1 (Hoth y Hne)). by apply Hpend, Hitems.
      - intros y. destruct (decide (y = p)) as [->|Hne]; [done|]. by apply Hoth. }
    destruct (lb_happens_mid es w1 q1 _ p [f] Hmid He) as (w2 & q2 & E2 & Hcase). rewrite E2 in *. cbn [mbind option_bind].
    destruct Hcase as [[Hq2 Hr2]|(Hq2 & Hm2 & Hd2 & Hl2)].
    + destruct (lb_parts_rest (x :: l) w2 q2 _ p [f] Hmsg Hq2 Hfit) as (w3 & q3 & rs & -> & Hlen & Hm3 & Hd3 & Hcase). cbn [mbind option_bind].
      exists w3, q3, (SendOk (Some p) :: rs), p. destruct Hcase as [[[Hi3 Hp3 Hs3] ->]|([Hi3 Hp3 Hs3] & Hrs & Hl3)]; (do 4 (split; [done|])); (split; [done|]); split.
      * intros y Hne. by rewrite Hs3, decide_False.
      * left. by rewrite Hs3, decide_True.
      * intros y Hne. by rewrite Hs3.
      * right. rewrite Hs3. split; [done|]. split; [|split; [by cbn; rewrite Hlen|by exists rs]]. apply lost_app.
        destruct Hr2 as [Hr2|]; [by rewrite (lb_sendpipe_room _ _ _ _ _ _ E Hf)|right; by apply Hl3|by left].
    + destruct (lb_parts_dropped (x :: l) w2 q2 _ Hmsg Hq2 Hd2 Hfit) as (w3 & q3 & -> & [Hi3 Hp3 Hs3] & Hm3 & Hd3). cbn [mbind option_bind].
      eexists w3, q3, _, p. do 4 (split; [done|]). split; [done|]. split; [intros y Hne; by rewrite Hs3|]. right. rewrite Hs3. split; [done|].
      split; [apply lost_app; by left|]. split; [cbn; by rewrite length_replicate|]. eexists. split; [done|]. exists 0%nat, (length l). by right.
Qed.

(** [has_out] answers true exactly when a message is being sent or an
    active pipe has room, and never deactivates a pipe with room. *)
Theorem lb_has_out_spec {W} `{OutPipesLaws W} (w : W) (q : lb) :
  lb_inv q ->
  exists w' q' b, lb_has_out w q = Some (w', q', b) /\ lb_inv q' /\
    (b = true <-> lb_more q = true \/ exists p, lb_is_active q p /\ op_room w p = true) /\
    (forall p, lb_is_active q p -> op_room w p = true -> lb_is_active q' p) /\
    (forall p, op_pending w' p = op_pending w p /\ op_sent w' p = op_sent w p).
Proof.
  intros Hq. unfold lb_has_out. destruct (lb_more q) eqn:Em.
  { exists w, q, true. split_and!; try done. split; [by left|done]. }
  destruct (lb_has_out_loop_spec (lb_active q) w q Hq) as (w' & q' & b & -> & ? & Hb & ? & ?); [done|].
  exists w', q', b. split_and!; try done. rewrite Hb. split; [by right|]. by intros [?|?].
Qed.

(** ** A termination in the middle of a message *)

Definition lb_part (b : Z) : frame := Frame type_vsm flag_more [b].
Definition lb_single (b : Z) : frame := Frame type_vsm 0 [b].

Definition lb_example_pipes : credits :=
  list_to_map [(1, (5%nat, [], [])); (2, (5%nat, [], [])); (3, (5%nat, [], []))].

(** Two messages to pipes 1 and 2, then the first part of one to pipe 3. *)
Definition lb_example : option (credits * lb * list send_result) :=
  let* q := lb_attach lb_new 1 in
  let* q := lb_attach q 2 in
  let* q := lb_attach q 3 in
  lb_send_all lb_example_pipes q [lb_single 10; lb_single 20; lb_part 30].

(** the pointer to the current pipe is lost when another pipe
    terminates and the current one is the last active pipe: after the
    first part of a message went to pipe 3, the termination of pipe 2
    sends the second part to pipe 1, where it is delivered as a message
    of its own, and the first part stays pending on pipe 3. *)
Theorem lb_terminated_splits_message :
  exists w q rs q' w' q'', lb_example = Some (w, q, rs) /\ list.last rs = Some (SendOk (Some 3)) /\
    lb_pipe_terminated q 2 = Some q' /\
    lb_sendpipe w q' (lb_single 31) = Some (w', q'', SendOk (Some 1)) /\
    op_sent w' 1 = [lb_single 10; lb_single 31] /\ op_pending w' 3 = [lb_part 30].
Proof.
  destruct lb_example as [[[w q] rs]|] eqn:E; [|vm_compute in E; discriminate].
  vm_compute in E. injection E as <- <- <-. eexists _, _, _, _, _, _. split; [reflexivity|].
  split; [reflexivity|]. split; [vm_compute; reflexivity|]. split; [vm_compute; reflexivity|].
  split; vm_compute; reflexivity.
Qed.

(** After the abort at the last part nothing is left to drop.  When there
    is room again, a caller that does not block and sends the part again, as
    it would after any EAGAIN, sends it as a message of its own. *)
Theorem lb_retry_sends_tail :
  exists q0 w q w1 q1 w2 q2,
    (let* q := lb_attach lb_new 1 in lb_attach q 2) = Some q0 /\
    lb_sendpipe lb_example_pipes q0 (lb_part 10) = Some (w, q, SendOk (Some 1)) /\
    lb_sendpipe (<[1 := (0%nat, [lb_part 10], [])]> w) q (lb_single 11) = Some (w1, q1, SendAborted) /\
    lb_sendpipe (<[1 := (5%nat, [], [])]> w1) q1 (lb_single 11) = Some (w2, q2, SendOk (Some 1)) /\
    op_sent w2 1 = [lb_single 11].
Proof. do 7 eexists. split; [vm_compute; reflexivity|]. split; [vm_compute; reflexivity|]. split; [vm_compute; reflexivity|]. split; [vm_compute; reflexivity|]. vm_compute. reflexivity. Qed.

(** ** Concrete runs *)

Definition lb_three : lb :=
  Eval vm_compute in
    match (let* q := lb_attach lb_new 1 in let* q := lb_attach q 2 in lb_attach q 3) with
    | Some q => q | None => lb_new end.

Lemma lb_three_inv : lb_inv lb_three.
Proof.
  constructor; [|vm_compute; lia|vm_compute; lia]. constructor; simpl.
  - repeat constructor; set_solver.
  - intros [|[|[|]]] x; simpl; intros [= <-]; reflexivity.
Qed.

Lemma lb_sendpipe_spec_witness :
  exists w' q' r, lb_sendpipe lb_example_pipes lb_three (lb_single 7) = Some (w', q', r) /\
    lb_send_ok lb_example_pipes lb_three (lb_single 7) w' q' r.
Proof.
  destruct (lb_sendpipe_spec lb_example_pipes lb_three (lb_single 7) lb_three_inv eq_refl) as (w' & q' & r & ? & _ & ?).
  by exists w', q', r.
Defined.

(** Pipe 1 loses its room after it took the first part, and pipe 2
    terminates; the message is taken back. *)
Definition lb_cut_message : list (frame * list lb_event) :=
  [(lb_part 1, [le_pipes (<[1 := (0%nat, [lb_part 1], [])]> lb_example_pipes); le_terminated 2]); (lb_part 2, []); (lb_single 3, [])].

Lemma lb_cut_message_fits : lb_parts_fit lb_example_pipes lb_three lb_cut_message.
Proof.
  unfold lb_cut_message. cbn [lb_parts_fit].
  assert (lb_sendpipe lb_example_pipes lb_three (lb_part 1) =
    Some (<[1 := (5%nat, [lb_part 1], [])]> lb_example_pipes, Lb (lb_pipes lb_three) 3 0 true false, SendOk (Some 1))) as -> by reflexivity.
  split; [|vm_compute; by repeat split]. cbn [lb_events_fit lb_event_fits lb_happen]. split.
  - intros p. simpl. unfold credit_of. rewrite !lookup_insert. by case_decide.
  - split; [|vm_compute; done]. split; [vm_compute; set_solver|]. intros _ _. right. right. vm_compute. lia.
Qed.

Lemma lb_message_atomic_witness :
  exists w' q', lb_send_parts lb_example_pipes lb_three lb_cut_message = Some (w', q', [SendOk (Some 1); SendAborted; SendOk None]) /\
    op_sent w' 1 = [] /\ op_pending w' 1 = [] /\ lb_more q' = false.
Proof.
  destruct (lb_message_atomic lb_example_pipes lb_three lb_cut_message lb_three_inv
    eq_refl eq_refl eq_refl) as (w' & q' & rs & p & Hrun & _ & Hm & _ & Hp & _).
  - intros p. simpl. unfold credit_of, lb_example_pipes. cbn [list_to_map foldr].
    rewrite !lookup_insert. repeat case_decide; reflexivity.
  - exists 1. split; [|vm_compute; reflexivity]. exists 0%nat. split; [vm_compute; lia|vm_compute; reflexivity].
  - apply lb_cut_message_fits.
  - exists w', q'. vm_compute in Hrun. injection Hrun as <- <- <-. split_and!; reflexivity.
Defined.

Lemma lb_has_out_spec_witness : exists w' q', lb_has_out lb_example_pipes lb_three = Some (w', q', true).
Proof.
  destruct (lb_has_out_spec lb_example_pipes lb_three lb_three_inv) as (w' & q' & b & Hrun & _ & Hb & _).
  exists w', q'. rewrite Hrun. do 2 f_equal. apply Hb. right. exists 1. split; [|vm_compute; reflexivity].
  exists 0%nat. split; [vm_compute; lia|vm_compute; reflexivity].
Defined.
