(* ===== verification/Dist.v ===== *)
(** * Distribution of messages to many pipes, [dist_t] (src/src/dist.cpp)

    The array of pipes has three nested leading parts: the pipes the
    current message matches, the active ones, and the eligible ones,
    which become active at the end of the message.  A pipe without room
    leaves all three.  References to the body of a message that is not
    stored in the message itself are counted: [distribute] returns how
    many are left for the pipes. *)

From S2P Require Import Prelude Array Frame.

Record dist := Dist {
  di_pipes : array;
  di_matching : nat;
  di_active : nat;
  di_eligible : nat;
  di_more : bool;
}.

Definition dist_new : dist := Dist array_new 0 0 0 false.

Definition dist_destroy (d : dist) : option unit :=
  zmq_assert (array_empty (di_pipes d)) ;; Some tt.

Definition dist_attach (d : dist) (pipe : Z) : option dist :=
  let pipes := array_push_back (di_pipes d) pipe in
  if di_more d then
    let* pipes := array_swap pipes (di_eligible d) (array_size pipes - 1) in
    Some (Dist pipes (di_matching d) (di_active d) (S (di_eligible d)) (di_more d))
  else
    let* pipes := array_swap pipes (di_active d) (array_size pipes - 1) in
    Some (Dist pipes (di_matching d) (S (di_active d)) (S (di_eligible d)) (di_more d)).

Definition dist_match (d : dist) (pipe : Z) : option dist :=
  let* index := array_index (di_pipes d) pipe in
  if (index <? di_matching d)%nat then Some d
  else if (di_eligible d <=? index)%nat then Some d
  else
    let* pipes := array_swap (di_pipes d) index (di_matching d) in
    Some (Dist pipes (S (di_matching d)) (di_active d) (di_eligible d) (di_more d)).

Definition dist_unmatch (d : dist) : dist :=
  Dist (di_pipes d) 0 (di_active d) (di_eligible d) (di_more d).

(** [for (i = prev_matching; i < _eligible; ++i) _pipes.swap (i, _matching++);] *)
Fixpoint dist_reverse_loop (fuel : nat) (d : dist) (i : nat) : option dist :=
  if (di_eligible d <=? i)%nat then Some d
  else
    match fuel with
    | O => None
    | S fuel' =>
        let* pipes := array_swap (di_pipes d) i (di_matching d) in
        dist_reverse_loop fuel'
          (Dist pipes (S (di_matching d)) (di_active d) (di_eligible d) (di_more d)) (S i)
    end.

Definition dist_reverse_match (d : dist) : option dist :=
  dist_reverse_loop (di_eligible d) (dist_unmatch d) (di_matching d).

(** One of the three steps of [pipe_terminated]: the new array and the new
    size of a part. *)
Definition dist_leave (pipes : array) (pipe : Z) (n : nat) : option (array * nat) :=
  let* index := array_index pipes pipe in
  if (index <? n)%nat then
    let* pipes := array_swap pipes index (n - 1) in Some (pipes, (n - 1)%nat)
  else Some (pipes, n).

Definition dist_pipe_terminated (d : dist) (pipe : Z) : option dist :=
  let* (pipes, matching) := dist_leave (di_pipes d) pipe (di_matching d) in
  let* (pipes, active) := dist_leave pipes pipe (di_active d) in
  let* (pipes, eligible) := dist_leave pipes pipe (di_eligible d) in
  let* pipes := array_erase pipes pipe in
  Some (Dist pipes matching active eligible (di_more d)).

Definition dist_activated (d : dist) (pipe : Z) : option dist :=
  let* d :=
    if (di_eligible d <? array_size (di_pipes d))%nat then
      let* index := array_index (di_pipes d) pipe in
      let* pipes := array_swap (di_pipes d) index (di_eligible d) in
      Some (Dist pipes (di_matching d) (di_active d) (S (di_eligible d)) (di_more d))
    else Some d in
  if negb (di_more d) && (di_active d <? array_size (di_pipes d))%nat then
    let* pipes := array_swap (di_pipes d) (di_eligible d - 1) (di_active d) in
    Some (Dist pipes (di_matching d) (S (di_active d)) (di_eligible d) (di_more d))
  else Some d.

Section dist.
Context {W : Type} `{OutPipesLaws W}.

Definition dist_write (w : W) (d : dist) (pipe : Z) (msg : frame) : option (W * dist * bool) :=
  let* (w, b) := op_write w pipe msg in
  if negb b then
    let* i := array_index (di_pipes d) pipe in
    let* pipes := array_swap (di_pipes d) i (di_matching d - 1) in
    let* i := array_index pipes pipe in
    let* pipes := array_swap pipes i (di_active d - 1) in
    let active := (di_active d - 1)%nat in
    let* pipes := array_swap pipes active (di_eligible d - 1) in
    Some (w, Dist pipes (di_matching d - 1) active (di_eligible d - 1) (di_more d), false)
  else if negb (fr_more msg) then let* w := op_flush w pipe in Some (w, d, true)
  else Some (w, d, true).

(** [for (i = 0; i < _matching;)]; the last component counts the pipes
    that did not take the message. *)
Fixpoint dist_write_loop (fuel : nat) (w : W) (d : dist) (i : nat) (msg : frame) (failed : Z)
  : option (W * dist * Z) :=
  if (di_matching d <=? i)%nat then Some (w, d, failed)
  else
    match fuel with
    | O => None
    | S fuel' =>
        let* pipe := array_get (di_pipes d) i in
        let* (w, d, b) := dist_write w d pipe msg in
        if (b : bool) then dist_write_loop fuel' w d (S i) msg failed
        else dist_write_loop fuel' w d i msg (failed + 1)
    end.

(** The references to the body the pipes are left with. *)
Definition dist_distribute (w : W) (d : dist) (msg : frame) : option (W * dist * Z) :=
  if (di_matching d =? 0)%nat then Some (w, d, 0)
  else if fr_is_vsm msg then
    let* (w, d, _) := dist_write_loop (di_matching d) w d 0 msg 0 in Some (w, d, 0)
  else
    let refs := 1 + (Z.of_nat (di_matching d) - 1) in
    let* (w, d, failed) := dist_write_loop (di_matching d) w d 0 msg 0 in
    Some (w, d, if negb (failed =? 0) then refs - failed else refs).

Definition dist_send_to_matching (w : W) (d : dist) (msg : frame) : option (W * dist * Z) :=
  let msg_more := fr_more msg in
  let* (w, d, refs) := dist_distribute w d msg in
  let active := if negb msg_more then di_eligible d else di_active d in
  Some (w, Dist (di_pipes d) (di_matching d) active (di_eligible d) msg_more, refs).

Definition dist_send_to_all (w : W) (d : dist) (msg : frame) : option (W * dist * Z) :=
  dist_send_to_matching w
    (Dist (di_pipes d) (di_active d) (di_active d) (di_eligible d) (di_more d)) msg.

Definition dist_has_out (d : dist) : bool := true.

(** [check_hwm] of the matching pipes, by the answers of the pipes. *)
Definition dist_check_hwm (d : dist) (pipe_check_hwm : Z -> bool) : bool :=
  forallb pipe_check_hwm (take (di_matching d) (a_items (di_pipes d))).

(** ** Invariant *)

Record dist_inv (d : dist) : Prop := {
  dv_array : array_wf (di_pipes d);
  dv_order : (di_matching d <= di_active d /\ di_active d <= di_eligible d /\
              di_eligible d <= array_size (di_pipes d))%nat;
  dv_idle : di_more d = false -> di_active d = di_eligible d;
}.

Definition di_is_matching (d : dist) (p : Z) : Prop := in_part (di_pipes d) (di_matching d) p.
Definition di_is_active (d : dist) (p : Z) : Prop := in_part (di_pipes d) (di_active d) p.
Definition di_is_eligible (d : dist) (p : Z) : Prop := in_part (di_pipes d) (di_eligible d) p.

Lemma dist_new_inv : dist_inv dist_new.
Proof. constructor; [apply array_new_wf|simpl; lia|done]. Qed.

Lemma in_part_index a i p : array_wf a -> a_items a !! i = Some p -> forall n, in_part a n p <-> (i < n)%nat.
Proof.
  intros Ha Hi n. split; [|intros; by exists i]. intros (k & Hk & Hkp).
  by rewrite (NoDup_lookup _ _ _ _ (aw_nodup _ Ha) Hi Hkp).
Qed.

Lemma dist_match_spec d p : dist_inv d -> di_more d = false -> p ∈ a_items (di_pipes d) ->
  exists d', dist_match d p = Some d' /\ dist_inv d' /\ di_more d' = false /\
    (forall x, di_is_matching d' x <-> di_is_matching d x \/ x = p /\ di_is_eligible d p) /\
    (forall x, di_is_eligible d' x <-> di_is_eligible d x) /\
    (forall x, x ∈ a_items (di_pipes d') <-> x ∈ a_items (di_pipes d)).
Proof.
  intros [Ha Ho Hidle] Hm Hp. pose proof (Hidle Hm) as Hae. unfold dist_match.
  destruct (array_index_mem _ _ Ha Hp) as (i & -> & Hi). cbn [mbind option_bind].
  pose proof (in_part_index _ _ _ Ha Hi) as Hin.
  destruct (i <? di_matching d)%nat eqn:E1; [apply Nat.ltb_lt in E1|apply Nat.ltb_ge in E1].
  { exists d. split_and!; try done. intros x. split; [by left|]. intros [?|[-> _]]; [done|]. by apply Hin. }
  destruct (di_eligible d <=? i)%nat eqn:E2; [apply Nat.leb_le in E2|apply Nat.leb_gt in E2].
  { exists d. split_and!; try done. intros x. split; [by left|]. intros [?|[-> He]]; [done|].
    apply Hin in He. lia. }
  destruct (array_grow_spec (di_pipes d) (di_matching d) i p Ha E1 Hi) as (a' & -> & Hwf & Hsz & Hmem & _ & Hk & Hpart).
  cbn [mbind option_bind]. eexists. split; [done|]. split_and!; try done.
  - constructor; simpl; [done|lia|done].
  - intros x. unfold di_is_matching. simpl. rewrite Hpart. unfold di_is_eligible. rewrite Hin. naive_solver.
  - intros x. unfold di_is_eligible. simpl. apply Hk. lia.
Qed.

(** [unmatch] and then the swap loop: the matching pipes become the
    eligible ones that did not match. *)
Lemma dist_reverse_loop_spec fuel prev (a0 : array) : forall d i,
  array_wf (di_pipes d) -> (di_eligible d <= array_size (di_pipes d))%nat ->
  (prev <= i <= di_eligible d)%nat -> di_matching d = (i - prev)%nat -> (di_eligible d - i <= fuel)%nat ->
  (forall x, in_part (di_pipes d) (di_matching d) x <-> exists k, (prev <= k < i)%nat /\ a_items a0 !! k = Some x) ->
  (forall k, (i <= k)%nat -> a_items (di_pipes d) !! k = a_items a0 !! k) ->
  (forall x, in_part (di_pipes d) (di_eligible d) x <-> in_part a0 (di_eligible d) x) ->
  exists d', dist_reverse_loop fuel d i = Some d' /\ array_wf (di_pipes d') /\
    array_size (di_pipes d') = array_size (di_pipes d) /\
    di_matching d' = (di_eligible d - prev)%nat /\ di_active d' = di_active d /\
    di_eligible d' = di_eligible d /\ di_more d' = di_more d /\
    (forall x, di_is_matching d' x <-> exists k, (prev <= k < di_eligible d)%nat /\ a_items a0 !! k = Some x) /\
    (forall x, di_is_eligible d' x <-> in_part a0 (di_eligible d) x).
Proof.
  induction fuel as [|fuel IH]; intros d i Ha Hsz Hi Hm Hf Hpart Htail Hel; simpl.
  - replace (di_eligible d <=? i)%nat with true by (symmetry; apply Nat.leb_le; lia).
    assert (i = di_eligible d) as -> by lia. by exists d.
  - destruct (di_eligible d <=? i)%nat eqn:E; [apply Nat.leb_le in E|apply Nat.leb_gt in E].
    + assert (i = di_eligible d) as -> by lia. by exists d.
    + destruct (lookup_lt_is_Some_2 (a_items (di_pipes d)) i) as [x Hx]; [unfold array_size in *; lia|].
      destruct (array_grow_spec (di_pipes d) (di_matching d) i x Ha ltac:(lia) Hx)
        as (a' & Hsw & Hwf & Hsz' & _ & _ & Hsame & Hgrow).
      rewrite Hsw. cbn [mbind option_bind].
      destruct (array_swap_spec (di_pipes d) i (di_matching d) Ha) as (a2 & Hsw2 & _ & _ & Hget & _);
        [unfold array_size in *; lia|unfold array_size in *; lia|].
      rewrite Hsw in Hsw2. injection Hsw2 as <-.
      destruct (IH (Dist a' (S (di_matching d)) (di_active d) (di_eligible d) (di_more d)) (S i))
        as (d' & Hrun & ? & Hs & ? & ? & ? & ? & ? & ?); simpl; try done; try lia.
      * intros y. rewrite Hgrow, Hpart. rewrite Htail in Hx by lia. split.
        -- intros [(k & Hk & Hy)| ->]; [exists k; split; [lia|done]|exists i; split; [lia|done]].
        -- intros (k & Hk & Hy). destruct (decide (k = i)) as [->|]; [right; congruence|].
           left. exists k. split; [lia|done].
      * intros k Hk. rewrite Hget, <- Htail by lia. unfold swap_pos. by rewrite !decide_False by lia.
      * intros y. rewrite Hsame by lia. apply Hel.
      * exists d'. split_and!; try done. simpl in Hs. lia.
Qed.

Lemma dist_reverse_loop_mem fuel : forall d i d', dist_reverse_loop fuel d i = Some d' ->
  forall x, x ∈ a_items (di_pipes d') <-> x ∈ a_items (di_pipes d).
Proof.
  induction fuel as [|fuel IH]; intros d i d'; simpl; (destruct (_ <=? _)%nat; [by intros [= <-]|]); [done|].
  destruct (array_swap _ _ _) as [a|] eqn:E; [|done]. cbn [mbind option_bind]. intros Hrun x.
  rewrite (IH _ _ _ Hrun x). cbn [di_pipes]. by rewrite (array_swap_mem _ _ _ _ E).
Qed.

Lemma dist_reverse_match_ok d : dist_inv d -> di_more d = false ->
  exists d', dist_reverse_match d = Some d' /\ dist_inv d' /\ di_more d' = false /\
    (forall x, di_is_matching d' x <-> di_is_eligible d x /\ ~ di_is_matching d x) /\
    (forall x, di_is_eligible d' x <-> di_is_eligible d x).
Proof.
  intros [Ha Ho Hidle] Hm. pose proof (Hidle Hm) as Hae. unfold dist_reverse_match.
  destruct (dist_reverse_loop_spec (di_eligible d) (di_matching d) (di_pipes d) (dist_unmatch d) (di_matching d))
    as (d' & -> & Hwf & Hsz & E1 & E2 & E3 & E4 & Hmt & Hel); simpl; try done; try lia.
  { intros x. split; [|intros (k & Hk & _); lia]. intros (k & Hk & _). lia. }
  simpl in *. exists d'. split_and!; try done; try congruence.
  - constructor; [done|lia|]. intros _. lia.
  - intros x. rewrite Hmt. split.
    + intros (k & Hk & Hx). split; [exists k; split; [lia|done]|]. intros (k' & Hk' & Hx').
      pose proof (NoDup_lookup _ _ _ _ (aw_nodup _ Ha) Hx Hx'). lia.
    + intros [(k & Hk & Hx) Hn]. exists k. split; [|done]. split; [|lia].
      destruct (decide (di_matching d <= k)%nat); [done|]. destruct Hn. exists k. split; [lia|done].
Qed.

(** ** The three parts under termination and activation *)

Lemma dist_leave_spec a p n : array_wf a -> (n <= array_size a)%nat -> p ∈ a_items a ->
  exists a' n', dist_leave a p n = Some (a', n') /\ array_wf a' /\ array_size a' = array_size a /\
    (n' <= n)%nat /\ (in_part a n p -> S n' = n) /\ (~ in_part a n p -> n' = n) /\
    (forall x, x ∈ a_items a' <-> x ∈ a_items a) /\
    (forall x, in_part a' n' x <-> in_part a n x /\ x <> p) /\
    (forall m x, (n <= m)%nat -> in_part a' m x <-> in_part a m x) /\
    (forall m, (m < n)%nat -> ~ in_part a m p -> forall x, in_part a' m x <-> in_part a m x).
Proof.
  intros Ha Hn Hp. unfold dist_leave. destruct (array_index_mem _ _ Ha Hp) as (i & -> & Hi).
  cbn [mbind option_bind]. pose proof (in_part_index _ _ _ Ha Hi) as Hin.
  destruct (i <? n)%nat eqn:E; [apply Nat.ltb_lt in E|apply Nat.ltb_ge in E].
  - destruct (array_swap_spec a i (n - 1) Ha) as (a2 & Hsw2 & _ & _ & Hget & _); [lia|lia|].
    destruct (array_shrink_spec a n i p Ha ltac:(lia) Hi) as (a' & Hsw & Hwf & Hsz & Hmem & _ & Hsame & Hpart).
    rewrite Hsw in *. injection Hsw2 as <-. cbn [mbind option_bind]. eexists _, _. split; [done|].
    split_and!; try done; try lia.
    + intros Hnp. destruct Hnp. by apply Hin.
    + intros m Hm Hnp x. apply (in_part_swap _ _ _ _ _ _ Hget). rewrite Hin in Hnp. lia.
  - eexists _, _. split; [done|]. split_and!; try done; try lia.
    + rewrite Hin. lia.
    + intros x. split; [|tauto]. intros Hx. split; [done|]. intros ->. apply Hin in Hx. lia.
Qed.

(** A pipe leaves the three parts, one after the other. *)
Definition dist_leave_all (d : dist) (p : Z) : option dist :=
  let* (pipes, matching) := dist_leave (di_pipes d) p (di_matching d) in
  let* (pipes, active) := dist_leave pipes p (di_active d) in
  let* (pipes, eligible) := dist_leave pipes p (di_eligible d) in
  Some (Dist pipes matching active eligible (di_more d)).

Lemma dist_leave_all_spec d p : dist_inv d -> p ∈ a_items (di_pipes d) ->
  exists d', dist_leave_all d p = Some d' /\ dist_inv d' /\ di_more d' = di_more d /\
    array_size (di_pipes d') = array_size (di_pipes d) /\
    (di_is_matching d p -> S (di_matching d') = di_matching d) /\
    (forall m x, (m < di_matching d)%nat -> ~ in_part (di_pipes d) m p ->
       in_part (di_pipes d') m x <-> in_part (di_pipes d) m x) /\
    (forall x, di_is_matching d' x <-> di_is_matching d x /\ x <> p) /\
    (forall x, di_is_active d' x <-> di_is_active d x /\ x <> p) /\
    (forall x, di_is_eligible d' x <-> di_is_eligible d x /\ x <> p) /\
    (forall x, x ∈ a_items (di_pipes d') <-> x ∈ a_items (di_pipes d)).
Proof.
  intros [Ha Ho Hidle] Hp. unfold dist_leave_all.
  destruct (dist_leave_spec (di_pipes d) p (di_matching d) Ha ltac:(lia) Hp)
    as (a1 & m' & -> & Ha1 & Hs1 & Hle1 & Hy1 & Hn1 & Hmem1 & Hp1 & Hup1 & Hlow1). cbn [mbind option_bind].
  destruct (dist_leave_spec a1 p (di_active d) Ha1 ltac:(lia) ltac:(by apply Hmem1))
    as (a2 & c' & -> & Ha2 & Hs2 & Hle2 & Hy2 & Hn2 & Hmem2 & Hp2 & Hup2 & Hlow2). cbn [mbind option_bind].
  destruct (dist_leave_spec a2 p (di_eligible d) Ha2 ltac:(lia) ltac:(by apply Hmem2, Hmem1))
    as (a3 & e' & -> & Ha3 & Hs3 & Hle3 & Hy3 & Hn3 & Hmem3 & Hp3 & Hup3 & Hlow3). cbn [mbind option_bind].
  assert (~ in_part a1 m' p) as Hnm by (intros [_ ?]%Hp1; done).
  assert (~ in_part a2 c' p) as Hnc by (intros [_ ?]%Hp2; done).
  destruct (array_index_mem _ _ Ha Hp) as (i & _ & Hi). pose proof (in_part_index _ _ _ Ha Hi) as Hin0.
  rewrite Hup1 in Hy2, Hn2 by lia. rewrite Hup2, Hup1 in Hy3, Hn3 by lia.
  rewrite Hin0 in Hy1, Hn1, Hy2, Hn2, Hy3, Hn3.
  assert (m' <= c' /\ c' <= e')%nat as Hord by lia.
  eexists. split; [done|]. split_and!; try done; simpl.
  - constructor; simpl; [done|lia|]. intros Hm. specialize (Hidle Hm). lia.
  - lia.
  - intros ?%Hin0. lia.
  - intros m x Hm Hnp. pose proof (Hlow1 m Hm Hnp) as H1. rewrite <- H1 in Hnp.
    assert (~ in_part a2 m p) as Hnp2 by (by rewrite Hlow2 by (done || lia)).
    rewrite Hlow3, Hlow2 by (done || lia). apply H1.
  - intros x. unfold di_is_matching. simpl. rewrite <- Hp1.
    destruct (decide (m' < di_eligible d)%nat) as [Hlt3|].
    + rewrite Hlow3; [|done|]. 2:{ destruct (decide (m' < di_active d)%nat); [by rewrite Hlow2|]. rewrite Hup2 by lia. done. }
      destruct (decide (m' < di_active d)%nat); [by apply Hlow2|]. apply Hup2. lia.
    + rewrite Hup3 by lia. apply Hup2. lia.
  - intros x. unfold di_is_active. simpl. rewrite <- (Hup1 (di_active d)), <- Hp2 by lia.
    destruct (decide (c' < di_eligible d)%nat); [by apply Hlow3|]. apply Hup3. lia.
  - intros x. unfold di_is_eligible. simpl. rewrite Hp3, Hup2, Hup1 by lia. done.
  - intros x. by rewrite Hmem3, Hmem2, Hmem1.
Qed.

Lemma dist_pipe_terminated_ok d p : dist_inv d -> p ∈ a_items (di_pipes d) ->
  exists d', dist_pipe_terminated d p = Some d' /\ dist_inv d' /\ di_more d' = di_more d /\
    (forall x, di_is_matching d' x <-> di_is_matching d x /\ x <> p) /\
    (forall x, di_is_active d' x <-> di_is_active d x /\ x <> p) /\
    (forall x, di_is_eligible d' x <-> di_is_eligible d x /\ x <> p) /\
    (forall x, x ∈ a_items (di_pipes d') <-> x ∈ a_items (di_pipes d) /\ x <> p).
Proof.
  intros Hd Hp. destruct (dist_leave_all_spec d p Hd Hp) as (d1 & Hrun & Hd1 & Hm1 & _ & _ & _ & Hmt & Hac & Hel & Hmem).
  unfold dist_pipe_terminated. unfold dist_leave_all in Hrun.
  destruct (dist_leave (di_pipes d) p (di_matching d)) as [[a1 m']|]; [|done]. cbn [mbind option_bind] in *.
  destruct (dist_leave a1 p (di_active d)) as [[a2 c']|]; [|done]. cbn [mbind option_bind] in *.
  destruct (dist_leave a2 p (di_eligible d)) as [[a3 e']|]; [|done]. cbn [mbind option_bind] in *.
  injection Hrun as <-. destruct Hd1 as [Ha3 Ho3 Hidle3]. simpl in *.
  destruct (array_erase_spec a3 p Ha3) as (a4 & j & -> & Ha4 & Hj & Hs4 & Hget & Hmem4); [by apply Hmem|].
  cbn [mbind option_bind]. eexists. split; [done|].
  assert (e' <= j)%nat as Hej.
  { destruct (decide (e' <= j)%nat); [done|]. exfalso. assert (in_part a3 e' p) as [_ ?]%Hel; [|done].
    exists j. split; [lia|done]. }
  pose proof (lookup_lt_Some _ _ _ Hj) as Hlt. fold (array_size a3) in Hlt.
  assert (forall n x, (n <= e')%nat -> in_part a4 n x <-> in_part a3 n x) as H43.
  { intros n x Hn. unfold in_part. split; intros (k & Hk & Hx); exists k; (split; [done|]);
      rewrite Hget in * by lia; by rewrite decide_False in * by lia. }
  split_and!; try done.
  - constructor; simpl; [done|lia|done].
  - intros x. rewrite <- Hmt. apply H43. simpl. lia.
  - intros x. rewrite <- Hac. apply H43. simpl. lia.
  - intros x. rewrite <- Hel. apply H43. simpl. lia.
  - intros x. simpl. by rewrite Hmem4, Hmem.
Qed.

(** ** Writing to one pipe *)

Lemma dist_write_spec w d p f : dist_inv d -> di_is_matching d p ->
  exists w' d', dist_write w d p f = Some (w', d', op_room w p) /\ dist_inv d' /\ di_more d' = di_more d /\
    (forall p', op_room w p = false \/ p' <> p -> op_room w' p' = op_room w p') /\
    (forall p', p' <> p \/ op_room w p = false -> op_pending w' p' = op_pending w p' /\ op_sent w' p' = op_sent w p') /\
    (if op_room w p then d' = d /\
       (if fr_more f then op_pending w' p = op_pending w p ++ [f] /\ op_sent w' p = op_sent w p
        else op_pending w' p = [] /\ op_sent w' p = op_sent w p ++ op_pending w p ++ [f])
     else dist_leave_all d p = Some d').
Proof.
  intros Hd Hp. unfold dist_write. destruct (op_write_ok w p f) as (w1 & -> & Hpend & Hsent & Hroom).
  cbn [mbind option_bind]. destruct (op_room w p) eqn:Er; cbn [negb].
  - destruct (fr_more f) eqn:Ef; cbn [negb].
    + exists w1, d. split_and!; try done.
      * intros p' [?|?]; [done|]. apply Hroom. by left.
      * intros p' [?|?]; [|done]. by rewrite Hpend, Hsent, decide_False.
      * by rewrite Hpend, decide_True.
    + destruct (op_flush_ok w1 p) as (w2 & -> & Hs2 & Hp2 & Hr2). cbn [mbind option_bind].
      exists w2, d. split_and!; try done.
      * intros p' [?|?]; [done|]. rewrite Hr2. apply Hroom. by left.
      * intros p' [?|?]; [|done]. by rewrite Hs2, Hp2, !decide_False, Hpend, Hsent, decide_False.
      * by rewrite Hp2, decide_True.
      * rewrite Hs2, decide_True by done. by rewrite Hsent, Hpend, decide_True.
  - destruct (dist_leave_all_spec d p Hd (in_part_mem _ _ _ Hp)) as (d' & Hall & Hd' & Hm' & _).
    destruct Hd as [Ha Ho _]. destruct (array_index_mem _ _ Ha (in_part_mem _ _ _ Hp)) as (i & Hi & Hip).
    apply (in_part_index _ _ _ Ha Hip) in Hp as Him.
    assert ((let* i := array_index (di_pipes d) p in
      let* pipes := array_swap (di_pipes d) i (di_matching d - 1) in
      let* i := array_index pipes p in
      let* pipes := array_swap pipes i (di_active d - 1) in
      let* pipes := array_swap pipes (di_active d - 1) (di_eligible d - 1) in
      Some (w1, Dist pipes (di_matching d - 1) (di_active d - 1) (di_eligible d - 1) (di_more d), false)) =
      Some (w1, d', false)) as ->.
    { revert Hall. unfold dist_leave_all, dist_leave. rewrite Hi. cbn [mbind option_bind].
      rewrite (proj2 (Nat.ltb_lt i (di_matching d))) by done.
      destruct (array_shrink_spec (di_pipes d) (di_matching d) i p Ha ltac:(lia) Hip)
        as (a1 & -> & Ha1 & Hs1 & _ & Hat1 & _ & _). cbn [mbind option_bind].
      rewrite (aw_index _ Ha1 _ _ Hat1 : array_index a1 p = _). cbn [mbind option_bind].
      rewrite (proj2 (Nat.ltb_lt (di_matching d - 1) (di_active d))) by lia.
      destruct (array_shrink_spec a1 (di_active d) (di_matching d - 1) p Ha1 ltac:(lia) Hat1)
        as (a2 & -> & Ha2 & Hs2 & _ & Hat2 & _ & _). cbn [mbind option_bind].
      rewrite (aw_index _ Ha2 _ _ Hat2 : array_index a2 p = _). cbn [mbind option_bind].
      rewrite (proj2 (Nat.ltb_lt (di_active d - 1) (di_eligible d))) by lia.
      destruct (array_swap a2 (di_active d - 1) (di_eligible d - 1)); [|done]. cbn [mbind option_bind].
      by intros [= <-]. }
    assert (forall p', op_pending w1 p' = op_pending w p') as Hp1 by (intros p'; rewrite Hpend; case_decide; by subst).
    exists w1, d'. split_and!; try done.
    + intros p' _. apply Hroom. by right; left.
Qed.

(** ** Writing to every matching pipe *)

(** The pipe [p] got the frame; flushed when it was the last part. *)
Definition got_frame (w w' : W) (p : Z) (f : frame) : Prop :=
  if fr_more f then op_pending w' p = op_pending w p ++ [f] /\ op_sent w' p = op_sent w p
  else op_pending w' p = [] /\ op_sent w' p = op_sent w p ++ op_pending w p ++ [f].

Definition untouched (w w' : W) (p : Z) : Prop :=
  op_pending w' p = op_pending w p /\ op_sent w' p = op_sent w p.

(** [todo] are the matching pipes the loop has not reached. *)
Definition dist_todo (d : dist) (i : nat) (p : Z) : Prop :=
  di_is_matching d p /\ ~ in_part (di_pipes d) i p.

Lemma dist_write_loop_spec f fuel : forall w d i failed, dist_inv d -> (i <= di_matching d)%nat ->
  (di_matching d - i <= fuel)%nat ->
  exists w' d' failed', dist_write_loop fuel w d i f failed = Some (w', d', failed') /\ dist_inv d' /\
    di_more d' = di_more d /\
    failed' = failed + (Z.of_nat (di_matching d) - Z.of_nat (di_matching d')) /\
    (forall p, di_is_matching d' p <-> di_is_matching d p /\ (dist_todo d i p -> op_room w p = true)) /\
    (forall p, di_is_active d' p <-> di_is_active d p /\ (dist_todo d i p -> op_room w p = true)) /\
    (forall p, di_is_eligible d' p <-> di_is_eligible d p /\ (dist_todo d i p -> op_room w p = true)) /\
    (forall p, p ∈ a_items (di_pipes d') <-> p ∈ a_items (di_pipes d)) /\
    (forall p, dist_todo d i p -> op_room w p = true -> got_frame w w' p f) /\
    (forall p, ~ dist_todo d i p \/ op_room w p = false -> untouched w w' p).
Proof.
  assert (forall w d i failed, dist_inv d -> i = di_matching d -> exists w' d' failed',
    Some (w, d, failed) = Some (w', d', failed') /\ dist_inv d' /\ di_more d' = di_more d /\
    failed' = failed + (Z.of_nat (di_matching d) - Z.of_nat (di_matching d')) /\
    (forall p, di_is_matching d' p <-> di_is_matching d p /\ (dist_todo d i p -> op_room w p = true)) /\
    (forall p, di_is_active d' p <-> di_is_active d p /\ (dist_todo d i p -> op_room w p = true)) /\
    (forall p, di_is_eligible d' p <-> di_is_eligible d p /\ (dist_todo d i p -> op_room w p = true)) /\
    (forall p, p ∈ a_items (di_pipes d') <-> p ∈ a_items (di_pipes d)) /\
    (forall p, dist_todo d i p -> op_room w p = true -> got_frame w w' p f) /\
    (forall p, ~ dist_todo d i p \/ op_room w p = false -> untouched w w' p)) as Hdone.
  { intros w d i failed Hd ->. assert (forall p, ~ dist_todo d (di_matching d) p) as Hno by (intros p [? ?]; done).
    exists w, d, failed. split_and!; try done; [lia| | | |]; intros p; try (split; [|tauto]; intros ?; split; [done|]);
      intros Ht; by destruct (Hno p). }
  induction fuel as [|fuel IH]; intros w d i failed Hd Hi Hf; cbn [dist_write_loop].
  { rewrite (proj2 (Nat.leb_le _ _)) by lia. apply Hdone; [done|lia]. }
  destruct (di_matching d <=? i)%nat eqn:E; [apply Nat.leb_le in E; apply Hdone; [done|lia]|apply Nat.leb_gt in E].
  pose proof Hd as [Ha Ho _].
  destruct (lookup_lt_is_Some_2 (a_items (di_pipes d)) i) as [p Hp]; [unfold array_size in *; lia|].
  unfold array_get. rewrite Hp. cbn [mbind option_bind]. pose proof (in_part_index _ _ _ Ha Hp) as Hpi.
  assert (di_is_matching d p) as Hpm by (by apply Hpi).
  assert (dist_todo d i p) as Hpt by (split; [done|]; rewrite Hpi; lia).
  destruct (dist_write_spec w d p f Hd Hpm) as (w1 & d1 & -> & Hd1 & Hm1 & Hroom & Hoth & Hres).
  cbn [mbind option_bind]. destruct (op_room w p) eqn:Er.
  - destruct Hres as [-> Hgot].
    assert (forall x, dist_todo d (S i) x <-> dist_todo d i x /\ x <> p) as Htodo.
    { intros x. unfold dist_todo. split.
      - intros [Hx Hn]. split; [split; [done|]|].
        + intros (k & Hk & ?). apply Hn. exists k. split; [lia|done].
        + intros ->. apply Hn. exists i. split; [lia|done].
      - intros [[Hx Hn] Hne]. split; [done|]. intros (k & Hk & Hkx). apply Hn. exists k. split; [|done].
        assert (k <> i) by congruence. lia. }
    destruct (IH w1 d (S i) failed Hd) as (w' & d' & failed' & -> & Hd' & Hm' & Hf' & Hmt & Hac & Hel & Hmem & Hg & Hu); [lia|lia|].
    exists w', d', failed'. setoid_rewrite Htodo in Hmt. setoid_rewrite Htodo in Hac. setoid_rewrite Htodo in Hel.
    setoid_rewrite Htodo in Hg. setoid_rewrite Htodo in Hu.
    assert (forall x, (dist_todo d i x /\ x <> p -> op_room w1 x = true) <-> (dist_todo d i x -> op_room w x = true)) as Hiff.
    { intros x. split.
      - intros Hx Ht. destruct (decide (x = p)) as [->|Hne]; [done|]. rewrite <- (Hroom x) by (by right). auto.
      - intros Hx [Ht Hne]. rewrite (Hroom x) by (by right). auto. }
    split_and!; try done.
    + intros x. by rewrite Hmt, Hiff.
    + intros x. by rewrite Hac, Hiff.
    + intros x. by rewrite Hel, Hiff.
    + intros x Ht Hr. destruct (decide (x = p)) as [->|Hne].
      * destruct (Hu p) as [Hu1 Hu2]; [left; tauto|]. unfold got_frame. rewrite Hu1, Hu2. exact Hgot.
      * specialize (Hg x (conj Ht Hne)). rewrite (Hroom x) in Hg by (by right). specialize (Hg Hr).
        destruct (Hoth x) as [Ho1 Ho2]; [by left|]. unfold got_frame in *. by rewrite Ho1, Ho2 in Hg.
    + intros x Hx. assert (x <> p) as Hne by (intros ->; destruct Hx; [tauto|congruence]).
      destruct (Hoth x) as [Ho1 Ho2]; [by left|]. destruct (Hu x) as [Hu1 Hu2].
      * rewrite (Hroom x) by (by right). destruct Hx; [left; tauto|by right].
      * split; congruence.
  - destruct (dist_leave_all_spec d p Hd (in_part_mem _ _ _ Hpm))
      as (d1' & Hall & _ & _ & _ & Hsm & Hlow & Lmt & Lac & Lel & Lmem). rewrite Hres in Hall. injection Hall as <-.
    specialize (Hsm Hpm).
    assert (forall x, dist_todo d1 i x <-> dist_todo d i x /\ x <> p) as Htodo.
    { intros x. unfold dist_todo. rewrite Lmt, Hlow; [tauto|lia|]. rewrite Hpi. lia. }
    destruct (IH w1 d1 i (failed + 1) Hd1) as (w' & d' & failed' & -> & Hd' & Hm' & Hf' & Hmt & Hac & Hel & Hmem & Hg & Hu); [lia|lia|].
    exists w', d', failed'. setoid_rewrite Htodo in Hmt. setoid_rewrite Htodo in Hac. setoid_rewrite Htodo in Hel.
    setoid_rewrite Htodo in Hg. setoid_rewrite Htodo in Hu.
    assert (forall x, op_room w1 x = op_room w x) as Hroom' by (intros x; apply Hroom; by left).
    setoid_rewrite Hroom' in Hmt. setoid_rewrite Hroom' in Hac. setoid_rewrite Hroom' in Hel.
    setoid_rewrite Hroom' in Hg. setoid_rewrite Hroom' in Hu.
    assert (forall x, x <> p /\ (dist_todo d i x /\ x <> p -> op_room w x = true) <-> (dist_todo d i x -> op_room w x = true) /\ x <> p) as Hiff
      by tauto.
    assert (forall x, (dist_todo d i x -> op_room w x = true) -> x <> p) as Hnp.
    { intros x Hx ->. specialize (Hx Hpt). congruence. }
    split_and!; try done.
    + congruence.
    + lia.
    + intros x. rewrite Hmt, Lmt. specialize (Hnp x). tauto.
    + intros x. rewrite Hac, Lac. specialize (Hnp x). tauto.
    + intros x. rewrite Hel, Lel. specialize (Hnp x). tauto.
    + intros x. by rewrite Hmem, Lmem.
    + intros x Ht Hr. assert (x <> p) as Hne by congruence. specialize (Hg x (conj Ht Hne) Hr).
      destruct (Hoth x) as [Ho1 Ho2]; [by left|]. unfold got_frame in *. by rewrite Ho1, Ho2 in Hg.
    + intros x Hx. destruct (Hoth x) as [Ho1 Ho2]; [by right|]. destruct (Hu x) as [Hu1 Hu2].
      * destruct Hx; [left; tauto|by right].
      * split; congruence.
Qed.

(** What [send_to_matching] does. *)
Definition dist_sent_ok (w : W) (d : dist) (f : frame) (w' : W) (d' : dist) (refs : Z) : Prop :=
  dist_inv d' /\ di_more d' = fr_more f /\
  (forall p, di_is_matching d p -> op_room w p = true -> got_frame w w' p f) /\
  (forall p, ~ di_is_matching d p \/ op_room w p = false -> untouched w w' p) /\
  (forall p, di_is_matching d' p <-> di_is_matching d p /\ op_room w p = true) /\
  (forall p, di_is_eligible d' p <-> di_is_eligible d p /\ (di_is_matching d p -> op_room w p = true)) /\
  (fr_more f = false -> di_active d' = di_eligible d') /\
  (fr_is_vsm f = false -> refs = Z.of_nat (di_matching d')) /\
  (forall p, p ∈ a_items (di_pipes d') <-> p ∈ a_items (di_pipes d)).

Lemma dist_send_ok w d f : dist_inv d ->
  exists w' d' refs, dist_send_to_matching w d f = Some (w', d', refs) /\ dist_sent_ok w d f w' d' refs.
Proof.
  intros Hd. unfold dist_send_to_matching, dist_distribute.
  assert (forall p, dist_todo d 0 p <-> di_is_matching d p) as Htodo.
  { intros p. unfold dist_todo. split; [tauto|]. intros Hp. split; [done|]. intros (k & Hk & _). lia. }
  destruct (dist_write_loop_spec f (di_matching d) w d 0 0 Hd) as
    (w' & d' & failed & Hrun & Hd' & Hm' & Hf & Hmt & Hac & Hel & Hmem & Hg & Hu); [lia|lia|].
  setoid_rewrite Htodo in Hmt. setoid_rewrite Htodo in Hac. setoid_rewrite Htodo in Hel.
  setoid_rewrite Htodo in Hg. setoid_rewrite Htodo in Hu.
  assert (forall refs, (fr_is_vsm f = false -> refs = Z.of_nat (di_matching d')) ->
    dist_sent_ok w d f w' (Dist (di_pipes d') (di_matching d')
      (if negb (fr_more f) then di_eligible d' else di_active d') (di_eligible d') (fr_more f)) refs) as Hok.
  { intros refs Hrefs. destruct Hd' as [Ha' Ho' Hidle']. unfold dist_sent_ok. split_and!; try done.
    - constructor; simpl; [done|destruct (fr_more f); simpl; lia|]. by intros ->.
    - intros p. unfold di_is_matching in *. simpl. rewrite Hmt. tauto.
    - simpl. by intros ->. }
  destruct (di_matching d =? 0)%nat eqn:E; [apply Nat.eqb_eq in E|apply Nat.eqb_neq in E].
  - assert (d' = d /\ w' = w) as [-> ->].
    { rewrite E in Hrun. cbn [dist_write_loop] in Hrun. rewrite E in Hrun. cbn in Hrun. by simplify_eq. }
    cbn [mbind option_bind]. eexists _, _, _. split; [done|]. apply Hok. by rewrite E.
  - rewrite Hrun. destruct (fr_is_vsm f) eqn:Ev; cbn [mbind option_bind].
    + eexists _, _, _. split; [done|]. by apply Hok.
    + eexists _, _, _. split; [done|]. apply Hok. intros _.
      destruct (failed =? 0) eqn:E0; bool_prop; simpl; lia.
Qed.

(** Sending a part that is not the last one leaves the room of the pipes as it is. *)
Lemma dist_write_room w d p f w' d' b : dist_write w d p f = Some (w', d', b) -> fr_more f = true ->
  forall p', op_room w' p' = op_room w p'.
Proof.
  unfold dist_write. destruct (op_write_ok w p f) as (w1 & -> & _ & _ & Hroom). cbn [mbind option_bind]. intros Hrun Hf p'.
  rewrite Hf in Hrun. cbn [negb] in Hrun. assert (w' = w1) as ->; [|apply Hroom; by right; right].
  destruct (op_room w p); cbn [negb] in Hrun; [by simplify_eq|].
  repeat (match type of Hrun with (?m ≫= _) = _ => destruct m; [|done]; cbn [mbind option_bind] in Hrun end). by simplify_eq.
Qed.

Lemma dist_write_loop_room f fuel : fr_more f = true -> forall w d i failed w' d' n,
  dist_write_loop fuel w d i f failed = Some (w', d', n) -> forall p, op_room w' p = op_room w p.
Proof.
  intros Hf. induction fuel as [|fuel IH]; intros w d i failed w' d' n; simpl; (destruct (_ <=? _)%nat; [by intros; simplify_eq|]); [done|].
  destruct (array_get _ _) as [p|]; [|done]. cbn [mbind option_bind].
  destruct (dist_write w d p f) as [[[w1 d1] b]|] eqn:E; [|done]. cbn [mbind option_bind].
  intros Hrun p'. rewrite <- (dist_write_room _ _ _ _ _ _ _ E Hf p'). destruct b; by apply (IH _ _ _ _ _ _ _ Hrun).
Qed.

Lemma dist_send_room w d f w' d' refs : dist_send_to_matching w d f = Some (w', d', refs) -> fr_more f = true ->
  forall p, op_room w' p = op_room w p.
Proof.
  unfold dist_send_to_matching, dist_distribute. intros Hrun Hf p. destruct (di_matching d =? 0)%nat; [by cbn in Hrun; simplify_eq|].
  destruct (dist_write_loop (di_matching d) w d 0 f 0) as [[[w1 d1] n]|] eqn:E; [|by destruct (fr_is_vsm f)].
  pose proof (dist_write_loop_room f _ Hf _ _ _ _ _ _ _ E p). destruct (fr_is_vsm f); cbn in Hrun; by simplify_eq.
Qed.

(** ** Attaching and activating *)

Lemma dist_attach_ok d p : dist_inv d -> p ∉ a_items (di_pipes d) ->
  exists d', dist_attach d p = Some d' /\ dist_inv d' /\ di_more d' = di_more d /\
    (forall x, di_is_matching d' x <-> di_is_matching d x) /\
    (forall x, di_is_active d' x <-> di_is_active d x \/ x = p /\ di_more d = false) /\
    (forall x, di_is_eligible d' x <-> di_is_eligible d x \/ x = p) /\
    (forall x, x ∈ a_items (di_pipes d') <-> x ∈ a_items (di_pipes d) \/ x = p).
Proof.
  intros [Ha Ho Hidle] Hp. unfold dist_attach. destruct (di_more d) eqn:Em.
  - destruct (array_attach_spec (di_pipes d) (di_eligible d) p Ha ltac:(lia) Hp)
      as (a' & -> & Hwf & Hsz & Hmem & _ & _ & Hlow & Hpart).
    cbn [mbind option_bind]. eexists. split; [done|]. split_and!; try done; simpl.
    + constructor; simpl; [done|lia|done].
    + intros x. apply Hlow. simpl. lia.
    + intros x. unfold di_is_active. simpl. rewrite Hlow by lia. split; [by left|]. by intros [?|[_ ?]].
  - rewrite (Hidle eq_refl) in *.
    destruct (array_attach_spec (di_pipes d) (di_eligible d) p Ha ltac:(lia) Hp)
      as (a' & -> & Hwf & Hsz & Hmem & _ & _ & Hlow & Hpart).
    cbn [mbind option_bind]. eexists. split; [done|]. split_and!; try done; simpl.
    + constructor; simpl; [done|lia|done].
    + intros x. apply Hlow. simpl. lia.
    + intros x. unfold di_is_active. simpl. rewrite Hpart, (Hidle eq_refl). naive_solver.
Qed.

Lemma dist_activated_mem d p d' : dist_activated d p = Some d' -> forall x, x ∈ a_items (di_pipes d') <-> x ∈ a_items (di_pipes d).
Proof.
  unfold dist_activated. intros Hrun x.
  assert (forall d1, (if (di_eligible d <? array_size (di_pipes d))%nat then
      let* index := array_index (di_pipes d) p in
      let* pipes := array_swap (di_pipes d) index (di_eligible d) in
      Some (Dist pipes (di_matching d) (di_active d) (S (di_eligible d)) (di_more d))
    else Some d) = Some d1 -> x ∈ a_items (di_pipes d1) <-> x ∈ a_items (di_pipes d)) as Hfirst.
  { intros d1. destruct (_ <? _)%nat; [|by intros [= <-]]. destruct (array_index _ _); [|done]. cbn [mbind option_bind].
    destruct (array_swap _ _ _) as [a|] eqn:E; [|done]. intros [= <-]. by apply (array_swap_mem _ _ _ _ E). }
  destruct (if (_ <? _)%nat then _ else _) as [d1|]; [|done]. rewrite <- (Hfirst d1 eq_refl). cbn [mbind option_bind] in Hrun.
  destruct (_ && _); [|by injection Hrun as <-]. destruct (array_swap _ _ _) as [a|] eqn:E; [|done]. injection Hrun as <-.
  by apply (array_swap_mem _ _ _ _ E).
Qed.

Lemma dist_activated_ok d p : dist_inv d -> p ∈ a_items (di_pipes d) -> ~ di_is_eligible d p ->
  exists d', dist_activated d p = Some d' /\ dist_inv d' /\ di_more d' = di_more d /\
    (forall x, di_is_matching d' x <-> di_is_matching d x) /\
    (forall x, di_is_active d' x <-> di_is_active d x \/ x = p /\ di_more d = false) /\
    (forall x, di_is_eligible d' x <-> di_is_eligible d x \/ x = p).
Proof.
  intros [Ha Ho Hidle] Hp Hne. unfold dist_activated.
  destruct (array_index_mem _ _ Ha Hp) as (i & Hi & Hip). pose proof (in_part_index _ _ _ Ha Hip) as Hin.
  assert (di_eligible d <= i)%nat as Hle by (unfold di_is_eligible in Hne; rewrite Hin in Hne; lia).
  pose proof (lookup_lt_Some _ _ _ Hip) as Hlt. fold (array_size (di_pipes d)) in Hlt.
  rewrite (proj2 (Nat.ltb_lt _ _)) by lia. rewrite Hi. cbn [mbind option_bind].
  destruct (array_grow_spec (di_pipes d) (di_eligible d) i p Ha Hle Hip)
    as (a' & -> & Hwf & Hsz & Hmem & Hat & Hlow & Hpart). cbn [mbind option_bind]. cbn [di_more di_active di_pipes di_eligible di_matching].
  destruct (di_more d) eqn:Em; cbn [negb andb].
  - eexists. split; [done|]. split_and!; try done; simpl.
    + constructor; simpl; [done|lia|done].
    + intros x. apply Hlow. simpl. lia.
    + intros x. unfold di_is_active. simpl. rewrite Hlow by lia. split; [by left|]. by intros [?|[_ ?]].
  - rewrite (Hidle eq_refl) in *. rewrite (proj2 (Nat.ltb_lt _ _)) by lia.
    replace (S (di_eligible d) - 1)%nat with (di_eligible d) by lia.
    destruct (array_grow_spec a' (di_eligible d) (di_eligible d) p Hwf ltac:(lia) Hat)
      as (a2 & -> & Hwf2 & Hsz2 & _ & _ & Hlow2 & Hpart2). cbn [mbind option_bind].
    eexists. split; [done|]. split_and!; try done; simpl.
    + constructor; simpl; [done|lia|done].
    + intros x. unfold di_is_matching. simpl. rewrite Hlow2, Hlow by lia. done.
    + intros x. unfold di_is_active. simpl. rewrite Hpart2, Hlow, (Hidle eq_refl) by lia. naive_solver.
    + intros x. unfold di_is_eligible. simpl. rewrite Hpart2, Hlow by lia. done.
Qed.

End dist.

(** [send_to_matching] delivers a frame to every matching pipe with
    room, once, flushing it when it is the last part, and to no other
    pipe; pipes without room drop out of the matching, active and
    eligible parts; at the end of a message every eligible pipe becomes
    active; and a shared body has exactly one reference per pipe that
    took the frame. *)
Theorem dist_send_to_matching_spec {W} `{OutPipesLaws W} (w : W) (d : dist) (f : frame) :
  dist_inv d ->
  exists w' d' refs, dist_send_to_matching w d f = Some (w', d', refs) /\ dist_sent_ok w d f w' d' refs.
Proof. apply dist_send_ok. Qed.

(** [reverse_match], used by an inverted XPUB, makes exactly the
    eligible pipes that did not match the matching ones. *)
Theorem dist_reverse_match_spec (d : dist) :
  dist_inv d -> di_more d = false ->
  exists d', dist_reverse_match d = Some d' /\ dist_inv d' /\ di_more d' = false /\
    (forall x, di_is_matching d' x <-> di_is_eligible d x /\ ~ di_is_matching d x) /\
    (forall x, di_is_eligible d' x <-> di_is_eligible d x).
Proof. apply dist_reverse_match_ok. Qed.

(** the nesting of the matching, active and eligible pipes is kept,
    with the expected members, when a pipe is attached (eligible only
    for the next message in the middle of one), becomes writable again,
    matches, or terminates. *)
Theorem dist_parts_kept (d : dist) (p : Z) :
  dist_inv d ->
  (p ∉ a_items (di_pipes d) -> exists d', dist_attach d p = Some d' /\ dist_inv d' /\
     (forall x, di_is_active d' x <-> di_is_active d x \/ x = p /\ di_more d = false) /\
     (forall x, di_is_eligible d' x <-> di_is_eligible d x \/ x = p)) /\
  (p ∈ a_items (di_pipes d) -> ~ di_is_eligible d p -> exists d', dist_activated d p = Some d' /\ dist_inv d' /\
     (forall x, di_is_active d' x <-> di_is_active d x \/ x = p /\ di_more d = false) /\
     (forall x, di_is_eligible d' x <-> di_is_eligible d x \/ x = p)) /\
  (p ∈ a_items (di_pipes d) -> di_more d = false -> exists d', dist_match d p = Some d' /\ dist_inv d' /\
     (forall x, di_is_matching d' x <-> di_is_matching d x \/ x = p /\ di_is_eligible d p) /\
     (forall x, di_is_eligible d' x <-> di_is_eligible d x)) /\
  (p ∈ a_items (di_pipes d) -> exists d', dist_pipe_terminated d p = Some d' /\ dist_inv d' /\
     (forall x, di_is_matching d' x <-> di_is_matching d x /\ x <> p) /\
     (forall x, di_is_active d' x <-> di_is_active d x /\ x <> p) /\
     (forall x, di_is_eligible d' x <-> di_is_eligible d x /\ x <> p) /\
     (forall x, x ∈ a_items (di_pipes d') <-> x ∈ a_items (di_pipes d) /\ x <> p)).
Proof.
  intros Hd. split_and!.
  - intros Hp. destruct (dist_attach_ok d p Hd Hp) as (d' & ? & ? & _ & _ & ? & ? & _). by exists d'.
  - intros Hp Hn. destruct (dist_activated_ok d p Hd Hp Hn) as (d' & ? & ? & _ & _ & ? & ?). by exists d'.
  - intros Hp Hm. destruct (dist_match_spec d p Hd Hm Hp) as (d' & ? & ? & _ & ? & ? & _). by exists d'.
  - intros Hp. destruct (dist_pipe_terminated_ok d p Hd Hp) as (d' & ? & ? & _ & ? & ? & ? & ?). by exists d'.
Qed.

(** ** Concrete runs *)

Definition dist_example : dist :=
  Eval vm_compute in
    match (let* d := dist_attach dist_new 1 in let* d := dist_attach d 2 in let* d := dist_attach d 3 in
           let* d := dist_match d 3 in dist_match d 2) with
    | Some d => d | None => dist_new end.

Lemma dist_example_inv : dist_inv dist_example.
Proof.
  constructor; [|vm_compute; lia|reflexivity]. constructor; simpl.
  - repeat constructor; set_solver.
  - intros [|[|[|]]] x; simpl; intros [= <-]; reflexivity.
Qed.

Definition dist_example_pipes : credits :=
  list_to_map [(1, (5%nat, [], [])); (2, (0%nat, [], [])); (3, (5%nat, [], []))].

Lemma dist_send_to_matching_spec_witness :
  exists w' d' refs, dist_send_to_matching dist_example_pipes dist_example (Frame type_lmsg 0 [1]) = Some (w', d', refs) /\
    refs = 1 /\ di_matching d' = 1%nat.
Proof.
  destruct (dist_send_to_matching_spec dist_example_pipes dist_example (Frame type_lmsg 0 [1]) dist_example_inv)
    as (w' & d' & refs & Hrun & _ & _ & _ & _ & _ & _ & _ & Hrefs & _).
  exists w', d', refs. split; [exact Hrun|]. rewrite (Hrefs eq_refl). vm_compute in Hrun.
  injection Hrun as _ <- _. split; reflexivity.
Defined.

Lemma dist_reverse_match_spec_witness :
  exists d', dist_reverse_match dist_example = Some d' /\ di_is_matching d' 1.
Proof.
  destruct (dist_reverse_match_spec dist_example dist_example_inv eq_refl) as (d' & Hrun & _ & _ & Hm & _).
  exists d'. split; [exact Hrun|]. apply Hm. split.
  - exists 2%nat. split; [vm_compute; lia|vm_compute; reflexivity].
  - intros (k & Hk & Hx). vm_compute in Hk. destruct k as [|[|k]]; [| |lia]; vm_compute in Hx; discriminate.
Defined.

Lemma dist_parts_kept_witness :
  exists d', dist_attach dist_example 4 = Some d' /\ di_is_active d' 4.
Proof.
  destruct (dist_parts_kept dist_example 4 dist_example_inv) as (Hatt & _).
  destruct Hatt as (d' & Hrun & _ & Ha & _); [vm_compute; set_solver|].
  exists d'. split; [exact Hrun|]. apply Ha. right. split; reflexivity.
Defined.
