(* ===== verification/Msg.v ===== *)
(** * Messages and their shared contents (src/src/msg.cpp, src/src/msg.hpp)

    A message object holds a short body itself and shares a long one with
    its copies through a reference count.  The state is a program's
    message objects, the contents and metadata that exist, and the calls
    made so far to the functions that free user-supplied data.  The value
    [None] stands for a failed assertion or an access to freed memory. *)

From S2P Require Import Prelude Frame.

(** ** Reference counts (src/src/atomic_counter.hpp) *)

Definition ac_add (v n : Z) : Z := u32 (v + n).

(** The new value, and whether it is not zero. *)
Definition ac_sub (v n : Z) : Z * bool := (u32 (v - n), negb (u32 (v - n) =? 0)).

(** ** Data *)

(** [content_t]: the bytes, their address, the function that frees them. *)
Record content := Content {
  c_bytes : bytes;
  c_data : Z;
  c_ffn : option Z;
  c_hint : Z;
  c_refcnt : Z;
}.

(** The union [_u] by its [type]; [BInvalid] is a closed message. *)
Inductive mbody :=
| BVsm (data : bytes) | BLmsg (content : Z) | BDelimiter | BCmsg (data : bytes) | BZclmsg (content : Z)
| BJoin | BLeave | BInvalid.

Record msg := Msg {
  m_body : mbody;
  m_flags : Z;
  m_metadata : option Z;
  m_group : bytes;                (** the string it holds *)
  m_routing_id : Z;
}.

Record mstate := MState {
  ms_slots : list msg;            (** the message objects *)
  ms_contents : gmap Z content;
  ms_metadata : gmap Z Z;         (** reference counts of [metadata_t] *)
  ms_freed : list (Z * Z * Z);    (** calls [ffn (data, hint)] *)
}.

Definition m_check (m : msg) : bool := match m_body m with BInvalid => false | _ => true end.
Definition m_pointer (m : msg) : option Z :=
  match m_body m with BLmsg c | BZclmsg c => Some c | _ => None end.
Definition m_shared (m : msg) : bool := negb (Z.land (m_flags m) flag_shared =? 0).

Definition set_slot (st : mstate) (i : nat) (m : msg) : mstate :=
  MState (<[i := m]> (ms_slots st)) (ms_contents st) (ms_metadata st) (ms_freed st).
Definition set_contents (st : mstate) (h : gmap Z content) : mstate :=
  MState (ms_slots st) h (ms_metadata st) (ms_freed st).
Definition set_meta (st : mstate) (h : gmap Z Z) : mstate :=
  MState (ms_slots st) (ms_contents st) h (ms_freed st).
Definition set_refcnt (ct : content) (v : Z) : content :=
  Content (c_bytes ct) (c_data ct) (c_ffn ct) (c_hint ct) v.

Definition empty_msg (b : mbody) : msg := Msg b 0 None [] 0.

(** The address of a new content; 0 is the null pointer. *)
Definition null : Z := 0.
Definition new_content (st : mstate) : Z := fresh ({[null]} ∪ dom (ms_contents st)).

(** ** Initialisation *)

Definition msg_init (st : mstate) (i : nat) : mstate := set_slot st i (empty_msg (BVsm [])).

(** [init_size], with the bytes that are in the new body.  When [malloc]
    fails the object is left with a null content. *)
Definition msg_init_sized (malloc_ok : bool) (st : mstate) (i : nat) (data : bytes) : mstate * Z :=
  let size := Z.of_nat (length data) in
  if size <=? 33 then (set_slot st i (empty_msg (BVsm data)), 0)
  else
    let c := new_content st in
    if (size <? u64 (40 + size)) && malloc_ok then
      (set_slot (set_contents st (<[c := Content data c None 0 0]> (ms_contents st))) i (empty_msg (BLmsg c)), 0)
    else (set_slot st i (empty_msg (BLmsg null)), -1).

(** [init_external_storage]: the content lies in memory of the caller. *)
Definition msg_init_external_storage (st : mstate) (i : nat) (data : bytes) (ptr ffn hint : Z) : mstate :=
  let c := new_content st in
  set_slot (set_contents st (<[c := Content data ptr (Some ffn) hint 0]> (ms_contents st))) i (empty_msg (BZclmsg c)).

Definition msg_init_data (malloc_ok : bool) (st : mstate) (i : nat) (data : bytes) (ptr : Z) (ffn : option Z) (hint : Z)
  : mstate * Z :=
  match ffn with
  | None => (set_slot st i (empty_msg (BCmsg data)), 0)
  | Some _ =>
      let c := new_content st in
      if malloc_ok then
        (set_slot (set_contents st (<[c := Content data ptr ffn hint 0]> (ms_contents st))) i (empty_msg (BLmsg c)), 0)
      else (set_slot st i (empty_msg (BLmsg null)), -1)
  end.

Definition msg_init_delimiter (st : mstate) (i : nat) : mstate := set_slot st i (empty_msg BDelimiter).
Definition msg_init_join (st : mstate) (i : nat) : mstate := set_slot st i (empty_msg BJoin).
Definition msg_init_leave (st : mstate) (i : nat) : mstate := set_slot st i (empty_msg BLeave).

(** ** Metadata (src/src/metadata.cpp) *)

Definition metadata_add_ref (st : mstate) (md : Z) : option mstate :=
  let* n := ms_metadata st !! md in
  Some (set_meta st (<[md := ac_add n 1]> (ms_metadata st))).

(** [drop_ref], with the deletion by the caller. *)
Definition metadata_drop_ref (st : mstate) (md : Z) : option mstate :=
  let* n := ms_metadata st !! md in
  let '(n, nonzero) := ac_sub n 1 in
  Some (set_meta st (if (nonzero : bool) then <[md := n]> (ms_metadata st) else delete md (ms_metadata st))).

Definition msg_set_metadata (st : mstate) (i : nat) (md : Z) : option mstate :=
  let* m := ms_slots st !! i in
  zmq_assert (bool_decide (m_metadata m = None)) ;;
  let* st := metadata_add_ref st md in
  Some (set_slot st i (Msg (m_body m) (m_flags m) (Some md) (m_group m) (m_routing_id m))).

Definition msg_reset_metadata (st : mstate) (i : nat) : option mstate :=
  let* m := ms_slots st !! i in
  match m_metadata m with
  | None => Some st
  | Some md =>
      let* st := metadata_drop_ref st md in
      Some (set_slot st i (Msg (m_body m) (m_flags m) None (m_group m) (m_routing_id m)))
  end.

(** ** Closing, moving, copying *)

(** The content is freed: the user's function is called. *)
Definition content_free (st : mstate) (c : Z) (ct : content) : mstate :=
  MState (ms_slots st) (delete c (ms_contents st)) (ms_metadata st)
    (match c_ffn ct with Some f => ms_freed st ++ [(f, c_data ct, c_hint ct)] | None => ms_freed st end).

(** [n] references are given back; whether the content still exists. *)
Definition content_sub (st : mstate) (c : Z) (n : Z) : option (mstate * bool) :=
  let* ct := ms_contents st !! c in
  let '(v, nonzero) := ac_sub (c_refcnt ct) n in
  if (nonzero : bool) then Some (set_contents st (<[c := set_refcnt ct v]> (ms_contents st)), true)
  else Some (content_free st c ct, false).

Definition content_close (st : mstate) (m : msg) : option mstate :=
  match m_body m with
  | BLmsg c =>
      let* ct := ms_contents st !! c in
      if negb (m_shared m) then Some (content_free st c ct)
      else let* (st, _) := content_sub st c 1 in Some st
  | BZclmsg c =>
      let* ct := ms_contents st !! c in
      zmq_assert (bool_decide (is_Some (c_ffn ct))) ;;
      if negb (m_shared m) then Some (content_free st c ct)
      else let* (st, _) := content_sub st c 1 in Some st
  | _ => Some st
  end.

Definition msg_close (st : mstate) (i : nat) : option (mstate * Z) :=
  let* m := ms_slots st !! i in
  if negb (m_check m) then Some (st, -1)
  else
    let* st := content_close st m in
    let* st := match m_metadata m with Some md => metadata_drop_ref st md | None => Some st end in
    Some (set_slot st i (Msg BInvalid (m_flags m) None (m_group m) (m_routing_id m)), 0).

Definition msg_move (st : mstate) (dst src : nat) : option (mstate * Z) :=
  let* m := ms_slots st !! src in
  if negb (m_check m) then Some (st, -1)
  else
    let* (st, rc) := msg_close st dst in
    if rc <? 0 then Some (st, rc)
    else
      let* m := ms_slots st !! src in
      let st := set_slot st dst m in
      Some (msg_init st src, 0).

(** [initial_shared_refcnt]. *)
Definition initial_shared_refcnt : Z := 2.

Definition msg_copy (st : mstate) (dst src : nat) : option (mstate * Z) :=
  let* m := ms_slots st !! src in
  if negb (m_check m) then Some (st, -1)
  else
    let* (st, rc) := msg_close st dst in
    if rc <? 0 then Some (st, rc)
    else
      let* m := ms_slots st !! src in
      let* (st, m) :=
        match m_pointer m with
        | None => Some (st, m)
        | Some c =>
            let* ct := ms_contents st !! c in
            if m_shared m then
              Some (set_contents st (<[c := set_refcnt ct (ac_add (c_refcnt ct) 1)]> (ms_contents st)), m)
            else
              let m := Msg (m_body m) (Z.lor (m_flags m) flag_shared) (m_metadata m) (m_group m) (m_routing_id m) in
              Some (set_contents (set_slot st src m) (<[c := set_refcnt ct initial_shared_refcnt]> (ms_contents st)), m)
        end in
      let* st := match m_metadata m with Some md => metadata_add_ref st md | None => Some st end in
      Some (set_slot st dst m, 0).

(** ** Access *)

Definition msg_data (st : mstate) (m : msg) : option bytes :=
  match m_body m with
  | BVsm d | BCmsg d => Some d
  | BLmsg c | BZclmsg c => let* ct := ms_contents st !! c in Some (c_bytes ct)
  | _ => None
  end.

Definition msg_size (st : mstate) (m : msg) : option Z := let* d := msg_data st m in Some (Z.of_nat (length d)).

Definition msg_set_flags (st : mstate) (i : nat) (flags : Z) : option mstate :=
  let* m := ms_slots st !! i in
  Some (set_slot st i (Msg (m_body m) (Z.lor (m_flags m) flags) (m_metadata m) (m_group m) (m_routing_id m))).

Definition msg_reset_flags (st : mstate) (i : nat) (flags : Z) : option mstate :=
  let* m := ms_slots st !! i in
  Some (set_slot st i (Msg (m_body m) (Z.land (m_flags m) (Z.lnot flags)) (m_metadata m) (m_group m) (m_routing_id m))).

Definition msg_set_routing_id (st : mstate) (i : nat) (id : Z) : option (mstate * Z) :=
  let* m := ms_slots st !! i in
  if negb (id =? 0) then Some (set_slot st i (Msg (m_body m) (m_flags m) (m_metadata m) (m_group m) id), 0)
  else Some (st, -1).

Definition msg_reset_routing_id (st : mstate) (i : nat) : option mstate :=
  let* m := ms_slots st !! i in
  Some (set_slot st i (Msg (m_body m) (m_flags m) (m_metadata m) (m_group m) 0)).

(** The string of at most [len] characters in the buffer [b]. *)
Fixpoint c_string (len : nat) (b : bytes) : bytes :=
  match len, b with
  | S len', x :: b' => if x =? 0 then [] else x :: c_string len' b'
  | _, _ => []
  end.

(** [strncpy] of [len] characters, and the terminating zero. *)
Definition msg_set_group (st : mstate) (i : nat) (group : bytes) (len : Z) : option (mstate * Z) :=
  let* m := ms_slots st !! i in
  if 15 <? len then Some (st, -1)
  else Some (set_slot st i (Msg (m_body m) (m_flags m) (m_metadata m) (c_string (Z.to_nat len) group) (m_routing_id m)), 0).

(** ** References for bitwise copies *)

Definition msg_add_refs (st : mstate) (i : nat) (refs : Z) : option mstate :=
  let* m := ms_slots st !! i in
  zmq_assert (0 <=? refs) ;;
  zmq_assert (bool_decide (m_metadata m = None)) ;;
  if refs =? 0 then Some st
  else
    match m_pointer m with
    | None => Some st
    | Some c =>
        let* ct := ms_contents st !! c in
        if m_shared m then
          Some (set_contents st (<[c := set_refcnt ct (ac_add (c_refcnt ct) refs)]> (ms_contents st)))
        else
          let st := set_contents st (<[c := set_refcnt ct (u32 (refs + 1))]> (ms_contents st)) in
          Some (set_slot st i (Msg (m_body m) (Z.lor (m_flags m) flag_shared) (m_metadata m) (m_group m) (m_routing_id m)))
    end.

Definition msg_rm_refs (st : mstate) (i : nat) (refs : Z) : option (mstate * bool) :=
  let* m := ms_slots st !! i in
  zmq_assert (0 <=? refs) ;;
  zmq_assert (bool_decide (m_metadata m = None)) ;;
  if refs =? 0 then Some (st, true)
  else
    match m_pointer m with
    | Some c => if negb (m_shared m) then let* (st, _) := msg_close st i in Some (st, false) else content_sub st c refs
    | None => let* (st, _) := msg_close st i in Some (st, false)
    end.

(** The object is written to a pipe: its bits are copied. *)
Definition msg_raw_copy (st : mstate) (src dst : nat) : option mstate :=
  let* m := ms_slots st !! src in Some (set_slot st dst m).

Fixpoint msg_raw_copies (st : mstate) (src : nat) (dsts : list nat) : option mstate :=
  match dsts with
  | [] => Some st
  | d :: dsts' => let* st := msg_raw_copy st src d in msg_raw_copies st src dsts'
  end.

(** [dist_t::distribute] as it handles the message: the pipes that take it
    keep it in the objects [dsts], [failed] pipes do not take it. *)
Definition msg_distribute (st : mstate) (src : nat) (dsts : list nat) (failed : Z) : option mstate :=
  let* m := ms_slots st !! src in
  let matching := Z.of_nat (length dsts) + failed in
  if matching =? 0 then
    let* (st, rc) := msg_close st src in zmq_assert (rc =? 0) ;; Some (msg_init st src)
  else
    match m_body m with
    | BVsm _ =>
        let* st := msg_raw_copies st src dsts in
        let* (st, rc) := msg_close st src in zmq_assert (rc =? 0) ;; Some (msg_init st src)
    | _ =>
        let* st := msg_add_refs st src (matching - 1) in
        let* st := msg_raw_copies st src dsts in
        let* st := if negb (failed =? 0) then let* (st, _) := msg_rm_refs st src failed in Some st else Some st in
        Some (msg_init st src)
    end.

(** ** Counting references *)

Definition b2z (b : bool) : Z := if b then 1 else 0.

Fixpoint mcount (P : msg -> bool) (l : list msg) : Z :=
  match l with [] => 0 | m :: l' => b2z (P m) + mcount P l' end.

Lemma mcount_bounds P l : 0 <= mcount P l <= Z.of_nat (length l).
Proof. induction l as [|m l IH]; cbn [mcount length]; [lia|]. destruct (P m); simpl; lia. Qed.

Lemma mcount_le P Q l : (forall m, P m = true -> Q m = true) -> mcount P l <= mcount Q l.
Proof.
  intros H. induction l as [|m l IH]; cbn [mcount]; [lia|]. specialize (H m).
  destruct (P m); [rewrite H by done; simpl; lia|destruct (Q m); simpl; lia].
Qed.

Lemma mcount_insert P l i x y : l !! i = Some x -> mcount P (<[i := y]> l) = mcount P l - b2z (P x) + b2z (P y).
Proof.
  revert i. induction l as [|m l IH]; intros [|i]; simpl; try done; [intros [= ->]; lia|]. intros Hi. rewrite IH by done. lia.
Qed.

Lemma mcount_pos P l i x : l !! i = Some x -> P x = true -> 1 <= mcount P l.
Proof.
  revert i. induction l as [|m l IH]; intros [|i]; simpl; try done.
  - intros [= ->] ->. simpl. pose proof (mcount_bounds P l). lia.
  - intros Hi Hp. specialize (IH i Hi Hp). destruct (P m); simpl; lia.
Qed.

Lemma mcount_lt P Q l i x : l !! i = Some x -> (forall m, P m = true -> Q m = true) -> Q x = true -> P x = false ->
  mcount P l < mcount Q l.
Proof.
  revert i. induction l as [|m l IH]; intros [|i]; simpl; try done.
  - intros [= ->] H -> ->. simpl. pose proof (mcount_le P Q l H). lia.
  - intros Hi H Hq Hp. specialize (IH i Hi H Hq Hp). specialize (H m). destruct (P m); [rewrite H by done|]; destruct (Q m); simpl; lia.
Qed.

Lemma mcount_zero P l : (forall i m, l !! i = Some m -> P m = false) -> mcount P l = 0.
Proof.
  induction l as [|m l IH]; cbn [mcount]; [done|]. intros H. rewrite (H 0%nat m eq_refl). simpl.
  apply IH. intros i. apply (H (S i)).
Qed.

(** What holds of all objects and of the new one holds after an update. *)
Lemma insert_all (P : msg -> Prop) (l : list msg) (i : nat) x (j : nat) y : <[i := x]> l !! j = Some y ->
  (forall j y, l !! j = Some y -> P y) -> P x -> P y.
Proof.
  intros Hj Hall Hx. destruct (decide (j = i)) as [->|Hne]; [|rewrite list_lookup_insert_ne in Hj by done; by apply (Hall j)].
  apply list_lookup_insert_Some in Hj as [(_ & <- & _)|(? & ?)]; done.
Qed.

(** The content an object refers to. *)
Definition m_content (m : msg) : option Z := let* c := m_pointer m in if c =? null then None else Some c.
(** An object that a failed initialisation has left without content. *)
Definition m_null (m : msg) : bool := bool_decide (m_pointer m = Some null).

Lemma pointer_content m c : m_pointer m = Some c -> m_null m = false -> m_content m = Some c.
Proof.
  unfold m_content, m_null. intros -> Hn. cbn [mbind option_bind]. apply bool_decide_eq_false in Hn.
  rewrite (proj2 (Z.eqb_neq _ _)); congruence.
Qed.

Lemma content_pointer m c : m_content m = Some c -> m_pointer m = Some c /\ c <> null.
Proof.
  unfold m_content. destruct (m_pointer m) as [c'|]; [|done]. cbn [mbind option_bind].
  destruct (c' =? null) eqn:E; [done|]. intros [= ->]. bool_prop. done.
Qed.

(** Objects that refer to a content, to it as a shared one, to metadata. *)
Definition refers (c : Z) (m : msg) : bool := bool_decide (m_content m = Some c).
Definition shares (c : Z) (m : msg) : bool := refers c m && m_shared m.
Definition annotates (md : Z) (m : msg) : bool := bool_decide (m_metadata m = Some md).

(** The user data of the contents that exist. *)
Definition content_user (p : Z * content) : option (Z * Z * Z) :=
  let* f := c_ffn p.2 in Some (f, c_data p.2, c_hint p.2).
Definition live_user (h : gmap Z content) : list (Z * Z * Z) := omap content_user (map_to_list h).

(** ** The invariant

    [owned] are the metadata the engines still refer to, [created] the
    user data handed over so far. *)

Definition content_ok (l : list msg) (h : gmap Z content) (c : Z) : Prop :=
  match h !! c with
  | None => mcount (refers c) l = 0
  | Some ct =>
      (mcount (shares c) l = 0 /\ mcount (refers c) l = 1) \/
      (mcount (shares c) l = mcount (refers c) l /\ 1 <= mcount (refers c) l /\ c_refcnt ct = mcount (refers c) l)
  end.

Definition meta_ok (l : list msg) (h : gmap Z Z) (owned : gset Z) (md : Z) : Prop :=
  match h !! md with
  | None => mcount (annotates md) l = 0 /\ md ∉ owned
  | Some n => n = mcount (annotates md) l + b2z (bool_decide (md ∈ owned)) /\ 1 <= n
  end.

Record minv (owned : gset Z) (created : list (Z * Z * Z)) (st : mstate) : Prop := {
  mi_len : Z.of_nat (length (ms_slots st)) < 2147483648;
  mi_content c : content_ok (ms_slots st) (ms_contents st) c;
  mi_ext i m c ct : ms_slots st !! i = Some m -> m_body m = BZclmsg c -> ms_contents st !! c = Some ct -> is_Some (c_ffn ct);
  mi_meta md : meta_ok (ms_slots st) (ms_metadata st) owned md;
  mi_closed i m : ms_slots st !! i = Some m -> m_check m = false -> m_metadata m = None;
  mi_freed : created ≡ₚ ms_freed st ++ live_user (ms_contents st);
}.

(** A content an object refers to exists. *)
Lemma minv_content owned cr st i m c : minv owned cr st -> ms_slots st !! i = Some m -> m_content m = Some c ->
  exists ct, ms_contents st !! c = Some ct.
Proof.
  intros H Hi Hc. pose proof (mi_content _ _ _ H c) as Hok. unfold content_ok in Hok.
  destruct (ms_contents st !! c) as [ct|]; [by exists ct|].
  pose proof (mcount_pos (refers c) _ i m Hi ltac:(by apply bool_decide_eq_true)). lia.
Qed.

Lemma shares_refers c m : shares c m = true -> refers c m = true.
Proof. unfold shares. by intros [? _]%andb_true_iff. Qed.

(** An object that does not share its content is the only one. *)
Lemma minv_unshared owned cr st i m c : minv owned cr st -> ms_slots st !! i = Some m -> m_content m = Some c ->
  m_shared m = false -> mcount (refers c) (ms_slots st) = 1 /\ mcount (shares c) (ms_slots st) = 0.
Proof.
  intros H Hi Hc Hs. destruct (minv_content _ _ _ _ _ _ H Hi Hc) as [ct Hct].
  pose proof (mi_content _ _ _ H c) as Hok. unfold content_ok in Hok. rewrite Hct in Hok.
  assert (mcount (shares c) (ms_slots st) < mcount (refers c) (ms_slots st)) as Hlt.
  { apply (mcount_lt _ _ _ i m Hi (shares_refers c)); unfold shares, refers; by rewrite Hc, ?Hs, bool_decide_eq_true_2. }
  destruct Hok as [[? ?]|(? & ? & ?)]; lia.
Qed.

(** For an object that shares it, the count is the number of objects. *)
Lemma minv_shared owned cr st i m c ct : minv owned cr st -> ms_slots st !! i = Some m -> m_content m = Some c ->
  m_shared m = true -> ms_contents st !! c = Some ct ->
  mcount (shares c) (ms_slots st) = mcount (refers c) (ms_slots st) /\ 1 <= mcount (refers c) (ms_slots st) /\
  c_refcnt ct = mcount (refers c) (ms_slots st).
Proof.
  intros H Hi Hc Hs Hct. pose proof (mi_content _ _ _ H c) as Hok. unfold content_ok in Hok. rewrite Hct in Hok.
  assert (1 <= mcount (shares c) (ms_slots st)) as Hp.
  { apply (mcount_pos _ _ i m Hi). unfold shares, refers. by rewrite Hc, Hs, bool_decide_eq_true_2. }
  destruct Hok as [[? ?]|?]; [lia|done].
Qed.

Lemma live_user_insert h c ct : h !! c = None ->
  live_user (<[c := ct]> h) ≡ₚ (match content_user (c, ct) with Some u => [u] | None => [] end) ++ live_user h.
Proof.
  intros Hc. unfold live_user. rewrite map_to_list_insert by done. cbn [omap list_omap]. by destruct (content_user (c, ct)).
Qed.

Lemma live_user_delete h c ct : h !! c = Some ct ->
  live_user h ≡ₚ (match content_user (c, ct) with Some u => [u] | None => [] end) ++ live_user (delete c h).
Proof.
  intros Hc. rewrite <- (insert_delete_id h c ct) at 1 by done. rewrite live_user_insert; [done|]. apply lookup_delete_eq.
Qed.

Lemma live_user_refcnt h c ct v : h !! c = Some ct -> live_user (<[c := set_refcnt ct v]> h) ≡ₚ live_user h.
Proof.
  intros Hc. rewrite <- insert_delete_eq. rewrite live_user_insert by apply lookup_delete_eq.
  by rewrite (live_user_delete h c ct Hc).
Qed.

(** ** Giving back references *)

Lemma ac_sub_small v n : 0 <= v - n < 4294967296 -> ac_sub v n = (v - n, negb (v - n =? 0)).
Proof. intros H. unfold ac_sub. by rewrite u32_small. Qed.

Lemma refers_none c m : m_content m = None -> refers c m = false /\ shares c m = false.
Proof. intros E. unfold shares, refers. rewrite E. by rewrite bool_decide_eq_false_2. Qed.

Lemma refers_other c c' m : m_content m = Some c -> c' <> c -> refers c' m = false /\ shares c' m = false.
Proof. intros E Hc. unfold shares, refers. rewrite E. rewrite bool_decide_eq_false_2 by congruence. done. Qed.

Lemma refers_self c m : m_content m = Some c -> refers c m = true /\ shares c m = m_shared m.
Proof. intros E. unfold shares, refers. rewrite E. by rewrite bool_decide_eq_true_2. Qed.

(** The references of one object to content [c] are taken away: what the
    contents must be afterwards. *)
Lemma content_ok_drop l i m m' c h h' : l !! i = Some m -> m_content m = Some c -> m_content m' = None ->
  (forall c', content_ok l h c') -> (forall c', c' <> c -> h' !! c' = h !! c') ->
  (match h' !! c with
   | None => mcount (refers c) l = 1
   | Some ct => 2 <= mcount (refers c) l /\ mcount (shares c) l = mcount (refers c) l /\ m_shared m = true /\
                c_refcnt ct = mcount (refers c) l - 1
   end) ->
  forall c', content_ok (<[i := m']> l) h' c'.
Proof.
  intros Hi Hc Hm' Hok Hh Hcase c'. specialize (Hok c'). unfold content_ok in *.
  rewrite !(mcount_insert _ _ _ _ _ Hi). destruct (refers_none c' m' Hm') as [-> ->]. cbn [b2z].
  destruct (decide (c' = c)) as [->|Hne].
  - destruct (refers_self c m Hc) as [-> ->]. cbn [b2z].
    destruct (h' !! c) as [ct|]; [|lia]. destruct Hcase as (H1 & H2 & H3 & H4). rewrite H3. cbn [b2z]. right. lia.
  - rewrite Hh by done. destruct (refers_other c c' m Hc Hne) as [-> ->]. cbn [b2z].
    destruct (h !! c') as [ct|]; [|lia]. destruct Hok as [[? ?]|(? & ? & ?)]; [left; lia|right; lia].
Qed.

Lemma content_ok_keep l i m m' h : l !! i = Some m -> m_content m' = m_content m ->
  (m_content m <> None -> m_shared m' = m_shared m) ->
  (forall c, content_ok l h c) -> forall c, content_ok (<[i := m']> l) h c.
Proof.
  intros Hi Hc Hs Hok c. specialize (Hok c). unfold content_ok in *. rewrite !(mcount_insert _ _ _ _ _ Hi).
  assert (refers c m' = refers c m /\ shares c m' = shares c m) as [-> ->].
  { unfold shares, refers. rewrite Hc. split; [done|]. destruct (bool_decide_reflect (m_content m = Some c)) as [E|]; [|done].
    rewrite Hs; [done|]. by rewrite E. }
  destruct (h !! c) as [ct|]; [|lia]. destruct Hok as [[? ?]|(? & ? & ?)]; [left; lia|right; lia].
Qed.

(** What closing does to the contents, whatever the object becomes. *)
Definition closes_content (cr : list (Z * Z * Z)) (st : mstate) (i : nat) (st1 : mstate) : Prop :=
  ms_slots st1 = ms_slots st /\ ms_metadata st1 = ms_metadata st /\
  (forall m', m_content m' = None -> forall c, content_ok (<[i := m']> (ms_slots st)) (ms_contents st1) c) /\
  cr ≡ₚ ms_freed st1 ++ live_user (ms_contents st1) /\
  (forall c ct, ms_contents st1 !! c = Some ct ->
     exists ct0, ms_contents st !! c = Some ct0 /\ c_ffn ct = c_ffn ct0 /\ c_bytes ct = c_bytes ct0).

Lemma content_free_spec owned cr st i m c ct : minv owned cr st -> ms_slots st !! i = Some m -> m_content m = Some c ->
  ms_contents st !! c = Some ct -> mcount (refers c) (ms_slots st) = 1 -> closes_content cr st i (content_free st c ct).
Proof.
  intros H Hi Hc Hct Hn. split_and!; try done; cbn [content_free ms_contents ms_freed].
  - intros m' Hm'. apply (content_ok_drop _ i m m' c (ms_contents st)); try done; [apply H| |by rewrite lookup_delete_eq].
    intros c' Hne. by rewrite lookup_delete_ne.
  - rewrite (mi_freed _ _ _ H), (live_user_delete _ c ct Hct). unfold content_user. cbn [fst snd].
    destruct (c_ffn ct) as [f|]; cbn [mbind option_bind app]; [|done]. by rewrite <- app_assoc.
  - intros c' ct'. rewrite lookup_delete. case_decide; [done|]. by exists ct'.
Qed.

Lemma content_sub_spec owned cr st i m c : minv owned cr st -> ms_slots st !! i = Some m -> m_content m = Some c ->
  m_shared m = true -> exists st1 b, content_sub st c 1 = Some (st1, b) /\ closes_content cr st i st1.
Proof.
  intros H Hi Hc Hs. destruct (minv_content _ _ _ _ _ _ H Hi Hc) as [ct Hct].
  destruct (minv_shared _ _ _ _ _ _ _ H Hi Hc Hs Hct) as (H1 & H2 & H3).
  pose proof (mcount_bounds (refers c) (ms_slots st)) as Hb. pose proof (mi_len _ _ _ H) as Hl.
  unfold content_sub. rewrite Hct. cbn [mbind option_bind]. rewrite ac_sub_small by lia.
  destruct (c_refcnt ct - 1 =? 0) eqn:E; cbn [negb]; bool_prop; eexists _, _; (split; [done|]).
  - apply (content_free_spec owned cr st i m); try done. lia.
  - split_and!; try done; cbn [set_contents ms_contents ms_freed].
    + intros m' Hm'. apply (content_ok_drop _ i m m' c (ms_contents st)); try done; [apply H| |].
      * intros c' Hne. by rewrite lookup_insert_ne.
      * rewrite lookup_insert_eq. cbn [set_refcnt c_refcnt]. split_and!; done || lia.
    + rewrite live_user_refcnt by done. apply H.
    + intros c' ct'. rewrite lookup_insert. case_decide; [|by exists ct']. subst. intros [= <-]. by exists ct.
Qed.

Lemma content_close_spec owned cr st i m : minv owned cr st -> ms_slots st !! i = Some m -> m_null m = false ->
  exists st1, content_close st m = Some st1 /\ closes_content cr st i st1.
Proof.
  intros H Hi Hnull. unfold content_close.
  assert (m_content m = None -> closes_content cr st i st) as Hnone.
  { intros Hc. split_and!; try done; [|apply H|by intros c ct; exists ct].
    intros m' Hm'. apply (content_ok_keep _ i m); [done|congruence|congruence|apply H]. }
  assert (forall c, m_pointer m = Some c -> exists ct, ms_contents st !! c = Some ct /\
    exists st1, (if negb (m_shared m) then Some (content_free st c ct)
                 else let* (st, _) := content_sub st c 1 in Some st) = Some st1 /\ closes_content cr st i st1) as Hsome.
  { intros c Hp. pose proof (pointer_content m c Hp Hnull) as Hc.
    destruct (minv_content _ _ _ _ _ _ H Hi Hc) as [ct Hct]. exists ct. split; [done|].
    destruct (m_shared m) eqn:Hs; cbn [negb].
    - destruct (content_sub_spec _ _ _ _ _ _ H Hi Hc Hs) as (st1 & b & -> & Hst1). by exists st1.
    - eexists. split; [done|]. apply (content_free_spec owned cr st i m); try done. by apply (minv_unshared _ _ _ _ _ _ H Hi Hc). }
  destruct (m_body m) as [d|c| |d|c| | |] eqn:Eb;
    try (exists st; split; [done|]; apply Hnone; unfold m_content, m_pointer; by rewrite Eb).
  - destruct (Hsome c) as (ct & -> & Hst); [unfold m_pointer; by rewrite Eb|]. done.
  - destruct (Hsome c) as (ct & Hct & Hst); [unfold m_pointer; by rewrite Eb|]. rewrite Hct. cbn [mbind option_bind].
    by rewrite bool_decide_eq_true_2 by (by apply (mi_ext _ _ _ H i m c ct)).
Qed.

(** The same for metadata. *)
Lemma meta_ok_keep l i m m' h owned : l !! i = Some m -> m_metadata m' = m_metadata m ->
  (forall md, meta_ok l h owned md) -> forall md, meta_ok (<[i := m']> l) h owned md.
Proof.
  intros Hi Hm Hok md. specialize (Hok md). unfold meta_ok in *. rewrite (mcount_insert _ _ _ _ _ Hi).
  assert (annotates md m' = annotates md m) as -> by (unfold annotates; by rewrite Hm).
  destruct (h !! md); [destruct Hok; split; lia|destruct Hok; split; [lia|done]].
Qed.

Lemma metadata_drop_spec owned cr st i m : minv owned cr st -> ms_slots st !! i = Some m -> forall st0,
  ms_slots st0 = ms_slots st -> ms_metadata st0 = ms_metadata st ->
  exists h, match m_metadata m with Some md => metadata_drop_ref st0 md | None => Some st0 end = Some (set_meta st0 h) /\
    forall m', m_metadata m' = None -> forall md, meta_ok (<[i := m']> (ms_slots st)) h owned md.
Proof.
  intros H Hi st0 Hs Hm. destruct (m_metadata m) as [md|] eqn:Em.
  - unfold metadata_drop_ref. rewrite Hm. pose proof (mi_meta _ _ _ H md) as Hok. unfold meta_ok in Hok.
    assert (annotates md m = true) as Ha by (unfold annotates; by rewrite Em, bool_decide_eq_true_2).
    pose proof (mcount_pos _ _ i m Hi Ha) as Hp.
    destruct (ms_metadata st !! md) as [n|] eqn:En; [|destruct Hok; lia]. destruct Hok as [Hn Hn1]. cbn [mbind option_bind].
    pose proof (mcount_bounds (annotates md) (ms_slots st)) as Hb. pose proof (mi_len _ _ _ H) as Hl.
    rewrite ac_sub_small by (destruct (bool_decide (md ∈ owned)); cbn [b2z] in *; lia).
    eexists. split; [done|]. intros m' Hm' md'. unfold meta_ok. rewrite (mcount_insert _ _ _ _ _ Hi).
    assert (annotates md' m' = false) as -> by (unfold annotates; by rewrite Hm', bool_decide_eq_false_2). cbn [b2z].
    destruct (decide (md' = md)) as [->|Hne].
    + rewrite Ha. cbn [b2z]. destruct (n - 1 =? 0) eqn:E; cbn [negb]; bool_prop.
      * rewrite lookup_delete_eq. destruct (bool_decide_reflect (md ∈ owned)); cbn [b2z] in *; split; try done; lia.
      * rewrite lookup_insert_eq. lia.
    + assert (annotates md' m = false) as -> by (unfold annotates; rewrite Em, bool_decide_eq_false_2; congruence). cbn [b2z].
      pose proof (mi_meta _ _ _ H md') as Hok'. unfold meta_ok in Hok'.
      destruct (n - 1 =? 0); cbn [negb]; rewrite ?lookup_delete_ne, ?lookup_insert_ne by done;
        destruct (ms_metadata st !! md'); (destruct Hok'; split; [lia|done]) || (destruct Hok'; split; lia).
  - exists (ms_metadata st). split; [rewrite <- Hm; by destruct st0|]. intros m' Hm'.
    apply (meta_ok_keep _ i m); [done|congruence|apply H].
Qed.

(** ** The operations keep the invariant *)

Definition closed_msg (m : msg) : msg := Msg BInvalid (m_flags m) None (m_group m) (m_routing_id m).

(** The contents that are left hold the bytes they held. *)
Definition contents_sub (h h' : gmap Z content) : Prop :=
  forall c ct, h' !! c = Some ct -> exists ct0, h !! c = Some ct0 /\ c_ffn ct = c_ffn ct0 /\ c_bytes ct = c_bytes ct0.

(** One object is replaced, the contents and metadata follow. *)
Lemma minv_update owned cr st i m m' h hm fr : minv owned cr st -> ms_slots st !! i = Some m ->
  (forall c, content_ok (<[i := m']> (ms_slots st)) h c) -> contents_sub (ms_contents st) h ->
  (forall c ct, m_body m' = BZclmsg c -> h !! c = Some ct -> is_Some (c_ffn ct)) ->
  (forall md, meta_ok (<[i := m']> (ms_slots st)) hm owned md) -> (m_check m' = false -> m_metadata m' = None) ->
  cr ≡ₚ fr ++ live_user h -> minv owned cr (MState (<[i := m']> (ms_slots st)) h hm fr).
Proof.
  intros H Hi Hok Hsub Hext Hmeta Hcl Hfr. constructor; cbn [ms_slots ms_contents ms_metadata ms_freed]; try done.
  - rewrite length_insert. apply H.
  - intros j x c ct Hj. revert c ct. apply (insert_all (fun x => forall c ct, m_body x = BZclmsg c -> h !! c = Some ct -> is_Some (c_ffn ct)) _ _ _ _ _ Hj); [|done].
    intros k y Hk c ct Hb Hc. destruct (Hsub c ct Hc) as (ct0 & Hc0 & -> & _). by apply (mi_ext _ _ _ H k y c).
  - intros j x Hj. apply (insert_all (fun x => m_check x = false -> m_metadata x = None) _ _ _ _ _ Hj); [apply H|done].
Qed.

Lemma msg_close_spec owned cr st i m : minv owned cr st -> ms_slots st !! i = Some m -> m_null m = false ->
  exists st', msg_close st i = Some (st', if m_check m then 0 else -1) /\ minv owned cr st' /\
    ms_slots st' = (if m_check m then <[i := closed_msg m]> (ms_slots st) else ms_slots st) /\
    contents_sub (ms_contents st) (ms_contents st').
Proof.
  intros H Hi Hn. unfold msg_close. rewrite Hi. cbn [mbind option_bind].
  destruct (m_check m) eqn:Ev; cbn [negb]; [|exists st; split_and!; try done; by intros c ct; exists ct].
  destruct (content_close_spec owned cr st i m H Hi Hn) as (st1 & -> & Hs & Hm & Hok & Hfr & Hct). cbn [mbind option_bind].
  destruct (metadata_drop_spec owned cr st i m H Hi st1 Hs Hm) as (h & -> & Hmeta). cbn [mbind option_bind].
  eexists. split; [done|]. cbn [ms_slots ms_contents set_slot set_meta]. rewrite Hs. split_and!; try done.
  unfold set_slot. cbn [ms_slots ms_contents ms_metadata ms_freed set_meta]. rewrite Hs.
  apply (minv_update _ _ _ _ m); try done; [by apply Hok|by apply Hmeta].
Qed.

(** A slot gets a new message that refers to what the old one did. *)
Lemma minv_keep owned cr st i m m' : minv owned cr st -> ms_slots st !! i = Some m -> m_body m' = m_body m ->
  m_metadata m' = m_metadata m -> (m_content m <> None -> m_shared m' = m_shared m) -> minv owned cr (set_slot st i m').
Proof.
  intros H Hi Hb Hm Hs. assert (m_content m' = m_content m) as Hc by (unfold m_content, m_pointer; by rewrite Hb).
  apply (minv_update _ _ _ _ m); try done.
  - by apply (content_ok_keep _ i m); try apply H.
  - by intros c ct; exists ct.
  - rewrite Hb. intros c ct. by apply (mi_ext _ _ _ H i m).
  - apply (meta_ok_keep _ i m); [done|done|apply H].
  - unfold m_check. rewrite Hb, Hm. by apply (mi_closed _ _ _ H i m).
  - apply H.
Qed.

(** An object without content becomes another one. *)
Lemma minv_plain owned cr st i m m' : minv owned cr st -> ms_slots st !! i = Some m -> m_content m = None -> m_metadata m = None ->
  m_content m' = None -> m_metadata m' = None -> (forall c, m_body m' <> BZclmsg c) -> minv owned cr (set_slot st i m').
Proof.
  intros H Hi Hc Hm Hc' Hm' Hb. apply (minv_update _ _ _ _ m); try done.
  - apply (content_ok_keep _ i m); [done|congruence|congruence|apply H].
  - by intros c ct; exists ct.
  - intros c ct Hbc. by apply Hb in Hbc.
  - apply (meta_ok_keep _ i m); [done|congruence|apply H].
  - apply H.
Qed.

(** The address of a new content is not in use. *)
Lemma new_content_spec st : new_content st <> null /\ ms_contents st !! new_content st = None.
Proof.
  pose proof (is_fresh ({[null]} ∪ dom (ms_contents st))) as Hf. fold (new_content st) in Hf.
  split; [set_solver|]. apply not_elem_of_dom. set_solver.
Qed.

Lemma content_lmsg c fl md g r : c <> null -> m_content (Msg (BLmsg c) fl md g r) = Some c.
Proof. intros H. unfold m_content. cbn. by rewrite (proj2 (Z.eqb_neq _ _)). Qed.

Lemma content_zclmsg c fl md g r : c <> null -> m_content (Msg (BZclmsg c) fl md g r) = Some c.
Proof. intros H. unfold m_content. cbn. by rewrite (proj2 (Z.eqb_neq _ _)). Qed.

(** An object without content becomes the only reference to a new content. *)
Lemma minv_new owned cr st i m b c ct : minv owned cr st -> ms_slots st !! i = Some m -> m_content m = None -> m_metadata m = None ->
  c = new_content st -> b = BLmsg c \/ (b = BZclmsg c /\ is_Some (c_ffn ct)) ->
  minv owned (cr ++ match content_user (c, ct) with Some u => [u] | None => [] end)
    (set_slot (set_contents st (<[c := ct]> (ms_contents st))) i (empty_msg b)).
Proof.
  intros H Hi Hc Hm -> Hb. destruct (new_content_spec st) as [Hnn Hf]. set (c := new_content st) in *.
  assert (m_content (empty_msg b) = Some c) as Hbc by (destruct Hb as [-> |[-> _]]; [by apply content_lmsg|by apply content_zclmsg]).
  constructor; cbn [ms_slots ms_contents ms_metadata ms_freed set_slot set_contents].
  - rewrite length_insert. apply H.
  - intros c'. pose proof (mi_content _ _ _ H c') as Hok. unfold content_ok in *. rewrite !(mcount_insert _ _ _ _ _ Hi).
    destruct (refers_none c' m Hc) as [-> ->]. destruct (decide (c' = c)) as [->|Hne].
    + rewrite lookup_insert_eq. rewrite Hf in Hok. destruct (refers_self c _ Hbc) as [-> ->]. cbn [b2z].
      pose proof (mcount_le (shares c) (refers c) (ms_slots st) (shares_refers c)). pose proof (mcount_bounds (shares c) (ms_slots st)).
      left. change (m_shared (empty_msg b)) with false. cbn [b2z]. lia.
    + rewrite lookup_insert_ne by done. destruct (refers_other c c' _ Hbc Hne) as [-> ->]. cbn [b2z].
      destruct (ms_contents st !! c') as [ct'|]; [|lia]. destruct Hok as [[? ?]|(? & ? & ?)]; [left; lia|right; lia].
  - intros j x c' ct' Hj Hx. rewrite lookup_insert. case_decide as E; [intros [= <-]|].
    + destruct Hb as [-> |[-> Hu]]; [|done]. subst c'. apply (insert_all (fun x => m_body x = BZclmsg c -> False) _ _ _ _ _ Hj) in Hx; try done.
      intros k y Hk Hy. assert (exists ct0, ms_contents st !! c = Some ct0) as [? ?]; [|congruence].
      apply (minv_content _ _ _ k y _ H Hk). destruct y as [y0 ? ? ? ?]. simpl in Hy. subst y0. by apply content_zclmsg.
    + revert Hx. apply (insert_all (fun x => m_body x = BZclmsg c' -> ms_contents st !! c' = Some ct' -> is_Some (c_ffn ct')) _ _ _ _ _ Hj).
      * intros k y Hk. by apply (mi_ext _ _ _ H k y).
      * intros Hx. simpl in Hx. destruct Hb as [-> |[-> _]]; congruence.
  - apply (meta_ok_keep _ i m); [done|done|apply H].
  - intros j x Hj. apply (insert_all (fun x => m_check x = false -> m_metadata x = None) _ _ _ _ _ Hj); [apply H|done].
  - rewrite live_user_insert by done. rewrite (mi_freed _ _ _ H). rewrite <- app_assoc. apply Permutation_app_head, Permutation_app_comm.
Qed.

(** ** Copies of an object *)

Fixpoint copies (m : msg) (dsts : list nat) (l : list msg) : list msg :=
  match dsts with [] => l | d :: ds => copies m ds (<[d := m]> l) end.

(** Objects that can be overwritten. *)
Definition plain (l : list msg) (d : nat) : Prop := exists x, l !! d = Some x /\ m_content x = None /\ m_metadata x = None.

Lemma plain_refers l (dsts : list nat) c : (forall d, d ∈ dsts -> plain l d) ->
  (forall d, d ∈ dsts -> exists x, l !! d = Some x /\ refers c x = false) /\
  (forall d, d ∈ dsts -> exists x, l !! d = Some x /\ shares c x = false).
Proof. intros H. split; intros d Hd; destruct (H d Hd) as (x & Hx & Hn & _); exists x; by destruct (refers_none c x Hn). Qed.

Lemma plain_annotates l (dsts : list nat) md : (forall d, d ∈ dsts -> plain l d) ->
  forall d, d ∈ dsts -> exists x, l !! d = Some x /\ annotates md x = false.
Proof. intros H d Hd. destruct (H d Hd) as (x & Hx & _ & Hn). exists x. unfold annotates. by rewrite Hn. Qed.

Lemma plain_insert l d e m : plain l d -> e <> d -> plain (<[e := m]> l) d.
Proof. intros (x & Hx & ?) Hne. exists x. by rewrite list_lookup_insert_ne. Qed.

Lemma copies_length m dsts l : length (copies m dsts l) = length l.
Proof. revert l. induction dsts as [|d ds IH]; intros l; simpl; [done|]. by rewrite IH, length_insert. Qed.

Lemma copies_ne m dsts l j : j ∉ dsts -> copies m dsts l !! j = l !! j.
Proof.
  revert l. induction dsts as [|d ds IH]; intros l; simpl; [done|]. intros [Hne Hj]%not_elem_of_cons.
  by rewrite IH, list_lookup_insert_ne.
Qed.

Lemma copies_eq m dsts l j : j ∈ dsts -> (j < length l)%nat -> copies m dsts l !! j = Some m.
Proof.
  revert l. induction dsts as [|d ds IH]; intros l Hj Hl; simpl; [by apply not_elem_of_nil in Hj|].
  destruct (decide (j ∈ ds)) as [Hin|Hn]; [apply IH; [done|by rewrite length_insert]|].
  apply elem_of_cons in Hj as [->|?]; [|done]. rewrite copies_ne by done. by apply list_lookup_insert_eq.
Qed.

Lemma copies_all (P : msg -> Prop) m dsts l : (forall (j : nat) y, l !! j = Some y -> P y) -> P m ->
  forall (j : nat) y, copies m dsts l !! j = Some y -> P y.
Proof.
  revert l. induction dsts as [|d ds IH]; intros l Hl Hm; simpl; [done|].
  apply IH; [|done]. intros j y Hj. by apply (insert_all P _ _ _ _ _ Hj).
Qed.

Lemma mcount_copies P m dsts l : NoDup dsts -> (forall d, d ∈ dsts -> exists x, l !! d = Some x /\ P x = false) ->
  mcount P (copies m dsts l) = mcount P l + Z.of_nat (length dsts) * b2z (P m).
Proof.
  revert l. induction dsts as [|d ds IH]; intros l Hnd Hx; simpl; [lia|]. apply list.NoDup_cons in Hnd as [Hd Hnd].
  rewrite IH; [|done|].
  - destruct (Hx d) as (x & Hl & Hp); [by left|]. rewrite (mcount_insert _ _ _ _ _ Hl), Hp. cbn [b2z length]. lia.
  - intros e He. destruct (Hx e) as (x & Hl & Hp); [by right|]. exists x. split; [|done].
    rewrite list_lookup_insert_ne; [done|]. intros ->. done.
Qed.

Lemma raw_copies_spec st src dsts m : ms_slots st !! src = Some m -> src ∉ dsts ->
  msg_raw_copies st src dsts = Some (MState (copies m dsts (ms_slots st)) (ms_contents st) (ms_metadata st) (ms_freed st)).
Proof.
  revert st. induction dsts as [|d ds IH]; intros st Hm Hs; simpl; [by destruct st|].
  apply not_elem_of_cons in Hs as [Hne Hs]. unfold msg_raw_copy. rewrite Hm. cbn [mbind option_bind].
  rewrite IH; [done| |done]. cbn [ms_slots set_slot]. by rewrite list_lookup_insert_ne.
Qed.

(** The objects after [dsts] got copies [m'] and [src] became [m'']. *)
Definition spread (m' m'' : msg) (src : nat) (dsts : list nat) (l : list msg) : list msg := <[src := m'']> (copies m' dsts l).

Lemma mcount_spread P m m' m'' src dsts l : l !! src = Some m -> src ∉ dsts -> NoDup dsts ->
  (forall d, d ∈ dsts -> exists x, l !! d = Some x /\ P x = false) ->
  mcount P (spread m' m'' src dsts l) = mcount P l + Z.of_nat (length dsts) * b2z (P m') - b2z (P m) + b2z (P m'').
Proof.
  intros Hm Hs Hnd Hx. unfold spread. rewrite (mcount_insert _ _ _ m); [by rewrite mcount_copies|]. by rewrite copies_ne.
Qed.

Lemma spread_all (P : msg -> Prop) m' m'' src dsts l : (forall (j : nat) y, l !! j = Some y -> P y) -> P m' -> P m'' ->
  forall (j : nat) y, spread m' m'' src dsts l !! j = Some y -> P y.
Proof. intros Hl H1 H2 j y Hj. apply (insert_all P _ _ _ _ _ Hj); [by apply copies_all|done]. Qed.

(** The contents and the metadata follow. *)
Lemma minv_spread owned cr st src dsts m m' m'' h hm : minv owned cr st -> ms_slots st !! src = Some m ->
  m_body m' = m_body m -> (m_metadata m = None -> m_metadata m' = None) -> m'' = m' \/ m'' = empty_msg (BVsm []) ->
  (forall c, content_ok (spread m' m'' src dsts (ms_slots st)) h c) -> contents_sub (ms_contents st) h ->
  live_user h ≡ₚ live_user (ms_contents st) ->
  (forall md, meta_ok (spread m' m'' src dsts (ms_slots st)) hm owned md) ->
  minv owned cr (MState (spread m' m'' src dsts (ms_slots st)) h hm (ms_freed st)).
Proof.
  intros H Hm Hb Hmd Hm'' Hok Hsub Hlive Hmeta. constructor; cbn [ms_slots ms_contents ms_metadata ms_freed]; try done.
  - unfold spread. rewrite length_insert, copies_length. apply H.
  - intros j x c ct Hj Hx Hc. revert Hx. destruct (Hsub c ct Hc) as (ct0 & Hc0 & -> & _).
    assert (m_body m' = BZclmsg c -> is_Some (c_ffn ct0)) as Hm' by (rewrite Hb; intros E; by apply (mi_ext _ _ _ H src m c)).
    apply (spread_all (fun x => m_body x = BZclmsg c -> is_Some (c_ffn ct0)) m' m'' src dsts (ms_slots st)) with (j := j); try done.
    + intros k y Hk Hy. by apply (mi_ext _ _ _ H k y c).
    + destruct Hm'' as [-> | ->]; done.
  - assert (m_check m' = false -> m_metadata m' = None) as Hc.
    { unfold m_check. rewrite Hb. intros E. apply Hmd, (mi_closed _ _ _ H src m); done. }
    apply (spread_all (fun x => m_check x = false -> m_metadata x = None)); [apply H|done|destruct Hm'' as [-> | ->]; done].
  - rewrite Hlive. apply H.
Qed.

(** Shared copies: the count becomes the number of objects. *)
Lemma content_ok_share owned cr st src dsts m m' m'' c ct T : minv owned cr st -> ms_slots st !! src = Some m ->
  src ∉ dsts -> NoDup dsts -> (forall d, d ∈ dsts -> plain (ms_slots st) d) ->
  m_content m = Some c -> ms_contents st !! c = Some ct -> m_content m' = Some c -> m_shared m' = true ->
  m'' = m' \/ m'' = empty_msg (BVsm []) ->
  T = mcount (refers c) (ms_slots st) + Z.of_nat (length dsts) - 1 + b2z (refers c m'') -> 1 <= T ->
  forall c', content_ok (spread m' m'' src dsts (ms_slots st)) (<[c := set_refcnt ct T]> (ms_contents st)) c'.
Proof.
  intros H Hm Hs Hnd Hpl Hc Hct Hc' Hsh Hm'' HT HT1 c'.
  assert (mcount (shares c) (ms_slots st) - b2z (m_shared m) = mcount (refers c) (ms_slots st) - 1) as Hd.
  { destruct (m_shared m) eqn:E; cbn [b2z].
    - destruct (minv_shared _ _ _ _ _ _ _ H Hm Hc E Hct) as (? & ? & ?). lia.
    - destruct (minv_unshared _ _ _ _ _ _ H Hm Hc E). lia. }
  pose proof (mi_content _ _ _ H c') as Hok. unfold content_ok in *.
  rewrite !(mcount_spread _ m) by (done || by apply plain_refers).
  destruct (decide (c' = c)) as [->|Hne].
  - rewrite lookup_insert_eq. destruct (refers_self c m Hc) as [-> ->]. destruct (refers_self c m' Hc') as [-> ->]. rewrite Hsh.
    assert (shares c m'' = refers c m'') as ->.
    { destruct Hm'' as [-> | ->]; [destruct (refers_self c m' Hc') as [-> ->]; done|done]. }
    cbn [b2z set_refcnt c_refcnt]. right. lia.
  - rewrite lookup_insert_ne by done. destruct (refers_other c c' m Hc Hne) as [-> ->]. destruct (refers_other c c' m' Hc' Hne) as [-> ->].
    assert (refers c' m'' = false /\ shares c' m'' = false) as [-> ->].
    { destruct Hm'' as [-> | ->]; [by apply (refers_other c)|by apply refers_none]. }
    cbn [b2z]. destruct (ms_contents st !! c') as [ct'|]; [|lia]. destruct Hok as [[? ?]|(? & ? & ?)]; [left; lia|right; lia].
Qed.

Lemma contents_sub_refcnt h c ct v : h !! c = Some ct -> contents_sub h (<[c := set_refcnt ct v]> h).
Proof. intros Hc c' ct'. rewrite lookup_insert. case_decide; [subst; intros [= <-]; by exists ct|by exists ct']. Qed.

Lemma contents_sub_refl h : contents_sub h h.
Proof. intros c ct. by exists ct. Qed.

(** Without content the contents stay as they are, as they do when the
    object moves. *)
Lemma content_ok_spread owned cr st src dsts m m' m'' : minv owned cr st -> ms_slots st !! src = Some m ->
  src ∉ dsts -> NoDup dsts -> (forall d, d ∈ dsts -> plain (ms_slots st) d) -> m' = m ->
  (m_content m = None /\ (m'' = m' \/ m'' = empty_msg (BVsm []))) \/ (m'' = empty_msg (BVsm []) /\ length dsts = 1%nat) ->
  forall c, content_ok (spread m' m'' src dsts (ms_slots st)) (ms_contents st) c.
Proof.
  intros H Hm Hs Hnd Hpl -> Hcase c. pose proof (mi_content _ _ _ H c) as Hok. unfold content_ok in *.
  rewrite !(mcount_spread _ m) by (done || by apply plain_refers).
  destruct Hcase as [[Hc Hm'']|[-> ->]].
  - destruct (refers_none c m Hc) as [-> ->].
    assert (refers c m'' = false /\ shares c m'' = false) as [-> ->] by (destruct Hm'' as [-> | ->]; by apply refers_none).
    cbn [b2z]. rewrite !Z.mul_0_r, !Z.sub_0_r, !Z.add_0_r. done.
  - destruct (refers_none c (empty_msg (BVsm [])) eq_refl) as [-> ->]. cbn [b2z].
    replace (mcount (refers c) (ms_slots st) + Z.of_nat 1 * b2z (refers c m) - b2z (refers c m) + 0) with (mcount (refers c) (ms_slots st)) by lia.
    by replace (mcount (shares c) (ms_slots st) + Z.of_nat 1 * b2z (shares c m) - b2z (shares c m) + 0) with (mcount (shares c) (ms_slots st)) by lia.
Qed.

Lemma meta_ok_spread owned cr st src dsts m m' m'' hm : minv owned cr st -> ms_slots st !! src = Some m ->
  src ∉ dsts -> NoDup dsts -> (forall d, d ∈ dsts -> plain (ms_slots st) d) -> m_metadata m' = m_metadata m ->
  (forall md', m_metadata m <> Some md' -> hm !! md' = ms_metadata st !! md') ->
  m_metadata m'' = m_metadata m' \/ m_metadata m'' = None ->
  (forall md n, m_metadata m = Some md -> ms_metadata st !! md = Some n ->
     hm !! md = Some (n + Z.of_nat (length dsts) - 1 + b2z (annotates md m'')) /\ 1 <= Z.of_nat (length dsts)) ->
  forall md, meta_ok (spread m' m'' src dsts (ms_slots st)) hm owned md.
Proof.
  intros H Hm Hs Hnd Hpl Hmm Hne Hm'' Hn md. pose proof (mi_meta _ _ _ H md) as Hok. unfold meta_ok in *.
  rewrite (mcount_spread _ m) by (done || by apply plain_annotates).
  destruct (decide (m_metadata m = Some md)) as [E|E].
  - assert (annotates md m = true) as Ha by (unfold annotates; by rewrite bool_decide_eq_true_2).
    pose proof (mcount_pos _ _ _ _ Hm Ha). destruct (ms_metadata st !! md) as [n|] eqn:En; [|lia].
    destruct (Hn md n E En) as [-> ?]. rewrite Ha.
    replace (annotates md m') with true by (unfold annotates; by rewrite Hmm, bool_decide_eq_true_2). cbn [b2z].
    destruct (annotates md m''); cbn [b2z]; lia.
  - rewrite Hne by done. assert (annotates md m = false) as Ha by (unfold annotates; by rewrite bool_decide_eq_false_2).
    replace (annotates md m') with false by (unfold annotates; by rewrite Hmm, bool_decide_eq_false_2).
    replace (annotates md m'') with false by (unfold annotates; destruct Hm'' as [-> | ->]; rewrite ?Hmm; by rewrite bool_decide_eq_false_2).
    rewrite Ha. cbn [b2z]. rewrite Z.mul_0_r, Z.sub_0_r, !Z.add_0_r. done.
Qed.

(** ** Moving and copying *)

Lemma closed_plain owned cr st d x : minv owned cr st -> ms_slots st !! d = Some x -> m_check x = false -> plain (ms_slots st) d.
Proof.
  intros H Hd Hx. exists x. split_and!; [done| |by apply (mi_closed _ _ _ H d)].
  unfold m_content, m_pointer, m_check in *. by destruct (m_body x).
Qed.

(** An object moves to another place. *)
Lemma minv_moved owned cr st src d m : minv owned cr st -> ms_slots st !! src = Some m -> src <> d -> plain (ms_slots st) d ->
  minv owned cr (MState (spread m (empty_msg (BVsm [])) src [d] (ms_slots st)) (ms_contents st) (ms_metadata st) (ms_freed st)).
Proof.
  intros H Hm Hne Hpl. assert (src ∉ [d]) as Hs by (by intros ->%list_elem_of_singleton).
  assert (forall e, e ∈ [d] -> plain (ms_slots st) e) as Hpl' by (by intros e ->%list_elem_of_singleton).
  apply (minv_spread _ _ _ _ _ m); try done; auto.
  - apply (content_ok_spread _ _ _ _ _ m _ _ H Hm Hs); auto. apply NoDup_singleton.
  - apply contents_sub_refl.
  - apply (meta_ok_spread _ _ _ _ _ m _ _ _ H Hm Hs); auto; [apply NoDup_singleton|].
    intros md n _ En. change (annotates md (empty_msg (BVsm []))) with false. cbn [b2z length]. rewrite En. split; [f_equal; lia|lia].
Qed.

Lemma msg_move_spec owned cr st dst src m x : minv owned cr st -> ms_slots st !! src = Some m -> ms_slots st !! dst = Some x ->
  m_null m = false -> m_null x = false ->
  exists st' rc, msg_move st dst src = Some (st', rc) /\ minv owned cr st'.
Proof.
  intros H Hm Hx Hnm Hnx. unfold msg_move. rewrite Hm. cbn [mbind option_bind].
  destruct (m_check m) eqn:Em; cbn [negb]; [|by exists st, (-1)].
  destruct (msg_close_spec _ _ _ _ _ H Hx Hnx) as (st1 & -> & H1 & Hs1 & _). cbn [mbind option_bind].
  destruct (m_check x) eqn:Ex; simpl; [|by exists st1, (-1)].
  assert (ms_slots st1 !! dst = Some (closed_msg x)) as Hd1 by (rewrite Hs1; apply list_lookup_insert_eq; by eapply lookup_lt_Some).
  pose proof (closed_plain _ _ _ _ _ H1 Hd1 eq_refl) as Hpl.
  destruct (decide (src = dst)) as [->|Hne].
  - rewrite Hd1. cbn [mbind option_bind]. eexists _, _. split; [done|]. unfold msg_init.
    apply (minv_plain _ _ _ _ (closed_msg x)); try done; [apply (minv_plain _ _ _ _ (closed_msg x)); try done|].
    cbn [ms_slots set_slot]. apply list_lookup_insert_eq. by eapply lookup_lt_Some.
  - assert (ms_slots st1 !! src = Some m) as Hm1 by (rewrite Hs1, list_lookup_insert_ne; done).
    rewrite Hm1. cbn [mbind option_bind]. eexists _, _. split; [done|].
    apply (minv_moved _ _ _ src dst m H1 Hm1 Hne Hpl).
Qed.

(** Metadata gets one more reference. *)
Lemma metadata_add_spec owned cr st src m : minv owned cr st -> ms_slots st !! src = Some m -> forall st0,
  ms_metadata st0 = ms_metadata st ->
  exists hm, match m_metadata m with Some md => metadata_add_ref st0 md | None => Some st0 end = Some (set_meta st0 hm) /\
    (forall md', m_metadata m <> Some md' -> hm !! md' = ms_metadata st !! md') /\
    (forall md n, m_metadata m = Some md -> ms_metadata st !! md = Some n -> hm !! md = Some (n + 1)).
Proof.
  intros H Hm st0 H0. destruct (m_metadata m) as [md|] eqn:E.
  - pose proof (mi_meta _ _ _ H md) as Hok. unfold meta_ok in Hok. unfold metadata_add_ref. rewrite H0.
    assert (annotates md m = true) as Ha by (unfold annotates; by rewrite E, bool_decide_eq_true_2).
    pose proof (mcount_pos _ _ _ _ Hm Ha). pose proof (mcount_bounds (annotates md) (ms_slots st)). pose proof (mi_len _ _ _ H).
    destruct (ms_metadata st !! md) as [n|] eqn:En; [|lia]. cbn [mbind option_bind]. eexists. split; [done|]. split.
    + intros md' Hne. rewrite lookup_insert_ne; [done|congruence].
    + intros md' n' [= <-] En'. rewrite lookup_insert_eq. f_equal. unfold ac_add.
      assert (n' = n) as -> by congruence. apply u32_small.
      destruct (bool_decide (md ∈ owned)); cbn [b2z] in *; unfold is_u32; lia.
  - exists (ms_metadata st). split; [rewrite <- H0; by destruct st0|]. done.
Qed.

Definition share_flag (m : msg) : msg := Msg (m_body m) (Z.lor (m_flags m) flag_shared) (m_metadata m) (m_group m) (m_routing_id m).

Lemma share_flag_shared m : m_shared (share_flag m) = true.
Proof.
  unfold m_shared, share_flag. cbn [m_flags]. rewrite Z.land_lor_distr_l, Z.land_diag.
  destruct (Z.lor (Z.land (m_flags m) flag_shared) flag_shared =? 0) eqn:E; [|done]. bool_prop. apply Z.lor_eq_0_iff in E as [_ E]. done.
Qed.

Lemma share_flag_content m : m_content (share_flag m) = m_content m.
Proof. done. Qed.

(** The count of a shared content can grow by as many objects as there are. *)
Lemma refcnt_bounds owned cr st src m c ct : minv owned cr st -> ms_slots st !! src = Some m -> m_content m = Some c ->
  m_shared m = true -> ms_contents st !! c = Some ct ->
  c_refcnt ct = mcount (refers c) (ms_slots st) /\ 1 <= c_refcnt ct < 2147483648.
Proof.
  intros H Hm Hc Hs Hct. destruct (minv_shared _ _ _ _ _ _ _ H Hm Hc Hs Hct) as (_ & H1 & H2).
  pose proof (mcount_bounds (refers c) (ms_slots st)). pose proof (mi_len _ _ _ H). lia.
Qed.

(** The source of a copy, its content counted once more. *)
Lemma minv_copied owned cr st src d m m' hc hm : minv owned cr st -> ms_slots st !! src = Some m -> src <> d ->
  plain (ms_slots st) d -> m_metadata m' = m_metadata m -> m_body m' = m_body m ->
  (m_content m = None /\ m' = m /\ hc = ms_contents st \/
   exists c ct, m_content m = Some c /\ m_shared m' = true /\ ms_contents st !! c = Some ct /\
     hc = <[c := set_refcnt ct (mcount (refers c) (ms_slots st) + 1)]> (ms_contents st)) ->
  (forall md', m_metadata m <> Some md' -> hm !! md' = ms_metadata st !! md') ->
  (forall md n, m_metadata m = Some md -> ms_metadata st !! md = Some n -> hm !! md = Some (n + 1)) ->
  minv owned cr (MState (spread m' m' src [d] (ms_slots st)) hc hm (ms_freed st)).
Proof.
  intros H Hm Hne Hpl Hmd Hb Hcase Hm1 Hm2. assert (src ∉ [d]) as Hs by (by intros ->%list_elem_of_singleton).
  assert (forall e, e ∈ [d] -> plain (ms_slots st) e) as Hpl' by (by intros e ->%list_elem_of_singleton).
  assert (forall md, meta_ok (spread m' m' src [d] (ms_slots st)) hm owned md) as Hmeta.
  { apply (meta_ok_spread _ _ _ _ _ m _ _ _ H Hm Hs); auto; [apply NoDup_singleton|].
    intros md n E En. rewrite (Hm2 md n E En). assert (annotates md m' = true) as -> by (unfold annotates; by rewrite Hmd, E, bool_decide_eq_true_2).
    cbn [b2z length]. split; [f_equal; lia|lia]. }
  assert (m_metadata m = None -> m_metadata m' = None) by congruence.
  destruct Hcase as [(Hc & -> & ->)|(c & ct & Hc & Hsh & Hct & ->)].
  - apply (minv_spread _ _ _ _ _ m); try done; auto using contents_sub_refl.
    apply (content_ok_spread _ _ _ _ _ m _ _ H Hm Hs); auto. apply NoDup_singleton.
  - assert (m_content m' = Some c) as Hc' by (rewrite <- Hc; unfold m_content, m_pointer; by rewrite Hb).
    apply (minv_spread _ _ _ _ _ m); try done; auto using contents_sub_refcnt, live_user_refcnt.
    apply (content_ok_share _ _ _ _ _ m _ _ _ _ _ H Hm Hs); auto; [apply NoDup_singleton| |].
    + destruct (refers_self c m' Hc') as [-> _]. cbn [b2z length]. lia.
    + pose proof (mcount_bounds (refers c) (ms_slots st)). lia.
Qed.

Lemma spread_one m' m'' src d l : src <> d -> spread m' m'' src [d] l = <[d := m']> (<[src := m'']> l).
Proof. intros Hne. unfold spread. simpl. by apply list_insert_insert_ne. Qed.

(** What a copy is: the same message, a content marked as shared. *)
Definition copy_of (m : msg) : msg := match m_pointer m with Some _ => share_flag m | None => m end.

Lemma shared_lor m : m_shared m = true -> Z.lor (m_flags m) flag_shared = m_flags m.
Proof.
  unfold m_shared, flag_shared. intros Hs. apply negb_true_iff, Z.eqb_neq in Hs. change 128 with (2 ^ 7) in *.
  apply Z.bits_inj'. intros n Hn. rewrite Z.lor_spec, Z.pow2_bits_eqb by lia.
  destruct (Z.eqb_spec 7 n) as [<-|]; [|by rewrite orb_false_r]. rewrite orb_true_r. symmetry.
  destruct (Z.testbit (m_flags m) 7) eqn:E; [done|]. exfalso. apply Hs. apply Z.bits_inj'. intros k Hk.
  rewrite Z.land_spec, Z.pow2_bits_eqb, Z.bits_0 by lia. destruct (Z.eqb_spec 7 k) as [<-|]; [by rewrite E|by rewrite andb_false_r].
Qed.

Lemma share_flag_id m : m_shared m = true -> share_flag m = m.
Proof. intros Hs. unfold share_flag. rewrite (shared_lor m Hs). by destruct m. Qed.

Lemma contents_sub_trans h1 h2 h3 : contents_sub h1 h2 -> contents_sub h2 h3 -> contents_sub h1 h3.
Proof. intros H1 H2 c ct Hc. destruct (H2 c ct Hc) as (ct2 & Hc2 & -> & ->). apply (H1 c ct2 Hc2). Qed.

(** The part of [copy] that shares the content. *)
Lemma copy_share owned cr st src m : minv owned cr st -> ms_slots st !! src = Some m -> m_null m = false -> exists hc,
  (match m_pointer m with
   | None => Some (st, m)
   | Some c =>
       let* ct := ms_contents st !! c in
       if m_shared m then Some (set_contents st (<[c := set_refcnt ct (ac_add (c_refcnt ct) 1)]> (ms_contents st)), m)
       else Some (set_contents (set_slot st src (share_flag m)) (<[c := set_refcnt ct initial_shared_refcnt]> (ms_contents st)), share_flag m)
   end) = Some (set_contents (set_slot st src (copy_of m)) hc, copy_of m) /\ contents_sub (ms_contents st) hc /\
  (m_content m = None /\ copy_of m = m /\ hc = ms_contents st \/
   exists c ct, m_content m = Some c /\ m_shared (copy_of m) = true /\ ms_contents st !! c = Some ct /\
     hc = <[c := set_refcnt ct (mcount (refers c) (ms_slots st) + 1)]> (ms_contents st)).
Proof.
  intros H Hm Hn. unfold copy_of. assert (set_slot st src m = st) as Hid.
  { unfold set_slot. rewrite list_insert_id by done. by destruct st. }
  destruct (m_pointer m) as [c|] eqn:Ep.
  - pose proof (pointer_content m c Ep Hn) as Hc. destruct (minv_content _ _ _ _ _ _ H Hm Hc) as [ct Hct].
    rewrite Hct. cbn [mbind option_bind]. exists (<[c := set_refcnt ct (mcount (refers c) (ms_slots st) + 1)]> (ms_contents st)).
    split_and!; [|by apply contents_sub_refcnt|right; exists c, ct; split_and!; try done; apply share_flag_shared].
    destruct (m_shared m) eqn:Es.
    + destruct (refcnt_bounds _ _ _ _ _ _ _ H Hm Hc Es Hct) as [Hr Hb]. rewrite share_flag_id, Hid by done.
      unfold ac_add. rewrite u32_small by (unfold is_u32; lia). by rewrite Hr.
    + destruct (minv_unshared _ _ _ _ _ _ H Hm Hc Es) as [-> _]. done.
  - exists (ms_contents st). rewrite Hid. split_and!; [by destruct st|apply contents_sub_refl|].
    left. unfold m_content. by rewrite Ep.
Qed.

Lemma msg_copy_spec owned cr st dst src m x : minv owned cr st -> ms_slots st !! src = Some m -> ms_slots st !! dst = Some x ->
  m_null m = false -> m_null x = false -> m_check m = true -> m_check x = true -> src <> dst ->
  exists st', msg_copy st dst src = Some (st', 0) /\ minv owned cr st' /\
    ms_slots st' = <[dst := copy_of m]> (<[src := copy_of m]> (ms_slots st)) /\ contents_sub (ms_contents st) (ms_contents st').
Proof.
  intros H Hm Hx Hnm Hnx Em Ex Hne. unfold msg_copy. rewrite Hm. cbn [mbind option_bind]. rewrite Em. cbn [negb].
  destruct (msg_close_spec _ _ _ _ _ H Hx Hnx) as (st1 & -> & H1 & Hs1 & Hsub1). cbn [mbind option_bind].
  rewrite Ex in *. simpl. assert (ms_slots st1 !! dst = Some (closed_msg x)) as Hd1.
  { rewrite Hs1. apply list_lookup_insert_eq. by eapply lookup_lt_Some. }
  pose proof (closed_plain _ _ _ _ _ H1 Hd1 eq_refl) as Hpl.
  assert (ms_slots st1 !! src = Some m) as Hm1 by (rewrite Hs1, list_lookup_insert_ne; done).
  rewrite Hm1. cbn [mbind option_bind]. destruct (copy_share _ _ _ _ _ H1 Hm1 Hnm) as (hc & Hsh & Hsub & Hcase).
  unfold share_flag in Hsh at 1 2. rewrite Hsh. cbn [mbind option_bind].
  replace (m_metadata (copy_of m)) with (m_metadata m) by (unfold copy_of; by destruct (m_pointer m)).
  destruct (metadata_add_spec _ _ _ _ _ H1 Hm1 (set_contents (set_slot st1 src (copy_of m)) hc) eq_refl) as (hm & -> & Hm2 & Hm3).
  cbn [mbind option_bind]. eexists. split; [done|]. unfold set_slot, set_contents, set_meta. cbn [ms_slots ms_contents ms_metadata ms_freed].
  split_and!.
  - rewrite <- spread_one by done. apply (minv_copied _ _ _ _ _ m); try done; unfold copy_of; by destruct (m_pointer m).
  - rewrite Hs1. rewrite (list_insert_insert_ne _ _ dst) by done. by rewrite list_insert_insert_eq.
  - by apply (contents_sub_trans _ (ms_contents st1)).
Qed.

(** ** Distribution *)

Lemma copies_insert m y src dsts l : src ∉ dsts -> copies m dsts (<[src := y]> l) = <[src := y]> (copies m dsts l).
Proof.
  revert l. induction dsts as [|d ds IH]; intros l; simpl; [done|]. intros [Hne Hs]%not_elem_of_cons.
  by rewrite list_insert_insert_ne, IH by done.
Qed.

Lemma close_then_init owned cr st i m : minv owned cr st -> ms_slots st !! i = Some m -> m_null m = false -> m_check m = true ->
  exists st1, msg_close st i = Some (st1, 0) /\ minv owned cr (msg_init st1 i).
Proof.
  intros H Hi Hn Hv. destruct (msg_close_spec _ _ _ _ _ H Hi Hn) as (st1 & Hst1 & H1 & Hs1 & _). rewrite Hv in *.
  exists st1. split; [done|]. apply (minv_plain _ _ _ _ (closed_msg m)); try done. rewrite Hs1. apply list_lookup_insert_eq. by eapply lookup_lt_Some.
Qed.

(** Copies of an object that has no content and no metadata. *)
Lemma minv_copies owned cr st src dsts m : minv owned cr st -> ms_slots st !! src = Some m -> src ∉ dsts -> NoDup dsts ->
  (forall d, d ∈ dsts -> plain (ms_slots st) d) -> m_content m = None -> m_metadata m = None ->
  minv owned cr (MState (copies m dsts (ms_slots st)) (ms_contents st) (ms_metadata st) (ms_freed st)).
Proof.
  intros H Hm Hs Hnd Hpl Hc Hmd. replace (copies m dsts (ms_slots st)) with (spread m m src dsts (ms_slots st)).
  - apply (minv_spread _ _ _ _ _ m); try done; auto using contents_sub_refl.
    + apply (content_ok_spread _ _ _ _ _ m _ _ H Hm Hs); auto.
    + apply (meta_ok_spread _ _ _ _ _ m _ _ _ H Hm Hs); auto. intros md n E. congruence.
  - unfold spread. apply list_insert_id. by rewrite copies_ne.
Qed.

(** A shared content with [n] more objects and one less: the count that is
    left when all references of the distribution are used. *)
Lemma minv_distributed owned cr st src dsts m c ct : minv owned cr st -> ms_slots st !! src = Some m -> src ∉ dsts -> NoDup dsts ->
  (forall d, d ∈ dsts -> plain (ms_slots st) d) -> m_content m = Some c -> m_metadata m = None -> ms_contents st !! c = Some ct ->
  let T := mcount (refers c) (ms_slots st) + Z.of_nat (length dsts) - 1 in 1 <= T ->
  minv owned cr (MState (spread (share_flag m) (empty_msg (BVsm [])) src dsts (ms_slots st))
                   (<[c := set_refcnt ct T]> (ms_contents st)) (ms_metadata st) (ms_freed st)).
Proof.
  intros H Hm Hs Hnd Hpl Hc Hmd Hct T HT.
  apply (minv_spread _ _ _ _ _ m); try done; auto using contents_sub_refcnt, live_user_refcnt.
  - apply (content_ok_share _ _ _ _ _ m _ _ _ _ _ H Hm Hs); auto using share_flag_shared.
    change (refers c (empty_msg (BVsm []))) with false. cbn [b2z]. lia.
  - apply (meta_ok_spread _ _ _ _ _ m _ _ _ H Hm Hs); auto. intros md n E. congruence.
Qed.

Lemma minv_last_freed owned cr st src m c ct : minv owned cr st -> ms_slots st !! src = Some m -> m_content m = Some c ->
  m_metadata m = None -> ms_contents st !! c = Some ct -> mcount (refers c) (ms_slots st) = 1 ->
  minv owned cr (set_slot (content_free st c ct) src (empty_msg (BVsm []))).
Proof.
  intros H Hm Hc Hmd Hct Hr. destruct (content_free_spec _ _ _ _ _ _ _ H Hm Hc Hct Hr) as (Hs & Hmt & Hok & Hfr & Hsub).
  unfold set_slot. rewrite Hs. apply (minv_update _ _ _ _ m); try done; [by apply Hok|].
  rewrite Hmt. apply (meta_ok_keep _ src m); [done|by rewrite Hmd|apply H].
Qed.

Lemma add_refs_shared owned cr st src m c ct refs : minv owned cr st -> ms_slots st !! src = Some m -> m_null m = false ->
  m_metadata m = None -> m_content m = Some c -> ms_contents st !! c = Some ct -> 1 <= refs < 2147483648 ->
  msg_add_refs st src refs =
    Some (MState (<[src := share_flag m]> (ms_slots st))
            (<[c := set_refcnt ct (mcount (refers c) (ms_slots st) + refs)]> (ms_contents st)) (ms_metadata st) (ms_freed st)).
Proof.
  intros H Hm Hn Hmd Hc Hct Hr. unfold msg_add_refs. rewrite Hm. cbn [mbind option_bind].
  rewrite (proj2 (Z.leb_le 0 refs)) by lia. rewrite bool_decide_eq_true_2 by done. rewrite (proj2 (Z.eqb_neq refs 0)) by lia.
  destruct (content_pointer m c Hc) as [-> _]. rewrite Hct. cbn [mbind option_bind]. destruct (m_shared m) eqn:Es.
  - destruct (refcnt_bounds _ _ _ _ _ _ _ H Hm Hc Es Hct) as [Hrc Hb]. unfold ac_add. rewrite u32_small by (unfold is_u32; lia).
    rewrite share_flag_id, list_insert_id by done. by rewrite Hrc.
  - destruct (minv_unshared _ _ _ _ _ _ H Hm Hc Es) as [-> _]. rewrite u32_small by (unfold is_u32; lia).
    unfold set_slot, set_contents. cbn [ms_slots ms_contents ms_metadata ms_freed]. by rewrite (Z.add_comm 1).
Qed.

Lemma rm_refs_shared st src m c ct refs : ms_slots st !! src = Some m -> m_pointer m = Some c -> m_shared m = true ->
  m_metadata m = None -> ms_contents st !! c = Some ct -> 1 <= refs -> is_u32 (c_refcnt ct - refs) ->
  msg_rm_refs st src refs =
    Some (if c_refcnt ct - refs =? 0 then (content_free st c ct, false)
          else (set_contents st (<[c := set_refcnt ct (c_refcnt ct - refs)]> (ms_contents st)), true)).
Proof.
  intros Hm Hp Hs Hmd Hct Hr Hu. unfold msg_rm_refs. rewrite Hm. cbn [mbind option_bind].
  rewrite (proj2 (Z.leb_le 0 refs)) by lia. rewrite bool_decide_eq_true_2 by done. rewrite (proj2 (Z.eqb_neq refs 0)) by lia.
  rewrite Hp, Hs. cbn [negb]. unfold content_sub. rewrite Hct. cbn [mbind option_bind]. rewrite ac_sub_small by done.
  by destruct (c_refcnt ct - refs =? 0).
Qed.

Definition drop_failed (st : mstate) (src : nat) (failed : Z) : option mstate :=
  if negb (failed =? 0) then let* (st, _) := msg_rm_refs st src failed in Some st else Some st.

(** References for more than one pipe. *)
Lemma distribute_shared owned cr st src dsts failed m c : minv owned cr st -> ms_slots st !! src = Some m -> m_null m = false ->
  m_metadata m = None -> m_content m = Some c -> src ∉ dsts -> NoDup dsts -> (forall d, d ∈ dsts -> plain (ms_slots st) d) ->
  0 <= failed -> 2 <= Z.of_nat (length dsts) + failed < 2147483648 ->
  exists st', (let* st := msg_add_refs st src (Z.of_nat (length dsts) + failed - 1) in
               let* st := msg_raw_copies st src dsts in
               let* st := drop_failed st src failed in Some (msg_init st src)) = Some st' /\ minv owned cr st'.
Proof.
  intros H Hm Hn Hmd Hc Hs Hnd Hpl Hf Hk. destruct (minv_content _ _ _ _ _ _ H Hm Hc) as [ct Hct].
  assert (src < length (ms_slots st))%nat as Hlt by (by eapply lookup_lt_Some).
  rewrite (add_refs_shared _ _ _ _ _ _ _ _ H Hm Hn Hmd Hc Hct) by lia. cbn [mbind option_bind].
  rewrite (raw_copies_spec _ _ _ (share_flag m)); [|cbn [ms_slots]; by apply list_lookup_insert_eq|done].
  cbn [mbind option_bind ms_slots ms_contents ms_metadata ms_freed]. set (R := mcount (refers c) (ms_slots st)).
  assert (1 <= R < 2147483648) as HR.
  { pose proof (mcount_pos (refers c) _ _ _ Hm (proj1 (refers_self c m Hc))). pose proof (mcount_bounds (refers c) (ms_slots st)).
    pose proof (mi_len _ _ _ H). subst R. lia. }
  pose proof (minv_distributed _ _ _ _ _ _ _ _ H Hm Hs Hnd Hpl Hc Hmd Hct) as HT. cbn zeta in HT. fold R in HT.
  rewrite copies_insert by done. unfold drop_failed. destruct (failed =? 0) eqn:E0; cbn [negb]; bool_prop.
  - cbn [mbind option_bind]. eexists. split; [done|]. unfold msg_init, set_slot. cbn [ms_slots ms_contents ms_metadata ms_freed].
    rewrite list_insert_insert_eq. replace (R + (Z.of_nat (length dsts) + failed - 1)) with (R + Z.of_nat (length dsts) - 1) by lia.
    apply HT. lia.
  - rewrite (rm_refs_shared _ src (share_flag m) c (set_refcnt ct (R + (Z.of_nat (length dsts) + failed - 1))));
      cbn [ms_slots ms_contents set_refcnt c_refcnt]; try done; try lia; [| | |apply share_flag_shared| |unfold is_u32; lia].
    + replace (R + (Z.of_nat (length dsts) + failed - 1) - failed) with (R + Z.of_nat (length dsts) - 1) by lia.
      destruct (R + Z.of_nat (length dsts) - 1 =? 0) eqn:ET; cbn [mbind option_bind]; bool_prop; eexists; (split; [done|]);
        unfold msg_init, set_slot, set_contents, content_free; cbn [ms_slots ms_contents ms_metadata ms_freed];
        rewrite list_insert_insert_eq.
      * assert (length dsts = 0%nat) as Hd0 by lia. apply length_zero_iff_nil in Hd0. subst dsts. simpl.
        rewrite delete_insert_eq. apply (minv_last_freed _ _ _ _ _ _ _ H Hm Hc Hmd Hct). fold R. simpl in ET. lia.
      * rewrite insert_insert_eq. apply HT. lia.
    + apply list_lookup_insert_eq. by rewrite copies_length.
    + by apply content_pointer.
    + by rewrite lookup_insert_eq.
Qed.

Lemma add_refs_none st src m refs : ms_slots st !! src = Some m -> m_metadata m = None -> 0 <= refs ->
  refs = 0 \/ m_pointer m = None -> msg_add_refs st src refs = Some st.
Proof.
  intros Hm Hmd Hr Hc. unfold msg_add_refs. rewrite Hm. cbn [mbind option_bind].
  rewrite (proj2 (Z.leb_le 0 refs)) by lia. rewrite bool_decide_eq_true_2 by done.
  destruct Hc as [-> | ->]; [done|]. by destruct (refs =? 0).
Qed.

Lemma null_pointer m : m_null m = false -> m_content m = None -> m_pointer m = None.
Proof.
  intros Hn Hc. destruct (m_pointer m) as [c|] eqn:E; [|done]. pose proof (pointer_content m c E Hn). congruence.
Qed.

(** A reference that no pipe took is given back. *)
Lemma drop_failed_last owned cr st src m failed : minv owned cr st -> ms_slots st !! src = Some m -> m_null m = false ->
  m_check m = true -> m_metadata m = None -> 0 <= failed -> m_content m = None \/ failed = 1 ->
  (failed = 0 -> m_content m = None) ->
  exists st1, drop_failed st src failed = Some st1 /\ minv owned cr (msg_init st1 src).
Proof.
  intros H Hm Hn Hv Hmd Hf Hcase H0. unfold drop_failed. destruct (failed =? 0) eqn:E; cbn [negb]; bool_prop.
  - exists st. split; [done|]. apply (minv_plain _ _ _ _ m); auto.
  - destruct (close_then_init _ _ _ _ _ H Hm Hn Hv) as (st1 & Hcl & H1).
    destruct (m_content m) as [c|] eqn:Ec; [destruct (m_shared m) eqn:Es|].
    + destruct Hcase as [?| ->]; [done|]. destruct (minv_content _ _ _ _ _ _ H Hm Ec) as [ct Hct].
      destruct (refcnt_bounds _ _ _ _ _ _ _ H Hm Ec Es Hct) as [Hrc Hb]. destruct (content_pointer m c Ec) as [Hp _].
      destruct (content_sub_spec _ _ _ _ _ _ H Hm Ec Es) as (st2 & b & Hsub & Hs2 & Hm2 & Hok & Hfr & Hct2).
      exists st2. split.
      * unfold msg_rm_refs. rewrite Hm. cbn [mbind option_bind]. rewrite bool_decide_eq_true_2, Hp, Es by done. simpl. by rewrite Hsub.
      * unfold msg_init, set_slot. rewrite Hs2. apply (minv_update _ _ _ _ m); try done; [by apply Hok|].
        rewrite Hm2. apply (meta_ok_keep _ src m); [done|by rewrite Hmd|apply H].
    + destruct (content_pointer m c Ec) as [Hp _]. exists st1. split; [|done].
      unfold msg_rm_refs. rewrite Hm. cbn [mbind option_bind]. rewrite bool_decide_eq_true_2, Hp, Es by done.
      rewrite (proj2 (Z.leb_le 0 failed)), (proj2 (Z.eqb_neq failed 0)) by lia. simpl. by rewrite Hcl.
    + exists st1. split; [|done]. unfold msg_rm_refs. rewrite Hm. cbn [mbind option_bind].
      rewrite bool_decide_eq_true_2, null_pointer by done.
      rewrite (proj2 (Z.leb_le 0 failed)), (proj2 (Z.eqb_neq failed 0)) by lia. simpl. by rewrite Hcl.
Qed.

Lemma msg_distribute_long st src dsts failed m : ms_slots st !! src = Some m -> (forall d, m_body m <> BVsm d) ->
  Z.of_nat (length dsts) + failed <> 0 ->
  msg_distribute st src dsts failed =
    (let* st := msg_add_refs st src (Z.of_nat (length dsts) + failed - 1) in
     let* st := msg_raw_copies st src dsts in
     let* st := drop_failed st src failed in Some (msg_init st src)).
Proof.
  intros Hm Hb Hk. unfold msg_distribute. rewrite Hm. cbn [mbind option_bind]. rewrite (proj2 (Z.eqb_neq _ _)) by done.
  destruct (m_body m) as [d| | | | | | |]; try done. by destruct (Hb d).
Qed.

Lemma msg_distribute_spec owned cr st src dsts failed m : minv owned cr st -> ms_slots st !! src = Some m -> m_null m = false ->
  m_check m = true -> m_metadata m = None -> src ∉ dsts -> NoDup dsts -> (forall d, d ∈ dsts -> plain (ms_slots st) d) ->
  0 <= failed -> Z.of_nat (length dsts) + failed < 2147483648 ->
  exists st', msg_distribute st src dsts failed = Some st' /\ minv owned cr st'.
Proof.
  intros H Hm Hn Hv Hmd Hs Hnd Hpl Hf Hk.
  destruct (decide (Z.of_nat (length dsts) + failed = 0)) as [Hz|Hz].
  { unfold msg_distribute. rewrite Hm. cbn [mbind option_bind]. rewrite (proj2 (Z.eqb_eq _ _)) by done.
    destruct (close_then_init _ _ _ _ _ H Hm Hn Hv) as (st1 & -> & H1). cbn. by eexists. }
  assert (m_content m = None -> exists stc, msg_raw_copies st src dsts = Some stc /\ minv owned cr stc /\ ms_slots stc !! src = Some m) as Hnone.
  { intros Hc. eexists. split; [by apply raw_copies_spec|]. split; [by apply (minv_copies _ _ _ src)|]. cbn [ms_slots]. by rewrite copies_ne. }
  assert ((exists d, m_body m = BVsm d) \/ forall d, m_body m <> BVsm d) as [[d Hd]|Hb] by (destruct (m_body m); eauto).
  { unfold msg_distribute. rewrite Hm. cbn [mbind option_bind]. rewrite (proj2 (Z.eqb_neq _ _)), Hd by done.
    destruct Hnone as (stc & -> & H1 & Hm1); [unfold m_content, m_pointer; by rewrite Hd|]. cbn [mbind option_bind].
    destruct (close_then_init _ _ _ _ _ H1 Hm1 Hn Hv) as (st1 & -> & H2). cbn. by eexists. }
  rewrite (msg_distribute_long _ _ _ _ m) by done.
  destruct (m_content m) as [c|] eqn:Ec.
  - destruct (decide (2 <= Z.of_nat (length dsts) + failed)) as [H2|H2]; [by apply (distribute_shared owned cr st src dsts failed m c)|].
    rewrite (add_refs_none _ _ m) by (done || lia || (left; lia)). cbn [mbind option_bind].
    destruct dsts as [|d [|d2 ds]]; cbn [length] in *; [| |lia].
    + simpl. destruct (drop_failed_last _ _ _ _ _ failed H Hm Hn Hv Hmd Hf) as (st1 & -> & H1); [right; lia|lia|]. cbn. by eexists.
    + assert (failed = 0) as -> by lia. rewrite (raw_copies_spec _ _ _ m) by done. simpl. eexists. split; [done|].
      apply (minv_moved _ _ _ src d m H Hm); [set_solver|apply Hpl; by left].
  - rewrite (add_refs_none _ _ m) by (done || lia || (right; by apply null_pointer)). cbn [mbind option_bind].
    destruct Hnone as (stc & -> & H1 & Hm1); [done|]. cbn [mbind option_bind].
    destruct (drop_failed_last _ _ _ _ _ failed H1 Hm1 Hn Hv Hmd Hf) as (st1 & -> & H2); [by left|done|]. cbn. by eexists.
Qed.
