(* ===== verification/MsgProg.v ===== *)
(** * Programs that use messages (src/src/msg.cpp, src/src/dist.cpp)

    Sequences of the operations of [Msg] on a fixed number of message
    objects, with what a caller has to observe, and what the reference
    counts guarantee for every such sequence. *)

From S2P Require Import Prelude Frame Msg.

(** ** Operations *)

Inductive mop :=
| OInit (i : nat)
| OInitSize (malloc_ok : bool) (i : nat) (data : bytes)
| OInitExternal (i : nat) (data : bytes) (ptr ffn hint : Z)
| OInitData (malloc_ok : bool) (i : nat) (data : bytes) (ptr : Z) (ffn : option Z) (hint : Z)
| OInitDelimiter (i : nat) | OInitJoin (i : nat) | OInitLeave (i : nat)
| OClose (i : nat) | OMove (dst src : nat) | OCopy (dst src : nat)
| OSetFlags (i : nat) (flags : Z) | OResetFlags (i : nat) (flags : Z)
| OSetRoutingId (i : nat) (id : Z) | OResetRoutingId (i : nat) | OSetGroup (i : nat) (group : bytes) (len : Z)
| OSetMetadata (i : nat) (md : Z) | OResetMetadata (i : nat)
| ODistribute (src : nat) (dsts : list nat) (failed : Z)
| ONewMetadata (md : Z)           (** an engine creates metadata *)
| ODropMetadata (md : Z).         (** an engine gives up its reference *)

Definition drop_rc (r : option (mstate * Z)) : option mstate := let* (st, _) := r in Some st.

Definition msg_op (st : mstate) (op : mop) : option mstate :=
  match op with
  | OInit i => Some (msg_init st i)
  | OInitSize ok i d => Some (msg_init_sized ok st i d).1
  | OInitExternal i d p f h => Some (msg_init_external_storage st i d p f h)
  | OInitData ok i d p f h => Some (msg_init_data ok st i d p f h).1
  | OInitDelimiter i => Some (msg_init_delimiter st i)
  | OInitJoin i => Some (msg_init_join st i)
  | OInitLeave i => Some (msg_init_leave st i)
  | OClose i => drop_rc (msg_close st i)
  | OMove d s => drop_rc (msg_move st d s)
  | OCopy d s => drop_rc (msg_copy st d s)
  | OSetFlags i f => msg_set_flags st i f
  | OResetFlags i f => msg_reset_flags st i f
  | OSetRoutingId i id => drop_rc (msg_set_routing_id st i id)
  | OResetRoutingId i => msg_reset_routing_id st i
  | OSetGroup i g n => drop_rc (msg_set_group st i g n)
  | OSetMetadata i md => msg_set_metadata st i md
  | OResetMetadata i => msg_reset_metadata st i
  | ODistribute s ds f => msg_distribute st s ds f
  | ONewMetadata md => Some (set_meta st (<[md := 1]> (ms_metadata st)))
  | ODropMetadata md => metadata_drop_ref st md
  end.

Fixpoint msg_run (st : mstate) (ops : list mop) : option mstate :=
  match ops with [] => Some st | op :: ops' => let* st := msg_op st op in msg_run st ops' end.

(** The metadata engines refer to after an operation, and the user data
    handed over by it. *)
Definition op_owned (op : mop) (owned : gset Z) : gset Z :=
  match op with ONewMetadata md => {[md]} ∪ owned | ODropMetadata md => owned ∖ {[md]} | _ => owned end.
Definition op_created (op : mop) : list (Z * Z * Z) :=
  match op with
  | OInitExternal _ _ p f h => [(f, p, h)]
  | OInitData true _ _ p (Some f) h => [(f, p, h)]
  | _ => []
  end.

(** ** What a caller observes *)

Definition slot_is (P : msg -> bool) (st : mstate) (i : nat) : bool :=
  match ms_slots st !! i with Some m => P m | None => false end.
(** Nothing is lost when the object is overwritten. *)
Definition m_free (m : msg) : bool := bool_decide (m_content m = None) && bool_decide (m_metadata m = None).
(** The object is not the remnant of a failed initialisation. *)
Definition m_sound (m : msg) : bool := negb (m_null m).
Definition no_shared (flags : Z) : bool := Z.land flags flag_shared =? 0.

Definition op_ok (owned : gset Z) (st : mstate) (op : mop) : bool :=
  match op with
  | OInit i | OInitSize _ i _ | OInitExternal i _ _ _ _ | OInitData _ i _ _ _ _
  | OInitDelimiter i | OInitJoin i | OInitLeave i => slot_is m_free st i
  | OClose i => slot_is m_sound st i
  | OMove d s => slot_is m_sound st d && slot_is m_sound st s
  | OCopy d s => slot_is m_sound st d && slot_is m_sound st s && negb (d =? s)%nat
  | OSetFlags i f | OResetFlags i f => slot_is (fun _ => true) st i && no_shared f
  | OSetRoutingId i _ | OResetRoutingId i | OSetGroup i _ _ | OResetMetadata i => slot_is (fun _ => true) st i
  | OSetMetadata i md => slot_is (fun m => m_check m && bool_decide (m_metadata m = None)) st i && bool_decide (is_Some (ms_metadata st !! md))
  | ODistribute s ds f =>
      slot_is (fun m => m_sound m && m_check m && bool_decide (m_metadata m = None)) st s &&
      bool_decide (s ∉ ds) && bool_decide (NoDup ds) && forallb (slot_is m_free st) ds &&
      (0 <=? f) && (Z.of_nat (length ds) + f <? 2147483648)
  | ONewMetadata md => bool_decide (ms_metadata st !! md = None)
  | ODropMetadata md => bool_decide (md ∈ owned)
  end.

Fixpoint ops_ok (owned : gset Z) (st : mstate) (ops : list mop) : bool :=
  match ops with
  | [] => true
  | op :: ops' => op_ok owned st op && match msg_op st op with Some st' => ops_ok (op_owned op owned) st' ops' | None => true end
  end.
Fixpoint ops_owned (owned : gset Z) (ops : list mop) : gset Z :=
  match ops with [] => owned | op :: ops' => ops_owned (op_owned op owned) ops' end.
Definition ops_created (ops : list mop) : list (Z * Z * Z) := ops ≫= op_created.

(** [n] objects that are not messages yet. *)
Definition mstate_new (n : nat) : mstate := MState (replicate n (empty_msg BInvalid)) ∅ ∅ [].

(** ** Every operation keeps the invariant *)

Lemma slot_is_spec P st i : slot_is P st i = true -> exists m, ms_slots st !! i = Some m /\ P m = true.
Proof. unfold slot_is. destruct (ms_slots st !! i) as [m|]; [by exists m|done]. Qed.

Lemma m_free_spec m : m_free m = true -> m_content m = None /\ m_metadata m = None.
Proof. unfold m_free. intros [H1%bool_decide_eq_true H2%bool_decide_eq_true]%andb_true_iff. done. Qed.

Lemma m_sound_spec m : m_sound m = true -> m_null m = false.
Proof. unfold m_sound. by intros H%negb_true_iff. Qed.

Lemma no_shared_set m f : no_shared f = true -> negb (Z.land (Z.lor (m_flags m) f) flag_shared =? 0) = m_shared m.
Proof. unfold no_shared, m_shared. intros E. bool_prop. rewrite Z.land_lor_distr_l, E. by rewrite Z.lor_0_r. Qed.

Lemma no_shared_reset m f : no_shared f = true -> negb (Z.land (Z.land (m_flags m) (Z.lnot f)) flag_shared =? 0) = m_shared m.
Proof.
  unfold no_shared, m_shared. intros E. bool_prop. f_equal. f_equal. apply Z.bits_inj'. intros n Hn.
  rewrite !Z.land_spec, Z.lnot_spec by done. assert (Z.testbit (Z.land f flag_shared) n = false) as Hf by (by rewrite E, Z.bits_0).
  rewrite Z.land_spec in Hf. by destruct (Z.testbit (m_flags m) n), (Z.testbit f n), (Z.testbit flag_shared n).
Qed.

(** Only the metadata change. *)
Lemma minv_meta owned owned' cr st hm : minv owned cr st -> (forall md, meta_ok (ms_slots st) hm owned' md) -> minv owned' cr (set_meta st hm).
Proof. intros H Hm. constructor; cbn [ms_slots ms_contents ms_metadata ms_freed set_meta]; try apply H. done. Qed.

Lemma new_metadata_keeps owned cr st md : minv owned cr st -> ms_metadata st !! md = None ->
  minv ({[md]} ∪ owned) cr (set_meta st (<[md := 1]> (ms_metadata st))).
Proof.
  intros H Hn. apply (minv_meta owned); [done|]. intros md'. pose proof (mi_meta _ _ _ H md') as Hok. unfold meta_ok in *.
  destruct (decide (md' = md)) as [->|Hne].
  - rewrite lookup_insert_eq. rewrite Hn in Hok. rewrite bool_decide_eq_true_2 by set_solver. simpl. lia.
  - rewrite lookup_insert_ne by done. rewrite (bool_decide_ext (md' ∈ {[md]} ∪ owned) (md' ∈ owned)) by set_solver.
    destruct (ms_metadata st !! md'); [done|]. split; [apply Hok|set_solver].
Qed.

Lemma drop_metadata_keeps owned cr st md : minv owned cr st -> md ∈ owned ->
  exists st', metadata_drop_ref st md = Some st' /\ minv (owned ∖ {[md]}) cr st'.
Proof.
  intros H Hin. pose proof (mi_meta _ _ _ H md) as Hok. unfold metadata_drop_ref. unfold meta_ok in Hok.
  destruct (ms_metadata st !! md) as [n|] eqn:En; [|by destruct Hok]. rewrite bool_decide_eq_true_2 in Hok by done. cbn [b2z] in Hok.
  pose proof (mcount_bounds (annotates md) (ms_slots st)). pose proof (mi_len _ _ _ H). cbn [mbind option_bind].
  rewrite ac_sub_small by lia. eexists. split; [done|]. apply (minv_meta owned); [done|].
  intros md'. pose proof (mi_meta _ _ _ H md') as Hok'. unfold meta_ok in *. destruct (decide (md' = md)) as [->|Hne].
  - rewrite (bool_decide_eq_false_2 (md ∈ owned ∖ {[md]})) by set_solver. cbn [b2z].
    destruct (n - 1 =? 0) eqn:E; cbn [negb]; bool_prop; [rewrite lookup_delete_eq; split; [lia|set_solver]|rewrite lookup_insert_eq; lia].
  - rewrite (bool_decide_ext (md' ∈ owned ∖ {[md]}) (md' ∈ owned)) by set_solver.
    destruct (n - 1 =? 0); cbn [negb]; rewrite ?lookup_delete_ne, ?lookup_insert_ne by done;
      (destruct (ms_metadata st !! md'); [done|split; [apply Hok'|set_solver]]).
Qed.

Lemma set_metadata_keeps owned cr st i m md n : minv owned cr st -> ms_slots st !! i = Some m -> m_check m = true ->
  m_metadata m = None -> ms_metadata st !! md = Some n -> exists st', msg_set_metadata st i md = Some st' /\ minv owned cr st'.
Proof.
  intros H Hi Hv Hmd Hn. unfold msg_set_metadata. rewrite Hi. cbn [mbind option_bind]. rewrite bool_decide_eq_true_2 by done.
  unfold metadata_add_ref. rewrite Hn. cbn [mbind option_bind]. eexists. split; [done|].
  unfold set_slot, set_meta. cbn [ms_slots ms_contents ms_metadata ms_freed].
  apply (minv_update _ _ _ _ m); try done; auto using contents_sub_refl; [| | | |apply H].
  - apply (content_ok_keep _ i m); [done|done|done|apply H].
  - intros c ct Hb. by apply (mi_ext _ _ _ H i m c).
  - intros md'. pose proof (mi_meta _ _ _ H md') as Hok. pose proof (mcount_bounds (annotates md) (ms_slots st)). pose proof (mi_len _ _ _ H).
    unfold meta_ok in *. rewrite (mcount_insert _ _ _ _ _ Hi). replace (annotates md' m) with false by (unfold annotates; by rewrite Hmd).
    replace (annotates md' (Msg _ _ _ _ _)) with (bool_decide (md = md')) by (unfold annotates; apply bool_decide_ext; naive_solver).
    destruct (decide (md' = md)) as [->|Hne].
    + rewrite lookup_insert_eq. rewrite Hn in Hok. rewrite (bool_decide_eq_true_2 (md = md)) by done. unfold ac_add.
      rewrite u32_small by (unfold is_u32; destruct (bool_decide (md ∈ owned)); cbn [b2z] in *; lia). cbn [b2z]. lia.
    + rewrite lookup_insert_ne by done. rewrite (bool_decide_eq_false_2 (md = md')) by congruence. cbn [b2z].
      destruct (ms_metadata st !! md'); [lia|]. split; [lia|apply Hok].
  - unfold m_check in *. cbn [m_body]. congruence.
Qed.

Lemma reset_metadata_keeps owned cr st i m : minv owned cr st -> ms_slots st !! i = Some m ->
  exists st', msg_reset_metadata st i = Some st' /\ minv owned cr st'.
Proof.
  intros H Hi. unfold msg_reset_metadata. rewrite Hi. cbn [mbind option_bind].
  destruct (metadata_drop_spec _ _ _ _ _ H Hi st eq_refl eq_refl) as (hm & Hd & Hok).
  destruct (m_metadata m) as [md|] eqn:E; [|by exists st]. rewrite Hd. cbn [mbind option_bind]. eexists. split; [done|].
  unfold set_slot, set_meta. cbn [ms_slots ms_contents ms_metadata ms_freed].
  apply (minv_update _ _ _ _ m); try done; auto using contents_sub_refl; [| |apply H].
  - apply (content_ok_keep _ i m); [done|done|done|apply H].
  - intros c ct Hb. by apply (mi_ext _ _ _ H i m c).
Qed.

(** A new message in an object that held nothing. *)
Lemma init_keeps owned cr st i b : minv owned cr st -> slot_is m_free st i = true -> m_content (empty_msg b) = None ->
  (forall c, b <> BZclmsg c) -> minv owned cr (set_slot st i (empty_msg b)).
Proof.
  intros H Hi Hb Hz. destruct (slot_is_spec _ _ _ Hi) as (m & Hm & [Hc Hmd]%m_free_spec). by apply (minv_plain _ _ _ _ m).
Qed.

Lemma new_keeps owned cr st i b d p f h : minv owned cr st -> slot_is m_free st i = true ->
  b = BLmsg (new_content st) \/ (b = BZclmsg (new_content st) /\ is_Some f) ->
  minv owned (cr ++ match f with Some f => [(f, p, h)] | None => [] end)
    (set_slot (set_contents st (<[new_content st := Content d p f h 0]> (ms_contents st))) i (empty_msg b)).
Proof.
  intros H Hi Hb. destruct (slot_is_spec _ _ _ Hi) as (m & Hm & [Hc Hmd]%m_free_spec).
  pose proof (minv_new _ _ _ _ m b _ (Content d p f h 0) H Hm Hc Hmd eq_refl Hb) as Hnew.
  unfold content_user in Hnew. cbn in Hnew. by destruct f.
Qed.

Lemma init_op_keeps owned cr st op : minv owned cr st -> op_ok owned st op = true ->
  match op with OInit _ | OInitSize _ _ _ | OInitExternal _ _ _ _ _ | OInitData _ _ _ _ _ _
  | OInitDelimiter _ | OInitJoin _ | OInitLeave _ => True | _ => False end ->
  exists st', msg_op st op = Some st' /\ minv owned (cr ++ op_created op) st'.
Proof.
  intros H Hok Hop. destruct op; try done; cbn [op_ok op_created msg_op] in *; eexists; (split; [done|]); rewrite ?app_nil_r;
    try (by apply init_keeps).
  - unfold msg_init_sized. destruct (_ <=? 33); cbn [fst]; [by apply init_keeps|]. destruct (_ && _); cbn [fst]; [|by apply init_keeps].
    rewrite <- (app_nil_r cr). apply (new_keeps _ _ _ _ _ _ _ None 0); auto.
  - apply (new_keeps _ _ _ _ _ _ _ (Some ffn)); eauto.
  - unfold msg_init_data. destruct ffn as [f|]; [|destruct malloc_ok; rewrite ?app_nil_r; by apply init_keeps].
    destruct malloc_ok; cbn [fst]; [apply (new_keeps _ _ _ _ _ _ _ (Some f)); auto|rewrite app_nil_r; by apply init_keeps].
Qed.

(** Lookup in the guards of the other operations. *)
Ltac slot_of H := let m := fresh "m" in let Hm := fresh "Hm" in let Hp := fresh "Hp" in
  apply slot_is_spec in H as (m & Hm & Hp).

Lemma copy_keeps owned cr st d s x m : minv owned cr st -> ms_slots st !! d = Some x -> ms_slots st !! s = Some m ->
  m_null x = false -> m_null m = false -> d <> s -> exists st' rc, msg_copy st d s = Some (st', rc) /\ minv owned cr st'.
Proof.
  intros H Hx Hm Hnx Hnm Hne. destruct (m_check m) eqn:Em, (m_check x) eqn:Ex.
  - destruct (msg_copy_spec _ _ _ _ _ _ _ H Hm Hx Hnm Hnx Em Ex) as (st' & Hc & H' & _); [congruence|]. by exists st', 0.
  - unfold msg_copy. rewrite Hm. cbn [mbind option_bind]. rewrite Em. cbn [negb].
    destruct (msg_close_spec _ _ _ _ _ H Hx Hnx) as (st1 & -> & H1 & _). rewrite Ex. cbn. by eexists _, _.
  - unfold msg_copy. rewrite Hm. cbn [mbind option_bind]. rewrite Em. cbn. by eexists _, _.
  - unfold msg_copy. rewrite Hm. cbn [mbind option_bind]. rewrite Em. cbn. by eexists _, _.
Qed.

Lemma set_op_keeps owned cr st i m m' : minv owned cr st -> ms_slots st !! i = Some m -> m_body m' = m_body m ->
  m_metadata m' = m_metadata m -> m_shared m' = m_shared m -> minv owned cr (set_slot st i m').
Proof. intros H Hi Hb Hmd Hs. by apply (minv_keep _ _ _ _ m). Qed.

Lemma distribute_keeps owned cr st s ds f : minv owned cr st -> op_ok owned st (ODistribute s ds f) = true ->
  exists st', msg_distribute st s ds f = Some st' /\ minv owned cr st'.
Proof.
  intros H Hok. cbn [op_ok] in Hok. apply andb_true_iff in Hok as [Hok Hlen]. apply andb_true_iff in Hok as [Hok Hf].
  apply andb_true_iff in Hok as [Hok Hds]. apply andb_true_iff in Hok as [Hok Hnd]. apply andb_true_iff in Hok as [Hok Hs].
  slot_of Hok. apply andb_true_iff in Hp as [Hp Hmd]. apply andb_true_iff in Hp as [Hn Hv].
  apply (msg_distribute_spec _ _ _ _ _ _ m); try done; [by apply m_sound_spec|by apply bool_decide_eq_true in Hmd
    |by apply bool_decide_eq_true in Hs|by apply bool_decide_eq_true in Hnd| |bool_prop; lia|bool_prop; lia].
  intros d Hd. rewrite forallb_forall in Hds. specialize (Hds d (proj1 (list_elem_of_In _ _) Hd)).
  destruct (slot_is_spec _ _ _ Hds) as (x & Hx & [? ?]%m_free_spec). by exists x.
Qed.

Lemma msg_op_keeps owned cr st op : minv owned cr st -> op_ok owned st op = true ->
  exists st', msg_op st op = Some st' /\ minv (op_owned op owned) (cr ++ op_created op) st'.
Proof.
  intros H Hok. destruct op; try (by apply init_op_keeps); cbn [op_owned op_created msg_op]; rewrite app_nil_r.
  - cbn [op_ok] in Hok. slot_of Hok. destruct (msg_close_spec _ _ _ _ _ H Hm (m_sound_spec _ Hp)) as (st' & -> & H' & _). by exists st'.
  - cbn [op_ok] in Hok. apply andb_true_iff in Hok as [Hd Hs]. slot_of Hd. slot_of Hs.
    destruct (msg_move_spec owned cr st dst src m0 m) as (st' & rc & -> & H'); auto using m_sound_spec. by exists st'.
  - cbn [op_ok] in Hok. apply andb_true_iff in Hok as [Hok Hne]. apply andb_true_iff in Hok as [Hd Hs]. slot_of Hd. slot_of Hs.
    destruct (copy_keeps owned cr st dst src m m0) as (st' & rc & -> & H'); auto using m_sound_spec; [|by exists st'].
    apply negb_true_iff, Nat.eqb_neq in Hne. done.
  - cbn [op_ok] in Hok. apply andb_true_iff in Hok as [Hi Hf]. slot_of Hi. unfold msg_set_flags. rewrite Hm. eexists. split; [done|].
    apply (set_op_keeps _ _ _ _ m); try done. by apply no_shared_set.
  - cbn [op_ok] in Hok. apply andb_true_iff in Hok as [Hi Hf]. slot_of Hi. unfold msg_reset_flags. rewrite Hm. eexists. split; [done|].
    apply (set_op_keeps _ _ _ _ m); try done. by apply no_shared_reset.
  - cbn [op_ok] in Hok. slot_of Hok. unfold msg_set_routing_id. rewrite Hm. cbn. destruct (negb _); eexists; (split; [done|]); [|done].
    by apply (set_op_keeps _ _ _ _ m).
  - cbn [op_ok] in Hok. slot_of Hok. unfold msg_reset_routing_id. rewrite Hm. eexists. split; [done|]. by apply (set_op_keeps _ _ _ _ m).
  - cbn [op_ok] in Hok. slot_of Hok. unfold msg_set_group. rewrite Hm. cbn. destruct (15 <? len); eexists; (split; [done|]); [done|].
    by apply (set_op_keeps _ _ _ _ m).
  - cbn [op_ok] in Hok. apply andb_true_iff in Hok as [Hi Hmd]. slot_of Hi. apply andb_true_iff in Hp as [Hv Hn].
    apply bool_decide_eq_true in Hn. apply bool_decide_eq_true in Hmd as [n Hmd]. by apply (set_metadata_keeps _ _ _ _ m _ n).
  - cbn [op_ok] in Hok. slot_of Hok. by apply (reset_metadata_keeps _ _ _ _ m).
  - by apply distribute_keeps.
  - cbn [op_ok] in Hok. apply bool_decide_eq_true in Hok. eexists. split; [done|]. by apply new_metadata_keeps.
  - cbn [op_ok] in Hok. apply bool_decide_eq_true in Hok. by apply drop_metadata_keeps.
Qed.

Lemma msg_run_keeps ops : forall owned cr st, minv owned cr st -> ops_ok owned st ops = true ->
  exists st', msg_run st ops = Some st' /\ minv (ops_owned owned ops) (cr ++ ops_created ops) st'.
Proof.
  induction ops as [|op ops IH]; intros owned cr st H Hok; simpl.
  - exists st. by rewrite app_nil_r.
  - simpl in Hok. apply andb_true_iff in Hok as [Hop Hok].
    destruct (msg_op_keeps owned cr st op H Hop) as (st1 & E & H1). rewrite E in Hok |- *. cbn [mbind option_bind].
    destruct (IH _ _ _ H1 Hok) as (st2 & -> & H2). exists st2. split; [done|].
    unfold ops_created in *. cbn [mbind list_bind]. by rewrite app_assoc.
Qed.

Lemma minv_init n : Z.of_nat n < 2147483648 -> minv ∅ [] (mstate_new n).
Proof.
  intros Hn. assert (forall (i : nat) m, replicate n (empty_msg BInvalid) !! i = Some m -> m = empty_msg BInvalid) as Hr
    by (intros i m [-> _]%lookup_replicate; done).
  constructor; cbn [ms_slots ms_contents ms_metadata ms_freed mstate_new].
  - by rewrite length_replicate.
  - intros c. unfold content_ok. rewrite lookup_empty. apply mcount_zero. by intros i m ->%Hr.
  - intros i m c ct ->%Hr. done.
  - intros md. unfold meta_ok. rewrite lookup_empty. split; [|set_solver]. apply mcount_zero. by intros i m ->%Hr.
  - by intros i m ->%Hr.
  - done.
Qed.

Lemma mcount_witness P l : 1 <= mcount P l -> exists (i : nat) m, l !! i = Some m /\ P m = true.
Proof.
  induction l as [|x l IH]; cbn [mcount]; [lia|]. intros H. destruct (P x) eqn:E; [by exists 0%nat, x|].
  destruct IH as (i & m & ? & ?); [simpl in H; lia|]. by exists (S i), m.
Qed.

(** A content that exists is referred to. *)
Lemma minv_referred owned cr st c : minv owned cr st -> is_Some (ms_contents st !! c) ->
  exists (i : nat) m, ms_slots st !! i = Some m /\ m_content m = Some c.
Proof.
  intros H [ct Hct]. pose proof (mi_content _ _ _ H c) as Hok. unfold content_ok in Hok. rewrite Hct in Hok.
  destruct (mcount_witness (refers c) (ms_slots st)) as (i & m & Hi & Hr); [lia|]. exists i, m. split; [done|].
  unfold refers in Hr. by apply bool_decide_eq_true in Hr.
Qed.

Lemma minv_all_free owned cr st : minv owned cr st -> (forall i m, ms_slots st !! i = Some m -> m_free m = true) ->
  ms_contents st = ∅ /\ cr ≡ₚ ms_freed st /\ dom (ms_metadata st) = owned.
Proof.
  intros H Hall. assert (ms_contents st = ∅) as Hc.
  { apply map_empty. intros c. destruct (ms_contents st !! c) as [ct|] eqn:E; [|done].
    destruct (minv_referred _ _ _ c H) as (i & m & Hi & Hm); [by eexists|]. apply Hall, m_free_spec in Hi as [? _]. congruence. }
  split_and!; [done| |].
  - pose proof (mi_freed _ _ _ H) as Hf. rewrite Hc in Hf. unfold live_user in Hf. by rewrite map_to_list_empty, app_nil_r in Hf.
  - apply set_eq. intros md. rewrite elem_of_dom. pose proof (mi_meta _ _ _ H md) as Hok. unfold meta_ok in Hok.
    assert (mcount (annotates md) (ms_slots st) = 0) as Hz.
    { apply mcount_zero. intros i m Hi. apply Hall, m_free_spec in Hi as [_ Hm]. unfold annotates. by rewrite Hm. }
    rewrite Hz in Hok. destruct (ms_metadata st !! md) as [n|].
    + destruct (bool_decide_reflect (md ∈ owned)); cbn [b2z] in Hok; [|lia]. split; [done|by eexists].
    + split; [by intros [? ?]|]. by destruct Hok.
Qed.

(** ** What the reference counts guarantee *)

(** C18: For every sequence of message operations that observes the rules of the interface (a message is not initialised over one
    that still holds something, a failed initialisation is not used, the internal flag is left alone), no assertion fails and no
    freed memory is accessed; afterwards every content a message refers to exists, every content that exists is referred to, the
    user data handed over are those freed, once each, and those still held; when no message holds anything all are freed and
    the metadata left are those engines still own. *)
Theorem messages_managed (n : nat) (ops : list mop) :
  Z.of_nat n < 2147483648 -> ops_ok ∅ (mstate_new n) ops = true ->
  exists st, msg_run (mstate_new n) ops = Some st /\
    (forall i m c, ms_slots st !! i = Some m -> m_content m = Some c -> is_Some (ms_contents st !! c)) /\
    (forall c, is_Some (ms_contents st !! c) -> exists i m, ms_slots st !! i = Some m /\ m_content m = Some c) /\
    ops_created ops ≡ₚ ms_freed st ++ live_user (ms_contents st) /\
    ((forall i m, ms_slots st !! i = Some m -> m_free m = true) ->
       ms_contents st = ∅ /\ ops_created ops ≡ₚ ms_freed st /\ dom (ms_metadata st) = ops_owned ∅ ops).
Proof.
  intros Hn Hok. destruct (msg_run_keeps ops ∅ [] _ (minv_init n Hn) Hok) as (st & Hrun & H). simpl in H.
  exists st. split_and!; [done| | | |].
  - intros i m c Hi Hc. destruct (minv_content _ _ _ _ _ _ H Hi Hc) as [ct Hct]. by exists ct.
  - intros c Hc. by apply (minv_referred _ _ _ c H).
  - apply H.
  - intros Hall. by apply (minv_all_free _ _ _ H).
Qed.

(** A long message is copied, distributed to two of three pipes, and read. *)
Definition managed_ops : list mop :=
  [OInitData true 0 (replicate 40 7) 1000 (Some 5) 6; OInit 1; ONewMetadata 9; OSetMetadata 0 9; OCopy 1 0; OResetMetadata 1;
   OClose 0; ODistribute 1 [2; 3]%nat 1; ODropMetadata 9; OMove 1 2; OClose 1; OClose 2; OClose 3].

Lemma messages_managed_witness :
  ops_ok ∅ (mstate_new 4) managed_ops = true /\
  exists st, msg_run (mstate_new 4) managed_ops = Some st /\
    ops_created managed_ops ≡ₚ ms_freed st ++ live_user (ms_contents st).
Proof.
  split; [vm_compute; reflexivity|].
  destruct (messages_managed 4 managed_ops ltac:(lia) ltac:(vm_compute; reflexivity)) as (st & Hrun & _ & _ & Hfr & _).
  exists st. split; [exact Hrun|exact Hfr].
Defined.

(** The user's function was called once. *)
Example managed_ops_freed :
  (let* st := msg_run (mstate_new 4) managed_ops in Some (ms_freed st, map_to_list (ms_contents st), map_to_list (ms_metadata st)))
  = Some ([(5, 1000, 6)], [], []).
Proof. vm_compute. reflexivity. Qed.

Lemma minv_no_null owned cr st : minv owned cr st -> ms_contents st !! null = None.
Proof.
  intros H. destruct (ms_contents st !! null) as [ct|] eqn:E; [|done].
  destruct (minv_referred _ _ _ null H) as (i & m & _ & Hm); [by exists ct|]. by destruct (content_pointer m null Hm).
Qed.

(** The bytes of a message are those of its content, before and after. *)
Lemma msg_data_same owned cr owned' cr' st st' (j : nat) m m' : minv owned cr st -> minv owned' cr' st' ->
  contents_sub (ms_contents st) (ms_contents st') -> ms_slots st' !! j = Some m' -> m_body m' = m_body m ->
  msg_data st' m' = msg_data st m.
Proof.
  intros H H' Hsub Hj Hb.
  assert (forall c, m_pointer m' = Some c -> (let* ct := ms_contents st' !! c in Some (c_bytes ct)) = (let* ct := ms_contents st !! c in Some (c_bytes ct))) as Hc.
  { intros c Hp. destruct (decide (c = null)) as [->|Hne]; [by rewrite (minv_no_null _ _ _ H), (minv_no_null _ _ _ H')|].
    assert (m_content m' = Some c) as Hc by (unfold m_content; rewrite Hp; cbn; by rewrite (proj2 (Z.eqb_neq _ _))).
    destruct (minv_content _ _ _ _ _ _ H' Hj Hc) as [ct Hct]. destruct (Hsub c ct Hct) as (ct0 & Hct0 & _ & Hby).
    rewrite Hct, Hct0. cbn. by rewrite Hby. }
  unfold msg_data, m_pointer in *. rewrite Hb in *. destruct (m_body m); try done; by apply Hc.
Qed.

(** A copy of a message succeeds, both messages have the bytes of the source afterwards, and no other message changes. *)
Theorem msg_copy_same_data (n : nat) (ops : list mop) st (dst src : nat) (m x : msg) :
  Z.of_nat n < 2147483648 -> ops_ok ∅ (mstate_new n) ops = true -> msg_run (mstate_new n) ops = Some st ->
  ms_slots st !! src = Some m -> ms_slots st !! dst = Some x -> m_check m && m_sound m = true -> m_check x && m_sound x = true ->
  src <> dst ->
  exists st' m', msg_copy st dst src = Some (st', 0) /\ ms_slots st' !! src = Some m' /\ ms_slots st' !! dst = Some m' /\
    msg_data st' m' = msg_data st m /\ m_group m' = m_group m /\ m_routing_id m' = m_routing_id m /\
    (forall j y, j <> src -> j <> dst -> ms_slots st !! j = Some y -> ms_slots st' !! j = Some y /\ msg_data st' y = msg_data st y).
Proof.
  intros Hn Hok Hrun Hm Hx [Hvm Hsm]%andb_true_iff [Hvx Hsx]%andb_true_iff Hne.
  destruct (msg_run_keeps ops ∅ [] _ (minv_init n Hn) Hok) as (st0 & Hrun0 & H). rewrite Hrun in Hrun0. injection Hrun0 as <-.
  destruct (msg_copy_spec _ _ _ dst src _ _ H Hm Hx) as (st' & Hc & H' & Hs & Hsub); auto using m_sound_spec.
  assert (ms_slots st' !! src = Some (copy_of m)) as Hs1.
  { rewrite Hs, list_lookup_insert_ne by done. apply list_lookup_insert_eq. by eapply lookup_lt_Some. }
  assert (ms_slots st' !! dst = Some (copy_of m)) as Hs2.
  { rewrite Hs. apply list_lookup_insert_eq. rewrite length_insert. by eapply lookup_lt_Some. }
  exists st', (copy_of m). split_and!; try done; try (unfold copy_of; by destruct (m_pointer m)).
  - apply (msg_data_same _ _ _ _ _ _ src _ _ H H' Hsub Hs1). unfold copy_of. by destruct (m_pointer m).
  - intros j y Hj1 Hj2 Hj. assert (ms_slots st' !! j = Some y) as Hj' by (by rewrite Hs, !list_lookup_insert_ne).
    split; [done|]. by apply (msg_data_same _ _ _ _ _ _ j _ _ H H' Hsub Hj').
Qed.

(** A message of 34 bytes and an empty one. *)
Definition copy_ops : list mop := [OInitSize true 0 (replicate 34 7); OInit 1].
Definition copy_before : mstate := default (mstate_new 0) (msg_run (mstate_new 2) copy_ops).

Lemma msg_copy_same_data_witness :
  exists st' m', msg_copy copy_before 1 0 = Some (st', 0) /\ ms_slots st' !! 1%nat = Some m' /\ msg_data st' m' = Some (replicate 34 7).
Proof.
  destruct (msg_copy_same_data 2 copy_ops copy_before 1 0 (empty_msg (BLmsg 1)) (empty_msg (BVsm []))) as (st' & m' & H1 & _ & H2 & H3 & _);
    [lia|vm_compute; reflexivity|vm_compute; reflexivity|vm_compute; reflexivity|vm_compute; reflexivity|reflexivity|reflexivity|lia|].
  exists st', m'. split; [exact H1|]. split; [exact H2|]. rewrite H3. vm_compute. reflexivity.
Defined.
