(* ===== verification/Duplex.v ===== *)
(** * Pipes used in both directions (src/src/pipe.cpp, as sockets see it)

    The socket types that receive and send use their pipes through
    [InPipes] and [OutPipes] at once.  What the two directions have to do
    with each other: a pipe whose peer has closed it ends with a
    delimiter, and reading that delimiter also ends writing. *)

From S2P Require Import Prelude Array Frame Fq Lb.

Class Duplex (W : Type) `{InPipes W} `{OutPipes W} := {
  dx_open : W -> Z -> bool;   (** no delimiter at the end of the queue *)
}.

(** What an operation leaves alone in the outbound direction. *)
Definition out_same `{OutPipes W} (w w' : W) : Prop :=
  forall p, op_pending w' p = op_pending w p /\ op_sent w' p = op_sent w p.

Class DuplexLaws (W : Type) `{Duplex W} := {
  dx_in_laws :: InPipesLaws W;
  dx_out_laws :: OutPipesLaws W;
  dx_read w p w' r : ip_read w p = Some (w', r) -> out_same w w' /\
    (forall p', op_room w' p' = if bool_decide (p' = p) && bool_decide (r = None) && negb (dx_open w p) then false else op_room w p') /\
    (forall p', dx_open w' p' = dx_open w p');
  dx_check_read w p w' b : ip_check_read w p = Some (w', b) -> out_same w w' /\
    (forall p', dx_open w p' = true -> op_room w' p' = op_room w p') /\ (forall p', dx_open w' p' = dx_open w p');
  dx_write w p f w' b : op_write w p f = Some (w', b) -> forall p', ip_queue w' p' = ip_queue w p' /\ dx_open w' p' = dx_open w p';
  dx_check_write w p w' b : op_check_write w p = Some (w', b) -> forall p', ip_queue w' p' = ip_queue w p' /\ dx_open w' p' = dx_open w p';
  dx_flush w p w' : op_flush w p = Some w' -> forall p', ip_queue w' p' = ip_queue w p' /\ dx_open w' p' = dx_open w p';
  dx_rollback w p w' : op_rollback w p = Some w' -> forall p', ip_queue w' p' = ip_queue w p' /\ dx_open w' p' = dx_open w p';
}.

(** What an operation leaves alone in the inbound direction. *)
Definition in_same `{Duplex W} (w w' : W) : Prop :=
  forall p, ip_queue w' p = ip_queue w p /\ dx_open w' p = dx_open w p.

Section duplex.
Context {W : Type} {IP : InPipes W} {OP : OutPipes W} {DX : Duplex W} {DL : DuplexLaws W}.

Lemma out_same_trans (w1 w2 w3 : W) : out_same w1 w2 -> out_same w2 w3 -> out_same w1 w3.
Proof. intros H1 H2 p. destruct (H1 p), (H2 p). split; congruence. Qed.

Lemma in_same_trans (w1 w2 w3 : W) : in_same w1 w2 -> in_same w2 w3 -> in_same w1 w3.
Proof. intros H1 H2 p. destruct (H1 p), (H2 p). split; congruence. Qed.

Lemma in_same_refl (w : W) : in_same w w.
Proof. done. Qed.

(** Reading a pipe that stays open changes nothing for the writer. *)
Definition reader_only (w w' : W) : Prop :=
  out_same w w' /\ (forall p, dx_open w' p = dx_open w p) /\ (forall p, dx_open w p = true -> op_room w' p = op_room w p).

Lemma reader_only_refl (w : W) : reader_only w w.
Proof. done. Qed.

Lemma reader_only_trans (w1 w2 w3 : W) : reader_only w1 w2 -> reader_only w2 w3 -> reader_only w1 w3.
Proof.
  intros (A1 & A2 & A3) (B1 & B2 & B3). split_and!; [by apply (out_same_trans _ w2)|congruence|].
  intros p Hp. rewrite B3, A3; [done|done|congruence].
Qed.

Lemma read_reader_only (w : W) p w' r : ip_read w p = Some (w', r) -> reader_only w w'.
Proof.
  intros E. destruct (dx_read w p w' r E) as (H1' & H2' & H3'). split_and!; try done. intros p' Hp. rewrite H2'.
  destruct (bool_decide_reflect (p' = p)) as [->|]; [|done]. rewrite Hp. by rewrite andb_false_r.
Qed.

(** ** The fair queue reads, the load balancer writes *)

Lemma fq_recv_loop_reader fuel : forall (w : W) q w' q' r, fq_recv_loop fuel w q = Some (w', q', r) -> reader_only w w'.
Proof.
  induction fuel as [|fuel IH]; intros w q w' q' r; simpl; (destruct (_ =? 0)%nat; [by intros; simplify_eq|]); [done|].
  destruct (array_get _ _) as [p|]; [|done]. cbn [mbind option_bind].
  destruct (ip_read w p) as [[w1 [f|]]|] eqn:E; [| |done]; cbn [mbind option_bind].
  - intros Hrun. simplify_eq. by apply (read_reader_only _ p _ (Some f)).
  - destruct (negb (fq_more q)); [|done]. destruct (fq_deactivate q (fq_current q)) as [q1|]; [|done]. cbn [mbind option_bind].
    intros Hrun. apply (reader_only_trans _ w1); [by apply (read_reader_only _ p _ None)|by apply (IH _ _ _ _ _ Hrun)].
Qed.

Lemma fq_recvpipe_reader (w : W) q w' q' r : fq_recvpipe w q = Some (w', q', r) -> reader_only w w'.
Proof. apply fq_recv_loop_reader. Qed.

Lemma lb_send_loop_in fuel f : forall (w : W) q w' q' e, lb_send_loop fuel w q f = Some (w', q', e) -> in_same w w'.
Proof.
  induction fuel as [|fuel IH]; intros w q w' q' e; simpl; (destruct (_ =? 0)%nat; [by intros; simplify_eq|]); [done|].
  destruct (array_get _ _) as [p|]; [|done]. cbn [mbind option_bind].
  destruct (op_write w p f) as [[w1 b]|] eqn:E; [|done]. cbn [mbind option_bind]. pose proof (dx_write _ _ _ _ _ E) as H1'.
  destruct b; [by intros; simplify_eq|]. destruct (lb_more q).
  - destruct (op_rollback w1 p) as [w2|] eqn:E2; [|done]. cbn [mbind option_bind]. intros Hrun. simplify_eq.
    apply (in_same_trans _ w1); [done|]. exact (dx_rollback _ _ _ E2).
  - destruct (if _ : bool then _ else _) as [q1|]; [|done]. cbn [mbind option_bind]. intros Hrun.
    apply (in_same_trans _ w1); [done|]. by apply (IH _ _ _ _ _ Hrun).
Qed.

Lemma lb_sendpipe_in (w : W) q f w' q' r : lb_sendpipe w q f = Some (w', q', r) -> in_same w w'.
Proof.
  unfold lb_sendpipe. destruct (lb_dropping q); [by intros; simplify_eq|].
  destruct (lb_send_loop (lb_active q) w q f) as [[[w1 q1] e]|] eqn:E; [|done]. cbn [mbind option_bind].
  pose proof (lb_send_loop_in _ _ _ _ _ _ _ E) as H1'. destruct e as [p| |]; [|by intros; simplify_eq..].
  destruct (fr_more f); cbn [negb]; [by intros; simplify_eq|].
  destruct (op_flush w1 p) as [w2|] eqn:E2; [|done]. cbn [mbind option_bind]. intros Hrun. simplify_eq.
  apply (in_same_trans _ w1); [done|]. exact (dx_flush _ _ _ E2).
Qed.

(** ** Messages in the queues *)

(** A queue of whole messages. *)
Definition whole (l : list frame) : Prop := exists msgs, l = concat msgs /\ Forall (fun m => is_message m = true) msgs.

(** The fair queue between two messages. *)
Definition fq_between (w : W) (q : fq) : Prop :=
  fq_inv q /\ fq_more q = false /\ forall p, fq_is_active q p -> whole (ip_queue w p).

(** The fair queue in the middle of a message of pipe [p], [msg] to come. *)
Definition fq_mid (w : W) (q : fq) (p : Z) (msg : list frame) : Prop :=
  fq_inv q /\ fq_more q = true /\ fq_active q <> 0%nat /\ array_get (fq_pipes q) (fq_current q) = Some p /\ is_message msg = true /\
  (exists rest, ip_queue w p = msg ++ rest /\ whole rest) /\ forall p', p' <> p -> fq_is_active q p' -> whole (ip_queue w p').

Definition fq_at (w : W) (q : fq) (p : Z) (msg : list frame) : Prop :=
  match msg with [] => fq_between w q | _ => fq_mid w q p msg end.

(** From [w] to [w'] messages with [P] were taken from the queues, and nothing else. *)
Definition drops (P : list frame -> Prop) (w w' : W) : Prop := forall p, exists msgs, Forall P msgs /\ ip_queue w p = concat msgs ++ ip_queue w' p.

Lemma drops_refl P w w' : (forall p, ip_queue w' p = ip_queue w p) -> drops P w w'.
Proof. intros H p. exists []. split; [constructor|]. by rewrite H. Qed.

Lemma drops_cons (P : list frame -> Prop) w w1 w' p f msg : P (f :: msg) -> ip_queue w p = (f :: msg) ++ ip_queue w1 p ->
  (forall p', p' <> p -> ip_queue w1 p' = ip_queue w p') -> drops P w1 w' -> drops P w w'.
Proof.
  intros Hu Hq Ho Hd p'. destruct (Hd p') as (msgs & Hall & E). destruct (decide (p' = p)) as [->|Hne].
  - exists ((f :: msg) :: msgs). split; [by constructor|]. rewrite Hq, E. simpl. by rewrite app_assoc.
  - exists msgs. split; [done|]. by rewrite <- Ho.
Qed.

Lemma drops_empty P w w' p : drops P w w' -> ip_queue w p = [] -> ip_queue w' p = [].
Proof. intros Hd E. destruct (Hd p) as (msgs & _ & E1). rewrite E in E1. symmetry in E1. by apply app_eq_nil in E1 as [_ E1]. Qed.

(** The frames the fair queue can still deliver: an upper bound for loops. *)
Definition fq_frames (w : W) (q : fq) : nat := sum_list ((fun p => length (ip_queue w p)) <$> a_items (fq_pipes q)).

Lemma whole_start f l : whole (f :: l) -> exists msg rest, l = msg ++ rest /\ is_message (f :: msg) = true /\ whole rest.
Proof.
  intros (msgs & Hl & Hall). destruct msgs as [|[|g m] msgs]; [done| |].
  - by apply Forall_cons_1 in Hall as [? _].
  - simpl in Hl. injection Hl as -> ->. apply Forall_cons_1 in Hall as [Hm Hall]. exists m, (concat msgs). split_and!; try done. by exists msgs.
Qed.

Lemma sum_list_perm (l l' : list nat) : l ≡ₚ l' -> sum_list l = sum_list l'.
Proof. induction 1; simpl; lia. Qed.

Lemma sum_list_other (g g' : Z -> nat) l p : (forall p', p' <> p -> g' p' = g p') -> p ∉ l -> sum_list (g' <$> l) = sum_list (g <$> l).
Proof.
  intros Hg Hp. induction l as [|x l IH]; [done|]. apply not_elem_of_cons in Hp as [Hne Hp].
  rewrite !fmap_cons. simpl. rewrite (Hg x) by done. f_equal. by apply IH.
Qed.

Lemma sum_list_one (g g' : Z -> nat) l p : (forall p', p' <> p -> g' p' = g p') -> NoDup l -> p ∈ l -> (sum_list (g' <$> l) + g p = sum_list (g <$> l) + g' p)%nat.
Proof.
  intros Hg Hnd Hp. induction l as [|x l IH]; [by apply not_elem_of_nil in Hp|]. rewrite !fmap_cons. simpl.
  apply list.NoDup_cons in Hnd as [Hx Hnd]. apply elem_of_cons in Hp as [->|Hp].
  - rewrite (sum_list_other g g' l x Hg Hx). lia.
  - specialize (IH Hnd Hp). rewrite (Hg x) by (intros ->; done). lia.
Qed.

(** The frames that are left after a frame was read. *)
Lemma fq_frames_read (w w' : W) q q' p f : array_wf (fq_pipes q) -> array_wf (fq_pipes q') ->
  (forall x, x ∈ a_items (fq_pipes q') <-> x ∈ a_items (fq_pipes q)) -> p ∈ a_items (fq_pipes q) ->
  ip_queue w p = f :: ip_queue w' p -> (forall p', p' <> p -> ip_queue w' p' = ip_queue w p') ->
  fq_frames w q = S (fq_frames w' q').
Proof.
  intros Ha Ha' Hmem Hp Hq Ho. unfold fq_frames.
  rewrite (sum_list_perm ((fun p => length (ip_queue w' p)) <$> a_items (fq_pipes q')) ((fun p => length (ip_queue w' p)) <$> a_items (fq_pipes q))).
  - pose proof (sum_list_one (fun p => length (ip_queue w p)) (fun p => length (ip_queue w' p)) (a_items (fq_pipes q)) p) as Hs.
    assert (length (ip_queue w p) = S (length (ip_queue w' p))) as Hl by (by rewrite Hq). cbn beta in Hs. rewrite Hl in Hs.
    cut (forall a b c : nat, (b + S c = a + c)%nat -> a = S b); [|lia]. intros Hcut. eapply Hcut.
    apply Hs; [intros p' Hne; by rewrite Ho|apply Ha|done].
  - apply fmap_Permutation. apply NoDup_Permutation; [apply Ha'|apply Ha|done].
Qed.

Lemma fq_at_length (w : W) q p msg : fq_at w q p msg -> (length msg <= fq_frames w q)%nat.
Proof.
  destruct msg as [|g msg]; [simpl; lia|]. intros (_ & _ & _ & Hp & _ & (rest & Hq & _) & _).
  assert (p ∈ a_items (fq_pipes q)) as Hmem by (by eapply list_elem_of_lookup_2). unfold fq_frames.
  apply (list_elem_of_fmap_2' (fun p => length (ip_queue w p)) _ p (length (ip_queue w p))) in Hmem; [|done].
  assert (length (g :: msg) <= length (ip_queue w p))%nat by (rewrite Hq, length_app; lia).
  revert Hmem. generalize ((fun p => length (ip_queue w p)) <$> a_items (fq_pipes q)). intros l Hin.
  induction l as [|x l IH]; [by apply not_elem_of_nil in Hin|]. apply elem_of_cons in Hin as [Hx|Hin]; simpl in *; [lia|].
  specialize (IH Hin). lia.
Qed.

(** Only pipes without frames stop being active. *)
Definition fq_shrinks (w : W) (q q' : fq) : Prop :=
  (forall p, fq_is_active q' p -> fq_is_active q p) /\ (forall p, fq_is_active q p -> ip_queue w p <> [] -> fq_is_active q' p).

(** What a receive between two messages does. *)
Lemma fq_recv_start (w : W) q : fq_between w q -> exists w' q' r, fq_recvpipe w q = Some (w', q', r) /\
  (forall x, x ∈ a_items (fq_pipes q') <-> x ∈ a_items (fq_pipes q)) /\
  match r with
  | None => (forall p, fq_is_active q p -> ip_queue w p = []) /\ (forall p, ip_queue w' p = ip_queue w p) /\ fq_between w' q' /\ fq_active q' = 0%nat
  | Some (p, f) => fq_is_active q p /\ exists msg rest, is_message (f :: msg) = true /\ whole rest /\
      ip_queue w p = f :: msg ++ rest /\ ip_queue w' p = msg ++ rest /\ (forall p', p' <> p -> ip_queue w' p' = ip_queue w p') /\
      fq_at w' q' p msg /\ fq_frames w q = S (fq_frames w' q') /\ fq_shrinks w q q'
  end.
Proof.
  intros (Hq & Hm & Hall). destruct (fq_recvpipe_ok w q Hq) as (w' & q' & r & -> & Hq' & Hmem & Hres); [congruence..|].
  exists w', q', r. split; [done|]. split; [done|]. destruct r as [[p f]|]; unfold fq_recv_result in Hres.
  - destruct Hres as (R1 & R2 & R3 & R4 & R5 & R6 & R7 & R8). split; [done|].
    destruct (whole_start f (ip_queue w' p)) as (msg & rest & Hl & Hmsg & Hrest); [rewrite <- R2; auto|].
    exists msg, rest. split_and!; try done; [by rewrite R2, Hl| |].
    + destruct msg as [|g msg]; cbn [fq_at].
      * split_and!; try done; [cbn [is_message] in Hmsg; apply negb_true_iff in Hmsg; congruence|].
        intros p' Hp'. destruct (decide (p' = p)) as [->|Hne]; [by rewrite Hl|]. rewrite R3 by done. auto.
      * cbn [is_message] in Hmsg. apply andb_true_iff in Hmsg as [Hf Hmsg]. rewrite Hf in *.
        split_and!; try done; [destruct R6 as (k & Hk & _); lia|by exists rest|]. intros p' Hne Hp'. rewrite R3 by done. auto.
    + apply (fq_frames_read _ _ _ _ p f); try done; [apply Hq|apply Hq'|]. by eapply in_part_mem.
  - destruct Hres as (R1 & R2 & R3 & R4). split_and!; try done. split; [done|]. split; [congruence|]. intros p (k & Hk & _). lia.
Qed.

(** In the middle of a message the next frame of it is received. *)
Lemma fq_recv_mid (w : W) q p f msg : fq_mid w q p (f :: msg) -> exists w' q', fq_recvpipe w q = Some (w', q', Some (p, f)) /\
  a_items (fq_pipes q') = a_items (fq_pipes q) /\ fq_at w' q' p msg /\ ip_queue w p = f :: ip_queue w' p /\ (exists rest, ip_queue w' p = msg ++ rest) /\
  (forall p', p' <> p -> ip_queue w' p' = ip_queue w p') /\ fq_frames w q = S (fq_frames w' q') /\ (forall p', fq_is_active q p' <-> fq_is_active q' p').
Proof.
  intros (Hq & Hm & Hz & Hp & Hmsg & (rest & Hw & Hrest) & Hoth).
  destruct (fq_recv_current w q p f (msg ++ rest) Hq Hz Hp Hw) as (w1 & -> & Hw1).
  assert (ip_queue w1 p = msg ++ rest) as Hwp by (by rewrite Hw1, decide_True).
  assert (forall p', p' <> p -> ip_queue w1 p' = ip_queue w p') as Ho by (intros p' Hne; by rewrite Hw1, decide_False).
  eexists w1, _. split; [done|]. assert (p ∈ a_items (fq_pipes q)) as Hmem by (by eapply list_elem_of_lookup_2).
  pose proof Hq as [Ha Hact Hc]. split; [by destruct (fr_more f)|]. split_and!; try done.
  - destruct msg as [|g msg]; cbn [fq_at is_message] in *.
    + apply negb_true_iff in Hmsg. rewrite Hmsg. cbn [negb]. split_and!; try done.
      * constructor; simpl; try done. left. apply Nat.mod_upper_bound. done.
      * intros p' Hp'. destruct (decide (p' = p)) as [->|Hne]; [by rewrite Hwp|]. rewrite Ho by done. auto.
    + apply andb_true_iff in Hmsg as [Hf Hmsg]. rewrite Hf. cbn [negb]. split_and!; try done; [by exists rest|].
      intros p' Hne Hp'. rewrite Ho by done. auto.
  - by rewrite Hwp.
  - by exists rest.
  - apply (fq_frames_read _ _ _ _ p f); try done; [by destruct (fr_more f)| |by rewrite Hwp]. by destruct (fr_more f).
  - intros p'. by destruct (fr_more f).
Qed.

End duplex.

(** ** Simple pipes: queues, credits, and the pipes that end in a delimiter *)

Record dpipes := DPipes { dp_in : queues; dp_out : credits; dp_closing : gset Z }.

(** A pipe that takes no more messages. *)
Definition dp_shut (o : credits) (p : Z) : credits := let '(_, pend, sent) := credit_of o p in <[p := (0%nat, pend, sent)]> o.

Definition dp_shut_if (b : bool) (w : dpipes) (p : Z) : dpipes :=
  DPipes (dp_in w) (if b then dp_shut (dp_out w) p else dp_out w) (dp_closing w).

#[export] Instance dpipes_in : InPipes dpipes := {
  ip_read w p :=
    let* (q, r) := ip_read (dp_in w) p in
    Some (dp_shut_if (bool_decide (r = None) && bool_decide (p ∈ dp_closing w)) (DPipes q (dp_out w) (dp_closing w)) p, r);
  ip_check_read w p :=
    let* (q, b) := ip_check_read (dp_in w) p in
    Some (dp_shut_if (negb b && bool_decide (p ∈ dp_closing w)) (DPipes q (dp_out w) (dp_closing w)) p, b);
  ip_queue w p := ip_queue (dp_in w) p;
}.

#[export] Instance dpipes_out : OutPipes dpipes := {
  op_write w p f := let* (o, b) := op_write (dp_out w) p f in Some (DPipes (dp_in w) o (dp_closing w), b);
  op_check_write w p := let* (o, b) := op_check_write (dp_out w) p in Some (DPipes (dp_in w) o (dp_closing w), b);
  op_flush w p := let* o := op_flush (dp_out w) p in Some (DPipes (dp_in w) o (dp_closing w));
  op_rollback w p := let* o := op_rollback (dp_out w) p in Some (DPipes (dp_in w) o (dp_closing w));
  op_room w p := op_room (dp_out w) p;
  op_pending w p := op_pending (dp_out w) p;
  op_sent w p := op_sent (dp_out w) p;
}.

#[export] Instance dpipes_duplex : Duplex dpipes := { dx_open w p := negb (bool_decide (p ∈ dp_closing w)) }.

Lemma dpipes_in_laws : InPipesLaws dpipes.
Proof.
  constructor; intros w p; cbn [ip_read ip_check_read ip_queue dpipes_in].
  - destruct (ip_read_ok (dp_in w) p) as (w' & -> & Hq). cbn [mbind option_bind]. eexists. split; [done|]. exact Hq.
  - destruct (ip_check_ok (dp_in w) p) as (w' & -> & Hq). cbn [mbind option_bind]. eexists. split; [done|]. exact Hq.
Qed.

Lemma dpipes_out_laws : OutPipesLaws dpipes.
Proof.
  constructor; intros w p; cbn [op_write op_check_write op_flush op_rollback op_room op_pending op_sent dpipes_out].
  - intros f. destruct (op_write_ok (dp_out w) p f) as (w' & -> & Hq). cbn [mbind option_bind]. eexists. split; [done|]. exact Hq.
  - destruct (op_check_write_ok (dp_out w) p) as (w' & -> & Hq). cbn [mbind option_bind]. eexists. split; [done|]. exact Hq.
  - destruct (op_flush_ok (dp_out w) p) as (w' & -> & Hq). cbn [mbind option_bind]. eexists. split; [done|]. exact Hq.
  - destruct (op_rollback_ok (dp_out w) p) as (w' & -> & Hq). cbn [mbind option_bind]. eexists. split; [done|]. exact Hq.
Qed.

Lemma dp_shut_credit o p p' : credit_of (dp_shut o p) p' = if decide (p' = p) then (0%nat, (credit_of o p).1.2, (credit_of o p).2) else credit_of o p'.
Proof. unfold dp_shut. destruct (credit_of o p) as [[n pend] sent] eqn:E. rewrite credit_of_insert. by case_decide. Qed.

Lemma dp_shut_if_spec b w p : out_same w (dp_shut_if b w p) /\
  (forall p', op_room (dp_shut_if b w p) p' = if bool_decide (p' = p) && b then false else op_room w p').
Proof.
  split.
  - intros p'. cbn. destruct b; [|done]. rewrite dp_shut_credit. case_decide; [by subst|done].
  - intros p'. cbn. destruct b; [|by rewrite andb_false_r]. rewrite dp_shut_credit. case_decide as E; [by rewrite bool_decide_eq_true_2|by rewrite bool_decide_eq_false_2].
Qed.

#[export] Instance dpipes_laws : DuplexLaws dpipes.
Proof.
  constructor; [apply dpipes_in_laws|apply dpipes_out_laws|..]; intros w p.
  - intros w' r. cbn [ip_read dpipes_in]. destruct (ip_read (dp_in w) p) as [[q r']|]; [|done]. cbn [mbind option_bind]. intros [= <- <-].
    destruct (dp_shut_if_spec (bool_decide (r' = None) && bool_decide (p ∈ dp_closing w)) (DPipes q (dp_out w) (dp_closing w)) p) as [H1 H2].
    split_and!; [exact H1| |done]. intros p'. rewrite H2. cbn [dx_open dpipes_duplex]. by rewrite negb_involutive, andb_assoc.
  - intros w' b. cbn [ip_check_read dpipes_in]. destruct (ip_check_read (dp_in w) p) as [[q b']|]; [|done]. cbn [mbind option_bind]. intros [= <- <-].
    destruct (dp_shut_if_spec (negb b' && bool_decide (p ∈ dp_closing w)) (DPipes q (dp_out w) (dp_closing w)) p) as [H1 H2].
    split_and!; [exact H1| |done]. intros p' Hp'. rewrite H2. cbn [dx_open dpipes_duplex] in Hp'.
    destruct (bool_decide_reflect (p' = p)) as [->|]; [|done]. apply negb_true_iff in Hp'. by rewrite Hp', andb_false_r.
  - intros f w' b. cbn [op_write dpipes_out]. destruct (op_write (dp_out w) p f) as [[o b']|]; [|done]. by intros [= <- <-].
  - intros w' b. cbn [op_check_write dpipes_out]. destruct (op_check_write (dp_out w) p) as [[o b']|]; [|done]. by intros [= <- <-].
  - intros w'. cbn [op_flush dpipes_out]. destruct (op_flush (dp_out w) p) as [o|]; [|done]. by intros [= <-].
  - intros w'. cbn [op_rollback dpipes_out]. destruct (op_rollback (dp_out w) p) as [o|]; [|done]. by intros [= <-].
Qed.
