(* ===== verification/Xpub.v ===== *)
(** * The publishing sockets, [xpub_t] and [pub_t] (src/src/xpub.cpp, src/src/pub.cpp)

    An XPUB socket keeps the subscriptions of its pipes in a multi-trie
    and sends a message to the pipes with a subscription that is a prefix
    of its first part.  Subscriptions come in on the pipes, as messages
    that begin with a byte 0 or 1 or as commands; those the user may want
    to see are kept for [xrecv].  In manual mode the user decides on every
    subscription.  The metadata of the messages are left out. *)

From S2P Require Import Prelude Array Frame Mtrie Dist Duplex.

(** What the socket uses of its pipes besides [Duplex]. *)
Class PubPipes (W : Type) := {
  pp_check_hwm : W -> Z -> bool;
  pp_set_nodelay : W -> Z -> W;
}.

Class PubPipesLaws (W : Type) `{Duplex W} `{PubPipes W} := {
  pp_nodelay w p p' : ip_queue (pp_set_nodelay w p) p' = ip_queue w p' /\ dx_open (pp_set_nodelay w p) p' = dx_open w p' /\
    op_room (pp_set_nodelay w p) p' = op_room w p' /\ op_pending (pp_set_nodelay w p) p' = op_pending w p' /\
    op_sent (pp_set_nodelay w p) p' = op_sent w p';
}.

(** ** State *)

(** The settings. *)
Record xopts := XOpts {
  xo_pub : bool;                  (** [options.type == ZMQ_PUB] *)
  xo_invert_matching : bool;      (** [options.invert_matching] *)
  xo_verbose_subs : bool;
  xo_verbose_unsubs : bool;
  xo_only_first_subscribe : bool;
  xo_lossy : bool;
  xo_manual : bool;
  xo_send_last_pipe : bool;
  xo_welcome_msg : bytes;
}.

(** What waits for the user: the deques [_pending_data] and
    [_pending_flags], which grow and shrink together, and
    [_pending_pipes]. *)
Record xpending := XPending {
  xq_data : list (bytes * Z);
  xq_pipes : list (option Z);
  xq_last_pipe : option Z;
}.

Record xpub := Xpub {
  xp_subscriptions : mtrie;
  xp_manual_subscriptions : mtrie;
  xp_dist : dist;
  xp_more_send : bool;
  xp_more_recv : bool;
  xp_process_subscribe : bool;
  xp_opts : xopts;
  xp_pending : xpending;
}.

Definition xpub_new (pub invert : bool) : xpub :=
  Xpub mtrie_new mtrie_new dist_new false false false
    (XOpts pub invert false false false true false false []) (XPending [] [] None).

Definition xp_set_subs (x : xpub) (s : mtrie) : xpub :=
  Xpub s (xp_manual_subscriptions x) (xp_dist x) (xp_more_send x) (xp_more_recv x) (xp_process_subscribe x) (xp_opts x) (xp_pending x).
Definition xp_set_manual (x : xpub) (s : mtrie) : xpub :=
  Xpub (xp_subscriptions x) s (xp_dist x) (xp_more_send x) (xp_more_recv x) (xp_process_subscribe x) (xp_opts x) (xp_pending x).
Definition xp_set_dist (x : xpub) (d : dist) : xpub :=
  Xpub (xp_subscriptions x) (xp_manual_subscriptions x) d (xp_more_send x) (xp_more_recv x) (xp_process_subscribe x) (xp_opts x) (xp_pending x).
Definition xp_set_sending (x : xpub) (d : dist) (more : bool) : xpub :=
  Xpub (xp_subscriptions x) (xp_manual_subscriptions x) d more (xp_more_recv x) (xp_process_subscribe x) (xp_opts x) (xp_pending x).
Definition xp_set_recv (x : xpub) (more process : bool) : xpub :=
  Xpub (xp_subscriptions x) (xp_manual_subscriptions x) (xp_dist x) (xp_more_send x) more process (xp_opts x) (xp_pending x).
Definition xp_set_opts (x : xpub) (o : xopts) : xpub :=
  Xpub (xp_subscriptions x) (xp_manual_subscriptions x) (xp_dist x) (xp_more_send x) (xp_more_recv x) (xp_process_subscribe x) o (xp_pending x).
Definition xp_set_pending (x : xpub) (q : xpending) : xpub :=
  Xpub (xp_subscriptions x) (xp_manual_subscriptions x) (xp_dist x) (xp_more_send x) (xp_more_recv x) (xp_process_subscribe x) (xp_opts x) q.

(** A new message with these bytes, [init_size]. *)
Definition new_frame (flags : Z) (data : bytes) : frame :=
  Frame (if Z.of_nat (length data) <=? 33 then type_vsm else type_lmsg) flags data.

(** ** Subscriptions *)

(** [command_body] and [command_body_size] of SUBSCRIBE and CANCEL; [None]
    when the message is shorter than the name of the command. *)
Definition command_body (f : frame) : option bytes :=
  let n := if fr_is_subscribe f then 10%nat else 7%nat in
  if (length (fr_body f) <? n)%nat then None else Some (drop n (fr_body f)).

(** The subscription ([true]) or cancellation in a message, if it is one. *)
Definition sub_request (f : frame) : option (option (bool * bytes)) :=
  if fr_is_subscribe f || fr_is_cancel f then let* b := command_body f in Some (Some (fr_is_subscribe f, b))
  else
    match fr_body f with
    | c :: data => Some (if (c =? 0) || (c =? 1) then Some (c =? 1, data) else None)
    | [] => Some None
    end.

Definition xq_push (q : xpending) (data : bytes) (flags : Z) : xpending :=
  XPending (xq_data q ++ [(data, flags)]) (xq_pipes q) (xq_last_pipe q).

(** The old-style message handed to the user. *)
Definition sub_message (subscribe : bool) (data : bytes) : bytes := (if subscribe then 1 else 0) :: data.

(** A subscription in manual mode. *)
Definition xpub_manual_request (x : xpub) (pipe : Z) (subscribe : bool) (data : bytes) : option xpub :=
  let* manual := (if subscribe then fst <$> mtrie_add (xp_manual_subscriptions x) data pipe
                  else fst <$> mtrie_rm (xp_manual_subscriptions x) data pipe) in
  let q := xp_pending x in
  let q := XPending (xq_data q) (xq_pipes q ++ [Some pipe]) (xq_last_pipe q) in
  Some (xp_set_pending (xp_set_manual x manual) (xq_push q (sub_message subscribe data) 0)).

(** A subscription that is applied at once. *)
Definition xpub_request (x : xpub) (pipe : Z) (subscribe : bool) (data : bytes) : option xpub :=
  let* (subs, notify) :=
    (if subscribe then
       let* (s, first_added) := mtrie_add (xp_subscriptions x) data pipe in
       Some (s, first_added || xo_verbose_subs (xp_opts x))
     else
       let* (s, rm_result) := mtrie_rm (xp_subscriptions x) data pipe in
       Some (s, match rm_result with values_remain => false | _ => true end || xo_verbose_unsubs (xp_opts x))) in
  let x := xp_set_subs x subs in
  Some (if negb (xo_pub (xp_opts x)) && (notify : bool)
        then xp_set_pending x (xq_push (xp_pending x) (sub_message subscribe data) 0) else x).

(** One message from a pipe: the body of the loop of [xread_activated]. *)
Definition xpub_read_msg (x : xpub) (pipe : Z) (msg : frame) : option xpub :=
  let first_part := negb (xp_more_recv x) in
  let* request := if first_part || xp_process_subscribe x then sub_request msg else Some None in
  let process := if first_part then negb (xo_only_first_subscribe (xp_opts x)) || bool_decide (is_Some request)
                 else xp_process_subscribe x in
  let x := xp_set_recv x (fr_more msg) process in
  match request with
  | None => Some (xp_set_pending x (xq_push (xp_pending x) (fr_body msg) (fr_flags msg)))
  | Some (subscribe, data) =>
      if xo_manual (xp_opts x) then xpub_manual_request x pipe subscribe data else xpub_request x pipe subscribe data
  end.

(** ** Options *)

Definition ZMQ_SUBSCRIBE : Z := 6.
Definition ZMQ_UNSUBSCRIBE : Z := 7.
Definition ZMQ_XPUB_VERBOSE : Z := 40.
Definition ZMQ_XPUB_NODROP : Z := 69.
Definition ZMQ_XPUB_MANUAL : Z := 71.
Definition ZMQ_XPUB_WELCOME_MSG : Z := 72.
Definition ZMQ_XPUB_VERBOSER : Z := 78.
Definition ZMQ_XPUB_MANUAL_LAST_VALUE : Z := 98.
Definition ZMQ_ONLY_FIRST_SUBSCRIBE : Z := 108.

Definition xpub_flag_option (option_ : Z) : bool :=
  bool_decide (option_ ∈ [ZMQ_XPUB_VERBOSE; ZMQ_XPUB_VERBOSER; ZMQ_XPUB_MANUAL_LAST_VALUE; ZMQ_XPUB_NODROP; ZMQ_XPUB_MANUAL;
                          ZMQ_ONLY_FIRST_SUBSCRIBE]).

Definition xpub_set_flag (o : xopts) (option_ value : Z) : xopts :=
  let '(XOpts pub inv vs vu first lossy manual last_ welcome) := o in
  let on := negb (value =? 0) in
  if option_ =? ZMQ_XPUB_VERBOSE then XOpts pub inv on false first lossy manual last_ welcome
  else if option_ =? ZMQ_XPUB_VERBOSER then XOpts pub inv on on first lossy manual last_ welcome
  else if option_ =? ZMQ_XPUB_MANUAL_LAST_VALUE then XOpts pub inv vs vu first lossy on on welcome
  else if option_ =? ZMQ_XPUB_NODROP then XOpts pub inv vs vu first (value =? 0) manual last_ welcome
  else if option_ =? ZMQ_XPUB_MANUAL then XOpts pub inv vs vu first lossy on last_ welcome
  else if option_ =? ZMQ_ONLY_FIRST_SUBSCRIBE then XOpts pub inv vs vu on lossy manual last_ welcome
  else o.

Definition xpub_set_welcome (o : xopts) (welcome : bytes) : xopts :=
  XOpts (xo_pub o) (xo_invert_matching o) (xo_verbose_subs o) (xo_verbose_unsubs o) (xo_only_first_subscribe o) (xo_lossy o)
    (xo_manual o) (xo_send_last_pipe o) welcome.

(** The result [false] is EINVAL.  The value is given as bytes and, when it
    has the size of an int, as that. *)
Definition xpub_xsetsockopt (x : xpub) (option_ : Z) (optval : bytes) (as_int : option Z) : option (xpub * bool) :=
  if xpub_flag_option option_ then
    let value := default (-1) as_int in
    if value <? 0 then Some (x, false) else Some (xp_set_opts x (xpub_set_flag (xp_opts x) option_ value), true)
  else if (option_ =? ZMQ_SUBSCRIBE) && xo_manual (xp_opts x) then
    match xq_last_pipe (xp_pending x) with
    | None => Some (x, true)
    | Some p => let* (s, _) := mtrie_add (xp_subscriptions x) optval p in Some (xp_set_subs x s, true)
    end
  else if (option_ =? ZMQ_UNSUBSCRIBE) && xo_manual (xp_opts x) then
    match xq_last_pipe (xp_pending x) with
    | None => Some (x, true)
    | Some p => let* (s, _) := mtrie_rm (xp_subscriptions x) optval p in Some (xp_set_subs x s, true)
    end
  else if option_ =? ZMQ_XPUB_WELCOME_MSG then Some (xp_set_opts x (xpub_set_welcome (xp_opts x) optval), true)
  else Some (x, false).

(** ** The end of a pipe *)

(** [send_unsubscription], for every key the trie reports. *)
Definition send_unsubscription (o : xopts) (q : xpending) (data : bytes) : xpending :=
  if xo_pub o then q
  else
    let q := xq_push q (sub_message false data) 0 in
    if xo_manual o then XPending (xq_data q) (xq_pipes q ++ [None]) None else q.

Definition send_unsubscriptions (x : xpub) (keys : list bytes) : xpub :=
  xp_set_pending x (foldl (send_unsubscription (xp_opts x)) (xp_pending x) keys).

Definition xpub_xpipe_terminated (x : xpub) (pipe : Z) : option xpub :=
  let* x :=
    (if xo_manual (xp_opts x) then
       let* (manual, keys) := mtrie_rm_pipe (xp_manual_subscriptions x) pipe false in
       let x := send_unsubscriptions (xp_set_manual x manual) keys in
       let* (subs, _) := mtrie_rm_pipe (xp_subscriptions x) pipe false in
       Some (xp_set_subs x subs)
     else
       let* (subs, keys) := mtrie_rm_pipe (xp_subscriptions x) pipe (negb (xo_verbose_unsubs (xp_opts x))) in
       Some (send_unsubscriptions (xp_set_subs x subs) keys)) in
  let* d := dist_pipe_terminated (xp_dist x) pipe in
  Some (xp_set_dist x d).

Definition xpub_xwrite_activated (x : xpub) (pipe : Z) : option xpub :=
  let* d := dist_activated (xp_dist x) pipe in Some (xp_set_dist x d).

(** ** Receiving: the messages kept for the user *)

Definition xpub_xrecv (x : xpub) : xpub * option frame :=
  let q := xp_pending x in
  match xq_data q with
  | [] => (x, None)
  | (data, flags) :: rest =>
      let q :=
        (if xo_manual (xp_opts x) then
           match xq_pipes q with
           | [] => q
           | p :: ps => XPending (xq_data q) ps p
           end
         else q) in
      (xp_set_pending x (XPending rest (xq_pipes q) (xq_last_pipe q)), Some (new_frame flags data))
  end.

Definition xpub_xhas_in (x : xpub) : bool := negb (bool_decide (xq_data (xp_pending x) = [])).
Definition xpub_xhas_out (x : xpub) : bool := dist_has_out (xp_dist x).

Section xpub.
Context {W : Type} {IP : InPipes W} {OP : OutPipes W} {DX : Duplex W} {DL : DuplexLaws W} {PP : PubPipes W}.

(** [while (pipe_->read (&msg))] *)
Fixpoint xpub_read_loop (fuel : nat) (w : W) (x : xpub) (pipe : Z) : option (W * xpub) :=
  let* (w, r) := ip_read w pipe in
  match r with
  | None => Some (w, x)
  | Some msg =>
      match fuel with
      | O => None
      | S fuel' => let* x := xpub_read_msg x pipe msg in xpub_read_loop fuel' w x pipe
      end
  end.

Definition xpub_xread_activated (w : W) (x : xpub) (pipe : Z) : option (W * xpub) :=
  xpub_read_loop (length (ip_queue w pipe)) w x pipe.

Definition xpub_xattach_pipe (w : W) (x : xpub) (pipe : Z) (subscribe_to_all : bool) : option (W * xpub) :=
  let* d := dist_attach (xp_dist x) pipe in
  let x := xp_set_dist x d in
  let* subs := (if subscribe_to_all then fst <$> mtrie_add (xp_subscriptions x) [] pipe else Some (xp_subscriptions x)) in
  let x := xp_set_subs x subs in
  let welcome := xo_welcome_msg (xp_opts x) in
  let* w :=
    (if (0 <? length welcome)%nat then
       let* (w, ok) := op_write w pipe (new_frame 0 welcome) in
       zmq_assert (ok : bool) ;; op_flush w pipe
     else Some w) in
  xpub_xread_activated w x pipe.

(** ** Sending *)

Fixpoint xpub_mark (d : dist) (last_ : option (option Z)) (pipes : list Z) : option dist :=
  match pipes with
  | [] => Some d
  | p :: pipes' =>
      let* d :=
        (match last_ with
         | Some l => if bool_decide (l = Some p) then dist_match d p else Some d   (** [mark_last_pipe_as_matching] *)
         | None => dist_match d p                                                  (** [mark_as_matching] *)
         end) in
      xpub_mark d last_ pipes'
  end.

(** The pipes the first part of a message matches. *)
Definition xpub_select (x : xpub) (data : bytes) : option xpub :=
  let o := xp_opts x in
  let q := xp_pending x in
  let only_last := xo_manual o && bool_decide (is_Some (xq_last_pipe q)) && xo_send_last_pipe o in
  let* pipes := mtrie_match (xp_subscriptions x) data in
  let* d := xpub_mark (xp_dist x) (if only_last then Some (xq_last_pipe q) else None) pipes in
  let x := xp_set_dist x d in
  let x := if only_last then xp_set_pending x (XPending (xq_data q) (xq_pipes q) None) else x in
  if xo_invert_matching o then let* d := dist_reverse_match (xp_dist x) in Some (xp_set_dist x d) else Some x.

(** Sending to the selected pipes; [false] is EAGAIN. *)
Definition xpub_distribute (w : W) (x : xpub) (msg : frame) : option (W * xpub * bool) :=
  let msg_more := fr_more msg in
  if xo_lossy (xp_opts x) || dist_check_hwm (xp_dist x) (pp_check_hwm w) then
    let* (w, d, _) := dist_send_to_matching w (xp_dist x) msg in
    let d := if negb msg_more then dist_unmatch d else d in
    Some (w, xp_set_sending x d msg_more, true)
  else Some (w, x, false).

Definition xpub_xsend (w : W) (x : xpub) (msg : frame) : option (W * xpub * bool) :=
  let* x := if negb (xp_more_send x) then xpub_select x (fr_body msg) else Some x in
  xpub_distribute w x msg.

(** ** PUB *)

Definition pub_xattach_pipe (w : W) (x : xpub) (pipe : Z) (subscribe_to_all : bool) : option (W * xpub) :=
  xpub_xattach_pipe (pp_set_nodelay w pipe) x pipe subscribe_to_all.

(** ENOTSUP *)
Definition pub_xrecv (x : xpub) : xpub * option frame := (x, None).
Definition pub_xhas_in (x : xpub) : bool := false.

End xpub.

(** The simple pipes. *)
#[export] Instance dpipes_pub : PubPipes dpipes := {
  pp_check_hwm w p := op_room w p;
  pp_set_nodelay w p := w;
}.

#[export] Instance dpipes_pub_laws : PubPipesLaws dpipes.
Proof. constructor. done. Qed.
