(* ===== verification/XpubProps.v ===== *)
(** * What publishing guarantees (src/src/xpub.cpp over dist.cpp and generic_mtrie_impl.hpp)

    A message goes, whole, to the pipes that subscribed to a prefix of
    its first part, or in inverted mode to the others, and have room; what
    the pipes asked for is what the sequence of their requests says. *)

From S2P Require Import Prelude Array Frame Subscription Mtrie Dist Duplex Xpub.

(** ** Invariant *)

Record xpub_inv (x : xpub) : Prop := {
  xi_subs : mtrie_wf (xp_subscriptions x);
  xi_manual : mtrie_wf (xp_manual_subscriptions x);
  xi_dist : dist_inv (xp_dist x);
  xi_more : di_more (xp_dist x) = xp_more_send x;
  xi_attached k p : p ∈ mtrie_vals (xp_subscriptions x) k -> p ∈ a_items (di_pipes (xp_dist x));
}.

(** Some prefix of the data is subscribed by the pipe. *)
Definition xpub_wants (x : xpub) (data : bytes) (p : Z) : Prop :=
  exists k, k `prefix_of` data /\ p ∈ mtrie_vals (xp_subscriptions x) k.

(** The pipes a message is meant for. *)
Definition xpub_chosen (x : xpub) (data : bytes) (p : Z) : Prop :=
  di_is_eligible (xp_dist x) p /\ if xo_invert_matching (xp_opts x) then ~ xpub_wants x data p else xpub_wants x data p.

(** Between two messages, no pipe selected. *)
Definition xpub_idle (x : xpub) : Prop := xp_more_send x = false /\ di_matching (xp_dist x) = 0%nat.

(** The mode in which the next message only goes to the last pipe. *)
Definition xpub_only_last (x : xpub) : bool :=
  xo_manual (xp_opts x) && bool_decide (is_Some (xq_last_pipe (xp_pending x))) && xo_send_last_pipe (xp_opts x).

Lemma xpub_new_inv pub invert : xpub_inv (xpub_new pub invert).
Proof.
  constructor; simpl; try apply mtrie_new_wf; [apply dist_new_inv|done|]. intros k p. rewrite mtrie_vals_new. set_solver.
Qed.

Lemma elem_prefix_pipes t d p : p ∈ prefix_pipes t d <-> exists k, k `prefix_of` d /\ p ∈ mtrie_vals t k.
Proof.
  unfold prefix_pipes. rewrite list_elem_of_In, in_concat. setoid_rewrite <- list_elem_of_In. split.
  - intros (l & Hl & Hp). apply list_elem_of_fmap in Hl as (i & -> & _). apply elem_of_elements in Hp.
    exists (take i d). split; [|done]. exists (drop i d). by rewrite take_drop.
  - intros (k & [d' ->] & Hp). exists (elements (mtrie_vals t k)). rewrite elem_of_elements. split; [|done].
    apply list_elem_of_fmap. exists (length k). rewrite take_app_length. split; [done|]. apply elem_of_seq. rewrite length_app. lia.
Qed.

(** ** Selection *)

(** What the marking callback of [xsend] does with a pipe. *)
Definition marks (last_ : option (option Z)) (p : Z) : Prop := match last_ with Some l => l = Some p | None => True end.

Lemma xpub_mark_spec last_ pipes : forall d, dist_inv d -> di_more d = false -> (forall p, p ∈ pipes -> p ∈ a_items (di_pipes d)) ->
  exists d', xpub_mark d last_ pipes = Some d' /\ dist_inv d' /\ di_more d' = false /\
    (forall p, di_is_matching d' p <-> di_is_matching d p \/ p ∈ pipes /\ marks last_ p /\ di_is_eligible d p) /\
    (forall p, di_is_eligible d' p <-> di_is_eligible d p) /\
    (forall p, p ∈ a_items (di_pipes d') <-> p ∈ a_items (di_pipes d)).
Proof.
  induction pipes as [|p pipes IH]; intros d Hd Hm Hin; cbn [xpub_mark].
  - exists d. split_and!; try done. intros p. split; [by left|]. by intros [?|[?%not_elem_of_nil _]].
  - assert (exists d1, (match last_ with Some l => if bool_decide (l = Some p) then dist_match d p else Some d | None => dist_match d p end) = Some d1 /\
      dist_inv d1 /\ di_more d1 = false /\ (forall q, di_is_matching d1 q <-> di_is_matching d q \/ q = p /\ marks last_ p /\ di_is_eligible d p) /\
      (forall q, di_is_eligible d1 q <-> di_is_eligible d q) /\ (forall q, q ∈ a_items (di_pipes d1) <-> q ∈ a_items (di_pipes d)))
      as (d1 & -> & Hd1 & Hm1 & Hmt1 & Hel1 & Hmem1).
    { destruct (dist_match_spec d p Hd Hm) as (d1 & E & Hd1 & Hm1 & Hmt1 & Hel1 & Hmem1); [apply Hin; by left|].
      destruct last_ as [l|]; [case_bool_decide as Hl|]; [| |].
      - exists d1. split_and!; try done. cbn [marks]. naive_solver.
      - exists d. split_and!; try done. cbn [marks]. naive_solver.
      - exists d1. split_and!; try done. cbn [marks]. naive_solver. }
    cbn [mbind option_bind].
    destruct (IH d1 Hd1 Hm1) as (d' & -> & Hd' & Hm' & Hmt & Hel & Hmem); [intros q Hq; apply Hmem1, Hin; by right|].
    exists d'. split_and!; try done.
    + intros q. rewrite Hmt, Hmt1, Hel1, elem_of_cons. split; [|naive_solver].
      intros [[?|(-> & ? & ?)]|(? & ? & ?)]; [by left|right; split_and!; [by left|done..]|right; split_and!; [by right|done..]].
    + intros q. by rewrite Hel, Hel1.
    + intros q. by rewrite Hmem, Hmem1.
Qed.

Lemma in_part_zero a p : ~ in_part a 0 p.
Proof. intros (k & Hk & _). lia. Qed.

Lemma xpub_select_spec x data : xpub_inv x -> xpub_idle x -> xpub_only_last x = false ->
  exists d, xpub_select x data = Some (xp_set_dist x d) /\ dist_inv d /\ di_more d = false /\
    (forall p, di_is_matching d p <-> xpub_chosen x data p) /\ (forall p, di_is_eligible d p <-> di_is_eligible (xp_dist x) p) /\
    (forall p, p ∈ a_items (di_pipes d) <-> p ∈ a_items (di_pipes (xp_dist x))).
Proof.
  intros [Hs _ Hd Hm Ha] [Hidle H0] Hlast. unfold xpub_select. fold (xpub_only_last x). rewrite Hlast, (mtrie_match_spec data _ Hs).
  cbn [mbind option_bind]. rewrite Hidle in Hm.
  destruct (xpub_mark_spec None (prefix_pipes (xp_subscriptions x) data) (xp_dist x) Hd Hm) as (d1 & -> & Hd1 & Hm1 & Hmt & Hel & Hmem).
  { intros p (k & _ & Hp)%elem_prefix_pipes. by apply (Ha k). }
  cbn [mbind option_bind marks] in *. setoid_rewrite elem_prefix_pipes in Hmt. unfold di_is_matching in Hmt at 2. rewrite H0 in Hmt.
  unfold xpub_chosen, xpub_wants. destruct (xo_invert_matching (xp_opts x)) eqn:Hinv.
  - cbn [xp_dist xp_set_dist]. destruct (dist_reverse_match_ok d1 Hd1 Hm1) as (d & E & Hd' & Hm' & Hmt' & Hel'). rewrite E. cbn [mbind option_bind].
    exists d. split_and!; try done.
    + intros p. rewrite Hmt', Hel, Hmt. pose proof (in_part_zero (di_pipes (xp_dist x)) p). tauto.
    + intros p. by rewrite Hel', Hel.
    + intros p. by rewrite (dist_reverse_loop_mem _ _ _ _ E), <- Hmem.
  - exists d1. split_and!; try done. intros p. rewrite Hmt. pose proof (in_part_zero (di_pipes (xp_dist x)) p). tauto.
Qed.

(** Selection never fails between two messages, whatever is selected. *)
Lemma xpub_select_ok x data : xpub_inv x -> xp_more_send x = false ->
  exists d q, xpub_select x data = Some (xp_set_pending (xp_set_dist x d) q) /\ xpub_inv (xp_set_pending (xp_set_dist x d) q).
Proof.
  intros [Hs Hmn Hd Hm Ha] Hidle. rewrite Hidle in Hm. unfold xpub_select. fold (xpub_only_last x). rewrite (mtrie_match_spec data _ Hs). cbn [mbind option_bind].
  destruct (xpub_mark_spec (if xpub_only_last x then Some (xq_last_pipe (xp_pending x)) else None) (prefix_pipes (xp_subscriptions x) data) (xp_dist x) Hd Hm)
    as (d1 & -> & Hd1 & Hm1 & _ & _ & Hmem1).
  { intros p (k & _ & Hp)%elem_prefix_pipes. by apply (Ha k). }
  cbn [mbind option_bind].
  assert (exists d, (if xo_invert_matching (xp_opts x) then dist_reverse_match d1 else Some d1) = Some d /\ dist_inv d /\ di_more d = false /\
    (forall p, p ∈ a_items (di_pipes d) <-> p ∈ a_items (di_pipes (xp_dist x)))) as (d & E & Hd' & Hm' & Hmem).
  { destruct (xo_invert_matching (xp_opts x)); [|by exists d1].
    destruct (dist_reverse_match_ok d1 Hd1 Hm1) as (d & E & Hd' & Hm' & _). exists d. split_and!; try done.
    intros p. by rewrite (dist_reverse_loop_mem _ _ _ _ E), <- Hmem1. }
  assert (forall q, xpub_inv (xp_set_pending (xp_set_dist x d) q)) as Hinv.
  { intros q. constructor; cbn; [done|done|done|congruence|]. intros k p Hp. apply Hmem. by apply (Ha k). }
  exists d, (if xpub_only_last x then XPending (xq_data (xp_pending x)) (xq_pipes (xp_pending x)) None else xp_pending x).
  split; [|apply Hinv]. destruct x as [s mn d0 ms mr ps o q]. cbn in *.
  destruct (xo_invert_matching o), (xpub_only_last _); cbn; try (rewrite E; cbn; done); by injection E as ->.
Qed.

(** ** Sending a message *)

Section send.
Context {W : Type} {IP : InPipes W} {OP : OutPipes W} {DX : Duplex W} {DL : DuplexLaws W} {PP : PubPipes W}.
Implicit Types (w : W) (x : xpub) (msg : list frame).

(** The parts of a message, one call each; the answers of the calls. *)
Fixpoint xpub_send_all w x msg : option (W * xpub * list bool) :=
  match msg with
  | [] => Some (w, x, [])
  | f :: msg' =>
      let* (w, x, b) := xpub_xsend w x f in
      let* (w, x, bs) := xpub_send_all w x msg' in
      Some (w, x, b :: bs)
  end.

(** The pipe has the whole message, or none of it. *)
Definition delivered w w' (p : Z) (msg : list frame) : Prop := op_sent w' p = op_sent w p ++ op_pending w p ++ msg /\ op_pending w' p = [].

Lemma xpub_distribute_spec w x f : dist_inv (xp_dist x) -> xo_lossy (xp_opts x) = true ->
  exists w' d', xpub_distribute w x f = Some (w', xp_set_sending x d' (fr_more f), true) /\ dist_inv d' /\ di_more d' = fr_more f /\
    (fr_more f = false -> di_matching d' = 0%nat) /\
    (fr_more f = true -> forall p, di_is_matching d' p <-> di_is_matching (xp_dist x) p /\ op_room w p = true) /\
    (forall p, di_is_matching (xp_dist x) p -> op_room w p = true -> got_frame w w' p f) /\
    (forall p, ~ di_is_matching (xp_dist x) p \/ op_room w p = false -> untouched w w' p) /\
    (fr_more f = true -> forall p, op_room w' p = op_room w p) /\
    (forall p, p ∈ a_items (di_pipes d') <-> p ∈ a_items (di_pipes (xp_dist x))).
Proof.
  intros Hd' Hl. unfold xpub_distribute. rewrite Hl. cbn [orb].
  destruct (dist_send_ok w (xp_dist x) f Hd') as (w' & d' & refs & E & Hi & Hm & Hg & Hu & Hmt & _ & Hac & _ & Hmem).
  rewrite E. cbn [mbind option_bind]. exists w', (if negb (fr_more f) then dist_unmatch d' else d'). split; [done|].
  split_and!; try done.
  - destruct (fr_more f); cbn [negb]; [done|]. destruct Hi as [Ha Ho Hidle]. constructor; simpl; [done|lia|done].
  - by destruct (fr_more f).
  - by intros ->.
  - intros ->. cbn [negb]. exact Hmt.
  - intros Hf. by apply (dist_send_room _ _ _ _ _ _ E).
  - by destruct (fr_more f).
Qed.

(** The rest of a message whose pipes are selected. *)
Lemma xpub_send_selected msg : forall w x f, is_message (f :: msg) = true -> dist_inv (xp_dist x) -> xo_lossy (xp_opts x) = true ->
  exists w' d', (let* (w, x, b) := xpub_distribute w x f in let* (w, x, bs) := xpub_send_all w x msg in Some (w, x, b :: bs)) =
      Some (w', xp_set_sending x d' false, replicate (S (length msg)) true) /\
    dist_inv d' /\ di_more d' = false /\ di_matching d' = 0%nat /\
    (forall p, di_is_matching (xp_dist x) p -> op_room w p = true -> delivered w w' p (f :: msg)) /\
    (forall p, ~ di_is_matching (xp_dist x) p \/ op_room w p = false -> untouched w w' p) /\
    (forall p, p ∈ a_items (di_pipes d') <-> p ∈ a_items (di_pipes (xp_dist x))).
Proof.
  induction msg as [|g msg IH]; intros w x f Hmsg Hd Hl;
    destruct (xpub_distribute_spec w x f Hd Hl) as (w1 & d1 & -> & Hd1 & Hm1 & H0 & Hmt & Hg & Hu & Hr & Hmem); cbn [mbind option_bind].
  - cbn [is_message] in Hmsg. apply negb_true_iff in Hmsg. rewrite Hmsg in *. cbn [xpub_send_all mbind option_bind].
    exists w1, d1. split_and!; try done; [auto|]. intros p Hp Hrp. specialize (Hg p Hp Hrp). unfold got_frame in Hg. rewrite Hmsg in Hg.
    by destruct Hg.
  - cbn [is_message] in Hmsg. apply andb_true_iff in Hmsg as [Hf Hmsg]. rewrite Hf in *. cbn [xpub_send_all]. unfold xpub_xsend at 1.
    cbn [xp_more_send xp_set_sending negb mbind option_bind].
    destruct (IH w1 (xp_set_sending x d1 true) g Hmsg Hd1 Hl) as (w' & d' & E & Hd' & Hm' & H0' & Hdel & Hunt & Hmem').
    cbn [mbind option_bind] in E. rewrite E. cbn [xp_dist xp_set_sending] in *.
    exists w', d'. split_and!; try done.
    + intros p Hp Hrp. pose proof (Hg p Hp Hrp) as Hgp. unfold got_frame in Hgp. rewrite Hf in Hgp. destruct Hgp as [Hp1 Hs1].
      destruct (Hdel p) as [E1 E2]; [by apply Hmt|by rewrite Hr|]. split; [|done]. by rewrite E1, Hp1, Hs1, <- app_assoc.
    + intros p Hp. destruct (Hu p Hp) as [U1 U2]. destruct (Hunt p) as [V1 V2]; [|split; congruence].
      destruct Hp as [Hp|Hp]; [left; rewrite Hmt by done; tauto|right; by rewrite Hr].
    + intros p. by rewrite Hmem', Hmem.
Qed.

(** Any part can be sent. *)
Lemma xpub_send_ok w x f : xpub_inv x -> exists w' x' b, xpub_xsend w x f = Some (w', x', b) /\ xpub_inv x'.
Proof.
  intros Hx. unfold xpub_xsend.
  assert (exists x1, (if negb (xp_more_send x) then xpub_select x (fr_body f) else Some x) = Some x1 /\ xpub_inv x1) as (x1 & -> & Hx1).
  { destruct (xp_more_send x) eqn:E; cbn [negb]; [by exists x|]. destruct (xpub_select_ok x (fr_body f) Hx E) as (d & q & -> & H). by eexists. }
  cbn [mbind option_bind]. destruct Hx1 as [Hs Hmn Hd Hm Ha]. unfold xpub_distribute.
  destruct (xo_lossy (xp_opts x1) || dist_check_hwm (xp_dist x1) (pp_check_hwm w)); [|eexists _, _, _; split; [done|by constructor]].
  destruct (dist_send_ok w (xp_dist x1) f Hd) as (w' & d' & refs & -> & [Ha' Ho Hidle] & Hm' & _ & _ & _ & _ & _ & _ & Hmem). cbn [mbind option_bind].
  eexists _, _, _. split; [done|]. constructor; cbn; try done.
  - destruct (fr_more f); cbn [negb]; [by constructor|]. constructor; simpl; [done|lia|done].
  - destruct (fr_more f); cbn [negb]; done.
  - intros k p Hp. assert (p ∈ a_items (di_pipes d')) by (apply Hmem; by apply (Ha k)). by destruct (fr_more f).
Qed.

End send.

(** ** Subscriptions *)

(** The relation of keys and pipes, and the messages for the user, after the requests of one pipe. *)
Abbreviation entries := (bytes -> pipes_t).

Definition request_entries (e : entries) (p : Z) (subscribe : bool) (k : bytes) : entries :=
  entries_step e (if subscribe then MAdd k p else MRm k p).

(** Whether the user is told of a request: the first subscription and the last cancellation of a key are reported, and a
    cancellation of something that was not subscribed. *)
Definition reported (o : xopts) (e : entries) (p : Z) (subscribe : bool) (k : bytes) : bool :=
  negb (xo_pub o) &&
  (if subscribe then bool_decide (e k = ∅) || xo_verbose_subs o
   else bool_decide (e k ∖ {[p]} = ∅) || negb (bool_decide (p ∈ e k)) || xo_verbose_unsubs o).

Definition frame_events (o : xopts) (e : entries) (p : Z) (f : frame) : entries * list (bytes * Z) :=
  match sub_request f with
  | Some (Some (subscribe, k)) =>
      (request_entries e p subscribe k, if reported o e p subscribe k then [(sub_message subscribe k, 0)] else [])
  | _ => (e, [(fr_body f, fr_flags f)])
  end.

Fixpoint sub_events (o : xopts) (e : entries) (p : Z) (fs : list frame) : entries * list (bytes * Z) :=
  match fs with
  | [] => (e, [])
  | f :: fs' => let '(e1, l1) := frame_events o e p f in let '(e2, l2) := sub_events o e1 p fs' in (e2, l1 ++ l2)
  end.

(** Frames peers can send: bytes, and commands that are longer than their name. *)
Definition sub_frame_ok (f : frame) : Prop := bytes_ok (fr_body f) /\ is_Some (sub_request f).

Lemma sub_request_bytes f b k : sub_frame_ok f -> sub_request f = Some (Some (b, k)) -> bytes_ok k.
Proof.
  intros [Hb _]. unfold sub_request, command_body. destruct (_ || _).
  - destruct (_ <? _)%nat; [done|]. cbn [mbind option_bind]. intros [= _ <-]. by apply Forall_drop.
  - destruct (fr_body f) as [|c d]; [done|]. apply Forall_cons_1 in Hb as [_ Hb]. destruct (_ || _); [|done]. by intros [= _ <-].
Qed.

Lemma request_entries_ext e e' p b k : (forall k', e k' = e' k') -> forall k', request_entries e p b k k' = request_entries e' p b k k'.
Proof. intros He k'. unfold request_entries. destruct b; simpl; by rewrite He. Qed.

Lemma reported_ext o e e' p b k : (forall k', e k' = e' k') -> reported o e p b k = reported o e' p b k.
Proof. intros He. unfold reported. by rewrite He. Qed.

Lemma sub_events_ext o p fs : forall e e', (forall k, e k = e' k) ->
  (forall k, (sub_events o e p fs).1 k = (sub_events o e' p fs).1 k) /\ (sub_events o e p fs).2 = (sub_events o e' p fs).2.
Proof.
  induction fs as [|f fs IH]; intros e e' He; [done|]. cbn [sub_events]. unfold frame_events.
  destruct (sub_request f) as [[[b k]|]|].
  - destruct (IH (request_entries e p b k) (request_entries e' p b k)) as [H1 H2]; [by apply request_entries_ext|].
    rewrite (reported_ext o e e' p b k He). destruct (sub_events o (request_entries e p b k) p fs), (sub_events o (request_entries e' p b k) p fs).
    cbn [fst snd] in *. by subst.
  - destruct (IH e e' He). destruct (sub_events o e p fs), (sub_events o e' p fs). cbn [fst snd] in *. by subst.
  - destruct (IH e e' He). destruct (sub_events o e p fs), (sub_events o e' p fs). cbn [fst snd] in *. by subst.
Qed.

(** A request that is applied at once. *)
Lemma xpub_request_spec x p b k : xpub_inv x -> p ∈ a_items (di_pipes (xp_dist x)) -> bytes_ok k ->
  exists x', xpub_request x p b k = Some x' /\ xpub_inv x' /\ xp_dist x' = xp_dist x /\ xp_opts x' = xp_opts x /\
    xp_more_recv x' = xp_more_recv x /\ xp_process_subscribe x' = xp_process_subscribe x /\
    (forall k', mtrie_vals (xp_subscriptions x') k' = request_entries (mtrie_vals (xp_subscriptions x)) p b k k') /\
    xq_data (xp_pending x') = xq_data (xp_pending x) ++
      if reported (xp_opts x) (mtrie_vals (xp_subscriptions x)) p b k then [(sub_message b k, 0)] else [].
Proof.
  intros [Hs Hmn Hd Hm Ha] Hp Hk. unfold xpub_request.
  assert (exists s n, (if b then let* (s, first_added) := mtrie_add (xp_subscriptions x) k p in Some (s, first_added || xo_verbose_subs (xp_opts x))
     else let* (s, rm_result) := mtrie_rm (xp_subscriptions x) k p in
       Some (s, match rm_result with values_remain => false | _ => true end || xo_verbose_unsubs (xp_opts x))) = Some (s, n) /\
     mtrie_wf s /\ (forall k', mtrie_vals s k' = request_entries (mtrie_vals (xp_subscriptions x)) p b k k') /\
     negb (xo_pub (xp_opts x)) && n = reported (xp_opts x) (mtrie_vals (xp_subscriptions x)) p b k) as (s & n & -> & Hs' & Hv & Hn).
  { unfold request_entries, reported. destruct b.
    - destruct (mtrie_add_spec k p _ Hs Hk) as (s & E & Hs' & _ & Hv). unfold mtrie_add. rewrite E. cbn [mbind option_bind].
      eexists s, _. split_and!; try done. intros k'. rewrite Hv. cbn [entries_step]. destruct (decide (k' = k)); by subst.
    - destruct (mtrie_rm_spec k p _ Hs) as (s & E & Hs' & Hv). unfold mtrie_rm. rewrite E. cbn [mbind option_bind].
      eexists s, _. split_and!; try done; [intros k'; rewrite Hv; cbn [entries_step]; destruct (decide (k' = k)); by subst|].
      f_equal. f_equal. unfold rm_answer. by repeat case_bool_decide. }
  cbn [mbind option_bind]. cbn [xp_opts xp_set_subs]. rewrite Hn.
  assert (xpub_inv (xp_set_subs x s)) as Hinv.
  { constructor; cbn; try done. intros k' q. rewrite Hv. unfold request_entries. destruct b; cbn [entries_step]; case_decide; try apply Ha.
    - rewrite elem_of_union, elem_of_singleton. intros [->|Hq]; [done|by apply (Ha k')].
    - rewrite elem_of_difference. intros [Hq _]. by apply (Ha k'). }
  eexists. split; [done|]. destruct (reported _ _ _ _ _); cbn [xp_pending xp_set_pending xp_set_subs xq_push xq_data]; split_and!; try done;
    [by destruct Hinv; constructor|by rewrite app_nil_r].
Qed.

Lemma xpub_manual_ok x p b k : xpub_inv x -> bytes_ok k ->
  exists x', xpub_manual_request x p b k = Some x' /\ xpub_inv x' /\ xp_dist x' = xp_dist x /\ xp_subscriptions x' = xp_subscriptions x /\
    xp_opts x' = xp_opts x.
Proof.
  intros [Hs Hmn Hd Hm Ha] Hk. unfold xpub_manual_request.
  assert (exists s, (if b then fst <$> mtrie_add (xp_manual_subscriptions x) k p else fst <$> mtrie_rm (xp_manual_subscriptions x) k p) = Some s /\ mtrie_wf s)
    as (s & -> & Hs').
  { destruct b; [destruct (mtrie_add_spec k p _ Hmn Hk) as (s & E & Hs' & _)|destruct (mtrie_rm_spec k p _ Hmn) as (s & E & Hs' & _)];
      unfold mtrie_add, mtrie_rm; rewrite E; by exists s. }
  cbn [mbind option_bind]. eexists. split; [done|]. by split_and!; [constructor|..].
Qed.

Lemma xp_set_recv_inv x m s : xpub_inv x -> xpub_inv (xp_set_recv x m s).
Proof. intros []. by constructor. Qed.

Lemma xp_set_pending_inv x q : xpub_inv x -> xpub_inv (xp_set_pending x q).
Proof. intros []. by constructor. Qed.

(** No message from a peer fails an assertion. *)
Lemma xpub_read_msg_ok x p f : xpub_inv x -> p ∈ a_items (di_pipes (xp_dist x)) -> sub_frame_ok f ->
  exists x', xpub_read_msg x p f = Some x' /\ xpub_inv x' /\ xp_dist x' = xp_dist x.
Proof.
  intros Hx Hp Hf. unfold xpub_read_msg.
  assert (exists r, (if negb (xp_more_recv x) || xp_process_subscribe x then sub_request f else Some None) = Some r /\
    forall b k, r = Some (b, k) -> bytes_ok k) as (r & -> & Hr).
  { destruct Hf as [Hb [r Hr]]. destruct (_ || _); [|by exists None]. exists r. split; [done|]. intros b k ->.
    apply (sub_request_bytes f b k); [by split; [|eexists]|done]. }
  cbn [mbind option_bind]. match goal with |- context [xp_set_recv x ?m ?s] => pose proof (xp_set_recv_inv x m s Hx) as Hx1 end.
  destruct r as [[b k]|].
  - specialize (Hr b k eq_refl). destruct (xo_manual _).
    + edestruct (xpub_manual_ok _ p b k Hx1 Hr) as (x' & -> & Hx' & Hd & _). exists x'. by rewrite Hd.
    + edestruct (xpub_request_spec _ p b k Hx1 Hp Hr) as (x' & -> & Hx' & Hd & _). exists x'. by rewrite Hd.
  - eexists. split; [done|]. split; [by apply xp_set_pending_inv|done].
Qed.

(** By default every part of a message can be a request. *)
Definition plain_mode (x : xpub) : Prop :=
  xo_manual (xp_opts x) = false /\ xo_only_first_subscribe (xp_opts x) = false /\ (xp_more_recv x = true -> xp_process_subscribe x = true).

Lemma xpub_read_msg_spec x p f : xpub_inv x -> plain_mode x -> p ∈ a_items (di_pipes (xp_dist x)) -> sub_frame_ok f ->
  exists x', xpub_read_msg x p f = Some x' /\ xpub_inv x' /\ plain_mode x' /\ xp_dist x' = xp_dist x /\ xp_opts x' = xp_opts x /\
    (forall k, mtrie_vals (xp_subscriptions x') k = (frame_events (xp_opts x) (mtrie_vals (xp_subscriptions x)) p f).1 k) /\
    xq_data (xp_pending x') = xq_data (xp_pending x) ++ (frame_events (xp_opts x) (mtrie_vals (xp_subscriptions x)) p f).2.
Proof.
  intros Hx (Hman & Hof & Hproc) Hp Hf. unfold xpub_read_msg, frame_events. pose proof Hf as [_ [r Hr]].
  assert ((if negb (xp_more_recv x) || xp_process_subscribe x then sub_request f else Some None) = sub_request f) as ->.
  { destruct (xp_more_recv x); [|done]. by rewrite Hproc. }
  rewrite Hr. cbn [mbind option_bind].
  match goal with |- context [xp_set_recv x ?m ?s] => pose proof (xp_set_recv_inv x m s Hx) as Hx1; assert (s = true) as Hs; [|rewrite Hs in *] end.
  { rewrite Hof. cbn [negb orb]. destruct (xp_more_recv x); [|done]. by rewrite Hproc. }
  cbn [xp_opts xp_set_recv]. destruct r as [[b k]|].
  - rewrite Hman. pose proof (sub_request_bytes f b k Hf Hr) as Hk.
    edestruct (xpub_request_spec _ p b k Hx1 Hp Hk) as (x' & E & Hx' & Hd & Ho & Hm & Hps & Hv & Hq). exists x'. split; [exact E|].
    cbn in Ho, Hm, Hps, Hq. split_and!; try done. unfold plain_mode. rewrite Ho, Hps. done.
  - eexists. split; [done|]. split_and!; try done. by apply xp_set_pending_inv.
Qed.

Section read.
Context {W : Type} {IP : InPipes W} {OP : OutPipes W} {DX : Duplex W} {DL : DuplexLaws W} {PP : PubPipes W}.
Implicit Types (w : W) (x : xpub).

Lemma xpub_read_loop_ok fuel p : forall w x, xpub_inv x -> p ∈ a_items (di_pipes (xp_dist x)) -> Forall sub_frame_ok (ip_queue w p) ->
  length (ip_queue w p) = fuel -> exists w' x', xpub_read_loop fuel w x p = Some (w', x') /\ xpub_inv x' /\ xp_dist x' = xp_dist x /\ reader_only w w'.
Proof.
  induction fuel as [|fuel IH]; intros w x Hx Hp Hall Hlen; cbn [xpub_read_loop];
    destruct (ip_read_ok w p) as (w1 & E & Hq); rewrite E; cbn [mbind option_bind]; apply read_reader_only in E as Hro;
    destruct (ip_queue w p) as [|f l] eqn:El; try done; cbn [head tail] in *.
  - by exists w1, x.
  - apply Forall_cons_1 in Hall as [Hf Hall]. destruct (xpub_read_msg_ok x p f Hx Hp Hf) as (x1 & -> & Hx1 & Hd1). cbn [mbind option_bind].
    destruct (IH w1 x1 Hx1) as (w' & x' & -> & Hx' & Hd' & Hr').
    + by rewrite Hd1.
    + by rewrite Hq, decide_True.
    + rewrite Hq, decide_True by done. simpl in Hlen. lia.
    + exists w', x'. split_and!; try done; [congruence|]. by apply (reader_only_trans _ w1).
Qed.

Lemma xpub_read_loop_spec fuel p : forall w x, xpub_inv x -> plain_mode x -> p ∈ a_items (di_pipes (xp_dist x)) ->
  Forall sub_frame_ok (ip_queue w p) -> length (ip_queue w p) = fuel ->
  exists w' x', xpub_read_loop fuel w x p = Some (w', x') /\ xpub_inv x' /\ plain_mode x' /\ xp_dist x' = xp_dist x /\ xp_opts x' = xp_opts x /\
    (forall p', ip_queue w' p' = if decide (p' = p) then [] else ip_queue w p') /\
    (forall k, mtrie_vals (xp_subscriptions x') k = (sub_events (xp_opts x) (mtrie_vals (xp_subscriptions x)) p (ip_queue w p)).1 k) /\
    xq_data (xp_pending x') = xq_data (xp_pending x) ++ (sub_events (xp_opts x) (mtrie_vals (xp_subscriptions x)) p (ip_queue w p)).2.
Proof.
  induction fuel as [|fuel IH]; intros w x Hx Hpm Hp Hall Hlen; cbn [xpub_read_loop];
    destruct (ip_read_ok w p) as (w1 & -> & Hq); cbn [mbind option_bind];
    destruct (ip_queue w p) as [|f l] eqn:El; try done; cbn [head tail] in *.
  - exists w1, x. split_and!; try done. by rewrite app_nil_r.
  - apply Forall_cons_1 in Hall as [Hf Hall].
    destruct (xpub_read_msg_spec x p f Hx Hpm Hp Hf) as (x1 & -> & Hx1 & Hpm1 & Hd1 & Ho1 & Hv1 & Hq1). cbn [mbind option_bind].
    assert (ip_queue w1 p = l) as Hl by (by rewrite Hq, decide_True).
    destruct (IH w1 x1 Hx1 Hpm1) as (w' & x' & -> & Hx' & Hpm' & Hd' & Ho' & Hq' & Hv' & Hdata); [by rewrite Hd1|by rewrite Hl|rewrite Hl; simpl in Hlen; lia|].
    exists w', x'. split; [done|]. rewrite Hl, Ho1 in *. cbn [sub_events].
    destruct (frame_events (xp_opts x) (mtrie_vals (xp_subscriptions x)) p f) as [e1 l1]. cbn [fst snd] in *.
    destruct (sub_events_ext (xp_opts x) p l (mtrie_vals (xp_subscriptions x1)) e1 Hv1) as [Hx2 Hx3]. rewrite Hx3 in Hdata.
    destruct (sub_events (xp_opts x) e1 p l) as [e2 l2]. cbn [fst snd] in *. split_and!; try done; try congruence.
    + intros p'. rewrite Hq', Hq. by case_decide.
    + intros k. by rewrite Hv', Hx2.
    + by rewrite Hdata, Hq1, <- app_assoc.
Qed.

End read.

(** ** The other operations *)

Lemma send_unsubscriptions_data x keys : xo_pub (xp_opts x) = false ->
  xq_data (xp_pending (send_unsubscriptions x keys)) = xq_data (xp_pending x) ++ ((fun k => (sub_message false k, 0)) <$> keys).
Proof.
  intros Hpub. unfold send_unsubscriptions. cbn [xp_pending xp_set_pending]. generalize (xp_pending x).
  induction keys as [|k keys IH]; intros q; [by rewrite app_nil_r|]. cbn [foldl fmap list_fmap]. rewrite IH. unfold send_unsubscription.
  rewrite Hpub. destruct (xo_manual (xp_opts x)); cbn [xq_push xq_data]; by rewrite <- app_assoc.
Qed.

(** The end of a pipe: it leaves the subscriptions, and those that are gone with it are reported. *)
Lemma xpub_terminated_ok x p : xpub_inv x -> p ∈ a_items (di_pipes (xp_dist x)) ->
  exists x', xpub_xpipe_terminated x p = Some x' /\ xpub_inv x' /\ xp_opts x' = xp_opts x /\
    (forall q, q ∈ a_items (di_pipes (xp_dist x')) <-> q ∈ a_items (di_pipes (xp_dist x)) /\ q <> p) /\
    (forall k, mtrie_vals (xp_subscriptions x') k = mtrie_vals (xp_subscriptions x) k ∖ {[p]}) /\
    (xo_manual (xp_opts x) = false -> xo_pub (xp_opts x) = false -> exists keys, NoDup keys /\
       xq_data (xp_pending x') = xq_data (xp_pending x) ++ ((fun k => (sub_message false k, 0)) <$> keys) /\
       forall k, k ∈ keys <-> rm_reported (mtrie_vals (xp_subscriptions x) k) p (negb (xo_verbose_unsubs (xp_opts x)))).
Proof.
  intros [Hs Hmn Hd Hm Ha] Hp. unfold xpub_xpipe_terminated.
  destruct (dist_pipe_terminated_ok (xp_dist x) p Hd Hp) as (d & Ed & Hd' & Hm' & _ & _ & _ & Hmem).
  assert (forall s mn q, mtrie_wf s -> mtrie_wf mn -> (forall k, mtrie_vals s k = mtrie_vals (xp_subscriptions x) k ∖ {[p]}) ->
    xpub_inv (Xpub s mn d (xp_more_send x) (xp_more_recv x) (xp_process_subscribe x) (xp_opts x) q)) as Hinv.
  { intros s mn q Hs' Hmn' Hv. constructor; cbn; try done; [congruence|]. intros k r. rewrite Hv, elem_of_difference, elem_of_singleton.
    intros [Hr Hne]. apply Hmem. split; [by apply (Ha k)|done]. }
  destruct (xo_manual (xp_opts x)) eqn:Eman.
  - destruct (mtrie_rm_pipe_spec p false _ Hmn []) as (mn & keys & E & Hmn' & _). unfold mtrie_rm_pipe. rewrite E. cbn [mbind option_bind].
    destruct (mtrie_rm_pipe_spec p false _ Hs []) as (s & keys' & E' & Hs' & Hv & _).
    cbn [xp_subscriptions send_unsubscriptions xp_set_pending xp_set_manual]. rewrite E'. cbn [mbind option_bind].
    cbn [xp_dist xp_set_subs send_unsubscriptions xp_set_pending xp_set_manual]. rewrite Ed. cbn [mbind option_bind]. eexists. split; [done|].
    split_and!; try done. by apply Hinv.
  - destruct (mtrie_rm_pipe_spec p (negb (xo_verbose_unsubs (xp_opts x))) _ Hs []) as (s & keys & E & Hs' & Hv & Hnd & Hin). unfold mtrie_rm_pipe.
    rewrite E. cbn [mbind option_bind]. cbn [xp_dist send_unsubscriptions xp_set_pending xp_set_subs]. rewrite Ed. cbn [mbind option_bind].
    eexists. split; [done|]. split_and!; try done; [by apply Hinv|]. intros _ Hpub. exists keys. split_and!; try done.
    + exact (send_unsubscriptions_data (xp_set_subs x s) keys Hpub).
    + intros k. rewrite Hin. split; [by intros (? & -> & ?)|]. by exists k.
Qed.

Lemma xpub_activated_ok x p : xpub_inv x -> p ∈ a_items (di_pipes (xp_dist x)) -> ~ di_is_eligible (xp_dist x) p ->
  exists x', xpub_xwrite_activated x p = Some x' /\ xpub_inv x'.
Proof.
  intros [Hs Hmn Hd Hm Ha] Hp Hn. unfold xpub_xwrite_activated. destruct (dist_activated_ok _ _ Hd Hp Hn) as (d & E & Hd' & Hm' & _ & _ & _).
  rewrite E. cbn [mbind option_bind]. eexists. split; [done|]. constructor; cbn; try done; [congruence|]. intros k q Hq.
  rewrite (dist_activated_mem _ _ _ E). by apply (Ha k).
Qed.

(** In manual mode the user decides on a pipe that may have ended meanwhile. *)
Definition last_attached (x : xpub) : Prop := forall p, xq_last_pipe (xp_pending x) = Some p -> p ∈ a_items (di_pipes (xp_dist x)).

Lemma xpub_option_ok x o v i : xpub_inv x -> last_attached x -> bytes_ok v -> exists x' b, xpub_xsetsockopt x o v i = Some (x', b) /\ xpub_inv x'.
Proof.
  intros Hx Hl Hv. pose proof Hx as [Hs Hmn Hd Hm Ha]. unfold xpub_xsetsockopt. assert (forall o', xpub_inv (xp_set_opts x o')) as Ho by (by constructor).
  assert (forall p s, xq_last_pipe (xp_pending x) = Some p -> mtrie_wf s -> (forall k q, q ∈ mtrie_vals s k -> q ∈ mtrie_vals (xp_subscriptions x) k \/ q = p) ->
    xpub_inv (xp_set_subs x s)) as Hsub.
  { intros p s Hp Hs' Hk. constructor; cbn; try done. intros k q Hq. destruct (Hk k q Hq) as [Hq'| ->]; [by apply (Ha k)|by apply Hl]. }
  destruct (xpub_flag_option o); [destruct (_ <? 0); eexists _, _; split; try done|].
  destruct (_ && _); [|destruct (_ && _); [|destruct (_ =? _); eexists _, _; by split]].
  - destruct (xq_last_pipe (xp_pending x)) as [p|] eqn:E; [|by eexists _, _].
    destruct (mtrie_add_spec v p _ Hs Hv) as (s & Es & Hs' & _ & Hvals). unfold mtrie_add. rewrite Es. cbn [mbind option_bind].
    eexists _, _. split; [done|]. apply (Hsub p); try done. intros k q. rewrite Hvals. destruct (decide (k = v)); [subst|tauto]. rewrite elem_of_union, elem_of_singleton. tauto.
  - destruct (xq_last_pipe (xp_pending x)) as [p|] eqn:E; [|by eexists _, _].
    destruct (mtrie_rm_spec v p _ Hs) as (s & Es & Hs' & Hvals). unfold mtrie_rm. rewrite Es. cbn [mbind option_bind].
    eexists _, _. split; [done|]. apply (Hsub p); try done. intros k q. rewrite Hvals. destruct (decide (k = v)); [subst|tauto]. rewrite elem_of_difference. tauto.
Qed.

Lemma xpub_recv_inv x : xpub_inv x -> xpub_inv (xpub_xrecv x).1.
Proof. intros Hx. unfold xpub_xrecv. destruct (xq_data (xp_pending x)) as [|[d f] l]; [done|]. cbn [fst]. by apply xp_set_pending_inv. Qed.

Section reach.
Context {W : Type} {IP : InPipes W} {OP : OutPipes W} {DX : Duplex W} {DL : DuplexLaws W} {PP : PubPipes W}.
Implicit Types (w : W) (x : xpub) (p : Z).

Lemma xpub_welcome_ok w p welcome : welcome = [] \/ op_room w p = true ->
  exists w', (if (0 <? length welcome)%nat then let* (w, ok) := op_write w p (new_frame 0 welcome) in zmq_assert (ok : bool) ;; op_flush w p else Some w)
    = Some w' /\ in_same w w'.
Proof.
  intros Hw. destruct (0 <? length welcome)%nat eqn:E; [|by exists w]. destruct Hw as [->|Hr]; [done|].
  destruct (op_write_ok w p (new_frame 0 welcome)) as (w1 & Ew & _). rewrite Ew, Hr. cbn [mbind option_bind].
  destruct (op_flush_ok w1 p) as (w2 & Ef & _). exists w2. split; [done|].
  apply (in_same_trans _ w1); [exact (dx_write _ _ _ _ _ Ew)|exact (dx_flush _ _ _ Ef)].
Qed.

Lemma xpub_attach_ok w x p all : xpub_inv x -> p ∉ a_items (di_pipes (xp_dist x)) -> Forall sub_frame_ok (ip_queue w p) ->
  xo_welcome_msg (xp_opts x) = [] \/ op_room w p = true ->
  exists w' x', xpub_xattach_pipe w x p all = Some (w', x') /\ xpub_inv x' /\
    forall q, q ∈ a_items (di_pipes (xp_dist x')) <-> q ∈ a_items (di_pipes (xp_dist x)) \/ q = p.
Proof.
  intros [Hs Hmn Hd Hm Ha] Hp Hall Hw. unfold xpub_xattach_pipe.
  destruct (dist_attach_ok _ _ Hd Hp) as (d & -> & Hd' & Hm' & _ & _ & _ & Hmem). cbn [mbind option_bind].
  cbn [xp_subscriptions xp_set_dist].
  assert (exists s, (if all then fst <$> mtrie_add (xp_subscriptions x) [] p else Some (xp_subscriptions x)) = Some s /\ mtrie_wf s /\
    forall k q, q ∈ mtrie_vals s k -> q ∈ mtrie_vals (xp_subscriptions x) k \/ q = p) as (s & -> & Hs' & Hv).
  { destruct all; [|by exists (xp_subscriptions x); split_and!; auto].
    destruct (mtrie_add_spec [] p _ Hs) as (s & E & Hs' & _ & Hv); [constructor|]. unfold mtrie_add. rewrite E. exists s. split_and!; try done.
    intros k q. rewrite Hv. destruct (decide (k = [])); [subst|tauto]. rewrite elem_of_union, elem_of_singleton. tauto. }
  cbn [mbind option_bind]. cbn [xp_opts xp_set_subs xp_set_dist].
  destruct (xpub_welcome_ok w p _ Hw) as (w1 & -> & Hin). cbn [mbind option_bind].
  unfold xpub_xread_activated.
  destruct (xpub_read_loop_ok (length (ip_queue w1 p)) p w1 (xp_set_subs (xp_set_dist x d) s)) as (w' & x' & -> & Hx' & Hdd & _).
  - constructor; cbn; try done; [congruence|]. intros k q Hq. apply Hmem. destruct (Hv k q Hq) as [Hq'|?]; [left; by apply (Ha k)|by right].
  - cbn. apply Hmem. by right.
  - destruct (Hin p) as [-> _]. done.
  - done.
  - exists w', x'. split_and!; try done. intros q. rewrite Hdd. apply Hmem.
Qed.

(** The states of a socket: its operations in any order.  The user of a manual socket answers for pipes that are attached. *)
Inductive xpub_reach : xpub -> Prop :=
| xr_new pub invert : xpub_reach (xpub_new pub invert)
| xr_option x o v i x' b : xpub_reach x -> last_attached x -> bytes_ok v -> xpub_xsetsockopt x o v i = Some (x', b) -> xpub_reach x'
| xr_attach w x p all w' x' : xpub_reach x -> p ∉ a_items (di_pipes (xp_dist x)) -> Forall sub_frame_ok (ip_queue w p) ->
    xo_welcome_msg (xp_opts x) = [] \/ op_room w p = true -> xpub_xattach_pipe w x p all = Some (w', x') -> xpub_reach x'
| xr_read w x p w' x' : xpub_reach x -> p ∈ a_items (di_pipes (xp_dist x)) -> Forall sub_frame_ok (ip_queue w p) ->
    xpub_xread_activated w x p = Some (w', x') -> xpub_reach x'
| xr_write x p x' : xpub_reach x -> p ∈ a_items (di_pipes (xp_dist x)) -> ~ di_is_eligible (xp_dist x) p ->
    xpub_xwrite_activated x p = Some x' -> xpub_reach x'
| xr_terminated x p x' : xpub_reach x -> p ∈ a_items (di_pipes (xp_dist x)) -> xpub_xpipe_terminated x p = Some x' -> xpub_reach x'
| xr_send w x f w' x' b : xpub_reach x -> xpub_xsend w x f = Some (w', x', b) -> xpub_reach x'
| xr_recv x : xpub_reach x -> xpub_reach (xpub_xrecv x).1.

Lemma xpub_reach_inv x : xpub_reach x -> xpub_inv x.
Proof.
  induction 1 as [pub inv|x o v i x' b _ IH Hl Hv E|w x p all w' x' _ IH Hp Hall Hw E|w x p w' x' _ IH Hp Hall E|x p x' _ IH Hp Hn E|x p x' _ IH Hp E
    |w x f w' x' b _ IH E|x _ IH].
  - apply xpub_new_inv.
  - destruct (xpub_option_ok x o v i IH Hl Hv) as (x1 & b1 & E1 & H1). congruence.
  - destruct (xpub_attach_ok w x p all IH Hp Hall Hw) as (w1 & x1 & E1 & H1 & _). congruence.
  - destruct (xpub_read_loop_ok (length (ip_queue w p)) p w x IH Hp Hall eq_refl) as (w1 & x1 & E1 & H1 & _). unfold xpub_xread_activated in E. congruence.
  - destruct (xpub_activated_ok x p IH Hp Hn) as (x1 & E1 & H1). congruence.
  - destruct (xpub_terminated_ok x p IH Hp) as (x1 & E1 & H1 & _). congruence.
  - destruct (xpub_send_ok w x f IH) as (w1 & x1 & b1 & E1 & H1). congruence.
  - by apply xpub_recv_inv.
Qed.

End reach.

(** ** The guarantees *)

(** C24: a message published on a socket that is between two messages and drops what does not fit is accepted part by part; every
    pipe that subscribed to a prefix of its first part (in inverted mode every other pipe) and has room gets the whole message,
    every other pipe gets nothing, and the subscriptions are unchanged. *)
Theorem xpub_publish {W} {IP : InPipes W} {OP : OutPipes W} {DX : Duplex W} {DL : DuplexLaws W} {PP : PubPipes W}
    (w : W) (x : xpub) (f : frame) (msg : list frame) :
  xpub_inv x -> xpub_idle x -> xpub_only_last x = false -> xo_lossy (xp_opts x) = true -> is_message (f :: msg) = true ->
  (forall p, op_pending w p = []) ->
  exists w' x', xpub_send_all w x (f :: msg) = Some (w', x', replicate (S (length msg)) true) /\ xpub_inv x' /\ xpub_idle x' /\
    (forall p, xpub_chosen x (fr_body f) p -> op_room w p = true -> op_sent w' p = op_sent w p ++ f :: msg) /\
    (forall p, ~ xpub_chosen x (fr_body f) p \/ op_room w p = false -> op_sent w' p = op_sent w p) /\
    (forall p, op_pending w' p = []) /\ xp_subscriptions x' = xp_subscriptions x.
Proof.
  intros Hx Hidle Hlast Hl Hmsg Hpend. destruct (xpub_select_spec x (fr_body f) Hx Hidle Hlast) as (d & Esel & Hd & Hm & Hmt & _ & Hmem).
  cbn [xpub_send_all]. unfold xpub_xsend at 1. rewrite (proj1 Hidle). cbn [negb]. rewrite Esel. cbn [mbind option_bind].
  destruct (xpub_send_selected msg w (xp_set_dist x d) f Hmsg Hd Hl) as (w' & d' & E & Hd' & Hm' & H0 & Hdel & Hunt & Hmem').
  cbn [mbind option_bind] in E. rewrite E. cbn [xp_dist xp_set_dist] in *. setoid_rewrite Hmt in Hdel. setoid_rewrite Hmt in Hunt.
  exists w', (xp_set_sending (xp_set_dist x d) d' false). split_and!; try done.
  - destruct Hx as [? ? ? ? Ha]. constructor; cbn; try done. intros k p Hp. apply Hmem', Hmem. by apply (Ha k).
  - intros p Hp Hr. destruct (Hdel p Hp Hr) as [-> _]. by rewrite Hpend.
  - intros p Hp. by destruct (Hunt p Hp).
  - intros p. destruct (op_room w p) eqn:Er.
    + destruct (decide (di_is_matching d p)) as [Hc|Hc]; rewrite Hmt in Hc; [by destruct (Hdel p Hc Er)|].
      destruct (Hunt p) as [-> _]; [by left|done].
    + destruct (Hunt p) as [-> _]; [by right|done].
Qed.

(** reading the messages of a pipe, when the user does not decide on subscriptions, leaves the relation of keys and pipes and
    the queue of messages for the user that the requests in them, taken one after the other, amount to; everything is read, and
    no assertion fails whatever bytes the peer sent. *)
Theorem xpub_subscribed {W} {IP : InPipes W} {OP : OutPipes W} {DX : Duplex W} {DL : DuplexLaws W} {PP : PubPipes W} (w : W) (x : xpub) (p : Z) :
  xpub_inv x -> plain_mode x -> p ∈ a_items (di_pipes (xp_dist x)) -> Forall sub_frame_ok (ip_queue w p) ->
  exists w' x', xpub_xread_activated w x p = Some (w', x') /\ xpub_inv x' /\
    (forall p', ip_queue w' p' = if decide (p' = p) then [] else ip_queue w p') /\
    (forall k, mtrie_vals (xp_subscriptions x') k = (sub_events (xp_opts x) (mtrie_vals (xp_subscriptions x)) p (ip_queue w p)).1 k) /\
    xq_data (xp_pending x') = xq_data (xp_pending x) ++ (sub_events (xp_opts x) (mtrie_vals (xp_subscriptions x)) p (ip_queue w p)).2.
Proof.
  intros Hx Hpm Hp Hall. destruct (xpub_read_loop_spec _ p w x Hx Hpm Hp Hall eq_refl) as (w' & x' & E & Hx' & _ & _ & _ & H1 & H2 & H3).
  by exists w', x'.
Qed.

(** in every state a publishing socket reaches, in manual mode or not, every subscription belongs to a pipe that is attached, and
    no assertion fails: any part can be sent, peers can send any bytes, attached pipes can end and new ones be attached. *)
Theorem xpub_safe {W} {IP : InPipes W} {OP : OutPipes W} {DX : Duplex W} {DL : DuplexLaws W} {PP : PubPipes W} (x : xpub) :
  xpub_reach (W := W) x ->
  (forall k p, p ∈ mtrie_vals (xp_subscriptions x) k -> p ∈ a_items (di_pipes (xp_dist x))) /\
  (forall (w : W) f, is_Some (xpub_xsend w x f)) /\
  (forall (w : W) p, p ∈ a_items (di_pipes (xp_dist x)) -> Forall sub_frame_ok (ip_queue w p) -> is_Some (xpub_xread_activated w x p)) /\
  (forall (w : W) p all, p ∉ a_items (di_pipes (xp_dist x)) -> Forall sub_frame_ok (ip_queue w p) ->
     xo_welcome_msg (xp_opts x) = [] \/ op_room w p = true -> is_Some (xpub_xattach_pipe w x p all)) /\
  (forall p, p ∈ a_items (di_pipes (xp_dist x)) -> exists x', xpub_xpipe_terminated x p = Some x' /\
     forall k, mtrie_vals (xp_subscriptions x') k = mtrie_vals (xp_subscriptions x) k ∖ {[p]}).
Proof.
  intros Hx%xpub_reach_inv. split_and!.
  - apply Hx.
  - intros w f. destruct (xpub_send_ok w x f Hx) as (w' & x' & b & -> & _). by eexists.
  - intros w p Hp Hall. destruct (xpub_read_loop_ok _ p w x Hx Hp Hall eq_refl) as (w' & x' & E & _). by eexists.
  - intros w p all Hp Hall Hw. destruct (xpub_attach_ok w x p all Hx Hp Hall Hw) as (w' & x' & -> & _). by eexists.
  - intros p Hp. destruct (xpub_terminated_ok x p Hx Hp) as (x' & -> & _ & _ & _ & Hv & _). by exists x'.
Qed.

(** ** Concrete runs *)

(** Two pipes; the first subscribes to [1], the second to [1; 2]. *)
Definition pub_example_pipes (room : nat) : dpipes :=
  DPipes (list_to_map [(1, [Frame type_vsm 0 [1; 1]]); (2, [Frame type_vsm 0 [1; 1; 2]])])
    (list_to_map [(1, (room, [], [])); (2, (5%nat, [], []))]) ∅.

Definition pub_attach (w : dpipes) (x : xpub) : option (dpipes * xpub) :=
  let* (w, x) := xpub_xattach_pipe w x 1 false in xpub_xattach_pipe w x 2 false.

Definition pub_example : xpub := Eval vm_compute in
  match pub_attach (pub_example_pipes 5) (xpub_new false false) with Some (_, x) => x | None => xpub_new false false end.

Lemma pub_example_reach : xpub_reach (W := dpipes) pub_example.
Proof.
  destruct (xpub_xattach_pipe (pub_example_pipes 5) (xpub_new false false) 1 false) as [[w x]|] eqn:E; [|vm_compute in E; discriminate].
  assert (xpub_reach (W := dpipes) x) as Hx.
  { apply (xr_attach (pub_example_pipes 5) _ 1 false w x (xr_new false false)); [by apply not_elem_of_nil| |by left|done].
    repeat constructor; try (by vm_compute); by eexists. }
  assert (xpub_xattach_pipe (pub_example_pipes 5) x 2 false = Some (DPipes (list_to_map [(1, [Frame type_vsm 0 [1; 1]]); (2, [])]) (dp_out (pub_example_pipes 5)) ∅, pub_example)) as E2.
  { vm_compute in E. injection E as <- <-. vm_compute. reflexivity. }
  apply (xr_attach (pub_example_pipes 5) x 2 false _ pub_example Hx) in E2; [done| | |].
  - vm_compute in E. injection E as <- <-. vm_compute. intros Hin. by apply list_elem_of_singleton in Hin.
  - repeat constructor; try (by vm_compute); by eexists.
  - left. vm_compute in E. injection E as <- <-. reflexivity.
Qed.

Lemma pub_example_pending n p : op_pending (pub_example_pipes n) p = [].
Proof.
  cbn. unfold credit_of. destruct (decide (p = 1)) as [->|H1]; [by rewrite lookup_insert_eq|]. rewrite lookup_insert_ne by done.
  destruct (decide (p = 2)) as [->|H2]; [by rewrite lookup_insert_eq|]. by rewrite lookup_insert_ne by done.
Qed.

Definition pub_message : frame := Frame type_vsm 0 [1; 9].

Lemma xpub_publish_witness : exists w' x', xpub_send_all (pub_example_pipes 5) pub_example [pub_message] = Some (w', x', [true]) /\
  op_sent w' 1 = [pub_message] /\ xpub_idle x'.
Proof.
  destruct (xpub_publish (pub_example_pipes 5) pub_example pub_message []) as (w' & x' & E & _ & Hi & Hc & _).
  - apply (xpub_reach_inv (W := dpipes)), pub_example_reach.
  - split; reflexivity.
  - reflexivity.
  - reflexivity.
  - reflexivity.
  - apply pub_example_pending.
  - exists w', x'. split; [exact E|]. split; [|exact Hi]. rewrite (Hc 1); [reflexivity| |reflexivity]. split.
    + exists 0%nat. split; [vm_compute; lia|reflexivity].
    + exists [1]. split; [by exists [9]|]. vm_compute. reflexivity.
Defined.

Lemma xpub_subscribed_witness : exists w' x', xpub_xread_activated (DPipes (list_to_map [(1, [Frame type_vsm 0 [0; 1]])]) ∅ ∅) pub_example 1 = Some (w', x') /\
  xq_data (xp_pending x') = xq_data (xp_pending pub_example) ++ [([0; 1], 0)].
Proof.
  destruct (xpub_subscribed (DPipes (list_to_map [(1, [Frame type_vsm 0 [0; 1]])]) ∅ ∅) pub_example 1) as (w' & x' & E & _ & _ & _ & Hd).
  - apply (xpub_reach_inv (W := dpipes)), pub_example_reach.
  - by vm_compute.
  - vm_compute. left.
  - repeat constructor; try (by vm_compute); by eexists.
  - exists w', x'. split; [exact E|]. rewrite Hd. f_equal.
Defined.

Lemma xpub_safe_witness : is_Some (xpub_xsend (pub_example_pipes 0) pub_example pub_message).
Proof. apply (xpub_safe pub_example pub_example_reach). Defined.

(** *** What a message that did not fit leaves behind *)

Definition nodrop_example : option (bool * bool * list frame) :=
  let* (x, _) := xpub_xsetsockopt pub_example ZMQ_XPUB_NODROP [] (Some 1) in
  let* (_, x, b) := xpub_xsend (pub_example_pipes 0) x pub_message in
  let* (w, _, b') := xpub_xsend (pub_example_pipes 5) x (Frame type_vsm 0 [7]) in
  Some (b, b', op_sent w 1).

(** When a message does not fit and ZMQ_XPUB_NODROP makes [xsend] fail with EAGAIN, the pipes it matched stay selected: another
    message sent next, which nobody subscribed to, goes to them. *)
Theorem xpub_again_keeps_selection : nodrop_example = Some (false, true, [Frame type_vsm 0 [7]]).
Proof. vm_compute. reflexivity. Qed.

(** *** Manual mode *)

Definition manual_pipes (q1 q2 q3 : list frame) : dpipes :=
  DPipes (list_to_map [(1, q1); (2, q2); (3, q3)]) (list_to_map [(1, (5%nat, [], [])); (2, (5%nat, [], [])); (3, (5%nat, [], []))]) ∅.

Definition manual_attach (w : dpipes) : option (dpipes * xpub) :=
  let* (x, _) := xpub_xsetsockopt (xpub_new false false) ZMQ_XPUB_MANUAL [] (Some 1) in
  let* (w, x) := xpub_xattach_pipe w x 1 false in let* (w, x) := xpub_xattach_pipe w x 2 false in xpub_xattach_pipe w x 3 false.

Definition manual_example : option (list (option frame) * list Z) :=
  let* (_, x) := manual_attach (manual_pipes [Frame type_vsm 0 [5]] [Frame type_vsm 0 [1; 8]] [Frame type_vsm 0 [1; 9]]) in
  let '(x, m1) := xpub_xrecv x in
  let '(x, m2) := xpub_xrecv x in
  let* (x, _) := xpub_xsetsockopt x ZMQ_SUBSCRIBE [8] None in
  Some ([m1; m2], elements (mtrie_vals (xp_subscriptions x) [8])).

(** In manual mode a message from a user takes a pipe off [_pending_pipes], where only requests put one: after a user message from
    the first pipe, the user who received the subscription of the second pipe and accepts it subscribes the third. *)
Theorem xpub_manual_wrong_pipe : manual_example = Some ([Some (Frame type_vsm 0 [5]); Some (Frame type_vsm 0 [1; 8])], [3]).
Proof. vm_compute. reflexivity. Qed.

Definition manual_ended : option (list Z * list Z) :=
  let* (w, x) := manual_attach (manual_pipes [Frame type_vsm 0 [1; 8]; Frame type_vsm 0 [0; 8]] [] []) in
  let '(x, _) := xpub_xrecv x in
  let '(x, _) := xpub_xrecv x in
  let* x := xpub_xpipe_terminated x 1 in
  let* (x, _) := xpub_xsetsockopt x ZMQ_SUBSCRIBE [8] None in
  let* pipes := mtrie_match (xp_subscriptions x) [8] in
  Some (a_items (di_pipes (xp_dist x)), pipes).

(** In manual mode a pipe that ends without a subscription stays the last pipe; the user can still subscribe it, and the next
    message of that topic is matched to the pipe that is gone. *)
Theorem xpub_manual_ended_pipe : manual_ended = Some ([3; 2], [1]).
Proof. vm_compute. reflexivity. Qed.
