(* ===== verification/Xsub.v ===== *)
(** * The subscribing sockets, [xsub_t] and [sub_t] (src/src/xsub.cpp, src/src/sub.cpp)

    An XSUB socket keeps its own subscriptions, in any [SubStore], and
    sends them to every pipe; a SUB socket also drops the messages it did
    not subscribe to, which peers may send nevertheless.  Requests are
    messages that begin with a byte 0 or 1, or commands. *)

From S2P Require Import Prelude Subscription Array Frame Fq Dist Duplex Xpub.

Record xsub (S : Type) := Xsub {
  xs_fq : fq;
  xs_dist : dist;
  xs_subscriptions : S;
  xs_message : option frame;      (** [_message], when [_has_message] *)
  xs_more_send : bool;
  xs_more_recv : bool;
  xs_process_subscribe : bool;
  xs_only_first_subscribe : bool;
  xs_filter : bool;               (** [options.filter]: SUB *)
  xs_invert_matching : bool;      (** [options.invert_matching] *)
}.
Arguments Xsub {S}. Arguments xs_fq {S}. Arguments xs_dist {S}. Arguments xs_subscriptions {S}. Arguments xs_message {S}.
Arguments xs_more_send {S}. Arguments xs_more_recv {S}. Arguments xs_process_subscribe {S}. Arguments xs_only_first_subscribe {S}.
Arguments xs_filter {S}. Arguments xs_invert_matching {S}.

Section xsub.
Context {S : Type} {SS : SubStore S}.
Implicit Types (s : xsub S).

Definition xsub_new (filter invert : bool) : xsub S :=
  Xsub fq_new dist_new ss_new None false false false false filter invert.

Definition xs_set_fq s (q : fq) : xsub S :=
  Xsub q (xs_dist s) (xs_subscriptions s) (xs_message s) (xs_more_send s) (xs_more_recv s) (xs_process_subscribe s) (xs_only_first_subscribe s)
    (xs_filter s) (xs_invert_matching s).
Definition xs_set_dist s (d : dist) : xsub S :=
  Xsub (xs_fq s) d (xs_subscriptions s) (xs_message s) (xs_more_send s) (xs_more_recv s) (xs_process_subscribe s) (xs_only_first_subscribe s)
    (xs_filter s) (xs_invert_matching s).
Definition xs_set_subs s (t : S) : xsub S :=
  Xsub (xs_fq s) (xs_dist s) t (xs_message s) (xs_more_send s) (xs_more_recv s) (xs_process_subscribe s) (xs_only_first_subscribe s)
    (xs_filter s) (xs_invert_matching s).
Definition xs_set_sending s (more process : bool) : xsub S :=
  Xsub (xs_fq s) (xs_dist s) (xs_subscriptions s) (xs_message s) more (xs_more_recv s) process (xs_only_first_subscribe s)
    (xs_filter s) (xs_invert_matching s).
Definition xs_set_recv s (m : option frame) (more : bool) : xsub S :=
  Xsub (xs_fq s) (xs_dist s) (xs_subscriptions s) m (xs_more_send s) more (xs_process_subscribe s) (xs_only_first_subscribe s)
    (xs_filter s) (xs_invert_matching s).

Definition xsub_xread_activated s (pipe : Z) : option (xsub S) :=
  let* q := fq_activated (xs_fq s) pipe in Some (xs_set_fq s q).

Definition xsub_xwrite_activated s (pipe : Z) : option (xsub S) :=
  let* d := dist_activated (xs_dist s) pipe in Some (xs_set_dist s d).

Definition xsub_xpipe_terminated s (pipe : Z) : option (xsub S) :=
  let* q := fq_pipe_terminated (xs_fq s) pipe in
  let* d := dist_pipe_terminated (xs_dist s) pipe in
  Some (xs_set_dist (xs_set_fq s q) d).

(** [false] is EINVAL. *)
Definition xsub_xsetsockopt s (option_ : Z) (as_int : option Z) : xsub S * bool :=
  if option_ =? ZMQ_ONLY_FIRST_SUBSCRIBE then
    let value := default (-1) as_int in
    if value <? 0 then (s, false)
    else (Xsub (xs_fq s) (xs_dist s) (xs_subscriptions s) (xs_message s) (xs_more_send s) (xs_more_recv s) (xs_process_subscribe s)
            (negb (value =? 0)) (xs_filter s) (xs_invert_matching s), true)
  else (s, false).

(** Whether a message that begins with this part is wanted. *)
Definition xsub_match s (msg : frame) : option bool :=
  let* matching := ss_check (xs_subscriptions s) (fr_body msg) in
  Some (xorb matching (xs_invert_matching s)).

Definition xsub_xhas_out : bool := true.

Section pipes.
Context {W : Type} {IP : InPipes W} {OP : OutPipes W} {DX : Duplex W} {DL : DuplexLaws W}.
Implicit Types (w : W).

(** [send_subscription]: what does not fit is dropped. *)
Definition send_subscription w (pipe : Z) (data : bytes) : option W :=
  let* (w, _) := op_write w pipe (new_frame 0 (1 :: data)) in Some w.

Fixpoint send_subscriptions w (pipe : Z) (keys : list bytes) : option W :=
  match keys with
  | [] => Some w
  | k :: keys' => let* w := send_subscription w pipe k in send_subscriptions w pipe keys'
  end.

Definition xsub_xhiccuped w s (pipe : Z) : option W :=
  let* keys := ss_apply (xs_subscriptions s) in
  let* w := send_subscriptions w pipe keys in
  op_flush w pipe.

Definition xsub_xattach_pipe w s (pipe : Z) : option (W * xsub S) :=
  let* q := fq_attach (xs_fq s) pipe in
  let* d := dist_attach (xs_dist s) pipe in
  let s := xs_set_dist (xs_set_fq s q) d in
  let* w := xsub_xhiccuped w s pipe in
  Some (w, s).

Definition xsub_send_to_all w s (msg : frame) : option (W * xsub S) :=
  let* (w, d, _) := dist_send_to_all w (xs_dist s) msg in Some (w, xs_set_dist s d).

Definition xsub_xsend w s (msg : frame) : option (W * xsub S) :=
  let first_part := negb (xs_more_send s) in
  let s := xs_set_sending s (fr_more msg) (if first_part then negb (xs_only_first_subscribe s) else xs_process_subscribe s) in
  if negb first_part && negb (xs_process_subscribe s) then xsub_send_to_all w s msg
  else if fr_is_subscribe msg || bool_decide (head (fr_body msg) = Some 1) then
    let* data := if fr_is_subscribe msg then command_body msg else Some (tail (fr_body msg)) in
    let* (t, _) := ss_add (xs_subscriptions s) data in
    xsub_send_to_all w (xs_set_sending (xs_set_subs s t) (xs_more_send s) true) msg
  else if fr_is_cancel msg || bool_decide (head (fr_body msg) = Some 0) then
    let* data := if fr_is_cancel msg then command_body msg else Some (tail (fr_body msg)) in
    let* (t, last_) := ss_rm (xs_subscriptions s) data in
    let s := xs_set_sending (xs_set_subs s t) (xs_more_send s) true in
    if (last_ : bool) then xsub_send_to_all w s msg else Some (w, s)
  else xsub_send_to_all w s msg.

(** [while (msg_->flags () & msg_t::more)]: the rest of a message. *)
Fixpoint xsub_skip (fuel : nat) w (q : fq) (msg : frame) : option (W * fq) :=
  if fr_more msg then
    match fuel with
    | O => None
    | Datatypes.S fuel' =>
        let* (w, q, r) := fq_recvpipe w q in
        match r with
        | None => None    (** errno_assert (rc == 0) *)
        | Some (_, msg) => xsub_skip fuel' w q msg
        end
    end
  else Some (w, q).

(** The loop of [xrecv] and [xhas_in]: the first part of the next message
    that is wanted; [pass] when parts are passed without a check. *)
Fixpoint xsub_fetch (fuel : nat) w s (pass : bool) : option (W * xsub S * option frame) :=
  match fuel with
  | O => None
  | Datatypes.S fuel' =>
      let* (w, q, r) := fq_recvpipe w (xs_fq s) in
      let s := xs_set_fq s q in
      match r with
      | None => Some (w, s, None)
      | Some (_, msg) =>
          let* wanted := (if pass || negb (xs_filter s) then Some true else xsub_match s msg) in
          if (wanted : bool) then Some (w, s, Some msg)
          else
            let* (w, q) := xsub_skip (fq_frames w (xs_fq s)) w (xs_fq s) msg in
            xsub_fetch fuel' w (xs_set_fq s q) pass
      end
  end.

Definition xsub_fuel w s : nat := Datatypes.S (fq_frames w (xs_fq s)).

(** [None] is EAGAIN. *)
Definition xsub_xrecv w s : option (W * xsub S * option frame) :=
  match xs_message s with
  | Some msg => Some (w, xs_set_recv s None (fr_more msg), Some msg)
  | None =>
      let* (w, s, r) := xsub_fetch (xsub_fuel w s) w s (xs_more_recv s) in
      match r with
      | None => Some (w, s, None)
      | Some msg => Some (w, xs_set_recv s (xs_message s) (fr_more msg), Some msg)
      end
  end.

Definition xsub_xhas_in w s : option (W * xsub S * bool) :=
  if xs_more_recv s then Some (w, s, true)
  else
    match xs_message s with
    | Some _ => Some (w, s, true)
    | None =>
        let* (w, s, r) := xsub_fetch (xsub_fuel w s) w s false in
        match r with
        | None => Some (w, s, false)
        | Some msg => Some (w, xs_set_recv s (Some msg) (xs_more_recv s), true)
        end
    end.

(** ** SUB *)

(** The result [false] is EINVAL. *)
Definition sub_xsetsockopt w s (option_ : Z) (optval : bytes) : option (W * xsub S * bool) :=
  if negb (option_ =? ZMQ_SUBSCRIBE) && negb (option_ =? ZMQ_UNSUBSCRIBE) then Some (w, s, false)
  else
    let* (w, s) := xsub_xsend w s (new_frame 0 ((if option_ =? ZMQ_SUBSCRIBE then 1 else 0) :: optval)) in
    Some (w, s, true).

(** ENOTSUP *)
Definition sub_xsend w s (msg : frame) : W * xsub S * bool := (w, s, false).
Definition sub_xhas_out : bool := false.

End pipes.
End xsub.
