(* ===== verification/XsubProps.v ===== *)
(** * What subscribing guarantees (src/src/xsub.cpp, src/src/sub.cpp, with src/src/xpub.cpp)

    A SUB socket receives, whole and in the order of each pipe, the
    messages it subscribed to and no others; what it tells its peers makes
    their filter the same as its own. *)

From S2P Require Import Prelude Subscription Array Frame Mtrie Trie Fq Dist Duplex Xpub XpubProps Xsub.

Section recv.
Context {S : Type} {SS : SubStore S} {SL : SubStoreLaws S}.
Context {W : Type} {IP : InPipes W} {OP : OutPipes W} {DX : Duplex W} {DL : DuplexLaws W}.
Implicit Types (w : W) (s : xsub S) (q : fq) (p : Z) (f : frame) (msg : list frame).

(** ** Skipping a message *)

Lemma xsub_skip_spec fuel p : forall w q f msg, is_message (f :: msg) = true -> fq_at w q p msg -> (length msg <= fuel)%nat ->
  exists w' q', xsub_skip fuel w q f = Some (w', q') /\ fq_between w' q' /\ (ip_queue w p = msg ++ ip_queue w' p) /\
    (forall p', p' <> p -> ip_queue w' p' = ip_queue w p') /\ fq_frames w q = (length msg + fq_frames w' q')%nat /\
    (forall p', fq_is_active q p' <-> fq_is_active q' p') /\ (forall p', p' ∈ a_items (fq_pipes q') <-> p' ∈ a_items (fq_pipes q)).
Proof.
  induction fuel as [|fuel IH]; intros w q f msg Hmsg Hat Hlen; cbn [xsub_skip].
  - destruct msg; [|simpl in Hlen; lia]. cbn [is_message] in Hmsg. apply negb_true_iff in Hmsg. rewrite Hmsg. by exists w, q.
  - destruct msg as [|g msg]; cbn [is_message] in Hmsg.
    + apply negb_true_iff in Hmsg. rewrite Hmsg. by exists w, q.
    + apply andb_true_iff in Hmsg as [Hf Hmsg]. rewrite Hf. cbn [fq_at] in Hat.
      destruct (fq_recv_mid w q p g msg Hat) as (w1 & q1 & -> & Hit & Hat1 & Hq1 & _ & Ho1 & Hn1 & Ha1). cbn [mbind option_bind].
      destruct (IH w1 q1 g msg Hmsg Hat1) as (w' & q' & -> & Hb & Hq' & Ho' & Hn' & Ha' & Hm'); [simpl in Hlen; lia|].
      exists w', q'. split_and!; try done.
      * by rewrite Hq1, Hq'.
      * intros p' Hne. by rewrite Ho', Ho1.
      * simpl. lia.
      * intros p'. by rewrite Ha1, Ha'.
      * intros p'. by rewrite Hm', Hit.
Qed.

(** ** The next message that is wanted *)

(** The filter of a SUB socket: some prefix is subscribed, or in inverted mode none. *)
Definition subscribed s (data : bytes) : Prop := exists k, k `prefix_of` data /\ ss_refs (xs_subscriptions s) k <> 0.
Definition sub_wants s f : Prop := xs_filter s = true -> if xs_invert_matching s then ~ subscribed s (fr_body f) else subscribed s (fr_body f).

Lemma xsub_match_spec s f : ss_wf (xs_subscriptions s) -> xs_filter s = true -> exists b, xsub_match s f = Some b /\ (b = true <-> sub_wants s f).
Proof.
  intros Hs Hf. unfold xsub_match, sub_wants. destruct (ss_check_ok _ (fr_body f) Hs) as (b & -> & Hb). cbn [mbind option_bind].
  exists (xorb b (xs_invert_matching s)). split; [done|]. unfold subscribed. destruct (xs_invert_matching s), b; cbn [xorb]; split; try done.
  - intros H. exfalso. by apply (H Hf), Hb.
  - intros _ _ H. by apply Hb in H.
  - intros _ _. by apply Hb.
  - intros H. by apply Hb, H.
Qed.

(** From [w] to [w'] whole messages that are not wanted were dropped. *)
Definition unwanted s msg : Prop := exists f m, msg = f :: m /\ is_message (f :: m) = true /\ ~ sub_wants s f.
Definition dropped s w w' : Prop := drops (unwanted s) w w'.

(** What [xrecv] returns when it is between two messages. *)
Definition next_wanted s w w' (q' : fq) (r : option frame) : Prop :=
  match r with
  | None => dropped s w w' /\ fq_between w' q' /\ forall p, fq_is_active (xs_fq s) p -> ip_queue w' p = []
  | Some f => exists w1 p msg, dropped s w w1 /\ sub_wants s f /\ is_message (f :: msg) = true /\
      ip_queue w1 p = f :: ip_queue w' p /\ (forall p', p' <> p -> ip_queue w' p' = ip_queue w1 p') /\ fq_at w' q' p msg
  end.

Lemma next_wanted_empty s w w' q' r p : next_wanted s w w' q' r -> ip_queue w p = [] -> ip_queue w' p = [].
Proof.
  destruct r as [f|]; cbn [next_wanted].
  - intros (w1 & p1 & msg & Hd & _ & _ & Hq & Ho & _) E. destruct (Hd p) as (msgs & _ & E1). rewrite E in E1.
    symmetry in E1. apply app_eq_nil in E1 as [_ E1]. destruct (decide (p = p1)) as [->|Hne]; [by rewrite Hq in E1|by rewrite Ho].
  - intros (Hd & _). exact (drops_empty _ _ _ p Hd).
Qed.

Lemma next_wanted_step s q1 w w1 w' q' r p f msg : unwanted s (f :: msg) -> ip_queue w p = (f :: msg) ++ ip_queue w1 p ->
  (forall p', p' <> p -> ip_queue w1 p' = ip_queue w p') ->
  (forall p', fq_is_active (xs_fq s) p' -> fq_is_active q1 p' \/ ip_queue w1 p' = []) ->
  next_wanted (xs_set_fq s q1) w1 w' q' r -> next_wanted s w w' q' r.
Proof.
  intros Hu Hq Ho Ha Hn. pose proof (fun p' => next_wanted_empty _ _ _ _ _ p' Hn) as He. destruct r as [g|]; cbn [next_wanted] in *.
  - destruct Hn as (w2 & p2 & m2 & Hd & H). exists w2, p2, m2. split; [|exact H]. by apply (drops_cons (unwanted s) w w1 w2 p f msg).
  - destruct Hn as (Hd & Hb & Hall). split_and!; [by apply (drops_cons (unwanted s) w w1 w' p f msg)|done|]. intros p' Hp'. destruct (Ha p' Hp'); auto.
Qed.

Lemma xsub_fetch_spec fuel : forall w s, ss_wf (xs_subscriptions s) -> fq_between w (xs_fq s) -> (fq_frames w (xs_fq s) < fuel)%nat ->
  exists w' q' r, xsub_fetch fuel w s false = Some (w', xs_set_fq s q', r) /\ next_wanted s w w' q' r.
Proof.
  induction fuel as [|fuel IH]; intros w s Hs Hb Hlen; [lia|]. cbn [xsub_fetch].
  destruct (fq_recv_start w (xs_fq s) Hb) as (w1 & q1 & r & -> & Hmem & Hr). cbn [mbind option_bind]. destruct r as [[p f]|].
  - destruct Hr as (Hact & msg & rest & Hmsg & Hrest & Hq & Hq1 & Ho & Hat & Hn & Hsh1 & Hsh2). cbn [orb xs_filter xs_set_fq].
    assert (exists b, (if negb (xs_filter s) then Some true else xsub_match (xs_set_fq s q1) f) = Some b /\ (b = true <-> sub_wants s f)) as (b & -> & Hb').
    { destruct (xs_filter s) eqn:Ef; cbn [negb]; [|exists true; split; [done|]; split; [|done]; intros _ ?; congruence].
      exact (xsub_match_spec (xs_set_fq s q1) f Hs Ef). }
    cbn [mbind option_bind]. destruct b.
    + exists w1, q1, (Some f). split; [done|]. exists w, p, msg. split_and!; try done; [by apply drops_refl|by apply Hb'|congruence].
    + assert (unwanted s (f :: msg)) as Hu by (exists f, msg; split_and!; try done; intros H; apply Hb' in H; done).
      cbn [xs_fq xs_set_fq]. destruct (xsub_skip_spec (fq_frames w1 q1) p w1 q1 f msg Hmsg Hat) as (w2 & q2 & -> & Hb2 & Hq2 & Ho2 & Hn2 & Ha2 & Hm2).
      { by apply (fq_at_length _ _ p). }
      cbn [mbind option_bind]. destruct (IH w2 (xs_set_fq s q2) Hs Hb2) as (w' & q' & r & E & Hnw); [cbn; lia|].
      exists w', q', r. split; [exact E|]. apply (next_wanted_step s q2 w w2 w' q' r p f msg); try done.
      * rewrite Hq. simpl. f_equal. congruence.
      * intros p' Hne. by rewrite Ho2, Ho.
      * intros p' Hp'. rewrite <- Ha2. destruct (decide (ip_queue w p' = [])) as [He|He]; [right|left; by apply Hsh2].
        rewrite Ho2, Ho; [done|intros ->; by rewrite Hq in He..].
  - destruct Hr as (Hall & Hsame & Hb1 & Hz). exists w1, q1, None. split; [done|]. cbn [next_wanted]. split_and!; try done; [by apply drops_refl|].
    intros p Hp. rewrite Hsame. auto.
Qed.

(** ** Receiving the whole message *)

Fixpoint xsub_recv_n (n : nat) w s : option (W * xsub S * list (option frame)) :=
  match n with
  | O => Some (w, s, [])
  | Datatypes.S n' =>
      let* (w, s, r) := xsub_xrecv w s in
      let* (w, s, rs) := xsub_recv_n n' w s in
      Some (w, s, r :: rs)
  end.

(** In the middle of a message parts are passed on. *)
Lemma xsub_recv_rest p msg : forall w s, xs_message s = None -> fq_at w (xs_fq s) p msg ->
  xs_more_recv s = negb (bool_decide (msg = [])) ->
  exists w' s', xsub_recv_n (length msg) w s = Some (w', s', Some <$> msg) /\ fq_between w' (xs_fq s') /\ xs_more_recv s' = false /\
    xs_message s' = None /\ xs_subscriptions s' = xs_subscriptions s /\
    ip_queue w p = msg ++ ip_queue w' p /\ (forall p', p' <> p -> ip_queue w' p' = ip_queue w p').
Proof.
  induction msg as [|f msg IH]; intros w s Hn Hat Hm.
  - exists w, s. by rewrite bool_decide_true in Hm.
  - rewrite bool_decide_false in Hm by done. cbn [length xsub_recv_n fmap list_fmap fq_at] in *.
    destruct (fq_recv_mid w (xs_fq s) p f msg Hat) as (w1 & q1 & E & _ & Hat1 & Hq1 & _ & Ho1 & _).
    unfold xsub_xrecv. rewrite Hn. unfold xsub_fuel. cbn [xsub_fetch]. rewrite E. cbn [mbind option_bind]. rewrite Hm. cbn [negb orb mbind option_bind].
    destruct Hat as (_ & _ & _ & _ & Hmsg & _). change (xs_message (xs_set_fq s q1)) with (xs_message s). rewrite Hn.
    destruct (IH w1 (xs_set_recv (xs_set_fq s q1) None (fr_more f))) as (w' & s' & -> & Hb & H1 & H2 & H3 & H4 & H5); [done|done| |].
    { cbn. destruct msg as [|g msg]; cbn [is_message] in Hmsg; [by apply negb_true_iff in Hmsg|].
      apply andb_true_iff in Hmsg as [-> _]. done. }
    cbn [mbind option_bind]. exists w', s'. split_and!; try done.
    + by rewrite Hq1, H4.
    + intros p' Hne. by rewrite H5, Ho1.
Qed.

End recv.

(** ** Requests sent upstream *)

Section upstream.
Context {S : Type} {SS : SubStore S} {SL : SubStoreLaws S}.
Context {W : Type} {IP : InPipes W} {OP : OutPipes W} {DX : Duplex W} {DL : DuplexLaws W}.
Implicit Types (w : W) (s : xsub S) (p : Z).

(** A SUB socket that can tell a pipe of its subscriptions. *)
Definition sub_ready w s p : Prop :=
  ss_wf (xs_subscriptions s) /\ dist_inv (xs_dist s) /\ di_more (xs_dist s) = false /\ xs_more_send s = false /\
  di_is_active (xs_dist s) p /\ op_pending w p = [].

Definition sub_step w s (o : sub_op) : option (W * xsub S * bool) :=
  match o with
  | SubAdd k => sub_xsetsockopt w s ZMQ_SUBSCRIBE k
  | SubRm k => sub_xsetsockopt w s ZMQ_UNSUBSCRIBE k
  end.

Fixpoint sub_run w s (ops : list sub_op) : option (W * xsub S) :=
  match ops with
  | [] => Some (w, s)
  | o :: ops' => let* (w, s, _) := sub_step w s o in sub_run w s ops'
  end.

(** The pipe has room whenever a request is made. *)
Fixpoint room_for w s p (ops : list sub_op) : Prop :=
  match ops with
  | [] => True
  | o :: ops' => op_room w p = true /\ forall w' s' b, sub_step w s o = Some (w', s', b) -> room_for w' s' p ops'
  end.

Lemma send_to_all_spec w s p f : dist_inv (xs_dist s) -> di_is_active (xs_dist s) p -> op_room w p = true -> op_pending w p = [] -> fr_more f = false ->
  exists w' d', xsub_send_to_all w s f = Some (w', xs_set_dist s d') /\ dist_inv d' /\ di_more d' = false /\ di_is_active d' p /\
    op_pending w' p = [] /\ op_sent w' p = op_sent w p ++ [f].
Proof.
  intros [Ha Ho Hi] Hp Hr Hpend Hf. unfold xsub_send_to_all, dist_send_to_all.
  destruct (dist_send_ok w (Dist (di_pipes (xs_dist s)) (di_active (xs_dist s)) (di_active (xs_dist s)) (di_eligible (xs_dist s)) (di_more (xs_dist s))) f)
    as (w' & d' & refs & -> & Hd' & Hm' & Hg & _ & _ & Hel & Hac & _); [constructor; cbn; [done|lia|done]|].
  cbn [mbind option_bind]. exists w', d'. split; [done|]. pose proof (Hg p Hp Hr) as Hgot. unfold got_frame in Hgot. rewrite Hf in Hgot.
  destruct Hgot as [-> ->]. rewrite Hpend. split_and!; try done; [congruence|]. unfold di_is_active. rewrite (Hac Hf). apply Hel. cbn. split; [|done].
  destruct Hp as (k & Hk & Hkp). exists k. cbn. split; [lia|done].
Qed.

(** A peer whose subscriptions of this pipe are those of the socket. *)
Definition agrees (t : S) (e : entries) (pp : Z) : Prop := forall k, pp ∈ e k <-> ss_refs t k <> 0.

Definition request_frame (o : sub_op) : frame := new_frame 0 (match o with SubAdd k => 1 :: k | SubRm k => 0 :: k end).

Lemma request_frame_ok o : bytes_ok (sub_op_key o) -> sub_frame_ok (request_frame o) /\ fr_more (request_frame o) = false /\
  sub_request (request_frame o) = Some (Some (match o with SubAdd k => (true, k) | SubRm k => (false, k) end)).
Proof.
  intros Hk. destruct o as [k|k]; cbn [sub_op_key] in Hk; unfold sub_frame_ok; (split_and!; [constructor; [unfold is_u8; lia|done]|by eexists|done|done]).
Qed.

Lemma agrees_event o t t' e pp : ss_wf t ->
  (forall k', ss_refs t' k' = if decide (k' = sub_op_key o) then match o with SubAdd k => ss_refs t k + 1 | SubRm k => Z.max 0 (ss_refs t k - 1) end else ss_refs t k') ->
  (match o with SubRm k => ss_refs t k = 1 | _ => True end) -> agrees t e pp ->
  agrees t' (request_entries e pp (match o with SubAdd _ => true | _ => false end) (sub_op_key o)) pp.
Proof.
  intros Hwf Hr H1 Ha k'. rewrite Hr. unfold request_entries. destruct o as [k|k]; cbn [sub_op_key entries_step] in *; destruct (decide (k' = k)) as [->|Hne].
  - rewrite elem_of_union, elem_of_singleton. pose proof (ss_refs_nonneg t k Hwf). split; [intros _; lia|by left].
  - apply Ha.
  - rewrite H1, elem_of_difference, elem_of_singleton. split; [by intros [_ ?]|lia].
  - apply Ha.
Qed.

Lemma sub_step_spec w s p o : sub_ready w s p -> op_room w p = true -> bytes_ok (sub_op_key o) -> ss_refs (xs_subscriptions s) (sub_op_key o) + 1 < 4294967296 ->
  exists w' s' fs, sub_step w s o = Some (w', s', true) /\ sub_ready w' s' p /\ op_sent w' p = op_sent w p ++ fs /\ Forall sub_frame_ok fs /\
    (forall k, ss_refs (xs_subscriptions s') k <= ss_refs (xs_subscriptions s) k + 1) /\
    (forall xo e pp, agrees (xs_subscriptions s) e pp -> agrees (xs_subscriptions s') (sub_events xo e pp fs).1 pp).
Proof.
  intros (Hs & Hd & Hm & Hms & Hp & Hpend) Hr Hk Hov. destruct (request_frame_ok o Hk) as (Hok & Hmore & Hreq).
  assert (sub_step w s o = (let* (w, s) := xsub_xsend w s (request_frame o) in Some (w, s, true))) as -> by (by destruct o).
  unfold xsub_xsend. rewrite Hms, Hmore. cbn [negb andb]. destruct o as [k|k]; cbn [sub_op_key] in *.
  - destruct (ss_add_ok _ k Hs Hk Hov) as (t & b & E & Ht & _ & Hrefs). cbn [request_frame new_frame fr_is_subscribe fr_flags fr_body head tail orb].
    rewrite bool_decide_true by done. change (fr_is_subscribe _) with false. cbn [orb mbind option_bind]. cbn [xs_subscriptions xs_set_sending]. rewrite E. cbn [mbind option_bind].
    match goal with |- context [xsub_send_to_all w ?s1 _] => destruct (send_to_all_spec w s1 p (request_frame (SubAdd k)) Hd Hp Hr Hpend Hmore)
      as (w' & d' & Es & Hd' & Hm' & Hp' & Hpend' & Hsent); cbn [request_frame] in Es; rewrite Es end.
    cbn [mbind option_bind]. eexists w', _, [request_frame (SubAdd k)]. split; [done|]. split_and!; try done; [by constructor| |].
    + intros k'. cbn. rewrite Hrefs. destruct (decide (k' = k)); [subst|]; lia.
    + intros xo e pp Ha. cbn [sub_events]. unfold frame_events. rewrite Hreq. cbn. by apply (agrees_event (SubAdd k) (xs_subscriptions s) t e pp).
  - destruct (ss_rm_ok _ k Hs) as (t & b & E & Ht & -> & Hrefs). cbn [request_frame new_frame fr_is_subscribe fr_flags fr_body head tail orb].
    rewrite bool_decide_false by done. rewrite bool_decide_true by done. change (fr_is_subscribe _) with false. change (fr_is_cancel _) with false.
    cbn [orb mbind option_bind]. cbn [xs_subscriptions xs_set_sending]. rewrite E. cbn [mbind option_bind]. pose proof (ss_refs_nonneg _ k Hs) as Hnn.
    assert (forall k', ss_refs t k' <= ss_refs (xs_subscriptions s) k' + 1) as Hle by (intros k'; rewrite Hrefs; destruct (decide (k' = k)); [subst|]; lia).
    destruct (ss_refs (xs_subscriptions s) k =? 1) eqn:E1; bool_prop.
    + match goal with |- context [xsub_send_to_all w ?s1 _] => destruct (send_to_all_spec w s1 p (request_frame (SubRm k)) Hd Hp Hr Hpend Hmore)
        as (w' & d' & Es & Hd' & Hm' & Hp' & Hpend' & Hsent); cbn [request_frame] in Es; rewrite Es end.
      cbn [mbind option_bind]. eexists w', _, [request_frame (SubRm k)]. split; [done|]. split_and!; try done; [by constructor|].
      intros xo e pp Ha. cbn [sub_events]. unfold frame_events. rewrite Hreq. cbn. by apply (agrees_event (SubRm k) (xs_subscriptions s) t e pp).
    + cbn [mbind option_bind]. eexists w, _, []. split; [done|]. rewrite app_nil_r. split_and!; try done.
      intros xo e pp Ha k'. cbn. rewrite (Ha k'), Hrefs. destruct (decide (k' = k)); [subst|done]. lia.
Qed.

Lemma sub_events_app xo pp fs1 : forall e fs2, (sub_events xo e pp (fs1 ++ fs2)).1 = (sub_events xo (sub_events xo e pp fs1).1 pp fs2).1.
Proof.
  induction fs1 as [|f fs1 IH]; intros e fs2; [done|]. cbn [app sub_events]. destruct (frame_events xo e pp f) as [e1 l1].
  specialize (IH e1 fs2). destruct (sub_events xo e1 pp (fs1 ++ fs2)), (sub_events xo e1 pp fs1). done.
Qed.

Lemma sub_run_spec p ops : forall w s, sub_ready w s p -> room_for w s p ops -> Forall (fun o => bytes_ok (sub_op_key o)) ops ->
  (forall k, ss_refs (xs_subscriptions s) k + Z.of_nat (length ops) < 4294967296) ->
  exists w' s' fs, sub_run w s ops = Some (w', s') /\ sub_ready w' s' p /\ op_sent w' p = op_sent w p ++ fs /\ Forall sub_frame_ok fs /\
    (forall xo e pp, agrees (xs_subscriptions s) e pp -> agrees (xs_subscriptions s') (sub_events xo e pp fs).1 pp).
Proof.
  induction ops as [|o ops IH]; intros w s Hr Hroom Hok Hov; cbn [sub_run].
  - exists w, s, []. by rewrite app_nil_r.
  - destruct Hroom as [Hrm Hroom]. apply Forall_cons_1 in Hok as [Ho Hok]. cbn [length] in Hov.
    destruct (sub_step_spec w s p o Hr Hrm Ho) as (w1 & s1 & fs1 & E & Hr1 & Hs1 & Hf1 & Hle & Ha1); [specialize (Hov (sub_op_key o)); lia|].
    rewrite E. cbn [mbind option_bind].
    destruct (IH w1 s1 Hr1 (Hroom _ _ _ E) Hok) as (w' & s' & fs & -> & Hr' & Hs' & Hf' & Ha').
    { intros k. specialize (Hov k). specialize (Hle k). lia. }
    exists w', s', (fs1 ++ fs). split; [done|]. split_and!; try done.
    + by rewrite Hs', Hs1, app_assoc.
    + by apply Forall_app.
    + intros xo e pp Ha. rewrite sub_events_app. auto.
Qed.

End upstream.

(** ** The guarantees *)

(** a SUB socket that is between two messages drops, whole, the messages it did not subscribe to and receives the first one it
    did, of the pipe whose turn it is, whole and part by part; when there is none it answers EAGAIN, having dropped what there was.
    No assertion fails. *)
Theorem sub_receives {S} {SS : SubStore S} {SL : SubStoreLaws S} {W} {IP : InPipes W} {OP : OutPipes W} {DX : Duplex W} {DL : DuplexLaws W}
    (w : W) (s : xsub S) :
  ss_wf (xs_subscriptions s) -> fq_between w (xs_fq s) -> xs_message s = None -> xs_more_recv s = false ->
  (exists w' s', xsub_xrecv w s = Some (w', s', None) /\ dropped s w w' /\ fq_between w' (xs_fq s') /\
     forall p, fq_is_active (xs_fq s) p -> ip_queue w' p = []) \/
  (exists w1 w' s' p f msg, xsub_recv_n (length (f :: msg)) w s = Some (w', s', Some <$> f :: msg) /\ is_message (f :: msg) = true /\
     sub_wants s f /\ dropped s w w1 /\ ip_queue w1 p = (f :: msg) ++ ip_queue w' p /\ (forall p', p' <> p -> ip_queue w' p' = ip_queue w1 p') /\
     fq_between w' (xs_fq s') /\ xs_more_recv s' = false /\ xs_message s' = None).
Proof.
  intros Hs Hb Hn Hm. destruct (xsub_fetch_spec (xsub_fuel w s) w s Hs Hb) as (w' & q' & r & E & Hr); [unfold xsub_fuel; lia|].
  assert (forall A (k : W * xsub S * option frame -> option A), (xsub_xrecv w s ≫= k) = match r with
    | None => k (w', xs_set_fq s q', None) | Some f => k (w', xs_set_recv (xs_set_fq s q') None (fr_more f), Some f) end) as Hrecv.
  { intros A k. unfold xsub_xrecv. rewrite Hn, Hm, E. cbn [mbind option_bind]. destruct r; [|done]. cbn [mbind option_bind].
    change (xs_message (xs_set_fq s q')) with (xs_message s). by rewrite Hn. }
  destruct r as [f|]; cbn [next_wanted] in Hr.
  - right. destruct Hr as (w1 & p & msg & Hd & Hw & Hmsg & Hq & Ho & Hat).
    destruct (xsub_recv_rest p msg w' (xs_set_recv (xs_set_fq s q') None (fr_more f)) eq_refl Hat) as (w2 & s2 & E2 & Hb2 & Hm2 & Hn2 & _ & Hq2 & Ho2).
    { cbn. destruct msg as [|g msg]; cbn [is_message] in Hmsg; [by apply negb_true_iff in Hmsg|]. by apply andb_true_iff in Hmsg as [-> _]. }
    exists w1, w2, s2, p, f, msg. split_and!; try done.
    + cbn [length xsub_recv_n]. rewrite Hrecv, E2. done.
    + by rewrite Hq, Hq2.
    + intros p' Hne. by rewrite Ho2, Ho.
  - left. destruct Hr as (Hd & Hb' & Hall). exists w', (xs_set_fq s q'). split_and!; try done.
    pose proof (Hrecv _ Some) as H. by destruct (xsub_xrecv w s) as [[[? ?] ?]|].
Qed.

(** C25: the filters of the two sides agree.  Whatever a SUB socket subscribes to and cancels while the pipe to a publisher has
    room, the publisher that reads the requests it was sent sends on that pipe exactly the messages the socket itself would not
    drop. *)
Theorem pubsub_filters_agree {S} {SS : SubStore S} {SL : SubStoreLaws S} {W} {IP : InPipes W} {OP : OutPipes W} {DX : Duplex W} {DL : DuplexLaws W}
    {PP : PubPipes W} (w : W) (s : xsub S) (p : Z) (ops : list sub_op) :
  sub_ready w s p -> (forall k, ss_refs (xs_subscriptions s) k = 0) -> room_for w s p ops -> Forall (fun o => bytes_ok (sub_op_key o)) ops ->
  Z.of_nat (length ops) < 4294967296 ->
  exists w' s' fs, sub_run w s ops = Some (w', s') /\ op_sent w' p = op_sent w p ++ fs /\
    forall (wp : W) (x : xpub) (pp : Z), xpub_inv x -> plain_mode x -> pp ∈ a_items (di_pipes (xp_dist x)) ->
      (forall k, pp ∉ mtrie_vals (xp_subscriptions x) k) -> ip_queue wp pp = fs ->
      exists wp' x', xpub_xread_activated wp x pp = Some (wp', x') /\
        forall data, exists pipes, mtrie_match (xp_subscriptions x') data = Some pipes /\
          (pp ∈ pipes <-> ss_check (xs_subscriptions s') data = Some true).
Proof.
  intros Hr H0 Hroom Hok Hov. destruct (sub_run_spec p ops w s Hr Hroom Hok) as (w' & s' & fs & E & Hr' & Hs' & Hf & Ha).
  { intros k. rewrite H0. lia. }
  exists w', s', fs. split_and!; try done. intros wp x pp Hx Hpm Hpp Hno <-.
  destruct (xpub_read_loop_spec _ pp wp x Hx Hpm Hpp Hf eq_refl) as (wp' & x' & E' & Hx' & _ & _ & _ & _ & Hv & _).
  exists wp', x'. split; [done|]. intros data. exists (prefix_pipes (xp_subscriptions x') data). split; [by apply mtrie_match_spec, Hx'|].
  rewrite elem_prefix_pipes. destruct Hr' as (Hwf & _). destruct (ss_check_ok _ data Hwf) as (b & -> & Hb).
  assert (agrees (xs_subscriptions s) (mtrie_vals (xp_subscriptions x)) pp) as Ha0 by (intros k; rewrite H0; split; [by intros ?%Hno|done]).
  specialize (Ha (xp_opts x) _ _ Ha0). setoid_rewrite Hv. setoid_rewrite (fun k => Ha k). rewrite <- Hb. split; [by intros ->|by intros [= ->]].
Qed.

(** ** Concrete runs *)

Definition sub_pipes (q : list frame) : dpipes := DPipes (list_to_map [(1, q)]) (list_to_map [(1, (9%nat, [], []))]) ∅.

Definition sub_example (ops : list sub_op) : xsub trie :=
  match (let* (w, s) := xsub_xattach_pipe (sub_pipes []) (xsub_new true false) 1 in sub_run w s ops) with Some (_, s) => s | None => xsub_new true false end.

Definition sub_attached : xsub trie := Eval vm_compute in sub_example [].
Definition sub_subscribed : xsub trie := Eval vm_compute in sub_example [SubAdd [7]].

(** Two messages of two parts, the second of which is subscribed to. *)
Definition sub_queue : list frame := [Frame type_vsm 1 [8]; Frame type_vsm 0 [7]; Frame type_vsm 1 [7; 5]; Frame type_vsm 0 [6]].

Lemma sub_queue_between : fq_between (sub_pipes sub_queue) (xs_fq sub_subscribed).
Proof.
  split; [|split; [reflexivity|]].
  - constructor; [|vm_compute; lia|vm_compute; lia]. constructor; simpl; [apply NoDup_singleton|].
    intros [|i] x; simpl; [intros [= <-]; reflexivity|]. by destruct i.
  - intros p (k & Hk & Hx). vm_compute in Hk. destruct k; [|lia]. vm_compute in Hx. injection Hx as <-.
    exists [[Frame type_vsm 1 [8]; Frame type_vsm 0 [7]]; [Frame type_vsm 1 [7; 5]; Frame type_vsm 0 [6]]]. split; [reflexivity|]. by repeat constructor.
Qed.

Lemma sub_subscribed_wf : ss_wf (xs_subscriptions sub_subscribed).
Proof.
  destruct (trie_add_spec [7] trie_new trie_new_wf) as (t & b & E & Ht & _); [by repeat constructor|by rewrite trie_refs_new|].
  vm_compute in E. injection E as <- _. exact Ht.
Qed.

Lemma sub_receives_witness :
  ((exists w' s', xsub_xrecv (sub_pipes sub_queue) sub_subscribed = Some (w', s', None)) \/
   (exists f msg w' s', xsub_recv_n (length (f :: msg)) (sub_pipes sub_queue) sub_subscribed = Some (w', s', Some <$> f :: msg))) /\
  exists w' s', xsub_recv_n 2 (sub_pipes sub_queue) sub_subscribed = Some (w', s', [Some (Frame type_vsm 1 [7; 5]); Some (Frame type_vsm 0 [6])]).
Proof.
  split.
  - destruct (sub_receives (sub_pipes sub_queue) sub_subscribed sub_subscribed_wf sub_queue_between eq_refl eq_refl)
      as [(w' & s' & E & _)|(w1 & w' & s' & p & f & msg & E & _)]; [left; by exists w', s'|right; by exists f, msg, w', s'].
  - eexists _, _. vm_compute. reflexivity.
Defined.

Definition sub_requests : list sub_op := [SubAdd [7]; SubAdd [8]; SubAdd [8]; SubRm [7]; SubRm [8]].

Lemma sub_attached_ready : sub_ready (sub_pipes []) sub_attached 1.
Proof.
  split_and!; try reflexivity; [exact trie_new_wf| |].
  - constructor; [|vm_compute; lia|reflexivity]. constructor; simpl; [apply NoDup_singleton|].
    intros [|i] x; simpl; [intros [= <-]; reflexivity|]. by destruct i.
  - exists 0%nat. split; [vm_compute; lia|reflexivity].
Qed.

Lemma sub_requests_room : room_for (sub_pipes []) sub_attached 1 sub_requests.
Proof.
  repeat (split; [reflexivity|]; intros w s b E; vm_compute in E; injection E as <- <- <-). exact I.
Qed.

Lemma pubsub_filters_agree_witness : exists w' s' fs, sub_run (sub_pipes []) sub_attached sub_requests = Some (w', s') /\
  op_sent w' 1 = op_sent (sub_pipes []) 1 ++ fs /\
  exists x' wp', xpub_xread_activated (sub_pipes fs) (xp_set_dist (xpub_new true false) (xs_dist sub_attached)) 1 = Some (wp', x') /\
    mtrie_match (xp_subscriptions x') [8; 1] = Some [1].
Proof.
  destruct (pubsub_filters_agree (sub_pipes []) sub_attached 1 sub_requests sub_attached_ready) as (w' & s' & fs & E & Hs & Hall).
  - intros k. apply trie_refs_new.
  - exact sub_requests_room.
  - by repeat constructor.
  - reflexivity.
  - exists w', s', fs. split; [exact E|]. split; [exact Hs|].
    destruct (Hall (sub_pipes fs) (xp_set_dist (xpub_new true false) (xs_dist sub_attached)) 1) as (wp' & x' & Ex & _).
    + pose proof sub_attached_ready as (_ & Hd & Hm & _). constructor; [exact mtrie_new_wf|exact mtrie_new_wf|exact Hd|reflexivity|]. intros k p. cbn [xp_subscriptions xp_set_dist xpub_new]. rewrite mtrie_vals_new. intros Hp. destruct (not_elem_of_empty (C := pipes_t) p Hp).
    + split_and!; done.
    + vm_compute. left.
    + intros k. cbn [xp_subscriptions xp_set_dist xpub_new]. rewrite mtrie_vals_new. exact (not_elem_of_empty (C := pipes_t) 1).
    + reflexivity.
    + exists x', wp'. split; [exact Ex|]. vm_compute in E. injection E as <- <-. cbn in Hs. vm_compute in Hs. subst fs. vm_compute in Ex.
      injection Ex as <- <-. vm_compute. reflexivity.
Defined.
