(* ===== verification/Dealer.v ===== *)
(** * The DEALER socket, [dealer_t] (src/src/dealer.cpp)

    Receives from its pipes by a fair queue and sends to them by a load
    balancer. *)

From S2P Require Import Prelude Array Frame Fq Lb Duplex.

Record dealer := Dealer { de_fq : fq; de_lb : lb; de_probe_router : bool }.

Definition dealer_new : dealer := Dealer fq_new lb_new false.

(** Option codes (src/include/zmq.h). *)
Definition ZMQ_PROBE_ROUTER : Z := 51.

(** [xsetsockopt]; the value when it has the size of an int.  [None] is EINVAL. *)
Definition dealer_xsetsockopt (d : dealer) (option_ : Z) (optval : option Z) : option dealer :=
  match optval with
  | Some value =>
      if (option_ =? ZMQ_PROBE_ROUTER) && (0 <=? value) then Some (Dealer (de_fq d) (de_lb d) (negb (value =? 0))) else None
  | None => None
  end.

Definition dealer_xread_activated (d : dealer) (pipe : Z) : option dealer :=
  let* q := fq_activated (de_fq d) pipe in Some (Dealer q (de_lb d) (de_probe_router d)).

Definition dealer_xwrite_activated (d : dealer) (pipe : Z) : option dealer :=
  let* q := lb_activated (de_lb d) pipe in Some (Dealer (de_fq d) q (de_probe_router d)).

Definition dealer_xpipe_terminated (d : dealer) (pipe : Z) : option dealer :=
  let* f := fq_pipe_terminated (de_fq d) pipe in
  let* l := lb_pipe_terminated (de_lb d) pipe in
  Some (Dealer f l (de_probe_router d)).

Section dealer.
Context {W : Type} {IP : InPipes W} {OP : OutPipes W} {DX : Duplex W} {DL : DuplexLaws W}.

(** The probe is an empty message; whether the pipe takes it does not matter. *)
Definition dealer_xattach_pipe (w : W) (d : dealer) (pipe : Z) : option (W * dealer) :=
  let* w :=
    if de_probe_router d then
      let* (w, _) := op_write w pipe fr_empty in op_flush w pipe
    else Some w in
  let* f := fq_attach (de_fq d) pipe in
  let* l := lb_attach (de_lb d) pipe in
  Some (w, Dealer f l (de_probe_router d)).

Definition dealer_sendpipe (w : W) (d : dealer) (msg : frame) : option (W * dealer * send_result) :=
  let* (w, l, r) := lb_sendpipe w (de_lb d) msg in Some (w, Dealer (de_fq d) l (de_probe_router d), r).

Definition dealer_recvpipe (w : W) (d : dealer) : option (W * dealer * option (Z * frame)) :=
  let* (w, q, r) := fq_recvpipe w (de_fq d) in Some (w, Dealer q (de_lb d) (de_probe_router d), r).

Definition dealer_xhas_in (w : W) (d : dealer) : option (W * dealer * bool) :=
  let* (w, q, b) := fq_has_in w (de_fq d) in Some (w, Dealer q (de_lb d) (de_probe_router d), b).

Definition dealer_xhas_out (w : W) (d : dealer) : option (W * dealer * bool) :=
  let* (w, l, b) := lb_has_out w (de_lb d) in Some (w, Dealer (de_fq d) l (de_probe_router d), b).

End dealer.
