(* ===== verification/Req.v ===== *)
(** * The REQ socket, [req_t] and [req_session_t] (src/src/req.cpp)

    A REQ socket is a DEALER that sends one request, waits for the reply
    to it, and puts an envelope around both: an optional request id and
    an empty frame. *)

From S2P Require Import Prelude Array Frame Fq Lb Duplex Dealer.

Record req := Req {
  rq_dealer : dealer;
  rq_receiving_reply : bool;
  rq_message_begins : bool;
  rq_reply_pipe : option Z;
  rq_request_id_frames : bool;
  rq_request_id : Z;              (** a 32-bit counter *)
  rq_strict : bool;
}.

(** The constructor; the first request id is random. *)
Definition req_new (random : Z) : req := Req dealer_new false true None false (u32 random) true.

(** The bytes of an integer in memory (least significant first). *)
Definition id_bytes (v : Z) : bytes := [v mod 256; (v / 256) mod 256; (v / 65536) mod 256; (v / 16777216) mod 256].

(** [init_size (sizeof (uint32_t))], [set_flags (more)]. *)
Definition req_id_frame (id : Z) : frame := Frame type_vsm flag_more (id_bytes id).
Definition req_bottom : frame := Frame type_vsm flag_more [].

(** The result of [xsend] and [xrecv]. *)
Inductive xrc := XOk | XAgain | XAborted | XEfsm.

Definition send_rc (r : send_result) : xrc := match r with SendOk _ => XOk | SendAgain => XAgain | SendAborted => XAborted end.

Definition ZMQ_REQ_CORRELATE : Z := 52.
Definition ZMQ_REQ_RELAXED : Z := 53.

Definition req_xsetsockopt (r : req) (option_ : Z) (optval : option Z) : option req :=
  let value := default 0 optval in
  let ok := bool_decide (is_Some optval) && (0 <=? value) in
  if (option_ =? ZMQ_REQ_CORRELATE) && ok then
    Some (Req (rq_dealer r) (rq_receiving_reply r) (rq_message_begins r) (rq_reply_pipe r) (negb (value =? 0)) (rq_request_id r) (rq_strict r))
  else if (option_ =? ZMQ_REQ_RELAXED) && ok then
    Some (Req (rq_dealer r) (rq_receiving_reply r) (rq_message_begins r) (rq_reply_pipe r) (rq_request_id_frames r) (rq_request_id r) (value =? 0))
  else
    let* d := dealer_xsetsockopt (rq_dealer r) option_ optval in
    Some (Req d (rq_receiving_reply r) (rq_message_begins r) (rq_reply_pipe r) (rq_request_id_frames r) (rq_request_id r) (rq_strict r)).

Definition req_xpipe_terminated (r : req) (pipe : Z) : option req :=
  let reply := if bool_decide (rq_reply_pipe r = Some pipe) then None else rq_reply_pipe r in
  let* d := dealer_xpipe_terminated (rq_dealer r) pipe in
  Some (Req d (rq_receiving_reply r) (rq_message_begins r) reply (rq_request_id_frames r) (rq_request_id r) (rq_strict r)).

Definition req_set_dealer (r : req) (d : dealer) : req :=
  Req d (rq_receiving_reply r) (rq_message_begins r) (rq_reply_pipe r) (rq_request_id_frames r) (rq_request_id r) (rq_strict r).
Definition req_set_fsm (r : req) (receiving begins : bool) : req :=
  Req (rq_dealer r) receiving begins (rq_reply_pipe r) (rq_request_id_frames r) (rq_request_id r) (rq_strict r).
Definition req_set_reply (r : req) (p : option Z) : req :=
  Req (rq_dealer r) (rq_receiving_reply r) (rq_message_begins r) p (rq_request_id_frames r) (rq_request_id r) (rq_strict r).
Definition req_set_id (r : req) (id : Z) : req :=
  Req (rq_dealer r) (rq_receiving_reply r) (rq_message_begins r) (rq_reply_pipe r) (rq_request_id_frames r) id (rq_strict r).

Section req.
Context {W : Type} {IP : InPipes W} {OP : OutPipes W} {DX : Duplex W} {DL : DuplexLaws W}.

(** [dealer_t::sendpipe (msg, &_reply_pipe)]: the pipe is stored when one was used. *)
Definition req_send_label (w : W) (r : req) (msg : frame) : option (W * req * send_result) :=
  let* (w, d, res) := dealer_sendpipe w (rq_dealer r) msg in
  let r := req_set_dealer r d in
  Some (w, match res with SendOk (Some p) => req_set_reply r (Some p) | _ => r end, res).

(** The loop that drops what can be received. *)
Fixpoint req_drain (fuel : nat) (w : W) (d : dealer) : option (W * dealer) :=
  match fuel with
  | O => None
  | S fuel' =>
      let* (w, d, m) := dealer_recvpipe w d in
      match m with None => Some (w, d) | Some _ => req_drain fuel' w d end
  end.

(** The envelope of a request; whether it could be sent. *)
Definition req_send_envelope (w : W) (r : req) : option (W * req * bool) :=
  let r := req_set_reply r None in
  let* (w, r, ok) :=
    if rq_request_id_frames r then
      let r := req_set_id r (u32 (rq_request_id r + 1)) in
      let* (w, r, res) := req_send_label w r (req_id_frame (rq_request_id r)) in
      Some (w, r, match res with SendOk _ => true | _ => false end)
    else Some (w, r, true) in
  if negb ok then Some (w, r, false)
  else
    let* (w, r, res) := req_send_label w r req_bottom in
    match res with
    | SendOk _ =>
        zmq_assert (bool_decide (is_Some (rq_reply_pipe r))) ;;
        let r := req_set_fsm r (rq_receiving_reply r) false in
        let* (w, d) := req_drain (S (fq_frames w (de_fq (rq_dealer r)))) w (rq_dealer r) in
        Some (w, req_set_dealer r d, true)
    | _ => Some (w, r, false)
    end.

Definition req_xsend (w : W) (r : req) (msg : frame) : option (W * req * xrc) :=
  if rq_receiving_reply r && rq_strict r then Some (w, r, XEfsm)
  else
    let r := if rq_receiving_reply r then req_set_fsm r false true else r in
    let* (w, r, ok) := if rq_message_begins r then req_send_envelope w r else Some (w, r, true) in
    if negb ok then Some (w, r, XAgain)
    else
      let* (w, d, res) := dealer_sendpipe w (rq_dealer r) msg in
      let r := req_set_dealer r d in
      match res with
      | SendOk _ => Some (w, if negb (fr_more msg) then req_set_fsm r true true else r, XOk)
      | _ => Some (w, r, send_rc res)
      end.

(** [recv_reply_pipe]: frames of other pipes than the one the request went
    to are skipped. *)
Fixpoint req_recv_reply_pipe (fuel : nat) (w : W) (r : req) : option (W * req * option frame) :=
  match fuel with
  | O => None
  | S fuel' =>
      let* (w, d, m) := dealer_recvpipe w (rq_dealer r) in
      let r := req_set_dealer r d in
      match m with
      | None => Some (w, r, None)
      | Some (pipe, f) =>
          if bool_decide (rq_reply_pipe r = None) || bool_decide (rq_reply_pipe r = Some pipe) then Some (w, r, Some f)
          else req_recv_reply_pipe fuel' w r
      end
  end.

Definition req_fuel (w : W) (r : req) : nat := S (fq_frames w (de_fq (rq_dealer r))).

Definition req_recv_frame (w : W) (r : req) : option (W * req * option frame) := req_recv_reply_pipe (req_fuel w r) w r.

(** Skip the remaining frames of a message. *)
Fixpoint req_skip (fuel : nat) (w : W) (r : req) (f : frame) : option (W * req) :=
  if negb (fr_more f) then Some (w, r)
  else
    match fuel with
    | O => None
    | S fuel' =>
        let* (w, r, m) := req_recv_frame w r in
        let* f := m in   (** errno_assert (rc == 0) *)
        req_skip fuel' w r f
    end.

(** The loop over messages until one has the right envelope; whether it
    was found. *)
Fixpoint req_find (fuel : nat) (w : W) (r : req) : option (W * req * bool) :=
  if negb (rq_message_begins r) then Some (w, r, true)
  else
    match fuel with
    | O => None
    | S fuel' =>
        (** the request id: [Some true] when it is right *)
        let* (w, r, id) :=
          if rq_request_id_frames r then
            let* (w, r, m) := req_recv_frame w r in
            match m with
            | None => Some (w, r, None)
            | Some f =>
                if negb (fr_more f) || negb (Z.of_nat (length (fr_body f)) =? 4) ||
                   negb (bool_decide (fr_body f = id_bytes (rq_request_id r))) then
                  let* (w, r) := req_skip (req_fuel w r) w r f in Some (w, r, Some false)
                else Some (w, r, Some true)
            end
          else Some (w, r, Some true) in
        match id with
        | None => Some (w, r, false)
        | Some false => req_find fuel' w r
        | Some true =>
            let* (w, r, m) := req_recv_frame w r in
            match m with
            | None => Some (w, r, false)
            | Some f =>
                if negb (fr_more f) || negb (Z.of_nat (length (fr_body f)) =? 0) then
                  let* (w, r) := req_skip (req_fuel w r) w r f in req_find fuel' w r
                else Some (w, req_set_fsm r (rq_receiving_reply r) false, true)
            end
        end
    end.

Definition req_xrecv (w : W) (r : req) : option (W * req * xrc * option frame) :=
  if negb (rq_receiving_reply r) then Some (w, r, XEfsm, None)
  else
    let* (w, r, found) := req_find (req_fuel w r) w r in
    if negb found then Some (w, r, XAgain, None)
    else
      let* (w, r, m) := req_recv_frame w r in
      match m with
      | None => Some (w, r, XAgain, None)
      | Some f => Some (w, if negb (fr_more f) then req_set_fsm r false true else r, XOk, Some f)
      end.

Definition req_xhas_in (w : W) (r : req) : option (W * req * bool) :=
  if negb (rq_receiving_reply r) then Some (w, r, false)
  else let* (w, d, b) := dealer_xhas_in w (rq_dealer r) in Some (w, req_set_dealer r d, b).

Definition req_xhas_out (w : W) (r : req) : option (W * req * bool) :=
  if rq_receiving_reply r && rq_strict r then Some (w, r, false)
  else let* (w, d, b) := dealer_xhas_out w (rq_dealer r) in Some (w, req_set_dealer r d, b).

End req.

(** ** The session of a REQ socket *)

Inductive req_state := RsRequestId | RsBottom | RsBody.

#[export] Instance req_state_eq_dec : EqDecision req_state.
Proof. solve_decision. Defined.

(** [req_session_t::push_msg]: the new state when the message is passed on
    to the session, or EFAULT; commands are ignored. *)
Inductive push_result := PushIgnored | PushForward (st : req_state) | PushFault.

Definition req_push_msg (st : req_state) (m : frame) : push_result :=
  let size := Z.of_nat (length (fr_body m)) in
  if fr_is_command m then PushIgnored
  else
    match st with
    | RsBottom =>
        if fr_flags m =? flag_more then
          if size =? 4 then PushForward RsRequestId
          else if size =? 0 then PushForward RsBody
          else PushFault
        else PushFault
    | RsRequestId => if (fr_flags m =? flag_more) && (size =? 0) then PushForward RsBody else PushFault
    | RsBody =>
        if fr_flags m =? flag_more then PushForward RsBody
        else if fr_flags m =? 0 then PushForward RsBottom
        else PushFault
    end.
