(* ===== verification/ReqProps.v ===== *)
(** * What a REQ socket does (src/src/req.cpp)

    Sending: a request leaves with its envelope on one pipe, or not at
    all.  Receiving: the replies are those with the right envelope from
    the pipe of the request; everything else is skipped. *)

From S2P Require Import Prelude Array Frame Fq Lb Duplex Dealer Req.

Section recv.
Context {W : Type} {IP : InPipes W} {OP : OutPipes W} {DX : Duplex W} {DL : DuplexLaws W}.
Implicit Types (w : W) (r : req) (q : fq) (p : Z) (f : frame) (msg : list frame).

(** ** Receiving frames *)

Definition with_fq r q : req :=
  req_set_dealer r (Dealer q (de_lb (rq_dealer r)) (de_probe_router (rq_dealer r))).

Lemma with_fq_id r : with_fq r (de_fq (rq_dealer r)) = r.
Proof. destruct r as [[] ? ? ? ? ? ?]. done. Qed.

Definition right_pipe r p : bool := bool_decide (rq_reply_pipe r = None) || bool_decide (rq_reply_pipe r = Some p).

Lemma recv_reply_unfold fuel w r q :
  req_recv_reply_pipe (S fuel) w (with_fq r q) =
    (let* (w, q, m) := fq_recvpipe w q in
     match m with
     | None => Some (w, with_fq r q, None)
     | Some (p, f) => if right_pipe r p then Some (w, with_fq r q, Some f) else req_recv_reply_pipe fuel w (with_fq r q)
     end).
Proof.
  cbn [req_recv_reply_pipe]. unfold dealer_recvpipe. cbn [rq_dealer with_fq req_set_dealer de_fq de_lb de_probe_router].
  destruct (fq_recvpipe w q) as [[[w' q'] [[p f]|]]|]; done.
Qed.

(** The rest of a message of a wrong pipe is skipped. *)
Lemma recv_reply_wrong r p msg : right_pipe r p = false -> forall w q, fq_mid w q p msg ->
  exists w1 q1, (forall fuel, req_recv_reply_pipe (length msg + fuel) w (with_fq r q) = req_recv_reply_pipe fuel w1 (with_fq r q1)) /\
    fq_between w1 q1 /\ ip_queue w p = msg ++ ip_queue w1 p /\ (forall p', p' <> p -> ip_queue w1 p' = ip_queue w p') /\
    fq_frames w q = (length msg + fq_frames w1 q1)%nat /\ reader_only w w1 /\ (forall p', fq_is_active q p' <-> fq_is_active q1 p').
Proof.
  intros Hp. induction msg as [|f msg IH]; intros w q Hmid; [destruct Hmid as (_&_&_&_&?&_); done|].
  destruct (fq_recv_mid w q p f msg Hmid) as (w1 & q1 & Hrun & _ & Hat & Hq & _ & Ho & Hfr & Hact).
  pose proof (fq_recvpipe_reader _ _ _ _ _ Hrun) as Hro.
  assert (forall fuel, req_recv_reply_pipe (length (f :: msg) + fuel) w (with_fq r q) = req_recv_reply_pipe (length msg + fuel) w1 (with_fq r q1)) as Hstep.
  { intros fuel. cbn [length Nat.add]. rewrite recv_reply_unfold, Hrun. cbn [mbind option_bind]. by rewrite Hp. }
  destruct msg as [|g msg]; cbn [fq_at] in Hat.
  - exists w1, q1. split_and!; try done.
  - destruct (IH w1 q1 Hat) as (w2 & q2 & Hr2 & Hb2 & Hq2 & Ho2 & Hf2 & Hro2 & Hact2). exists w2, q2. split_and!; try done.
    + intros fuel. by rewrite Hstep, Hr2.
    + rewrite Hq. cbn [app]. f_equal. apply Hq2.
    + intros p' Hne. by rewrite Ho2, Ho.
    + rewrite Hfr, Hf2. simpl. lia.
    + by apply (reader_only_trans _ w1).
    + intros p'. by rewrite Hact, Hact2.
Qed.

Definition recv_frame w r q : option (W * req * option frame) := req_recv_frame w (with_fq r q).

(** The first frame of a message of the right pipe is received. *)
Lemma recv_frame_start r w q : fq_between w q ->
  (exists w' q', recv_frame w r q = Some (w', with_fq r q', None) /\ (forall p, ip_queue w' p = ip_queue w p) /\
     (forall p, fq_is_active q p -> ip_queue w p = []) /\ fq_between w' q' /\ reader_only w w') \/
  (exists p f msg rest w1 q1, fq_is_active q p /\ is_message (f :: msg) = true /\ ip_queue w p = f :: msg ++ rest /\
     fq_at w1 q1 p msg /\ ip_queue w1 p = msg ++ rest /\ (forall p', p' <> p -> ip_queue w1 p' = ip_queue w p') /\
     fq_frames w q = S (fq_frames w1 q1) /\ reader_only w w1 /\ fq_shrinks w q q1 /\
     if right_pipe r p then recv_frame w r q = Some (w1, with_fq r q1, Some f)
     else exists w2 q2, recv_frame w r q = recv_frame w2 r q2 /\ fq_between w2 q2 /\ ip_queue w2 p = rest /\
       (forall p', p' <> p -> ip_queue w2 p' = ip_queue w p') /\ (fq_frames w2 q2 < fq_frames w q)%nat /\ reader_only w w2 /\ fq_shrinks w q q2).
Proof.
  intros Hb. destruct (fq_recv_start w q Hb) as (w1 & q1 & m & Hrun & _ & Hres).
  pose proof (fq_recvpipe_reader _ _ _ _ _ Hrun) as Hro. unfold recv_frame, req_recv_frame, req_fuel.
  change (de_fq (rq_dealer (with_fq r q))) with q. destruct m as [[p f]|].
  - right. destruct Hres as (Hact & msg & rest & Hmsg & _ & Hq & Hq1 & Ho & Hat & Hfr & Hkeep).
    exists p, f, msg, rest, w1, q1. split_and!; try done. destruct (right_pipe r p) eqn:Hp.
    { rewrite recv_reply_unfold, Hrun. cbn [mbind option_bind]. by rewrite Hp. }
    assert (forall fuel, req_recv_reply_pipe (S fuel) w (with_fq r q) = req_recv_reply_pipe fuel w1 (with_fq r q1)) as Hstep.
    { intros fuel. rewrite recv_reply_unfold, Hrun. cbn [mbind option_bind]. by rewrite Hp. }
    destruct msg as [|g msg]; cbn [fq_at] in Hat.
    + exists w1, q1. change (de_fq (rq_dealer (with_fq r q1))) with q1. split_and!; try done; [by rewrite Hstep, Hfr|lia].
    + destruct (recv_reply_wrong r p _ Hp w1 q1 Hat) as (w2 & q2 & Hr2 & Hb2 & Hq2 & Ho2 & Hf2 & Hro2 & Hact2).
      exists w2, q2. change (de_fq (rq_dealer (with_fq r q2))) with q2. split_and!; try done.
      * rewrite Hstep, Hfr, Hf2. rewrite <- Hr2. f_equal. lia.
      * rewrite Hq1 in Hq2. by apply app_inv_head in Hq2.
      * intros p' Hne. by rewrite Ho2, Ho.
      * rewrite Hfr, Hf2. simpl. lia.
      * by apply (reader_only_trans _ w1).
      * destruct Hkeep as [K1 K2]. split; intros p'; rewrite <- Hact2; auto.
  - left. destruct Hres as (Hnil & Hsame & Hb' & _). exists w1, q1. split_and!; try done.
    rewrite recv_reply_unfold, Hrun. done.
Qed.

(** The next frame of the message being received. *)
Lemma recv_frame_mid r w q p f msg : right_pipe r p = true -> fq_mid w q p (f :: msg) ->
  exists w1 q1, recv_frame w r q = Some (w1, with_fq r q1, Some f) /\ fq_at w1 q1 p msg /\ ip_queue w p = f :: ip_queue w1 p /\
    (forall p', p' <> p -> ip_queue w1 p' = ip_queue w p') /\ fq_frames w q = S (fq_frames w1 q1) /\ reader_only w w1 /\
    (forall p', fq_is_active q p' <-> fq_is_active q1 p').
Proof.
  intros Hp Hmid. destruct (fq_recv_mid w q p f msg Hmid) as (w1 & q1 & Hrun & _ & Hat & Hq & _ & Ho & Hfr & Hact).
  exists w1, q1. split_and!; try done; [|by apply (fq_recvpipe_reader _ _ _ _ _ Hrun)].
  unfold recv_frame, req_recv_frame, req_fuel. rewrite recv_reply_unfold, Hrun. cbn [mbind option_bind]. by rewrite Hp.
Qed.

(** Skipping the rest of a message. *)
Lemma skip_spec r p msg : right_pipe r p = true -> forall fuel w q f, is_message (f :: msg) = true -> fq_at w q p msg ->
  (length msg <= fuel)%nat -> exists w1 q1, req_skip fuel w (with_fq r q) f = Some (w1, with_fq r q1) /\ fq_between w1 q1 /\
    ip_queue w p = msg ++ ip_queue w1 p /\ (forall p', p' <> p -> ip_queue w1 p' = ip_queue w p') /\
    fq_frames w q = (length msg + fq_frames w1 q1)%nat /\ reader_only w w1 /\ (forall p', fq_is_active q p' <-> fq_is_active q1 p').
Proof.
  intros Hp. induction msg as [|g msg IH]; intros fuel w q f Hmsg Hat Hf.
  - cbn [is_message] in Hmsg. exists w, q. destruct fuel; cbn [req_skip]; rewrite Hmsg; done.
  - cbn [is_message] in Hmsg. apply andb_true_iff in Hmsg as [Hm Hmsg]. destruct fuel as [|fuel]; [simpl in Hf; lia|].
    cbn [req_skip]. rewrite Hm. cbn [negb]. cbn [fq_at] in Hat.
    destruct (recv_frame_mid r w q p g msg Hp Hat) as (w1 & q1 & Hrun & Hat1 & Hq1 & Ho1 & Hf1 & Hro1 & Hact1).
    unfold recv_frame in Hrun. rewrite Hrun. cbn [mbind option_bind].
    destruct (IH fuel w1 q1 g Hmsg Hat1) as (w2 & q2 & -> & Hb2 & Hq2 & Ho2 & Hf2 & Hro2 & Hact2); [simpl in Hf; lia|].
    exists w2, q2. split_and!; try done.
    + rewrite Hq1. cbn [app]. by rewrite Hq2.
    + intros p' Hne. by rewrite Ho2, Ho1.
    + rewrite Hf1, Hf2. simpl. lia.
    + by apply (reader_only_trans _ w1).
    + intros p'. by rewrite Hact1, Hact2.
Qed.

(** ** Finding the reply *)

(** What is after the envelope of a message, when it is right. *)
Definition req_verdict r p msg : option (list frame) :=
  if negb (right_pipe r p) then None
  else
    let* rest :=
      if rq_request_id_frames r then
        match msg with
        | f :: rest => if fr_more f && bool_decide (fr_body f = id_bytes (rq_request_id r)) then Some rest else None
        | [] => None
        end
      else Some msg in
    match rest with
    | f :: body => if fr_more f && bool_decide (fr_body f = []) then Some body else None
    | [] => None
    end.

(** Every pipe lost some whole messages that are not replies. *)
Definition consumed r w w' : Prop := forall p, exists sk, ip_queue w p = concat sk ++ ip_queue w' p /\
  Forall (fun m => is_message m = true /\ req_verdict r p m = None) sk.

Lemma consumed_refl r w w' : (forall p, ip_queue w' p = ip_queue w p) -> consumed r w w'.
Proof. intros H p. exists []. by rewrite H. Qed.

Lemma consumed_trans r w1 w2 w3 : consumed r w1 w2 -> consumed r w2 w3 -> consumed r w1 w3.
Proof.
  intros H1 H2 p. destruct (H1 p) as (s1 & E1 & F1), (H2 p) as (s2 & E2 & F2). exists (s1 ++ s2).
  split; [by rewrite E1, E2, concat_app, app_assoc|by apply Forall_app].
Qed.

Lemma consumed_one r w w' p m : is_message m = true -> req_verdict r p m = None -> ip_queue w p = m ++ ip_queue w' p ->
  (forall p', p' <> p -> ip_queue w' p' = ip_queue w p') -> consumed r w w'.
Proof.
  intros Hm Hv Hq Ho p'. destruct (decide (p' = p)) as [->|Hne]; [|exists []; by rewrite Ho].
  exists [m]. simpl. rewrite app_nil_r. split; [done|]. by repeat constructor.
Qed.

Lemma consumed_nil r w w' p : consumed r w w' -> ip_queue w p = [] -> ip_queue w' p = [].
Proof. intros H E. destruct (H p) as (sk & Hq & _). rewrite E in Hq. symmetry in Hq. by apply app_eq_nil in Hq as [_ ?]. Qed.

(** The outcome of the search, from the state [w], [q]. *)
Definition find_none r w q (res : option (W * req * bool)) : Prop := exists w' q',
  res = Some (w', with_fq r q', false) /\ fq_between w' q' /\ consumed r w w' /\
  (forall p, fq_is_active q p -> ip_queue w' p = []) /\ reader_only w w'.

Definition find_some r w q (res : option (W * req * bool)) : Prop := exists w' q' w1 p msg body rest,
  res = Some (w', req_set_fsm (with_fq r q') (rq_receiving_reply r) false, true) /\ consumed r w w1 /\ fq_is_active q p /\
  is_message msg = true /\ req_verdict r p msg = Some body /\ ip_queue w1 p = msg ++ rest /\ ip_queue w' p = body ++ rest /\
  (forall p', p' <> p -> ip_queue w' p' = ip_queue w1 p') /\ fq_mid w' q' p body /\ reader_only w w'.

(** After some messages were skipped the outcome is that of the rest. *)
Lemma find_later r w q w2 q2 res : consumed r w w2 -> reader_only w w2 -> fq_shrinks w q q2 ->
  find_none r w2 q2 res \/ find_some r w2 q2 res -> find_none r w q res \/ find_some r w q res.
Proof.
  intros Hc Hro [Hsub Hkeep] [(w' & q' & -> & Hb & Hc' & Hnil & Hro')|(w' & q' & w1 & p & msg & body & rest & -> & Hc' & Hact & ?)].
  - left. exists w', q'. split_and!; [done|done|by apply (consumed_trans _ _ w2)| |by apply (reader_only_trans _ w2)].
    intros p Hp. destruct (decide (ip_queue w2 p = [])) as [E|E]; [by apply (consumed_nil r w2)|]. apply Hnil, Hkeep; [done|]. intros E2. by apply E, (consumed_nil r w).
  - right. destruct_and!. exists w', q', w1, p, msg, body, rest.
    split_and!; try done; [by apply (consumed_trans _ _ w2)|auto|by apply (reader_only_trans _ w2)].
Qed.

(** What the search does with the frame where the empty one is expected. *)
Definition find_bottom fuel w r f : option (W * req * bool) :=
  if negb (fr_more f) || negb (Z.of_nat (length (fr_body f)) =? 0) then
    let* (w, r) := req_skip (req_fuel w r) w r f in req_find fuel w r
  else Some (w, req_set_fsm r (rq_receiving_reply r) false, true).

Lemma bottom_test f : negb (fr_more f) || negb (Z.of_nat (length (fr_body f)) =? 0) = negb (fr_more f && bool_decide (fr_body f = [])).
Proof. destruct (fr_more f), (fr_body f); done. Qed.

Lemma id_test f id : negb (fr_more f) || negb (Z.of_nat (length (fr_body f)) =? 4) || negb (bool_decide (fr_body f = id_bytes id)) =
  negb (fr_more f && bool_decide (fr_body f = id_bytes id)).
Proof. destruct (fr_more f); [|done]. destruct (bool_decide_reflect (fr_body f = id_bytes id)) as [->|]; [done|]. by rewrite orb_true_r. Qed.

Lemma req_find_unfold fuel w r q : rq_message_begins r = true ->
  req_find (S fuel) w (with_fq r q) =
    (if rq_request_id_frames r then
       let* (w, r, m) := recv_frame w r q in
       match m with
       | None => Some (w, r, false)
       | Some f =>
           if negb (fr_more f && bool_decide (fr_body f = id_bytes (rq_request_id r))) then
             let* (w, r) := req_skip (req_fuel w r) w r f in req_find fuel w r
           else
             let* (w, r, m) := req_recv_frame w r in
             match m with None => Some (w, r, false) | Some f => find_bottom fuel w r f end
       end
     else
       let* (w, r, m) := recv_frame w r q in
       match m with None => Some (w, r, false) | Some f => find_bottom fuel w r f end).
Proof.
  intros Hb. cbn [req_find]. change (rq_message_begins (with_fq r q)) with (rq_message_begins r). rewrite Hb. cbn [negb].
  change (rq_request_id_frames (with_fq r q)) with (rq_request_id_frames r). unfold recv_frame.
  destruct (rq_request_id_frames r); [|done]. destruct (req_recv_frame w (with_fq r q)) as [[[w1 r1] [f|]]|]; cbn [mbind option_bind]; try done.
  rewrite id_test. destruct (negb _); cbn [mbind option_bind]; [|done]. by destruct (req_skip (req_fuel w1 r1) w1 r1 f) as [[w2 r2]|].
Qed.

(** A message of the right pipe without the right envelope. *)
Lemma find_rejected r w q w1 q1 p pre f msg rest (fuel : nat) :
  (forall w' q', (fq_frames w' q' < fq_frames w q)%nat -> fq_between w' q' ->
     find_none r w' q' (req_find fuel w' (with_fq r q')) \/ find_some r w' q' (req_find fuel w' (with_fq r q'))) ->
  right_pipe r p = true -> is_message (pre ++ f :: msg) = true -> req_verdict r p (pre ++ f :: msg) = None ->
  is_message (f :: msg) = true -> ip_queue w p = (pre ++ f :: msg) ++ rest -> ip_queue w1 p = msg ++ rest ->
  (forall p', p' <> p -> ip_queue w1 p' = ip_queue w p') -> fq_at w1 q1 p msg -> (fq_frames w1 q1 < fq_frames w q)%nat ->
  reader_only w w1 -> fq_shrinks w q q1 ->
  let res := (let* (w, r) := req_skip (req_fuel w1 (with_fq r q1)) w1 (with_fq r q1) f in req_find fuel w r) in
  find_none r w q res \/ find_some r w q res.
Proof.
  intros IH Hp Hm Hv Hmsg Hq Hq1 Ho Hat Hlt Hro [Hs1 Hs2].
  destruct (skip_spec r p msg Hp (req_fuel w1 (with_fq r q1)) w1 q1 f Hmsg Hat) as (w2 & q2 & -> & Hb2 & Hq2 & Ho2 & Hf2 & Hro2 & Hact2).
  { unfold req_fuel. change (de_fq (rq_dealer (with_fq r q1))) with q1. pose proof (fq_at_length _ _ _ _ Hat). lia. }
  cbn [mbind option_bind]. cbn zeta. apply (find_later r w q w2 q2).
  - apply (consumed_one r w w2 p (pre ++ f :: msg)); try done; [|intros p' Hne; by rewrite Ho2, Ho].
    rewrite Hq1 in Hq2. apply app_inv_head in Hq2. by rewrite Hq, Hq2.
  - by apply (reader_only_trans _ w1).
  - split; intros p'; rewrite <- Hact2; auto.
  - apply IH; [lia|done].
Qed.

(** The bottom frame of a message of the right pipe. *)
Lemma find_bottom_spec r w q w1 q1 p pre f msg rest (fuel : nat) :
  (forall w' q', (fq_frames w' q' < fq_frames w q)%nat -> fq_between w' q' ->
     find_none r w' q' (req_find fuel w' (with_fq r q')) \/ find_some r w' q' (req_find fuel w' (with_fq r q'))) ->
  right_pipe r p = true -> fq_is_active q p -> is_message (pre ++ f :: msg) = true ->
  (fr_more f && bool_decide (fr_body f = []) = true -> req_verdict r p (pre ++ f :: msg) = Some msg) ->
  (fr_more f && bool_decide (fr_body f = []) = false -> req_verdict r p (pre ++ f :: msg) = None) ->
  is_message (f :: msg) = true -> ip_queue w p = (pre ++ f :: msg) ++ rest -> ip_queue w1 p = msg ++ rest ->
  (forall p', p' <> p -> ip_queue w1 p' = ip_queue w p') -> fq_at w1 q1 p msg -> (fq_frames w1 q1 < fq_frames w q)%nat ->
  reader_only w w1 -> fq_shrinks w q q1 ->
  find_none r w q (find_bottom fuel w1 (with_fq r q1) f) \/ find_some r w q (find_bottom fuel w1 (with_fq r q1) f).
Proof.
  intros IH Hp Hact Hm Hv1 Hv2 Hmsg Hq Hq1 Ho Hat Hlt Hro Hs. unfold find_bottom. rewrite bottom_test.
  destruct (fr_more f && bool_decide (fr_body f = [])) eqn:E; cbn [negb].
  - right. exists w1, q1, w, p, (pre ++ f :: msg), msg, rest. split_and!; try done; auto; [by apply consumed_refl|].
    destruct msg; [|done]. cbn [is_message] in Hmsg. apply andb_true_iff in E as [E _]. by rewrite E in Hmsg.
  - by apply (find_rejected r w q w1 q1 p pre f msg rest fuel); auto.
Qed.

Lemma is_message_tail f g msg : is_message (f :: g :: msg) = true -> is_message (g :: msg) = true.
Proof. cbn [is_message]. by intros [_ ?]%andb_true_iff. Qed.

(** The search ends, with the reply or with all messages skipped. *)
Lemma find_spec r (n : nat) : rq_message_begins r = true -> forall w q fuel, (fq_frames w q < n)%nat -> (fq_frames w q < fuel)%nat ->
  fq_between w q -> find_none r w q (req_find fuel w (with_fq r q)) \/ find_some r w q (req_find fuel w (with_fq r q)).
Proof.
  intros Hb. induction n as [|n IHn]; intros w q fuel Hn Hf Hbt; [lia|]. destruct fuel as [|fuel]; [lia|].
  rewrite req_find_unfold by done.
  destruct (recv_frame_start r w q Hbt) as [(w' & q' & Hrun & Hsame & Hnil & Hb' & Hro)|(p & f & msg & rest & w1 & q1 & Hact & Hmsg & Hq & Hat & Hq1 & Ho & Hfr & Hro & Hs & Hcase)].
  { left. exists w', q'. split_and!; try done; [by rewrite Hrun; destruct (rq_request_id_frames r)|by apply consumed_refl|].
    intros p Hp. rewrite Hsame. auto. }
  destruct (right_pipe r p) eqn:Hp.
  2:{ destruct Hcase as (w2 & q2 & Heq & Hb2 & Hq2 & Ho2 & Hf2 & Hro2 & Hs2). rewrite Heq, <- req_find_unfold by done.
      apply (find_later r w q w2 q2); try done; [|apply IHn; [lia|lia|done]].
      apply (consumed_one r w w2 p (f :: msg)); try done; [unfold req_verdict; by rewrite Hp|by rewrite Hq2]. }
  assert (forall w' q', (fq_frames w' q' < fq_frames w q)%nat -> fq_between w' q' ->
     find_none r w' q' (req_find fuel w' (with_fq r q')) \/ find_some r w' q' (req_find fuel w' (with_fq r q'))) as IH
    by (intros w' q' Hlt Hb'; apply IHn; [lia|lia|done]).
  rewrite Hcase. cbn [mbind option_bind]. destruct (rq_request_id_frames r) eqn:Eid.
  - change (rq_request_id (with_fq r q1)) with (rq_request_id r).
    destruct (fr_more f && bool_decide (fr_body f = id_bytes (rq_request_id r))) eqn:Ei; cbn [negb].
    + destruct msg as [|g msg]; [cbn [is_message] in Hmsg; apply andb_true_iff in Ei as [Ei _]; by rewrite Ei in Hmsg|].
      pose proof (is_message_tail _ _ _ Hmsg) as Hmsg'. cbn [fq_at] in Hat.
      destruct (recv_frame_mid r w1 q1 p g msg Hp Hat) as (w2 & q2 & Hrun2 & Hat2 & Hq2 & Ho2 & Hf2 & Hro2 & Hact2).
      unfold recv_frame in Hrun2. rewrite Hrun2. cbn [mbind option_bind].
      apply (find_bottom_spec r w q w2 q2 p [f] g msg rest fuel); try done.
      * intros E. unfold req_verdict. rewrite Hp, Eid. cbn [negb app mbind option_bind]. rewrite Ei. cbn [mbind option_bind]. by rewrite E.
      * intros E. unfold req_verdict. rewrite Hp, Eid. cbn [negb app mbind option_bind]. rewrite Ei. cbn [mbind option_bind]. by rewrite E.
      * rewrite Hq1 in Hq2. by injection Hq2 as <-.
      * intros p' Hne. by rewrite Ho2, Ho.
      * lia.
      * by apply (reader_only_trans _ w1).
      * destruct Hs as [K1 K2]. split; intros p'; rewrite <- Hact2; auto.
    + apply (find_rejected r w q w1 q1 p [] f msg rest fuel); try done; [|lia].
      unfold req_verdict. rewrite Hp, Eid. cbn [negb app mbind option_bind]. by rewrite Ei.
  - apply (find_bottom_spec r w q w1 q1 p [] f msg rest fuel); try done; [| |lia].
    + intros E. unfold req_verdict. rewrite Hp, Eid. cbn [negb app mbind option_bind]. by rewrite E.
    + intros E. unfold req_verdict. rewrite Hp, Eid. cbn [negb app mbind option_bind]. by rewrite E.
Qed.

(** ** Whole replies *)

Fixpoint req_recv_n (n : nat) w r : option (W * req * list (xrc * option frame)) :=
  match n with
  | O => Some (w, r, [])
  | S n' =>
      let* (w, r, rc, m) := req_xrecv w r in
      let* (w, r, rs) := req_recv_n n' w r in
      Some (w, r, (rc, m) :: rs)
  end.

(** The state machine of the socket, apart from its pipes. *)
Definition req_fsm r : bool * bool := (rq_receiving_reply r, rq_message_begins r).

Definition in_body r : req := req_set_fsm r true false.

(** One frame of a reply whose envelope was removed. *)
Lemma xrecv_body r w q p f body : right_pipe r p = true -> fq_mid w q p (f :: body) -> exists w1 q1,
  req_xrecv w (in_body (with_fq r q)) = Some (w1, if fr_more f then in_body (with_fq r q1) else req_set_fsm (with_fq r q1) false true, XOk, Some f) /\
  fq_at w1 q1 p body /\ ip_queue w p = f :: ip_queue w1 p /\ (forall p', p' <> p -> ip_queue w1 p' = ip_queue w p') /\ reader_only w w1.
Proof.
  intros Hp Hmid. set (r1 := in_body r).
  destruct (recv_frame_mid r1 w q p f body Hp Hmid) as (w1 & q1 & Hrun & Hat & Hq & Ho & _ & Hro & _).
  exists w1, q1. split_and!; try done. unfold req_xrecv. cbn [rq_receiving_reply in_body req_set_fsm negb].
  assert (forall fuel, req_find fuel w (in_body (with_fq r q)) = Some (w, in_body (with_fq r q), true)) as Hfind by (by intros []).
  rewrite Hfind. cbn [mbind option_bind negb]. change (in_body (with_fq r q)) with (with_fq r1 q).
  unfold recv_frame in Hrun. rewrite Hrun. cbn [mbind option_bind]. by destruct (fr_more f).
Qed.

Lemma recv_body r p body : right_pipe r p = true -> forall w q rest, fq_mid w q p body -> ip_queue w p = body ++ rest -> exists w' q',
  req_recv_n (length body) w (in_body (with_fq r q)) = Some (w', req_set_fsm (with_fq r q') false true, (fun f => (XOk, Some f)) <$> body) /\
  fq_between w' q' /\ ip_queue w' p = rest /\ (forall p', p' <> p -> ip_queue w' p' = ip_queue w p') /\ reader_only w w'.
Proof.
  intros Hp. induction body as [|f body IH]; intros w q rest Hmid Hq; [destruct Hmid as (_&_&_&_&?&_); done|].
  destruct (xrecv_body r w q p f body Hp Hmid) as (w1 & q1 & Hrun & Hat & Hq1 & Ho1 & Hro1).
  cbn [length req_recv_n]. rewrite Hrun. cbn [mbind option_bind]. destruct Hmid as (_&_&_&_&Hmsg&_).
  rewrite Hq in Hq1. injection Hq1 as Hq1. destruct body as [|g body]; cbn [fq_at is_message] in *.
  - apply negb_true_iff in Hmsg. rewrite Hmsg. cbn [length req_recv_n mbind option_bind]. by exists w1, q1.
  - apply andb_true_iff in Hmsg as [Hf Hmsg]. rewrite Hf.
    destruct (IH w1 q1 rest Hat) as (w2 & q2 & -> & Hb2 & Hq2 & Ho2 & Hro2); [done|]. cbn [mbind option_bind].
    exists w2, q2. split_and!; try done; [intros p' Hne; by rewrite Ho2, Ho1|by apply (reader_only_trans _ w1)].
Qed.

Lemma xrecv_found w r w1 r1 : rq_receiving_reply r = true -> req_find (req_fuel w r) w r = Some (w1, r1, true) ->
  rq_receiving_reply r1 = true -> rq_message_begins r1 = false -> req_xrecv w r = req_xrecv w1 r1.
Proof.
  intros Hr Hf Hr1 Hb1. unfold req_xrecv at 1. rewrite Hr. cbn [negb]. rewrite Hf. cbn [mbind option_bind negb].
  unfold req_xrecv. rewrite Hr1. cbn [negb]. unfold req_fuel. cbn [req_find]. rewrite Hb1. done.
Qed.

(** Waiting for a reply: either there is none, and everything the active
    pipes had was skipped, or the frames of one are received. *)
Definition reply_none w r : Prop := exists w' r', req_xrecv w r = Some (w', r', XAgain, None) /\
  consumed r w w' /\ (forall p, fq_is_active (de_fq (rq_dealer r)) p -> ip_queue w' p = []) /\
  req_fsm r' = (true, true) /\ fq_between w' (de_fq (rq_dealer r')) /\ out_same w w'.

Definition reply_some w r : Prop := exists w1 w' r' p msg body rest, consumed r w w1 /\ is_message msg = true /\
  ip_queue w1 p = msg ++ rest /\ req_verdict r p msg = Some body /\
  req_recv_n (length body) w r = Some (w', r', (fun f => (XOk, Some f)) <$> body) /\ is_message body = true /\
  ip_queue w' p = rest /\ (forall p', p' <> p -> ip_queue w' p' = ip_queue w1 p') /\
  req_fsm r' = (false, true) /\ fq_between w' (de_fq (rq_dealer r')) /\ out_same w w' /\ de_lb (rq_dealer r') = de_lb (rq_dealer r).

Lemma reply_spec w r : req_fsm r = (true, true) -> fq_between w (de_fq (rq_dealer r)) -> reply_none w r \/ reply_some w r.
Proof.
  intros Hfsm Hbt. unfold req_fsm in Hfsm. injection Hfsm as Hr Hb. set (q := de_fq (rq_dealer r)) in *.
  destruct (find_spec r (S (fq_frames w q)) Hb w q (req_fuel w r)) as [Hn|Hs]; try done; [lia|unfold req_fuel; fold q; lia| |].
  - left. destruct Hn as (w' & q' & Hf & Hb' & Hc & Hnil & Hro). unfold q in Hf. rewrite with_fq_id in Hf.
    exists w', (with_fq r q'). split_and!; try done; [|by unfold req_fsm; cbn; rewrite Hr, Hb|apply Hro].
    unfold req_xrecv. by rewrite Hr, Hf.
  - right. destruct Hs as (w' & q' & w1 & p & msg & body & rest & Hf & Hc & Hact & Hm & Hv & Hq1 & Hq' & Ho & Hmid & Hro).
    unfold q in Hf. rewrite with_fq_id, Hr in Hf. assert (right_pipe r p = true) as Hp by (unfold req_verdict in Hv; by destruct (right_pipe r p)).
    destruct (recv_body r p body Hp w' q' rest Hmid Hq') as (w2 & q2 & Hrun & Hb2 & Hq2 & Ho2 & Hro2).
    exists w1, w2, (req_set_fsm (with_fq r q2) false true), p, msg, body, rest. split_and!; try done.
    + destruct body as [|f body]; [destruct Hmid as (_&_&_&_&?&_); done|]. cbn [length req_recv_n] in Hrun |- *.
      rewrite (xrecv_found w r w' (req_set_fsm (with_fq r q') true false)) by done. exact Hrun.
    + destruct Hmid as (_&_&_&_&?&_). done.
    + intros p' Hne. by rewrite Ho2, Ho.
    + apply (out_same_trans _ w'); [apply Hro|apply Hro2].
Qed.

End recv.

Section send.
Context {W : Type} {IP : InPipes W} {OP : OutPipes W} {DX : Duplex W} {DL : DuplexLaws W}.
Implicit Types (w : W) (r : req) (q : fq) (l : lb) (p : Z) (f : frame) (msg : list frame).

(** ** Sending frames *)

(** The load balancer between two messages, and after some frames of one. *)
Definition lb_idle w l : Prop := lb_inv l /\ lb_more l = false /\ lb_dropping l = false /\ forall p, op_pending w p = [].
Definition lb_mid w l p msg : Prop := lb_inv l /\ lb_more l = true /\ lb_dropping l = false /\ lb_active l <> 0%nat /\
  a_items (lb_pipes l) !! lb_current l = Some p /\ op_room w p = true /\ op_pending w p = msg /\
  forall p', p' <> p -> op_pending w p' = [].

Definition sent_same w w' : Prop := forall p, op_sent w' p = op_sent w p.

Lemma lb_start w l f : lb_idle w l -> (exists p, lb_is_active l p /\ op_room w p = true) -> fr_more f = true ->
  exists w' l' p, lb_sendpipe w l f = Some (w', l', SendOk (Some p)) /\ lb_mid w' l' p [f] /\ sent_same w w' /\ in_same w w'.
Proof.
  intros (Hl & Hm & Hd & Hp) (p0 & Hp0 & Hr0) Hf. destruct (lb_sendpipe_ok w l f Hl Hd) as (w' & l' & res & Hrun & Hl' & Hok).
  pose proof (lb_sendpipe_in _ _ _ _ _ _ Hrun) as Hin. destruct res as [[p|]| |]; cbn [lb_send_ok] in Hok; [|done| |].
  - destruct Hok as (_ & Hr & _ & Hm' & Hd' & Ho & Hres). rewrite Hf in *. destruct Hres as (Hpn & Hs & Hz & Hc).
    exists w', l', p. split_and!; try done.
    + split_and!; try done; [by rewrite (lb_sendpipe_room _ _ _ _ _ _ Hrun Hf)|by rewrite Hpn, Hp|].
      intros p' Hne. destruct (Ho p' Hne) as [-> _]. apply Hp.
    + intros p'. destruct (decide (p' = p)) as [->|Hne]; [done|]. by apply Ho.
  - rewrite Hm in Hok. destruct Hok as (_ & Hno & _). rewrite (Hno p0 Hp0) in Hr0. done.
  - destruct Hok as (p & ? & _). congruence.
Qed.

Lemma lb_continue w l p msg f : lb_mid w l p msg -> exists w' l',
  lb_sendpipe w l f = Some (w', l', SendOk (Some p)) /\ in_same w w' /\
  if fr_more f then lb_mid w' l' p (msg ++ [f]) /\ sent_same w w'
  else lb_idle w' l' /\ op_sent w' p = op_sent w p ++ msg ++ [f] /\ forall p', p' <> p -> op_sent w' p' = op_sent w p'.
Proof.
  intros (Hl & Hm & Hd & Hz & Hc & Hr & Hp & Hoth). destruct (lb_sendpipe_ok w l f Hl Hd) as (w' & l' & res & Hrun & Hl' & Hok).
  pose proof (lb_sendpipe_in _ _ _ _ _ _ Hrun) as Hin. destruct res as [[p1|]| |]; cbn [lb_send_ok] in Hok; [|done| |].
  - destruct Hok as (_ & _ & Hcc & Hm' & Hd' & Ho & Hres). specialize (Hcc Hm). assert (p1 = p) as -> by congruence.
    exists w', l'. split; [done|]. split; [done|]. destruct (fr_more f) eqn:Hf.
    + destruct Hres as (Hpn & Hs & Hz' & Hc'). split.
      * split_and!; try done; [by rewrite (lb_sendpipe_room _ _ _ _ _ _ Hrun Hf)|by rewrite Hpn, Hp|].
        intros p' Hne. destruct (Ho p' Hne) as [-> _]. auto.
      * intros p'. destruct (decide (p' = p)) as [->|Hne]; [done|]. by apply Ho.
    + destruct Hres as (Hpn & Hs). split_and!; [split_and!; try done|by rewrite Hs, Hp|intros p' Hne; by apply Ho].
      intros p'. destruct (decide (p' = p)) as [->|Hne]; [done|]. destruct (Ho p' Hne) as [-> _]. auto.
  - rewrite Hm in Hok. destruct Hok as (_ & Hno & _). done.
  - destruct Hok as (p1 & _ & Hc1 & Hr1 & _). congruence.
Qed.

(** ** Draining the inbound pipes *)

Lemma drain_spec l b (fuel : nat) : forall w q p msg, fq_at w q p msg -> (fq_frames w q < fuel)%nat -> exists w' q',
  req_drain fuel w (Dealer q l b) = Some (w', Dealer q' l b) /\ fq_between w' q' /\ (forall p', fq_is_active q p' -> ip_queue w' p' = []) /\
  (forall p', ip_queue w p' = [] -> ip_queue w' p' = []) /\ reader_only w w'.
Proof.
  induction fuel as [|fuel IH]; intros w q p msg Hat Hf; [lia|]. cbn [req_drain]. unfold dealer_recvpipe. cbn [de_fq de_lb de_probe_router].
  destruct msg as [|f msg]; cbn [fq_at] in Hat.
  - destruct (fq_recv_start w q Hat) as (w1 & q1 & m & Hrun & _ & Hres). pose proof (fq_recvpipe_reader _ _ _ _ _ Hrun) as Hro.
    rewrite Hrun. cbn [mbind option_bind]. destruct m as [[p1 f]|].
    + destruct Hres as (Hact & msg & rest & Hmsg & _ & Hq & Hq1 & Ho & Hat1 & Hfr & Hs1 & Hs2).
      destruct (IH w1 q1 p1 msg Hat1) as (w2 & q2 & -> & Hb2 & Hn2 & Hz2 & Hro2); [lia|]. exists w2, q2. split_and!; try done.
      * intros p' Hp'. destruct (decide (ip_queue w p' = [])) as [E|E]; [|auto]. apply Hz2. destruct (decide (p' = p1)) as [->|Hne]; [by rewrite E in Hq|by rewrite Ho].
      * intros p' E. apply Hz2. destruct (decide (p' = p1)) as [->|Hne]; [by rewrite E in Hq|by rewrite Ho].
      * by apply (reader_only_trans _ w1).
    + destruct Hres as (Hnil & Hsame & Hb1 & _). exists w1, q1. split_and!; try done; [intros p' Hp'; rewrite Hsame; auto|intros p' E; by rewrite Hsame].
  - destruct (fq_recv_mid w q p f msg Hat) as (w1 & q1 & Hrun & _ & Hat1 & Hq & _ & Ho & Hfr & Hact).
    pose proof (fq_recvpipe_reader _ _ _ _ _ Hrun) as Hro. rewrite Hrun. cbn [mbind option_bind].
    destruct (IH w1 q1 p msg Hat1) as (w2 & q2 & -> & Hb2 & Hn2 & Hz2 & Hro2); [lia|]. exists w2, q2. split_and!; try done.
    + intros p' Hp'. apply Hn2, Hact, Hp'.
    + intros p' E. apply Hz2. destruct (decide (p' = p)) as [->|Hne]; [by rewrite E in Hq|by rewrite Ho].
    + by apply (reader_only_trans _ w1).
Qed.

(** ** Requests *)

Definition next_id r : Z := if rq_request_id_frames r then u32 (rq_request_id r + 1) else rq_request_id r.

(** What is before a request on the wire. *)
Definition req_envelope (ids : bool) (id : Z) : list frame := (if ids then [req_id_frame id] else []) ++ [req_bottom].

Definition all_open w : Prop := forall p, dx_open w p = true.

Lemma lb_mid_reader w w' l p msg : lb_mid w l p msg -> reader_only w w' -> dx_open w p = true -> lb_mid w' l p msg.
Proof.
  intros (Hl & Hm & Hd & Hz & Hc & Hr & Hp & Hoth) (Ho & _ & Hro) Hopen. split_and!; try done; [by rewrite Hro|by destruct (Ho p) as [-> _]|].
  intros p' Hne. destruct (Ho p') as [-> _]. auto.
Qed.

Lemma between_in_same w w' q : fq_between w q -> in_same w w' -> fq_between w' q.
Proof. intros (H1 & H2 & H3) Hs. split_and!; try done. intros p Hp. destruct (Hs p) as [-> _]. auto. Qed.

Lemma frames_in_same w w' q : in_same w w' -> fq_frames w' q = fq_frames w q.
Proof. intros Hs. unfold fq_frames. f_equal. apply list_fmap_ext. intros i p _. simpl. by destruct (Hs p) as [-> _]. Qed.

Definition ready_to_send w r : Prop := lb_idle w (de_lb (rq_dealer r)) /\ fq_between w (de_fq (rq_dealer r)) /\
  (exists p, lb_is_active (de_lb (rq_dealer r)) p /\ op_room w p = true).

(** The labels of the envelope. *)
Lemma label_start w r f : ready_to_send w r -> fr_more f = true -> exists w' l p,
  req_send_label w r f = Some (w', req_set_reply (req_set_dealer r (Dealer (de_fq (rq_dealer r)) l (de_probe_router (rq_dealer r)))) (Some p), SendOk (Some p)) /\
  lb_mid w' l p [f] /\ sent_same w w' /\ in_same w w'.
Proof.
  intros (Hi & _ & Hroom) Hf. destruct (lb_start w _ f Hi Hroom Hf) as (w' & l & p & Hrun & ?). exists w', l, p. split; [|done].
  unfold req_send_label, dealer_sendpipe. by rewrite Hrun.
Qed.

Lemma label_next w r f p msg : lb_mid w (de_lb (rq_dealer r)) p msg -> fr_more f = true -> exists w' l,
  req_send_label w r f = Some (w', req_set_reply (req_set_dealer r (Dealer (de_fq (rq_dealer r)) l (de_probe_router (rq_dealer r)))) (Some p), SendOk (Some p)) /\
  lb_mid w' l p (msg ++ [f]) /\ sent_same w w' /\ in_same w w'.
Proof.
  intros Hmid Hf. destruct (lb_continue w _ p msg f Hmid) as (w' & l & Hrun & Hin & Hres). rewrite Hf in Hres. exists w', l. split; [|tauto].
  unfold req_send_label, dealer_sendpipe. by rewrite Hrun.
Qed.

Lemma envelope_spec w r : ready_to_send w r -> all_open w -> exists w' q' l' p,
  req_send_envelope w r = Some (w', Req (Dealer q' l' (de_probe_router (rq_dealer r))) (rq_receiving_reply r) false (Some p)
    (rq_request_id_frames r) (next_id r) (rq_strict r), true) /\
  lb_mid w' l' p (req_envelope (rq_request_id_frames r) (next_id r)) /\ sent_same w w' /\ fq_between w' q' /\
  (forall p', fq_is_active (de_fq (rq_dealer r)) p' -> ip_queue w' p' = []) /\ all_open w'.
Proof.
  intros Hready Hopen. unfold req_send_envelope. destruct r as [[q l b] rec beg rep ids id st].
  set (r := Req (Dealer q l b) rec beg rep ids id st) in *.
  assert (exists w1 l1 p, (let* (w, r0, ok) :=
      if rq_request_id_frames (req_set_reply r None) then
        let r1 := req_set_id (req_set_reply r None) (u32 (rq_request_id (req_set_reply r None) + 1)) in
        let* (w0, r2, res) := req_send_label w r1 (req_id_frame (rq_request_id r1)) in
        Some (w0, r2, match res with SendOk _ => true | _ => false end)
      else Some (w, req_set_reply r None, true) in
    if negb ok then Some (w, r0, SendAgain) else req_send_label w r0 req_bottom) =
    Some (w1, Req (Dealer (de_fq (rq_dealer r)) l1 (de_probe_router (rq_dealer r))) (rq_receiving_reply r) (rq_message_begins r) (Some p)
      (rq_request_id_frames r) (next_id r) (rq_strict r), SendOk (Some p)) /\
    lb_mid w1 l1 p (req_envelope (rq_request_id_frames r) (next_id r)) /\ sent_same w w1 /\ in_same w w1) as (w1 & l1 & p & Hlab & Hmid & Hs & Hin).
  { clear Hopen. unfold next_id. cbn [rq_request_id_frames req_set_reply r]. destruct ids.
    - cbn zeta. set (r1 := req_set_id _ _). destruct (label_start w r1 (req_id_frame (rq_request_id r1))) as (w1 & l1 & p & Hrun1 & Hm1 & Hs1 & Hi1); [exact Hready|done|].
      rewrite Hrun1. cbn [mbind option_bind negb]. set (r2 := req_set_reply _ (Some p)).
      destruct (label_next w1 r2 req_bottom p _ Hm1) as (w2 & l2 & Hrun2 & Hm2 & Hs2 & Hi2); [done|].
      exists w2, l2, p. split_and!; [exact Hrun2|exact Hm2|intros p'; by rewrite Hs2|by apply (in_same_trans _ w1)].
    - cbn [mbind option_bind negb]. destruct (label_start w (req_set_reply r None) req_bottom) as (w1 & l1 & p & Hrun1 & Hm1 & Hs1 & Hi1); [exact Hready|done|].
      exists w1, l1, p. by split_and!. }
  destruct (if rq_request_id_frames (req_set_reply r None) then _ else _) as [[[w0 r0] [|]]|]; cbn [mbind option_bind negb] in *; try done.
  rewrite Hlab. cbn [mbind option_bind]. rewrite bool_decide_eq_true_2 by done.
  cbn [req_set_fsm rq_dealer de_fq rq_receiving_reply rq_message_begins rq_reply_pipe rq_request_id_frames rq_request_id rq_strict].
  destruct Hready as (_ & Hbt & _).
  destruct (drain_spec l1 (de_probe_router (rq_dealer r)) (S (fq_frames w1 (de_fq (rq_dealer r)))) w1 (de_fq (rq_dealer r)) p [])
    as (w2 & q2 & -> & Hb2 & Hn2 & _ & Hro2); [by apply (between_in_same w)|lia|].
  cbn [mbind option_bind]. exists w2, q2, l1, p. split_and!; try done.
  - apply (lb_mid_reader w1); try done. destruct (Hin p) as [_ ->]. apply Hopen.
  - intros p'. destruct Hro2 as (Ho & _ & _). destruct (Ho p') as [_ ->]. apply Hs.
  - intros p'. destruct Hro2 as (_ & Ho & _). rewrite Ho. destruct (Hin p') as [_ ->]. apply Hopen.
Qed.

Fixpoint req_send_all w r (fs : list frame) : option (W * req * list xrc) :=
  match fs with
  | [] => Some (w, r, [])
  | f :: fs' =>
      let* (w, r, rc) := req_xsend w r f in
      let* (w, r, rcs) := req_send_all w r fs' in
      Some (w, r, rc :: rcs)
  end.

Definition with_lb r l : req := req_set_dealer r (Dealer (de_fq (rq_dealer r)) l (de_probe_router (rq_dealer r))).

Lemma xsend_body w r p msg f : req_fsm r = (false, false) -> lb_mid w (de_lb (rq_dealer r)) p msg -> exists w' l,
  req_xsend w r f = Some (w', if fr_more f then with_lb r l else req_set_fsm (with_lb r l) true true, XOk) /\ in_same w w' /\
  if fr_more f then lb_mid w' l p (msg ++ [f]) /\ sent_same w w'
  else lb_idle w' l /\ op_sent w' p = op_sent w p ++ msg ++ [f] /\ forall p', p' <> p -> op_sent w' p' = op_sent w p'.
Proof.
  unfold req_fsm. intros [= Hr Hb] Hmid. destruct (lb_continue w _ p msg f Hmid) as (w' & l & Hrun & Hres). exists w', l. split; [|done].
  unfold req_xsend. rewrite Hr. cbn [andb]. rewrite Hb. cbn [mbind option_bind negb]. unfold dealer_sendpipe. rewrite Hrun.
  cbn [mbind option_bind]. by destruct (fr_more f).
Qed.

Lemma send_body fs : forall w r p msg, req_fsm r = (false, false) -> lb_mid w (de_lb (rq_dealer r)) p msg -> is_message fs = true ->
  exists w' l, req_send_all w r fs = Some (w', req_set_fsm (with_lb r l) true true, replicate (length fs) XOk) /\ in_same w w' /\
    lb_idle w' l /\ op_sent w' p = op_sent w p ++ msg ++ fs /\ forall p', p' <> p -> op_sent w' p' = op_sent w p'.
Proof.
  induction fs as [|f fs IH]; intros w r p msg Hfsm Hmid Hmsg; [done|]. cbn [req_send_all].
  destruct (xsend_body w r p msg f Hfsm Hmid) as (w1 & l1 & -> & Hin1 & Hres). cbn [mbind option_bind].
  destruct fs as [|g fs]; cbn [is_message] in Hmsg.
  - apply negb_true_iff in Hmsg. rewrite Hmsg in *. cbn [req_send_all mbind option_bind]. exists w1, l1. destruct Hres as (H1 & H2 & H3). done.
  - apply andb_true_iff in Hmsg as [Hf Hmsg]. rewrite Hf in *. destruct Hres as [Hmid1 Hs1].
    destruct (IH w1 (with_lb r l1) p (msg ++ [f])) as (w2 & l2 & -> & Hin2 & Hid & Hs2 & Ho2); [exact Hfsm|exact Hmid1|done|].
    cbn [mbind option_bind]. exists w2, l2. split_and!; try done.
    + by apply (in_same_trans _ w1).
    + rewrite Hs2, Hs1, <- app_assoc. done.
    + intros p' Hne. by rewrite Ho2, Hs1.
Qed.

Lemma xsend_begin w r w1 r1 f : rq_receiving_reply r && rq_strict r = false ->
  let r0 := if rq_receiving_reply r then req_set_fsm r false true else r in
  rq_message_begins r0 = true -> req_send_envelope w r0 = Some (w1, r1, true) -> req_fsm r1 = (false, false) ->
  req_xsend w r f = req_xsend w1 r1 f.
Proof.
  intros Hs r0 Hb He Hfsm. unfold req_fsm in Hfsm. injection Hfsm as Hr1 Hb1. unfold req_xsend at 1. rewrite Hs. fold r0. rewrite Hb, He. cbn [mbind option_bind negb].
  unfold req_xsend. rewrite Hr1. cbn [andb]. rewrite Hb1. done.
Qed.

(** The socket may send: it is idle, or need not wait for the reply. *)
Definition may_send r : bool := if rq_receiving_reply r then negb (rq_strict r) else rq_message_begins r.

(** A request was sent to pipe [p]: what the socket is then. *)
Definition request_sent w r msg w' r' p : Prop :=
  op_sent w' p = op_sent w p ++ req_envelope (rq_request_id_frames r) (next_id r) ++ msg /\
  (forall p', p' <> p -> op_sent w' p' = op_sent w p') /\ req_fsm r' = (true, true) /\ rq_reply_pipe r' = Some p /\
  rq_request_id r' = next_id r /\ rq_request_id_frames r' = rq_request_id_frames r /\ rq_strict r' = rq_strict r /\
  lb_idle w' (de_lb (rq_dealer r')) /\ fq_between w' (de_fq (rq_dealer r')) /\
  (forall p', fq_is_active (de_fq (rq_dealer r)) p' -> ip_queue w' p' = []).

Lemma request_spec w r msg : may_send r = true -> ready_to_send w r -> all_open w -> is_message msg = true ->
  exists w' r' p, req_send_all w r msg = Some (w', r', replicate (length msg) XOk) /\ request_sent w r msg w' r' p.
Proof.
  intros Hmay Hready Hopen Hmsg. set (r0 := if rq_receiving_reply r then req_set_fsm r false true else r).
  assert (rq_receiving_reply r && rq_strict r = false) as Hs by (unfold may_send in Hmay; destruct (rq_receiving_reply r), (rq_strict r); done).
  assert (rq_receiving_reply r0 = false /\ rq_message_begins r0 = true) as [Hr0 Hb0].
  { unfold may_send in Hmay. unfold r0. destruct (rq_receiving_reply r) eqn:E; [done|]. by rewrite E, Hmay. }
  assert (ready_to_send w r0 /\ next_id r0 = next_id r /\ rq_request_id_frames r0 = rq_request_id_frames r /\ rq_strict r0 = rq_strict r /\
    de_fq (rq_dealer r0) = de_fq (rq_dealer r)) as (Hready0 & Hid0 & Hids0 & Hst0 & Hfq0) by (unfold r0; by destruct (rq_receiving_reply r)).
  destruct (envelope_spec w r0 Hready0 Hopen) as (w1 & q1 & l1 & p & He & Hmid & Hs1 & Hb1 & Hn1 & Ho1).
  rewrite Hid0, Hids0, Hst0, Hr0 in *. set (r1 := Req _ _ _ _ _ _ _) in He.
  destruct (send_body msg w1 r1 p (req_envelope (rq_request_id_frames r) (next_id r))) as (w2 & l2 & Hrun & Hin & Hidle & Hs2 & Hoth2); try done.
  exists w2, (req_set_fsm (with_lb r1 l2) true true), p. split.
  - destruct msg as [|f msg]; [done|]. cbn [req_send_all] in Hrun |- *. by rewrite (xsend_begin w r w1 r1 f Hs Hb0 He).
  - split_and!; try done.
    + by rewrite Hs2, Hs1.
    + intros p' Hne. by rewrite Hoth2, Hs1.
    + by apply (between_in_same w1).
    + intros p' Hp'. destruct (Hin p') as [-> _]. apply Hn1. by rewrite Hfq0.
Qed.

End send.

(** ** The guarantees *)

(** a REQ socket that may send (it waits for no reply, or is relaxed) sends a request whole: every part is accepted, one pipe gets
    the request id, when enabled, an empty frame and the parts of the request, in order, and nothing else is sent; replies that
    were there before are dropped, and the socket then waits for the reply from that pipe.  In strict mode a second request is
    refused with EFSM while a reply is awaited. *)
Theorem req_request_sent {W} {IP : InPipes W} {OP : OutPipes W} {DX : Duplex W} {DL : DuplexLaws W} (w : W) (r : req) (msg : list frame) :
  may_send r = true -> ready_to_send w r -> all_open w -> is_message msg = true ->
  exists w' r' p, req_send_all w r msg = Some (w', r', replicate (length msg) XOk) /\ request_sent w r msg w' r' p /\
    (rq_strict r = true -> forall f, req_xsend w' r' f = Some (w', r', XEfsm)).
Proof.
  intros Hmay Hready Hopen Hmsg. destruct (request_spec w r msg Hmay Hready Hopen Hmsg) as (w' & r' & p & Hrun & Hs).
  exists w', r', p. split_and!; try done. intros Hst f. destruct Hs as (_ & _ & Hfsm & _ & _ & _ & Hst' & _).
  unfold req_fsm in Hfsm. injection Hfsm as Hr' _. unfold req_xsend. by rewrite Hr', Hst', Hst.
Qed.

(** a REQ socket that waits for a reply receives it whole: it skips the messages of other pipes and those without the right
    envelope (in strict order of each pipe), and then returns the parts after the envelope, one per call, and may send again; when
    there is no such message it returns EAGAIN and has skipped what there was.  No assertion fails, whatever the peers sent. *)
Theorem req_reply_received {W} {IP : InPipes W} {OP : OutPipes W} {DX : Duplex W} {DL : DuplexLaws W} (w : W) (r : req) :
  req_fsm r = (true, true) -> fq_between w (de_fq (rq_dealer r)) -> reply_none w r \/ reply_some w r.
Proof. apply reply_spec. Qed.

(** ** Concrete runs *)

Definition req_example_pipes (closing : gset Z) : dpipes :=
  DPipes ∅ (list_to_map [(1, (2%nat, [], [])); (2, (2%nat, [], []))]) closing.

(** A new socket with request ids and two pipes. *)
Definition req_example : req :=
  Eval vm_compute in
    match (let* (w, d) := dealer_xattach_pipe (req_example_pipes ∅) dealer_new 1 in dealer_xattach_pipe w d 2) with
    | Some (_, d) => Req d false true None true 41 true
    | None => req_new 0
    end.

Definition body_part (b : Z) : frame := Frame type_vsm 0 [b].

Lemma req_example_ready c : ready_to_send (req_example_pipes c) req_example.
Proof.
  unfold ready_to_send, lb_idle, fq_between. split_and!; try done.
  - constructor; [constructor|vm_compute; lia|vm_compute; lia]; simpl; [repeat constructor; set_solver|].
    intros [|[|]] x; simpl; intros [= <-]; reflexivity.
  - intros p. cbn. destruct (decide (p = 1)) as [->|H1]; [done|]. destruct (decide (p = 2)) as [->|H2]; [done|].
    unfold credit_of, req_example_pipes. cbn [dp_out]. simpl. by rewrite !lookup_insert_ne, lookup_empty by done.
  - constructor; [constructor|vm_compute; lia|vm_compute; lia]; simpl; [repeat constructor; set_solver|].
    intros [|[|]] x; simpl; intros [= <-]; reflexivity.
  - intros p _. exists []. done.
  - exists 1. split; [|done]. exists 0%nat. split; [vm_compute; lia|done].
Qed.

Lemma req_example_open : all_open (req_example_pipes ∅).
Proof. intros p. cbn. by rewrite bool_decide_eq_false_2 by set_solver. Qed.

Lemma req_request_sent_witness : exists w' r' p,
  req_send_all (req_example_pipes ∅) req_example [body_part 7] = Some (w', r', [XOk]) /\
  op_sent w' p = [req_id_frame 42; req_bottom; body_part 7] /\ req_fsm r' = (true, true).
Proof.
  destruct (req_request_sent (req_example_pipes ∅) req_example [body_part 7] eq_refl (req_example_ready ∅) req_example_open eq_refl)
    as (w' & r' & p & Hrun & (Hs & _ & Hfsm & _) & _).
  exists w', r', p. split; [exact Hrun|]. split; [|exact Hfsm]. rewrite Hs.
  assert (op_sent (req_example_pipes ∅) p = []) as ->; [|vm_compute; reflexivity].
  cbn. unfold credit_of, req_example_pipes. cbn [dp_out]. destruct (decide (p = 1)) as [->|H1]; [done|].
  destruct (decide (p = 2)) as [->|H2]; [done|]. simpl. by rewrite !lookup_insert_ne, lookup_empty by done.
Defined.

(** A socket that waits for the reply from pipe 1; there are a message of
    pipe 2, an old reply, and the reply. *)
Definition req_waiting : req := Req (rq_dealer req_example) true true (Some 1) true 42 true.
Definition req_waiting_pipes : dpipes :=
  DPipes (list_to_map [(1, [req_id_frame 41; req_bottom; body_part 1; req_id_frame 42; req_bottom; Frame type_vsm flag_more [8]; body_part 9]);
                       (2, [req_id_frame 42; req_bottom; body_part 2])]) ∅ ∅.

Lemma req_waiting_between : fq_between req_waiting_pipes (de_fq (rq_dealer req_waiting)).
Proof.
  unfold fq_between. split_and!; [|done|].
  - constructor; [constructor|vm_compute; lia|vm_compute; lia]; simpl; [repeat constructor; set_solver|].
    intros [|[|]] x; simpl; intros [= <-]; reflexivity.
  - intros p _. destruct (decide (p = 1)) as [->|H1].
    + exists [[req_id_frame 41; req_bottom; body_part 1]; [req_id_frame 42; req_bottom; Frame type_vsm flag_more [8]; body_part 9]].
      split; [vm_compute; reflexivity|by repeat constructor].
    + destruct (decide (p = 2)) as [->|H2].
      * exists [[req_id_frame 42; req_bottom; body_part 2]]. split; [vm_compute; reflexivity|by repeat constructor].
      * exists []. split; [|done]. cbn. simpl. by rewrite !lookup_insert_ne, lookup_empty by done.
Qed.

Lemma req_reply_received_witness :
  (reply_none req_waiting_pipes req_waiting \/ reply_some req_waiting_pipes req_waiting) /\
  exists w' r', req_recv_n 2 req_waiting_pipes req_waiting = Some (w', r', [(XOk, Some (Frame type_vsm flag_more [8])); (XOk, Some (body_part 9))]) /\
    req_fsm r' = (false, true).
Proof.
  split; [apply (req_reply_received req_waiting_pipes req_waiting eq_refl req_waiting_between)|].
  eexists _, _. split; [vm_compute; reflexivity|reflexivity].
Defined.

(** a request that is aborted leaves the socket in the middle of a request.  When the delimiter of the pipe that took the
    envelope is found by the drain, the request is not sent and [xsend] returns -2 (which a blocking [zmq_send] turns into success);
    the socket then accepts no [xrecv] (EFSM), and the next request goes out, successfully, without its empty frame, so that no
    REP socket can answer it. *)
Theorem req_abort_loses_envelope : exists w1 r1 w2 r2,
  req_xsend (req_example_pipes {[1]}) req_example (body_part 7) = Some (w1, r1, XAborted) /\
  req_xrecv w1 r1 = Some (w1, r1, XEfsm, None) /\
  req_xsend w1 r1 (body_part 8) = Some (w2, r2, XOk) /\ op_sent w2 1 = [] /\ op_sent w2 2 = [body_part 8].
Proof.
  destruct (req_xsend (req_example_pipes {[1]}) req_example (body_part 7)) as [[[w1 r1] rc]|] eqn:E1; [|vm_compute in E1; discriminate].
  vm_compute in E1. injection E1 as <- <- <-.
  match goal with |- exists w1 r1 w2 r2, Some (?w, ?r, _) = _ /\ _ =>
    destruct (req_xsend w r (body_part 8)) as [[[w2 r2] rc2]|] eqn:E2; [|vm_compute in E2; discriminate]; exists w, r end.
  exists w2, r2. vm_compute in E2. injection E2 as <- <- <-. split_and!; vm_compute; reflexivity.
Qed.
