(* ===== verification/Router.v ===== *)
(** * The ROUTER socket, [router_t] (src/src/router.cpp, and
    [routing_socket_base_t] of src/src/socket_base.cpp)

    Messages carry the routing id of the peer as their first frame.  The
    socket knows the routing id of every identified pipe; a message that
    is received is kept while its routing id is returned first. *)

From S2P Require Import Prelude Array Frame Wire Fq Duplex.

(** What a ROUTER uses of its pipes besides [Duplex]. *)
Class RouterPipes (W : Type) := {
  rp_check_hwm : W -> Z -> bool;
  rp_terminate : W -> Z -> bool -> W;   (** pipe, delay *)
}.

(** ** State *)

(** The message being received. *)
Record rin := RIn {
  ri_prefetched : bool;
  ri_routing_id_sent : bool;
  ri_prefetched_id : frame;
  ri_prefetched_msg : frame;
  ri_current : option Z;
  ri_terminate_current : bool;
  ri_more : bool;
}.

(** The message being sent. *)
Record rout := ROut { ro_current : option Z; ro_more : bool }.

Record ropt := ROpt {
  rop_mandatory : bool;
  rop_raw_socket : bool;         (** [_raw_socket] *)
  rop_options_raw : bool;        (** [options.raw_socket] *)
  rop_recv_routing_id : bool;
  rop_probe_router : bool;
  rop_handover : bool;
  rop_router_notify : Z;
}.

(** The peers: [_anonymous_pipes], [_next_integral_routing_id],
    [_out_pipes], the routing ids the pipes hold, [_connect_routing_id]. *)
Record rids := RIds {
  rd_anonymous : gset Z;
  rd_next : Z;
  rd_out : gmap bytes (Z * bool);
  rd_pipe_id : gmap Z bytes;
  rd_connect : bytes;
}.

Record router := Router { rt_fq : fq; rt_in : rin; rt_out : rout; rt_opt : ropt; rt_ids : rids }.

Definition router_new (random : Z) : router :=
  Router fq_new (RIn false false fr_empty fr_empty None false false) (ROut None false)
    (ROpt false false false true false false 0) (RIds ∅ (u32 random) ∅ ∅ []).

Definition rt_set_fq (t : router) (q : fq) : router := Router q (rt_in t) (rt_out t) (rt_opt t) (rt_ids t).
Definition rt_set_in (t : router) (i : rin) : router := Router (rt_fq t) i (rt_out t) (rt_opt t) (rt_ids t).
Definition rt_set_out (t : router) (o : rout) : router := Router (rt_fq t) (rt_in t) o (rt_opt t) (rt_ids t).
Definition rt_set_ids (t : router) (d : rids) : router := Router (rt_fq t) (rt_in t) (rt_out t) (rt_opt t) d.

(** The destructors' assertions. *)
Definition router_destroy (t : router) : option unit :=
  zmq_assert (bool_decide (rd_anonymous (rt_ids t) = ∅)) ;; zmq_assert (bool_decide (rd_out (rt_ids t) = ∅)) ;; Some tt.

(** ** The table of peers *)

Definition lookup_out_pipe (d : rids) (id : bytes) : option (Z * bool) := rd_out d !! id.
Definition has_out_pipe (d : rids) (id : bytes) : bool := bool_decide (is_Some (rd_out d !! id)).

Definition add_out_pipe (d : rids) (id : bytes) (pipe : Z) : option rids :=
  zmq_assert (bool_decide (rd_out d !! id = None)) ;;
  Some (RIds (rd_anonymous d) (rd_next d) (<[id := (pipe, true)]> (rd_out d)) (rd_pipe_id d) (rd_connect d)).

(** [get_routing_id]: empty when none was set. *)
Definition pipe_routing_id (d : rids) (pipe : Z) : bytes := default [] (rd_pipe_id d !! pipe).

Definition erase_out_pipe (d : rids) (pipe : Z) : option rids :=
  let id := pipe_routing_id d pipe in
  zmq_assert (bool_decide (is_Some (rd_out d !! id))) ;;
  Some (RIds (rd_anonymous d) (rd_next d) (delete id (rd_out d)) (rd_pipe_id d) (rd_connect d)).

Definition set_pipe_routing_id (d : rids) (pipe : Z) (id : bytes) : rids :=
  RIds (rd_anonymous d) (rd_next d) (rd_out d) (<[pipe := id]> (rd_pipe_id d)) (rd_connect d).

Definition out_set_active (d : rids) (id : bytes) (pipe : Z) (active : bool) : rids :=
  RIds (rd_anonymous d) (rd_next d) (<[id := (pipe, active)]> (rd_out d)) (rd_pipe_id d) (rd_connect d).

(** [put_uint32 (buf + 1, _next_integral_routing_id++)] after a zero byte. *)
Definition next_integral_id (d : rids) : rids * bytes :=
  (RIds (rd_anonymous d) (u32 (rd_next d + 1)) (rd_out d) (rd_pipe_id d) (rd_connect d), 0 :: put_uint32 (rd_next d)).

Definition extract_connect_routing_id (d : rids) : rids * bytes :=
  (RIds (rd_anonymous d) (rd_next d) (rd_out d) (rd_pipe_id d) [], rd_connect d).

(** [xwrite_activated]: the entry of the pipe is searched by its value. *)
Definition router_xwrite_activated (t : router) (pipe : Z) : option router :=
  let d := rt_ids t in
  let* e := head (filter (fun e => e.2.1 = pipe) (map_to_list (rd_out d))) in
  zmq_assert (negb e.2.2) ;;
  Some (rt_set_ids t (out_set_active d e.1 pipe true)).

(** ** Options *)

Definition ZMQ_ROUTER_MANDATORY : Z := 33.
Definition ZMQ_ROUTER_RAW : Z := 41.
Definition ROUTER_PROBE_ROUTER : Z := 51.
Definition ZMQ_ROUTER_HANDOVER : Z := 56.
Definition ZMQ_CONNECT_ROUTING_ID : Z := 61.
Definition ZMQ_ROUTER_NOTIFY : Z := 97.

(** [None] is EINVAL.  The value is given as bytes and, when it has the
    size of an int, as that. *)
Definition router_xsetsockopt (t : router) (option_ : Z) (optval : bytes) (as_int : option Z) : option router :=
  let o := rt_opt t in
  let value := default 0 as_int in
  let ok := bool_decide (is_Some as_int) && (0 <=? value) in
  let set o := Some (Router (rt_fq t) (rt_in t) (rt_out t) o (rt_ids t)) in
  if option_ =? ZMQ_ROUTER_RAW then
    if negb ok then None
    else if negb (value =? 0) then set (ROpt (rop_mandatory o) true true false (rop_probe_router o) (rop_handover o) (rop_router_notify o))
    else set (ROpt (rop_mandatory o) false (rop_options_raw o) (rop_recv_routing_id o) (rop_probe_router o) (rop_handover o) (rop_router_notify o))
  else if option_ =? ZMQ_ROUTER_MANDATORY then
    if negb ok then None
    else set (ROpt (negb (value =? 0)) (rop_raw_socket o) (rop_options_raw o) (rop_recv_routing_id o) (rop_probe_router o) (rop_handover o) (rop_router_notify o))
  else if option_ =? ROUTER_PROBE_ROUTER then
    if negb ok then None
    else set (ROpt (rop_mandatory o) (rop_raw_socket o) (rop_options_raw o) (rop_recv_routing_id o) (negb (value =? 0)) (rop_handover o) (rop_router_notify o))
  else if option_ =? ZMQ_ROUTER_HANDOVER then
    if negb ok then None
    else set (ROpt (rop_mandatory o) (rop_raw_socket o) (rop_options_raw o) (rop_recv_routing_id o) (rop_probe_router o) (negb (value =? 0)) (rop_router_notify o))
  else if option_ =? ZMQ_ROUTER_NOTIFY then
    if negb (ok && (value <=? 3)) then None
    else set (ROpt (rop_mandatory o) (rop_raw_socket o) (rop_options_raw o) (rop_recv_routing_id o) (rop_probe_router o) (rop_handover o) value)
  else if option_ =? ZMQ_CONNECT_ROUTING_ID then
    if bool_decide (optval = []) then None
    else
      let d := rt_ids t in
      Some (rt_set_ids t (RIds (rd_anonymous d) (rd_next d) (rd_out d) (rd_pipe_id d) optval))
  else None.

Section router.
Context {W : Type} {IP : InPipes W} {OP : OutPipes W} {DX : Duplex W} {DL : DuplexLaws W} {RP : RouterPipes W}.

(** ** Identification of peers *)

(** An entry with the routing id exists: with handover it is given a new
    routing id and terminated.  [false]: the peer is ignored. *)
Definition router_take_over (w : W) (t : router) (id : bytes) : option (W * router * bool) :=
  match lookup_out_pipe (rt_ids t) id with
  | None => Some (w, t, true)
  | Some (old_pipe, _) =>
      if negb (rop_handover (rt_opt t)) then Some (w, t, false)
      else
        let '(d, new_id) := next_integral_id (rt_ids t) in
        let* d := erase_out_pipe d old_pipe in
        let d := set_pipe_routing_id d old_pipe new_id in
        let* d := add_out_pipe d new_id old_pipe in
        let t := rt_set_ids t d in
        let i := rt_in t in
        if bool_decide (ri_current i = Some old_pipe) then
          Some (w, rt_set_in t (RIn (ri_prefetched i) (ri_routing_id_sent i) (ri_prefetched_id i) (ri_prefetched_msg i)
                                  (ri_current i) true (ri_more i)), true)
        else Some (rp_terminate w old_pipe true, t, true)
  end.

(** [identify_peer]: whether the pipe got a routing id. *)
Definition identify_peer (w : W) (t : router) (pipe : Z) (locally_initiated : bool) : option (W * router * bool) :=
  let finish w (t : router) id :=
    let* d := add_out_pipe (set_pipe_routing_id (rt_ids t) pipe id) id pipe in
    Some (w, rt_set_ids t d, true) in
  if locally_initiated && negb (bool_decide (rd_connect (rt_ids t) = [])) then
    let '(d, id) := extract_connect_routing_id (rt_ids t) in
    zmq_assert (negb (has_out_pipe d id)) ;;
    finish w (rt_set_ids t d) id
  else if rop_options_raw (rt_opt t) then
    let '(d, id) := next_integral_id (rt_ids t) in finish w (rt_set_ids t d) id
  else
    let* (w, m) := ip_read w pipe in
    match m with
    | None => Some (w, t, false)
    | Some msg =>
        if bool_decide (fr_body msg = []) then
          let '(d, id) := next_integral_id (rt_ids t) in finish w (rt_set_ids t d) id
        else
          let* (w, t, ok) := router_take_over w t (fr_body msg) in
          if (ok : bool) then finish w t (fr_body msg) else Some (w, t, false)
    end.

Definition set_anonymous (t : router) (s : gset Z) : router :=
  let d := rt_ids t in rt_set_ids t (RIds s (rd_next d) (rd_out d) (rd_pipe_id d) (rd_connect d)).

Definition router_xattach_pipe (w : W) (t : router) (pipe : Z) (locally_initiated : bool) : option (W * router) :=
  let* w :=
    if rop_probe_router (rt_opt t) then let* (w, _) := op_write w pipe fr_empty in op_flush w pipe else Some w in
  let* (w, t, ok) := identify_peer w t pipe locally_initiated in
  if (ok : bool) then let* q := fq_attach (rt_fq t) pipe in Some (w, rt_set_fq t q)
  else Some (w, set_anonymous t ({[pipe]} ∪ rd_anonymous (rt_ids t))).

Definition router_xpipe_terminated (w : W) (t : router) (pipe : Z) : option (W * router) :=
  if bool_decide (pipe ∈ rd_anonymous (rt_ids t)) then
    Some (w, set_anonymous t (rd_anonymous (rt_ids t) ∖ {[pipe]}))
  else
    let* d := erase_out_pipe (rt_ids t) pipe in
    let* q := fq_pipe_terminated (rt_fq t) pipe in
    let* w := op_rollback w pipe in
    let o := rt_out t in
    let o := if bool_decide (ro_current o = Some pipe) then ROut None (ro_more o) else o in
    Some (w, Router q (rt_in t) o (rt_opt t) d).

Definition router_xread_activated (w : W) (t : router) (pipe : Z) : option (W * router) :=
  if bool_decide (pipe ∈ rd_anonymous (rt_ids t)) then
    let* (w, t, ok) := identify_peer w t pipe false in
    if (ok : bool) then
      let t := set_anonymous t (rd_anonymous (rt_ids t) ∖ {[pipe]}) in
      let* q := fq_attach (rt_fq t) pipe in Some (w, rt_set_fq t q)
    else Some (w, t)
  else let* q := fq_activated (rt_fq t) pipe in Some (w, rt_set_fq t q).

(** ** Sending *)

Inductive router_rc := RtOk | RtAgain | RtHostUnreach.

(** The first frame: the routing id of the peer. *)
Definition router_send_id (w : W) (t : router) (msg : frame) : option (W * router * router_rc) :=
  if negb (fr_more msg) then Some (w, t, RtOk)
  else
    let mandatory := rop_mandatory (rt_opt t) in
    match lookup_out_pipe (rt_ids t) (fr_body msg) with
    | Some (pipe, _) =>
        let* (w, ok) := op_check_write w pipe in
        if (ok : bool) then Some (w, rt_set_out t (ROut (Some pipe) true), RtOk)
        else
          let pipe_full := negb (rp_check_hwm w pipe) in
          let t := rt_set_ids t (out_set_active (rt_ids t) (fr_body msg) pipe false) in
          if mandatory then Some (w, rt_set_out t (ROut None false), if pipe_full then RtAgain else RtHostUnreach)
          else Some (w, rt_set_out t (ROut None true), RtOk)
    | None =>
        if mandatory then Some (w, rt_set_out t (ROut None false), RtHostUnreach)
        else Some (w, rt_set_out t (ROut None true), RtOk)
    end.

Definition reset_more (f : frame) : frame :=
  MkFrame (fr_type f) (Z.land (fr_flags f) (Z.lnot flag_more)) (fr_body f) (fr_group f) (fr_routing_id f).

Definition router_xsend (w : W) (t : router) (msg : frame) : option (W * router * router_rc) :=
  if negb (ro_more (rt_out t)) then
    zmq_assert (bool_decide (ro_current (rt_out t) = None)) ;;
    router_send_id w t msg
  else
    let msg := if rop_options_raw (rt_opt t) then reset_more msg else msg in
    let more := fr_more msg in
    match ro_current (rt_out t) with
    | None => Some (w, rt_set_out t (ROut None more), RtOk)
    | Some pipe =>
        if rop_raw_socket (rt_opt t) && bool_decide (fr_body msg = []) then
          Some (rp_terminate w pipe false, rt_set_out t (ROut None more), RtOk)
        else
          let* (w, ok) := op_write w pipe msg in
          if negb ok then
            let* w := op_rollback w pipe in
            Some (w, rt_set_out t (ROut None more), RtOk)
          else if negb more then
            let* w := op_flush w pipe in
            Some (w, rt_set_out t (ROut None more), RtOk)
          else Some (w, rt_set_out t (ROut (Some pipe) more), RtOk)
    end.

Definition router_rollback (w : W) (t : router) : option (W * router) :=
  match ro_current (rt_out t) with
  | Some pipe => let* w := op_rollback w pipe in Some (w, rt_set_out t (ROut None false))
  | None => Some (w, t)
  end.

(** ** Receiving *)

(** [_fq.recvpipe], skipping routing ids that come after a reconnection. *)
Fixpoint router_fetch (fuel : nat) (w : W) (q : fq) : option (W * fq * option (Z * frame)) :=
  match fuel with
  | O => None
  | S fuel' =>
      let* (w, q, m) := fq_recvpipe w q in
      match m with
      | Some (_, f) => if fr_is_routing_id f then router_fetch fuel' w q else Some (w, q, m)
      | None => Some (w, q, None)
      end
  end.

Definition router_recvpipe (w : W) (t : router) : option (W * router * option (Z * frame)) :=
  let* (w, q, m) := router_fetch (S (fq_frames w (rt_fq t))) w (rt_fq t) in Some (w, rt_set_fq t q, m).

(** The end of a message: the pipe may have to be terminated. *)
Definition router_more_in (w : W) (t : router) (more : bool) : option (W * router) :=
  let i := rt_in t in
  if more then Some (w, rt_set_in t (RIn (ri_prefetched i) (ri_routing_id_sent i) (ri_prefetched_id i) (ri_prefetched_msg i) (ri_current i) (ri_terminate_current i) true))
  else
    let* w := if ri_terminate_current i then let* p := ri_current i in Some (rp_terminate w p true) else Some w in
    Some (w, rt_set_in t (RIn (ri_prefetched i) (ri_routing_id_sent i) (ri_prefetched_id i) (ri_prefetched_msg i) None false false)).

Definition id_frame (id : bytes) : frame := Frame (if Z.of_nat (length id) <=? 33 then type_vsm else type_lmsg) flag_more id.

Definition router_xrecv (w : W) (t : router) : option (W * router * option frame) :=
  let i := rt_in t in
  if ri_prefetched i then
    if negb (ri_routing_id_sent i) then
      let msg := ri_prefetched_id i in
      let t := rt_set_in t (RIn true true fr_empty (ri_prefetched_msg i) (ri_current i) (ri_terminate_current i) (ri_more i)) in
      let* (w, t) := router_more_in w t (fr_more msg) in
      Some (w, t, Some msg)
    else
      let msg := ri_prefetched_msg i in
      let t := rt_set_in t (RIn false (ri_routing_id_sent i) (ri_prefetched_id i) fr_empty (ri_current i) (ri_terminate_current i) (ri_more i)) in
      let* (w, t) := router_more_in w t (fr_more msg) in
      Some (w, t, Some msg)
  else
    let* (w, t, m) := router_recvpipe w t in
    match m with
    | None => Some (w, t, None)
    | Some (pipe, msg) =>
        if ri_more i then
          let* (w, t) := router_more_in w t (fr_more msg) in Some (w, t, Some msg)
        else
          let id := pipe_routing_id (rt_ids t) pipe in
          Some (w, rt_set_in t (RIn true true (ri_prefetched_id i) msg (Some pipe) (ri_terminate_current i) (ri_more i)), Some (id_frame id))
    end.

Definition router_xhas_in (w : W) (t : router) : option (W * router * bool) :=
  let i := rt_in t in
  if ri_more i || ri_prefetched i then Some (w, t, true)
  else
    let* (w, t, m) := router_recvpipe w t in
    match m with
    | None => Some (w, rt_set_in t (RIn (ri_prefetched i) (ri_routing_id_sent i) (ri_prefetched_id i) fr_empty (ri_current i) (ri_terminate_current i) (ri_more i)), false)
    | Some (pipe, msg) =>
        let id := pipe_routing_id (rt_ids t) pipe in
        Some (w, rt_set_in t (RIn true false (id_frame id) msg (Some pipe) (ri_terminate_current i) (ri_more i)), true)
    end.

Definition router_xhas_out (w : W) (t : router) : bool :=
  if negb (rop_mandatory (rt_opt t)) then true
  else existsb (fun e => rp_check_hwm w e.2.1) (map_to_list (rd_out (rt_ids t))).

(** [get_peer_state]: ZMQ_POLLOUT (2) or 0; [None] is EHOSTUNREACH. *)
Definition router_get_peer_state (w : W) (t : router) (id : bytes) : option Z :=
  match lookup_out_pipe (rt_ids t) id with
  | None => None
  | Some (pipe, _) => Some (if rp_check_hwm w pipe then 2 else 0)
  end.

End router.

(** The simple pipes of [Duplex]. *)
#[export] Instance dpipes_router : RouterPipes dpipes := {
  rp_check_hwm w p := op_room w p;
  rp_terminate w p _ := DPipes (dp_in w) (dp_shut (dp_out w) p) (dp_closing w);
}.
