(* ===== verification/Rep.v ===== *)
(** * The REP socket, [rep_t] (src/src/rep.cpp)

    A REP socket is a ROUTER that receives a request, keeps its envelope
    (the routing id and everything up to the empty frame) by sending it
    to the peer as the beginning of the reply, and then sends the reply. *)

From S2P Require Import Prelude Array Frame Fq Duplex Router.

Record rep := Rep { rp_router : router; rp_sending_reply : bool; rp_request_begins : bool }.

Definition rep_new (random : Z) : rep := Rep (router_new random) false true.

Inductive rep_rc := PrOk | PrRouter (rc : router_rc) | PrEfsm.

Section rep.
Context {W : Type} {IP : InPipes W} {OP : OutPipes W} {DX : Duplex W} {DL : DuplexLaws W} {RP : RouterPipes W}.

Definition rep_xsend (w : W) (s : rep) (msg : frame) : option (W * rep * rep_rc) :=
  if negb (rp_sending_reply s) then Some (w, s, PrEfsm)
  else
    let* (w, t, rc) := router_xsend w (rp_router s) msg in
    match rc with
    | RtOk => Some (w, Rep t (if negb (fr_more msg) then false else rp_sending_reply s) (rp_request_begins s), PrOk)
    | _ => Some (w, Rep t (rp_sending_reply s) (rp_request_begins s), PrRouter rc)
    end.

(** The loop that copies the envelope to the reply; whether it is complete. *)
Fixpoint rep_labels (fuel : nat) (w : W) (t : router) : option (W * router * bool) :=
  match fuel with
  | O => None
  | S fuel' =>
      let* (w, t, m) := router_xrecv w t in
      match m with
      | None => Some (w, t, false)
      | Some msg =>
          if fr_more msg then
            let bottom := bool_decide (fr_body msg = []) in
            let* (w, t, rc) := router_xsend w t msg in
            zmq_assert (match rc with RtOk => true | _ => false end) ;;
            if bottom then Some (w, t, true) else rep_labels fuel' w t
          else
            let* (w, t) := router_rollback w t in
            rep_labels fuel' w t
      end
  end.

(** The frames that can still be received, routing ids included. *)
Definition rep_fuel (w : W) (t : router) : nat := (3 + 2 * fq_frames w (rt_fq t))%nat.

Definition rep_xrecv (w : W) (s : rep) : option (W * rep * rep_rc * option frame) :=
  if rp_sending_reply s then Some (w, s, PrEfsm, None)
  else
    let* (w, s, ok) :=
      if rp_request_begins s then
        let* (w, t, ok) := rep_labels (rep_fuel w (rp_router s)) w (rp_router s) in
        Some (w, Rep t (rp_sending_reply s) (if (ok : bool) then false else rp_request_begins s), ok)
      else Some (w, s, true) in
    if negb ok then Some (w, s, PrRouter RtAgain, None)
    else
      let* (w, t, m) := router_xrecv w (rp_router s) in
      match m with
      | None => Some (w, Rep t (rp_sending_reply s) (rp_request_begins s), PrRouter RtAgain, None)
      | Some msg =>
          if negb (fr_more msg) then Some (w, Rep t true true, PrOk, Some msg)
          else Some (w, Rep t (rp_sending_reply s) (rp_request_begins s), PrOk, Some msg)
      end.

Definition rep_xhas_in (w : W) (s : rep) : option (W * rep * bool) :=
  if rp_sending_reply s then Some (w, s, false)
  else let* (w, t, b) := router_xhas_in w (rp_router s) in Some (w, Rep t (rp_sending_reply s) (rp_request_begins s), b).

Definition rep_xhas_out (w : W) (s : rep) : bool :=
  if negb (rp_sending_reply s) then false else router_xhas_out w (rp_router s).

End rep.
