(* ===== verification/RepProps.v ===== *)
(** * Requests and replies (src/src/rep.cpp, src/src/router.cpp, src/src/req.cpp)

    A REP socket returns the body of a request and sends the reply, with
    the envelope of the request, to the peer it came from; together with
    a REQ socket this is a remote call. *)

From S2P Require Import Prelude Array Frame Fq Lb Duplex Dealer Req ReqProps Router Rep.

Section rep.
Context {W : Type} {IP : InPipes W} {OP : OutPipes W} {DX : Duplex W} {DL : DuplexLaws W} {RP : RouterPipes W}.
Implicit Types (w : W) (t : router) (q : fq) (p : Z) (f : frame) (msg : list frame).

(** ** A ROUTER in the middle of messages *)

(** No message is being received. *)
Definition rt_idle_in w t : Prop :=
  ri_prefetched (rt_in t) = false /\ ri_more (rt_in t) = false /\ ri_terminate_current (rt_in t) = false /\ fq_between w (rt_fq t).

(** The frames [fs] of a message of pipe [p] are to be returned next. *)
Definition rt_reading w t p (fs : list frame) : Prop :=
  ri_terminate_current (rt_in t) = false /\ is_message fs = true /\
  match fs with
  | [] => False
  | f :: msg =>
      (ri_prefetched (rt_in t) = true /\ ri_routing_id_sent (rt_in t) = true /\ ri_prefetched_msg (rt_in t) = f /\ fq_at w (rt_fq t) p msg) \/
      (ri_prefetched (rt_in t) = false /\ ri_more (rt_in t) = true /\ fq_mid w (rt_fq t) p (f :: msg))
  end.

Definition rt_reading_or_idle w t p fs : Prop := match fs with [] => rt_idle_in w t | _ => rt_reading w t p fs end.

(** Receiving leaves everything else alone. *)
Definition rt_rest_same t t' : Prop := rt_out t' = rt_out t /\ rt_opt t' = rt_opt t /\ rt_ids t' = rt_ids t.

Definition no_routing_id (fs : list frame) : Prop := Forall (fun f => fr_is_routing_id f = false) fs.

Lemma fetch_plain fuel w q w' q' p f : fq_recvpipe w q = Some (w', q', Some (p, f)) -> fr_is_routing_id f = false ->
  router_fetch (S fuel) w q = Some (w', q', Some (p, f)).
Proof. intros Hrun Hf. cbn [router_fetch]. rewrite Hrun. cbn [mbind option_bind]. by rewrite Hf. Qed.

(** The routing id of the next message. *)
Lemma xrecv_start w t p f msg rest w1 q1 : rt_idle_in w t -> fq_recvpipe w (rt_fq t) = Some (w1, q1, Some (p, f)) ->
  ip_queue w p = (f :: msg) ++ rest -> is_message (f :: msg) = true -> no_routing_id (f :: msg) ->
  exists t', router_xrecv w t = Some (w1, t', Some (id_frame (pipe_routing_id (rt_ids t) p))) /\ rt_reading w1 t' p (f :: msg) /\
    rt_rest_same t t' /\ reader_only w w1 /\ ip_queue w1 p = msg ++ rest /\ (forall p', p' <> p -> ip_queue w1 p' = ip_queue w p').
Proof.
  intros (Hpre & Hmore & Hterm & Hbt) Hrun Hq Hmsg Hid. apply Forall_cons_1 in Hid as [Hf _].
  destruct (fq_recv_start w (rt_fq t) Hbt) as (w2 & q2 & m & Hrun2 & _ & Hres). rewrite Hrun in Hrun2. simplify_eq.
  destruct Hres as (_ & msg' & rest' & Hmsg' & _ & Hq' & Hq1 & Ho & Hat & _). rewrite Hq in Hq'. cbn [app] in Hq'. injection Hq' as Hq'.
  assert (msg' = msg /\ rest' = rest) as [-> ->] by (eapply is_message_app_inj; [exact Hmsg'|exact Hmsg|done]).
  unfold router_xrecv, router_recvpipe. rewrite Hpre, (fetch_plain _ _ _ _ _ _ _ Hrun Hf). cbn [mbind option_bind]. rewrite Hmore.
  eexists. split; [done|]. split; [by split_and!; [done|done|left]|]. split_and!; try done. by apply (fq_recvpipe_reader _ _ _ _ _ Hrun).
Qed.

(** The next frame of the message. *)
Lemma xrecv_next w t p f msg : rt_reading w t p (f :: msg) -> fr_is_routing_id f = false ->
  exists w' t', router_xrecv w t = Some (w', t', Some f) /\ rt_reading_or_idle w' t' p msg /\ rt_rest_same t t' /\ reader_only w w'.
Proof.
  intros (Hterm & Hmsg & Hcase) Hf. destruct t as [q [pre sent pid pmsg cur term more] o op ids].
  cbn [rt_in rt_fq ri_terminate_current ri_prefetched ri_routing_id_sent ri_prefetched_msg ri_more] in *. subst term.
  assert (fr_more f = false -> msg = []) as Hlast by (destruct msg; [done|]; cbn [is_message] in Hmsg; apply andb_true_iff in Hmsg as [-> _]; done).
  assert (msg <> [] -> fr_more f = true /\ is_message msg = true) as Hnext by (destruct msg; [done|]; intros _; cbn [is_message] in Hmsg; by apply andb_true_iff in Hmsg).
  destruct Hcase as [(-> & -> & -> & Hat)|(-> & -> & Hmid)].
  - exists w. unfold router_xrecv, router_more_in. cbn.
    destruct (fr_more f) eqn:E; eexists; (split; [done|]); (split; [|done]).
    + destruct msg as [|g msg]; [cbn [is_message] in Hmsg; by rewrite E in Hmsg|]. destruct Hnext as [_ Hm]; [done|].
      by split_and!; [done|done|right].
    + rewrite Hlast in * by done. done.
  - destruct (fq_recv_mid w q p f msg Hmid) as (w1 & q1 & Hrun & _ & Hat & _).
    exists w1. unfold router_xrecv, router_recvpipe. cbn [rt_in rt_fq ri_prefetched]. rewrite (fetch_plain _ _ _ _ _ _ _ Hrun Hf).
    cbn [mbind option_bind ri_more]. unfold router_more_in. cbn.
    destruct (fr_more f) eqn:E; eexists; (split; [done|]); (split; [|split; [done|by apply (fq_recvpipe_reader _ _ _ _ _ Hrun)]]).
    + destruct msg as [|g msg]; [cbn [is_message] in Hmsg; by rewrite E in Hmsg|]. destruct Hnext as [_ Hm]; [done|].
      by split_and!; [done|done|right].
    + rewrite Hlast in * by done. done.
Qed.

(** ** Sending by routing id *)

Definition opts_plain t : Prop := rop_raw_socket (rt_opt t) = false /\ rop_options_raw (rt_opt t) = false.

(** The frames [pend] of a message to pipe [p] were written. *)
Definition rt_writing w t p (pend : list frame) : Prop :=
  rt_out t = ROut (Some p) true /\ op_room w p = true /\ op_pending w p = pend /\ opts_plain t.

Lemma xsend_id w t p a id : rt_out t = ROut None false -> lookup_out_pipe (rt_ids t) id = Some (p, a) -> op_room w p = true ->
  opts_plain t -> exists w', router_xsend w t (id_frame id) = Some (w', rt_set_out t (ROut (Some p) true), RtOk) /\
    rt_writing w' (rt_set_out t (ROut (Some p) true)) p (op_pending w p) /\ out_same w w' /\ in_same w w'.
Proof.
  intros Ho Hl Hr Hopt. unfold router_xsend, router_send_id. rewrite Ho. cbn [ro_more ro_current negb].
  change (fr_more (id_frame id)) with true. cbn [negb]. change (fr_body (id_frame id)) with id. rewrite Hl.
  rewrite bool_decide_eq_true_2 by done. destruct (op_check_write_ok w p) as (w' & Hrun & Hw). rewrite Hrun. cbn [mbind option_bind]. rewrite Hr.
  destruct (Hw p) as (H1 & _ & H3). exists w'. split; [done|]. split; [|split].
  - unfold rt_writing. split_and!; try done. congruence.
  - intros p'. by destruct (Hw p') as (? & ? & _).
  - exact (dx_check_write _ _ _ _ Hrun).
Qed.

Lemma xsend_part w t p pend f : rt_writing w t p pend -> exists w' t', router_xsend w t f = Some (w', t', RtOk) /\ in_same w w' /\
  (forall p', p' <> p -> op_sent w' p' = op_sent w p' /\ op_pending w' p' = op_pending w p') /\ rt_in t' = rt_in t /\ rt_fq t' = rt_fq t /\
  rt_opt t' = rt_opt t /\ rt_ids t' = rt_ids t /\
  if fr_more f then rt_writing w' t' p (pend ++ [f]) /\ op_sent w' p = op_sent w p
  else rt_out t' = ROut None false /\ op_sent w' p = op_sent w p ++ pend ++ [f] /\ op_pending w' p = [].
Proof.
  intros (Ho & Hr & Hp & Hopt1 & Hopt2). unfold router_xsend. rewrite Ho, Hopt2. cbn [ro_more ro_current negb]. rewrite Hopt1. cbn [andb].
  destruct (op_write_ok w p f) as (w1 & Hrun & Hpn & Hst & Hroom). rewrite Hrun. cbn [mbind option_bind]. rewrite Hr. cbn [negb].
  pose proof (dx_write _ _ _ _ _ Hrun) as Hin. destruct (fr_more f) eqn:Hf; cbn [negb].
  - eexists w1, _. split; [done|]. split; [done|]. split; [intros p' Hne; by rewrite Hst, Hpn, decide_False|]. do 4 (split; [done|]).
    split; [|by rewrite Hst]. unfold rt_writing, opts_plain. split_and!; try done; [by rewrite Hroom; [|right; right]|].
    by rewrite Hpn, decide_True, Hr, Hp.
  - destruct (op_flush_ok w1 p) as (w2 & Hrun2 & Hs2 & Hp2 & _). rewrite Hrun2. cbn [mbind option_bind]. eexists w2, _. split; [done|].
    split_and!; try done.
    + apply (in_same_trans _ w1); [exact Hin|exact (dx_flush _ _ _ Hrun2)].
    + intros p' Hne. by rewrite Hs2, Hp2, !decide_False, Hst, Hpn, decide_False.
    + by rewrite Hs2, decide_True, Hst, Hpn, decide_True, Hr, Hp.
    + by rewrite Hp2, decide_True.
Qed.

Lemma fq_at_in_same w w' q p msg : fq_at w q p msg -> in_same w w' -> fq_at w' q p msg.
Proof.
  intros Hat Hin. destruct msg; cbn [fq_at] in *; [by apply (between_in_same w)|].
  destruct Hat as (H1 & H2 & H3 & H4 & H5 & (rest & H6 & H7) & H8). destruct (Hin p) as [Hp _]. split_and!; try done.
  - exists rest. by rewrite Hp.
  - intros p' Hne Ha. destruct (Hin p') as [-> _]. auto.
Qed.

Lemma reading_in_same w w' t t' p fs : rt_reading w t p fs -> in_same w w' -> rt_in t' = rt_in t -> rt_fq t' = rt_fq t -> rt_reading w' t' p fs.
Proof.
  intros (H1 & H2 & H3) Hin Hi Hq. unfold rt_reading. rewrite Hi, Hq. split_and!; try done. destruct fs as [|f msg]; [done|].
  destruct H3 as [(? & ? & ? & ?)|(? & ? & Hm)]; [left|right]; split_and!; try done; [by apply (fq_at_in_same w)|].
  by apply (fq_at_in_same w w' _ _ (f :: msg)).
Qed.

Lemma writing_reader w w' t t' p pend : rt_writing w t p pend -> reader_only w w' -> dx_open w p = true -> rt_rest_same t t' -> rt_writing w' t' p pend.
Proof.
  intros (H1 & H2 & H3 & H4) (Ho & _ & Hro) Hp (Hout & Hopt & _). unfold rt_writing, opts_plain in *. rewrite Hout, Hopt.
  split_and!; try done; [by rewrite Hro|by destruct (Ho p) as [-> _]|apply H4|apply H4].
Qed.

(** ** The envelope is copied *)

Definition is_label f : bool := fr_more f && negb (bool_decide (fr_body f = [])).
Definition is_bottom f : bool := fr_more f && bool_decide (fr_body f = []).

(** What copying the envelope leaves alone. *)
Definition labels_frame w t w' t' : Prop :=
  (forall p, op_sent w' p = op_sent w p) /\ rt_opt t' = rt_opt t /\ rt_ids t' = rt_ids t /\ (forall p, dx_open w' p = dx_open w p).

(** One frame is received and written to the reply. *)
Lemma label_step w t p f msg pend : rt_reading w t p (f :: msg) -> rt_writing w t p pend -> fr_more f = true -> fr_is_routing_id f = false ->
  dx_open w p = true -> exists w1 t1 w2 t2, router_xrecv w t = Some (w1, t1, Some f) /\ router_xsend w1 t1 f = Some (w2, t2, RtOk) /\
    rt_reading w2 t2 p msg /\ rt_writing w2 t2 p (pend ++ [f]) /\ labels_frame w t w2 t2 /\
    (forall p', p' <> p -> op_pending w2 p' = op_pending w p').
Proof.
  intros Hrd Hwr Hf Hid Hop. destruct (xrecv_next w t p f msg Hrd Hid) as (w1 & t1 & Hrecv & Hrd1 & Hsame & Hro).
  pose proof (writing_reader _ _ _ _ _ _ Hwr Hro Hop Hsame) as Hwr1.
  destruct (xsend_part w1 t1 p pend f Hwr1) as (w2 & t2 & Hsend & Hin & Ho & Hi & Hq & Hopt & Hids & Hres). rewrite Hf in Hres.
  exists w1, t1, w2, t2. destruct Hres as [Hwr2 Hs2]. destruct Hro as (Hro & Hopen & _). destruct Hsame as (_ & Hopt1 & Hids1). split_and!; try done.
  - apply (reading_in_same w1 w2 t1); try done. destruct msg as [|g msg]; [|done].
    destruct Hrd as (_ & Hmsg & _). cbn [is_message] in Hmsg. by rewrite Hf in Hmsg.
  - unfold labels_frame. split_and!; [|congruence|congruence|intros p'; destruct (Hin p') as [_ ->]; apply Hopen].
    intros p'. destruct (Hro p') as [_ <-]. destruct (decide (p' = p)) as [->|Hne]; [done|]. by destruct (Ho p' Hne) as [-> _].
  - intros p' Hne. destruct (Ho p' Hne) as [_ ->]. by destruct (Hro p') as [-> _].
Qed.

Lemma labels_spec labels : forall (fuel : nat) w t p bottom body pend, rt_reading w t p (labels ++ bottom :: body) -> rt_writing w t p pend ->
  Forall (fun f => is_label f = true) labels -> is_bottom bottom = true -> no_routing_id (labels ++ bottom :: body) -> dx_open w p = true ->
  (length labels < fuel)%nat -> exists w' t', rep_labels fuel w t = Some (w', t', true) /\ rt_reading w' t' p body /\
    rt_writing w' t' p (pend ++ labels ++ [bottom]) /\ labels_frame w t w' t' /\ (forall p', p' <> p -> op_pending w' p' = op_pending w p').
Proof.
  induction labels as [|f labels IH]; intros fuel w t p bottom body pend Hrd Hwr Hall Hbot Hid Hop Hf; cbn [app] in *.
  - destruct fuel as [|fuel]; [simpl in Hf; lia|]. cbn [rep_labels]. apply andb_true_iff in Hbot as [Hm Hb]. apply Forall_cons_1 in Hid as [Hid _].
    destruct (label_step w t p bottom body pend Hrd Hwr Hm Hid Hop) as (w1 & t1 & w2 & t2 & -> & Hsend & Hrd2 & Hwr2 & Hfr & Hpn).
    cbn [mbind option_bind]. rewrite Hm, Hsend. cbn [mbind option_bind]. rewrite Hb. by exists w2, t2.
  - destruct fuel as [|fuel]; [simpl in Hf; lia|]. cbn [rep_labels]. apply Forall_cons_1 in Hall as [Hl Hall]. apply andb_true_iff in Hl as [Hm Hne].
    apply negb_true_iff in Hne. apply Forall_cons_1 in Hid as [Hid Hids].
    destruct (label_step w t p f (labels ++ bottom :: body) pend Hrd Hwr Hm Hid Hop) as (w1 & t1 & w2 & t2 & -> & Hsend & Hrd2 & Hwr2 & Hfr & Hpn).
    cbn [mbind option_bind]. rewrite Hm, Hsend. cbn [mbind option_bind]. rewrite Hne. destruct Hfr as (F1 & F2 & F3 & F4).
    destruct (IH fuel w2 t2 p bottom body (pend ++ [f])) as (w3 & t3 & -> & Hrd3 & Hwr3 & (G1 & G2 & G3 & G4) & Hpn3); try done; [by rewrite F4|simpl in Hf; lia|].
    exists w3, t3. split_and!; try done.
    + by rewrite <- app_assoc in Hwr3.
    + split; [intros p'; by rewrite G1|]. split; [congruence|]. split; [congruence|]. intros p'. by rewrite G4.
    + intros p' Hp'. by rewrite Hpn3, Hpn.
Qed.

(** ** The REP socket *)

Fixpoint rep_recv_n (n : nat) w (s : rep) : option (W * rep * list (rep_rc * option frame)) :=
  match n with
  | O => Some (w, s, [])
  | S n' =>
      let* (w, s, rc, m) := rep_xrecv w s in
      let* (w, s, rs) := rep_recv_n n' w s in
      Some (w, s, (rc, m) :: rs)
  end.

Fixpoint rep_send_all w (s : rep) (fs : list frame) : option (W * rep * list rep_rc) :=
  match fs with
  | [] => Some (w, s, [])
  | f :: fs' =>
      let* (w, s, rc) := rep_xsend w s f in
      let* (w, s, rcs) := rep_send_all w s fs' in
      Some (w, s, rc :: rcs)
  end.

(** The socket waits for a request. *)
Definition rep_idle w (s : rep) : Prop :=
  rp_sending_reply s = false /\ rp_request_begins s = true /\ rt_idle_in w (rp_router s) /\
  rt_out (rp_router s) = ROut None false /\ opts_plain (rp_router s).

(** The body of a request, from the state after its envelope. *)
Lemma rep_body body : forall w t p pend, rt_reading w t p body -> rt_writing w t p pend -> no_routing_id body -> dx_open w p = true ->
  exists w' t', rep_recv_n (length body) w (Rep t false false) = Some (w', Rep t' true true, (fun f => (PrOk, Some f)) <$> body) /\
    rt_idle_in w' t' /\ rt_writing w' t' p pend /\ out_same w w' /\ rt_opt t' = rt_opt t /\ rt_ids t' = rt_ids t.
Proof.
  induction body as [|f body IH]; intros w t p pend Hrd Hwr Hid Hop; [by destruct Hrd as (_ & ? & _)|].
  apply Forall_cons_1 in Hid as [Hf Hid]. destruct (xrecv_next w t p f body Hrd Hf) as (w1 & t1 & Hrecv & Hrd1 & Hsame & Hro).
  pose proof (writing_reader _ _ _ _ _ _ Hwr Hro Hop Hsame) as Hwr1. cbn [length rep_recv_n]. unfold rep_xrecv.
  cbn [rp_sending_reply rp_request_begins rp_router mbind option_bind negb]. rewrite Hrecv. cbn [mbind option_bind].
  destruct Hro as (Hro & Hopen & _). destruct Hsame as (_ & Hopt & Hids). destruct Hrd as (_ & Hmsg & _).
  destruct body as [|g body]; cbn [is_message rt_reading_or_idle] in *.
  - rewrite Hmsg. cbn [mbind option_bind length rep_recv_n]. by exists w1, t1.
  - apply andb_true_iff in Hmsg as [Hm Hmsg]. rewrite Hm. cbn [negb mbind option_bind].
    destruct (IH w1 t1 p pend) as (w2 & t2 & -> & Hi2 & Hwr2 & Ho2 & Hopt2 & Hids2); try done; [by rewrite Hopen|].
    cbn [mbind option_bind]. exists w2, t2. split_and!; try done; [by apply (out_same_trans _ w1)|congruence|congruence].
Qed.

Lemma rep_reply reply : forall w t p pend, rt_idle_in w t -> rt_writing w t p pend -> is_message reply = true ->
  exists w' t', rep_send_all w (Rep t true true) reply = Some (w', Rep t' false true, replicate (length reply) PrOk) /\
    rep_idle w' (Rep t' false true) /\ op_sent w' p = op_sent w p ++ pend ++ reply /\ op_pending w' p = [] /\
    (forall p', p' <> p -> op_sent w' p' = op_sent w p') /\ in_same w w' /\ rt_ids t' = rt_ids t.
Proof.
  induction reply as [|f reply IH]; intros w t p pend Hi Hwr Hmsg; [done|]. cbn [rep_send_all]. unfold rep_xsend. cbn [rp_sending_reply negb rp_router rp_request_begins].
  destruct (xsend_part w t p pend f Hwr) as (w1 & t1 & -> & Hin & Ho & Hti & Htq & Hopt & Hids & Hres). cbn [mbind option_bind].
  assert (rt_idle_in w1 t1) as Hi1.
  { destruct Hi as (H1 & H2 & H3 & H4). unfold rt_idle_in. rewrite Hti, Htq. split_and!; try done. by apply (between_in_same w). }
  destruct reply as [|g reply]; cbn [is_message] in Hmsg.
  - apply negb_true_iff in Hmsg. rewrite Hmsg in *. cbn [negb mbind option_bind rep_send_all]. destruct Hres as (H1 & H2 & H3).
    exists w1, t1. split; [done|]. split; [|split_and!; try done; intros p' Hne; by destruct (Ho p' Hne)].
    unfold rep_idle, opts_plain. cbn [rp_router rp_sending_reply rp_request_begins]. rewrite Hopt. split_and!; try done; apply Hwr.
  - apply andb_true_iff in Hmsg as [Hm Hmsg]. rewrite Hm in *. cbn [negb]. destruct Hres as [Hwr1 Hs1].
    destruct (IH w1 t1 p (pend ++ [f]) Hi1 Hwr1 Hmsg) as (w2 & t2 & -> & Hid2 & Hs2 & Hp2 & Ho2 & Hin2 & Hids2). cbn [mbind option_bind].
    exists w2, t2. split_and!; try done.
    + by rewrite Hs2, Hs1, <- app_assoc.
    + intros p' Hne. rewrite Ho2 by done. by destruct (Ho p' Hne).
    + by apply (in_same_trans _ w1).
    + congruence.
Qed.

(** The next message is a request from pipe [p] that can be answered. *)
Definition next_request w (s : rep) p (labels : list frame) bottom (body rest : list frame) : Prop :=
  let t := rp_router s in
  (exists w1 q1 f, fq_recvpipe w (rt_fq t) = Some (w1, q1, Some (p, f))) /\ ip_queue w p = (labels ++ bottom :: body) ++ rest /\
  Forall (fun f => is_label f = true) labels /\ is_bottom bottom = true /\ is_message body = true /\ no_routing_id (labels ++ bottom :: body) /\
  pipe_routing_id (rt_ids t) p <> [] /\ (exists a, lookup_out_pipe (rt_ids t) (pipe_routing_id (rt_ids t) p) = Some (p, a)) /\ op_room w p = true /\ op_pending w p = [] /\ all_open w.

Lemma labels_message labels bottom body : Forall (fun f => is_label f = true) labels -> is_bottom bottom = true -> is_message body = true ->
  is_message (labels ++ bottom :: body) = true.
Proof.
  intros Hl [Hb _]%andb_true_iff Hm. induction labels as [|f labels IH]; cbn [app].
  - destruct body; [done|]. cbn [is_message]. by rewrite Hb.
  - apply Forall_cons_1 in Hl as [[Hf _]%andb_true_iff Hl]. specialize (IH Hl). destruct (labels ++ bottom :: body) as [|g l] eqn:E; [done|].
    change (fr_more f && is_message (g :: l) = true). by rewrite Hf, IH.
Qed.

Lemma fq_frames_in_same w w' q : in_same w w' -> fq_frames w' q = fq_frames w q.
Proof. apply frames_in_same. Qed.

(** The envelope of the next request is kept for the reply. *)
Lemma request_labels w s p labels bottom body rest : rep_idle w s -> next_request w s p labels bottom body rest ->
  exists w' t', rep_labels (rep_fuel w (rp_router s)) w (rp_router s) = Some (w', t', true) /\ rt_reading w' t' p body /\
    rt_writing w' t' p (labels ++ [bottom]) /\ sent_same w w' /\ all_open w' /\ rt_ids t' = rt_ids (rp_router s).
Proof.
  intros (_ & _ & Hi & Ho & Hopt) ((w1 & q1 & f & Hrun) & Hq & Hl & Hb & Hm & Hid & Hnz & (a & Hlook) & Hroom & Hpend & Hopen).
  set (t := rp_router s) in *. pose proof (labels_message _ _ _ Hl Hb Hm) as Hmsg.
  assert (exists msg, labels ++ bottom :: body = f :: msg) as [msg Hf].
  { destruct Hi as (_ & _ & _ & Hbt). destruct (fq_recv_start w (rt_fq t) Hbt) as (? & ? & m & Hrun2 & _ & Hres). rewrite Hrun in Hrun2. simplify_eq.
    destruct Hres as (_ & msg' & rest' & _ & _ & Hq' & _). rewrite Hq in Hq'. destruct labels; cbn [app] in *; injection Hq' as <- _; by eexists. }
  rewrite Hf in Hq, Hmsg. pose proof Hid as Hid'. rewrite Hf in Hid'.
  destruct (xrecv_start w t p f msg rest w1 q1 Hi Hrun Hq Hmsg Hid') as (t1 & Hrecv & Hrd & Hsame & Hro & Hq1 & _).
  destruct Hsame as (Hout1 & Hopt1 & Hids1). destruct Hro as (Hro & Hopen1 & Hroom1).
  destruct (xsend_id w1 t1 p a (pipe_routing_id (rt_ids t) p)) as (w2 & Hsend & Hwr & Hos & Hin); [congruence|congruence|by rewrite Hroom1|unfold opts_plain; by rewrite Hopt1|].
  assert (op_pending w1 p = []) as Hp1 by (by destruct (Hro p) as [-> _]). rewrite Hp1 in Hwr.
  assert (rt_reading w2 (rt_set_out t1 (ROut (Some p) true)) p (labels ++ bottom :: body)) as Hrd2 by (rewrite Hf; by apply (reading_in_same w1 w2 t1)).
  assert (exists fuel, rep_fuel w t = S fuel /\ (length labels < fuel)%nat) as (fuel & Hfuel & Hlen).
  { exists (2 + 2 * fq_frames w (rt_fq t))%nat. split; [unfold rep_fuel; lia|].
    destruct Hrd2 as (_ & _ & Hc). rewrite Hf in Hc. destruct Hi as (_ & _ & _ & Hbt).
    destruct (fq_recv_start w (rt_fq t) Hbt) as (? & ? & m & Hrun2 & _ & Hres). rewrite Hrun in Hrun2. simplify_eq.
    destruct Hres as (_ & msg' & rest' & Hmsg' & _ & Hq' & _ & _ & Hat & Hfr & _). rewrite Hq in Hq'. cbn [app] in Hq'. injection Hq' as Hq'.
    destruct (is_message_app_inj f msg msg' rest rest' Hmsg Hmsg' Hq') as [-> ->]. pose proof (fq_at_length _ _ _ _ Hat).
    assert (length (labels ++ bottom :: body) = S (length msg')) as Hlen by (by rewrite Hf). rewrite length_app in Hlen. simpl in Hlen. lia. }
  rewrite Hfuel. cbn [rep_labels]. rewrite Hrecv. cbn [mbind option_bind]. change (fr_more (id_frame _)) with true. rewrite Hsend. cbn [mbind option_bind].
  destruct (labels_spec labels fuel w2 _ p bottom body [] Hrd2 Hwr Hl Hb Hid) as (w3 & t3 & Hres & Hrd3 & Hwr3 & (F1 & F2 & F3 & F4) & _);
    [destruct (Hin p) as [_ ->]; by rewrite Hopen1|lia|].
  rewrite (bool_decide_eq_false_2 _ Hnz). rewrite Hres. exists w3, t3. split_and!; try done.
  - intros p'. rewrite F1. destruct (Hos p') as [_ ->]. by destruct (Hro p') as [_ ->].
  - intros p'. rewrite F4. destruct (Hin p') as [_ ->]. by rewrite Hopen1.
  - by rewrite F3.
Qed.

(** A request is received and answered. *)
Definition request_answered w (s : rep) p (labels : list frame) bottom (body : list frame) : Prop := exists w' s',
  rep_recv_n (length body) w s = Some (w', s', (fun f => (PrOk, Some f)) <$> body) /\
  rep_xrecv w' s' = Some (w', s', PrEfsm, None) /\ sent_same w w' /\
  forall reply, is_message reply = true -> exists w2 s2,
    rep_send_all w' s' reply = Some (w2, s2, replicate (length reply) PrOk) /\
    op_sent w2 p = op_sent w p ++ labels ++ bottom :: reply /\ (forall p', p' <> p -> op_sent w2 p' = op_sent w p') /\
    rep_idle w2 s2 /\ rt_ids (rp_router s2) = rt_ids (rp_router s).

Lemma rep_request_spec w s p labels bottom body rest : rep_idle w s -> next_request w s p labels bottom body rest ->
  request_answered w s p labels bottom body.
Proof.
  intros Hidle Hnext. destruct (request_labels _ _ _ _ _ _ _ Hidle Hnext) as (w1 & t1 & Hlab & Hrd & Hwr & Hs1 & Hop & Hids).
  pose proof Hnext as (_ & _ & _ & _ & Hm & Hid & _). apply Forall_app in Hid as [_ Hid]. apply Forall_cons_1 in Hid as [_ Hid].
  destruct (rep_body body w1 t1 p _ Hrd Hwr Hid (Hop p)) as (w2 & t2 & Hrun & Hi2 & Hwr2 & Ho2 & _ & Hids2).
  destruct Hidle as (Hsend & Hbeg & _). exists w2, (Rep t2 true true). split_and!.
  - destruct body as [|f body]; [done|]. cbn [length rep_recv_n] in Hrun |- *.
    assert (rep_xrecv w s = rep_xrecv w1 (Rep t1 false false)) as ->; [|exact Hrun].
    unfold rep_xrecv at 1. rewrite Hsend, Hbeg, Hlab. done.
  - done.
  - intros p'. destruct (Ho2 p') as [_ ->]. apply Hs1.
  - intros reply Hr. destruct (rep_reply reply w2 t2 p _ Hi2 Hwr2 Hr) as (w3 & t3 & -> & Hid3 & Hs3 & _ & Ho3 & _ & Hids3).
    assert (forall p', op_sent w2 p' = op_sent w p') as Hs2 by (intros p'; destruct (Ho2 p') as [_ ->]; apply Hs1).
    exists w3, (Rep t3 false true). split_and!; try done.
    + by rewrite Hs3, Hs2, <- app_assoc.
    + intros p' Hne. by rewrite Ho3, Hs2.
    + cbn [rp_router]. congruence.
Qed.

End rep.

(** a REP socket that waits for a request and whose next message is one (labels that are not empty, an empty frame, a body) from a
    peer it knows and can write to returns the parts of the body, one per call, and then refuses to receive (EFSM); every reply sent
    is accepted part by part and goes to that peer, whole, after the labels and the empty frame of the request; nothing is sent to
    the other peers, and the socket waits for the next request. *)
Theorem rep_request_answered {W} {IP : InPipes W} {OP : OutPipes W} {DX : Duplex W} {DL : DuplexLaws W} {RP : RouterPipes W}
    (w : W) (s : rep) (p : Z) (labels : list frame) (bottom : frame) (body rest : list frame) :
  rep_idle w s -> next_request w s p labels bottom body rest -> request_answered w s p labels bottom body.
Proof. apply rep_request_spec. Qed.

(** ** REQ and REP together *)

Section call.
Context {W : Type} {IP : InPipes W} {OP : OutPipes W} {DX : Duplex W} {DL : DuplexLaws W} {RP : RouterPipes W}.
Implicit Types (w : W) (r : req) (s : rep) (p : Z) (msg : list frame).

Lemma envelope_labels ids id : exists labels, req_envelope ids id = labels ++ [req_bottom] /\ Forall (fun f => is_label f = true) labels.
Proof. exists (if ids then [req_id_frame id] else []). split; [by destruct ids|]. destruct ids; by repeat constructor. Qed.

(** A reply with the envelope of the request is the right one. *)
Lemma verdict_envelope r p reply : rq_reply_pipe r = Some p ->
  req_verdict r p (req_envelope (rq_request_id_frames r) (rq_request_id r) ++ reply) = Some reply.
Proof.
  intros Hp. unfold req_verdict, right_pipe. rewrite Hp, (bool_decide_eq_true_2 (Some p = Some p)) by done. rewrite orb_true_r. cbn [negb].
  unfold req_envelope. destruct (rq_request_id_frames r); cbn [app mbind option_bind]; [|done].
  change (fr_more (req_id_frame (rq_request_id r))) with true. by rewrite bool_decide_eq_true_2.
Qed.

Lemma message_prefix a sk x y : is_message a = true -> Forall (fun m => is_message m = true) sk -> a ++ x = concat sk ++ y ->
  (sk = [] /\ a ++ x = y) \/ exists sk', sk = a :: sk' /\ x = concat sk' ++ y.
Proof.
  intros Ha Hsk E. destruct sk as [|m sk]; [by left|]. right. apply Forall_cons_1 in Hsk as [Hm _]. cbn [concat] in E.
  destruct a as [|f a]; [done|]. destruct m as [|g m]; [done|]. rewrite <- app_assoc in E. cbn [app] in E. injection E as <- E.
  destruct (is_message_app_inj f a m _ _ Ha Hm E) as [-> ->]. by exists sk.
Qed.

(** The reply is what is received, when it is the first message of the pipe. *)
Lemma reply_first w r p body rest : req_fsm r = (true, true) -> fq_between w (de_fq (rq_dealer r)) -> rq_reply_pipe r = Some p ->
  fq_is_active (de_fq (rq_dealer r)) p -> is_message body = true ->
  ip_queue w p = (req_envelope (rq_request_id_frames r) (rq_request_id r) ++ body) ++ rest ->
  exists w' r', req_recv_n (length body) w r = Some (w', r', (fun f => (XOk, Some f)) <$> body) /\ req_fsm r' = (false, true) /\ ip_queue w' p = rest.
Proof.
  intros Hfsm Hbt Hp Hact Hbody Hq. set (m := req_envelope _ _ ++ body) in *. pose proof (verdict_envelope r p body Hp) as Hv. fold m in Hv.
  assert (is_message m = true) as Hm.
  { destruct (envelope_labels (rq_request_id_frames r) (rq_request_id r)) as (labels & He & Hl). unfold m. rewrite He, <- app_assoc. by apply labels_message. }
  assert (forall sk y, ip_queue w p = concat sk ++ y -> Forall (fun x => is_message x = true /\ req_verdict r p x = None) sk -> sk = [] /\ m ++ rest = y) as Hsk.
  { intros sk y E Hall. rewrite Hq in E. destruct (message_prefix m sk rest y Hm) as [?|(sk' & -> & _)]; [|done|done|].
    - revert Hall. apply Forall_impl. by intros x [? _].
    - apply Forall_cons_1 in Hall as [[_ Hn] _]. congruence. }
  destruct (reply_spec w r Hfsm Hbt) as [(w' & r' & _ & Hc & Hnil & _)|(w1 & w' & r' & p1 & msg & body1 & rest1 & Hc & Hmsg & Hq1 & Hv1 & Hrun & _ & Hq' & _ & Hfsm' & _)].
  - destruct (Hc p) as (sk & E & Hall). destruct (Hsk sk _ E Hall) as [_ E2]. rewrite (Hnil p Hact) in E2. by destruct m.
  - assert (p1 = p) as ->.
    { unfold req_verdict, right_pipe in Hv1. rewrite Hp in Hv1. destruct (bool_decide_reflect (Some p = Some p1)); [congruence|done]. }
    destruct (Hc p) as (sk & E & Hall). destruct (Hsk sk _ E Hall) as [_ E2]. rewrite Hq1 in E2.
    destruct m as [|f m]; [done|]. destruct msg as [|g msg]; [done|]. cbn [app] in E2. injection E2 as <- E2.
    destruct (is_message_app_inj f m msg rest rest1 Hm Hmsg E2) as [<- <-]. rewrite Hv in Hv1. injection Hv1 as <-. by exists w', r'.
Qed.

End call.

(** C26: a call over a REQ and a REP socket.  The request a REQ socket sends, delivered to a waiting REP socket as its next message, is
    received there part by part without the envelope; whatever is sent as the reply goes back to that pipe so that, when the REQ
    socket finds it as the next message of the pipe it sent the request to, the parts of the reply are what it receives, and the
    socket may send again. *)
Theorem req_rep_call {W} {IP : InPipes W} {OP : OutPipes W} {DX : Duplex W} {DL : DuplexLaws W} {RP : RouterPipes W}
    (wq : W) (r : req) (request reply : list frame) :
  may_send r = true -> ready_to_send wq r -> all_open wq -> is_message request = true -> is_message reply = true ->
  exists wq' r' p labels, req_send_all wq r request = Some (wq', r', replicate (length request) XOk) /\
    op_sent wq' p = op_sent wq p ++ (labels ++ [req_bottom]) ++ request /\
    (forall (wp : W) (s : rep) pp rest, rep_idle wp s -> next_request wp s pp labels req_bottom request rest ->
       exists wp' s' wp2 s2, rep_recv_n (length request) wp s = Some (wp', s', (fun f => (PrOk, Some f)) <$> request) /\
         rep_send_all wp' s' reply = Some (wp2, s2, replicate (length reply) PrOk) /\
         op_sent wp2 pp = op_sent wp pp ++ labels ++ req_bottom :: reply) /\
    (forall (w3 : W) rest, fq_between w3 (de_fq (rq_dealer r')) -> fq_is_active (de_fq (rq_dealer r')) p ->
       ip_queue w3 p = (labels ++ req_bottom :: reply) ++ rest ->
       exists w4 r4, req_recv_n (length reply) w3 r' = Some (w4, r4, (fun f => (XOk, Some f)) <$> reply) /\ req_fsm r4 = (false, true)).
Proof.
  intros Hmay Hready Hopen Hreq Hrep. destruct (request_spec wq r request Hmay Hready Hopen Hreq) as (w' & r' & p & Hrun & Hsent).
  destruct Hsent as (Hs & _ & Hfsm & Hp & Hid & Hids & _). destruct (envelope_labels (rq_request_id_frames r) (next_id r)) as (labels & He & _).
  exists w', r', p, labels. rewrite He in Hs. split_and!; try done.
  - intros wp s pp rest Hidle Hnext. destruct (rep_request_spec _ _ _ _ _ _ _ Hidle Hnext) as (wp' & s' & H1 & _ & _ & H2).
    destruct (H2 reply Hrep) as (wp2 & s2 & H3 & H4 & _). by exists wp', s', wp2, s2.
  - intros w3 rest Hbt Hact Hq. destruct (reply_first w3 r' p reply rest Hfsm Hbt Hp Hact Hrep) as (w4 & r4 & H1 & H2 & _); [|by exists w4, r4].
    rewrite Hq, Hid, Hids, He. by rewrite <- !app_assoc.
Qed.

(** ** Concrete runs *)

(** Pipes 1 and 2 with the routing ids [10] and [20]; [room1] messages fit into pipe 1. *)
Definition rep_example_pipes (room1 : nat) (q1 q2 : list frame) : dpipes :=
  DPipes (list_to_map [(1, Frame type_vsm 0 [10] :: q1); (2, Frame type_vsm 0 [20] :: q2)]) (list_to_map [(1, (room1, [], [])); (2, (2%nat, [], []))]) ∅.

Definition rep_attach (w : dpipes) : option (dpipes * rep) :=
  let* (w, t) := router_xattach_pipe w (router_new 5) 1 false in
  let* (w, t) := router_xattach_pipe w t 2 false in
  Some (w, Rep t false true).

Definition rep_example : rep :=
  Eval vm_compute in match rep_attach (rep_example_pipes 2 [] []) with Some (_, s) => s | None => rep_new 0 end.

(** The pipes after the routing ids were read, with a request on pipe 1. *)
Definition rep_example_request : list frame := [req_id_frame 42; req_bottom; body_part 7].
Definition rep_example_world : dpipes :=
  DPipes (list_to_map [(1, rep_example_request); (2, [])]) (list_to_map [(1, (2%nat, [], [])); (2, (2%nat, [], []))]) ∅.

Lemma rep_example_idle : rep_idle rep_example_world rep_example.
Proof.
  unfold rep_idle, rt_idle_in, fq_between, opts_plain. split_and!; try done.
  - constructor; [constructor|vm_compute; lia|vm_compute; lia]; simpl; [repeat constructor; set_solver|].
    intros [|[|]] x; simpl; intros [= <-]; reflexivity.
  - intros p _. destruct (decide (p = 1)) as [->|H1]; [exists [rep_example_request]; split; [vm_compute; reflexivity|by repeat constructor]|].
    exists []. split; [|done]. destruct (decide (p = 2)) as [->|H2]; [vm_compute; reflexivity|].
    cbn. simpl. by rewrite !lookup_insert_ne, lookup_empty by done.
Qed.

Lemma rep_example_next : next_request rep_example_world rep_example 1 [req_id_frame 42] req_bottom [body_part 7] [].
Proof.
  unfold next_request. split_and!; try done; try (by repeat constructor).
  - destruct (fq_recvpipe rep_example_world (rt_fq (rp_router rep_example))) as [[[w1 q1] [[p f]|]]|] eqn:E; vm_compute in E; try discriminate.
    injection E as <- <- <- <-. by eexists _, _, _.
  - by exists true.
Qed.

Lemma rep_request_answered_witness :
  rep_idle rep_example_world rep_example /\ exists w' s', rep_recv_n 1 rep_example_world rep_example = Some (w', s', [(PrOk, Some (body_part 7))]).
Proof.
  split; [exact rep_example_idle|].
  destruct (rep_request_answered rep_example_world rep_example 1 _ _ _ _ rep_example_idle rep_example_next) as (w' & s' & H & _).
  exists w', s'. exact H.
Defined.

Lemma req_rep_call_witness : exists w' r' p labels,
  req_send_all (req_example_pipes ∅) req_example [body_part 7] = Some (w', r', [XOk]) /\ op_sent w' p = [] ++ (labels ++ [req_bottom]) ++ [body_part 7].
Proof.
  destruct (req_rep_call (req_example_pipes ∅) req_example [body_part 7] [body_part 8] eq_refl (req_example_ready ∅) req_example_open eq_refl eq_refl)
    as (w' & r' & p & labels & Hrun & Hs & _).
  exists w', r', p, labels. split; [exact Hrun|]. rewrite Hs. f_equal.
  cbn. unfold credit_of, req_example_pipes. cbn [dp_out]. destruct (decide (p = 1)) as [->|H1]; [done|].
  destruct (decide (p = 2)) as [->|H2]; [done|]. simpl. by rewrite !lookup_insert_ne, lookup_empty by done.
Defined.

(** A malformed request from pipe 1, which takes no message, and then a request from pipe 2. *)
Definition rep_stuck : option (list (rep_rc * option frame) * list rep_rc * list frame) :=
  let* (w, s) := rep_attach (rep_example_pipes 0 [Frame type_vsm flag_more [1]; body_part 1] [req_bottom; body_part 2]) in
  let* (w, s, rs) := rep_recv_n 1 w s in
  let* (w, s, rcs) := rep_send_all w s [body_part 3] in
  Some (rs, rcs, op_sent w 2).

(** a malformed request from a peer whose pipe is full makes the REP socket lose the reply to the next request.  [rollback] only ends
    the outgoing message when it has a pipe; the routing id of the next request is then taken for a part of that message, the
    labels are dropped, and so is the reply, although it was accepted and the peer's pipe has room. *)
Theorem rep_malformed_loses_reply : rep_stuck = Some ([(PrOk, Some (body_part 2))], [PrOk], []).
Proof. vm_compute. reflexivity. Qed.
