(* ===== verification/RouterProps.v ===== *)
(** * The peers of a ROUTER socket (src/src/router.cpp)

    The states a ROUTER reaches by attaching, identifying and losing
    peers and by sending; in all of them the table of routing ids and the
    pipes agree. *)

From S2P Require Import Prelude Array Frame Fq Wire Duplex Router.

(** ** The table *)

(** The entries of [_out_pipes] are the pipes of [S], under their own routing ids. *)
Record ids_ok (d : rids) (S : Z -> Prop) : Prop := {
  io_id id p a : rd_out d !! id = Some (p, a) -> rd_pipe_id d !! p = Some id;
  io_mem p : S p <-> exists id a, rd_out d !! id = Some (p, a);
  io_nonempty id x : rd_out d !! id = Some x -> id <> [];
}.

Lemma add_ok d S p id : ids_ok d S -> ~ S p -> rd_out d !! id = None -> id <> [] ->
  exists d', add_out_pipe (set_pipe_routing_id d p id) id p = Some d' /\ ids_ok d' (fun x => S x \/ x = p) /\
    rd_anonymous d' = rd_anonymous d /\ rd_out d' !! id = Some (p, true) /\ rd_pipe_id d' !! p = Some id.
Proof.
  intros [Hid Hmem Hne] Hp Hout Hn. unfold add_out_pipe. cbn [set_pipe_routing_id rd_out]. rewrite bool_decide_eq_true_2 by done.
  eexists. split; [done|]. cbn [rd_out rd_pipe_id rd_anonymous]. split; [|split_and!; [done|apply lookup_insert_eq|apply lookup_insert_eq]].
  constructor; cbn [rd_out rd_pipe_id set_pipe_routing_id].
  - intros id' p' a. rewrite lookup_insert. case_decide as E; [subst; intros [= <- <-]; by rewrite lookup_insert_eq|].
    intros Hl. rewrite lookup_insert_ne; [by apply (Hid _ _ a)|]. intros <-. apply Hp, Hmem. eauto.
  - intros p'. split.
    + intros [Hs| ->]; [|exists id, true; by rewrite lookup_insert_eq]. apply Hmem in Hs as (id' & a & Hl). exists id', a.
      rewrite lookup_insert_ne; [done|]. intros <-. congruence.
    + intros (id' & a & Hl). rewrite lookup_insert in Hl. case_decide; [right; congruence|left; apply Hmem; eauto].
  - intros id' x. rewrite lookup_insert. case_decide; [by subst|apply Hne].
Qed.

Lemma erase_ok d S p : ids_ok d S -> S p -> exists id d', rd_pipe_id d !! p = Some id /\ erase_out_pipe d p = Some d' /\
  ids_ok d' (fun x => S x /\ x <> p) /\ rd_anonymous d' = rd_anonymous d /\ rd_out d' = delete id (rd_out d) /\ rd_pipe_id d' = rd_pipe_id d.
Proof.
  intros [Hid Hmem Hne] Hp. apply Hmem in Hp as (id & a & Hl). pose proof (Hid _ _ _ Hl) as Hpi. exists id. unfold erase_out_pipe, pipe_routing_id.
  rewrite Hpi. change (default [] (Some id)) with id. rewrite bool_decide_eq_true_2 by (by eexists). eexists. split; [done|]. split; [done|]. split; [|done].
  constructor; cbn [rd_out rd_pipe_id].
  - intros id' p' a'. rewrite lookup_delete. case_decide; [done|]. apply Hid.
  - intros p'. split.
    + intros [Hs Hne']. apply Hmem in Hs as (id' & a' & Hl'). exists id', a'. rewrite lookup_delete_ne; [done|]. intros E. rewrite <- E, Hl in Hl'. by injection Hl' as <- _.
    + intros (id' & a' & Hl'). rewrite lookup_delete in Hl'. case_decide; [done|]. split; [apply Hmem; eauto|]. intros ->.
      apply Hid in Hl'. congruence.
  - intros id' x. rewrite lookup_delete. case_decide; [done|]. apply Hne.
Qed.

Lemma ids_ok_ext d d' S S' : ids_ok d S -> rd_out d' = rd_out d -> rd_pipe_id d' = rd_pipe_id d -> (forall p, S' p <-> S p) -> ids_ok d' S'.
Proof. intros [H1 H2 H3] Ho Hp HS. constructor; rewrite ?Ho, ?Hp; try done. intros p. by rewrite HS. Qed.

Lemma active_ok d S id p a : ids_ok d S -> (exists b, rd_out d !! id = Some (p, b)) -> ids_ok (out_set_active d id p a) S.
Proof.
  intros [H1 H2 H3] [b Hl]. constructor; cbn [out_set_active rd_out rd_pipe_id].
  - intros id' p' a'. rewrite lookup_insert. case_decide; [subst; intros [= <- <-]; by apply (H1 _ _ b)|apply H1].
  - intros p'. rewrite H2. split; intros (id' & a' & Hl').
    + destruct (decide (id' = id)) as [->|Hne]; [exists id, a; rewrite lookup_insert_eq; congruence|exists id', a'; by rewrite lookup_insert_ne].
    + rewrite lookup_insert in Hl'. case_decide; [subst; exists id', b; congruence|by exists id', a'].
  - intros id' x. rewrite lookup_insert. case_decide; [subst; intros _; by apply (H3 _ _ Hl)|apply H3].
Qed.

(** ** The state of a ROUTER *)

Record rt_table (t : router) : Prop := {
  tb_fq : fq_inv (rt_fq t);
  tb_ids : ids_ok (rt_ids t) (fun p => p ∈ a_items (fq_pipes (rt_fq t)));
  tb_anonymous p : p ∈ rd_anonymous (rt_ids t) -> p ∉ a_items (fq_pipes (rt_fq t));
  tb_out : ro_more (rt_out t) = false -> ro_current (rt_out t) = None;
}.

(** The integral routing id that is used next is not in use, nor is the one set for the next connection. *)
Definition ids_free (t : router) : Prop :=
  rd_out (rt_ids t) !! (0 :: put_uint32 (rd_next (rt_ids t))) = None /\ rd_out (rt_ids t) !! rd_connect (rt_ids t) = None.

Section router.
Context {W : Type} {IP : InPipes W} {OP : OutPipes W} {DX : Duplex W} {DL : DuplexLaws W} {RP : RouterPipes W}.

(** What identifying a peer does to the socket: either the peer is in the table, or nothing happened. *)
Definition identified (t t' : router) (p : Z) (ok : bool) : Prop :=
  rt_fq t' = rt_fq t /\ rt_out t' = rt_out t /\ rt_opt t' = rt_opt t /\ rd_anonymous (rt_ids t') = rd_anonymous (rt_ids t) /\
  if ok then ids_ok (rt_ids t') (fun x => x ∈ a_items (fq_pipes (rt_fq t)) \/ x = p)
  else ids_ok (rt_ids t') (fun x => x ∈ a_items (fq_pipes (rt_fq t))).

Lemma finish_ok (w : W) t p id : rt_table t -> p ∉ a_items (fq_pipes (rt_fq t)) -> forall t1, rt_fq t1 = rt_fq t -> rt_out t1 = rt_out t ->
  rt_opt t1 = rt_opt t -> ids_ok (rt_ids t1) (fun x => x ∈ a_items (fq_pipes (rt_fq t))) -> rd_anonymous (rt_ids t1) = rd_anonymous (rt_ids t) ->
  rd_out (rt_ids t1) !! id = None -> id <> [] ->
  exists t', (let* d := add_out_pipe (set_pipe_routing_id (rt_ids t1) p id) id p in Some (w, rt_set_ids t1 d, true)) = Some (w, t', true) /\ identified t t' p true.
Proof.
  intros Ht Hp t1 Hq Ho Hopt Hids Han Hfree Hne. destruct (add_ok _ _ p id Hids Hp Hfree Hne) as (d' & -> & Hok & Han' & _).
  cbn [mbind option_bind]. eexists. split; [done|]. split_and!; try done. cbn [rt_set_ids rt_ids]. congruence.
Qed.

Lemma take_over_ok (w : W) t id : rt_table t -> ids_free t -> exists w' t' ok, router_take_over w t id = Some (w', t', ok) /\
  rt_fq t' = rt_fq t /\ rt_out t' = rt_out t /\ rt_opt t' = rt_opt t /\ rd_anonymous (rt_ids t') = rd_anonymous (rt_ids t) /\
  ids_ok (rt_ids t') (fun x => x ∈ a_items (fq_pipes (rt_fq t))) /\ (ok = true -> rd_out (rt_ids t') !! id = None).
Proof.
  intros Ht [Hfree _]. unfold router_take_over, lookup_out_pipe. pose proof (tb_ids _ Ht) as Hids.
  destruct (rd_out (rt_ids t) !! id) as [[old a]|] eqn:El; [|by exists w, t, true].
  destruct (rop_handover (rt_opt t)); cbn [negb]; [|by exists w, t, false].
  unfold next_integral_id. cbn iota beta. set (d1 := RIds _ _ _ _ _).
  assert (ids_ok d1 (fun x => x ∈ a_items (fq_pipes (rt_fq t)))) as Hids1 by (by apply (ids_ok_ext (rt_ids t) d1 _ _ Hids)).
  assert (old ∈ a_items (fq_pipes (rt_fq t))) as Hold by (apply (io_mem _ _ Hids); eauto).
  destruct (erase_ok d1 _ old Hids1 Hold) as (id' & d2 & Hpi & -> & Hids2 & Han2 & Hout2 & Hpid2). cbn [mbind option_bind].
  assert (id' = id) as -> by (pose proof (io_id _ _ Hids _ _ _ El); cbn in Hpi; congruence).
  set (nid := 0 :: put_uint32 (rd_next (rt_ids t))) in *.
  destruct (add_ok d2 _ old nid Hids2) as (d3 & Hadd & Hids3 & Han3 & _); [tauto|rewrite Hout2, lookup_delete; case_decide; [done|exact Hfree]|done|].
  rewrite Hadd. cbn [mbind option_bind].
  assert (ids_ok d3 (fun x => x ∈ a_items (fq_pipes (rt_fq t)))) as Hids4.
  { apply (ids_ok_ext d3 d3 _ _ Hids3); try done. intros x. destruct (decide (x = old)) as [->|]; tauto. }
  assert (rd_out d3 !! id = None) as Hnone.
  { unfold add_out_pipe in Hadd. destruct (bool_decide _); [|done]. injection Hadd as <-. cbn [rd_out set_pipe_routing_id].
    rewrite lookup_insert_ne; [by rewrite Hout2, lookup_delete_eq|]. intros E. rewrite E in Hfree. congruence. }
  case_bool_decide; eexists _, _, true; (split; [done|]); split_and!; try done; cbn; by rewrite Han3, Han2.
Qed.

Lemma identify_ok (w : W) t p loc : rt_table t -> ids_free t -> p ∉ a_items (fq_pipes (rt_fq t)) ->
  exists w' t' ok, identify_peer w t p loc = Some (w', t', ok) /\ identified t t' p ok.
Proof.
  intros Ht Hfree Hp. unfold identify_peer. pose proof (tb_ids _ Ht) as Hids. pose proof Hfree as [Hf1 Hf2].
  assert (forall w1 : W, exists t', (let '(d, id) := next_integral_id (rt_ids t) in
      let* d := add_out_pipe (set_pipe_routing_id (rt_ids (rt_set_ids t d)) p id) id p in Some (w1, rt_set_ids (rt_set_ids t d) d, true)) = Some (w1, t', true) /\
    identified t t' p true) as Hint.
  { intros w1. unfold next_integral_id. cbn iota beta. set (d1 := RIds _ _ _ _ _). destruct (finish_ok w1 t p (0 :: put_uint32 (rd_next (rt_ids t))) Ht Hp (rt_set_ids t d1)) as (t' & H1 & H2);
      try done; [by apply (ids_ok_ext (rt_ids t) d1 _ _ Hids)|]. by exists t'. }
  destruct (loc && negb (bool_decide (rd_connect (rt_ids t) = []))) eqn:Ec.
  - apply andb_true_iff in Ec as [_ Ec]. apply negb_true_iff, bool_decide_eq_false in Ec. unfold extract_connect_routing_id. cbn iota beta. set (d1 := RIds _ _ _ _ _).
    replace (has_out_pipe d1 (rd_connect (rt_ids t))) with false
      by (unfold has_out_pipe; symmetry; apply bool_decide_eq_false_2; cbn; rewrite Hf2; by intros [? ?]). cbn [negb].
    destruct (finish_ok w t p (rd_connect (rt_ids t)) Ht Hp (rt_set_ids t d1)) as (t' & H1 & H2); try done; [by apply (ids_ok_ext (rt_ids t) d1 _ _ Hids)|].
    exists w, t', true. done.
  - destruct (rop_options_raw (rt_opt t)); [destruct (Hint w) as (t' & H1 & H2); by exists w, t', true|].
    destruct (ip_read_ok w p) as (w1 & -> & _). cbn [mbind option_bind]. destruct (head (ip_queue w p)) as [m|]; [|exists w1, t, false; split; [done|]; by unfold identified; split_and!].
    destruct (bool_decide_reflect (fr_body m = [])) as [Eb|Eb]; [destruct (Hint w1) as (t' & H1 & H2); by exists w1, t', true|].
    destruct (take_over_ok w1 t (fr_body m) Ht Hfree) as (w2 & t2 & ok & -> & Hq & Ho & Hopt & Han & Hids2 & Hnone). cbn [mbind option_bind].
    destruct ok; [|exists w2, t2, false; split; [done|]; by unfold identified; split_and!]. destruct (finish_ok w2 t p (fr_body m) Ht Hp t2) as (t' & H1 & H2); auto. by exists w2, t', true.
Qed.

Lemma table_kept t t' : rt_table t -> rt_fq t' = rt_fq t -> rt_out t' = rt_out t -> rd_anonymous (rt_ids t') = rd_anonymous (rt_ids t) ->
  ids_ok (rt_ids t') (fun x => x ∈ a_items (fq_pipes (rt_fq t))) -> rt_table t'.
Proof. intros [H1 H2 H3 H4] Hq Ho Ha Hids. constructor; rewrite ?Hq, ?Ho, ?Ha; done. Qed.

(** An identified pipe is attached to the fair queue. *)
Lemma joined_ok t t' p q : rt_table t -> identified t t' p true -> p ∉ a_items (fq_pipes (rt_fq t)) -> fq_attach (rt_fq t') p = Some q ->
  forall s, (forall x, x ∈ s -> x ∈ rd_anonymous (rt_ids t) /\ x <> p) ->
  rt_table (rt_set_fq (set_anonymous t' s) q).
Proof.
  intros Ht (Hq & Ho & _ & Ha & Hids) Hp Hatt s Hs. rewrite Hq in Hatt.
  destruct (fq_attach_spec _ p (tb_fq _ Ht) Hp) as (q' & Hatt' & Hinv & _ & Hmem). assert (q' = q) as -> by congruence.
  constructor; cbn [rt_fq rt_ids rt_out rt_set_fq set_anonymous rt_set_ids rd_anonymous]; try done.
  - eapply ids_ok_ext; [exact Hids|done|done|exact Hmem].
  - intros x Hx. apply Hs in Hx as [Hx Hne]. rewrite Hmem. intros [Hi|?]; [|done]. by apply (tb_anonymous _ Ht x).
  - rewrite Ho. apply Ht.
Qed.

Lemma set_anonymous_same t : set_anonymous t (rd_anonymous (rt_ids t)) = t.
Proof. by destruct t as [? ? ? ? []]. Qed.

Lemma attach_ok (w : W) t p loc : rt_table t -> ids_free t -> p ∉ a_items (fq_pipes (rt_fq t)) -> p ∉ rd_anonymous (rt_ids t) ->
  exists w' t', router_xattach_pipe w t p loc = Some (w', t') /\ rt_table t'.
Proof.
  intros Ht Hfree Hp Ha. unfold router_xattach_pipe.
  assert (exists w1, (if rop_probe_router (rt_opt t) then let* (w, _) := op_write w p fr_empty in op_flush w p else Some w) = Some w1) as [w1 ->].
  { destruct (rop_probe_router (rt_opt t)); [|by exists w]. destruct (op_write_ok w p fr_empty) as (w1 & -> & _). cbn [mbind option_bind].
    destruct (op_flush_ok w1 p) as (w2 & -> & _). by exists w2. }
  cbn [mbind option_bind]. destruct (identify_ok w1 t p loc Ht Hfree Hp) as (w2 & t2 & ok & -> & Hid). cbn [mbind option_bind].
  destruct ok.
  - pose proof Hid as (Hq & _). destruct (fq_attach_spec _ p (tb_fq _ Ht) Hp) as (q' & Hatt & _). rewrite Hq, Hatt. cbn [mbind option_bind].
    eexists _, _. split; [done|]. rewrite <- (set_anonymous_same t2). apply (joined_ok t t2 p); try done; [by rewrite Hq|].
    destruct Hid as (_ & _ & _ & Han & _). rewrite Han. intros x Hx. split; [done|]. by intros ->.
  - destruct Hid as (Hq & Ho & _ & Han & Hids). eexists _, _. split; [done|].
    constructor; cbn [rt_fq rt_ids rt_out set_anonymous rt_set_ids rd_anonymous]; rewrite ?Hq, ?Ho; try apply Ht.
    + by eapply ids_ok_ext.
    + intros x. rewrite elem_of_union, elem_of_singleton, Han. intros [-> |Hx]; [done|]. by apply (tb_anonymous _ Ht).
Qed.

Lemma read_activated_ok (w : W) t p : rt_table t -> (p ∈ rd_anonymous (rt_ids t) -> ids_free t) ->
  p ∈ rd_anonymous (rt_ids t) \/ (p ∈ a_items (fq_pipes (rt_fq t)) /\ ~ fq_is_active (rt_fq t) p) ->
  exists w' t', router_xread_activated w t p = Some (w', t') /\ rt_table t'.
Proof.
  intros Ht Hfree Hp. unfold router_xread_activated. case_bool_decide as Ea.
  - pose proof (tb_anonymous _ Ht p Ea) as Hp'. destruct (identify_ok w t p false Ht (Hfree Ea) Hp') as (w2 & t2 & ok & -> & Hid). cbn [mbind option_bind].
    destruct ok.
    + pose proof Hid as (Hq & _). destruct (fq_attach_spec _ p (tb_fq _ Ht) Hp') as (q' & Hatt & _).
      change (rt_fq (set_anonymous t2 _)) with (rt_fq t2). rewrite Hq, Hatt. cbn [mbind option_bind]. eexists _, _. split; [done|].
      apply (joined_ok t t2 p); try done; [by rewrite Hq|]. destruct Hid as (_ & _ & _ & Han & _). rewrite Han. set_solver.
    + destruct Hid as (Hq & Ho & _ & Han & Hids). eexists _, _. split; [done|]. by apply (table_kept t).
  - destruct Hp as [?|[Hp Hna]]; [done|]. destruct (fq_activated_spec _ p (tb_fq _ Ht) Hp Hna) as (q & -> & Hinv & _ & Hmem).
    cbn [mbind option_bind]. eexists _, _. split; [done|]. destruct Ht as [H1 H2 H3 H4].
    constructor; cbn [rt_fq rt_ids rt_out rt_set_fq]; try done; [by eapply ids_ok_ext|]. intros x Hx. rewrite Hmem. auto.
Qed.

Lemma terminated_ok (w : W) t p : rt_table t -> p ∈ rd_anonymous (rt_ids t) \/ p ∈ a_items (fq_pipes (rt_fq t)) ->
  exists w' t', router_xpipe_terminated w t p = Some (w', t') /\ rt_table t' /\ (p ∉ rd_anonymous (rt_ids t')) /\ (p ∉ a_items (fq_pipes (rt_fq t'))).
Proof.
  intros Ht Hp. unfold router_xpipe_terminated. case_bool_decide as Ea.
  - eexists _, _. split; [done|]. pose proof (tb_anonymous _ Ht p Ea) as Hni. destruct Ht as [H1 H2 H3 H4]. split; [|split; [set_solver|done]].
    constructor; cbn [rt_fq rt_ids rt_out set_anonymous rt_set_ids rd_anonymous]; try done; [by eapply ids_ok_ext|]. intros x Hx. apply H3. set_solver.
  - destruct Hp as [?|Hp]; [done|]. destruct (erase_ok _ _ p (tb_ids _ Ht) Hp) as (id & d' & _ & -> & Hids & Han & _). cbn [mbind option_bind].
    destruct (fq_pipe_terminated_spec _ p (tb_fq _ Ht) Hp) as (q & -> & Hinv & _ & Hmem & _). cbn [mbind option_bind].
    destruct (op_rollback_ok w p) as (w1 & -> & _). cbn [mbind option_bind]. eexists _, _. split; [done|].
    split; [|split; [cbn; by rewrite Han|cbn; rewrite Hmem; tauto]]. destruct Ht as [H1 H2 H3 H4].
    constructor; cbn [rt_fq rt_ids rt_out]; try done; [by eapply ids_ok_ext| |].
    + intros x. rewrite Han, Hmem. intros Hx [Hi _]. by apply (H3 x).
    + case_bool_decide; [done|exact H4].
Qed.

Lemma send_ok (w : W) t f : rt_table t -> exists w' t' rc, router_xsend w t f = Some (w', t', rc) /\ rt_table t'.
Proof.
  intros Ht. unfold router_xsend. destruct (ro_more (rt_out t)) eqn:Em; cbn [negb].
  - set (g := if rop_options_raw (rt_opt t) then reset_more f else f).
    assert (forall o, (ro_more o = false -> ro_current o = None) -> rt_table (rt_set_out t o)) as Hout by (intros o Ho; destruct Ht; by constructor).
    destruct (ro_current (rt_out t)) as [p|]; [|eexists _, _, _; split; [done|]; by apply Hout].
    destruct (rop_raw_socket (rt_opt t) && bool_decide (fr_body g = [])); [eexists _, _, _; split; [done|]; by apply Hout|].
    destruct (op_write_ok w p g) as (w1 & -> & _). cbn [mbind option_bind]. destruct (op_room w p); cbn [negb].
    + destruct (fr_more g) eqn:Eg; cbn [negb]; [eexists _, _, _; split; [done|]; by apply Hout|].
      destruct (op_flush_ok w1 p) as (w2 & -> & _). cbn [mbind option_bind]. eexists _, _, _. split; [done|]. by apply Hout.
    + destruct (op_rollback_ok w1 p) as (w2 & -> & _). cbn [mbind option_bind]. eexists _, _, _. split; [done|]. by apply Hout.
  - rewrite bool_decide_eq_true_2 by (by apply (tb_out _ Ht)). unfold router_send_id. destruct (fr_more f); cbn [negb]; [|by eexists _, _, _].
    assert (forall t1 o, rt_table t1 -> (ro_more o = false -> ro_current o = None) -> rt_table (rt_set_out t1 o)) as Hout by (intros t1 o [] Ho; by constructor).
    unfold lookup_out_pipe. destruct (rd_out (rt_ids t) !! fr_body f) as [[p a]|] eqn:El.
    + destruct (op_check_write_ok w p) as (w1 & -> & _). cbn [mbind option_bind]. destruct (op_room w p); [eexists _, _, _; split; [done|]; by apply Hout|].
      assert (rt_table (rt_set_ids t (out_set_active (rt_ids t) (fr_body f) p false))) as Ht1.
      { apply (table_kept t); try done. apply active_ok; [apply Ht|by exists a]. }
      destruct (rop_mandatory (rt_opt t)); eexists _, _, _; (split; [done|]); by apply Hout.
    + destruct (rop_mandatory (rt_opt t)); eexists _, _, _; (split; [done|]); by apply Hout.
Qed.

(** ** The states that are reached

    The pipes [w] change in any way between two calls; a peer is attached,
    or identified later, when the routing ids that may be assigned to it
    are free. *)
Inductive router_reach : W -> router -> Prop :=
| rr_new w n : router_reach w (router_new n)
| rr_pipes w w' t : router_reach w t -> router_reach w' t
| rr_option w t o v i t' : router_reach w t -> router_xsetsockopt t o v i = Some t' -> router_reach w t'
| rr_attach w t p loc w' t' : router_reach w t -> ids_free t -> p ∉ a_items (fq_pipes (rt_fq t)) -> p ∉ rd_anonymous (rt_ids t) ->
    router_xattach_pipe w t p loc = Some (w', t') -> router_reach w' t'
| rr_read w t p w' t' : router_reach w t -> ids_free t ->
    p ∈ rd_anonymous (rt_ids t) \/ (p ∈ a_items (fq_pipes (rt_fq t)) /\ ~ fq_is_active (rt_fq t) p) ->
    router_xread_activated w t p = Some (w', t') -> router_reach w' t'
| rr_terminated w t p w' t' : router_reach w t -> p ∈ rd_anonymous (rt_ids t) \/ p ∈ a_items (fq_pipes (rt_fq t)) ->
    router_xpipe_terminated w t p = Some (w', t') -> router_reach w' t'
| rr_send w t f w' t' rc : router_reach w t -> router_xsend w t f = Some (w', t', rc) -> router_reach w' t'.

Lemma option_table t o v i t' : rt_table t -> router_xsetsockopt t o v i = Some t' -> rt_table t'.
Proof.
  intros Ht. unfold router_xsetsockopt. destruct Ht as [H1 H2 H3 H4].
  assert (forall op, rt_table (Router (rt_fq t) (rt_in t) (rt_out t) op (rt_ids t))) as Hopt by (intros op; by constructor).
  repeat (case_match; [repeat (case_match; try done); intros [= <-]; (apply Hopt || (constructor; try done; by eapply ids_ok_ext))|]). done.
Qed.

Lemma reach_table w t : router_reach w t -> rt_table t.
Proof.
  induction 1 as [w n|w w' t _ IH|w t o v i t' _ IH Hrun|w t p loc w' t' _ IH Hf Hp Ha Hrun|w t p w' t' _ IH Hf Hp Hrun|w t p w' t' _ IH Hp Hrun|w t f w' t' rc _ IH Hrun]; try done.
  - constructor; try done; [apply fq_new_inv|]. constructor; cbn; intros *; rewrite ?lookup_empty; try done.
    split; [intros Hx; by apply not_elem_of_nil in Hx|]. intros (id & a & Hl). by rewrite lookup_empty in Hl.
  - by apply (option_table t o v i).
  - destruct (attach_ok w t p loc IH Hf Hp Ha) as (w1 & t1 & E & H). congruence.
  - destruct (read_activated_ok w t p IH (fun _ => Hf) Hp) as (w1 & t1 & E & H). congruence.
  - destruct (terminated_ok w t p IH Hp) as (w1 & t1 & E & H & _). congruence.
  - destruct (send_ok w t f IH) as (w1 & t1 & rc1 & E & H). congruence.
Qed.

End router.

(** in every state a ROUTER reaches, as long as the routing ids it assigns are free, the table and the pipes agree: the pipes it
    receives from are those in the table, each under its own routing id, which is not empty; and no assertion fails: attaching or
    identifying a peer, losing one, and sending any frame succeed. *)
Theorem router_peers {W} {IP : InPipes W} {OP : OutPipes W} {DX : Duplex W} {DL : DuplexLaws W} {RP : RouterPipes W} (w : W) (t : router) :
  router_reach w t ->
  (forall p, p ∈ a_items (fq_pipes (rt_fq t)) <-> exists id a, rd_out (rt_ids t) !! id = Some (p, a)) /\
  (forall id p a, rd_out (rt_ids t) !! id = Some (p, a) -> pipe_routing_id (rt_ids t) p = id /\ id <> []) /\
  (forall p loc, ids_free t -> p ∉ a_items (fq_pipes (rt_fq t)) -> p ∉ rd_anonymous (rt_ids t) -> is_Some (router_xattach_pipe w t p loc)) /\
  (forall p, ids_free t -> p ∈ rd_anonymous (rt_ids t) -> is_Some (router_xread_activated w t p)) /\
  (forall p, p ∈ rd_anonymous (rt_ids t) \/ p ∈ a_items (fq_pipes (rt_fq t)) -> is_Some (router_xpipe_terminated w t p)) /\
  (forall f, is_Some (router_xsend w t f)).
Proof.
  intros Hr. pose proof (reach_table w t Hr) as Ht. pose proof (tb_ids _ Ht) as [H1 H2 H3]. split_and!.
  - exact H2.
  - intros id p a Hl. split; [|by apply (H3 _ _ Hl)]. unfold pipe_routing_id. by rewrite (H1 _ _ _ Hl).
  - intros p loc Hf Hp Ha. destruct (attach_ok w t p loc Ht Hf Hp Ha) as (w' & t' & -> & _). by eexists.
  - intros p Hf Hp. destruct (read_activated_ok w t p Ht) as (w' & t' & -> & _); [done|by left|]. by eexists.
  - intros p Hp. destruct (terminated_ok w t p Ht Hp) as (w' & t' & -> & _). by eexists.
  - intros f. destruct (send_ok w t f Ht) as (w' & t' & rc & -> & _). by eexists.
Qed.

(** A peer that names itself [0; 0; 0; 0; 7], and one without a name, at a socket that would assign that routing id next. *)
Definition router_named : dpipes :=
  DPipes (list_to_map [(1, [Frame type_vsm 0 (0 :: put_uint32 7)]); (2, [Frame type_vsm 0 []])]) ∅ ∅.

Lemma router_peers_witness : exists w t, router_xattach_pipe router_named (router_new 8) 1 false = Some (w, t) /\
  exists id a, rd_out (rt_ids t) !! id = Some (1, a).
Proof.
  destruct (router_xattach_pipe router_named (router_new 8) 1 false) as [[w t]|] eqn:E; [|vm_compute in E; discriminate].
  exists w, t. split; [reflexivity|].
  destruct (router_peers w t) as (Hmem & _).
  { apply (rr_attach router_named (router_new 8) 1 false w t (rr_new _ 8)); try done. intros Hx. by apply not_elem_of_nil in Hx. }
  apply Hmem. vm_compute in E. injection E as <- <-. vm_compute. left.
Defined.

(** a peer can make a ROUTER abort.  A peer that announces the routing id the socket would generate next is accepted under it; when
    the next peer without a routing id is identified, the generated routing id is in use and the assertion in [add_out_pipe]
    fails. *)
Theorem router_id_collision : exists w t,
  router_xattach_pipe router_named (router_new 7) 1 false = Some (w, t) /\ router_xattach_pipe w t 2 false = None.
Proof.
  destruct (router_xattach_pipe router_named (router_new 7) 1 false) as [[w t]|] eqn:E; [|vm_compute in E; discriminate].
  exists w, t. split; [done|]. vm_compute in E. injection E as <- <-. vm_compute. reflexivity.
Qed.
