(* ===== verification/Upipe.v ===== *)
(** * The queue under a pipe (src/src/ypipe_base.hpp)

    [pipe_t] reaches its queue through the virtual methods of
    [ypipe_base_t]; they are the class [YpipeBase], and what [pipe_t]
    relies on, the abstract queue of Ypipe.v as functions, is the class
    [YpipeLaws].  There are two implementations: [ypipe_t], and the
    one-message buffer of conflating sockets
    (src/src/ypipe_conflate.hpp, src/src/dbuffer.hpp); the queue a pipe
    uses, [upipe], is either of them. *)

From S2P Require Import Prelude Frame Yqueue Ypipe.

(** ** The abstract queue as functions *)

Definition pq_write {T} (s : pq (T := T)) (v : T) (incomplete : bool) : pq :=
  if incomplete then Pq (pq_items s) (pq_done s) (pq_part s ++ [v]) (pq_asleep s)
  else Pq (pq_items s) (pq_done s ++ pq_part s ++ [v]) [] (pq_asleep s).

Definition pq_unwrite {T} (s : pq (T := T)) : pq * option T :=
  match list.last (pq_part s) with
  | None => (s, None)
  | Some v => (Pq (pq_items s) (pq_done s) (removelast (pq_part s)) (pq_asleep s), Some v)
  end.

Definition pq_flush_ {T} (s : pq (T := T)) : pq * bool :=
  match pq_done s with
  | [] => (s, true)
  | _ => (Pq (pq_items s ++ pq_done s) [] (pq_part s) false, negb (pq_asleep s))
  end.

Definition pq_check_read {T} (s : pq (T := T)) : pq * bool :=
  match pq_items s with
  | [] => (Pq [] (pq_done s) (pq_part s) true, false)
  | _ => (s, true)
  end.

Definition pq_read {T} (s : pq (T := T)) : pq * option T :=
  match pq_items s with
  | [] => (Pq [] (pq_done s) (pq_part s) true, None)
  | x :: xs => (Pq xs (pq_done s) (pq_part s) (pq_asleep s), Some x)
  end.

(** ** The interface *)

Class YpipeBase (U : Type) := {
  up_new : bool -> option U;  (** [true] for the queue of a conflating socket *)
  up_write : U -> frame -> bool -> option U;
  up_unwrite : U -> option (U * option frame);
  up_flush : U -> option (U * bool);
  up_check_read : U -> option (U * bool);
  up_read : U -> option (U * option frame);
  up_probe : U -> (frame -> bool) -> option (U * bool);
}.

Class YpipeLaws (U : Type) `{YpipeBase U} := {
  up_rep : U -> pq (T := frame) -> Prop;
  up_new_ok : exists u, up_new false = Some u /\ up_rep u pq_new;
  up_write_ok u s f inc : up_rep u s ->
    exists u', up_write u f inc = Some u' /\ up_rep u' (pq_write s f inc);
  up_unwrite_ok u s : up_rep u s ->
    exists u', up_unwrite u = Some (u', (pq_unwrite s).2) /\ up_rep u' (pq_unwrite s).1;
  up_flush_ok u s : up_rep u s ->
    exists u', up_flush u = Some (u', (pq_flush_ s).2) /\ up_rep u' (pq_flush_ s).1;
  up_check_read_ok u s : up_rep u s ->
    exists u', up_check_read u = Some (u', (pq_check_read s).2) /\ up_rep u' (pq_check_read s).1;
  up_read_ok u s : up_rep u s ->
    exists u', up_read u = Some (u', (pq_read s).2) /\ up_rep u' (pq_read s).1;
  up_probe_ok u s fn x : up_rep u s -> head (pq_items s) = Some x ->
    exists u', up_probe u fn = Some (u', fn x) /\ up_rep u' s;
}.

(** The abstract queue implements the interface. *)
#[export] Instance pq_base : YpipeBase (pq (T := frame)) := {
  up_new _ := Some pq_new;
  up_write s f inc := Some (pq_write s f inc);
  up_unwrite s := Some (pq_unwrite s);
  up_flush s := Some (pq_flush_ s);
  up_check_read s := Some (pq_check_read s);
  up_read s := Some (pq_read s);
  up_probe s fn := match pq_items s with [] => None | x :: _ => Some (s, fn x) end;
}.

#[export] Instance pq_laws : YpipeLaws (pq (T := frame)).
Proof.
  refine {| up_rep := eq |}; simpl.
  - by exists pq_new.
  - intros u s f inc ->. by eexists.
  - intros u s ->. eexists. by rewrite <- surjective_pairing.
  - intros u s ->. eexists. by rewrite <- surjective_pairing.
  - intros u s ->. eexists. by rewrite <- surjective_pairing.
  - intros u s ->. eexists. by rewrite <- surjective_pairing.
  - intros u s fn x -> Hx. exists s. destruct (pq_items s); by simplify_eq/=.
Qed.

(** ** The double buffer, [dbuffer_t] *)

Record dbuffer := Dbuffer { db_back : frame; db_front : frame; db_has_msg : bool }.

Definition dbuffer_new : dbuffer := Dbuffer fr_empty fr_empty false.

(** [locked] when [try_lock] succeeds, that is when the reader is not in
    the middle of an operation. *)
Definition dbuffer_write (d : dbuffer) (v : frame) (locked : bool) : dbuffer :=
  if locked then Dbuffer fr_empty v true else Dbuffer v (db_front d) (db_has_msg d).

Definition dbuffer_read (d : dbuffer) : dbuffer * option frame :=
  if negb (db_has_msg d) then (d, None) else (Dbuffer (db_back d) fr_empty false, Some (db_front d)).

Definition dbuffer_check_read (d : dbuffer) : bool := db_has_msg d.

Definition dbuffer_probe (d : dbuffer) (fn : frame -> bool) : bool := fn (db_front d).

(** ** The conflating pipe, [ypipe_conflate_t] *)

Record conflate := Conflate { cf_dbuffer : dbuffer; cf_reader_awake : bool }.

Definition conflate_new : conflate := Conflate dbuffer_new false.

Definition conflate_write (c : conflate) (v : frame) (incomplete locked : bool) : conflate :=
  Conflate (dbuffer_write (cf_dbuffer c) v locked) (cf_reader_awake c).

Definition conflate_unwrite (c : conflate) : option frame := None.

Definition conflate_flush (c : conflate) : bool := cf_reader_awake c.

Definition conflate_check_read (c : conflate) : conflate * bool :=
  let res := dbuffer_check_read (cf_dbuffer c) in
  (if negb res then Conflate (cf_dbuffer c) false else c, res).

Definition conflate_read (c : conflate) : conflate * option frame :=
  let '(c, b) := conflate_check_read c in
  if negb b then (c, None)
  else let '(d, v) := dbuffer_read (cf_dbuffer c) in (Conflate d (cf_reader_awake c), v).

Definition conflate_probe (c : conflate) (fn : frame -> bool) : bool := dbuffer_probe (cf_dbuffer c) fn.

(** ** Either implementation *)

(** [message_pipe_granularity], src/src/config.hpp. *)
Definition message_pipe_granularity : nat := 256.

Section upipe.
Context (malloc : heap frame -> Z).

Inductive upipe := UNormal (p : ypipe (T := frame)) | UConflate (c : conflate).

#[export] Instance upipe_base : YpipeBase upipe := {
  up_new conflate :=
    if conflate then Some (UConflate conflate_new)
    else UNormal <$> ypipe_new malloc message_pipe_granularity;
  up_write u f inc :=
    match u with
    | UNormal p => UNormal <$> ypipe_write malloc message_pipe_granularity p f inc
    | UConflate c => Some (UConflate (conflate_write c f inc true))
    end;
  up_unwrite u :=
    match u with
    | UNormal p => prod_map UNormal id <$> ypipe_unwrite message_pipe_granularity p
    | UConflate c => Some (u, conflate_unwrite c)
    end;
  up_flush u :=
    match u with
    | UNormal p => Some (prod_map UNormal id (ypipe_flush p))
    | UConflate c => Some (u, conflate_flush c)
    end;
  up_check_read u :=
    match u with
    | UNormal p => Some (prod_map UNormal id (ypipe_check_read p))
    | UConflate c => Some (prod_map UConflate id (conflate_check_read c))
    end;
  up_read u :=
    match u with
    | UNormal p => prod_map UNormal id <$> ypipe_read message_pipe_granularity p
    | UConflate c => Some (prod_map UConflate id (conflate_read c))
    end;
  up_probe u fn :=
    match u with
    | UNormal p => prod_map UNormal id <$> ypipe_probe p fn
    | UConflate c => Some (u, conflate_probe c fn)
    end;
}.

Context `{!Allocator frame malloc}.

Definition upipe_rep (u : upipe) (s : pq (T := frame)) : Prop :=
  match u with
  | UNormal p => exists ck hd ri, yp_inv message_pipe_granularity p s ck hd ri
  | UConflate _ => False
  end.

#[local] Definition HN : (0 < message_pipe_granularity)%nat := ltac:(unfold message_pipe_granularity; lia).

Lemma upipe_flush_ok u s : upipe_rep u s ->
  exists u', up_flush u = Some (u', (pq_flush_ s).2) /\ upipe_rep u' (pq_flush_ s).1.
Proof.
  destruct u as [p|]; [|done]. destruct s as [xs ys zs a]. intros (ck & hd & ri & Hp). simpl. unfold ypipe_flush.
  destruct (ypipe_flush_cas_spec _ HN _ _ _ _ _ _ _ _ Hp) as [[-> ->]|[(Hy & -> & ->)|(Hy & -> & p' & -> & Hp')]].
  - eexists. split; [done|]. by exists ck, hd, ri.
  - destruct ys; [done|]. eexists. split; [done|]. simpl. eexists _, _, _. by apply (ypipe_flush_set_spec _ HN _ _ _ _ _ _ _ _ Hp).
  - destruct ys; [done|]. eexists. split; [done|]. simpl. by eexists _, _, _.
Qed.

Lemma upipe_read_ok u s : upipe_rep u s ->
  exists u', up_read u = Some (u', (pq_read s).2) /\ upipe_rep u' (pq_read s).1.
Proof.
  destruct u as [p|]; [|done]. destruct s as [xs ys zs a]. intros (ck & hd & ri & Hp). simpl. unfold ypipe_read.
  destruct (ypipe_check_read_spec _ HN _ _ _ _ _ _ _ _ Hp) as (p' & ri' & -> & Hp' & Hi).
  destruct xs as [|x xs]; simpl in *.
  - eexists. split; [done|]. by eexists _, _, _.
  - destruct (Hi ltac:(done)) as (i & -> & Hlt).
    destruct (ypipe_take_spec _ HN _ _ _ _ _ _ _ _ _ Hp' Hlt) as (p'' & -> & Hp''). simpl.
    eexists. split; [done|]. by eexists _, _, _.
Qed.

#[export] Instance upipe_laws : YpipeLaws upipe.
Proof.
  refine {| up_rep := upipe_rep |}.
  - destruct (ypipe_new_spec malloc _ HN) as (p & ck & Hn & Hp). exists (UNormal p). cbn [up_new upipe_base]. rewrite Hn.
    split; [done|]. by eexists _, _, _.
  - intros [p|] [xs ys zs a] f inc; [|done]. intros (ck & hd & ri & Hp). simpl.
    destruct (ypipe_write_spec malloc _ HN _ _ _ _ _ _ _ _ f inc Hp) as (p' & ck' & -> & Hp').
    eexists. split; [done|]. destruct inc; by eexists _, _, _.
  - intros [p|] [xs ys zs a]; [|done]. intros (ck & hd & ri & Hp). simpl.
    destruct (ypipe_unwrite_spec _ HN _ _ _ _ _ _ _ _ Hp) as (p' & o & s' & -> & Hst & Hp' & _). simpl.
    eexists. unfold pq_unwrite. simpl. inversion Hst; subst; simpl.
    + rewrite last_snoc, removelast_last. split; [done|]. by eexists _, _, _.
    + split; [done|]. by eexists _, _, _.
  - exact upipe_flush_ok.
  - intros [p|] [xs ys zs a]; [|done]. intros (ck & hd & ri & Hp). simpl.
    destruct (ypipe_check_read_spec _ HN _ _ _ _ _ _ _ _ Hp) as (p' & ri' & -> & Hp' & _). eexists.
    unfold pq_check_read. destruct xs; simpl in *; (split; [done|]); by eexists _, _, _.
  - exact upipe_read_ok.
  - intros [p|] [xs ys zs a] fn x; [|done]. intros (ck & hd & ri & Hp) Hx. simpl in *. unfold ypipe_probe.
    destruct (ypipe_check_read_spec _ HN _ _ _ _ _ _ _ _ Hp) as (p' & ri' & -> & Hp' & _).
    destruct xs as [|y xs]; simplify_eq/=. 
    destruct Hp' as [Hq ? ? ? ? ? ?]. simpl in *. rewrite (yq_inv_front _ _ _ _ _ _ _ Hq). simpl.
    eexists. split; [done|]. simpl. by eexists _, _, _.
Qed.
End upipe.

(** ** The conflating pipe is a one-place buffer *)

Inductive cf_op :=
| CfWrite (v : frame) (incomplete locked : bool) | CfUnwrite | CfFlush | CfCheck | CfRead
| CfProbe (fn : frame -> bool).

Inductive cf_res := CfDone | CfBool (b : bool) | CfMsg (v : option frame).

Definition conflate_step (c : conflate) (op : cf_op) : conflate * cf_res :=
  match op with
  | CfWrite v inc locked => (conflate_write c v inc locked, CfDone)
  | CfUnwrite => (c, CfMsg (conflate_unwrite c))
  | CfFlush => (c, CfBool (conflate_flush c))
  | CfCheck => prod_map id CfBool (conflate_check_read c)
  | CfRead => prod_map id CfMsg (conflate_read c)
  | CfProbe fn => (c, CfBool (conflate_probe c fn))
  end.

(** The specification: the last message written and not read. *)
Definition cell_step (s : option frame) (op : cf_op) : option frame * cf_res :=
  match op with
  | CfWrite v _ locked => (if locked then Some v else s, CfDone)
  | CfUnwrite => (s, CfMsg None)
  | CfFlush => (s, CfBool false)
  | CfCheck => (s, CfBool (bool_decide (is_Some s)))
  | CfRead => (None, CfMsg s)
  | CfProbe fn => (s, CfBool (fn (default fr_empty s)))
  end.

Fixpoint run_steps {S} (step : S -> cf_op -> S * cf_res) (s : S) (ops : list cf_op) : S * list cf_res :=
  match ops with
  | [] => (s, [])
  | op :: ops' => let '(s1, r) := step s op in let '(s2, rs) := run_steps step s1 ops' in (s2, r :: rs)
  end.

Record conflate_rep (c : conflate) (s : option frame) : Prop := {
  cr_has : db_has_msg (cf_dbuffer c) = bool_decide (is_Some s);
  cr_front : db_front (cf_dbuffer c) = default fr_empty s;
  cr_awake : cf_reader_awake c = false;
}.

Lemma conflate_step_ok c s op : conflate_rep c s ->
  conflate_rep (conflate_step c op).1 (cell_step s op).1 /\ (conflate_step c op).2 = (cell_step s op).2.
Proof.
  destruct c as [[b f h] aw]. intros [H1 H2 H3]. simpl in *. subst.
  destruct op as [v inc [|]| | | | |fn], s as [x|]; simpl; done.
Qed.

(** a conflating pipe keeps the last message: any sequence of its
    operations gives the results of a one-place buffer, in which a write
    replaces what was not read yet (a write whose [try_lock] fails is
    dropped), a message is read at most once, nothing is ever unwritten,
    and every [flush] says that the reader is asleep. *)
Theorem conflate_refines_cell (ops : list cf_op) :
  (run_steps conflate_step conflate_new ops).2 = (run_steps cell_step None ops).2 /\
  conflate_rep (run_steps conflate_step conflate_new ops).1 (run_steps cell_step None ops).1.
Proof.
  assert (conflate_rep conflate_new None) as Hr by done.
  generalize dependent conflate_new. generalize (@None frame).
  induction ops as [|op ops IH]; intros s c Hr; [done|]. simpl.
  destruct (conflate_step_ok c s op Hr) as [Hr1 Hres].
  destruct (conflate_step c op) as [c1 r1], (cell_step s op) as [s1 r1']. simpl in *. subst.
  specialize (IH s1 c1 Hr1). destruct (run_steps conflate_step c1 ops), (run_steps cell_step s1 ops). simpl in *.
  destruct IH as [-> ?]. done.
Qed.
