(* ===== verification/Pipe.v ===== *)
(** * Pipes (src/src/pipe.cpp, src/src/pipe.hpp)

    A pipe connects two objects that live in different threads: a pair of
    endpoints, a queue in each direction, and commands the endpoints send
    to each other through the mailboxes of their threads.  Every method
    of [pipe_t] is a function on its environment: the endpoint itself,
    the queues that exist, the commands it sent to its peer and the calls
    it made to its sink.  The value [None] stands for a failed assertion
    or an access to a queue that was deleted. *)

From S2P Require Import Prelude Frame Ypipe Upipe.

Inductive pipe_state :=
| active | delimiter_received | waiting_for_delimiter | term_ack_sent | term_req_sent1 | term_req_sent2.

#[export] Instance pipe_state_eq_dec : EqDecision pipe_state.
Proof. solve_decision. Defined.

(** The commands of src/src/command.hpp an endpoint sends to its peer. *)
Inductive pipe_cmd :=
| activate_read
| activate_write (msgs_read : Z)
| hiccup (pipe : Z)
| pipe_term
| pipe_term_ack
| pipe_hwm (inhwm outhwm : Z)
| pipe_peer_stats (queue_count socket : Z).

(** The methods of [i_pipe_events], and the statistics an endpoint
    publishes on a socket. *)
Inductive pipe_event :=
| read_activated | write_activated | hiccuped | pipe_terminated
| pipe_stats_publish (socket outbound_queue_count inbound_queue_count : Z).

Record pipe := Pipe {
  pi_in_pipe : Z;
  pi_out_pipe : option Z;
  pi_in_active : bool;
  pi_out_active : bool;
  pi_hwm : Z;
  pi_lwm : Z;
  pi_in_hwm_boost : Z;
  pi_out_hwm_boost : Z;
  pi_msgs_read : Z;
  pi_msgs_written : Z;
  pi_peers_msgs_read : Z;
  pi_state : pipe_state;
  pi_delay : bool;
  pi_conflate : bool;
}.

Definition set_in_pipe (p : pipe) (v : Z) : pipe :=
  Pipe v (pi_out_pipe p) (pi_in_active p) (pi_out_active p) (pi_hwm p) (pi_lwm p) (pi_in_hwm_boost p)
    (pi_out_hwm_boost p) (pi_msgs_read p) (pi_msgs_written p) (pi_peers_msgs_read p) (pi_state p)
    (pi_delay p) (pi_conflate p).
Definition set_out_pipe (p : pipe) (v : option Z) : pipe :=
  Pipe (pi_in_pipe p) v (pi_in_active p) (pi_out_active p) (pi_hwm p) (pi_lwm p) (pi_in_hwm_boost p)
    (pi_out_hwm_boost p) (pi_msgs_read p) (pi_msgs_written p) (pi_peers_msgs_read p) (pi_state p)
    (pi_delay p) (pi_conflate p).
Definition set_in_active (p : pipe) (v : bool) : pipe :=
  Pipe (pi_in_pipe p) (pi_out_pipe p) v (pi_out_active p) (pi_hwm p) (pi_lwm p) (pi_in_hwm_boost p)
    (pi_out_hwm_boost p) (pi_msgs_read p) (pi_msgs_written p) (pi_peers_msgs_read p) (pi_state p)
    (pi_delay p) (pi_conflate p).
Definition set_out_active (p : pipe) (v : bool) : pipe :=
  Pipe (pi_in_pipe p) (pi_out_pipe p) (pi_in_active p) v (pi_hwm p) (pi_lwm p) (pi_in_hwm_boost p)
    (pi_out_hwm_boost p) (pi_msgs_read p) (pi_msgs_written p) (pi_peers_msgs_read p) (pi_state p)
    (pi_delay p) (pi_conflate p).
Definition set_hwm_lwm (p : pipe) (h l : Z) : pipe :=
  Pipe (pi_in_pipe p) (pi_out_pipe p) (pi_in_active p) (pi_out_active p) h l (pi_in_hwm_boost p)
    (pi_out_hwm_boost p) (pi_msgs_read p) (pi_msgs_written p) (pi_peers_msgs_read p) (pi_state p)
    (pi_delay p) (pi_conflate p).
Definition set_boosts (p : pipe) (a b : Z) : pipe :=
  Pipe (pi_in_pipe p) (pi_out_pipe p) (pi_in_active p) (pi_out_active p) (pi_hwm p) (pi_lwm p) a b
    (pi_msgs_read p) (pi_msgs_written p) (pi_peers_msgs_read p) (pi_state p) (pi_delay p)
    (pi_conflate p).
Definition set_msgs_read (p : pipe) (v : Z) : pipe :=
  Pipe (pi_in_pipe p) (pi_out_pipe p) (pi_in_active p) (pi_out_active p) (pi_hwm p) (pi_lwm p)
    (pi_in_hwm_boost p) (pi_out_hwm_boost p) v (pi_msgs_written p) (pi_peers_msgs_read p)
    (pi_state p) (pi_delay p) (pi_conflate p).
Definition set_msgs_written (p : pipe) (v : Z) : pipe :=
  Pipe (pi_in_pipe p) (pi_out_pipe p) (pi_in_active p) (pi_out_active p) (pi_hwm p) (pi_lwm p)
    (pi_in_hwm_boost p) (pi_out_hwm_boost p) (pi_msgs_read p) v (pi_peers_msgs_read p) (pi_state p)
    (pi_delay p) (pi_conflate p).
Definition set_peers_msgs_read (p : pipe) (v : Z) : pipe :=
  Pipe (pi_in_pipe p) (pi_out_pipe p) (pi_in_active p) (pi_out_active p) (pi_hwm p) (pi_lwm p)
    (pi_in_hwm_boost p) (pi_out_hwm_boost p) (pi_msgs_read p) (pi_msgs_written p) v (pi_state p)
    (pi_delay p) (pi_conflate p).
Definition set_state (p : pipe) (v : pipe_state) : pipe :=
  Pipe (pi_in_pipe p) (pi_out_pipe p) (pi_in_active p) (pi_out_active p) (pi_hwm p) (pi_lwm p)
    (pi_in_hwm_boost p) (pi_out_hwm_boost p) (pi_msgs_read p) (pi_msgs_written p)
    (pi_peers_msgs_read p) v (pi_delay p) (pi_conflate p).
Definition set_delay (p : pipe) (v : bool) : pipe :=
  Pipe (pi_in_pipe p) (pi_out_pipe p) (pi_in_active p) (pi_out_active p) (pi_hwm p) (pi_lwm p)
    (pi_in_hwm_boost p) (pi_out_hwm_boost p) (pi_msgs_read p) (pi_msgs_written p)
    (pi_peers_msgs_read p) (pi_state p) v (pi_conflate p).

(** [compute_lwm]; the sum overflows an [int] at the largest value. *)
Definition compute_lwm (hwm : Z) : Z := Z.quot (i32 (hwm + 1)) 2.

Section pipe.
Context {U : Type} `{YpipeBase U}.

Record penv := Penv {
  e_self : pipe;
  e_heap : gmap Z U;
  e_sent : list pipe_cmd;
  e_events : list pipe_event;
}.

Definition upd (e : penv) (f : pipe -> pipe) : penv := Penv (f (e_self e)) (e_heap e) (e_sent e) (e_events e).
Definition send (e : penv) (c : pipe_cmd) : penv := Penv (e_self e) (e_heap e) (e_sent e ++ [c]) (e_events e).
Definition emit (e : penv) (v : pipe_event) : penv := Penv (e_self e) (e_heap e) (e_sent e) (e_events e ++ [v]).
Definition set_heap (e : penv) (h : gmap Z U) : penv := Penv (e_self e) h (e_sent e) (e_events e).

Definition st (e : penv) : pipe_state := pi_state (e_self e).
Definition goto (e : penv) (s : pipe_state) : penv := upd e (fun p => set_state p s).

(** A method of a queue. *)
Definition on_queue {A} (e : penv) (q : Z) (m : U -> option (U * A)) : option (penv * A) :=
  let* u := e_heap e !! q in
  let* (u', a) := m u in
  Some (set_heap e (<[q := u']> (e_heap e)), a).

Definition on_in {A} (e : penv) (m : U -> option (U * A)) : option (penv * A) :=
  on_queue e (pi_in_pipe (e_self e)) m.

Definition on_out {A} (e : penv) (m : U -> option (U * A)) : option (penv * A) :=
  let* q := pi_out_pipe (e_self e) in on_queue e q m.

Definition queue_write (f : frame) (incomplete : bool) (u : U) : option (U * unit) :=
  let* u' := up_write u f incomplete in Some (u', tt).

(** [new] of a queue: an address not in use. *)
Definition queue_new (h : gmap Z U) (conflate : bool) : option (gmap Z U * Z) :=
  let* u := up_new conflate in
  let q := fresh (dom h) in
  Some (<[q := u]> h, q).

Definition queue_delete (h : gmap Z U) (q : Z) : option (gmap Z U) :=
  match h !! q with Some _ => Some (delete q h) | None => None end.

(** The loops over a queue run until it is empty; [fuel] is more than the
    messages it can hold. *)
Context (fuel : nat).

(** ** Reading *)

Definition process_delimiter (e : penv) : option penv :=
  zmq_assert (bool_decide (st e = active) || bool_decide (st e = waiting_for_delimiter)) ;;
  if bool_decide (st e = active) then Some (goto e delimiter_received)
  else Some (goto (send (upd e (fun p => set_out_pipe p None)) pipe_term_ack) term_ack_sent).

Definition may_read (e : penv) : bool :=
  bool_decide (st e = active) || bool_decide (st e = waiting_for_delimiter).

Definition pipe_check_read (e : penv) : option (penv * bool) :=
  if negb (pi_in_active (e_self e)) then Some (e, false)
  else if negb (may_read e) then Some (e, false)
  else
    let* (e, b) := on_in e up_check_read in
    if negb b then Some (upd e (fun p => set_in_active p false), false)
    else
      let* (e, d) := on_in e (fun u => up_probe u fr_is_delimiter) in
      if (d : bool) then
        let* (e, m) := on_in e up_read in
        zmq_assert (bool_decide (is_Some m)) ;;
        let* e := process_delimiter e in
        Some (e, false)
      else Some (e, true).

(** The loop of [read]: credentials are dropped. *)
Fixpoint read_loop (n : nat) (e : penv) : option (penv * option frame) :=
  match n with
  | O => None
  | S n' =>
      let* (e, m) := on_in e up_read in
      match m with
      | None => Some (upd e (fun p => set_in_active p false), None)
      | Some f => if fr_is_credential f then read_loop n' e else Some (e, Some f)
      end
  end.

Definition count_read (e : penv) (f : frame) : penv :=
  let e := if negb (fr_more f) && negb (fr_is_routing_id f)
           then upd e (fun p => set_msgs_read p (u64 (pi_msgs_read p + 1))) else e in
  if (0 <? pi_lwm (e_self e)) && (pi_msgs_read (e_self e) mod pi_lwm (e_self e) =? 0)
  then send e (activate_write (pi_msgs_read (e_self e))) else e.

Definition pipe_read (e : penv) : option (penv * option frame) :=
  if negb (pi_in_active (e_self e)) then Some (e, None)
  else if negb (may_read e) then Some (e, None)
  else
    let* (e, m) := read_loop fuel e in
    match m with
    | None => Some (e, None)
    | Some f =>
        if fr_is_delimiter f then let* e := process_delimiter e in Some (e, None)
        else Some (count_read e f, Some f)
    end.

(** ** Writing *)

Definition check_hwm (p : pipe) : bool :=
  let full := (0 <? pi_hwm p) && (pi_hwm p <=? u64 (pi_msgs_written p - pi_peers_msgs_read p)) in
  negb full.

Definition pipe_check_write (e : penv) : penv * bool :=
  if negb (pi_out_active (e_self e)) || negb (bool_decide (st e = active)) then (e, false)
  else
    let full := negb (check_hwm (e_self e)) in
    if full then (upd e (fun p => set_out_active p false), false) else (e, true).

Definition pipe_write (e : penv) (f : frame) : option (penv * bool) :=
  let '(e, b) := pipe_check_write e in
  if negb b then Some (e, false)
  else
    let more := fr_more f in
    let* (e, _) := on_out e (queue_write f more) in
    Some (if negb more && negb (fr_is_routing_id f)
          then upd e (fun p => set_msgs_written p (u64 (pi_msgs_written p + 1))) else e, true).

Fixpoint rollback_loop (n : nat) (e : penv) : option penv :=
  match n with
  | O => None
  | S n' =>
      let* (e, m) := on_out e up_unwrite in
      match m with
      | None => Some e
      | Some f => zmq_assert (fr_more f) ;; rollback_loop n' e
      end
  end.

Definition pipe_rollback (e : penv) : option penv :=
  match pi_out_pipe (e_self e) with None => Some e | Some _ => rollback_loop fuel e end.

Definition pipe_flush (e : penv) : option penv :=
  if bool_decide (st e = term_ack_sent) then Some e
  else
    match pi_out_pipe (e_self e) with
    | None => Some e
    | Some _ =>
        let* (e, b) := on_out e up_flush in
        Some (if negb b then send e activate_read else e)
    end.

(** ** Commands of the peer *)

Definition process_activate_read (e : penv) : penv :=
  if negb (pi_in_active (e_self e)) && may_read e
  then emit (upd e (fun p => set_in_active p true)) read_activated else e.

Definition process_activate_write (e : penv) (msgs_read : Z) : penv :=
  let e := upd e (fun p => set_peers_msgs_read p msgs_read) in
  if negb (pi_out_active (e_self e)) && bool_decide (st e = active)
  then emit (upd e (fun p => set_out_active p true)) write_activated else e.

(** The messages left in the old queue are dropped. *)
Fixpoint hiccup_loop (n : nat) (e : penv) : option penv :=
  match n with
  | O => None
  | S n' =>
      let* (e, m) := on_out e up_read in
      match m with
      | None => Some e
      | Some f =>
          hiccup_loop n' (if negb (fr_more f)
                          then upd e (fun p => set_msgs_written p (u64 (pi_msgs_written p - 1))) else e)
      end
  end.

Definition process_hiccup (e : penv) (q : Z) : option penv :=
  let* old := pi_out_pipe (e_self e) in
  let* (e, _) := on_out e up_flush in
  let* e := hiccup_loop fuel e in
  let* h := queue_delete (e_heap e) old in
  let e := upd (set_heap e h) (fun p => set_out_active (set_out_pipe p (Some q)) true) in
  Some (if bool_decide (st e = active) then emit e hiccuped else e).

Definition ack_peer (e : penv) (s : pipe_state) : penv :=
  send (upd e (fun p => set_out_pipe (set_state p s) None)) pipe_term_ack.

Definition process_pipe_term (e : penv) : option penv :=
  match st e with
  | active =>
      if pi_delay (e_self e) then Some (goto e waiting_for_delimiter) else Some (ack_peer e term_ack_sent)
  | delimiter_received => Some (ack_peer e term_ack_sent)
  | term_req_sent1 => Some (ack_peer e term_req_sent2)
  | _ => None
  end.

Fixpoint drain_loop (n : nat) (e : penv) : option penv :=
  match n with
  | O => None
  | S n' =>
      let* (e, m) := on_in e up_read in
      match m with None => Some e | Some _ => drain_loop n' e end
  end.

(** The endpoint deletes itself at the end. *)
Definition process_pipe_term_ack (e : penv) : option penv :=
  let e := emit e pipe_terminated in
  let* e := match st e with
            | term_req_sent1 => Some (send (upd e (fun p => set_out_pipe p None)) pipe_term_ack)
            | term_ack_sent | term_req_sent2 => Some e
            | _ => None
            end in
  let* e := if negb (pi_conflate (e_self e)) then drain_loop fuel e else Some e in
  let* h := queue_delete (e_heap e) (pi_in_pipe (e_self e)) in
  Some (set_heap e h).

Definition pipe_set_hwms (e : penv) (inhwm outhwm : Z) : penv :=
  let p := e_self e in
  let i := i32 (inhwm + Z.max (pi_in_hwm_boost p) 0) in
  let o := i32 (outhwm + Z.max (pi_out_hwm_boost p) 0) in
  let i := if (inhwm <=? 0) || (pi_in_hwm_boost p =? 0) then 0 else i in
  let o := if (outhwm <=? 0) || (pi_out_hwm_boost p =? 0) then 0 else o in
  upd e (fun p => set_hwm_lwm p o (compute_lwm i)).

Definition pipe_set_hwms_boost (e : penv) (inboost outboost : Z) : penv :=
  upd e (fun p => set_boosts p inboost outboost).

Definition process_pipe_hwm (e : penv) (inhwm outhwm : Z) : penv := pipe_set_hwms e inhwm outhwm.

Definition pipe_send_hwms_to_peer (e : penv) (inhwm outhwm : Z) : penv := send e (pipe_hwm inhwm outhwm).

Definition pipe_send_stats_to_peer (e : penv) (socket : Z) : penv :=
  send e (pipe_peer_stats (u64 (pi_msgs_written (e_self e) - pi_peers_msgs_read (e_self e))) socket).

Definition process_pipe_peer_stats (e : penv) (queue_count socket : Z) : penv :=
  emit e (pipe_stats_publish socket queue_count
            (u64 (pi_msgs_written (e_self e) - pi_peers_msgs_read (e_self e)))).

(** ** Shutting down *)

Definition pipe_set_nodelay (e : penv) : penv := upd e (fun p => set_delay p false).

(** The end of [terminate]. *)
Definition terminate_outbound (e : penv) : option penv :=
  let e := upd e (fun p => set_out_active p false) in
  match pi_out_pipe (e_self e) with
  | None => Some e
  | Some _ =>
      let* e := pipe_rollback e in
      let* (e, _) := on_out e (queue_write (Frame type_delimiter 0 []) false) in
      pipe_flush e
  end.

Definition pipe_terminate (e : penv) (delay : bool) : option penv :=
  let e := upd e (fun p => set_delay p delay) in
  match st e with
  | term_req_sent1 | term_req_sent2 | term_ack_sent => Some e
  | active | delimiter_received =>
      terminate_outbound (goto (send e pipe_term) term_req_sent1)
  | waiting_for_delimiter =>
      if negb delay then
        let* e := pipe_rollback e in
        terminate_outbound
          (goto (send (upd e (fun p => set_out_pipe p None)) pipe_term_ack) term_ack_sent)
      else terminate_outbound e
  end.

Definition pipe_hiccup (e : penv) : option penv :=
  if negb (bool_decide (st e = active)) then Some e
  else
    let* (h, q) := queue_new (e_heap e) (pi_conflate (e_self e)) in
    let e := upd (set_heap e h) (fun p => set_in_active (set_in_pipe p q) true) in
    Some (send e (hiccup q)).

(** [send_routing_id]. *)
Definition send_routing_id (e : penv) (routing_id : bytes) : option penv :=
  let id := Frame (if Z.of_nat (length routing_id) <=? 33 then type_vsm else type_lmsg) flag_routing_id routing_id in
  let* (e, written) := pipe_write e id in
  zmq_assert (written : bool) ;;
  pipe_flush e.

(** ** A command is processed; [true] when the endpoint was deleted *)

Definition process_command (e : penv) (c : pipe_cmd) : option (penv * bool) :=
  match c with
  | activate_read => Some (process_activate_read e, false)
  | activate_write n => Some (process_activate_write e n, false)
  | hiccup q => let* e := process_hiccup e q in Some (e, false)
  | pipe_term => let* e := process_pipe_term e in Some (e, false)
  | pipe_term_ack => let* e := process_pipe_term_ack e in Some (e, true)
  | pipe_hwm i o => Some (process_pipe_hwm e i o, false)
  | pipe_peer_stats n s => Some (process_pipe_peer_stats e n s, false)
  end.

(** ** The pair *)

Definition pipe_new (inpipe outpipe inhwm outhwm : Z) (conflate : bool) : pipe :=
  Pipe inpipe (Some outpipe) true true outhwm (compute_lwm inhwm) (-1) (-1) 0 0 0 active true conflate.

(** The endpoints, the commands on their way to each, and the queues.
    Side [false] is [pipes_[0]]. *)
Record world := World {
  w_pipe : bool -> option pipe;
  w_chan : bool -> list pipe_cmd;
  w_heap : gmap Z U;
}.

Definition pipepair (hwm0 hwm1 : Z) (conflate0 conflate1 : bool) : option world :=
  let* (h, upipe1) := queue_new ∅ conflate0 in
  let* (h, upipe2) := queue_new h conflate1 in
  let p0 := pipe_new upipe1 upipe2 hwm1 hwm0 conflate0 in
  let p1 := pipe_new upipe2 upipe1 hwm0 hwm1 conflate1 in
  Some (World (fun s => Some (if s then p1 else p0)) (fun _ => []) h).

End pipe.
Arguments penv : clear implicits.
Arguments world : clear implicits.
