(* ===== verification/PipePair.v ===== *)
(** * A pair of pipes

    Two endpoints of Pipe.v, driven by any interleaving of calls by their
    owners and deliveries of commands.  Commands between two threads
    arrive in order (src/src/mailbox.cpp), so that the commands on their
    way to an endpoint are a list. *)

From S2P Require Import Prelude Frame Ypipe Upipe Pipe.

(** ** The pair as a machine *)

Inductive pipe_act :=
| PCheckRead | PRead | PCheckWrite | PWrite (f : frame) | PRollback | PFlush | PHiccup
| PTerminate (delay : bool) | PSetNodelay | PSetHwms (inhwm outhwm : Z) | PSetBoost (inboost outboost : Z)
| PSendHwms (inhwm outhwm : Z) | PSendStats (socket : Z).

Inductive pair_act := Call (side : bool) (a : pipe_act) | Deliver (side : bool).

Inductive pipe_obs := OUnit | OBool (b : bool) | OMsg (m : option frame).

Definition upd_side {A} (f : bool -> A) (s : bool) (v : A) : bool -> A :=
  fun s' => if Bool.eqb s' s then v else f s'.

Section pair.
Context {U : Type} `{YpipeBase U} (fuel : nat).

Definition pipe_call (e : penv U) (a : pipe_act) : option (penv U * pipe_obs) :=
  match a with
  | PCheckRead => let* (e, b) := pipe_check_read e in Some (e, OBool b)
  | PRead => let* (e, m) := pipe_read fuel e in Some (e, OMsg m)
  | PCheckWrite => let '(e, b) := pipe_check_write e in Some (e, OBool b)
  | PWrite f => let* (e, b) := pipe_write e f in Some (e, OBool b)
  | PRollback => let* e := pipe_rollback fuel e in Some (e, OUnit)
  | PFlush => let* e := pipe_flush e in Some (e, OUnit)
  | PHiccup => let* e := pipe_hiccup e in Some (e, OUnit)
  | PTerminate delay => let* e := pipe_terminate fuel e delay in Some (e, OUnit)
  | PSetNodelay => Some (pipe_set_nodelay e, OUnit)
  | PSetHwms i o => Some (pipe_set_hwms e i o, OUnit)
  | PSetBoost i o => Some (pipe_set_hwms_boost e i o, OUnit)
  | PSendHwms i o => Some (pipe_send_hwms_to_peer e i o, OUnit)
  | PSendStats s => Some (pipe_send_stats_to_peer e s, OUnit)
  end.

(** What a method did becomes visible: its commands go to the peer, which
    must still exist. *)
Definition pair_close (w : world U) (s : bool) (e : penv U) (deleted : bool) : option (world U) :=
  zmq_assert (bool_decide (e_sent e = []) || bool_decide (is_Some (w_pipe w (negb s)))) ;;
  Some (World (upd_side (w_pipe w) s (if deleted then None else Some (e_self e)))
              (upd_side (w_chan w) (negb s) (w_chan w (negb s) ++ e_sent e))
              (e_heap e)).

(** A call on an endpoint that was deleted is not made: its owner got
    [pipe_terminated].  A command to one is an error. *)
Definition pair_step (w : world U) (a : pair_act) : option (world U * pipe_obs * list pipe_event) :=
  match a with
  | Call s a =>
      match w_pipe w s with
      | None => Some (w, OUnit, [])
      | Some p =>
          let* (e, o) := pipe_call (Penv p (w_heap w) [] []) a in
          let* w := pair_close w s e false in
          Some (w, o, e_events e)
      end
  | Deliver s =>
      match w_chan w s with
      | [] => Some (w, OUnit, [])
      | c :: cs =>
          let* p := w_pipe w s in
          let* (e, deleted) := process_command fuel (Penv p (w_heap w) [] []) c in
          let* w := pair_close (World (w_pipe w) (upd_side (w_chan w) s cs) (w_heap w)) s e deleted in
          Some (w, OUnit, e_events e)
      end
  end.

Fixpoint pair_run (w : world U) (acts : list pair_act) : option (world U * list (pair_act * pipe_obs * list pipe_event)) :=
  match acts with
  | [] => Some (w, [])
  | a :: acts' =>
      let* (w, o, evs) := pair_step w a in
      let* (w, log) := pair_run w acts' in
      Some (w, (a, o, evs) :: log)
  end.
End pair.

(** ** The handshake of termination

    The states of the two endpoints ([None] when deleted) and the
    termination commands on their way, in the ten shapes they take, up
    to exchanging the endpoints. *)

Inductive ctl_cmd := CTerm | CAck.

Definition ctl (l : list pipe_cmd) : list ctl_cmd :=
  omap (fun c => match c with pipe_term => Some CTerm | pipe_term_ack => Some CAck | _ => None end) l.

(** The states before [terminate] was called or asked for. *)
Definition is_open (s : pipe_state) : Prop := s = active \/ s = delimiter_received.

(** [cfg1 a b ab ba]: [ab] was sent by [a]. *)
Inductive cfg1 : option pipe_state -> option pipe_state -> list ctl_cmd -> list ctl_cmd -> Prop :=
| cfg_open a b : is_open a -> is_open b -> cfg1 (Some a) (Some b) [] []
| cfg_asked b : is_open b -> cfg1 (Some term_req_sent1) (Some b) [CTerm] []
| cfg_waiting : cfg1 (Some term_req_sent1) (Some waiting_for_delimiter) [] []
| cfg_acked : cfg1 (Some term_req_sent1) (Some term_ack_sent) [] [CAck]
| cfg_one_left : cfg1 None (Some term_ack_sent) [CAck] []
| cfg_both : cfg1 (Some term_req_sent1) (Some term_req_sent1) [CTerm] [CTerm]
| cfg_both_half : cfg1 (Some term_req_sent2) (Some term_req_sent1) [CTerm; CAck] []
| cfg_both_acked : cfg1 (Some term_req_sent2) (Some term_req_sent2) [CAck] [CAck]
| cfg_both_one : cfg1 None (Some term_req_sent2) [CAck] []
| cfg_closed : cfg1 None None [] [].

Definition cfg (a b : option pipe_state) (ab ba : list ctl_cmd) : Prop := cfg1 a b ab ba \/ cfg1 b a ba ab.

Lemma cfg_sym a b ab ba : cfg a b ab ba -> cfg b a ba ab.
Proof. intros [?|?]; [by right|by left]. Qed.

Ltac cfg_cases H :=
  destruct H as [H|H]; inversion H; subst; clear H;
  repeat match goal with Ho : is_open _ |- _ => destruct Ho end; subst; try done.

Ltac cfg_solve := first [left; constructor; (by left) || (by right) || done | right; constructor; (by left) || (by right) || done].

(** An endpoint that may send. *)
Definition may_send (s : pipe_state) : Prop :=
  is_open s \/ s = waiting_for_delimiter \/ s = term_req_sent1.

Lemma cfg_may_send s b ab ba : cfg (Some s) b ab ba -> may_send s -> is_Some b /\ CAck ∉ ab.
Proof.
  intros Hc Hs. unfold may_send, is_open in Hs.
  cfg_cases Hc; (split; [by eexists|set_solver]) || (destruct Hs as [[|]|[|]]; done).
Qed.

Lemma cfg_is_open s b ab ba : cfg (Some s) b ab ba -> is_open s ->
  ab = [] /\ exists s', b = Some s' /\ (is_open s' \/ s' = term_req_sent1).
Proof.
  intros Hc [-> | ->]; cfg_cases Hc; (split; [done|]); eexists; (split; [done|]); unfold is_open; tauto.
Qed.

Lemma cfg_waiting_peer b ab ba : cfg (Some waiting_for_delimiter) b ab ba ->
  b = Some term_req_sent1 /\ ab = [] /\ ba = [].
Proof. intros Hc. cfg_cases Hc. Qed.

Lemma cfg_delim b ab ba : cfg (Some active) b ab ba -> cfg (Some delimiter_received) b ab ba.
Proof. intros Hc. cfg_cases Hc; cfg_solve. Qed.

Lemma cfg_terminate s b ab ba : is_open s -> cfg (Some s) b ab ba -> cfg (Some term_req_sent1) b (ab ++ [CTerm]) ba.
Proof. intros [-> | ->] Hc; cfg_cases Hc; cfg_solve. Qed.

Lemma cfg_term_delay b ab ba : cfg (Some active) b ab (CTerm :: ba) -> cfg (Some waiting_for_delimiter) b ab ba.
Proof. intros Hc. cfg_cases Hc; cfg_solve. Qed.

Lemma cfg_term_ack s b ab ba : is_open s -> cfg (Some s) b ab (CTerm :: ba) -> cfg (Some term_ack_sent) b (ab ++ [CAck]) ba.
Proof. intros [-> | ->] Hc; cfg_cases Hc; cfg_solve. Qed.

Lemma cfg_term_req b ab ba : cfg (Some term_req_sent1) b ab (CTerm :: ba) -> cfg (Some term_req_sent2) b (ab ++ [CAck]) ba.
Proof. intros Hc. cfg_cases Hc; cfg_solve. Qed.

Lemma cfg_wait_ack b ab ba : cfg (Some waiting_for_delimiter) b ab ba -> cfg (Some term_ack_sent) b (ab ++ [CAck]) ba.
Proof. intros Hc. cfg_cases Hc; cfg_solve. Qed.

Lemma cfg_ack_req1 b ab ba : cfg (Some term_req_sent1) b ab (CAck :: ba) -> cfg None b (ab ++ [CAck]) ba.
Proof. intros Hc. cfg_cases Hc; cfg_solve. Qed.

Lemma cfg_ack_other s b ab ba : s = term_ack_sent \/ s = term_req_sent2 ->
  cfg (Some s) b ab (CAck :: ba) -> cfg None b ab ba.
Proof. intros [-> | ->] Hc; cfg_cases Hc; cfg_solve. Qed.

Lemma cfg_term_state s b ab ba : cfg (Some s) b ab (CTerm :: ba) -> is_open s \/ s = term_req_sent1.
Proof. unfold is_open. intros Hc. cfg_cases Hc; tauto. Qed.

Lemma cfg_ack_state s b ab ba : cfg (Some s) b ab (CAck :: ba) ->
  s = term_req_sent1 \/ s = term_ack_sent \/ s = term_req_sent2.
Proof. intros Hc. cfg_cases Hc; tauto. Qed.

(** ** Commands on their way *)

Definition hics (l : list pipe_cmd) : list Z := omap (fun c => match c with hiccup q => Some q | _ => None end) l.

(** Nothing follows an acknowledgement. *)
Fixpoint ack_last (l : list pipe_cmd) : Prop :=
  match l with [] => True | pipe_term_ack :: l' => l' = [] | _ :: l' => ack_last l' end.

(** No hiccup follows a request to terminate. *)
Fixpoint hics_first (l : list pipe_cmd) : Prop :=
  match l with [] => True | pipe_term :: l' => hics l' = [] | _ :: l' => hics_first l' end.

Lemma ctl_app l l' : ctl (l ++ l') = ctl l ++ ctl l'.
Proof. apply omap_app. Qed.

Lemma hics_app l l' : hics (l ++ l') = hics l ++ hics l'.
Proof. apply omap_app. Qed.

Lemma ack_last_snoc l c : ack_last l -> CAck ∉ ctl l -> ack_last (l ++ [c]).
Proof.
  induction l as [|d l IH]; intros Hl Hn; [by destruct c|].
  destruct d; simpl in *; try (apply IH; [done|set_solver]). set_solver.
Qed.

Lemma hics_first_snoc l c : hics_first l -> CTerm ∉ ctl l \/ hics [c] = [] -> hics_first (l ++ [c]).
Proof.
  induction l as [|d l IH]; intros Hl Hn; [by destruct c|].
  destruct Hn as [Hn|Hn]; destruct d; cbn [hics_first app] in *; try (apply IH; [done|(right; exact Hn) || (left; simpl in Hn; set_solver)]);
    rewrite hics_app, Hl, ?Hn; set_solver.
Qed.

Lemma hics_first_none l : hics l = [] -> hics_first l.
Proof. induction l as [|d l IH]; [done|]. destruct d; simpl; intros; by try apply IH. Qed.

Lemma ack_last_tail c l : ack_last (c :: l) -> ack_last l.
Proof. destruct c; simpl; try done. by intros ->. Qed.

Lemma hics_first_tail c l : hics_first (c :: l) -> hics_first l.
Proof. destruct c; simpl; try done. apply hics_first_none. Qed.

(** ** The invariant *)

Definition p_state (p : option pipe) : option pipe_state := pi_state <$> p.
Definition p_out (p : option pipe) : option Z := let* x := p in pi_out_pipe x.

Definition out_dropped (s : pipe_state) : Prop := s = term_ack_sent \/ s = term_req_sent2.
Definition asked (s : option pipe_state) : Prop := s = Some term_req_sent1 \/ s = Some term_req_sent2.

(** The queues from endpoint [p] to [po]: the one [p] writes to and those
    [po] replaced it by in hiccups [p] has not seen; once [p] has dropped
    its reference, the one [po] reads from. *)
Definition queues_to (p po : option pipe) (to_p : list pipe_cmd) : list Z :=
  match p_out p with
  | Some u => u :: hics to_p
  | None => match po with Some y => [pi_in_pipe y] | None => [] end
  end.

(** One endpoint [p], its peer and the commands on their way to [p]. *)
Record half (p po : option pipe) (to_p : list pipe_cmd) : Prop := {
  h_gone : p = None -> to_p = [];
  h_ack : ack_last to_p;
  h_first : hics_first to_p;
  h_asked : asked (p_state po) -> CTerm ∉ ctl to_p -> hics to_p = [];
  h_dropped x : p = Some x -> pi_out_pipe x = None <-> out_dropped (pi_state x);
  h_chain u : p_out p = Some u -> exists y, po = Some y /\ list.last (u :: hics to_p) = Some (pi_in_pipe y);
  h_nohic : p_out p = None -> hics to_p = [];
  h_conflate x : p = Some x -> pi_conflate x = false;
}.

Section inv.
Context {U : Type} `{YpipeLaws U}.

Definition queue_ok (k : nat) (u : U) : Prop :=
  exists s, up_rep u s /\ Forall (fun f => fr_more f = true) (pq_part s) /\
    (length (pq_items s) + length (pq_done s) + length (pq_part s) <= k)%nat.

Record inv (k : nat) (pa pb : option pipe) (to_a to_b : list pipe_cmd) (h : gmap Z U) : Prop := {
  i_cfg : cfg (p_state pa) (p_state pb) (ctl to_b) (ctl to_a);
  i_a : half pa pb to_a;
  i_b : half pb pa to_b;
  i_nodup : NoDup (queues_to pa pb to_a ++ queues_to pb pa to_b);
  i_dom q : is_Some (h !! q) <-> q ∈ queues_to pa pb to_a ++ queues_to pb pa to_b;
  i_ok q u : h !! q = Some u -> queue_ok k u;
}.

Lemma inv_sym k pa pb ta tb h : inv k pa pb ta tb h -> inv k pb pa tb ta h.
Proof.
  intros [Hc Ha Hb Hn Hd Hq]. constructor; try done.
  - by apply cfg_sym.
  - by rewrite (Permutation_app_comm _ _).
  - intros q. rewrite Hd, !elem_of_app. tauto.
Qed.

Lemma queue_ok_mono k k' u : (k <= k')%nat -> queue_ok k u -> queue_ok k' u.
Proof. intros Hk (s & ? & ? & ?). exists s. split_and!; try done. lia. Qed.

Lemma inv_mono k k' pa pb ta tb h : (k <= k')%nat -> inv k pa pb ta tb h -> inv k' pa pb ta tb h.
Proof. intros Hk []. constructor; try done. intros. eapply queue_ok_mono; eauto. Qed.

(** *** The steps an endpoint is made of *)

(** The fields the invariant does not mention may change. *)
Definition same_core (p p' : pipe) : Prop :=
  pi_in_pipe p' = pi_in_pipe p /\ pi_out_pipe p' = pi_out_pipe p /\ pi_state p' = pi_state p /\
  pi_conflate p' = pi_conflate p.

Lemma half_core p p' po to : same_core p p' -> half (Some p) po to -> half (Some p') po to.
Proof.
  intros (Hi & Ho & Hs & Hc) [H1 H2 H3 H4 H5 H6 H7 H8]. unfold p_out in *. simpl in *.
  constructor; unfold p_out; simpl; try done.
  - intros x [= <-]. rewrite Ho, Hs. by apply H5.
  - by rewrite Ho.
  - by rewrite Ho.
  - intros x [= <-]. rewrite Hc. by apply H8.
Qed.

Lemma half_peer_core p po po' to : same_core po po' -> half p (Some po) to -> half p (Some po') to.
Proof.
  intros (Hi & Ho & Hs & Hc) [H1 H2 H3 H4 H5 H6 H7 H8]. constructor; try done.
  - unfold p_state in *. simpl in *. by rewrite Hs.
  - intros u Hu. destruct (H6 u Hu) as (y & [= ->] & Hl). exists po'. by rewrite Hi.
Qed.

Lemma inv_core k p p' pb ta tb h : same_core p p' -> inv k (Some p) pb ta tb h -> inv k (Some p') pb ta tb h.
Proof.
  intros Hc [H1 H2 H3 H4 H5 H6]. pose proof Hc as (Hi & Ho & Hs & _).
  assert (queues_to (Some p') pb ta = queues_to (Some p) pb ta) as E1.
  { unfold queues_to, p_out. simpl. by rewrite Ho. }
  assert (queues_to pb (Some p') tb = queues_to pb (Some p) tb) as E2.
  { unfold queues_to. by rewrite Hi. }
  constructor; rewrite ?E1, ?E2; try done.
  - unfold p_state in *. simpl in *. by rewrite Hs.
  - by apply (half_core p).
  - by apply (half_peer_core _ p).
Qed.

(** A queue in use changes. *)
Lemma inv_queue k pa pb ta tb h q u u' : inv k pa pb ta tb h -> h !! q = Some u -> queue_ok k u' ->
  inv k pa pb ta tb (<[q := u']> h).
Proof.
  intros [H1 H2 H3 H4 H5 H6] Hq Hu. constructor; try done.
  - intros q'. rewrite <- H5. rewrite lookup_insert. case_decide; subst; [|done].
    rewrite Hq. split; intros; by eexists.
  - intros q' v. rewrite lookup_insert. case_decide; [by intros [= <-]|eauto].
Qed.

(** A command that is not part of the handshake. *)
Definition plain_cmd (c : pipe_cmd) : Prop := ctl [c] = [] /\ hics [c] = [].

Lemma half_send p po to c : plain_cmd c -> half p po to -> CAck ∉ ctl to -> p <> None -> half p po (to ++ [c]).
Proof.
  intros [Hc1 Hc2] [H1 H2 H3 H4 H5 H6 H7 H8] Hk Hp.
  constructor; rewrite ?ctl_app, ?hics_app, ?Hc1, ?Hc2, ?app_nil_r; try done.
  - by apply ack_last_snoc.
  - apply hics_first_snoc; [done|]. by right.
Qed.

Lemma inv_send k p pb ta tb h c : inv k (Some p) pb ta tb h -> may_send (pi_state p) -> plain_cmd c ->
  inv k (Some p) pb ta (tb ++ [c]) h.
Proof.
  intros [H1 H2 H3 H4 H5 H6] Hs Hc. destruct (cfg_may_send _ _ _ _ H1 Hs) as [[y Hy] Hk].
  assert (queues_to pb (Some p) (tb ++ [c]) = queues_to pb (Some p) tb) as E.
  { unfold queues_to. destruct Hc as [_ Hc]. by rewrite hics_app, Hc, app_nil_r. }
  constructor; rewrite ?E; try done.
  - destruct Hc as [Hc _]. by rewrite ctl_app, Hc, app_nil_r.
  - apply half_send; try done. destruct pb; [done|]. done.
Qed.

(** Such a command is taken from the mailbox. *)
Lemma half_receive p po c to : plain_cmd c -> half p po (c :: to) -> half p po to.
Proof.
  intros [Hc1 Hc2] [H1 H2 H3 H4 H5 H6 H7 H8].
  assert (ctl (c :: to) = ctl to) as E1 by (destruct c; done).
  assert (hics (c :: to) = hics to) as E2 by (destruct c; done).
  rewrite E1, E2 in *. constructor; try done.
  - intros Hp. by specialize (H1 Hp).
  - by apply (ack_last_tail c).
  - by apply (hics_first_tail c).
Qed.

Lemma inv_receive k pa pb c ta tb h : plain_cmd c -> inv k pa pb (c :: ta) tb h -> inv k pa pb ta tb h.
Proof.
  intros Hc [H1 H2 H3 H4 H5 H6].
  assert (ctl (c :: ta) = ctl ta) as E1 by (destruct Hc; destruct c; done).
  assert (hics (c :: ta) = hics ta) as E2 by (destruct Hc; destruct c; done).
  assert (queues_to pa pb (c :: ta) = queues_to pa pb ta) as E3 by (unfold queues_to; by rewrite E2).
  rewrite E1, ?E3 in *. constructor; rewrite <- ?E3; try done.
  - by apply (half_receive _ _ c).
  - by rewrite E3.
  - intros q. by rewrite E3.
Qed.

(** A step of the handshake: the endpoint changes its state and may drop
    its outbound queue. *)
Record handshake (p p' : pipe) (pb : option pipe) (ta ta' tb tb' : list pipe_cmd) : Prop := {
  hs_in : pi_in_pipe p' = pi_in_pipe p;
  hs_conflate : pi_conflate p' = pi_conflate p;
  hs_cfg : cfg (Some (pi_state p')) (p_state pb) (ctl tb') (ctl ta');
  hs_recv : ta = ta' \/ ta = pipe_term :: ta';
  hs_sent : tb' = tb \/ exists c, tb' = tb ++ [c] /\ hics [c] = [] /\ may_send (pi_state p);
  hs_asked : asked (Some (pi_state p')) -> CTerm ∉ ctl tb' -> hics tb' = [];
  hs_out : (pi_out_pipe p' = pi_out_pipe p /\ pi_out_pipe p <> None /\ ~ out_dropped (pi_state p')) \/
           (pi_out_pipe p' = None /\ pi_out_pipe p <> None /\ out_dropped (pi_state p') /\ hics ta' = []);
}.

Lemma handshake_hics p p' pb ta ta' tb tb' : handshake p p' pb ta ta' tb tb' -> hics ta' = hics ta /\ hics tb' = hics tb.
Proof.
  intros [_ _ _ Hr Hs _ _]. split; [by destruct Hr as [-> | ->]|].
  destruct Hs as [-> |(c & -> & Hc & _)]; [done|]. by rewrite hics_app, Hc, app_nil_r.
Qed.

Lemma half_handshake_self p p' pb ta ta' tb tb' : handshake p p' pb ta ta' tb tb' ->
  half (Some p) pb ta -> half (Some p') pb ta'.
Proof.
  intros Hh [H1 H2 H3 H4 H5 H6 H7 H8]. pose proof (handshake_hics _ _ _ _ _ _ _ Hh) as [E _].
  destruct Hh as [Hi Hco _ Hr _ _ Ho]. unfold p_out in *. cbn [mbind option_bind] in *.
  constructor; unfold p_out; cbn [mbind option_bind]; try done.
  - destruct Hr as [-> | ->]; [done|]. by apply (ack_last_tail pipe_term).
  - destruct Hr as [-> | ->]; [done|]. by apply (hics_first_tail pipe_term).
  - intros Ha Hn. destruct Hr as [-> | ->]; [by apply H4|]. exact H3.
  - intros x [= <-]. destruct Ho as [(-> & ? & ?)|(-> & ? & ? & _)]; [|done]. split; [done|]. done.
  - intros u Hu. destruct Ho as [(E' & ? & ?)|(E' & ? & ? & _)]; [|congruence].
    rewrite E' in Hu. destruct (H6 u Hu) as (y & -> & Hl). exists y. by rewrite E.
  - intros Hn. destruct Ho as [(E' & ? & ?)|(E' & ? & ? & ?)]; [congruence|done].
  - intros x [= <-]. rewrite Hco. by apply H8.
Qed.

Lemma half_handshake_peer p p' pb ta ta' tb tb' : handshake p p' pb ta ta' tb tb' ->
  cfg (Some (pi_state p)) (p_state pb) (ctl tb) (ctl ta) ->
  half pb (Some p) tb -> half pb (Some p') tb'.
Proof.
  intros Hh Hcfg [H1 H2 H3 H4 H5 H6 H7 H8]. pose proof (handshake_hics _ _ _ _ _ _ _ Hh) as [_ E].
  destruct Hh as [Hi Hco _ _ Hs Hask Ho]. constructor; rewrite ?E; try done.
  - destruct Hs as [-> |(c & -> & _ & Hm)]; [done|]. intros ->.
    destruct (cfg_may_send _ _ _ _ Hcfg Hm) as [[? ?] _]. done.
  - destruct Hs as [-> |(c & -> & _ & Hm)]; [done|]. apply ack_last_snoc; [done|].
    by destruct (cfg_may_send _ _ _ _ Hcfg Hm).
  - destruct Hs as [-> |(c & -> & Hc & Hm)]; [done|]. apply hics_first_snoc; [done|]. by right.
  - rewrite <- E. exact Hask.
  - intros u Hu. destruct (H6 u Hu) as (y & [= <-] & Hl). exists p'. by rewrite Hi.
Qed.

Lemma queues_handshake p p' pb ta ta' tb tb' : handshake p p' pb ta ta' tb tb' -> half (Some p) pb ta ->
  queues_to (Some p') pb ta' = queues_to (Some p) pb ta /\ queues_to pb (Some p') tb' = queues_to pb (Some p) tb.
Proof.
  intros Hh [_ _ _ _ _ H6 _ _]. pose proof (handshake_hics _ _ _ _ _ _ _ Hh) as [E1 E2].
  destruct Hh as [Hi _ _ _ _ _ Ho]. unfold queues_to, p_out in *. cbn [mbind option_bind] in *.
  rewrite Hi, E2. split; [|done]. destruct Ho as [(-> & _)|(-> & Hne & _ & Hn)]; [by rewrite E1|].
  destruct (pi_out_pipe p) as [u|]; [|done]. destruct (H6 u eq_refl) as (y & -> & Hl).
  rewrite <- E1, Hn in *. simpl in Hl. congruence.
Qed.

Lemma inv_handshake k p p' pb ta ta' tb tb' h : handshake p p' pb ta ta' tb tb' ->
  inv k (Some p) pb ta tb h -> inv k (Some p') pb ta' tb' h.
Proof.
  intros Hh [H1 H2 H3 H4 H5 H6]. destruct (queues_handshake _ _ _ _ _ _ _ Hh H2) as [E1 E2].
  constructor; rewrite ?E1, ?E2; try done.
  - apply Hh.
  - by apply (half_handshake_self p _ _ ta _ tb tb').
  - by apply (half_handshake_peer p _ _ ta ta' tb).
Qed.

(** The endpoint is deleted, with its inbound queue. *)
Definition delete_sent (p : pipe) (tb tb' : list pipe_cmd) : Prop :=
  (pi_state p = term_req_sent1 /\ tb' = tb ++ [pipe_term_ack]) \/ (out_dropped (pi_state p) /\ tb' = tb).

Lemma delete_sent_ok p pb ta tb tb' : ctl ta = [CAck] -> half pb (Some p) tb ->
  cfg (Some (pi_state p)) (p_state pb) (ctl tb) (ctl ta) -> delete_sent p tb tb' ->
  cfg None (p_state pb) (ctl tb') [] /\ half pb None tb' /\ p_out pb = None /\ hics tb' = hics tb.
Proof.
  intros Hta [H1 H2 H3 H4 H5 H6 H7 H8] Hcfg Hs. rewrite Hta in Hcfg.
  assert (p_out pb = None) as Hout.
  { destruct pb as [y|]; [|done]. apply (H5 y eq_refl). unfold out_dropped. simpl in Hcfg.
    revert Hcfg. unfold p_state. simpl. generalize (pi_state y), (pi_state p), (ctl tb).
    intros s s' l Hc. cfg_cases Hc; tauto. }
  assert (hics tb' = hics tb) as E.
  { destruct Hs as [[_ ->]|[_ ->]]; [by rewrite hics_app, app_nil_r|done]. }
  split_and!; try done.
  - destruct Hs as [[Hs ->]|[Hs ->]]; rewrite ?ctl_app; [rewrite Hs in Hcfg; by apply cfg_ack_req1|].
    by apply (cfg_ack_other (pi_state p)).
  - constructor; rewrite ?E; try done.
    + intros ->. destruct Hs as [[Hs ->]|[Hs ->]]; [|by apply H1]. rewrite Hs in Hcfg. simpl in Hcfg.
      by destruct (cfg_may_send _ _ _ _ Hcfg ltac:(by right; right)) as [[? ?] _].
    + destruct Hs as [[Hs ->]|[Hs ->]]; [|done]. apply ack_last_snoc; [done|]. rewrite Hs in Hcfg.
      by destruct (cfg_may_send _ _ _ _ Hcfg ltac:(by right; right)).
    + destruct Hs as [[Hs ->]|[Hs ->]]; [|done]. apply hics_first_snoc; [done|]. by right.
    + by intros [|].
    + rewrite Hout. done.
Qed.

Lemma inv_delete k p pb tb tb' h :
  inv k (Some p) pb [pipe_term_ack] tb h -> delete_sent p tb tb' ->
  is_Some (h !! pi_in_pipe p) /\ inv k None pb [] tb' (delete (pi_in_pipe p) h).
Proof.
  intros [H1 H2 H3 H4 H5 H6] Hs.
  destruct (delete_sent_ok p pb [pipe_term_ack] tb tb' eq_refl H3 H1 Hs) as (Hc & Hb & Hout & Hh).
  assert (queues_to pb (Some p) tb = [pi_in_pipe p]) as E1 by (unfold queues_to; by rewrite Hout).
  assert (queues_to pb None tb' = []) as E2 by (unfold queues_to; by rewrite Hout).
  assert (queues_to None pb [] = queues_to (Some p) pb [pipe_term_ack]) as E3.
  { unfold queues_to, p_out. cbn [mbind option_bind]. destruct (pi_out_pipe p) as [u|] eqn:Eo; [|done].
    destruct (h_chain _ _ _ H2 u Eo) as (y & -> & Hl). simpl in *. congruence. }
  rewrite E1 in *. split.
  { apply H5. apply elem_of_app. right. by apply list_elem_of_singleton. }
  apply list.NoDup_app in H4 as (Hn & Hd & _).
  constructor; rewrite ?E2, ?E3, ?app_nil_r; try done.
  - intros q. rewrite lookup_delete. case_decide as Eq.
    + subst. split; [by intros [? ?]|]. intros Hq. destruct (Hd _ Hq). by apply list_elem_of_singleton.
    + rewrite H5, elem_of_app, list_elem_of_singleton. split; [intros [|]; congruence || done|tauto].
  - intros q u. rewrite lookup_delete. case_decide; [done|]. eauto.
Qed.

(** A hiccup: a new inbound queue. *)
Lemma inv_hiccup k p p' pb ta tb h q u :
  inv k (Some p) pb ta tb h -> pi_state p = active -> h !! q = None -> queue_ok k u ->
  pi_in_pipe p' = q -> pi_out_pipe p' = pi_out_pipe p -> pi_state p' = pi_state p -> pi_conflate p' = pi_conflate p ->
  inv k (Some p') pb ta (tb ++ [hiccup q]) (<[q := u]> h).
Proof.
  intros [H1 H2 H3 H4 H5 H6] Hs Hq Hu Hi Ho Hst Hco.
  pose proof H1 as Hcfg. simpl in Hcfg. rewrite Hs in Hcfg.
  destruct (cfg_is_open _ _ _ _ Hcfg ltac:(by left)) as (Htb & s' & Hpb & Hs').
  destruct pb as [y|]; [|done]. injection Hpb as Hy.
  assert (exists v, pi_out_pipe y = Some v) as [v Hv].
  { destruct (pi_out_pipe y) eqn:E; [by eexists|]. apply (h_dropped _ _ _ H3 y eq_refl) in E.
    unfold out_dropped, is_open in *. destruct E, Hs' as [[|]|]; congruence. }
  assert (queues_to (Some y) (Some p') (tb ++ [hiccup q]) = queues_to (Some y) (Some p) tb ++ [q]) as E1.
  { unfold queues_to, p_out. cbn [mbind option_bind]. by rewrite Hv, hics_app. }
  assert (queues_to (Some p') (Some y) ta = queues_to (Some p) (Some y) ta) as E2.
  { unfold queues_to, p_out. cbn [mbind option_bind]. by rewrite Ho. }
  assert (q ∉ queues_to (Some p) (Some y) ta ++ queues_to (Some y) (Some p) tb) as Hfresh.
  { intros Hin. apply H5 in Hin. rewrite Hq in Hin. by destruct Hin. }
  constructor; rewrite ?E1, ?E2.
  - simpl. rewrite Hst, ctl_app, app_nil_r. done.
  - destruct H2 as [A1 A2 A3 A4 A5 A6 A7 A8]. unfold p_out in *. simpl in *. constructor; unfold p_out; simpl; try done.
    + intros x [= <-]. rewrite Ho, Hst. by apply A5.
    + by rewrite Ho.
    + by rewrite Ho.
    + intros x [= <-]. rewrite Hco. by apply A8.
  - destruct H3 as [A1 A2 A3 A4 A5 A6 A7 A8]. constructor; rewrite ?hics_app, ?ctl_app; try done.
    + apply ack_last_snoc; [done|]. rewrite Htb. set_solver.
    + apply hics_first_snoc; [done|]. left. rewrite Htb. set_solver.
    + rewrite Htb. simpl. rewrite Hst, Hs. by intros [|].
    + unfold p_out. simpl. rewrite Hv. intros w [= <-]. exists p'. split; [done|].
      change (v :: hics tb ++ [q]) with ((v :: hics tb) ++ [q]). rewrite last_snoc. congruence.
    + unfold p_out. simpl. by rewrite Hv.
  - rewrite app_assoc. apply list.NoDup_app. split_and!; [done| |apply NoDup_singleton].
    intros x Hx ->%list_elem_of_singleton. done.
  - intros x. rewrite app_assoc, elem_of_app, list_elem_of_singleton, <- H5. rewrite lookup_insert.
    case_decide as E; [|by split; [tauto|intros [|]; congruence || done]].
    subst. split; [by right|]. intros _. by eexists.
  - intros x w. rewrite lookup_insert. case_decide; [by intros [= <-]|eauto].
Qed.

(** The peer's hiccup: the old outbound queue is deleted. *)
Lemma inv_hiccup_received k p p' pb ta tb h q u :
  inv k (Some p) pb (hiccup q :: ta) tb h -> pi_out_pipe p = Some u ->
  pi_in_pipe p' = pi_in_pipe p -> pi_out_pipe p' = Some q -> pi_state p' = pi_state p -> pi_conflate p' = pi_conflate p ->
  is_Some (h !! u) /\ inv k (Some p') pb ta tb (delete u h).
Proof.
  intros [H1 H2 H3 H4 H5 H6] Hu Hi Ho Hst Hco.
  assert (queues_to (Some p) pb (hiccup q :: ta) = u :: queues_to (Some p') pb ta) as E1.
  { unfold queues_to, p_out. cbn [mbind option_bind]. by rewrite Hu, Ho. }
  assert (queues_to pb (Some p') tb = queues_to pb (Some p) tb) as E2 by (unfold queues_to; by rewrite Hi).
  rewrite E1 in *. cbn [app] in *. apply list.NoDup_cons in H4 as [Hn H4].
  split; [apply H5; by left|].
  constructor; rewrite ?E2; try done.
  - simpl. rewrite Hst. done.
  - destruct H2 as [A1 A2 A3 A4 A5 A6 A7 A8]. unfold p_out in *. simpl in *. constructor; unfold p_out; simpl; try done.
    + intros Ha Hc. by specialize (A4 Ha Hc).
    + intros x [= <-]. rewrite Ho, Hst, <- (A5 p eq_refl), Hu. done.
    + intros w Hw. destruct (A6 u Hu) as (y & -> & Hl). exists y. split; [done|]. by replace w with q by congruence.
    + by rewrite Ho.
    + intros x [= <-]. rewrite Hco. by apply A8.
  - destruct H3 as [A1 A2 A3 A4 A5 A6 A7 A8]. constructor; try done.
    + simpl in *. by rewrite Hst.
    + intros w Hw. destruct (A6 w Hw) as (y & [= <-] & Hl). exists p'. by rewrite Hi.
  - intros x. rewrite lookup_delete. case_decide as E.
    + subst. split; [by intros [? ?]|done].
    + rewrite H5, elem_of_cons. split; [intros [|]; congruence || done|tauto].
  - intros x w. rewrite lookup_delete. case_decide; [done|eauto].
Qed.
End inv.

(** ** The methods keep the invariant *)

(** What the invariant says of the abstract queue. *)
Definition good (k : nat) (s : pq (T := frame)) : Prop :=
  Forall (fun f => fr_more f = true) (pq_part s) /\
  (length (pq_items s) + length (pq_done s) + length (pq_part s) <= k)%nat.

Lemma good_read k s : good k s -> good k (pq_read s).1.
Proof. unfold good, pq_read. destruct (pq_items s) eqn:E; simpl; rewrite ?E; simpl; intros [? ?]; split; try done; lia. Qed.

Lemma good_check_read k s : good k s -> good k (pq_check_read s).1.
Proof. unfold good, pq_check_read. destruct (pq_items s) eqn:E; simpl; rewrite ?E; done. Qed.

Lemma good_flush k s : good k s -> good k (pq_flush_ s).1.
Proof.
  unfold good, pq_flush_. destruct (pq_done s) eqn:E; simpl; rewrite ?E; [done|]. rewrite length_app. simpl.
  intros [? ?]; split; try done; lia.
Qed.

Lemma good_write k s f inc : (inc = true -> fr_more f = true) -> good k s -> good (S k) (pq_write s f inc).
Proof.
  intros Hf [Hp Hl]. unfold good, pq_write. destruct inc; simpl; rewrite ?length_app; simpl; [|split; [done|lia]].
  split; [|lia]. apply Forall_app. split; [done|]. constructor; [by apply Hf|done].
Qed.

Lemma length_removelast {A} (l : list A) : length (removelast l) = (length l - 1)%nat.
Proof.
  destruct l as [|x l _] using rev_ind; [done|]. rewrite removelast_last, length_app. simpl. lia.
Qed.

Lemma unwrite_cases (s : pq (T := frame)) :
  (pq_part s = [] /\ pq_unwrite s = (s, None)) \/
  exists zs f, pq_part s = zs ++ [f] /\ pq_unwrite s = (Pq (pq_items s) (pq_done s) zs (pq_asleep s), Some f).
Proof.
  unfold pq_unwrite. destruct (pq_part s) as [|f zs _] using rev_ind; [by left|right].
  exists zs, f. by rewrite last_snoc, removelast_last.
Qed.

Lemma good_unwrite k s : good k s -> good k (pq_unwrite s).1.
Proof.
  destruct (unwrite_cases s) as [[_ ->]|(zs & f & E & ->)]; [done|]. unfold good. simpl. rewrite E.
  rewrite length_app, Forall_app. simpl. intros [[? ?] ?]; split; try done; lia.
Qed.

Section methods.
Context {U : Type} `{YpipeLaws U} (fuel : nat).
Context (pb : option pipe) (ta tb : list pipe_cmd).

Definition ok (k : nat) (e : penv U) : Prop := inv k (Some (e_self e)) pb ta (tb ++ e_sent e) (e_heap e).

Definition qrep (e : penv U) (q : Z) (s : pq (T := frame)) : Prop := exists u, e_heap e !! q = Some u /\ up_rep u s.

(** Nothing but the queues and fields out of the invariant changed. *)
Definition quiet (e e' : penv U) : Prop := same_core (e_self e) (e_self e') /\ e_sent e' = e_sent e.

#[global] Instance quiet_preorder : PreOrder quiet.
Proof.
  split; [done|]. intros e1 e2 e3 [(?&?&?&?) ?] [(?&?&?&?) ?]. unfold quiet, same_core. split_and!; congruence.
Qed.

Lemma ok_in k e : ok k e -> exists s, qrep e (pi_in_pipe (e_self e)) s /\ good k s.
Proof.
  intros [H1 H2 H3 H4 H5 H6].
  assert (pi_in_pipe (e_self e) ∈ queues_to pb (Some (e_self e)) (tb ++ e_sent e)) as Hin.
  { unfold queues_to. destruct (p_out pb) as [u|] eqn:E; [|by apply list_elem_of_singleton].
    destruct (h_chain _ _ _ H3 u E) as (y & [= <-] & Hl). by apply last_Some_elem_of. }
  assert (is_Some (e_heap e !! pi_in_pipe (e_self e))) as [u Hu] by (apply H5, elem_of_app; by right).
  destruct (H6 _ _ Hu) as (s & Hr & Hg). exists s. split; [by exists u|done].
Qed.

Lemma ok_out k e q : ok k e -> pi_out_pipe (e_self e) = Some q -> exists s, qrep e q s /\ good k s.
Proof.
  intros [H1 H2 H3 H4 H5 H6] Hq.
  assert (is_Some (e_heap e !! q)) as [u Hu].
  { apply H5, elem_of_app. left. unfold queues_to, p_out. simpl. rewrite Hq. by left. }
  destruct (H6 _ _ Hu) as (s & Hr & Hg). exists s. split; [by exists u|done].
Qed.

Lemma ok_mono k k' e : (k <= k')%nat -> ok k e -> ok k' e.
Proof. unfold ok. intros. by eapply inv_mono. Qed.

Lemma ok_upd k e f : same_core (e_self e) (f (e_self e)) -> ok k e -> ok k (upd e f).
Proof. intros Hc Hok. by apply (inv_core k (e_self e)). Qed.

Lemma ok_emit k e v : ok k e -> ok k (emit e v).
Proof. done. Qed.

Lemma ok_send k e c : may_send (st e) -> plain_cmd c -> ok k e -> ok k (send e c).
Proof. intros Hs Hc Hok. unfold ok. cbn. rewrite app_assoc. by apply inv_send. Qed.

(** A method of a queue that behaves as [F] on the abstract queue. *)
Lemma on_queue_ok {A} (m : U -> option (U * A)) (F : pq -> pq * A) k k' e q s :
  (forall u, up_rep u s -> exists u', m u = Some (u', (F s).2) /\ up_rep u' (F s).1) ->
  ok k e -> qrep e q s -> (k <= k')%nat -> good k' (F s).1 ->
  exists e', on_queue e q m = Some (e', (F s).2) /\ ok k' e' /\ quiet e e' /\ qrep e' q (F s).1.
Proof.
  intros Hm Hok (u & Hu & Hr) Hk Hg. destruct (Hm u Hr) as (u' & E & Hr').
  unfold on_queue. rewrite Hu. cbn [mbind option_bind]. rewrite E. cbn [mbind option_bind].
  eexists. split; [done|]. split_and!; try done.
  - apply (inv_queue k' _ _ _ _ (e_heap e) q u); [by apply (ok_mono k k' e)|done|]. by exists (F s).1.
  - exists u'. split; [|done]. simpl. apply lookup_insert_eq.
Qed.

Lemma on_in_read k e s : ok k e -> qrep e (pi_in_pipe (e_self e)) s -> good k s ->
  exists e', on_in e up_read = Some (e', (pq_read s).2) /\ ok k e' /\ quiet e e' /\
    qrep e' (pi_in_pipe (e_self e')) (pq_read s).1.
Proof.
  intros Hok Hq Hg. destruct (on_queue_ok up_read pq_read k k e (pi_in_pipe (e_self e)) s) as (e' & E & Hok' & Hqu & Hq'); try done.
  - intros u. apply up_read_ok.
  - by apply good_read.
  - exists e'. split_and!; try done. destruct Hqu as [(-> & _) _]. done.
Qed.

Lemma process_delimiter_ok k e : ok k e -> st e = active \/ st e = waiting_for_delimiter ->
  exists e', process_delimiter e = Some e' /\ ok k e'.
Proof.
  intros Hok [Hs|Hs]; unfold process_delimiter; rewrite Hs; simpl; eexists; (split; [done|]);
    unfold ok in *; eapply (inv_handshake _ (e_self e)); try exact Hok.
  - pose proof (i_cfg _ _ _ _ _ _ Hok) as Hcfg. simpl in Hcfg. unfold st in Hs. rewrite Hs in Hcfg.
    constructor; simpl; try done; [by apply cfg_delim|by left|by left|by intros [|]|].
    left. split_and!; try done; [|by intros [|]]. intros E.
    apply (h_dropped _ _ _ (i_a _ _ _ _ _ _ Hok) _ eq_refl) in E. destruct E; congruence.
  - pose proof (i_cfg _ _ _ _ _ _ Hok) as Hcfg. simpl in Hcfg. unfold st in Hs. rewrite Hs in Hcfg.
    destruct (cfg_waiting_peer _ _ _ Hcfg) as (Hpb & Hb & Ha).
    constructor; simpl; try done.
    + rewrite app_assoc, ctl_app. by apply cfg_wait_ack.
    + by left.
    + right. eexists. rewrite app_assoc. split_and!; try done. rewrite Hs. right. by left.
    + by intros [|].
    + right. split_and!; try done; [|by left|].
      * intros E. apply (h_dropped _ _ _ (i_a _ _ _ _ _ _ Hok) _ eq_refl) in E. destruct E; congruence.
      * apply (h_asked _ _ _ (i_a _ _ _ _ _ _ Hok)); [by left|]. rewrite Ha. set_solver.
Qed.

Lemma quiet_st e e' : quiet e e' -> st e' = st e.
Proof. by intros [(_ & _ & ? & _) _]. Qed.

Lemma quiet_upd e f : same_core (e_self e) (f (e_self e)) -> quiet e (upd e f).
Proof. done. Qed.

Lemma read_loop_ok k n : forall e s, ok k e -> qrep e (pi_in_pipe (e_self e)) s -> good k s ->
  (length (pq_items s) < n)%nat ->
  exists e' m, read_loop n e = Some (e', m) /\ ok k e' /\ quiet e e'.
Proof.
  induction n as [|n IH]; intros e s Hok Hq Hg Hn; [lia|]. cbn [read_loop].
  destruct (on_in_read k e s Hok Hq Hg) as (e1 & -> & Hok1 & Hqu & Hq1). cbn [mbind option_bind].
  pose proof (good_read _ _ Hg) as Hg1. unfold pq_read in *.
  destruct (pq_items s) as [|f l] eqn:E; cbn [fst snd] in *.
  - eexists _, _. split; [done|]. split; [by apply ok_upd|]. by etrans.
  - destruct (fr_is_credential f); [|by eexists _, _].
    destruct (IH e1 _ Hok1 Hq1 Hg1) as (e2 & m & -> & Hok2 & Hqu2); [simpl in *; lia|].
    eexists _, _. split; [done|]. split; [done|]. by etrans.
Qed.

Lemma may_read_true (e : penv U) : may_read e = true -> st e = active \/ st e = waiting_for_delimiter.
Proof. unfold may_read. rewrite orb_true_iff, !bool_decide_eq_true. done. Qed.

Lemma may_send_reading (e : penv U) : st e = active \/ st e = waiting_for_delimiter -> may_send (st e).
Proof. intros [-> | ->]; [left; by left|right; by left]. Qed.

Lemma count_read_ok k e f : st e = active \/ st e = waiting_for_delimiter -> ok k e -> ok k (count_read e f).
Proof.
  intros Hs Hok. unfold count_read.
  assert (forall e0, st e0 = st e -> ok k e0 ->
    ok k (if (0 <? pi_lwm (e_self e0)) && (pi_msgs_read (e_self e0) mod pi_lwm (e_self e0) =? 0)
          then send e0 (activate_write (pi_msgs_read (e_self e0))) else e0)) as Hsend.
  { intros e0 He0 Hok0. case_test; [|done]. apply ok_send; try done. rewrite He0. by apply may_send_reading. }
  apply Hsend; destruct (negb (fr_more f) && negb (fr_is_routing_id f)); try done. by apply ok_upd.
Qed.

Lemma pipe_read_ok k e : (k < fuel)%nat -> ok k e -> exists e' m, pipe_read fuel e = Some (e', m) /\ ok k e'.
Proof.
  intros Hf Hok. unfold pipe_read. case_test; [by eexists _, _|]. case_test; [by eexists _, _|].
  pose proof (may_read_true _ Heqb0) as Hs.
  destruct (ok_in k e Hok) as (s & Hq & Hg).
  destruct (read_loop_ok k fuel e s Hok Hq Hg) as (e1 & m & -> & Hok1 & Hqu); [destruct Hg; lia|].
  cbn [mbind option_bind]. destruct m as [f|]; [|by eexists _, _].
  assert (st e1 = active \/ st e1 = waiting_for_delimiter) as Hs1 by (by rewrite (quiet_st _ _ Hqu)).
  destruct (fr_is_delimiter f).
  - destruct (process_delimiter_ok k e1 Hok1 Hs1) as (e2 & -> & Hok2). by eexists _, _.
  - eexists _, _. split; [done|]. by apply count_read_ok.
Qed.

Lemma pipe_check_read_ok k e : ok k e -> exists e' b, pipe_check_read e = Some (e', b) /\ ok k e'.
Proof.
  intros Hok. unfold pipe_check_read. case_test; [by eexists _, _|]. case_test; [by eexists _, _|].
  pose proof (may_read_true _ Heqb0) as Hs.
  destruct (ok_in k e Hok) as (s & Hq & Hg).
  destruct (on_queue_ok up_check_read pq_check_read k k e (pi_in_pipe (e_self e)) s) as (e1 & E1 & Hok1 & Hqu1 & Hq1); try done.
  { intros u. apply up_check_read_ok. }
  { by apply good_check_read. }
  unfold on_in. rewrite E1. cbn [mbind option_bind]. unfold pq_check_read in *.
  destruct (pq_items s) as [|f l] eqn:Ei; cbn [fst snd negb] in *.
  { eexists _, _. split; [done|]. by apply ok_upd. }
  assert (pi_in_pipe (e_self e1) = pi_in_pipe (e_self e)) as Ein by apply Hqu1.
  destruct (on_queue_ok (fun u => up_probe u fr_is_delimiter) (fun s => (s, fr_is_delimiter f)) k k e1 (pi_in_pipe (e_self e)) s)
    as (e2 & E2 & Hok2 & Hqu2 & Hq2); try done.
  { intros u Hu. apply (up_probe_ok u s); [done|]. by rewrite Ei. }
  rewrite Ein, E2. cbn [mbind option_bind fst snd].
  destruct (fr_is_delimiter f); [|by eexists _, _].
  assert (pi_in_pipe (e_self e2) = pi_in_pipe (e_self e)) as Ein2 by (rewrite <- Ein; apply Hqu2).
  destruct (on_in_read k e2 s Hok2) as (e3 & E3 & Hok3 & Hqu3 & _); [by rewrite Ein2|done|].
  unfold pq_read, on_in in E3. rewrite Ei in E3. rewrite E3. cbn [mbind option_bind snd].
  rewrite bool_decide_eq_true_2 by (by eexists).
  destruct (process_delimiter_ok k e3 Hok3) as (e4 & -> & Hok4).
  { by rewrite (quiet_st _ _ Hqu3), (quiet_st _ _ Hqu2), (quiet_st _ _ Hqu1). }
  by eexists _, _.
Qed.

(** *** Writing *)

Lemma pipe_check_write_ok k e : ok k e ->
  ok k (pipe_check_write e).1 /\ quiet e (pipe_check_write e).1 /\
  ((pipe_check_write e).2 = true -> (pipe_check_write e).1 = e /\ st e = active).
Proof.
  intros Hok. unfold pipe_check_write. case_test; [done|]. case_test; simpl; [split_and!; [by apply ok_upd|done|done]|].
  bool_prop. split_and!; try done. intros _. by apply bool_decide_eq_true in H2.
Qed.

Lemma ok_out_some k e : ok k e -> ~ out_dropped (st e) -> exists q, pi_out_pipe (e_self e) = Some q.
Proof.
  intros Hok Hs. destruct (pi_out_pipe (e_self e)) eqn:E; [by eexists|].
  by apply (h_dropped _ _ _ (i_a _ _ _ _ _ _ Hok) _ eq_refl) in E.
Qed.

Lemma queue_write_ok k e q s f inc : ok k e -> qrep e q s -> good k s -> (inc = true -> fr_more f = true) ->
  exists e', on_queue e q (queue_write f inc) = Some (e', tt) /\ ok (S k) e' /\ quiet e e' /\ qrep e' q (pq_write s f inc).
Proof.
  intros Hok Hq Hg Hf.
  apply (on_queue_ok (queue_write f inc) (fun s => (pq_write s f inc, tt)) k (S k) e q s); try done; [|lia|by apply good_write].
  intros u Hu. destruct (up_write_ok u s f inc Hu) as (u' & E & Hu'). unfold queue_write. rewrite E. by eexists.
Qed.

Lemma pipe_write_ok k e f : ok k e -> exists e' b, pipe_write e f = Some (e', b) /\ ok (S k) e'.
Proof.
  intros Hok. unfold pipe_write. destruct (pipe_check_write_ok k e Hok) as (Hok1 & _ & Hb).
  destruct (pipe_check_write e) as [e1 [|]]; simpl in *.
  2:{ eexists _, _. split; [done|]. apply (ok_mono k); [lia|done]. }
  destruct (Hb eq_refl) as [-> Hs]. destruct (ok_out_some k e Hok) as [q Eq]; [rewrite Hs; by intros [|]|].
  destruct (ok_out k e q Hok Eq) as (s & Hq & Hg).
  destruct (queue_write_ok k e q s f (fr_more f) Hok Hq Hg) as (e2 & E & Hok2 & _); [done|].
  unfold on_out. rewrite Eq. cbn [mbind option_bind]. rewrite E. cbn [mbind option_bind].
  eexists _, _. split; [done|]. case_test; [by apply ok_upd|done].
Qed.

Lemma rollback_loop_ok k q n : forall e s, ok k e -> pi_out_pipe (e_self e) = Some q -> qrep e q s -> good k s ->
  (length (pq_part s) < n)%nat ->
  exists e', rollback_loop n e = Some e' /\ ok k e' /\ quiet e e'.
Proof.
  induction n as [|n IH]; intros e s Hok Eq Hq Hg Hn; [lia|]. cbn [rollback_loop].
  destruct (on_queue_ok up_unwrite pq_unwrite k k e q s) as (e1 & E & Hok1 & Hqu & Hq1); try done.
  { intros u. apply up_unwrite_ok. }
  { by apply good_unwrite. }
  unfold on_out. rewrite Eq. cbn [mbind option_bind]. rewrite E. cbn [mbind option_bind].
  pose proof (good_unwrite _ _ Hg) as Hg1.
  destruct (unwrite_cases s) as [[Ep Eu]|(zs & f & Ep & Eu)]; rewrite Eu in *; cbn [fst snd] in *; [by eexists|].
  destruct Hg as [Hm _]. rewrite Ep in Hm. apply Forall_app in Hm as [_ Hm]. apply Forall_cons_1 in Hm as [-> _].
  destruct (IH e1 (Pq (pq_items s) (pq_done s) zs (pq_asleep s))) as (e2 & -> & Hok2 & Hqu2); try done.
  - rewrite <- Eq. apply Hqu.
  - simpl. rewrite Ep, length_app in Hn. simpl in Hn. lia.
  - eexists. split; [done|]. split; [done|]. by etrans.
Qed.

Lemma pipe_rollback_ok k e : (k < fuel)%nat -> ok k e ->
  exists e', pipe_rollback fuel e = Some e' /\ ok k e' /\ quiet e e'.
Proof.
  intros Hf Hok. unfold pipe_rollback. destruct (pi_out_pipe (e_self e)) as [q|] eqn:Eq; [|by eexists].
  destruct (ok_out k e q Hok Eq) as (s & Hq & Hg). apply (rollback_loop_ok k q _ e s); try done. destruct Hg. lia.
Qed.

Lemma pipe_flush_ok k e : ok k e -> exists e', pipe_flush e = Some e' /\ ok k e'.
Proof.
  intros Hok. unfold pipe_flush. case_test; [by eexists|]. apply bool_decide_eq_false in Heqb.
  destruct (pi_out_pipe (e_self e)) as [q|] eqn:Eq; [|by eexists].
  destruct (ok_out k e q Hok Eq) as (s & Hq & Hg).
  destruct (on_queue_ok up_flush pq_flush_ k k e q s) as (e1 & E & Hok1 & Hqu & Hq1); try done.
  { intros u. apply up_flush_ok. }
  { by apply good_flush. }
  unfold on_out. rewrite Eq. cbn [mbind option_bind]. rewrite E. cbn [mbind option_bind].
  eexists. split; [done|]. case_test; [|done]. apply ok_send; try done. rewrite (quiet_st _ _ Hqu).
  assert (~ out_dropped (st e)) as Hd.
  { intros Hd. apply (h_dropped _ _ _ (i_a _ _ _ _ _ _ Hok) _ eq_refl) in Hd. congruence. }
  unfold may_send, is_open. unfold out_dropped in Hd. destruct (st e); tauto.
Qed.

(** *** Shutting down *)

Lemma ok_cfg k e : ok k e -> cfg (Some (st e)) (p_state pb) (ctl (tb ++ e_sent e)) (ctl ta).
Proof. intros Hok. apply Hok. Qed.

Lemma ok_not_dropped k e : ok k e -> ~ out_dropped (st e) -> pi_out_pipe (e_self e) <> None.
Proof. intros Hok Hs E. by apply (h_dropped _ _ _ (i_a _ _ _ _ _ _ Hok) _ eq_refl) in E. Qed.

Lemma ask_ok k e : ok k e -> is_open (st e) -> ok k (goto (send e pipe_term) term_req_sent1).
Proof.
  intros Hok Hs. pose proof (ok_cfg _ _ Hok) as Hcfg. apply (inv_handshake k (e_self e) _ pb ta ta (tb ++ e_sent e)); [|exact Hok].
  constructor; try done.
  - simpl. rewrite app_assoc, ctl_app. by apply (cfg_terminate (st e)).
  - by left.
  - right. exists pipe_term. simpl. rewrite app_assoc. split_and!; try done. by left.
  - intros _. simpl. rewrite app_assoc, ctl_app. set_solver.
  - left. split_and!; [done| |by intros [|]]. apply (ok_not_dropped k e Hok). intros [|]; destruct Hs; congruence.
Qed.

Lemma wait_ack_ok k e : ok k e -> st e = waiting_for_delimiter ->
  ok k (goto (send (upd e (fun p => set_out_pipe p None)) pipe_term_ack) term_ack_sent).
Proof.
  intros Hok Hs. destruct (process_delimiter_ok k e Hok ltac:(by right)) as (e' & E & Hok').
  unfold process_delimiter in E. rewrite Hs in E. simpl in E. by injection E as <-.
Qed.

Lemma terminate_outbound_ok k e : (k < fuel)%nat -> ok k e ->
  exists e', terminate_outbound fuel e = Some e' /\ ok (S k) e'.
Proof.
  intros Hf Hok. unfold terminate_outbound.
  assert (ok k (upd e (fun p => set_out_active p false))) as Hok1 by (by apply ok_upd).
  destruct (pi_out_pipe (e_self (upd e (fun p => set_out_active p false)))) as [q|] eqn:Eq.
  2:{ eexists. split; [done|]. apply (ok_mono k); [lia|done]. }
  destruct (pipe_rollback_ok k _ Hf Hok1) as (e2 & -> & Hok2 & Hqu). cbn [mbind option_bind].
  assert (pi_out_pipe (e_self e2) = Some q) as Eq2 by (rewrite <- Eq; apply Hqu).
  destruct (ok_out k e2 q Hok2 Eq2) as (s & Hq & Hg).
  destruct (queue_write_ok k e2 q s (Frame type_delimiter 0 []) false Hok2 Hq Hg) as (e3 & E & Hok3 & _); [done|].
  unfold on_out. rewrite Eq2. cbn [mbind option_bind]. rewrite E. cbn [mbind option_bind].
  apply (pipe_flush_ok (S k)). done.
Qed.

Lemma pipe_terminate_ok k e delay : (k < fuel)%nat -> ok k e ->
  exists e', pipe_terminate fuel e delay = Some e' /\ ok (S k) e'.
Proof.
  intros Hf Hok. unfold pipe_terminate. set (e0 := upd e (fun p => set_delay p delay)).
  assert (ok k e0) as Hok0 by (by apply ok_upd).
  assert (exists e', Some e0 = Some e' /\ ok (S k) e') as Hsame.
  { eexists. split; [done|]. apply (ok_mono k); [lia|done]. }
  destruct (st e0) eqn:Es; try done.
  - apply terminate_outbound_ok; [done|]. apply ask_ok; [done|]. by left.
  - apply terminate_outbound_ok; [done|]. apply ask_ok; [done|]. by right.
  - destruct delay; simpl; [by apply terminate_outbound_ok|].
    destruct (pipe_rollback_ok k e0 Hf Hok0) as (e1 & -> & Hok1 & Hqu). cbn [mbind option_bind].
    apply terminate_outbound_ok; [done|]. apply wait_ack_ok; [done|]. by rewrite (quiet_st _ _ Hqu).
Qed.

Lemma pipe_hiccup_ok k e : ok k e -> exists e', pipe_hiccup e = Some e' /\ ok k e'.
Proof.
  intros Hok. unfold pipe_hiccup. destruct (bool_decide (st e = active)) eqn:Es; simpl; [|by eexists].
  apply bool_decide_eq_true in Es.
  rewrite (h_conflate _ _ _ (i_a _ _ _ _ _ _ Hok) (e_self e) eq_refl).
  unfold queue_new. destruct up_new_ok as (u & -> & Hu). cbn [mbind option_bind].
  eexists. split; [done|]. unfold ok. cbn. rewrite app_assoc.
  apply (inv_hiccup k (e_self e)); try done.
  - apply not_elem_of_dom. apply is_fresh.
  - exists pq_new. split_and!; [done|by constructor|simpl; lia].
Qed.

End methods.

(** *** Commands *)

Section commands.
Context {U : Type} `{YpipeLaws U} (fuel : nat).
Context (pb : option pipe) (tb : list pipe_cmd).

(** The environment of a method, with the commands left in the mailbox. *)
Lemma hiccup_loop_ok ta k q n : forall (e : penv U) s, ok pb ta tb k e -> pi_out_pipe (e_self e) = Some q -> qrep e q s -> good k s ->
  (length (pq_items s) < n)%nat ->
  exists e', hiccup_loop n e = Some e' /\ ok pb ta tb k e' /\ quiet e e'.
Proof.
  induction n as [|n IH]; intros e s Hok Eq Hq Hg Hn; [lia|]. cbn [hiccup_loop].
  destruct (on_queue_ok pb ta tb up_read pq_read k k e q s) as (e1 & E & Hok1 & Hqu & Hq1); try done.
  { intros u. apply up_read_ok. }
  { by apply good_read. }
  unfold on_out. rewrite Eq. cbn [mbind option_bind]. rewrite E. cbn [mbind option_bind].
  pose proof (good_read _ _ Hg) as Hg1. unfold pq_read in *.
  destruct (pq_items s) as [|f l] eqn:Ei; cbn [fst snd] in *; [by eexists|].
  set (e2 := if negb (fr_more f) then _ else e1).
  assert (ok pb ta tb k e2 /\ quiet e1 e2 /\ e_heap e2 = e_heap e1) as (Hok2 & Hqu2 & Eh).
  { unfold e2. destruct (negb (fr_more f)); [|done]. split_and!; try done. by apply ok_upd. }
  destruct (IH e2 (Pq l (pq_done s) (pq_part s) (pq_asleep s))) as (e3 & -> & Hok3 & Hqu3); try done.
  - rewrite <- Eq. destruct Hqu as [(_ & <- & _) _]. apply Hqu2.
  - destruct Hq1 as (u & Hu & Hr). exists u. by rewrite Eh.
  - simpl in *. lia.
  - eexists. split; [done|]. split; [done|]. by do 2 (etrans; [done|]).
Qed.

(** Draining a queue changes nothing else. *)
Lemma drain_loop_spec n : forall (e : penv U) s, qrep e (pi_in_pipe (e_self e)) s -> (length (pq_items s) < n)%nat ->
  exists e', drain_loop n e = Some e' /\ e_self e' = e_self e /\ e_sent e' = e_sent e /\
    is_Some (e_heap e' !! pi_in_pipe (e_self e)) /\
    delete (pi_in_pipe (e_self e)) (e_heap e') = delete (pi_in_pipe (e_self e)) (e_heap e).
Proof.
  induction n as [|n IH]; intros e s (u & Hu & Hr) Hn; [lia|]. cbn [drain_loop]. unfold on_in, on_queue.
  destruct (up_read_ok u s Hr) as (u' & E & Hr'). rewrite Hu. cbn [mbind option_bind]. rewrite E. cbn [mbind option_bind].
  set (e1 := set_heap e _). assert (e_heap e1 !! pi_in_pipe (e_self e) = Some u') as Hu1 by apply lookup_insert_eq.
  assert (delete (pi_in_pipe (e_self e)) (e_heap e1) = delete (pi_in_pipe (e_self e)) (e_heap e)) as Ed
    by apply delete_insert_eq.
  unfold pq_read in *. destruct (pq_items s) as [|f l] eqn:Ei; cbn [fst snd] in *.
  - exists e1. split_and!; try done.
  - destruct (IH e1 (Pq l (pq_done s) (pq_part s) (pq_asleep s))) as (e2 & -> & H1 & H2 & H3 & H4).
    + by exists u'.
    + simpl in *. lia.
    + exists e2. split_and!; try done. by rewrite <- Ed.
Qed.

Lemma process_hiccup_ok ta k q (e : penv U) : (k < fuel)%nat -> ok pb (hiccup q :: ta) tb k e ->
  exists e', process_hiccup fuel e q = Some e' /\ ok pb ta tb k e'.
Proof.
  intros Hf Hok. unfold process_hiccup.
  destruct (pi_out_pipe (e_self e)) as [old|] eqn:Eo.
  2:{ pose proof (h_nohic _ _ _ (i_a _ _ _ _ _ _ Hok) Eo) as Hn. done. }
  cbn [mbind option_bind].
  destruct (ok_out pb _ tb k e old Hok Eo) as (s & Hq & Hg).
  destruct (on_queue_ok pb (hiccup q :: ta) tb up_flush pq_flush_ k k e old s) as (e1 & E1 & Hok1 & Hqu1 & Hq1); try done.
  { intros u. apply up_flush_ok. }
  { by apply good_flush. }
  unfold on_out. rewrite Eo. cbn [mbind option_bind]. rewrite E1. cbn [mbind option_bind].
  assert (pi_out_pipe (e_self e1) = Some old) as Eo1 by (rewrite <- Eo; apply Hqu1).
  pose proof (good_flush _ _ Hg) as Hg1.
  destruct (hiccup_loop_ok (hiccup q :: ta) k old fuel e1 _ Hok1 Eo1 Hq1 Hg1) as (e2 & -> & Hok2 & Hqu2).
  { destruct Hg1. lia. }
  cbn [mbind option_bind]. assert (pi_out_pipe (e_self e2) = Some old) as Eo2 by (rewrite <- Eo1; apply Hqu2).
  destruct (inv_hiccup_received k (e_self e2) (set_out_active (set_out_pipe (e_self e2) (Some q)) true)
    pb ta (tb ++ e_sent e2) (e_heap e2) q old Hok2 Eo2) as [[u Hu] Hinv]; try done.
  unfold queue_delete. rewrite Hu. cbn [mbind option_bind]. eexists. split; [done|].
  case_test; done.
Qed.

Lemma process_pipe_term_ok ta k (e : penv U) : ok pb (pipe_term :: ta) tb k e ->
  exists e', process_pipe_term e = Some e' /\ ok pb ta tb k e'.
Proof.
  intros Hok. pose proof (ok_cfg _ _ _ _ _ Hok) as Hcfg. simpl in Hcfg.
  assert (is_open (st e) \/ st e = term_req_sent1) as Hs by (by apply cfg_term_state in Hcfg).
  assert (pi_out_pipe (e_self e) <> None) as Ho.
  { apply (ok_not_dropped _ _ _ _ _ Hok). unfold is_open, out_dropped in *. intros [|]; destruct Hs as [[|]|]; congruence. }
  assert (hics ta = []) as Hh by apply (h_first _ _ _ (i_a _ _ _ _ _ _ Hok)).
  assert (may_send (st e)) as Hm by (destruct Hs; [by left|by right; right]).
  assert (forall s', out_dropped s' -> cfg (Some s') (p_state pb) (ctl (tb ++ e_sent e) ++ [CAck]) (ctl ta) ->
    (asked (Some s') -> CTerm ∉ ctl (tb ++ e_sent e) -> hics (tb ++ e_sent e) = []) ->
    ok pb ta tb k (ack_peer e s')) as Hack.
  { intros s' Hs' Hc Ha. unfold ok. cbn. rewrite app_assoc.
    apply (inv_handshake k (e_self e) _ pb (pipe_term :: ta) ta (tb ++ e_sent e)); [|exact Hok]. constructor; try done.
    - simpl. by rewrite ctl_app.
    - by right.
    - right. by exists pipe_term_ack.
    - intros Has Hn. rewrite ctl_app in Hn. rewrite hics_app, app_nil_r. apply Ha; [done|]. set_solver.
    - by right. }
  unfold process_pipe_term. destruct (st e) eqn:Es; destruct Hs as [[|]|]; try done.
  - destruct (pi_delay (e_self e)).
    + eexists. split; [done|]. apply (inv_handshake k (e_self e) _ pb (pipe_term :: ta) ta (tb ++ e_sent e)); [|exact Hok].
      constructor; try done; [by apply cfg_term_delay|by right|by left|by intros [|]|].
      left. split_and!; try done. by intros [|].
    + eexists. split; [done|]. apply Hack; [by left|by apply (cfg_term_ack active); [left|]|by intros [|]].
  - eexists. split; [done|]. apply Hack; [by left|by apply (cfg_term_ack delimiter_received); [right|]|by intros [|]].
  - eexists. split; [done|]. apply Hack; [by right|by apply cfg_term_req|]. intros _ Hn.
    apply (h_asked _ _ _ (i_b _ _ _ _ _ _ Hok)); [|done]. unfold st in Es. simpl. rewrite Es. by left.
Qed.

Lemma process_pipe_term_ack_ok ta k (e : penv U) : (k < fuel)%nat -> ok pb (pipe_term_ack :: ta) tb k e ->
  exists e', process_pipe_term_ack fuel e = Some e' /\ ta = [] /\ inv k None pb [] (tb ++ e_sent e') (e_heap e').
Proof.
  intros Hf Hok. pose proof (ok_cfg _ _ _ _ _ Hok) as Hcfg. simpl in Hcfg.
  assert (ta = []) as -> by apply (h_ack _ _ _ (i_a _ _ _ _ _ _ Hok)).
  assert (pi_conflate (e_self e) = false) as Hco by apply (h_conflate _ _ _ (i_a _ _ _ _ _ _ Hok) _ eq_refl).
  destruct (ok_in pb _ tb k e Hok) as (s & Hq & Hg).
  (* the queue is drained and deleted, whatever was sent *)
  assert (forall e1, e_heap e1 = e_heap e -> pi_in_pipe (e_self e1) = pi_in_pipe (e_self e) ->
    pi_conflate (e_self e1) = false -> delete_sent (e_self e) (tb ++ e_sent e) (tb ++ e_sent e1) ->
    exists e', (let* e := if negb (pi_conflate (e_self e1)) then drain_loop fuel e1 else Some e1 in
                let* h := queue_delete (e_heap e) (pi_in_pipe (e_self e)) in Some (set_heap e h)) = Some e' /\
      [] = @nil pipe_cmd /\ inv k None pb [] (tb ++ e_sent e') (e_heap e')) as Hdel.
  { intros e1 Eh Ei Ec Hds. rewrite Ec. cbn [negb].
    destruct (drain_loop_spec fuel e1 s) as (e2 & -> & Es2 & Et2 & [u Hu] & Ed).
    { destruct Hq as (u & Hu & Hr). exists u. by rewrite Eh, Ei. }
    { destruct Hg. lia. }
    cbn [mbind option_bind]. unfold queue_delete. rewrite Es2, Hu. cbn [mbind option_bind].
    eexists. split; [done|]. split; [done|]. cbn. rewrite Ed, Et2, Eh, Ei.
    by apply (inv_delete k (e_self e) pb (tb ++ e_sent e)). }
  unfold process_pipe_term_ack. change (st (emit e pipe_terminated)) with (st e).
  destruct (cfg_ack_state _ _ _ _ Hcfg) as [Hs|[Hs|Hs]]; rewrite Hs; cbn [mbind option_bind]; apply Hdel; try done.
  - left. split; [done|]. cbn. by rewrite app_assoc.
  - right. split; [by left|done].
  - right. split; [by right|done].
Qed.

Lemma process_command_ok c ta k (e : penv U) : (k < fuel)%nat -> ok pb (c :: ta) tb k e ->
  exists e' deleted, process_command fuel e c = Some (e', deleted) /\
    if deleted : bool then ta = [] /\ inv k None pb [] (tb ++ e_sent e') (e_heap e') else ok pb ta tb k e'.
Proof.
  intros Hf Hok. destruct c as [|n|q| | |i o|n s]; cbn [process_command].
  - eexists _, _. split; [done|]. cbn. apply inv_receive in Hok; [|done]. unfold process_activate_read.
    case_test; [|done]. apply ok_emit. by apply ok_upd.
  - eexists _, _. split; [done|]. cbn. apply inv_receive in Hok; [|done]. unfold process_activate_write.
    case_test; [apply ok_emit, ok_upd; [done|]|]; by apply ok_upd.
  - destruct (process_hiccup_ok ta k q e Hf Hok) as (e' & -> & Hok'). by eexists _, _.
  - destruct (process_pipe_term_ok ta k e Hok) as (e' & -> & Hok'). by eexists _, _.
  - destruct (process_pipe_term_ack_ok ta k e Hf Hok) as (e' & -> & ? & ?). by eexists _, _.
  - eexists _, _. split; [done|]. cbn. apply inv_receive in Hok; [|done]. by apply ok_upd.
  - eexists _, _. split; [done|]. cbn. apply inv_receive in Hok; [|done]. done.
Qed.

(** The calls that send to the peer without looking at the state. *)
Definition sends_blindly (a : pipe_act) : bool :=
  match a with PSendHwms _ _ | PSendStats _ => true | _ => false end.

Lemma pipe_call_ok ta k (e : penv U) a : (k < fuel)%nat -> ok pb ta tb k e ->
  (sends_blindly a = true -> may_send (st e)) ->
  exists e' o, pipe_call fuel e a = Some (e', o) /\ ok pb ta tb (S k) e'.
Proof.
  intros Hf Hok Hb. assert (forall e', ok pb ta tb k e' -> ok pb ta tb (S k) e') as Hmono.
  { intros e'. apply ok_mono. lia. }
  destruct a as [| | |f| | | |delay| |i o|i o|i o|s]; cbn [pipe_call sends_blindly] in *.
  - destruct (pipe_check_read_ok pb ta tb k e Hok) as (e' & b & -> & Hok'). eexists _, _. split; [done|]. by apply Hmono.
  - destruct (pipe_read_ok fuel pb ta tb k e Hf Hok) as (e' & b & -> & Hok'). eexists _, _. split; [done|]. by apply Hmono.
  - destruct (pipe_check_write_ok pb ta tb k e Hok) as (Hok' & _). destruct (pipe_check_write e) as [e' b].
    eexists _, _. split; [done|]. by apply Hmono.
  - destruct (pipe_write_ok pb ta tb k e f Hok) as (e' & b & -> & Hok'). by eexists _, _.
  - destruct (pipe_rollback_ok fuel pb ta tb k e Hf Hok) as (e' & -> & Hok' & _). eexists _, _. split; [done|]. by apply Hmono.
  - destruct (pipe_flush_ok pb ta tb k e Hok) as (e' & -> & Hok'). eexists _, _. split; [done|]. by apply Hmono.
  - destruct (pipe_hiccup_ok pb ta tb k e Hok) as (e' & -> & Hok'). eexists _, _. split; [done|]. by apply Hmono.
  - destruct (pipe_terminate_ok fuel pb ta tb k e delay Hf Hok) as (e' & -> & Hok'). by eexists _, _.
  - eexists _, _. split; [done|]. by apply Hmono, ok_upd.
  - eexists _, _. split; [done|]. by apply Hmono, ok_upd.
  - eexists _, _. split; [done|]. by apply Hmono, ok_upd.
  - eexists _, _. split; [done|]. apply Hmono, ok_send; [by apply Hb|done|done].
  - eexists _, _. split; [done|]. apply Hmono, ok_send; [by apply Hb|done|done].
Qed.
End commands.

(** ** Runs of the pair *)

Section runs.
Context {U : Type} `{YpipeLaws U} (fuel : nat).

Definition winv (k : nat) (w : world U) : Prop :=
  inv k (w_pipe w false) (w_pipe w true) (w_chan w false) (w_chan w true) (w_heap w).

Lemma winv_side k w s : winv k w <-> inv k (w_pipe w s) (w_pipe w (negb s)) (w_chan w s) (w_chan w (negb s)) (w_heap w).
Proof. destruct s; simpl; [split; apply inv_sym|done]. Qed.

Lemma upd_side_eq {A} (f : bool -> A) s v : upd_side f s v s = v.
Proof. unfold upd_side. by rewrite Bool.eqb_reflx. Qed.

Lemma upd_side_negb {A} (f : bool -> A) s v : upd_side f s v (negb s) = f (negb s).
Proof. unfold upd_side. by destruct s. Qed.

Lemma upd_negb_side {A} (f : bool -> A) s v : upd_side f (negb s) v s = f s.
Proof. unfold upd_side. by destruct s. Qed.

Lemma pair_close_ok k w s e (deleted : bool) :
  inv k (if deleted then None else Some (e_self e)) (w_pipe w (negb s)) (w_chan w s) (w_chan w (negb s) ++ e_sent e) (e_heap e) ->
  exists w', pair_close w s e deleted = Some w' /\ winv k w'.
Proof.
  intros Hinv. unfold pair_close.
  assert (bool_decide (e_sent e = []) || bool_decide (is_Some (w_pipe w (negb s))) = true) as ->.
  { apply orb_true_iff. destruct (w_pipe w (negb s)) as [y|] eqn:E; [right; by apply bool_decide_eq_true|left].
    apply bool_decide_eq_true. pose proof (h_gone _ _ _ (i_b _ _ _ _ _ _ Hinv) eq_refl) as Hn. by apply app_nil in Hn as [_ ?]. }
  eexists. split; [done|]. apply (winv_side k _ s). simpl.
  by rewrite !upd_side_eq, upd_side_negb, upd_negb_side.
Qed.

(** A schedule in which [send_hwms_to_peer] and [send_stats_to_peer] are
    only called on endpoints whose peer is known to exist. *)
Definition call_safe (w : world U) (a : pair_act) : Prop :=
  match a with
  | Call s a => sends_blindly a = true -> forall p, w_pipe w s = Some p -> may_send (pi_state p)
  | Deliver _ => True
  end.

Lemma pair_step_ok k w a : (k < fuel)%nat -> winv k w -> call_safe w a ->
  exists w' o evs, pair_step fuel w a = Some (w', o, evs) /\ winv (S k) w'.
Proof.
  intros Hf Hw Hs. assert (forall w', winv k w' -> winv (S k) w') as Hmono.
  { intros w'. apply inv_mono. lia. }
  destruct a as [s a|s]; cbn [pair_step].
  - pose proof (proj1 (winv_side k w s) Hw) as Hinv. simpl in Hs.
    destruct (w_pipe w s) as [p|] eqn:Ep; [|eexists _, _, _; split; [done|]; by apply Hmono].
    destruct (pipe_call_ok fuel (w_pipe w (negb s)) (w_chan w (negb s)) (w_chan w s) k (Penv p (w_heap w) [] []) a)
      as (e & o & -> & Hok); [done| |by intros Hb; apply Hs|].
    { unfold ok. simpl. by rewrite app_nil_r. }
    cbn [mbind option_bind]. destruct (pair_close_ok (S k) w s e false Hok) as (w' & -> & Hw'). by eexists _, _, _.
  - pose proof (proj1 (winv_side k w s) Hw) as Hinv.
    destruct (w_chan w s) as [|c cs] eqn:Ec; [eexists _, _, _; split; [done|]; by apply Hmono|].
    destruct (w_pipe w s) as [p|] eqn:Ep; [|by pose proof (h_gone _ _ _ (i_a _ _ _ _ _ _ Hinv) eq_refl)].
    cbn [mbind option_bind].
    destruct (process_command_ok fuel (w_pipe w (negb s)) (w_chan w (negb s)) c cs k (Penv p (w_heap w) [] []))
      as (e & deleted & -> & Hok); [done|by unfold ok; simpl; rewrite app_nil_r|].
    cbn [mbind option_bind].
    set (w1 := World (w_pipe w) (upd_side (w_chan w) s cs) (w_heap w)).
    destruct (pair_close_ok k w1 s e deleted) as (w' & -> & Hw').
    { simpl. rewrite upd_side_eq, upd_side_negb. destruct deleted; [by destruct Hok as [-> ?]|done]. }
    eexists _, _, _. split; [done|]. by apply Hmono.
Qed.

(** Every call of a schedule is safe in the state it is made in. *)
Fixpoint schedule_safe (w : world U) (acts : list pair_act) : Prop :=
  match acts with
  | [] => True
  | a :: acts' =>
      call_safe w a /\ match pair_step fuel w a with Some (w', _, _) => schedule_safe w' acts' | None => True end
  end.

Lemma pair_run_ok acts : forall k w, (k + length acts <= fuel)%nat -> winv k w -> schedule_safe w acts ->
  exists w' log, pair_run fuel w acts = Some (w', log) /\ winv (k + length acts) w'.
Proof.
  induction acts as [|a acts IH]; intros k w Hf Hw Hs; cbn [pair_run length] in *.
  { rewrite Nat.add_0_r. by eexists _, _. }
  destruct Hs as [Hs1 Hs2]. destruct (pair_step_ok k w a) as (w1 & o & evs & E & Hw1); [lia|done|done|].
  rewrite E in *. cbn [mbind option_bind].
  destruct (IH (S k) w1) as (w2 & log & -> & Hw2); [lia|done|done|]. cbn [mbind option_bind].
  replace (k + S (length acts))%nat with (S k + length acts)%nat by lia. by eexists _, _.
Qed.

Lemma pipepair_ok hwm0 hwm1 : exists w, pipepair hwm0 hwm1 false false = Some w /\ winv 0 w.
Proof.
  unfold pipepair, queue_new. destruct up_new_ok as (u & E & Hu). rewrite E. cbn [mbind option_bind].
  eexists. split; [done|]. unfold winv. cbn [w_pipe w_chan w_heap].
  set (q1 := fresh (dom ∅)). set (h := <[q1 := u]> ∅). set (q2 := fresh (dom h)).
  assert (q2 <> q1) as Hne.
  { intros E2. pose proof (is_fresh (dom h)) as Hf. fold q2 in Hf. rewrite E2 in Hf. apply Hf. unfold h. set_solver. }
  assert (queue_ok 0 u) as Hok by (exists pq_new; split_and!; [done|by constructor|simpl; lia]).
  constructor; cbn.
  - left. constructor; by left.
  - constructor; cbn; try done; [intros x [= <-]; split; [done|by intros [|]]| |by intros x [= <-]].
    intros v [= <-]. by eexists.
  - constructor; cbn; try done; [intros x [= <-]; split; [done|by intros [|]]| |by intros x [= <-]].
    intros v [= <-]. by eexists.
  - rewrite !list.NoDup_cons. split_and!; [|set_solver|constructor]. set_solver.
  - intros q. unfold queues_to, p_out. cbn. rewrite !elem_of_cons. unfold h at 1. rewrite !lookup_insert.
    repeat case_decide; subst; split; try tauto; try (intros; by eexists).
    + rewrite lookup_empty. by intros [? ?].
    + intros [|[|Hn]]; [congruence..|]. by apply not_elem_of_nil in Hn.
  - intros q v. unfold h at 1. rewrite !lookup_insert. repeat case_decide; intros; by simplify_eq.
Qed.
End runs.
