(* ===== verification/PipeSim.v ===== *)
(** * A pair of pipes over any queue behaves as over the abstract queue

    Every method of [pipe_t] does the same on an environment whose queues
    implement the interface of Upipe.v as on one with abstract queues. *)

From S2P Require Import Prelude Frame Yqueue Ypipe Upipe Pipe PipePair.

Section sim.
Context {U : Type} `{YpipeLaws U} (fuel : nat).

Abbreviation absq := (pq (T := frame)).

Definition heap_rel (h : gmap Z U) (g : gmap Z absq) : Prop :=
  forall q, match h !! q, g !! q with Some u, Some s => up_rep u s | None, None => True | _, _ => False end.

Record rel (e : penv U) (g : penv absq) : Prop := {
  r_self : e_self e = e_self g;
  r_sent : e_sent e = e_sent g;
  r_events : e_events e = e_events g;
  r_heap : heap_rel (e_heap e) (e_heap g);
}.

Definition sim {A} (m : option (penv U * A)) (n : option (penv absq * A)) : Prop :=
  match n with Some (g, a) => exists e, m = Some (e, a) /\ rel e g | None => True end.

Definition sim1 (m : option (penv U)) (n : option (penv absq)) : Prop :=
  match n with Some g => exists e, m = Some e /\ rel e g | None => True end.

Lemma sim_bind {A B} (m : option (penv U * A)) n (k : penv U * A -> option (penv U * B)) l :
  sim m n -> (forall e g a, rel e g -> sim (k (e, a)) (l (g, a))) -> sim (mbind k m) (mbind l n).
Proof. destruct n as [[g a]|]; [|done]. intros (e & -> & Hr) Hk. by apply Hk. Qed.

Lemma sim1_bind {A} (m : option (penv U * A)) n (k : penv U * A -> option (penv U)) l :
  sim m n -> (forall e g a, rel e g -> sim1 (k (e, a)) (l (g, a))) -> sim1 (mbind k m) (mbind l n).
Proof. destruct n as [[g a]|]; [|done]. intros (e & -> & Hr) Hk. by apply Hk. Qed.

Lemma sim_bind1 {B} (m : option (penv U)) n (k : penv U -> option (penv U * B)) l :
  sim1 m n -> (forall e g, rel e g -> sim (k e) (l g)) -> sim (mbind k m) (mbind l n).
Proof. destruct n as [g|]; [|done]. intros (e & -> & Hr) Hk. by apply Hk. Qed.

Lemma sim1_bind1 (m : option (penv U)) n (k : penv U -> option (penv U)) l :
  sim1 m n -> (forall e g, rel e g -> sim1 (k e) (l g)) -> sim1 (mbind k m) (mbind l n).
Proof. destruct n as [g|]; [|done]. intros (e & -> & Hr) Hk. by apply Hk. Qed.

Lemma sim_ret {A} e g (a : A) : rel e g -> sim (Some (e, a)) (Some (g, a)).
Proof. intros. by exists e. Qed.

Lemma sim1_ret e g : rel e g -> sim1 (Some e) (Some g).
Proof. intros. by exists e. Qed.

Lemma rel_upd e g f : rel e g -> rel (upd e f) (upd g f).
Proof. intros []. constructor; try done. simpl. by rewrite r_self0. Qed.

Lemma rel_send e g c : rel e g -> rel (send e c) (send g c).
Proof. intros []. constructor; try done. simpl. by rewrite r_sent0. Qed.

Lemma rel_emit e g v : rel e g -> rel (emit e v) (emit g v).
Proof. intros []. constructor; try done. simpl. by rewrite r_events0. Qed.

Lemma rel_heap e g h h' : rel e g -> heap_rel h h' -> rel (set_heap e h) (set_heap g h').
Proof. intros [] Hh. by constructor. Qed.

Lemma heap_rel_insert h g q u s : heap_rel h g -> up_rep u s -> heap_rel (<[q := u]> h) (<[q := s]> g).
Proof. intros Hh Hu q'. rewrite !lookup_insert. case_decide; [done|apply Hh]. Qed.

Lemma heap_rel_delete h g q : heap_rel h g -> heap_rel (delete q h) (delete q g).
Proof. intros Hh q'. rewrite !lookup_delete. case_decide; [done|apply Hh]. Qed.

Lemma heap_rel_dom h g : heap_rel h g -> dom h = dom g.
Proof.
  intros Hh. apply set_eq. intros q. rewrite !elem_of_dom. specialize (Hh q).
  by destruct (h !! q), (g !! q).
Qed.

(** The methods of a queue. *)
Lemma sim_on_queue {A} (m : U -> option (U * A)) (m' : absq -> option (absq * A)) e g q : rel e g ->
  (forall u s, up_rep u s -> match m' s with Some (s', a) => exists u', m u = Some (u', a) /\ up_rep u' s' | None => True end) ->
  sim (on_queue e q m) (on_queue g q m').
Proof.
  intros Hr Hm. unfold on_queue. pose proof (r_heap _ _ Hr q) as Hq.
  destruct (e_heap e !! q) as [u|], (e_heap g !! q) as [s|]; try done. cbn [mbind option_bind].
  specialize (Hm u s Hq). destruct (m' s) as [[s' a]|]; [|done]. destruct Hm as (u' & -> & Hu'). cbn [mbind option_bind].
  apply sim_ret, rel_heap; [done|]. apply heap_rel_insert; [apply Hr|done].
Qed.

Lemma sim_on_in {A} (m : U -> option (U * A)) (m' : absq -> option (absq * A)) e g : rel e g ->
  (forall u s, up_rep u s -> match m' s with Some (s', a) => exists u', m u = Some (u', a) /\ up_rep u' s' | None => True end) ->
  sim (on_in e m) (on_in g m').
Proof. intros Hr. unfold on_in. rewrite (r_self _ _ Hr). by apply sim_on_queue. Qed.

Lemma sim_on_out {A} (m : U -> option (U * A)) (m' : absq -> option (absq * A)) e g : rel e g ->
  (forall u s, up_rep u s -> match m' s with Some (s', a) => exists u', m u = Some (u', a) /\ up_rep u' s' | None => True end) ->
  sim (on_out e m) (on_out g m').
Proof.
  intros Hr Hm. unfold on_out. rewrite (r_self _ _ Hr). destruct (pi_out_pipe (e_self g)); [|done]. by apply sim_on_queue.
Qed.

Lemma sim_read u s : up_rep u s ->
  match up_read s with Some (s', a) => exists u', up_read u = Some (u', a) /\ up_rep u' s' | None => True end.
Proof. intros Hu. simpl. destruct (up_read_ok u s Hu) as (u' & E & Hu'). destruct (pq_read s). by exists u'. Qed.

Lemma sim_check_read u s : up_rep u s ->
  match up_check_read s with Some (s', a) => exists u', up_check_read u = Some (u', a) /\ up_rep u' s' | None => True end.
Proof. intros Hu. simpl. destruct (up_check_read_ok u s Hu) as (u' & E & Hu'). destruct (pq_check_read s). by exists u'. Qed.

Lemma sim_unwrite u s : up_rep u s ->
  match up_unwrite s with Some (s', a) => exists u', up_unwrite u = Some (u', a) /\ up_rep u' s' | None => True end.
Proof. intros Hu. simpl. destruct (up_unwrite_ok u s Hu) as (u' & E & Hu'). destruct (pq_unwrite s). by exists u'. Qed.

Lemma sim_flush u s : up_rep u s ->
  match up_flush s with Some (s', a) => exists u', up_flush u = Some (u', a) /\ up_rep u' s' | None => True end.
Proof. intros Hu. simpl. destruct (up_flush_ok u s Hu) as (u' & E & Hu'). destruct (pq_flush_ s). by exists u'. Qed.

Lemma sim_probe fn u s : up_rep u s ->
  match up_probe s fn with Some (s', a) => exists u', up_probe u fn = Some (u', a) /\ up_rep u' s' | None => True end.
Proof. intros Hu. simpl. destruct (pq_items s) as [|x l] eqn:E; [done|]. apply (up_probe_ok u s fn x Hu). by rewrite E. Qed.

Lemma sim_write f inc u s : up_rep u s ->
  match queue_write f inc s with Some (s', a) => exists u', queue_write f inc u = Some (u', a) /\ up_rep u' s' | None => True end.
Proof.
  intros Hu. unfold queue_write. simpl. destruct (up_write_ok u s f inc Hu) as (u' & -> & Hu'). by exists u'.
Qed.

(** One step of a proof that a method is simulated: the state of the
    endpoint is the same, so that the tests are. *)
Ltac sim_step :=
  match goal with
  | |- sim (mbind _ (on_in _ _)) _ => apply sim_bind; [apply sim_on_in; [assumption|]|intros ? ? ? ?]
  | |- sim (mbind _ (on_out _ _)) _ => apply sim_bind; [apply sim_on_out; [assumption|]|intros ? ? ? ?]
  | |- sim1 (mbind _ (on_in _ _)) _ => apply sim1_bind; [apply sim_on_in; [assumption|]|intros ? ? ? ?]
  | |- sim1 (mbind _ (on_out _ _)) _ => apply sim1_bind; [apply sim_on_out; [assumption|]|intros ? ? ? ?]
  | |- sim (Some _) (Some _) => apply sim_ret
  | |- sim1 (Some _) (Some _) => apply sim1_ret
  | |- sim None None => exact I
  | |- sim1 None None => exact I
  | |- rel (upd _ _) (upd _ _) => apply rel_upd
  | |- rel (send _ _) (send _ _) => apply rel_send
  | |- rel (emit _ _) (emit _ _) => apply rel_emit
  | |- rel _ _ => assumption
  | |- forall u s, up_rep u s -> _ =>
      first [exact sim_read | exact sim_check_read | exact sim_unwrite | exact sim_flush | exact (sim_probe _) | exact (sim_write _ _)]
  | |- _ (if ?b then _ else _) (if ?b then _ else _) => destruct b
  | |- _ (match ?b with _ => _ end) (match ?b with _ => _ end) => destruct b
  end.

Ltac same_self :=
  repeat match goal with Hr : rel ?e ?g |- context [e_self ?e] => rewrite (r_self e g Hr) end.

Ltac sim_solve := repeat (unfold st, goto, may_read, ack_peer in *; same_self; cbn beta iota; sim_step).

Lemma sim_process_delimiter e g : rel e g -> sim1 (process_delimiter e) (process_delimiter g).
Proof. intros Hr. unfold process_delimiter. sim_solve. Qed.

Lemma sim_pipe_check_read e g : rel e g -> sim (pipe_check_read e) (pipe_check_read g).
Proof.
  intros Hr. unfold pipe_check_read. sim_solve. apply sim_bind1; [by apply sim_process_delimiter|]. intros. sim_solve.
Qed.

Lemma sim_read_loop n : forall e g, rel e g -> sim (read_loop n e) (read_loop n g).
Proof. induction n as [|n IH]; intros e g Hr; cbn [read_loop]; [done|]. sim_solve. by apply IH. Qed.

Lemma rel_count_read e g f : rel e g -> rel (count_read e f) (count_read g f).
Proof.
  intros Hr. unfold count_read.
  destruct (negb (fr_more f) && negb (fr_is_routing_id f)); cbn; rewrite (r_self _ _ Hr); destruct ((0 <? _) && _); sim_solve.
Qed.

Lemma sim_pipe_read e g : rel e g -> sim (pipe_read fuel e) (pipe_read fuel g).
Proof.
  intros Hr. unfold pipe_read. sim_solve. apply sim_bind; [by apply sim_read_loop|]. intros e1 g1 m Hr1. sim_solve.
  - apply sim_bind1; [by apply sim_process_delimiter|]. intros. sim_solve.
  - by apply rel_count_read.
Qed.

Lemma sim_pipe_check_write e g : rel e g ->
  (pipe_check_write e).2 = (pipe_check_write g).2 /\ rel (pipe_check_write e).1 (pipe_check_write g).1.
Proof.
  intros Hr. unfold pipe_check_write, st. rewrite (r_self _ _ Hr).
  destruct (_ || _); [done|]. destruct (negb _); split; try done. by apply rel_upd.
Qed.

Lemma sim_pipe_write e g f : rel e g -> sim (pipe_write e f) (pipe_write g f).
Proof.
  intros Hr. unfold pipe_write. pose proof (sim_pipe_check_write e g Hr) as [Hb Hr1].
  destruct (pipe_check_write e) as [e1 b], (pipe_check_write g) as [g1 b']. simpl in Hb, Hr1. subst b'. sim_solve.
Qed.

Lemma sim_rollback_loop n : forall e g, rel e g -> sim1 (rollback_loop n e) (rollback_loop n g).
Proof. induction n as [|n IH]; intros e g Hr; cbn [rollback_loop]; [done|]. sim_solve. by apply IH. Qed.

Lemma sim_pipe_rollback e g : rel e g -> sim1 (pipe_rollback fuel e) (pipe_rollback fuel g).
Proof. intros Hr. unfold pipe_rollback. sim_solve. by apply sim_rollback_loop. Qed.

Lemma sim_pipe_flush e g : rel e g -> sim1 (pipe_flush e) (pipe_flush g).
Proof. intros Hr. unfold pipe_flush. sim_solve. Qed.

Lemma sim_hiccup_loop n : forall e g, rel e g -> sim1 (hiccup_loop n e) (hiccup_loop n g).
Proof.
  induction n as [|n IH]; intros e g Hr; cbn [hiccup_loop]; [done|]. sim_solve. apply IH. destruct (negb _); sim_solve.
Qed.

Lemma sim_drain_loop n : forall e g, rel e g -> sim1 (drain_loop n e) (drain_loop n g).
Proof. induction n as [|n IH]; intros e g Hr; cbn [drain_loop]; [done|]. sim_solve. by apply IH. Qed.

Lemma sim_queue_delete e g q (k : penv U -> option (penv U)) l : rel e g ->
  (forall h h', heap_rel h h' -> sim1 (k (set_heap e h)) (l (set_heap g h'))) ->
  sim1 (let* h := queue_delete (e_heap e) q in k (set_heap e h)) (let* h := queue_delete (e_heap g) q in l (set_heap g h)).
Proof.
  intros Hr Hk. unfold queue_delete. pose proof (r_heap _ _ Hr q) as Hq.
  destruct (e_heap e !! q), (e_heap g !! q); try done. cbn [mbind option_bind]. apply Hk, heap_rel_delete, Hr.
Qed.

Lemma sim_process_hiccup e g q : rel e g -> sim1 (process_hiccup fuel e q) (process_hiccup fuel g q).
Proof.
  intros Hr. unfold process_hiccup. rewrite (r_self _ _ Hr). destruct (pi_out_pipe (e_self g)) as [old|]; [|done].
  cbn [mbind option_bind]. sim_solve. apply sim1_bind1; [by apply sim_hiccup_loop|]. intros e1 g1 Hr1.
  unfold queue_delete. pose proof (r_heap _ _ Hr1 old) as Hq.
  destruct (e_heap e1 !! old), (e_heap g1 !! old); try done. cbn [mbind option_bind].
  set (e2 := set_heap e1 _). set (g2 := set_heap g1 _).
  assert (rel e2 g2) as Hr2 by (apply rel_heap; [done|]; apply heap_rel_delete, Hr1).
  apply sim1_ret. unfold st. cbn. rewrite (r_self _ _ Hr1). destruct (bool_decide _); sim_solve.
Qed.

Lemma sim_process_pipe_term e g : rel e g -> sim1 (process_pipe_term e) (process_pipe_term g).
Proof. intros Hr. unfold process_pipe_term. sim_solve. Qed.

Lemma sim_process_pipe_term_ack e g : rel e g -> sim1 (process_pipe_term_ack fuel e) (process_pipe_term_ack fuel g).
Proof.
  intros Hr. unfold process_pipe_term_ack.
  assert (rel (emit e pipe_terminated) (emit g pipe_terminated)) as Hr1 by (by apply rel_emit).
  apply sim1_bind1; [sim_solve|]. intros e1 g1 Hr2. apply sim1_bind1; [rewrite (r_self _ _ Hr2); sim_solve; by apply sim_drain_loop|].
  intros e2 g2 Hr3. rewrite (r_self _ _ Hr3). apply (sim_queue_delete e2 g2 _ Some Some); [done|].
  intros h h' Hh. apply sim1_ret. by apply rel_heap.
Qed.

Lemma sim_terminate_outbound e g : rel e g -> sim1 (terminate_outbound fuel e) (terminate_outbound fuel g).
Proof.
  intros Hr. unfold terminate_outbound. set (e0 := upd e _). set (g0 := upd g _).
  assert (rel e0 g0) as Hr0 by (by apply rel_upd). rewrite (r_self _ _ Hr0).
  destruct (pi_out_pipe (e_self g0)); [|by apply sim1_ret]. apply sim1_bind1; [by apply sim_pipe_rollback|].
  intros e1 g1 Hr1. sim_solve. by apply sim_pipe_flush.
Qed.

Lemma sim_pipe_terminate e g delay : rel e g -> sim1 (pipe_terminate fuel e delay) (pipe_terminate fuel g delay).
Proof.
  intros Hr. unfold pipe_terminate. set (e0 := upd e _). set (g0 := upd g _).
  assert (rel e0 g0) as Hr0 by (by apply rel_upd). unfold st. rewrite (r_self _ _ Hr0).
  assert (forall s, rel (goto (send e0 pipe_term) s) (goto (send g0 pipe_term) s)) as Hask by (intros; sim_solve).
  destruct (pi_state (e_self g0)); try (by apply sim1_ret); try (by apply sim_terminate_outbound).
  destruct delay; cbn [negb]; [by apply sim_terminate_outbound|].
  apply sim1_bind1; [by apply sim_pipe_rollback|]. intros e1 g1 Hr1. apply sim_terminate_outbound. sim_solve.
Qed.

Lemma sim_pipe_hiccup e g : rel e g -> pi_conflate (e_self g) = false -> sim1 (pipe_hiccup e) (pipe_hiccup g).
Proof.
  intros Hr Hc. unfold pipe_hiccup. sim_solve. rewrite Hc. unfold queue_new.
  destruct up_new_ok as (u & -> & Hu). cbn [mbind option_bind]. change (up_new false) with (Some (pq_new (T := frame))).
  cbn [mbind option_bind]. rewrite (heap_rel_dom _ _ (r_heap _ _ Hr)). sim_solve. apply rel_heap; [done|].
  apply heap_rel_insert; [apply Hr|done].
Qed.

(** ** The pair *)

Record wrel (w : world U) (g : world absq) : Prop := {
  wr_pipe s : w_pipe w s = w_pipe g s;
  wr_chan s : w_chan w s = w_chan g s;
  wr_heap : heap_rel (w_heap w) (w_heap g);
}.

Lemma sim_pipe_call e g a : rel e g -> pi_conflate (e_self g) = false -> sim (pipe_call fuel e a) (pipe_call fuel g a).
Proof.
  intros Hr Hc. destruct a; cbn [pipe_call]; try (apply sim_ret; sim_solve).
  - apply sim_bind; [by apply sim_pipe_check_read|]. intros. by apply sim_ret.
  - apply sim_bind; [by apply sim_pipe_read|]. intros. by apply sim_ret.
  - pose proof (sim_pipe_check_write e g Hr) as [Hb Hr1].
    destruct (pipe_check_write e), (pipe_check_write g). simpl in *. subst. by apply sim_ret.
  - apply sim_bind; [by apply sim_pipe_write|]. intros. by apply sim_ret.
  - apply sim_bind1; [by apply sim_pipe_rollback|]. intros. by apply sim_ret.
  - apply sim_bind1; [by apply sim_pipe_flush|]. intros. by apply sim_ret.
  - apply sim_bind1; [by apply sim_pipe_hiccup|]. intros. by apply sim_ret.
  - apply sim_bind1; [by apply sim_pipe_terminate|]. intros. by apply sim_ret.
  - unfold pipe_set_nodelay. sim_solve.
  - unfold pipe_set_hwms. same_self. sim_solve.
  - unfold pipe_set_hwms_boost. sim_solve.
  - unfold pipe_send_hwms_to_peer. sim_solve.
  - unfold pipe_send_stats_to_peer. same_self. sim_solve.
Qed.

Lemma sim_process_command e g c : rel e g -> sim (process_command fuel e c) (process_command fuel g c).
Proof.
  intros Hr. destruct c; cbn [process_command].
  - apply sim_ret. unfold process_activate_read, may_read, st. same_self. destruct (_ && _); sim_solve.
  - apply sim_ret. unfold process_activate_write, st. cbn. same_self. destruct (_ && _); sim_solve.
  - apply sim_bind1; [by apply sim_process_hiccup|]. intros. by apply sim_ret.
  - apply sim_bind1; [by apply sim_process_pipe_term|]. intros. by apply sim_ret.
  - apply sim_bind1; [by apply sim_process_pipe_term_ack|]. intros. by apply sim_ret.
  - apply sim_ret. unfold process_pipe_hwm, pipe_set_hwms. same_self. sim_solve.
  - apply sim_ret. unfold process_pipe_peer_stats. same_self. sim_solve.
Qed.

Lemma sim_pair_close w g s e ge deleted g' : wrel w g -> rel e ge -> pair_close g s ge deleted = Some g' ->
  exists w', pair_close w s e deleted = Some w' /\ wrel w' g'.
Proof.
  intros [H1 H2 H3] [R1 R2 R3 R4] Hc. unfold pair_close in *. rewrite R2, H1.
  destruct (_ || _); [|done]. injection Hc as <-. eexists. split; [done|].
  constructor; cbn; try done; intros s'; unfold upd_side; rewrite ?R1, ?R2, ?H1, ?H2; done.
Qed.

Lemma sim_pair_step k w g a g' o evs : winv k g -> wrel w g -> pair_step fuel g a = Some (g', o, evs) ->
  exists w', pair_step fuel w a = Some (w', o, evs) /\ wrel w' g'.
Proof.
  intros Hg Hw Hstep. pose proof Hw as [H1 H2 H3]. destruct a as [s a|s]; cbn [pair_step] in *.
  - rewrite H1. destruct (w_pipe g s) as [p|] eqn:Ep; [|by injection Hstep as <- <- <-; exists w].
    assert (pi_conflate p = false) as Hc.
    { apply (winv_side k g s) in Hg. rewrite Ep in Hg. by apply (h_conflate _ _ _ (i_a _ _ _ _ _ _ Hg)). }
    pose proof (sim_pipe_call (Penv p (w_heap w) [] []) (Penv p (w_heap g) [] []) a ltac:(by constructor) Hc) as Hs.
    destruct (pipe_call fuel (Penv p (w_heap g) [] []) a) as [[ge o']|]; [|done]. destruct Hs as (e & -> & Hr).
    cbn [mbind option_bind] in *. destruct (pair_close g s ge false) as [g1|] eqn:Ec; [|done]. cbn [mbind option_bind] in Hstep.
    injection Hstep as <- <- <-. destruct (sim_pair_close w g s e ge false g1 Hw Hr Ec) as (w' & -> & Hw').
    cbn [mbind option_bind]. exists w'. by rewrite (r_events _ _ Hr).
  - rewrite H1, H2. destruct (w_chan g s) as [|c cs] eqn:Ecs; [by injection Hstep as <- <- <-; exists w|].
    destruct (w_pipe g s) as [p|] eqn:Ep; [|done]. cbn [mbind option_bind] in *.
    pose proof (sim_process_command (Penv p (w_heap w) [] []) (Penv p (w_heap g) [] []) c ltac:(by constructor)) as Hs.
    destruct (process_command fuel (Penv p (w_heap g) [] []) c) as [[ge deleted]|]; [|done]. destruct Hs as (e & -> & Hr).
    cbn [mbind option_bind] in *. destruct (pair_close _ s ge deleted) as [g1|] eqn:Ec; [|done]. cbn [mbind option_bind] in Hstep.
    injection Hstep as <- <- <-.
    destruct (sim_pair_close (World (w_pipe w) (upd_side (w_chan w) s cs) (w_heap w))
      (World (w_pipe g) (upd_side (w_chan g) s cs) (w_heap g)) s e ge deleted g1) as (w' & -> & Hw'); [|done|done|].
    { constructor; cbn; try done. intros s'. unfold upd_side. by rewrite H2. }
    cbn [mbind option_bind]. exists w'. by rewrite (r_events _ _ Hr).
Qed.

Lemma sim_pair_run acts : forall k w g g' log, (k + length acts <= fuel)%nat -> winv k g -> schedule_safe fuel g acts -> wrel w g ->
  pair_run fuel g acts = Some (g', log) -> exists w', pair_run fuel w acts = Some (w', log) /\ wrel w' g'.
Proof.
  induction acts as [|a acts IH]; intros k w g g' log Hf Hg Hs Hw Hrun; cbn [pair_run length] in *.
  { injection Hrun as <- <-. by exists w. }
  destruct Hs as [Hs1 Hs2]. destruct (pair_step_ok fuel k g a) as (g1 & o & evs & E & Hg1); [lia|done|done|].
  destruct (sim_pair_step k w g a g1 o evs Hg Hw E) as (w1 & -> & Hw1). rewrite E in *. cbn [mbind option_bind] in *.
  destruct (pair_run fuel g1 acts) as [[g2 log2]|] eqn:E2; [|done]. cbn [mbind option_bind] in Hrun. injection Hrun as <- <-.
  destruct (IH (S k) w1 g1 g2 log2) as (w2 & -> & Hw2); [lia|done|done|done|done|]. by exists w2.
Qed.

Lemma sim_pipepair hwm0 hwm1 (g : world absq) : pipepair hwm0 hwm1 false false = Some g ->
  exists w : world U, pipepair hwm0 hwm1 false false = Some w /\ wrel w g.
Proof.
  unfold pipepair, queue_new. destruct up_new_ok as (u & -> & Hu).
  change (up_new false) with (Some (pq_new (T := frame))). cbn [mbind option_bind]. intros [= <-].
  assert (heap_rel ∅ ∅) as H1 by (intros q; by rewrite !lookup_empty).
  assert (forall q, heap_rel (<[q := u]> ∅) (<[q := pq_new]> ∅)) as H2 by (intros; by apply heap_rel_insert).
  rewrite !(heap_rel_dom _ _ H1). rewrite (heap_rel_dom _ _ (H2 _)). eexists. split; [done|].
  constructor; cbn; try done. by apply heap_rel_insert.
Qed.
End sim.

(** a pair of pipes over any implementation of the queue, the
    lock-free one in particular, behaves as over the abstract queue: for
    any schedule it makes the same calls to the sinks, gives the owners
    the same results and ends with the same endpoints and commands, and
    its queues hold what the abstract ones hold. *)
Theorem pipe_pair_refines {U : Type} `{YpipeLaws U} (hwm0 hwm1 : Z) (acts : list pair_act) (fuel : nat) (g0 g : world (pq (T := frame))) log :
  (length acts <= fuel)%nat ->
  pipepair hwm0 hwm1 false false = Some g0 -> schedule_safe fuel g0 acts -> pair_run fuel g0 acts = Some (g, log) ->
  exists w0 w : world U, pipepair hwm0 hwm1 false false = Some w0 /\ pair_run fuel w0 acts = Some (w, log) /\ wrel w g.
Proof.
  intros Hf Hg0 Hs Hrun. destruct (sim_pipepair (U := U) hwm0 hwm1 g0 Hg0) as (w0 & Hw0 & Hr0).
  destruct (pipepair_ok (U := pq (T := frame)) hwm0 hwm1) as (g0' & E & Hinv). rewrite Hg0 in E. injection E as <-.
  destruct (sim_pair_run fuel acts 0 w0 g0 g log) as (w & Hw & Hr); try done. by exists w0, w.
Qed.

Definition sim_example : list pair_act :=
  [Call false (PWrite (Frame type_vsm flag_more [1])); Call false (PWrite (Frame type_vsm 0 [2]));
   Call false PFlush; Call true PRead; Call true PHiccup; Deliver false; Call true (PTerminate false);
   Deliver false; Call false PRead; Deliver true].

Lemma pipe_pair_refines_witness :
  exists (g0 g : world (pq (T := frame))) log (w0 w : world upipe),
    pipepair 2 1 false false = Some g0 /\ pair_run 10 g0 sim_example = Some (g, log) /\
    pipepair (H := upipe_base least_free) 2 1 false false = Some w0 /\
    pair_run (H := upipe_base least_free) 10 w0 sim_example = Some (w, log).
Proof.
  do 3 eexists. destruct (pipe_pair_refines (U := upipe) (H := upipe_base least_free) 2 1 sim_example 10
    ltac:(let x := eval vm_compute in (pipepair (U := pq (T := frame)) 2 1 false false) in match x with Some ?w => exact w end)
    ltac:(let x := eval vm_compute in (let* w := pipepair (U := pq (T := frame)) 2 1 false false in pair_run 10 w sim_example) in
          match x with Some (?w, _) => exact w end)
    ltac:(let x := eval vm_compute in (let* w := pipepair (U := pq (T := frame)) 2 1 false false in pair_run 10 w sim_example) in
          match x with Some (_, ?l) => exact l end)) as (w0 & w & H1 & H2 & _).
  - simpl. lia.
  - vm_compute. reflexivity.
  - vm_compute. repeat split; done.
  - vm_compute. reflexivity.
  - exists w0, w. split; [vm_compute; reflexivity|]. split; [vm_compute; reflexivity|]. split; [exact H1|exact H2].
Defined.
