(* ===== verification/PipeProps.v ===== *)
(** * What a pair of pipes promises

    Safety of the termination handshake for any schedule, and the
    schedules in which a pipe does not do what it should. *)

From S2P Require Import Prelude Frame Yqueue Ypipe Upipe Pipe PipePair.

(** A call of [send_hwms_to_peer] or [send_stats_to_peer] on an endpoint
    that has acknowledged the end of its peer: neither function looks at
    the state, and the peer may be deleted. *)
Definition sends_after_ack {U} (w : world U) (a : pair_act) : Prop :=
  exists s c p, a = Call s c /\ sends_blindly c = true /\ w_pipe w s = Some p /\
    (pi_state p = term_ack_sent \/ pi_state p = term_req_sent2).

Lemma call_safe_or_not {U} (w : world U) (a : pair_act) : call_safe w a \/ sends_after_ack w a.
Proof.
  destruct a as [s c|s]; [|by left]. destruct (sends_blindly c) eqn:Hb; [|left; simpl; by rewrite Hb].
  destruct (w_pipe w s) as [p|] eqn:Hp; [|left; simpl; intros _ p; by rewrite Hp].
  destruct (decide (pi_state p = term_ack_sent \/ pi_state p = term_req_sent2)) as [Hs|Hs]; [right; by eexists _, _, _|].
  left. simpl. intros _ p'. rewrite Hp. intros [= <-]. unfold may_send, is_open. destruct (pi_state p); tauto.
Qed.

(** A schedule is safe as a whole or up to such a call. *)
Lemma schedule_safe_upto {U} `{YpipeLaws U} fuel acts : forall k w, (k + length acts <= fuel)%nat -> winv k w ->
  schedule_safe fuel w acts \/
  exists acts1 a acts2 w' log, acts = acts1 ++ a :: acts2 /\ schedule_safe fuel w acts1 /\
    pair_run fuel w acts1 = Some (w', log) /\ sends_after_ack w' a.
Proof.
  induction acts as [|a acts IH]; intros k w Hf Hw; cbn [schedule_safe length] in *; [by left|].
  destruct (call_safe_or_not w a) as [Ha|Ha]; [|right; by exists [], a, acts, w, []].
  destruct (pair_step_ok fuel k w a) as (w1 & o & evs & E & Hw1); [lia|done|done|]. rewrite E.
  destruct (IH (S k) w1) as [Hs|(acts1 & a' & acts2 & w' & log & -> & Hs & Hrun & Ha')]; [lia|done|by left|right].
  exists (a :: acts1), a', acts2, w', ((a, o, evs) :: log). cbn [schedule_safe pair_run]. rewrite E. simpl. by rewrite Hrun.
Qed.

(** C1: for any implementation of the queues, any water marks and any
    schedule of calls by the owners of a pair of pipes that do not
    conflate and deliveries of commands (reading, writing, rolling back,
    flushing, hiccups and terminations in both directions included), no
    assertion of [pipe_t] fails, no deleted queue is used and no command
    is sent to a deleted endpoint; a deleted endpoint has no command left
    on its way to it, and when both are deleted no queue is left.  All
    this holds up to the end of the schedule, with a single exception:
    the first call of [send_hwms_to_peer] or [send_stats_to_peer] on an
    endpoint that has acknowledged the end of its peer
    ([pipe_hwms_after_ack] shows that such a call can fail). *)
Theorem pipe_pair_safe {U : Type} `{YpipeLaws U} (hwm0 hwm1 : Z) (acts : list pair_act) (fuel : nat) :
  (length acts <= fuel)%nat ->
  exists (w0 w : world U) acts1 acts2 log,
    pipepair hwm0 hwm1 false false = Some w0 /\
    acts = acts1 ++ acts2 /\ pair_run fuel w0 acts1 = Some (w, log) /\
    (acts2 = [] \/ exists a acts3, acts2 = a :: acts3 /\ sends_after_ack w a) /\
    (forall s, w_pipe w s = None -> w_chan w s = []) /\
    (w_pipe w false = None -> w_pipe w true = None -> w_heap w = ∅).
Proof.
  intros Hf. destruct (pipepair_ok (U := U) hwm0 hwm1) as (w0 & E & Hw0).
  assert (exists acts1 acts2 w log, acts = acts1 ++ acts2 /\ pair_run fuel w0 acts1 = Some (w, log) /\
    winv (length acts1) w /\ (acts2 = [] \/ exists a acts3, acts2 = a :: acts3 /\ sends_after_ack w a))
    as (acts1 & acts2 & w & log & -> & Hrun & Hw & Hend).
  { destruct (schedule_safe_upto fuel acts 0 w0) as [Hs|(acts1 & a & acts2 & w & log & -> & Hs & Hrun & Ha)]; [done|done|..].
    - destruct (pair_run_ok fuel acts 0 w0) as (w & log & Hrun & Hw); [done..|]. exists acts, [], w, log.
      rewrite app_nil_r. split_and!; [done..|by left].
    - rewrite length_app in Hf. destruct (pair_run_ok fuel acts1 0 w0) as (w2 & log2 & Hrun2 & Hw); [lia|done..|].
      rewrite Hrun in Hrun2. injection Hrun2 as <- <-. exists acts1, (a :: acts2), w, log. split_and!; [done..|]. right. by eexists _, _. }
  exists w0, w, acts1, acts2, log. split_and!; try done.
  - intros s Hn. apply winv_side with (s := s) in Hw. by apply (h_gone _ _ _ (i_a _ _ _ _ _ _ Hw)).
  - intros H1 H2. apply map_empty. intros q. apply eq_None_not_Some. intros Hq.
    apply (i_dom _ _ _ _ _ _ Hw) in Hq. rewrite H1, H2 in Hq. by apply not_elem_of_nil in Hq.
Qed.

(** Both ends terminate while messages are on their way. *)
Definition example_acts : list pair_act :=
  [Call false (PWrite (Frame type_vsm flag_more [1])); Call false (PWrite (Frame type_vsm 0 [2]));
   Call false PFlush; Call true PRead; Call true PHiccup; Call false (PWrite (Frame type_vsm flag_more [3]));
   Call true (PSendHwms 3 3); Call false (PTerminate true); Deliver false; Deliver true; Call true (PTerminate false);
   Deliver false; Deliver true; Deliver false; Deliver true; Deliver false; Deliver true; Deliver false].

Lemma example_sends n s c : example_acts !! n = Some (Call s c) -> sends_blindly c = true -> n = 6%nat /\ s = true /\ c = PSendHwms 3 3.
Proof. intros Hl Hb. do 18 (destruct n as [|n]; [simpl in Hl; by simplify_eq|]). done. Qed.

(** No endpoint sends its water marks after its acknowledgement here, so
    that the whole schedule is run. *)
Lemma pipe_pair_safe_witness :
  exists (w0 w : world (upipe)) log,
    pipepair (H := upipe_base least_free) 2 1 false false = Some w0 /\
    pair_run (H := upipe_base least_free) 18 w0 example_acts = Some (w, log) /\
    w_pipe w false = None /\ w_pipe w true = None /\ w_heap w = ∅.
Proof.
  destruct (pipe_pair_safe (U := upipe) (H := upipe_base least_free) 2 1 example_acts 18)
    as (w0 & w & acts1 & acts2 & log & E & Ha & Hrun & Hend & _ & Hheap); [simpl; lia|].
  vm_compute in E. injection E as <-.
  assert (acts2 = []) as ->.
  { destruct Hend as [|(a & acts3 & -> & s & c & p & -> & Hb & Hp & Hst)]; [done|exfalso].
    assert (example_acts !! length acts1 = Some (Call s c)) as Hl by (rewrite Ha; by apply list_lookup_middle).
    assert (acts1 = take (length acts1) example_acts) as Hi by (by rewrite Ha, take_app_length).
    apply example_sends in Hl as (Hl & -> & _); [|done]. rewrite Hl in Hi. rewrite Hi in Hrun.
    vm_compute in Hrun. injection Hrun as <- <-. vm_compute in Hp. injection Hp as <-. by destruct Hst. }
  rewrite app_nil_r in Ha. subst acts1. eexists _, w, log. split; [reflexivity|]. split; [exact Hrun|].
  vm_compute in Hrun. injection Hrun as <- <-. split_and!; [reflexivity..|]. by apply Hheap.
Defined.

(** ** Schedules a pipe does not survive *)

Abbreviation qworld := (world (pq (T := frame))).

(** [zmq_setsockopt] of a water mark calls [send_hwms_to_peer] on every
    pipe of the socket, whatever its state. *)
Definition ack_then_hwms : list pair_act :=
  [Call false (PTerminate true); Deliver true; Call true PRead; Deliver false].

(** after one endpoint was deleted, and before the other one got the
    acknowledgement, the other one is in [term_ack_sent] and still
    belongs to its socket; [send_hwms_to_peer] and [send_stats_to_peer]
    do not look at the state and then send a command to the deleted
    endpoint. *)
Theorem pipe_hwms_after_ack :
  exists (w0 w : qworld) log p,
    pipepair 1000 1000 false false = Some w0 /\ pair_run 10 w0 ack_then_hwms = Some (w, log) /\
    w_pipe w false = None /\ w_pipe w true = Some p /\ pi_state p = term_ack_sent /\
    pair_step 10 w (Call true (PSendHwms 1 1)) = None /\
    pair_step 10 w (Call true (PSendStats 0)) = None.
Proof. do 4 eexists. split; [reflexivity|]. split; [vm_compute; reflexivity|]. vm_compute. done. Qed.

(** Calls and deliveries that wait for something to happen; writes are
    those of side [false]. *)
Definition is_poll (a : pair_act) : Prop :=
  match a with
  | Call _ PCheckRead | Call _ PRead | Call false PCheckWrite | Call false (PWrite _) | Call _ PFlush
  | Deliver _ => True
  | _ => False
  end.

(** A world in which polling changes nothing: nothing is on its way and
    nobody can read or write. *)
Record stuck (w : qworld) : Prop := {
  sk_chan s : w_chan w s = [];
  sk_pipe s : exists p, w_pipe w s = Some p /\
    (pi_in_active p = false \/ (pi_state p <> active /\ pi_state p <> waiting_for_delimiter)) /\
    (s = false -> pi_out_active p = false \/ pi_state p <> active) /\
    forall q, pi_out_pipe p = Some q -> exists u, w_heap w !! q = Some u /\ pq_done u = [];
}.

Definition same_world (w w' : qworld) : Prop :=
  (forall s, w_pipe w' s = w_pipe w s) /\ (forall s, w_chan w' s = w_chan w s) /\ w_heap w' = w_heap w.

Lemma stuck_close w s p : w_pipe w s = Some p ->
  exists w', pair_close w s (Penv p (w_heap w) [] []) false = Some w' /\ same_world w w'.
Proof.
  intros Hp. eexists. split; [done|]. split_and!; try done; intros s'; simpl; unfold upd_side.
  - destruct (Bool.eqb_spec s' s); by subst.
  - destruct (Bool.eqb_spec s' (negb s)); [|done]. subst. by rewrite app_nil_r.
Qed.

Lemma stuck_call fuel w s p a : stuck w -> w_pipe w s = Some p -> is_poll (Call s a) ->
  exists o, pipe_call fuel (Penv p (w_heap w) [] []) a = Some (Penv p (w_heap w) [] [], o).
Proof.
  intros [_ Hp] Ep Ha. destruct (Hp s) as (p' & Ep' & Hin & Hout & Hq). rewrite Ep in Ep'. injection Ep' as <-.
  assert (negb (pi_in_active p) = true \/ may_read (Penv (U := pq (T := frame)) p (w_heap w) [] []) = false) as Hr.
  { destruct Hin as [->|[H1 H2]]; [by left|right]. unfold may_read, st. simpl. by rewrite !bool_decide_eq_false_2. }
  assert (s = false -> negb (pi_out_active p) || negb (bool_decide (pi_state p = active)) = true) as Hw.
  { intros Hs. destruct (Hout Hs) as [-> |Hs']; [done|]. rewrite (bool_decide_eq_false_2 _ Hs'). apply orb_true_r. }
  destruct a; try (by destruct s); cbn [pipe_call].
  - unfold pipe_check_read. destruct Hr as [Hr|Hr]; cbn [e_self]; [rewrite Hr; eexists; reflexivity|]. rewrite Hr.
    destruct (negb (pi_in_active p)); eexists; reflexivity.
  - unfold pipe_read. destruct Hr as [Hr|Hr]; cbn [e_self]; [rewrite Hr; eexists; reflexivity|]. rewrite Hr.
    destruct (negb (pi_in_active p)); eexists; reflexivity.
  - unfold pipe_check_write, st. cbn [e_self]. rewrite Hw by (by destruct s). eexists; reflexivity.
  - unfold pipe_write, pipe_check_write, st. cbn [e_self]. rewrite Hw by (by destruct s). eexists; reflexivity.
  - unfold pipe_flush, st. cbn [e_self]. destruct (bool_decide (pi_state p = term_ack_sent)); [eexists; reflexivity|].
    destruct (pi_out_pipe p) as [q|] eqn:Eq; [|eexists; reflexivity]. destruct (Hq q eq_refl) as (u & Hu & Hd).
    unfold on_out, on_queue. cbn [e_self e_heap]. rewrite Eq. cbn [mbind option_bind]. rewrite Hu. cbn [mbind option_bind].
    unfold up_flush. cbn [pq_base]. unfold pq_flush_. rewrite Hd. cbn [mbind option_bind negb].
    unfold set_heap. cbn. rewrite insert_id by done. eexists; reflexivity.
Qed.

Lemma stuck_step fuel w a : stuck w -> is_poll a ->
  exists w' o evs, pair_step fuel w a = Some (w', o, evs) /\ same_world w w'.
Proof.
  intros Hst Ha. destruct a as [s a|s]; cbn [pair_step].
  - destruct (sk_pipe _ Hst s) as (p & Ep & _). rewrite Ep.
    destruct (stuck_call fuel w s p a Hst Ep Ha) as [o ->]. cbn [mbind option_bind].
    destruct (stuck_close w s p Ep) as (w' & -> & Hw'). by eexists _, _, _.
  - rewrite (sk_chan _ Hst). by eexists _, _, _.
Qed.

Lemma stuck_same w w' : same_world w w' -> stuck w -> stuck w'.
Proof. intros (H1 & H2 & H3) [Hc Hp]. constructor; intros s; rewrite ?H1, ?H2, ?H3; [apply Hc|apply Hp]. Qed.

Lemma stuck_forever fuel acts : forall w, stuck w -> Forall is_poll acts ->
  exists w' log, pair_run fuel w acts = Some (w', log) /\ same_world w w'.
Proof.
  induction acts as [|a acts IH]; intros w Hst Ha; cbn [pair_run]; [by eexists _, _|].
  apply Forall_cons_1 in Ha as [Ha Has]. destruct (stuck_step fuel w a Hst Ha) as (w1 & o & evs & -> & Hw1).
  cbn [mbind option_bind]. destruct (IH w1 (stuck_same _ _ Hw1 Hst) Has) as (w2 & log & -> & Hw2).
  cbn [mbind option_bind]. eexists _, _. split; [done|].
  destruct Hw1 as (A1 & A2 & A3), Hw2 as (B1 & B2 & B3). split_and!; [intros s; by rewrite B1|intros s; by rewrite B2|congruence].
Qed.

(** The reader replaces its queue while the writer terminates. *)
Definition hiccup_races_terminate : list pair_act :=
  [Call false PHiccup; Call true (PTerminate true); Deliver true; Deliver false; Call false PRead].

(** a hiccup that crosses a termination loses the delimiter: the
    writer put it into the queue the reader has left, and drops it with
    that queue when the hiccup arrives.  The reader then waits for the
    delimiter in the new queue, in which there is none, and the writer
    waits for the acknowledgement; no polling of either side changes
    anything. *)
Theorem pipe_hiccup_loses_delimiter :
  exists (w0 w : qworld) log,
    pipepair 1000 1000 false false = Some w0 /\ pair_run 10 w0 hiccup_races_terminate = Some (w, log) /\
    (forall acts, Forall is_poll acts ->
      exists w' log', pair_run 10 w acts = Some (w', log') /\
        p_state (w_pipe w' false) = Some waiting_for_delimiter /\
        p_state (w_pipe w' true) = Some term_req_sent1 /\ forall s, w_chan w' s = []).
Proof.
  do 3 eexists. split; [reflexivity|]. split; [vm_compute; reflexivity|]. intros acts Ha.
  match goal with |- context [pair_run _ ?w _] => assert (stuck w) as Hst end.
  { constructor; [by intros [|]|]. intros [|]; eexists; (split; [reflexivity|]); cbn;
      (split; [by (left + right)|]); (split; [(by intros) || by (intros _; (left + right))|]); intros q [= <-]; eexists; by split. }
  destruct (stuck_forever 10 acts _ Hst Ha) as (w' & log' & -> & H1 & H2 & H3).
  eexists _, _. split; [done|]. rewrite !H1. split_and!; [reflexivity..|]. intros [|]; rewrite H2; reflexivity.
Qed.

(** The engine pushes the user id of a peer as a frame with the
    [credential] flag ([write_credential], src/src/stream_engine_base.cpp). *)
Definition credential_frame : frame := Frame type_vsm flag_credential [97].

Definition credential_acts : list pair_act :=
  [Call false (PWrite credential_frame); Call false PFlush; Call true PRead; Deliver true; Call true PRead;
   Call false (PWrite (Frame type_vsm 0 [1])); Call false PRead].

(** a credential counts as a message when it is written and is not
    counted when it is read, so that it uses up a place below the high
    water mark for ever: with a high water mark of 1 the writer cannot
    write again, although the queue is empty, and no polling of either
    side changes that. *)
Theorem pipe_credential_blocks :
  exists (w0 w : qworld) log,
    pipepair 1 1 false false = Some w0 /\ pair_run 10 w0 credential_acts = Some (w, log) /\
    (forall acts, Forall is_poll acts ->
      exists w' log', pair_run 10 w acts = Some (w', log') /\
        exists p q u, w_pipe w' false = Some p /\ pi_out_pipe p = Some q /\ w_heap w' !! q = Some u /\
          pq_items u = [] /\ pq_done u = [] /\ check_hwm p = false).
Proof.
  do 3 eexists. split; [reflexivity|]. split; [vm_compute; reflexivity|]. intros acts Ha.
  match goal with |- context [pair_run _ ?w _] => assert (stuck w) as Hst end.
  { constructor; [by intros [|]|]. intros [|]; eexists; (split; [reflexivity|]); cbn;
      (split; [by (left + right)|]); (split; [(by intros) || by (intros _; (left + right))|]); intros q [= <-]; eexists; by split. }
  destruct (stuck_forever 10 acts _ Hst Ha) as (w' & log' & -> & H1 & H2 & H3).
  eexists _, _. split; [done|]. rewrite H1, H3. do 3 eexists. split; [reflexivity|]. split; [reflexivity|].
  split; [reflexivity|]. done.
Qed.

(** The reader has a part of a message when the writer terminates the
    pipe, and then terminates it itself without delay. *)
Definition half_read_acts : list pair_act :=
  [Call false (PWrite (Frame type_vsm flag_more [1])); Call false (PWrite (Frame type_vsm 0 [2])); Call false PFlush; Call true PRead;
   Call false (PTerminate false); Deliver true; Call true (PTerminate false); Call true PRead].

(** The rest of the message can no longer be read, although it is in the
    queue and the pipe has not ended. *)
Theorem pipe_half_read_lost : exists (w0 w : qworld) log,
  pipepair 0 0 false false = Some w0 /\ pair_run 10 w0 half_read_acts = Some (w, log) /\
  (fun x => x.1.2) <$> list.last log = Some (OMsg None) /\ is_Some (w_pipe w true).
Proof. do 3 eexists. split; [reflexivity|]. split; [vm_compute; reflexivity|]. split; [reflexivity|by eexists]. Qed.
