(* ===== verification/PipeFlow.v ===== *)
(** * Flow of messages through a pair of pipes

    What the owners see: messages arrive in the order in which they were
    written, none is lost or duplicated, a message that is rolled back is
    not seen, there are never more messages in a pipe than its high water
    mark, and a writer that was stopped can write again once the reader
    has read everything.  The schedules are those without hiccups (which
    drop messages), changes of the water marks, and credentials (which
    are not given back, see PipeProps.v). *)

From Stdlib Require Import Bool.
From S2P Require Import Prelude Frame Yqueue Ypipe Upipe Pipe PipePair PipeSim.

(** ** Counting messages *)

Definition counted (f : frame) : bool := negb (fr_more f) && negb (fr_is_routing_id f).

Fixpoint cnt (l : list frame) : Z :=
  match l with [] => 0 | f :: l' => (if counted f then 1 else 0) + cnt l' end.

Lemma cnt_app l l' : cnt (l ++ l') = cnt l + cnt l'.
Proof. induction l as [|f l IH]; simpl; [done|]. rewrite IH. lia. Qed.

Lemma cnt_nonneg l : 0 <= cnt l.
Proof. induction l as [|f l IH]; simpl; [done|]. destruct (counted f); lia. Qed.

Lemma cnt_more l : Forall (fun f => fr_more f = true) l -> cnt l = 0.
Proof. induction 1 as [|f l Hf _ IH]; simpl; [done|]. unfold counted. by rewrite Hf, IH. Qed.

(** The frames a reader sees. *)
Definition visible (l : list frame) : list frame := List.filter (fun f => negb (fr_is_delimiter f)) l.

Lemma visible_app l l' : visible (l ++ l') = visible l ++ visible l'.
Proof. apply List.filter_app. Qed.

Lemma visible_all l : Forall (fun f => fr_is_delimiter f = false) l -> visible l = l.
Proof. induction 1 as [|f l Hf _ IH]; simpl; [done|]. by rewrite Hf, IH. Qed.

(** ** What the calls say was written and read *)

(** Complete messages written by a side, and the parts of an incomplete
    one. *)
Definition wrote (s : bool) (st : list frame * list frame) (l : pair_act * pipe_obs * list pipe_event)
  : list frame * list frame :=
  let '(c, p) := st in
  match l.1 with
  | (Call s' (PWrite f), OBool true) =>
      if eqb s' s then if fr_more f then (c, p ++ [f]) else (c ++ p ++ [f], []) else st
  | (Call s' PRollback, _) | (Call s' (PTerminate _), _) => if eqb s' s then (c, []) else st
  | _ => st
  end.

Definition got (s : bool) (r : list frame) (l : pair_act * pipe_obs * list pipe_event) : list frame :=
  match l.1 with
  | (Call s' PRead, OMsg (Some f)) => if eqb s' s then r ++ [f] else r
  | _ => r
  end.

(** The schedules. *)
Definition flow_act (a : pair_act) : Prop :=
  match a with
  | Call _ (PWrite f) => fr_is_delimiter f = false /\ fr_is_credential f = false
  | Call _ PHiccup | Call _ (PSetHwms _ _) | Call _ (PSetBoost _ _) | Call _ (PSendHwms _ _) | Call _ (PSendStats _) => False
  | _ => True
  end.

(** ** Credit: what the reader has told the writer

    The numbers on their way grow up to the last multiple of the low
    water mark the reader has reached. *)

Definition aws (l : list pipe_cmd) : list Z :=
  omap (fun c => match c with activate_write n => Some n | _ => None end) l.

(** The commands sent in these schedules. *)
Definition flow_cmd (c : pipe_cmd) : Prop := match c with hiccup _ | pipe_hwm _ _ => False | _ => True end.

(** What may be sent without a count. *)
Definition sent_quietly (l l' : list pipe_cmd) : Prop :=
  l' = l \/ exists c, l' = l ++ [c] /\ aws [c] = [] /\ flow_cmd c.

Lemma aws_app l l' : aws (l ++ l') = aws l ++ aws l'.
Proof. apply omap_app. Qed.

Fixpoint credit (lwm r prev : Z) (l : list Z) : Prop :=
  match l with [] => prev = lwm * (r / lwm) | n :: l' => prev <= n /\ credit lwm r n l' end.

Lemma credit_le lwm r l : forall prev, 0 < lwm -> 0 <= r -> credit lwm r prev l -> prev <= r.
Proof.
  induction l as [|n l IH]; simpl; intros prev Hl Hr.
  - intros ->. apply Z.mul_div_le. lia.
  - intros [Hn Hc]. specialize (IH n Hl Hr Hc). lia.
Qed.

Lemma credit_snoc lwm r l n : forall prev, 0 < lwm -> n = lwm * (r / lwm) ->
  (exists r0, 0 <= r0 <= r /\ credit lwm r0 prev l) -> credit lwm r prev (l ++ [n]).
Proof.
  induction l as [|m l IH]; simpl; intros prev Hl Hn (r0 & Hr0 & Hc).
  - split; [|done]. subst. apply Z.mul_le_mono_nonneg_l; [lia|]. apply Z.div_le_mono; lia.
  - destruct Hc as [? Hc]. split; [done|]. apply IH; try done. by exists r0.
Qed.

(** The reader's count goes from [r] to [r'], and is sent when it is a
    multiple of the low water mark. *)
Lemma credit_read lwm r r' prev l : 0 < lwm -> 0 <= r -> r' = r \/ r' = r + 1 -> credit lwm r prev l ->
  credit lwm r' prev (if r' mod lwm =? 0 then l ++ [r'] else l).
Proof.
  intros Hl Hr Hr' Hc. destruct (r' mod lwm =? 0) eqn:E; bool_prop.
  - apply credit_snoc; try done; [rewrite (Z.div_mod r' lwm) at 1; lia|]. exists r. split; [lia|done].
  - assert (r' / lwm = r / lwm) as Hd.
    { destruct Hr' as [-> | ->]; [done|]. symmetry. apply (Z.div_unique_pos _ _ _ (r mod lwm + 1)).
      - pose proof (Z.mod_pos_bound r lwm Hl). split; [lia|].
        destruct (decide (r mod lwm + 1 = lwm)) as [Em|]; [|lia]. destruct E.
        pose proof (Z.div_mod r lwm ltac:(lia)). replace (r + 1) with ((r / lwm + 1) * lwm) by lia.
        apply Z.mod_mul. lia.
      - rewrite (Z.div_mod r lwm) at 1 by lia. lia. }
    revert prev Hc. induction l as [|n l IH]; simpl; intros prev; [by rewrite Hd|].
    intros [? ?]. split; [done|]. by apply IH.
Qed.

(** ** One direction *)

Abbreviation queue := (pq (T := frame)).

(** Writer [p], reader [y], their queue, the commands on their way to the
    writer, what was written ([C], and [P] of an incomplete message) and
    what was read.  [hw] and [lw] are the water marks. *)
Record dir (hw lw k : Z) (p y : option pipe) (q : option queue) (to_p : list pipe_cmd) (C P R : list frame) : Prop := {
  d_marks : (0 < hw <-> 0 < lw) /\ lw <= Z.max hw 0 < 2147483648;
  d_data s : q = Some s -> R ++ visible (pq_items s ++ pq_done s) = C;
  d_cred s : q = Some s -> Forall (fun f => fr_is_credential f = false) (pq_items s ++ pq_done s ++ pq_part s);
  d_part x s : p = Some x -> pi_state x = active -> q = Some s -> pq_part s = P;
  d_more : Forall (fun f => fr_more f = true) P;
  d_plain : Forall (fun f => fr_is_delimiter f = false) P;
  d_written x : p = Some x -> pi_msgs_written x = cnt C;
  d_read x : y = Some x -> pi_msgs_read x = cnt R;
  d_le : cnt R <= cnt C;
  d_k : cnt C <= k;
  d_w x : p = Some x -> pi_hwm x = hw;
  d_l x : y = Some x -> pi_lwm x = lw;
  d_hwm x : p = Some x -> 0 < hw -> 0 <= cnt C - pi_peers_msgs_read x <= hw;
  d_credit x : p = Some x -> 0 < hw -> credit lw (cnt R) (pi_peers_msgs_read x) (aws to_p);
}.

Lemma dir_writer hw lw k x x' y q to C P R : dir hw lw k (Some x) y q to C P R ->
  pi_msgs_written x' = pi_msgs_written x -> pi_hwm x' = pi_hwm x -> pi_peers_msgs_read x' = pi_peers_msgs_read x ->
  (pi_state x' = active -> pi_state x = active) -> dir hw lw k (Some x') y q to C P R.
Proof.
  intros [] Hm Hh Hp Hs. constructor; try done.
  - intros ? s [= <-] ?. apply (d_part0 x); [done|by apply Hs].
  - intros ? [= <-]. rewrite Hm. by apply d_written0.
  - intros ? [= <-]. rewrite Hh. by apply d_w0.
  - intros ? [= <-]. rewrite Hp. by apply d_hwm0.
  - intros ? [= <-]. rewrite Hp. by apply d_credit0.
Qed.

Lemma dir_reader hw lw k p x x' q to to' C P R : dir hw lw k p (Some x) q to C P R ->
  pi_msgs_read x' = pi_msgs_read x -> pi_lwm x' = pi_lwm x -> aws to' = aws to ->
  dir hw lw k p (Some x') q to' C P R.
Proof.
  intros [] Hm Hl Ha. constructor; rewrite ?Ha; try done.
  - intros ? [= <-]. rewrite Hm. by apply d_read0.
  - intros ? [= <-]. rewrite Hl. by apply d_l0.
Qed.

Lemma dir_mono hw lw k k' p y q to C P R : k <= k' -> dir hw lw k p y q to C P R -> dir hw lw k' p y q to C P R.
Proof. intros Hk []. constructor; try done. lia. Qed.

(** An endpoint that is gone promises nothing. *)
Lemma dir_no_writer hw lw k p y q to C P R : dir hw lw k p y q to C P R -> dir hw lw k None y q [] C P R.
Proof. intros []. by constructor. Qed.

Lemma dir_no_reader hw lw k p y q to to' C P R : dir hw lw k p y q to C P R -> aws to' = aws to ->
  dir hw lw k p None None to' C P R.
Proof. intros [] Ha. constructor; rewrite ?Ha; try done. Qed.

Lemma on_queue_inv {A} (e : penv queue) q m e' (a : A) : on_queue e q m = Some (e', a) ->
  exists u u', e_heap e !! q = Some u /\ m u = Some (u', a) /\ e' = set_heap e (<[q := u']> (e_heap e)).
Proof.
  unfold on_queue. destruct (e_heap e !! q) as [u|]; [|done]. cbn [mbind option_bind].
  destruct (m u) as [[u' a']|] eqn:E; [|done]. cbn [mbind option_bind]. intros [= <- <-]. by exists u, u'.
Qed.

(** The side conditions of [flow_quiet]. *)
Ltac flow_side := first [done | by left | right; done | right; eexists; done].

Section flow.
Context (fuel : nat) (qa qb : Z) (Hab : qa <> qb) (hwa lwa hwb lwb : Z) (pb : option pipe) (ta tb : list pipe_cmd).
Context (Cb Pb Ra : list frame).

(** Everything the endpoint of [e] takes part in: it writes to [qa], whose
    reader got [Ra], and reads [Rb] from [qb]. *)
Record flow (k : Z) (e : penv queue) (C P Rb : list frame) : Prop := {
  f_w : dir hwa lwa k (Some (e_self e)) pb (e_heap e !! qa) ta C P Ra;
  f_r : dir hwb lwb k pb (Some (e_self e)) (e_heap e !! qb) (tb ++ e_sent e) Cb Pb Rb;
  f_in : pi_in_pipe (e_self e) = qb;
  f_out q : pi_out_pipe (e_self e) = Some q -> q = qa;
  f_none : pi_out_pipe (e_self e) = None -> pi_state (e_self e) <> active;
  f_sent : Forall flow_cmd (e_sent e);
}.

(** The endpoint changes and sends, no counter or queue does. *)
Lemma flow_quiet k e e' C P Rb : flow k e C P Rb ->
  pi_msgs_written (e_self e') = pi_msgs_written (e_self e) -> pi_hwm (e_self e') = pi_hwm (e_self e) ->
  pi_peers_msgs_read (e_self e') = pi_peers_msgs_read (e_self e) ->
  pi_msgs_read (e_self e') = pi_msgs_read (e_self e) -> pi_lwm (e_self e') = pi_lwm (e_self e) ->
  (pi_state (e_self e') = active -> pi_state (e_self e) = active) ->
  pi_in_pipe (e_self e') = pi_in_pipe (e_self e) ->
  (pi_out_pipe (e_self e') = pi_out_pipe (e_self e) \/
   (pi_out_pipe (e_self e') = None /\ pi_state (e_self e') <> active)) ->
  sent_quietly (e_sent e) (e_sent e') -> e_heap e' = e_heap e -> flow k e' C P Rb.
Proof.
  intros [Hw Hr Hi Ho Hn Hfc] H1 H2 H3 H4 H5 H6 H7 H8 H9 H10. constructor; rewrite ?H10.
  - by apply (dir_writer _ _ _ (e_self e)).
  - apply (dir_reader _ _ _ _ (e_self e) _ _ (tb ++ e_sent e)); try done.
    destruct H9 as [-> |(c & -> & Hc & _)]; [done|]. by rewrite !aws_app, Hc, app_nil_r.
  - by rewrite H7.
  - intros q Hq. destruct H8 as [E|[E _]]; rewrite E in Hq; [by apply Ho|done].
  - destruct H8 as [-> |[_ ?]]; [|done]. intros En Hs. by apply Hn, H6.
  - destruct H9 as [-> |(c & -> & _ & Hc)]; [done|]. apply Forall_app. split; [done|]. by constructor.
Qed.

(** The outbound queue changes in a way the reader does not see. *)
Lemma flow_out k e s s' C P Rb : flow k e C P Rb -> e_heap e !! qa = Some s ->
  visible (pq_items s' ++ pq_done s') = visible (pq_items s ++ pq_done s) ->
  Forall (fun f => fr_is_credential f = false) (pq_items s' ++ pq_done s' ++ pq_part s') ->
  (pi_state (e_self e) = active -> pq_part s' = P) ->
  flow k (set_heap e (<[qa := s']> (e_heap e))) C P Rb.
Proof.
  intros [Hw Hr Hi Ho Hn Hfc] Hs Hv Hc Hp. constructor; try done; cbn.
  - rewrite lookup_insert_eq. rewrite Hs in Hw. destruct Hw. constructor; try done.
    + intros ? [= <-]. rewrite Hv. by apply d_data0.
    + by intros ? [= <-].
    + intros ? ? [= <-] ? [= <-]. by apply Hp.
  - by rewrite lookup_insert_ne.
Qed.

(** The inbound queue changes in a way the reader does not see. *)
Lemma flow_in k e s s' C P Rb : flow k e C P Rb -> e_heap e !! qb = Some s ->
  visible (pq_items s' ++ pq_done s') = visible (pq_items s ++ pq_done s) ->
  pq_part s' = pq_part s ->
  Forall (fun f => fr_is_credential f = false) (pq_items s' ++ pq_done s') ->
  flow k (set_heap e (<[qb := s']> (e_heap e))) C P Rb.
Proof.
  intros [Hw Hr Hi Ho Hn Hfc] Hs Hv Hp Hc. constructor; try done; cbn.
  - by rewrite lookup_insert_ne.
  - rewrite lookup_insert_eq. rewrite Hs in Hr. destruct Hr. constructor; try done.
    + intros ? [= <-]. rewrite Hv. by apply d_data0.
    + intros ? [= <-]. specialize (d_cred0 s eq_refl). rewrite !Forall_app in *. rewrite Hp. tauto.
    + intros ? ? ? ? [= <-]. rewrite Hp. eauto.
Qed.

Lemma process_delimiter_flow k e e' C P Rb : process_delimiter e = Some e' -> flow k e C P Rb -> flow k e' C P Rb.
Proof.
  unfold process_delimiter. case_test; [|done]. case_test; intros [= <-] Hf; apply (flow_quiet k e); flow_side.
Qed.

(** *** Reading *)

Lemma pipe_check_read_flow k e e' b C P Rb : pipe_check_read e = Some (e', b) -> flow k e C P Rb -> flow k e' C P Rb.
Proof.
  unfold pipe_check_read. case_test; [by intros [= <- <-]|]. case_test; [by intros [= <- <-]|].
  unfold on_in. intros H Hf. pose proof (f_in _ _ _ _ _ Hf) as Hin. rewrite Hin in H.
  destruct (on_queue e qb up_check_read) as [[e1 b1]|] eqn:E1; [|done]. cbn [mbind option_bind] in H.
  apply on_queue_inv in E1 as (s & s1 & Hs & E1 & ->). injection E1 as E1.
  pose proof (d_cred _ _ _ _ _ _ _ _ _ _ (f_r _ _ _ _ _ Hf) s Hs) as Hc. rewrite app_assoc, Forall_app in Hc.
  destruct Hc as [Hc _]. unfold pq_check_read in E1.
  destruct (pq_items s) as [|f l] eqn:Ei; injection E1 as <- <-; cbn [negb] in H.
  { injection H as <- <-. apply (flow_quiet k (set_heap e (<[qb := Pq [] (pq_done s) (pq_part s) true]> (e_heap e)))); try flow_side.
    apply (flow_in k e s); try done. by rewrite Ei. }
  set (e1 := set_heap e _) in H. assert (flow k e1 C P Rb) as Hf1 by (apply (flow_in k e s); by rewrite ?Ei).
  assert (e_heap e1 !! qb = Some s) as Hs1 by apply lookup_insert_eq.
  change (e_self e1) with (e_self e) in H. rewrite Hin in H.
  destruct (on_queue e1 qb _) as [[e2 b2]|] eqn:E2; [|done]. cbn [mbind option_bind] in H.
  apply on_queue_inv in E2 as (s0 & s2 & Hs0 & E2 & ->). rewrite Hs1 in Hs0. injection Hs0 as <-.
  simpl in E2. rewrite Ei in E2. injection E2 as <- <-.
  set (e2 := set_heap e1 _) in H. assert (flow k e2 C P Rb) as Hf2 by (apply (flow_in k e1 s); by rewrite ?Ei).
  assert (e_heap e2 !! qb = Some s) as Hs2 by apply lookup_insert_eq.
  destruct (fr_is_delimiter f) eqn:Ed; [|by injection H as <- <-].
  change (e_self e2) with (e_self e) in H. rewrite Hin in H.
  destruct (on_queue e2 qb up_read) as [[e3 m]|] eqn:E3; [|done]. cbn [mbind option_bind] in H.
  apply on_queue_inv in E3 as (s0 & s3 & Hs0 & E3 & ->). rewrite Hs2 in Hs0. injection Hs0 as <-.
  simpl in E3. unfold pq_read in E3. rewrite Ei in E3. injection E3 as <- <-.
  destruct (bool_decide _); [|done]. set (e3 := set_heap e2 _) in H.
  destruct (process_delimiter e3) as [e4|] eqn:E4; [|done]. cbn [mbind option_bind] in H. injection H as <- <-.
  apply (process_delimiter_flow k _ _ _ _ _ E4). apply (flow_in k e2 s); try done; simpl; rewrite ?Ei.
  - simpl. by rewrite Ed.
  - by apply Forall_cons_1 in Hc as [_ ?].
Qed.

Lemma read_loop_flow k n e e' m C P Rb s : read_loop n e = Some (e', m) -> flow k e C P Rb -> e_heap e !! qb = Some s ->
  m = head (pq_items s) /\
  e_self e' = (if m is Some _ then e_self e else set_in_active (e_self e) false) /\ e_sent e' = e_sent e /\
  e_heap e' = <[qb := (pq_read s).1]> (e_heap e).
Proof.
  destruct n as [|n]; [done|]. cbn [read_loop]. intros H Hf Hs. unfold on_in in H. rewrite (f_in _ _ _ _ _ Hf) in H.
  destruct (on_queue e qb up_read) as [[e1 m1]|] eqn:E1; [|done]. cbn [mbind option_bind] in H.
  apply on_queue_inv in E1 as (s0 & s1 & Hs0 & E1 & ->). rewrite Hs in Hs0. injection Hs0 as <-.
  simpl in E1. injection E1 as E1. pose proof (d_cred _ _ _ _ _ _ _ _ _ _ (f_r _ _ _ _ _ Hf) s Hs) as Hc.
  unfold pq_read in *. destruct (pq_items s) as [|f l] eqn:Ei; injection E1 as <- <-; cbn [fst head].
  - by injection H as <- <-.
  - apply Forall_cons_1 in Hc as [Hc _]. rewrite Hc in H. by injection H as <- <-.
Qed.

(** A frame was read. *)
Lemma flow_got k e s f l C P Rb : 0 <= k < 18446744073709551616 -> flow k e C P Rb -> e_heap e !! qb = Some s -> pq_items s = f :: l ->
  fr_is_delimiter f = false ->
  flow k (count_read (set_heap e (<[qb := Pq l (pq_done s) (pq_part s) (pq_asleep s)]> (e_heap e))) f) C P (Rb ++ [f]).
Proof.
  intros Hk [Hw Hr Hi Ho Hno Hfc] Hs Ei Ed. rewrite Hs in Hr.
  assert (visible (pq_items s ++ pq_done s) = f :: visible (l ++ pq_done s)) as Ev by (rewrite Ei; simpl; by rewrite Ed).
  assert (cnt Rb + (if counted f then 1 else 0) <= cnt Cb) as Hle.
  { destruct Hr. rewrite <- (d_data0 s eq_refl), Ev, cnt_app. simpl. pose proof (cnt_nonneg (visible (l ++ pq_done s))). lia. }
  pose proof (cnt_nonneg Rb) as Hn. pose proof (d_k _ _ _ _ _ _ _ _ _ _ Hr) as Hkb.
  pose proof (d_read _ _ _ _ _ _ _ _ _ _ Hr _ eq_refl) as Hmr. pose proof (d_l _ _ _ _ _ _ _ _ _ _ Hr _ eq_refl) as Hl.
  set (r' := cnt Rb + (if counted f then 1 else 0)).
  unfold count_read. fold (counted f).
  set (e0 := set_heap e _). set (e1 := if counted f then _ else e0).
  assert (pi_msgs_read (e_self e1) = r') as Hr1.
  { unfold e1, r'. destruct (counted f); cbn; rewrite Hmr; [rewrite u64_small; [done|unfold is_u64; lia]|lia]. }
  assert (pi_lwm (e_self e1) = lwb /\ e_heap e1 = e_heap e0 /\ e_sent e1 = e_sent e /\
    pi_in_pipe (e_self e1) = pi_in_pipe (e_self e) /\ pi_out_pipe (e_self e1) = pi_out_pipe (e_self e) /\
    pi_state (e_self e1) = pi_state (e_self e) /\ pi_hwm (e_self e1) = pi_hwm (e_self e) /\
    pi_msgs_written (e_self e1) = pi_msgs_written (e_self e) /\
    pi_peers_msgs_read (e_self e1) = pi_peers_msgs_read (e_self e)) as (L1 & L2 & L3 & L4 & L5 & L6 & L7 & L8 & L9).
  { unfold e1. destruct (counted f); done. }
  rewrite L1, Hr1. set (e2 := if (0 <? lwb) && (r' mod lwb =? 0) then _ else e1).
  assert (e_self e2 = e_self e1 /\ e_heap e2 = e_heap e0) as [M1 M2] by (unfold e2; case_test; done).
  constructor; rewrite ?M1, ?M2.
  - cbn. rewrite lookup_insert_ne by done. apply (dir_writer _ _ _ (e_self e)); try done. by rewrite L6.
  - cbn. rewrite lookup_insert_eq. destruct Hr. constructor; try done.
    + intros ? [= <-]. rewrite <- (d_data0 s eq_refl), Ev. simpl. by rewrite <- app_assoc.
    + intros ? [= <-]. specialize (d_cred0 s eq_refl). rewrite Ei in d_cred0. by apply Forall_cons_1 in d_cred0 as [_ ?].
    + intros ? ? ? ? [= <-]. simpl. eauto.
    + intros ? [= <-]. rewrite Hr1, cnt_app. unfold r'. simpl. lia.
    + rewrite cnt_app. simpl. lia.
    + by intros ? [= <-].
    + intros x Hx Hhw. specialize (d_credit0 x Hx Hhw). destruct d_marks0 as [Hm _].
      apply Hm in Hhw as Hlw. rewrite cnt_app. simpl. rewrite Z.add_0_r.
      pose proof (credit_read lwb (cnt Rb) r' _ _ Hlw Hn ltac:(unfold r'; destruct (counted f); lia) d_credit0) as Hcr.
      fold r'. unfold e2. rewrite (proj2 (Z.ltb_lt 0 lwb)) by done. cbn [andb].
      destruct (r' mod lwb =? 0); cbn; rewrite L3; [|done]. rewrite app_assoc, (aws_app (tb ++ e_sent e)). done.
  - by rewrite L4.
  - by rewrite L5.
  - by rewrite L5, L6.
  - unfold e2. case_test; cbn; rewrite L3; [|done]. apply Forall_app. split; [done|]. by constructor.
Qed.

Lemma pipe_read_flow k e e' m C P Rb : 0 <= k < 18446744073709551616 -> pipe_read fuel e = Some (e', m) -> flow k e C P Rb ->
  flow k e' C P (Rb ++ if m is Some f then [f] else []).
Proof.
  intros Hk H Hf. unfold pipe_read in H.
  revert H. case_test; [intros [= <- <-]; by rewrite app_nil_r|]. case_test; [intros [= <- <-]; by rewrite app_nil_r|].
  destruct (read_loop fuel e) as [[e1 m1]|] eqn:E1; [|done]. cbn [mbind option_bind]. intros H.
  assert (exists s, e_heap e !! qb = Some s) as [s Hs].
  { destruct fuel as [|n]; [done|]. cbn [read_loop] in E1. unfold on_in in E1. rewrite (f_in _ _ _ _ _ Hf) in E1.
    destruct (on_queue e qb up_read) as [[? ?]|] eqn:E2; [|done]. apply on_queue_inv in E2 as (s & _ & ? & _). by exists s. }
  destruct (read_loop_flow k fuel e e1 m1 C P Rb s E1 Hf Hs) as (-> & Hself & Hsent & Hheap).
  assert (e1 = Penv (e_self e1) (<[qb := (pq_read s).1]> (e_heap e)) (e_sent e) (e_events e1)) as He1
    by (destruct e1; simpl in *; congruence).
  unfold pq_read in *. pose proof (d_cred _ _ _ _ _ _ _ _ _ _ (f_r _ _ _ _ _ Hf) s Hs) as Hc.
  rewrite app_assoc, Forall_app in Hc. destruct Hc as [Hc _].
  destruct (pq_items s) as [|f l] eqn:Ei; cbn [head fst] in *.
  - injection H as <- <-. rewrite app_nil_r.
    apply (flow_quiet k (set_heap e (<[qb := Pq [] (pq_done s) (pq_part s) true]> (e_heap e))));
      rewrite ?Hself, ?Hsent; try flow_side. apply (flow_in k e s); try done. by rewrite Ei.
  - destruct (fr_is_delimiter f) eqn:Ed.
    + destruct (process_delimiter e1) as [e2|] eqn:E2; [|done]. cbn [mbind option_bind] in H. injection H as <- <-.
      rewrite app_nil_r. apply (process_delimiter_flow k e1 e2 _ _ _ E2).
      apply (flow_quiet k (set_heap e (<[qb := Pq l (pq_done s) (pq_part s) (pq_asleep s)]> (e_heap e))));
        rewrite ?Hself, ?Hsent; try flow_side. apply (flow_in k e s); try done; simpl.
      * rewrite Ei. simpl. by rewrite Ed.
      * by apply Forall_cons_1 in Hc as [_ ?].
    + injection H as <- <-. pose proof (flow_got k e s f l C P Rb Hk Hf Hs Ei Ed) as Hg. revert Hg.
      unfold count_read. rewrite He1, Hself. cbn. destruct (negb (fr_more f) && negb (fr_is_routing_id f)); cbn;
        destruct ((0 <? pi_lwm (e_self e)) && _); intros [Hg1 Hg2 Hg3 Hg4 Hg5 Hg6]; by constructor.
Qed.

(** *** Writing *)

Lemma pipe_check_write_flow k e C P Rb : flow k e C P Rb -> flow k (pipe_check_write e).1 C P Rb.
Proof. intros Hf. unfold pipe_check_write. case_test; [done|]. case_test; [|done]. apply (flow_quiet k e); flow_side. Qed.

(** Room below the high water mark. *)
Lemma check_hwm_room hw lw k x y q to C P R : dir hw lw k (Some x) y q to C P R ->
  check_hwm x = true <-> (0 < hw -> cnt C - pi_peers_msgs_read x < hw).
Proof.
  intros [Hm _ _ _ _ _ Hw _ _ Hkc Hh _ Hb _]. specialize (Hw x eq_refl). specialize (Hh x eq_refl). specialize (Hb x eq_refl).
  unfold check_hwm. rewrite Hw, Hh, negb_true_iff, andb_false_iff, Z.ltb_ge, Z.leb_gt.
  destruct (decide (0 < hw)) as [Hp|Hp]; [|split; intros; lia]. specialize (Hb Hp).
  rewrite u64_small by (unfold is_u64; lia). split; [intros [|] _; lia|intros Hx; right; by apply Hx].
Qed.

(** A frame was written. *)
Definition wrote_frame (f : frame) (C P : list frame) : list frame * list frame :=
  if fr_more f then (C, P ++ [f]) else (C ++ P ++ [f], []).

Lemma flow_put k e s f C P Rb : 0 <= k < 18446744073709551615 -> flow k e C P Rb -> e_heap e !! qa = Some s ->
  pi_state (e_self e) = active -> fr_is_delimiter f = false -> fr_is_credential f = false ->
  (0 < hwa -> cnt C - pi_peers_msgs_read (e_self e) < hwa) ->
  let e1 := set_heap e (<[qa := pq_write s f (fr_more f)]> (e_heap e)) in
  flow (k + 1) (if negb (fr_more f) && negb (fr_is_routing_id f)
          then upd e1 (fun p => set_msgs_written p (u64 (pi_msgs_written p + 1))) else e1)
    (wrote_frame f C P).1 (wrote_frame f C P).2 Rb.
Proof.
  intros Hk [Hw Hr Hi Ho Hno Hfc] Hs Hst Hd Hc Hroom e1. fold (counted f). rewrite Hs in Hw.
  pose proof (d_part _ _ _ _ _ _ _ _ _ _ Hw _ s eq_refl Hst eq_refl) as HP.
  pose proof (cnt_more _ (d_more _ _ _ _ _ _ _ _ _ _ Hw)) as HcP. pose proof (cnt_nonneg C) as HcC.
  pose proof (d_k _ _ _ _ _ _ _ _ _ _ Hw) as HkC. pose proof (d_written _ _ _ _ _ _ _ _ _ _ Hw _ eq_refl) as Hmw.
  assert (cnt (wrote_frame f C P).1 = cnt C + if counted f then 1 else 0) as HC'.
  { unfold wrote_frame, counted. destruct (fr_more f) eqn:Em; cbn [negb andb fst]; [lia|]. rewrite !cnt_app, HcP.
    simpl. unfold counted. rewrite Em. simpl. lia. }
  set (e2 := if counted f then _ else e1).
  assert (pi_msgs_written (e_self e2) = cnt C + if counted f then 1 else 0) as Hmw2.
  { unfold e2. destruct (counted f); cbn; rewrite Hmw; [rewrite u64_small; [done|unfold is_u64; lia]|lia]. }
  assert (e_heap e2 = e_heap e1 /\ e_sent e2 = e_sent e /\ pi_in_pipe (e_self e2) = pi_in_pipe (e_self e) /\
    pi_out_pipe (e_self e2) = pi_out_pipe (e_self e) /\ pi_hwm (e_self e2) = pi_hwm (e_self e) /\
    pi_lwm (e_self e2) = pi_lwm (e_self e) /\ pi_msgs_read (e_self e2) = pi_msgs_read (e_self e) /\
    pi_peers_msgs_read (e_self e2) = pi_peers_msgs_read (e_self e)) as (L1 & L2 & L3 & L4 & L5 & L6 & L7 & L8).
  { unfold e2. destruct (counted f); done. }
  constructor; rewrite ?L1, ?L2.
  - cbn. rewrite lookup_insert_eq. destruct Hw. constructor; rewrite ?HC'; try done.
    + intros ? [= <-]. specialize (d_data0 s eq_refl). unfold pq_write, wrote_frame. rewrite HP.
      destruct (fr_more f); cbn; [done|]. rewrite <- d_data0, !visible_app, <- !app_assoc. do 3 f_equal.
      rewrite (visible_all P) by done. simpl. by rewrite Hd.
    + intros ? [= <-]. specialize (d_cred0 s eq_refl). unfold pq_write. rewrite !Forall_app in *.
      destruct (fr_more f); cbn; rewrite !Forall_app; (split_and!; try tauto); by constructor.
    + intros ? ? [= <-] _ [= <-]. unfold pq_write, wrote_frame. rewrite HP. by destruct (fr_more f).
    + unfold wrote_frame. destruct (fr_more f) eqn:Em; cbn; [|by constructor]. apply Forall_app. split; [done|]. by constructor.
    + unfold wrote_frame. destruct (fr_more f) eqn:Em; cbn; [|by constructor]. apply Forall_app. split; [done|]. by constructor.
    + by intros ? [= <-].
    + destruct (counted f); lia.
    + destruct (counted f); lia.
    + intros ? [= <-]. rewrite L5. by apply d_w0.
    + intros ? [= <-] Hp. rewrite L8. specialize (d_hwm0 _ eq_refl Hp). specialize (Hroom Hp). destruct (counted f); lia.
    + intros ? [= <-] Hp. rewrite L8. by apply d_credit0.
  - cbn. rewrite lookup_insert_ne by done. apply (dir_mono _ _ k); [lia|]. by apply (dir_reader _ _ _ _ (e_self e) _ _ (tb ++ e_sent e)).
  - by rewrite L3.
  - by rewrite L4.
  - rewrite L4. intros En. by destruct (Hno En).
  - done.
Qed.

Lemma flow_mono k k' e C P Rb : k <= k' -> flow k e C P Rb -> flow k' e C P Rb.
Proof. intros Hk []. constructor; try done; by eapply dir_mono. Qed.

Lemma pipe_write_flow k e e' b f C P Rb : 0 <= k < 18446744073709551615 -> pipe_write e f = Some (e', b) -> flow k e C P Rb ->
  fr_is_delimiter f = false -> fr_is_credential f = false ->
  flow (k + 1) e' (if b then wrote_frame f C P else (C, P)).1 (if b then wrote_frame f C P else (C, P)).2 Rb.
Proof.
  intros Hk H Hf Hd Hc. unfold pipe_write, pipe_check_write in H.
  destruct (negb (pi_out_active (e_self e)) || negb (bool_decide (st e = active))) eqn:Ea; cbn [negb] in H.
  { injection H as <- <-. apply (flow_mono k); [lia|done]. }
  apply orb_false_iff in Ea as [_ Es]. apply negb_false_iff, bool_decide_eq_true in Es.
  destruct (check_hwm (e_self e)) eqn:Eh; cbn [negb] in H.
  2:{ injection H as <- <-. apply (flow_mono k); [lia|]. apply (flow_quiet k e); flow_side. }
  pose proof (proj1 (check_hwm_room _ _ _ _ _ _ _ _ _ _ (f_w _ _ _ _ _ Hf)) Eh) as Hroom.
  unfold on_out in H. destruct (pi_out_pipe (e_self e)) as [q|] eqn:Eq; [|done]. cbn [mbind option_bind] in H.
  pose proof (f_out _ _ _ _ _ Hf q Eq) as ->.
  destruct (on_queue e qa _) as [[e1 u]|] eqn:E1; [|done]. cbn [mbind option_bind] in H. injection H as <- <-.
  apply on_queue_inv in E1 as (s & s1 & Hs & E1 & ->). unfold queue_write in E1. simpl in E1. injection E1 as <- _.
  by apply flow_put.
Qed.

Lemma rollback_loop_spec q n : forall e e' s, rollback_loop n e = Some e' -> pi_out_pipe (e_self e) = Some q ->
  e_heap e !! q = Some s ->
  e' = set_heap e (<[q := Pq (pq_items s) (pq_done s) [] (pq_asleep s)]> (e_heap e)).
Proof using Type.
  induction n as [|n IH]; intros e e' s H Eq Hs; [done|]. cbn [rollback_loop] in H. unfold on_out in H.
  rewrite Eq in H. cbn [mbind option_bind] in H.
  destruct (on_queue e q up_unwrite) as [[e1 m]|] eqn:E1; [|done]. cbn [mbind option_bind] in H.
  apply on_queue_inv in E1 as (s0 & s1 & Hs0 & E1 & ->). rewrite Hs in Hs0. injection Hs0 as <-.
  simpl in E1. injection E1 as E1.
  destruct (unwrite_cases s) as [[Ep Eu]|(zs & f & Ep & Eu)]; rewrite Eu in E1; injection E1 as <- <-.
  - injection H as <-. do 2 f_equal. destruct s. simpl in *. by subst.
  - destruct (fr_more f); [|done].
    rewrite (IH _ _ (Pq (pq_items s) (pq_done s) zs (pq_asleep s)) H Eq) by apply lookup_insert_eq.
    unfold set_heap. simpl. by rewrite insert_insert_eq.
Qed.

Lemma pipe_rollback_flow k e e' C P Rb : pipe_rollback fuel e = Some e' -> flow k e C P Rb ->
  flow k e' C [] Rb /\ e_self e' = e_self e /\ e_sent e' = e_sent e /\
  (forall q, pi_out_pipe (e_self e) = Some q -> exists s, e_heap e' !! qa = Some s /\ pq_part s = []).
Proof.
  unfold pipe_rollback. destruct (pi_out_pipe (e_self e)) as [q|] eqn:Eq.
  - intros H Hf. pose proof (f_out _ _ _ _ _ Hf q Eq) as ->.
    assert (exists s, e_heap e !! qa = Some s) as [s Hs].
    { destruct fuel as [|n]; [done|]. cbn [rollback_loop] in H. unfold on_out in H. rewrite Eq in H. cbn [mbind option_bind] in H.
      destruct (on_queue e qa up_unwrite) as [[? ?]|] eqn:E2; [|done]. apply on_queue_inv in E2 as (s & _ & ? & _). by exists s. }
    rewrite (rollback_loop_spec qa fuel e e' s H Eq Hs). split_and!; try done.
    + destruct Hf as [Hw Hr Hi Ho Hn Hfc]. constructor; try done; cbn; [|by rewrite lookup_insert_ne].
      rewrite lookup_insert_eq. rewrite Hs in Hw. destruct Hw. constructor; try done.
      * intros ? [= <-]. cbn [pq_items pq_done]. by apply d_data0.
      * intros ? [= <-]. specialize (d_cred0 s eq_refl). rewrite !Forall_app in *. cbn [pq_items pq_done pq_part]. split_and!; [tauto..|constructor].
      * by intros ? ? _ _ [= <-].
    + intros q' _. eexists. cbn. by rewrite lookup_insert_eq.
  - intros [= <-] [Hw Hr Hi Ho Hn Hfc]. split_and!; try done. constructor; try done. destruct Hw. constructor; try done.
    intros x s [= <-] Hs. by destruct (Hn Eq).
Qed.

Lemma pipe_flush_flow k e e' C P Rb : pipe_flush e = Some e' -> flow k e C P Rb ->
  flow k e' C P Rb /\ e_self e' = e_self e.
Proof.
  unfold pipe_flush. case_test; [by intros [= <-]|].
  destruct (pi_out_pipe (e_self e)) as [q|] eqn:Eq; [|by intros [= <-]]. unfold on_out. rewrite Eq. cbn [mbind option_bind].
  intros H Hf. pose proof (f_out _ _ _ _ _ Hf q Eq) as ->.
  destruct (on_queue e qa up_flush) as [[e1 b]|] eqn:E1; [|done]. cbn [mbind option_bind] in H. injection H as <-.
  apply on_queue_inv in E1 as (s & s1 & Hs & E1 & ->). simpl in E1. injection E1 as E1.
  pose proof (d_cred _ _ _ _ _ _ _ _ _ _ (f_w _ _ _ _ _ Hf) s Hs) as Hc.
  assert (flow k (set_heap e (<[qa := s1]> (e_heap e))) C P Rb) as Hf1.
  { assert (pi_state (e_self e) = active -> pq_part s = P) as HP.
    { intros Ha. by apply (d_part _ _ _ _ _ _ _ _ _ _ (f_w _ _ _ _ _ Hf) (e_self e)). }
    assert (pq_items s1 ++ pq_done s1 = pq_items s ++ pq_done s /\ pq_part s1 = pq_part s) as [Ei Ep].
    { unfold pq_flush_ in E1. destruct (pq_done s) as [|f l] eqn:Ed; injection E1 as <- <-; cbn; rewrite ?Ed, ?app_nil_r; done. }
    apply (flow_out k e s); try done; [by rewrite Ei| |by rewrite Ep].
    rewrite app_assoc, Ei, Ep, <- app_assoc. done. }
  destruct b; [done|]. split; [|done]. cbn [negb]. apply (flow_quiet k (set_heap e (<[qa := s1]> (e_heap e)))); flow_side.
Qed.

(** *** Shutting down *)

(** An endpoint that cannot write has no message in the making. *)
Lemma flow_reset k e C P Rb : pi_state (e_self e) <> active -> flow k e C P Rb -> flow k e C [] Rb.
Proof.
  intros Hs [Hw Hr Hi Ho Hn Hfc]. constructor; try done. destruct Hw. constructor; try done.
  intros x s [= <-] Hst. by destruct Hs.
Qed.

Lemma terminate_outbound_flow k e e' C P Rb : terminate_outbound fuel e = Some e' -> flow k e C P Rb ->
  pi_state (e_self e) <> active -> flow k e' C [] Rb.
Proof.
  unfold terminate_outbound. set (e0 := upd e (fun p => set_out_active p false)). intros H Hf Hs.
  assert (flow k e0 C P Rb) as Hf0 by (apply (flow_quiet k e); flow_side).
  destruct (pi_out_pipe (e_self e0)) as [q|] eqn:Eq.
  2:{ injection H as <-. by apply (flow_reset k e0 C P). }
  destruct (pipe_rollback fuel e0) as [e1|] eqn:E1; [|done]. cbn [mbind option_bind] in H.
  destruct (pipe_rollback_flow k e0 e1 C P Rb E1 Hf0) as (Hf1 & Es1 & _ & Hq1).
  destruct (Hq1 q Eq) as (s & Hqs & Hpart). unfold on_out in H. rewrite Es1, Eq in H. cbn [mbind option_bind] in H.
  pose proof (f_out _ _ _ _ _ Hf0 q Eq) as ->.
  destruct (on_queue e1 qa _) as [[e2 u]|] eqn:E2; [|done]. cbn [mbind option_bind] in H.
  apply on_queue_inv in E2 as (s0 & s2 & Hs0 & E2 & ->). rewrite Hqs in Hs0. injection Hs0 as <-.
  unfold queue_write in E2. simpl in E2. injection E2 as <- _.
  apply pipe_flush_flow with (k := k) (C := C) (P := []) (Rb := Rb) in H as [H _]; [done|].
  pose proof (d_cred _ _ _ _ _ _ _ _ _ _ (f_w _ _ _ _ _ Hf1) s Hqs) as Hc.
  apply (flow_out k e1 s); try done; cbn [pq_write pq_items pq_done pq_part]; rewrite Hpart.
  - rewrite !visible_app. simpl. by rewrite app_nil_r.
  - rewrite Hpart, app_nil_r in Hc. rewrite !Forall_app in *. destruct Hc. split_and!; try done. by constructor.
Qed.

Lemma pipe_terminate_flow k e e' delay C P Rb : pipe_terminate fuel e delay = Some e' -> flow k e C P Rb ->
  flow k e' C [] Rb.
Proof.
  unfold pipe_terminate. set (e0 := upd e (fun p => set_delay p delay)). intros H Hf.
  assert (flow k e0 C P Rb) as Hf0 by (apply (flow_quiet k e); flow_side).
  assert (st e0 <> active -> Some e0 = Some e' -> flow k e' C [] Rb) as Hsame
    by (intros Hs [= <-]; by apply (flow_reset k e0 C P)).
  assert (flow k (goto (send e0 pipe_term) term_req_sent1) C P Rb) as Hask by (apply (flow_quiet k e0); flow_side).
  destruct (st e0) eqn:Es; try (by apply Hsame).
  - by apply (terminate_outbound_flow k _ _ C P Rb H).
  - by apply (terminate_outbound_flow k _ _ C P Rb H).
  - destruct delay; cbn [negb] in H.
    { apply (terminate_outbound_flow k _ _ C P Rb H); [done|]. unfold st in Es. by rewrite Es. }
    destruct (pipe_rollback fuel e0) as [e1|] eqn:E1; [|done]. cbn [mbind option_bind] in H.
    destruct (pipe_rollback_flow k e0 e1 C P Rb E1 Hf0) as (Hf1 & _).
    apply (terminate_outbound_flow k _ _ C [] Rb H); [|done]. apply (flow_quiet k e1); flow_side.
Qed.
End flow.

(** ** Commands *)

Section flow_commands.
Context (fuel : nat) (qa qb : Z) (Hab : qa <> qb) (hwa lwa hwb lwb : Z) (pb : option pipe) (tb : list pipe_cmd).
Context (Cb Pb Ra : list frame).

Abbreviation flow_ ta := (flow qa qb hwa lwa hwb lwb pb ta tb Cb Pb Ra).

(** A command without a count leaves the mailbox. *)
Lemma flow_receive k c ta e C P Rb : aws [c] = [] -> flow_ (c :: ta) k e C P Rb -> flow_ ta k e C P Rb.
Proof.
  intros Hc [Hw Hr Hi Ho Hn Hfc]. constructor; try done. destruct Hw. constructor; try done.
  intros x Hx Hp. specialize (d_credit0 x Hx Hp). change (c :: ta) with ([c] ++ ta) in d_credit0.
  by rewrite aws_app, Hc in d_credit0.
Qed.

Lemma process_activate_write_flow k n ta e C P Rb : flow_ (activate_write n :: ta) k e C P Rb ->
  flow_ ta k (process_activate_write e n) C P Rb.
Proof.
  intros Hf. set (e1 := upd e (fun p => set_peers_msgs_read p n)).
  assert (flow_ ta k e1 C P Rb) as Hf1.
  { destruct Hf as [Hw Hr Hi Ho Hn Hfc]. constructor; try done; cbn.
    - destruct Hw. constructor; try done.
      + intros x s [= <-]. apply (d_part0 (e_self e)). done.
      + intros x [= <-]. apply (d_written0 (e_self e)). done.
      + intros x [= <-]. apply (d_w0 (e_self e)). done.
      + intros x [= <-] Hp. specialize (d_hwm0 _ eq_refl Hp). specialize (d_credit0 _ eq_refl Hp) as Hc. cbn in Hc.
        destruct Hc as [Hle Hc]. cbn. destruct d_marks0 as [Hm _]. apply Hm in Hp as Hl.
        apply credit_le in Hc; [lia|done|apply cnt_nonneg].
      + intros x [= <-] Hp. specialize (d_credit0 _ eq_refl Hp) as Hc. cbn in Hc. by destruct Hc.
    - by apply (dir_reader _ _ _ _ (e_self e) _ _ (tb ++ e_sent e)). }
  unfold process_activate_write. fold e1. case_test; [|done].
  apply (flow_quiet qa qb hwa lwa hwb lwb pb ta tb Cb Pb Ra k e1); flow_side.
Qed.

Lemma process_pipe_term_flow k ta e e' C P Rb : process_pipe_term e = Some e' -> flow_ ta k e C P Rb ->
  flow_ ta k e' C P Rb.
Proof.
  intros H Hf. unfold process_pipe_term in H.
  destruct (st e); try done; try destruct (pi_delay (e_self e)); injection H as <-;
    apply (flow_quiet qa qb hwa lwa hwb lwb pb ta tb Cb Pb Ra k e); flow_side.
Qed.

(** Draining a queue before it is deleted. *)
Lemma drain_loop_heap n : forall (e e' : penv queue), drain_loop n e = Some e' ->
  e_self e' = e_self e /\ e_sent e' = e_sent e /\
  forall q, q <> pi_in_pipe (e_self e) -> e_heap e' !! q = e_heap e !! q.
Proof using Type.
  induction n as [|n IH]; intros e e' H; [done|]. cbn [drain_loop] in H. unfold on_in in H.
  destruct (on_queue e _ up_read) as [[e1 m]|] eqn:E1; [|done]. cbn [mbind option_bind] in H.
  apply on_queue_inv in E1 as (s & s1 & Hs & E1 & ->). destruct m as [f|].
  - apply IH in H as (H1 & H2 & H3). cbn in *. split_and!; try done. intros q Hq. rewrite H3 by done.
    by rewrite lookup_insert_ne.
  - injection H as <-. cbn. split_and!; try done. intros q Hq. by rewrite lookup_insert_ne.
Qed.

Lemma process_pipe_term_ack_flow k ta e e' C P Rb : process_pipe_term_ack fuel e = Some e' -> flow_ ta k e C P Rb ->
  dir hwa lwa k None pb (e_heap e' !! qa) [] C P Ra /\
  dir hwb lwb k pb None (e_heap e' !! qb) (tb ++ e_sent e') Cb Pb Rb /\ Forall flow_cmd (e_sent e').
Proof.
  intros H Hf. unfold process_pipe_term_ack in H.
  assert (exists e1, flow_ ta k e1 C P Rb /\
    (let* e0 := if negb (pi_conflate (e_self e1)) then drain_loop fuel e1 else Some e1 in
     let* h := queue_delete (e_heap e0) (pi_in_pipe (e_self e0)) in Some (set_heap e0 h)) = Some e') as (e1 & Hf1 & H1).
  { destruct (st (emit e pipe_terminated)) eqn:Es; try done; cbn [mbind option_bind] in H.
    - exists (emit e pipe_terminated). split; [|exact H]. apply (flow_quiet qa qb hwa lwa hwb lwb pb ta tb Cb Pb Ra k e); flow_side.
    - eexists. split; [|exact H]. apply (flow_quiet qa qb hwa lwa hwb lwb pb ta tb Cb Pb Ra k e); try flow_side.
      cbn in *. right. split; [done|]. unfold st in Es. cbn in Es. by rewrite Es.
    - exists (emit e pipe_terminated). split; [|exact H]. apply (flow_quiet qa qb hwa lwa hwb lwb pb ta tb Cb Pb Ra k e); flow_side. }
  clear H. assert (exists e2, e_self e2 = e_self e1 /\ e_sent e2 = e_sent e1 /\
    (forall q, q <> pi_in_pipe (e_self e1) -> e_heap e2 !! q = e_heap e1 !! q) /\
    (let* h := queue_delete (e_heap e2) (pi_in_pipe (e_self e2)) in Some (set_heap e2 h)) = Some e') as (e2 & E1 & E2 & E3 & H2).
  { destruct (negb (pi_conflate (e_self e1))); [|by exists e1].
    destruct (drain_loop fuel e1) as [e2|] eqn:Ed; [|done]. exists e2. cbn [mbind option_bind] in H1.
    apply drain_loop_heap in Ed as (? & ? & ?). done. }
  unfold queue_delete in H2. destruct (e_heap e2 !! _) as [u|]; [|done]. cbn [mbind option_bind] in H2. injection H2 as <-.
  destruct Hf1 as [Hw Hr Hi Ho Hn Hfc]. cbn. rewrite E1, Hi, E2. split_and!; try done.
  - rewrite lookup_delete_ne by done. rewrite E3 by (by rewrite Hi). by apply (dir_no_writer _ _ _ (Some (e_self e1)) _ _ ta).
  - rewrite lookup_delete_eq. by apply (dir_no_reader _ _ _ _ (Some (e_self e1)) (e_heap e1 !! qb) (tb ++ e_sent e1)).
Qed.

Lemma process_command_flow k c ta e e' deleted C P Rb : process_command fuel e c = Some (e', deleted) -> flow_cmd c ->
  flow_ (c :: ta) k e C P Rb ->
  if deleted then dir hwa lwa k None pb (e_heap e' !! qa) [] C P Ra /\
    dir hwb lwb k pb None (e_heap e' !! qb) (tb ++ e_sent e') Cb Pb Rb /\ Forall flow_cmd (e_sent e')
  else flow_ ta k e' C P Rb.
Proof.
  intros H Hc Hf. destruct c as [|n|q| | |i o|n s]; try done; cbn [process_command] in H.
  - injection H as <- <-. apply flow_receive in Hf; [|done]. unfold process_activate_read. case_test; [|done].
    apply (flow_quiet qa qb hwa lwa hwb lwb pb ta tb Cb Pb Ra k e); flow_side.
  - injection H as <- <-. by apply process_activate_write_flow.
  - destruct (process_pipe_term e) as [e1|] eqn:E; [|done]. injection H as <- <-. apply flow_receive in Hf; [|done].
    by apply (process_pipe_term_flow k ta e).
  - destruct (process_pipe_term_ack fuel e) as [e1|] eqn:E; [|done]. injection H as <- <-. apply flow_receive in Hf; [|done].
    by apply (process_pipe_term_ack_flow k ta e).
  - injection H as <- <-. apply flow_receive in Hf; [|done]. apply (flow_quiet qa qb hwa lwa hwb lwb pb ta tb Cb Pb Ra k e); flow_side.
Qed.
End flow_commands.

(** ** Runs *)

Section flow_runs.
Context (fuel : nat) (Q HW LW : bool -> Z) (HQ : Q false <> Q true).

Definition ptr_ok (s : bool) (p : pipe) : Prop :=
  pi_in_pipe p = Q (negb s) /\ (forall q, pi_out_pipe p = Some q -> q = Q s) /\
  (pi_out_pipe p = None -> pi_state p <> active).

Record wflow (k : Z) (w : world queue) (C P R : bool -> list frame) : Prop := {
  wf_dir s : dir (HW s) (LW s) k (w_pipe w s) (w_pipe w (negb s)) (w_heap w !! Q s) (w_chan w s) (C s) (P s) (R (negb s));
  wf_ptr s p : w_pipe w s = Some p -> ptr_ok s p;
  wf_chan s : Forall flow_cmd (w_chan w s);
}.

Lemma Q_neq s : Q s <> Q (negb s).
Proof using HQ. destruct s; simpl; congruence. Qed.

(** One side of the pair, as its methods see it. *)
Abbreviation side_flow w s C P R :=
  (flow (Q s) (Q (negb s)) (HW s) (LW s) (HW (negb s)) (LW (negb s)) (w_pipe w (negb s)) (w_chan w s) (w_chan w (negb s))
     (C (negb s)) (P (negb s)) (R (negb s))).

Lemma wflow_open k w C P R s p : wflow k w C P R -> w_pipe w s = Some p ->
  side_flow w s C P R k (Penv p (w_heap w) [] []) (C s) (P s) (R s).
Proof.
  intros [Hd Hp Hc] Es. pose proof (Hd s) as D1. pose proof (Hd (negb s)) as D2. rewrite Bool.negb_involutive in D2.
  rewrite Es in D1, D2. destruct (Hp s p Es) as (H1 & H2 & H3). constructor; cbn; try done. by rewrite app_nil_r.
Qed.

Lemma wflow_close k w w' C P R s e (deleted : bool) C' P' R' :
  (forall s p, w_pipe w s = Some p -> ptr_ok s p) -> (forall s, Forall flow_cmd (w_chan w s)) ->
  pair_close w s e deleted = Some w' ->
  dir (HW s) (LW s) k (if deleted then None else Some (e_self e)) (w_pipe w (negb s)) (e_heap e !! Q s) (w_chan w s) C' P' (R (negb s)) ->
  dir (HW (negb s)) (LW (negb s)) k (w_pipe w (negb s)) (if deleted then None else Some (e_self e)) (e_heap e !! Q (negb s))
    (w_chan w (negb s) ++ e_sent e) (C (negb s)) (P (negb s)) R' ->
  (deleted = false -> ptr_ok s (e_self e)) ->
  Forall flow_cmd (e_sent e) ->
  wflow k w' (upd_side C s C') (upd_side P s P') (upd_side R s R').
Proof.
  intros Hp Hc H D1 D2 Hptr Hs. unfold pair_close in H. destruct (_ || _); [|done]. injection H as <-.
  constructor; cbn [w_pipe w_chan w_heap].
  - intros s'. destruct (decide (s' = s)) as [->|Hne].
    + by rewrite !upd_side_eq, !upd_side_negb, upd_negb_side.
    + assert (s' = negb s) as -> by (by destruct s', s). rewrite Bool.negb_involutive.
      by rewrite !upd_side_eq, !upd_side_negb.
  - intros s' p. destruct (decide (s' = s)) as [->|Hne].
    + rewrite upd_side_eq. destruct deleted; [done|]. intros [= <-]. by apply Hptr.
    + assert (s' = negb s) as -> by (by destruct s', s). rewrite upd_side_negb. apply Hp.
  - intros s'. destruct (decide (s' = negb s)) as [->|Hne].
    + rewrite upd_side_eq. apply Forall_app. split; [apply Hc|done].
    + assert (s' = s) as -> by (by destruct s', s). rewrite upd_negb_side. apply Hc.
Qed.

Lemma pipe_call_flow k (w : world queue) s e a e' o C P R : 0 <= k < 18446744073709551615 -> flow_act (Call s a) ->
  pipe_call fuel e a = Some (e', o) -> side_flow w s C P R k e (C s) (P s) (R s) ->
  let log := (Call s a, o, @nil pipe_event) in
  side_flow w s C P R (k + 1) e' (wrote s (C s, P s) log).1 (wrote s (C s, P s) log).2 (got s (R s) log).
Proof using HQ.
  intros Hk Ha H Hf. pose proof (Q_neq s) as Hne.
  assert (forall e0 C0 P0 R0, side_flow w s C P R k e0 C0 P0 R0 -> side_flow w s C P R (k + 1) e0 C0 P0 R0) as Hmono
    by (intros ? ? ? ? ?; eapply flow_mono; [|done]; lia).
  destruct a as [| | |f| | | |delay| |i o'|i o'|i o'|so]; try done; unfold wrote, got; cbn [fst snd]; rewrite ?Bool.eqb_reflx;
    cbn [pipe_call] in H.
  - destruct (pipe_check_read e) as [[e1 b]|] eqn:E; [|done]. injection H as <- <-.
    apply Hmono. by apply (pipe_check_read_flow _ _ Hne) with (1 := E).
  - destruct (pipe_read fuel e) as [[e1 m]|] eqn:E; [|done]. injection H as <- <-. apply Hmono.
    apply (pipe_read_flow _ _ _ Hne) with (2 := E) in Hf; [|lia]. destruct m; [done|]. by rewrite app_nil_r in Hf.
  - destruct (pipe_check_write e) as [e1 b] eqn:E. injection H as <- <-. apply Hmono.
    apply pipe_check_write_flow in Hf. by rewrite E in Hf.
  - destruct Ha as [Hd Hc]. destruct (pipe_write e f) as [[e1 b]|] eqn:E; [|done]. injection H as <- <-.
    by apply (pipe_write_flow _ _ Hne) with (2 := E) in Hf.
  - destruct (pipe_rollback fuel e) as [e1|] eqn:E; [|done]. injection H as <- <-. apply Hmono.
    by apply (pipe_rollback_flow _ _ _ Hne) with (1 := E) in Hf as [? _].
  - destruct (pipe_flush e) as [e1|] eqn:E; [|done]. injection H as <- <-. apply Hmono.
    by apply (pipe_flush_flow _ _ Hne) with (1 := E) in Hf as [? _].
  - destruct (pipe_terminate fuel e delay) as [e1|] eqn:E; [|done]. injection H as <- <-. apply Hmono.
    by apply (pipe_terminate_flow _ _ _ Hne) with (1 := E) in Hf.
  - injection H as <- <-. apply Hmono. by eapply flow_quiet; [done|try flow_side..].
Qed.

Lemma wflow_mono k k' w C P R : k <= k' -> wflow k w C P R -> wflow k' w C P R.
Proof. intros Hk []. constructor; try done. intros s. by eapply dir_mono. Qed.

Lemma wflow_ext k w C P R C' P' R' : (forall s, C' s = C s) -> (forall s, P' s = P s) -> (forall s, R' s = R s) ->
  wflow k w C P R -> wflow k w C' P' R'.
Proof. intros H1 H2 H3 []. constructor; try done. intros s. by rewrite H1, H2, H3. Qed.

Lemma upd_side_other {A} (f g : bool -> A) s v : (forall s', s' <> s -> g s' = f s') -> g s = v ->
  forall s', g s' = upd_side f s v s'.
Proof.
  intros Ho He s'. unfold upd_side. destruct (Bool.eqb_spec s' s); [by subst|by apply Ho].
Qed.

(** A call does nothing to what the other side wrote and got. *)
Lemma wrote_other s s' a o evs st : s' <> s -> wrote s' st (Call s a, o, evs) = st.
Proof.
  intros Hne. destruct st as [c p]. unfold wrote. cbn [fst].
  destruct a; try done; try (destruct o as [|[|]|]; try done); destruct (Bool.eqb_spec s s'); congruence.
Qed.

Lemma got_other s s' a o evs r : s' <> s -> got s' r (Call s a, o, evs) = r.
Proof.
  intros Hne. unfold got. cbn [fst]. destruct a; try done. destruct o as [| |[f|]]; try done.
  destruct (Bool.eqb_spec s s'); congruence.
Qed.

(** A deleted endpoint has no message in the making. *)
Lemma wflow_gone k w C P R s : w_pipe w s = None -> wflow k w C P R -> wflow k w C (upd_side P s []) R.
Proof.
  intros Hs [Hd Hp Hc]. constructor; try done. intros s'. pose proof (Hd s') as D. unfold upd_side.
  destruct (Bool.eqb_spec s' s); [|done]. subst. rewrite Hs in *. destruct D. by constructor.
Qed.

Lemma pair_step_flow k w a w' o evs C P R : 0 <= k < 18446744073709551615 -> flow_act a ->
  pair_step fuel w a = Some (w', o, evs) -> wflow k w C P R ->
  wflow (k + 1) w' (fun s => (wrote s (C s, P s) (a, o, evs)).1) (fun s => (wrote s (C s, P s) (a, o, evs)).2)
    (fun s => got s (R s) (a, o, evs)).
Proof using HQ.
  intros Hk Ha H Hw. assert (wflow (k + 1) w C P R) as Hw1 by (apply (wflow_mono k); [lia|done]).
  destruct a as [s a|s]; cbn [pair_step] in H.
  - destruct (w_pipe w s) as [p|] eqn:Ep.
    + destruct (pipe_call fuel (Penv p (w_heap w) [] []) a) as [[e o']|] eqn:Ec; [|done]. cbn [mbind option_bind] in H.
      destruct (pair_close w s e false) as [w1|] eqn:Ew; [|done]. cbn [mbind option_bind] in H. injection H as <- <- <-.
      pose proof (pipe_call_flow k w s _ a e o' C P R Hk Ha Ec (wflow_open k w C P R s p Hw Ep)) as [F1 F2 F3 F4 F5 F6].
      pose proof (wflow_close (k + 1) w w1 C P R s e false _ _ _ (wf_ptr _ _ _ _ _ Hw) (wf_chan _ _ _ _ _ Hw) Ew F1 F2 ltac:(done) F6) as Hw'.
      revert Hw'.
      apply wflow_ext; apply upd_side_other; try done; intros s' Hne; by rewrite ?wrote_other, ?got_other.
    + injection H as <- <- <-.
      assert (wflow (k + 1) w C (upd_side P s []) R) as Hw2 by (by apply wflow_gone).
      destruct a as [| | |f| | | |delay| |i o'|i o'|i o'|so]; try done; unfold wrote, got; cbn [fst snd]; [revert Hw2|revert Hw2];
        apply wflow_ext; try done; intros s'; unfold upd_side; destruct (Bool.eqb_spec s s'), (Bool.eqb_spec s' s); congruence || done.
  - destruct (w_chan w s) as [|c cs] eqn:Ec; [by injection H as <- <- <-|].
    destruct (w_pipe w s) as [p|] eqn:Ep; [|done]. cbn [mbind option_bind] in H.
    destruct (process_command fuel (Penv p (w_heap w) [] []) c) as [[e deleted]|] eqn:Ed; [|done]. cbn [mbind option_bind] in H.
    set (w0 := World (w_pipe w) (upd_side (w_chan w) s cs) (w_heap w)) in H.
    destruct (pair_close w0 s e deleted) as [w1|] eqn:Ew; [|done]. cbn [mbind option_bind] in H. injection H as <- <- <-.
    pose proof (wf_chan _ _ _ _ _ Hw s) as Hfc. rewrite Ec in Hfc. apply Forall_cons_1 in Hfc as [Hfc Hfcs].
    assert (forall s', Forall flow_cmd (w_chan w0 s')) as Hfc0.
    { intros s'. cbn. unfold upd_side. destruct (Bool.eqb s' s); [done|]. apply (wf_chan _ _ _ _ _ Hw). }
    pose proof (wflow_open k w C P R s p Hw Ep) as Hf. rewrite Ec in Hf.
    pose proof (process_command_flow fuel _ _ (Q_neq s) _ _ _ _ _ _ _ _ _ k c cs _ e deleted _ _ _ Ed Hfc Hf) as Hf'.
    assert (wflow k w1 (upd_side C s (C s)) (upd_side P s (P s)) (upd_side R s (R s))) as Hw'.
    { apply (wflow_close k w0 w1 C P R s e deleted); try done; try apply (wf_ptr _ _ _ _ _ Hw); cbn [w_pipe w_chan w0];
        rewrite ?upd_side_eq, ?upd_side_negb; destruct deleted; try (by apply Hf'); try done.
      - destruct Hf' as [D1 _]. destruct D1. by constructor.
      - destruct Hf'. done. }
    apply (wflow_mono k); [lia|]. revert Hw'. apply wflow_ext; apply upd_side_other; try done.
Qed.

Lemma pair_run_flow acts : forall k w w' log C P R, 0 <= k -> k + Z.of_nat (length acts) <= 18446744073709551615 ->
  Forall flow_act acts -> pair_run fuel w acts = Some (w', log) -> wflow k w C P R ->
  wflow (k + Z.of_nat (length acts)) w' (fun s => (foldl (wrote s) (C s, P s) log).1)
    (fun s => (foldl (wrote s) (C s, P s) log).2) (fun s => foldl (got s) (R s) log).
Proof using HQ.
  induction acts as [|a acts IH]; intros k w w' log C P R Hk Hk' Ha H Hw; cbn [pair_run length] in *.
  { injection H as <- <-. by rewrite Z.add_0_r. }
  apply Forall_cons_1 in Ha as [Ha Has].
  destruct (pair_step fuel w a) as [[[w1 o] evs]|] eqn:E1; [|done]. cbn [mbind option_bind] in H.
  destruct (pair_run fuel w1 acts) as [[w2 log2]|] eqn:E2; [|done]. cbn [mbind option_bind] in H. injection H as <- <-.
  pose proof (pair_step_flow k w a w1 o evs C P R ltac:(lia) Ha E1 Hw) as Hw1.
  specialize (IH (k + 1) w1 w2 log2 _ _ _ ltac:(lia) ltac:(lia) Has E2 Hw1).
  replace (k + Z.of_nat (S (length acts))) with (k + 1 + Z.of_nat (length acts)) by lia.
  revert IH. apply wflow_ext; intros s; cbn [foldl]; by rewrite <- ?surjective_pairing.
Qed.
End flow_runs.

(** ** The theorem *)

Lemma compute_lwm_marks h : -2147483648 <= h < 2147483647 ->
  (0 < h <-> 0 < compute_lwm h) /\ compute_lwm h <= Z.max h 0 < 2147483648.
Proof.
  intros Hh. unfold compute_lwm. rewrite i32_small by lia.
  assert (h <= 0 \/ 0 < h) as [Hs|Hs] by lia.
  - pose proof (Z.quot_le_mono (h + 1) 1 2 ltac:(lia) ltac:(lia)) as Hq. change (Z.quot 1 2) with 0 in Hq. lia.
  - rewrite Z.quot_div_nonneg by lia.
    pose proof (Z.div_mod (h + 1) 2 ltac:(lia)). pose proof (Z.mod_pos_bound (h + 1) 2 ltac:(lia)). lia.
Qed.

Lemma dir_new hw k p y :
  -2147483648 <= hw < 2147483647 -> 0 <= k ->
  pi_msgs_written p = 0 -> pi_peers_msgs_read p = 0 -> pi_hwm p = hw -> pi_msgs_read y = 0 -> pi_lwm y = compute_lwm hw ->
  dir hw (compute_lwm hw) k (Some p) (Some y) (Some pq_new) [] [] [] [].
Proof.
  intros Hh Hk H1 H2 H3 H4 H5. constructor; try done; try (intros; simplify_eq/=; done).
  - by apply compute_lwm_marks.
  - intros x [= <-] Hp. rewrite H2. simpl. lia.
  - intros x [= <-] Hp. simpl. rewrite H2. by rewrite Zdiv.Zdiv_0_l, Z.mul_0_r.
Qed.

Lemma pipepair_flow hwm0 hwm1 (w : world queue) :
  -2147483648 <= hwm0 < 2147483647 -> -2147483648 <= hwm1 < 2147483647 ->
  pipepair hwm0 hwm1 false false = Some w ->
  exists Q, Q false <> Q true /\
    wflow Q (fun s : bool => if s then hwm1 else hwm0) (fun s : bool => compute_lwm (if s then hwm1 else hwm0)) 0 w
      (fun _ => []) (fun _ => []) (fun _ => []).
Proof.
  intros H0 H1. unfold pipepair, queue_new. change (up_new false) with (Some (pq_new (T := frame))).
  cbn [mbind option_bind]. intros [= <-].
  set (q1 := fresh (dom ∅)). set (h := <[q1 := pq_new]> ∅). set (q2 := fresh (dom h)).
  assert (q2 <> q1) as Hne.
  { intros E. pose proof (is_fresh (dom h)) as Hf. fold q2 in Hf. rewrite E in Hf. apply Hf. unfold h. set_solver. }
  exists (fun s : bool => if s then q1 else q2). split; [done|]. constructor; cbn.
  - intros [|]; cbn.
    + rewrite lookup_insert_ne by done. unfold h. rewrite lookup_insert_eq. by apply dir_new.
    + rewrite lookup_insert_eq. by apply dir_new.
  - intros s p [= <-]. by destruct s; (split_and!; [done|by intros q [= <-]|done]).
  - by constructor.
Qed.

Lemma flow_act_safe fuel acts : forall w : world queue, Forall flow_act acts -> schedule_safe fuel w acts.
Proof.
  induction acts as [|a acts IH]; intros w Ha; cbn [schedule_safe]; [done|]. apply Forall_cons_1 in Ha as [Ha Has]. split.
  - destruct a as [s []|s]; done.
  - destruct (pair_step fuel w a) as [[[w' o] evs]|]; [by apply IH|done].
Qed.

(** Everything a live direction promises. *)
Lemma dir_promise hw lw k p y s to C P R :
  dir hw lw k (Some p) (Some y) (Some s) to C P R ->
  let waiting := visible (pq_items s ++ pq_done s) in
  C = R ++ waiting /\ (0 < pi_hwm p -> cnt waiting <= pi_hwm p) /\
  (cnt waiting = 0 -> aws to = [] -> check_hwm p = true).
Proof.
  intros Hd w. pose proof Hd as [Hm Hdata _ _ _ _ _ _ _ _ Hw _ Hh Hc]. specialize (Hdata s eq_refl). fold w in Hdata.
  specialize (Hh p eq_refl). specialize (Hc p eq_refl). rewrite (Hw p eq_refl). split_and!; [done| |].
  - intros Hp. specialize (Hh Hp). specialize (Hc Hp). destruct Hm as [Hm _]. apply Hm in Hp as Hl.
    apply credit_le in Hc; [|done|apply cnt_nonneg]. rewrite <- Hdata, cnt_app in Hh. lia.
  - intros Hz Ha. apply (check_hwm_room _ _ _ _ _ _ _ _ _ _ Hd). intros Hp. specialize (Hc Hp). rewrite Ha in Hc. simpl in Hc.
    destruct Hm as [Hm Hle]. apply Hm in Hp as Hl. rewrite <- Hdata, cnt_app, Hz, Hc.
    pose proof (Z.div_mod (cnt R) lw ltac:(lia)). pose proof (Z.mod_pos_bound (cnt R) lw Hl). lia.
Qed.


(** A writer that is stopped at a high water mark of 2, and goes on. *)
Definition flow_example : list pair_act :=
  let part b := Frame type_vsm flag_more [b] in
  let last b := Frame type_vsm 0 [b] in
  [Call false (PWrite (part 1)); Call false (PWrite (last 2)); Call false (PWrite (last 3)); Call false (PWrite (last 4));
   Call false PFlush; Call true PRead; Call true PRead; Deliver false; Deliver false; Call false (PWrite (part 5)); Call false PRollback;
   Call false (PWrite (last 6)); Call false PFlush; Call true PRead; Deliver false; Deliver false].

