(* ===== verification/Codec.v ===== *)
(** * The state machines of encoders and decoders (src/src/encoder.hpp,
      src/src/decoder.hpp), and the loop of the engine that feeds a
      decoder (src/src/stream_engine_base.cpp)

    A decoder asks for a number of bytes, collects them wherever it wants
    them, and runs an action; the actions of each protocol are a
    parameter.  The bytes arrive in chunks of any size, and the central
    lemma says that the chunks do not matter: decoding a chunk is
    decoding its bytes one at a time.  An encoder writes pieces (header,
    body) into buffers of any size, likewise. *)

From S2P Require Import Prelude Frame.

(** ** Allocators of the receive buffer (src/src/decoder_allocators.hpp) *)

Record allocator := Allocator_ { al_shared : bool; al_max : Z; al_size : Z }.

(** [allocate] of [shared_message_memory_allocator] sets the size back to
    the maximum; that of [c_single_allocator] leaves it. *)
Definition al_allocate (a : allocator) : allocator :=
  if al_shared a then Allocator_ (al_shared a) (al_max a) (al_max a) else a.

Definition al_resize (a : allocator) (n : Z) : allocator := Allocator_ (al_shared a) (al_max a) n.

(** ** Storage for a received message (src/src/msg.cpp)

    [can_alloc] says for which sizes [malloc] succeeds. *)

(** [msg_t::max_vsm_size] and [sizeof (msg_t::content_t)] on a 64-bit
    machine. *)
Definition max_vsm_size : Z := 33.
Definition sizeof_content : Z := 40.

(** [msg_t::init_size]: the type of the message, or ENOMEM. *)
Definition msg_init_size (can_alloc : Z -> bool) (size : Z) : option msg_type :=
  if size <=? max_vsm_size then Some type_vsm
  else if (size <? u64 (sizeof_content + size)) && can_alloc size then Some type_lmsg
  else None.

(** [msg_t::init] with the content the allocator provides. *)
Definition msg_init_content (can_alloc : Z -> bool) (size : Z) : option msg_type :=
  if size <? max_vsm_size then msg_init_size can_alloc size else Some type_zclmsg.

(** ** Decoders *)

(** What an action does: [next_step] and return 0, return 1 with the
    message and the next step, or return -1. *)
Inductive step_result (S : Type) :=
| SNext (to_read : Z) (next : S)
| SMsg (m : frame) (to_read : Z) (next : S)
| SFail (e : errno).
Arguments SNext {S}.
Arguments SMsg {S}.
Arguments SFail {S}.

(** The state of [decoder_base_t]: the bytes collected at [_read_pos] since
    the last [next_step], [_to_read], and the action to run next. *)
Record decoder (S : Type) := Decoder { dc_buf : bytes; dc_to_read : Z; dc_next : S }.
Arguments Decoder {S}.
Arguments dc_buf {S}.
Arguments dc_to_read {S}.
Arguments dc_next {S}.

(** The value of [decode]: 0, 1 with the message, or -1. *)
Inductive decode_rc := RcZero | RcMsg (m : frame) | RcError (e : errno).

Section decoder.
Context {S : Type} (step : S -> bytes -> Z -> step_result S).

(** [while (_to_read == 0)]: the actions run until one wants bytes or
    returns.  [avail] is the room behind the current position in the
    buffer of the allocator. *)
Fixpoint dec_steps (fuel : nat) (d : decoder S) (avail : Z) : option (decoder S * decode_rc) :=
  if negb (dc_to_read d =? 0) then Some (d, RcZero)
  else
    match fuel with
    | O => None
    | Datatypes.S f =>
        match step (dc_next d) (dc_buf d) avail with
        | SNext n s => dec_steps f (Decoder [] n s) avail
        | SMsg m n s => Some (Decoder [] n s, RcMsg m)
        | SFail e => Some (d, RcError e)
        end
    end.

(** No protocol runs more than two actions between two bytes. *)
Definition steps_fuel : nat := 3.

(** The copying loop of [decode]: data not yet used, and [used]. *)
Fixpoint dec_loop (fuel : nat) (d : decoder S) (data : bytes) (used : Z) (slack : Z)
  : option (decoder S * decode_rc * Z) :=
  if Z.of_nat (length data) <=? 0 then Some (d, RcZero, used)
  else
    match fuel with
    | O => None
    | Datatypes.S f =>
        let to_copy := Z.min (dc_to_read d) (Z.of_nat (length data)) in
        let d := Decoder (dc_buf d ++ take (Z.to_nat to_copy) data) (dc_to_read d - to_copy) (dc_next d) in
        let data := drop (Z.to_nat to_copy) data in
        let used := used + to_copy in
        let* (d, rc) := dec_steps steps_fuel d (Z.of_nat (length data) + slack) in
        match rc with
        | RcZero => dec_loop f d data used slack
        | _ => Some (d, rc, used)
        end
    end.

(** [decode]; [in_place] when the data are at [_read_pos], and [slack] the
    room of the buffer behind the data. *)
Definition dec_decode (d : decoder S) (in_place : bool) (data : bytes) (slack : Z)
  : option (decoder S * decode_rc * Z) :=
  if in_place then
    zmq_assert (Z.of_nat (length data) <=? dc_to_read d) ;;
    let d := Decoder (dc_buf d ++ data) (dc_to_read d - Z.of_nat (length data)) (dc_next d) in
    let* (d, rc) := dec_steps steps_fuel d slack in
    Some (d, rc, Z.of_nat (length data))
  else dec_loop (length data) d data 0 slack.

(** [get_buffer]: whether the caller reads into the message itself, and
    how many bytes it may read. *)
Definition dec_get_buffer (d : decoder S) (a : allocator) : allocator * bool * Z :=
  let a := al_allocate a in
  if al_size a <=? dc_to_read d then (a, true, dc_to_read d) else (a, false, al_size a).

(** The loop [while (_insize > 0)] of [in_event_internal], for a session
    that accepts every message: the messages, and the error that stops
    the engine.  A message read in place ends the data. *)
Fixpoint engine_feed (fuel : nat) (d : decoder S) (in_place : bool) (data : bytes) (slack : Z)
  : option (decoder S * list frame * option errno) :=
  if Z.of_nat (length data) <=? 0 then Some (d, [], None)
  else
    match fuel with
    | O => None
    | Datatypes.S f =>
        let* (d, rc, processed) := dec_decode d in_place data slack in
        zmq_assert (processed <=? Z.of_nat (length data)) ;;
        match rc with
        | RcZero => Some (d, [], None)
        | RcError e => Some (d, [], Some e)
        | RcMsg m =>
            let* (d, ms, e) := engine_feed f d false (drop (Z.to_nat processed) data) slack in
            Some (d, m :: ms, e)
        end
    end.

(** [in_event_internal] with an empty buffer: the network has [stream] and
    hands over at most [limit] bytes, at least one. *)
Definition engine_read (d : decoder S) (a : allocator) (stream : bytes) (limit : Z)
  : option (decoder S * allocator * bytes * list frame * option errno) :=
  let '(a, in_place, bufsize) := dec_get_buffer d a in
  let rc := Z.min (Z.max 1 limit) (Z.min bufsize (Z.of_nat (length stream))) in
  let data := take (Z.to_nat rc) stream in
  let a := al_resize a rc in
  let* (d, ms, e) := engine_feed (Datatypes.S (length data)) d in_place data 0 in
  Some (d, a, drop (Z.to_nat rc) stream, ms, e).

Fixpoint engine_run (d : decoder S) (a : allocator) (stream : bytes) (limits : list Z)
  : option (decoder S * allocator * bytes * list frame * option errno) :=
  match limits, stream with
  | limit :: limits', _ :: _ =>
      let* (d, a, stream, ms, e) := engine_read d a stream limit in
      match e with
      | Some _ => Some (d, a, stream, ms, e)
      | None =>
          let* (d, a, stream, ms', e) := engine_run d a stream limits' in
          Some (d, a, stream, ms ++ ms', e)
      end
  | _, _ => Some (d, a, stream, [], None)
  end.

(** ** One byte at a time *)

Definition dec_byte (d : decoder S) (b avail : Z) : option (decoder S * decode_rc) :=
  dec_steps steps_fuel (Decoder (dc_buf d ++ [b]) (dc_to_read d - 1) (dc_next d)) avail.

Fixpoint dec_bytes (d : decoder S) (l : list (Z * Z)) : option (decoder S * list frame * option errno) :=
  match l with
  | [] => Some (d, [], None)
  | (b, avail) :: l' =>
      let* (d, rc) := dec_byte d b avail in
      match rc with
      | RcZero => dec_bytes d l'
      | RcError e => Some (d, [], Some e)
      | RcMsg m => let* (d, ms, e) := dec_bytes d l' in Some (d, m :: ms, e)
      end
  end.

(** The errors of a decoder are those of its actions. *)
Lemma dec_bytes_error l : forall d d' ms e, dec_bytes d l = Some (d', ms, Some e) -> exists s b a, step s b a = SFail e.
Proof.
  assert (forall fuel d a d' e, dec_steps fuel d a = Some (d', RcError e) -> exists s b a, step s b a = SFail e) as Hsteps.
  { induction fuel as [|fuel IH]; intros d a d' e; cbn [dec_steps]; destruct (negb _); try done.
    destruct (step (dc_next d) (dc_buf d) a) as [n s|m n s|e'] eqn:E; [by apply IH|done|intros [= _ <-]; by eauto]. }
  induction l as [|[b a] l IH]; intros d d' ms e; cbn [dec_bytes]; [done|].
  destruct (dec_byte d b a) as [[d1 rc]|] eqn:E; [|done]. cbn [mbind option_bind]. destruct rc as [|m|e1].
  - apply IH.
  - destruct (dec_bytes d1 l) as [[[d2 ms2] e2]|] eqn:E2; [|done]. intros [= _ _ ->]. by eapply IH.
  - intros [= _ _ <-]. by eapply Hsteps.
Qed.

(** ** Chunks do not matter *)

(** What the actions of a protocol guarantee: the next step wants at least
    one byte, or is a body of size 0 whose action does. *)
Definition wants_bytes (r : step_result S) : Prop :=
  match r with SNext n _ => 1 <= n | SMsg _ n _ => 1 <= n | SFail _ => True end.

Hypothesis step_progress : forall s b a,
  wants_bytes (step s b a) \/ exists s', step s b a = SNext 0 s' /\ wants_bytes (step s' [] a).

Definition dec_ok (d : decoder S) : Prop := 1 <= dc_to_read d.

Lemma dec_steps_ok d a : 0 <= dc_to_read d ->
  exists d' rc, dec_steps steps_fuel d a = Some (d', rc) /\
    (match rc with RcError _ => True | _ => dec_ok d' end).
Proof.
  intros Hd. unfold steps_fuel, dec_ok. cbn [dec_steps].
  destruct (dc_to_read d =? 0) eqn:E; bool_prop; cbn [negb]; [|eexists _, _; split; [done|]; simpl; lia].
  destruct (step_progress (dc_next d) (dc_buf d) a) as [H|(s' & Hs & H)].
  - destruct (step (dc_next d) (dc_buf d) a) as [n s'|m n s'|e]; cbn [wants_bytes] in H.
    + cbn [dc_to_read]. rewrite (proj2 (Z.eqb_neq n 0)) by lia. by eexists _, _.
    + by eexists _, _.
    + by eexists _, _.
  - rewrite Hs. cbn [dc_to_read dc_next dc_buf Z.eqb negb].
    destruct (step s' [] a) as [n s''|m n s''|e]; cbn [wants_bytes] in H.
    + cbn [dc_to_read]. rewrite (proj2 (Z.eqb_neq n 0)) by lia. by eexists _, _.
    + by eexists _, _.
    + by eexists _, _.
Qed.

(** Bytes short of what the decoder wants are only collected. *)
Lemma dec_bytes_collect l : forall d, Z.of_nat (length l) < dc_to_read d ->
  dec_bytes d l = Some (Decoder (dc_buf d ++ l.*1) (dc_to_read d - Z.of_nat (length l)) (dc_next d), [], None).
Proof.
  induction l as [|[b a] l IH]; intros d Hl; cbn [dec_bytes length] in *.
  - rewrite fmap_nil, app_nil_r, Z.sub_0_r. by destruct d.
  - unfold dec_byte, steps_fuel. cbn [dec_steps dc_to_read]. rewrite (proj2 (Z.eqb_neq _ 0)) by lia.
    cbn [negb mbind option_bind]. rewrite IH by (cbn [dc_to_read]; lia). cbn [dc_buf dc_to_read dc_next].
    rewrite fmap_cons, <- app_assoc. simpl. do 3 f_equal. f_equal. lia.
Qed.

(** The last byte of a step runs the actions. *)
Lemma dec_bytes_step d l b a l' : Z.of_nat (length l) + 1 = dc_to_read d ->
  dec_bytes d (l ++ (b, a) :: l') =
  (let* (d', rc) := dec_steps steps_fuel (Decoder (dc_buf d ++ l.*1 ++ [b]) 0 (dc_next d)) a in
   match rc with
   | RcZero => dec_bytes d' l'
   | RcError e => Some (d', [], Some e)
   | RcMsg m => let* (d, ms, e) := dec_bytes d' l' in Some (d, m :: ms, e)
   end).
Proof.
  intros Hl. assert (forall l d, Z.of_nat (length l) < dc_to_read d -> forall r,
    dec_bytes d (l ++ r) = dec_bytes (Decoder (dc_buf d ++ l.*1) (dc_to_read d - Z.of_nat (length l)) (dc_next d)) r) as Hpre.
  { clear. induction l as [|[b a] l IH]; intros d Hl r; cbn [app].
    - rewrite fmap_nil, app_nil_r, Z.sub_0_r. by destruct d.
    - cbn [dec_bytes]. unfold dec_byte, steps_fuel. cbn [dec_steps dc_to_read length] in *.
      rewrite (proj2 (Z.eqb_neq _ 0)) by lia. cbn [negb mbind option_bind].
      rewrite IH by (cbn [dc_to_read]; lia). cbn [dc_buf dc_to_read dc_next].
      rewrite fmap_cons, <- app_assoc. simpl. do 2 f_equal. lia. }
  rewrite Hpre by lia. cbn [dec_bytes]. unfold dec_byte. cbn [dc_buf dc_to_read dc_next].
  rewrite <- app_assoc. by replace (dc_to_read d - Z.of_nat (length l) - 1) with 0 by lia.
Qed.

Lemma dec_bytes_app l1 : forall d l2, dec_bytes d (l1 ++ l2) =
  (let* (d1, ms1, e) := dec_bytes d l1 in
   match e with
   | Some _ => Some (d1, ms1, e)
   | None => let* (d2, ms2, e2) := dec_bytes d1 l2 in Some (d2, ms1 ++ ms2, e2)
   end).
Proof.
  induction l1 as [|[b a] l1 IH]; intros d l2; cbn [app dec_bytes mbind option_bind].
  { by destruct (dec_bytes d l2) as [[[? ?] ?]|]. }
  destruct (dec_byte d b a) as [[d1 rc]|]; [|done]. cbn [mbind option_bind]. destruct rc as [|m|e]; [done| |done].
  rewrite IH. destruct (dec_bytes d1 l1) as [[[d2 ms] [e|]]|]; cbn [mbind option_bind]; try done.
  destruct (dec_bytes d2 l2) as [[[d3 ms3] e3]|]; done.
Qed.

(** The bytes of a whole step, with any room behind each of them. *)
Lemma dec_bytes_chunk d c avs l' : Z.of_nat (length c) = dc_to_read d -> 1 <= dc_to_read d ->
  length avs = length c -> exists a,
  dec_bytes d (zip c avs ++ l') =
  (let* (d', rc) := dec_steps steps_fuel (Decoder (dc_buf d ++ c) 0 (dc_next d)) a in
   match rc with
   | RcZero => dec_bytes d' l'
   | RcError e => Some (d', [], Some e)
   | RcMsg m => let* (d, ms, e) := dec_bytes d' l' in Some (d, m :: ms, e)
   end).
Proof.
  intros Hc H1 Ha. destruct c as [|b c _] using rev_ind; [simpl in Hc; lia|].
  destruct avs as [|a avs _] using rev_ind; [rewrite length_app in Ha; simpl in Ha; lia|].
  rewrite !length_app in *. simpl in *. exists a.
  rewrite zip_with_app by lia. cbn [zip_with]. rewrite <- app_assoc. cbn [app].
  rewrite dec_bytes_step by (rewrite length_zip_with; lia). by rewrite fst_zip by lia.
Qed.

Definition rc_out (rc : decode_rc) : list frame * option errno :=
  match rc with RcZero => ([], None) | RcMsg m => ([m], None) | RcError e => ([], Some e) end.

(** Exactly the bytes the decoder wants. *)
Lemma dec_bytes_exact d c a : dec_ok d -> Z.of_nat (length c) = dc_to_read d ->
  exists avs, length avs = length c /\
    dec_bytes d (zip c avs) =
    (let* (d', rc) := dec_steps steps_fuel (Decoder (dc_buf d ++ c) 0 (dc_next d)) a in
     Some (d', (rc_out rc).1, (rc_out rc).2)).
Proof.
  intros Hok Hc. unfold dec_ok in Hok. destruct c as [|b c _] using rev_ind; [simpl in Hc; lia|].
  rewrite length_app in *. simpl in Hc. exists (replicate (length c) 0 ++ [a]). split.
  { by rewrite length_app, length_replicate. }
  rewrite zip_with_app by (by rewrite length_replicate). cbn [zip_with].
  assert (length (zip c (replicate (length c) 0)) = length c) as Hl.
  { rewrite length_zip_with, length_replicate. lia. }
  rewrite dec_bytes_step by (rewrite Hl; lia).
  rewrite fst_zip by (rewrite length_replicate; lia).
  destruct (dec_steps _ _ _) as [[d' rc]|]; [|done]. cbn [mbind option_bind]. by destruct rc.
Qed.

Lemma dec_loop_spec fuel : forall d data used slack, dec_ok d -> (length data <= fuel)%nat ->
  exists d' rc n avs, dec_loop fuel d data used slack = Some (d', rc, used + Z.of_nat n) /\
    (n <= length data)%nat /\ (data <> [] -> 1 <= n)%nat /\ length avs = n /\
    (match rc with RcZero => n = length data /\ dec_ok d' | RcMsg _ => dec_ok d' | RcError _ => True end) /\
    dec_bytes d (zip (take n data) avs) = Some (d', (rc_out rc).1, (rc_out rc).2).
Proof.
  assert (forall d used, dec_ok d -> exists d' rc n avs, Some (d, RcZero, used) = Some (d', rc, used + Z.of_nat n) /\
    (n <= @length Z [])%nat /\ (@nil Z <> [] -> 1 <= n)%nat /\ length avs = n /\
    (match rc with RcZero => n = @length Z [] /\ dec_ok d' | RcMsg _ => dec_ok d' | RcError _ => True end) /\
    dec_bytes d (zip (take n []) avs) = Some (d', (rc_out rc).1, (rc_out rc).2)) as Hnil.
  { intros d used Hd. exists d, RcZero, 0%nat, []. rewrite Z.add_0_r. done. }
  induction fuel as [|fuel IH]; intros d data used slack Hd Hf; cbn [dec_loop].
  { destruct data; [|simpl in Hf; lia]. apply Hnil. done. }
  destruct data as [|b0 data0] eqn:Ed; [apply Hnil; done|]. rewrite <- Ed in *. clear Hnil.
  assert (1 <= length data)%nat as Hlen by (subst; simpl; lia).
  rewrite (proj2 (Z.leb_gt _ _)) by lia. unfold dec_ok in Hd.
  set (k := Z.to_nat (Z.min (dc_to_read d) (Z.of_nat (length data)))).
  assert (1 <= k <= length data)%nat as Hk by lia.
  assert (length (take k data) = k) as Htk by (rewrite length_take; lia).
  assert (Z.min (dc_to_read d) (Z.of_nat (length data)) = Z.of_nat k) as -> by lia.
  set (avail := Z.of_nat (length (drop k data)) + slack).
  destruct (decide (Z.of_nat k < dc_to_read d)) as [Hlt|Hge].
  - assert (k = length data) as Ek by lia.
    replace (dec_steps steps_fuel (Decoder (dc_buf d ++ take k data) (dc_to_read d - Z.of_nat k) (dc_next d)) avail)
      with (Some (Decoder (dc_buf d ++ take k data) (dc_to_read d - Z.of_nat k) (dc_next d), RcZero)).
    2:{ unfold steps_fuel. cbn [dec_steps dc_to_read]. by rewrite (proj2 (Z.eqb_neq _ 0)) by lia. }
    cbn [mbind option_bind]. rewrite (drop_ge data k) by lia.
    assert (forall f d' u, dec_loop f d' [] u slack = Some (d', RcZero, u)) as Hl0 by by intros [].
    rewrite Hl0. eexists _, _, k, (replicate k 0). split; [done|].
    split_and!; try done; try lia; try apply length_replicate.
    + unfold dec_ok. simpl. lia.
    + rewrite dec_bytes_collect by (rewrite length_zip_with, length_replicate, Htk; lia).
      rewrite fst_zip by (rewrite length_replicate; lia).
      rewrite length_zip_with, length_replicate, Htk, Nat.min_id. done.
  - assert (Z.of_nat k = dc_to_read d) as Ek by lia.
    replace (dc_to_read d - Z.of_nat k) with 0 by lia.
    destruct (dec_bytes_exact d (take k data) avail Hd) as (avs & Havs & Hrun); [lia|].
    destruct (dec_steps_ok (Decoder (dc_buf d ++ take k data) 0 (dc_next d)) avail) as (d1 & rc & Hst & Hok1); [done|].
    rewrite Hst in *. cbn [mbind option_bind] in *. destruct rc as [|m|e].
    + destruct (IH d1 (drop k data) (used + Z.of_nat k) slack Hok1) as (d' & rc & n & avs' & -> & Hn & Hn1 & Hav' & Hrc & Hrun').
      { rewrite length_drop. lia. }
      rewrite length_drop in *. exists d', rc, (k + n)%nat, (avs ++ avs').
      split_and!; try lia.
      * by rewrite Nat2Z.inj_add, Z.add_assoc.
      * rewrite length_app. lia.
      * destruct rc; try done. split; [lia|apply Hrc].
      * rewrite <- take_take_drop, zip_with_app by lia. rewrite dec_bytes_app, Hrun.
        cbn [mbind option_bind rc_out fst snd]. rewrite Hrun'. cbn [mbind option_bind]. done.
    + exists d1, (RcMsg m), k, avs. split_and!; try done; lia.
    + exists d1, (RcError e), k, avs. split_and!; try done; lia.
Qed.

(** One call of [decode] is the decoding of the bytes it uses. *)
Lemma dec_decode_spec d ip data slack : dec_ok d -> data <> [] -> (ip = true -> Z.of_nat (length data) <= dc_to_read d) ->
  exists d' rc n avs, dec_decode d ip data slack = Some (d', rc, Z.of_nat n) /\
    (n <= length data)%nat /\ (1 <= n)%nat /\ length avs = n /\
    (match rc with RcZero => n = length data /\ dec_ok d' | RcMsg _ => dec_ok d' | RcError _ => True end) /\
    dec_bytes d (zip (take n data) avs) = Some (d', (rc_out rc).1, (rc_out rc).2).
Proof.
  intros Hd Hne Hip. assert (1 <= length data)%nat as Hlen by (destruct data; [done|simpl; lia]).
  unfold dec_decode. destruct ip.
  - specialize (Hip eq_refl). rewrite (proj2 (Z.leb_le _ _)) by done. unfold dec_ok in Hd.
    destruct (decide (Z.of_nat (length data) < dc_to_read d)) as [Hlt|Hge].
    + unfold steps_fuel. cbn [dec_steps dc_to_read]. rewrite (proj2 (Z.eqb_neq _ 0)) by lia.
      cbn [negb mbind option_bind]. eexists _, _, (length data), (replicate (length data) 0). split; [done|].
      split_and!; try done; try lia; try apply length_replicate.
      * unfold dec_ok. simpl. lia.
      * rewrite take_ge by lia. rewrite dec_bytes_collect by (rewrite length_zip_with, length_replicate; lia).
        rewrite fst_zip by (rewrite length_replicate; lia).
        rewrite length_zip_with, length_replicate, Nat.min_id. done.
    + replace (dc_to_read d - Z.of_nat (length data)) with 0 by lia.
      destruct (dec_bytes_exact d data slack Hd) as (avs & Havs & Hrun); [lia|].
      destruct (dec_steps_ok (Decoder (dc_buf d ++ data) 0 (dc_next d)) slack) as (d1 & rc & Hst & Hok1); [done|].
      rewrite Hst in *. cbn [mbind option_bind] in *. eexists _, _, (length data), avs. split; [done|].
      rewrite take_ge by lia. split_and!; try done; try lia. by destruct rc.
  - destruct (dec_loop_spec (length data) d data 0 slack Hd) as (d' & rc & n & avs & -> & ? & Hn1 & ? & ? & ?); [lia|].
    exists d', rc, n, avs. split_and!; try done. by apply Hn1.
Qed.

(** The engine's loop on a chunk is the decoding of its bytes. *)
Lemma engine_feed_spec fuel : forall d ip data slack, dec_ok d -> (length data <= fuel)%nat ->
  (ip = true -> Z.of_nat (length data) <= dc_to_read d) ->
  exists avs d' ms e, length avs = length data /\
    engine_feed fuel d ip data slack = Some (d', ms, e) /\ (e = None -> dec_ok d') /\
    dec_bytes d (zip data avs) = Some (d', ms, e).
Proof.
  induction fuel as [|fuel IH]; intros d ip data slack Hd Hf Hip; cbn [engine_feed].
  { destruct data; [|simpl in Hf; lia]. exists [], d, [], None. done. }
  destruct data as [|b0 data0] eqn:Ed; [by exists [], d, [], None|]. rewrite <- Ed in *.
  assert (1 <= length data)%nat as Hlen by (subst; simpl; lia).
  rewrite (proj2 (Z.leb_gt _ _)) by lia.
  destruct (dec_decode_spec d ip data slack Hd ltac:(by subst) Hip) as (d' & rc & n & avs & -> & Hn & Hn1 & Havs & Hrc & Hrun).
  cbn [mbind option_bind]. rewrite (proj2 (Z.leb_le _ _)) by lia. destruct rc as [|m|e].
  - destruct Hrc as [-> Hok']. rewrite take_ge in Hrun by lia. by exists avs, d', [], None.
  - rewrite Nat2Z.id. destruct (IH d' false (drop n data) slack Hrc) as (avs' & d2 & ms & e & Hav' & -> & Hok2 & Hrun').
    { rewrite length_drop. lia. }
    { done. }
    cbn [mbind option_bind]. exists (avs ++ avs'), d2, (m :: ms), e. split_and!; try done.
    + rewrite length_app, Hav', length_drop. lia.
    + rewrite <- (take_drop n data) at 1. rewrite zip_with_app by (rewrite length_take; lia).
      rewrite dec_bytes_app, Hrun. cbn [mbind option_bind rc_out fst snd]. by rewrite Hrun'.
  - exists (avs ++ replicate (length data - n) 0), d', [], (Some e). split_and!; try done.
    + rewrite length_app, length_replicate. lia.
    + rewrite <- (take_drop n data) at 1. rewrite zip_with_app by (rewrite length_take; lia).
      rewrite dec_bytes_app, Hrun. done.
Qed.

(** A whole connection: whatever the sizes of the reads, the bytes of the
    stream are decoded one after the other, up to an error. *)
Lemma engine_run_spec limits : forall d a stream, dec_ok d -> 1 <= al_size a -> 1 <= al_max a ->
  (length stream <= length limits)%nat ->
  exists avs d' a' rest ms e, length avs = length stream /\
    engine_run d a stream limits = Some (d', a', rest, ms, e) /\ (e = None -> rest = []) /\
    dec_bytes d (zip stream avs) = Some (d', ms, e).
Proof.
  induction limits as [|limit limits IH]; intros d a stream Hd Ha Ham Hl; cbn [engine_run].
  { destruct stream; [|simpl in Hl; lia]. by exists [], d, a, [], [], None. }
  destruct stream as [|b0 stream0] eqn:Es; [by exists [], d, a, [], [], None|]. rewrite <- Es in *.
  assert (1 <= length stream)%nat as Hlen by (subst; simpl; lia). cbn [length] in Hl.
  unfold engine_read, dec_get_buffer.
  assert (1 <= al_size (al_allocate a) /\ 1 <= al_max (al_allocate a)) as [Ha1 Ham1]
    by (unfold al_allocate; destruct (al_shared a); simpl; lia).
  set (a1 := al_allocate a) in *.
  assert (exists ip bufsize, (if al_size a1 <=? dc_to_read d then (a1, true, dc_to_read d) else (a1, false, al_size a1))
    = (a1, ip, bufsize) /\ 1 <= bufsize /\ (ip = true -> bufsize = dc_to_read d)) as (ip & bufsize & -> & Hb & Hip).
  { unfold dec_ok in Hd. destruct (al_size a1 <=? dc_to_read d); eexists _, _; split; done || lia. }
  set (n := Z.to_nat (Z.min (Z.max 1 limit) (Z.min bufsize (Z.of_nat (length stream))))).
  assert (Z.min (Z.max 1 limit) (Z.min bufsize (Z.of_nat (length stream))) = Z.of_nat n) as -> by lia.
  assert (1 <= n <= length stream)%nat as Hn by lia.
  destruct (engine_feed_spec (Datatypes.S (length (take n stream))) d ip (take n stream) 0 Hd)
    as (avs & d' & ms & e & Havs & -> & Hok & Hrun); [lia| |].
  { intros E. rewrite length_take. specialize (Hip E). lia. }
  rewrite length_take in Havs. cbn [mbind option_bind].
  assert (forall l : list Z, zip stream l = zip (take n stream ++ drop n stream) l) as Hz by by intros; rewrite take_drop.
  destruct e as [e|].
  - exists (avs ++ replicate (length stream - n) 0), d', (al_resize a1 (Z.of_nat n)), (drop n stream), ms, (Some e).
    split_and!; try done.
    + rewrite length_app, length_replicate. lia.
    + rewrite Hz, zip_with_app by (rewrite length_take; lia). rewrite dec_bytes_app, Hrun. done.
  - destruct (IH d' (al_resize a1 (Z.of_nat n)) (drop n stream)) as (avs' & d2 & a2 & rest & ms' & e & Hav' & -> & Hrest & Hrun').
    { by apply Hok. }
    { simpl. lia. }
    { done. }
    { rewrite length_drop. lia. }
    cbn [mbind option_bind]. exists (avs ++ avs'), d2, a2, rest, (ms ++ ms'), e. split_and!; try done.
    + rewrite length_app, Hav', length_drop. lia.
    + rewrite Hz, zip_with_app by (rewrite length_take; lia). rewrite dec_bytes_app, Hrun.
      cbn [mbind option_bind]. by rewrite Hrun'.
Qed.

(** ** The bytes of one message *)

(** From [d] the bytes [l] make one message, [P] of it, and the decoder is [d0] again. *)
Definition dec_message (d0 d : decoder S) (l : bytes) (P : frame -> Prop) : Prop :=
  forall avs rest, length avs = length l -> exists g, P g /\
    dec_bytes d (zip l avs ++ rest) = (let* (d', ms, e) := dec_bytes d0 rest in Some (d', g :: ms, e)).

(** A step whose bytes are [c] and that wants more. *)
Lemma dec_message_step d0 s n c l P : Z.of_nat (length c) = n -> 1 <= n ->
  (forall a, exists n' s', step s c a = SNext n' s' /\
     ((n' = 0 /\ l = [] /\ exists g, step s' [] a = SMsg g (dc_to_read d0) (dc_next d0) /\ P g) \/
      (1 <= n' /\ dec_message d0 (Decoder [] n' s') l P))) ->
  dc_buf d0 = [] -> dec_message d0 (Decoder [] n s) (c ++ l) P.
Proof.
  intros Hc Hn Hs Hd0 avs rest Ha. rewrite length_app in Ha. rewrite <- (take_drop (length c) avs).
  rewrite zip_with_app by (rewrite length_take; lia). rewrite <- app_assoc.
  destruct (dec_bytes_chunk (Decoder [] n s) c (take (length c) avs) (zip l (drop (length c) avs) ++ rest)) as (a & ->); [done|done|rewrite length_take; lia|].
  destruct (Hs a) as (n' & s' & E & Hcase). unfold steps_fuel. cbn [dec_steps dc_to_read dc_next dc_buf Z.eqb negb app]. rewrite E. cbn [dc_to_read].
  destruct Hcase as [(-> & -> & g & Eg & Hg)|[Hn' Hrec]].
  - cbn [Z.eqb negb dc_next dc_buf]. rewrite Eg. cbn [mbind option_bind zip_with app]. exists g. split; [done|]. destruct d0. simpl in *. by subst.
  - rewrite (proj2 (Z.eqb_neq n' 0)) by lia. cbn [negb mbind option_bind]. apply Hrec. rewrite length_drop. lia.
Qed.

(** The body of a message. *)
Lemma dec_message_last d0 s n c P : Z.of_nat (length c) = n -> 1 <= n ->
  (forall a, exists g, step s c a = SMsg g (dc_to_read d0) (dc_next d0) /\ P g) -> dc_buf d0 = [] -> dec_message d0 (Decoder [] n s) c P.
Proof.
  intros Hc Hn Hs Hd0 avs rest Ha. destruct (dec_bytes_chunk (Decoder [] n s) c avs rest) as (a & ->); [done|done|done|].
  destruct (Hs a) as (g & E & Hg). unfold steps_fuel. cbn [dec_steps dc_to_read dc_next dc_buf Z.eqb negb app]. rewrite E.
  cbn [mbind option_bind]. exists g. split; [done|]. destruct d0. simpl in *. by subst.
Qed.

(** Messages one after the other. *)
Lemma dec_messages d0 (fs : list (bytes * (frame -> Prop))) : Forall (fun p => dec_message d0 d0 p.1 p.2) fs -> forall avs,
  length avs = length (concat fs.*1) -> exists ms, Forall2 (fun p g => p.2 g) fs ms /\ dec_bytes d0 (zip (concat fs.*1) avs) = Some (d0, ms, None).
Proof.
  induction 1 as [|[l P] fs Hd _ IH]; intros avs Ha; [exists []; split; [constructor|by destruct avs]|].
  cbn [fmap list_fmap concat fst] in *. rewrite length_app in Ha. rewrite <- (take_drop (length l) avs), zip_with_app by (rewrite length_take; lia).
  destruct (Hd (take (length l) avs) (zip (concat fs.*1) (drop (length l) avs))) as (g & Hg & E); [rewrite length_take; lia|].
  destruct (IH (drop (length l) avs)) as (ms & Hms & E2); [rewrite length_drop; lia|]. exists (g :: ms). split; [by constructor|]. simpl in E. by rewrite E, E2.
Qed.
End decoder.

(** ** Encoders *)

(** The state of [encoder_base_t]: the [_to_write] bytes at [_write_pos],
    the action to run next, [_new_msg_flag] and [_in_progress]. *)
Record encoder (S : Type) := Encoder {
  en_write : bytes;
  en_next : S;
  en_new_msg : bool;
  en_msg : option frame;
}.
Arguments Encoder {S}.
Arguments en_write {S}.
Arguments en_next {S}.
Arguments en_new_msg {S}.
Arguments en_msg {S}.

Section encoder.
Context {S : Type} (estep : S -> frame -> bytes * S * bool).

(** [(this->*_next) ()] *)
Definition enc_step (e : encoder S) (f : frame) : encoder S :=
  let '(w, s, b) := estep (en_next e) f in Encoder w s b (en_msg e).

Definition enc_load_msg (e : encoder S) (f : frame) : option (encoder S) :=
  match en_msg e with
  | Some _ => None
  | None => Some (enc_step (Encoder (en_write e) (en_next e) (en_new_msg e) (Some f)) f)
  end.

(** The loop of [encode]; [out] is what is in the buffer, [own] that the
    encoder's own buffer is used. *)
Fixpoint enc_loop (fuel : nat) (e : encoder S) (f : frame) (out : bytes) (own : bool) (bufsize : Z)
  : option (bytes * encoder S) :=
  if bufsize <=? Z.of_nat (length out) then Some (out, e)
  else
    match fuel with
    | O => None
    | Datatypes.S fuel' =>
        if (Z.of_nat (length (en_write e)) =? 0) && en_new_msg e then
          Some (out, Encoder (en_write e) (en_next e) (en_new_msg e) None)
        else
          let e := if Z.of_nat (length (en_write e)) =? 0 then enc_step e f else e in
          if (Z.of_nat (length out) =? 0) && own && (bufsize <=? Z.of_nat (length (en_write e))) then
            Some (en_write e, Encoder [] (en_next e) (en_new_msg e) (en_msg e))
          else
            let to_copy := Z.min (Z.of_nat (length (en_write e))) (bufsize - Z.of_nat (length out)) in
            enc_loop fuel'
              (Encoder (drop (Z.to_nat to_copy) (en_write e)) (en_next e) (en_new_msg e) (en_msg e)) f
              (out ++ take (Z.to_nat to_copy) (en_write e)) own bufsize
    end.

(** A message has at most two pieces, so that four turns are enough. *)
Definition enc_fuel : nat := 4.

Definition enc_encode (e : encoder S) (own : bool) (bufsize : Z) : option (bytes * encoder S) :=
  match en_msg e with
  | None => Some ([], e)
  | Some f => enc_loop enc_fuel e f [] own bufsize
  end.

(** ** What is left to write *)

Definition en_rest (e : encoder S) : bytes :=
  match en_msg e with
  | None => []
  | Some f => en_write e ++ if en_new_msg e then [] else (estep (en_next e) f).1.1
  end.

(** The state after a message that begins in state [s]: a message has one
    or two pieces. *)
Definition enc_after (s : S) (f : frame) : S :=
  if (estep s f).2 then (estep s f).1.2 else (estep (estep s f).1.2 f).1.2.

(** The encoding of one message, and of several. *)
Definition enc_wire (s : S) (f : frame) : bytes :=
  (estep s f).1.1 ++ (if (estep s f).2 then [] else (estep (estep s f).1.2 f).1.1).

Fixpoint enc_wires (s : S) (fs : list frame) : bytes :=
  match fs with [] => [] | f :: fs' => enc_wire s f ++ enc_wires (enc_after s f) fs' end.

(** The states in which a message begins. *)
Context (starts : S -> Prop).
Hypothesis two_pieces : forall s f, starts s -> (estep s f).2 = false -> (estep (estep s f).1.2 f).2 = true.
Hypothesis last_piece : forall s f, starts s -> starts (enc_after s f).

(** [s] is the state that the encoder will be in after the message. *)
Record enc_ok (s : S) (e : encoder S) : Prop := {
  eo_start : en_new_msg e = true -> en_next e = s;
  eo_idle : en_msg e = None -> en_new_msg e = true;
  eo_body f : en_msg e = Some f -> en_new_msg e = false -> (estep (en_next e) f).2 = true /\ (estep (en_next e) f).1.2 = s;
}.

Lemma enc_load_msg_ok s e f : starts s -> enc_ok s e -> en_msg e = None ->
  exists e', enc_load_msg e f = Some e' /\ en_msg e' = Some f /\ enc_ok (enc_after s f) e' /\ en_rest e' = enc_wire s f.
Proof.
  intros Hs [H1 H2 H3] Hm. unfold enc_load_msg. rewrite Hm. eexists. split; [done|].
  pose proof (two_pieces s f Hs) as Ht. unfold enc_step, enc_wire, enc_after, en_rest. cbn [en_next en_msg].
  rewrite (H1 (H2 Hm)). destruct (estep s f) as [[w s1] b]. cbn [en_msg en_write en_next en_new_msg fst snd] in *. split_and!; try done.
  constructor; cbn [en_msg en_new_msg en_next]; [by intros ->|done|]. intros f' [= <-] ->. split; [by apply Ht|done].
Qed.

Lemma enc_step_rest s0 e f : en_msg e = Some f -> en_write e = [] -> en_new_msg e = false -> enc_ok s0 e ->
  en_rest (enc_step e f) = en_rest e /\ en_new_msg (enc_step e f) = true /\
  en_msg (enc_step e f) = Some f /\ enc_ok s0 (enc_step e f).
Proof.
  intros Hm Hw Hb [_ _ H3]. specialize (H3 f Hm Hb) as [H3 Hl].
  unfold enc_step, en_rest. destruct (estep (en_next e) f) as [[w s] b] eqn:E.
  cbn [en_msg en_write en_new_msg fst snd] in *. subst. rewrite Hm, Hw, Hb. split_and!; try done.
  - rewrite E. cbn [app fst]. by rewrite app_nil_r.
Qed.

Section one_message.
Context (s0 : S).

(** The turns the loop needs. *)
Definition enc_turns (e : encoder S) : nat :=
  (if en_new_msg e then 1 else 2) + (if Z.of_nat (length (en_write e)) =? 0 then 0 else 1).

Definition enc_loop_result (e : encoder S) (f : frame) (out : bytes) (bufsize : Z) (out' : bytes) (e' : encoder S) : Prop :=
  enc_ok s0 e' /\ (en_msg e' = Some f \/ en_msg e' = None) /\
  out' ++ en_rest e' = out ++ en_rest e /\ (length out <= length out')%nat /\
  (Z.of_nat (length out) < bufsize -> en_rest e <> [] -> (length out < length out')%nat) /\
  (Z.of_nat (length out) < bufsize -> en_rest e = [] -> en_msg e' = None).

Lemma enc_loop_spec own bufsize fuel : forall e f out, en_msg e = Some f -> enc_ok s0 e -> 1 <= bufsize ->
  (enc_turns e <= fuel)%nat ->
  exists out' e', enc_loop fuel e f out own bufsize = Some (out', e') /\ enc_loop_result e f out bufsize out' e'.
Proof.
  assert (forall fuel e f out, en_msg e = Some f -> enc_ok s0 e -> bufsize <= Z.of_nat (length out) ->
    exists out' e', enc_loop fuel e f out own bufsize = Some (out', e') /\ enc_loop_result e f out bufsize out' e') as Hfull.
  { intros fuel' e f out Hm Hok Hf. exists out, e. destruct fuel'; cbn [enc_loop]; rewrite (proj2 (Z.leb_le _ _)) by done;
      (split; [done|]); (split_and!; [done|by left|done|done|lia|lia]). }
  induction fuel as [|fuel IH]; intros e f out Hm Hok Hb Hf.
  { unfold enc_turns in Hf. destruct (en_new_msg e); lia. }
  destruct (decide (bufsize <= Z.of_nat (length out))) as [|Hlt]; [by apply Hfull|].
  cbn [enc_loop]. rewrite (proj2 (Z.leb_gt _ _)) by lia.
  (* The state after the action, when there was nothing left to write. *)
  assert (((Z.of_nat (length (en_write e)) =? 0) && en_new_msg e = true /\ en_write e = [] /\ en_new_msg e = true) \/
    ((Z.of_nat (length (en_write e)) =? 0) && en_new_msg e = false /\
     let e1 := if Z.of_nat (length (en_write e)) =? 0 then enc_step e f else e in
     en_rest e1 = en_rest e /\ en_msg e1 = Some f /\ enc_ok s0 e1 /\
     ((if en_new_msg e1 then 1 else 2) <= fuel)%nat /\ (en_write e1 = [] -> en_rest e = [])))
    as [(-> & Hw & Hn)|(-> & Hr & Hm1 & Hok1 & Hf1 & Hw1)].
  { unfold enc_turns in Hf. destruct (en_write e) as [|b w] eqn:Ew; cbn [length Z.of_nat Z.eqb] in *.
    - destruct (en_new_msg e) eqn:En; [by left|right]. split; [done|].
      cbv zeta. change (Z.of_nat 0 =? 0) with true in *. cbv iota in *.
      destruct (enc_step_rest s0 e f Hm Ew En Hok) as (R1 & R2 & R3 & R4). rewrite R1, R2, R3. split_and!; try done; try lia.
      intros Hw. rewrite <- R1. unfold en_rest. by rewrite R3, R2, Hw.
    - right. split; [done|]. cbv zeta. rewrite (proj2 (Z.eqb_neq _ 0)) in * by lia.
      split_and!; try done; [|by rewrite Ew]. destruct (en_new_msg e); lia. }
  { eexists _, _. split; [done|].
    assert (en_rest e = []) as Hr by (unfold en_rest; by rewrite Hm, Hw, Hn).
    split_and!; try done; [|by right|by rewrite Hr].
    destruct Hok as [H1 H2 H3]. constructor; cbn; [done|done|done]. }
  cbv zeta in *. revert Hr Hm1 Hok1 Hf1 Hw1.
  generalize (if Z.of_nat (length (en_write e)) =? 0 then enc_step e f else e) as e1. intros e1 Hr Hm1 Hok1 Hf1 Hw1.
  set (w := en_write e1) in *.
  assert (en_rest e1 = w ++ if en_new_msg e1 then [] else (estep (en_next e1) f).1.1) as Hre
    by (unfold en_rest; by rewrite Hm1).
  assert (forall k, en_rest (Encoder (drop k w) (en_next e1) (en_new_msg e1) (en_msg e1)) =
    drop k w ++ if en_new_msg e1 then [] else (estep (en_next e1) f).1.1) as Hrk
    by (intros k; unfold en_rest; cbn; by rewrite Hm1).
  assert (forall k, enc_ok s0 (Encoder (drop k w) (en_next e1) (en_new_msg e1) (en_msg e1))) as Hokk
    by (intros k; destruct Hok1; by constructor).
  destruct ((Z.of_nat (length out) =? 0) && own && (bufsize <=? Z.of_nat (length w))) eqn:Ez.
  - bool_prop. assert (out = []) as -> by (apply nil_length_inv; lia).
    eexists _, _. split; [done|]. pose proof (Hrk (length w)) as Hr0. pose proof (Hokk (length w)) as Ho0.
    rewrite drop_all in Hr0, Ho0. cbn [app] in Hr0. split_and!.
    + done.
    + by left.
    + rewrite Hr0, <- Hr, Hre. done.
    + simpl. lia.
    + intros _ _. simpl. lia.
    + intros _ Hn. rewrite <- Hr, Hre in Hn. apply app_nil in Hn as [Hn _]. rewrite Hn in *. simpl in *. lia.
  - set (k := Z.to_nat (Z.min (Z.of_nat (length w)) (bufsize - Z.of_nat (length out)))).
    assert (exists out' e', enc_loop fuel (Encoder (drop k w) (en_next e1) (en_new_msg e1) (en_msg e1)) f
      (out ++ take k w) own bufsize = Some (out', e') /\
      enc_loop_result (Encoder (drop k w) (en_next e1) (en_new_msg e1) (en_msg e1)) f (out ++ take k w) bufsize out' e')
      as (out' & e' & Hrun & H1 & H2 & H3 & H4 & H5 & H6).
    { destruct (decide (k = length w)) as [Ek|Ek].
      - apply IH; try done. unfold enc_turns. cbn [en_new_msg en_write]. rewrite Ek, drop_all. simpl. destruct (en_new_msg e1); lia.
      - apply Hfull; try done. rewrite length_app, length_take. lia. }
    rewrite Hrk in *. rewrite length_app, length_take in *. exists out', e'. split; [done|]. split_and!; try done.
    + rewrite H3, <- Hr, Hre, <- app_assoc. f_equal. rewrite app_assoc, take_drop. done.
    + lia.
    + intros _ Hne. assert (w <> []) as Hw by (intros Hw; by apply Hne, Hw1).
      assert (0 < length w)%nat by (destruct w; [done|simpl; lia]). lia.
    + intros _ Hn. rewrite <- Hr, Hre in Hn. apply app_nil in Hn as [Hn0 Hn1]. apply H6.
      * rewrite Hn0. simpl. lia.
      * rewrite Hn1, Hn0. by rewrite drop_nil.
Qed.

(** One call of [encode]. *)
Lemma enc_encode_ok e f own bufsize : en_msg e = Some f -> enc_ok s0 e -> 1 <= bufsize ->
  exists out e', enc_encode e own bufsize = Some (out, e') /\ enc_ok s0 e' /\
    (en_msg e' = Some f \/ en_msg e' = None) /\ out ++ en_rest e' = en_rest e /\
    (en_rest e <> [] -> out <> []) /\ (en_rest e = [] -> en_msg e' = None).
Proof.
  intros Hm Hok Hb. unfold enc_encode. rewrite Hm.
  destruct (enc_loop_spec own bufsize enc_fuel e f [] Hm Hok Hb) as (out & e' & -> & H1 & H2 & H3 & _ & H5 & H6).
  { unfold enc_turns, enc_fuel. destruct (en_new_msg e), (_ =? 0); lia. }
  exists out, e'. split_and!; try done.
  - intros Hne ->. specialize (H5 ltac:(simpl; lia) Hne). simpl in H5. lia.
  - apply H6. simpl. lia.
Qed.
End one_message.

(** A call that leaves room in the buffer has finished its message. *)
Lemma enc_loop_room own bufsize fuel : forall e f out out' e', enc_loop fuel e f out own bufsize = Some (out', e') ->
  Z.of_nat (length out') < bufsize -> en_msg e' = None.
Proof.
  induction fuel as [|fuel IH]; intros e f out out' e'; cbn [enc_loop].
  - destruct (bufsize <=? Z.of_nat (length out)) eqn:E; [|done]. intros [= <- <-] Hl. bool_prop. lia.
  - destruct (bufsize <=? Z.of_nat (length out)) eqn:E; [intros [= <- <-] Hl; bool_prop; lia|].
    destruct (_ && en_new_msg e); [by intros [= <- <-]|]. cbv zeta.
    destruct (_ && own && _) eqn:Ez; [|by apply IH]. intros [= <- <-] Hl. bool_prop. lia.
Qed.

Lemma enc_encode_room e own bufsize out e' : enc_encode e own bufsize = Some (out, e') -> Z.of_nat (length out) < bufsize -> en_msg e' = None.
Proof. unfold enc_encode. destruct (en_msg e) eqn:Em; [apply enc_loop_room|by intros [= _ <-]]. Qed.

(** ** A sequence of messages *)

(** The engine calls [encode] with buffers of the given sizes until the
    message is written. *)
Fixpoint enc_drain (e : encoder S) (bufs : list (bool * Z)) : option (bytes * encoder S) :=
  match en_msg e, bufs with
  | Some _, (own, n) :: bufs' =>
      let* (out, e) := enc_encode e own n in
      let* (out', e) := enc_drain e bufs' in
      Some (out ++ out', e)
  | _, _ => Some ([], e)
  end.

Lemma enc_drain_ok s bufs : forall e, enc_ok s e -> Forall (fun b => 1 <= b.2) bufs ->
  (en_msg e <> None -> (length (en_rest e) < length bufs)%nat) ->
  exists e', enc_drain e bufs = Some (en_rest e, e') /\ enc_ok s e' /\ en_msg e' = None.
Proof.
  induction bufs as [|[own n] bufs IH]; intros e Hok Hbufs Hlen; cbn [enc_drain].
  - destruct (en_msg e) as [f|] eqn:Em; [specialize (Hlen ltac:(done)); simpl in Hlen; lia|].
    exists e. unfold en_rest. by rewrite Em.
  - destruct (en_msg e) as [f|] eqn:Em; [|exists e; unfold en_rest; by rewrite Em].
    apply Forall_cons_1 in Hbufs as [Hn Hbufs].
    destruct (enc_encode_ok s e f own n Em Hok Hn) as (out & e1 & -> & Hok1 & Hm1 & Hr1 & Hp & Hz). cbn [mbind option_bind].
    specialize (Hlen ltac:(done)). cbn [length] in Hlen.
    destruct (IH e1 Hok1 Hbufs) as (e' & -> & Hok' & Hm').
    { intros Hne. destruct (decide (en_rest e = [])) as [E|E]; [by destruct Hne; apply Hz|].
      specialize (Hp E). rewrite <- Hr1, length_app in Hlen. destruct out; [done|]. simpl in Hlen. lia. }
    cbn [mbind option_bind]. exists e'. by rewrite Hr1.
Qed.

(** Messages are loaded one after the other; each has its own buffers. *)
Fixpoint enc_send (e : encoder S) (fs : list (frame * list (bool * Z))) : option (bytes * encoder S) :=
  match fs with
  | [] => Some ([], e)
  | (f, bufs) :: fs' =>
      let* e := enc_load_msg e f in
      let* (out, e) := enc_drain e bufs in
      let* (out', e) := enc_send e fs' in
      Some (out ++ out', e)
  end.

Lemma enc_send_ok fs : forall s e, starts s -> enc_ok s e -> en_msg e = None ->
  Forall (fun p => Forall (fun b => 1 <= b.2) p.2 /\ forall s, starts s -> (length (enc_wire s p.1) < length p.2)%nat) fs ->
  exists s' e', enc_send e fs = Some (enc_wires s fs.*1, e') /\ enc_ok s' e' /\ en_msg e' = None.
Proof.
  induction fs as [|[f bufs] fs IH]; intros s e Hs Hok Hm Hfs; cbn [enc_send]; [by exists s, e|].
  apply Forall_cons_1 in Hfs as [[Hb Hl] Hfs]. simpl in Hb, Hl. specialize (Hl s Hs).
  destruct (enc_load_msg_ok s e f Hs Hok Hm) as (e1 & -> & Hm1 & Hok1 & Hr1). cbn [mbind option_bind].
  destruct (enc_drain_ok _ bufs e1 Hok1 Hb) as (e2 & -> & Hok2 & Hm2); [by rewrite Hr1|]. cbn [mbind option_bind].
  destruct (IH _ e2 (last_piece s f Hs) Hok2 Hm2 Hfs) as (s' & e' & -> & ? & ?). cbn [mbind option_bind]. exists s', e'.
  by rewrite Hr1, !fmap_cons.
Qed.
End encoder.

(** Encoders with one state in which messages begin. *)
Lemma enc_wires_one {S} (estep : S -> frame -> bytes * S * bool) (s0 : S) fs : (forall f, enc_after estep s0 f = s0) ->
  enc_wires estep s0 fs = concat (enc_wire estep s0 <$> fs).
Proof. intros Ha. induction fs as [|f fs IH]; [done|]. cbn [enc_wires]. by rewrite Ha, IH. Qed.

Lemma enc_send_one {S} (estep : S -> frame -> bytes * S * bool) (s0 : S) fs e :
  (forall f, (estep s0 f).2 = false -> (estep (estep s0 f).1.2 f).2 = true) -> (forall f, enc_after estep s0 f = s0) ->
  enc_ok estep s0 e -> en_msg e = None ->
  Forall (fun p => Forall (fun b => 1 <= b.2) p.2 /\ (length (enc_wire estep s0 p.1) < length p.2)%nat) fs ->
  exists e', enc_send estep e fs = Some (concat (enc_wire estep s0 <$> fs.*1), e') /\ en_msg e' = None.
Proof.
  intros Ht Ha Hok Hm Hfs.
  destruct (enc_send_ok estep (fun s => s = s0)) with (fs := fs) (s := s0) (e := e) as (s' & e' & E & _ & Hm'); try done.
  - intros s f ->. apply Ht.
  - intros s f ->. apply Ha.
  - eapply Forall_impl; [|exact Hfs]. intros p [Hb Hl]. split; [done|]. by intros s ->.
  - exists e'. by rewrite E, enc_wires_one.
Qed.
