(* ===== verification/V2.v ===== *)
(** * ZMTP/2 framing (src/src/v2_encoder.cpp, src/src/v2_decoder.cpp)

    A frame is a byte of flags, its size in one or eight bytes, and the
    body.  [can_alloc] says for which sizes [malloc] succeeds. *)

From S2P Require Import Prelude Frame Wire Codec.

Definition v2_more_flag : Z := 1.
Definition v2_large_flag : Z := 2.
Definition v2_command_flag : Z := 4.

(** ** Encoder *)

Inductive v2_enc_state := V2E_message_ready | V2E_size_ready.

Definition v2_protocol_flags (f : frame) : Z :=
  let flags := if negb (Z.land (fr_flags f) flag_more =? 0) then Z.lor 0 v2_more_flag else 0 in
  let flags := if 255 <? Z.of_nat (length (fr_body f)) then Z.lor flags v2_large_flag else flags in
  if negb (Z.land (fr_flags f) flag_command =? 0) then Z.lor flags v2_command_flag else flags.

Definition v2_enc_step (s : v2_enc_state) (f : frame) : bytes * v2_enc_state * bool :=
  match s with
  | V2E_message_ready =>
      let size := Z.of_nat (length (fr_body f)) in
      if 255 <? size then (v2_protocol_flags f :: put_uint64 size, V2E_size_ready, false)
      else ([v2_protocol_flags f; u8 size], V2E_size_ready, false)
  | V2E_size_ready => (fr_body f, V2E_message_ready, true)
  end.

Definition v2_encoder_new : encoder v2_enc_state := Encoder [] V2E_message_ready true None.

(** ** Decoder *)

Inductive v2_dec_state :=
| V2_flags_ready
| V2_one_byte_size_ready (msg_flags : Z)
| V2_eight_byte_size_ready (msg_flags : Z)
| V2_message_ready (ty : msg_type) (msg_flags : Z).

Section v2.
Context (can_alloc : Z -> bool) (max_msg_size : Z) (zero_copy : bool).

Definition v2_size_ready (msg_flags msg_size avail : Z) : step_result v2_dec_state :=
  if (0 <=? max_msg_size) && (max_msg_size <? msg_size) then SFail EMSGSIZE
  else
    let ty := if negb zero_copy || (avail <? msg_size) then msg_init_size can_alloc msg_size
              else msg_init_content can_alloc msg_size in
    match ty with
    | None => SFail ENOMEM
    | Some ty => SNext msg_size (V2_message_ready ty msg_flags)
    end.

(** The action of each state on the bytes in [_tmpbuf]; a missing byte
    cannot happen, as an action runs when its bytes are there. *)
Definition v2_dec_step (s : v2_dec_state) (tmpbuf : bytes) (avail : Z) : step_result v2_dec_state :=
  match s with
  | V2_flags_ready =>
      match tmpbuf with
      | [] => SFail EINVAL
      | b :: _ =>
          let flags := if negb (Z.land b v2_more_flag =? 0) then Z.lor 0 flag_more else 0 in
          let flags := if negb (Z.land b v2_command_flag =? 0) then Z.lor flags flag_command else flags in
          if negb (Z.land b v2_large_flag =? 0) then SNext 8 (V2_eight_byte_size_ready flags)
          else SNext 1 (V2_one_byte_size_ready flags)
      end
  | V2_one_byte_size_ready flags =>
      match tmpbuf with
      | [] => SFail EINVAL
      | b :: _ => v2_size_ready flags (u8 b) avail
      end
  | V2_eight_byte_size_ready flags =>
      match get_uint64 tmpbuf with
      | None => SFail EINVAL
      | Some msg_size => v2_size_ready flags (u64 msg_size) avail
      end
  | V2_message_ready ty flags => SMsg (Frame ty flags tmpbuf) 1 V2_flags_ready
  end.

Definition v2_decoder_new : decoder v2_dec_state := Decoder [] 1 V2_flags_ready.

(** ** The actions *)

Lemma v2_size_ready_progress flags n a : 0 <= n ->
  wants_bytes (v2_size_ready flags n a) \/
  exists s', v2_size_ready flags n a = SNext 0 s' /\ wants_bytes (v2_dec_step s' [] a).
Proof.
  intros Hn. unfold v2_size_ready. case_test; [by left|].
  generalize (if negb zero_copy || (a <? n) then msg_init_size can_alloc n else msg_init_content can_alloc n).
  intros [ty|]; [|by left]. destruct (decide (n = 0)) as [->|]; [right|left; simpl; lia].
  eexists. split; [done|]. simpl. lia.
Qed.

Lemma v2_step_progress s b a :
  wants_bytes (v2_dec_step s b a) \/
  exists s', v2_dec_step s b a = SNext 0 s' /\ wants_bytes (v2_dec_step s' [] a).
Proof.
  destruct s; simpl.
  - left. destruct b as [|c b]; [done|]. case_test; simpl; lia.
  - destruct b as [|c b]; [by left|]. apply v2_size_ready_progress. apply (u8_range c).
  - destruct (get_uint64 b) as [n|]; [|by left]. apply v2_size_ready_progress. apply (u64_range n).
  - left. simpl. lia.
Qed.

(** The sizes a decoder accepts. *)
Definition v2_size_ok (n : Z) : Prop :=
  n < 18446744073709551616 - sizeof_content /\ (0 <= max_msg_size -> n <= max_msg_size) /\
  (max_vsm_size < n -> can_alloc n = true).

Lemma v2_size_ready_ok flags n a : 0 <= n -> v2_size_ok n ->
  exists ty, v2_size_ready flags n a = SNext n (V2_message_ready ty flags).
Proof.
  intros Hn (Hm & Hmax & Halloc). unfold sizeof_content, max_vsm_size in *. unfold v2_size_ready.
  replace ((0 <=? max_msg_size) && (max_msg_size <? n)) with false by (symmetry; apply andb_false_iff; lia).
  assert (exists ty, msg_init_size can_alloc n = Some ty) as [ty1 H1].
  { unfold msg_init_size, sizeof_content, max_vsm_size. destruct (n <=? 33) eqn:E; bool_prop; [by eexists|].
    rewrite Halloc by done. wrap_small. simpl_test. by eexists. }
  unfold msg_init_content. rewrite H1. destruct (negb zero_copy || (a <? n)); [by eexists|].
  destruct (n <? max_vsm_size); by eexists.
Qed.

(** ** Round trip *)

Definition v2_kept_flags (f : frame) : Z := Z.land (fr_flags f) (flag_more + flag_command).

Lemma v2_flags_cases f : exists r, 0 <= r < 4 /\ v2_kept_flags f = r /\
  Z.land (fr_flags f) flag_more = Z.land r 1 /\ Z.land (fr_flags f) flag_command = Z.land r 2.
Proof.
  exists (v2_kept_flags f). unfold v2_kept_flags. change (flag_more + flag_command) with (Z.ones 2).
  split_and!; [rewrite Z.land_ones by lia; apply Z.mod_pos_bound; lia..|done| |];
    by rewrite <- Z.land_assoc.
Qed.

(** The flags byte is decoded to the flags it was made of. *)
Lemma v2_flags_roundtrip f rest a :
  v2_dec_step V2_flags_ready (v2_protocol_flags f :: rest) a =
    if 255 <? Z.of_nat (length (fr_body f)) then SNext 8 (V2_eight_byte_size_ready (v2_kept_flags f))
    else SNext 1 (V2_one_byte_size_ready (v2_kept_flags f)).
Proof.
  destruct (v2_flags_cases f) as (r & Hr & Hk & Hm & Hc). unfold v2_protocol_flags, v2_dec_step.
  rewrite Hm, Hc, Hk. assert (r = 0 \/ r = 1 \/ r = 2 \/ r = 3) as [->|[->|[->| ->]]] by lia;
    destruct (255 <? Z.of_nat (length (fr_body f))); reflexivity.
Qed.

Definition v2_wire (f : frame) : bytes := enc_wire v2_enc_step V2E_message_ready f.

(** What the decoder makes of a frame: the same flags and body; the type
    depends on where the bytes were. *)
Definition v2_same (f g : frame) : Prop := fr_flags g = v2_kept_flags f /\ fr_body g = fr_body f.

(** The end of a message: the body, and the state of a new decoder. *)
Lemma v2_decode_body ty flags body avs rest : bytes_ok body -> length avs = length body ->
  body <> [] ->
  dec_bytes v2_dec_step (Decoder [] (Z.of_nat (length body)) (V2_message_ready ty flags)) (zip body avs ++ rest) =
  (let* (d, ms, e) := dec_bytes v2_dec_step v2_decoder_new rest in Some (d, Frame ty flags body :: ms, e)).
Proof.
  intros Hb Ha Hne.
  destruct (dec_bytes_chunk v2_dec_step (Decoder [] (Z.of_nat (length body)) (V2_message_ready ty flags)) body avs rest)
    as (a & ->); [done| |done|].
  { simpl. destruct body; [done|]. simpl. lia. }
  done.
Qed.

(** The size field and the body. *)
Lemma v2_decode_size s field flags body avs1 avs2 rest :
  (forall a, v2_dec_step s field a = v2_size_ready flags (Z.of_nat (length body)) a) ->
  1 <= Z.of_nat (length field) ->
  bytes_ok body -> v2_size_ok (Z.of_nat (length body)) ->
  length avs1 = length field -> length avs2 = length body ->
  exists ty, dec_bytes v2_dec_step (Decoder [] (Z.of_nat (length field)) s) (zip field avs1 ++ zip body avs2 ++ rest) =
    (let* (d, ms, e) := dec_bytes v2_dec_step v2_decoder_new rest in Some (d, Frame ty flags body :: ms, e)).
Proof.
  intros Hs Hf Hb Hok Ha1 Ha2.
  destruct (dec_bytes_chunk v2_dec_step (Decoder [] (Z.of_nat (length field)) s) field avs1 (zip body avs2 ++ rest))
    as (a & ->); [done|done|done|].
  unfold steps_fuel. cbn [dec_steps dc_to_read dc_next dc_buf Z.eqb negb app]. rewrite Hs.
  destruct (v2_size_ready_ok flags (Z.of_nat (length body)) a ltac:(lia) Hok) as [ty ->]. exists ty.
  cbn [dc_to_read]. destruct body as [|b body].
  - destruct avs2; [|done]. cbn [length Z.of_nat Z.eqb negb dc_next dc_buf v2_dec_step mbind option_bind zip_with app]. done.
  - rewrite (proj2 (Z.eqb_neq _ 0)) by (simpl; lia). cbn [negb mbind option_bind].
    by rewrite v2_decode_body.
Qed.

Lemma v2_decode_frame f avs rest : bytes_ok (fr_body f) -> v2_size_ok (Z.of_nat (length (fr_body f))) ->
  length avs = length (v2_wire f) ->
  exists g, v2_same f g /\ dec_bytes v2_dec_step v2_decoder_new (zip (v2_wire f) avs ++ rest) =
    (let* (d, ms, e) := dec_bytes v2_dec_step v2_decoder_new rest in Some (d, g :: ms, e)).
Proof.
  intros Hb Hok Ha. unfold v2_wire, enc_wire in *. cbn [v2_enc_step] in *.
  set (n := Z.of_nat (length (fr_body f))) in *.
  assert (forall field body, length avs = length ((v2_protocol_flags f :: field) ++ body) ->
    exists a avs1 avs2, avs = a :: avs1 ++ avs2 /\ length avs1 = length field /\ length avs2 = length body) as Hsplit.
  { intros field body Hl. destruct avs as [|a avs]; [done|]. simpl in Hl. rewrite length_app in Hl.
    exists a, (take (length field) avs), (drop (length field) avs). rewrite take_drop, length_take, length_drop.
    split_and!; done || lia. }
  assert (forall field, (forall flags a, v2_dec_step
      (if 255 <? n then V2_eight_byte_size_ready flags else V2_one_byte_size_ready flags) field a =
      v2_size_ready flags n a) ->
    Z.of_nat (length field) = (if 255 <? n then 8 else 1) -> length avs = length ((v2_protocol_flags f :: field) ++ fr_body f) ->
    exists g, v2_same f g /\ dec_bytes v2_dec_step v2_decoder_new (zip ((v2_protocol_flags f :: field) ++ fr_body f) avs ++ rest) =
      (let* (d, ms, e) := dec_bytes v2_dec_step v2_decoder_new rest in Some (d, g :: ms, e))) as Hmain.
  { intros field Hfield Hlen Hl. destruct (Hsplit field (fr_body f) Hl) as (a & avs1 & avs2 & -> & H1 & H2).
    cbn [app zip_with]. rewrite zip_with_app by done. rewrite <- app_assoc. cbn [dec_bytes].
    unfold dec_byte, steps_fuel. cbn [dec_steps v2_decoder_new dc_to_read dc_next dc_buf app Z.sub Z.eqb negb].
    rewrite v2_flags_roundtrip.
    destruct (v2_decode_size (if 255 <? n then V2_eight_byte_size_ready (v2_kept_flags f)
        else V2_one_byte_size_ready (v2_kept_flags f)) field (v2_kept_flags f) (fr_body f) avs1 avs2 rest)
      as [ty Hrun]; try done.
    { rewrite Hlen. destruct (255 <? n); lia. }
    exists (Frame ty (v2_kept_flags f) (fr_body f)). split; [done|]. rewrite <- Hrun, Hlen.
    fold n. destruct (255 <? n); done. }
  destruct (255 <? n) eqn:E; cbn [fst snd] in *; bool_prop.
  - apply Hmain.
    + intros flags a. cbn [v2_dec_step]. rewrite <- (app_nil_r (put_uint64 n)), get_put_uint64.
      * f_equal. rewrite u64_small; [done|]. unfold is_u64. destruct Hok as [? _]. unfold sizeof_content in *. lia.
      * unfold is_u64. destruct Hok as [? _]. unfold sizeof_content in *. lia.
    + done.
    + done.
  - apply (Hmain [u8 n]); [|done|done]. intros flags a. cbn [v2_dec_step]. wrap_small. done.
Qed.
End v2.

Lemma v2_two_pieces f : (v2_enc_step V2E_message_ready f).2 = false ->
  (v2_enc_step (v2_enc_step V2E_message_ready f).1.2 f).2 = true.
Proof. simpl. by destruct (255 <? _). Qed.

Lemma v2_next_message f : enc_after v2_enc_step V2E_message_ready f = V2E_message_ready.
Proof. unfold enc_after. simpl. by repeat case_match. Qed.

Lemma v2_encoder_new_ok : enc_ok v2_enc_step V2E_message_ready v2_encoder_new.
Proof. by constructor. Qed.

Lemma v2_decode_frames can_alloc max zc fs : forall avs,
  Forall (fun f => bytes_ok (fr_body f) /\ v2_size_ok can_alloc max (Z.of_nat (length (fr_body f)))) fs ->
  length avs = length (concat (v2_wire <$> fs)) ->
  exists ms, Forall2 v2_same fs ms /\
    dec_bytes (v2_dec_step can_alloc max zc) v2_decoder_new (zip (concat (v2_wire <$> fs)) avs) =
    Some (v2_decoder_new, ms, None).
Proof.
  induction fs as [|f fs IH]; intros avs Hfs Ha.
  { exists []. split; [constructor|]. by destruct avs. }
  apply Forall_cons_1 in Hfs as [[Hb Hok] Hfs]. rewrite fmap_cons in *. cbn [concat] in *. rewrite length_app in Ha.
  rewrite <- (take_drop (length (v2_wire f)) avs). rewrite zip_with_app by (rewrite length_take; lia).
  destruct (v2_decode_frame can_alloc max zc f (take (length (v2_wire f)) avs)
    (zip (concat (v2_wire <$> fs)) (drop (length (v2_wire f)) avs)) Hb Hok) as (g & Hg & ->).
  { rewrite length_take. lia. }
  destruct (IH (drop (length (v2_wire f)) avs) Hfs) as (ms & Hms & ->); [rewrite length_drop; lia|].
  exists (g :: ms). split; [by constructor|done].
Qed.

(** C15: ZMTP/2 framing round trips over any network: messages encoded
    into buffers of any sizes, with the encoder's own buffer or a
    supplied one, and received by an engine in reads of any sizes, with
    or without zero-copy, are decoded to the same sequence of messages,
    flags (more, command) and bodies, without an error, and both state
    machines are back in their initial state. *)
Theorem v2_roundtrip (can_alloc : Z -> bool) (max_msg_size : Z) (zero_copy : bool)
    (fs : list (frame * list (bool * Z))) (a : allocator) (limits : list Z) :
  Forall (fun p => bytes_ok (fr_body p.1) /\
                   v2_size_ok can_alloc max_msg_size (Z.of_nat (length (fr_body p.1)))) fs ->
  Forall (fun p => Forall (fun b => 1 <= b.2) p.2 /\ (length (v2_wire p.1) < length p.2)%nat) fs ->
  1 <= al_size a -> 1 <= al_max a ->
  (length (concat (v2_wire <$> fs.*1)) <= length limits)%nat ->
  exists stream e a' ms,
    enc_send v2_enc_step v2_encoder_new fs = Some (stream, e) /\ en_msg e = None /\
    engine_run (v2_dec_step can_alloc max_msg_size zero_copy) v2_decoder_new a stream limits =
      Some (v2_decoder_new, a', [], ms, None) /\
    Forall2 v2_same (fs.*1) ms.
Proof.
  intros Hfs Hbufs Has Ham Hlim.
  destruct (enc_send_one v2_enc_step V2E_message_ready fs v2_encoder_new v2_two_pieces v2_next_message
    v2_encoder_new_ok eq_refl Hbufs) as (e & Hsend & Hm).
  destruct (engine_run_spec (v2_dec_step can_alloc max_msg_size zero_copy)
    (v2_step_progress can_alloc max_msg_size zero_copy) limits v2_decoder_new a (concat (v2_wire <$> fs.*1)))
    as (avs & d & a' & rest & ms & e' & Havs & Hrun & Hrest & Hdec); [unfold dec_ok; simpl; lia|done|done|done|].
  destruct (v2_decode_frames can_alloc max_msg_size zero_copy (fs.*1) avs) as (ms' & Hms & Hdec'); [|done|].
  { apply Forall_fmap. exact Hfs. }
  rewrite Hdec in Hdec'. simplify_eq. rewrite (Hrest eq_refl) in Hrun.
  eexists _, e, a', ms'. split; [exact Hsend|]. done.
Qed.

(** The header of a frame as it may come from a peer: the flags, and the
    size in the form they announce. *)
Definition v2_header (flags n : Z) : bytes := flags :: if Z.land flags v2_large_flag =? 0 then [n] else put_uint64 n.

Lemma v2_header_refused can_alloc max zc flags n avs rest :
  0 <= max < n -> (if Z.land flags v2_large_flag =? 0 then is_u8 n else is_u64 n) -> (length (v2_header flags n) <= length avs)%nat ->
  exists d, dec_bytes (v2_dec_step can_alloc max zc) v2_decoder_new (zip (v2_header flags n ++ rest) avs) = Some (d, [], Some EMSGSIZE).
Proof.
  intros Hmax Hn Ha. unfold v2_header in *. set (field := if Z.land flags v2_large_flag =? 0 then [n] else put_uint64 n) in *.
  destruct avs as [|a0 avs]; [simpl in Ha; lia|]. cbn [length] in Ha. cbn [app zip_with dec_bytes].
  unfold dec_byte, steps_fuel. cbn [dec_steps v2_decoder_new dc_to_read dc_next dc_buf app Z.sub Z.eqb negb v2_dec_step].
  change (1 - 1 =? 0) with true. cbn [negb]. set (kept := if negb (Z.land flags v2_command_flag =? 0) then _ else _).
  assert (forall s, Z.of_nat (length field) = (if Z.land flags v2_large_flag =? 0 then 1 else 8) ->
    (forall a, v2_dec_step can_alloc max zc s field a = v2_size_ready can_alloc max zc kept n a) ->
    exists d, dec_bytes (v2_dec_step can_alloc max zc) (Decoder [] (if Z.land flags v2_large_flag =? 0 then 1 else 8) s) (zip (field ++ rest) avs) =
      Some (d, [], Some EMSGSIZE)) as Hsize.
  { intros s Hl Hs. rewrite <- (take_drop (length field) avs), zip_with_app by (rewrite length_take; lia).
    destruct (dec_bytes_chunk (v2_dec_step can_alloc max zc) (Decoder [] (if Z.land flags v2_large_flag =? 0 then 1 else 8) s) field
      (take (length field) avs) (zip rest (drop (length field) avs))) as (av & ->); [done|simpl; case_match; lia|rewrite length_take; lia|].
    unfold steps_fuel. cbn [dec_steps dc_to_read Z.eqb negb dc_next dc_buf app]. rewrite Hs. unfold v2_size_ready.
    rewrite (proj2 (Z.leb_le 0 max)), (proj2 (Z.ltb_lt max n)) by lia. cbn [andb mbind option_bind]. by eexists. }
  subst field. destruct (Z.land flags v2_large_flag =? 0); cbn [negb dec_steps dc_to_read Z.eqb mbind option_bind].
  - apply Hsize; [done|]. intros a. cbn [v2_dec_step]. by rewrite u8_small.
  - apply Hsize; [done|]. intros a. cbn [v2_dec_step]. by rewrite <- (app_nil_r (put_uint64 n)), get_put_uint64, u64_small.
Qed.

(** C40: a frame larger than the configured maximum is refused with
    EMSGSIZE as soon as its header is read: in the short form of the size
    as in the long one, whatever its other flags, whether it is the first
    frame or comes after others, however the bytes arrive, and whether any
    bytes follow.  The frames before it come out, and nothing else. *)
Theorem v2_max_msg_size (can_alloc : Z -> bool) (max_msg_size : Z) (zero_copy : bool)
    (fs : list frame) (flags n : Z) (rest : bytes) (a : allocator) (limits : list Z) :
  Forall (fun f => bytes_ok (fr_body f) /\ v2_size_ok can_alloc max_msg_size (Z.of_nat (length (fr_body f)))) fs ->
  0 <= max_msg_size < n -> (if Z.land flags v2_large_flag =? 0 then is_u8 n else is_u64 n) ->
  1 <= al_size a -> 1 <= al_max a ->
  let stream := concat (v2_wire <$> fs) ++ v2_header flags n ++ rest in
  (length stream <= length limits)%nat ->
  exists d a' rest' ms,
    engine_run (v2_dec_step can_alloc max_msg_size zero_copy) v2_decoder_new a stream limits =
      Some (d, a', rest', ms, Some EMSGSIZE) /\ Forall2 v2_same fs ms.
Proof.
  intros Hfs Hmax Hn Has Ham stream Hlim.
  destruct (engine_run_spec (v2_dec_step can_alloc max_msg_size zero_copy)
    (v2_step_progress can_alloc max_msg_size zero_copy) limits v2_decoder_new a stream)
    as (avs & d & a' & rest' & ms & e & Havs & -> & _ & Hdec); [unfold dec_ok; simpl; lia|done|done|done|].
  unfold stream in *. set (w := concat (v2_wire <$> fs)) in *. rewrite length_app in Havs.
  rewrite <- (take_drop (length w) avs), zip_with_app in Hdec by (rewrite length_take; lia).
  destruct (v2_decode_frames can_alloc max_msg_size zero_copy fs (take (length w) avs) Hfs) as (ms1 & Hms & Hdec1);
    [rewrite length_take; fold w; lia|].
  destruct (v2_header_refused can_alloc max_msg_size zero_copy flags n (drop (length w) avs) rest Hmax Hn) as (d2 & Hdec2);
    [rewrite length_drop; rewrite length_app in Havs; lia|].
  rewrite dec_bytes_app in Hdec. fold w in Hdec1. rewrite Hdec1 in Hdec. cbn [mbind option_bind] in Hdec. rewrite Hdec2 in Hdec.
  cbn [mbind option_bind] in Hdec. rewrite app_nil_r in Hdec. simplify_eq. by eexists _, _, _, _.
Qed.

(** ** Concrete runs *)

Definition v2_example : list (frame * list (bool * Z)) :=
  [(Frame type_vsm flag_more [1; 2; 3], replicate 6 (false, 2));
   (Frame type_vsm 0 [], replicate 3 (true, 8));
   (Frame type_lmsg (flag_command + flag_shared) (replicate 300 7), replicate 310 (true, 1))].

Lemma v2_roundtrip_witness :
  exists stream e a' ms,
    enc_send v2_enc_step v2_encoder_new v2_example = Some (stream, e) /\
    engine_run (v2_dec_step (fun _ => true) 1000 true) v2_decoder_new (Allocator_ true 64 64) stream
      (replicate 400 5) = Some (v2_decoder_new, a', [], ms, None) /\
    length ms = 3%nat.
Proof.
  destruct (v2_roundtrip (fun _ => true) 1000 true v2_example (Allocator_ true 64 64) (replicate 400 5))
    as (stream & e & a' & ms & H1 & _ & H2 & H3).
  - repeat constructor; simpl; try (unfold is_u8; lia); try apply Forall_replicate; unfold is_u8, sizeof_content; lia.
  - repeat constructor; simpl; lia.
  - simpl. lia.
  - simpl. lia.
  - apply Nat.leb_le. vm_compute. reflexivity.
  - exists stream, e, a', ms. split; [exact H1|]. split; [exact H2|]. by rewrite <- (Forall2_length H3).
Defined.

Lemma v2_max_msg_size_witness :
  exists d a' rest' ms,
    engine_run (v2_dec_step (fun _ => true) 100 false) v2_decoder_new (Allocator_ true 64 64)
      (concat (v2_wire <$> [Frame type_vsm flag_more [1; 2]; Frame type_vsm 0 []]) ++ v2_header 1 101 ++ [9; 9]) (replicate 20 4) =
      Some (d, a', rest', ms, Some EMSGSIZE) /\ length ms = 2%nat.
Proof.
  destruct (v2_max_msg_size (fun _ => true) 100 false [Frame type_vsm flag_more [1; 2]; Frame type_vsm 0 []] 1 101 [9; 9] (Allocator_ true 64 64) (replicate 20 4))
    as (d & a' & rest' & ms & H1 & H2).
  - repeat constructor; simpl; unfold is_u8, sizeof_content; lia.
  - lia.
  - simpl. unfold is_u8. lia.
  - simpl. lia.
  - simpl. lia.
  - simpl. lia.
  - exists d, a', rest', ms. split; [exact H1|]. by rewrite <- (Forall2_length H2).
Defined.
