(* ===== verification/V1.v ===== *)
(** * ZMTP/1 framing (src/src/v1_encoder.cpp, src/src/v1_decoder.cpp)

    A frame is its size plus one, in one byte or in eight after 0xff, a
    byte of flags, and the body. *)

From S2P Require Import Prelude Frame Wire Codec.

(** ** Encoder *)

Inductive v1_enc_state := V1E_message_ready | V1E_size_ready.

Definition v1_enc_step (s : v1_enc_state) (f : frame) : bytes * v1_enc_state * bool :=
  match s with
  | V1E_message_ready =>
      let size := Z.of_nat (length (fr_body f)) + 1 in
      if size <? 255 then ([u8 size; Z.land (fr_flags f) flag_more], V1E_size_ready, false)
      else (255 :: put_uint64 size ++ [Z.land (fr_flags f) flag_more], V1E_size_ready, false)
  | V1E_size_ready => (fr_body f, V1E_message_ready, true)
  end.

Definition v1_encoder_new : encoder v1_enc_state := Encoder [] V1E_message_ready true None.

(** ** Decoder *)

Inductive v1_dec_state :=
| V1_one_byte_size_ready
| V1_eight_byte_size_ready
| V1_flags_ready (ty : msg_type) (size : Z)
| V1_message_ready (ty : msg_type) (flags : Z).

Section v1.
Context (can_alloc : Z -> bool) (max_msg_size : Z).

Definition v1_init_size (size : Z) : step_result v1_dec_state :=
  match msg_init_size can_alloc size with
  | None => SFail ENOMEM
  | Some ty => SNext 1 (V1_flags_ready ty size)
  end.

Definition v1_dec_step (s : v1_dec_state) (tmpbuf : bytes) (avail : Z) : step_result v1_dec_state :=
  match s with
  | V1_one_byte_size_ready =>
      match tmpbuf with
      | [] => SFail EINVAL
      | b :: _ =>
          let b := u8 b in
          if b =? 255 then SNext 8 V1_eight_byte_size_ready
          else if b =? 0 then SFail EPROTO
          else if (0 <=? max_msg_size) && (max_msg_size <? b - 1) then SFail EMSGSIZE
          else v1_init_size (b - 1)
      end
  | V1_eight_byte_size_ready =>
      match get_uint64 tmpbuf with
      | None => SFail EINVAL
      | Some n =>
          let payload_length := u64 n in
          if payload_length =? 0 then SFail EPROTO
          else if (0 <=? max_msg_size) && (max_msg_size <? u64 (payload_length - 1)) then SFail EMSGSIZE
          else v1_init_size (u64 (payload_length - 1))
      end
  | V1_flags_ready ty size =>
      match tmpbuf with
      | [] => SFail EINVAL
      | b :: _ => SNext (u64 size) (V1_message_ready ty (Z.land b flag_more))
      end
  | V1_message_ready ty flags => SMsg (Frame ty flags tmpbuf) 1 V1_one_byte_size_ready
  end.

Definition v1_decoder_new : decoder v1_dec_state := Decoder [] 1 V1_one_byte_size_ready.

(** ** The actions *)

Lemma v1_init_size_wants n : wants_bytes (v1_init_size n).
Proof. unfold v1_init_size. destruct (msg_init_size can_alloc n); simpl; [lia|done]. Qed.

Lemma v1_step_progress s b a :
  wants_bytes (v1_dec_step s b a) \/
  exists s', v1_dec_step s b a = SNext 0 s' /\ wants_bytes (v1_dec_step s' [] a).
Proof.
  destruct s as [| |ty size|ty flags]; simpl.
  - left. destruct b as [|c b]; [done|]. repeat case_test; try done; try (simpl; lia). apply v1_init_size_wants.
  - left. destruct (get_uint64 b); [|done]. repeat case_test; try done. apply v1_init_size_wants.
  - destruct b as [|c b]; [by left|]. pose proof (u64_range size) as Hs. unfold is_u64 in Hs.
    destruct (decide (u64 size = 0)) as [->|]; [right|left; simpl; lia].
    eexists. split; [done|]. simpl. lia.
  - left. simpl. lia.
Qed.

(** The sizes a decoder accepts. *)
Definition v1_size_ok (n : Z) : Prop :=
  n < 18446744073709551616 - sizeof_content /\ (0 <= max_msg_size -> n <= max_msg_size) /\
  (max_vsm_size < n -> can_alloc n = true).

Lemma v1_init_size_ok n : 0 <= n -> v1_size_ok n -> exists ty, v1_init_size n = SNext 1 (V1_flags_ready ty n).
Proof.
  intros Hn (Hm & _ & Halloc). unfold v1_init_size, msg_init_size, sizeof_content, max_vsm_size in *.
  destruct (n <=? 33) eqn:E; bool_prop; [by eexists|]. rewrite Halloc by done. wrap_small. simpl_test. by eexists.
Qed.

(** ** Round trip *)

Definition v1_kept_flags (f : frame) : Z := Z.land (fr_flags f) flag_more.

(** What the decoder makes of a frame: the same [more] flag and body. *)
Definition v1_same (f g : frame) : Prop := fr_flags g = v1_kept_flags f /\ fr_body g = fr_body f.

Lemma v1_kept_again f : Z.land (v1_kept_flags f) flag_more = v1_kept_flags f.
Proof. unfold v1_kept_flags. by rewrite <- Z.land_assoc. Qed.

(** The flags and the body, in the state the size field leaves. *)
Lemma v1_decode_body ty flags body avs rest : is_u64 (Z.of_nat (length body)) -> length avs = length (flags :: body) ->
  dec_bytes v1_dec_step (Decoder [] 1 (V1_flags_ready ty (Z.of_nat (length body)))) (zip (flags :: body) avs ++ rest) =
    (let* (d, ms, e) := dec_bytes v1_dec_step v1_decoder_new rest in Some (d, Frame ty (Z.land flags flag_more) body :: ms, e)).
Proof.
  intros Hn Ha.
  destruct avs as [|a avs]; [done|]. cbn [length] in Ha. cbn [zip_with app dec_bytes].
  unfold dec_byte, steps_fuel. cbn [dec_steps dc_to_read dc_next dc_buf app v1_dec_step].
  rewrite u64_small by done. change (1 - 1 =? 0) with true. cbn [negb].
  cbn [dc_to_read]. destruct body as [|b body].
  - destruct avs; [|done]. done.
  - rewrite (proj2 (Z.eqb_neq _ 0)) by (simpl; lia). cbn [negb mbind option_bind].
    destruct (dec_bytes_chunk v1_dec_step (Decoder [] (Z.of_nat (length (b :: body)))
      (V1_message_ready ty (Z.land flags flag_more))) (b :: body) avs rest) as (a' & ->); try done; try lia.
    simpl. lia.
Qed.

Lemma v1_decode_tail ty f avs rest : is_u64 (Z.of_nat (length (fr_body f))) ->
  length avs = length (v1_kept_flags f :: fr_body f) ->
  exists g, v1_same f g /\
    dec_bytes v1_dec_step (Decoder [] 1 (V1_flags_ready ty (Z.of_nat (length (fr_body f)))))
      (zip (v1_kept_flags f :: fr_body f) avs ++ rest) =
    (let* (d, ms, e) := dec_bytes v1_dec_step v1_decoder_new rest in Some (d, g :: ms, e)).
Proof.
  intros Hn Ha. exists (Frame ty (v1_kept_flags f) (fr_body f)). split; [done|].
  by rewrite v1_decode_body, v1_kept_again.
Qed.

Definition v1_wire (f : frame) : bytes := enc_wire v1_enc_step V1E_message_ready f.

(** The field of the size that is sent for a body. *)
Definition v1_size_field (f : frame) : bytes :=
  let size := Z.of_nat (length (fr_body f)) + 1 in
  if size <? 255 then [u8 size] else 255 :: put_uint64 size.

Lemma v1_wire_split f : v1_wire f = v1_size_field f ++ v1_kept_flags f :: fr_body f.
Proof.
  unfold v1_wire, enc_wire, v1_size_field. cbn [v1_enc_step].
  destruct (_ <? 255); cbn [fst snd v1_enc_step app]; [done|]. by rewrite <- app_assoc.
Qed.

(** The size in the long format, whatever it is. *)
Lemma v1_decode_long n avs rest : 0 <= n -> v1_size_ok n -> length avs = 9%nat ->
  exists ty, dec_bytes v1_dec_step v1_decoder_new (zip (255 :: put_uint64 (n + 1)) avs ++ rest) =
    dec_bytes v1_dec_step (Decoder [] 1 (V1_flags_ready ty n)) rest.
Proof.
  intros Hn Hok Ha. destruct (v1_init_size_ok n Hn Hok) as [ty Hty]. exists ty. destruct Hok as (Hm & Hmax & _). unfold sizeof_content in Hm.
  destruct avs as [|a avs]; [done|]. cbn [length zip_with app dec_bytes] in *.
  unfold dec_byte, steps_fuel; cbn [dec_steps v1_decoder_new dc_to_read dc_next dc_buf app v1_dec_step]; change (1 - 1 =? 0) with true; cbn [negb].
  change (u8 255 =? 255) with true. cbn [dc_to_read Z.eqb negb mbind option_bind].
  destruct (dec_bytes_chunk v1_dec_step (Decoder [] 8 V1_eight_byte_size_ready) (put_uint64 (n + 1)) avs rest)
    as (a' & ->); [done|done|by injection Ha|].
  unfold steps_fuel. cbn [dec_steps dc_to_read Z.eqb negb dc_next dc_buf app v1_dec_step].
  rewrite <- (app_nil_r (put_uint64 (n + 1))), get_put_uint64 by (unfold is_u64; lia).
  rewrite (u64_small (n + 1)) by (unfold is_u64; lia). rewrite (proj2 (Z.eqb_neq (n + 1) 0)) by lia.
  replace (n + 1 - 1) with n by lia. rewrite u64_small by (unfold is_u64; lia).
  assert ((0 <=? max_msg_size) && (max_msg_size <? n) = false) as -> by (apply andb_false_iff; lia). by rewrite Hty.
Qed.

Lemma v1_decode_size f avs rest : v1_size_ok (Z.of_nat (length (fr_body f))) ->
  length avs = length (v1_size_field f) ->
  exists ty, dec_bytes v1_dec_step v1_decoder_new (zip (v1_size_field f) avs ++ rest) =
    dec_bytes v1_dec_step (Decoder [] 1 (V1_flags_ready ty (Z.of_nat (length (fr_body f))))) rest.
Proof.
  intros Hok Ha. unfold v1_size_field in *. destruct (_ + 1 <? 255) eqn:E; bool_prop; [|by apply v1_decode_long; [lia| |]].
  destruct (v1_init_size_ok (Z.of_nat (length (fr_body f))) ltac:(lia) Hok) as [ty Hty]. exists ty.
  destruct Hok as (Hm & Hmax & _). set (n := Z.of_nat (length (fr_body f))) in *. assert (0 <= n) by lia.
  destruct avs as [|a [|]]; [done| |done]. cbn [length zip_with app dec_bytes] in *.
  unfold dec_byte, steps_fuel; cbn [dec_steps v1_decoder_new dc_to_read dc_next dc_buf app v1_dec_step]; change (1 - 1 =? 0) with true; cbn [negb].
  rewrite 2!(u8_small (n + 1)) by (unfold is_u8; lia).
  rewrite (proj2 (Z.eqb_neq (n + 1) 255)), (proj2 (Z.eqb_neq (n + 1) 0)) by lia. replace (n + 1 - 1) with n by lia.
  assert ((0 <=? max_msg_size) && (max_msg_size <? n) = false) as -> by (apply andb_false_iff; lia). by rewrite Hty.
Qed.

Lemma v1_decode_frame f avs rest : v1_size_ok (Z.of_nat (length (fr_body f))) -> length avs = length (v1_wire f) ->
  exists g, v1_same f g /\ dec_bytes v1_dec_step v1_decoder_new (zip (v1_wire f) avs ++ rest) =
    (let* (d, ms, e) := dec_bytes v1_dec_step v1_decoder_new rest in Some (d, g :: ms, e)).
Proof.
  rewrite v1_wire_split. intros Hok Ha. rewrite length_app in Ha.
  rewrite <- (take_drop (length (v1_size_field f)) avs).
  rewrite zip_with_app by (rewrite length_take; lia). rewrite <- app_assoc.
  destruct (v1_decode_size f (take (length (v1_size_field f)) avs)
    (zip (v1_kept_flags f :: fr_body f) (drop (length (v1_size_field f)) avs) ++ rest) Hok) as [ty ->].
  { rewrite length_take. lia. }
  apply v1_decode_tail; [|rewrite length_drop; lia].
  destruct Hok as [Hm _]. unfold is_u64. unfold sizeof_content in Hm. lia.
Qed.
End v1.

Lemma v1_two_pieces f : (v1_enc_step V1E_message_ready f).2 = false ->
  (v1_enc_step (v1_enc_step V1E_message_ready f).1.2 f).2 = true.
Proof. simpl. by destruct (_ <? 255). Qed.

Lemma v1_next_message f : enc_after v1_enc_step V1E_message_ready f = V1E_message_ready.
Proof. unfold enc_after. simpl. by repeat case_match. Qed.

Lemma v1_encoder_new_ok : enc_ok v1_enc_step V1E_message_ready v1_encoder_new.
Proof. by constructor. Qed.

Lemma v1_decode_frames can_alloc max fs : forall avs,
  Forall (fun f => v1_size_ok can_alloc max (Z.of_nat (length (fr_body f)))) fs ->
  length avs = length (concat (v1_wire <$> fs)) ->
  exists ms, Forall2 v1_same fs ms /\
    dec_bytes (v1_dec_step can_alloc max) v1_decoder_new (zip (concat (v1_wire <$> fs)) avs) =
    Some (v1_decoder_new, ms, None).
Proof.
  induction fs as [|f fs IH]; intros avs Hfs Ha.
  { exists []. split; [constructor|]. by destruct avs. }
  apply Forall_cons_1 in Hfs as [Hok Hfs]. rewrite fmap_cons in *. cbn [concat] in *. rewrite length_app in Ha.
  rewrite <- (take_drop (length (v1_wire f)) avs). rewrite zip_with_app by (rewrite length_take; lia).
  destruct (v1_decode_frame can_alloc max f (take (length (v1_wire f)) avs)
    (zip (concat (v1_wire <$> fs)) (drop (length (v1_wire f)) avs)) Hok) as (g & Hg & ->).
  { rewrite length_take. lia. }
  destruct (IH (drop (length (v1_wire f)) avs) Hfs) as (ms & Hms & ->); [rewrite length_drop; lia|].
  exists (g :: ms). split; [by constructor|done].
Qed.

(** ZMTP/1 framing round trips over any network, as ZMTP/2 does: the
    size field that counts the flags byte, in one byte or in eight, is
    undone, the [more] flag and the body of every message arrive, in
    order, and every other flag is dropped. *)
Theorem v1_roundtrip (can_alloc : Z -> bool) (max_msg_size : Z)
    (fs : list (frame * list (bool * Z))) (a : allocator) (limits : list Z) :
  Forall (fun p => v1_size_ok can_alloc max_msg_size (Z.of_nat (length (fr_body p.1)))) fs ->
  Forall (fun p => Forall (fun b => 1 <= b.2) p.2 /\ (length (v1_wire p.1) < length p.2)%nat) fs ->
  1 <= al_size a -> 1 <= al_max a ->
  (length (concat (v1_wire <$> fs.*1)) <= length limits)%nat ->
  exists stream e a' ms,
    enc_send v1_enc_step v1_encoder_new fs = Some (stream, e) /\ en_msg e = None /\
    engine_run (v1_dec_step can_alloc max_msg_size) v1_decoder_new a stream limits =
      Some (v1_decoder_new, a', [], ms, None) /\
    Forall2 v1_same (fs.*1) ms.
Proof.
  intros Hfs Hbufs Has Ham Hlim.
  destruct (enc_send_one v1_enc_step V1E_message_ready fs v1_encoder_new v1_two_pieces v1_next_message
    v1_encoder_new_ok eq_refl Hbufs) as (e & Hsend & Hm).
  destruct (engine_run_spec (v1_dec_step can_alloc max_msg_size)
    (v1_step_progress can_alloc max_msg_size) limits v1_decoder_new a (concat (v1_wire <$> fs.*1)))
    as (avs & d & a' & rest & ms & e' & Havs & Hrun & Hrest & Hdec); [unfold dec_ok; simpl; lia|done|done|done|].
  destruct (v1_decode_frames can_alloc max_msg_size (fs.*1) avs) as (ms' & Hms & Hdec'); [|done|].
  { apply Forall_fmap. exact Hfs. }
  rewrite Hdec in Hdec'. simplify_eq. rewrite (Hrest eq_refl) in Hrun.
  eexists _, e, a', ms'. split; [exact Hsend|]. done.
Qed.

(** ** Concrete runs *)

Definition v1_example : list (frame * list (bool * Z)) :=
  [(Frame type_vsm flag_more [1; 2; 3], replicate 6 (false, 2));
   (Frame type_vsm 0 [], replicate 3 (true, 8));
   (Frame type_lmsg flag_command (replicate 254 7), replicate 310 (true, 1))].

Lemma v1_roundtrip_witness :
  exists stream e a' ms,
    enc_send v1_enc_step v1_encoder_new v1_example = Some (stream, e) /\
    engine_run (v1_dec_step (fun _ => true) 1000) v1_decoder_new (Allocator_ false 64 64) stream
      (replicate 400 5) = Some (v1_decoder_new, a', [], ms, None) /\
    length ms = 3%nat.
Proof.
  destruct (v1_roundtrip (fun _ => true) 1000 v1_example (Allocator_ false 64 64) (replicate 400 5))
    as (stream & e & a' & ms & H1 & _ & H2 & H3).
  - repeat constructor; simpl; unfold sizeof_content; lia.
  - repeat constructor; simpl; lia.
  - simpl. lia.
  - simpl. lia.
  - apply Nat.leb_le. vm_compute. reflexivity.
  - exists stream, e, a', ms. split; [exact H1|]. split; [exact H2|]. by rewrite <- (Forall2_length H3).
Defined.
