(* ===== verification/Zap.v ===== *)
(** * Authentication over ZAP (src/src/zap_client.cpp, src/src/mechanism_base.cpp, src/src/session_base.cpp)

    A security mechanism asks the application's ZAP handler whether to admit
    a peer.  The session owns the pipe to the handler: the frames that wait
    on it and those written to it.  Whether there is a handler, and what it
    answers, is up to the environment.  The outer [option] is a failed
    assertion; the events that the socket's monitor is sent are recorded. *)

From Stdlib Require Import Bool.
From S2P Require Import Prelude Wire Options OptionsProps Mechanism Frame Codec.

(** ** Events *)

Inductive protocol_error :=
| ZMTP_UNSPECIFIED | ZMTP_UNEXPECTED_COMMAND | ZMTP_MALFORMED_COMMAND_UNSPECIFIED | ZMTP_MALFORMED_COMMAND_HELLO
| ZMTP_MALFORMED_COMMAND_ERROR | ZMTP_MALFORMED_COMMAND_WELCOME | ZMTP_MALFORMED_COMMAND_INITIATE | ZMTP_MALFORMED_COMMAND_READY
| ZMTP_MALFORMED_COMMAND_MESSAGE | ZMTP_INVALID_METADATA | ZMTP_INVALID_SEQUENCE | ZMTP_CRYPTOGRAPHIC | ZMTP_KEY_EXCHANGE
| ZAP_UNSPECIFIED | ZAP_MALFORMED_REPLY | ZAP_BAD_REQUEST_ID | ZAP_BAD_VERSION | ZAP_INVALID_STATUS_CODE | ZAP_INVALID_METADATA.

Inductive hs_event :=
| event_handshake_failed_protocol (err : protocol_error)
| event_handshake_failed_auth (status : Z)
| event_handshake_failed_no_detail (err : errno).

(** ** The session's side of the ZAP pipe *)

Record zap_session := Zs {
  zs_pipe : bool;          (** [_zap_pipe != NULL] *)
  zs_active : bool;        (** the pipe is not being terminated *)
  zs_in : list frame;
  zs_out : list frame;
}.

(** The socket bound to inproc://zeromq.zap.01: its type and whether it wants routing ids. *)
Abbreviation zap_endpoint := (option (Z * bool)).

Definition zap_connect (peer : zap_endpoint) (zs : zap_session) : option (zap_session * rc_t) :=
  if zs_pipe zs then Some (zs, None)
  else
    match peer with
    | None => Some (zs, Some ECONNREFUSED)
    | Some (type, recv_routing_id) =>
        zmq_assert ((type =? ZMQ_REP) || (type =? ZMQ_ROUTER) || (type =? ZMQ_SERVER)) ;;
        Some (Zs true true [] (if recv_routing_id then [Frame type_vsm flag_routing_id []] else []), None)
    end.

Definition read_zap_msg (zs : zap_session) : zap_session * (frame + errno) :=
  if negb (zs_pipe zs) then (zs, inr ENOTCONN)
  else
    match zs_in zs with
    | [] => (zs, inr EAGAIN)
    | f :: fs => (Zs true (zs_active zs) fs (zs_out zs), inl f)
    end.

Definition write_zap_msg (zs : zap_session) (f : frame) : zap_session * rc_t :=
  if negb (zs_pipe zs) || negb (zs_active zs) then (zs, Some ENOTCONN)
  else (Zs true true (zs_in zs) (zs_out zs ++ [f]), None).

(** ** What all mechanisms with ZAP keep *)

Record hstate := Hs {
  h_mech : mech;
  h_zap : zap_session;
  h_status_code : bytes;
  h_events : list hs_event;
}.

Definition hs_new (zs : zap_session) : hstate := Hs mech_new zs [] [].
Definition with_mech (h : hstate) (m : mech) : hstate := Hs m (h_zap h) (h_status_code h) (h_events h).
Definition with_zap (h : hstate) (zs : zap_session) : hstate := Hs (h_mech h) zs (h_status_code h) (h_events h).
Definition with_status (h : hstate) (s : bytes) : hstate := Hs (h_mech h) (h_zap h) s (h_events h).
Definition emit (h : hstate) (e : hs_event) : hstate := Hs (h_mech h) (h_zap h) (h_status_code h) (h_events h ++ [e]).

(** The usual failure: an event and EPROTO. *)
Definition fail_protocol (h : hstate) (err : protocol_error) : hstate * rc_t := (emit h (event_handshake_failed_protocol err), Some EPROTO).

Section zap.
Context (b : build) (o : options) (peer_address : bytes).

(** [mechanism_base_t] *)

Definition check_basic_command_structure (h : hstate) (data : bytes) : hstate * rc_t :=
  let size := Z.of_nat (length data) in
  if (size <=? 1) || (size <=? default 0 (data !! 0%nat)) then fail_protocol h ZMTP_MALFORMED_COMMAND_UNSPECIFIED else (h, None).

Definition handle_error_reason (h : hstate) (error_reason : bytes) : hstate :=
  match error_reason with
  | [d; z1; z2] =>
      if (z1 =? 48) && (z2 =? 48) && (51 <=? d) && (d <=? 53) then emit h (event_handshake_failed_auth ((d - 48) * 100)) else h
  | _ => h
  end.

Definition zap_required : bool := negb (bool_decide (op_str o s_zap_domain = [])).

(** [zap_client_t] *)

Definition zap_version : bytes := [49; 46; 48].
Definition zap_id : bytes := [49].

(** [init_size], the bytes and the flags. *)
Definition sized_frame (flags : Z) (data : bytes) : frame :=
  Frame (if Z.of_nat (length data) <=? max_vsm_size then type_vsm else type_lmsg) flags data.

Fixpoint credential_frames (credentials : list bytes) : list frame :=
  match credentials with
  | [] => []
  | [c] => [sized_frame 0 c]
  | c :: cs => sized_frame flag_more c :: credential_frames cs
  end.

Definition zap_request_frames (mechanism : bytes) (credentials : list bytes) : list frame :=
  [Frame type_vsm flag_more []; sized_frame flag_more zap_version; sized_frame flag_more zap_id;
   sized_frame flag_more (op_str o s_zap_domain); sized_frame flag_more peer_address; sized_frame flag_more (op_str o s_routing_id);
   sized_frame (if bool_decide (credentials = []) then 0 else flag_more) mechanism] ++ credential_frames credentials.

(** One [write_zap_msg] after the other, each with its assertion. *)
Fixpoint write_zap_frames (zs : zap_session) (fs : list frame) : option zap_session :=
  match fs with
  | [] => Some zs
  | f :: fs' => let '(zs, rc) := write_zap_msg zs f in zmq_assert (bool_decide (rc = None)) ;; write_zap_frames zs fs'
  end.

Definition send_zap_request (h : hstate) (mechanism : bytes) (credentials : list bytes) : option hstate :=
  let* zs := write_zap_frames (h_zap h) (zap_request_frames mechanism credentials) in Some (with_zap h zs).

Definition zap_reply_frame_count : nat := 7.

(** The loop that reads the reply: [left] frames to come. [inl] is the frames, [inr None] EAGAIN and
    [inr (Some e)] a failure. *)
Fixpoint read_reply (left : nat) (h : hstate) : hstate * (list frame + option errno) :=
  match left with
  | O => (h, inl [])
  | S left' =>
      match read_zap_msg (h_zap h) with
      | (zs, inr EAGAIN) => (with_zap h zs, inr None)
      | (zs, inr e) => (with_zap h zs, inr (Some e))
      | (zs, inl f) =>
          let h := with_zap h zs in
          if eqb (fr_more f) (match left' with O => true | S _ => false end) then
            let '(h, _) := fail_protocol h ZAP_MALFORMED_REPLY in (h, inr (Some EPROTO))
          else
            match read_reply left' h with
            | (h, inl fs) => (h, inl (f :: fs))
            | r => r
            end
      end
  end.

Inductive zap_result := zap_done | zap_again | zap_failed (e : errno).

(** [handle_zap_status_code] of [zap_client_t]; the status code is valid. *)
Definition handle_zap_status_code (h : hstate) : hstate :=
  match h_status_code h with
  | 51 :: _ => emit h (event_handshake_failed_auth 300)
  | 52 :: _ => emit h (event_handshake_failed_auth 400)
  | 53 :: _ => emit h (event_handshake_failed_auth 500)
  | _ => h
  end.

Definition valid_status (s : bytes) : bool :=
  match s with [d; z1; z2] => (50 <=? d) && (d <=? 53) && (z1 =? 48) && (z2 =? 48) | _ => false end.

(** [receive_and_process_zap_reply] of [zap_client_t], before the (virtual)
    call of [handle_zap_status_code]. *)
Definition receive_zap_reply (h : hstate) : option (hstate * zap_result) :=
  let protocol h err : option (hstate * zap_result) := Some ((fail_protocol h err).1, zap_failed EPROTO) in
  match read_reply zap_reply_frame_count h with
  | (h, inr None) => Some (h, zap_again)
  | (h, inr (Some e)) => Some (h, zap_failed e)
  | (h, inl fs) =>
      let body i := fr_body (nth i fs fr_empty) in
      if negb (bool_decide (body 0%nat = [])) then protocol h ZAP_UNSPECIFIED
      else if negb (bool_decide (body 1%nat = zap_version)) then protocol h ZAP_BAD_VERSION
      else if negb (bool_decide (body 2%nat = zap_id)) then protocol h ZAP_BAD_REQUEST_ID
      else if negb (valid_status (body 3%nat)) then protocol h ZAP_INVALID_STATUS_CODE
      else
        let h := with_status h (body 3%nat) in
        let h := with_mech h (set_user_id (h_mech h) (body 5%nat)) in
        let* (m, rc) := parse_metadata b o (h_mech h) (body 6%nat) (Z.of_nat (length (body 6%nat))) true in
        let h := with_mech h m in
        match rc with
        | Some _ => protocol h ZAP_INVALID_METADATA
        | None => Some (h, zap_done)
        end
  end.

(** As [zap_client_t] implements it. *)
Definition receive_and_process_zap_reply (h : hstate) : option (hstate * zap_result) :=
  let* (h, r) := receive_zap_reply h in
  match r with
  | zap_done => Some (handle_zap_status_code h, zap_done)
  | _ => Some (h, r)
  end.

End zap.

(** A command of a handshake begins with its name. *)
Definition has_prefix (prefix data : bytes) : bool := bool_decide (take (length prefix) data = prefix).
