(* ===== verification/Handshake.v ===== *)
(** * Handshakes of NULL and PLAIN (src/src/null_mechanism.cpp, src/src/plain_client.cpp, src/src/plain_server.cpp)

    A mechanism is driven by its engine: it is asked for the next command to
    send ([EAGAIN] when there is none), given the commands of the peer, and
    told when the ZAP handler answered.  A command is the body of the
    message that carries it.  The outer [option] is a failed assertion. *)

From Stdlib Require Import Bool String.
From S2P Require Import Prelude Wire Options OptionsProps Mechanism Frame Codec Zap.

Inductive mech_status := handshaking | mech_ready | mech_error.

(** ** NULL *)

Definition error_command_name : bytes := Eval vm_compute in 5 :: ascii_bytes "ERROR".
Definition ready_command_name : bytes := Eval vm_compute in 5 :: ascii_bytes "READY".
Definition null_mechanism_name : bytes := Eval vm_compute in ascii_bytes "NULL".
Definition status_200 : bytes := Eval vm_compute in ascii_bytes "200".
Definition status_300 : bytes := Eval vm_compute in ascii_bytes "300".

Record null_mechanism := Null {
  nl_h : hstate;
  nl_ready_command_sent : bool;
  nl_error_command_sent : bool;
  nl_ready_command_received : bool;
  nl_error_command_received : bool;
  nl_zap_request_sent : bool;
  nl_zap_reply_received : bool;
}.

Definition null_new (zs : zap_session) : null_mechanism := Null (hs_new zs) false false false false false false.

Definition nl_with (n : null_mechanism) (h : hstate) : null_mechanism :=
  Null h (nl_ready_command_sent n) (nl_error_command_sent n) (nl_ready_command_received n) (nl_error_command_received n)
    (nl_zap_request_sent n) (nl_zap_reply_received n).
Definition nl_sent (n : null_mechanism) (ready error : bool) : null_mechanism :=
  Null (nl_h n) ready error (nl_ready_command_received n) (nl_error_command_received n) (nl_zap_request_sent n) (nl_zap_reply_received n).
Definition nl_received (n : null_mechanism) (ready error : bool) : null_mechanism :=
  Null (nl_h n) (nl_ready_command_sent n) (nl_error_command_sent n) ready error (nl_zap_request_sent n) (nl_zap_reply_received n).
Definition nl_zap (n : null_mechanism) (request reply : bool) : null_mechanism :=
  Null (nl_h n) (nl_ready_command_sent n) (nl_error_command_sent n) (nl_ready_command_received n) (nl_error_command_received n) request reply.

Section null.
Context (b : build) (o : options) (peer_address : bytes).

(** The part of [next_handshake_command] that asks the ZAP handler: an error to return, or go on. *)
Definition null_ask_zap (peer : zap_endpoint) (n : null_mechanism) : option (null_mechanism * rc_t) :=
  if zap_required o && negb (nl_zap_reply_received n) then
    if nl_zap_request_sent n then Some (n, Some EAGAIN)
    else
      let* (zs, rc) := zap_connect peer (h_zap (nl_h n)) in
      let n := nl_with n (with_zap (nl_h n) zs) in
      match rc with
      | Some e =>
          if negb (op_int o m_zap_enforce_domain =? 0) then
            Some (nl_with n (emit (nl_h n) (event_handshake_failed_no_detail EFAULT)), Some e)
          else Some (n, None)
      | None =>
          let* h := send_zap_request o peer_address (nl_h n) null_mechanism_name [] in
          let n := nl_zap (nl_with n h) true (nl_zap_reply_received n) in
          let* (h, r) := receive_and_process_zap_reply b o (nl_h n) in
          let n := nl_with n h in
          match r with
          | zap_again => Some (n, Some EAGAIN)
          | zap_failed e => Some (n, Some e)
          | zap_done => Some (nl_zap n true true, None)
          end
      end
  else Some (n, None).

Definition null_next_handshake_command (peer : zap_endpoint) (n : null_mechanism) : option (null_mechanism * (bytes + errno)) :=
  if nl_ready_command_sent n || nl_error_command_sent n then Some (n, inr EAGAIN)
  else
    let* (n, rc) := null_ask_zap peer n in
    match rc with
    | Some e => Some (n, inr e)
    | None =>
        let status_code := h_status_code (nl_h n) in
        if nl_zap_reply_received n && negb (bool_decide (status_code = status_200)) then
          let n := nl_sent n (nl_ready_command_sent n) true in
          if negb (bool_decide (status_code = status_300)) then Some (n, inl (error_command_name ++ [3] ++ take 3 status_code))
          else Some (n, inr EAGAIN)
        else
          let* (_, msg) := make_command_with_basic_properties b o ready_command_name in
          Some (nl_sent n true (nl_error_command_sent n), inl msg)
    end.

Definition null_process_ready_command (n : null_mechanism) (cmd_data : bytes) : option (null_mechanism * rc_t) :=
  let n := nl_received n true (nl_error_command_received n) in
  let rest := drop (length ready_command_name) cmd_data in
  let* (m, rc) := parse_metadata b o (h_mech (nl_h n)) rest (Z.of_nat (length cmd_data) - Z.of_nat (length ready_command_name)) false in
  Some (nl_with n (with_mech (nl_h n) m), rc).

Definition null_process_error_command (n : null_mechanism) (cmd_data : bytes) : null_mechanism * rc_t :=
  let fail := let '(h, rc) := fail_protocol (nl_h n) ZMTP_MALFORMED_COMMAND_ERROR in (nl_with n h, rc) in
  match drop (length error_command_name) cmd_data with
  | [] => fail
  | error_reason_len :: reason =>
      if Z.of_nat (length reason) <? error_reason_len then fail
      else
        let n := nl_with n (handle_error_reason (nl_h n) (take (Z.to_nat error_reason_len) reason)) in
        (nl_received n (nl_ready_command_received n) true, None)
  end.

Definition null_process_handshake_command (n : null_mechanism) (cmd_data : bytes) : option (null_mechanism * rc_t) :=
  let unexpected := let '(h, rc) := fail_protocol (nl_h n) ZMTP_UNEXPECTED_COMMAND in Some (nl_with n h, rc) in
  if nl_ready_command_received n || nl_error_command_received n then unexpected
  else if has_prefix ready_command_name cmd_data then null_process_ready_command n cmd_data
  else if has_prefix error_command_name cmd_data then Some (null_process_error_command n cmd_data)
  else unexpected.

Definition null_zap_msg_available (n : null_mechanism) : option (null_mechanism * rc_t) :=
  if nl_zap_reply_received n then Some (n, Some EFSM)
  else
    let* (h, r) := receive_and_process_zap_reply b o (nl_h n) in
    let n := nl_with n h in
    match r with
    | zap_done => Some (nl_zap n (nl_zap_request_sent n) true, None)
    | zap_again => Some (n, None)
    | zap_failed e => Some (n, Some e)
    end.

Definition null_status (n : null_mechanism) : mech_status :=
  if nl_ready_command_sent n && nl_ready_command_received n then mech_ready
  else if (nl_ready_command_sent n || nl_error_command_sent n) && (nl_ready_command_received n || nl_error_command_received n)
  then mech_error else handshaking.

End null.

(** ** PLAIN *)

Definition hello_prefix : bytes := Eval vm_compute in 5 :: ascii_bytes "HELLO".
Definition welcome_prefix : bytes := Eval vm_compute in 7 :: ascii_bytes "WELCOME".
Definition initiate_prefix : bytes := Eval vm_compute in 8 :: ascii_bytes "INITIATE".
Definition ready_prefix : bytes := Eval vm_compute in 5 :: ascii_bytes "READY".
Definition error_prefix : bytes := Eval vm_compute in 5 :: ascii_bytes "ERROR".
Definition plain_mechanism_name : bytes := Eval vm_compute in ascii_bytes "PLAIN".

(** *** The client *)

Inductive pc_state_t := cl_sending_hello | cl_waiting_for_welcome | cl_sending_initiate | cl_waiting_for_ready | cl_error_command_received | cl_ready.

#[export] Instance pc_state_eq_dec : EqDecision pc_state_t.
Proof. solve_decision. Defined.

Record plain_client := Pc { pc_h : hstate; pc_state : pc_state_t }.

Definition plain_client_new (zs : zap_session) : plain_client := Pc (hs_new zs) cl_sending_hello.

Section plain.
Context (b : build) (o : options) (peer_address : bytes).

Definition produce_hello : option bytes :=
  let username := op_str o s_plain_username in
  zmq_assert (Z.of_nat (length username) <=? 255) ;;
  let password := op_str o s_plain_password in
  zmq_assert (Z.of_nat (length password) <=? 255) ;;
  Some (hello_prefix ++ [Z.of_nat (length username)] ++ username ++ [Z.of_nat (length password)] ++ password).

Definition pc_next_handshake_command (c : plain_client) : option (plain_client * (bytes + errno)) :=
  match pc_state c with
  | cl_sending_hello => let* msg := produce_hello in Some (Pc (pc_h c) cl_waiting_for_welcome, inl msg)
  | cl_sending_initiate =>
      let* (_, msg) := make_command_with_basic_properties b o initiate_prefix in
      Some (Pc (pc_h c) cl_waiting_for_ready, inl msg)
  | _ => Some (c, inr EAGAIN)
  end.

Definition pc_fail (c : plain_client) (err : protocol_error) : plain_client * rc_t :=
  let '(h, rc) := fail_protocol (pc_h c) err in (Pc h (pc_state c), rc).

Definition process_welcome (c : plain_client) (cmd_data : bytes) : plain_client * rc_t :=
  if negb (bool_decide (pc_state c = cl_waiting_for_welcome)) then pc_fail c ZMTP_UNEXPECTED_COMMAND
  else if negb (length cmd_data =? length welcome_prefix)%nat then pc_fail c ZMTP_MALFORMED_COMMAND_WELCOME
  else (Pc (pc_h c) cl_sending_initiate, None).

Definition process_ready (c : plain_client) (cmd_data : bytes) : option (plain_client * rc_t) :=
  if negb (bool_decide (pc_state c = cl_waiting_for_ready)) then Some (pc_fail c ZMTP_UNEXPECTED_COMMAND)
  else
    let rest := drop (length ready_prefix) cmd_data in
    let* (m, rc) := parse_metadata b o (h_mech (pc_h c)) rest (Z.of_nat (length cmd_data) - Z.of_nat (length ready_prefix)) false in
    let h := with_mech (pc_h c) m in
    match rc with
    | None => Some (Pc h cl_ready, None)
    | Some e => Some (Pc (emit h (event_handshake_failed_protocol ZMTP_INVALID_METADATA)) (pc_state c), Some e)
    end.

Definition process_error (c : plain_client) (cmd_data : bytes) : plain_client * rc_t :=
  if negb (bool_decide (pc_state c = cl_waiting_for_welcome)) && negb (bool_decide (pc_state c = cl_waiting_for_ready))
  then pc_fail c ZMTP_UNEXPECTED_COMMAND
  else
    match drop (length error_prefix) cmd_data with
    | [] => pc_fail c ZMTP_MALFORMED_COMMAND_ERROR
    | error_reason_len :: reason =>
        if Z.of_nat (length reason) <? error_reason_len then pc_fail c ZMTP_MALFORMED_COMMAND_ERROR
        else (Pc (handle_error_reason (pc_h c) (take (Z.to_nat error_reason_len) reason)) cl_error_command_received, None)
    end.

Definition pc_process_handshake_command (c : plain_client) (cmd_data : bytes) : option (plain_client * rc_t) :=
  if has_prefix welcome_prefix cmd_data then Some (process_welcome c cmd_data)
  else if has_prefix ready_prefix cmd_data then process_ready c cmd_data
  else if has_prefix error_prefix cmd_data then Some (process_error c cmd_data)
  else Some (pc_fail c ZMTP_UNEXPECTED_COMMAND).

Definition pc_status (c : plain_client) : mech_status :=
  match pc_state c with cl_ready => mech_ready | cl_error_command_received => mech_error | _ => handshaking end.

(** *** The server, and what it shares with CURVE ([zap_client_common_handshake_t]) *)

Inductive sv_state_t :=
| sv_waiting_for_hello | sv_sending_welcome | sv_waiting_for_initiate | sv_waiting_for_zap_reply | sv_sending_ready
| sv_sending_error | sv_error_sent | sv_ready.

#[export] Instance sv_state_eq_dec : EqDecision sv_state_t.
Proof. solve_decision. Defined.

Record plain_server := Ps { ps_h : hstate; ps_state : sv_state_t }.

Definition plain_server_new (zs : zap_session) : option plain_server :=
  if negb (op_int o m_zap_enforce_domain =? 0) then zmq_assert (zap_required o) ;; Some (Ps (hs_new zs) sv_waiting_for_hello)
  else Some (Ps (hs_new zs) sv_waiting_for_hello).

(** [handle_zap_status_code] of the common handshake. *)
Definition common_handle_status (zap_reply_ok_state : sv_state_t) (h : hstate) : plain_server :=
  let h := handle_zap_status_code h in
  match h_status_code h with
  | 50 :: _ => Ps h zap_reply_ok_state
  | 51 :: _ => Ps h sv_error_sent
  | _ => Ps h sv_sending_error
  end.

Definition common_receive_zap_reply (zap_reply_ok_state : sv_state_t) (s : plain_server) : option (plain_server * rc_t) :=
  zmq_assert (bool_decide (ps_state s = sv_waiting_for_zap_reply)) ;;
  let* (h, r) := receive_zap_reply b o (ps_h s) in
  match r with
  | zap_done => Some (common_handle_status zap_reply_ok_state h, None)
  | zap_again => Some (Ps h (ps_state s), None)
  | zap_failed e => Some (Ps h (ps_state s), Some e)
  end.

Definition ps_zap_msg_available (s : plain_server) : option (plain_server * rc_t) :=
  zmq_assert (bool_decide (ps_state s = sv_waiting_for_zap_reply)) ;; common_receive_zap_reply sv_sending_welcome s.

Definition ps_status (s : plain_server) : mech_status :=
  match ps_state s with sv_ready => mech_ready | sv_error_sent => mech_error | _ => handshaking end.

Definition ps_fail (s : plain_server) (err : protocol_error) : option (plain_server * rc_t) :=
  let '(h, rc) := fail_protocol (ps_h s) err in Some (Ps h (ps_state s), rc).

Definition process_hello (peer : zap_endpoint) (s : plain_server) (data : bytes) : option (plain_server * rc_t) :=
  match check_basic_command_structure (ps_h s) data with
  | (h, Some e) => Some (Ps h (ps_state s), Some e)
  | (_, None) =>
      if negb (has_prefix hello_prefix data) then ps_fail s ZMTP_UNEXPECTED_COMMAND
      else
        match drop (length hello_prefix) data with
        | [] => ps_fail s ZMTP_MALFORMED_COMMAND_HELLO
        | username_length :: ptr =>
            if Z.of_nat (length ptr) <? username_length then ps_fail s ZMTP_MALFORMED_COMMAND_HELLO
            else
              let username := take (Z.to_nat username_length) ptr in
              match drop (Z.to_nat username_length) ptr with
              | [] => ps_fail s ZMTP_MALFORMED_COMMAND_HELLO
              | password_length :: ptr =>
                  if negb (Z.of_nat (length ptr) =? password_length) then ps_fail s ZMTP_MALFORMED_COMMAND_HELLO
                  else
                    let password := take (Z.to_nat password_length) ptr in
                    let* (zs, rc) := zap_connect peer (h_zap (ps_h s)) in
                    let h := with_zap (ps_h s) zs in
                    match rc with
                    | Some e => Some (Ps (emit h (event_handshake_failed_no_detail EFAULT)) (ps_state s), Some e)
                    | None =>
                        let* h := send_zap_request o peer_address h plain_mechanism_name [username; password] in
                        common_receive_zap_reply sv_sending_welcome (Ps h sv_waiting_for_zap_reply)
                    end
              end
        end
  end.

Definition process_initiate (s : plain_server) (data : bytes) : option (plain_server * rc_t) :=
  if negb (has_prefix initiate_prefix data) then ps_fail s ZMTP_UNEXPECTED_COMMAND
  else
    let rest := drop (length initiate_prefix) data in
    let* (m, rc) := parse_metadata b o (h_mech (ps_h s)) rest (Z.of_nat (length data) - Z.of_nat (length initiate_prefix)) false in
    let h := with_mech (ps_h s) m in
    match rc with
    | None => Some (Ps h sv_sending_ready, None)
    | Some e => Some (Ps h (ps_state s), Some e)
    end.

Definition ps_process_handshake_command (peer : zap_endpoint) (s : plain_server) (data : bytes) : option (plain_server * rc_t) :=
  match ps_state s with
  | sv_waiting_for_hello => process_hello peer s data
  | sv_waiting_for_initiate => process_initiate s data
  | _ => ps_fail s ZMTP_UNSPECIFIED
  end.

Definition produce_error (s : plain_server) : option bytes :=
  let status_code := h_status_code (ps_h s) in
  zmq_assert (length status_code =? 3)%nat ;; Some (error_prefix ++ [3] ++ status_code).

Definition ps_next_handshake_command (s : plain_server) : option (plain_server * (bytes + errno)) :=
  match ps_state s with
  | sv_sending_welcome => Some (Ps (ps_h s) sv_waiting_for_initiate, inl welcome_prefix)
  | sv_sending_ready =>
      let* (_, msg) := make_command_with_basic_properties b o ready_prefix in
      Some (Ps (ps_h s) sv_ready, inl msg)
  | sv_sending_error => let* msg := produce_error s in Some (Ps (ps_h s) sv_error_sent, inl msg)
  | _ => Some (s, inr EAGAIN)
  end.

End plain.
