(* ===== verification/HandshakeProps.v ===== *)
(** * Handshakes: who is admitted, and that handshakes succeed

    A peer is admitted only on the word of the ZAP handler ([null_admits],
    [plain_server_admits], by induction on the calls of an engine in any
    order, with any commands and any frames from the handler), and the two
    sides of a NULL or PLAIN handshake come to the same end. *)

From Stdlib Require Import Bool.
From S2P Require Import Prelude Wire Options OptionsProps Mechanism Frame Codec Zap Handshake.

(** ** The reply of the ZAP handler *)

(** Seven frames, the fourth of which is the status. *)
Definition reply_says (fs : list frame) (status : bytes) : Prop :=
  length fs = 7%nat /\ is_message fs = true /\ fr_body (nth 0 fs fr_empty) = [] /\ fr_body (nth 1 fs fr_empty) = zap_version /\
  fr_body (nth 2 fs fr_empty) = zap_id /\ fr_body (nth 3 fs fr_empty) = status.

Lemma is_message_cons_more f f' fs : is_message (f :: f' :: fs) = fr_more f && is_message (f' :: fs).
Proof. done. Qed.

Lemma read_reply_spec k : forall h h' r, read_reply k h = (h', r) ->
  exists fs, zs_in (h_zap h) = fs ++ zs_in (h_zap h') /\ zs_out (h_zap h') = zs_out (h_zap h) /\ zs_pipe (h_zap h') = zs_pipe (h_zap h) /\
    h_status_code h' = h_status_code h /\ h_mech h' = h_mech h /\
    match r with inl l => l = fs /\ length fs = k /\ (k <> 0%nat -> is_message fs = true) | inr _ => True end.
Proof.
  induction k as [|k IH]; intros h h' r E; cbn [read_reply] in E; [injection E as <- <-; by exists []|].
  unfold read_zap_msg in E. destruct (zs_pipe (h_zap h)) eqn:Ep; cbn [negb] in E; [|injection E as <- <-; exists []; by split_and!].
  destruct (zs_in (h_zap h)) as [|f fs] eqn:Ei; [injection E as <- <-; exists []; simpl; by split_and!|].
  destruct (eqb (fr_more f) _) eqn:Em; [simpl in E; injection E as <- <-; exists [f]; simpl; by split_and!|].
  destruct (read_reply k _) as [h1 r1] eqn:Er. apply IH in Er as (gs & Hin & Hout & Hp & Hs & Hm & Hr). simpl in *.
  assert (h' = h1) as -> by (by destruct r1; injection E). exists (f :: gs). split_and!; try done; [by rewrite Hin|].
  destruct r1 as [l|e]; injection E as <-; [|done]. destruct Hr as (-> & Hl & Hmsg). split_and!; [done|simpl; lia|]. intros _.
  destruct k as [|k]; [destruct gs; [|done]; simpl in *; by destruct (fr_more f)|]. specialize (Hmsg ltac:(lia)).
  destruct gs as [|g gs]; [done|]. rewrite is_message_cons_more, Hmsg. by destruct (fr_more f).
Qed.

Lemma receive_zap_reply_spec b o h h' r : receive_zap_reply b o h = Some (h', r) ->
  exists fs, zs_in (h_zap h) = fs ++ zs_in (h_zap h') /\ zs_out (h_zap h') = zs_out (h_zap h) /\ zs_pipe (h_zap h') = zs_pipe (h_zap h) /\
    (r = zap_done -> reply_says fs (h_status_code h') /\ valid_status (h_status_code h') = true).
Proof.
  unfold receive_zap_reply. destruct (read_reply _ h) as [h1 r1] eqn:Er. apply read_reply_spec in Er as (fs & Hin & Hout & Hp & Hs & Hm & Hr).
  intros E. destruct r1 as [l|[e|]]; [|injection E as <- <-; by exists fs..].
  destruct Hr as (-> & Hl & Hmsg). specialize (Hmsg ltac:(done)). exists fs.
  repeat (case_bool_decide; cbn [negb] in E; [|injection E as <- <-; by split_and!]).
  destruct (valid_status _) eqn:Ev; cbn [negb] in E; [|injection E as <- <-; by split_and!].
  destruct (parse_metadata _ _ _ _ _ _) as [[m [e|]]|]; cbn [mbind option_bind] in E; [| |done]; injection E as <- <-; split_and!; try done.
Qed.

Lemma valid_status_cases s : valid_status s = true -> exists d, s = [d; 48; 48] /\ 50 <= d <= 53.
Proof.
  destruct s as [|d [|z1 [|z2 [|]]]]; try done. simpl. intros H. bool_prop. exists d. split; [by subst|lia].
Qed.

Lemma handle_status_zap h : h_zap (handle_zap_status_code h) = h_zap h /\ h_status_code (handle_zap_status_code h) = h_status_code h.
Proof. unfold handle_zap_status_code. by repeat case_match. Qed.

Lemma write_zap_frames_spec fs : forall zs zs', write_zap_frames zs fs = Some zs' ->
  zs_in zs' = zs_in zs /\ zs_out zs' = zs_out zs ++ fs /\ zs_pipe zs' = zs_pipe zs.
Proof.
  induction fs as [|f fs IH]; intros zs zs' E; simpl in E; [injection E as <-; by rewrite app_nil_r|].
  unfold write_zap_msg in E. destruct (zs_pipe zs) eqn:Ep, (zs_active zs); simpl in E; try done.
  apply IH in E as (-> & -> & ->). simpl. by rewrite <- app_assoc.
Qed.

Lemma zap_connect_spec peer zs zs' rc : zap_connect peer zs = Some (zs', rc) ->
  zs_in zs' = zs_in zs \/ zs_in zs' = [].
Proof.
  unfold zap_connect. destruct (zs_pipe zs); [intros [= <- <-]; by left|]. destruct peer as [[t r]|]; [|intros [= <- <-]; by left].
  destruct (_ || _); [|done]. intros [= <- <-]. by right.
Qed.

(** ** The frames from the handler, and the end of the pipe *)

(** What can happen on the ZAP pipe between two calls of the engine. *)
Inductive zap_env : zap_session -> list frame -> zap_session -> Prop :=
| ze_arrive zs fs : zs_pipe zs = true -> zap_env zs fs (Zs (zs_pipe zs) (zs_active zs) (zs_in zs ++ fs) (zs_out zs))
| ze_close zs : zap_env zs [] (Zs (zs_pipe zs) false (zs_in zs) (zs_out zs))
| ze_terminated zs : zap_env zs [] (Zs false (zs_active zs) (zs_in zs) (zs_out zs)).

Definition zs_new : zap_session := Zs false true [] [].

(** What arrived and was not read yet is the end of all that arrived. *)
Definition unread (arrived : list frame) (zs : zap_session) : Prop := exists pre, arrived = pre ++ zs_in zs.

Lemma unread_env arrived zs fs zs' : unread arrived zs -> zap_env zs fs zs' -> unread (arrived ++ fs) zs' /\ zs_out zs' = zs_out zs.
Proof.
  intros [pre ->] He. split; [|by destruct He]. exists pre. destruct He; simpl; by rewrite ?app_nil_r, ?app_assoc.
Qed.

Lemma unread_drop arrived zs zs' fs : unread arrived zs -> zs_in zs = fs ++ zs_in zs' -> unread arrived zs'.
Proof. intros [pre ->] ->. exists (pre ++ fs). by rewrite app_assoc. Qed.

Lemma unread_connect arrived peer zs zs' rc : unread arrived zs -> zap_connect peer zs = Some (zs', rc) -> unread arrived zs'.
Proof.
  intros [pre ->] [E|E]%zap_connect_spec; rewrite ?E; [by exists pre; rewrite E|]. exists (pre ++ zs_in zs). by rewrite E, app_nil_r.
Qed.

(** A reply with this status was among what arrived. *)
Definition answered (arrived : list frame) (status : bytes) : Prop := exists pre fs post, arrived = pre ++ fs ++ post /\ reply_says fs status.

Lemma answered_app arrived fs status : answered arrived status -> answered (arrived ++ fs) status.
Proof. intros (pre & gs & post & -> & H). exists pre, gs, (post ++ fs). split; [by rewrite <- !app_assoc|done]. Qed.

Lemma answered_read arrived zs zs' fs status : unread arrived zs -> zs_in zs = fs ++ zs_in zs' -> reply_says fs status -> answered arrived status.
Proof. intros [pre ->] -> H. by exists pre, fs, (zs_in zs'). Qed.

(** A server that reads a reply goes on only when the status is 200. *)
Lemma common_receive_spec b o ok arrived s s' rc : unread arrived (h_zap (ps_h s)) -> common_receive_zap_reply b o ok s = Some (s', rc) ->
  unread arrived (h_zap (ps_h s')) /\ zs_out (h_zap (ps_h s')) = zs_out (h_zap (ps_h s)) /\
  (ps_state s' = sv_waiting_for_zap_reply \/ ps_state s' = sv_sending_error \/ ps_state s' = sv_error_sent \/
   (ps_state s' = ok /\ answered arrived status_200)).
Proof.
  intros Hu E. unfold common_receive_zap_reply in E. case_bool_decide as Hst; [|done].
  destruct (receive_zap_reply b o (ps_h s)) as [[h r]|] eqn:Er; [|done]. cbn [mbind option_bind] in E.
  destruct (receive_zap_reply_spec _ _ _ _ _ Er) as (fs & Hin & Hout & _ & Hdone).
  assert (unread arrived (h_zap h)) as Hu' by (by eapply unread_drop).
  destruct r; [|injection E as <- <-; split_and!; [done|done|by left]..].
  destruct (Hdone eq_refl) as [Hsays (d & Hd & Hr)%valid_status_cases]. injection E as <- <-.
  destruct (handle_status_zap h) as [Hz Hs]. unfold common_handle_status. rewrite Hs, Hd.
  assert (answered arrived (h_status_code h)) as Hans by (exact (answered_read _ _ _ _ _ Hu Hin Hsays)).
  assert (d = 50 \/ d = 51 \/ d = 52 \/ d = 53) as Hcases by lia. rewrite Hd in Hans.
  destruct Hcases as [->|[->|[->| ->]]]; simpl; rewrite ?Hz; split_and!; try done; tauto.
Qed.

(** ** The PLAIN server *)

Section plain_server.
Context (b : build) (o : options) (peer_address : bytes).

Definition hello_command (u p : bytes) : bytes :=
  hello_prefix ++ [Z.of_nat (length u)] ++ u ++ [Z.of_nat (length p)] ++ p.

(** The states an engine can bring a server to: the commands it was given
    and the frames that arrived from the ZAP handler. *)
Inductive ps_reach : list bytes -> list frame -> plain_server -> Prop :=
| pr_new s : plain_server_new o zs_new = Some s -> ps_reach [] [] s
| pr_process cmds arrived s peer data s' rc : ps_reach cmds arrived s -> bytes_ok data ->
    ps_process_handshake_command b o peer_address peer s data = Some (s', rc) -> ps_reach (cmds ++ [data]) arrived s'
| pr_next cmds arrived s s' r : ps_reach cmds arrived s -> ps_next_handshake_command b o s = Some (s', r) -> ps_reach cmds arrived s'
| pr_available cmds arrived s s' rc : ps_reach cmds arrived s -> ps_zap_msg_available b o s = Some (s', rc) -> ps_reach cmds arrived s'
| pr_env cmds arrived s fs zs : ps_reach cmds arrived s -> zap_env (h_zap (ps_h s)) fs zs ->
    ps_reach cmds (arrived ++ fs) (Ps (with_zap (ps_h s) zs) (ps_state s)).

(** The credentials of a HELLO were put to the handler. *)
Definition asked (cmds : list bytes) (zs : zap_session) : Prop :=
  exists u p pre post, hello_command u p ∈ cmds /\ zs_out zs = pre ++ zap_request_frames o peer_address plain_mechanism_name [u; p] ++ post.

Definition admitted (st : sv_state_t) : bool :=
  match st with sv_sending_welcome | sv_waiting_for_initiate | sv_sending_ready | sv_ready => true | _ => false end.

Record ps_inv (cmds : list bytes) (arrived : list frame) (s : plain_server) : Prop := {
  pi_unread : unread arrived (h_zap (ps_h s));
  pi_asked : ps_state s <> sv_waiting_for_hello -> asked cmds (h_zap (ps_h s));
  pi_answered : admitted (ps_state s) = true -> answered arrived status_200;
}.

Lemma asked_more cmds cmds' zs zs' : asked cmds zs -> zs_out zs' = zs_out zs -> asked (cmds ++ cmds') zs'.
Proof. intros (u & p & pre & post & Hin & Hout) E. exists u, p, pre, post. rewrite E. split; [apply elem_of_app; by left|done]. Qed.

(** The server learns the status of a reply it reads. *)
Lemma receive_inv cmds arrived s s' rc : unread arrived (h_zap (ps_h s)) -> asked cmds (h_zap (ps_h s)) ->
  common_receive_zap_reply b o sv_sending_welcome s = Some (s', rc) -> ps_inv cmds arrived s'.
Proof.
  intros Hu Ha E. destruct (common_receive_spec _ _ _ _ _ _ _ Hu E) as (Hu' & Hout & Hst).
  assert (asked cmds (h_zap (ps_h s'))) as Ha' by (rewrite <- (app_nil_r cmds); by eapply asked_more).
  split; [done|done|]. by destruct Hst as [->|[->|[->|[-> Hans]]]].
Qed.

Lemma has_prefix_split prefix data : has_prefix prefix data = true -> data = prefix ++ drop (length prefix) data.
Proof. unfold has_prefix. intros H. apply bool_decide_eq_true_1 in H. rewrite <- H at 1. by rewrite take_drop. Qed.

Lemma process_hello_inv cmds arrived s peer data s' rc : ps_inv cmds arrived s -> ps_state s = sv_waiting_for_hello -> bytes_ok data ->
  process_hello b o peer_address peer s data = Some (s', rc) -> ps_inv (cmds ++ [data]) arrived s'.
Proof.
  intros [Hu _ _] Hst Hok E.
  assert (forall h rc', h_zap h = h_zap (ps_h s) -> Some (Ps h (ps_state s), rc') = Some (s', rc) -> ps_inv (cmds ++ [data]) arrived s') as Hkeep
    by (intros h rc' Hz [= <- <-]; split; simpl; rewrite ?Hz, ?Hst; done).
  unfold process_hello in E. destruct (check_basic_command_structure (ps_h s) data) as [h [e|]] eqn:Ec.
  { eapply Hkeep; [|exact E]. unfold check_basic_command_structure in Ec. destruct (_ || _); by injection Ec as <- _. }
  destruct (has_prefix hello_prefix data) eqn:Ep; cbn [negb] in E; [|by eapply Hkeep; [|exact E]].
  apply has_prefix_split in Ep. destruct (drop (length hello_prefix) data) as [|ul ptr] eqn:Ed; [by eapply Hkeep; [|exact E]|].
  assert (bytes_ok (ul :: ptr)) as Hok1 by (rewrite <- Ed; by apply Forall_drop). apply Forall_cons_1 in Hok1 as [Hul Hok1]. unfold is_u8 in Hul.
  destruct (Z.of_nat (length ptr) <? ul) eqn:E1; bool_prop; [by eapply Hkeep; [|exact E]|].
  destruct (drop (Z.to_nat ul) ptr) as [|pl ptr2] eqn:Ed2; [by eapply Hkeep; [|exact E]|].
  destruct (Z.of_nat (length ptr2) =? pl) eqn:E2; bool_prop; cbn [negb] in E; [|by eapply Hkeep; [|exact E]].
  set (u := take (Z.to_nat ul) ptr) in *.
  assert (take (Z.to_nat pl) ptr2 = ptr2) as Et by (apply take_ge; lia). rewrite Et in E.
  assert (data = hello_command u ptr2) as Edata.
  { rewrite Ep. unfold hello_command. f_equal. cbn [app]. assert (Z.of_nat (length u) = ul) as -> by (unfold u; rewrite length_take; lia).
    f_equal. rewrite E2, <- Ed2. symmetry. apply take_drop. }
  destruct (zap_connect peer _) as [[zs [e|]]|] eqn:Ez; cbn [mbind option_bind] in E; [| |done].
  { injection E as <- <-. split; simpl; rewrite ?Hst; try done. by eapply unread_connect. }
  destruct (send_zap_request _ _ _ _ _) as [h1|] eqn:Esend; cbn [mbind option_bind] in E; [|done].
  unfold send_zap_request in Esend. destruct (write_zap_frames _ _) as [zs1|] eqn:Ew; cbn [mbind option_bind] in Esend; [|done]. injection Esend as <-.
  apply write_zap_frames_spec in Ew as (Hin & Hout & _). simpl in Hin, Hout.
  eapply receive_inv; [| |exact E]; simpl.
  - eapply (unread_drop _ zs _ []); [by eapply unread_connect|]. by rewrite Hin.
  - exists u, ptr2, (zs_out zs), []. rewrite app_nil_r. split; [|exact Hout]. apply elem_of_app. right. rewrite <- Edata. by apply list_elem_of_singleton.
Qed.

Lemma ps_reach_inv cmds arrived s : ps_reach cmds arrived s -> ps_inv cmds arrived s.
Proof.
  induction 1 as [s E|cmds arrived s peer data s' rc _ IH Hok E|cmds arrived s s' r _ IH E|cmds arrived s s' rc _ IH E|cmds arrived s fs zs _ IH He].
  - unfold plain_server_new in E. assert (s = Ps (hs_new zs_new) sv_waiting_for_hello) as -> by (repeat case_match; by simplify_eq).
    split; simpl; [by exists []|done|done].
  - unfold ps_process_handshake_command in E. destruct (ps_state s) eqn:Est;
      try (injection E as <- <-; destruct IH as [Hu Ha Hn]; rewrite Est in *; split; simpl; rewrite ?Est; [done|intros _; by eapply asked_more, eq_refl; apply Ha|done]).
    + by eapply process_hello_inv.
    + unfold process_initiate in E. destruct IH as [Hu Ha Hn]. rewrite Est in *.
      assert (asked (cmds ++ [data]) (h_zap (ps_h s))) as Ha' by (by eapply asked_more; [apply Ha|]).
      destruct (has_prefix _ _); cbn [negb] in E; [|injection E as <- <-; split; simpl; by rewrite ?Est].
      destruct (parse_metadata _ _ _ _ _ _) as [[m [e|]]|]; cbn [mbind option_bind] in E; [| |done]; injection E as <- <-; split; simpl; by rewrite ?Est.
  - destruct IH as [Hu Ha Hn]. unfold ps_next_handshake_command in E. destruct (ps_state s) eqn:Est;
      try (injection E as <- <-; split; simpl; rewrite ?Est; done || (intros _; by apply Ha)).
    + destruct (make_command_with_basic_properties _ _ _) as [[? ?]|]; [|done]. injection E as <- <-. split; simpl; try done. intros _. by apply Ha.
    + destruct (produce_error s); [|done]. injection E as <- <-. split; simpl; try done. intros _. by apply Ha.
  - unfold ps_zap_msg_available in E. case_bool_decide as Hst; [|done]. eapply receive_inv; [apply IH| |exact E]. apply IH. by rewrite Hst.
  - destruct IH as [Hu Ha Hn]. destruct (unread_env _ _ _ _ Hu He) as [Hu' Hout]. split; simpl; [done| |].
    + intros Hst. rewrite <- (app_nil_r cmds). eapply asked_more; [by apply Ha|done].
    + intros Hst. by apply answered_app, Hn.
Qed.

End plain_server.

(** ** NULL *)

Section null_mechanism.
Context (b : build) (o : options) (peer_address : bytes).

Inductive null_reach : list frame -> null_mechanism -> Prop :=
| nr_new : null_reach [] (null_new zs_new)
| nr_process arrived n data n' rc : null_reach arrived n -> null_process_handshake_command b o n data = Some (n', rc) -> null_reach arrived n'
| nr_next arrived n peer n' r : null_reach arrived n -> null_next_handshake_command b o peer_address peer n = Some (n', r) -> null_reach arrived n'
| nr_available arrived n n' rc : null_reach arrived n -> null_zap_msg_available b o n = Some (n', rc) -> null_reach arrived n'
| nr_env arrived n fs zs : null_reach arrived n -> zap_env (h_zap (nl_h n)) fs zs -> null_reach (arrived ++ fs) (nl_with n (with_zap (nl_h n) zs)).

(** ZAP has the last word: a domain is set, and enforced. *)
Definition zap_enforced : bool := zap_required o && negb (op_int o m_zap_enforce_domain =? 0).

Record null_inv (arrived : list frame) (n : null_mechanism) : Prop := {
  ni_unread : unread arrived (h_zap (nl_h n));
  ni_answered : nl_zap_reply_received n = true -> answered arrived (h_status_code (nl_h n));
  ni_ready : nl_ready_command_sent n = true -> zap_enforced = true ->
    nl_zap_reply_received n = true /\ h_status_code (nl_h n) = status_200;
}.

Lemma receive_and_process_spec h h' r : receive_and_process_zap_reply b o h = Some (h', r) ->
  exists fs, zs_in (h_zap h) = fs ++ zs_in (h_zap h') /\ (r = zap_done -> reply_says fs (h_status_code h')).
Proof.
  unfold receive_and_process_zap_reply. destruct (receive_zap_reply b o h) as [[h1 r1]|] eqn:Er; [|done]. cbn [mbind option_bind]. intros E.
  destruct (receive_zap_reply_spec _ _ _ _ _ Er) as (fs & Hin & _ & _ & Hd). exists fs.
  destruct r1; injection E as <- <-; [|by split..]. destruct (handle_status_zap h1) as [-> ->]. split; [done|]. intros _. by apply Hd.
Qed.

(** Asking the handler ends with an answer, when one is required. *)
Lemma null_ask_zap_inv arrived peer n n' rc : null_inv arrived n -> nl_ready_command_sent n = false ->
  null_ask_zap b o peer_address peer n = Some (n', rc) ->
  null_inv arrived n' /\ nl_ready_command_sent n' = false /\ (rc = None -> zap_enforced = true -> nl_zap_reply_received n' = true).
Proof.
  intros [Hu Ha Hr] Hrs E. unfold null_ask_zap in E.
  destruct (zap_required o) eqn:Ez; cbn [andb] in E; [|injection E as <- <-; split_and!; [by split|done|unfold zap_enforced; by rewrite Ez]].
  destruct (nl_zap_reply_received n) eqn:Er; cbn [negb] in E; [injection E as <- <-; split_and!; [by split; rewrite ?Er|done|done]|].
  destruct (nl_zap_request_sent n); [injection E as <- <-; split_and!; [by split; rewrite ?Er|done|done]|].
  destruct (zap_connect peer _) as [[zs [e|]]|] eqn:Ec; cbn [mbind option_bind] in E; [| |done]; pose proof (unread_connect _ _ _ _ _ Hu Ec) as Hu1.
  { destruct (negb _) eqn:Ee; injection E as <- <-; (split_and!; [split; simpl; by rewrite ?Hrs, ?Er|done|]); [done|].
    unfold zap_enforced. by rewrite Ee, andb_false_r. }
  destruct (send_zap_request _ _ _ _ _) as [h1|] eqn:Es; cbn [mbind option_bind] in E; [|done].
  unfold send_zap_request in Es. destruct (write_zap_frames _ _) as [zs1|] eqn:Ew; cbn [mbind option_bind] in Es; [|done]. injection Es as <-.
  apply write_zap_frames_spec in Ew as (Hin & _ & _). simpl in Hin.
  destruct (receive_and_process_zap_reply b o _) as [[h2 r]|] eqn:Ep; cbn [mbind option_bind] in E; [|done].
  apply receive_and_process_spec in Ep as (fs & Hin2 & Hdone). simpl in Hin2.
  assert (unread arrived zs1) as Hu2 by (eapply (unread_drop _ zs _ []); [done|by rewrite Hin]).
  assert (unread arrived (h_zap h2)) as Hu3 by (by eapply unread_drop).
  destruct r; injection E as <- <-; split_and!; try done; split; simpl; rewrite ?Hrs, ?Er; try done.
  intros _. exact (answered_read _ _ _ _ _ Hu2 Hin2 (Hdone eq_refl)).
Qed.

Lemma null_next_inv arrived peer n n' r : null_inv arrived n ->
  null_next_handshake_command b o peer_address peer n = Some (n', r) -> null_inv arrived n'.
Proof.
  intros Hi E. unfold null_next_handshake_command in E. destruct (nl_ready_command_sent n) eqn:Ers; [by injection E as <- <-|].
  destruct (nl_error_command_sent n); cbn [orb] in E; [by injection E as <- <-|].
  destruct (null_ask_zap _ _ _ _ _) as [[n1 rc]|] eqn:Ez; cbn [mbind option_bind] in E; [|done].
  destruct (null_ask_zap_inv _ _ _ _ _ Hi Ers Ez) as ([Hu Ha Hr] & Hrs1 & Hrep). destruct rc as [e|]; [by injection E as <- <-|].
  destruct (nl_zap_reply_received n1 && negb (bool_decide (h_status_code (nl_h n1) = status_200))) eqn:Est.
  - destruct (negb _) in E; injection E as <- <-; split; simpl; rewrite ?Hrs1; done.
  - destruct (make_command_with_basic_properties _ _ _) as [[? ?]|]; cbn [mbind option_bind] in E; [|done]. injection E as <- <-.
    split; simpl; [done..|]. intros _ Henf. specialize (Hrep eq_refl Henf). split; [done|]. rewrite Hrep in Est. simpl in Est.
    apply negb_false_iff in Est. by apply bool_decide_eq_true_1 in Est.
Qed.

Lemma null_process_inv arrived n data n' rc : null_inv arrived n -> null_process_handshake_command b o n data = Some (n', rc) -> null_inv arrived n'.
Proof.
  intros [Hu Ha Hr] E. unfold null_process_handshake_command in E. destruct (_ || _); [by injection E as <- <-|].
  destruct (has_prefix ready_command_name data).
  { unfold null_process_ready_command in E. destruct (parse_metadata _ _ _ _ _ _) as [[m rc']|]; [|done]. by injection E as <- <-. }
  destruct (has_prefix error_command_name data); [|by injection E as <- <-]. injection E as E. unfold null_process_error_command in E.
  destruct (drop _ data) as [|len reason]; [by injection E as <- <-|]. destruct (_ <? len); [by injection E as <- <-|]. injection E as <- <-.
  assert (forall r, h_zap (handle_error_reason (nl_h n) r) = h_zap (nl_h n) /\ h_status_code (handle_error_reason (nl_h n) r) = h_status_code (nl_h n)) as Hh
    by (intros r; unfold handle_error_reason; by repeat case_match).
  split; simpl; by rewrite ?(proj1 (Hh _)), ?(proj2 (Hh _)).
Qed.

Lemma null_reach_inv arrived n : null_reach arrived n -> null_inv arrived n.
Proof.
  induction 1 as [|arrived n data n' rc _ IH E|arrived n peer n' r _ IH E|arrived n n' rc _ IH E|arrived n fs zs _ IH He].
  - split; simpl; [by exists []|done|done].
  - by eapply null_process_inv.
  - by eapply null_next_inv.
  - unfold null_zap_msg_available in E. destruct IH as [Hu Ha Hr]. destruct (nl_zap_reply_received n) eqn:Er; [by injection E as <- <-; split; rewrite ?Er|].
    destruct (receive_and_process_zap_reply b o _) as [[h r]|] eqn:Ep; cbn [mbind option_bind] in E; [|done].
    apply receive_and_process_spec in Ep as (fs & Hin & Hdone). assert (unread arrived (h_zap h)) as Hu' by (by eapply unread_drop).
    destruct r; injection E as <- <-; split; simpl; try done; try (rewrite ?Er; intros H1 H2; by destruct (Hr H1 H2)).
    + intros _. exact (answered_read _ _ _ _ _ Hu Hin (Hdone eq_refl)).
    + by rewrite Er.
    + by rewrite Er.
  - destruct IH as [Hu Ha Hr]. destruct (unread_env _ _ _ _ Hu He) as [Hu' _]. split; simpl; [done|intros H; by apply answered_app, Ha|done].
Qed.

End null_mechanism.

(** ** Theorems: who is admitted *)

(** A PLAIN server admits nobody on its own. Whatever commands the peer
    sends, whatever the ZAP handler sends and in whatever order the engine
    calls, a server that sends WELCOME or READY, or is ready, put the user
    name and password of a HELLO it received to the handler, and read a
    reply with status 200 from it. *)
Theorem plain_server_admits b o peer_address cmds arrived s : ps_reach b o peer_address cmds arrived s ->
  admitted (ps_state s) = true ->
  (exists u p pre post, hello_command u p ∈ cmds /\
     zs_out (h_zap (ps_h s)) = pre ++ zap_request_frames o peer_address plain_mechanism_name [u; p] ++ post) /\
  (exists pre fs post, arrived = pre ++ fs ++ post /\ reply_says fs status_200).
Proof.
  intros Hr Had. destruct (ps_reach_inv _ _ _ _ _ _ Hr) as [_ Ha Hn]. split; [|by apply Hn].
  apply Ha. intros E. by rewrite E in Had.
Qed.

(** With a ZAP domain that is enforced a NULL connection is ready only
    when the handler said so: whatever the peer and the handler send and in
    whatever order, READY is sent only after a reply with status 200. *)
Theorem null_admits b o peer_address arrived n : null_reach b o peer_address arrived n -> zap_enforced o = true ->
  nl_ready_command_sent n = true -> exists pre fs post, arrived = pre ++ fs ++ post /\ reply_says fs status_200.
Proof.
  intros Hr He Hs. destruct (null_reach_inv _ _ _ _ _ Hr) as [_ Ha Hready]. destruct (Hready Hs He) as [Hrep <-]. by apply Ha.
Qed.

(** ** Theorems: handshakes succeed *)

(** Two NULL sockets without ZAP agree: each sends READY, and when their
    types can talk to each other both are ready and know what the other
    announced; otherwise both refuse with EINVAL. *)
Theorem null_handshake b o1 o2 a1 a2 : announce_ok b o1 -> announce_ok b o2 -> zap_required o1 = false -> zap_required o2 = false ->
  exists n1 c1 n2 c2 n1' n2' rc,
    null_next_handshake_command b o1 a1 None (null_new zs_new) = Some (n1, inl c1) /\
    null_next_handshake_command b o2 a2 None (null_new zs_new) = Some (n2, inl c2) /\
    null_process_handshake_command b o1 n1 c2 = Some (n1', rc) /\ null_process_handshake_command b o2 n2 c1 = Some (n2', rc) /\
    if accepts b o1 o2 then
      rc = None /\ null_status n1' = mech_ready /\ null_status n2' = mech_ready /\
      h_mech (nl_h n1') = learn_peer b o1 o2 mech_new /\ h_mech (nl_h n2') = learn_peer b o2 o1 mech_new
    else rc = Some EINVAL.
Proof.
  intros H1 H2 Hz1 Hz2. rewrite (accepts_symmetric b o1 o2) by (by apply an_type).
  assert (forall o a, announce_ok b o -> zap_required o = false ->
    null_next_handshake_command b o a None (null_new zs_new) =
    Some (nl_sent (null_new zs_new) true false, inl (ready_command_name ++ encode_properties (announces b o)))) as Hnext.
  { intros o a Ho Hz. unfold null_next_handshake_command, null_ask_zap. simpl. rewrite Hz. cbn [mbind option_bind andb nl_zap_reply_received null_new].
    by rewrite make_command_ok. }
  assert (forall o o', announce_ok b o' -> let n := nl_sent (null_new zs_new) true false in
    null_process_handshake_command b o n (ready_command_name ++ encode_properties (announces b o')) =
    Some (nl_with (nl_received n true false) (with_mech (nl_h n) (if accepts b o o' then learn_peer b o o' mech_new else mech_new)),
          if accepts b o o' then None else Some EINVAL)) as Hproc.
  { intros o o' Ho'. cbv zeta. unfold null_process_handshake_command. cbn [nl_sent null_new nl_ready_command_received nl_error_command_received orb].
    assert (has_prefix ready_command_name (ready_command_name ++ encode_properties (announces b o')) = true) as -> by (by apply bool_decide_eq_true_2).
    unfold null_process_ready_command. rewrite drop_app_length, length_app.
    replace (Z.of_nat _ - Z.of_nat _) with (Z.of_nat (length (encode_properties (announces b o')))) by lia.
    cbn [nl_received nl_h h_mech hs_new]. rewrite parse_announced by done. by destruct (accepts b o o'). }
  eexists _, _, _, _, _, _, _. split; [by apply Hnext|]. split; [by apply Hnext|]. split; [by apply Hproc|].
  rewrite (accepts_symmetric b o1 o2) by (by apply an_type). split; [by apply Hproc|]. by destruct (accepts b o2 o1).
Qed.

Lemma null_handshake_witness : exists n1 c1 n1',
  null_next_handshake_command (Build true true true true true) dealer_options [] None (null_new zs_new) = Some (n1, inl c1) /\
  null_process_handshake_command (Build true true true true true) router_options (nl_sent (null_new zs_new) true false) c1 = Some (n1', None) /\
  null_status n1' = mech_ready.
Proof.
  destruct (null_handshake (Build true true true true true) dealer_options router_options [] []) as (n1 & c1 & n2 & c2 & n1' & n2' & rc & E1 & E2 & E3 & E4 & H);
    [apply example_announce_ok; by left|apply example_announce_ok; by right|reflexivity|reflexivity|].
  assert (accepts (Build true true true true true) dealer_options router_options = true) as Ha by reflexivity. rewrite Ha in H.
  destruct H as (-> & _ & Hs & _). exists n1, c1, n2'. split; [exact E1|]. split; [|exact Hs].
  apply (f_equal (fmap fst)) in E2. cbn [fmap option_fmap option_map fst] in E2. rewrite <- E4. f_equal.
  unfold null_next_handshake_command in E2. cbn in E2. by injection E2.
Defined.

(** The reply of a ZAP handler without metadata. *)
Definition zap_reply (status text user : bytes) : list frame :=
  [Frame type_vsm flag_more []; sized_frame flag_more zap_version; sized_frame flag_more zap_id; sized_frame flag_more status;
   sized_frame flag_more text; sized_frame flag_more user; sized_frame 0 []].

(** The session of a server with the reply on its way. *)
Definition asked_session (o : options) (addr u p : bytes) (recv : bool) (reply : list frame) : zap_session :=
  Zs true true reply ((if recv then [Frame type_vsm flag_routing_id []] else []) ++ zap_request_frames o addr plain_mechanism_name [u; p]).

Definition admitted_mech (user : bytes) : mech := set_user_id mech_new user.

Lemma read_reply_all fs : forall h rest, zs_pipe (h_zap h) = true -> zs_in (h_zap h) = fs ++ rest -> is_message fs = true ->
  read_reply (length fs) h = (with_zap h (Zs true (zs_active (h_zap h)) rest (zs_out (h_zap h))), inl fs).
Proof.
  induction fs as [|f fs IH]; intros h rest Hp Hin Hm; [done|]. cbn [length read_reply]. unfold read_zap_msg. rewrite Hp, Hin. cbn [negb app].
  destruct fs as [|g fs].
  - simpl in Hm. apply negb_true_iff in Hm. rewrite Hm. done.
  - rewrite is_message_cons_more in Hm. apply andb_true_iff in Hm as [Hf Hm]. rewrite Hf. cbn [eqb length].
    change (S (length fs)) with (length (g :: fs)). by rewrite (IH _ rest).
Qed.

Lemma receive_reply_ok b o zs m events status text user : zs_pipe zs = true -> zs_in zs = zap_reply status text user -> valid_status status = true ->
  receive_zap_reply b o (Hs m zs [] events) = Some (Hs (set_user_id m user) (Zs true (zs_active zs) [] (zs_out zs)) status events, zap_done).
Proof.
  intros Hp Hin Hv. unfold receive_zap_reply. change zap_reply_frame_count with (length (zap_reply status text user)).
  rewrite (read_reply_all _ _ []); [|done|by rewrite app_nil_r|done]. cbn [nth zap_reply fr_body sized_frame].
  rewrite !bool_decide_eq_true_2 by done. cbn [negb]. rewrite Hv. done.
Qed.

Lemma write_zap_frames_ok inn fs : forall out, write_zap_frames (Zs true true inn out) fs = Some (Zs true true inn (out ++ fs)).
Proof.
  induction fs as [|f fs IH]; intros out; [by rewrite app_nil_r|]. cbn [write_zap_frames write_zap_msg zs_pipe zs_active negb orb zs_in zs_out].
  rewrite bool_decide_eq_true_2 by done. by rewrite IH, <- app_assoc.
Qed.

(** A HELLO is taken apart into the user name and the password. *)
Lemma process_hello_credentials b o addr peer s u p : (length u <= 255)%nat -> (length p <= 255)%nat ->
  process_hello b o addr peer s (hello_command u p) =
  (let* (zs, rc) := zap_connect peer (h_zap (ps_h s)) in
   match rc with
   | Some e => Some (Ps (emit (with_zap (ps_h s) zs) (event_handshake_failed_no_detail EFAULT)) (ps_state s), Some e)
   | None =>
       let* h := send_zap_request o addr (with_zap (ps_h s) zs) plain_mechanism_name [u; p] in
       common_receive_zap_reply b o sv_sending_welcome (Ps h sv_waiting_for_zap_reply)
   end).
Proof.
  intros Hu Hp. unfold process_hello.
  assert (8 <= Z.of_nat (length (hello_command u p))) by (unfold hello_command; rewrite !length_app; simpl; lia).
  unfold check_basic_command_structure. change (hello_command u p !! 0%nat) with (Some 5). cbn [default from_option id].
  rewrite !(proj2 (Z.leb_gt _ _)) by lia. cbn [orb].
  assert (has_prefix hello_prefix (hello_command u p) = true) as -> by (apply bool_decide_eq_true_2; done).
  unfold hello_command. cbn [negb]. rewrite drop_app_length. cbn [app]. rewrite (proj2 (Z.ltb_ge _ _)) by (rewrite length_app; lia).
  rewrite Nat2Z.id, take_app_length, drop_app_length. rewrite (proj2 (Z.eqb_eq _ _)) by done. cbn [negb]. by rewrite Nat2Z.id, firstn_all.
Qed.

Section plain_handshake.
Context (b : build) (oc os : options) (addr : bytes) (t : Z) (recv : bool) (text user : bytes).
Hypothesis Hclient : announce_ok b oc.
Hypothesis Hserver : announce_ok b os.
Hypothesis Ht : t = ZMQ_REP \/ t = ZMQ_ROUTER \/ t = ZMQ_SERVER.

Let u : bytes := op_str oc s_plain_username.
Let p : bytes := op_str oc s_plain_password.

Lemma credentials_short : (length u <= 255)%nat /\ (length p <= 255)%nat.
Proof. split; [apply (ok_str _ (an_options _ _ Hclient) s_plain_username)|apply (ok_str _ (an_options _ _ Hclient) s_plain_password)]. Qed.

Definition client_asked : plain_client := Pc (hs_new zs_new) cl_waiting_for_welcome.

Lemma client_hello : pc_next_handshake_command b oc (plain_client_new zs_new) = Some (client_asked, inl (hello_command u p)).
Proof.
  destruct credentials_short as [Hu Hp]. unfold pc_next_handshake_command. cbn [pc_state plain_client_new]. unfold produce_hello. fold u p.
  rewrite !(proj2 (Z.leb_le _ 255)) by lia. done.
Qed.

(** The server, once the HELLO was handed to the ZAP handler, and when these frames came back. *)
Definition server_asked (reply : list frame) : plain_server :=
  Ps (Hs mech_new (asked_session os addr u p recv reply) [] []) sv_waiting_for_zap_reply.

Lemma server_hello : ps_process_handshake_command b os addr (Some (t, recv)) (Ps (hs_new zs_new) sv_waiting_for_hello) (hello_command u p) =
  Some (server_asked [], None).
Proof.
  destruct credentials_short as [Hu Hp]. unfold ps_process_handshake_command. cbn [ps_state]. rewrite process_hello_credentials by done.
  unfold zap_connect. cbn [h_zap ps_h hs_new zs_new zs_pipe].
  assert ((t =? ZMQ_REP) || (t =? ZMQ_ROUTER) || (t =? ZMQ_SERVER) = true) as -> by (by destruct Ht as [->|[->| ->]]).
  cbn [mbind option_bind]. unfold send_zap_request. cbn [h_zap with_zap]. rewrite write_zap_frames_ok. cbn [mbind option_bind].
  unfold common_receive_zap_reply. cbn [ps_state ps_h]. rewrite bool_decide_eq_true_2 by done. done.
Qed.

(** The reply arrives. *)
Definition server_answered (status : bytes) : plain_server :=
  common_handle_status sv_sending_welcome (Hs (set_user_id mech_new user) (asked_session os addr u p recv []) status []).

Lemma server_reply status : valid_status status = true ->
  ps_zap_msg_available b os (server_asked (zap_reply status text user)) = Some (server_answered status, None).
Proof.
  intros Hv. unfold ps_zap_msg_available, common_receive_zap_reply, server_asked. cbn [ps_state ps_h]. rewrite !bool_decide_eq_true_2 by done.
  by rewrite (receive_reply_ok _ _ _ _ _ status text user).
Qed.

End plain_handshake.

(** A PLAIN handshake with a user the ZAP handler knows succeeds. The
    client's HELLO reaches the handler as a request with its user name and
    password; on status 200 the server answers WELCOME, the client INITIATE
    and the server READY, and both are ready, know what the other announced,
    and the server the user id; sockets whose types do not fit are refused
    at INITIATE. *)
Theorem plain_handshake b oc os addr t recv text user :
  announce_ok b oc -> announce_ok b os -> t = ZMQ_REP \/ t = ZMQ_ROUTER \/ t = ZMQ_SERVER ->
  let hello := hello_command (op_str oc s_plain_username) (op_str oc s_plain_password) in
  exists c1 s1 s3 s4 c2 c3 initiate s5 rc,
    pc_next_handshake_command b oc (plain_client_new zs_new) = Some (c1, inl hello) /\
    ps_process_handshake_command b os addr (Some (t, recv)) (Ps (hs_new zs_new) sv_waiting_for_hello) hello = Some (s1, None) /\
    (let zs := h_zap (ps_h s1) in
     ps_zap_msg_available b os (Ps (with_zap (ps_h s1) (Zs (zs_pipe zs) (zs_active zs) (zs_in zs ++ zap_reply status_200 text user) (zs_out zs))) (ps_state s1)) =
     Some (s3, None)) /\
    ps_next_handshake_command b os s3 = Some (s4, inl welcome_prefix) /\
    pc_process_handshake_command b oc c1 welcome_prefix = Some (c2, None) /\
    pc_next_handshake_command b oc c2 = Some (c3, inl initiate) /\
    ps_process_handshake_command b os addr (Some (t, recv)) s4 initiate = Some (s5, rc) /\
    if accepts b os oc then
      rc = None /\ exists s6 ready c4,
        ps_next_handshake_command b os s5 = Some (s6, inl ready) /\ pc_process_handshake_command b oc c3 ready = Some (c4, None) /\
        ps_status s6 = mech_ready /\ pc_status c4 = mech_ready /\
        h_mech (pc_h c4) = learn_peer b oc os mech_new /\ h_mech (ps_h s6) = learn_peer b os oc (set_user_id mech_new user)
    else rc = Some EINVAL.
Proof.
  intros Hclient Hserver Ht hello. exists client_asked, (server_asked oc os addr recv []), (server_answered oc os addr recv user status_200).
  set (h := Hs (set_user_id mech_new user) (asked_session os addr (op_str oc s_plain_username) (op_str oc s_plain_password) recv []) status_200 []).
  exists (Ps h sv_waiting_for_initiate), (Pc (hs_new zs_new) cl_sending_initiate), (Pc (hs_new zs_new) cl_waiting_for_ready).
  exists (initiate_prefix ++ encode_properties (announces b oc)).
  exists (Ps (with_mech h (if accepts b os oc then learn_peer b os oc (set_user_id mech_new user) else set_user_id mech_new user))
    (if accepts b os oc then sv_sending_ready else sv_waiting_for_initiate)), (if accepts b os oc then None else Some EINVAL).
  split_and!.
  - by apply client_hello.
  - by apply server_hello.
  - by apply server_reply.
  - done.
  - done.
  - unfold pc_next_handshake_command. cbn [pc_state]. by rewrite make_command_ok.
  - unfold ps_process_handshake_command, process_initiate. cbn [ps_state ps_h].
    assert (has_prefix initiate_prefix (initiate_prefix ++ encode_properties (announces b oc)) = true) as -> by (by apply bool_decide_eq_true_2).
    cbn [negb]. rewrite drop_app_length, length_app. replace (Z.of_nat _ - Z.of_nat _) with (Z.of_nat (length (encode_properties (announces b oc)))) by lia.
    cbn [h_mech h]. rewrite parse_announced by done. by destruct (accepts b os oc).
  - pose proof (accepts_symmetric b os oc (an_type _ _ Hserver) (an_type _ _ Hclient)) as Hsym. destruct (accepts b os oc); [|done]. split; [done|].
    exists (Ps (with_mech h (learn_peer b os oc (set_user_id mech_new user))) sv_ready), (ready_prefix ++ encode_properties (announces b os)).
    exists (Pc (with_mech (hs_new zs_new) (learn_peer b oc os mech_new)) cl_ready). split_and!; [| |done..].
    + unfold ps_next_handshake_command. cbn [ps_state]. rewrite make_command_ok by done. done.
    + unfold pc_process_handshake_command, process_ready. cbn [pc_state pc_h h_mech hs_new].
      assert (has_prefix welcome_prefix (ready_prefix ++ encode_properties (announces b os)) = false) as -> by (by apply bool_decide_eq_false_2).
      assert (has_prefix ready_prefix (ready_prefix ++ encode_properties (announces b os)) = true) as -> by (by apply bool_decide_eq_true_2).
      rewrite bool_decide_eq_true_2 by done. cbn [negb]. rewrite drop_app_length, length_app.
      replace (Z.of_nat _ - Z.of_nat _) with (Z.of_nat (length (encode_properties (announces b os)))) by lia.
      rewrite parse_announced by done. by rewrite <- Hsym.
Qed.

Lemma plain_handshake_witness : exists c1 s1,
  pc_next_handshake_command (Build true true true true true) dealer_options (plain_client_new zs_new) = Some (c1, inl (hello_command [] [])) /\
  ps_process_handshake_command (Build true true true true true) router_options [] (Some (ZMQ_REP, true)) (Ps (hs_new zs_new) sv_waiting_for_hello)
    (hello_command [] []) = Some (s1, None).
Proof.
  destruct (plain_handshake (Build true true true true true) dealer_options router_options [] ZMQ_REP true [] [7])
    as (c1 & s1 & s3 & s4 & c2 & c3 & initiate & s5 & rc & E1 & E2 & _);
    [apply example_announce_ok; by left|apply example_announce_ok; by right|by left|]. exists c1, s1. split; [exact E1|exact E2].
Defined.

(** A PLAIN handshake with a user the ZAP handler rejects fails on both
    sides: on status 400 and 500 the server sends ERROR with the status and
    the client reports the failed authentication; on 300 the server sends
    nothing more, and its handshake has failed. *)
Theorem plain_handshake_denied b oc os addr t recv text user d :
  announce_ok b oc -> announce_ok b os -> t = ZMQ_REP \/ t = ZMQ_ROUTER \/ t = ZMQ_SERVER -> 51 <= d <= 53 ->
  let hello := hello_command (op_str oc s_plain_username) (op_str oc s_plain_password) in
  let status := [d; 48; 48] in
  exists c1 s1 s3 s4 r,
    pc_next_handshake_command b oc (plain_client_new zs_new) = Some (c1, inl hello) /\
    ps_process_handshake_command b os addr (Some (t, recv)) (Ps (hs_new zs_new) sv_waiting_for_hello) hello = Some (s1, None) /\
    (let zs := h_zap (ps_h s1) in
     ps_zap_msg_available b os (Ps (with_zap (ps_h s1) (Zs (zs_pipe zs) (zs_active zs) (zs_in zs ++ zap_reply status text user) (zs_out zs))) (ps_state s1)) =
     Some (s3, None)) /\
    ps_next_handshake_command b os s3 = Some (s4, r) /\ ps_status s4 = mech_error /\
    if d =? 51 then r = inr EAGAIN
    else exists c2, r = inl (error_prefix ++ [3] ++ status) /\ pc_process_handshake_command b oc c1 (error_prefix ++ [3] ++ status) = Some (c2, None) /\
      pc_status c2 = mech_error /\ event_handshake_failed_auth ((d - 48) * 100) ∈ h_events (pc_h c2).
Proof.
  intros Hclient Hserver Ht Hd hello status. assert (d = 51 \/ d = 52 \/ d = 53) as Hcases by lia.
  exists client_asked, (server_asked oc os addr recv []), (server_answered oc os addr recv user status).
  exists (Ps (ps_h (server_answered oc os addr recv user status)) sv_error_sent), (if d =? 51 then inr EAGAIN else inl (error_prefix ++ [3] ++ status)).
  split; [by apply client_hello|]. split; [by apply server_hello|].
  split; [apply server_reply; by destruct Hcases as [->|[->| ->]]|].
  destruct Hcases as [->|[->| ->]]; (split; [done|]; split; [done|]); cbn [Z.eqb Pos.eqb]; [done| |];
    (eexists; split; [done|]; split; [reflexivity|]; split; [done|]; by apply list_elem_of_singleton).
Qed.

Lemma plain_handshake_denied_witness : exists c1,
  pc_next_handshake_command (Build true true true true true) dealer_options (plain_client_new zs_new) = Some (c1, inl (hello_command [] [])) /\
  exists c2, pc_process_handshake_command (Build true true true true true) dealer_options c1 (error_prefix ++ [3; 52; 48; 48]) = Some (c2, None) /\
    pc_status c2 = mech_error.
Proof.
  destruct (plain_handshake_denied (Build true true true true true) dealer_options router_options [] ZMQ_REP true [] [7] 52)
    as (c1 & s1 & s3 & s4 & r & E1 & _ & _ & _ & _ & c2 & _ & E2 & E3 & _);
    [apply example_announce_ok; by left|apply example_announce_ok; by right|by left|lia|]. exists c1. split; [exact E1|]. exists c2. split; [exact E2|exact E3].
Defined.

Lemma plain_server_admits_witness : exists cmds arrived s,
  ps_reach (Build true true true true true) router_options [] cmds arrived s /\ admitted (ps_state s) = true /\
  exists pre fs post, arrived = pre ++ fs ++ post /\ reply_says fs status_200.
Proof.
  set (b := Build true true true true true).
  assert (announce_ok b dealer_options) as H1 by (apply example_announce_ok; by left).
  assert (announce_ok b router_options) as H2 by (apply example_announce_ok; by right).
  assert (ps_reach b router_options [] ([] ++ [hello_command [] []]) ([] ++ zap_reply status_200 [] [7]) (server_answered dealer_options router_options [] true [7] status_200)) as Hr.
  { eapply pr_available; [|by eapply (server_reply b)]. eapply (pr_env b router_options [] _ _ (server_asked dealer_options router_options [] true [])).
    - eapply (pr_process _ _ _ _ _ (Ps (hs_new zs_new) sv_waiting_for_hello) (Some (ZMQ_REP, true))); [by apply pr_new| |].
      + repeat constructor; unfold is_u8; lia.
      + exact (server_hello b dealer_options router_options [] ZMQ_REP true H1 (or_introl eq_refl)).
    - by apply (ze_arrive (asked_session router_options [] [] [] true [])). }
  eexists _, _, _. split; [exact Hr|]. split; [reflexivity|]. exact (proj2 (plain_server_admits b router_options [] _ _ _ Hr eq_refl)).
Defined.

Definition enforced_options : options := set_int (set_str router_options s_zap_domain [100]) m_zap_enforce_domain 1.

Lemma null_admits_witness : exists arrived n, null_reach (Build true true true true true) enforced_options [] arrived n /\
  zap_enforced enforced_options = true /\ nl_ready_command_sent n = true /\ exists pre fs post, arrived = pre ++ fs ++ post /\ reply_says fs status_200.
Proof.
  set (b := Build true true true true true).
  set (out := Frame type_vsm flag_routing_id [] :: zap_request_frames enforced_options [] null_mechanism_name []).
  set (n1 zs m st r := Null (Hs m zs st []) false false false false true r).
  assert (announce_ok b enforced_options) as Hok.
  { destruct (example_announce_ok b router_options) as [Ho Hty Hv]; [by right|]. split; [|exact Hty|exact Hv].
    apply set_int_ok; [apply set_str_ok; [done|]|unfold imember_ok; simpl; lia]. split; [repeat constructor; unfold is_u8; lia|simpl; lia]. }
  assert (null_next_handshake_command b enforced_options [] (Some (ZMQ_REP, true)) (null_new zs_new) = Some (n1 (Zs true true [] out) mech_new [] false, inr EAGAIN)) as E1 by reflexivity.
  assert (null_zap_msg_available b enforced_options (n1 (Zs true true (zap_reply status_200 [] [7]) out) mech_new [] false) =
    Some (n1 (Zs true true [] out) (set_user_id mech_new [7]) status_200 true, None)) as E2.
  { unfold null_zap_msg_available, receive_and_process_zap_reply, n1. cbn [nl_zap_reply_received nl_h]. by rewrite (receive_reply_ok _ _ _ _ _ status_200 [] [7]). }
  assert (exists n, null_reach b enforced_options [] ([] ++ zap_reply status_200 [] [7]) n /\ nl_ready_command_sent n = true) as (n & Hr & Hs).
  { eexists. split; [eapply (nr_next _ _ _ _ _ None); [eapply nr_available; [|exact E2]|]|].
    - apply (nr_env b enforced_options [] [] (n1 (Zs true true [] out) mech_new [] false)); [by eapply nr_next; [apply nr_new|exact E1]|].
      by apply (ze_arrive (Zs true true [] out)).
    - unfold null_next_handshake_command, null_ask_zap, n1. cbn [nl_ready_command_sent nl_error_command_sent orb nl_zap_reply_received negb].
      rewrite andb_false_r. cbn [mbind option_bind nl_h h_status_code nl_zap_reply_received andb]. rewrite bool_decide_eq_true_2 by done. cbn [negb].
      rewrite make_command_ok by done. reflexivity.
    - reflexivity. }
  exists ([] ++ zap_reply status_200 [] [7]), n. split; [exact Hr|]. split; [reflexivity|]. split; [exact Hs|].
  exact (null_admits b enforced_options [] _ n Hr eq_refl Hs).
Defined.

(** ** What the ZAP handler can break *)

(** A second reply finds the server in another state, and aborts the process. *)
Theorem plain_second_reply_aborts b o s : admitted (ps_state s) = true -> ps_zap_msg_available b o s = None.
Proof. unfold ps_zap_msg_available. by destruct (ps_state s). Qed.

(** Every request has the id 1: on a session that keeps its pipe to the
    handler a reply to an earlier request answers for new credentials. *)
Theorem plain_stale_reply b o addr peer u p text user : (length u <= 255)%nat -> (length p <= 255)%nat ->
  exists s', ps_process_handshake_command b o addr peer
    (Ps (hs_new (Zs true true (zap_reply status_200 text user) [])) sv_waiting_for_hello) (hello_command u p) = Some (s', None) /\
    ps_state s' = sv_sending_welcome.
Proof.
  intros Hu Hp. unfold ps_process_handshake_command. cbn [ps_state]. rewrite process_hello_credentials by done.
  unfold zap_connect. cbn [zs_pipe h_zap ps_h hs_new mbind option_bind]. unfold send_zap_request. cbn [h_zap with_zap]. rewrite write_zap_frames_ok.
  cbn [mbind option_bind]. unfold common_receive_zap_reply. cbn [ps_state ps_h]. rewrite bool_decide_eq_true_2 by done. unfold with_zap. cbn [h_mech h_status_code h_events].
  rewrite (receive_reply_ok _ _ _ _ _ status_200 text user) by done. eexists. split; reflexivity.
Qed.

(** The pipe to a handler that is going away cannot be written to, and the
    assertion behind the write aborts the process. *)
Theorem zap_request_aborts o addr h mechanism cs : zs_pipe (h_zap h) = true -> zs_active (h_zap h) = false ->
  zap_connect None (h_zap h) = Some (h_zap h, None) /\ send_zap_request o addr h mechanism cs = None.
Proof.
  intros Hp Ha. unfold zap_connect, send_zap_request, zap_request_frames. rewrite Hp. split; [done|]. cbn [app write_zap_frames].
  unfold write_zap_msg. by rewrite Hp, Ha.
Qed.
