(* ===== verification/Curve.v ===== *)
(** * The CURVE mechanism (src/src/curve_client.cpp, src/src/curve_client_tools.hpp, src/src/curve_server.cpp, src/src/curve_mechanism_base.cpp)

    The cryptography (tweetnacl or libsodium, chosen by the build) is the
    class [NaCl].  Random bytes and key pairs that the code draws are
    arguments of the operations that draw them; memory the constructors
    leave uninitialised is an argument of theirs.  A read outside a
    command or a buffer is [None], as is a failed assertion. *)

From Stdlib Require Import Bool String.
From S2P Require Import Prelude Wire Options OptionsProps Mechanism Frame Codec Zap Handshake.

(** ** The cryptographic library

    Boxes keep the padding of the C interface: a plaintext begins with 32
    zero bytes, a box with 16.  [None] is a return value of -1. *)

Class NaCl := {
  crypto_public : bytes -> bytes;  (** of [crypto_box_keypair]: the public key of a secret key *)
  crypto_box_beforenm : bytes -> bytes -> option bytes;
  crypto_box_afternm : bytes -> bytes -> bytes -> option bytes;
  crypto_box_open_afternm : bytes -> bytes -> bytes -> option bytes;
  crypto_box : bytes -> bytes -> bytes -> bytes -> option bytes;
  crypto_box_open : bytes -> bytes -> bytes -> bytes -> option bytes;
  crypto_secretbox : bytes -> bytes -> bytes -> option bytes;
  crypto_secretbox_open : bytes -> bytes -> bytes -> option bytes;
}.

Definition zeros (n : nat) : bytes := replicate n 0.

(** A string of bytes of a known size. *)
Definition sized (n : nat) (x : bytes) : Prop := length x = n /\ bytes_ok x.

(** What the library documents. *)
Class NaClLaws `{NaCl} := {
  secretbox_opens p n k : bytes_ok p -> sized 24 n -> sized 32 k ->
    exists c, crypto_secretbox (zeros 32 ++ p) n k = Some (zeros 16 ++ c) /\ sized (16 + length p) c /\
      crypto_secretbox_open (zeros 16 ++ c) n k = Some (zeros 32 ++ p);
  secretbox_open_length c n k m : crypto_secretbox_open c n k = Some m -> length m = length c;
  box_open_length c n pk sk m : crypto_box_open c n pk sk = Some m -> length m = length c;
  afternm_secretbox m n k : crypto_box_afternm m n k = crypto_secretbox m n k;
  open_afternm_secretbox m n k : crypto_box_open_afternm m n k = crypto_secretbox_open m n k;
  box_beforenm m n pk sk k : crypto_box_beforenm pk sk = Some k -> crypto_box m n pk sk = crypto_box_afternm m n k;
  box_open_beforenm m n pk sk k : crypto_box_beforenm pk sk = Some k -> crypto_box_open m n pk sk = crypto_box_open_afternm m n k;
  public_sized a : sized 32 a -> sized 32 (crypto_public a);
  beforenm_agrees a b : sized 32 a -> sized 32 b ->
    exists k, crypto_box_beforenm (crypto_public b) a = Some k /\ crypto_box_beforenm (crypto_public a) b = Some k /\ sized 32 k;
}.

(** [memcpy] out of a buffer. *)
Definition read_at (data : bytes) (off len : nat) : option bytes :=
  if (off + len <=? length data)%nat then Some (take len (drop off data)) else None.

Definition curve_message_prefix : bytes := Eval vm_compute in 7 :: ascii_bytes "MESSAGE".
Definition nonce_message_client : bytes := Eval vm_compute in ascii_bytes "CurveZMQMESSAGEC".
Definition nonce_message_server : bytes := Eval vm_compute in ascii_bytes "CurveZMQMESSAGES".
Definition nonce_hello : bytes := Eval vm_compute in ascii_bytes "CurveZMQHELLO---".
Definition nonce_initiate : bytes := Eval vm_compute in ascii_bytes "CurveZMQINITIATE".
Definition nonce_ready : bytes := Eval vm_compute in ascii_bytes "CurveZMQREADY---".
Definition nonce_welcome : bytes := Eval vm_compute in ascii_bytes "WELCOME-".
Definition nonce_cookie : bytes := Eval vm_compute in ascii_bytes "COOKIE--".
Definition nonce_vouch : bytes := Eval vm_compute in ascii_bytes "VOUCH---".
Definition curve_mechanism_name : bytes := Eval vm_compute in ascii_bytes "CURVE".

(** ** [curve_mechanism_base_t] *)

Record curve_base := Cb {
  cb_nonce : Z;
  cb_peer_nonce : Z;
  cb_precom : bytes;
}.

Definition cb_new (precom0 : bytes) : curve_base := Cb 1 1 precom0.
Definition cb_step (c : curve_base) : curve_base := Cb (u64 (cb_nonce c + 1)) (cb_peer_nonce c) (cb_precom c).
Definition cb_seen (c : curve_base) (nonce : Z) : curve_base := Cb (cb_nonce c) nonce (cb_precom c).

Section curve.
Context `{NaCl}.

Definition curve_encode (encode_nonce_prefix : bytes) (c : curve_base) (msg_ : frame) : option (curve_base * frame) :=
  let message_nonce := encode_nonce_prefix ++ put_uint64 (cb_nonce c) in
  let flags := Z.lor (if negb (Z.land (fr_flags msg_) flag_more =? 0) then 1 else 0)
                     (if negb (Z.land (fr_flags msg_) flag_command =? 0) then 2 else 0) in
  let message_plaintext := zeros 32 ++ [flags] ++ fr_body msg_ in
  let* message_box := crypto_box_afternm message_plaintext message_nonce (cb_precom c) in
  Some (cb_step c, sized_frame 0 (curve_message_prefix ++ put_uint64 (cb_nonce c) ++ drop 16 message_box)).

Definition curve_decode (decode_nonce_prefix : bytes) (h : hstate) (c : curve_base) (msg_ : frame) :
    option (hstate * curve_base * (frame * rc_t)) :=
  let fail h c err : option (hstate * curve_base * (frame * rc_t)) := let '(h, rc) := fail_protocol h err in Some (h, c, (msg_, rc)) in
  let message := fr_body msg_ in
  let size := length message in
  match check_basic_command_structure h message with
  | (h, Some e) => Some (h, c, (msg_, Some e))
  | (h, None) =>
      if negb (has_prefix curve_message_prefix message) then fail h c ZMTP_UNEXPECTED_COMMAND
      else if (size <? 33)%nat then fail h c ZMTP_MALFORMED_COMMAND_MESSAGE
      else
        let* short_nonce := read_at message 8 8 in
        let message_nonce := decode_nonce_prefix ++ short_nonce in
        let* nonce := get_uint64 short_nonce in
        if nonce <=? cb_peer_nonce c then fail h c ZMTP_INVALID_SEQUENCE
        else
          let c := cb_seen c nonce in
          let* box := read_at message 16 (size - 16) in
          match crypto_box_open_afternm (zeros 16 ++ box) message_nonce (cb_precom c) with
          | Some message_plaintext =>
              let* flags := message_plaintext !! 32%nat in
              let* data := read_at message_plaintext 33 (size - 33) in
              let flags' := Z.lor (if negb (Z.land flags 1 =? 0) then flag_more else 0)
                                  (if negb (Z.land flags 2 =? 0) then flag_command else 0) in
              Some (h, c, (sized_frame flags' data, None))
          | None => fail h c ZMTP_CRYPTOGRAPHIC
          end
  end.

(** ** [curve_client_tools_t] *)

Record curve_tools := Ct {
  ct_public_key : bytes;
  ct_secret_key : bytes;
  ct_cn_public : bytes;
  ct_cn_secret : bytes;
  ct_server_key : bytes;
  ct_cn_server : bytes;
  ct_cn_cookie : bytes;
}.

Definition tools_produce_hello (t : curve_tools) (cn_nonce_ : Z) : option bytes :=
  let* hello_box := crypto_box (zeros 96) (nonce_hello ++ put_uint64 cn_nonce_) (ct_server_key t) (ct_cn_secret t) in
  Some (hello_prefix ++ [1; 0] ++ zeros 72 ++ ct_cn_public t ++ put_uint64 cn_nonce_ ++ drop 16 hello_box).

(** The new tools and the precomputed key; the inner [None] is EPROTO. *)
Definition tools_process_welcome (t : curve_tools) (msg_data_ : bytes) : option (option (curve_tools * bytes)) :=
  if negb (length msg_data_ =? 168)%nat then Some None
  else
    let* box := read_at msg_data_ 24 144 in
    let* short_nonce := read_at msg_data_ 8 16 in
    match crypto_box_open (zeros 16 ++ box) (nonce_welcome ++ short_nonce) (ct_server_key t) (ct_cn_secret t) with
    | None => Some None
    | Some welcome_plaintext =>
        let* cn_server := read_at welcome_plaintext 32 32 in
        let* cn_cookie := read_at welcome_plaintext 64 96 in
        let* cn_precom := crypto_box_beforenm cn_server (ct_cn_secret t) in
        Some (Some (Ct (ct_public_key t) (ct_secret_key t) (ct_cn_public t) (ct_cn_secret t) (ct_server_key t) cn_server cn_cookie, cn_precom))
    end.

Definition tools_produce_initiate (t : curve_tools) (random : bytes) (cn_nonce_ : Z) (metadata_plaintext_ : bytes) : option bytes :=
  let vouch_plaintext := zeros 32 ++ ct_cn_public t ++ ct_server_key t in
  let* vouch_box := crypto_box vouch_plaintext (nonce_vouch ++ random) (ct_cn_server t) (ct_secret_key t) in
  let initiate_plaintext := zeros 32 ++ ct_public_key t ++ random ++ drop 16 vouch_box ++ metadata_plaintext_ in
  let* initiate_box := crypto_box initiate_plaintext (nonce_initiate ++ put_uint64 cn_nonce_) (ct_cn_server t) (ct_cn_secret t) in
  Some (initiate_prefix ++ ct_cn_cookie t ++ put_uint64 cn_nonce_ ++ drop 16 initiate_box).

(** ** [curve_client_t] *)

Inductive cc_state_t := cc_send_hello | cc_expect_welcome | cc_send_initiate | cc_expect_ready | cc_error_received | cc_connected.

#[export] Instance cc_state_eq_dec : EqDecision cc_state_t.
Proof. solve_decision. Defined.

Record curve_client := Cc {
  cc_h : hstate;
  cc_base : curve_base;
  cc_state : cc_state_t;
  cc_tools : curve_tools;
}.

(** [junk]: what is in the memory of [cn_precom], [cn_server] and [cn_cookie]. *)
Definition curve_client_new (o : options) (zs : zap_session) (cn_secret : bytes) (junk : bytes * bytes * bytes) : curve_client :=
  Cc (hs_new zs) (cb_new junk.1.1) cc_send_hello
    (Ct (op_str o s_curve_public_key) (op_str o s_curve_secret_key) (crypto_public cn_secret) cn_secret (op_str o s_curve_server_key) junk.1.2 junk.2).

Definition cc_emit (c : curve_client) (err : protocol_error) : curve_client :=
  Cc (emit (cc_h c) (event_handshake_failed_protocol err)) (cc_base c) (cc_state c) (cc_tools c).
Definition cc_fail (c : curve_client) (err : protocol_error) : curve_client * rc_t := (cc_emit c err, Some EPROTO).
Definition cc_goto (c : curve_client) (st : cc_state_t) : curve_client := Cc (cc_h c) (cc_base c) st (cc_tools c).

(** A command, or -1 with [errno]: [inr None] leaves [errno] as it was. *)
Abbreviation next_result := (bytes + option errno)%type.

Definition cc_produce_hello (c : curve_client) : curve_client * next_result :=
  match tools_produce_hello (cc_tools c) (cb_nonce (cc_base c)) with
  | None => (cc_emit c ZMTP_CRYPTOGRAPHIC, inr None)
  | Some hello => (Cc (cc_h c) (cb_step (cc_base c)) (cc_state c) (cc_tools c), inl hello)
  end.

Definition cc_process_welcome (c : curve_client) (msg_data_ : bytes) : option (curve_client * rc_t) :=
  let* r := tools_process_welcome (cc_tools c) msg_data_ in
  match r with
  | None => Some (cc_fail c ZMTP_CRYPTOGRAPHIC)
  | Some (tools, precom) =>
      Some (Cc (cc_h c) (Cb (cb_nonce (cc_base c)) (cb_peer_nonce (cc_base c)) precom) cc_send_initiate tools, None)
  end.

Context (b : build) (o : options).

Definition cc_produce_initiate (c : curve_client) (random : bytes) : option (curve_client * next_result) :=
  let* metadata_length := basic_properties_len b o in
  let* metadata_plaintext := add_basic_properties b o metadata_length in
  match tools_produce_initiate (cc_tools c) random (cb_nonce (cc_base c)) metadata_plaintext with
  | None => Some (cc_emit c ZMTP_CRYPTOGRAPHIC, inr None)
  | Some initiate => Some (Cc (cc_h c) (cb_step (cc_base c)) (cc_state c) (cc_tools c), inl initiate)
  end.

Definition cc_next_handshake_command (c : curve_client) (random : bytes) : option (curve_client * next_result) :=
  match cc_state c with
  | cc_send_hello =>
      let '(c, r) := cc_produce_hello c in
      Some (match r with inl _ => cc_goto c cc_expect_welcome | inr _ => c end, r)
  | cc_send_initiate =>
      let* (c, r) := cc_produce_initiate c random in
      Some (match r with inl _ => cc_goto c cc_expect_ready | inr _ => c end, r)
  | _ => Some (c, inr (Some EAGAIN))
  end.

Definition cc_process_ready (c : curve_client) (msg_data_ : bytes) : option (curve_client * rc_t) :=
  let msg_size := length msg_data_ in
  if (msg_size <? 30)%nat then Some (cc_fail c ZMTP_MALFORMED_COMMAND_READY)
  else
    let* box := read_at msg_data_ 14 (msg_size - 14) in
    let* short_nonce := read_at msg_data_ 6 8 in
    let* peer_nonce := get_uint64 short_nonce in
    let c := Cc (cc_h c) (cb_seen (cc_base c) peer_nonce) (cc_state c) (cc_tools c) in
    match crypto_box_open_afternm (zeros 16 ++ box) (nonce_ready ++ short_nonce) (cb_precom (cc_base c)) with
    | None => Some (cc_fail c ZMTP_CRYPTOGRAPHIC)
    | Some ready_plaintext =>
        let* (m, rc) := parse_metadata b o (h_mech (cc_h c)) (drop 32 ready_plaintext) (Z.of_nat msg_size - 14 + 16 - 32) false in
        let c := Cc (with_mech (cc_h c) m) (cc_base c) (cc_state c) (cc_tools c) in
        match rc with
        | None => Some (cc_goto c cc_connected, None)
        | Some _ => Some (cc_fail c ZMTP_INVALID_METADATA)
        end
    end.

Definition cc_process_error (c : curve_client) (msg_data_ : bytes) : curve_client * rc_t :=
  if negb (bool_decide (cc_state c = cc_expect_welcome)) && negb (bool_decide (cc_state c = cc_expect_ready))
  then cc_fail c ZMTP_UNEXPECTED_COMMAND
  else
    match drop 6 msg_data_ with
    | [] => cc_fail c ZMTP_MALFORMED_COMMAND_ERROR
    | error_reason_len :: reason =>
        if Z.of_nat (length reason) <? error_reason_len then cc_fail c ZMTP_MALFORMED_COMMAND_ERROR
        else (Cc (handle_error_reason (cc_h c) (take (Z.to_nat error_reason_len) reason)) (cc_base c) cc_error_received (cc_tools c), None)
    end.

Definition cc_process_handshake_command (c : curve_client) (msg_data : bytes) : option (curve_client * rc_t) :=
  if has_prefix welcome_prefix msg_data then cc_process_welcome c msg_data
  else if has_prefix ready_prefix msg_data then cc_process_ready c msg_data
  else if has_prefix error_prefix msg_data then Some (cc_process_error c msg_data)
  else Some (cc_fail c ZMTP_UNEXPECTED_COMMAND).

Definition cc_encode (c : curve_client) (msg_ : frame) : option (curve_client * frame) :=
  zmq_assert (bool_decide (cc_state c = cc_connected)) ;;
  let* (base, f) := curve_encode nonce_message_client (cc_base c) msg_ in Some (Cc (cc_h c) base (cc_state c) (cc_tools c), f).

Definition cc_decode (c : curve_client) (msg_ : frame) : option (curve_client * (frame * rc_t)) :=
  zmq_assert (bool_decide (cc_state c = cc_connected)) ;;
  let* (h, base, r) := curve_decode nonce_message_server (cc_h c) (cc_base c) msg_ in Some (Cc h base (cc_state c) (cc_tools c), r).

Definition cc_status (c : curve_client) : mech_status :=
  match cc_state c with cc_connected => mech_ready | cc_error_received => mech_error | _ => handshaking end.

(** ** [curve_server_t] *)

Record curve_server := Cs {
  cs_hs : plain_server;  (** the [zap_client_common_handshake_t] *)
  cs_base : curve_base;
  cs_secret_key : bytes;
  cs_cn_public : bytes;
  cs_cn_secret : bytes;
  cs_cn_client : bytes;
  cs_cookie_key : bytes;
}.

(** [junk]: what is in the memory of [cn_precom], [_cn_client] and [_cookie_key]. *)
Definition curve_server_new (zs : zap_session) (cn_secret : bytes) (junk : bytes * bytes * bytes) : curve_server :=
  Cs (Ps (hs_new zs) sv_waiting_for_hello) (cb_new junk.1.1) (op_str o s_curve_secret_key) (crypto_public cn_secret) cn_secret junk.1.2 junk.2.

Definition cs_with (s : curve_server) (p : plain_server) : curve_server :=
  Cs p (cs_base s) (cs_secret_key s) (cs_cn_public s) (cs_cn_secret s) (cs_cn_client s) (cs_cookie_key s).
Definition cs_with_base (s : curve_server) (c : curve_base) : curve_server :=
  Cs (cs_hs s) c (cs_secret_key s) (cs_cn_public s) (cs_cn_secret s) (cs_cn_client s) (cs_cookie_key s).
Definition cs_with_client (s : curve_server) (cn_client : bytes) : curve_server :=
  Cs (cs_hs s) (cs_base s) (cs_secret_key s) (cs_cn_public s) (cs_cn_secret s) cn_client (cs_cookie_key s).
Definition cs_with_cookie_key (s : curve_server) (key : bytes) : curve_server :=
  Cs (cs_hs s) (cs_base s) (cs_secret_key s) (cs_cn_public s) (cs_cn_secret s) (cs_cn_client s) key.
Definition cs_goto (s : curve_server) (st : sv_state_t) : curve_server := cs_with s (Ps (ps_h (cs_hs s)) st).
Definition cs_state (s : curve_server) : sv_state_t := ps_state (cs_hs s).
Definition cs_h (s : curve_server) : hstate := ps_h (cs_hs s).

Definition cs_fail (s : curve_server) (err : protocol_error) : option (curve_server * rc_t) :=
  let '(h, rc) := fail_protocol (cs_h s) err in Some (cs_with s (Ps h (cs_state s)), rc).

Definition cs_process_hello (s : curve_server) (hello : bytes) : option (curve_server * rc_t) :=
  match check_basic_command_structure (cs_h s) hello with
  | (h, Some e) => Some (cs_with s (Ps h (cs_state s)), Some e)
  | (_, None) =>
      if negb (has_prefix hello_prefix hello) then cs_fail s ZMTP_UNEXPECTED_COMMAND
      else if negb (length hello =? 200)%nat then cs_fail s ZMTP_MALFORMED_COMMAND_HELLO
      else
        let* major := hello !! 6%nat in
        let* minor := hello !! 7%nat in
        if negb (major =? 1) || negb (minor =? 0) then cs_fail s ZMTP_MALFORMED_COMMAND_HELLO
        else
          let* cn_client := read_at hello 80 32 in
          let s := cs_with_client s cn_client in
          let* short_nonce := read_at hello 112 8 in
          let* nonce := get_uint64 short_nonce in
          let s := cs_with_base s (cb_seen (cs_base s) nonce) in
          let* box := read_at hello 120 80 in
          match crypto_box_open (zeros 16 ++ box) (nonce_hello ++ short_nonce) (cs_cn_client s) (cs_secret_key s) with
          | None => cs_fail s ZMTP_CRYPTOGRAPHIC
          | Some _ => Some (cs_goto s sv_sending_welcome, None)
          end
  end.

(** The random bytes of a WELCOME: the cookie's nonce, its key and the nonce of the box. *)
Record welcome_random := Wr { wr_cookie_nonce : bytes; wr_cookie_key : bytes; wr_welcome_nonce : bytes }.

Definition cs_produce_welcome (s : curve_server) (r : welcome_random) : option (curve_server * next_result) :=
  let cookie_plaintext := zeros 32 ++ cs_cn_client s ++ cs_cn_secret s in
  let s := cs_with_cookie_key s (wr_cookie_key r) in
  let* cookie_ciphertext := crypto_secretbox cookie_plaintext (nonce_cookie ++ wr_cookie_nonce r) (cs_cookie_key s) in
  let welcome_plaintext := zeros 32 ++ cs_cn_public s ++ wr_cookie_nonce r ++ drop 16 cookie_ciphertext in
  match crypto_box welcome_plaintext (nonce_welcome ++ wr_welcome_nonce r) (cs_cn_client s) (cs_secret_key s) with
  | None => Some (s, inr None)
  | Some welcome_ciphertext => Some (s, inl (welcome_prefix ++ wr_welcome_nonce r ++ drop 16 welcome_ciphertext))
  end.

Context (peer_address : bytes).

(** The part of [process_initiate] that asks the ZAP handler: an error to return, or go on. *)
Definition cs_ask_zap (peer : zap_endpoint) (s : curve_server) (client_key : bytes) : option (curve_server * rc_t) :=
  let enforce := negb (op_int o m_zap_enforce_domain =? 0) in
  if zap_required o || negb enforce then
    let* (zs, rc) := zap_connect peer (h_zap (cs_h s)) in
    let h := with_zap (cs_h s) zs in
    match rc with
    | None =>
        let* h := send_zap_request o peer_address h curve_mechanism_name [client_key] in
        let* (p, rc) := common_receive_zap_reply b o sv_sending_ready (Ps h sv_waiting_for_zap_reply) in
        Some (cs_with s p, rc)
    | Some e =>
        if negb enforce then Some (cs_with s (Ps h sv_sending_ready), None)
        else Some (cs_with s (Ps (emit h (event_handshake_failed_no_detail EFAULT)) (cs_state s)), Some e)
    end
  else Some (cs_goto s sv_sending_ready, None).

(** What is behind the last check of [process_initiate]: the key, ZAP and the metadata. *)
Definition cs_accept_initiate (peer : zap_endpoint) (s : curve_server) (client_key metadata : bytes) (metadata_length : Z) :
    option (curve_server * rc_t) :=
  let* precom := crypto_box_beforenm (cs_cn_client s) (cs_cn_secret s) in
  let s := cs_with_base s (Cb (cb_nonce (cs_base s)) (cb_peer_nonce (cs_base s)) precom) in
  let* (s, rc) := cs_ask_zap peer s client_key in
  match rc with
  | Some e => Some (s, Some e)
  | None =>
      let* (m, rc) := parse_metadata b o (h_mech (cs_h s)) metadata metadata_length false in
      Some (cs_with s (Ps (with_mech (cs_h s) m) (cs_state s)), rc)
  end.

Definition cs_process_initiate (peer : zap_endpoint) (s : curve_server) (initiate : bytes) : option (curve_server * rc_t) :=
  let size := length initiate in
  match check_basic_command_structure (cs_h s) initiate with
  | (h, Some e) => Some (cs_with s (Ps h (cs_state s)), Some e)
  | (_, None) =>
      if negb (has_prefix initiate_prefix initiate) then cs_fail s ZMTP_UNEXPECTED_COMMAND
      else if (size <? 257)%nat then cs_fail s ZMTP_MALFORMED_COMMAND_INITIATE
      else
        let* cookie_box := read_at initiate 25 80 in
        let* cookie_nonce := read_at initiate 9 16 in
        match crypto_secretbox_open (zeros 16 ++ cookie_box) (nonce_cookie ++ cookie_nonce) (cs_cookie_key s) with
        | None => cs_fail s ZMTP_CRYPTOGRAPHIC
        | Some cookie_plaintext =>
            let* cookie_client := read_at cookie_plaintext 32 32 in
            let* cookie_secret := read_at cookie_plaintext 64 32 in
            if negb (bool_decide (cookie_client = cs_cn_client s)) || negb (bool_decide (cookie_secret = cs_cn_secret s))
            then cs_fail s ZMTP_CRYPTOGRAPHIC
            else
              let* box := read_at initiate 113 (size - 113) in
              let* short_nonce := read_at initiate 105 8 in
              let* nonce := get_uint64 short_nonce in
              let s := cs_with_base s (cb_seen (cs_base s) nonce) in
              match crypto_box_open (zeros 16 ++ box) (nonce_initiate ++ short_nonce) (cs_cn_client s) (cs_cn_secret s) with
              | None => cs_fail s ZMTP_CRYPTOGRAPHIC
              | Some initiate_plaintext =>
                  let* client_key := read_at initiate_plaintext 32 32 in
                  let* vouch_box := read_at initiate_plaintext 80 80 in
                  let* vouch_nonce := read_at initiate_plaintext 64 16 in
                  match crypto_box_open (zeros 16 ++ vouch_box) (nonce_vouch ++ vouch_nonce) client_key (cs_cn_secret s) with
                  | None => cs_fail s ZMTP_CRYPTOGRAPHIC
                  | Some vouch_plaintext =>
                      let* vouched := read_at vouch_plaintext 32 32 in
                      if negb (bool_decide (vouched = cs_cn_client s)) then cs_fail s ZMTP_KEY_EXCHANGE
                      else cs_accept_initiate peer s client_key (drop 160 initiate_plaintext) (Z.of_nat size - 113 + 16 - 32 - 128)
                  end
              end
        end
  end.

Definition cs_process_handshake_command (peer : zap_endpoint) (s : curve_server) (data : bytes) : option (curve_server * rc_t) :=
  match cs_state s with
  | sv_waiting_for_hello => cs_process_hello s data
  | sv_waiting_for_initiate => cs_process_initiate peer s data
  | _ => cs_fail s ZMTP_UNSPECIFIED
  end.

Definition cs_produce_ready (s : curve_server) : option (curve_server * bytes) :=
  let* metadata_length := basic_properties_len b o in
  let* metadata := add_basic_properties b o metadata_length in
  let* ready_box := crypto_box_afternm (zeros 32 ++ metadata) (nonce_ready ++ put_uint64 (cb_nonce (cs_base s))) (cb_precom (cs_base s)) in
  Some (cs_with_base s (cb_step (cs_base s)), ready_prefix ++ put_uint64 (cb_nonce (cs_base s)) ++ drop 16 ready_box).

Definition cs_produce_error (s : curve_server) : option bytes :=
  let status_code := h_status_code (cs_h s) in
  zmq_assert (length status_code =? 3)%nat ;; Some (error_prefix ++ [3] ++ status_code).

Definition cs_next_handshake_command (s : curve_server) (r : welcome_random) : option (curve_server * next_result) :=
  match cs_state s with
  | sv_sending_welcome =>
      let* (s, m) := cs_produce_welcome s r in
      Some (match m with inl _ => cs_goto s sv_waiting_for_initiate | inr _ => s end, m)
  | sv_sending_ready => let* (s, msg) := cs_produce_ready s in Some (cs_goto s sv_ready, inl msg)
  | sv_sending_error => let* msg := cs_produce_error s in Some (cs_goto s sv_error_sent, inl msg)
  | _ => Some (s, inr (Some EAGAIN))
  end.

Definition cs_zap_msg_available (s : curve_server) : option (curve_server * rc_t) :=
  zmq_assert (bool_decide (cs_state s = sv_waiting_for_zap_reply)) ;;
  let* (p, rc) := common_receive_zap_reply b o sv_sending_ready (cs_hs s) in Some (cs_with s p, rc).

Definition cs_encode (s : curve_server) (msg_ : frame) : option (curve_server * frame) :=
  zmq_assert (bool_decide (cs_state s = sv_ready)) ;;
  let* (base, f) := curve_encode nonce_message_server (cs_base s) msg_ in Some (cs_with_base s base, f).

Definition cs_decode (s : curve_server) (msg_ : frame) : option (curve_server * (frame * rc_t)) :=
  zmq_assert (bool_decide (cs_state s = sv_ready)) ;;
  let* (h, base, r) := curve_decode nonce_message_client (cs_h s) (cs_base s) msg_ in
  Some (cs_with_base (cs_with s (Ps h (cs_state s))) base, r).

Definition cs_status (s : curve_server) : mech_status := ps_status (cs_hs s).

End curve.
