(* ===== verification/CurveProps.v ===== *)
(** * CURVE: messages, handshakes and who is admitted

    Over any cryptographic library that keeps its documented laws
    ([NaClLaws]): frames encoded by one side are decoded by the other and
    none is accepted twice; a client with the server's key completes the
    handshake, and both sides hold the same key; a server admits a client
    only when all the boxes of its INITIATE opened and the ZAP handler, where
    one has a say, accepted its long-term key. *)

From Stdlib Require Import Bool.
From S2P Require Import Prelude Wire Options OptionsProps Mechanism Frame Codec Zap Handshake HandshakeProps Curve.

(** ** Reading out of buffers *)

Lemma read_at_mid a x rest off len : length a = off -> length x = len -> read_at (a ++ x ++ rest) off len = Some x.
Proof.
  intros <- <-. unfold read_at. rewrite (proj2 (Nat.leb_le _ _)) by (rewrite !length_app; lia).
  by rewrite drop_app_length, take_app_length.
Qed.

Lemma read_at_end a x off len : length a = off -> length x = len -> read_at (a ++ x) off len = Some x.
Proof. intros Ha Hx. rewrite <- (app_nil_r x) at 1. by apply read_at_mid. Qed.

Lemma read_at_length data off len x : read_at data off len = Some x -> length x = len.
Proof. unfold read_at. destruct (_ <=? _)%nat eqn:E; [|done]. apply Nat.leb_le in E. intros [= <-]. rewrite length_take, length_drop. lia. Qed.

Lemma read_at_total data off len : (off + len <= length data)%nat -> exists x, read_at data off len = Some x.
Proof. intros Hl. unfold read_at. rewrite (proj2 (Nat.leb_le _ _)) by lia. by eexists. Qed.

Lemma put_uint64_sized v : sized 8 (put_uint64 v).
Proof. split; [done|]. rewrite put_uint64_be. apply be_bytes_ok. Qed.

Lemma sized_app n m x y : sized n x -> sized m y -> sized (n + m) (x ++ y).
Proof. intros [Hx Bx] [Hy By]. split; [rewrite length_app; lia|by apply Forall_app]. Qed.

Lemma zeros_ok n : bytes_ok (zeros n).
Proof. apply Forall_replicate. unfold is_u8. lia. Qed.

Ltac sized_literal := split; [reflexivity|repeat constructor; unfold is_u8; lia].

Lemma nonces_sized :
  (sized 16 nonce_message_client /\ sized 16 nonce_message_server /\ sized 16 nonce_hello /\ sized 16 nonce_initiate) /\
  (sized 16 nonce_ready /\ sized 8 nonce_welcome /\ sized 8 nonce_cookie /\ sized 8 nonce_vouch).
Proof. split_and!; sized_literal. Qed.

(** A command of a handshake passes the basic check. *)
Lemma basic_structure_ok h prefix data : has_prefix prefix data = true -> (0 < length prefix)%nat ->
  default 0 (prefix !! 0%nat) < Z.of_nat (length data) -> 1 < Z.of_nat (length data) -> check_basic_command_structure h data = (h, None).
Proof.
  intros Hp Hl Hd H1. apply has_prefix_split in Hp. unfold check_basic_command_structure.
  assert (data !! 0%nat = prefix !! 0%nat) as -> by (rewrite Hp; by apply lookup_app_l).
  rewrite !(proj2 (Z.leb_gt _ _)) by lia. done.
Qed.

Lemma basic_structure_same h data h' rc : check_basic_command_structure h data = (h', rc) -> h_mech h' = h_mech h /\ h_zap h' = h_zap h /\ (rc = None -> h' = h).
Proof. unfold check_basic_command_structure. destruct (_ || _); intros [= <- <-]; done. Qed.

Lemma has_prefix_app prefix rest : has_prefix prefix (prefix ++ rest) = true.
Proof. apply bool_decide_eq_true_2. by rewrite take_app_length. Qed.

(** ** An operation on each element of a list *)

Fixpoint run_all {S A B} (op : S -> A -> option (S * B)) (s : S) (l : list A) : option (S * list B) :=
  match l with
  | [] => Some (s, [])
  | a :: l' => let* (s, r) := op s a in let* (s, rs) := run_all op s l' in Some (s, r :: rs)
  end.

(** An operation that works on a part of the state. *)
Lemma run_all_part {S T A B} (op : S -> A -> option (S * B)) (op' : T -> A -> option (T * B)) (P : S -> Prop) (get : S -> T) (put : S -> T -> S) :
  (forall s a, P s -> op s a = (let* (t, r) := op' (get s) a in Some (put s t, r))) ->
  (forall s t, get (put s t) = t) -> (forall s t t', put (put s t) t' = put s t') -> (forall s, put s (get s) = s) -> (forall s t, P s -> P (put s t)) ->
  forall l s, P s -> run_all op s l = (let* (t, rs) := run_all op' (get s) l in Some (put s t, rs)).
Proof.
  intros Hop Hgp Hpp Hpg HP. induction l as [|a l IH]; intros s Hs; cbn [run_all mbind option_bind]; [by rewrite Hpg|].
  rewrite Hop by done. destruct (op' (get s) a) as [[t r]|]; cbn [mbind option_bind]; [|done].
  rewrite IH by (by apply HP). rewrite Hgp. destruct (run_all op' t l) as [[t' rs]|]; cbn [mbind option_bind]; [by rewrite Hpp|done].
Qed.

Section curve_laws.
Context `{NaClLaws}.

(** ** Boxes open *)

Lemma afternm_opens p n k : bytes_ok p -> sized 24 n -> sized 32 k ->
  exists c, crypto_box_afternm (zeros 32 ++ p) n k = Some (zeros 16 ++ c) /\ sized (16 + length p) c /\
    crypto_box_open_afternm (zeros 16 ++ c) n k = Some (zeros 32 ++ p).
Proof. intros Hp Hn Hk. rewrite afternm_secretbox. setoid_rewrite open_afternm_secretbox. by apply secretbox_opens. Qed.

Lemma box_opens p n a b : bytes_ok p -> sized 24 n -> sized 32 a -> sized 32 b ->
  exists c, crypto_box (zeros 32 ++ p) n (crypto_public b) a = Some (zeros 16 ++ c) /\ sized (16 + length p) c /\
    crypto_box_open (zeros 16 ++ c) n (crypto_public a) b = Some (zeros 32 ++ p).
Proof.
  intros Hp Hn Ha Hb. destruct (beforenm_agrees a b Ha Hb) as (k & Eab & Eba & Hk).
  destruct (afternm_opens p n k Hp Hn Hk) as (c & E1 & Hc & E2). exists c.
  by rewrite (box_beforenm _ _ _ _ k), (box_open_beforenm _ _ _ _ k).
Qed.

(** ** Messages *)

(** What is left of the flags of a frame. *)
Definition curve_frame (f : frame) : frame := sized_frame (Z.land (fr_flags f) 3) (fr_body f).

Lemma flags_through x :
  let flags := Z.lor (if negb (Z.land x flag_more =? 0) then 1 else 0) (if negb (Z.land x flag_command =? 0) then 2 else 0) in
  Z.lor (if negb (Z.land flags 1 =? 0) then flag_more else 0) (if negb (Z.land flags 2 =? 0) then flag_command else 0) = Z.land x 3 /\ is_u8 flags.
Proof.
  unfold flag_more, flag_command.
  assert (Z.land x 3 = Z.lor (Z.land x 1) (Z.land x 2)) as -> by (change 3 with (Z.lor 1 2); apply Z.land_lor_distr_r).
  assert (Z.land x 1 = Z.b2z (Z.testbit x 0)) as ->.
  { change 1 with (Z.ones 1). rewrite Z.land_ones by lia. by rewrite Z.bit0_mod. }
  assert (Z.land x 2 = 2 * Z.b2z (Z.testbit x 1)) as ->.
  { apply Z.bits_inj'. intros i Hi. rewrite Z.land_spec. destruct (decide (i = 1)) as [->|Hn]; [by destruct (Z.testbit x 1)|].
    destruct (decide (i = 0)) as [->|Hn0]; [rewrite andb_false_r; by destruct (Z.testbit x 1)|].
    rewrite (Z.bits_above_log2 2 i) by (simpl; lia). rewrite andb_false_r. destruct (Z.testbit x 1); [|by rewrite Z.bits_0].
    rewrite (Z.bits_above_log2 (2 * Z.b2z true) i) by (simpl; lia). done. }
  unfold is_u8. by destruct (Z.testbit x 0), (Z.testbit x 1).
Qed.

(** One frame over the wire. *)
Lemma decode_encode prefix h c c' f : sized 16 prefix -> sized 32 (cb_precom c) -> is_u64 (cb_nonce c) -> bytes_ok (fr_body f) ->
  cb_precom c' = cb_precom c -> cb_peer_nonce c' < cb_nonce c ->
  exists wire, curve_encode prefix c f = Some (cb_step c, wire) /\ bytes_ok (fr_body wire) /\
    curve_decode prefix h c' wire = Some (h, cb_seen c' (cb_nonce c), (curve_frame f, None)).
Proof.
  intros Hpre Hk Hn Hbody Epre Hlt. destruct (flags_through (fr_flags f)) as [Eflags Hflags]. cbv zeta in Eflags, Hflags.
  unfold curve_encode. set (flags := Z.lor (if negb (Z.land (fr_flags f) flag_more =? 0) then 1 else 0) _) in *.
  destruct (afternm_opens ([flags] ++ fr_body f) (prefix ++ put_uint64 (cb_nonce c)) (cb_precom c)) as (box & E1 & [Hl Hb] & E2);
    [apply Forall_app; split; [constructor; [done|constructor]|done]|apply (sized_app 16 8); [done|apply put_uint64_sized]|done|].
  rewrite E1. cbn [mbind option_bind]. rewrite (drop_app_length' (zeros 16)) by done.
  eexists. split; [done|]. destruct (put_uint64_sized (cb_nonce c)) as [Hnl Hnb].
  assert (length box = (17 + length (fr_body f))%nat) as Hbl by (rewrite Hl; simpl; lia).
  split; [cbn [fr_body sized_frame]; apply Forall_app; split; [repeat constructor; unfold is_u8; lia|by apply Forall_app]|].
  unfold curve_decode. cbn [fr_body sized_frame]. set (msg := curve_message_prefix ++ _).
  assert (length msg = (33 + length (fr_body f))%nat) as Hml by (unfold msg; rewrite !length_app, Hbl, Hnl; simpl; lia).
  assert (has_prefix curve_message_prefix msg = true) as Hp by apply has_prefix_app.
  rewrite (basic_structure_ok h curve_message_prefix msg Hp) by (rewrite ?Hml; change (default 0 (curve_message_prefix !! 0%nat)) with 7; simpl length; lia). rewrite Hp, (proj2 (Nat.ltb_ge _ _)) by lia. cbn [negb].
  assert (read_at msg 8 8 = Some (put_uint64 (cb_nonce c))) as -> by (by apply read_at_mid).
  assert (read_at msg 16 (length msg - 16) = Some box) as ->.
  { unfold msg. rewrite (app_assoc curve_message_prefix). apply read_at_end; [rewrite length_app; by rewrite Hnl|]. fold msg. rewrite !length_app. simpl. lia. }
  cbn [mbind option_bind]. rewrite <- (app_nil_r (put_uint64 (cb_nonce c))) at 1. rewrite get_put_uint64 by done. cbn [mbind option_bind].
  rewrite (proj2 (Z.leb_gt _ _)) by lia. cbn [cb_seen cb_precom]. rewrite Epre, E2.
  rewrite (lookup_app_r (zeros 32)) by (simpl; lia). cbn [length Nat.sub app lookup list_lookup zeros replicate mbind option_bind].
  rewrite (read_at_end (zeros 32 ++ [flags]) (fr_body f)) by (simpl; lia).
  cbn [mbind option_bind]. rewrite Eflags. done.
Qed.

Lemma encode_all_ok prefix : forall fs c, sized 16 prefix -> sized 32 (cb_precom c) -> 0 <= cb_nonce c ->
  cb_nonce c + Z.of_nat (length fs) < 18446744073709551616 -> Forall (fun f => bytes_ok (fr_body f)) fs ->
  exists wires, run_all (curve_encode prefix) c fs = Some (Cb (cb_nonce c + Z.of_nat (length fs)) (cb_peer_nonce c) (cb_precom c), wires) /\
    forall h c', cb_precom c' = cb_precom c -> cb_peer_nonce c' < cb_nonce c ->
      exists peer, run_all (fun '(h, c) w => curve_decode prefix h c w) (h, c') wires =
        Some (h, Cb (cb_nonce c') peer (cb_precom c'), (fun f => (curve_frame f, None)) <$> fs) /\ peer < cb_nonce c + Z.of_nat (length fs).
Proof.
  induction fs as [|f fs IH]; intros c Hp Hk Hn0 Hn Hf; cbn [length] in *.
  - exists []. split; [cbn [run_all]; f_equal; f_equal; destruct c; f_equal; simpl; lia|]. intros h c' Ek Hlt. exists (cb_peer_nonce c').
    split; [by destruct c'|lia].
  - apply Forall_cons_1 in Hf as [Hf1 Hf]. assert (is_u64 (cb_nonce c)) as Hu by (unfold is_u64; lia).
    assert (cb_step c = Cb (cb_nonce c + 1) (cb_peer_nonce c) (cb_precom c)) as Estep by (unfold cb_step; by rewrite u64_small by (unfold is_u64; lia)).
    destruct (IH (cb_step c)) as (wires & Ew & Hd); rewrite ?Estep; simpl; try done || lia. rewrite Estep in Ew, Hd. cbn [cb_nonce cb_peer_nonce cb_precom] in Ew, Hd.
    destruct (decode_encode prefix (Hs mech_new (Zs false false [] []) [] []) c (Cb 0 (cb_nonce c - 1) (cb_precom c)) f) as (w & E1 & _); try done; [simpl; lia|].
    exists (w :: wires). cbn [run_all]. rewrite E1. cbn [mbind option_bind]. rewrite Estep, Ew. cbn [mbind option_bind].
    split; [do 3 f_equal; lia|]. intros h c' Ek Hlt.
    destruct (decode_encode prefix h c c' f) as (w' & E1' & _ & E2); try done. rewrite E1 in E1'. injection E1' as <-. rewrite E2. cbn [mbind option_bind].
    destruct (Hd h (cb_seen c' (cb_nonce c))) as (peer & E3 & Hpeer); [done|simpl; lia|]. rewrite E3. cbn [mbind option_bind fmap list_fmap cb_seen cb_nonce cb_precom].
    exists peer. split; [done|lia].
Qed.

(** ** The two ends of a connection *)

Record curve_linked (c : curve_client) (s : curve_server) : Prop := {
  cl_connected : cc_state c = cc_connected;
  cl_ready : cs_state s = sv_ready;
  cl_key : cb_precom (cs_base s) = cb_precom (cc_base c);
  cl_sized : sized 32 (cb_precom (cc_base c));
  cl_up : cb_peer_nonce (cs_base s) < cb_nonce (cc_base c);
  cl_down : cb_peer_nonce (cc_base c) < cb_nonce (cs_base s);
  cl_positive : 0 <= cb_nonce (cc_base c) /\ 0 <= cb_nonce (cs_base s);
}.

Lemma cc_encode_all c fs : cc_state c = cc_connected -> run_all cc_encode c fs =
  (let* (t, ws) := run_all (curve_encode nonce_message_client) (cc_base c) fs in Some (Cc (cc_h c) t (cc_state c) (cc_tools c), ws)).
Proof.
  apply (run_all_part cc_encode _ (fun c => cc_state c = cc_connected) cc_base (fun c t => Cc (cc_h c) t (cc_state c) (cc_tools c))); try done; [|by intros []].
  intros s a Hs. unfold cc_encode. by rewrite bool_decide_eq_true_2.
Qed.

Lemma cs_encode_all s fs : cs_state s = sv_ready -> run_all cs_encode s fs =
  (let* (t, ws) := run_all (curve_encode nonce_message_server) (cs_base s) fs in Some (cs_with_base s t, ws)).
Proof.
  apply (run_all_part cs_encode _ (fun s => cs_state s = sv_ready) cs_base cs_with_base); try done; [|by intros []].
  intros s' a Hs. unfold cs_encode. by rewrite bool_decide_eq_true_2.
Qed.

Lemma cc_decode_all c ws : cc_state c = cc_connected -> run_all cc_decode c ws =
  (let* (t, rs) := run_all (fun '(h, c) w => curve_decode nonce_message_server h c w) (cc_h c, cc_base c) ws in
   Some (Cc t.1 t.2 (cc_state c) (cc_tools c), rs)).
Proof.
  apply (run_all_part cc_decode _ (fun c => cc_state c = cc_connected) (fun c => (cc_h c, cc_base c)) (fun c t => Cc t.1 t.2 (cc_state c) (cc_tools c)));
    try done; [|by intros s []|by intros []].
  intros s a Hs. unfold cc_decode. rewrite bool_decide_eq_true_2 by done. by destruct (curve_decode _ _ _ _) as [[[] ?]|].
Qed.

Lemma cs_decode_all s ws : cs_state s = sv_ready -> run_all cs_decode s ws =
  (let* (t, rs) := run_all (fun '(h, c) w => curve_decode nonce_message_client h c w) (cs_h s, cs_base s) ws in
   Some (cs_with_base (cs_with s (Ps t.1 (cs_state s))) t.2, rs)).
Proof.
  apply (run_all_part cs_decode _ (fun s => cs_state s = sv_ready) (fun s => (cs_h s, cs_base s)) (fun s t => cs_with_base (cs_with s (Ps t.1 (cs_state s))) t.2));
    try done; [|by intros ? []|by intros [[] ?]].
  intros s' a Hs. unfold cs_decode. rewrite bool_decide_eq_true_2 by done. by destruct (curve_decode _ _ _ _) as [[[] ?]|].
Qed.

End curve_laws.

(** C33: messages pass between the two ends of a CURVE connection unchanged.
    Whatever sequences of frames both ends encode, in whatever amounts
    before the peer reads them, the peer decodes exactly those frames, in
    order (of their flags MORE and COMMAND are carried), and the connection
    stays usable, as long as no nonce reaches 2^64. *)
Theorem curve_messages `{NaClLaws} c s up down : curve_linked c s ->
  Forall (fun f => bytes_ok (fr_body f)) up -> Forall (fun f => bytes_ok (fr_body f)) down ->
  cb_nonce (cc_base c) + Z.of_nat (length up) < 18446744073709551616 -> cb_nonce (cs_base s) + Z.of_nat (length down) < 18446744073709551616 ->
  exists c1 s1 c2 s2 wires_up wires_down,
    run_all cc_encode c up = Some (c1, wires_up) /\ run_all cs_encode s down = Some (s1, wires_down) /\
    run_all cs_decode s1 wires_up = Some (s2, (fun f => (curve_frame f, None)) <$> up) /\
    run_all cc_decode c1 wires_down = Some (c2, (fun f => (curve_frame f, None)) <$> down) /\
    curve_linked c2 s2.
Proof.
  intros [Hc Hsv Ek Hk Hup Hdown [Hp1 Hp2]] Fup Fdown Nup Ndown. rewrite cc_encode_all, cs_encode_all by done.
  destruct (encode_all_ok nonce_message_client up (cc_base c)) as (wu & Eu & Du); try done || apply nonces_sized.
  destruct (encode_all_ok nonce_message_server down (cs_base s)) as (wd & Ed & Dd); try done || apply nonces_sized; [by rewrite Ek|].
  rewrite Eu, Ed. cbn [mbind option_bind].
  destruct (Du (cs_h s) (Cb (cb_nonce (cs_base s) + Z.of_nat (length down)) (cb_peer_nonce (cs_base s)) (cb_precom (cs_base s)))) as (p1 & E1 & L1); [done..|].
  destruct (Dd (cc_h c) (Cb (cb_nonce (cc_base c) + Z.of_nat (length up)) (cb_peer_nonce (cc_base c)) (cb_precom (cc_base c)))) as (p2 & E2 & L2); [done..|].
  eexists _, _, _, _, _, _. split; [done|]. split; [done|]. rewrite cs_decode_all, cc_decode_all by done. cbn [cs_h cs_hs cs_with_base cs_base cc_h cc_base].
  change (cs_h (cs_with_base s ?t)) with (cs_h s). rewrite E1, E2. cbn [mbind option_bind]. split; [reflexivity|]. split; [reflexivity|].
  split; simpl; try done; lia.
Qed.

(** An accepted message has a greater nonce than those before it. *)
Lemma decode_accepts `{NaCl} prefix h c w h' c' f : curve_decode prefix h c w = Some (h', c', (f, None)) ->
  exists short, read_at (fr_body w) 8 8 = Some short /\ get_uint64 short = Some (cb_peer_nonce c') /\ cb_peer_nonce c < cb_peer_nonce c'.
Proof.
  unfold curve_decode. destruct (check_basic_command_structure _ _) as [h1 [e|]]; [done|].
  destruct (has_prefix _ _); cbn [negb]; [|done]. destruct (_ <? _)%nat; [done|].
  destruct (read_at _ 8 8) as [short|]; cbn [mbind option_bind]; [|done]. destruct (get_uint64 short) as [nonce|] eqn:En; cbn [mbind option_bind]; [|done].
  destruct (nonce <=? _) eqn:Hn; [done|]. bool_prop. destruct (read_at _ 16 _); cbn [mbind option_bind]; [|done].
  destruct (crypto_box_open_afternm _ _ _) as [m|]; [|done]. destruct (m !! 32%nat); cbn [mbind option_bind]; [|done].
  destruct (read_at m _ _); cbn [mbind option_bind]; [|done]. intros [= <- <- <-]. exists short. split_and!; done.
Qed.

Lemma decode_all_accepts `{NaCl} prefix : forall ws h c h' c' rs, run_all (fun '(h, c) w => curve_decode prefix h c w) (h, c) ws = Some (h', c', rs) ->
  Forall (fun r => r.2 = None) rs ->
  Forall (fun w => exists short n, read_at (fr_body w) 8 8 = Some short /\ get_uint64 short = Some n /\ cb_peer_nonce c < n) ws /\ NoDup (fr_body <$> ws).
Proof.
  induction ws as [|w ws IH]; intros h c h' c' rs E Hrs; [split; [constructor|apply NoDup_nil_2]|]. cbn [run_all] in E.
  destruct (curve_decode prefix h c w) as [[[h1 c1] [f rc]]|] eqn:Ed; cbn [mbind option_bind] in E; [|done].
  destruct (run_all _ (h1, c1) ws) as [[[h2 c2] rs']|] eqn:Er; cbn [mbind option_bind] in E; [|done]. injection E as <- <- <-.
  apply Forall_cons_1 in Hrs as [Hrc Hrs]. simpl in Hrc. subst rc. destruct (decode_accepts _ _ _ _ _ _ _ Ed) as (short & Es & En & Hlt).
  destruct (IH _ _ _ _ _ Er Hrs) as [Hall Hnd]. split.
  - constructor; [by exists short, (cb_peer_nonce c1)|]. eapply Forall_impl; [|exact Hall]. intros x (sh & n & E1 & E2 & Hn). exists sh, n. split_and!; [done|done|lia].
  - cbn [fmap list_fmap]. apply list.NoDup_cons. split; [|done]. intros Hin. apply list_elem_of_fmap in Hin as (x & Ex & Hx).
    destruct (Forall_elem _ _ _ Hall Hx) as (sh & n & E1 & E2 & Hn). rewrite <- Ex, Es in E1. injection E1 as <-. rewrite En in E2. injection E2 as <-. lia.
Qed.

(** C35: no message is accepted twice. Of whatever a server that is ready
    receives, what it accepts are distinct commands with nonces that are
    greater than those of the handshake: a repeated command is refused, and
    so is one that arrives behind a later one. Nothing is assumed of the
    cryptography. *)
Theorem curve_no_replay `{NaCl} s ws s' rs : cs_state s = sv_ready -> run_all cs_decode s ws = Some (s', rs) -> Forall (fun r => r.2 = None) rs ->
  NoDup (fr_body <$> ws) /\
  Forall (fun w => exists short n, read_at (fr_body w) 8 8 = Some short /\ get_uint64 short = Some n /\ cb_peer_nonce (cs_base s) < n) ws /\
  forall w short n, read_at (fr_body w) 8 8 = Some short -> get_uint64 short = Some n -> n <= cb_peer_nonce (cs_base s') ->
    forall s'' r, cs_decode s' w = Some (s'', r) -> r.2 <> None.
Proof.
  intros Hr E Hrs. rewrite cs_decode_all in E by done. destruct (run_all _ _ ws) as [[[h c] rs']|] eqn:Ew; cbn [mbind option_bind] in E; [|done].
  injection E as <- <-. destruct (decode_all_accepts _ _ _ _ _ _ _ Ew Hrs) as [Hall Hnd]. split_and!; [done|done|].
  intros w short n Es En Hn s'' [f rc] Ed Hrc. simpl in Hrc. subst rc. unfold cs_decode in Ed. rewrite bool_decide_eq_true_2 in Ed by done.
  destruct (curve_decode _ _ _ w) as [[[h2 c2] r2]|] eqn:Ed2; cbn [mbind option_bind] in Ed; [|done]. injection Ed as <- ->.
  destruct (decode_accepts _ _ _ _ _ _ _ Ed2) as (sh & E1 & E2 & Hlt). rewrite Es in E1. injection E1 as <-. rewrite En in E2. injection E2 as ->. simpl in *. lia.
Qed.

(** ** The metadata in a command *)

Lemma properties_written b o : announce_ok b o ->
  exists len, basic_properties_len b o = Some len /\ add_basic_properties b o len = Some (encode_properties (announces b o)).
Proof.
  intros Ho. pose proof (make_command_ok b o [] Ho) as E. unfold make_command_with_basic_properties in E.
  destruct (basic_properties_len b o) as [len|]; cbn [mbind option_bind] in E; [|done]. exists len. split; [done|].
  cbn [length] in E. replace (Z.of_nat 0 + len - Z.of_nat 0) with len in E by lia.
  destruct (add_basic_properties b o len) as [props|]; cbn [mbind option_bind app] in E; [|done]. by injection E as _ ->.
Qed.

Lemma encode_property_bytes p : wire_ok p -> bytes_ok p.1 -> bytes_ok p.2 -> bytes_ok (encode_property p).
Proof.
  intros [Hn _] H1 H2. unfold encode_property. apply Forall_app. split; [constructor; [unfold is_u8; lia|constructor]|].
  apply Forall_app. split; [done|]. apply Forall_app. split; [rewrite put_uint32_be; apply be_bytes_ok|done].
Qed.

Lemma announces_bytes b o : announce_ok b o -> bytes_ok (encode_properties (announces b o)).
Proof.
  intros Ho. assert (Forall (fun p => wire_ok p /\ bytes_ok p.1 /\ bytes_ok p.2) (announces b o)) as Hall.
  { apply Forall_of_elem. intros p Hp. split; [by eapply Forall_elem; [apply announces_wire_ok|]|]. unfold announces in Hp.
    apply elem_of_app in Hp as [Hp|Hp]; [|apply elem_of_app in Hp as [Hp|Hp]].
    - apply list_elem_of_singleton in Hp as ->. cbn [fst snd]. split; [repeat constructor; unfold is_u8; lia|].
      destruct (type_names b !! _) as [name|] eqn:En; [|constructor]. cbn [default from_option id].
      assert (Forall bytes_ok (type_names b)) as Ht.
      { unfold type_names. apply Forall_app. split; [|destruct (b_draft b)]; repeat constructor; unfold is_u8; lia. }
      by eapply Forall_elem, list_elem_of_lookup_2.
    - destruct (has_identity o); [|by apply not_elem_of_nil in Hp]. apply list_elem_of_singleton in Hp as ->. cbn [fst snd].
      split; [repeat constructor; unfold is_u8; lia|]. apply (ok_str _ (an_options _ _ Ho) s_routing_id).
    - destruct p as [k v]. destruct (metadata_list_elem b o k v Ho Hp) as (_ & (_ & _ & _ & Hz) & _). cbn [fst snd].
      apply Forall_app in Hz as [Hk Hz]. apply Forall_cons_1 in Hz as [_ Hv].
      split; eapply Forall_impl; [|exact Hk| |exact Hv]; by intros ? []. }
  unfold encode_properties. induction Hall as [|p l (Hw & H1 & H2) _ IH]; [constructor|]. cbn [fmap list_fmap concat].
  apply Forall_app. split; [by apply encode_property_bytes|exact IH].
Qed.

Lemma read_at_split data a x rest off len : data = a ++ x ++ rest -> length a = off -> length x = len -> read_at data off len = Some x.
Proof. intros ->. apply read_at_mid. Qed.

(** Reads a part of [data], which is [a ++ x ++ rest] by [E]. *)
Ltac read_part E data a x rest off len :=
  rewrite (read_at_split data a x rest off len) by
    first [ by rewrite E, <- ?app_assoc, ?app_nil_r | rewrite ?length_app; simpl length; lia ].

(** ** A handshake *)

Section curve_handshake.
Context `{NaClLaws} (b : build) (oc os : options) (addr : bytes).
Hypothesis Hclient : announce_ok b oc.
Hypothesis Hserver : announce_ok b os.

(** The keys: of the client, of the server, and of the connection. *)
Let C := op_str oc s_curve_public_key.
Let c := op_str oc s_curve_secret_key.
Let s := op_str os s_curve_secret_key.
Context (cn_c cn_s : bytes).
Hypothesis Hkeys : sized 32 cn_c /\ sized 32 cn_s.
Hypothesis Hpair : op_str oc s_curve_public_key = crypto_public (op_str oc s_curve_secret_key).
Hypothesis Hknown : op_str oc s_curve_server_key = crypto_public (op_str os s_curve_secret_key).

(** The random bytes, and what was in memory before. *)
Context (r : welcome_random) (vouch_random : bytes) (junk_c junk_s : bytes * bytes * bytes).
Hypothesis Hrandom : sized 16 (wr_cookie_nonce r) /\ sized 32 (wr_cookie_key r) /\ sized 16 (wr_welcome_nonce r) /\ sized 16 vouch_random.

Lemma keys_sized : sized 32 c /\ sized 32 s /\ sized 32 C /\ sized 32 (crypto_public cn_c) /\ sized 32 (crypto_public cn_s).
Proof.
  assert (sized 32 c /\ sized 32 s) as [Hc Hs'].
  { split; [destruct (ok_str _ (an_options _ _ Hclient) s_curve_secret_key)|destruct (ok_str _ (an_options _ _ Hserver) s_curve_secret_key)]; done. }
  split_and!; try done; [unfold C; rewrite Hpair|..]; apply public_sized; done || apply Hkeys.
Qed.

Lemma nonce_sized p v : sized 16 p -> sized 24 (p ++ put_uint64 v).
Proof. intros Hp. apply (sized_app 16 8); [done|apply put_uint64_sized]. Qed.

(** The HELLO opens at the server. *)
Definition is_hello (hello : bytes) : Prop := exists box,
  hello = hello_prefix ++ [1; 0] ++ zeros 72 ++ crypto_public cn_c ++ put_uint64 1 ++ box /\ length box = 80%nat /\
  crypto_box_open (zeros 16 ++ box) (nonce_hello ++ put_uint64 1) (crypto_public cn_c) s = Some (zeros 96).

Definition tools0 : curve_tools := cc_tools (curve_client_new oc zs_new cn_c junk_c).

Lemma curve_client_hello random : exists hello, is_hello hello /\
  cc_next_handshake_command b oc (curve_client_new oc zs_new cn_c junk_c) random =
  Some (Cc (hs_new zs_new) (Cb 2 1 junk_c.1.1) cc_expect_welcome tools0, inl hello).
Proof.
  destruct keys_sized as (Hc & Hs' & _). destruct (box_opens (zeros 64) (nonce_hello ++ put_uint64 1) cn_c s) as (box & E1 & [Hl _] & E2);
    [apply zeros_ok|apply nonce_sized, nonces_sized|apply Hkeys|done|].
  eexists. split; [exists box; split; [reflexivity|done]|].
  unfold cc_next_handshake_command. cbn [cc_state curve_client_new]. unfold cc_produce_hello, tools_produce_hello, tools0.
  cbn [cc_tools cc_base cb_nonce cb_new ct_server_key ct_cn_secret ct_cn_public curve_client_new]. rewrite Hknown.
  change (zeros 96) with (zeros 32 ++ zeros 64). fold s. rewrite E1. cbn [mbind option_bind]. by rewrite (drop_app_length' (zeros 16)).
Qed.

Lemma curve_server_hello peer hello : is_hello hello ->
  cs_process_handshake_command b os addr peer (curve_server_new os zs_new cn_s junk_s) hello =
  Some (Cs (Ps (hs_new zs_new) sv_sending_welcome) (Cb 1 1 junk_s.1.1) s (crypto_public cn_s) cn_s (crypto_public cn_c) junk_s.2, None).
Proof.
  intros (box & Ehello & Hl & Eo). destruct keys_sized as (_ & _ & _ & [Hcl _] & _).
  assert (length hello = 200%nat) as Hlen by (rewrite Ehello, !length_app, Hcl, Hl; reflexivity).
  unfold cs_process_handshake_command. cbn [cs_state ps_state cs_hs curve_server_new]. unfold cs_process_hello.
  assert (has_prefix hello_prefix hello = true) as Hp by (rewrite Ehello; apply has_prefix_app).
  rewrite (basic_structure_ok _ hello_prefix hello Hp) by (rewrite ?Hlen; simpl; lia). rewrite Hp, Hlen. cbn [negb Nat.eqb].
  assert (hello !! 6%nat = Some 1 /\ hello !! 7%nat = Some 0) as [-> ->] by (by rewrite Ehello). cbn [mbind option_bind Z.eqb Pos.eqb negb orb].
  read_part Ehello hello (hello_prefix ++ [1; 0] ++ zeros 72) (crypto_public cn_c) (put_uint64 1 ++ box) 80%nat 32%nat.
  read_part Ehello hello (hello_prefix ++ [1; 0] ++ zeros 72 ++ crypto_public cn_c) (put_uint64 1) box 112%nat 8%nat.
  read_part Ehello hello (hello_prefix ++ [1; 0] ++ zeros 72 ++ crypto_public cn_c ++ put_uint64 1) box (@nil Z) 120%nat 80%nat.
  cbn [mbind option_bind cs_cn_client cs_secret_key cs_with_client cs_with_base curve_server_new]. change (get_uint64 (put_uint64 1)) with (Some 1).
  cbn [mbind option_bind]. fold s. by rewrite Eo.
Qed.

(** The WELCOME opens at the client, and its cookie at the server. *)
Record is_welcome (welcome cookie : bytes) : Prop := {
  wl_shape : exists box, welcome = welcome_prefix ++ wr_welcome_nonce r ++ box /\ length box = 144%nat /\
    crypto_box_open (zeros 16 ++ box) (nonce_welcome ++ wr_welcome_nonce r) (crypto_public s) cn_c =
    Some (zeros 32 ++ crypto_public cn_s ++ wr_cookie_nonce r ++ cookie);
  wl_length : length cookie = 80%nat;
  wl_cookie : crypto_secretbox_open (zeros 16 ++ cookie) (nonce_cookie ++ wr_cookie_nonce r) (wr_cookie_key r) = Some (zeros 32 ++ crypto_public cn_c ++ cn_s);
}.

(** The server between the HELLO and the INITIATE. *)
Definition server_heard (st : sv_state_t) (key : bytes) : curve_server :=
  Cs (Ps (hs_new zs_new) st) (Cb 1 1 junk_s.1.1) s (crypto_public cn_s) cn_s (crypto_public cn_c) key.

Lemma server_welcome key : exists welcome cookie, is_welcome welcome cookie /\
  cs_next_handshake_command b os (server_heard sv_sending_welcome key) r = Some (server_heard sv_waiting_for_initiate (wr_cookie_key r), inl welcome).
Proof.
  destruct keys_sized as (_ & Hs' & _ & Hcp & Hsp). destruct Hkeys as [Hcc Hcs]. destruct Hrandom as (R1 & R2 & R3 & _).
  destruct (secretbox_opens (crypto_public cn_c ++ cn_s) (nonce_cookie ++ wr_cookie_nonce r) (wr_cookie_key r)) as (ck & E1 & [Hl Hb] & E2);
    [by apply Forall_app; split; [apply Hcp|apply Hcs]|apply (sized_app 8 16); [apply nonces_sized|done]|done|].
  assert (length ck = 80%nat) as Hck by (rewrite Hl, length_app, (proj1 Hcp), (proj1 Hcs); reflexivity).
  destruct (box_opens (crypto_public cn_s ++ wr_cookie_nonce r ++ ck) (nonce_welcome ++ wr_welcome_nonce r) s cn_c) as (wb & E3 & [Hl' _] & E4);
    [apply Forall_app; split; [apply Hsp|apply Forall_app; split; [apply R1|done]]|apply (sized_app 8 16); [apply nonces_sized|done]|done|done|].
  eexists _, ck. split.
  { split; [exists wb; split; [reflexivity|]|done|done]. split; [|done]. rewrite Hl', !length_app, Hck, (proj1 Hsp), (proj1 R1). reflexivity. }
  unfold cs_next_handshake_command, server_heard. cbn [cs_state cs_hs ps_state]. unfold cs_produce_welcome.
  cbn [cs_cn_client cs_cn_secret cs_with_cookie_key cs_cookie_key cs_cn_public cs_secret_key]. rewrite E1. cbn [mbind option_bind].
  rewrite (drop_app_length' (zeros 16)) by done. rewrite E3. cbn [mbind option_bind]. by rewrite (drop_app_length' (zeros 16)).
Qed.

(** The key both ends compute. *)
Definition shared_key (k : bytes) : Prop :=
  crypto_box_beforenm (crypto_public cn_s) cn_c = Some k /\ crypto_box_beforenm (crypto_public cn_c) cn_s = Some k /\ sized 32 k.

Definition tools1 (cookie : bytes) : curve_tools :=
  Ct C c (crypto_public cn_c) cn_c (crypto_public s) (crypto_public cn_s) (wr_cookie_nonce r ++ cookie).

Lemma client_welcome welcome cookie k : is_welcome welcome cookie -> shared_key k ->
  cc_process_handshake_command b oc (Cc (hs_new zs_new) (Cb 2 1 junk_c.1.1) cc_expect_welcome tools0) welcome =
  Some (Cc (hs_new zs_new) (Cb 2 1 k) cc_send_initiate (tools1 cookie), None).
Proof.
  intros [(box & Ew & Hl & Eo) Hck _] (Ek & _ & _). destruct keys_sized as (_ & _ & _ & _ & [Hsp _]). destruct Hrandom as ([R1 _] & _ & [R3 _] & _).
  unfold cc_process_handshake_command. rewrite Ew, has_prefix_app, <- Ew. unfold cc_process_welcome, tools_process_welcome.
  assert (length welcome = 168%nat) as -> by (rewrite Ew, !length_app, Hl, R3; reflexivity). cbn [Nat.eqb negb].
  read_part Ew welcome (welcome_prefix ++ wr_welcome_nonce r) box (@nil Z) 24%nat 144%nat.
  read_part Ew welcome welcome_prefix (wr_welcome_nonce r) box 8%nat 16%nat.
  cbn [mbind option_bind cc_tools tools0 curve_client_new ct_server_key ct_cn_secret]. rewrite Hknown. fold s. rewrite Eo.
  set (plain := zeros 32 ++ _). assert (plain = zeros 32 ++ crypto_public cn_s ++ wr_cookie_nonce r ++ cookie) as Epl by done.
  read_part Epl plain (zeros 32) (crypto_public cn_s) (wr_cookie_nonce r ++ cookie) 32%nat 32%nat.
  read_part Epl plain (zeros 32 ++ crypto_public cn_s) (wr_cookie_nonce r ++ cookie) (@nil Z) 64%nat 96%nat.
  cbn [mbind option_bind]. rewrite Ek. cbn [mbind option_bind]. unfold tools1. cbn [ct_public_key ct_secret_key ct_cn_public cc_h cc_base cb_nonce cb_peer_nonce].
  done.
Qed.

Let metadata : bytes := encode_properties (announces b oc).

(** The INITIATE opens at the server, and the vouch in it. *)
Record is_initiate (initiate cookie : bytes) : Prop := {
  in_shape : exists box vouch, initiate = initiate_prefix ++ (wr_cookie_nonce r ++ cookie) ++ put_uint64 2 ++ box /\
    length box = (144 + length metadata)%nat /\ length vouch = 80%nat /\
    crypto_box_open (zeros 16 ++ box) (nonce_initiate ++ put_uint64 2) (crypto_public cn_c) cn_s =
      Some (zeros 32 ++ C ++ vouch_random ++ vouch ++ metadata) /\
    crypto_box_open (zeros 16 ++ vouch) (nonce_vouch ++ vouch_random) C cn_s = Some (zeros 32 ++ crypto_public cn_c ++ crypto_public s);
}.

Definition client_sent (k cookie : bytes) (st : cc_state_t) (h : hstate) (nonce peer : Z) : curve_client :=
  Cc h (Cb nonce peer k) st (tools1 cookie).

Lemma client_initiate k cookie : length cookie = 80%nat -> exists initiate, is_initiate initiate cookie /\
  cc_next_handshake_command b oc (Cc (hs_new zs_new) (Cb 2 1 k) cc_send_initiate (tools1 cookie)) vouch_random =
  Some (client_sent k cookie cc_expect_ready (hs_new zs_new) 3 1, inl initiate).
Proof.
  intros Hck. destruct keys_sized as (Hc & Hs' & HC & Hcp & Hsp). destruct Hkeys as [Hcc Hcs]. destruct Hrandom as (_ & _ & _ & R4).
  destruct (box_opens (crypto_public cn_c ++ crypto_public s) (nonce_vouch ++ vouch_random) c cn_s) as (vouch & E1 & [Hl Hb] & E2);
    [apply Forall_app; split; [apply Hcp|apply (public_sized s Hs')]|apply (sized_app 8 16); [apply nonces_sized|done]|done|done|].
  assert (length vouch = 80%nat) as Hv by (rewrite Hl, length_app, (proj1 Hcp), (proj1 (public_sized s Hs')); reflexivity).
  destruct (box_opens (C ++ vouch_random ++ vouch ++ metadata) (nonce_initiate ++ put_uint64 2) cn_c cn_s) as (box & E3 & [Hl' _] & E4);
    [apply Forall_app; split; [apply HC|]; apply Forall_app; split; [apply R4|]; apply Forall_app; split; [done|by apply announces_bytes]|apply nonce_sized, nonces_sized|done|done|].
  eexists. split.
  { split. exists box, vouch. split; [reflexivity|]. split_and!; [|done|done|].
    - rewrite Hl', !length_app, Hv, (proj1 HC), (proj1 R4). lia.
    - unfold C. rewrite Hpair. fold c. done. }
  unfold cc_next_handshake_command. cbn [cc_state]. unfold cc_produce_initiate. destruct (properties_written b oc Hclient) as (len & -> & E5).
  cbn [mbind option_bind]. rewrite E5. cbn [mbind option_bind cc_tools cc_base cb_nonce]. unfold tools_produce_initiate, tools1.
  cbn [ct_cn_public ct_server_key ct_cn_server ct_secret_key ct_public_key ct_cn_secret ct_cn_cookie]. rewrite E1. cbn [mbind option_bind].
  rewrite (drop_app_length' (zeros 16)) by done. fold metadata. rewrite E3. cbn [mbind option_bind]. by rewrite (drop_app_length' (zeros 16)).
Qed.

(** The server finds the client's key and its metadata. *)
Lemma server_initiate peer initiate welcome cookie : is_initiate initiate cookie -> is_welcome welcome cookie ->
  cs_process_handshake_command b os addr peer (server_heard sv_waiting_for_initiate (wr_cookie_key r)) initiate =
  cs_accept_initiate b os addr peer (cs_with_base (server_heard sv_waiting_for_initiate (wr_cookie_key r)) (Cb 1 2 junk_s.1.1)) C metadata (Z.of_nat (length metadata)).
Proof.
  intros [(box & vouch & Ei & Hl & Hv & Eo & Ev)] [_ Hck Eck]. destruct keys_sized as (_ & [Hs' _] & [HC _] & [Hcp _] & _).
  destruct Hkeys as [_ [Hcs _]]. destruct Hrandom as ([R1 _] & _ & _ & [R4 _]).
  assert (length initiate = (257 + length metadata)%nat) as Hlen by (rewrite Ei, !length_app, Hl, Hck, R1; simpl length; lia).
  unfold cs_process_handshake_command, server_heard. cbn [cs_state cs_hs ps_state]. unfold cs_process_initiate.
  assert (has_prefix initiate_prefix initiate = true) as Hp by (rewrite Ei; apply has_prefix_app).
  rewrite (basic_structure_ok _ initiate_prefix initiate Hp) by (rewrite ?Hlen; change (default 0 (initiate_prefix !! 0%nat)) with 8; simpl length; lia).
  rewrite Hp, Hlen, (proj2 (Nat.ltb_ge _ _)) by lia. cbn [negb].
  read_part Ei initiate (initiate_prefix ++ wr_cookie_nonce r) cookie (put_uint64 2 ++ box) 25%nat 80%nat.
  read_part Ei initiate initiate_prefix (wr_cookie_nonce r) (cookie ++ put_uint64 2 ++ box) 9%nat 16%nat.
  cbn [mbind option_bind cs_cookie_key]. rewrite Eck.
  set (plain := zeros 32 ++ crypto_public cn_c ++ cn_s). assert (plain = zeros 32 ++ crypto_public cn_c ++ cn_s) as Epl by done.
  read_part Epl plain (zeros 32) (crypto_public cn_c) cn_s 32%nat 32%nat.
  read_part Epl plain (zeros 32 ++ crypto_public cn_c) cn_s (@nil Z) 64%nat 32%nat.
  cbn [mbind option_bind cs_cn_client cs_cn_secret]. rewrite !bool_decide_eq_true_2 by done. cbn [negb orb].
  replace (257 + length metadata - 113)%nat with (length box) by (rewrite Hl; lia).
  read_part Ei initiate (initiate_prefix ++ wr_cookie_nonce r ++ cookie ++ put_uint64 2) box (@nil Z) 113%nat (length box).
  read_part Ei initiate (initiate_prefix ++ wr_cookie_nonce r ++ cookie) (put_uint64 2) box 105%nat 8%nat.
  cbn [mbind option_bind]. change (get_uint64 (put_uint64 2)) with (Some 2). cbn [mbind option_bind cs_with_base cs_cn_client cs_cn_secret]. rewrite Eo.
  set (ip := zeros 32 ++ C ++ vouch_random ++ vouch ++ metadata). assert (ip = zeros 32 ++ C ++ vouch_random ++ vouch ++ metadata) as Eip by done.
  read_part Eip ip (zeros 32) C (vouch_random ++ vouch ++ metadata) 32%nat 32%nat.
  read_part Eip ip (zeros 32 ++ C ++ vouch_random) vouch metadata 80%nat 80%nat.
  read_part Eip ip (zeros 32 ++ C) vouch_random (vouch ++ metadata) 64%nat 16%nat.
  cbn [mbind option_bind]. rewrite Ev.
  set (vp := zeros 32 ++ crypto_public cn_c ++ crypto_public s). assert (vp = zeros 32 ++ crypto_public cn_c ++ crypto_public s) as Evp by done.
  read_part Evp vp (zeros 32) (crypto_public cn_c) (crypto_public s) 32%nat 32%nat.
  cbn [mbind option_bind]. rewrite bool_decide_eq_true_2 by done. cbn [negb]. f_equal; [|lia].
  unfold ip. rewrite (app_assoc _ vouch_random), (app_assoc _ vouch). rewrite 2!(app_assoc (zeros 32)). apply drop_app_length'. rewrite !length_app. simpl length. lia.
Qed.

(** The server with the key, once it has asked the handler or gone without it. *)
Definition server_keyed (m : mech) (zs : zap_session) (status : bytes) (st : sv_state_t) (nonce : Z) (k : bytes) : curve_server :=
  Cs (Ps (Hs m zs status []) st) (Cb nonce 2 k) s (crypto_public cn_s) cn_s (crypto_public cn_c) (wr_cookie_key r).

Definition told : mech := if accepts b os oc then learn_peer b os oc mech_new else mech_new.

Definition curve_asked (recv : bool) (reply : list frame) : zap_session :=
  Zs true true reply ((if recv then [Frame type_vsm flag_routing_id []] else []) ++ zap_request_frames os addr curve_mechanism_name [C]).

Lemma accept_asked t recv k : t = ZMQ_REP \/ t = ZMQ_ROUTER \/ t = ZMQ_SERVER -> shared_key k ->
  zap_required os || (op_int os m_zap_enforce_domain =? 0) = true ->
  cs_accept_initiate b os addr (Some (t, recv)) (cs_with_base (server_heard sv_waiting_for_initiate (wr_cookie_key r)) (Cb 1 2 junk_s.1.1)) C metadata (Z.of_nat (length metadata)) =
  Some (server_keyed told (curve_asked recv []) [] sv_waiting_for_zap_reply 1 k, if accepts b os oc then None else Some EINVAL).
Proof.
  intros Ht (_ & Ek & _) Hz. unfold cs_accept_initiate, server_heard. cbn [cs_cn_client cs_cn_secret cs_with_base]. rewrite Ek. cbn [mbind option_bind].
  unfold cs_ask_zap. rewrite negb_involutive, Hz. unfold zap_connect. cbn [cs_h cs_hs cs_with_base cs_base cb_nonce cb_peer_nonce ps_h hs_new h_zap zs_new zs_pipe].
  assert ((t =? ZMQ_REP) || (t =? ZMQ_ROUTER) || (t =? ZMQ_SERVER) = true) as -> by (by destruct Ht as [->|[->| ->]]).
  cbn [mbind option_bind]. unfold send_zap_request. cbn [h_zap with_zap]. rewrite write_zap_frames_ok. cbn [mbind option_bind].
  unfold common_receive_zap_reply. cbn [ps_state ps_h]. rewrite bool_decide_eq_true_2 by done.
  cbn [receive_zap_reply zap_reply_frame_count read_reply read_zap_msg with_zap h_zap zs_pipe zs_in negb mbind option_bind cs_h cs_hs cs_with ps_h h_mech].
  unfold metadata. rewrite parse_announced by done. unfold told, server_keyed, curve_asked. by destruct (accepts b os oc).
Qed.

(** Without a handler the key suffices, unless a domain is enforced. *)
Lemma accept_alone k : shared_key k -> zap_required os && negb (op_int os m_zap_enforce_domain =? 0) = false ->
  cs_accept_initiate b os addr None (cs_with_base (server_heard sv_waiting_for_initiate (wr_cookie_key r)) (Cb 1 2 junk_s.1.1)) C metadata (Z.of_nat (length metadata)) =
  Some (server_keyed told zs_new [] sv_sending_ready 1 k, if accepts b os oc then None else Some EINVAL).
Proof.
  intros (_ & Ek & _) Hz. unfold cs_accept_initiate, server_heard. cbn [cs_cn_client cs_cn_secret cs_with_base]. rewrite Ek. cbn [mbind option_bind].
  unfold cs_ask_zap. rewrite negb_involutive.
  destruct (zap_required os), (op_int os m_zap_enforce_domain =? 0) eqn:Ee; try done; cbn [orb zap_connect zs_pipe cs_with_base cs_base cs_h cs_hs ps_h h_zap hs_new zs_new mbind option_bind negb
    cs_goto cs_with cs_state ps_state h_mech with_zap];
    unfold metadata; rewrite parse_announced by done; unfold told, server_keyed; by destruct (accepts b os oc).
Qed.

Lemma server_admits_client recv text user k :
  cs_zap_msg_available b os (server_keyed told (curve_asked recv (zap_reply status_200 text user)) [] sv_waiting_for_zap_reply 1 k) =
  Some (server_keyed (set_user_id told user) (curve_asked recv []) status_200 sv_sending_ready 1 k, None).
Proof.
  unfold cs_zap_msg_available, server_keyed. cbn [cs_state cs_hs ps_state]. rewrite bool_decide_eq_true_2 by done.
  unfold common_receive_zap_reply. cbn [ps_state ps_h]. rewrite bool_decide_eq_true_2 by done. by rewrite (receive_reply_ok _ _ _ _ _ status_200 text user).
Qed.

(** READY, and both ends are connected. *)
Lemma server_ready k m zs status : sized 32 k -> accepts b os oc = true -> exists ready,
  cs_next_handshake_command b os (server_keyed m zs status sv_sending_ready 1 k) r = Some (server_keyed m zs status sv_ready 2 k, inl ready) /\
  forall cookie, cc_process_handshake_command b oc (client_sent k cookie cc_expect_ready (hs_new zs_new) 3 1) ready =
    Some (client_sent k cookie cc_connected (with_mech (hs_new zs_new) (learn_peer b oc os mech_new)) 3 1, None).
Proof.
  intros Hk Hacc. set (meta := encode_properties (announces b os)).
  destruct (afternm_opens meta (nonce_ready ++ put_uint64 1) k) as (box & E1 & [Hl _] & E2); [by apply announces_bytes|apply nonce_sized, nonces_sized|done|].
  exists (ready_prefix ++ put_uint64 1 ++ box). split.
  { unfold cs_next_handshake_command. cbn [cs_state cs_hs server_keyed ps_state]. unfold cs_produce_ready.
    destruct (properties_written b os Hserver) as (len & -> & E5). cbn [mbind option_bind]. rewrite E5. cbn [mbind option_bind cs_base server_keyed cb_nonce cb_precom].
    fold meta. rewrite E1. cbn [mbind option_bind]. by rewrite (drop_app_length' (zeros 16)). }
  intros cookie. set (ready := ready_prefix ++ _). assert (ready = ready_prefix ++ put_uint64 1 ++ box) as Er by done.
  unfold cc_process_handshake_command. assert (has_prefix welcome_prefix ready = false) as -> by (by apply bool_decide_eq_false_2).
  assert (has_prefix ready_prefix ready = true) as -> by apply has_prefix_app. unfold cc_process_ready.
  assert (length ready = (30 + length meta)%nat) as Hlen by (rewrite Er, !length_app, Hl; simpl length; lia).
  rewrite Hlen, (proj2 (Nat.ltb_ge _ _)) by lia. replace (30 + length meta - 14)%nat with (length box) by (rewrite Hl; lia).
  read_part Er ready (ready_prefix ++ put_uint64 1) box (@nil Z) 14%nat (length box). read_part Er ready ready_prefix (put_uint64 1) box 6%nat 8%nat.
  cbn [mbind option_bind]. change (get_uint64 (put_uint64 1)) with (Some 1). cbn [mbind option_bind cc_base client_sent cb_precom cb_seen]. rewrite E2.
  rewrite (drop_app_length' (zeros 32)) by done. replace (Z.of_nat (30 + length meta) - 14 + 16 - 32) with (Z.of_nat (length meta)) by lia.
  cbn [cc_h h_mech hs_new]. unfold meta. rewrite parse_announced by done. rewrite <- accepts_symmetric, Hacc by (by apply an_type). done.
Qed.

End curve_handshake.

(** The keys and random bytes of two ends that know each other: the client
    has the public key that belongs to the server's secret key. *)
Record curve_keys `{NaCl} (oc os : options) (cn_c cn_s : bytes) (r : welcome_random) (vouch_random : bytes) : Prop := {
  ck_connection : sized 32 cn_c /\ sized 32 cn_s;
  ck_pair : op_str oc s_curve_public_key = crypto_public (op_str oc s_curve_secret_key);
  ck_known : op_str oc s_curve_server_key = crypto_public (op_str os s_curve_secret_key);
  ck_random : sized 16 (wr_cookie_nonce r) /\ sized 32 (wr_cookie_key r) /\ sized 16 (wr_welcome_nonce r) /\ sized 16 vouch_random;
}.

(** Frames arrive from the ZAP handler. *)
Definition cs_arrive (s : curve_server) (fs : list frame) : curve_server :=
  let zs := h_zap (cs_h s) in
  cs_with s (Ps (with_zap (cs_h s) (Zs (zs_pipe zs) (zs_active zs) (zs_in zs ++ fs) (zs_out zs))) (cs_state s)).

Lemma linked_ready `{NaCl} oc os cn_c cn_s r k m zs status cookie h : sized 32 k ->
  curve_linked (client_sent oc os cn_c cn_s r k cookie cc_connected h 3 1) (server_keyed os cn_c cn_s r m zs status sv_ready 2 k).
Proof. intros Hk. split; simpl; try done; lia. Qed.

(** C32: a CURVE handshake of a client that knows the server's key succeeds.
    The server opens the HELLO, the client the WELCOME, the server the
    INITIATE with the cookie and the vouch in it; the client's long-term
    public key is put to the ZAP handler, and on status 200 READY opens at
    the client: both ends are connected with the same key and with nonces
    in order, know what the other announced, and the server the user id.
    Sockets whose types do not fit are refused. Holds for any library with
    the documented laws and whatever was in memory. *)
Theorem curve_handshake `{NaClLaws} b oc os addr cn_c cn_s r vouch_random junk_c junk_s t recv text user :
  announce_ok b oc -> announce_ok b os -> curve_keys oc os cn_c cn_s r vouch_random ->
  t = ZMQ_REP \/ t = ZMQ_ROUTER \/ t = ZMQ_SERVER -> zap_required os || (op_int os m_zap_enforce_domain =? 0) = true ->
  exists c1 hello s1 s2 welcome c2 c3 initiate s3 rc,
    cc_next_handshake_command b oc (curve_client_new oc zs_new cn_c junk_c) vouch_random = Some (c1, inl hello) /\
    cs_process_handshake_command b os addr (Some (t, recv)) (curve_server_new os zs_new cn_s junk_s) hello = Some (s1, None) /\
    cs_next_handshake_command b os s1 r = Some (s2, inl welcome) /\
    cc_process_handshake_command b oc c1 welcome = Some (c2, None) /\
    cc_next_handshake_command b oc c2 vouch_random = Some (c3, inl initiate) /\
    cs_process_handshake_command b os addr (Some (t, recv)) s2 initiate = Some (s3, rc) /\
    zs_out (h_zap (cs_h s3)) = (if recv then [Frame type_vsm flag_routing_id []] else []) ++
      zap_request_frames os addr curve_mechanism_name [op_str oc s_curve_public_key] /\
    if accepts b os oc then
      rc = None /\ exists s4 s5 ready c4,
        cs_zap_msg_available b os (cs_arrive s3 (zap_reply status_200 text user)) = Some (s4, None) /\
        cs_next_handshake_command b os s4 r = Some (s5, inl ready) /\ cc_process_handshake_command b oc c3 ready = Some (c4, None) /\
        curve_linked c4 s5 /\
        h_mech (cc_h c4) = learn_peer b oc os mech_new /\ h_mech (cs_h s5) = set_user_id (learn_peer b os oc mech_new) user
    else rc = Some EINVAL.
Proof.
  intros Hclient Hserver [Hk Hp Hkn Hr] Ht Hz. destruct (beforenm_agrees cn_c cn_s (proj1 Hk) (proj2 Hk)) as (k & Ek1 & Ek2 & Hks).
  destruct (curve_client_hello b oc os Hclient Hserver cn_c cn_s Hk Hp Hkn junk_c vouch_random) as (hello & Hhello & E1).
  destruct (server_welcome b oc os Hclient Hserver cn_c cn_s Hk Hp r vouch_random junk_s Hr junk_s.2) as (welcome & cookie & Hwelcome & E3).
  destruct (client_initiate b oc os Hclient Hserver cn_c cn_s Hk Hp r vouch_random Hr k cookie (wl_length _ _ _ _ _ _ Hwelcome)) as (initiate & Hinit & E5).
  assert (shared_key cn_c cn_s k) as Hsk by done.
  eexists _, hello, _, _, welcome, _, _, initiate, _, _. split; [exact E1|].
  split; [exact (curve_server_hello b oc os addr Hclient Hserver cn_c cn_s Hk Hp junk_s _ _ Hhello)|]. split; [exact E3|].
  split; [exact (client_welcome b oc os Hclient Hserver cn_c cn_s Hk Hp Hkn r vouch_random junk_c Hr _ _ k Hwelcome Hsk)|]. split; [exact E5|].
  split; [rewrite (server_initiate b oc os addr Hclient Hserver cn_c cn_s Hk Hp r vouch_random junk_s Hr _ _ _ _ Hinit Hwelcome);
    exact (accept_asked b oc os addr Hclient cn_c cn_s r junk_s t recv k Ht Hsk Hz)|]. split; [done|].
  destruct (accepts b os oc) eqn:Hacc; [|done]. split; [done|].
  destruct (server_ready b oc os Hclient Hserver cn_c cn_s r k (set_user_id (told b oc os) user) (curve_asked oc os addr recv []) status_200 Hks Hacc) as (ready & E8 & E9).
  eexists _, _, ready, _. split; [exact (server_admits_client b oc os addr cn_c cn_s r recv text user k)|]. split; [exact E8|]. split; [exact (E9 cookie)|].
  split; [by apply linked_ready|]. unfold told. by rewrite Hacc.
Qed.

(** ** Who is admitted *)

Section curve_server.
Context `{NaCl} (b : build) (o : options) (peer_address : bytes).

(** The states an engine can bring a server to. *)
Inductive cs_reach : list bytes -> list frame -> curve_server -> Prop :=
| cr_new cn_secret junk : cs_reach [] [] (curve_server_new o zs_new cn_secret junk)
| cr_process cmds arrived s peer data s' rc : cs_reach cmds arrived s ->
    cs_process_handshake_command b o peer_address peer s data = Some (s', rc) -> cs_reach (cmds ++ [data]) arrived s'
| cr_next cmds arrived s r s' m : cs_reach cmds arrived s -> cs_next_handshake_command b o s r = Some (s', m) -> cs_reach cmds arrived s'
| cr_available cmds arrived s s' rc : cs_reach cmds arrived s -> cs_zap_msg_available b o s = Some (s', rc) -> cs_reach cmds arrived s'
| cr_encode cmds arrived s f s' w : cs_reach cmds arrived s -> cs_encode s f = Some (s', w) -> cs_reach cmds arrived s'
| cr_decode cmds arrived s w s' r : cs_reach cmds arrived s -> cs_decode s w = Some (s', r) -> cs_reach cmds arrived s'
| cr_env cmds arrived s fs zs : cs_reach cmds arrived s -> zap_env (h_zap (cs_h s)) fs zs ->
    cs_reach cmds (arrived ++ fs) (cs_with s (Ps (with_zap (cs_h s) zs) (cs_state s))).

(** The HELLO holds the client's connection key, and a box from it to the server's long-term key. *)
Definition hello_opens (secret_key cn_client hello : bytes) : Prop := exists short box plain,
  read_at hello 80 32 = Some cn_client /\ read_at hello 112 8 = Some short /\ read_at hello 120 80 = Some box /\
  crypto_box_open (zeros 16 ++ box) (nonce_hello ++ short) cn_client secret_key = Some plain.

(** The INITIATE brings back the cookie of the WELCOME, and a box between the connection keys with the long-term key [key]
    in it and a box from that to the server's connection key, which vouches for the client's connection key. *)
Definition initiate_opens (cookie_key cn_client cn_secret initiate key : bytes) : Prop :=
  (exists n box plain, read_at initiate 9 16 = Some n /\ read_at initiate 25 80 = Some box /\
     crypto_secretbox_open (zeros 16 ++ box) (nonce_cookie ++ n) cookie_key = Some plain /\
     read_at plain 32 32 = Some cn_client /\ read_at plain 64 32 = Some cn_secret) /\
  (exists short box plain n vouch vouched, read_at initiate 105 8 = Some short /\ read_at initiate 113 (length initiate - 113) = Some box /\
     crypto_box_open (zeros 16 ++ box) (nonce_initiate ++ short) cn_client cn_secret = Some plain /\
     read_at plain 32 32 = Some key /\ read_at plain 64 16 = Some n /\ read_at plain 80 80 = Some vouch /\
     crypto_box_open (zeros 16 ++ vouch) (nonce_vouch ++ n) key cn_secret = Some vouched /\ read_at vouched 32 32 = Some cn_client).

(** The key was put to the handler. *)
Definition key_asked (key : bytes) (zs : zap_session) : Prop :=
  exists pre, zs_out zs = pre ++ zap_request_frames o peer_address curve_mechanism_name [key].

Definition unasked (st : sv_state_t) : bool :=
  match st with sv_waiting_for_hello | sv_sending_welcome | sv_waiting_for_initiate => true | _ => false end.

Definition granted (st : sv_state_t) : bool := match st with sv_sending_ready | sv_ready => true | _ => false end.

(** What the handler had to do with it. *)
Definition zap_consent (arrived : list frame) (key : bytes) (s : curve_server) : Prop :=
  (key_asked key (h_zap (cs_h s)) /\ (granted (cs_state s) = true -> answered arrived status_200)) \/
  (zap_enforced o = false /\ zs_out (h_zap (cs_h s)) = []).

Record cs_inv (cmds : list bytes) (arrived : list frame) (s : curve_server) : Prop := {
  ci_unread : unread arrived (h_zap (cs_h s));
  ci_quiet : unasked (cs_state s) = true -> zs_out (h_zap (cs_h s)) = [];
  ci_hello : cs_state s <> sv_waiting_for_hello -> exists hello, hello ∈ cmds /\ hello_opens (cs_secret_key s) (cs_cn_client s) hello;
  ci_initiate : unasked (cs_state s) = false -> exists initiate key, initiate ∈ cmds /\
    initiate_opens (cs_cookie_key s) (cs_cn_client s) (cs_cn_secret s) initiate key /\
    crypto_box_beforenm (cs_cn_client s) (cs_cn_secret s) = Some (cb_precom (cs_base s)) /\ zap_consent arrived key s;
}.

(** Steps that leave the state and the ZAP pipe alone. *)
Lemma cs_inv_same cmds cmds' arrived s s' : cs_inv cmds arrived s -> h_zap (cs_h s') = h_zap (cs_h s) -> cs_state s' = cs_state s ->
  cs_secret_key s' = cs_secret_key s -> cs_cn_client s' = cs_cn_client s -> cs_cn_secret s' = cs_cn_secret s -> cs_cookie_key s' = cs_cookie_key s ->
  cb_precom (cs_base s') = cb_precom (cs_base s) -> cs_inv (cmds ++ cmds') arrived s'.
Proof.
  intros [Hu Hq Hh Hi] Ez Est E1 E2 E3 E4 E5. split; unfold zap_consent; rewrite ?Ez, ?Est, ?E1, ?E2, ?E3, ?E4, ?E5; try done.
  - intros Hst. destruct (Hh Hst) as (hello & Hin & Ho). exists hello. split; [apply elem_of_app; by left|done].
  - intros Hst. destruct (Hi Hst) as (initiate & key & Hin & Ho). exists initiate, key. split; [apply elem_of_app; by left|done].
Qed.

Lemma cs_inv_goto cmds arrived s st : cs_inv cmds arrived s -> unasked (cs_state s) = false -> unasked st = false ->
  (granted st = true -> granted (cs_state s) = true) -> cs_inv cmds arrived (cs_goto s st).
Proof.
  intros [Hu Hq Hh Hi] Hs Hst Hg. split; cbn [cs_goto cs_with cs_state cs_hs cs_h ps_h ps_state cs_secret_key cs_cn_client cs_cn_secret cs_cookie_key cs_base].
  - done.
  - by rewrite Hst.
  - intros _. apply Hh. intros E. by rewrite E in Hs.
  - intros _. destruct (Hi Hs) as (initiate & key & Hin & Ho & Hk & Hc). exists initiate, key. split_and!; [done..|].
    destruct Hc as [[Ha Hn]|Hc]; [left; split; [done|]; simpl; auto|by right].
Qed.

Lemma cs_inv_waiting cmds arrived s : cs_state s = sv_waiting_for_hello -> unread arrived (h_zap (cs_h s)) -> zs_out (h_zap (cs_h s)) = [] -> cs_inv cmds arrived s.
Proof. intros Hst Hu Hq. split; rewrite ?Hst; done. Qed.

Lemma cs_hello_inv cmds arrived s data s' rc : cs_inv cmds arrived s -> cs_state s = sv_waiting_for_hello ->
  cs_process_hello s data = Some (s', rc) -> cs_inv (cmds ++ [data]) arrived s'.
Proof.
  intros Hi Hst E. pose proof (ci_unread _ _ _ Hi) as Hu. pose proof (ci_quiet _ _ _ Hi) as Hq. rewrite Hst in Hq. specialize (Hq eq_refl).
  assert (forall s1, h_zap (cs_h s1) = h_zap (cs_h s) -> cs_state s1 = sv_waiting_for_hello -> forall err, cs_fail s1 err = Some (s', rc) -> cs_inv (cmds ++ [data]) arrived s') as Hfail
    by (intros s1 Hz Hs1 err [= <- <-]; apply cs_inv_waiting; [done|..]; cbn [cs_h cs_hs cs_with ps_h emit h_zap]; change (ps_h (cs_hs s1)) with (cs_h s1); by rewrite Hz).
  unfold cs_process_hello in E. destruct (check_basic_command_structure (cs_h s) data) as [h [e|]] eqn:Ec.
  { injection E as <- <-. destruct (basic_structure_same _ _ _ _ Ec) as (_ & Hz & _). apply cs_inv_waiting; [done|..]; cbn [cs_h cs_hs cs_with ps_h]; by rewrite Hz. }
  destruct (has_prefix _ _); cbn [negb] in E; [|by eapply Hfail]. destruct (length data =? 200)%nat; cbn [negb] in E; [|by eapply Hfail].
  destruct (data !! 6%nat) as [major|]; cbn [mbind option_bind] in E; [|done]. destruct (data !! 7%nat) as [minor|]; cbn [mbind option_bind] in E; [|done].
  destruct (_ || _); [by eapply Hfail|]. destruct (read_at data 80 32) as [cn|] eqn:E1; cbn [mbind option_bind] in E; [|done].
  destruct (read_at data 112 8) as [short|] eqn:E2; cbn [mbind option_bind] in E; [|done]. destruct (get_uint64 short); cbn [mbind option_bind] in E; [|done].
  destruct (read_at data 120 80) as [box|] eqn:E3; cbn [mbind option_bind] in E; [|done].
  destruct (crypto_box_open _ _ _ _) as [plain|] eqn:E4; [|by eapply Hfail; [| |exact E]].
  injection E as <- <-. split; simpl; try done. intros _. exists data. split; [apply elem_of_app; right; by apply list_elem_of_singleton|].
  by exists short, box, plain.
Qed.

(** Asking the handler about a key. *)
Lemma cs_ask_zap_spec arrived peer s key s' rc : unread arrived (h_zap (cs_h s)) -> zs_out (h_zap (cs_h s)) = [] -> unasked (cs_state s) = true ->
  cs_ask_zap b o peer_address peer s key = Some (s', rc) ->
  unread arrived (h_zap (cs_h s')) /\ s' = cs_with s (cs_hs s') /\
  ((cs_state s' = cs_state s /\ zs_out (h_zap (cs_h s')) = [] /\ rc <> None) \/ (unasked (cs_state s') = false /\ zap_consent arrived key s')).
Proof.
  intros Hu Hq Hun E. unfold cs_ask_zap in E.
  assert (zap_enforced o = zap_required o && negb (op_int o m_zap_enforce_domain =? 0)) as Henf by done.
  destruct (zap_required o || negb (negb (op_int o m_zap_enforce_domain =? 0))) eqn:Ez.
  2: { injection E as <- <-. split; [done|]. split; [done|]. right. split; [done|]. right. split; [|done]. rewrite Henf.
       by apply orb_false_iff in Ez as [-> _]. }
  destruct (zap_connect peer _) as [[zs [e|]]|] eqn:Ec; cbn [mbind option_bind] in E; [| |done]; pose proof (unread_connect _ _ _ _ _ Hu Ec) as Hu1.
  - assert (zs = h_zap (cs_h s)) as ->.
    { unfold zap_connect in Ec. repeat case_match; by simplify_eq. }
    destruct (negb (op_int o m_zap_enforce_domain =? 0)) eqn:Ee; cbn [negb] in E; injection E as <- <-; (split; [done|]); (split; [done|]).
    + left. by split_and!.
    + right. split; [done|]. right. split; [|done]. rewrite Henf. cbn [negb]. by rewrite andb_false_r.
  - destruct (send_zap_request _ _ _ _ _) as [h1|] eqn:Es; cbn [mbind option_bind] in E; [|done].
    unfold send_zap_request in Es. destruct (write_zap_frames _ _) as [zs1|] eqn:Ew; cbn [mbind option_bind] in Es; [|done]. injection Es as <-.
    apply write_zap_frames_spec in Ew as (Hin & Hout & _). cbn [h_zap with_zap] in Hin, Hout.
    destruct (common_receive_zap_reply _ _ _ _) as [[p rc']|] eqn:Er; cbn [mbind option_bind] in E; [|done]. injection E as <- <-.
    apply (common_receive_spec _ _ _ arrived) in Er as (Hu2 & Hout2 & Hst); [|exact (unread_drop _ zs zs1 [] Hu1 (eq_sym Hin))]. cbn [ps_h h_zap with_zap] in Hout2.
    split; [done|]. split; [done|]. right. assert (key_asked key (h_zap (ps_h p))) as Hask by (exists (zs_out zs); by rewrite Hout2).
    split; [change (unasked (ps_state p) = false); by destruct Hst as [->|[->|[->|[-> _]]]]|]. left. split; [done|].
    intros Hg. change (granted (ps_state p) = true) in Hg. by destruct Hst as [Hst|[Hst|[Hst|[_ Hans]]]]; rewrite ?Hst in Hg.
Qed.

Lemma cs_accept_inv cmds arrived peer s key data metadata len s' rc : cs_inv cmds arrived s -> cs_state s = sv_waiting_for_initiate -> data ∈ cmds ->
  initiate_opens (cs_cookie_key s) (cs_cn_client s) (cs_cn_secret s) data key ->
  cs_accept_initiate b o peer_address peer s key metadata len = Some (s', rc) -> cs_inv cmds arrived s'.
Proof.
  intros Hi Hst Hin Ho E. unfold cs_accept_initiate in E.
  destruct (crypto_box_beforenm _ _) as [k|] eqn:Ek; cbn [mbind option_bind] in E; [|done]. set (s1 := cs_with_base s _) in E.
  destruct (cs_ask_zap _ _ _ _ s1 key) as [[s2 rc2]|] eqn:Ea; cbn [mbind option_bind] in E; [|done].
  destruct (cs_ask_zap_spec arrived peer s1 key s2 rc2) as (Hu & Es2 & Hcase); [apply Hi|apply Hi; by rewrite Hst|change (unasked (cs_state s) = true); by rewrite Hst|done|].
  assert (cs_inv cmds arrived s2) as Hi2.
  { rewrite Es2. destruct (ci_hello _ _ _ Hi) as (hello & Hh1 & Hh2); [by rewrite Hst|].
    split; simpl; [done| |intros _; by exists hello|].
    - intros Hun. destruct Hcase as [(_ & Hout & _)|[Hun' _]]; [done|]. change (unasked (cs_state s2) = true) in Hun. congruence.
    - intros Hun. exists data, key. split_and!; [done..|]. destruct Hcase as [(Hs2 & _)|[_ Hc]]; [|done].
      change (unasked (cs_state s2) = false) in Hun. rewrite Hs2 in Hun. change (cs_state s1) with (cs_state s) in Hun. by rewrite Hst in Hun. }
  destruct rc2 as [e|]; [by injection E as <- <-|]. destruct (parse_metadata _ _ _ _ _ _) as [[m rc3]|]; cbn [mbind option_bind] in E; [|done].
  injection E as <- <-. rewrite <- (app_nil_r cmds). by eapply cs_inv_same.
Qed.

Lemma cs_initiate_inv cmds arrived peer s data s' rc : cs_inv cmds arrived s -> cs_state s = sv_waiting_for_initiate ->
  cs_process_initiate b o peer_address peer s data = Some (s', rc) -> cs_inv (cmds ++ [data]) arrived s'.
Proof.
  intros Hi Hst E. unfold cs_process_initiate in E.
  destruct (check_basic_command_structure (cs_h s) data) as [h [e|]] eqn:Ec.
  { injection E as <- <-. destruct (basic_structure_same _ _ _ _ Ec) as (_ & Hz & _). by eapply cs_inv_same. }
  assert (forall err, cs_fail s err = Some (s', rc) -> cs_inv (cmds ++ [data]) arrived s') as Hfail by (intros err [= <- <-]; by eapply cs_inv_same).
  destruct (has_prefix _ _); cbn [negb] in E; [|by eapply Hfail]. destruct (length data <? 257)%nat; [by eapply Hfail|].
  destruct (read_at data 25 80) as [cb|] eqn:E1; cbn [mbind option_bind] in E; [|done].
  destruct (read_at data 9 16) as [cn|] eqn:E2; cbn [mbind option_bind] in E; [|done].
  destruct (crypto_secretbox_open _ _ _) as [cp|] eqn:E3; [|by eapply Hfail].
  destruct (read_at cp 32 32) as [cc|] eqn:E4; cbn [mbind option_bind] in E; [|done].
  destruct (read_at cp 64 32) as [cs|] eqn:E5; cbn [mbind option_bind] in E; [|done].
  destruct (bool_decide (cc = cs_cn_client s)) eqn:E6; cbn [negb orb] in E; [|by eapply Hfail]. apply bool_decide_eq_true_1 in E6 as ->.
  destruct (bool_decide (cs = cs_cn_secret s)) eqn:E7; cbn [negb] in E; [|by eapply Hfail]. apply bool_decide_eq_true_1 in E7 as ->.
  destruct (read_at data 113 _) as [box|] eqn:E8; cbn [mbind option_bind] in E; [|done].
  destruct (read_at data 105 8) as [short|] eqn:E9; cbn [mbind option_bind] in E; [|done].
  destruct (get_uint64 short) as [nonce|]; cbn [mbind option_bind] in E; [|done]. set (s1 := cs_with_base s _) in E.
  assert (cs_inv (cmds ++ [data]) arrived s1) as Hi1 by (by eapply cs_inv_same).
  assert (forall err, cs_fail s1 err = Some (s', rc) -> cs_inv (cmds ++ [data]) arrived s') as Hfail1
    by (intros err [= <- <-]; rewrite <- (app_nil_r (cmds ++ [data])); by eapply cs_inv_same).
  destruct (crypto_box_open _ _ (cs_cn_client s1) _) as [ip|] eqn:E10; [|by eapply Hfail1].
  destruct (read_at ip 32 32) as [key|] eqn:E11; cbn [mbind option_bind] in E; [|done].
  destruct (read_at ip 80 80) as [vouch|] eqn:E12; cbn [mbind option_bind] in E; [|done].
  destruct (read_at ip 64 16) as [vn|] eqn:E13; cbn [mbind option_bind] in E; [|done].
  destruct (crypto_box_open _ _ key _) as [vp|] eqn:E14; [|by eapply Hfail1].
  destruct (read_at vp 32 32) as [vouched|] eqn:E15; cbn [mbind option_bind] in E; [|done].
  destruct (bool_decide (vouched = cs_cn_client s1)) eqn:E16; cbn [negb] in E; [|by eapply Hfail1]. apply bool_decide_eq_true_1 in E16 as ->.
  eapply (cs_accept_inv _ _ peer s1 key data); [done|done|apply elem_of_app; right; by apply list_elem_of_singleton| |exact E].
  split; [by exists cn, cb, cp|by exists short, box, ip, vn, vouch, vp].
Qed.

Lemma cs_next_inv cmds arrived s r s' m : cs_inv cmds arrived s -> cs_next_handshake_command b o s r = Some (s', m) -> cs_inv cmds arrived s'.
Proof.
  intros Hi E. unfold cs_next_handshake_command in E. destruct (cs_state s) eqn:Est; try (by injection E as <- <-).
  - destruct (cs_produce_welcome s r) as [[s1 m1]|] eqn:Ew; cbn [mbind option_bind] in E; [|done]. injection E as <- <-.
    unfold cs_produce_welcome in Ew. destruct (crypto_secretbox _ _ _); cbn [mbind option_bind] in Ew; [|done].
    destruct (ci_hello _ _ _ Hi) as (hello & Hh); [by rewrite Est|]. pose proof (ci_quiet _ _ _ Hi) as Hq. rewrite Est in Hq. pose proof (ci_unread _ _ _ Hi) as Hu.
    destruct (crypto_box _ _ _ _); injection Ew as <- <-; split; simpl; try done; try (intros _; by exists hello); try (intros _; by apply Hq);
      intros Hun; change (unasked (cs_state s) = false) in Hun; by rewrite Est in Hun.
  - destruct (cs_produce_ready b o s) as [[s1 msg]|] eqn:Er; cbn [mbind option_bind] in E; [|done]. injection E as <- <-.
    unfold cs_produce_ready in Er. destruct (basic_properties_len b o); cbn [mbind option_bind] in Er; [|done].
    destruct (add_basic_properties _ _ _); cbn [mbind option_bind] in Er; [|done]. destruct (crypto_box_afternm _ _ _); cbn [mbind option_bind] in Er; [|done].
    injection Er as <- <-. apply cs_inv_goto; [rewrite <- (app_nil_r cmds); by eapply cs_inv_same| |done|].
    + change (unasked (cs_state s) = false). by rewrite Est.
    + intros _. change (granted (cs_state s) = true). by rewrite Est.
  - destruct (cs_produce_error s); cbn [mbind option_bind] in E; [|done]. injection E as <- <-. apply cs_inv_goto; by rewrite ?Est.
Qed.

Lemma curve_decode_same prefix h c w h' c' r : curve_decode prefix h c w = Some (h', c', r) -> h_zap h' = h_zap h /\ cb_precom c' = cb_precom c.
Proof.
  unfold curve_decode. destruct (check_basic_command_structure _ _) as [h1 [e|]] eqn:Ec; apply basic_structure_same in Ec as (_ & Hz & _);
    [by intros [= <- <- _]|].
  destruct (has_prefix _ _); cbn [negb]; [|by intros [= <- <- _]]. destruct (_ <? _)%nat; [by intros [= <- <- _]|].
  destruct (read_at _ 8 8); cbn [mbind option_bind]; [|done]. destruct (get_uint64 _); cbn [mbind option_bind]; [|done].
  destruct (_ <=? _); [by intros [= <- <- _]|]. destruct (read_at _ 16 _); cbn [mbind option_bind]; [|done].
  destruct (crypto_box_open_afternm _ _ _) as [m|]; [|by intros [= <- <- _]]. destruct (m !! 32%nat); cbn [mbind option_bind]; [|done].
  destruct (read_at m _ _); cbn [mbind option_bind]; [|done]. by intros [= <- <- _].
Qed.

Lemma cs_reach_inv cmds arrived s : cs_reach cmds arrived s -> cs_inv cmds arrived s.
Proof.
  induction 1 as [cn junk|cmds arrived s peer data s' rc _ IH E|cmds arrived s r s' m _ IH E|cmds arrived s s' rc _ IH E
    |cmds arrived s f s' w _ IH E|cmds arrived s w s' r _ IH E|cmds arrived s fs zs _ IH He].
  - apply cs_inv_waiting; [done| |done]. by exists [].
  - unfold cs_process_handshake_command in E. destruct (cs_state s) eqn:Est; try (injection E as <- <-; by eapply cs_inv_same);
      [by eapply cs_hello_inv|by eapply cs_initiate_inv].
  - by eapply cs_next_inv.
  - unfold cs_zap_msg_available in E. case_bool_decide as Hst; [|done].
    destruct (common_receive_zap_reply _ _ _ _) as [[p rc']|] eqn:Er; cbn [mbind option_bind] in E; [|done]. injection E as <- <-.
    apply (common_receive_spec _ _ _ arrived) in Er as (Hu & Hout & Hcase); [|apply IH].
    destruct (ci_hello _ _ _ IH) as (hello & Hh); [by rewrite Hst|]. destruct (ci_initiate _ _ _ IH) as (initiate & key & Hin & Ho & Hk & Hc); [by rewrite Hst|].
    split; simpl; [done| |intros _; by exists hello|].
    + intros Hun. change (unasked (ps_state p) = true) in Hun. by destruct Hcase as [Hp|[Hp|[Hp|[Hp _]]]]; rewrite Hp in Hun.
    + intros _. exists initiate, key. split_and!; [done..|]. unfold zap_consent, key_asked. change (cs_h (cs_with s p)) with (ps_h p).
      change (cs_state (cs_with s p)) with (ps_state p). rewrite Hout. destruct Hc as [[Ha _]|Hc]; [|by right]. left. split; [done|].
      intros Hg. by destruct Hcase as [Hp|[Hp|[Hp|[Hp Hans]]]]; rewrite ?Hp in Hg.
  - unfold cs_encode in E. destruct (bool_decide _); [|done]. unfold curve_encode in E. destruct (crypto_box_afternm _ _ _); cbn [mbind option_bind] in E; [|done].
    injection E as <- <-. rewrite <- (app_nil_r cmds). by eapply cs_inv_same.
  - unfold cs_decode in E. destruct (bool_decide _); [|done]. destruct (curve_decode _ _ _ _) as [[[h c] r']|] eqn:Ed; cbn [mbind option_bind] in E; [|done].
    injection E as <- <-. destruct (curve_decode_same _ _ _ _ _ _ _ Ed) as [Hz Hk]. rewrite <- (app_nil_r cmds). by eapply cs_inv_same.
  - destruct IH as [Hu Hq Hh Hi]. destruct (unread_env _ _ _ _ Hu He) as [Hu' Hout]. split; simpl; unfold cs_h in *; rewrite ?Hout; try done.
    intros Hst. destruct (Hi Hst) as (initiate & key & Hin & Ho & Hk & Hc). exists initiate, key. split_and!; [done..|].
    unfold zap_consent, key_asked, cs_h, cs_state in *. cbn [cs_with cs_hs ps_h ps_state with_zap h_zap]. rewrite Hout.
    destruct Hc as [[Ha Hn]|Hc]; [|by right]. left. split; [done|]. intros Hg. by apply answered_app, Hn.
Qed.

End curve_server.

(** C34: a CURVE server admits nobody on its own. Whatever commands the peer
    sends, whatever the ZAP handler sends, and in whatever order the engine
    calls, a server that sends READY or is ready received a HELLO with a box
    to its long-term key, and an INITIATE that brought back the cookie of
    its WELCOME and opened, under the connection key of that HELLO, to a
    long-term key whose box vouches for that connection key; the key of the
    connection is the one the two connection keys give. If a ZAP domain is
    enforced, this long-term key was put to the handler and a reply with
    status 200 read. Nothing is assumed of the cryptography. *)
Theorem curve_server_admits `{NaCl} b o peer_address cmds arrived s : cs_reach b o peer_address cmds arrived s -> granted (cs_state s) = true ->
  exists hello initiate key, hello ∈ cmds /\ initiate ∈ cmds /\
    hello_opens (cs_secret_key s) (cs_cn_client s) hello /\ initiate_opens (cs_cookie_key s) (cs_cn_client s) (cs_cn_secret s) initiate key /\
    crypto_box_beforenm (cs_cn_client s) (cs_cn_secret s) = Some (cb_precom (cs_base s)) /\
    (zap_enforced o = true -> (exists pre, zs_out (h_zap (cs_h s)) = pre ++ zap_request_frames o peer_address curve_mechanism_name [key]) /\
       exists pre fs post, arrived = pre ++ fs ++ post /\ reply_says fs status_200).
Proof.
  intros Hr Hg. destruct (cs_reach_inv _ _ _ _ _ _ Hr) as [_ _ Hh Hi].
  destruct Hh as (hello & Hh1 & Hh2); [intros E; by rewrite E in Hg|]. destruct Hi as (initiate & key & Hi1 & Hi2 & Hk & Hc); [by destruct (cs_state s)|].
  exists hello, initiate, key. split_and!; try done. intros Henf. destruct Hc as [[Ha Hn]|[Hc _]]; [|by rewrite Hc in Henf].
  split; [exact Ha|exact (Hn Hg)].
Qed.

(** ** Examples, over a library that hides nothing *)

Definition plain_box (m k : bytes) : option bytes := if (32 <=? length m)%nat then Some (zeros 16 ++ take 16 k ++ drop 32 m) else None.
Definition plain_open (c k : bytes) : option bytes :=
  if (32 <=? length c)%nat && bool_decide (take 32 c = zeros 16 ++ take 16 k) then Some (zeros 32 ++ drop 32 c) else None.
Definition plain_key (pk sk : bytes) : bytes := zip_with (fun x y => u8 (x + y)) pk sk.

#[local] Instance plain_nacl : NaCl := {
  crypto_public sk := sk;
  crypto_box_beforenm pk sk := Some (plain_key pk sk);
  crypto_box_afternm m n k := plain_box m k;
  crypto_box_open_afternm c n k := plain_open c k;
  crypto_box m n pk sk := plain_box m (plain_key pk sk);
  crypto_box_open c n pk sk := plain_open c (plain_key pk sk);
  crypto_secretbox m n k := plain_box m k;
  crypto_secretbox_open c n k := plain_open c k;
}.

Lemma plain_open_length c k m : plain_open c k = Some m -> length m = length c.
Proof.
  unfold plain_open. destruct (32 <=? length c)%nat eqn:E; [|done]. apply Nat.leb_le in E. case_bool_decide; cbn [andb]; [|done]. intros Hm. assert (m = zeros 32 ++ drop 32 c) as -> by congruence.
  rewrite length_app, length_drop. simpl. lia.
Qed.

#[local] Instance plain_nacl_laws : NaClLaws.
Proof.
  split; cbn [crypto_public crypto_box_beforenm crypto_box_afternm crypto_box_open_afternm crypto_box crypto_box_open crypto_secretbox
    crypto_secretbox_open plain_nacl]; try done.
  - intros p n k Hp _ [Hk Hb]. exists (take 16 k ++ p). unfold plain_box. rewrite (proj2 (Nat.leb_le _ _)) by (simpl; lia).
    split; [done|]. split; [split; [rewrite length_app, length_take; lia|apply Forall_app; split; [by apply Forall_take|done]]|].
    unfold plain_open. assert (length (take 16 k) = 16%nat) as Hl by (rewrite length_take; lia).
    rewrite (proj2 (Nat.leb_le _ _)) by (rewrite !length_app, Hl; simpl; lia). rewrite bool_decide_eq_true_2.
    + cbn [andb]. rewrite app_assoc, (drop_app_length' (zeros 16 ++ take 16 k)) by (rewrite length_app, Hl; done). done.
    + rewrite app_assoc. apply take_app_length'. rewrite length_app, Hl. done.
  - intros c n k m. apply plain_open_length.
  - intros c n pk sk m. apply plain_open_length.
  - intros m n pk sk k [= <-]. done.
  - intros m n pk sk k [= <-]. done.
  - intros a b [Ha Hba] [Hb Hbb]. exists (plain_key b a). split; [done|]. split.
    + f_equal. unfold plain_key. clear Hba Hbb. revert b Ha Hb. generalize 32%nat. induction a as [|x a IH]; intros n [|y b] Ha Hb; try done; simpl in *; try lia.
      rewrite (Z.add_comm x), (IH (pred n)) by lia. done.
    + split; [unfold plain_key; rewrite length_zip_with; lia|]. unfold plain_key. clear.
      revert b. induction a as [|x a IH]; intros [|y b]; simpl; constructor; [apply u8_range|apply IH].
Qed.

Definition example_build : build := Build true true true true true.
Definition example_random : welcome_random := Wr (zeros 16) (zeros 32) (zeros 16).
Definition example_junk : bytes * bytes * bytes := (zeros 32, zeros 32, zeros 32).

Lemma zeros_sized n : sized n (zeros n).
Proof. split; [apply length_replicate|apply zeros_ok]. Qed.

Lemma example_keys : curve_keys dealer_options router_options (zeros 32) (zeros 32) example_random (zeros 16).
Proof. split; [split; apply zeros_sized|done|done|split_and!; apply zeros_sized]. Qed.

Lemma curve_handshake_witness : exists c1 hello s1,
  cc_next_handshake_command example_build dealer_options (curve_client_new dealer_options zs_new (zeros 32) example_junk) (zeros 16) = Some (c1, inl hello) /\
  cs_process_handshake_command example_build router_options [] (Some (ZMQ_REP, true)) (curve_server_new router_options zs_new (zeros 32) example_junk) hello = Some (s1, None).
Proof.
  destruct (curve_handshake example_build dealer_options router_options [] (zeros 32) (zeros 32) example_random (zeros 16) example_junk example_junk
    ZMQ_REP true [] [7]) as (c1 & hello & s1 & s2 & welcome & c2 & c3 & initiate & s3 & rc & E1 & E2 & _);
    [apply example_announce_ok; by left|apply example_announce_ok; by right|apply example_keys|by left|reflexivity|].
  exists c1, hello, s1. split; [exact E1|exact E2].
Defined.

(** A connection, as the handshake leaves it. *)
Definition example_client : curve_client := client_sent dealer_options router_options (zeros 32) (zeros 32) example_random (zeros 32) [] cc_connected (hs_new zs_new) 3 1.
Definition example_server : curve_server := server_keyed router_options (zeros 32) (zeros 32) example_random mech_new zs_new [] sv_ready 2 (zeros 32).

Lemma curve_messages_witness : exists c1 wires s2,
  run_all cc_encode example_client [Frame type_vsm flag_more [1; 2]; Frame type_vsm 0 []] = Some (c1, wires) /\
  run_all cs_decode example_server wires = Some (s2, [(Frame type_vsm flag_more [1; 2], None); (Frame type_vsm 0 [], None)]).
Proof.
  destruct (curve_messages example_client example_server [Frame type_vsm flag_more [1; 2]; Frame type_vsm 0 []] [])
    as (c1 & s1 & c2 & s2 & wu & wd & E1 & E2 & E3 & _);
    [by apply linked_ready, zeros_sized|constructor; [repeat constructor; unfold is_u8; lia|constructor; [constructor|constructor]]|constructor|simpl; lia|simpl; lia|].
  exists c1, wu, s2. split; [exact E1|]. cbn [run_all] in E2. injection E2 as <- _. exact E3.
Defined.

Lemma curve_no_replay_witness : exists w s1 f,
  cs_decode example_server w = Some (s1, (f, None)) /\ forall s2 r, cs_decode s1 w = Some (s2, r) -> r.2 <> None.
Proof.
  destruct (curve_messages example_client example_server [Frame type_vsm 0 [1; 2]] [])
    as (c1 & s1 & c2 & s2 & wu & wd & E1 & E2 & E3 & _);
    [by apply linked_ready, zeros_sized|constructor; [repeat constructor; unfold is_u8; lia|constructor]|constructor|simpl; lia|simpl; lia|].
  cbn [run_all] in E2. injection E2 as <- _. cbn [run_all] in E1. destruct (cc_encode example_client _) as [[cc w]|]; [|done]. injection E1 as <- <-.
  pose proof (curve_no_replay example_server [w] s2 _ eq_refl E3 ltac:(by repeat constructor)) as (_ & Hall & Hno).
  cbn [run_all] in E3. destruct (cs_decode example_server w) as [[s3 [f rc]]|] eqn:Ed; [|done]. injection E3 as -> -> ->.
  exists w, s2, (curve_frame (Frame type_vsm 0 [1; 2])). split; [done|].
  destruct (Forall_elem _ _ w Hall) as (short & n & Hs & Hn & Hlt); [by apply list_elem_of_singleton|]. apply (Hno w short n Hs Hn).
  unfold cs_decode in Ed. rewrite bool_decide_eq_true_2 in Ed by done. destruct (curve_decode _ _ _ w) as [[[h c] r]|] eqn:Ed2; cbn [mbind option_bind] in Ed; [|done].
  injection Ed as <- ->. destruct (decode_accepts _ _ _ _ _ _ _ Ed2) as (sh & H1 & H2 & _). rewrite Hs in H1. injection H1 as <-. rewrite Hn in H2. injection H2 as ->. simpl. lia.
Defined.

Lemma curve_server_admits_witness : exists cmds s, cs_reach example_build router_options [] cmds [] s /\ granted (cs_state s) = true /\
  exists hello, hello ∈ cmds /\ hello_opens (cs_secret_key s) (cs_cn_client s) hello.
Proof.
  destruct example_keys as [Hk Hp Hkn Hr]. assert (announce_ok example_build dealer_options) as H1 by (apply example_announce_ok; by left).
  assert (announce_ok example_build router_options) as H2 by (apply example_announce_ok; by right).
  destruct (curve_client_hello example_build dealer_options router_options H1 H2 (zeros 32) (zeros 32) Hk Hp Hkn example_junk (zeros 16)) as (hello & Hhello & _).
  destruct (server_welcome example_build dealer_options router_options H1 H2 (zeros 32) (zeros 32) Hk Hp example_random (zeros 16) example_junk Hr (zeros 32)) as (welcome & cookie & Hw & E2).
  destruct (client_initiate example_build dealer_options router_options H1 H2 (zeros 32) (zeros 32) Hk Hp example_random (zeros 16) Hr (zeros 32) cookie (wl_length _ _ _ _ _ _ Hw))
    as (initiate & Hi & _).
  destruct (beforenm_agrees (zeros 32) (zeros 32) (proj1 Hk) (proj2 Hk)) as (k & K1 & K2 & K3).
  pose proof (accept_alone example_build dealer_options router_options [] H1 (zeros 32) (zeros 32) example_random example_junk k (conj K1 (conj K2 K3)) eq_refl) as E3.
  rewrite <- (server_initiate example_build dealer_options router_options [] H1 H2 (zeros 32) (zeros 32) Hk Hp example_random (zeros 16) example_junk Hr None _ _ _ Hi Hw) in E3.
  assert (cs_reach example_build router_options [] (([] ++ [hello]) ++ [initiate]) [] (server_keyed router_options (zeros 32) (zeros 32) example_random
    (told example_build dealer_options router_options) zs_new [] sv_sending_ready 1 k)) as Hreach.
  { eapply cr_process; [|exact E3]. eapply cr_next; [|exact E2]. eapply cr_process; [apply (cr_new _ _ _ (zeros 32) example_junk)|].
    exact (curve_server_hello example_build dealer_options router_options [] H1 H2 (zeros 32) (zeros 32) Hk Hp example_junk None _ Hhello). }
  destruct (curve_server_admits example_build router_options [] _ _ _ Hreach eq_refl) as (h & i & key & Hin & _ & Ho & _).
  eexists _, _. split; [exact Hreach|]. split; [reflexivity|]. exists h. split; [exact Hin|exact Ho].
Defined.

(** ** What the code leaves unchecked *)

(** A client takes a READY in any state: one that comes before the WELCOME
    is opened with whatever is in the memory of the key, which no one has
    written yet. Who knows these 32 bytes connects the client, and no
    server has proved to know the secret key. *)
Theorem curve_premature_ready `{NaClLaws} b oc cn_c junk short plain : sized 8 short -> sized 32 junk.1.1 -> bytes_ok plain ->
  (exists m, parse_metadata b oc mech_new plain (Z.of_nat (length plain)) false = Some (m, None)) ->
  exists ready c', cc_process_handshake_command b oc (curve_client_new oc zs_new cn_c junk) ready = Some (c', None) /\ cc_status c' = mech_ready /\
    crypto_box_open_afternm (zeros 16 ++ drop 14 ready) (nonce_ready ++ short) junk.1.1 = Some (zeros 32 ++ plain).
Proof.
  intros Hshort Hj Hplain [m Hm]. destruct (afternm_opens plain (nonce_ready ++ short) junk.1.1) as (box & _ & [Hl _] & E2);
    [done|apply (sized_app 16 8); [apply nonces_sized|done]|done|].
  set (ready := ready_prefix ++ short ++ box). assert (ready = ready_prefix ++ short ++ box) as Er by done. exists ready. destruct Hshort as [Hsl Hsb].
  assert (length ready = (30 + length plain)%nat) as Hlen by (rewrite Er, !length_app, Hl, Hsl; simpl length; lia).
  unfold cc_process_handshake_command. assert (has_prefix welcome_prefix ready = false) as -> by (by apply bool_decide_eq_false_2).
  assert (has_prefix ready_prefix ready = true) as -> by apply has_prefix_app. unfold cc_process_ready.
  rewrite Hlen, (proj2 (Nat.ltb_ge _ _)) by lia. replace (30 + length plain - 14)%nat with (length box) by (rewrite Hl; lia).
  read_part Er ready (ready_prefix ++ short) box (@nil Z) 14%nat (length box). read_part Er ready ready_prefix short box 6%nat 8%nat.
  assert (get_uint64 short = Some (be_value short)) as En by (rewrite <- (app_nil_r short) at 1; by apply get_uint64_be).
  cbn [mbind option_bind]. rewrite En. cbn [mbind option_bind].
  cbn [cc_base curve_client_new cb_precom cb_new cb_seen]. rewrite E2, (drop_app_length' (zeros 32)) by done.
  replace (Z.of_nat (30 + length plain) - 14 + 16 - 32) with (Z.of_nat (length plain)) by lia. cbn [cc_h h_mech hs_new curve_client_new]. rewrite Hm.
  cbn [mbind option_bind]. eexists. split; [done|]. split; [done|]. rewrite Er, app_assoc, (drop_app_length' (ready_prefix ++ _)) by (rewrite length_app, Hsl; done). done.
Qed.
