(* ===== verification/Ws.v ===== *)
(** * WebSocket framing (src/src/ws_encoder.cpp, src/src/ws_decoder.cpp), and none at all (src/src/raw_encoder.cpp, src/src/raw_decoder.cpp)

    A frame is an opcode, the size in one, three or nine bytes, a mask of
    four bytes when the client sends, and the payload, masked; the first
    byte of the payload holds the flags of the message.  [random n] is the
    value of the [n]th call of [generate_random]; [can_alloc] says for which
    sizes [malloc] succeeds. *)

From Stdlib Require Import Bool.
From S2P Require Import Prelude Frame Wire Codec V2.

Definition opcode_binary : Z := 0x02.
Definition opcode_close : Z := 0x08.
Definition opcode_ping : Z := 0x09.
Definition opcode_pong : Z := 0x0A.
Definition ws_more_flag : Z := 1.
Definition ws_command_flag : Z := 2.

(** [data[i] ^ _mask[mask_index % 4]] from the given index on. *)
Fixpoint ws_mask (mask : bytes) (mask_index : nat) (data : bytes) : bytes :=
  match data with
  | [] => []
  | b :: data' => Z.lxor b (default 0 (mask !! (mask_index mod 4)%nat)) :: ws_mask mask (S mask_index) data'
  end.

(** ** Encoder *)

Inductive ws_enc_state :=
| WSE_message_ready (calls : nat)
| WSE_size_ready (mask : bytes) (calls : nat).

Definition ws_opcode (f : frame) : Z :=
  if fr_is_ping f then Z.lor 0x80 opcode_ping
  else if fr_is_pong f then Z.lor 0x80 opcode_pong
  else if fr_is_close_cmd f then Z.lor 0x80 opcode_close
  else 0x82.

Definition ws_size_field (first size : Z) : bytes :=
  if size <=? 125 then [Z.lor first (u8 (Z.land size 127))]
  else if size <=? 0xFFFF then [Z.lor first 126; u8 (Z.land (Z.shiftr size 8) 0xFF); u8 (Z.land size 0xFF)]
  else Z.lor first 127 :: put_uint64 size.

Definition ws_protocol_flags (f : frame) : Z :=
  let flags := if negb (Z.land (fr_flags f) flag_more =? 0) then Z.lor 0 ws_more_flag else 0 in
  if negb (Z.land (fr_flags f) flag_command =? 0) then Z.lor flags ws_command_flag else flags.

Definition ws_enc_step (must_mask : bool) (random : nat -> Z) (s : ws_enc_state) (f : frame) : bytes * ws_enc_state * bool :=
  match s with
  | WSE_message_ready calls =>
      let size := Z.of_nat (length (fr_body f)) + 1 in
      let header := ws_opcode f :: ws_size_field (if must_mask then 0x80 else 0x00) size in
      if must_mask then
        let mask := put_uint32 (random calls) in
        (header ++ mask ++ [Z.lxor (ws_protocol_flags f) (default 0 (mask !! 0%nat))], WSE_size_ready mask (S calls), false)
      else (header ++ [ws_protocol_flags f], WSE_size_ready [] calls, false)
  | WSE_size_ready mask calls =>
      (if must_mask then ws_mask mask 1 (fr_body f) else fr_body f, WSE_message_ready calls, true)
  end.

Definition ws_encoder_new : encoder ws_enc_state := Encoder [] (WSE_message_ready 0) true None.

(** ** Decoder *)

Inductive ws_dec_state :=
| WS_opcode_ready
| WS_size_first_byte_ready (opcode msg_flags : Z)
| WS_short_size_ready (opcode msg_flags : Z)
| WS_long_size_ready (opcode msg_flags : Z)
| WS_mask_ready (opcode msg_flags size : Z)
| WS_flags_ready (msg_flags size : Z) (mask : bytes)
| WS_message_ready (ty : msg_type) (opcode msg_flags : Z) (mask : bytes).

Section ws.
(** [stale] is the value [errno] has when an action returns -1 and leaves it alone. *)
Context (can_alloc : Z -> bool) (max_msg_size : Z) (zero_copy must_mask : bool) (stale : errno).

Definition ws_size_ready (opcode msg_flags : Z) (mask : bytes) (size avail : Z) : step_result ws_dec_state :=
  if (0 <=? max_msg_size) && (max_msg_size <? size) then SFail EMSGSIZE
  else
    let ty := if negb zero_copy || (avail <? size) then msg_init_size can_alloc size
              else msg_init_content can_alloc size in
    match ty with
    | None => SFail ENOMEM
    | Some ty => SNext size (WS_message_ready ty opcode msg_flags mask)
    end.

(** What follows the size, or the mask. *)
Definition ws_after_mask (opcode msg_flags : Z) (mask : bytes) (size avail : Z) : step_result ws_dec_state :=
  if opcode =? opcode_binary then
    if size =? 0 then SFail stale else SNext 1 (WS_flags_ready msg_flags size mask)
  else ws_size_ready opcode msg_flags mask size avail.

Definition ws_after_size (opcode msg_flags size avail : Z) : step_result ws_dec_state :=
  if must_mask then SNext 4 (WS_mask_ready opcode msg_flags size) else ws_after_mask opcode msg_flags [] size avail.

Definition ws_dec_step (s : ws_dec_state) (tmpbuf : bytes) (avail : Z) : step_result ws_dec_state :=
  match s with
  | WS_opcode_ready =>
      match tmpbuf with
      | [] => SFail EINVAL
      | b :: _ =>
          if Z.land b 0x80 =? 0 then SFail stale
          else
            let opcode := Z.land b 0xF in
            if opcode =? opcode_binary then SNext 1 (WS_size_first_byte_ready opcode 0)
            else if opcode =? opcode_close then SNext 1 (WS_size_first_byte_ready opcode (Z.lor flag_command cmd_close))
            else if opcode =? opcode_ping then SNext 1 (WS_size_first_byte_ready opcode (Z.lor cmd_ping flag_command))
            else if opcode =? opcode_pong then SNext 1 (WS_size_first_byte_ready opcode (Z.lor cmd_pong flag_command))
            else SFail stale
      end
  | WS_size_first_byte_ready opcode msg_flags =>
      match tmpbuf with
      | [] => SFail EINVAL
      | b :: _ =>
          if negb (eqb (negb (Z.land b 0x80 =? 0)) must_mask) then SFail stale
          else
            let size := Z.land b 0x7F in
            if size <? 126 then ws_after_size opcode msg_flags size avail
            else if size =? 126 then SNext 2 (WS_short_size_ready opcode msg_flags)
            else SNext 8 (WS_long_size_ready opcode msg_flags)
      end
  | WS_short_size_ready opcode msg_flags =>
      match tmpbuf with
      | b0 :: b1 :: _ => ws_after_size opcode msg_flags (Z.lor (Z.shiftl (u8 b0) 8) (u8 b1)) avail
      | _ => SFail EINVAL
      end
  | WS_long_size_ready opcode msg_flags =>
      match get_uint64 tmpbuf with
      | None => SFail EINVAL
      | Some size => ws_after_size opcode msg_flags (u64 size) avail
      end
  | WS_mask_ready opcode msg_flags size => ws_after_mask opcode msg_flags (take 4 tmpbuf) (u64 size) avail
  | WS_flags_ready msg_flags size mask =>
      match tmpbuf with
      | [] => SFail EINVAL
      | b :: _ =>
          let flags := if must_mask then Z.lxor b (default 0 (mask !! 0%nat)) else b in
          let msg_flags := if negb (Z.land flags ws_more_flag =? 0) then Z.lor msg_flags flag_more else msg_flags in
          let msg_flags := if negb (Z.land flags ws_command_flag =? 0) then Z.lor msg_flags flag_command else msg_flags in
          ws_size_ready opcode_binary msg_flags mask (u64 (size - 1)) avail
      end
  | WS_message_ready ty opcode msg_flags mask =>
      let body := if must_mask then ws_mask mask (if opcode =? opcode_binary then 1 else 0) tmpbuf else tmpbuf in
      SMsg (Frame ty msg_flags body) 1 WS_opcode_ready
  end.

Definition ws_decoder_new : decoder ws_dec_state := Decoder [] 1 WS_opcode_ready.

(** ** The actions *)

Lemma ws_size_ready_progress opcode flags mask n a : 0 <= n ->
  wants_bytes (ws_size_ready opcode flags mask n a) \/
  exists s', ws_size_ready opcode flags mask n a = SNext 0 s' /\ wants_bytes (ws_dec_step s' [] a).
Proof.
  intros Hn. unfold ws_size_ready. case_test; [by left|].
  generalize (if negb zero_copy || (a <? n) then msg_init_size can_alloc n else msg_init_content can_alloc n).
  intros [ty|]; [|by left]. destruct (decide (n = 0)) as [->|]; [right|left; simpl; lia].
  eexists. split; [done|]. simpl. lia.
Qed.

Lemma ws_after_mask_progress opcode flags mask n a : 0 <= n ->
  wants_bytes (ws_after_mask opcode flags mask n a) \/
  exists s', ws_after_mask opcode flags mask n a = SNext 0 s' /\ wants_bytes (ws_dec_step s' [] a).
Proof. intros Hn. unfold ws_after_mask. destruct (opcode =? _); [left; by destruct (n =? 0)|by apply ws_size_ready_progress]. Qed.

Lemma ws_after_size_progress opcode flags n a : 0 <= n ->
  wants_bytes (ws_after_size opcode flags n a) \/
  exists s', ws_after_size opcode flags n a = SNext 0 s' /\ wants_bytes (ws_dec_step s' [] a).
Proof. intros Hn. unfold ws_after_size. destruct must_mask; [left; simpl; lia|by apply ws_after_mask_progress]. Qed.

Lemma ws_step_progress s b a :
  wants_bytes (ws_dec_step s b a) \/
  exists s', ws_dec_step s b a = SNext 0 s' /\ wants_bytes (ws_dec_step s' [] a).
Proof.
  destruct s; cbn [ws_dec_step].
  - left. destruct b as [|c b]; [done|]. repeat case_match; simpl; done || lia.
  - destruct b as [|c b]; [by left|]. destruct (negb _); [by left|]. destruct (_ <? 126).
    + apply ws_after_size_progress. apply Z.land_nonneg. lia.
    + left. destruct (_ =? 126); simpl; lia.
  - destruct b as [|b0 [|b1 b]]; [by left..|]. apply ws_after_size_progress. apply Z.lor_nonneg. split; [apply Z.shiftl_nonneg|]; apply u8_range.
  - destruct (get_uint64 b) as [n|]; [|by left]. apply ws_after_size_progress, u64_range.
  - apply ws_after_mask_progress, u64_range.
  - destruct b as [|c b]; [by left|]. apply ws_size_ready_progress, u64_range.
  - left. simpl. lia.
Qed.

Lemma ws_size_ready_ok opcode flags mask n a : 0 <= n -> v2_size_ok can_alloc max_msg_size n ->
  exists ty, ws_size_ready opcode flags mask n a = SNext n (WS_message_ready ty opcode flags mask).
Proof.
  intros Hn Hok. destruct (v2_size_ready_ok can_alloc max_msg_size zero_copy flags n a Hn Hok) as [ty E]. unfold v2_size_ready in E. unfold ws_size_ready.
  destruct (_ && _); [done|]. destruct (if negb zero_copy || (a <? n) then msg_init_size can_alloc n else msg_init_content can_alloc n); [|done]. by eexists.
Qed.

End ws.

(** ** Masks *)

Lemma ws_mask_length mask data : forall i, length (ws_mask mask i data) = length data.
Proof. induction data as [|b data IH]; intros i; simpl; [done|]. by rewrite IH. Qed.

Lemma ws_mask_twice mask data : forall i, ws_mask mask i (ws_mask mask i data) = data.
Proof. induction data as [|b data IH]; intros i; simpl; [done|]. by rewrite Z.lxor_assoc, Z.lxor_nilpotent, Z.lxor_0_r, IH. Qed.

Lemma lxor_u8 x y : is_u8 x -> is_u8 y -> is_u8 (Z.lxor x y).
Proof.
  unfold is_u8. intros Hx Hy. split; [apply Z.lxor_nonneg; lia|].
  assert (Z.lxor x y = Z.lxor x y mod 2 ^ 8) as ->; [|by apply Z.mod_pos_bound].
  rewrite <- Z.land_ones by done. replace x with (Z.land x (Z.ones 8)) by (rewrite Z.land_ones by done; by apply Z.mod_small).
  replace y with (Z.land y (Z.ones 8)) by (rewrite Z.land_ones by done; by apply Z.mod_small).
  apply Z.bits_inj'. intros i Hi. rewrite !Z.land_spec, !Z.lxor_spec, !Z.land_spec. by destruct (Z.testbit x i), (Z.testbit y i), (Z.testbit (Z.ones 8) i).
Qed.

Lemma ws_mask_ok mask data : bytes_ok mask -> bytes_ok data -> forall i, bytes_ok (ws_mask mask i data).
Proof.
  intros Hm Hd. induction Hd as [|b data Hb _ IH]; intros i; cbn [ws_mask]; constructor; [|apply IH].
  apply lxor_u8; [done|]. destruct (mask !! (i mod 4)%nat) as [m|] eqn:E; cbn [default from_option id]; [|unfold is_u8; lia].
  eapply Forall_elem; [exact Hm|by eapply list_elem_of_lookup_2].
Qed.

(** ** Round trip *)

Section roundtrip.
Context (can_alloc : Z -> bool) (max_msg_size : Z) (zero_copy must_mask : bool) (stale : errno) (random : nat -> Z).

Abbreviation wdec := (ws_dec_step can_alloc max_msg_size zero_copy must_mask stale).
Abbreviation wenc := (ws_enc_step must_mask random).

Definition ws_control (f : frame) : bool := fr_is_ping f || fr_is_pong f || fr_is_close_cmd f.

(** What the peer makes of a frame: a control frame comes with the byte of its flags in front of the body. *)
Definition ws_received (f g : frame) : Prop :=
  if ws_control f then fr_flags g = Z.lor flag_command (Z.land (fr_flags f) cmd_type_mask) /\ fr_body g = ws_protocol_flags f :: fr_body f
  else fr_flags g = v2_kept_flags f /\ fr_body g = fr_body f.

Definition ws_body_size (f : frame) : Z := Z.of_nat (length (fr_body f)) + if ws_control f then 1 else 0.

Definition ws_wire (calls : nat) (f : frame) : bytes := enc_wire wenc (WSE_message_ready calls) f.

Definition ws_mask_bytes (calls : nat) : bytes := if must_mask then put_uint32 (random calls) else [].
Definition ws_payload (mask : bytes) (f : frame) : bytes :=
  if must_mask then ws_mask mask 0 (ws_protocol_flags f :: fr_body f) else ws_protocol_flags f :: fr_body f.

Lemma ws_wire_shape calls f : ws_wire calls f =
  [ws_opcode f] ++ ws_size_field (if must_mask then 0x80 else 0) (Z.of_nat (length (fr_body f)) + 1) ++ ws_mask_bytes calls ++ ws_payload (ws_mask_bytes calls) f.
Proof.
  unfold ws_wire, enc_wire, ws_mask_bytes, ws_payload. cbn [ws_enc_step]. destruct must_mask; cbn [fst snd app ws_enc_step]; by rewrite <- ?app_assoc.
Qed.

Lemma ws_payload_length mask f : length (ws_payload mask f) = S (length (fr_body f)).
Proof. unfold ws_payload. destruct must_mask; by rewrite ?ws_mask_length. Qed.

(** From the first byte of the payload on, and the whole of a control frame. *)
Lemma ws_decode_payload opcode flags mask f : bytes_ok (fr_body f) -> (if must_mask then length mask = 4%nat else mask = []) ->
  v2_size_ok can_alloc max_msg_size (ws_body_size f) ->
  (if ws_control f then opcode <> opcode_binary /\ flags = Z.lor flag_command (Z.land (fr_flags f) cmd_type_mask) else opcode = opcode_binary /\ flags = 0) ->
  forall a, exists n s, ws_after_mask can_alloc max_msg_size zero_copy stale opcode flags mask (Z.of_nat (length (fr_body f)) + 1) a = SNext n s /\
    1 <= n /\ dec_message wdec ws_decoder_new (Decoder [] n s) (ws_payload mask f) (ws_received f).
Proof.
  intros Hb Hmask Hok Hop a. unfold ws_after_mask, ws_body_size, ws_received in *. destruct (ws_control f).
  - destruct Hop as [Hop ->]. rewrite (proj2 (Z.eqb_neq _ _)) by done.
    destruct (ws_size_ready_ok can_alloc max_msg_size zero_copy opcode (Z.lor flag_command (Z.land (fr_flags f) cmd_type_mask)) mask (Z.of_nat (length (fr_body f)) + 1) a ltac:(lia) Hok) as [ty ->].
    eexists _, _. split; [done|]. split; [lia|]. apply dec_message_last; [rewrite ws_payload_length; lia|lia| |done].
    intros a'. cbn [ws_dec_step]. rewrite (proj2 (Z.eqb_neq _ _)) by done. eexists. split; [done|]. cbn [fr_flags fr_body]. split; [done|].
    unfold ws_payload. destruct must_mask; [by rewrite ws_mask_twice|done].
  - destruct Hop as [-> ->]. cbn [Z.eqb Pos.eqb opcode_binary]. rewrite (proj2 (Z.eqb_neq _ 0)) by lia. eexists _, _. split; [done|]. split; [lia|].
    rewrite Z.add_0_r in Hok. unfold ws_payload.
    assert ((if must_mask then ws_mask mask 0 (ws_protocol_flags f :: fr_body f) else ws_protocol_flags f :: fr_body f) =
      [if must_mask then Z.lxor (ws_protocol_flags f) (default 0 (mask !! 0%nat)) else ws_protocol_flags f] ++ (if must_mask then ws_mask mask 1 (fr_body f) else fr_body f)) as ->
      by (by destruct must_mask).
    apply dec_message_step; [done|lia| |done]. intros a'. cbn [ws_dec_step].
    set (fl := if must_mask then Z.lxor (if must_mask then _ else _) _ else _).
    assert (fl = ws_protocol_flags f) as -> by (unfold fl; destruct must_mask; [by rewrite Z.lxor_assoc, Z.lxor_nilpotent, Z.lxor_0_r|done]).
    assert (u64 (Z.of_nat (length (fr_body f)) + 1 - 1) = Z.of_nat (length (fr_body f))) as ->.
    { rewrite u64_small; [lia|]. unfold is_u64. destruct Hok as [? _]. unfold sizeof_content in *. lia. }
    set (flags := if negb (Z.land (ws_protocol_flags f) ws_command_flag =? 0) then _ else _).
    assert (flags = v2_kept_flags f) as ->.
    { unfold flags, ws_protocol_flags. destruct (v2_flags_cases f) as (r & Hr & -> & -> & ->).
      assert (r = 0 \/ r = 1 \/ r = 2 \/ r = 3) as [->|[->|[->| ->]]] by lia; reflexivity. }
    destruct (ws_size_ready_ok can_alloc max_msg_size zero_copy opcode_binary (v2_kept_flags f) mask (Z.of_nat (length (fr_body f))) a' ltac:(lia) Hok) as [ty ->].
    eexists _, _. split; [done|].
    assert (forall a'', exists g, wdec (WS_message_ready ty opcode_binary (v2_kept_flags f) mask) (if must_mask then ws_mask mask 1 (fr_body f) else fr_body f) a'' =
      SMsg g 1 WS_opcode_ready /\ fr_flags g = v2_kept_flags f /\ fr_body g = fr_body f) as Hlast.
    { intros a''. eexists. split; [done|]. cbn [fr_flags fr_body Z.eqb Pos.eqb opcode_binary]. split; [done|]. destruct must_mask; [by rewrite ws_mask_twice|done]. }
    destruct (fr_body f) as [|c body] eqn:Ebody.
    + left. split; [done|]. split; [by destruct must_mask|]. destruct (Hlast a') as (g & E & Hg). exists g. split; [|done].
      etrans; [|exact E]. by destruct must_mask.
    + right. split; [simpl; lia|]. apply dec_message_last; [destruct must_mask; rewrite ?ws_mask_length; done|simpl; lia|exact Hlast|done].
Qed.

Definition ws_start_ok (opcode flags : Z) (f : frame) : Prop :=
  if ws_control f then opcode <> opcode_binary /\ flags = Z.lor flag_command (Z.land (fr_flags f) cmd_type_mask) else opcode = opcode_binary /\ flags = 0.

(** The mask, where there is one, and the payload. *)
Lemma ws_decode_tail opcode flags calls f : bytes_ok (fr_body f) -> v2_size_ok can_alloc max_msg_size (ws_body_size f) -> ws_start_ok opcode flags f ->
  forall a, exists n s, ws_after_size can_alloc max_msg_size zero_copy must_mask stale opcode flags (Z.of_nat (length (fr_body f)) + 1) a = SNext n s /\ 1 <= n /\
    dec_message wdec ws_decoder_new (Decoder [] n s) (ws_mask_bytes calls ++ ws_payload (ws_mask_bytes calls) f) (ws_received f).
Proof.
  intros Hb Hok Hop a. unfold ws_after_size, ws_mask_bytes.
  pose proof (ws_decode_payload opcode flags (ws_mask_bytes calls) f Hb) as Hpay. unfold ws_mask_bytes in Hpay.
  destruct must_mask eqn:Em; [|by apply Hpay].
  eexists _, _. split; [done|]. split; [lia|]. apply dec_message_step; [done|lia| |done]. intros a'. cbn [ws_dec_step].
  rewrite u64_small by (unfold is_u64, ws_body_size in *; destruct Hok as [? _]; unfold sizeof_content in *; destruct (ws_control f); lia).
  destruct (Hpay eq_refl Hok Hop a') as (n & s & E & Hn & Hd). exists n, s. split; [exact E|]. by right.
Qed.

Lemma first_size_byte (masked : bool) size : 1 <= size <= 125 ->
  let b := Z.lor (if masked then 0x80 else 0) (u8 (Z.land size 127)) in negb (Z.land b 0x80 =? 0) = masked /\ Z.land b 0x7F = size.
Proof.
  intros Hs. assert (forallb (fun n => let s := Z.of_nat n in let b := Z.lor (if masked then 0x80 else 0) (u8 (Z.land s 127)) in
    eqb (negb (Z.land b 0x80 =? 0)) masked && (Z.land b 0x7F =? s)) (seq 1 125) = true) as Hall by (destruct masked; vm_compute; reflexivity).
  rewrite forallb_forall in Hall. specialize (Hall (Z.to_nat size)). rewrite Z2Nat.id in Hall by lia.
  cbv zeta in *. destruct (andb_prop _ _ (Hall ltac:(apply in_seq; lia))) as [H1 H2]. split; [by apply eqb_prop|by apply Z.eqb_eq].
Qed.

(** A frame and the state of a new decoder. *)
Lemma ws_decode_frame calls f : bytes_ok (fr_body f) -> v2_size_ok can_alloc max_msg_size (ws_body_size f) ->
  dec_message wdec ws_decoder_new ws_decoder_new (ws_wire calls f) (ws_received f).
Proof.
  intros Hb Hok. rewrite ws_wire_shape. set (tail := ws_mask_bytes calls ++ _). set (size := Z.of_nat (length (fr_body f)) + 1).
  apply dec_message_step; [done|lia| |done]. intros a.
  assert (exists opcode flags, wdec WS_opcode_ready [ws_opcode f] a = SNext 1 (WS_size_first_byte_ready opcode flags) /\ ws_start_ok opcode flags f)
    as (opcode & flags & -> & Hstart).
  { unfold ws_opcode, ws_start_ok, ws_control, fr_is_ping, fr_is_pong, fr_is_close_cmd. set (m := Z.land (fr_flags f) cmd_type_mask).
    destruct (m =? cmd_ping) eqn:E1; bool_prop; [rewrite E1; by eexists _, _|]. destruct (m =? cmd_pong) eqn:E2; bool_prop; [rewrite E2; by eexists _, _|].
    destruct (m =? cmd_close) eqn:E3; bool_prop; [rewrite E3; by eexists _, _|]. by eexists _, _. }
  eexists _, _. split; [done|]. right. split; [lia|]. pose proof (ws_decode_tail opcode flags calls f Hb Hok Hstart) as Htail. fold size tail in Htail.
  assert (1 <= size < 18446744073709551616) as Hsize
    by (unfold size, ws_body_size in *; destruct Hok as [? _]; unfold sizeof_content in *; destruct (ws_control f); lia).
  assert (forall s field n, Z.of_nat (length field) = n -> 1 <= n -> (forall a, wdec s field a = ws_after_size can_alloc max_msg_size zero_copy must_mask stale opcode flags size a) ->
    dec_message wdec ws_decoder_new (Decoder [] n s) (field ++ tail) (ws_received f)) as Hfield.
  { intros s field n Hl Hn Hs. apply dec_message_step; [done|done| |done]. intros a'. rewrite Hs. destruct (Htail a') as (n' & s' & -> & Hn' & Hd).
    eexists _, _. split; [done|]. by right. }
  unfold ws_size_field. destruct (size <=? 125) eqn:E1; bool_prop; [|destruct (size <=? 0xFFFF) eqn:E2; bool_prop].
  - apply Hfield; [done|lia|]. intros a'. cbn [ws_dec_step]. destruct (first_size_byte must_mask size ltac:(lia)) as [H1 H2]. cbv zeta in H1, H2.
    rewrite H1, H2, eqb_reflx. cbn [negb]. by rewrite (proj2 (Z.ltb_lt _ _)) by lia.
  - change ([?x; ?y; ?z] ++ tail) with ([x] ++ ([y; z] ++ tail)). apply dec_message_step; [done|lia| |done]. intros a'. cbn [ws_dec_step].
    assert (negb (eqb (negb (Z.land (Z.lor (if must_mask then 0x80 else 0) 126) 0x80 =? 0)) must_mask) = false /\
      Z.land (Z.lor (if must_mask then 0x80 else 0) 126) 0x7F = 126) as [-> ->] by (by destruct must_mask).
    cbn [Z.ltb Z.compare Pos.compare Pos.compare_cont Z.eqb Pos.eqb]. eexists _, _. split; [done|]. right. split; [lia|].
    apply Hfield; [done|lia|]. intros a''. cbn [ws_dec_step]. f_equal.
    pose proof (get_put_uint16 size [] ltac:(lia)) as Hg. unfold get_uint16, put_uint16 in Hg. simpl in Hg. injection Hg as Hg.
    rewrite <- Hg at 3. assert (forall x, is_u8 (Z.land x 255)) as Hu by (intros x; change 255 with (Z.ones 8); rewrite Z.land_ones by lia; apply Z.mod_pos_bound; lia).
    by rewrite !u8_small by (rewrite ?u8_small by apply Hu; apply Hu).
  - change ((?x :: put_uint64 size) ++ tail) with ([x] ++ (put_uint64 size ++ tail)). apply dec_message_step; [done|lia| |done]. intros a'. cbn [ws_dec_step].
    assert (negb (eqb (negb (Z.land (Z.lor (if must_mask then 0x80 else 0) 127) 0x80 =? 0)) must_mask) = false /\
      Z.land (Z.lor (if must_mask then 0x80 else 0) 127) 0x7F = 127) as [-> ->] by (by destruct must_mask).
    cbn [Z.ltb Z.compare Pos.compare Pos.compare_cont Z.eqb Pos.eqb]. eexists _, _. split; [done|]. right. split; [lia|].
    apply Hfield; [done|lia|]. intros a''. cbn [ws_dec_step]. rewrite <- (app_nil_r (put_uint64 size)), get_put_uint64 by (unfold is_u64; lia).
    by rewrite u64_small by (unfold is_u64; lia).
Qed.

Lemma ws_two_pieces s f : (exists n, s = WSE_message_ready n) -> (wenc s f).2 = false -> (wenc (wenc s f).1.2 f).2 = true.
Proof. intros [n ->]. cbn [ws_enc_step]. by destruct must_mask. Qed.

Lemma ws_next_message s f : (exists n, s = WSE_message_ready n) -> exists n, enc_after wenc s f = WSE_message_ready n.
Proof. intros [n ->]. unfold enc_after. cbn [ws_enc_step]. destruct must_mask; cbn [snd fst ws_enc_step]; by eexists. Qed.

End roundtrip.

Lemma ws_wire_length must_mask random n m f : length (ws_wire must_mask random n f) = length (ws_wire must_mask random m f).
Proof. rewrite !ws_wire_shape, !length_app, !ws_payload_length. unfold ws_mask_bytes. by destruct must_mask. Qed.

Lemma ws_wires_decode can_alloc max zc must_mask stale random fs : forall n,
  Forall (fun f => bytes_ok (fr_body f) /\ v2_size_ok can_alloc max (ws_body_size f)) fs ->
  exists ps, enc_wires (ws_enc_step must_mask random) (WSE_message_ready n) fs = concat ps.*1 /\ ps.*2 = ws_received <$> fs /\
    Forall (fun p => dec_message (ws_dec_step can_alloc max zc must_mask stale) ws_decoder_new ws_decoder_new p.1 p.2) ps.
Proof.
  induction fs as [|f fs IH]; intros n Hfs; [by exists []|]. apply Forall_cons_1 in Hfs as [[Hb Hok] Hfs].
  destruct (ws_next_message must_mask random (WSE_message_ready n) f) as [n' En]; [by exists n|]. destruct (IH n' Hfs) as (ps & E1 & E2 & Hps).
  exists ((ws_wire must_mask random n f, ws_received f) :: ps). cbn [enc_wires fmap list_fmap fst snd concat]. rewrite En, E1, E2.
  split_and!; [done|done|]. constructor; [|done]. by apply ws_decode_frame.
Qed.

(** WebSocket framing round trips over any network: messages encoded
    into buffers of any sizes, masked or not, whatever the masks, and
    received in reads of any sizes by a decoder that expects masks when the
    encoder sends them, with or without zero-copy, are decoded to messages
    with the same flags (more, command) and bodies, without an error, and
    the decoder is back in its initial state. A ping, pong or close comes
    out with its kind, and with one byte more than was sent: the encoder
    writes a byte of flags in front of every payload, the decoder takes one
    off binary frames only. *)
Theorem ws_roundtrip (can_alloc : Z -> bool) (max_msg_size : Z) (zero_copy must_mask : bool) (stale : errno) (random : nat -> Z)
    (fs : list (frame * list (bool * Z))) (a : allocator) (limits : list Z) :
  Forall (fun p => bytes_ok (fr_body p.1) /\ v2_size_ok can_alloc max_msg_size (ws_body_size p.1)) fs ->
  Forall (fun p => Forall (fun b => 1 <= b.2) p.2 /\ (length (ws_wire must_mask random 0 p.1) < length p.2)%nat) fs ->
  1 <= al_size a -> 1 <= al_max a ->
  (length (enc_wires (ws_enc_step must_mask random) (WSE_message_ready 0) fs.*1) <= length limits)%nat ->
  exists stream e a' ms,
    enc_send (ws_enc_step must_mask random) ws_encoder_new fs = Some (stream, e) /\ en_msg e = None /\
    engine_run (ws_dec_step can_alloc max_msg_size zero_copy must_mask stale) ws_decoder_new a stream limits =
      Some (ws_decoder_new, a', [], ms, None) /\
    Forall2 ws_received (fs.*1) ms.
Proof.
  intros Hfs Hbufs Has Ham Hlim.
  destruct (enc_send_ok (ws_enc_step must_mask random) (fun s => exists n, s = WSE_message_ready n) (ws_two_pieces must_mask random) (ws_next_message must_mask random)
    fs (WSE_message_ready 0) ws_encoder_new) as (s' & e & Hsend & _ & Hm); [by exists 0%nat|by constructor|done| |].
  { eapply Forall_impl; [|exact Hbufs]. intros p [Hb Hl]. split; [done|]. intros s [n ->].
    change (length (ws_wire must_mask random n p.1) < length p.2)%nat. by rewrite (ws_wire_length _ _ n 0). }
  destruct (ws_wires_decode can_alloc max_msg_size zero_copy must_mask stale random (fs.*1) 0) as (ps & E1 & E2 & Hps); [by apply Forall_fmap|].
  destruct (engine_run_spec (ws_dec_step can_alloc max_msg_size zero_copy must_mask stale)
    (ws_step_progress can_alloc max_msg_size zero_copy must_mask stale) limits ws_decoder_new a _ ltac:(unfold dec_ok; simpl; lia) Has Ham Hlim)
    as (avs & d & a' & rest & ms & e' & Havs & Hrun & Hrest & Hdec).
  rewrite E1 in Havs, Hdec. destruct (dec_messages _ _ ps Hps avs Havs) as (ms' & Hms & Hdec'). rewrite Hdec in Hdec'. simplify_eq. rewrite (Hrest eq_refl) in Hrun.
  eexists _, e, a', ms'. split; [exact Hsend|]. split; [done|]. split; [exact Hrun|].
  clear - Hms E2. revert E2 Hms. generalize (fs.*1). revert ms'. induction ps as [|p ps IH]; intros ms' [|f fs'] E2 Hms; try done; inversion Hms; subst; [constructor|].
  cbn [fmap list_fmap] in E2. injection E2 as E2 E3. constructor; [by rewrite <- E2|by apply IH].
Qed.

Definition ws_example : list (frame * list (bool * Z)) :=
  [(Frame type_vsm flag_more [1; 2; 3], replicate 12 (false, 2)); (Frame type_vsm (flag_command + cmd_ping) [], replicate 10 (true, 8));
   (Frame type_lmsg 0 (replicate 300 7), replicate 320 (true, 1))].

Lemma ws_roundtrip_witness :
  exists stream e a' ms,
    enc_send (ws_enc_step true (fun n => 305419896 + Z.of_nat n)) ws_encoder_new ws_example = Some (stream, e) /\
    engine_run (ws_dec_step (fun _ => true) 1000 true true EAGAIN) ws_decoder_new (Allocator_ true 64 64) stream (replicate 400 5) =
      Some (ws_decoder_new, a', [], ms, None) /\ length ms = 3%nat.
Proof.
  destruct (ws_roundtrip (fun _ => true) 1000 true true EAGAIN (fun n => 305419896 + Z.of_nat n) ws_example (Allocator_ true 64 64) (replicate 400 5))
    as (stream & e & a' & ms & H1 & _ & H2 & H3).
  - repeat constructor; simpl; try (unfold is_u8; lia); try apply Forall_replicate; unfold is_u8, sizeof_content; try lia; vm_compute; congruence.
  - repeat constructor; simpl; lia.
  - simpl. lia.
  - simpl. lia.
  - apply Nat.leb_le. vm_compute. reflexivity.
  - exists stream, e, a', ms. split; [exact H1|]. split; [exact H2|]. by rewrite <- (Forall2_length H3).
Defined.

(** A frame that is not final, has an unknown opcode, or the wrong bit of the mask, makes the decoder return -1 without setting
    [errno]: the engine sees the error of an earlier call, and with EAGAIN takes the connection for one whose reader is full. *)
Theorem ws_refused_leaves_errno can_alloc max_msg_size zero_copy must_mask stale b rest a limits :
  Z.land b 0x80 = 0 -> 1 <= al_size a -> 1 <= al_max a -> (length (b :: rest) <= length limits)%nat ->
  exists d a' rest', engine_run (ws_dec_step can_alloc max_msg_size zero_copy must_mask stale) ws_decoder_new a (b :: rest) limits =
    Some (d, a', rest', [], Some stale).
Proof.
  intros Hb Has Ham Hlim.
  destruct (engine_run_spec (ws_dec_step can_alloc max_msg_size zero_copy must_mask stale)
    (ws_step_progress can_alloc max_msg_size zero_copy must_mask stale) limits ws_decoder_new a _ ltac:(unfold dec_ok; simpl; lia) Has Ham Hlim)
    as (avs & d & a' & rest' & ms & e & Havs & Hrun & _ & Hdec).
  destruct avs as [|a0 avs]; [done|]. cbn [zip_with dec_bytes] in Hdec. unfold dec_byte, steps_fuel in Hdec.
  cbn [dec_steps ws_decoder_new dc_to_read dc_next dc_buf app ws_dec_step] in Hdec. rewrite Hb in Hdec. change (1 - 1 =? 0) with true in Hdec.
  cbn [negb Z.eqb mbind option_bind] in Hdec. simplify_eq. by eexists _, _, _.
Qed.
