(* ===== verification/Alloc.v ===== *)
(** * The shared receive buffer (src/src/decoder_allocators.cpp) and the decoders that make messages on it (src/src/raw_decoder.cpp, [size_ready] of src/src/v2_decoder.cpp)

    A buffer begins with a reference count; behind the bytes received it
    holds the descriptors ([content_t]) of the messages made on it.  Messages
    are closed in any order, by other threads, when the decoder has moved on
    to other buffers.  [None] is a failed assertion, a count or a descriptor
    outside of allocated memory. *)

From Stdlib Require Import Bool.
From S2P Require Import Prelude Frame Codec Msg.

(** The counts of the buffers that are allocated. *)
Abbreviation buffers := (gmap Z Z).

Record shared_alloc := Sa {
  sa_buf : option Z;       (** [_buf], NULL being [None] *)
  sa_buf_size : Z;
  sa_max_size : Z;
  sa_content : Z;          (** the index of [_msg_content] *)
  sa_max_counters : Z;
}.

Definition sa_new (bufsize_ : Z) : shared_alloc := Sa None 0 bufsize_ 0 ((bufsize_ + max_vsm_size - 1) / max_vsm_size).
Definition sa_new_max (bufsize_ max_messages_ : Z) : shared_alloc := Sa None 0 bufsize_ 0 max_messages_.

(** [c->sub (1)]: the counts, and whether this one is not 0. *)
Definition buf_sub (h : buffers) (buf : Z) : option (buffers * bool) :=
  let* v := h !! buf in let '(v, rest) := ac_sub v 1 in Some (<[buf := v]> h, rest).

Definition sa_clear (a : shared_alloc) : shared_alloc := Sa None 0 (sa_max_size a) 0 (sa_max_counters a).
Definition sa_release (a : shared_alloc) : shared_alloc := sa_clear a.

Definition sa_allocate (h : buffers) (a : shared_alloc) : option (buffers * shared_alloc) :=
  let* (h, a) :=
    match sa_buf a with
    | Some buf => let* (h, used) := buf_sub h buf in Some (h, if used : bool then sa_release a else a)
    | None => Some (h, a)
    end in
  let buf := default (fresh (dom h)) (sa_buf a) in
  Some (<[buf := 1]> h, Sa (Some buf) (sa_max_size a) (sa_max_size a) 0 (sa_max_counters a)).

Definition sa_deallocate (h : buffers) (a : shared_alloc) : option (buffers * shared_alloc) :=
  match sa_buf a with
  | Some buf => let* (h, used) := buf_sub h buf in Some (if used : bool then h else delete buf h, sa_clear a)
  | None => Some (h, sa_clear a)
  end.

Definition sa_inc_ref (h : buffers) (a : shared_alloc) : option buffers :=
  let* buf := sa_buf a in let* v := h !! buf in Some (<[buf := ac_add v 1]> h).

Definition call_dec_ref (h : buffers) (hint_ : Z) : option buffers :=
  let* (h, used) := buf_sub h hint_ in Some (if used : bool then h else delete hint_ h).

Definition sa_resize (a : shared_alloc) (new_size_ : Z) : shared_alloc := Sa (sa_buf a) new_size_ (sa_max_size a) (sa_content a) (sa_max_counters a).
Definition sa_advance_content (a : shared_alloc) : shared_alloc := Sa (sa_buf a) (sa_buf_size a) (sa_max_size a) (sa_content a + 1) (sa_max_counters a).

(** [_in_progress.init (..., allocator.provide_content ())]: whether the message uses the buffer. *)
Definition init_on_buffer (a : shared_alloc) (size : Z) : option bool :=
  if size <? max_vsm_size then Some false
  else zmq_assert (bool_decide (is_Some (sa_buf a)) && (0 <=? sa_content a) && (sa_content a <? sa_max_counters a)) ;; Some true.

(** [size_ready] of the ZMTP/2 and WebSocket decoders: the buffer and the descriptor of the message, if it is a zero-copy one. *)
Definition size_ready_message (h : buffers) (a : shared_alloc) (zero_copy : bool) (read_pos size : Z) : option (buffers * shared_alloc * option (Z * Z)) :=
  if negb zero_copy || (sa_buf_size a - read_pos <? size) then Some (h, a, None)
  else
    let* zc := init_on_buffer a size in
    if zc : bool then
      let a' := sa_advance_content a in
      let* h := sa_inc_ref h a' in let* buf := sa_buf a in Some (h, a', Some (buf, sa_content a))
    else Some (h, a, None).

(** [decode] of [raw_decoder_t]: the message takes over the buffer. *)
Definition raw_decode (a : shared_alloc) (size : Z) : option (shared_alloc * option (Z * Z)) :=
  let* zc := init_on_buffer a size in
  if zc : bool then let* buf := sa_buf a in Some (sa_release (sa_advance_content a), Some (buf, sa_content a)) else Some (a, None).

(** The encoder of raw sockets: the bodies of the messages, nothing else. *)
Definition raw_message_ready (_ : unit) (f : frame) : bytes * unit * bool := (fr_body f, tt, true).
Definition raw_encoder_new : encoder unit := Encoder [] tt true None.

(** ** A decoder, its buffers and the messages that live *)

Record al_sys := As {
  as_heap : buffers;
  as_alloc : shared_alloc;
  as_read_pos : Z;
  as_live : list (Z * Z);
}.

Inductive al_step :=
| al_get_buffer
| al_received (n : Z)
| al_read (n : Z)                            (** bytes of headers, or of messages not on the buffer *)
| al_size_ready (zero_copy : bool) (size : Z)
| al_raw
| al_close (i : nat)
| al_destroy.

Definition remember (s : al_sys) (m : option (Z * Z)) : list (Z * Z) := match m with Some m => as_live s ++ [m] | None => as_live s end.

(** A decoder receives into the buffer it got, and reads forward in what it received; a step that cannot happen does nothing. *)
Definition al_do (s : al_sys) (st : al_step) : option al_sys :=
  let a := as_alloc s in
  match st with
  | al_get_buffer => let* (h, a) := sa_allocate (as_heap s) a in Some (As h a 0 (as_live s))
  | al_received n =>
      if bool_decide (is_Some (sa_buf a)) && (as_read_pos s =? 0) && (sa_content a =? 0) && (0 <=? n) && (n <=? sa_max_size a)
      then Some (As (as_heap s) (sa_resize a n) (as_read_pos s) (as_live s)) else Some s
  | al_read n =>
      if (0 <=? n) && (as_read_pos s + n <=? sa_buf_size a) then Some (As (as_heap s) a (as_read_pos s + n) (as_live s)) else Some s
  | al_size_ready zero_copy size =>
      if (0 <=? size) && bool_decide (is_Some (sa_buf a)) then
        let* (h, a, m) := size_ready_message (as_heap s) a zero_copy (as_read_pos s) size in
        Some (As h a (match m with Some _ => as_read_pos s + size | None => as_read_pos s end) (remember s m))
      else Some s
  | al_raw =>
      if bool_decide (is_Some (sa_buf a)) && (as_read_pos s =? 0) && (sa_content a =? 0) then
        let* (a, m) := raw_decode a (sa_buf_size a) in Some (As (as_heap s) a (sa_buf_size a) (remember s m))
      else Some s
  | al_close i =>
      match as_live s !! i with
      | Some (buf, _) => let* h := call_dec_ref (as_heap s) buf in Some (As h a (as_read_pos s) (delete i (as_live s)))
      | None => Some s
      end
  | al_destroy => let* (h, a) := sa_deallocate (as_heap s) a in Some (As h a 0 (as_live s))
  end.

Fixpoint al_run (s : al_sys) (l : list al_step) : option al_sys :=
  match l with [] => Some s | st :: l' => let* s := al_do s st in al_run s l' end.

(** ** References to a buffer *)

Definition refs (live : list (Z * Z)) (cur : option Z) (buf : Z) : Z :=
  Z.of_nat (length (base.filter (fun m : Z * Z => m.1 = buf) live)) + if decide (cur = Some buf) then 1 else 0.

Definition heap_ok (h : buffers) (live : list (Z * Z)) (cur : option Z) : Prop :=
  forall buf, h !! buf = if decide (refs live cur buf = 0) then None else Some (refs live cur buf).

Lemma refs_nonneg live cur buf : 0 <= refs live cur buf.
Proof. unfold refs. case_decide; lia. Qed.

Lemma refs_app live m cur buf : refs (live ++ [m]) cur buf = refs live cur buf + if decide (m.1 = buf) then 1 else 0.
Proof. unfold refs. rewrite list.filter_app, length_app, filter_cons. case_decide; simpl; lia. Qed.

Lemma refs_delete live i m cur buf : live !! i = Some m -> refs (delete i live) cur buf = refs live cur buf - if decide (m.1 = buf) then 1 else 0.
Proof.
  intros Hi. rewrite delete_take_drop. pose proof (take_drop_middle live i m Hi) as E. unfold refs. rewrite <- E at 3.
  rewrite !list.filter_app, !length_app, filter_cons. destruct (decide (m.1 = buf)); simpl; lia.
Qed.

Lemma refs_cur live cur buf : refs live cur buf = refs live None buf + if decide (cur = Some buf) then 1 else 0.
Proof. unfold refs. rewrite (decide_False (P := None = Some buf)) by done. lia. Qed.

(** One reference less. *)
Lemma heap_drop h live cur live' cur' buf : heap_ok h live cur -> refs live cur buf < 4294967296 -> refs live cur buf = refs live' cur' buf + 1 ->
  (forall buf', buf' <> buf -> refs live' cur' buf' = refs live cur buf') ->
  exists h', buf_sub h buf = Some (h', negb (refs live' cur' buf =? 0)) /\ h' = <[buf := refs live' cur' buf]> h /\
    heap_ok (if negb (refs live' cur' buf =? 0) then h' else delete buf h') live' cur'.
Proof.
  intros Hh Hb Hr Ho. pose proof (refs_nonneg live' cur' buf) as Hn. unfold buf_sub. rewrite (Hh buf), decide_False by lia. cbn [mbind option_bind]. unfold ac_sub.
  rewrite u32_small by (unfold is_u32; lia). replace (refs live cur buf - 1) with (refs live' cur' buf) by lia.
  eexists. split; [done|]. split; [done|]. intros buf'. destruct (refs live' cur' buf =? 0) eqn:E; bool_prop; cbn [negb].
  - destruct (decide (buf' = buf)) as [->|Hne]; [by rewrite lookup_delete_eq, E|]. rewrite lookup_delete_ne, lookup_insert_ne by done. rewrite Hh, (Ho buf') by done. done.
  - destruct (decide (buf' = buf)) as [->|Hne]; [by rewrite lookup_insert_eq, decide_False|]. rewrite lookup_insert_ne by done. rewrite Hh, (Ho buf') by done. done.
Qed.

(** ** The invariant *)

(** Enough descriptors: one for each 33 bytes, or one for a raw decoder, which makes one message of a buffer. *)
Definition counters_ok (raw : bool) (a : shared_alloc) : Prop :=
  0 <= sa_max_size a /\ 0 <= sa_max_counters a < 4294967295 /\ (if raw then 1 <= sa_max_counters a else sa_max_size a <= 33 * sa_max_counters a).

Definition step_ok (raw : bool) (st : al_step) : Prop :=
  match st with al_size_ready _ _ => raw = false | al_raw => raw = true | _ => True end.

Record al_inv (raw : bool) (s : al_sys) : Prop := {
  ai_heap : heap_ok (as_heap s) (as_live s) (sa_buf (as_alloc s));
  ai_nodup : NoDup (as_live s);
  ai_slots buf i : (buf, i) ∈ as_live s -> 0 <= i < sa_max_counters (as_alloc s) /\ (sa_buf (as_alloc s) = Some buf -> i < sa_content (as_alloc s));
  ai_pos : is_Some (sa_buf (as_alloc s)) -> 0 <= 33 * sa_content (as_alloc s) <= as_read_pos s /\ as_read_pos s <= sa_buf_size (as_alloc s) <= sa_max_size (as_alloc s);
  ai_zero : 0 <= as_read_pos s;
  ai_counters : counters_ok raw (as_alloc s);
}.

(** Descriptors are distinct, so that their number bounds the count. *)
Lemma refs_le live cur buf n : NoDup live -> (forall i, (buf, i) ∈ live -> 0 <= i < n) -> 0 <= n -> refs live cur buf <= n + 1.
Proof.
  intros Hnd Hin Hn. set (l := base.filter (fun m : Z * Z => m.1 = buf) live).
  assert (length l <= length (seqZ 0 n))%nat as Hle.
  { rewrite <- (length_fmap snd l). apply NoDup_incl_length.
    - apply NoDup_ListNoDup, NoDup_fmap_2_strong; [|by apply list.NoDup_filter].
      intros [b1 i1] [b2 i2] H1 H2 E. apply list_elem_of_filter in H1 as [E1 _], H2 as [E2 _]. simpl in *. by subst.
    - intros i Hi. apply list_elem_of_In, list_elem_of_fmap in Hi as ([b j] & -> & Hi). apply list_elem_of_filter in Hi as [Hb Hi]. simpl in Hb. subst b.
      apply list_elem_of_In, elem_of_seqZ. specialize (Hin j Hi). simpl. lia. }
  rewrite length_seqZ in Hle. unfold refs. fold l. case_decide; lia.
Qed.

Lemma refs_bound raw s buf : al_inv raw s -> refs (as_live s) (sa_buf (as_alloc s)) buf < 4294967296.
Proof.
  intros Hi. destruct (ai_counters _ _ Hi) as (_ & Hc & _).
  pose proof (refs_le (as_live s) (sa_buf (as_alloc s)) buf (sa_max_counters (as_alloc s)) (ai_nodup _ _ Hi) (fun i H => proj1 (ai_slots _ _ Hi buf i H))). lia.
Qed.

(** Nothing lives on a buffer that is not allocated. *)
Lemma fresh_refs h live cur : heap_ok h live cur -> refs live cur (fresh (dom h)) = 0.
Proof.
  intros Hh. pose proof (is_fresh (dom h)) as Hf. apply not_elem_of_dom in Hf. rewrite Hh in Hf. by case_decide.
Qed.

Lemma refs_zero live cur buf i : refs live cur buf = 0 -> (buf, i) ∉ live.
Proof.
  intros Hr Hin. assert ((buf, i) ∈ base.filter (fun m : Z * Z => m.1 = buf) live) as Hf by (by apply list_elem_of_filter).
  apply list_elem_of_In, in_split in Hf as (l1 & l2 & E). unfold refs in Hr. rewrite E, length_app in Hr. simpl in Hr. case_decide; lia.
Qed.

(** A buffer nobody refers to becomes the current one. *)
Lemma heap_take h live buf : heap_ok h live None -> refs live None buf = 0 -> heap_ok (<[buf := 1]> h) live (Some buf).
Proof.
  intros Hh Hr buf'. rewrite (refs_cur live (Some buf)). destruct (decide (buf' = buf)) as [->|Hne].
  - by rewrite lookup_insert_eq, Hr, (decide_True (P := Some buf = Some buf)).
  - rewrite lookup_insert_ne, (decide_False (P := Some buf = Some buf')) by congruence. by rewrite Z.add_0_r, Hh.
Qed.

(** The reference the decoder holds is given up. *)
Lemma heap_give_up h live buf : heap_ok h live (Some buf) -> refs live (Some buf) buf < 4294967296 ->
  exists h', buf_sub h buf = Some (h', negb (refs live None buf =? 0)) /\
    heap_ok (if negb (refs live None buf =? 0) then h' else delete buf h') live None.
Proof.
  intros Hh Hb. destruct (heap_drop h live (Some buf) live None buf Hh Hb) as (h' & E & _ & Hh').
  - by rewrite (refs_cur live (Some buf)), (decide_True (P := Some buf = Some buf)).
  - intros buf' Hne. rewrite (refs_cur live (Some buf)), decide_False by congruence. lia.
  - eauto.
Qed.

(** [allocate] never fails, and the buffer it returns has no message on it. *)
Lemma sa_allocate_ok h live a : heap_ok h live (sa_buf a) -> (forall buf, refs live (sa_buf a) buf < 4294967296) ->
  exists h' buf, sa_allocate h a = Some (h', Sa (Some buf) (sa_max_size a) (sa_max_size a) 0 (sa_max_counters a)) /\
    heap_ok h' live (Some buf) /\ refs live None buf = 0.
Proof.
  intros Hh Hb. unfold sa_allocate. destruct (sa_buf a) as [buf|] eqn:Ea; cbn [mbind option_bind].
  - destruct (heap_give_up h live buf Hh (Hb buf)) as (h' & -> & Hh'). cbn [mbind option_bind].
    destruct (refs live None buf =? 0) eqn:E; bool_prop; cbn [negb] in *.
    + rewrite Ea. cbn [default]. eexists _, buf. split; [done|]. split; [|done].
      rewrite <- (insert_delete_eq h' buf 1). by apply heap_take.
    + cbn [sa_release sa_clear sa_buf default sa_max_size sa_max_counters]. eexists _, _. split; [done|]. pose proof (fresh_refs _ _ _ Hh'). split; [by apply heap_take|done].
  - rewrite Ea. cbn [default]. eexists _, _. split; [done|]. pose proof (fresh_refs _ _ _ Hh). split; [by apply heap_take|done].
Qed.

Lemma sa_deallocate_ok h live a : heap_ok h live (sa_buf a) -> (forall buf, refs live (sa_buf a) buf < 4294967296) ->
  exists h', sa_deallocate h a = Some (h', sa_clear a) /\ heap_ok h' live None.
Proof.
  intros Hh Hb. unfold sa_deallocate. destruct (sa_buf a) as [buf|] eqn:Ea; [|eauto].
  destruct (heap_give_up h live buf Hh (Hb buf)) as (h' & -> & Hh'). cbn [mbind option_bind]. eauto.
Qed.

(** Closing a message drops its reference. *)
Lemma call_dec_ref_ok h live cur i m : heap_ok h live cur -> refs live cur m.1 < 4294967296 -> live !! i = Some m ->
  exists h', call_dec_ref h m.1 = Some h' /\ heap_ok h' (delete i live) cur.
Proof.
  intros Hh Hb Hi. destruct (heap_drop h live cur (delete i live) cur m.1 Hh Hb) as (h' & E & _ & Hh').
  - rewrite (refs_delete live i m), decide_True by done. lia.
  - intros buf Hne. rewrite (refs_delete live i m), decide_False by done. lia.
  - unfold call_dec_ref. rewrite E. cbn [mbind option_bind]. eauto.
Qed.

(** A message on the current buffer adds one. *)
Lemma sa_inc_ref_ok h live a buf i : heap_ok h live (sa_buf a) -> sa_buf a = Some buf -> refs live (sa_buf a) buf + 1 < 4294967296 ->
  exists h', sa_inc_ref h a = Some h' /\ heap_ok h' (live ++ [(buf, i)]) (sa_buf a).
Proof.
  intros Hh Ha Hb. unfold sa_inc_ref. rewrite Ha in *. cbn [mbind option_bind]. pose proof (refs_nonneg live None buf) as Hn.
  assert (refs live (Some buf) buf = refs live None buf + 1) as Hr by (by rewrite (refs_cur live (Some buf)), (decide_True (P := Some buf = Some buf))).
  rewrite (Hh buf), decide_False by lia. cbn [mbind option_bind]. unfold ac_add. rewrite u32_small by (unfold is_u32; lia).
  eexists. split; [done|]. intros buf'. rewrite refs_app. cbn [fst]. destruct (decide (buf = buf')) as [<-|Hne].
  - by rewrite lookup_insert_eq, decide_False by lia.
  - by rewrite lookup_insert_ne, Z.add_0_r, Hh.
Qed.

Lemma al_inv_refs raw s : al_inv raw s -> forall buf, refs (as_live s) (sa_buf (as_alloc s)) buf < 4294967296.
Proof. intros Hi buf. by apply (refs_bound raw). Qed.

(** A step that makes a message on the current buffer. *)
Lemma live_app raw s buf : al_inv raw s -> sa_buf (as_alloc s) = Some buf -> 0 <= sa_content (as_alloc s) < sa_max_counters (as_alloc s) ->
  NoDup (as_live s ++ [(buf, sa_content (as_alloc s))]) /\
  (forall b i, (b, i) ∈ as_live s ++ [(buf, sa_content (as_alloc s))] ->
     0 <= i < sa_max_counters (as_alloc s) /\ (sa_buf (as_alloc s) = Some b -> i < sa_content (as_alloc s) + 1)).
Proof.
  intros Hi Hb Hc. split.
  - apply list.NoDup_app. split; [apply Hi|]. split; [|by apply NoDup_singleton].
    intros [b i] Hin Hx. apply list_elem_of_singleton in Hx as [= -> ->]. destruct (ai_slots _ _ Hi _ _ Hin) as [_ H]. specialize (H Hb). lia.
  - intros b i Hin. apply elem_of_app in Hin as [Hin|Hin].
    + destruct (ai_slots _ _ Hi _ _ Hin) as [H1 H2]. split; [done|]. intros H. specialize (H2 H). lia.
    + apply list_elem_of_singleton in Hin as [= -> ->]. split; [done|]. intros _. lia.
Qed.

(** The descriptor of the current message is in the buffer. *)
Lemma init_on_buffer_ok raw s size : al_inv raw s -> is_Some (sa_buf (as_alloc s)) -> as_read_pos s + size <= sa_buf_size (as_alloc s) ->
  (raw = true -> sa_content (as_alloc s) = 0) ->
  (size < 33 /\ init_on_buffer (as_alloc s) size = Some false) \/
  (33 <= size /\ init_on_buffer (as_alloc s) size = Some true /\ 0 <= sa_content (as_alloc s) < sa_max_counters (as_alloc s)).
Proof.
  intros Hi Hb Hsz Hraw. destruct (ai_pos _ _ Hi Hb) as [Hp1 Hp2]. destruct (ai_counters _ _ Hi) as (Hm & Hc & Hr).
  unfold init_on_buffer, max_vsm_size. destruct (size <? 33) eqn:E; bool_prop; [by left|right].
  assert (0 <= sa_content (as_alloc s) < sa_max_counters (as_alloc s)) as Hx by (destruct raw; [specialize (Hraw eq_refl)|]; lia).
  rewrite bool_decide_true by done. rewrite (proj2 (Z.leb_le _ _)), (proj2 (Z.ltb_lt _ _)) by lia. done.
Qed.

Lemma size_ready_inv raw s zero_copy size : al_inv raw s -> raw = false -> 0 <= size -> is_Some (sa_buf (as_alloc s)) ->
  exists s', al_do s (al_size_ready zero_copy size) = Some s' /\ al_inv raw s'.
Proof.
  intros Hi Hraw Hsz Hb. unfold al_do. rewrite (proj2 (Z.leb_le 0 size)), bool_decide_true by done. cbn [andb]. unfold size_ready_message.
  destruct (negb zero_copy || (sa_buf_size (as_alloc s) - as_read_pos s <? size)) eqn:E; [eexists; split; [done|]; by destruct s, Hi|]. bool_prop.
  destruct (init_on_buffer_ok raw s size Hi Hb ltac:(lia) ltac:(congruence)) as [[Hs ->]|(Hs & -> & Hc)]; cbn [mbind option_bind].
  { eexists. split; [done|]. by destruct s, Hi. }
  destruct Hb as [buf Eb].
  destruct (live_app raw s buf Hi Eb Hc) as [Hnd Hsl].
  destruct (sa_inc_ref_ok (as_heap s) (as_live s) (sa_advance_content (as_alloc s)) buf (sa_content (as_alloc s)) (ai_heap _ _ Hi) Eb) as (h' & -> & Hh').
  { pose proof (refs_le (as_live s) (Some buf) buf (sa_content (as_alloc s)) (ai_nodup _ _ Hi)) as Hr. destruct (ai_counters _ _ Hi) as (_ & ? & _).
    cbn [sa_advance_content sa_buf]. rewrite Eb. enough (refs (as_live s) (Some buf) buf <= sa_content (as_alloc s) + 1) by lia.
    apply Hr; [|lia]. intros i Hin. destruct (ai_slots _ _ Hi _ _ Hin) as [? Hlt]. specialize (Hlt Eb). lia. }
  cbn [mbind option_bind]. rewrite Eb. cbn [mbind option_bind]. eexists. split; [done|].
  pose proof (ai_pos _ _ Hi ltac:(by eexists)) as Hp. pose proof (ai_zero _ _ Hi). pose proof (ai_counters _ _ Hi). unfold remember.
  constructor; cbn [as_heap as_live as_alloc as_read_pos sa_advance_content sa_buf sa_content sa_buf_size sa_max_size sa_max_counters]; try done; [|lia].
  intros _. lia.
Qed.

Lemma raw_inv raw s : al_inv raw s -> raw = true -> exists s', al_do s al_raw = Some s' /\ al_inv raw s'.
Proof.
  intros Hi Hraw. unfold al_do. destruct (bool_decide _ && _ && _) eqn:E; [|eauto]. apply andb_prop in E as [[Hb%bool_decide_eq_true H1]%andb_prop H2]. bool_prop.
  destruct (ai_pos _ _ Hi Hb) as [Hp1 Hp2]. unfold raw_decode.
  destruct (init_on_buffer_ok raw s (sa_buf_size (as_alloc s)) Hi Hb ltac:(lia) ltac:(done)) as [[Hs ->]|(Hs & -> & Hc)]; cbn [mbind option_bind].
  { eexists. split; [done|]. destruct Hi. constructor; cbn [as_heap as_live as_alloc as_read_pos remember]; try done; try lia. }
  destruct Hb as [buf Eb]. destruct (live_app raw s buf Hi Eb Hc) as [Hnd Hsl]. rewrite Eb. cbn [mbind option_bind remember]. eexists. split; [done|].
  constructor; cbn [as_heap as_live as_alloc as_read_pos sa_release sa_clear sa_advance_content sa_buf sa_content sa_buf_size sa_max_size sa_max_counters].
  - intros buf'. rewrite refs_app, refs_cur. rewrite (ai_heap _ _ Hi), Eb, (refs_cur _ (Some buf)). cbn [fst].
    rewrite (decide_False (P := None = Some buf')) by done. rewrite Z.add_0_r. destruct (decide (buf = buf')) as [<-|Hne].
    + by rewrite (decide_True (P := Some buf = Some buf)).
    + by rewrite (decide_False (P := Some buf = Some buf')) by congruence.
  - done.
  - intros b i Hin. destruct (Hsl b i Hin). done.
  - intros [? [=]].
  - lia.
  - apply Hi.
Qed.

Lemma al_do_inv raw s st : al_inv raw s -> step_ok raw st -> exists s', al_do s st = Some s' /\ al_inv raw s'.
Proof.
  intros Hi Hst. pose proof (al_inv_refs raw s Hi) as Hb. pose proof (ai_counters _ _ Hi) as Hc. destruct st as [|n|n|zc size| |i|]; [| | |simpl in Hst|by apply raw_inv| |].
  - destruct (sa_allocate_ok _ _ _ (ai_heap _ _ Hi) Hb) as (h' & buf & E & Hh' & Hr). unfold al_do. rewrite E. cbn [mbind option_bind]. eexists. split; [done|].
    constructor; cbn [as_heap as_live as_alloc as_read_pos sa_buf sa_content sa_buf_size sa_max_size sa_max_counters]; try done; try apply Hi.
    + intros b i Hin. destruct (ai_slots _ _ Hi b i Hin). split; [done|]. intros [= ->]. by destruct (refs_zero _ _ _ i Hr).
    + intros _. destruct Hc as (? & ? & _). lia.
  - unfold al_do. destruct (_ && _) eqn:E; [|eauto]. repeat (apply andb_prop in E as [E ?]). bool_prop. eexists. split; [done|].
    destruct Hi. constructor; cbn [as_heap as_live as_alloc as_read_pos sa_resize sa_buf sa_content sa_buf_size sa_max_size sa_max_counters]; try done. intros _. lia.
  - unfold al_do. destruct (_ && _) eqn:E; [|eauto]. apply andb_prop in E as [H1 H2]. bool_prop. eexists. split; [done|].
    destruct Hi. constructor; cbn [as_heap as_live as_alloc as_read_pos]; try done; [|lia]. intros Hs. destruct (ai_pos0 Hs). lia.
  - destruct (decide (0 <= size /\ is_Some (sa_buf (as_alloc s)))) as [[H1 H2]|Hn]; [by apply size_ready_inv|].
    exists s. split; [|done]. unfold al_do. destruct (_ && _) eqn:E; [|done]. apply andb_prop in E as [H1 H2%bool_decide_eq_true]. bool_prop. tauto.
  - unfold al_do. destruct (as_live s !! i) as [[buf k]|] eqn:Ei; [|eauto].
    destruct (call_dec_ref_ok _ _ _ i (buf, k) (ai_heap _ _ Hi) (Hb buf) Ei) as (h' & E & Hh'). cbn [fst] in E. rewrite E. cbn [mbind option_bind]. eexists. split; [done|].
    destruct Hi. constructor; cbn [as_heap as_live as_alloc as_read_pos]; try done.
    + eapply sublist_NoDup; [done|apply sublist_delete].
    + intros b j Hin. apply ai_slots0. eapply elem_of_sublist; [done|apply sublist_delete].
  - destruct (sa_deallocate_ok _ _ _ (ai_heap _ _ Hi) Hb) as (h' & E & Hh'). unfold al_do. rewrite E. cbn [mbind option_bind]. eexists. split; [done|].
    constructor; cbn [as_heap as_live as_alloc as_read_pos sa_clear sa_buf sa_content sa_buf_size sa_max_size sa_max_counters]; try done; try apply Hi.
    intros b i Hin. by destruct (ai_slots _ _ Hi b i Hin).
Qed.

Lemma al_run_inv raw s l : al_inv raw s -> Forall (step_ok raw) l -> exists s', al_run s l = Some s' /\ al_inv raw s'.
Proof.
  intros Hi Hl. revert s Hi. induction Hl as [|st l Hst Hl IH]; intros s Hi; [by exists s|]. simpl.
  destruct (al_do_inv raw s st Hi Hst) as (s' & -> & Hi'). by apply IH.
Qed.

Lemma al_new_inv raw a : sa_buf a = None -> counters_ok raw a -> al_inv raw (As ∅ a 0 []).
Proof.
  intros Ha Hc. constructor; cbn [as_heap as_live as_alloc as_read_pos]; rewrite ?Ha; try done.
  - apply NoDup_nil_2.
  - by intros b i Hin%not_elem_of_nil.
Qed.

(** Enough descriptors are made room for. *)
Lemma sa_new_counters bufsize : 0 <= bufsize < 4294967295 -> counters_ok false (sa_new bufsize).
Proof.
  intros H. unfold counters_ok, sa_new, max_vsm_size. cbn [sa_max_size sa_max_counters].
  pose proof (Z.div_mod (bufsize + 33 - 1) 33 ltac:(lia)). pose proof (Z.mod_pos_bound (bufsize + 33 - 1) 33 ltac:(lia)). lia.
Qed.

Lemma refs_pos live cur buf : refs live cur buf <> 0 <-> cur = Some buf \/ exists i, (buf, i) ∈ live.
Proof.
  split.
  - intros Hr. unfold refs in Hr. destruct (decide (cur = Some buf)); [by left|right].
    destruct (base.filter (fun m : Z * Z => m.1 = buf) live) as [|[b i] l] eqn:E; [simpl in Hr; lia|]. exists i.
    assert ((b, i) ∈ base.filter (fun m : Z * Z => m.1 = buf) live) as [Hb Hin]%list_elem_of_filter by (rewrite E; constructor). simpl in Hb. by subst.
  - intros [->|[i Hin]] Hr; [|by apply (refs_zero live cur buf i)].
    rewrite refs_cur, (decide_True (P := Some buf = Some buf)) in Hr by done. pose proof (refs_nonneg live None buf). lia.
Qed.

(** the receive buffers are managed safely: whatever bytes arrive, whichever messages the decoder makes on its buffers, and whenever those are closed, before or after the decoder is destroyed, no count outside of an allocated buffer is touched and no descriptor behind the end of a buffer is used; a buffer is allocated exactly as long as the decoder receives into it or a message lives on it, so that none leaks and none is freed under a message. *)
Theorem allocator_managed raw a l : sa_buf a = None -> counters_ok raw a -> Forall (step_ok raw) l ->
  exists s, al_run (As ∅ a 0 []) l = Some s /\
    forall buf, buf ∈ dom (as_heap s) <-> sa_buf (as_alloc s) = Some buf \/ exists i, (buf, i) ∈ as_live s.
Proof.
  intros Ha Hc Hl. destruct (al_run_inv raw _ _ (al_new_inv raw a Ha Hc) Hl) as (s & E & Hi). exists s. split; [done|].
  intros buf. rewrite <- refs_pos, elem_of_dom, (ai_heap _ _ Hi). case_decide; [|by split; [|eauto]].
  by split; [intros [? ?]|].
Qed.

Lemma allocator_managed_witness :
  exists s, al_run (As ∅ (sa_new 8192) 0 [])
      [al_get_buffer; al_received 200; al_read 2; al_size_ready true 100; al_read 2; al_size_ready true 60; al_get_buffer; al_close 0; al_destroy] = Some s /\
    forall buf, buf ∈ dom (as_heap s) <-> sa_buf (as_alloc s) = Some buf \/ exists i, (buf, i) ∈ as_live s.
Proof. apply (allocator_managed false (sa_new 8192)); [done|by apply sa_new_counters|repeat constructor]. Defined.

(** What a raw socket puts on the wire, with whatever buffers the engine asks for it: the bodies, one after the other. *)
Lemma raw_stream fs : Forall (fun p => Forall (fun b => 1 <= b.2) p.2 /\ (length (fr_body p.1) < length p.2)%nat) fs ->
  exists e', enc_send raw_message_ready raw_encoder_new fs = Some (concat (fr_body <$> fs.*1), e') /\ en_msg e' = None.
Proof.
  intros Hfs. destruct (enc_send_one raw_message_ready tt fs raw_encoder_new) as (e' & E & Hm); [done..|by constructor|done| |].
  - eapply Forall_impl; [|exact Hfs]. intros p [H1 H2]. split; [done|]. unfold enc_wire. simpl. by rewrite ?app_nil_r.
  - exists e'. split; [|done]. rewrite E. do 3 f_equal. apply list_fmap_ext. intros i f _. unfold enc_wire. simpl. by rewrite ?app_nil_r.
Qed.
