(* ===== verification/Own.v ===== *)
(** * The ownership tree (src/src/own.cpp) and the commands it runs on (src/src/object.cpp)

    Sockets, sessions, listeners and connecters own each other and live on
    different threads.  They are shut down by commands: an object asks its
    owner to be terminated, the owner tells it to, the object tells its
    children, waits for their acknowledgements and for the commands that
    are still on their way to it, acknowledges and deletes itself.

    A thread runs a handler one call at a time, and the calls of different
    threads interleave: what is left of the handler is the [th_code] of the
    thread.  A call on an object that has been deleted, like a failed
    assertion, is [None]. *)

From Stdlib Require Import Bool.
From S2P Require Import Prelude Msg.

(** How far [check_term_acks] got for the object: it has not passed the
    test, it has passed it, the object is deleted. *)
Inductive own_phase := running | finishing | deleted.

#[export] Instance own_phase_eq_dec : EqDecision own_phase.
Proof. solve_decision. Defined.

Record own_t := Own {
  ow_terminating : bool;
  ow_sent_seqnum : Z;
  ow_processed_seqnum : Z;
  ow_owner : option nat;
  ow_owned : gset nat;
  ow_term_acks : Z;
  ow_linger : Z;               (** [options.linger] *)
  ow_tid : nat;
  ow_events : Z;               (** events a derived class has registered with [register_term_acks] and not yet reported *)
  ow_pending : bool;           (** [_pending] of a session, which postpones [process_term] (session_base.cpp) *)
  ow_phase : own_phase;
}.

(** [own_t::own_t] and [set_owner]. *)
Definition own_new (tid : nat) (owner : option nat) (linger : Z) : own_t := Own false 0 0 owner ∅ 0 linger tid 0 false running.

Definition inc_seqnum (o : own_t) : own_t :=
  Own (ow_terminating o) (ac_add (ow_sent_seqnum o) 1) (ow_processed_seqnum o) (ow_owner o) (ow_owned o) (ow_term_acks o) (ow_linger o) (ow_tid o) (ow_events o) (ow_pending o) (ow_phase o).
Definition set_processed (o : own_t) (n : Z) : own_t :=
  Own (ow_terminating o) (ow_sent_seqnum o) n (ow_owner o) (ow_owned o) (ow_term_acks o) (ow_linger o) (ow_tid o) (ow_events o) (ow_pending o) (ow_phase o).
Definition set_owned (o : own_t) (owned : gset nat) : own_t :=
  Own (ow_terminating o) (ow_sent_seqnum o) (ow_processed_seqnum o) (ow_owner o) owned (ow_term_acks o) (ow_linger o) (ow_tid o) (ow_events o) (ow_pending o) (ow_phase o).
Definition register_term_acks (o : own_t) (count_ : Z) : own_t :=
  Own (ow_terminating o) (ow_sent_seqnum o) (ow_processed_seqnum o) (ow_owner o) (ow_owned o) (ow_term_acks o + count_) (ow_linger o) (ow_tid o) (ow_events o) (ow_pending o) (ow_phase o).
Definition set_terminating (o : own_t) : own_t :=
  Own true (ow_sent_seqnum o) (ow_processed_seqnum o) (ow_owner o) (ow_owned o) (ow_term_acks o) (ow_linger o) (ow_tid o) (ow_events o) (ow_pending o) (ow_phase o).
Definition set_events (o : own_t) (n : Z) : own_t :=
  Own (ow_terminating o) (ow_sent_seqnum o) (ow_processed_seqnum o) (ow_owner o) (ow_owned o) (ow_term_acks o) (ow_linger o) (ow_tid o) n (ow_pending o) (ow_phase o).
Definition set_pending (o : own_t) (p : bool) : own_t :=
  Own (ow_terminating o) (ow_sent_seqnum o) (ow_processed_seqnum o) (ow_owner o) (ow_owned o) (ow_term_acks o) (ow_linger o) (ow_tid o) (ow_events o) p (ow_phase o).
Definition set_own_phase (o : own_t) (ph : own_phase) : own_t :=
  Own (ow_terminating o) (ow_sent_seqnum o) (ow_processed_seqnum o) (ow_owner o) (ow_owned o) (ow_term_acks o) (ow_linger o) (ow_tid o) (ow_events o) (ow_pending o) ph.

Inductive own_cmd :=
| oc_plug
| oc_own (object_ : nat)
| oc_attach
| oc_bind
| oc_term_req (object_ : nat)
| oc_term (linger_ : Z)
| oc_term_ack.

(** What an object may do of its own accord, or while it handles a command. *)
Inductive own_call :=
| oc_launch_child (tid : nat) (linger : Z) (attach : bool)   (** a listener attaches an engine to the session it launches (stream_listener_base.cpp) *)
| oc_terminate
| oc_term_child (object_ : nat)
| oc_send_attach                 (** a connecter hands the connection to the session that owns it *)
| oc_send_bind (peer : nat)      (** an inproc connection to a registered socket (ctx.cpp) *)
| oc_register (count_ : Z)
| oc_unregister
| oc_proceed.                    (** the postponed [process_term] *)

Inductive own_instr :=
| oi_send (inc_seqnum_ : bool) (destination_ : nat) (cmd : own_cmd)
| oi_call (c : own_call)
| oi_seqnum                      (** [process_seqnum] *)
| oi_check                       (** [check_term_acks] *)
| oi_destroy.                    (** [process_destroy] *)

(** ** The handlers: the object after, and the calls left to make *)

Definition oi_term (linger_ : Z) (c : nat) : own_instr := oi_send false c (oc_term linger_).

Definition check_term_acks (o : own_t) : option (own_t * list own_instr) :=
  if ow_terminating o && (ow_processed_seqnum o =? ow_sent_seqnum o) && (ow_term_acks o =? 0) then
    zmq_assert (bool_decide (ow_owned o = ∅)) ;;
    Some (set_own_phase o finishing, match ow_owner o with Some p => [oi_send false p oc_term_ack; oi_destroy] | None => [oi_destroy] end)
  else Some (o, []).

Definition process_seqnum (o : own_t) : option (own_t * list own_instr) := check_term_acks (set_processed o (u64 (ow_processed_seqnum o + 1))).

Definition process_term_req (o : own_t) (object_ : nat) : own_t * list own_instr :=
  if ow_terminating o then (o, [])
  else if bool_decide (object_ ∈ ow_owned o) then
    (register_term_acks (set_owned o (ow_owned o ∖ {[object_]})) 1, [oi_term (ow_linger o) object_])
  else (o, []).

Definition process_own (o : own_t) (object_ : nat) : own_t * list own_instr :=
  if ow_terminating o then (register_term_acks o 1, [oi_term 0 object_])
  else (set_owned o (ow_owned o ∪ {[object_]}), []).

(** [own_t::process_term]. *)
Definition process_term (o : own_t) (linger_ : Z) : option (own_t * list own_instr) :=
  zmq_assert (negb (ow_terminating o)) ;;
  Some (set_terminating (set_owned (register_term_acks o (Z.of_nat (size (ow_owned o)))) ∅),
        (oi_term linger_ <$> elements (ow_owned o)) ++ [oi_check]).

Definition own_terminate (this : nat) (o : own_t) : option (own_t * list own_instr) :=
  if ow_terminating o then Some (o, [])
  else match ow_owner o with
       | None => process_term o (ow_linger o)
       | Some p => Some (o, [oi_send false p (oc_term_req this)])
       end.

Definition unregister_term_ack (o : own_t) : option (own_t * list own_instr) :=
  zmq_assert (0 <? ow_term_acks o) ;; Some (register_term_acks o (-1), [oi_check]).

(** [object_t::process_command]; [hook] is what the derived class does in its [process_plug], [process_attach] or [process_bind], [delay] whether it postpones [process_term]. *)
Definition own_process_command (hook : list own_call) (delay : bool) (o : own_t) (cmd_ : own_cmd) : option (own_t * list own_instr) :=
  match cmd_ with
  | oc_plug | oc_attach | oc_bind => Some (o, (oi_call <$> hook) ++ [oi_seqnum])
  | oc_own object_ => let '(o, l) := process_own o object_ in Some (o, l ++ [oi_seqnum])
  | oc_term_req object_ => Some (process_term_req o object_)
  | oc_term linger_ =>
      if delay && bool_decide (is_Some (ow_owner o)) then zmq_assert (negb (ow_pending o)) ;; Some (set_pending o true, [])
      else process_term o linger_
  | oc_term_ack => unregister_term_ack o
  end.

(** ** Objects and threads *)

Record own_thread := OwnThread {
  th_mailbox : list (nat * own_cmd);
  th_this : nat;               (** the object whose handler runs *)
  th_code : list own_instr;    (** what is left of it *)
}.

Record own_world := OwnWorld { w_objs : list own_t; w_threads : list own_thread }.

Definition deref (w : own_world) (d : nat) : option own_t :=
  let* o := w_objs w !! d in if bool_decide (ow_phase o = deleted) then None else Some o.

Definition set_obj (w : own_world) (d : nat) (o : own_t) : own_world := OwnWorld (<[d := o]> (w_objs w)) (w_threads w).
Definition set_thread (w : own_world) (t : nat) (th : own_thread) : own_world := OwnWorld (w_objs w) (<[t := th]> (w_threads w)).

(** [send_plug], [send_own], ... and [ctx_t::send_command]. *)
Definition send_command (w : own_world) (inc_seqnum_ : bool) (destination_ : nat) (cmd : own_cmd) : option own_world :=
  let* o := deref w destination_ in
  let w := if inc_seqnum_ then set_obj w destination_ (inc_seqnum o) else w in
  let* th := w_threads w !! ow_tid o in
  Some (set_thread w (ow_tid o) (OwnThread (th_mailbox th ++ [(destination_, cmd)]) (th_this th) (th_code th))).

(** The handler of [this] goes on with [l], then with what was left. *)
Definition go_on (w : own_world) (t : nat) (l rest : list own_instr) : option own_world :=
  let* th := w_threads w !! t in Some (set_thread w t (OwnThread (th_mailbox th) (th_this th) (l ++ rest))).

(** [launch_child], after the session got its first reference when an engine will be attached. *)
Definition launch_child (w : own_world) (this : nat) (tid : nat) (linger : Z) (attach : bool) : own_world * list own_instr :=
  let c := length (w_objs w) in
  let child := own_new tid (Some this) linger in
  (OwnWorld (w_objs w ++ [if attach then inc_seqnum child else child]) (w_threads w),
   [oi_send true c oc_plug; oi_send true this (oc_own c)] ++ if attach then [oi_send false c oc_attach] else []).

(** [find_endpoint], or [pend_connection]: a socket that is not terminating is registered. *)
Definition find_endpoint (w : own_world) (peer : nat) : own_world * list own_instr :=
  match w_objs w !! peer with
  | Some o =>
      if bool_decide (ow_owner o = None) && negb (ow_terminating o)
      then (set_obj w peer (inc_seqnum o), [oi_send false peer oc_bind]) else (w, [])
  | None => (w, [])
  end.

Definition do_call (w : own_world) (this : nat) (o : own_t) (c : own_call) : option (own_world * list own_instr) :=
  let with_this (r : own_t * list own_instr) := (set_obj w this r.1, r.2) in
  match c with
  | oc_launch_child tid linger attach =>
      if bool_decide (tid < length (w_threads w))%nat then Some (launch_child w this tid linger attach) else Some (w, [])
  | oc_terminate => with_this <$> own_terminate this o
  | oc_term_child object_ => Some (with_this (process_term_req o object_))
  | oc_send_attach => Some (w, match ow_owner o with Some p => [oi_send true p oc_attach] | None => [] end)
  | oc_send_bind peer => Some (find_endpoint w peer)
  | oc_register count_ => Some (if 0 <? count_ then (set_obj w this (set_events (register_term_acks o count_) (ow_events o + count_)), []) else (w, []))
  | oc_unregister => if 0 <? ow_events o then with_this <$> unregister_term_ack (set_events o (ow_events o - 1)) else Some (w, [])
  | oc_proceed => if ow_pending o then with_this <$> process_term (set_pending o false) 0 else Some (w, [])
  end.

(** One call of the handler that runs on thread [t]. *)
Definition exec_instr (w : own_world) (t this : nat) (i : own_instr) (rest : list own_instr) : option own_world :=
  let* o := deref w this in
  match i with
  | oi_send inc d cmd => let* w := send_command w inc d cmd in go_on w t [] rest
  | oi_call c => let* (w, l) := do_call w this o c in go_on w t l rest
  | oi_seqnum => let* (o, l) := process_seqnum o in go_on (set_obj w this o) t l rest
  | oi_check => let* (o, l) := check_term_acks o in go_on (set_obj w this o) t l rest
  | oi_destroy => go_on (set_obj w this (set_own_phase o deleted)) t [] rest
  end.

(** The next command in the mailbox of thread [t]. *)
Definition exec_command (w : own_world) (t : nat) (hook : list own_call) (delay : bool) (d : nat) (cmd : own_cmd) (m : list (nat * own_cmd)) : option own_world :=
  let* o := deref w d in
  let* (o, l) := own_process_command hook delay o cmd in
  Some (set_thread (set_obj w d o) t (OwnThread m d l)).

Inductive own_step :=
| os_socket (tid : nat) (linger : Z)                      (** a socket is created *)
| os_call (o : nat) (c : own_call)                        (** an object acts, when its thread is free *)
| os_run (t : nat) (hook : list own_call) (delay : bool). (** a thread goes on, or takes a command *)

Definition own_do (w : own_world) (st : own_step) : option own_world :=
  match st with
  | os_socket tid linger =>
      Some (if bool_decide (tid < length (w_threads w))%nat then OwnWorld (w_objs w ++ [own_new tid None linger]) (w_threads w) else w)
  | os_call o c =>
      match w_objs w !! o with
      | Some ob =>
          match w_threads w !! ow_tid ob with
          | Some (OwnThread m _ []) => Some (if bool_decide (ow_phase ob = running) then set_thread w (ow_tid ob) (OwnThread m o [oi_call c]) else w)
          | _ => Some w
          end
      | None => Some w
      end
  | os_run t hook delay =>
      match w_threads w !! t with
      | Some (OwnThread _ this (i :: rest)) => exec_instr w t this i rest
      | Some (OwnThread ((d, cmd) :: m) _ []) => exec_command w t hook delay d cmd m
      | _ => Some w
      end
  end.

Fixpoint own_run (w : own_world) (l : list own_step) : option own_world :=
  match l with [] => Some w | st :: l' => let* w := own_do w st in own_run w l' end.

(** A context with [n] threads. *)
Definition own_init (n : nat) : own_world := OwnWorld [] (replicate n (OwnThread [] 0 [])).
