(* ===== verification/OwnInv.v ===== *)
(** * The invariant of the ownership tree of [Own]

    Each object that is owned is in exactly one place: announced by an
    [own] command, in the set of its owner, or told to terminate.  The
    acknowledgements an owner waits for and the sequence numbers of an
    object are the numbers of the commands that are on their way. *)

From Stdlib Require Import Bool.
From S2P Require Import Prelude Msg Own.

(** ** Sums over lists *)

Fixpoint zsum {A} (f : A -> Z) (l : list A) : Z := match l with [] => 0 | x :: l' => f x + zsum f l' end.

Lemma zsum_app {A} (f : A -> Z) l1 l2 : zsum f (l1 ++ l2) = zsum f l1 + zsum f l2.
Proof. induction l1 as [|x l1 IH]; simpl; lia. Qed.

Lemma zsum_insert {A} (f : A -> Z) l i x y : l !! i = Some x -> zsum f (<[i := y]> l) = zsum f l - f x + f y.
Proof.
  revert i. induction l as [|z l IH]; intros [|i] H; simplify_eq/=; [lia|]. rewrite (IH i H). lia.
Qed.

Lemma zsum_ext {A} (f g : A -> Z) l : (forall x, x ∈ l -> f x = g x) -> zsum f l = zsum g l.
Proof.
  induction l as [|x l IH]; intros H; [done|]. simpl. rewrite (H x) by constructor. rewrite IH; [done|]. intros y Hy. apply H. by constructor.
Qed.

Lemma zsum_nonneg {A} (f : A -> Z) l : (forall x, 0 <= f x) -> 0 <= zsum f l.
Proof. intros H. induction l as [|x l IH]; simpl; [lia|]. specialize (H x). lia. Qed.

Lemma zsum_elem {A} (f : A -> Z) l x : (forall x, 0 <= f x) -> x ∈ l -> f x <= zsum f l.
Proof.
  intros H. induction 1 as [x l|x y l Hx IH]; simpl; [pose proof (zsum_nonneg f l H); lia|]. specialize (H y). lia.
Qed.

Lemma zsum_zero {A} (f : A -> Z) l : (forall x, x ∈ l -> f x = 0) -> zsum f l = 0.
Proof.
  induction l as [|x l IH]; intros H; [done|]. simpl. rewrite (H x) by constructor. rewrite IH; [done|]. intros y Hy. apply H. by constructor.
Qed.

Lemma zsum_pos {A} (f : A -> Z) l : 0 < zsum f l -> exists x, x ∈ l /\ 0 < f x.
Proof.
  induction l as [|x l IH]; simpl; intros H; [lia|]. destruct (decide (0 < f x)) as [Hx|Hx]; [exists x; split; [constructor|done]|].
  destruct IH as (y & Hy & Hf); [lia|]. exists y. split; [by constructor|done].
Qed.

Lemma zsum_fmap {A B} (f : B -> Z) (h : A -> B) l : zsum f (h <$> l) = zsum (fun x => f (h x)) l.
Proof. induction l as [|x l IH]; [done|]. rewrite fmap_cons. cbn [zsum]. by rewrite IH. Qed.

(** How often [c] is in a list without duplicates. *)
Lemma zsum_member (c : nat) l : NoDup l -> zsum (fun x => if decide (x = c) then 1 else 0) l = if decide (c ∈ l) then 1 else 0.
Proof.
  induction 1 as [|x l Hx Hl IH]; [done|]. simpl. rewrite IH. destruct (decide (x = c)) as [->|Hne].
  - rewrite decide_False by done. by rewrite decide_True by constructor.
  - destruct (decide (c ∈ l)); [rewrite decide_True by by constructor|rewrite decide_False by (intros [->|?]%elem_of_cons; done)]; lia.
Qed.

Lemma zsum_const {A} (f : A -> Z) n l : (forall x, x ∈ l -> f x = n) -> zsum f l = n * Z.of_nat (length l).
Proof.
  induction l as [|x l IH]; intros H; [simpl; lia|]. cbn [zsum length]. rewrite (H x) by constructor. rewrite IH; [lia|]. intros y Hy. apply H. by constructor.
Qed.

(** ** Commands on their way *)

Definition owner_of (objs : list own_t) (c : nat) : option nat := let* o := objs !! c in ow_owner o.

Definition one (b : bool) : Z := if b then 1 else 0.

Definition cnt_own (c : nat) (m : nat * own_cmd) : Z := match m.2 with oc_own c' => one (bool_decide (c' = c)) | _ => 0 end.
Definition cnt_term (c : nat) (m : nat * own_cmd) : Z := match m.2 with oc_term _ => one (bool_decide (m.1 = c)) | _ => 0 end.
Definition cnt_ack (p : nat) (m : nat * own_cmd) : Z := match m.2 with oc_term_ack => one (bool_decide (m.1 = p)) | _ => 0 end.
(** [term] commands to the children of [p]. *)
Definition cnt_to (objs : list own_t) (p : nat) (m : nat * own_cmd) : Z := match m.2 with oc_term _ => one (bool_decide (owner_of objs m.1 = Some p)) | _ => 0 end.
(** Commands that carry a sequence number. *)
Definition cnt_seq (o : nat) (m : nat * own_cmd) : Z :=
  match m.2 with oc_plug | oc_own _ | oc_attach | oc_bind => one (bool_decide (m.1 = o)) | _ => 0 end.

Definition in_code (f : nat * own_cmd -> Z) (this : nat) (i : own_instr) : Z := match i with oi_send _ d cmd => f (d, cmd) | _ => 0 end.
(** A number taken for a command that is not sent yet, and the one that is being processed. *)
Definition seq_in_code (o this : nat) (i : own_instr) : Z :=
  match i with oi_send false d cmd => cnt_seq o (d, cmd) | oi_seqnum => one (bool_decide (this = o)) | _ => 0 end.

Definition th_sum (f : nat * own_cmd -> Z) (g : nat -> own_instr -> Z) (th : own_thread) : Z := zsum f (th_mailbox th) + zsum (g (th_this th)) (th_code th).

Definition on_way (f : nat * own_cmd -> Z) (ths : list own_thread) : Z := zsum (th_sum f (in_code f)) ths.
Definition seq_on_way (o : nat) (ths : list own_thread) : Z := zsum (th_sum (cnt_seq o) (seq_in_code o)) ths.

Lemma one_nonneg b : 0 <= one b.
Proof. by destruct b. Qed.

Lemma cnt_own_nonneg c m : 0 <= cnt_own c m.
Proof. unfold cnt_own. destruct m.2; try done. apply one_nonneg. Qed.
Lemma cnt_term_nonneg c m : 0 <= cnt_term c m.
Proof. unfold cnt_term. destruct m.2; try done. apply one_nonneg. Qed.
Lemma cnt_ack_nonneg c m : 0 <= cnt_ack c m.
Proof. unfold cnt_ack. destruct m.2; try done. apply one_nonneg. Qed.
Lemma cnt_to_nonneg objs c m : 0 <= cnt_to objs c m.
Proof. unfold cnt_to. destruct m.2; try done. apply one_nonneg. Qed.
Lemma cnt_seq_nonneg c m : 0 <= cnt_seq c m.
Proof. unfold cnt_seq. destruct m.2; try done; apply one_nonneg. Qed.

Create HintDb own.
#[export] Hint Resolve cnt_own_nonneg cnt_term_nonneg cnt_ack_nonneg cnt_to_nonneg cnt_seq_nonneg one_nonneg zsum_nonneg : own.

Lemma in_code_nonneg f this i : (forall m, 0 <= f m) -> 0 <= in_code f this i.
Proof. intros H. destruct i; simpl; auto; lia. Qed.
Lemma seq_in_code_nonneg o this i : 0 <= seq_in_code o this i.
Proof. destruct i as [[] d cmd| | | |]; simpl; auto with own; lia. Qed.

Lemma th_sum_nonneg f g th : (forall m, 0 <= f m) -> (forall t i, 0 <= g t i) -> 0 <= th_sum f g th.
Proof. intros Hf Hg. unfold th_sum. pose proof (zsum_nonneg f (th_mailbox th) Hf). pose proof (zsum_nonneg (g (th_this th)) (th_code th) (Hg _)). lia. Qed.

Lemma on_way_nonneg f ths : (forall m, 0 <= f m) -> 0 <= on_way f ths.
Proof. intros Hf. apply zsum_nonneg. intros th. apply th_sum_nonneg; [done|]. intros. by apply in_code_nonneg. Qed.
Lemma seq_on_way_nonneg o ths : 0 <= seq_on_way o ths.
Proof. apply zsum_nonneg. intros th. apply th_sum_nonneg; [auto with own|]. intros. apply seq_in_code_nonneg. Qed.

(** A command that is on its way is counted. *)
Lemma on_way_mail f ths t th m : (forall m, 0 <= f m) -> ths !! t = Some th -> m ∈ th_mailbox th -> f m <= on_way f ths.
Proof.
  intros Hf Ht Hm. pose proof (zsum_elem f _ m Hf Hm). pose proof (zsum_nonneg (in_code f (th_this th)) (th_code th) (fun i => in_code_nonneg f _ i Hf)).
  enough (th_sum f (in_code f) th <= on_way f ths) by (unfold th_sum in *; lia).
  apply (zsum_elem (th_sum f (in_code f))); [|by eapply list_elem_of_lookup_2]. intros. apply th_sum_nonneg; [done|]. intros. by apply in_code_nonneg.
Qed.
Lemma on_way_code f ths t th inc d cmd : (forall m, 0 <= f m) -> ths !! t = Some th -> oi_send inc d cmd ∈ th_code th -> f (d, cmd) <= on_way f ths.
Proof.
  intros Hf Ht Hm. pose proof (zsum_nonneg f (th_mailbox th) Hf). pose proof (zsum_elem (in_code f (th_this th)) (th_code th) _ (fun i => in_code_nonneg f _ i Hf) Hm) as H1.
  simpl in H1. enough (th_sum f (in_code f) th <= on_way f ths) by (unfold th_sum in *; lia).
  apply (zsum_elem (th_sum f (in_code f))); [|by eapply list_elem_of_lookup_2]. intros. apply th_sum_nonneg; [done|]. intros. by apply in_code_nonneg.
Qed.
Lemma seq_on_way_thread o ths t th : ths !! t = Some th -> th_sum (cnt_seq o) (seq_in_code o) th <= seq_on_way o ths.
Proof.
  intros Ht. apply (zsum_elem (th_sum (cnt_seq o) (seq_in_code o))); [|by eapply list_elem_of_lookup_2]. intros. apply th_sum_nonneg; [auto with own|]. intros. apply seq_in_code_nonneg.
Qed.
Lemma seq_on_way_mail o ths t th m : ths !! t = Some th -> m ∈ th_mailbox th -> cnt_seq o m <= seq_on_way o ths.
Proof.
  intros Ht Hm. pose proof (seq_on_way_thread o ths t th Ht). pose proof (zsum_elem (cnt_seq o) _ m (cnt_seq_nonneg o) Hm).
  pose proof (zsum_nonneg (seq_in_code o (th_this th)) (th_code th) (seq_in_code_nonneg o _)). unfold th_sum in *. lia.
Qed.
Lemma seq_on_way_code o ths t th i : ths !! t = Some th -> i ∈ th_code th -> seq_in_code o (th_this th) i <= seq_on_way o ths.
Proof.
  intros Ht Hm. pose proof (seq_on_way_thread o ths t th Ht). pose proof (zsum_nonneg (cnt_seq o) (th_mailbox th) (cnt_seq_nonneg o)).
  pose proof (zsum_elem (seq_in_code o (th_this th)) (th_code th) i (seq_in_code_nonneg o _) Hm). unfold th_sum in *. lia.
Qed.

Lemma on_way_set f ths t th th' : ths !! t = Some th ->
  on_way f (<[t := th']> ths) = on_way f ths - th_sum f (in_code f) th + th_sum f (in_code f) th'.
Proof. intros H. unfold on_way. by rewrite (zsum_insert _ _ _ th). Qed.
Lemma seq_on_way_set o ths t th th' : ths !! t = Some th ->
  seq_on_way o (<[t := th']> ths) = seq_on_way o ths - th_sum (cnt_seq o) (seq_in_code o) th + th_sum (cnt_seq o) (seq_in_code o) th'.
Proof. intros H. unfold seq_on_way. by rewrite (zsum_insert _ _ _ th). Qed.

(** ** The invariant *)

Section inv.
Context (objs : list own_t) (ths : list own_thread).

Definition is_running (o : nat) : Prop := exists ob, objs !! o = Some ob /\ ow_phase ob = running.

Definition owned_by_owner (c : nat) : Z :=
  match owner_of objs c with Some p => match objs !! p with Some ob => one (bool_decide (c ∈ ow_owned ob)) | None => 0 end | None => 0 end.

(** An owned object that has been told to terminate; a root terminates by itself. *)
Definition told_self (ob : own_t) : Z := one (ow_pending ob) + match ow_owner ob with Some _ => one (ow_terminating ob) | None => 0 end.

Definition told_child (p : nat) (ob : own_t) : Z :=
  if bool_decide (ow_owner ob = Some p) && bool_decide (ow_phase ob = running) then one (ow_pending ob) + one (ow_terminating ob) else 0.

Definition mail_ok (t : nat) (m : nat * own_cmd) : Prop :=
  exists ob, objs !! m.1 = Some ob /\ ow_tid ob = t /\ ow_phase ob = running /\
    match m.2 with oc_own c | oc_term_req c => owner_of objs c = Some m.1 | oc_term _ => is_Some (ow_owner ob) | _ => True end.

(** The object [c] still has to send its acknowledgement to [p]. *)
Definition ack_in_code (c p : nat) : Prop :=
  exists ob th, objs !! c = Some ob /\ ths !! ow_tid ob = Some th /\ th_this th = c /\ oi_send false p oc_term_ack ∈ th_code th.

(** A request of an object that is gone comes before its acknowledgement. *)
Fixpoint req_ok (m : list (nat * own_cmd)) : Prop :=
  match m with
  | [] => True
  | (d, oc_term_req c) :: m' => (is_running c \/ (d, oc_term_ack) ∈ m' \/ ack_in_code c d) /\ req_ok m'
  | _ :: m' => req_ok m'
  end.

Definition instr_ok (this : nat) (i : own_instr) (rest : list own_instr) : Prop :=
  match i with
  | oi_send inc d cmd =>
      is_running d /\
      match inc, cmd with
      | true, oc_plug => owner_of objs d = Some this /\ oi_send true this (oc_own d) ∈ rest
      | true, oc_own c => d = this /\ owner_of objs c = Some this
      | true, oc_attach => owner_of objs this = Some d
      | false, oc_attach | false, oc_bind => True
      | false, oc_term _ => owner_of objs d = Some this
      | false, oc_term_req c => c = this /\ owner_of objs this = Some d
      | _, _ => False
      end
  | oi_call _ | oi_check => rest = [] \/ oi_seqnum ∈ rest
  | oi_seqnum => rest = []
  | oi_destroy => False
  end.

Fixpoint code_ok (this : nat) (code : list own_instr) : Prop :=
  match code with [] => True | i :: rest => instr_ok this i rest /\ code_ok this rest end.

Definition thread_ok (t : nat) (th : own_thread) : Prop :=
  th_code th = [] \/
  exists ob, objs !! th_this th = Some ob /\ ow_tid ob = t /\
    (ow_phase ob = running /\ code_ok (th_this th) (th_code th) \/
     ow_phase ob = finishing /\
       (th_code th = [oi_destroy] \/ exists p, ow_owner ob = Some p /\ is_running p /\ th_code th = [oi_send false p oc_term_ack; oi_destroy])).

Definition checking (o : nat) (ob : own_t) : Prop := exists th, ths !! ow_tid ob = Some th /\ th_this th = o /\ oi_check ∈ th_code th.

Record obj_ok (k : Z) (c : nat) (ob : own_t) : Prop := {
  oo_tid : (ow_tid ob < length ths)%nat;
  oo_owner p : ow_owner ob = Some p -> (p < c)%nat;
  oo_owned x : x ∈ ow_owned ob -> owner_of objs x = Some c;
  oo_once : on_way (cnt_own c) ths + owned_by_owner c + on_way (cnt_term c) ths + told_self ob = match ow_owner ob with Some _ => 1 | None => 0 end;
  oo_acks : ow_term_acks ob = ow_events ob + zsum (told_child c) objs + on_way (cnt_to objs c) ths + on_way (cnt_ack c) ths;
  oo_events : 0 <= ow_events ob;
  oo_seq : ow_sent_seqnum ob = ow_processed_seqnum ob + seq_on_way c ths;
  oo_bound : 0 <= ow_processed_seqnum ob /\ ow_sent_seqnum ob <= k;
  oo_done : ow_phase ob <> running ->
    ow_terminating ob = true /\ ow_processed_seqnum ob = ow_sent_seqnum ob /\ ow_term_acks ob = 0 /\ ow_owned ob = ∅;
  oo_wait : ow_phase ob = running -> ow_terminating ob = true ->
    ow_processed_seqnum ob <> ow_sent_seqnum ob \/ ow_term_acks ob <> 0 \/ checking c ob;
  oo_finishing : ow_phase ob = finishing -> exists th, ths !! ow_tid ob = Some th /\ th_this th = c /\ oi_destroy ∈ th_code th;
  oo_told : ow_terminating ob = true -> ow_owned ob = ∅;
}.

Record own_inv (k : Z) : Prop := {
  iv_obj c ob : objs !! c = Some ob -> obj_ok k c ob;
  iv_mail t th m : ths !! t = Some th -> m ∈ th_mailbox th -> mail_ok t m;
  iv_req t th : ths !! t = Some th -> req_ok (th_mailbox th);
  iv_thread t th : ths !! t = Some th -> thread_ok t th;
}.

End inv.
