(* ===== verification/OwnSteps.v ===== *)
(** * The steps of [Own] preserve the invariant of [OwnInv] *)

From Stdlib Require Import Bool.
From S2P Require Import Prelude Msg Own OwnInv.

(** ** What does not change *)

Definition skel (ob : own_t) : nat * option nat * bool := (ow_tid ob, ow_owner ob, bool_decide (ow_phase ob = running)).

Lemma same_skel ob ob' : skel ob' = skel ob -> ow_tid ob' = ow_tid ob /\ ow_owner ob' = ow_owner ob /\ (ow_phase ob' = running <-> ow_phase ob = running).
Proof. unfold skel. intros [= -> -> E]. split; [done|]. split; [done|]. do 2 case_bool_decide; try done; tauto. Qed.

Section same.
Context (objs : list own_t) (d : nat) (ob ob' : own_t) (Hd : objs !! d = Some ob) (Hsk : skel ob' = skel ob).

Lemma set_lookup c x : <[d := ob']> objs !! c = Some x -> exists y, objs !! c = Some y /\ skel x = skel y /\ (c = d /\ x = ob' /\ y = ob \/ c <> d /\ x = y).
Proof.
  intros H. destruct (decide (c = d)) as [->|Hne].
  - rewrite list_lookup_insert_eq in H by (by eapply lookup_lt_Some). injection H as <-. exists ob. split; [done|]. split; [done|]. by left.
  - rewrite list_lookup_insert_ne in H by done. exists x. split; [done|]. split; [done|]. by right.
Qed.

Lemma set_lookup_rev c y : objs !! c = Some y -> exists x, <[d := ob']> objs !! c = Some x /\ skel x = skel y /\ (c = d \/ x = y).
Proof.
  intros H. destruct (decide (c = d)) as [->|Hne].
  - assert (y = ob) as -> by congruence. exists ob'. rewrite list_lookup_insert_eq by (by eapply lookup_lt_Some). by split_and!; [..|left].
  - exists y. rewrite list_lookup_insert_ne by done. by split_and!; [..|right].
Qed.

Lemma set_owner_of c : owner_of (<[d := ob']> objs) c = owner_of objs c.
Proof.
  unfold owner_of. destruct (objs !! c) as [y|] eqn:E.
  - destruct (set_lookup_rev c y E) as (x & -> & Hs & _). apply same_skel in Hs as (_ & E2 & _). exact E2.
  - destruct (decide (c = d)) as [->|]; [congruence|]. by rewrite list_lookup_insert_ne, E.
Qed.

Lemma set_running c : is_running (<[d := ob']> objs) c <-> is_running objs c.
Proof.
  split.
  - intros (x & Hx & Hp). destruct (set_lookup c x Hx) as (y & Hy & Hs & _). exists y. apply same_skel in Hs as (_ & _ & Hs). tauto.
  - intros (y & Hy & Hp). destruct (set_lookup_rev c y Hy) as (x & Hx & Hs & _). exists x. apply same_skel in Hs as (_ & _ & Hs). tauto.
Qed.

Lemma set_mail_ok t m : mail_ok objs t m -> mail_ok (<[d := ob']> objs) t m.
Proof.
  intros (y & Hy & Ht & Hp & Hm). destruct (set_lookup_rev m.1 y Hy) as (x & Hx & Hs & _). apply same_skel in Hs as (E1 & E2 & E3).
  exists x. split; [done|]. split; [congruence|]. split; [tauto|]. rewrite E2. destruct m as [? []]; simpl in *; by rewrite ?set_owner_of.
Qed.

Lemma set_code_ok this code : code_ok objs this code -> code_ok (<[d := ob']> objs) this code.
Proof.
  induction code as [|i rest IH]; [done|]. intros [Hi Hr]. split; [|auto]. destruct i as [inc dd cmd| | | |]; try done. destruct Hi as [H1 H2].
  split; [by apply set_running|]. destruct inc, cmd; rewrite ?set_owner_of; done.
Qed.

Lemma set_cnt_to ths p : on_way (cnt_to (<[d := ob']> objs) p) ths = on_way (cnt_to objs p) ths.
Proof.
  assert (forall m, cnt_to (<[d := ob']> objs) p m = cnt_to objs p m) as H by (intros [? []]; unfold cnt_to; simpl; by rewrite ?set_owner_of).
  apply zsum_ext. intros th _. unfold th_sum. f_equal; apply zsum_ext; [done|]. intros [] _; simpl; auto.
Qed.

Lemma set_tsum_to th p : th_sum (cnt_to (<[d := ob']> objs) p) (in_code (cnt_to (<[d := ob']> objs) p)) th = th_sum (cnt_to objs p) (in_code (cnt_to objs p)) th.
Proof. pose proof (set_cnt_to [th] p) as E. unfold on_way in E. cbn [zsum] in E. lia. Qed.

Lemma set_told_child p : zsum (told_child p) (<[d := ob']> objs) = zsum (told_child p) objs - told_child p ob + told_child p ob'.
Proof. by rewrite (zsum_insert _ _ _ ob). Qed.
End same.

Lemma code_ok_no_ack objs this code p : code_ok objs this code -> oi_send false p oc_term_ack ∉ code.
Proof.
  induction code as [|i rest IH]; intros H Hin; [by apply not_elem_of_nil in Hin|]. destruct H as [Hi Hr].
  apply elem_of_cons in Hin as [<-|Hin]; [by destruct Hi|by apply IH].
Qed.
Lemma code_ok_no_destroy objs this code : code_ok objs this code -> oi_destroy ∉ code.
Proof.
  induction code as [|i rest IH]; intros H Hin; [by apply not_elem_of_nil in Hin|]. destruct H as [Hi Hr].
  apply elem_of_cons in Hin as [<-|Hin]; [done|by apply IH].
Qed.

(** The handler of an object that runs is the code of its thread. *)
Lemma running_code objs ths k t th d ob : own_inv objs ths k -> ths !! t = Some th -> objs !! d = Some ob -> ow_phase ob = running ->
  th_this th = d -> code_ok objs d (th_code th).
Proof.
  intros Hi Ht Hd Hp <-. destruct (iv_thread _ _ _ Hi t th Ht) as [->|(ob1 & H1 & _ & [[_ H2]|[H2 _]])]; [done|done|congruence].
Qed.

Abbreviation tsum f th := (th_sum f (in_code f) th).
Abbreviation tseq o th := (th_sum (cnt_seq o) (seq_in_code o) th).

(** ** A step of an object on its own thread *)

Section local.
Context (k : Z) (objs : list own_t) (ths : list own_thread) (t : nat) (th : own_thread) (d : nat) (ob ob' : own_t).
Context (Hi : own_inv objs ths k) (Ht : ths !! t = Some th) (Hd : objs !! d = Some ob) (Htid : ow_tid ob = t) (Hph : ow_phase ob = running).
Context (Hthis : th_code th = [] \/ th_this th = d) (Hsk : skel ob' = skel ob).

Abbreviation objs' := (<[d := ob']> objs).

(** Whoever waits for this thread to go on is the object itself. *)
Lemma other_code c th' : c <> d -> th_this th' = d -> forall i, ths !! t = Some th -> th_this th = c -> i ∉ th_code th.
Proof. intros Hc Hth' i _ Hc' Hin. destruct Hthis as [E|E]; [rewrite E in Hin; by apply not_elem_of_nil in Hin|congruence]. Qed.

Lemma local_ack_in_code c p m1 l1 : ack_in_code objs ths c p -> ack_in_code objs' (<[t := OwnThread m1 d l1]> ths) c p.
Proof.
  intros (x & th1 & Hx & Ht1 & Hc & Hin). destruct (set_lookup_rev objs d ob ob' Hd Hsk c x Hx) as (y & Hy & Hs & _). apply same_skel in Hs as (E & _ & _).
  exists y, th1. rewrite E. split; [done|]. split; [|done]. rewrite list_lookup_insert_ne; [done|]. intros Et. rewrite <- Et, Ht in Ht1. injection Ht1 as <-.
  destruct Hthis as [E1|E1]; [rewrite E1 in Hin; by apply not_elem_of_nil in Hin|]. 
  exact (code_ok_no_ack _ _ _ p (running_code _ _ _ _ _ _ _ Hi Ht Hd Hph E1) Hin).
Qed.

Lemma local_req_ok m1 l1 m : req_ok objs ths m -> req_ok objs' (<[t := OwnThread m1 d l1]> ths) m.
Proof.
  induction m as [|[dd cmd] m IH]; [done|]. destruct cmd; cbn [req_ok]; auto. intros [H1 H2]. split; [|auto].
  destruct H1 as [H1|[H1|H1]]; [left; by apply (set_running objs d ob ob')|by right; left|right; right; by apply local_ack_in_code].
Qed.

Lemma req_ok_app m1 m2 : req_ok objs ths (m1 ++ m2) -> req_ok objs ths m2.
Proof. induction m1 as [|[dd cmd] m1 IH]; [done|]. intros H. apply IH. destruct cmd; cbn [app req_ok] in H; tauto. Qed.

Context (pop m1 : list (nat * own_cmd)) (l1 : list own_instr) (Hm : th_mailbox th = pop ++ m1).
Abbreviation th' := (OwnThread m1 d l1).
Context (Hown : forall x, x ∈ ow_owned ob' -> owner_of objs x = Some d).
Context (Honce : forall c, c <> d -> tsum (cnt_own c) th' + tsum (cnt_term c) th' + one (bool_decide (c ∈ ow_owned ob')) =
  tsum (cnt_own c) th + tsum (cnt_term c) th + one (bool_decide (c ∈ ow_owned ob))).
Context (Hself : tsum (cnt_own d) th' + tsum (cnt_term d) th' + told_self ob' = tsum (cnt_own d) th + tsum (cnt_term d) th + told_self ob).
Context (Hacks : forall p, (if decide (p = d) then (ow_term_acks ob' - ow_events ob') - (ow_term_acks ob - ow_events ob) else 0) =
  (told_child p ob' - told_child p ob) + (tsum (cnt_to objs p) th' - tsum (cnt_to objs p) th) + (tsum (cnt_ack p) th' - tsum (cnt_ack p) th)).
Context (Hev : 0 <= ow_events ob').
Context (Hseq : forall o, (if decide (o = d) then (ow_sent_seqnum ob' - ow_processed_seqnum ob') - (ow_sent_seqnum ob - ow_processed_seqnum ob) else 0) = tseq o th' - tseq o th).
Context (Hbound : 0 <= ow_processed_seqnum ob' /\ ow_sent_seqnum ob' <= k).
Context (Hwait : ow_terminating ob' = true -> ow_processed_seqnum ob' <> ow_sent_seqnum ob' \/ ow_term_acks ob' <> 0 \/ oi_check ∈ l1).
Context (Htold : ow_terminating ob' = true -> ow_owned ob' = ∅).
Context (Hcode : code_ok objs d l1).

Abbreviation ths' := (<[t := th']> ths).

Lemma local_other c x : c <> d -> objs !! c = Some x -> obj_ok objs' ths' k c x.
Proof.
  intros Hc Hx. pose proof (iv_obj _ _ _ Hi c x Hx) as Ho. pose proof (Hseq c) as Hs. rewrite decide_False in Hs by done. pose proof (Hacks c) as Ha. rewrite decide_False in Ha by done.
  constructor; try apply Ho.
  - rewrite length_insert. apply Ho.
  - intros y Hy. rewrite (set_owner_of objs d ob ob' Hd Hsk). by apply Ho.
  - rewrite !(on_way_set _ _ _ th) by done. rewrite <- (oo_once _ _ _ _ _ Ho).
    enough (owned_by_owner objs' c + (tsum (cnt_own c) th' + tsum (cnt_term c) th') = owned_by_owner objs c + (tsum (cnt_own c) th + tsum (cnt_term c) th)) by lia.
    pose proof (Honce c Hc) as H1. unfold owned_by_owner. rewrite (set_owner_of objs d ob ob' Hd Hsk).
    destruct (owner_of objs c) as [p|] eqn:Eo.
    + destruct (decide (p = d)) as [->|Hpd]; [rewrite list_lookup_insert_eq by (by eapply lookup_lt_Some); rewrite Hd; lia|].
      rewrite list_lookup_insert_ne by done.
      rewrite !bool_decide_false in H1; [simpl in H1; lia| |].
      * intros Hin. pose proof (oo_owned _ _ _ _ _ (iv_obj _ _ _ Hi d ob Hd) c Hin). congruence.
      * intros Hin. pose proof (Hown c Hin). congruence.
    + rewrite !bool_decide_false in H1; [simpl in H1; lia| |].
      * intros Hin. pose proof (oo_owned _ _ _ _ _ (iv_obj _ _ _ Hi d ob Hd) c Hin). congruence.
      * intros Hin. pose proof (Hown c Hin). congruence.
  - rewrite !(on_way_set _ _ _ th) by done. rewrite !(set_cnt_to objs d ob ob' Hd Hsk), (set_told_child objs d ob ob' Hd). rewrite (oo_acks _ _ _ _ _ Ho).
    rewrite !(set_tsum_to objs d ob ob' Hd Hsk). lia.
  - rewrite (seq_on_way_set _ _ _ th) by done. rewrite (oo_seq _ _ _ _ _ Ho). lia.
  - intros H1 H2. destruct (oo_wait _ _ _ _ _ Ho H1 H2) as [H|[H|(th1 & H3 & H4 & H5)]]; [by left|by right; left|right; right].
    exists th1. split; [|done]. rewrite list_lookup_insert_ne; [done|]. intros Et. rewrite <- Et, Ht in H3. injection H3 as <-.
    by apply (other_code c th' Hc eq_refl _ Ht H4) in H5.
  - intros H1. destruct (oo_finishing _ _ _ _ _ Ho H1) as (th1 & H3 & H4 & H5). exists th1. split; [|done].
    rewrite list_lookup_insert_ne; [done|]. intros Et. rewrite <- Et, Ht in H3. injection H3 as <-.
    by apply (other_code c th' Hc eq_refl _ Ht H4) in H5.
Qed.

Lemma local_self : obj_ok objs' ths' k d ob'.
Proof.
  pose proof (iv_obj _ _ _ Hi d ob Hd) as Ho. destruct (same_skel _ _ Hsk) as (E1 & E2 & E3).
  pose proof (Hseq d) as Hs. rewrite decide_True in Hs by done. pose proof (Hacks d) as Ha. rewrite decide_True in Ha by done.
  constructor.
  - rewrite length_insert, E1. apply Ho.
  - rewrite E2. apply Ho.
  - intros y Hy. rewrite (set_owner_of objs d ob ob' Hd Hsk). by apply Hown.
  - rewrite !(on_way_set _ _ _ th) by done. rewrite E2, <- (oo_once _ _ _ _ _ Ho). enough (owned_by_owner objs' d = owned_by_owner objs d) by lia.
    unfold owned_by_owner. rewrite (set_owner_of objs d ob ob' Hd Hsk). destruct (owner_of objs d) as [p|] eqn:Eo; [|done].
    unfold owner_of in Eo. rewrite Hd in Eo. cbn [mbind option_bind] in Eo. pose proof (oo_owner _ _ _ _ _ Ho p Eo). by rewrite list_lookup_insert_ne by lia.
  - rewrite !(on_way_set _ _ _ th) by done. rewrite !(set_cnt_to objs d ob ob' Hd Hsk), (set_told_child objs d ob ob' Hd). pose proof (oo_acks _ _ _ _ _ Ho).
    rewrite !(set_tsum_to objs d ob ob' Hd Hsk). lia.
  - done.
  - rewrite (seq_on_way_set _ _ _ th) by done. pose proof (oo_seq _ _ _ _ _ Ho). lia.
  - done.
  - tauto.
  - intros _ H2. destruct (Hwait H2) as [H|[H|H]]; [by left|by right; left|right; right]. exists th'. rewrite E1, Htid.
    split; [|done]. apply list_lookup_insert_eq. by eapply lookup_lt_Some.
  - intros Hf. apply E3 in Hph. congruence.
  - done.
Qed.

Lemma local_step : own_inv objs' ths' k.
Proof.
  constructor.
  - intros c x Hx. destruct (set_lookup objs d ob ob' Hd Hsk c x Hx) as (y & Hy & _ & [(-> & -> & ->)|[Hne ->]]); [apply local_self|by apply local_other].
  - intros t1 th1 m Ht1 Hm1. apply (set_mail_ok objs d ob ob' Hd Hsk). destruct (decide (t1 = t)) as [->|Hne].
    + rewrite list_lookup_insert_eq in Ht1 by (by eapply lookup_lt_Some). injection Ht1 as <-. apply (iv_mail _ _ _ Hi t th m Ht). rewrite Hm. apply elem_of_app. by right.
    + rewrite list_lookup_insert_ne in Ht1 by done. by apply (iv_mail _ _ _ Hi t1 th1).
  - intros t1 th1 Ht1. apply local_req_ok. destruct (decide (t1 = t)) as [->|Hne].
    + rewrite list_lookup_insert_eq in Ht1 by (by eapply lookup_lt_Some). injection Ht1 as <-. apply (req_ok_app pop). cbn [th_mailbox]. rewrite <- Hm. by apply (iv_req _ _ _ Hi t th).
    + rewrite list_lookup_insert_ne in Ht1 by done. by apply (iv_req _ _ _ Hi t1 th1).
  - intros t1 th1 Ht1. destruct (decide (t1 = t)) as [->|Hne].
    + rewrite list_lookup_insert_eq in Ht1 by (by eapply lookup_lt_Some). injection Ht1 as <-. right. exists ob'. destruct (same_skel _ _ Hsk) as (E1 & E2 & E3).
      cbn [th_this th_code]. rewrite list_lookup_insert_eq by (by eapply lookup_lt_Some). split; [done|]. split; [congruence|]. left. split; [tauto|].
      by apply (set_code_ok objs d ob ob').
    + rewrite list_lookup_insert_ne in Ht1 by done. destruct (iv_thread _ _ _ Hi t1 th1 Ht1) as [E|(x & Hx & Etx & Hcase)]; [by left|right].
      destruct (set_lookup_rev objs d ob ob' Hd Hsk _ x Hx) as (y & Hy & Hs & Hxy). destruct (same_skel _ _ Hs) as (F1 & F2 & F3). exists y. split; [done|]. split; [congruence|].
      destruct Hcase as [[G1 G2]|[G1 G2]]; [left|right].
      * split; [tauto|]. by apply (set_code_ok objs d ob ob').
      * split; [destruct Hxy as [Hxy| ->]; [|done]; rewrite Hxy, Hd in Hx; congruence|]. destruct G2 as [G2|(p & G2 & G3 & G4)]; [by left|right]. exists p. split; [congruence|]. split; [|done]. by apply (set_running objs d ob ob').
Qed.
End local.

(** ** The effect of a handler: the object after, the code it leaves, the command it took *)

Definition lost (m : option (nat * own_cmd)) (f : nat * own_cmd -> Z) : Z := match m with Some m => f m | None => 0 end.
Definition keeps (ob ob' : own_t) : Prop :=
  ow_terminating ob' = ow_terminating ob /\ ow_processed_seqnum ob' = ow_processed_seqnum ob /\ ow_sent_seqnum ob' = ow_sent_seqnum ob /\ ow_term_acks ob' = ow_term_acks ob.

Record effect (k : Z) (objs : list own_t) (d : nat) (ob ob' : own_t) (l : list own_instr) (m : option (nat * own_cmd)) (seqs : Z) : Prop := {
  ef_skel : skel ob' = skel ob;
  ef_owned x : x ∈ ow_owned ob' -> owner_of objs x = Some d;
  ef_once c : c <> d -> zsum (in_code (cnt_own c) d) l + zsum (in_code (cnt_term c) d) l + one (bool_decide (c ∈ ow_owned ob')) =
    lost m (cnt_own c) + lost m (cnt_term c) + one (bool_decide (c ∈ ow_owned ob));
  ef_self : zsum (in_code (cnt_own d) d) l + zsum (in_code (cnt_term d) d) l + told_self ob' = lost m (cnt_own d) + lost m (cnt_term d) + told_self ob;
  ef_acks p : (if decide (p = d) then (ow_term_acks ob' - ow_events ob') - (ow_term_acks ob - ow_events ob) else 0) =
    (told_child p ob' - told_child p ob) + (zsum (in_code (cnt_to objs p) d) l - lost m (cnt_to objs p)) + (zsum (in_code (cnt_ack p) d) l - lost m (cnt_ack p));
  ef_events : 0 <= ow_events ob';
  ef_seq o : (if decide (o = d) then (ow_sent_seqnum ob' - ow_processed_seqnum ob') - (ow_sent_seqnum ob - ow_processed_seqnum ob) else 0) =
    zsum (seq_in_code o d) l - lost m (cnt_seq o) - (if decide (o = d) then seqs else 0);
  ef_bound : 0 <= ow_processed_seqnum ob' /\ ow_sent_seqnum ob' <= k;
  ef_wait : ow_terminating ob' = true -> ow_processed_seqnum ob' <> ow_sent_seqnum ob' \/ ow_term_acks ob' <> 0 \/ oi_check ∈ l \/ keeps ob ob';
  ef_told : ow_terminating ob' = true -> ow_owned ob' = ∅;
  ef_code rest : (rest = [] \/ m = None /\ oi_seqnum ∈ rest) -> code_ok objs d rest -> code_ok objs d (l ++ rest);
}.

(** A call of the handler. *)
Lemma effect_instr k objs ths t th d ob ob' i rest l seqs : own_inv objs ths k -> ths !! t = Some th -> objs !! d = Some ob -> ow_tid ob = t -> ow_phase ob = running ->
  th_this th = d -> th_code th = i :: rest -> effect k objs d ob ob' l None seqs ->
  (forall f, in_code f d i = 0) -> (forall o, seq_in_code o d i = if decide (o = d) then seqs else 0) -> (i = oi_check -> ~ keeps ob ob' \/ ow_terminating ob' = false \/ ow_processed_seqnum ob' <> ow_sent_seqnum ob' \/ ow_term_acks ob' <> 0) ->
  own_inv (<[d := ob']> objs) (<[t := OwnThread (th_mailbox th) d (l ++ rest)]> ths) k.
Proof.
  intros Hi Ht Hd Htid Hph Hthis Hc He Hf Hg Hck.
  assert (forall f l', th_sum f (in_code f) (OwnThread (th_mailbox th) d (l' ++ rest)) = zsum f (th_mailbox th) + zsum (in_code f d) l' + zsum (in_code f d) rest) as E1
    by (intros; unfold th_sum; cbn [th_mailbox th_this th_code]; rewrite zsum_app; lia).
  assert (forall f, th_sum f (in_code f) th = zsum f (th_mailbox th) + zsum (in_code f d) rest) as E2
    by (intros f; unfold th_sum; rewrite Hc, Hthis; cbn [zsum]; rewrite Hf; lia).
  assert (code_ok objs d (i :: rest)) as Hok by (rewrite <- Hc; by eapply running_code).
  assert (rest = [] \/ oi_seqnum ∈ rest) as Hr.
  { destruct Hok as [Hok _]. destruct i as [inc dd cmd| | | |]; simpl in Hok; try tauto. specialize (Hf (fun _ => 1)). simpl in Hf. lia. }
  apply (local_step k objs ths t th d ob ob' Hi Ht Hd Htid Hph (or_intror Hthis) (ef_skel _ _ _ _ _ _ _ _ He) [] (th_mailbox th) (l ++ rest) eq_refl).
  - apply He.
  - intros c Hne. rewrite !E1, !E2. pose proof (ef_once _ _ _ _ _ _ _ _ He c Hne). simpl in *. lia.
  - rewrite !E1, !E2. pose proof (ef_self _ _ _ _ _ _ _ _ He). simpl in *. lia.
  - intros p. rewrite !E1, !E2. pose proof (ef_acks _ _ _ _ _ _ _ _ He p). simpl in *. lia.
  - apply He.
  - intros o. unfold th_sum. cbn [th_mailbox th_this th_code]. rewrite Hc, Hthis, zsum_app. cbn [zsum]. rewrite Hg. pose proof (ef_seq _ _ _ _ _ _ _ _ He o). simpl in *. lia.
  - apply He.
  - intros Htm. destruct (ef_wait _ _ _ _ _ _ _ _ He Htm) as [H|[H|[H|H]]]; [by left|by right; left|right; right; apply elem_of_app; by left|].
    destruct H as (K1 & K2 & K3 & K4). rewrite Htm in K1.
    destruct (oo_wait _ _ _ _ _ (iv_obj _ _ _ Hi d ob Hd) Hph (eq_sym K1)) as [H|[H|(th1 & H1 & H2 & H3)]]; [left; congruence|right; left; congruence|].
    rewrite Htid, Ht in H1. injection H1 as <-. rewrite Hc in H3. apply elem_of_cons in H3 as [H3|H3]; [|right; right; apply elem_of_app; by right].
    destruct (Hck (eq_sym H3)) as [H|[H|[H|H]]]; [destruct H; unfold keeps; rewrite Htm; tauto|congruence|by left|by right; left].
  - apply He.
  - apply He; [tauto|]. by destruct Hok.
Qed.

(** A command. *)
Lemma effect_command k objs ths t th d ob ob' cmd m l : own_inv objs ths k -> ths !! t = Some th -> objs !! d = Some ob -> ow_tid ob = t -> ow_phase ob = running ->
  th_code th = [] -> th_mailbox th = (d, cmd) :: m -> effect k objs d ob ob' l (Some (d, cmd)) 0 ->
  own_inv (<[d := ob']> objs) (<[t := OwnThread m d l]> ths) k.
Proof.
  intros Hi Ht Hd Htid Hph Hc Hm He.
  assert (forall f, th_sum f (in_code f) (OwnThread m d l) = zsum f m + zsum (in_code f d) l) as E1 by done.
  assert (forall f, th_sum f (in_code f) th = f (d, cmd) + zsum f m) as E2 by (intros f; unfold th_sum; rewrite Hc, Hm; cbn [zsum]; lia).
  apply (local_step k objs ths t th d ob ob' Hi Ht Hd Htid Hph (or_introl Hc) (ef_skel _ _ _ _ _ _ _ _ He) [(d, cmd)] m l Hm).
  - apply He.
  - intros c Hne. rewrite !E1, !E2. pose proof (ef_once _ _ _ _ _ _ _ _ He c Hne). simpl in *. lia.
  - rewrite !E1, !E2. pose proof (ef_self _ _ _ _ _ _ _ _ He). simpl in *. lia.
  - intros p. rewrite !E1, !E2. pose proof (ef_acks _ _ _ _ _ _ _ _ He p). simpl in *. lia.
  - apply He.
  - intros o. unfold th_sum. cbn [th_mailbox th_this th_code]. rewrite Hc, Hm. cbn [zsum]. pose proof (ef_seq _ _ _ _ _ _ _ _ He o). simpl in *. destruct (decide (o = d)); lia.
  - apply He.
  - intros Htm. destruct (ef_wait _ _ _ _ _ _ _ _ He Htm) as [H|[H|[H|H]]]; [by left|by right; left|by right; right|].
    destruct H as (K1 & K2 & K3 & K4). rewrite Htm in K1.
    destruct (oo_wait _ _ _ _ _ (iv_obj _ _ _ Hi d ob Hd) Hph (eq_sym K1)) as [H|[H|(th1 & H1 & H2 & H3)]]; [left; congruence|right; left; congruence|].
    rewrite Htid, Ht in H1. injection H1 as <-. rewrite Hc in H3. by apply not_elem_of_nil in H3.
  - apply He.
  - rewrite <- (app_nil_r l). apply He; [by left|done].
Qed.

(** ** Who is still there *)

Lemma on_way_pos f ths : 0 < on_way f ths -> exists t th, ths !! t = Some th /\
  ((exists m, m ∈ th_mailbox th /\ 0 < f m) \/ (exists inc d cmd, oi_send inc d cmd ∈ th_code th /\ 0 < f (d, cmd))).
Proof.
  intros H. apply zsum_pos in H as (th & Hin & H). apply list_elem_of_lookup in Hin as [t Ht]. exists t, th. split; [done|]. unfold th_sum in H.
  destruct (decide (0 < zsum f (th_mailbox th))) as [H1|H1]; [left; by apply zsum_pos|right].
  assert (0 < zsum (in_code f (th_this th)) (th_code th)) as H2 by lia. apply zsum_pos in H2 as (i & Hin & H2). destruct i as [inc d cmd| | | |]; simpl in H2; try lia. eauto.
Qed.

Lemma one_pos b : 0 < one b -> b = true.
Proof. by destruct b. Qed.

Lemma code_send objs ths k t th inc d cmd : own_inv objs ths k -> ths !! t = Some th -> oi_send inc d cmd ∈ th_code th ->
  (cmd <> oc_term_ack -> is_running objs (th_this th) /\ exists rest, instr_ok objs (th_this th) (oi_send inc d cmd) rest /\ rest ⊆ th_code th) /\ is_running objs d.
Proof.
  intros Hi Ht Hin. destruct (iv_thread _ _ _ Hi t th Ht) as [E|(x & Hx & Etx & [[G1 G2]|[G1 G2]])]; [rewrite E in Hin; by apply not_elem_of_nil in Hin| |].
  - assert (exists rest, instr_ok objs (th_this th) (oi_send inc d cmd) rest /\ rest ⊆ th_code th) as [rest [Hr Hsub]].
    { revert Hin G2. generalize (th_code th) as l. induction l as [|i l IH]; intros Hin G2; [by apply not_elem_of_nil in Hin|]. destruct G2 as [G2 G3].
      apply elem_of_cons in Hin as [<-|Hin]; [exists l; split; [done|]|destruct (IH Hin G3) as (r & R1 & R2); exists r; split; [done|]]; intros y Hy; constructor; auto. }
    split; [|by destruct Hr]. intros _. split; [by exists x|]. by exists rest.
  - destruct G2 as [G2|(p & G2 & G3 & G4)]; rewrite ?G2, ?G4 in Hin; [by apply list_elem_of_singleton in Hin|].
    apply elem_of_cons in Hin as [[= -> -> ->]|Hin]; [|by apply list_elem_of_singleton in Hin]. by split.
Qed.

Lemma told_child_nonneg p x : 0 <= told_child p x.
Proof. unfold told_child. destruct (_ && _); [|lia]. pose proof (one_nonneg (ow_pending x)). pose proof (one_nonneg (ow_terminating x)). lia. Qed.

Lemma cnt_to_term objs p c l : cnt_to objs p (c, oc_term l) = one (bool_decide (owner_of objs c = Some p)).
Proof. done. Qed.

(** An object that waits for nobody has no child that runs, but one that is being announced. *)
Lemma child_announced objs ths k c ob p pb : own_inv objs ths k -> objs !! c = Some ob -> ow_phase ob = running -> ow_owner ob = Some p ->
  objs !! p = Some pb -> ow_term_acks pb = 0 -> ow_owned pb = ∅ -> 0 < on_way (cnt_own c) ths.
Proof.
  intros Hi Hc Hph Hp Epb D3 D4. pose proof (iv_obj _ _ _ Hi c ob Hc) as Ho. pose proof (oo_once _ _ _ _ _ Ho) as H1. rewrite Hp in H1.
  assert (owner_of objs c = Some p) as Hoc by (unfold owner_of; by rewrite Hc).
  pose proof (iv_obj _ _ _ Hi p pb Epb) as Hpo. pose proof (oo_acks _ _ _ _ _ Hpo) as H2. pose proof (oo_events _ _ _ _ _ Hpo).
  pose proof (zsum_elem (told_child p) objs ob (told_child_nonneg p)) as H3. specialize (H3 ltac:(by eapply list_elem_of_lookup_2)).
  pose proof (on_way_nonneg (cnt_to objs p) ths (cnt_to_nonneg objs p)). pose proof (on_way_nonneg (cnt_ack p) ths (cnt_ack_nonneg p)).
  assert (told_child p ob = one (ow_pending ob) + one (ow_terminating ob)) as E3 by (unfold told_child; by rewrite (bool_decide_true _ Hp), (bool_decide_true _ Hph)).
  unfold told_self in H1. rewrite Hp in H1.
  assert (owned_by_owner objs c = 0) as E by (unfold owned_by_owner; rewrite Hoc, Epb, D4; by rewrite bool_decide_false by set_solver).
  pose proof (one_nonneg (ow_pending ob)). pose proof (one_nonneg (ow_terminating ob)).
  destruct (decide (0 < on_way (cnt_own c) ths)) as [Hw|Hw]; [done|].
  destruct (decide (0 < on_way (cnt_term c) ths)) as [Hw2|Hw2]; [|lia]. assert (0 < on_way (cnt_to objs p) ths); [|lia].
  apply on_way_pos in Hw2 as (t & th & Ht & [([d cmd] & Hin & Hw2)|(inc & d & cmd & Hin & Hw2)]); destruct cmd; unfold cnt_term in Hw2; cbn [fst snd] in Hw2; try lia;
    apply one_pos, bool_decide_eq_true in Hw2; subst.
  - pose proof (on_way_mail (cnt_to objs p) ths t th _ (cnt_to_nonneg objs p) Ht Hin) as M. rewrite cnt_to_term, (bool_decide_true _ Hoc) in M. simpl in M. lia.
  - pose proof (on_way_code (cnt_to objs p) ths t th _ _ _ (cnt_to_nonneg objs p) Ht Hin) as M. rewrite cnt_to_term, (bool_decide_true _ Hoc) in M. simpl in M. lia.
Qed.

(** The owner of an object that runs, runs. *)
Lemma owner_running objs ths k c ob p : own_inv objs ths k -> objs !! c = Some ob -> ow_phase ob = running -> ow_owner ob = Some p -> is_running objs p.
Proof.
  intros Hi Hc Hph Hp. pose proof (oo_owner _ _ _ _ _ (iv_obj _ _ _ Hi c ob Hc) p Hp) as Hlt. destruct (objs !! p) as [pb|] eqn:Epb.
  2: { apply lookup_ge_None in Epb. apply lookup_lt_Some in Hc. lia. }
  assert (owner_of objs c = Some p) as Hoc by (unfold owner_of; by rewrite Hc).
  destruct (decide (ow_phase pb = running)) as [|Hn]; [by exists pb|]. destruct (oo_done _ _ _ _ _ (iv_obj _ _ _ Hi p pb Epb) Hn) as (D1 & D2 & D3 & D4).
  pose proof (child_announced _ _ _ c ob p pb Hi Hc Hph Hp Epb D3 D4) as Hw.
  apply on_way_pos in Hw as (t & th & Ht & [([d cmd] & Hin & Hw)|(inc & d & cmd & Hin & Hw)]); destruct cmd; unfold cnt_own in Hw; cbn [snd] in Hw; try lia;
    apply one_pos, bool_decide_eq_true in Hw; subst.
  - destruct (iv_mail _ _ _ Hi t th _ Ht Hin) as (x & M1 & _ & M2 & M3). simpl in *. rewrite Hoc in M3. injection M3 as ->. by exists x.
  - destruct (code_send _ _ _ _ _ _ _ _ Hi Ht Hin) as [M1 M3]. destruct M1 as [M1 [rest [[M4 M2] _]]]; [done|]. destruct inc; [|done]. destruct M2 as [M2 M5].
    rewrite Hoc in M5. injection M5 as ->. by subst.
Qed.

(** ** The handlers *)

Section handlers.
Context (k : Z) (objs : list own_t) (ths : list own_thread) (d : nat) (ob : own_t).
Context (Hi : own_inv objs ths k) (Hd : objs !! d = Some ob) (Hph : ow_phase ob = running).

Lemma obj_of : obj_ok objs ths k d ob.
Proof. by apply (iv_obj _ _ _ Hi). Qed.

Lemma self_not_owned : d ∉ ow_owned ob.
Proof.
  intros Hin. pose proof (oo_owned _ _ _ _ _ obj_of d Hin) as H. unfold owner_of in H. rewrite Hd in H. cbn [mbind option_bind] in H.
  pose proof (oo_owner _ _ _ _ _ obj_of d H). lia.
Qed.

(** The object stays as it is. *)
Lemma effect_same l m seqs :
  (forall c, zsum (in_code (cnt_own c) d) l = lost m (cnt_own c)) -> (forall c, zsum (in_code (cnt_term c) d) l = lost m (cnt_term c)) ->
  (forall p, zsum (in_code (cnt_to objs p) d) l = lost m (cnt_to objs p)) -> (forall p, zsum (in_code (cnt_ack p) d) l = lost m (cnt_ack p)) ->
  (forall o, zsum (seq_in_code o d) l = lost m (cnt_seq o) + (if decide (o = d) then seqs else 0)) ->
  (forall rest, (rest = [] \/ m = None /\ oi_seqnum ∈ rest) -> code_ok objs d rest -> code_ok objs d (l ++ rest)) ->
  effect k objs d ob ob l m seqs.
Proof.
  intros H1 H2 H3 H4 H5 H6. pose proof obj_of as Ho. constructor; try done; try apply Ho.
  - intros c _. rewrite H1, H2. lia.
  - rewrite H1, H2. lia.
  - intros p. rewrite H3, H4. case_decide; lia.
  - intros o. rewrite H5. case_decide; lia.
  - intros _. right; right; right. done.
Qed.

Lemma effect_nothing : effect k objs d ob ob [] None 0.
Proof. apply effect_same; try done. intros. by case_decide. Qed.

Lemma hook_sum (g : own_instr -> Z) hook : (forall c, g (oi_call c) = 0) -> zsum g (oi_call <$> hook) = 0.
Proof. intros H. apply zsum_zero. by intros i (c & -> & _)%list_elem_of_fmap. Qed.

Lemma hook_code hook rest : oi_seqnum ∈ rest -> code_ok objs d rest -> code_ok objs d ((oi_call <$> hook) ++ rest).
Proof.
  intros Hr Hok. induction hook as [|c hook IH]; [done|]. rewrite fmap_cons. cbn [app code_ok]. split; [|done]. right. apply elem_of_app. by right.
Qed.

(** [plug], [attach] and [bind]. *)
Lemma effect_hook hook cmd : (forall o, cnt_seq o (d, cmd) = one (bool_decide (d = o))) -> (forall c, cnt_own c (d, cmd) = 0) -> (forall c, cnt_term c (d, cmd) = 0) ->
  (forall c, cnt_to objs c (d, cmd) = 0) -> (forall c, cnt_ack c (d, cmd) = 0) ->
  effect k objs d ob ob ((oi_call <$> hook) ++ [oi_seqnum]) (Some (d, cmd)) 0.
Proof.
  intros H1 H2 H3 H4 H5. apply effect_same.
  1-4: intros c; rewrite zsum_app, hook_sum by done; simpl; rewrite ?H2, ?H3, ?H4, ?H5; lia.
  - intros o. rewrite zsum_app, hook_sum by done. simpl. rewrite H1. case_decide; lia.
  - intros rest [->|[? _]] Hok; [|done]. rewrite <- app_assoc. apply hook_code; [by apply list_elem_of_singleton|by split].
Qed.

Lemma effect_send inc p cmd : (forall c, cnt_own c (p, cmd) = 0) -> (forall c, cnt_term c (p, cmd) = 0) -> (forall c, cnt_to objs c (p, cmd) = 0) -> (forall c, cnt_ack c (p, cmd) = 0) ->
  (forall o, seq_in_code o d (oi_send inc p cmd) = 0) -> (forall rest, instr_ok objs d (oi_send inc p cmd) rest) ->
  effect k objs d ob ob [oi_send inc p cmd] None 0.
Proof.
  intros H1 H2 H3 H4 H5 H6. apply effect_same; try (intros c; cbn [zsum in_code lost]; rewrite ?H1, ?H2, ?H3, ?H4, ?H5; try (case_decide; lia); lia).
  intros rest _ Hok. by split.
Qed.

(** Sums over the [term] commands to a set of children. *)
Lemma terms_own linger (X : gset nat) c : zsum (in_code (cnt_own c) d) (oi_term linger <$> elements X) = 0.
Proof. apply zsum_zero. by intros i (x & -> & _)%list_elem_of_fmap. Qed.
Lemma terms_ack linger (X : gset nat) c : zsum (in_code (cnt_ack c) d) (oi_term linger <$> elements X) = 0.
Proof. apply zsum_zero. by intros i (x & -> & _)%list_elem_of_fmap. Qed.
Lemma terms_seq linger (X : gset nat) c : zsum (seq_in_code c d) (oi_term linger <$> elements X) = 0.
Proof. apply zsum_zero. by intros i (x & -> & _)%list_elem_of_fmap. Qed.
Lemma terms_term linger (X : gset nat) c : zsum (in_code (cnt_term c) d) (oi_term linger <$> elements X) = one (bool_decide (c ∈ X)).
Proof.
  rewrite zsum_fmap. rewrite (zsum_ext _ (fun x => if decide (x = c) then 1 else 0)).
  - rewrite zsum_member by apply NoDup_elements. rewrite (bool_decide_ext _ (c ∈ elements X)) by set_solver. by case_bool_decide; case_decide.
  - intros x _. unfold oi_term, in_code, cnt_term. cbn [fst snd]. by case_bool_decide; case_decide.
Qed.
Lemma terms_to linger (X : gset nat) p : (forall x, x ∈ X -> owner_of objs x = Some d) ->
  zsum (in_code (cnt_to objs p) d) (oi_term linger <$> elements X) = if decide (p = d) then Z.of_nat (size X) else 0.
Proof.
  intros HX. rewrite zsum_fmap. rewrite (zsum_const _ (if decide (p = d) then 1 else 0)).
  - case_decide; [|lia]. unfold size, set_size. simpl. lia.
  - intros x Hx%elem_of_elements. unfold oi_term, in_code. rewrite cnt_to_term, (HX x Hx). case_decide; [by rewrite bool_decide_true by congruence|by rewrite bool_decide_false by congruence].
Qed.

(** A child in the set runs. *)
Lemma owned_running x : x ∈ ow_owned ob -> is_running objs x.
Proof.
  intros Hx. pose proof (oo_owned _ _ _ _ _ obj_of x Hx) as Hox. unfold owner_of in Hox. destruct (objs !! x) as [xb|] eqn:Ex; [|done]. cbn [mbind option_bind] in Hox.
  pose proof (iv_obj _ _ _ Hi x xb Ex) as Hxo. pose proof (oo_once _ _ _ _ _ Hxo) as H1. unfold owned_by_owner, owner_of, told_self in H1. rewrite Ex in H1. cbn [mbind option_bind] in H1.
  rewrite Hox, Hd, (bool_decide_true _ Hx) in H1. simpl in H1. exists xb. split; [done|]. destruct (decide (ow_phase xb = running)) as [|Hn]; [done|].
  destruct (oo_done _ _ _ _ _ Hxo Hn) as (D1 & _). rewrite D1 in H1. simpl in H1. pose proof (on_way_nonneg (cnt_own x) ths (cnt_own_nonneg x)).
  pose proof (on_way_nonneg (cnt_term x) ths (cnt_term_nonneg x)). pose proof (one_nonneg (ow_pending xb)). lia.
Qed.

Lemma terms_code linger X rest : (forall x, x ∈ X -> owner_of objs x = Some d /\ is_running objs x) -> code_ok objs d rest -> code_ok objs d ((oi_term linger <$> X) ++ rest).
Proof.
  intros HX Hok. induction X as [|x X IH]; [done|]. rewrite fmap_cons. cbn [app code_ok]. split.
  - destruct (HX x) as [H1 H2]; [constructor|]. by split.
  - apply IH. intros y Hy. apply HX. by constructor.
Qed.

Lemma owned_owner x : x ∈ ow_owned ob -> owner_of objs x = Some d.
Proof. apply obj_of. Qed.

Lemma owner_not_self : ow_owner ob <> Some d.
Proof. intros E. pose proof (oo_owner _ _ _ _ _ obj_of d E). lia. Qed.

Definition terminated (q : bool) : own_t := set_terminating (set_owned (register_term_acks (set_pending ob q) (Z.of_nat (size (ow_owned ob)))) ∅).

Lemma effect_terminated q m linger : told_self (terminated q) = told_self ob + lost m (cnt_term d) ->
  (forall p, told_child p (terminated q) = told_child p ob + lost m (cnt_to objs p)) ->
  (forall c, c <> d -> lost m (cnt_term c) = 0) -> (forall c, lost m (cnt_own c) = 0) -> (forall c, lost m (cnt_ack c) = 0) -> (forall c, lost m (cnt_seq c) = 0) ->
  effect k objs d ob (terminated q) ((oi_term linger <$> elements (ow_owned ob)) ++ [oi_check]) m 0.
Proof.
  intros H1 H2 H3 H4 H5 H6. pose proof obj_of as Ho. constructor; try done; try apply Ho.
  - intros c Hc. rewrite !zsum_app, terms_own, terms_term, H4, H3 by done. cbn [terminated set_terminating set_owned ow_owned zsum in_code].
    rewrite (bool_decide_false (c ∈ ∅)) by set_solver. simpl. lia.
  - rewrite !zsum_app, terms_own, terms_term, H4, H1. rewrite bool_decide_false by apply self_not_owned. simpl. lia.
  - intros p. rewrite !zsum_app, terms_ack, H5, H2, (terms_to _ _ _ owned_owner). cbn [zsum in_code].
    cbn [terminated set_terminating set_owned register_term_acks set_pending ow_term_acks ow_events]. case_decide; lia.
  - intros o. rewrite zsum_app, terms_seq, H6. simpl. case_decide; lia.
  - intros _. right; right; left. apply elem_of_app. right. by apply list_elem_of_singleton.
  - intros rest Hr Hok. rewrite <- app_assoc. apply terms_code.
    + intros x Hx%elem_of_elements. split; [by apply owned_owner|by apply owned_running].
    + split; [|done]. destruct Hr as [->|[_ ?]]; [by left|by right].
Qed.

Lemma effect_told c linger m : c ∈ ow_owned ob -> ow_terminating ob = false -> (forall f, lost m f = 0 \/ exists x, m = Some (d, oc_term_req x)) ->
  effect k objs d ob (register_term_acks (set_owned ob (ow_owned ob ∖ {[c]})) 1) [oi_term linger c] m 0.
Proof.
  intros Hc Ht Hm. pose proof obj_of as Ho. pose proof self_not_owned as Hself.
  assert (forall x, lost m (cnt_own x) = 0 /\ lost m (cnt_term x) = 0 /\ lost m (cnt_to objs x) = 0 /\ lost m (cnt_ack x) = 0 /\ lost m (cnt_seq x) = 0) as Hl.
  { intros x. destruct m as [[dd cmd]|]; [|done]. destruct (Hm (fun _ => 1)) as [?|(y & [= -> ->])]; done. }
  constructor; try done; try apply Ho.
  - cbn [register_term_acks set_owned ow_owned]. intros x Hx. apply owned_owner. set_solver.
  - intros x Hx. destruct (Hl x) as (-> & -> & _). cbn [zsum in_code oi_term register_term_acks set_owned ow_owned]. unfold cnt_own, cnt_term. cbn [fst snd].
    destruct (decide (c = x)) as [->|Hne]; [rewrite (bool_decide_true (x = x)), (bool_decide_true (x ∈ ow_owned ob)), (bool_decide_false (x ∈ ow_owned ob ∖ _)) by set_solver; done|].
    rewrite (bool_decide_false (c = x)) by done. rewrite (bool_decide_ext (x ∈ ow_owned ob ∖ {[c]}) (x ∈ ow_owned ob)) by set_solver. simpl. lia.
  - destruct (Hl d) as (-> & -> & _). cbn [zsum in_code oi_term]. unfold cnt_own, cnt_term. cbn [fst snd]. rewrite bool_decide_false by congruence. unfold told_self. simpl. lia.
  - intros p. destruct (Hl p) as (_ & _ & -> & -> & _). cbn [zsum in_code oi_term]. rewrite cnt_to_term, (owned_owner c Hc). unfold cnt_ack. cbn [snd].
    change (told_child p (register_term_acks (set_owned ob (ow_owned ob ∖ {[c]})) 1)) with (told_child p ob). cbn [register_term_acks set_owned ow_term_acks ow_events].
    case_decide; [rewrite (bool_decide_true (Some d = Some p)) by congruence|rewrite (bool_decide_false (Some d = Some p)) by congruence]; simpl; lia.
  - intros o. destruct (Hl o) as (_ & _ & _ & _ & ->). simpl. change (cnt_seq o (c, oc_term linger)) with 0. case_decide; lia.
  - cbn [register_term_acks set_owned ow_terminating]. congruence.
  - cbn [register_term_acks set_owned ow_terminating]. congruence.
  - intros rest _ Hok. split; [|done]. split; [by apply owned_running|by apply owned_owner].
Qed.

(** An announced child runs, and is in no set yet. *)
Lemma announced c th t : ths !! t = Some th -> (d, oc_own c) ∈ th_mailbox th ->
  owner_of objs c = Some d /\ is_running objs c /\ (c ∉ ow_owned ob) /\ c <> d.
Proof.
  intros Ht Hin. destruct (iv_mail _ _ _ Hi t th _ Ht Hin) as (x & _ & _ & _ & Hoc). simpl in Hoc. split; [done|].
  pose proof (on_way_mail (cnt_own c) ths t th _ (cnt_own_nonneg c) Ht Hin) as H1. unfold cnt_own in H1 at 1. cbn [snd] in H1. rewrite bool_decide_true in H1 by done. cbn [one] in H1.
  unfold owner_of in Hoc. destruct (objs !! c) as [cb|] eqn:Ec; [|done]. cbn [mbind option_bind] in Hoc.
  pose proof (iv_obj _ _ _ Hi c cb Ec) as Hco. pose proof (oo_once _ _ _ _ _ Hco) as H2. unfold owned_by_owner, owner_of, told_self in H2. rewrite Ec in H2. cbn [mbind option_bind] in H2.
  rewrite Hoc, Hd in H2. pose proof (on_way_nonneg (cnt_term c) ths (cnt_term_nonneg c)). pose proof (one_nonneg (ow_pending cb)). pose proof (one_nonneg (ow_terminating cb)).
  pose proof (one_nonneg (bool_decide (c ∈ ow_owned ob))). split; [|split].
  - exists cb. split; [done|]. destruct (decide (ow_phase cb = running)) as [|Hn]; [done|]. destruct (oo_done _ _ _ _ _ Hco Hn) as (D1 & _). rewrite D1 in H2. cbn [one] in H2. lia.
  - intros Hx. rewrite (bool_decide_true _ Hx) in H2. cbn [one] in H2. lia.
  - intros ->. pose proof (oo_owner _ _ _ _ _ Hco d Hoc). lia.
Qed.

Lemma effect_own c th t ob' l : ths !! t = Some th -> (d, oc_own c) ∈ th_mailbox th -> process_own ob c = (ob', l) ->
  effect k objs d ob ob' (l ++ [oi_seqnum]) (Some (d, oc_own c)) 0.
Proof.
  intros Ht Hin E. destruct (announced c th t Ht Hin) as (Hoc & Hrun & Hnot & Hne). pose proof obj_of as Ho. unfold process_own in E.
  assert (forall x, cnt_own x (d, oc_own c) = one (bool_decide (c = x))) as E1 by done.
  assert (forall o, seq_in_code o d oi_seqnum = one (bool_decide (d = o))) as E2 by done.
  assert (forall o, one (bool_decide (d = o)) = if decide (o = d) then 1 else 0) as E3 by (intros o; case_decide; [by rewrite bool_decide_true|by rewrite bool_decide_false]).
  assert (forall x, one (bool_decide (c = x)) = if decide (x = c) then 1 else 0) as E4 by (intros x; case_decide; [by rewrite bool_decide_true|by rewrite bool_decide_false]).
  destruct (ow_terminating ob) eqn:Et; injection E as <- <-; cbn [app].
  - constructor; try done; try apply Ho.
    + intros p. cbn [zsum in_code oi_term lost]. rewrite cnt_to_term, Hoc. unfold cnt_ack, cnt_to. cbn [snd].
      change (told_child p (register_term_acks ob 1)) with (told_child p ob). cbn [register_term_acks ow_term_acks ow_events].
      case_decide; [rewrite (bool_decide_true (Some d = Some p)) by congruence|rewrite (bool_decide_false (Some d = Some p)) by congruence]; simpl; lia.
    + intros o. cbn [zsum lost]. change (seq_in_code o d (oi_term 0 c)) with 0. rewrite E2. unfold cnt_seq. cbn [fst snd]. simpl. case_decide; lia.
    + intros _. left. pose proof (oo_seq _ _ _ _ _ Ho) as H. pose proof (seq_on_way_mail d ths t th _ Ht Hin) as H'. unfold cnt_seq in H' at 1. cbn [fst snd] in H'. rewrite bool_decide_true in H' by done. cbn [one] in H'. simpl. lia.
    + intros rest [->|[? _]] Hok; [|done]. cbn [app code_ok instr_ok oi_term]. tauto.
  - constructor; try done; try apply Ho.
    + intros x Hx. cbn [set_owned ow_owned] in Hx. apply elem_of_union in Hx as [Hx|Hx%elem_of_singleton]; [by apply owned_owner|by subst].
    + intros x Hx. cbn [zsum in_code lost set_owned ow_owned]. unfold cnt_own, cnt_term. cbn [fst snd]. rewrite E4. case_decide as Hxc.
      * subst x. rewrite (bool_decide_true (c ∈ _ ∪ _)), (bool_decide_false (c ∈ ow_owned ob)) by set_solver. done.
      * rewrite (bool_decide_ext (x ∈ ow_owned ob ∪ {[c]}) (x ∈ ow_owned ob)) by set_solver. lia.
    + cbn [zsum in_code lost]. unfold cnt_own, cnt_term. cbn [fst snd]. rewrite E4, decide_False by done. unfold told_self. simpl. lia.
    + intros p. cbn [zsum in_code lost]. unfold cnt_ack, cnt_to. cbn [snd]. change (told_child p (set_owned ob (ow_owned ob ∪ {[c]}))) with (told_child p ob).
      cbn [set_owned ow_term_acks ow_events]. case_decide; lia.
    + intros o. cbn [zsum lost]. rewrite E2. unfold cnt_seq. cbn [fst snd]. simpl. case_decide; lia.
    + cbn [set_owned ow_terminating]. congruence.
    + cbn [set_owned ow_terminating]. congruence.
    + intros rest [->|[? _]] Hok; [|done]. cbn [app code_ok instr_ok]. tauto.
Qed.

(** What is waited for: more than the events that were registered. *)
Lemma acks_events : ow_events ob <= ow_term_acks ob /\ 0 <= ow_events ob /\ on_way (cnt_ack d) ths <= ow_term_acks ob.
Proof.
  pose proof obj_of as Ho. rewrite (oo_acks _ _ _ _ _ Ho). pose proof (oo_events _ _ _ _ _ Ho). pose proof (zsum_nonneg (told_child d) objs (told_child_nonneg d)).
  pose proof (on_way_nonneg (cnt_to objs d) ths (cnt_to_nonneg objs d)). pose proof (on_way_nonneg (cnt_ack d) ths (cnt_ack_nonneg d)). lia.
Qed.

Lemma effect_count n e l m : n - (e - ow_events ob) = - lost m (cnt_ack d) -> (forall p, p <> d -> lost m (cnt_ack p) = 0) ->
  (forall c, lost m (cnt_own c) = 0 /\ lost m (cnt_term c) = 0 /\ lost m (cnt_to objs c) = 0 /\ lost m (cnt_seq c) = 0) -> 0 <= e -> l = [] /\ 0 < n \/ l = [oi_check] ->
  effect k objs d ob (set_events (register_term_acks ob n) e) l m 0.
Proof.
  intros Hn Hp Hm He Hl. pose proof obj_of as Ho. destruct acks_events as (Ha & Ha0 & _).
  assert (forall f g, zsum (in_code f d) l = 0 /\ zsum (seq_in_code g d) l = 0) as E by (intros; by destruct Hl as [[-> _]| ->]).
  assert (forall f, zsum (in_code f d) l = 0) as E1 by (intros; by apply (E f 0%nat)). assert (forall o, zsum (seq_in_code o d) l = 0) as E2 by (intros o; by apply (E (fun _ => 0) o)).
  constructor; try done; try apply Ho.
  - intros c _. destruct (Hm c) as (-> & -> & _ & _). by rewrite !E1.
  - destruct (Hm d) as (-> & -> & _ & _). by rewrite !E1.
  - intros p. destruct (Hm p) as (_ & _ & -> & _). rewrite !E1. change (told_child p (set_events (register_term_acks ob n) e)) with (told_child p ob).
    cbn [set_events register_term_acks ow_term_acks ow_events]. case_decide as Hpd; [subst p; lia|rewrite (Hp p Hpd); lia].
  - intros o. destruct (Hm o) as (_ & _ & _ & ->). rewrite E2. simpl. case_decide; lia.
  - intros _. destruct Hl as [[-> Hl]| ->]; [right; left; cbn [set_events register_term_acks ow_term_acks]; lia|right; right; left; by apply list_elem_of_singleton].
  - intros rest Hr Hok. destruct Hl as [[-> _]| ->]; [done|]. split; [|done]. destruct Hr as [->|[_ ?]]; [by left|by right].
Qed.

(** A session postpones its termination. *)
Lemma effect_pending linger p : ow_owner ob = Some p -> ow_pending ob = false -> effect k objs d ob (set_pending ob true) [] (Some (d, oc_term linger)) 0.
Proof.
  intros Hp Hq. pose proof obj_of as Ho. assert (owner_of objs d = Some p) as Hop by (unfold owner_of; by rewrite Hd).
  constructor; try done; try apply Ho.
  - intros c Hc. cbn [zsum lost set_pending ow_owned]. unfold cnt_own, cnt_term. cbn [fst snd]. rewrite (bool_decide_false (d = c)) by congruence. simpl. lia.
  - cbn [zsum lost]. unfold told_self, cnt_own, cnt_term. cbn [fst snd set_pending ow_pending ow_owner ow_terminating]. rewrite Hq, (bool_decide_true (d = d)) by done. simpl. lia.
  - intros x. cbn [zsum lost]. rewrite cnt_to_term, Hop. unfold cnt_ack, told_child. cbn [fst snd set_pending ow_pending ow_owner ow_terminating ow_phase ow_term_acks ow_events].
    rewrite Hp, Hph, Hq, (bool_decide_true (running = running)), andb_true_r by done. case_decide; destruct (bool_decide (Some p = Some x)); cbn [one]; lia.
  - intros o. cbn [zsum lost]. unfold cnt_seq. cbn [snd set_pending ow_sent_seqnum ow_processed_seqnum]. case_decide; lia.
  - intros _. right; right; right. done.
Qed.

(** [process_seqnum] when the object goes on. *)
Lemma effect_seqnum : ow_processed_seqnum ob < ow_sent_seqnum ob ->
  ~ (ow_terminating ob = true /\ ow_processed_seqnum ob + 1 = ow_sent_seqnum ob /\ ow_term_acks ob = 0) ->
  effect k objs d ob (set_processed ob (ow_processed_seqnum ob + 1)) [] None 1.
Proof.
  intros Hlt Hn. pose proof obj_of as Ho. constructor; try done; try apply Ho.
  - intros p. change (told_child p (set_processed ob (ow_processed_seqnum ob + 1))) with (told_child p ob). simpl. case_decide; lia.
  - intros o. simpl. case_decide; lia.
  - pose proof (oo_bound _ _ _ _ _ Ho). simpl. lia.
  - simpl. intros Ht. destruct (decide (ow_term_acks ob = 0)); [|by right; left]. left. intros ?. by apply Hn.
Qed.
End handlers.

(** ** Commands and calls *)

Lemma one_false b : one b <= 0 -> b = false.
Proof. by destruct b. Qed.

(** An object that has been told to terminate, but does not know it yet. *)
Lemma told_not_terminating objs ths k d ob p : own_inv objs ths k -> objs !! d = Some ob -> ow_owner ob = Some p ->
  (0 < on_way (cnt_term d) ths -> ow_pending ob = false /\ ow_terminating ob = false) /\ (ow_pending ob = true -> ow_terminating ob = false).
Proof.
  intros Hi Hd Hp. pose proof (oo_once _ _ _ _ _ (iv_obj _ _ _ Hi d ob Hd)) as H. rewrite Hp in H. unfold told_self in H. rewrite Hp in H.
  pose proof (on_way_nonneg (cnt_own d) ths (cnt_own_nonneg d)). pose proof (on_way_nonneg (cnt_term d) ths (cnt_term_nonneg d)).
  assert (0 <= owned_by_owner objs d) by (unfold owned_by_owner; destruct (owner_of objs d) as [x|]; [destruct (objs !! x); [apply one_nonneg|lia]|lia]).
  pose proof (one_nonneg (ow_pending ob)). pose proof (one_nonneg (ow_terminating ob)). split; [intros Hw; split; apply one_false; lia|].
  intros Hq. rewrite Hq in H. cbn [one] in H. apply one_false. lia.
Qed.

Lemma root_not_pending objs ths k d ob : own_inv objs ths k -> objs !! d = Some ob -> ow_owner ob = None -> ow_pending ob = false.
Proof.
  intros Hi Hd Hp. pose proof (oo_once _ _ _ _ _ (iv_obj _ _ _ Hi d ob Hd)) as H. rewrite Hp in H. unfold told_self in H. rewrite Hp in H.
  pose proof (on_way_nonneg (cnt_own d) ths (cnt_own_nonneg d)). pose proof (on_way_nonneg (cnt_term d) ths (cnt_term_nonneg d)).
  assert (owned_by_owner objs d = 0) by (unfold owned_by_owner, owner_of; rewrite Hd; cbn [mbind option_bind]; by rewrite Hp).
  apply one_false. lia.
Qed.

Lemma process_term_eq ob l : ow_terminating ob = false ->
  process_term ob l = Some (terminated ob (ow_pending ob), (oi_term l <$> elements (ow_owned ob)) ++ [oi_check]).
Proof. intros H. unfold process_term. rewrite H. cbn [negb]. by destruct ob. Qed.

Lemma effect_term objs ths k t th d ob linger : own_inv objs ths k -> ths !! t = Some th -> objs !! d = Some ob -> ow_phase ob = running ->
  (d, oc_term linger) ∈ th_mailbox th -> exists p, ow_owner ob = Some p /\ ow_pending ob = false /\ ow_terminating ob = false /\
    effect k objs d ob (terminated ob (ow_pending ob)) ((oi_term linger <$> elements (ow_owned ob)) ++ [oi_check]) (Some (d, oc_term linger)) 0.
Proof.
  intros Hi Ht Hd Hph Hin. destruct (iv_mail _ _ _ Hi t th _ Ht Hin) as (x & Hx & _ & _ & [p Hp]). cbn [fst] in Hx. rewrite Hd in Hx. injection Hx as <-.
  pose proof (on_way_mail (cnt_term d) ths t th _ (cnt_term_nonneg d) Ht Hin) as H1. unfold cnt_term in H1 at 1. cbn [fst snd] in H1. rewrite bool_decide_true in H1 by done. cbn [one] in H1.
  destruct (told_not_terminating objs ths k d ob p Hi Hd Hp) as [[Hq Htm] _]; [lia|]. exists p. split; [done|]. split; [done|]. split; [done|].
  assert (owner_of objs d = Some p) as Hop by (unfold owner_of; by rewrite Hd).
  apply (effect_terminated k objs ths d ob Hi Hd Hph); try done.
  - unfold told_self, terminated, cnt_term. cbn [set_terminating set_owned register_term_acks set_pending ow_pending ow_owner ow_terminating lost fst snd]. rewrite Hp, Hq, Htm, bool_decide_true by done. done.
  - intros x. unfold told_child, terminated. cbn [set_terminating set_owned register_term_acks set_pending ow_pending ow_owner ow_terminating ow_phase lost]. rewrite cnt_to_term, Hop, Hp, Hph, Hq, Htm.
    rewrite (bool_decide_true (running = running)), andb_true_r by done. by destruct (bool_decide (Some p = Some x)).
  - intros c Hc. cbn [lost]. unfold cnt_term. cbn [fst snd]. by rewrite bool_decide_false by congruence.
Qed.

Lemma command_ok objs ths k t th d cmd m hook delay : own_inv objs ths k -> ths !! t = Some th -> th_code th = [] -> th_mailbox th = (d, cmd) :: m ->
  exists w', exec_command (OwnWorld objs ths) t hook delay d cmd m = Some w' /\ own_inv (w_objs w') (w_threads w') k.
Proof.
  intros Hi Ht Hc Hm. assert ((d, cmd) ∈ th_mailbox th) as Hin by (rewrite Hm; constructor).
  destruct (iv_mail _ _ _ Hi t th _ Ht Hin) as (ob & Hd & Htid & Hph & Hmc). cbn [fst snd] in *.
  assert (exists ob' l, own_process_command hook delay ob cmd = Some (ob', l) /\ effect k objs d ob ob' l (Some (d, cmd)) 0) as (ob' & l & E & He).
  { destruct cmd as [|c| | |c|linger|]; cbn [own_process_command].
    1,3,4: eexists _, _; split; [done|]; by apply (effect_hook k objs ths d ob Hi Hd).
    - destruct (process_own ob c) as [ob' l] eqn:E. eexists _, _. split; [done|]. by apply (effect_own k objs ths d ob Hi Hd Hph c th t ob' l Ht Hin).
    - eexists _, _. split; [apply f_equal, surjective_pairing|]. unfold process_term_req. destruct (ow_terminating ob) eqn:Et.
      { apply (effect_same k objs ths d ob Hi Hd); try done. intros o. by case_decide. }
      case_bool_decide as Ho.
      + apply (effect_told k objs ths d ob Hi Hd); [done..|]. intros f. right. by exists c.
      + apply (effect_same k objs ths d ob Hi Hd); try done. intros o. by case_decide.
    - destruct (effect_term objs ths k t th d ob linger Hi Ht Hd Hph Hin) as (p & Hp & Hq & Htm & He).
      destruct (delay && bool_decide (is_Some (ow_owner ob))).
      + rewrite Hq. eexists _, _. split; [done|]. by apply (effect_pending k objs ths d ob Hi Hd Hph linger p).
      + rewrite (process_term_eq _ _ Htm). eauto.
    - pose proof (on_way_mail (cnt_ack d) ths t th _ (cnt_ack_nonneg d) Ht Hin) as H1. unfold cnt_ack in H1 at 1. cbn [fst snd] in H1. rewrite bool_decide_true in H1 by done. cbn [one] in H1.
      destruct (acks_events k objs ths d ob Hi Hd) as (_ & He & Ha). unfold unregister_term_ack. rewrite (proj2 (Z.ltb_lt _ _)) by lia.
      eexists _, _. split; [done|]. replace (register_term_acks ob (-1)) with (set_events (register_term_acks ob (-1)) (ow_events ob)) by by destruct ob.
      apply (effect_count k objs ths d ob Hi Hd); try done; [|intros p Hp|by right].
      + cbn [lost]. unfold cnt_ack. cbn [fst snd]. rewrite bool_decide_true by done. cbn [one]. lia.
      + cbn [lost]. unfold cnt_ack. cbn [fst snd]. by rewrite bool_decide_false by congruence. }
  unfold exec_command, deref. cbn [w_objs]. rewrite Hd. cbn [mbind option_bind]. rewrite bool_decide_false by congruence. cbn [mbind option_bind]. rewrite E. cbn [mbind option_bind].
  eexists. split; [done|]. by apply (effect_command k objs ths t th d ob ob' cmd m l).
Qed.

(** An object acts of its own accord. *)
Lemma start_call objs ths k t th d ob c : own_inv objs ths k -> ths !! t = Some th -> objs !! d = Some ob -> ow_tid ob = t -> ow_phase ob = running -> th_code th = [] ->
  own_inv objs (<[t := OwnThread (th_mailbox th) d [oi_call c]]> ths) k.
Proof.
  intros Hi Ht Hd Htid Hph Hc. pose proof (iv_obj _ _ _ Hi d ob Hd) as Ho. rewrite <- (list_insert_id objs d ob Hd).
  assert (forall f, th_sum f (in_code f) th = zsum f (th_mailbox th)) as E by (intros f; unfold th_sum; rewrite Hc; simpl; lia).
  assert (forall f, th_sum f (in_code f) (OwnThread (th_mailbox th) d [oi_call c]) = zsum f (th_mailbox th)) as E' by (intros f; unfold th_sum; simpl; lia).
  apply (local_step k objs ths t th d ob ob Hi Ht Hd Htid Hph (or_introl Hc) eq_refl [] (th_mailbox th)); try done; try apply Ho.
  - intros x _. by rewrite !E, !E'.
  - by rewrite !E, !E'.
  - intros p. rewrite !E, !E'. case_decide; lia.
  - intros o. unfold th_sum. rewrite Hc. simpl. case_decide; lia.
  - intros Htm. destruct (oo_wait _ _ _ _ _ Ho Hph Htm) as [H|[H|(th1 & H1 & H2 & H3)]]; [by left|by right; left|].
    rewrite Htid, Ht in H1. injection H1 as <-. rewrite Hc in H3. by apply not_elem_of_nil in H3.
  - simpl. tauto.
Qed.

Definition is_local (c : own_call) : bool := match c with oc_launch_child _ _ _ | oc_send_bind _ => false | _ => true end.

Lemma set_obj_id objs ths d ob : objs !! d = Some ob -> OwnWorld objs ths = set_obj (OwnWorld objs ths) d ob.
Proof. intros H. unfold set_obj. cbn [w_objs w_threads]. by rewrite list_insert_id. Qed.

Lemma local_call objs ths k d ob c : own_inv objs ths k -> objs !! d = Some ob -> ow_phase ob = running -> is_local c = true ->
  exists ob' l, do_call (OwnWorld objs ths) d ob c = Some (set_obj (OwnWorld objs ths) d ob', l) /\ effect k objs d ob ob' l None 0.
Proof.
  intros Hi Hd Hph Hl.
  destruct c as [| |x| | |n| |]; try done; cbn [do_call].
  - unfold own_terminate. destruct (ow_terminating ob) eqn:Et; [cbn [fmap option_fmap option_map fst snd]; eexists _, _; split; [done|]; by apply (effect_nothing k objs ths)|].
    destruct (ow_owner ob) as [p|] eqn:Ep.
    + cbn [fmap option_fmap option_map fst snd]. eexists _, _. split; [done|]. apply (effect_send k objs ths d ob Hi Hd); try done.
      intros rest. split; [by apply (owner_running objs ths k d ob p)|]. split; [done|]. unfold owner_of. by rewrite Hd.
    + rewrite (process_term_eq _ _ Et). cbn [fmap option_fmap option_map fst snd]. eexists _, _. split; [done|]. pose proof (root_not_pending _ _ _ _ _ Hi Hd Ep) as Hq.
      apply (effect_terminated k objs ths d ob Hi Hd Hph); try done.
      * unfold told_self, terminated. simpl. rewrite Ep. lia.
      * intros p. unfold told_child, terminated. simpl. by rewrite Ep.
  - eexists _, _. split; [done|]. unfold process_term_req. destruct (ow_terminating ob) eqn:Et; [by apply (effect_nothing k objs ths)|].
    case_bool_decide; cbn [fst snd]; [|by apply (effect_nothing k objs ths)]. apply (effect_told k objs ths d ob Hi Hd); [done..|]. by left.
  - destruct (ow_owner ob) as [p|] eqn:Ep; exists ob; eexists; (split; [by rewrite <- set_obj_id|]); [|by apply (effect_nothing k objs ths)].
    apply (effect_send k objs ths d ob Hi Hd); try done. intros rest. split; [by apply (owner_running objs ths k d ob p)|]. unfold owner_of. by rewrite Hd.
  - destruct (0 <? n) eqn:En; bool_prop; [|exists ob; eexists; split; [by rewrite <- set_obj_id|]; by apply (effect_nothing k objs ths)].
    eexists _, _. split; [done|]. destruct (acks_events k objs ths d ob Hi Hd) as (_ & Hev & _). apply (effect_count k objs ths d ob Hi Hd); try done; cbn [lost]; try lia. by left.
  - destruct (0 <? ow_events ob) eqn:En; bool_prop; [|exists ob; eexists; split; [by rewrite <- set_obj_id|]; by apply (effect_nothing k objs ths)].
    destruct (acks_events k objs ths d ob Hi Hd) as (Ha & _ & _). unfold unregister_term_ack. cbn [set_events ow_term_acks]. rewrite (proj2 (Z.ltb_lt _ _)) by lia.
    cbn [fmap option_fmap option_map fst snd]. eexists _, _. split; [done|].
    replace (register_term_acks _ _) with (set_events (register_term_acks ob (-1)) (ow_events ob - 1)) by by destruct ob.
    apply (effect_count k objs ths d ob Hi Hd); try done; cbn [lost]; try lia. by right.
  - destruct (ow_pending ob) eqn:Eq; [|exists ob; eexists; split; [by rewrite <- set_obj_id|]; by apply (effect_nothing k objs ths)].
    destruct (ow_owner ob) as [p|] eqn:Ep; [|by rewrite (root_not_pending _ _ _ _ _ Hi Hd Ep) in Eq].
    destruct (told_not_terminating objs ths k d ob p Hi Hd Ep) as [_ Htm]. specialize (Htm Eq).
    rewrite process_term_eq by done. cbn [fmap option_fmap option_map fst snd]. eexists _, _. split; [done|].
    replace (terminated (set_pending ob false) _) with (terminated ob false) by by destruct ob. cbn [set_pending ow_owned].
    apply (effect_terminated k objs ths d ob Hi Hd Hph); try done.
    + unfold told_self, terminated. simpl. rewrite Ep, Eq, Htm. done.
    + intros x. unfold told_child, terminated. simpl. rewrite Ep, Eq, Htm, Hph. by case_match.
Qed.
