(* ===== verification/OwnProps.v ===== *)
(** * The ownership tree is shut down safely and completely *)

From Stdlib Require Import Bool.
From S2P Require Import Prelude Msg Own OwnInv OwnSteps.

(** ** Steps that only move commands *)

Lemma sent_next k objs ths p pb pb' : own_inv objs ths k -> objs !! p = Some pb -> pb' = pb \/ pb' = inc_seqnum pb -> k < 4294967295 ->
  ow_sent_seqnum pb <= ow_sent_seqnum pb' <= ow_sent_seqnum pb + 1 /\ ow_sent_seqnum (inc_seqnum pb) = ow_sent_seqnum pb + 1.
Proof.
  intros Hi Hp Hpb Hk. pose proof (iv_obj _ _ _ Hi p pb Hp) as Ho. pose proof (oo_bound _ _ _ _ _ Ho). pose proof (oo_seq _ _ _ _ _ Ho). pose proof (seq_on_way_nonneg p ths).
  assert (ow_sent_seqnum (inc_seqnum pb) = ow_sent_seqnum pb + 1) as E by (cbn [inc_seqnum ow_sent_seqnum]; unfold ac_add; rewrite u32_small by (unfold is_u32; lia); lia).
  destruct Hpb as [->| ->]; lia.
Qed.

Lemma weaken_inv k objs ths : own_inv objs ths k -> own_inv objs ths (k + 1).
Proof.
  intros Hw. constructor; try apply Hw. intros c x Hx. pose proof (iv_obj _ _ _ Hw c x Hx) as Ho. constructor; try apply Ho. pose proof (oo_bound _ _ _ _ _ Ho). lia.
Qed.

Section quiet.
Context (k : Z) (objs : list own_t) (ths ths' : list own_thread) (p : nat) (pb pb' : own_t).
Context (Hi : own_inv objs ths k) (Hp : objs !! p = Some pb) (Hph : ow_phase pb = running).
Context (Hpb : pb' = pb \/ pb' = inc_seqnum pb) (Hk : k < 4294967295).
Context (Hlen : length ths' = length ths).
Context (Hown : forall c, on_way (cnt_own c) ths' = on_way (cnt_own c) ths) (Hterm : forall c, on_way (cnt_term c) ths' = on_way (cnt_term c) ths).
Context (Hto : forall c, on_way (cnt_to objs c) ths' = on_way (cnt_to objs c) ths) (Hack : forall c, on_way (cnt_ack c) ths' = on_way (cnt_ack c) ths).
Context (Hseq : forall c, seq_on_way c ths' = seq_on_way c ths + if decide (c = p) then ow_sent_seqnum pb' - ow_sent_seqnum pb else 0).
Context (Hmail : forall t th m, ths' !! t = Some th -> m ∈ th_mailbox th -> mail_ok objs t m).
Context (Hreq : forall t th, ths' !! t = Some th -> req_ok objs ths' (th_mailbox th)).
Context (Hthread : forall t th, ths' !! t = Some th -> thread_ok objs t th).
Context (Hchk : forall c ob, checking ths c ob -> checking ths' c ob).
Context (Hdes : forall c ob th, objs !! c = Some ob -> ths !! ow_tid ob = Some th -> th_this th = c -> oi_destroy ∈ th_code th ->
  exists th', ths' !! ow_tid ob = Some th' /\ th_this th' = c /\ oi_destroy ∈ th_code th').

Lemma quiet_skel : skel pb' = skel pb.
Proof. by destruct Hpb as [->| ->]. Qed.

Lemma quiet_req m : req_ok objs ths' m -> req_ok (<[p := pb']> objs) ths' m.
Proof.
  induction m as [|[dd cmd] m IH]; [done|]. destruct cmd; cbn [req_ok]; auto. intros [H1 H2]. split; [|auto].
  destruct H1 as [H1|[H1|H1]]; [left; by apply (set_running objs p pb pb' Hp quiet_skel)|by right; left|right; right].
  destruct H1 as (x & th1 & Hx & Ht1 & Hr). destruct (set_lookup_rev objs p pb pb' Hp quiet_skel _ x Hx) as (y & Hy & Hs & _). apply same_skel in Hs as (E & _).
  exists y, th1. by rewrite E.
Qed.

Lemma quiet_step : own_inv (<[p := pb']> objs) ths' (k + 1).
Proof.
  pose proof quiet_skel as Hsk. pose proof (sent_next k objs ths p pb pb' Hi Hp Hpb Hk) as [Hs1 _]. constructor.
  - intros c x Hx. destruct (set_lookup objs p pb pb' Hp Hsk c x Hx) as (y & Hy & Hs & Hc). pose proof (iv_obj _ _ _ Hi c y Hy) as Ho.
    assert (x = y \/ c = p /\ x = inc_seqnum y /\ y = pb /\ x = pb') as Hxy by (destruct Hc as [(-> & -> & ->)|[_ ->]]; [destruct Hpb as [->| ->]; auto|by left]).
    assert (ow_owner x = ow_owner y /\ ow_tid x = ow_tid y /\ ow_owned x = ow_owned y /\ ow_term_acks x = ow_term_acks y /\ ow_events x = ow_events y /\ told_self x = told_self y /\
      ow_processed_seqnum x = ow_processed_seqnum y /\ ow_phase x = ow_phase y /\ ow_terminating x = ow_terminating y) as (E1 & E2 & E3 & E4 & E5 & E6 & E7 & E8 & E9)
      by (destruct Hxy as [->|(_ & -> & _)]; done).
    assert (ow_sent_seqnum x = ow_sent_seqnum y + if decide (c = p) then ow_sent_seqnum pb' - ow_sent_seqnum pb else 0) as E10.
    { destruct Hc as [(-> & -> & ->)|[Hne ->]]; [rewrite decide_True by done; lia|rewrite decide_False by done; lia]. }
    constructor; rewrite ?E1, ?E2, ?E3, ?E4, ?E5, ?E6, ?E7, ?E8, ?E9.
    + rewrite Hlen. apply Ho.
    + apply Ho.
    + intros z Hz. rewrite (set_owner_of objs p pb pb' Hp Hsk). by apply Ho.
    + rewrite Hown, Hterm, <- (oo_once _ _ _ _ _ Ho). do 2 f_equal. unfold owned_by_owner. rewrite (set_owner_of objs p pb pb' Hp Hsk).
      destruct (owner_of objs c) as [q|]; [|done]. destruct (decide (q = p)) as [->|Hq]; [|by rewrite list_lookup_insert_ne].
      rewrite list_lookup_insert_eq by (by eapply lookup_lt_Some). rewrite Hp. by destruct Hpb as [->| ->].
    + rewrite (set_cnt_to objs p pb pb' Hp Hsk), Hto, Hack, (set_told_child objs p pb pb' Hp). rewrite (oo_acks _ _ _ _ _ Ho).
      replace (told_child c pb') with (told_child c pb) by (by destruct Hpb as [->| ->]). lia.
    + apply Ho.
    + rewrite E10, Hseq, (oo_seq _ _ _ _ _ Ho). lia.
    + pose proof (oo_bound _ _ _ _ _ Ho). destruct (decide (c = p)); lia.
    + intros Hn. destruct (oo_done _ _ _ _ _ Ho Hn) as (D1 & D2 & D3 & D4). rewrite E10, decide_False; [split_and!; [done|lia|done|done]|]. intros ->. congruence.
    + intros H1 H2. pose proof (oo_seq _ _ _ _ _ Ho) as Hsq. pose proof (seq_on_way_nonneg c ths).
      destruct (oo_wait _ _ _ _ _ Ho H1 H2) as [Hw|[Hw|Hw]]; [left|by right; left|right; right].
      * rewrite E10. case_decide; lia.
      * apply Hchk in Hw. unfold checking in *. by rewrite E2.
    + intros Hf. destruct (oo_finishing _ _ _ _ _ Ho Hf) as (th & T1 & T2 & T3). by apply (Hdes c y th).
    + apply Ho.
  - intros t th m Ht Hm. apply (set_mail_ok objs p pb pb' Hp Hsk). by apply (Hmail t th).
  - intros t th Ht. by apply quiet_req, (Hreq t).
  - intros t th Ht. destruct (Hthread t th Ht) as [E|(x & Hx & Etx & Hcase)]; [by left|right].
    destruct (set_lookup_rev objs p pb pb' Hp Hsk _ x Hx) as (y & Hy & Hs & Hxy). destruct (same_skel _ _ Hs) as (F1 & F2 & F3). exists y. split; [done|]. split; [congruence|].
    destruct Hcase as [[G1 G2]|[G1 G2]]; [left|right].
    + split; [tauto|]. by apply (set_code_ok objs p pb pb').
    + split; [destruct Hxy as [Hxy| ->]; [|done]; rewrite Hxy, Hp in Hx; congruence|]. destruct G2 as [G2|(q & G2 & G3 & G4)]; [by left|right].
      exists q. split; [congruence|]. split; [|done]. by apply (set_running objs p pb pb').
Qed.
End quiet.

(** ** Sending a command *)

Section moved.
Context (ths : list own_thread) (t t2 : nat) (th th2 : own_thread) (x : nat * own_cmd) (i : own_instr) (rest : list own_instr).
Context (Ht : ths !! t = Some th) (Ht2 : ths !! t2 = Some th2) (Hc : th_code th = i :: rest).

Definition posted : list own_thread := <[t2 := OwnThread (th_mailbox th2 ++ [x]) (th_this th2) (th_code th2)]> ths.
Definition posted_at_t : own_thread := if decide (t = t2) then OwnThread (th_mailbox th2 ++ [x]) (th_this th2) (th_code th2) else th.
Definition moved : list own_thread := <[t := OwnThread (th_mailbox posted_at_t) (th_this posted_at_t) rest]> posted.

Lemma posted_lookup : posted !! t = Some posted_at_t.
Proof.
  unfold posted, posted_at_t. case_decide as E; [subst; apply list_lookup_insert_eq; by eapply lookup_lt_Some|by rewrite list_lookup_insert_ne].
Qed.

Lemma moved_length : length moved = length ths.
Proof. unfold moved, posted. by rewrite !length_insert. Qed.

Lemma moved_at u th0 : ths !! u = Some th0 ->
  moved !! u = Some (OwnThread (th_mailbox th0 ++ if decide (u = t2) then [x] else []) (th_this th0) (if decide (u = t) then rest else th_code th0)).
Proof.
  intros Hu. unfold moved. destruct (decide (u = t)) as [->|Hut].
  - rewrite list_lookup_insert_eq by (exact (lookup_lt_Some _ _ _ posted_lookup)). rewrite Ht in Hu. injection Hu as <-. unfold posted_at_t. destruct (decide (t = t2)) as [E|]; [|by rewrite app_nil_r].
    subst t2. rewrite Ht in Ht2. by injection Ht2 as <-.
  - rewrite list_lookup_insert_ne by done. unfold posted. destruct (decide (u = t2)) as [->|Hu2].
    + rewrite list_lookup_insert_eq by (by eapply lookup_lt_Some). rewrite Ht2 in Hu. by injection Hu as <-.
    + rewrite list_lookup_insert_ne, Hu, app_nil_r by done. by destruct th0.
Qed.

Lemma moved_inv u th' : moved !! u = Some th' -> exists th0, ths !! u = Some th0 /\
  th' = OwnThread (th_mailbox th0 ++ if decide (u = t2) then [x] else []) (th_this th0) (if decide (u = t) then rest else th_code th0).
Proof.
  intros Hu. destruct (ths !! u) as [th0|] eqn:E; [|apply lookup_lt_Some in Hu; rewrite moved_length in Hu; apply lookup_ge_None in E; lia].
  rewrite (moved_at u th0 E) in Hu. injection Hu as <-. eauto.
Qed.

Lemma moved_sum f g : zsum (th_sum f g) moved = zsum (th_sum f g) ths + f x - g (th_this th) i.
Proof.
  unfold moved. rewrite (zsum_insert _ _ _ _ _ posted_lookup). unfold posted at 1. rewrite (zsum_insert _ _ _ _ _ Ht2).
  unfold posted_at_t. destruct (decide (t = t2)) as [E|].
  - subst t2. rewrite Ht in Ht2. injection Ht2 as <-. unfold th_sum. cbn [th_mailbox th_this th_code]. rewrite Hc, zsum_app. cbn [zsum]. lia.
  - unfold th_sum. cbn [th_mailbox th_this th_code]. rewrite Hc, zsum_app. cbn [zsum]. lia.
Qed.
End moved.

(** A request stays in front of the acknowledgement. *)
Lemma req_moved objs ths t t2 th th2 inc d cmd db rest : ths !! t = Some th -> ths !! t2 = Some th2 -> th_code th = oi_send inc d cmd :: rest ->
  objs !! d = Some db -> ow_tid db = t2 -> (forall c, cmd = oc_term_req c -> is_running objs c) ->
  forall u m, (forall x, x ∈ m -> mail_ok objs u x) -> req_ok objs ths m ->
    req_ok objs (moved ths t t2 th th2 (d, cmd) rest) (m ++ if decide (u = t2) then [(d, cmd)] else []).
Proof.
  intros Ht Ht2 Hc Hd Htd Hx u m. induction m as [|[d1 c1] m IH]; intros Hm Hr; cbn [app].
  - case_decide; [|done]. destruct cmd; try done. cbn [req_ok]. split; [|done]. left. by apply Hx.
  - assert (req_ok objs (moved ths t t2 th th2 (d, cmd) rest) (m ++ if decide (u = t2) then [(d, cmd)] else [])) as IH'.
    { apply IH; [intros; apply Hm; by constructor|]. by destruct c1; cbn [req_ok] in Hr; try destruct Hr. }
    destruct c1; cbn [req_ok] in *; try done. destruct Hr as [Hr _]. split; [|done]. destruct Hr as [Hr|[Hr|Hr]]; [by left|right; left; apply elem_of_app; by left|].
    destruct Hr as (x & th1 & R1 & R2 & R3 & R4). destruct (Hm (d1, oc_term_req object_)) as (y & Hy & Hty & _); [constructor|]. cbn [fst] in Hy.
    pose proof (moved_at ths t t2 th th2 (d, cmd) rest Ht Ht2 _ th1 R2) as Ha.
    assert (oi_send false d1 oc_term_ack ∈ (if decide (ow_tid x = t) then rest else th_code th1) \/ d1 = d /\ cmd = oc_term_ack) as [R5|[-> ->]].
    { destruct (decide (ow_tid x = t)) as [E|]; [|by left]. rewrite E, Ht in R2. injection R2 as <-. rewrite Hc in R4. apply elem_of_cons in R4 as [[= -> -> ->]|R4]; [by right|by left]. }
    + right; right. exists x. eexists. split; [done|]. split; [exact Ha|]. by split.
    + right; left. rewrite Hd in Hy. injection Hy as <-. rewrite decide_True by congruence. apply elem_of_app. right. by apply list_elem_of_singleton.
Qed.

Lemma own_send_ok objs ths k t th inc d cmd rest : own_inv objs ths k -> k < 4294967295 -> ths !! t = Some th -> th_code th = oi_send inc d cmd :: rest ->
  exists w', exec_instr (OwnWorld objs ths) t (th_this th) (oi_send inc d cmd) rest = Some w' /\ own_inv (w_objs w') (w_threads w') (k + 1).
Proof.
  intros Hi Hk Ht Hc.
  destruct (iv_thread _ _ _ Hi t th Ht) as [E|(me & Hme & Etm & Hcase)]; [congruence|].
  assert (oi_send inc d cmd ∈ th_code th) as Hin by (rewrite Hc; constructor).
  destruct (code_send _ _ _ _ _ _ _ _ Hi Ht Hin) as [Hs (db & Hd & Hdp)].
  assert (ow_phase me <> deleted) as Hmd by (destruct Hcase as [[-> _]|[-> _]]; done).
  pose proof (iv_obj _ _ _ Hi d db Hd) as Hdo.
  destruct (lookup_lt_is_Some_2 ths (ow_tid db) (oo_tid _ _ _ _ _ Hdo)) as [th2 Ht2].
  set (db' := if inc then inc_seqnum db else db).
  exists (OwnWorld (<[d := db']> objs) (moved ths t (ow_tid db) th th2 (d, cmd) rest)). split.
  { unfold exec_instr, deref. cbn [w_objs]. rewrite Hme. cbn [mbind option_bind]. rewrite bool_decide_false by done. cbn [mbind option_bind].
    unfold send_command, deref. cbn [w_objs]. rewrite Hd. cbn [mbind option_bind]. rewrite bool_decide_false by congruence. cbn [mbind option_bind].
    replace (if inc then set_obj (OwnWorld objs ths) d (inc_seqnum db) else OwnWorld objs ths) with (OwnWorld (<[d := db']> objs) ths)
      by (unfold db'; destruct inc; [done|by rewrite list_insert_id]).
    cbn [w_threads]. rewrite Ht2. cbn [mbind option_bind]. unfold go_on, set_thread. cbn [w_objs w_threads].
    pose proof (posted_lookup ths t (ow_tid db) th th2 (d, cmd) Ht Ht2) as E. unfold posted in E. rewrite E. done. }
  assert (forall o, cnt_seq o (d, cmd) - seq_in_code o (th_this th) (oi_send inc d cmd) = if decide (o = d) then (if inc then 1 else 0) else 0) as Hseq.
  { intros o. cbn [seq_in_code]. destruct inc; [|by case_decide; lia]. destruct Hcase as [[_ H]|[_ [H|(p & _ & _ & H)]]]; [|congruence..]. rewrite Hc in H. destruct H as [[_ H] _].
    destruct cmd; try done; unfold cnt_seq; cbn [fst snd]; (case_decide; [rewrite bool_decide_true by done|rewrite bool_decide_false by done]; done). }
  assert (mail_ok objs (ow_tid db) (d, cmd)) as Hnew.
  { exists db. split; [done|]. split; [done|]. split; [done|]. cbn [fst snd]. destruct Hcase as [[_ H]|[_ [H|(p & _ & _ & H)]]]; [|congruence|rewrite Hc in H; by injection H as -> -> -> _].
    rewrite Hc in H. destruct H as [[_ H] _]. destruct inc, cmd; try done.
    - destruct H as [-> H]. done.
    - destruct H as [-> H]. done.
    - unfold owner_of in H. rewrite Hd in H. by eexists. }
  cbn [w_objs w_threads].
  assert (db' = db \/ db' = inc_seqnum db) as Hdb by (unfold db'; destruct inc; auto).
  pose proof (moved_sum ths t (ow_tid db) th th2 (d, cmd) _ rest Ht Ht2 Hc) as Hsum.
  apply (quiet_step k objs ths _ d db db' Hi Hd Hdp Hdb Hk); [apply moved_length|..].
  1-4: intros c; unfold on_way; rewrite Hsum; cbn [in_code]; lia.
  - intros c. unfold seq_on_way. rewrite Hsum. pose proof (Hseq c). destruct (sent_next k objs ths d db db' Hi Hd Hdb Hk) as [_ Hn].
    case_decide; [|lia]. unfold db' in *. destruct inc; lia.
  - intros u th' m Hu Hm. apply (moved_inv ths t (ow_tid db) th th2 (d, cmd) rest Ht Ht2) in Hu as (th0 & Hu & ->). cbn [th_mailbox] in Hm.
    apply elem_of_app in Hm as [Hm|Hm]; [by apply (iv_mail _ _ _ Hi u th0)|]. destruct (decide (u = ow_tid db)) as [->|]; [|by apply not_elem_of_nil in Hm].
    by apply list_elem_of_singleton in Hm as ->.
  - intros u th' Hu. apply (moved_inv ths t (ow_tid db) th th2 (d, cmd) rest Ht Ht2) in Hu as (th0 & Hu & ->). cbn [th_mailbox].
    apply (req_moved objs ths t (ow_tid db) th th2 inc d cmd db rest Ht Ht2 Hc Hd eq_refl).
    + intros c ->. destruct (Hs ltac:(done)) as [Hrun [r [[_ Hr] _]]]. destruct inc; [done|]. by destruct Hr as [-> _].
    + intros x. by apply (iv_mail _ _ _ Hi u th0).
    + by apply (iv_req _ _ _ Hi u th0).
  - intros u th' Hu. apply (moved_inv ths t (ow_tid db) th th2 (d, cmd) rest Ht Ht2) in Hu as (th0 & Hu & ->).
    pose proof (iv_thread _ _ _ Hi u th0 Hu) as Hth. unfold thread_ok in *. cbn [th_this th_code]. destruct (decide (u = t)) as [E|]; [|done]. subst u. rewrite Ht in Hu. injection Hu as <-.
    right. exists me. split; [done|]. split; [done|]. destruct Hcase as [[G1 G2]|[G1 [G2|(p & G2 & G3 & G4)]]]; rewrite Hc in *.
    + left. split; [done|]. by destruct G2.
    + done.
    + injection G4 as -> -> -> ->. right. split; [done|]. by left.
  - intros c ob (th1 & C1 & C2 & C3). pose proof (moved_at ths t (ow_tid db) th th2 (d, cmd) rest Ht Ht2 _ th1 C1) as Ha. eexists. split; [exact Ha|]. split; [done|]. cbn [th_code].
    destruct (decide (ow_tid ob = t)) as [E|]; [|done]. rewrite E, Ht in C1. injection C1 as <-. rewrite Hc in C3. by apply elem_of_cons in C3 as [?|?].
  - intros c ob th1 _ C1 C2 C3. pose proof (moved_at ths t (ow_tid db) th th2 (d, cmd) rest Ht Ht2 _ th1 C1) as Ha. eexists. split; [exact Ha|]. split; [done|]. cbn [th_code].
    destruct (decide (ow_tid ob = t)) as [E|]; [|done]. rewrite E, Ht in C1. injection C1 as <-. rewrite Hc in C3. by apply elem_of_cons in C3 as [?|?].
Qed.

(** ** A phase that changes *)

Section phase.
Context (objs : list own_t) (d : nat) (ob : own_t) (ph : own_phase) (Hd : objs !! d = Some ob).
Abbreviation objs' := (<[d := set_own_phase ob ph]> objs).

Lemma phase_lookup c x : objs' !! c = Some x -> c = d /\ x = set_own_phase ob ph \/ c <> d /\ objs !! c = Some x.
Proof.
  destruct (decide (c = d)) as [->|Hne]; [|rewrite list_lookup_insert_ne by done; auto].
  rewrite list_lookup_insert_eq by (by eapply lookup_lt_Some). intros [= <-]. auto.
Qed.

Lemma phase_lookup_rev c y : objs !! c = Some y -> exists x, objs' !! c = Some x /\ ow_tid x = ow_tid y /\ ow_owner x = ow_owner y /\ ow_owned x = ow_owned y /\ (c = d /\ y = ob /\ x = set_own_phase ob ph \/ c <> d /\ x = y).
Proof.
  intros H. destruct (decide (c = d)) as [->|Hne].
  - rewrite Hd in H. injection H as <-. exists (set_own_phase ob ph). rewrite list_lookup_insert_eq by (by eapply lookup_lt_Some). by split_and!; [..|left].
  - exists y. rewrite list_lookup_insert_ne by done. by split_and!; [..|right].
Qed.

Lemma phase_owner_of c : owner_of objs' c = owner_of objs c.
Proof.
  unfold owner_of. destruct (objs !! c) as [y|] eqn:E; [destruct (phase_lookup_rev c y E) as (x & -> & _ & Ho & _); exact Ho|].
  destruct (decide (c = d)) as [->|]; [congruence|]. by rewrite list_lookup_insert_ne, E.
Qed.

Lemma phase_owned_by c : owned_by_owner objs' c = owned_by_owner objs c.
Proof.
  unfold owned_by_owner. rewrite phase_owner_of. destruct (owner_of objs c) as [p|]; [|done]. destruct (objs !! p) as [y|] eqn:E.
  - destruct (phase_lookup_rev p y E) as (x & -> & _ & _ & -> & _). done.
  - destruct (decide (p = d)) as [->|]; [congruence|]. by rewrite list_lookup_insert_ne, E.
Qed.

Lemma phase_cnt_to ths p : on_way (cnt_to objs' p) ths = on_way (cnt_to objs p) ths.
Proof.
  assert (forall m, cnt_to objs' p m = cnt_to objs p m) as H by (intros [? []]; unfold cnt_to; simpl; by rewrite ?phase_owner_of).
  apply zsum_ext. intros th _. unfold th_sum. f_equal; apply zsum_ext; [done|]. intros [] _; simpl; auto.
Qed.

Lemma phase_running c : c <> d -> is_running objs' c <-> is_running objs c.
Proof. intros Hne. unfold is_running. by rewrite list_lookup_insert_ne. Qed.

Lemma phase_mail_ok t m : m.1 <> d -> mail_ok objs t m -> mail_ok objs' t m.
Proof.
  intros Hne (x & Hx & Ht & Hp & Hm). exists x. rewrite list_lookup_insert_ne by done. split_and!; [done..|]. destruct m as [? []]; cbn [fst snd] in *; by rewrite ?phase_owner_of.
Qed.

Lemma phase_code_ok this code : (forall inc dd cmd, oi_send inc dd cmd ∈ code -> dd <> d) -> code_ok objs this code -> code_ok objs' this code.
Proof.
  induction code as [|j l IH]; [done|]. intros Hne [H1 H2]. split; [|apply IH; [|done]; intros inc dd cmd Hin; apply (Hne inc dd cmd); by constructor].
  destruct j as [inc dd cmd| | | |]; try done. destruct H1 as [H1 H3]. split; [apply phase_running; [apply (Hne inc dd cmd); constructor|done]|].
  destruct inc, cmd; rewrite ?phase_owner_of; done.
Qed.
End phase.

(** ** The handler of an object that runs *)

Section handler.
Context (k : Z) (objs : list own_t) (ths : list own_thread) (t : nat) (th : own_thread) (ob : own_t) (i : own_instr) (rest : list own_instr).
Context (Hi : own_inv objs ths k) (Hk : k < 4294967295) (Ht : ths !! t = Some th) (Hc : th_code th = i :: rest).
Context (Hd : objs !! th_this th = Some ob) (Htid : ow_tid ob = t) (Hph : ow_phase ob = running).

Abbreviation goes_on l := (<[t := OwnThread (th_mailbox th) (th_this th) (l ++ rest)]> ths).

Lemma handler_code : code_ok objs (th_this th) (i :: rest).
Proof. rewrite <- Hc. by eapply running_code. Qed.

Lemma handler_seq : i <> oi_seqnum -> oi_seqnum ∈ rest -> ow_processed_seqnum ob <> ow_sent_seqnum ob.
Proof.
  intros _ Hin. pose proof (oo_seq _ _ _ _ _ (iv_obj _ _ _ Hi _ ob Hd)) as H. pose proof (seq_on_way_code (th_this th) ths t th oi_seqnum Ht) as H1.
  rewrite Hc in H1. specialize (H1 ltac:(by constructor)). cbn [seq_in_code] in H1. rewrite bool_decide_true in H1 by done. cbn [one] in H1. lia.
Qed.

Lemma handler_go (w : own_world) l r : w_threads w = ths -> go_on w t l r = Some (set_thread w t (OwnThread (th_mailbox th) (th_this th) (l ++ r))).
Proof. intros Hw. unfold go_on. by rewrite Hw, Ht. Qed.

Lemma handler_deref : deref (OwnWorld objs ths) (th_this th) = Some ob.
Proof. unfold deref. cbn [w_objs]. rewrite Hd. cbn [mbind option_bind]. by rewrite bool_decide_false by congruence. Qed.

(** An inproc connection to a socket. *)
Lemma bind_ok peer pb : i = oi_call (oc_send_bind peer) -> objs !! peer = Some pb -> ow_owner pb = None -> ow_terminating pb = false ->
  own_inv (<[peer := inc_seqnum pb]> objs) (goes_on [oi_send false peer oc_bind]) (k + 1).
Proof.
  intros Ei Hp Hroot Htm. pose proof (iv_obj _ _ _ Hi peer pb Hp) as Hpo. pose proof handler_code as [_ Hrest].
  assert (ow_phase pb = running) as Hpp. { destruct (decide (ow_phase pb = running)) as [|Hn]; [done|]. destruct (oo_done _ _ _ _ _ Hpo Hn) as [? _]. congruence. }
  assert (forall u th', goes_on [oi_send false peer oc_bind] !! u = Some th' -> exists th0, ths !! u = Some th0 /\ th_mailbox th' = th_mailbox th0 /\ th_this th' = th_this th0 /\
    (u = t /\ th0 = th /\ th_code th' = oi_send false peer oc_bind :: rest \/ u <> t /\ th' = th0)) as Hlook.
  { intros u th' Hu. destruct (decide (u = t)) as [->|Hne].
    - rewrite list_lookup_insert_eq in Hu by (by eapply lookup_lt_Some). injection Hu as <-. exists th. by split_and!; [..|left].
    - rewrite list_lookup_insert_ne in Hu by done. exists th'. by split_and!; [..|right]. }
  assert (forall u th0 j, ths !! u = Some th0 -> j ∈ th_code th0 -> j <> i -> exists th', goes_on [oi_send false peer oc_bind] !! u = Some th' /\ th_this th' = th_this th0 /\ j ∈ th_code th') as Hkeep.
  { intros u th0 j Hu Hj Hji. destruct (decide (u = t)) as [->|Hne].
    - rewrite Ht in Hu. injection Hu as <-. eexists. rewrite list_lookup_insert_eq by (by eapply lookup_lt_Some). split; [done|]. split; [done|]. cbn [th_code].
      rewrite Hc in Hj. apply elem_of_cons in Hj as [?|Hj]; [done|]. by constructor.
    - exists th0. by rewrite list_lookup_insert_ne. }
  apply (quiet_step k objs ths _ peer pb _ Hi Hp Hpp (or_intror eq_refl) Hk); [by rewrite length_insert|..].
  1-4: intros c; rewrite (on_way_set _ _ _ th) by done; unfold th_sum; cbn [th_mailbox th_this th_code app]; rewrite Hc, Ei; cbn [zsum in_code]; unfold cnt_own, cnt_term, cnt_to, cnt_ack; cbn [fst snd]; lia.
  - intros c. rewrite (seq_on_way_set _ _ _ th) by done. unfold th_sum. cbn [th_mailbox th_this th_code app]. rewrite Hc, Ei. cbn [zsum seq_in_code].
    destruct (sent_next k objs ths peer pb pb Hi Hp (or_introl eq_refl) Hk) as [_ Hn]. unfold cnt_seq at 3. cbn [fst snd].
    case_decide; [rewrite bool_decide_true by done|rewrite bool_decide_false by done]; cbn [one]; lia.
  - intros u th' m Hu Hm. destruct (Hlook u th' Hu) as (th0 & H0 & E & _). rewrite E in Hm. by apply (iv_mail _ _ _ Hi u th0).
  - intros u th' Hu. destruct (Hlook u th' Hu) as (th0 & H0 & E & _). rewrite E. pose proof (iv_req _ _ _ Hi u th0 H0) as Hr. revert Hr. generalize (th_mailbox th0). intros m.
    induction m as [|[dd cmd] m IH]; [done|]. destruct cmd; cbn [req_ok]; auto. intros [H1 H2]. split; [|auto]. destruct H1 as [H1|[H1|H1]]; [by left|by right; left|right; right].
    destruct H1 as (x & th1 & R1 & R2 & R3 & R4). destruct (Hkeep _ _ _ R2 R4) as (th2 & K1 & K2 & K3); [by rewrite Ei|]. exists x, th2. split_and!; congruence.
  - intros u th' Hu. destruct (Hlook u th' Hu) as (th0 & H0 & _ & E2 & [(-> & -> & E3)|[_ ->]]); [|by apply (iv_thread _ _ _ Hi)].
    right. exists ob. rewrite E2, E3. split; [done|]. split; [done|]. left. split; [done|]. split; [|done]. split; [by exists pb|done].
  - intros c x (th1 & C1 & C2 & C3). destruct (Hkeep _ _ _ C1 C3) as (th2 & K1 & K2 & K3); [by rewrite Ei|]. exists th2. split_and!; congruence.
  - intros c x th1 _ C1 C2 C3. destruct (Hkeep _ _ _ C1 C3) as (th2 & K1 & K2 & K3); [by rewrite Ei|]. exists th2. split_and!; congruence.
Qed.

(** *** The last acknowledgement has come *)

Section finish.
Context (Ei : i = oi_check) (Htm : ow_terminating ob = true) (Hps : ow_processed_seqnum ob = ow_sent_seqnum ob) (Ha : ow_term_acks ob = 0).
Abbreviation d := (th_this th).

Lemma finish_obj : obj_ok objs ths k d ob.
Proof. by apply (iv_obj _ _ _ Hi). Qed.

Lemma finish_rest : rest = [].
Proof.
  pose proof handler_code as H. rewrite Ei in H. destruct H as [[H|H] _]; [done|]. apply handler_seq in H; [done|by rewrite Ei].
Qed.

Lemma finish_seq : seq_on_way d ths = 0.
Proof. pose proof (oo_seq _ _ _ _ _ finish_obj). lia. Qed.

Lemma finish_code_none j : j ∈ th_code th -> j = oi_check.
Proof. rewrite Hc, finish_rest, Ei. by intros H%list_elem_of_singleton. Qed.

(** A command with a sequence number is not on its way. *)
Lemma finish_no_own c : on_way (cnt_own c) ths = 0 \/ owner_of objs c <> Some d.
Proof.
  destruct (decide (0 < on_way (cnt_own c) ths)) as [Hw|Hw]; [right|left; pose proof (on_way_nonneg (cnt_own c) ths (cnt_own_nonneg c)); lia]. intros Hoc.
  apply on_way_pos in Hw as (u & th1 & Hu & [([dd cmd] & Hin & Hw)|(inc & dd & cmd & Hin & Hw)]); destruct cmd; unfold cnt_own in Hw; cbn [snd] in Hw; try lia;
    apply one_pos, bool_decide_eq_true in Hw; subst object_.
  - destruct (iv_mail _ _ _ Hi u th1 _ Hu Hin) as (x & _ & _ & _ & M). simpl in M. rewrite Hoc in M. injection M as <-.
    pose proof (seq_on_way_mail d ths u th1 _ Hu Hin) as M. unfold cnt_seq in M at 1. cbn [fst snd] in M. rewrite bool_decide_true in M by done. cbn [one] in M. pose proof finish_seq. lia.
  - destruct (code_send _ _ _ _ _ _ _ _ Hi Hu Hin) as [M1 _]. destruct M1 as [_ [r [[_ M2] _]]]; [done|]. destruct inc; [|done]. destruct M2 as [-> M5]. rewrite Hoc in M5.
    injection M5 as M5. assert (u = t) as ->.
    { destruct (iv_thread _ _ _ Hi u th1 Hu) as [E|(x & Hx & Htx & _)]; [rewrite E in Hin; by apply not_elem_of_nil in Hin|]. rewrite <- M5, Hd in Hx. congruence. }
    rewrite Ht in Hu. injection Hu as <-. by apply finish_code_none in Hin.
Qed.

Lemma finish_no_child c x : objs !! c = Some x -> ow_owner x = Some d -> ow_phase x <> running.
Proof.
  intros Hx Ho Hr. pose proof (child_announced _ _ _ c x d ob Hi Hx Hr Ho Hd Ha (oo_told _ _ _ _ _ finish_obj Htm)) as H.
  destruct (finish_no_own c) as [E|E]; [lia|]. apply E. unfold owner_of. by rewrite Hx.
Qed.

Lemma finish_no_ack : on_way (cnt_ack d) ths = 0.
Proof. pose proof (acks_events k objs ths d ob Hi Hd). pose proof (on_way_nonneg (cnt_ack d) ths (cnt_ack_nonneg d)). lia. Qed.

(** Neither an announcement nor an order to terminate. *)
Lemma finish_told : on_way (cnt_own d) ths = 0 /\ on_way (cnt_term d) ths = 0 /\ ow_pending ob = false.
Proof.
  pose proof (oo_once _ _ _ _ _ finish_obj) as H. unfold told_self in H. rewrite Htm in H. pose proof (on_way_nonneg (cnt_own d) ths (cnt_own_nonneg d)).
  pose proof (on_way_nonneg (cnt_term d) ths (cnt_term_nonneg d)). pose proof (one_nonneg (ow_pending ob)).
  assert (0 <= owned_by_owner objs d) by (unfold owned_by_owner; destruct (owner_of objs d) as [x|]; [destruct (objs !! x); [apply one_nonneg|lia]|lia]).
  destruct (ow_owner ob); cbn [one] in H; (split_and!; [lia|lia|apply one_false; lia]).
Qed.

Lemma finish_no_mail u th1 m : ths !! u = Some th1 -> m ∈ th_mailbox th1 -> m.1 <> d.
Proof.
  intros Hu Hm E. pose proof finish_seq as Hs. pose proof finish_no_ack as Hk1. destruct finish_told as (_ & Ht1 & _). destruct m as [dd cmd]. cbn [fst] in E. subst dd.
  pose proof (seq_on_way_mail d ths u th1 _ Hu Hm) as M1. pose proof (on_way_mail (cnt_ack d) ths u th1 _ (cnt_ack_nonneg d) Hu Hm) as M2.
  pose proof (on_way_mail (cnt_term d) ths u th1 _ (cnt_term_nonneg d) Hu Hm) as M3. rewrite Hs in M1. rewrite Hk1 in M2. rewrite Ht1 in M3.
  unfold cnt_seq in M1. unfold cnt_ack in M2. unfold cnt_term in M3. cbn [fst snd] in *. rewrite bool_decide_true in M1, M2, M3 by done.
  destruct cmd as [|c| | |c|l|]; cbn [one] in *; try lia.
  destruct (iv_mail _ _ _ Hi u th1 _ Hu Hm) as (x & _ & _ & _ & Hoc). cbn [fst snd] in Hoc.
  pose proof (iv_req _ _ _ Hi u th1 Hu) as Hr. revert Hm Hr M2.
  assert (forall m', m' ⊆ th_mailbox th1 -> (d, oc_term_req c) ∈ m' -> req_ok objs ths m' -> False) as Hgo; [|intros Hm Hr _; exact (Hgo (th_mailbox th1) ltac:(done) Hm Hr)].
  induction m' as [|[d1 c1] m' IH]; intros Hsub Hin Hr; [by apply not_elem_of_nil in Hin|].
  apply elem_of_cons in Hin as [[= <- <-]|Hin].
  - cbn [req_ok] in Hr. destruct Hr as [[(x' & Hx' & Hp')|[Hin'|(x' & th2 & R1 & R2 & R3 & R4)]] _].
    + unfold owner_of in Hoc. rewrite Hx' in Hoc. cbn [mbind option_bind] in Hoc. by apply (finish_no_child c x').
    + pose proof (on_way_mail (cnt_ack d) ths u th1 _ (cnt_ack_nonneg d) Hu (Hsub (d, oc_term_ack) ltac:(by constructor))) as M. rewrite Hk1 in M. unfold cnt_ack in M. cbn [fst snd] in M. rewrite bool_decide_true in M by done. cbn [one] in M. lia.
    + pose proof (on_way_code (cnt_ack d) ths _ th2 _ _ _ (cnt_ack_nonneg d) R2 R4) as M. rewrite Hk1 in M. unfold cnt_ack in M. cbn [fst snd] in M. rewrite bool_decide_true in M by done. cbn [one] in M. lia.
  - apply IH; [intros y Hy; apply Hsub; by constructor|done|]. by destruct c1; cbn [req_ok] in Hr; try destruct Hr.
Qed.

Lemma finish_no_send u th1 inc dd cmd : ths !! u = Some th1 -> oi_send inc dd cmd ∈ th_code th1 -> dd <> d.
Proof.
  intros Hu Hin ->. pose proof finish_seq as Hs. pose proof finish_no_ack as Hk1. destruct finish_told as (To & Tt & _).
  destruct (code_send _ _ _ _ _ _ _ _ Hi Hu Hin) as [M1 _].
  pose proof (on_way_code (cnt_ack d) ths u th1 _ _ _ (cnt_ack_nonneg d) Hu Hin) as M2. rewrite Hk1 in M2. unfold cnt_ack in M2. cbn [fst snd] in M2. rewrite bool_decide_true in M2 by done.
  pose proof (on_way_code (cnt_term d) ths u th1 _ _ _ (cnt_term_nonneg d) Hu Hin) as M3. rewrite Tt in M3. unfold cnt_term in M3. cbn [fst snd] in M3. rewrite bool_decide_true in M3 by done.
  pose proof (seq_on_way_code d ths u th1 _ Hu Hin) as M4. rewrite Hs in M4. cbn [seq_in_code] in M4. unfold cnt_seq in M4. cbn [fst snd] in M4. rewrite bool_decide_true in M4 by done.
  destruct cmd as [|c| | |c|l|]; cbn [one] in *; try lia; (destruct (M1 ltac:(done)) as [Hrun [r [[_ Hr] Hsub]]]); destruct inc; try done; try lia.
  - destruct Hr as [Ho Hown]. apply Hsub in Hown. pose proof (on_way_code (cnt_own d) ths u th1 _ _ _ (cnt_own_nonneg d) Hu Hown) as M. rewrite To in M.
    unfold cnt_own in M. cbn [snd] in M. rewrite bool_decide_true in M by done. cbn [one] in M. lia.
  - destruct Hr as [E Ho]. destruct (finish_no_own c) as [F|F]; [|congruence]. pose proof (on_way_code (cnt_own c) ths u th1 _ _ _ (cnt_own_nonneg c) Hu Hin) as M. rewrite F in M.
    unfold cnt_own in M. cbn [snd] in M. rewrite bool_decide_true in M by done. cbn [one] in M. lia.
  - destruct Hrun as (x & Hx & Hxr). unfold owner_of in Hr. rewrite Hx in Hr. by apply (finish_no_child _ x Hx).
  - destruct Hr as [-> Hr]. destruct Hrun as (x & Hx & Hxr). unfold owner_of in Hr. rewrite Hx in Hr. by apply (finish_no_child _ x Hx).
Qed.

Definition fin_code : list own_instr := match ow_owner ob with Some p => [oi_send false p oc_term_ack; oi_destroy] | None => [oi_destroy] end.
Abbreviation fin_objs := (<[d := set_own_phase ob finishing]> objs).
Abbreviation fin_ths := (<[t := OwnThread (th_mailbox th) d fin_code]> ths).

Lemma fin_at_t : fin_ths !! t = Some (OwnThread (th_mailbox th) d fin_code).
Proof. apply list_lookup_insert_eq. by eapply lookup_lt_Some. Qed.

Lemma fin_sum f : on_way f fin_ths = on_way f ths + match ow_owner ob with Some p => f (p, oc_term_ack) | None => 0 end.
Proof.
  rewrite (on_way_set _ _ _ th) by done. unfold th_sum, fin_code. cbn [th_mailbox th_this th_code]. rewrite Hc, finish_rest, Ei. destruct (ow_owner ob); cbn [zsum in_code]; lia.
Qed.

Lemma fin_seq c : seq_on_way c fin_ths = seq_on_way c ths.
Proof.
  rewrite (seq_on_way_set _ _ _ th) by done. unfold th_sum, fin_code. cbn [th_mailbox th_this th_code]. rewrite Hc, finish_rest, Ei. destruct (ow_owner ob); cbn [zsum seq_in_code]; [|lia].
  unfold cnt_seq. cbn [snd]. lia.
Qed.

(** The order to terminate has become an acknowledgement. *)
Lemma fin_acks c : zsum (told_child c) fin_objs + on_way (cnt_ack c) fin_ths = zsum (told_child c) objs + on_way (cnt_ack c) ths.
Proof.
  rewrite (zsum_insert _ _ _ _ _ Hd), fin_sum. destruct finish_told as (_ & _ & Hq).
  assert (told_child c (set_own_phase ob finishing) = 0) as -> by (unfold told_child; cbn [set_own_phase ow_phase]; by rewrite (bool_decide_false (finishing = running)), andb_false_r by done).
  unfold told_child at 2. rewrite Hph, Htm, Hq, (bool_decide_true (running = running)), andb_true_r by done. destruct (ow_owner ob) as [p|].
  - unfold cnt_ack at 2. cbn [fst snd]. destruct (decide (p = c)) as [->|Hne].
    + rewrite !bool_decide_true by done. cbn [one]. lia.
    + rewrite !bool_decide_false by congruence. cbn [one]. lia.
  - rewrite bool_decide_false by done. lia.
Qed.

Lemma fin_keep u th1 j : ths !! u = Some th1 -> j ∈ th_code th1 -> j <> oi_check -> fin_ths !! u = Some th1.
Proof.
  intros Hu Hj Hne. rewrite list_lookup_insert_ne; [done|]. intros <-. rewrite Ht in Hu. injection Hu as <-. by apply finish_code_none in Hj.
Qed.

Lemma fin_owner_running p : ow_owner ob = Some p -> is_running fin_objs p.
Proof.
  intros Hp. assert (p <> d) as Hne by (pose proof (oo_owner _ _ _ _ _ finish_obj p Hp); lia).
  apply (phase_running objs d ob finishing p Hne). by apply (owner_running objs ths k d ob p).
Qed.

Lemma fin_req m : (forall x, x ∈ m -> exists u, mail_ok objs u x) -> req_ok objs ths m -> req_ok fin_objs fin_ths m.
Proof.
  induction m as [|[d1 c1] m IH]; [done|]. intros Hm Hr.
  assert (req_ok fin_objs fin_ths m) as IH' by (apply IH; [intros; apply Hm; by constructor|]; by destruct c1; cbn [req_ok] in Hr; try destruct Hr).
  destruct c1 as [|c| | |c|l|]; cbn [req_ok] in *; try done. destruct Hr as [Hr _]. split; [|done]. destruct Hr as [Hr|[Hr|Hr]]; [|by right; left|].
  - destruct (decide (c = d)) as [->|Hne]; [|left; by apply phase_running]. right; right.
    destruct (Hm (d1, oc_term_req d)) as (u & x & _ & _ & _ & Ho); [constructor|]. cbn [fst snd] in Ho. unfold owner_of in Ho. rewrite Hd in Ho. cbn [mbind option_bind] in Ho.
    exists (set_own_phase ob finishing). eexists. split; [apply list_lookup_insert_eq; by eapply lookup_lt_Some|]. split; [cbn [set_own_phase ow_tid]; rewrite Htid; apply fin_at_t|].
    split; [done|]. cbn [th_code]. unfold fin_code. rewrite Ho. constructor.
  - right; right. destruct Hr as (x & th1 & R1 & R2 & R3 & R4). destruct (phase_lookup_rev objs d ob finishing Hd c x R1) as (y & Y1 & Y2 & _). exists y, th1.
    split; [done|]. rewrite Y2. split; [|done]. by apply (fin_keep _ _ _ R2 R4).
Qed.

Lemma fin_obj c x : fin_objs !! c = Some x -> obj_ok fin_objs fin_ths k c x.
Proof.
  intros Hx.
  assert (exists y, objs !! c = Some y /\ (c = d /\ y = ob /\ x = set_own_phase ob finishing \/ c <> d /\ x = y)) as (y & Hy & Hxy)
    by (destruct (phase_lookup objs d ob finishing Hd c x Hx) as [[-> ->]|[? ?]]; eauto 6).
  assert (ow_owner x = ow_owner y /\ ow_tid x = ow_tid y /\ ow_owned x = ow_owned y /\ ow_term_acks x = ow_term_acks y /\ ow_events x = ow_events y /\ told_self x = told_self y /\
    ow_processed_seqnum x = ow_processed_seqnum y /\ ow_sent_seqnum x = ow_sent_seqnum y /\ ow_terminating x = ow_terminating y) as (E1 & E2 & E3 & E4 & E5 & E6 & E7 & E8 & E9)
    by (destruct Hxy as [(_ & -> & ->)|[_ ->]]; done).
  pose proof (iv_obj _ _ _ Hi c y Hy) as Ho.
  assert (forall (f : nat -> nat * own_cmd -> Z), (forall p, f c (p, oc_term_ack) = 0) -> on_way (f c) fin_ths = on_way (f c) ths) as Eo
    by (intros f Hf; rewrite fin_sum; destruct (ow_owner ob); rewrite ?Hf; lia).
  constructor; rewrite ?E1, ?E2, ?E3, ?E4, ?E5, ?E6, ?E7, ?E8, ?E9.
  - rewrite length_insert. apply Ho.
  - apply Ho.
  - intros z Hz. rewrite phase_owner_of by done. by apply Ho.
  - rewrite phase_owned_by, (Eo cnt_own), (Eo cnt_term) by done. apply Ho.
  - rewrite phase_cnt_to, (Eo (cnt_to objs)) by done. rewrite (oo_acks _ _ _ _ _ Ho). pose proof (fin_acks c). lia.
  - apply Ho.
  - rewrite fin_seq. apply Ho.
  - apply Ho.
  - intros Hn. destruct Hxy as [(-> & -> & ->)|[_ ->]]; [|by apply Ho]. split_and!; [done..|]. by apply (oo_told _ _ _ _ _ finish_obj).
  - intros H1 H2. destruct Hxy as [(_ & _ & ->)|[Hne ->]]; [done|]. destruct (oo_wait _ _ _ _ _ Ho H1 H2) as [Hw|[Hw|(th1 & W1 & W2 & W3)]]; [by left|by right; left|right; right].
    exists th1. split; [|done]. rewrite list_lookup_insert_ne; [done|]. intros E. rewrite <- E, Ht in W1. injection W1 as <-. done.
  - intros Hf. destruct Hxy as [(-> & -> & ->)|[Hne ->]].
    + exists (OwnThread (th_mailbox th) d fin_code). rewrite Htid. split; [apply fin_at_t|]. split; [done|]. cbn [th_code]. unfold fin_code. destruct (ow_owner ob); repeat constructor.
    + destruct (oo_finishing _ _ _ _ _ Ho Hf) as (th1 & T1 & T2 & T3). exists th1. split; [|done]. by apply (fin_keep _ _ _ T1 T3).
  - apply Ho.
Qed.

Lemma finish_step : own_inv fin_objs fin_ths k.
Proof.
  constructor; [apply fin_obj|..].
  - intros u th1 m Hu Hm. assert (exists th0, ths !! u = Some th0 /\ m ∈ th_mailbox th0) as (th0 & H0 & Hm0).
    { destruct (decide (u = t)) as [->|Hne]; [rewrite fin_at_t in Hu; injection Hu as <-; by exists th|rewrite list_lookup_insert_ne in Hu by done; by exists th1]. }
    apply phase_mail_ok; [done|by apply (finish_no_mail u th0)|by apply (iv_mail _ _ _ Hi u th0)].
  - intros u th1 Hu. assert (exists th0, ths !! u = Some th0 /\ th_mailbox th1 = th_mailbox th0) as (th0 & H0 & ->).
    { destruct (decide (u = t)) as [->|Hne]; [rewrite fin_at_t in Hu; injection Hu as <-; by exists th|rewrite list_lookup_insert_ne in Hu by done; by exists th1]. }
    apply fin_req; [|by apply (iv_req _ _ _ Hi u th0)]. intros x Hx. exists u. by apply (iv_mail _ _ _ Hi u th0).
  - intros u th1 Hu. destruct (decide (u = t)) as [->|Hne].
    + rewrite fin_at_t in Hu. injection Hu as <-. right. exists (set_own_phase ob finishing). cbn [th_this th_code]. split; [apply list_lookup_insert_eq; by eapply lookup_lt_Some|].
      split; [done|]. right. split; [done|]. unfold fin_code. destruct (ow_owner ob) as [p|] eqn:Ep; [right|by left]. exists p. split; [done|]. split; [|done]. by apply fin_owner_running.
    + rewrite list_lookup_insert_ne in Hu by done. destruct (iv_thread _ _ _ Hi u th1 Hu) as [E|(x & X1 & X2 & X3)]; [by left|right].
      assert (th_this th1 <> d) as Hnd by congruence. exists x. rewrite list_lookup_insert_ne by done. split_and!; [done..|].
      destruct X3 as [[X3 X4]|[X3 [X4|(p & X4 & X5 & X6)]]]; [left|right|right]; (split; [done|]).
      * apply phase_code_ok; [done| |done]. intros inc dd cmd. by apply (finish_no_send u th1).
      * by left.
      * right. exists p. split; [done|]. split; [|done]. apply phase_running; [|done]. apply (finish_no_send u th1 false p oc_term_ack Hu). rewrite X6. constructor.
Qed.
End finish.
End handler.

(** [check_term_acks]: the object goes on, or finishes. *)
Lemma check_ok k objs ths t th ob rest : own_inv objs ths k -> ths !! t = Some th -> th_code th = oi_check :: rest ->
  objs !! th_this th = Some ob -> ow_tid ob = t -> ow_phase ob = running ->
  exists ob' l, check_term_acks ob = Some (ob', l) /\
    own_inv (<[th_this th := ob']> objs) (<[t := OwnThread (th_mailbox th) (th_this th) (l ++ rest)]> ths) k.
Proof.
  intros Hi Ht Hc Hd Htid Hph. unfold check_term_acks. destruct (ow_terminating ob && _ && _) eqn:E.
  - apply andb_prop in E as [[E1 E2]%andb_prop E3]. bool_prop.
    rewrite (bool_decide_true _ (oo_told _ _ _ _ _ (iv_obj _ _ _ Hi _ ob Hd) E1)). eexists _, _. split; [done|].
    rewrite (finish_rest k objs ths t th ob oi_check rest Hi Ht Hc Hd Htid Hph eq_refl E2), app_nil_r.
    by apply (finish_step k objs ths t th ob oi_check rest Hi Ht Hc Hd Htid Hph).
  - eexists ob, []. split; [done|]. apply (effect_instr k objs ths t th (th_this th) ob ob oi_check rest [] 0); try done.
    + by apply (effect_nothing k objs ths).
    + intros o. simpl. by case_decide.
    + intros _. right. destruct (ow_terminating ob); [right|by left]. cbn [andb] in E. apply andb_false_iff in E as [E|E]; bool_prop; [by left|by right].
Qed.

Lemma seqnum_ok k objs ths t th ob rest : own_inv objs ths k -> k < 4294967295 -> ths !! t = Some th -> th_code th = oi_seqnum :: rest ->
  objs !! th_this th = Some ob -> ow_tid ob = t -> ow_phase ob = running ->
  exists ob' l, process_seqnum ob = Some (ob', l) /\
    own_inv (<[th_this th := ob']> objs) (<[t := OwnThread (th_mailbox th) (th_this th) (l ++ rest)]> ths) k.
Proof.
  intros Hi Hk Ht Hc Hd Htid Hph. pose proof (iv_obj _ _ _ Hi _ ob Hd) as Ho.
  assert (ow_processed_seqnum ob < ow_sent_seqnum ob) as Hlt.
  { pose proof (oo_seq _ _ _ _ _ Ho) as H. pose proof (seq_on_way_code (th_this th) ths t th oi_seqnum Ht) as H1. rewrite Hc in H1. specialize (H1 ltac:(constructor)).
    cbn [seq_in_code] in H1. rewrite bool_decide_true in H1 by done. cbn [one] in H1. lia. }
  pose proof (oo_bound _ _ _ _ _ Ho) as Hb. unfold process_seqnum. rewrite u64_small by (unfold is_u64; lia).
  set (ob1 := set_processed ob (ow_processed_seqnum ob + 1)).
  assert (effect k objs (th_this th) ob ob1 [oi_check] None 1) as He.
  { constructor; try done; try apply Ho.
    - intros p. change (told_child p ob1) with (told_child p ob). simpl. case_decide; lia.
    - intros o. simpl. case_decide; lia.
    - simpl. lia.
    - intros _. right; right; left. by apply list_elem_of_singleton.
    - intros r Hr Hok. split; [|done]. destruct Hr as [->|[_ ?]]; [by left|by right]. }
  assert (own_inv (<[th_this th := ob1]> objs) (<[t := OwnThread (th_mailbox th) (th_this th) (oi_check :: rest)]> ths) k) as Hi1.
  { apply (effect_instr k objs ths t th (th_this th) ob ob1 oi_seqnum rest [oi_check] 1); try done. intros o. cbn [seq_in_code]. case_decide; [by rewrite bool_decide_true|by rewrite bool_decide_false]. }
  destruct (check_ok k _ _ t (OwnThread (th_mailbox th) (th_this th) (oi_check :: rest)) ob1 rest Hi1) as (ob' & l & E & Hi2); try done.
  - apply list_lookup_insert_eq. by eapply lookup_lt_Some.
  - apply list_lookup_insert_eq. by eapply lookup_lt_Some.
  - exists ob', l. split; [done|]. cbn [th_this th_mailbox] in Hi2. by rewrite !list_insert_insert_eq in Hi2.
Qed.

(** [delete this]. *)
Lemma destroy_ok k objs ths t th ob : own_inv objs ths k -> ths !! t = Some th -> th_code th = [oi_destroy] ->
  objs !! th_this th = Some ob -> ow_tid ob = t -> ow_phase ob = finishing ->
  own_inv (<[th_this th := set_own_phase ob deleted]> objs) (<[t := OwnThread (th_mailbox th) (th_this th) []]> ths) k.
Proof.
  intros Hi Ht Hc Hd Htid Hph. set (d := th_this th) in *. set (objs' := <[d := set_own_phase ob deleted]> objs). set (ths' := <[t := OwnThread (th_mailbox th) d []]> ths).
  assert (forall c, is_running objs c -> c <> d) as Hnr by (intros c (x & Hx & Hr) ->; rewrite Hd in Hx; congruence).
  assert (forall c, is_running objs c -> is_running objs' c) as Hrun by (intros c Hr; apply phase_running; [by apply Hnr|done]).
  assert (ths' !! t = Some (OwnThread (th_mailbox th) d [])) as Ht' by (apply list_lookup_insert_eq; by eapply lookup_lt_Some).
  assert (forall f, on_way f ths' = on_way f ths) as Eo by (intros f; unfold ths'; rewrite (on_way_set _ _ _ th) by done; unfold th_sum; rewrite Hc; simpl; lia).
  assert (forall c, seq_on_way c ths' = seq_on_way c ths) as Es by (intros c; unfold ths'; rewrite (seq_on_way_set _ _ _ th) by done; unfold th_sum; rewrite Hc; simpl; lia).
  assert (forall u th1 j, ths !! u = Some th1 -> j ∈ th_code th1 -> j <> oi_destroy \/ th_this th1 <> d -> ths' !! u = Some th1) as Hkeep.
  { intros u th1 j Hu Hj Hne. unfold ths'. rewrite list_lookup_insert_ne; [done|]. intros <-. rewrite Ht in Hu. injection Hu as <-. rewrite Hc in Hj. apply list_elem_of_singleton in Hj. tauto. }
  assert (forall u th1, ths' !! u = Some th1 -> exists th0, ths !! u = Some th0 /\ th_mailbox th1 = th_mailbox th0) as Hm0.
  { intros u th1 Hu. destruct (decide (u = t)) as [->|Hne]; [rewrite Ht' in Hu; injection Hu as <-; by exists th|unfold ths' in Hu; rewrite list_lookup_insert_ne in Hu by done; by exists th1]. }
  constructor.
  - intros c x Hx.
    assert (exists y, objs !! c = Some y /\ (c = d /\ y = ob /\ x = set_own_phase ob deleted \/ c <> d /\ x = y)) as (y & Hy & Hxy)
      by (destruct (phase_lookup objs d ob deleted Hd c x Hx) as [[-> ->]|[? ?]]; eauto 6).
    assert (ow_owner x = ow_owner y /\ ow_tid x = ow_tid y /\ ow_owned x = ow_owned y /\ ow_term_acks x = ow_term_acks y /\ ow_events x = ow_events y /\ told_self x = told_self y /\
      ow_processed_seqnum x = ow_processed_seqnum y /\ ow_sent_seqnum x = ow_sent_seqnum y /\ ow_terminating x = ow_terminating y) as (E1 & E2 & E3 & E4 & E5 & E6 & E7 & E8 & E9)
      by (destruct Hxy as [(_ & -> & ->)|[_ ->]]; done).
    pose proof (iv_obj _ _ _ Hi c y Hy) as Ho. constructor; rewrite ?E1, ?E2, ?E3, ?E4, ?E5, ?E6, ?E7, ?E8, ?E9, ?Es.
    + unfold ths'. rewrite length_insert. apply Ho.
    + apply Ho.
    + intros z Hz. unfold objs'. rewrite phase_owner_of by done. by apply Ho.
    + unfold objs'. rewrite phase_owned_by, !Eo by done. apply Ho.
    + unfold objs'. rewrite phase_cnt_to, !Eo by done. rewrite (zsum_insert _ _ _ _ _ Hd), (oo_acks _ _ _ _ _ Ho).
      assert (told_child c ob = 0 /\ told_child c (set_own_phase ob deleted) = 0) as [-> ->]; [|lia].
      unfold told_child. cbn [set_own_phase ow_phase]. by rewrite Hph, (bool_decide_false (finishing = running)), (bool_decide_false (deleted = running)), !andb_false_r by done.
    + apply Ho.
    + apply Ho.
    + apply Ho.
    + intros Hn. apply Ho. destruct Hxy as [(_ & -> & _)|[_ ->]]; congruence.
    + intros H1 H2. destruct Hxy as [(_ & _ & ->)|[Hne ->]]; [done|]. destruct (oo_wait _ _ _ _ _ Ho H1 H2) as [Hw|[Hw|(th1 & W1 & W2 & W3)]]; [by left|by right; left|right; right].
      exists th1. split; [|done]. apply (Hkeep _ _ _ W1 W3). by left.
    + intros Hf. destruct Hxy as [(_ & _ & ->)|[Hne ->]]; [done|]. destruct (oo_finishing _ _ _ _ _ Ho Hf) as (th1 & T1 & T2 & T3). exists th1. split; [|done].
      apply (Hkeep _ _ _ T1 T3). right. congruence.
    + apply Ho.
  - intros u th1 m Hu Hm. destruct (Hm0 u th1 Hu) as (th0 & H0 & E). rewrite E in Hm. pose proof (iv_mail _ _ _ Hi u th0 m H0 Hm) as Hok.
    apply phase_mail_ok; [done| |done]. destruct Hok as (x & X1 & _ & X2 & _). apply Hnr. by exists x.
  - intros u th1 Hu. destruct (Hm0 u th1 Hu) as (th0 & H0 & ->). pose proof (iv_req _ _ _ Hi u th0 H0) as Hr. revert Hr. generalize (th_mailbox th0). intros m.
    induction m as [|[dd cmd] m IH]; [done|]. destruct cmd; cbn [req_ok]; auto. intros [H1 H2]. split; [|auto]. destruct H1 as [H1|[H1|H1]]; [left; auto|by right; left|right; right].
    destruct H1 as (x & th2 & R1 & R2 & R3 & R4). destruct (phase_lookup_rev objs d ob deleted Hd _ x R1) as (y & Y1 & Y2 & _). exists y, th2. split; [done|]. rewrite Y2. split; [|done].
    apply (Hkeep _ _ _ R2 R4). by left.
  - intros u th1 Hu. destruct (decide (u = t)) as [->|Hne]; [rewrite Ht' in Hu; injection Hu as <-; by left|].
    unfold ths' in Hu. rewrite list_lookup_insert_ne in Hu by done. destruct (iv_thread _ _ _ Hi u th1 Hu) as [E|(x & X1 & X2 & X3)]; [by left|right].
    assert (th_this th1 <> d) as Hnd by (intros E; rewrite E, Hd in X1; congruence). exists x. unfold objs'. rewrite list_lookup_insert_ne by done. split_and!; [done..|].
    destruct X3 as [[X3 X4]|[X3 [X4|(p & X4 & X5 & X6)]]]; [left|right|right]; (split; [done|]).
    + apply phase_code_ok; [done| |done]. intros inc dd cmd Hin. apply Hnr. by apply (code_send _ _ _ _ _ _ _ _ Hi Hu Hin).
    + by left.
    + right. exists p. split; [done|]. split; [|done]. by apply Hrun.
Qed.

(** ** A new object *)

Section append.
Context (k : Z) (objs : list own_t) (ths : list own_thread) (t : nat) (th : own_thread) (pre l rest : list own_instr) (nw : own_t).
Context (Hi : own_inv objs ths k) (Hk : 0 <= k) (Ht : ths !! t = Some th) (Hc : th_code th = pre ++ rest).
Context (Hpre : forall j, j ∈ pre -> exists c, j = oi_call c).
Abbreviation n := (length objs).
Abbreviation objs' := (objs ++ [nw]).
Abbreviation th' := (OwnThread (th_mailbox th) (th_this th) (l ++ rest)).
Abbreviation ths' := (<[t := th']> ths).

Context (Hl_own : forall c, zsum (in_code (cnt_own c) (th_this th)) l = if decide (c = n) then match ow_owner nw with Some _ => 1 | None => 0 end else 0).
Context (Hl_term : forall c, zsum (in_code (cnt_term c) (th_this th)) l = 0) (Hl_to : forall c, zsum (in_code (cnt_to objs' c) (th_this th)) l = 0).
Context (Hl_ack : forall c, zsum (in_code (cnt_ack c) (th_this th)) l = 0).
Context (Hl_seq : forall c, zsum (seq_in_code c (th_this th)) l = if decide (c = n) then ow_sent_seqnum nw else 0).
Context (Hnew : exists tid o linger, (tid < length ths)%nat /\ (forall p, o = Some p -> (p < n)%nat) /\ (nw = own_new tid o linger \/ nw = inc_seqnum (own_new tid o linger))).
Context (Hthread : thread_ok objs' t th').

Lemma new_lookup c x : objs' !! c = Some x -> objs !! c = Some x \/ c = n /\ x = nw.
Proof. intros H. apply lookup_app_Some in H as [H|[H1 H2]]; [by left|right]. apply list_lookup_singleton_Some in H2 as [H2 ->]. split; [lia|done]. Qed.

Lemma old_lookup c x : objs !! c = Some x -> objs' !! c = Some x.
Proof. intros H. by apply lookup_app_l_Some. Qed.

Lemma old_owner_of c x : objs !! c = Some x -> owner_of objs' c = owner_of objs c.
Proof. intros H. unfold owner_of. by rewrite H, (old_lookup c x H). Qed.

Lemma some_owner_of c p : owner_of objs c = Some p -> owner_of objs' c = Some p.
Proof. intros H. destruct (objs !! c) as [x|] eqn:E; [by rewrite (old_owner_of c x E)|]. unfold owner_of in H. by rewrite E in H. Qed.

Lemma old_running c : is_running objs c -> is_running objs' c.
Proof. intros (x & Hx & Hr). exists x. split; [by apply old_lookup|done]. Qed.

Lemma old_mail_ok u m : mail_ok objs u m -> mail_ok objs' u m.
Proof.
  intros (x & Hx & H1 & H2 & H3). exists x. split; [by apply old_lookup|]. split_and!; [done..|]. destruct m as [? []]; cbn [fst snd] in *; try done; by apply some_owner_of.
Qed.

Lemma old_code_ok this code : code_ok objs this code -> code_ok objs' this code.
Proof.
  induction code as [|j r IH]; [done|]. intros [H1 H2]. split; [|auto]. destruct j as [inc dd cmd| | | |]; try done. destruct H1 as [H1 H3]. split; [by apply old_running|].
  destruct inc, cmd; try done; first [by apply some_owner_of|destruct H3 as [H3 H4]; split; [by apply some_owner_of|done]|destruct H3 as [H3 H4]; split; [done|by apply some_owner_of]].
Qed.

Lemma new_fields : ow_phase nw = running /\ ow_terminating nw = false /\ ow_pending nw = false /\ ow_owned nw = ∅ /\ ow_term_acks nw = 0 /\ ow_events nw = 0 /\
  ow_processed_seqnum nw = 0 /\ 0 <= ow_sent_seqnum nw <= 1 /\ (ow_tid nw < length ths)%nat /\ (forall p, ow_owner nw = Some p -> (p < n)%nat).
Proof. destruct Hnew as (tid & o & linger & H1 & H2 & [->| ->]); by split_and!. Qed.

(** Whatever is on its way names old objects. *)
Lemma none_new f : (forall m, 0 <= f m) -> (forall d cmd, is_running objs d -> (forall c, cmd = oc_own c -> owner_of objs c <> None) -> f (d, cmd) = 0) -> on_way f ths = 0.
Proof.
  intros Hf Hz. destruct (decide (0 < on_way f ths)) as [Hw|Hw]; [|pose proof (on_way_nonneg f ths Hf); lia].
  apply on_way_pos in Hw as (u & th1 & Hu & [([d cmd] & Hin & Hw)|(inc & d & cmd & Hin & Hw)]); rewrite Hz in Hw; try lia.
  - destruct (iv_mail _ _ _ Hi u th1 _ Hu Hin) as (x & X1 & _ & X2 & _). by exists x.
  - intros c ->. destruct (iv_mail _ _ _ Hi u th1 _ Hu Hin) as (x & _ & _ & _ & X3). cbn [fst snd] in X3. by rewrite X3.
  - by apply (code_send _ _ _ _ _ _ _ _ Hi Hu Hin).
  - intros c ->. destruct (code_send _ _ _ _ _ _ _ _ Hi Hu Hin) as [M1 _]. destruct M1 as [_ [r [[_ M2] _]]]; [done|]. destruct inc; [|done]. destruct M2 as [_ M2]. by rewrite M2.
Qed.

Lemma running_old d : is_running objs d -> d <> n.
Proof. intros (x & Hx & _) ->. apply lookup_lt_Some in Hx. lia. Qed.

Lemma none_own : on_way (cnt_own n) ths = 0.
Proof.
  apply none_new; [apply cnt_own_nonneg|]. intros d cmd _ Ho. unfold cnt_own. cbn [snd]. destruct cmd as [|c| | |c| |]; try done. rewrite bool_decide_false; [done|]. intros ->.
  apply (Ho n eq_refl). unfold owner_of. by rewrite (lookup_ge_None_2 objs n) by lia.
Qed.
Lemma none_term : on_way (cnt_term n) ths = 0.
Proof. apply none_new; [apply cnt_term_nonneg|]. intros d cmd Hd _. unfold cnt_term. cbn [fst snd]. destruct cmd; try done. by rewrite bool_decide_false by by apply running_old. Qed.
Lemma none_ack : on_way (cnt_ack n) ths = 0.
Proof. apply none_new; [apply cnt_ack_nonneg|]. intros d cmd Hd _. unfold cnt_ack. cbn [fst snd]. destruct cmd; try done. by rewrite bool_decide_false by by apply running_old. Qed.
Lemma none_to : on_way (cnt_to objs n) ths = 0.
Proof.
  apply none_new; [apply cnt_to_nonneg|]. intros d cmd (x & Hx & _) _. unfold cnt_to. cbn [fst snd]. destruct cmd; try done. rewrite bool_decide_false; [done|].
  unfold owner_of. rewrite Hx. cbn [mbind option_bind]. intros E. pose proof (oo_owner _ _ _ _ _ (iv_obj _ _ _ Hi d x Hx) n E). apply lookup_lt_Some in Hx. lia.
Qed.
Lemma none_seq : seq_on_way n ths = 0.
Proof.
  apply zsum_zero. intros th1 Hin. apply list_elem_of_lookup in Hin as [u Hu]. unfold th_sum. rewrite !zsum_zero; [done|..].
  - intros j Hj. destruct j as [[] d cmd| | | |]; try done; cbn [seq_in_code].
    + destruct (code_send _ _ _ _ _ _ _ _ Hi Hu Hj) as [_ Hd]. apply running_old in Hd. unfold cnt_seq. cbn [fst snd]. rewrite bool_decide_false by done. by destruct cmd.
    + destruct (iv_thread _ _ _ Hi u th1 Hu) as [E|(x & Hx & _)]; [rewrite E in Hj; by apply not_elem_of_nil in Hj|]. rewrite bool_decide_false; [done|]. intros E. apply lookup_lt_Some in Hx. lia.
  - intros m Hm. destruct (iv_mail _ _ _ Hi u th1 m Hu Hm) as (x & Hx & _ & Hr & _). assert (m.1 <> n) as Hne by (apply running_old; by exists x).
    unfold cnt_seq. rewrite bool_decide_false by done. by destruct m.2.
Qed.

Lemma old_cnt_to p : on_way (cnt_to objs' p) ths = on_way (cnt_to objs p) ths.
Proof.
  apply zsum_ext. intros th1 Hin. apply list_elem_of_lookup in Hin as [u Hu]. unfold th_sum. f_equal; apply zsum_ext.
  - intros m Hm. destruct (iv_mail _ _ _ Hi u th1 m Hu Hm) as (x & Hx & _). unfold cnt_to. by rewrite (old_owner_of m.1 x Hx).
  - intros j Hj. destruct j as [inc d cmd| | | |]; try done. cbn [in_code]. destruct (code_send _ _ _ _ _ _ _ _ Hi Hu Hj) as [_ (x & Hx & _)]. unfold cnt_to. cbn [fst snd]. by rewrite (old_owner_of d x Hx).
Qed.

Lemma append_sum f : on_way f ths' = on_way f ths + zsum (in_code f (th_this th)) l.
Proof.
  rewrite (on_way_set _ _ _ th) by done. unfold th_sum. cbn [th_mailbox th_this th_code]. rewrite Hc, !zsum_app.
  rewrite (zsum_zero _ pre); [lia|]. by intros j (c & ->)%Hpre.
Qed.
Lemma append_seq c : seq_on_way c ths' = seq_on_way c ths + zsum (seq_in_code c (th_this th)) l.
Proof.
  rewrite (seq_on_way_set _ _ _ th) by done. unfold th_sum. cbn [th_mailbox th_this th_code]. rewrite Hc, !zsum_app.
  rewrite (zsum_zero _ pre); [lia|]. by intros j (x & ->)%Hpre.
Qed.
Lemma append_keep u th1 j : ths !! u = Some th1 -> j ∈ th_code th1 -> (forall c, j <> oi_call c) -> exists th2, ths' !! u = Some th2 /\ th_this th2 = th_this th1 /\ j ∈ th_code th2.
Proof.
  intros Hu Hj Hne. destruct (decide (u = t)) as [->|Hut]; [|exists th1; by rewrite list_lookup_insert_ne].
  rewrite Ht in Hu. injection Hu as <-. eexists. split; [apply list_lookup_insert_eq; by eapply lookup_lt_Some|]. split; [done|]. cbn [th_code].
  rewrite Hc in Hj. apply elem_of_app in Hj as [(c & ->)%Hpre|Hj]; [by destruct (Hne c)|]. apply elem_of_app. by right.
Qed.

Lemma append_new : obj_ok objs' ths' (k + 1) n nw.
Proof.
  destruct new_fields as (F1 & F2 & F3 & F4 & F5 & F6 & F7 & F8 & F9 & F10). constructor.
  - by rewrite length_insert.
  - done.
  - rewrite F4. set_solver.
  - rewrite !append_sum, none_own, none_term, Hl_own, Hl_term, decide_True by done. unfold told_self. rewrite F2, F3. cbn [one].
    enough (owned_by_owner objs' n = 0) as -> by (destruct (ow_owner nw); lia).
    unfold owned_by_owner. destruct (owner_of objs' n) as [p|] eqn:Eo; [|done]. destruct (objs' !! p) as [x|] eqn:Ex; [|done]. rewrite bool_decide_false; [done|]. intros Hin.
    apply new_lookup in Ex as [Ex|[_ ->]]; [|rewrite F4 in Hin; set_solver]. pose proof (oo_owned _ _ _ _ _ (iv_obj _ _ _ Hi p x Ex) n Hin) as H.
    unfold owner_of in H. by rewrite (lookup_ge_None_2 objs n) in H by lia.
  - rewrite F5, F6, !append_sum, old_cnt_to, none_to, none_ack, Hl_to, Hl_ack. rewrite zsum_zero; [done|]. intros x Hx. apply list_elem_of_lookup in Hx as [c Hx].
    unfold told_child. rewrite bool_decide_false; [done|]. intros E. apply new_lookup in Hx as [Hx|[-> ->]].
    + pose proof (oo_owner _ _ _ _ _ (iv_obj _ _ _ Hi c x Hx) n E). apply lookup_lt_Some in Hx. lia.
    + specialize (F10 n E). lia.
  - lia.
  - rewrite append_seq, none_seq, Hl_seq, decide_True by done. lia.
  - lia.
  - congruence.
  - congruence.
  - congruence.
  - congruence.
Qed.

Lemma append_old c x : objs !! c = Some x -> obj_ok objs' ths' (k + 1) c x.
Proof.
  intros Hx. pose proof (iv_obj _ _ _ Hi c x Hx) as Ho. assert (c <> n) as Hne by (apply lookup_lt_Some in Hx; lia). constructor; try apply Ho.
  - rewrite length_insert. apply Ho.
  - intros y Hy. apply some_owner_of. by apply Ho.
  - rewrite !append_sum, Hl_own, Hl_term, decide_False, <- (oo_once _ _ _ _ _ Ho) by done. enough (owned_by_owner objs' c = owned_by_owner objs c) by lia.
    unfold owned_by_owner. rewrite (old_owner_of c x Hx). unfold owner_of. rewrite Hx. cbn [mbind option_bind]. destruct (ow_owner x) as [p|] eqn:Ep; [|done].
    pose proof (oo_owner _ _ _ _ _ Ho p Ep). destruct (lookup_lt_is_Some_2 objs p) as [y Hy]; [apply lookup_lt_Some in Hx; lia|]. by rewrite Hy, (old_lookup p y Hy).
  - rewrite !append_sum, old_cnt_to, Hl_to, Hl_ack, zsum_app, (oo_acks _ _ _ _ _ Ho). cbn [zsum].
    assert (told_child c nw = 0) as -> by (destruct new_fields as (_ & F2 & F3 & _); unfold told_child; rewrite F2, F3; by destruct (_ && _)). lia.
  - rewrite append_seq, Hl_seq, decide_False, (oo_seq _ _ _ _ _ Ho) by done. lia.
  - pose proof (oo_bound _ _ _ _ _ Ho). lia.
  - intros H1 H2. destruct (oo_wait _ _ _ _ _ Ho H1 H2) as [Hw|[Hw|(th1 & W1 & W2 & W3)]]; [by left|by right; left|right; right].
    destruct (append_keep _ _ _ W1 W3) as (th2 & K1 & K2 & K3); [done|]. exists th2. split_and!; congruence.
  - intros Hf. destruct (oo_finishing _ _ _ _ _ Ho Hf) as (th1 & W1 & W2 & W3). destruct (append_keep _ _ _ W1 W3) as (th2 & K1 & K2 & K3); [done|]. exists th2. split_and!; congruence.
Qed.

Lemma append_step : own_inv objs' ths' (k + 1).
Proof.
  assert (forall u th1, ths' !! u = Some th1 -> exists th0, ths !! u = Some th0 /\ th_mailbox th1 = th_mailbox th0 /\ (u = t /\ th1 = th' \/ th1 = th0)) as Hlook.
  { intros u th1 Hu. destruct (decide (u = t)) as [->|Hne]; [rewrite list_lookup_insert_eq in Hu by (by eapply lookup_lt_Some); injection Hu as <-; exists th; by split_and!; [..|left]|].
    rewrite list_lookup_insert_ne in Hu by done. exists th1. by split_and!; [..|right]. }
  constructor.
  - intros c x Hx. apply new_lookup in Hx as [Hx|[-> ->]]; [by apply append_old|apply append_new].
  - intros u th1 m Hu Hm. destruct (Hlook u th1 Hu) as (th0 & H0 & E & _). rewrite E in Hm. by apply old_mail_ok, (iv_mail _ _ _ Hi u th0).
  - intros u th1 Hu. destruct (Hlook u th1 Hu) as (th0 & H0 & -> & _). pose proof (iv_req _ _ _ Hi u th0 H0) as Hr. revert Hr. generalize (th_mailbox th0). intros m.
    induction m as [|[dd cmd] m IH]; [done|]. destruct cmd; cbn [req_ok]; auto. intros [H1 H2]. split; [|auto]. destruct H1 as [H1|[H1|H1]]; [left; by apply old_running|by right; left|right; right].
    destruct H1 as (x & th2 & R1 & R2 & R3 & R4). destruct (append_keep _ _ _ R2 R4) as (th3 & K1 & K2 & K3); [done|]. exists x, th3. split; [by apply old_lookup|]. split_and!; congruence.
  - intros u th1 Hu. destruct (Hlook u th1 Hu) as (th0 & H0 & _ & [[-> ->]| ->]); [done|]. destruct (iv_thread _ _ _ Hi u th0 H0) as [E|(x & X1 & X2 & X3)]; [by left|right].
    exists x. split; [by apply old_lookup|]. split; [done|]. destruct X3 as [[X3 X4]|[X3 [X4|(p & X4 & X5 & X6)]]]; [left|right|right]; (split; [done|]).
    + by apply old_code_ok.
    + by left.
    + right. exists p. split; [done|]. split; [|done]. by apply old_running.
Qed.
End append.

Lemma thread_ok_app objs nw t th : thread_ok objs t th -> thread_ok (objs ++ [nw]) t th.
Proof.
  intros [E|(x & X1 & X2 & X3)]; [by left|right]. exists x. split; [by apply lookup_app_l_Some|]. split; [done|].
  destruct X3 as [[X3 X4]|[X3 [X4|(p & X4 & X5 & X6)]]]; [left|right|right]; (split; [done|]); [by apply old_code_ok|by left|right]. exists p. split; [done|]. split; [by apply old_running|done].
Qed.

Lemma socket_ok k objs ths tid linger : own_inv objs ths k -> 0 <= k -> (tid < length ths)%nat -> own_inv (objs ++ [own_new tid None linger]) ths (k + 1).
Proof.
  intros Hi Hk Htid. destruct (lookup_lt_is_Some_2 ths tid Htid) as [th Ht]. pose proof (iv_thread _ _ _ Hi tid th Ht) as Hth.
  rewrite <- (list_insert_id ths tid th Ht). replace th with (OwnThread (th_mailbox th) (th_this th) ([] ++ th_code th)) by by destruct th.
  apply (append_step k objs ths tid th [] []); try done; cbn [zsum].
  - by intros j Hj%not_elem_of_nil.
  - intros c. by case_decide.
  - intros c. by case_decide.
  - exists tid, None, linger. split_and!; [done..|by left].
  - apply thread_ok_app. by destruct th.
Qed.

Lemma launch_ok k objs ths t th ob rest tid linger attach : own_inv objs ths k -> 0 <= k -> ths !! t = Some th -> th_code th = oi_call (oc_launch_child tid linger attach) :: rest ->
  objs !! th_this th = Some ob -> ow_tid ob = t -> ow_phase ob = running -> (tid < length ths)%nat ->
  own_inv (objs ++ [if attach then inc_seqnum (own_new tid (Some (th_this th)) linger) else own_new tid (Some (th_this th)) linger])
    (<[t := OwnThread (th_mailbox th) (th_this th) ((launch_child (OwnWorld objs ths) (th_this th) tid linger attach).2 ++ rest)]> ths) (k + 1).
Proof.
  intros Hi Hk Ht Hc Hd Htid Hph Hlt. set (nw := if attach then _ else _). cbn [launch_child snd w_objs]. set (n := length objs).
  assert (th_this th <> n) as Hne by (apply lookup_lt_Some in Hd; unfold n; lia).
  assert ((objs ++ [nw]) !! n = Some nw) as Hn by (apply list_lookup_middle; done).
  assert (ow_phase nw = running /\ ow_owner nw = Some (th_this th)) as [Hnp Hno] by (unfold nw; by destruct attach).
  assert (is_running (objs ++ [nw]) n) as Hrn by by exists nw. assert (is_running (objs ++ [nw]) (th_this th)) as Hrd by (exists ob; split; [by apply lookup_app_l_Some|done]).
  assert (owner_of (objs ++ [nw]) n = Some (th_this th)) as Hon by (unfold owner_of; by rewrite Hn).
  apply (append_step k objs ths t th [oi_call (oc_launch_child tid linger attach)] _ rest nw Hi Hk Ht Hc).
  - intros j Hj%list_elem_of_singleton. eauto.
  - intros c. rewrite Hno. destruct attach; cbn [app zsum in_code]; unfold cnt_own; cbn [snd]; fold n;
      (case_decide; [rewrite bool_decide_true by done|rewrite bool_decide_false by congruence]; cbn [one]; lia).
  - intros c. by destruct attach.
  - intros c. by destruct attach.
  - intros c. by destruct attach.
  - intros c. unfold nw. fold n. destruct attach; cbn [app zsum seq_in_code]; unfold cnt_seq; cbn [fst snd];
      (case_decide; [try rewrite bool_decide_true by done|try rewrite bool_decide_false by congruence]; done).
  - exists tid, (Some (th_this th)), linger. split; [done|]. split; [intros p [= <-]; apply lookup_lt_Some in Hd; done|]. unfold nw. destruct attach; auto.
  - right. exists ob. cbn [th_this th_code]. split; [by apply lookup_app_l_Some|]. split; [done|]. left. split; [done|].
    assert (code_ok (objs ++ [nw]) (th_this th) rest) as Hr.
    { apply old_code_ok. assert (code_ok objs (th_this th) (th_code th)) as H by (by eapply running_code). rewrite Hc in H. by destruct H. }
    rewrite <- app_assoc. cbn [app code_ok instr_ok]. split; [split; [done|]; split; [done|constructor]|]. split; [done|]. destruct attach; [|done]. by split.
Qed.

(** ** Every step *)

Lemma instr_step k objs ths t th i rest : own_inv objs ths k -> 0 <= k < 4294967295 -> ths !! t = Some th -> th_code th = i :: rest ->
  exists w', exec_instr (OwnWorld objs ths) t (th_this th) i rest = Some w' /\ own_inv (w_objs w') (w_threads w') (k + 1).
Proof.
  intros Hi Hk Ht Hc. destruct i as [inc d cmd|c| | |]; [apply (own_send_ok _ _ k t th); [done|lia|done..]|..];
    (destruct (iv_thread _ _ _ Hi t th Ht) as [E|(ob & Hd & Htid & Hcase)]; [congruence|]).
  1-3: destruct Hcase as [[Hph _]|[_ [E|(p & _ & _ & E)]]]; [|congruence..]; unfold exec_instr; rewrite (handler_deref objs ths th ob Hd Hph); cbn [mbind option_bind].
  - destruct (is_local c) eqn:El.
    + destruct (local_call objs ths k (th_this th) ob c Hi Hd Hph El) as (ob' & l & -> & He). cbn [mbind option_bind]. rewrite (handler_go ths t th Ht) by done. eexists. split; [done|].
      apply weaken_inv. apply (effect_instr k objs ths t th (th_this th) ob ob' (oi_call c) rest l 0); try done. intros o. by case_decide.
    + assert (own_inv objs (<[t := OwnThread (th_mailbox th) (th_this th) ([] ++ rest)]> ths) (k + 1)) as Hnothing.
      { apply weaken_inv. rewrite <- (list_insert_id objs (th_this th) ob Hd) at 1. apply (effect_instr k objs ths t th (th_this th) ob ob (oi_call c) rest [] 0); try done; [by apply (effect_nothing k objs ths)|].
        intros o. by case_decide. }
      destruct c as [tid linger attach| | | |peer| | |]; try done; cbn [do_call].
      * cbn [w_threads]. case_bool_decide as Hlt; cbn [mbind option_bind launch_child w_objs w_threads]; rewrite (handler_go ths t th Ht) by done; (eexists; split; [done|]); [|done].
        apply (launch_ok k objs ths t th ob); try done. lia.
      * unfold find_endpoint. cbn [w_objs]. destruct (objs !! peer) as [pb|] eqn:Ep; [|cbn [mbind option_bind]; rewrite (handler_go ths t th Ht) by done; by eexists].
        destruct (_ && _) eqn:E; cbn [mbind option_bind]; rewrite (handler_go ths t th Ht) by done; (eexists; split; [done|]); [|done].
        apply andb_prop in E as [E1%bool_decide_eq_true E2%negb_true_iff]. apply (bind_ok k objs ths t th ob (oi_call (oc_send_bind peer)) rest); first [done|lia].
  - destruct (seqnum_ok k objs ths t th ob rest Hi ltac:(lia) Ht Hc Hd Htid Hph) as (ob' & l & -> & Hi'). cbn [mbind option_bind]. rewrite (handler_go ths t th Ht) by done.
    eexists. split; [done|]. by apply weaken_inv.
  - destruct (check_ok k objs ths t th ob rest Hi Ht Hc Hd Htid Hph) as (ob' & l & -> & Hi'). cbn [mbind option_bind]. rewrite (handler_go ths t th Ht) by done.
    eexists. split; [done|]. by apply weaken_inv.
  - destruct Hcase as [[_ H]|[Hph [E|(p & _ & _ & E)]]]; [rewrite Hc in H; by destruct H| |congruence]. rewrite Hc in E. injection E as ->.
    unfold exec_instr, deref. cbn [w_objs]. rewrite Hd. cbn [mbind option_bind]. rewrite bool_decide_false by congruence. cbn [mbind option_bind]. rewrite (handler_go ths t th Ht) by done.
    eexists. split; [done|]. apply weaken_inv. by apply destroy_ok.
Qed.

Lemma own_do_inv k w st : own_inv (w_objs w) (w_threads w) k -> 0 <= k < 4294967295 ->
  exists w', own_do w st = Some w' /\ own_inv (w_objs w') (w_threads w') (k + 1).
Proof.
  intros Hi Hk. destruct w as [objs ths]. cbn [w_objs w_threads] in Hi. pose proof (weaken_inv k objs ths Hi) as Hsame. destruct st as [tid linger|o c|t hook delay]; cbn [own_do w_objs w_threads].
  - eexists. split; [done|]. case_bool_decide; [|done]. apply socket_ok; [done|lia|done].
  - destruct (objs !! o) as [ob|] eqn:Eo; [|by eexists]. destruct (ths !! ow_tid ob) as [[m th0 [|]]|] eqn:Et; [|by eexists..]. eexists. split; [done|]. case_bool_decide; [|done].
    apply weaken_inv. exact (start_call objs ths k (ow_tid ob) _ o ob c Hi Et Eo eq_refl ltac:(done) eq_refl).
  - destruct (ths !! t) as [th|] eqn:Et; [|by eexists]. destruct th as [m this [|i rest]].
    + destruct m as [|[d cmd] m]; [by eexists|]. destruct (command_ok objs ths k t _ d cmd m hook delay Hi Et eq_refl eq_refl) as (w' & -> & Hw). eexists. split; [done|]. by apply weaken_inv.
    + destruct m as [|[? ?] ?]; exact (instr_step k objs ths t _ i rest Hi Hk Et eq_refl).
Qed.

Lemma own_run_inv l : forall k w, own_inv (w_objs w) (w_threads w) k -> 0 <= k -> k + Z.of_nat (length l) < 4294967296 ->
  exists w', own_run w l = Some w' /\ own_inv (w_objs w') (w_threads w') (k + Z.of_nat (length l)).
Proof.
  induction l as [|st l IH]; intros k w Hi H0 Hk; cbn [length] in *; [exists w; by rewrite Z.add_0_r|]. cbn [own_run].
  destruct (own_do_inv k w st Hi ltac:(lia)) as (w1 & -> & Hi1). cbn [mbind option_bind]. destruct (IH (k + 1) w1 Hi1 ltac:(lia) ltac:(lia)) as (w' & -> & Hi'). exists w'. split; [done|].
  by replace (k + Z.of_nat (S (length l))) with (k + 1 + Z.of_nat (length l)) by lia.
Qed.

Lemma own_init_inv n : own_inv (w_objs (own_init n)) (w_threads (own_init n)) 0.
Proof.
  constructor; cbn [own_init w_objs w_threads]; try done.
  - intros t th m H. apply lookup_replicate in H as [-> _]. by intros Hm%not_elem_of_nil.
  - intros t th H. by apply lookup_replicate in H as [-> _].
  - intros t th H. apply lookup_replicate in H as [-> _]. by left.
Qed.

(** An object that finishes while its owner is gone has nothing left to do
    but to delete itself. *)
Lemma finishing_last objs ths k c ob p pb : own_inv objs ths k -> objs !! c = Some ob -> ow_owner ob = Some p -> objs !! p = Some pb ->
  ow_phase pb <> running -> ow_phase ob = finishing ->
  exists th, ths !! ow_tid ob = Some th /\ th_this th = c /\ th_code th = [oi_destroy].
Proof.
  intros Hi Hc Hp Hpb Hpr Hf. destruct (oo_finishing _ _ _ _ _ (iv_obj _ _ _ Hi c ob Hc) Hf) as (th & Ht & Hth & Hd).
  exists th. split; [done|]. split; [done|]. destruct (iv_thread _ _ _ Hi _ _ Ht) as [Hn|(ob' & Hob & _ & Hcase)]; [rewrite Hn in Hd; by apply not_elem_of_nil in Hd|].
  rewrite Hth, Hc in Hob. injection Hob as <-. destruct Hcase as [[Hr _]|[_ [->|(p' & Hp' & (x & Hx & Hxr) & _)]]]; [congruence|done|].
  rewrite Hp in Hp'. injection Hp' as <-. rewrite Hpb in Hx. by injection Hx as <-.
Qed.

(** C7: the ownership tree is safe: however the threads interleave, whichever objects are launched, asked to terminate or told to, and whenever their commands arrive, no command is sent to or handled by an object that has been deleted and no assertion of [own_t] fails.  An object ends only when all that it has owned has ended: when an owner is deleted, or has begun to delete itself ([check_term_acks] sends its own acknowledgement first), each of the objects that it ever owned is deleted too, or has sent its acknowledgement and its thread has nothing left to run in it but its deletion.  The number of steps is bounded, because the sequence numbers are 32 bits wide. *)
Theorem own_tree_safe n l : Z.of_nat (length l) < 4294967296 ->
  exists w, own_run (own_init n) l = Some w /\
    forall c ob p pb, w_objs w !! c = Some ob -> ow_owner ob = Some p -> w_objs w !! p = Some pb ->
      (ow_phase ob = running -> ow_phase pb = running) /\
      (ow_phase pb <> running -> ow_phase ob = finishing ->
        exists th, w_threads w !! ow_tid ob = Some th /\ th_this th = c /\ th_code th = [oi_destroy]).
Proof.
  intros Hl. destruct (own_run_inv l 0 (own_init n) (own_init_inv n) ltac:(lia) ltac:(lia)) as (w & E & Hi). exists w. split; [done|].
  intros c ob p pb Hc Hp Hpb. split; [|by apply (finishing_last _ _ _ c ob p pb Hi)].
  intros Hr. destruct (owner_running _ _ _ c ob p Hi Hc Hr Hp) as (x & Hx & ?). congruence.
Qed.
