(* ===== verification/OwnLive.v ===== *)
(** * The ownership tree comes to rest, and then what was told to terminate is gone *)

From Stdlib Require Import Bool.
From S2P Require Import Prelude Msg Own OwnInv OwnSteps OwnProps.

(** ** The work that is left *)

(** What handling a command costs, with the commands it leads to. *)
Definition mail_weight (m : nat * own_cmd) : Z :=
  match m.2 with oc_plug | oc_attach | oc_bind => 2 | oc_own _ => 5 | oc_term_req _ => 1 | oc_term _ => 2 | oc_term_ack => 2 end.

Definition instr_weight (i : own_instr) : Z :=
  match i with oi_send _ d cmd => 1 + mail_weight (d, cmd) | oi_call _ => 20 | oi_seqnum | oi_check | oi_destroy => 1 end.

(** An object will tell its children to terminate, and acknowledge once. *)
Definition obj_weight (ob : own_t) : Z :=
  3 * Z.of_nat (size (ow_owned ob)) + if bool_decide (ow_phase ob = running) then 4 else 0.

Definition thread_weight (th : own_thread) : Z := zsum mail_weight (th_mailbox th) + zsum instr_weight (th_code th).

Definition own_weight (w : own_world) : Z := zsum thread_weight (w_threads w) + zsum obj_weight (w_objs w).

Definition busy (th : own_thread) : bool := match th_code th, th_mailbox th with [], [] => false | _, _ => true end.

Lemma mail_weight_nonneg m : 0 <= mail_weight m.
Proof. destruct m as [? []]; done. Qed.
Lemma instr_weight_nonneg i : 0 <= instr_weight i.
Proof. destruct i as [? d cmd| | | |]; try done. cbn [instr_weight]. pose proof (mail_weight_nonneg (d, cmd)). lia. Qed.
Lemma obj_weight_nonneg ob : 0 <= obj_weight ob.
Proof. unfold obj_weight. destruct (bool_decide _); lia. Qed.
Lemma thread_weight_nonneg th : 0 <= thread_weight th.
Proof. unfold thread_weight. pose proof (zsum_nonneg mail_weight (th_mailbox th) mail_weight_nonneg). pose proof (zsum_nonneg instr_weight (th_code th) instr_weight_nonneg). lia. Qed.
Lemma own_weight_nonneg w : 0 <= own_weight w.
Proof. unfold own_weight. pose proof (zsum_nonneg thread_weight (w_threads w) thread_weight_nonneg). pose proof (zsum_nonneg obj_weight (w_objs w) obj_weight_nonneg). lia. Qed.

Lemma terms_weight l (X : gset nat) : zsum instr_weight (oi_term l <$> elements X) = 3 * Z.of_nat (size X).
Proof. rewrite zsum_fmap, (zsum_const _ 3) by done. unfold size, set_size. simpl. lia. Qed.

(** ** The weight of what a handler leaves *)

Lemma check_weight ob ob' l : ow_phase ob = running -> check_term_acks ob = Some (ob', l) -> obj_weight ob' + zsum instr_weight l <= obj_weight ob.
Proof.
  intros Hph E. unfold check_term_acks in E. destruct (_ && _) eqn:Et; [|injection E as <- <-; cbn [zsum instr_weight mail_weight fst snd]; lia]. destruct (bool_decide (ow_owned ob = ∅)); [|done]. injection E as <- <-.
  unfold obj_weight. cbn [set_own_phase ow_owned ow_phase]. rewrite Hph, (bool_decide_true (running = running)), (bool_decide_false (finishing = running)) by done.
  destruct (ow_owner ob); cbn [zsum instr_weight mail_weight snd]; lia.
Qed.

Lemma term_weight ob l ob' r : process_term ob l = Some (ob', r) -> obj_weight ob' + zsum instr_weight r <= obj_weight ob + 1.
Proof.
  unfold process_term. destruct (negb (ow_terminating ob)); [|done]. intros [= <- <-]. rewrite zsum_app, terms_weight. unfold obj_weight. cbn [set_terminating set_owned register_term_acks ow_owned ow_phase zsum instr_weight].
  rewrite size_empty. destruct (bool_decide _); lia.
Qed.

Lemma term_req_weight ob c : obj_weight (process_term_req ob c).1 + zsum instr_weight (process_term_req ob c).2 <= obj_weight ob.
Proof.
  unfold process_term_req. destruct (ow_terminating ob); [cbn [zsum instr_weight mail_weight fst snd]; lia|]. case_bool_decide as Hc; [|cbn [zsum instr_weight mail_weight fst snd]; lia]. cbn [fst snd]. unfold obj_weight.
  cbn [register_term_acks set_owned ow_owned ow_phase zsum instr_weight oi_term mail_weight snd].
  rewrite size_difference by set_solver. rewrite size_singleton. pose proof (subseteq_size {[c]} (ow_owned ob) ltac:(set_solver)) as Hs. rewrite size_singleton in Hs. destruct (bool_decide _); lia.
Qed.

Lemma command_weight ob cmd d ob' l : own_process_command [] false ob cmd = Some (ob', l) -> obj_weight ob' + zsum instr_weight l < obj_weight ob + mail_weight (d, cmd).
Proof.
  destruct cmd as [|c| | |c|linger|]; cbn [own_process_command andb]; unfold mail_weight; cbn [snd].
  - intros [= <- <-]. cbn [zsum instr_weight mail_weight fst snd]. lia.
  - unfold process_own. destruct (ow_terminating ob); intros [= <- <-]; cbn [app zsum instr_weight oi_term mail_weight snd].
    + unfold obj_weight. cbn [register_term_acks ow_owned ow_phase]. destruct (bool_decide _); lia.
    + unfold obj_weight. cbn [set_owned ow_owned ow_phase]. pose proof (size_union_alt (ow_owned ob) {[c]}) as Hs. rewrite Hs.
      pose proof (subseteq_size ({[c]} ∖ ow_owned ob) {[c]} ltac:(set_solver)) as Hs2. rewrite size_singleton in Hs2. destruct (bool_decide _); lia.
  - intros [= <- <-]. cbn [zsum instr_weight mail_weight fst snd]. lia.
  - intros [= <- <-]. cbn [zsum instr_weight mail_weight fst snd]. lia.
  - intros [= E]. pose proof (term_req_weight ob c) as H. rewrite E in H. cbn [fst snd] in H. lia.
  - intros E. apply term_weight in E. lia.
  - unfold unregister_term_ack. destruct (0 <? ow_term_acks ob); [|done]. intros [= <- <-]. unfold obj_weight. cbn [register_term_acks ow_owned ow_phase zsum instr_weight]. destruct (bool_decide _); lia.
Qed.

Lemma call_weight w this ob c w' l : w_objs w !! this = Some ob -> do_call w this ob c = Some (w', l) ->
  w_threads w' = w_threads w /\ zsum obj_weight (w_objs w') + zsum instr_weight l <= zsum obj_weight (w_objs w) + 19.
Proof.
  intros Hd E.
  assert (forall ob' r, obj_weight ob' + zsum instr_weight r <= obj_weight ob + 19 ->
    zsum obj_weight (w_objs (set_obj w this ob')) + zsum instr_weight r <= zsum obj_weight (w_objs w) + 19) as Hset.
  { intros ob' r H. cbn [set_obj w_objs]. rewrite (zsum_insert _ _ _ _ _ Hd). lia. }
  destruct c as [tid linger attach| |x| |peer|n| |]; cbn [do_call] in E.
  - case_bool_decide; injection E as <- <-; [|split; [done|cbn [zsum instr_weight mail_weight fst snd]; lia]]. cbn [launch_child w_objs w_threads]. split; [done|]. rewrite zsum_app.
    assert (zsum obj_weight [if attach then inc_seqnum (own_new tid (Some this) linger) else own_new tid (Some this) linger] = 4) as -> by (by destruct attach).
    destruct attach; cbn [app zsum instr_weight mail_weight snd]; lia.
  - destruct (own_terminate this ob) as [[ob' r]|] eqn:Et; [|done]. injection E as <- <-. split; [done|]. apply Hset. unfold own_terminate in Et. cbn [fst snd].
    destruct (ow_terminating ob); [injection Et as <- <-; cbn [zsum instr_weight mail_weight fst snd]; lia|]. destruct (ow_owner ob); [injection Et as <- <-; cbn [zsum instr_weight mail_weight fst snd]; lia|]. apply term_weight in Et. lia.
  - injection E as <- <-. split; [done|]. apply Hset. pose proof (term_req_weight ob x). lia.
  - injection E as <- <-. split; [done|]. destruct (ow_owner ob); cbn [zsum instr_weight mail_weight fst snd]; lia.
  - injection E as E. assert (w' = (find_endpoint w peer).1 /\ l = (find_endpoint w peer).2) as [-> ->] by (by rewrite E). unfold find_endpoint.
    destruct (w_objs w !! peer) as [pb|] eqn:Ep; [|split; [done|cbn [zsum instr_weight mail_weight fst snd]; lia]]. destruct (_ && _); [|split; [done|cbn [zsum instr_weight mail_weight fst snd]; lia]]. split; [done|]. cbn [fst snd set_obj w_objs].
    rewrite (zsum_insert _ _ _ _ _ Ep). change (obj_weight (inc_seqnum pb)) with (obj_weight pb). cbn [zsum instr_weight mail_weight fst snd]. lia.
  - destruct (0 <? n); injection E as <- <-; (split; [done|]); [|cbn [zsum instr_weight mail_weight fst snd]; lia]. apply Hset. change (obj_weight (set_events _ _)) with (obj_weight ob). cbn [zsum instr_weight mail_weight fst snd]. lia.
  - destruct (0 <? ow_events ob); [|injection E as <- <-; split; [done|cbn [zsum instr_weight mail_weight fst snd]; lia]]. destruct (unregister_term_ack _) as [[ob' r]|] eqn:Eu; [|done]. injection E as <- <-. split; [done|]. apply Hset.
    unfold unregister_term_ack in Eu. destruct (0 <? _); [|done]. injection Eu as <- <-. change (obj_weight (register_term_acks _ _)) with (obj_weight ob). cbn [zsum instr_weight mail_weight fst snd]. lia.
  - destruct (ow_pending ob); [|injection E as <- <-; split; [done|cbn [zsum instr_weight mail_weight fst snd]; lia]]. destruct (process_term _ _) as [[ob' r]|] eqn:Eu; [|done]. injection E as <- <-. split; [done|]. apply Hset.
    apply term_weight in Eu. change (obj_weight (set_pending ob false)) with (obj_weight ob) in Eu. cbn [fst snd]. lia.
Qed.

Lemma go_on_weight w t th l rest w' : w_threads w !! t = Some th -> go_on w t l rest = Some w' ->
  w_objs w' = w_objs w /\ zsum thread_weight (w_threads w') = zsum thread_weight (w_threads w) - zsum instr_weight (th_code th) + zsum instr_weight l + zsum instr_weight rest.
Proof.
  intros Ht. unfold go_on. rewrite Ht. cbn [mbind option_bind]. intros [= <-]. split; [done|]. cbn [set_thread w_threads]. rewrite (zsum_insert _ _ _ _ _ Ht).
  unfold thread_weight at 2 3. cbn [th_mailbox th_code]. rewrite zsum_app. lia.
Qed.

Lemma send_weight w t th inc d cmd w' : w_threads w !! t = Some th -> send_command w inc d cmd = Some w' ->
  (exists th', w_threads w' !! t = Some th' /\ th_code th' = th_code th) /\ own_weight w' = own_weight w + mail_weight (d, cmd).
Proof.
  intros Ht. unfold send_command, deref. destruct (w_objs w !! d) as [ob|] eqn:Ed; [|done]. cbn [mbind option_bind]. destruct (bool_decide _); [done|]. cbn [mbind option_bind].
  assert (forall w1, w_threads w1 = w_threads w -> zsum obj_weight (w_objs w1) = zsum obj_weight (w_objs w) ->
    forall th2, w_threads w1 !! ow_tid ob = Some th2 -> let w2 := set_thread w1 (ow_tid ob) (OwnThread (th_mailbox th2 ++ [(d, cmd)]) (th_this th2) (th_code th2)) in
    (exists th', w_threads w2 !! t = Some th' /\ th_code th' = th_code th) /\ own_weight w2 = own_weight w + mail_weight (d, cmd)) as Hgen.
  { intros w1 Ew Eo th2 Ht2. cbn zeta. rewrite Ew in Ht2. split.
    - cbn [set_thread w_threads]. rewrite Ew. destruct (decide (ow_tid ob = t)) as [E|Hne]; [|exists th; by rewrite list_lookup_insert_ne].
      rewrite E in *. eexists. split; [apply list_lookup_insert_eq; by eapply lookup_lt_Some|]. cbn [th_code]. congruence.
    - unfold own_weight. cbn [set_thread w_objs w_threads]. rewrite Ew, Eo, (zsum_insert _ _ _ _ _ Ht2). unfold thread_weight at 2 3. cbn [th_mailbox th_code]. rewrite zsum_app. cbn [zsum]. lia. }
  intros E. destruct inc.
  - destruct (w_threads (set_obj w d (inc_seqnum ob)) !! ow_tid ob) as [th2|] eqn:E2; [|done]. injection E as <-. apply (Hgen (set_obj w d (inc_seqnum ob))); [done| |done].
    cbn [set_obj w_objs]. rewrite (zsum_insert _ _ _ _ _ Ed). change (obj_weight (inc_seqnum ob)) with (obj_weight ob). lia.
  - destruct (w_threads w !! ow_tid ob) as [th2|] eqn:E2; [|done]. injection E as <-. by apply (Hgen w).
Qed.

(** Every step of a busy thread is progress. *)
Lemma run_weight k w t th w' : own_inv (w_objs w) (w_threads w) k -> w_threads w !! t = Some th -> busy th = true -> own_do w (os_run t [] false) = Some w' -> own_weight w' < own_weight w.
Proof.
  intros Hi Ht Hb E. cbn [own_do] in E. rewrite Ht in E. destruct th as [m this [|i rest]].
  - destruct m as [|[d cmd] m]; [done|]. unfold exec_command, deref in E. destruct (w_objs w !! d) as [ob|] eqn:Ed; [|done]. cbn [mbind option_bind] in E. destruct (bool_decide _); [done|]. cbn [mbind option_bind] in E.
    destruct (own_process_command [] false ob cmd) as [[ob' l]|] eqn:Ec; [|done]. cbn [mbind option_bind] in E. injection E as <-. apply (command_weight _ _ d) in Ec.
    unfold own_weight. cbn [set_thread set_obj w_objs w_threads]. rewrite (zsum_insert _ _ _ _ _ Ht), (zsum_insert _ _ _ _ _ Ed). unfold thread_weight at 2 3. cbn [th_mailbox th_code zsum]. lia.
  - assert (exec_instr w t this i rest = Some w') as E' by (destruct m as [|[? ?] ?]; exact E). clear E. unfold exec_instr, deref in E'.
    destruct (w_objs w !! this) as [ob|] eqn:Ed; [|done]. cbn [mbind option_bind] in E'. destruct (bool_decide (ow_phase ob = deleted)); [done|]. cbn [mbind option_bind] in E'.
    assert (i = oi_seqnum \/ i = oi_check -> ow_phase ob = running) as Hrun.
    { intros Hi0. destruct (iv_thread _ _ _ Hi t _ Ht) as [?|(x & X1 & _ & [[X2 _]|[_ X2]])]; [done|cbn [th_this] in X1; congruence|]. cbn [th_code] in X2. destruct X2 as [X2|(p & _ & _ & X2)]; injection X2 as ->; naive_solver. }
    assert (forall ob' l, obj_weight ob' + zsum instr_weight l < obj_weight ob + instr_weight i -> go_on (set_obj w this ob') t l rest = Some w' -> own_weight w' < own_weight w) as Hgo.
    { intros ob' l Hw Hg. apply (go_on_weight _ _ _ _ _ _ (Ht : w_threads (set_obj w this ob') !! t = Some _)) in Hg as [G1 G2]. unfold own_weight. rewrite G1, G2. cbn [set_obj w_objs w_threads th_code zsum].
      rewrite (zsum_insert _ _ _ _ _ Ed). lia. }
    destruct i as [inc d cmd|c| | |].
    + destruct (send_command w inc d cmd) as [w1|] eqn:Es; [|done]. cbn [mbind option_bind] in E'. destruct (send_weight _ _ _ _ _ _ _ Ht Es) as ((th' & Ht' & Hc') & Hw).
      apply (go_on_weight _ _ _ _ _ _ Ht') in E' as [G1 G2]. unfold own_weight in *. rewrite G1, G2, Hc'. cbn [th_code zsum instr_weight]. lia.
    + destruct (do_call w this ob c) as [[w1 l]|] eqn:Ec; [|done]. cbn [mbind option_bind] in E'. destruct (call_weight _ _ _ _ _ _ Ed Ec) as [Hw1 Hw2].
      rewrite <- Hw1 in Ht. apply (go_on_weight _ _ _ _ _ _ Ht) in E' as [G1 G2]. unfold own_weight in *. rewrite G1, G2, Hw1. cbn [th_code zsum instr_weight]. lia.
    + destruct (process_seqnum ob) as [[ob' l]|] eqn:Ec; [|done]. cbn [mbind option_bind] in E'. apply (Hgo ob' l); [|done]. unfold process_seqnum in Ec. apply check_weight in Ec; [|cbn; auto].
      change (obj_weight (set_processed ob _)) with (obj_weight ob) in Ec. cbn [instr_weight]. lia.
    + destruct (check_term_acks ob) as [[ob' l]|] eqn:Ec; [|done]. cbn [mbind option_bind] in E'. apply (Hgo ob' l); [|done]. apply check_weight in Ec; [|auto]. cbn [instr_weight]. lia.
    + apply (Hgo (set_own_phase ob deleted) []); [|done]. unfold obj_weight. cbn [set_own_phase ow_owned ow_phase zsum instr_weight]. rewrite (bool_decide_false (deleted = running)) by done.
      destruct (bool_decide _); lia.
Qed.

(** ** Coming to rest *)

Definition idle (w : own_world) : Prop := forall t th, w_threads w !! t = Some th -> busy th = false.

#[export] Instance idle_dec w : Decision (idle w).
Proof.
  destruct (decide (Forall (fun th => busy th = false) (w_threads w))) as [H|H].
  - left. intros t th Ht. rewrite Forall_lookup in H. by apply (H t).
  - right. intros Hi. apply H, Forall_lookup. exact Hi.
Defined.

Definition run_thread (t : nat) : own_step := os_run t [] false.

Lemma not_idle w : ~ idle w -> exists t th, w_threads w !! t = Some th /\ busy th = true.
Proof.
  intros Hn. destruct (decide (Forall (fun th => busy th = false) (w_threads w))) as [H|H]; [destruct Hn; intros t th Ht; rewrite Forall_lookup in H; by apply (H t)|].
  apply not_Forall_Exists, list.Exists_exists in H as (th & Hin & Hb); [|apply _]. apply list_elem_of_lookup in Hin as [t Ht]. exists t, th. split; [done|]. destruct (busy th) eqn:Eb; [done|contradiction Hb].
Qed.

Lemma busy_weight w t th : w_threads w !! t = Some th -> busy th = true -> 1 <= own_weight w.
Proof.
  intros Ht Hb. pose proof (zsum_elem thread_weight (w_threads w) th thread_weight_nonneg ltac:(by eapply list_elem_of_lookup_2)).
  pose proof (zsum_nonneg obj_weight (w_objs w) obj_weight_nonneg). enough (1 <= thread_weight th) by (unfold own_weight; lia).
  destruct th as [m this l]. unfold thread_weight, busy in *. cbn [th_mailbox th_code] in *. pose proof (zsum_nonneg mail_weight m mail_weight_nonneg). pose proof (zsum_nonneg instr_weight l instr_weight_nonneg).
  destruct l as [|j l]; [destruct m as [|[d cmd] m]; [done|]|]; cbn [zsum] in *.
  - pose proof (zsum_nonneg mail_weight m mail_weight_nonneg). destruct cmd; unfold mail_weight at 1; cbn [snd]; lia.
  - pose proof (zsum_nonneg instr_weight l instr_weight_nonneg). destruct j as [? d cmd| | | |]; cbn [instr_weight]; try lia. pose proof (mail_weight_nonneg (d, cmd)). lia.
Qed.

Lemma drain (b : nat) : forall k w, own_inv (w_objs w) (w_threads w) k -> 0 <= k -> k + own_weight w < 4294967296 -> own_weight w <= Z.of_nat b ->
  exists ts w' k', own_run w (run_thread <$> ts) = Some w' /\ Z.of_nat (length ts) <= own_weight w /\ idle w' /\ own_inv (w_objs w') (w_threads w') k'.
Proof.
  induction b as [|b IH]; intros k w Hi H0 Hk Hb; pose proof (own_weight_nonneg w) as Hnn;
    (destruct (decide (idle w)) as [Hd|Hd]; [exists [], w, k; split; [done|]; split; [cbn [length]; lia|done]|]); apply not_idle in Hd as (t & th & Ht & Hbusy); pose proof (busy_weight w t th Ht Hbusy); [lia|].
  destruct (own_do_inv k w (run_thread t) Hi ltac:(lia)) as (w1 & E1 & Hi1). pose proof (run_weight k w t th w1 Hi Ht Hbusy E1) as Hlt.
  destruct (IH (k + 1) w1 Hi1 ltac:(lia) ltac:(lia) ltac:(lia)) as (ts & w' & k' & E & Hl & Hd & Hi'). exists (t :: ts), w', k'. split_and!; [|cbn [length]; lia|done|done].
  rewrite fmap_cons. cbn [own_run]. by rewrite E1.
Qed.

(** Nothing is on its way when no thread is busy. *)
Lemma idle_none w f : idle w -> on_way f (w_threads w) = 0.
Proof.
  intros Hd. apply zsum_zero. intros th Hin. apply list_elem_of_lookup in Hin as [t Ht]. specialize (Hd t th Ht). destruct th as [[|] ? [|]]; done.
Qed.
Lemma idle_no_seq w c : idle w -> seq_on_way c (w_threads w) = 0.
Proof.
  intros Hd. apply zsum_zero. intros th Hin. apply list_elem_of_lookup in Hin as [t Ht]. specialize (Hd t th Ht). destruct th as [[|] ? [|]]; done.
Qed.
Lemma idle_code w t th i : idle w -> w_threads w !! t = Some th -> i ∉ th_code th.
Proof. intros Hd Ht. specialize (Hd t th Ht). destruct th as [[|] ? [|]]; try done; cbn [th_code]; apply not_elem_of_nil. Qed.

Definition settled (w : own_world) : Prop := forall c ob, w_objs w !! c = Some ob -> ow_events ob = 0 /\ ow_pending ob = false.

(** An object that waits, waits for one that was created later. *)
Lemma idle_terminated k w : own_inv (w_objs w) (w_threads w) k -> idle w -> settled w ->
  forall (g c : nat) ob, (length (w_objs w) <= c + g)%nat -> w_objs w !! c = Some ob -> ow_terminating ob = true -> ow_phase ob = deleted.
Proof.
  intros Hi Hd Hs. induction g as [|g IH]; intros c ob Hg Hc Htm; [apply lookup_lt_Some in Hc; lia|]. pose proof (iv_obj _ _ _ Hi c ob Hc) as Ho.
  destruct (ow_phase ob) eqn:Hph; [exfalso|exfalso|done].
  - destruct (oo_wait _ _ _ _ _ Ho Hph Htm) as [H|[H|(th & H1 & _ & H3)]].
    + pose proof (oo_seq _ _ _ _ _ Ho) as E. rewrite idle_no_seq in E by done. lia.
    + pose proof (oo_acks _ _ _ _ _ Ho) as E. rewrite !idle_none in E by done. destruct (Hs c ob Hc) as [E1 _].
      assert (0 < zsum (told_child c) (w_objs w)) as Hp by (pose proof (zsum_nonneg (told_child c) (w_objs w) (told_child_nonneg c)); lia).
      apply zsum_pos in Hp as (x & Hin & Hp). apply list_elem_of_lookup in Hin as [j Hj]. unfold told_child in Hp. destruct (_ && _) eqn:Ex; [|lia].
      apply andb_prop in Ex as [Eo%bool_decide_eq_true Er%bool_decide_eq_true]. destruct (Hs j x Hj) as [_ Eq]. rewrite Eq in Hp. cbn [one] in Hp.
      assert (ow_terminating x = true) as Et by (by destruct (ow_terminating x)). pose proof (oo_owner _ _ _ _ _ (iv_obj _ _ _ Hi j x Hj) c Eo).
      rewrite (IH j x ltac:(lia) Hj Et) in Er. done.
    + by apply (idle_code w _ th oi_check Hd H1).
  - destruct (oo_finishing _ _ _ _ _ Ho Hph) as (th & H1 & _ & H3). by apply (idle_code w _ th oi_destroy Hd H1).
Qed.

Lemma idle_children k w c ob x xb : own_inv (w_objs w) (w_threads w) k -> idle w -> w_objs w !! c = Some ob -> ow_phase ob = deleted ->
  w_objs w !! x = Some xb -> ow_owner xb = Some c -> ow_phase xb = deleted.
Proof.
  intros Hi Hd Hc Hph Hx Ho. destruct (ow_phase xb) eqn:Ex; [|exfalso|done].
  - destruct (owner_running _ _ _ x xb c Hi Hx Ex Ho) as (y & Hy & Hr). congruence.
  - destruct (oo_finishing _ _ _ _ _ (iv_obj _ _ _ Hi x xb Hx) Ex) as (th & H1 & _ & H3). by apply (idle_code w _ th oi_destroy Hd H1).
Qed.

(** C8: shutting down completes: from any state the program can reach, let the threads handle the commands that are left and nothing else; after at most [own_weight] steps none is left, and once no derived object waits for events of its own, every object that was told to terminate has been deleted, and so has all that it owned. *)
Theorem own_tree_terminates n l w : own_run (own_init n) l = Some w -> Z.of_nat (length l) + own_weight w < 4294967296 ->
  exists ts w', own_run w (run_thread <$> ts) = Some w' /\ Z.of_nat (length ts) <= own_weight w /\ idle w' /\
    (settled w' -> forall c ob, w_objs w' !! c = Some ob -> ow_terminating ob = true ->
       ow_phase ob = deleted /\ forall x xb, w_objs w' !! x = Some xb -> ow_owner xb = Some c -> ow_phase xb = deleted).
Proof.
  intros E Hk. pose proof (own_weight_nonneg w). destruct (own_run_inv l 0 (own_init n) (own_init_inv n) ltac:(lia) ltac:(lia)) as (w0 & E0 & Hi). rewrite E in E0. injection E0 as <-.
  destruct (drain (Z.to_nat (own_weight w)) _ w Hi ltac:(lia) ltac:(lia) ltac:(lia)) as (ts & w' & k' & E' & Hl & Hd & Hi'). exists ts, w'. split_and!; [done..|].
  intros Hs c ob Hc Ht. assert (ow_phase ob = deleted) as Hph by (apply (idle_terminated k' w' Hi' Hd Hs (length (w_objs w')) c ob); [lia|done..]). split; [done|].
  intros x xb Hx Ho. by apply (idle_children k' w' c ob x xb).
Qed.

(** A socket on thread 0 launches a session on thread 1, which launches a connecter on thread 2; then the socket is closed. *)
Definition own_example : list own_step :=
  [os_socket 0 0; os_call 0 (oc_launch_child 1 0 false); os_run 0 [] false; os_run 0 [] false; os_run 0 [] false; os_run 0 [] false; os_run 0 [] false;
   os_run 1 [oc_launch_child 2 0 false] false; os_run 1 [] false; os_run 1 [] false; os_run 2 [oc_send_attach; oc_terminate] false; os_call 0 oc_terminate; os_run 0 [] false].

Lemma own_tree_safe_witness : exists w, own_run (own_init 3) own_example = Some w /\
  forall c ob p pb, w_objs w !! c = Some ob -> ow_owner ob = Some p -> w_objs w !! p = Some pb -> ow_phase ob = running -> ow_phase pb = running.
Proof.
  destruct (own_tree_safe 3 own_example ltac:(vm_compute; reflexivity)) as (w & E & H). exists w. split; [exact E|].
  intros c ob p pb Hc Hp Hpb. by apply (H c ob p pb).
Defined.

Lemma own_tree_terminates_witness : exists w, own_run (own_init 3) own_example = Some w /\
  exists ts w', own_run w (run_thread <$> ts) = Some w' /\ Z.of_nat (length ts) <= own_weight w /\ idle w' /\
    (settled w' -> forall c ob, w_objs w' !! c = Some ob -> ow_terminating ob = true ->
       ow_phase ob = deleted /\ forall x xb, w_objs w' !! x = Some xb -> ow_owner xb = Some c -> ow_phase xb = deleted).
Proof.
  destruct (own_run (own_init 3) own_example) as [w|] eqn:E; [|vm_compute in E; discriminate E]. exists w. split; [reflexivity|].
  apply (own_tree_terminates 3 own_example w E). vm_compute in E. injection E as <-. vm_compute. reflexivity.
Defined.

(** ** Where the protocol falls short *)

(** [launch_child] sends [plug] before [own]: a child that asks to be terminated at once can be heard before it is announced.  The request is dropped, and the child stays until its owner goes. *)
Lemma own_early_request_lost : exists w ob cb, own_run (own_init 2)
    [os_socket 0 0; os_call 0 (oc_launch_child 1 0 false); os_run 0 [] false; os_run 0 [] false;
     os_run 1 [oc_terminate] false; os_run 1 [] false; os_run 1 [] false; os_run 1 [] false;
     os_run 0 [] false; os_run 0 [] false; os_run 0 [] false; os_run 0 [] false] = Some w /\
  idle w /\ w_objs w = [ob; cb] /\ ow_phase cb = running /\ ow_terminating cb = false.
Proof. eexists _, _, _. split; [vm_compute; reflexivity|]. split; [intros [|[|t]] th [= <-]; reflexivity|]. split; [reflexivity|]. by split. Qed.

(** The number of commands sent is kept in 32 bits and the number of commands processed in 64: an object that has handled more than the former can count is never deleted. *)
Lemma own_seqnum_width ob : is_u32 (ow_sent_seqnum ob) -> 4294967296 <= ow_processed_seqnum ob -> check_term_acks ob = Some (ob, []).
Proof.
  intros Hs Hp. unfold check_term_acks. unfold is_u32 in Hs. rewrite (proj2 (Z.eqb_neq (ow_processed_seqnum ob) (ow_sent_seqnum ob))) by lia. by rewrite andb_false_r.
Qed.
