(* ===== verification/Mailbox.v ===== *)
(** * Mailboxes (src/src/mailbox.cpp, src/src/mailbox_safe.cpp) and their signaler (src/src/signaler.cpp)

    Any thread sends commands to a mailbox, one thread receives them.  The
    commands go through a [ypipe_t], whose writer is whoever holds the
    mutex; the receiver is woken by a signal, sent only when [flush] says
    that it sleeps.  Between two calls any other thread may run.  [None] is
    a failed assertion or a use of memory that is not allocated. *)

From Stdlib Require Import Bool.
From S2P Require Import Prelude Yqueue Ypipe.

Section mailbox.
Context {T : Type} (malloc : heap T -> Z) (N : nat).

(** Where the sender that holds [_sync] is. *)
Inductive mb_sender := mb_free | mb_written | mb_cas_failed.

(** Where [recv] of the receiver is. *)
Inductive mb_receiver :=
| mb_out            (** not in [recv] *)
| mb_taking         (** [read] found a command and removes it *)
| mb_waiting        (** before or in [_signaler.wait] *)
| mb_signalled      (** the wait succeeded *)
| mb_woken.         (** the signal was received *)

Record mailbox := Mailbox {
  mb_cpipe : ypipe (T := T);
  mb_active : bool;
  mb_signals : Z;     (** signals that were sent and not received *)
  mb_owed : Z;        (** senders that released the mutex and have not signalled yet *)
  mb_send_at : mb_sender;
  mb_recv_at : mb_receiver;
}.

Inductive mb_event := mb_sent (v : T) | mb_received (v : T) | mb_again.

Definition mailbox_new : option mailbox :=
  let* p := ypipe_new malloc N in
  let '(p, ok) := ypipe_check_read p in
  zmq_assert (negb ok) ;; Some (Mailbox p false 0 0 mb_free mb_out).

(** [signaler_t::wait]: a signal is there ([false]: the wait times out, or is interrupted). *)
Definition signaler_wait (signals : Z) : bool := 0 <? signals.
(** [signaler_t::recv_failable] takes one signal; with an eventfd it puts the others back. *)
Definition signaler_recv (signals : Z) : option Z := if 0 <? signals then Some (signals - 1) else None.

Inductive mb_act :=
| ma_send (v : T)   (** the mutex is taken and the command written *)
| ma_flush          (** [flush], up to its store *)
| ma_flush_set
| ma_signal
| ma_recv           (** [recv] is called *)
| ma_wait
| ma_timeout
| ma_take_signal
| ma_read
| ma_take.

(** A step that cannot happen now does nothing. *)
Definition mb_step (m : mailbox) (a : mb_act) : option (mailbox * list mb_event) :=
  let '(Mailbox p active signals owed s r) := m in
  match a, s, r with
  | ma_send v, mb_free, _ => let* p := ypipe_write malloc N p v false in Some (Mailbox p active signals owed mb_written r, [mb_sent v])
  | ma_flush, mb_written, _ =>
      match ypipe_flush_cas p with
      | (p, Some ok) => Some (Mailbox p active signals (if ok : bool then owed else owed + 1) mb_free r, [])
      | (p, None) => Some (Mailbox p active signals owed mb_cas_failed r, [])
      end
  | ma_flush_set, mb_cas_failed, _ => Some (Mailbox (ypipe_flush_set p) active signals (owed + 1) mb_free r, [])
  | ma_signal, _, _ => if 0 <? owed then Some (Mailbox p active (signals + 1) (owed - 1) s r, []) else Some (m, [])
  | ma_recv, _, mb_out =>
      if active then
        match ypipe_check_read p with
        | (p, true) => Some (Mailbox p active signals owed s mb_taking, [])
        | (p, false) => Some (Mailbox p false signals owed s mb_waiting, [])
        end
      else Some (Mailbox p active signals owed s mb_waiting, [])
  | ma_wait, _, mb_waiting => if signaler_wait signals then Some (Mailbox p active signals owed s mb_signalled, []) else Some (m, [])
  | ma_timeout, _, mb_waiting => Some (Mailbox p active signals owed s mb_out, [mb_again])
  | ma_take_signal, _, mb_signalled =>
      match signaler_recv signals with
      | Some signals => Some (Mailbox p true signals owed s mb_woken, [])
      | None => Some (Mailbox p active signals owed s mb_out, [mb_again])
      end
  | ma_read, _, mb_woken => let '(p, ok) := ypipe_check_read p in zmq_assert ok ;; Some (Mailbox p active signals owed s mb_taking, [])
  | ma_take, _, mb_taking => let* (p, v) := ypipe_take N p in Some (Mailbox p active signals owed s mb_out, [mb_received v])
  | _, _, _ => Some (m, [])
  end.

Fixpoint mb_run (m : mailbox) (l : list mb_act) : option (mailbox * list mb_event) :=
  match l with [] => Some (m, []) | a :: l' => let* (m, e) := mb_step m a in let* (m, e') := mb_run m l' in Some (m, e ++ e') end.

Fixpoint mb_all_sent (l : list mb_event) : list T := match l with [] => [] | mb_sent v :: l' => v :: mb_all_sent l' | _ :: l' => mb_all_sent l' end.
Fixpoint mb_all_received (l : list mb_event) : list T := match l with [] => [] | mb_received v :: l' => v :: mb_all_received l' | _ :: l' => mb_all_received l' end.

(** ** The invariant *)

(** [xs] are the commands in the pipe that have been flushed. *)
Record mb_inv (m : mailbox) (xs ys : list T) : Prop := {
  mi_yp : exists ck hd ri asleep, yp_inv N (mb_cpipe m) (Pq xs ys [] asleep) ck hd ri /\
    (mb_recv_at m = mb_taking -> xs <> [] /\ exists i, ri = Some i /\ (hd < i)%nat) /\
    (mb_active m = true -> asleep = false /\ mb_signals m + mb_owed m = 0) /\
    (mb_active m = false -> asleep = true /\ mb_signals m + mb_owed m = 0 \/ asleep = false /\ xs <> [] /\ mb_signals m + mb_owed m = 1) /\
    (mb_send_at m = mb_cas_failed -> asleep = true);
  mi_owed : 0 <= mb_signals m /\ 0 <= mb_owed m;
  mi_sender : match mb_send_at m with mb_free => ys = [] | _ => exists v, ys = [v] end;
  mi_receiver : match mb_recv_at m with
    | mb_waiting => mb_active m = false
    | mb_signalled => mb_active m = false /\ 0 < mb_signals m
    | mb_woken => mb_active m = true /\ xs <> []
    | mb_taking => mb_active m = true
    | mb_out => True end;
}.

Hypothesis HN : (0 < N)%nat.
Context `{!Allocator T malloc}.

Lemma mailbox_new_ok : exists m, mailbox_new = Some m /\ mb_inv m [] [].
Proof.
  destruct (ypipe_new_spec malloc N HN) as (p & ck & E & Hp). unfold mailbox_new. rewrite E. cbn [mbind option_bind].
  destruct (ypipe_check_read_spec N HN _ _ _ _ _ _ _ _ Hp) as (p' & ri' & E' & Hp' & _). rewrite E'. rewrite bool_decide_true in * by done. cbn [negb]. eexists. split; [done|].
  constructor; try done. exists ck, 0%nat, ri', true. split; [done|]. cbn. split; [done|]. split; [done|]. split; [by left|done].
Qed.

Definition mb_step_spec (m : mailbox) (a : mb_act) (xs ys : list T) : Prop :=
  exists m' e xs' ys', mb_step m a = Some (m', e) /\ mb_inv m' xs' ys' /\ (xs ++ ys) ++ mb_all_sent e = mb_all_received e ++ xs' ++ ys'.

Lemma mb_stutter m a xs ys : mb_inv m xs ys -> mb_step m a = Some (m, []) -> mb_step_spec m a xs ys.
Proof. intros Hi E. exists m, [], xs, ys. split; [done|]. split; [done|]. by rewrite app_nil_r. Qed.

Lemma send_step_ok m xs ys v : mb_inv m xs ys -> mb_step_spec m (ma_send v) xs ys.
Proof.
  intros Hi. destruct m as [p active signals owed s r]. destruct s; try (by apply mb_stutter). pose proof Hi as [(ck & hd & ri & sl & Hp & H1 & H2 & H3 & H4) Ho Hs Hr]. cbn in *. subst ys.
  destruct (ypipe_write_spec malloc N HN _ _ _ _ _ _ _ _ v false Hp) as (p' & ck' & E & Hp'). cbn [app] in Hp'.
  exists (Mailbox p' active signals owed mb_written r), [mb_sent v], xs, [v]. cbn [mb_step]. rewrite E. split; [done|]. split; [|by rewrite app_nil_r].
  constructor; cbn; [exists ck', hd, ri, sl; by split_and!|done|by exists v|done].
Qed.

Lemma flush_step_ok m xs ys : mb_inv m xs ys -> mb_step_spec m ma_flush xs ys.
Proof.
  intros Hi. destruct m as [p active signals owed s r]. destruct s; try (by apply mb_stutter). pose proof Hi as [(ck & hd & ri & sl & Hp & H1 & H2 & H3 & H4) Ho [v ->] Hr]. cbn in *.
  destruct (ypipe_flush_cas_spec N HN _ _ _ _ _ _ _ _ Hp) as [[? _]|[(_ & -> & E)|(_ & -> & p' & E & Hp')]]; [done|..].
  - exists (Mailbox p active signals owed mb_cas_failed r), [], xs, [v]. unfold mb_step. rewrite E. split; [done|]. split; [|by rewrite app_nil_r].
    constructor; cbn; [exists ck, hd, ri, true; by split_and!|done|by exists v|done].
  - exists (Mailbox p' active signals owed mb_free r), [], (xs ++ [v]), []. unfold mb_step. rewrite E. split; [done|]. split; [|cbn; by rewrite !app_nil_r].
    constructor; cbn; [|done|done|].
    + exists ck, hd, ri, false. split; [done|]. split; [intros Ht; destruct (H1 Ht) as [? ?]; split; [by destruct xs|done]|]. split; [intros Ha; by destruct (H2 Ha)|]. split; [|done].
      intros Ha. destruct (H3 Ha) as [[? _]|(_ & Hx & Hc)]; [done|]. right. split_and!; [done|by destruct xs|done].
    + destruct r; try done. destruct Hr as [? ?]. split; [done|by destruct xs].
Qed.

Lemma flush_set_step_ok m xs ys : mb_inv m xs ys -> mb_step_spec m ma_flush_set xs ys.
Proof.
  intros Hi. destruct m as [p active signals owed s r]. destruct s; try (by apply mb_stutter). pose proof Hi as [(ck & hd & ri & sl & Hp & H1 & H2 & H3 & H4) Ho [v ->] Hr]. cbn in *.
  specialize (H4 eq_refl). subst sl. destruct active; [by destruct (H2 eq_refl)|]. destruct (H3 eq_refl) as [[_ Hc]|[? _]]; [|done].
  exists (Mailbox (ypipe_flush_set p) false signals (owed + 1) mb_free r), [], (xs ++ [v]), []. split; [done|]. split; [|cbn; by rewrite !app_nil_r].
  constructor; cbn; [|lia|done|].
  - exists ck, hd, ri, false. split; [by eapply ypipe_flush_set_spec|]. split; [intros Ht; destruct (H1 Ht) as [? ?]; split; [by destruct xs|done]|].
    split; [done|]. split; [|done]. intros _. right. split_and!; [done|by destruct xs|lia].
  - destruct r; try done. destruct Hr as [? ?]. split; [done|by destruct xs].
Qed.

Lemma signal_step_ok m xs ys : mb_inv m xs ys -> mb_step_spec m ma_signal xs ys.
Proof.
  intros Hi. destruct m as [p active signals owed s r]. pose proof Hi as [(ck & hd & ri & sl & Hp & H1 & H2 & H3 & H4) Ho Hs Hr]. cbn in *.
  destruct (0 <? owed) eqn:E; bool_prop; [|apply mb_stutter; [done|]; unfold mb_step; by rewrite (proj2 (Z.ltb_ge _ _)) by lia].
  exists (Mailbox p active (signals + 1) (owed - 1) s r), [], xs, ys. unfold mb_step. rewrite (proj2 (Z.ltb_lt _ _)) by lia. split; [by destruct s|]. split; [|by rewrite app_nil_r].
  constructor; cbn; [|lia|done|].
  - exists ck, hd, ri, sl. split; [done|]. split; [done|]. replace (signals + 1 + (owed - 1)) with (signals + owed) by lia. done.
  - destruct r; try done. split; [apply Hr|]. destruct Hr. lia.
Qed.

Lemma receive_step_ok m xs ys a : mb_inv m xs ys -> match a with ma_recv | ma_wait | ma_timeout | ma_take_signal | ma_read | ma_take => True | _ => False end -> mb_step_spec m a xs ys.
Proof.
  intros Hi Ha. destruct m as [p active signals owed s r]. pose proof Hi as [(ck & hd & ri & sl & Hp & H1 & H2 & H3 & H4) Ho Hs Hr]. cbn in *.
  destruct a; try done; (destruct r; [..]; try (apply mb_stutter; [done|]; by destruct s)).
  - destruct active.
    + destruct (H2 eq_refl) as [-> Hz]. destruct (ypipe_check_read_spec N HN _ _ _ _ _ _ _ _ Hp) as (p' & ri' & E & Hp' & Hrdy). destruct xs as [|x xs].
      * rewrite bool_decide_true in * by done. exists (Mailbox p' false signals owed s mb_waiting), [], [], ys. unfold mb_step. rewrite E. split; [by destruct s|]. split; [|by rewrite app_nil_r].
        constructor; cbn; try done. exists ck, hd, ri', true. split_and!; try done. intros _. by left.
      * rewrite bool_decide_false in * by done. exists (Mailbox p' true signals owed s mb_taking), [], (x :: xs), ys. unfold mb_step. rewrite E. split; [by destruct s|]. split; [|by rewrite app_nil_r].
        constructor; cbn; try done. exists ck, hd, ri', false. split_and!; try done. intros _. split; [done|]. by apply Hrdy.
    + exists (Mailbox p false signals owed s mb_waiting), [], xs, ys. split; [by destruct s|]. split; [|by rewrite app_nil_r]. constructor; cbn; try done. by exists ck, hd, ri, sl.
  - unfold signaler_wait. destruct (0 <? signals) eqn:E; [|apply mb_stutter; [done|]; unfold mb_step, signaler_wait; rewrite E; by destruct s]. 
    exists (Mailbox p active signals owed s mb_signalled), [], xs, ys. unfold mb_step, signaler_wait. rewrite E. split; [by destruct s|]. split; [|by rewrite app_nil_r]. bool_prop.
    constructor; cbn; try done. by exists ck, hd, ri, sl.
  - exists (Mailbox p active signals owed s mb_out), [mb_again], xs, ys. split; [by destruct s|]. split; [|by rewrite app_nil_r]. constructor; cbn; try done. by exists ck, hd, ri, sl.
  - destruct Hr as [-> Hpos]. destruct (H3 eq_refl) as [[_ ?]|(-> & Hx & Hc)]; [lia|].
    exists (Mailbox p true (signals - 1) owed s mb_woken), [], xs, ys. unfold mb_step, signaler_recv. rewrite (proj2 (Z.ltb_lt _ _)) by lia. split; [by destruct s|]. split; [|by rewrite app_nil_r].
    constructor; cbn; try done; [|lia]. exists ck, hd, ri, false. split_and!; try done. intros _. split; [done|lia].
  - destruct Hr as [-> Hx]. destruct (ypipe_check_read_spec N HN _ _ _ _ _ _ _ _ Hp) as (p' & ri' & E & Hp' & Hrdy). rewrite bool_decide_false in * by done.
    exists (Mailbox p' true signals owed s mb_taking), [], xs, ys. unfold mb_step. rewrite E. split; [by destruct s|]. split; [|by rewrite app_nil_r].
    constructor; cbn; try done. exists ck, hd, ri', sl. split_and!; try done. intros _. split; [done|]. by apply Hrdy.
  - subst active. destruct (H1 eq_refl) as (Hx & i & -> & Hi0). destruct xs as [|x xs]; [done|]. destruct (H2 eq_refl) as [-> Hz].
    destruct (ypipe_take_spec N HN _ _ _ _ _ _ _ _ _ Hp Hi0) as (p' & E & Hp'). exists (Mailbox p' true signals owed s mb_out), [mb_received x], xs, ys. unfold mb_step. rewrite E.
    split; [by destruct s|]. split; [|cbn; by rewrite app_nil_r]. constructor; cbn; try done. by exists ck, (S hd), (Some i), false.
Qed.

Lemma mb_step_ok m xs ys a : mb_inv m xs ys -> mb_step_spec m a xs ys.
Proof.
  intros Hi. destruct a; [by apply send_step_ok|by apply flush_step_ok|by apply flush_set_step_ok|by apply signal_step_ok|by apply receive_step_ok..].
Qed.

Lemma mb_all_sent_app l1 l2 : mb_all_sent (l1 ++ l2) = mb_all_sent l1 ++ mb_all_sent l2.
Proof. induction l1 as [|[] l1 IH]; cbn; congruence. Qed.
Lemma mb_all_received_app l1 l2 : mb_all_received (l1 ++ l2) = mb_all_received l1 ++ mb_all_received l2.
Proof. induction l1 as [|[] l1 IH]; cbn; congruence. Qed.

Lemma mb_run_ok l : forall m xs ys, mb_inv m xs ys -> exists m' e xs' ys', mb_run m l = Some (m', e) /\ mb_inv m' xs' ys' /\
  (xs ++ ys) ++ mb_all_sent e = mb_all_received e ++ xs' ++ ys'.
Proof.
  induction l as [|a l IH]; intros m xs ys Hi; [exists m, [], xs, ys; by rewrite app_nil_r|]. cbn [mb_run].
  destruct (mb_step_ok m xs ys a Hi) as (m1 & e1 & xs1 & ys1 & -> & Hi1 & E1). destruct (IH m1 xs1 ys1 Hi1) as (m2 & e2 & xs2 & ys2 & E & Hi2 & E2). cbn [mbind option_bind]. rewrite E.
  exists m2, (e1 ++ e2), xs2, ys2. split; [done|]. split; [done|]. rewrite mb_all_sent_app, mb_all_received_app, app_assoc, E1, <- !app_assoc. f_equal. rewrite <- E2. by rewrite app_assoc.
Qed.

(** A call of [recv] that is not disturbed. *)
Definition mb_recv_call : list mb_act := [ma_recv; ma_wait; ma_take_signal; ma_read; ma_take].

Lemma recv_call_ok m x xs : mb_inv m (x :: xs) [] -> mb_send_at m = mb_free -> mb_owed m = 0 -> mb_recv_at m = mb_out ->
  exists m', mb_run m mb_recv_call = Some (m', [mb_received x]).
Proof.
  intros Hi Hs Ho Hr. destruct m as [p active signals owed s r]. cbn in Hs, Ho, Hr. subst s owed r. pose proof Hi as [(ck & hd & ri & sl & Hp & H1 & H2 & H3 & H4) _ _ _]. cbn in H2, H3, Hp.
  destruct (ypipe_check_read_spec N HN _ _ _ _ _ _ _ _ Hp) as (p' & ri' & E & Hp' & Hrdy). rewrite bool_decide_false in * by done. cbn [negb] in E. destruct (Hrdy ltac:(done)) as (i & -> & Hi0).
  destruct (ypipe_take_spec N HN _ _ _ _ _ _ _ _ _ Hp' Hi0) as (p'' & E' & _). unfold mb_recv_call. destruct active.
  - cbn [mb_run mb_step]. rewrite E. cbn [mbind option_bind mb_step]. rewrite E'. cbn [mbind option_bind]. by eexists.
  - destruct (H3 eq_refl) as [[-> _]|(_ & _ & Hc)]; [by pose proof (yp_asleep _ _ _ _ _ _ Hp eq_refl)|]. assert (signals = 1) as -> by lia.
    cbn -[ypipe_check_read ypipe_take]. rewrite E. cbn -[ypipe_check_read ypipe_take]. rewrite E'. by eexists.
Qed.
End mailbox.

(** C9: a mailbox delivers: however the threads interleave, no assertion of [mailbox_t] fails and the commands are received in the order in which they were sent, none lost and none twice; and no wake-up is lost: when commands are left and every [send] has returned, a receiver that waits has its signal, and one that calls [recv] gets the next command. *)
Theorem mailbox_delivers {T} (malloc : heap T -> Z) `{!Allocator T malloc} (N : nat) (l : list mb_act) : (0 < N)%nat ->
  exists m e rest, (let* m := mailbox_new malloc N in mb_run malloc N m l) = Some (m, e) /\ mb_all_sent e = mb_all_received e ++ rest /\
    (mb_send_at m = mb_free -> mb_owed m = 0 -> forall x rest', rest = x :: rest' ->
       (mb_recv_at m = mb_waiting -> 0 < mb_signals m) /\
       (mb_recv_at m = mb_out -> exists m', mb_run malloc N m mb_recv_call = Some (m', [mb_received x]))).
Proof.
  intros HN. destruct (mailbox_new_ok malloc N HN) as (m0 & -> & Hi0). cbn [mbind option_bind]. destruct (mb_run_ok malloc N HN l m0 [] [] Hi0) as (m & e & xs & ys & E & Hi & Eq).
  exists m, e, (xs ++ ys). split; [done|]. split; [exact Eq|]. intros Hs Ho x rest' Er.
  pose proof (mi_sender _ _ _ _ Hi) as Hy. rewrite Hs in Hy. subst ys. rewrite app_nil_r in Er. subst xs. split.
  - intros Hw. destruct Hi as [(ck & hd & ri & sl & Hp & _ & _ & H3 & _) _ _ Hr]. rewrite Hw in Hr. destruct (H3 Hr) as [[-> _]|(_ & _ & Hc)]; [by pose proof (yp_asleep _ _ _ _ _ _ Hp eq_refl)|lia].
  - intros Hr. by apply recv_call_ok with (xs := rest').
Qed.

Lemma mailbox_delivers_witness : exists m e rest,
  (let* m := mailbox_new least_free 2 in
   mb_run least_free 2 m [ma_recv; ma_send 7; ma_flush; ma_wait; ma_flush_set; ma_signal; ma_send 8; ma_wait; ma_take_signal; ma_flush; ma_read; ma_take]) = Some (m, e) /\
  mb_all_sent e = mb_all_received e ++ rest /\
  (mb_send_at m = mb_free -> mb_owed m = 0 -> forall x rest', rest = x :: rest' ->
     (mb_recv_at m = mb_waiting -> 0 < mb_signals m) /\
     (mb_recv_at m = mb_out -> exists m', mb_run least_free 2 m mb_recv_call = Some (m', [mb_received x]))).
Proof. apply (mailbox_delivers least_free 2). lia. Defined.

(** ** The mailbox of a thread-safe socket: every operation runs under the mutex of the socket *)

Section mailbox_safe.
Context {T : Type} (malloc : heap T -> Z) (N : nat).

Record mailbox_safe := MailboxSafe {
  ms_cpipe : ypipe (T := T);
  ms_signalers : list Z;     (** the signals of each [signaler_t] that was added *)
  ms_waiting : Z;            (** receivers in [_cond_var.wait] *)
  ms_notified : Z;           (** receivers that were notified, or gave up the mutex for an instant *)
}.

Definition mailbox_safe_new : option mailbox_safe :=
  let* p := ypipe_new malloc N in
  let '(p, ok) := ypipe_check_read p in
  zmq_assert (negb ok) ;; Some (MailboxSafe p [] 0 0).

Definition ms_add_signaler (m : mailbox_safe) : mailbox_safe := MailboxSafe (ms_cpipe m) (ms_signalers m ++ [0]) (ms_waiting m) (ms_notified m).
Definition ms_remove_signaler (m : mailbox_safe) (i : nat) : mailbox_safe := MailboxSafe (ms_cpipe m) (delete i (ms_signalers m)) (ms_waiting m) (ms_notified m).
Definition ms_clear_signalers (m : mailbox_safe) : mailbox_safe := MailboxSafe (ms_cpipe m) [] (ms_waiting m) (ms_notified m).

Definition ms_send (m : mailbox_safe) (cmd_ : T) : option mailbox_safe :=
  let* p := ypipe_write malloc N (ms_cpipe m) cmd_ false in
  let '(p, ok) := ypipe_flush p in
  Some (if ok : bool then MailboxSafe p (ms_signalers m) (ms_waiting m) (ms_notified m)
        else MailboxSafe p ((fun n => n + 1) <$> ms_signalers m) 0 (ms_notified m + ms_waiting m)).

(** [recv], up to the wait. *)
Definition ms_recv (m : mailbox_safe) (timeout_ : Z) : option (mailbox_safe * list (mb_event (T := T))) :=
  let* (p, v) := ypipe_read N (ms_cpipe m) in
  Some (match v with
        | Some v => (MailboxSafe p (ms_signalers m) (ms_waiting m) (ms_notified m), [mb_received v])
        | None => if timeout_ =? 0 then (MailboxSafe p (ms_signalers m) (ms_waiting m) (ms_notified m + 1), [])
                  else (MailboxSafe p (ms_signalers m) (ms_waiting m + 1) (ms_notified m), [])
        end).

(** [recv], after the wait. *)
Definition ms_recv_again (m : mailbox_safe) : option (mailbox_safe * list (mb_event (T := T))) :=
  let* (p, v) := ypipe_read N (ms_cpipe m) in
  Some (MailboxSafe p (ms_signalers m) (ms_waiting m) (ms_notified m - 1), [match v with Some v => mb_received v | None => mb_again end]).

Inductive ms_act := msa_send (cmd_ : T) | msa_recv (timeout_ : Z) | msa_recv_again | msa_timeout | msa_add | msa_remove (i : nat) | msa_clear.

Definition ms_step (m : mailbox_safe) (a : ms_act) : option (mailbox_safe * list (mb_event (T := T))) :=
  match a with
  | msa_send v => let* m := ms_send m v in Some (m, [mb_sent v])
  | msa_recv timeout_ => ms_recv m timeout_
  | msa_recv_again => if 0 <? ms_notified m then ms_recv_again m else Some (m, [])
  | msa_timeout => if 0 <? ms_waiting m then Some (MailboxSafe (ms_cpipe m) (ms_signalers m) (ms_waiting m - 1) (ms_notified m), [mb_again]) else Some (m, [])
  | msa_add => Some (ms_add_signaler m, [])
  | msa_remove i => Some (ms_remove_signaler m i, [])
  | msa_clear => Some (ms_clear_signalers m, [])
  end.

Fixpoint ms_run (m : mailbox_safe) (l : list ms_act) : option (mailbox_safe * list (mb_event (T := T))) :=
  match l with [] => Some (m, []) | a :: l' => let* (m, e) := ms_step m a in let* (m, e') := ms_run m l' in Some (m, e ++ e') end.

Record ms_inv (m : mailbox_safe) (xs : list T) : Prop := {
  msi_yp : exists ck hd ri asleep, yp_inv N (ms_cpipe m) (Pq xs [] [] asleep) ck hd ri /\ (0 < ms_waiting m -> asleep = true);
  msi_waiting : 0 <= ms_waiting m;
}.

Hypothesis HN : (0 < N)%nat.
Context `{!Allocator T malloc}.

Lemma safe_read p (xs : list T) sl ck hd ri : yp_inv N p (Pq xs [] [] sl) ck hd ri ->
  exists p' hd' ri', ypipe_read N p = Some (p', head xs) /\ yp_inv N p' (Pq (tail xs) [] [] (if bool_decide (xs = []) then true else sl)) ck hd' ri'.
Proof.
  intros Hp. unfold ypipe_read. destruct (ypipe_check_read_spec N HN _ _ _ _ _ _ _ _ Hp) as (p' & ri' & -> & Hp' & Hrdy). destruct xs as [|x xs].
  - rewrite bool_decide_true in * by done. by exists p', hd, ri'.
  - rewrite bool_decide_false in * by done. cbn [negb]. destruct (Hrdy ltac:(done)) as (i & -> & Hi). destruct (ypipe_take_spec N HN _ _ _ _ _ _ _ _ _ Hp' Hi) as (p'' & E & Hp'').
    rewrite E. cbn [mbind option_bind]. by exists p'', (S hd), (Some i).
Qed.

Lemma ms_step_ok m xs a : ms_inv m xs -> exists m' e xs', ms_step m a = Some (m', e) /\ ms_inv m' xs' /\ xs ++ mb_all_sent e = mb_all_received e ++ xs'.
Proof.
  intros [(ck & hd & ri & sl & Hp & Hw) H0]. destruct m as [p sg w n]. cbn in *.
  destruct a as [v|timeout| | | |i|]; cbn [ms_step].
  - unfold ms_send. destruct (ypipe_write_spec malloc N HN _ _ _ _ _ _ _ _ v false Hp) as (p1 & ck1 & E1 & Hp1). cbn [ms_cpipe]. rewrite E1. cbn [mbind option_bind app] in *. unfold ypipe_flush.
    destruct (ypipe_flush_cas_spec N HN _ _ _ _ _ _ _ _ Hp1) as [[? _]|[(_ & -> & E)|(_ & -> & p2 & E & Hp2)]]; [done|..]; rewrite E; cbn [mbind option_bind].
    + eexists _, _, (xs ++ [v]). split; [done|]. split; [|done]. constructor; cbn; [|done]. exists ck1, hd, ri, false. split; [by eapply ypipe_flush_set_spec|lia].
    + eexists _, _, (xs ++ [v]). split; [done|]. split; [|done]. constructor; cbn; [|done]. exists ck1, hd, ri, false. split; [done|]. intros Hpos. by specialize (Hw Hpos).
  - unfold ms_recv. destruct (safe_read _ _ _ _ _ _ Hp) as (p' & hd' & ri' & E & Hp'). cbn [ms_cpipe]. rewrite E. cbn [mbind option_bind]. destruct xs as [|x xs]; cbn [head tail] in *.
    + rewrite bool_decide_true in Hp' by done. destruct (timeout =? 0); (eexists _, _, []; split; [done|]; split; [|done]; constructor; cbn; [by exists ck, hd', ri', true|lia]).
    + rewrite bool_decide_false in Hp' by done. eexists _, _, xs. split; [done|]. split; [|cbn; by rewrite app_nil_r]. constructor; cbn; [by exists ck, hd', ri', sl|done].
  - case_match; [|eexists _, _, xs; split; [done|]; split; [|by rewrite app_nil_r]; constructor; cbn; [by exists ck, hd, ri, sl|done]].
    unfold ms_recv_again. destruct (safe_read _ _ _ _ _ _ Hp) as (p' & hd' & ri' & E & Hp'). cbn [ms_cpipe]. rewrite E. cbn [mbind option_bind]. destruct xs as [|x xs]; cbn [head tail] in *.
    + rewrite bool_decide_true in Hp' by done. eexists _, _, []. split; [done|]. split; [|done]. constructor; cbn; [by exists ck, hd', ri', true|done].
    + rewrite bool_decide_false in Hp' by done. eexists _, _, xs. split; [done|]. split; [|cbn; by rewrite app_nil_r]. constructor; cbn; [by exists ck, hd', ri', sl|done].
  - destruct (0 <? w) eqn:Ew; bool_prop; cbn; [|rewrite (proj2 (Z.ltb_ge 0 w)) by lia; eexists _, _, xs; split; [done|]; split; [|by rewrite app_nil_r]; constructor; cbn; [by exists ck, hd, ri, sl|done]].
    rewrite (proj2 (Z.ltb_lt 0 w)) by lia. eexists _, _, xs. split; [done|]. split; [|by rewrite app_nil_r]. constructor; cbn; [|lia]. exists ck, hd, ri, sl. split; [done|]. intros _. by apply Hw.
  - eexists _, _, xs. split; [done|]. split; [|by rewrite app_nil_r]. constructor; cbn; [by exists ck, hd, ri, sl|done].
  - eexists _, _, xs. split; [done|]. split; [|by rewrite app_nil_r]. constructor; cbn; [by exists ck, hd, ri, sl|done].
  - eexists _, _, xs. split; [done|]. split; [|by rewrite app_nil_r]. constructor; cbn; [by exists ck, hd, ri, sl|done].
Qed.

Lemma ms_run_ok l : forall m xs, ms_inv m xs -> exists m' e xs', ms_run m l = Some (m', e) /\ ms_inv m' xs' /\ xs ++ mb_all_sent e = mb_all_received e ++ xs'.
Proof.
  induction l as [|a l IH]; intros m xs Hi; [exists m, [], xs; by rewrite app_nil_r|]. cbn [ms_run].
  destruct (ms_step_ok m xs a Hi) as (m1 & e1 & xs1 & -> & Hi1 & E1). destruct (IH m1 xs1 Hi1) as (m2 & e2 & xs2 & E & Hi2 & E2). cbn [mbind option_bind]. rewrite E.
  exists m2, (e1 ++ e2), xs2. split; [done|]. split; [done|]. by rewrite mb_all_sent_app, mb_all_received_app, app_assoc, E1, <- !app_assoc, E2.
Qed.

(** No assertion fails, commands are received in order by whichever thread calls [recv], and a thread waits only when there is no command. *)
Theorem mailbox_safe_delivers l : exists m e rest, (let* m := mailbox_safe_new in ms_run m l) = Some (m, e) /\
  mb_all_sent e = mb_all_received e ++ rest /\ (rest <> [] -> ms_waiting m = 0).
Proof.
  assert (exists m, mailbox_safe_new = Some m /\ ms_inv m []) as (m0 & -> & Hi0).
  { destruct (ypipe_new_spec malloc N HN) as (p & ck & E & Hp). unfold mailbox_safe_new. rewrite E. cbn [mbind option_bind].
    destruct (ypipe_check_read_spec N HN _ _ _ _ _ _ _ _ Hp) as (p' & ri' & E' & Hp' & _). rewrite E'. rewrite bool_decide_true in * by done. cbn [negb]. eexists. split; [done|].
    constructor; cbn; [by exists ck, 0%nat, ri', true|done]. }
  cbn [mbind option_bind]. destruct (ms_run_ok l m0 [] Hi0) as (m & e & xs & E & [(ck & hd & ri & sl & Hp & Hw) H0] & Eq). exists m, e, xs. split; [done|]. split; [done|].
  intros Hx. destruct (decide (0 < ms_waiting m)) as [Hpos|]; [|lia]. specialize (Hw Hpos). subst sl. destruct Hx. exact (yp_asleep _ _ _ _ _ _ Hp eq_refl).
Qed.
End mailbox_safe.
