(* ===== verification/Sockets.v ===== *)
(** * The socket types that route by their pipes alone
    (src/src/pair.cpp, push.cpp, pull.cpp, scatter.cpp, gather.cpp, client.cpp)

    PAIR has one pipe.  PUSH and SCATTER send by a load balancer, PULL and
    GATHER receive by a fair queue, CLIENT does both.  SCATTER, GATHER and
    CLIENT take messages of a single part: they refuse to send others and
    drop those they receive. *)

From S2P Require Import Prelude Array Frame Fq Lb Duplex Xpub Router.

(** The result of the sends: 0, or -1 with the errno. *)
Inductive xsend_rc := SrOk | SrAgain | SrInval | SrHostUnreach.

Definition sr_lb (r : send_result) : xsend_rc := match r with SendOk _ => SrOk | SendAgain | SendAborted => SrAgain end.

(** The message without the pipe it came from. *)
Definition frame_of (r : option (Z * frame)) : option frame := option_map snd r.

Section sockets.
Context {W : Type} {IP : InPipes W} {OP : OutPipes W} {DX : Duplex W} {DL : DuplexLaws W} {PP : PubPipes W} {RP : RouterPipes W}.
Implicit Types (w : W) (q : fq) (p pipe : Z) (msg f : frame).

(** ** PAIR *)

Record pair := Pair { pr_pipe : option Z; pr_last_in : option Z }.

Definition pair_new : pair := Pair None None.

Definition pair_destroy (s : pair) : option unit := zmq_assert (bool_decide (pr_pipe s = None)) ;; Some tt.

Definition pair_xattach_pipe w (s : pair) pipe : W * pair :=
  match pr_pipe s with
  | None => (w, Pair (Some pipe) (pr_last_in s))
  | Some _ => (rp_terminate w pipe false, s)
  end.

Definition pair_xpipe_terminated (s : pair) pipe : pair :=
  if bool_decide (pr_pipe s = Some pipe) then
    Pair None (if bool_decide (pr_last_in s = Some pipe) then None else pr_last_in s)
  else s.

Definition pair_xsend w (s : pair) msg : option (W * xsend_rc) :=
  match pr_pipe s with
  | None => Some (w, SrAgain)
  | Some pipe =>
      let* (w, ok) := op_write w pipe msg in
      if negb ok then Some (w, SrAgain)
      else if negb (fr_more msg) then let* w := op_flush w pipe in Some (w, SrOk)
      else Some (w, SrOk)
  end.

(** [None] is EAGAIN. *)
Definition pair_xrecv w (s : pair) : option (W * pair * option frame) :=
  match pr_pipe s with
  | None => Some (w, s, None)
  | Some pipe =>
      let* (w, r) := ip_read w pipe in
      match r with
      | None => Some (w, s, None)
      | Some msg => Some (w, Pair (pr_pipe s) (Some pipe), Some msg)
      end
  end.

Definition pair_xhas_in w (s : pair) : option (W * bool) :=
  match pr_pipe s with None => Some (w, false) | Some pipe => ip_check_read w pipe end.

Definition pair_xhas_out w (s : pair) : option (W * bool) :=
  match pr_pipe s with None => Some (w, false) | Some pipe => op_check_write w pipe end.

(** ** PUSH and SCATTER *)

(** Don't delay pipe termination as there is no one to receive the delimiter. *)
Definition push_xattach_pipe w (l : lb) pipe : option (W * lb) :=
  let w := pp_set_nodelay w pipe in
  let* l := lb_attach l pipe in Some (w, l).

Definition push_xwrite_activated (l : lb) pipe : option lb := lb_activated l pipe.
Definition push_xpipe_terminated (l : lb) pipe : option lb := lb_pipe_terminated l pipe.

Definition push_xsend w (l : lb) msg : option (W * lb * xsend_rc) :=
  let* (w, l, r) := lb_sendpipe w l msg in Some (w, l, sr_lb r).

Definition push_xhas_out w (l : lb) : option (W * lb * bool) := lb_has_out w l.

Definition scatter_xattach_pipe w (l : lb) pipe : option (W * lb) :=
  let w := pp_set_nodelay w pipe in
  let* l := lb_attach l pipe in Some (w, l).

Definition scatter_xwrite_activated (l : lb) pipe : option lb := lb_activated l pipe.
Definition scatter_xpipe_terminated (l : lb) pipe : option lb := lb_pipe_terminated l pipe.

Definition scatter_xsend w (l : lb) msg : option (W * lb * xsend_rc) :=
  if fr_more msg then Some (w, l, SrInval)
  else let* (w, l, r) := lb_sendpipe w l msg in Some (w, l, sr_lb r).

Definition scatter_xhas_out w (l : lb) : option (W * lb * bool) := lb_has_out w l.

(** ** PULL and GATHER *)

Definition pull_xattach_pipe (q : fq) pipe : option fq := fq_attach q pipe.
Definition pull_xread_activated (q : fq) pipe : option fq := fq_activated q pipe.
Definition pull_xpipe_terminated (q : fq) pipe : option fq := fq_pipe_terminated q pipe.

Definition pull_xrecv w q : option (W * fq * option frame) :=
  let* (w, q, r) := fq_recvpipe w q in Some (w, q, frame_of r).

Definition pull_xhas_in w q : option (W * fq * bool) := fq_has_in w q.

(** The inner loop of the receive of single parts:
    [while (rc == 0 && msg_->flags () & msg_t::more) rc = _fq.recvpipe (msg_, NULL);] *)
Fixpoint skip_parts (fuel : nat) w q (r : option (Z * frame)) : option (W * fq * option (Z * frame)) :=
  match r with
  | Some (_, msg) =>
      if fr_more msg then
        match fuel with
        | O => None
        | S fuel' => let* (w, q, r) := fq_recvpipe w q in skip_parts fuel' w q r
        end
      else Some (w, q, r)
  | None => Some (w, q, r)
  end.

(** The outer loop: drop any messages with the more flag. *)
Fixpoint drop_multipart (fuel : nat) w q (r : option (Z * frame)) : option (W * fq * option (Z * frame)) :=
  match r with
  | Some (_, msg) =>
      if fr_more msg then
        match fuel with
        | O => None
        | S fuel' =>
            let* (w, q, r) := fq_recvpipe w q in
            let* (w, q, r) := skip_parts (fq_frames w q) w q r in
            let* (w, q, r) := match r with Some _ => fq_recvpipe w q | None => Some (w, q, None) end in
            drop_multipart fuel' w q r
        end
      else Some (w, q, r)
  | None => Some (w, q, r)
  end.

Definition recv_single w q : option (W * fq * option (Z * frame)) :=
  let* (w, q, r) := fq_recvpipe w q in drop_multipart (fq_frames w q) w q r.

Definition gather_xattach_pipe (q : fq) pipe : option fq := fq_attach q pipe.
Definition gather_xread_activated (q : fq) pipe : option fq := fq_activated q pipe.
Definition gather_xpipe_terminated (q : fq) pipe : option fq := fq_pipe_terminated q pipe.

Definition gather_xrecv w q : option (W * fq * option frame) :=
  let* (w, q, r) := recv_single w q in Some (w, q, frame_of r).

Definition gather_xhas_in w q : option (W * fq * bool) := fq_has_in w q.

(** ** CLIENT *)

Record client := Client { cl_fq : fq; cl_lb : lb }.

Definition client_new : client := Client fq_new lb_new.

Definition client_xattach_pipe (c : client) pipe : option client :=
  let* q := fq_attach (cl_fq c) pipe in
  let* l := lb_attach (cl_lb c) pipe in
  Some (Client q l).

Definition client_xsend w (c : client) msg : option (W * client * xsend_rc) :=
  if fr_more msg then Some (w, c, SrInval)
  else let* (w, l, r) := lb_sendpipe w (cl_lb c) msg in Some (w, Client (cl_fq c) l, sr_lb r).

Definition client_xrecv w (c : client) : option (W * client * option frame) :=
  let* (w, q, r) := recv_single w (cl_fq c) in Some (w, Client q (cl_lb c), frame_of r).

Definition client_xhas_in w (c : client) : option (W * client * bool) :=
  let* (w, q, b) := fq_has_in w (cl_fq c) in Some (w, Client q (cl_lb c), b).

Definition client_xhas_out w (c : client) : option (W * client * bool) :=
  let* (w, l, b) := lb_has_out w (cl_lb c) in Some (w, Client (cl_fq c) l, b).

Definition client_xread_activated (c : client) pipe : option client :=
  let* q := fq_activated (cl_fq c) pipe in Some (Client q (cl_lb c)).

Definition client_xwrite_activated (c : client) pipe : option client :=
  let* l := lb_activated (cl_lb c) pipe in Some (Client (cl_fq c) l).

Definition client_xpipe_terminated (c : client) pipe : option client :=
  let* q := fq_pipe_terminated (cl_fq c) pipe in
  let* l := lb_pipe_terminated (cl_lb c) pipe in
  Some (Client q l).

(** ** Receiving single parts *)

(** A message of several parts. *)
Definition multipart (m : list frame) : Prop := is_message m = true /\ (1 < length m)%nat.

(** What a receive of a single part does between two messages. *)
Definition next_single w q w' q' (r : option (Z * frame)) : Prop :=
  fq_between w' q' /\ (forall x, x ∈ a_items (fq_pipes q') <-> x ∈ a_items (fq_pipes q)) /\
  match r with
  | None => drops multipart w w' /\ forall p, fq_is_active q p -> ip_queue w' p = []
  | Some (p, f) => p ∈ a_items (fq_pipes q) /\ fr_more f = false /\ exists w1, drops multipart w w1 /\ ip_queue w1 p = f :: ip_queue w' p /\
      forall p', p' <> p -> ip_queue w' p' = ip_queue w1 p'
  end.

(** The rest of a message is read to its last part. *)
Lemma skip_parts_spec fuel p : forall w q f (msg : list frame), is_message (f :: msg) = true -> fq_at w q p msg -> (length msg <= fuel)%nat ->
  exists w' q' g, skip_parts fuel w q (Some (p, f)) = Some (w', q', Some (p, g)) /\ fq_between w' q' /\ ip_queue w p = msg ++ ip_queue w' p /\
    (forall p', p' <> p -> ip_queue w' p' = ip_queue w p') /\ fq_frames w q = (length msg + fq_frames w' q')%nat /\
    (forall p', fq_is_active q p' <-> fq_is_active q' p') /\ (forall p', p' ∈ a_items (fq_pipes q') <-> p' ∈ a_items (fq_pipes q)).
Proof.
  induction fuel as [|fuel IH]; intros w q f msg Hmsg Hat Hlen; cbn [skip_parts].
  - destruct msg; [|simpl in Hlen; lia]. cbn [is_message] in Hmsg. apply negb_true_iff in Hmsg. rewrite Hmsg. by exists w, q, f.
  - destruct msg as [|g msg]; cbn [is_message] in Hmsg.
    + apply negb_true_iff in Hmsg. rewrite Hmsg. by exists w, q, f.
    + apply andb_true_iff in Hmsg as [Hf Hmsg]. rewrite Hf. cbn [fq_at] in Hat.
      destruct (fq_recv_mid w q p g msg Hat) as (w1 & q1 & -> & Hit & Hat1 & Hq1 & _ & Ho1 & Hn1 & Ha1). cbn [mbind option_bind].
      destruct (IH w1 q1 g msg Hmsg Hat1) as (w' & q' & h & -> & Hb & Hq' & Ho' & Hn' & Ha' & Hm'); [simpl in Hlen; lia|].
      exists w', q', h. split_and!; try done.
      * by rewrite Hq1, Hq'.
      * intros p' Hne. by rewrite Ho', Ho1.
      * simpl. lia.
      * intros p'. by rewrite Ha1, Ha'.
      * intros p'. by rewrite Hm', Hit.
Qed.

Lemma next_single_empty w q w' q' r p : next_single w q w' q' r -> ip_queue w p = [] -> ip_queue w' p = [].
Proof.
  intros (_ & _ & Hr) E. destruct r as [[p1 f]|]; [|destruct Hr as [Hd _]; by apply (drops_empty _ _ _ p Hd)].
  destruct Hr as (_ & _ & w1 & Hd & Hq & Ho). pose proof (drops_empty _ _ _ p Hd E) as E1.
  destruct (decide (p = p1)) as [->|Hne]; [by rewrite Hq in E1|by rewrite Ho].
Qed.

Lemma next_single_step w q w1 q1 w' q' r p f (msg : list frame) : multipart (f :: msg) -> ip_queue w p = (f :: msg) ++ ip_queue w1 p ->
  (forall p', p' <> p -> ip_queue w1 p' = ip_queue w p') -> (forall x, x ∈ a_items (fq_pipes q1) <-> x ∈ a_items (fq_pipes q)) ->
  (forall p', fq_is_active q p' -> fq_is_active q1 p' \/ ip_queue w1 p' = []) ->
  next_single w1 q1 w' q' r -> next_single w q w' q' r.
Proof.
  intros Hu Hq Ho Hm Ha Hn. pose proof (fun p' => next_single_empty _ _ _ _ _ p' Hn) as He. destruct Hn as (Hb & Hm' & Hr).
  split; [done|]. split; [intros x; by rewrite Hm'|]. destruct r as [[p1 g]|].
  - destruct Hr as (Hin & Hg & w2 & Hd & H). split; [by apply Hm|]. split; [done|]. exists w2. split; [|exact H]. by apply (drops_cons multipart w w1 w2 p f msg).
  - destruct Hr as (Hd & Hall). split; [by apply (drops_cons multipart w w1 w' p f msg)|]. intros p' Hp'. destruct (Ha p' Hp'); auto.
Qed.

Lemma drop_multipart_spec fuel : forall w q w1 q1 r, fq_between w q -> fq_recvpipe w q = Some (w1, q1, r) -> r = None \/ (fq_frames w1 q1 <= fuel)%nat ->
  exists w' q' r', drop_multipart fuel w1 q1 r = Some (w', q', r') /\ next_single w q w' q' r'.
Proof.
  induction fuel as [|fuel IH]; intros w q w1 q1 r Hb E Hlen;
    destruct (fq_recv_start w q Hb) as (w1' & q1' & r' & E' & Hmem & Hr); rewrite E in E'; injection E' as <- <- <-.
  all: destruct r as [[p f]|]; cbn [drop_multipart]; [destruct Hlen as [?|Hlen]; [done|]|destruct Hr as (Hall & Hsame & Hb1 & _);
    exists w1, q1, None; (split; [done|]); split_and!; try done; [by apply drops_refl|intros p Hp; rewrite Hsame; auto]].
  all: destruct Hr as (Hact & msg & rest & Hmsg & Hrest & Hq & Hq1 & Ho & Hat & Hn & Hsh1 & Hsh2); assert (p ∈ a_items (fq_pipes q)) as Hin by (by eapply in_part_mem).
  all: destruct msg as [|g msg]; cbn [is_message] in Hmsg;
    [apply negb_true_iff in Hmsg; rewrite Hmsg; exists w1, q1, (Some (p, f)); (split; [done|]);
     split_and!; try done; exists w; split_and!; [by apply drops_refl|by rewrite Hq1|done]|].
  - pose proof (fq_at_length _ _ _ _ Hat) as Hl. simpl in Hl. lia.
  - apply andb_true_iff in Hmsg as [Hf Hmsg]. rewrite Hf. cbn [fq_at] in Hat.
    destruct (fq_recv_mid w1 q1 p g msg Hat) as (w2 & q2 & -> & Hit & Hat2 & Hq2 & _ & Ho2 & Hn2 & Ha2). cbn [mbind option_bind].
    destruct (skip_parts_spec (fq_frames w2 q2) p w2 q2 g msg Hmsg Hat2) as (w3 & q3 & h & -> & Hb3 & Hq3 & Ho3 & Hn3 & Ha3 & Hm3); [by apply (fq_at_length _ _ p)|].
    cbn [mbind option_bind]. destruct (fq_recv_start w3 q3 Hb3) as (w4 & q4 & r4 & E4 & _ & Hr4). rewrite E4. cbn [mbind option_bind].
    destruct (IH w3 q3 w4 q4 r4 Hb3 E4) as (w' & q' & r' & -> & Hs).
    { destruct r4 as [[p4 f4]|]; [right|by left]. destruct Hr4 as (_ & m4 & rest4 & _ & _ & _ & _ & _ & _ & Hn4 & _). lia. }
    exists w', q', r'. split; [done|]. apply (next_single_step w q w3 q3 w' q' r' p f (g :: msg)); try done.
    + split; [|simpl; lia]. cbn [is_message]. by rewrite Hf.
    + rewrite Hq. cbn [app]. do 2 f_equal. rewrite <- Hq3. rewrite Hq1 in Hq2. by injection Hq2.
    + intros p' Hne. by rewrite Ho3, Ho2, Ho.
    + intros x. by rewrite Hm3, Hit, Hmem.
    + intros p' Hp'. rewrite <- Ha3, <- Ha2. destruct (decide (ip_queue w p' = [])) as [He|He]; [right|left; by apply Hsh2].
      rewrite Ho3, Ho2, Ho; [done|intros ->; by rewrite Hq in He..].
Qed.

Lemma recv_single_spec w q : fq_between w q -> exists w' q' r, recv_single w q = Some (w', q', r) /\ next_single w q w' q' r.
Proof.
  intros Hb. unfold recv_single. destruct (fq_recv_start w q Hb) as (w1 & q1 & r & E & _). rewrite E. cbn [mbind option_bind].
  apply (drop_multipart_spec _ w q w1 q1 r Hb E). by right.
Qed.

End sockets.

(** ** What the sockets guarantee *)

(** a CLIENT socket receives only messages of a single part: between
    two receives whole messages of several parts are dropped and nothing
    else; when it reports that there is nothing, no pipe it was told to
    read has a frame left. *)
Theorem client_receives {W} {IP : InPipes W} {OP : OutPipes W} {DX : Duplex W} {DL : DuplexLaws W} (w : W) (c : client) :
  fq_between w (cl_fq c) ->
  exists w' c' r, client_xrecv w c = Some (w', c', r) /\ fq_between w' (cl_fq c') /\ cl_lb c' = cl_lb c /\
    match r with
    | None => drops multipart w w' /\ forall p, fq_is_active (cl_fq c) p -> ip_queue w' p = []
    | Some f => fr_more f = false /\ exists p w1, p ∈ a_items (fq_pipes (cl_fq c)) /\ drops multipart w w1 /\
        ip_queue w1 p = f :: ip_queue w' p /\ forall p', p' <> p -> ip_queue w' p' = ip_queue w1 p'
    end.
Proof.
  intros Hb. destruct (recv_single_spec w (cl_fq c) Hb) as (w' & q' & r & E & Hb' & _ & Hr). unfold client_xrecv. rewrite E. cbn [mbind option_bind].
  eexists w', _, _. split; [done|]. split_and!; try done. destruct r as [[p f]|]; cbn [frame_of option_map snd]; [|done].
  destruct Hr as (Hin & Hf & w1 & H). split; [done|]. by exists p, w1.
Qed.

(** A CLIENT connected to pipes 1 and 2; a message of two parts waits in the first. *)
Definition client_example_pipes : dpipes := DPipes (list_to_map [(1, [part 1; single 2]); (2, [single 3])]) (list_to_map [(1, (1%nat, [], [])); (2, (1%nat, [], []))]) ∅.

Definition client_example : client :=
  match client_xattach_pipe client_new 1 with
  | Some c => default client_new (client_xattach_pipe c 2)
  | None => client_new
  end.

Lemma client_example_between : fq_between client_example_pipes (cl_fq client_example).
Proof.
  destruct (fq_attach_spec fq_new 1 fq_new_inv) as (q1 & E1 & H1 & _ & M1); [simpl; set_solver|].
  destruct (fq_attach_spec q1 2 H1) as (q2 & E2 & H2 & _ & _); [intros Hin; apply M1 in Hin as [Hin|Hin]; [simpl in Hin; set_solver|lia]|].
  assert (cl_fq client_example = q2) as -> by (injection E1 as <-; injection E2 as <-; reflexivity).
  split; [done|]. split; [by injection E1 as <-; injection E2 as <-|]. intros p _. destruct (decide (p = 1)) as [->|Hp1].
  - exists [[part 1; single 2]]. split; [reflexivity|by repeat constructor].
  - destruct (decide (p = 2)) as [->|Hp2]; [exists [[single 3]]; split; [reflexivity|by repeat constructor]|].
    exists []. split; [|constructor]. cbn. by rewrite !lookup_insert_ne.
Qed.

Lemma client_receives_witness : exists w' c', client_xrecv client_example_pipes client_example = Some (w', c', Some (single 3)) /\ cl_lb c' = cl_lb client_example.
Proof.
  destruct (client_receives client_example_pipes client_example client_example_between) as (w' & c' & r & E & _ & Hl & _).
  exists w', c'. split; [|exact Hl]. rewrite E. vm_compute in E. injection E as _ _ <-. reflexivity.
Defined.

(** [xhas_in] asks the fair queue and not whether a message of a single
    part is there: it says that a message can be received, and [xrecv]
    then finds none. *)
Theorem client_has_in_nothing :
  (let* c := client_xattach_pipe client_new 1 in
   let* (w, c, b) := client_xhas_in (DPipes (list_to_map [(1, [part 1; single 2])]) ∅ ∅) c in
   let* (_, _, r) := client_xrecv w c in Some (b, r)) = Some (true, None).
Proof. vm_compute. reflexivity. Qed.

(** A PAIR socket has one peer: while it has one every further pipe is told to terminate, and the peer stays. *)
Lemma pair_single_peer {W} {RP : RouterPipes W} (w : W) (s : pair) p pipe : pr_pipe s = Some p -> pair_xattach_pipe w s pipe = (rp_terminate w pipe false, s).
Proof. intros E. unfold pair_xattach_pipe. by rewrite E. Qed.
