(* ===== verification/Server.v ===== *)
(** * The SERVER socket, [server_t] (src/src/server.cpp)

    Every pipe has a routing id, a 32-bit number that is never zero; a
    message that is received carries the routing id of its pipe, a
    message that is sent goes to the pipe with its routing id.  Messages
    have a single part. *)

From S2P Require Import Prelude Array Frame Fq Lb Duplex Xpub Router Sockets.

Record server := Server {
  sv_fq : fq;
  sv_out : gmap Z (Z * bool);   (** [_out_pipes]: the pipe and whether it is active *)
  sv_ids : gmap Z Z;            (** the routing ids the pipes hold *)
  sv_next : Z;                  (** [_next_routing_id] *)
}.

Definition server_new (random : Z) : server := Server fq_new ∅ ∅ (u32 random).

Definition server_destroy (s : server) : option unit := zmq_assert (bool_decide (sv_out s = ∅)) ;; Some tt.

(** [get_server_socket_routing_id]: zero when none was set. *)
Definition sv_pipe_id (s : server) (pipe : Z) : Z := default 0 (sv_ids s !! pipe).

(** [_next_routing_id++]: the value and the incremented counter; zero is never used. *)
Definition sv_take_id (next : Z) : Z * Z :=
  if next =? 0 then (u32 (next + 1), u32 (u32 (next + 1) + 1)) else (next, u32 (next + 1)).

Definition server_xattach_pipe (s : server) (pipe : Z) : option server :=
  let '(routing_id, next) := sv_take_id (sv_next s) in
  zmq_assert (bool_decide (sv_out s !! routing_id = None)) ;;
  let* q := fq_attach (sv_fq s) pipe in
  Some (Server q (<[routing_id := (pipe, true)]> (sv_out s)) (<[pipe := routing_id]> (sv_ids s)) next).

Definition server_xpipe_terminated (s : server) (pipe : Z) : option server :=
  let id := sv_pipe_id s pipe in
  zmq_assert (bool_decide (is_Some (sv_out s !! id))) ;;
  let* q := fq_pipe_terminated (sv_fq s) pipe in
  Some (Server q (delete id (sv_out s)) (sv_ids s) (sv_next s)).

Definition server_xread_activated (s : server) (pipe : Z) : option server :=
  let* q := fq_activated (sv_fq s) pipe in Some (Server q (sv_out s) (sv_ids s) (sv_next s)).

(** The entry of the pipe is searched by its value. *)
Definition server_xwrite_activated (s : server) (pipe : Z) : option server :=
  let* e := head (filter (fun e => e.2.1 = pipe) (map_to_list (sv_out s))) in
  zmq_assert (negb e.2.2) ;;
  Some (Server (sv_fq s) (<[e.1 := (pipe, true)]> (sv_out s)) (sv_ids s) (sv_next s)).

(** [set_routing_id] and [reset_routing_id] of a message. *)
Definition set_routing_id (f : frame) (id : Z) : frame :=
  if id =? 0 then f else MkFrame (fr_type f) (fr_flags f) (fr_body f) (fr_group f) id.
Definition reset_routing_id (f : frame) : frame := MkFrame (fr_type f) (fr_flags f) (fr_body f) (fr_group f) 0.

Section server.
Context {W : Type} {IP : InPipes W} {OP : OutPipes W} {DX : Duplex W} {DL : DuplexLaws W}.
Implicit Types (w : W) (s : server) (p pipe : Z) (msg f : frame).

Definition server_xsend w s msg : option (W * server * xsend_rc) :=
  if fr_more msg then Some (w, s, SrInval)
  else
    let id := fr_routing_id msg in
    match sv_out s !! id with
    | None => Some (w, s, SrHostUnreach)
    | Some (pipe, _) =>
        let* (w, ok) := op_check_write w pipe in
        if negb ok then Some (w, Server (sv_fq s) (<[id := (pipe, false)]> (sv_out s)) (sv_ids s) (sv_next s), SrAgain)
        else
          let* (w, ok) := op_write w pipe (reset_routing_id msg) in
          if negb ok then Some (w, s, SrOk)
          else let* w := op_flush w pipe in Some (w, s, SrOk)
    end.

Definition server_xrecv w s : option (W * server * option frame) :=
  let* (w, q, r) := recv_single w (sv_fq s) in
  let s := Server q (sv_out s) (sv_ids s) (sv_next s) in
  match r with
  | None => Some (w, s, None)
  | Some (pipe, msg) => Some (w, s, Some (set_routing_id msg (sv_pipe_id s pipe)))
  end.

Definition server_xhas_in w s : option (W * server * bool) :=
  let* (w, q, b) := fq_has_in w (sv_fq s) in Some (w, Server q (sv_out s) (sv_ids s) (sv_next s), b).

(** In theory, a SERVER socket is always ready for writing. *)
Definition server_xhas_out s : bool := true.

(** ** The table of peers *)

Definition id_ok (id : Z) : Prop := 0 < id < 2 ^ 32.

Record server_inv (s : server) : Prop := {
  si_fq : fq_inv (sv_fq s);
  si_id id p a : sv_out s !! id = Some (p, a) -> sv_ids s !! p = Some id /\ id_ok id;
  si_mem p : p ∈ a_items (fq_pipes (sv_fq s)) <-> exists id a, sv_out s !! id = Some (p, a);
  si_next : 0 <= sv_next s < 2 ^ 32;
}.

Lemma sv_take_id_ok next : 0 <= next < 2 ^ 32 -> id_ok (sv_take_id next).1 /\ 0 <= (sv_take_id next).2 < 2 ^ 32.
Proof.
  intros Hn. unfold sv_take_id, id_ok. destruct (next =? 0) eqn:E; [apply Z.eqb_eq in E; subst; vm_compute; intuition congruence|].
  apply Z.eqb_neq in E. cbn [fst snd]. unfold u32. split; [lia|]. apply Z.mod_pos_bound. lia.
Qed.

Lemma server_new_inv random : server_inv (server_new random).
Proof.
  constructor; cbn.
  - apply fq_new_inv.
  - intros id p a. by rewrite lookup_empty.
  - intros p. split; [by intros ?%not_elem_of_nil|]. intros (id & a & H). by rewrite lookup_empty in H.
  - apply Z.mod_pos_bound. lia.
Qed.

(** A peer is added under a routing id that is not in use. *)
Lemma server_attach_ok s p : server_inv s -> p ∉ a_items (fq_pipes (sv_fq s)) -> sv_out s !! (sv_take_id (sv_next s)).1 = None ->
  exists s', server_xattach_pipe s p = Some s' /\ server_inv s' /\ sv_out s' = <[(sv_take_id (sv_next s)).1 := (p, true)]> (sv_out s) /\
    sv_next s' = (sv_take_id (sv_next s)).2 /\ (forall x, x ∈ a_items (fq_pipes (sv_fq s')) <-> x ∈ a_items (fq_pipes (sv_fq s)) \/ x = p).
Proof.
  intros [Hq Hid Hmem Hn] Hp Hfree. unfold server_xattach_pipe. pose proof (sv_take_id_ok _ Hn) as [Hok Hok'].
  destruct (sv_take_id (sv_next s)) as [id next]. cbn [fst snd] in *. rewrite bool_decide_eq_true_2 by done.
  destruct (fq_attach_spec (sv_fq s) p Hq Hp) as (q & -> & Hq' & _ & Hm). cbn [mbind option_bind]. eexists. split; [done|].
  split; [|split_and!; done]. constructor; cbn [sv_fq sv_out sv_ids sv_next]; try done.
  - intros id' p' a. rewrite lookup_insert. case_decide as E; [subst; intros [= <- <-]; by rewrite lookup_insert_eq|].
    intros Hl. rewrite lookup_insert_ne; [by apply (Hid _ _ a)|]. intros <-. apply Hp, Hmem. eauto.
  - intros p'. rewrite Hm, Hmem. split.
    + intros [(id' & a & Hl)| ->]; [|exists id, true; by rewrite lookup_insert_eq]. exists id', a. rewrite lookup_insert_ne; [done|congruence].
    + intros (id' & a & Hl). rewrite lookup_insert in Hl. case_decide; [right; congruence|left; eauto].
Qed.

Lemma server_peer s p : server_inv s -> p ∈ a_items (fq_pipes (sv_fq s)) ->
  exists id a, sv_ids s !! p = Some id /\ sv_out s !! id = Some (p, a) /\ id_ok id /\ sv_pipe_id s p = id.
Proof.
  intros Hs Hp. apply (si_mem _ Hs) in Hp as (id & a & Hl). destruct (si_id _ Hs _ _ _ Hl) as [Hi Hr].
  exists id, a. split_and!; try done. unfold sv_pipe_id. by rewrite Hi.
Qed.

(** Only the peer that left is removed. *)
Lemma server_terminated_ok s p : server_inv s -> p ∈ a_items (fq_pipes (sv_fq s)) ->
  exists s', server_xpipe_terminated s p = Some s' /\ server_inv s' /\ sv_out s' = delete (sv_pipe_id s p) (sv_out s) /\ sv_next s' = sv_next s /\
    (forall x, x ∈ a_items (fq_pipes (sv_fq s')) <-> x ∈ a_items (fq_pipes (sv_fq s)) /\ x <> p).
Proof.
  intros Hs Hp. destruct (server_peer s p Hs Hp) as (id & a & Hi & Hl & _ & E). destruct Hs as [Hq Hid Hmem Hn].
  unfold server_xpipe_terminated. rewrite E, Hl, bool_decide_eq_true_2 by (by eexists).
  destruct (fq_pipe_terminated_spec (sv_fq s) p Hq Hp) as (q & -> & Hq' & _ & Hm & _). cbn [mbind option_bind]. eexists. split; [done|].
  split; [|split_and!; done]. constructor; cbn [sv_fq sv_out sv_ids sv_next]; try done.
  - intros id' p' a'. rewrite lookup_delete. case_decide; [done|]. apply Hid.
  - intros p'. rewrite Hm, Hmem. split.
    + intros [(id' & a' & Hl') Hne]. exists id', a'. rewrite lookup_delete_ne; [done|]. intros <-. congruence.
    + intros (id' & a' & Hl'). rewrite lookup_delete in Hl'. case_decide as Hd; [done|]. split; [eauto|]. intros ->.
      apply Hid in Hl' as [Hl' _]. congruence.
Qed.

(** The entry of a pipe changes its mark only. *)
Lemma server_mark_ok s id p a b : server_inv s -> sv_out s !! id = Some (p, a) ->
  server_inv (Server (sv_fq s) (<[id := (p, b)]> (sv_out s)) (sv_ids s) (sv_next s)).
Proof.
  intros [Hq Hid Hmem Hn] Hl. constructor; cbn [sv_fq sv_out sv_ids sv_next]; try done.
  - intros id' p' a'. rewrite lookup_insert. case_decide; [subst; intros [= <- <-]; by apply (Hid _ _ a)|apply Hid].
  - intros p'. rewrite Hmem. split; intros (id' & a' & Hl').
    + destruct (decide (id' = id)) as [->|Hne]; [exists id, b; rewrite lookup_insert_eq; congruence|exists id', a'; by rewrite lookup_insert_ne].
    + rewrite lookup_insert in Hl'. case_decide; [exists id, a; congruence|eauto].
Qed.

Lemma server_set_fq_ok s q : server_inv s -> fq_inv q -> (forall x, x ∈ a_items (fq_pipes q) <-> x ∈ a_items (fq_pipes (sv_fq s))) ->
  server_inv (Server q (sv_out s) (sv_ids s) (sv_next s)).
Proof. intros [Hq Hid Hmem Hn] Hq' Hm. constructor; cbn [sv_fq sv_out sv_ids sv_next]; try done. intros p. by rewrite Hm. Qed.

(** The search finds the entry of the pipe, as there is one only. *)
Lemma server_find s p id a : server_inv s -> sv_out s !! id = Some (p, a) ->
  head (filter (fun e => e.2.1 = p) (map_to_list (sv_out s))) = Some (id, (p, a)).
Proof.
  intros Hs Hl. destruct (filter (fun e => e.2.1 = p) (map_to_list (sv_out s))) as [|[id' [p' a']] l] eqn:E.
  - assert ((id, (p, a)) ∈ filter (fun e => e.2.1 = p) (map_to_list (sv_out s))) as Hin by (apply list_elem_of_filter; split; [done|by apply elem_of_map_to_list]).
    rewrite E in Hin. by apply not_elem_of_nil in Hin.
  - assert ((id', (p', a')) ∈ filter (fun e => e.2.1 = p) (map_to_list (sv_out s))) as Hin by (rewrite E; left).
    apply list_elem_of_filter in Hin as [Hp Hin]. cbn in Hp. subst p'. apply elem_of_map_to_list in Hin.
    assert (id' = id) as -> by (destruct (si_id _ Hs _ _ _ Hin), (si_id _ Hs _ _ _ Hl); congruence). cbn. congruence.
Qed.

Lemma server_write_activated_ok s p id : server_inv s -> sv_out s !! id = Some (p, false) ->
  exists s', server_xwrite_activated s p = Some s' /\ server_inv s' /\ sv_out s' !! id = Some (p, true).
Proof.
  intros Hs Hl. unfold server_xwrite_activated. rewrite (server_find s p id false Hs Hl). cbn [mbind option_bind fst snd negb].
  eexists. split; [done|]. split; [by apply (server_mark_ok s id p false)|]. apply lookup_insert_eq.
Qed.

(** What a send to the peer with a routing id does. *)
Lemma server_send_spec w s f id p a : server_inv s -> sv_out s !! id = Some (p, a) -> fr_more f = false -> fr_routing_id f = id ->
  exists w' s', server_xsend w s f = Some (w', s', if op_room w p then SrOk else SrAgain) /\ server_inv s' /\ in_same w w' /\
    sv_fq s' = sv_fq s /\ (op_room w p = false -> sv_out s' !! id = Some (p, false)) /\
    op_sent w' p = op_sent w p ++ (if op_room w p then op_pending w p ++ [reset_routing_id f] else []) /\
    forall p', p' <> p -> op_sent w' p' = op_sent w p'.
Proof.
  intros Hs Hl Hf Hr. unfold server_xsend. rewrite Hf, Hr, Hl.
  destruct (op_check_write_ok w p) as (w1 & E1 & Hc). rewrite E1. cbn [mbind option_bind].
  pose proof (dx_check_write _ _ _ _ E1) as Hi1. destruct (Hc p) as (Hp1 & Hs1 & Hr1).
  destruct (op_room w p) eqn:Er; cbn [negb].
  - destruct (op_write_ok w1 p (reset_routing_id f)) as (w2 & E2 & Hpend & Hsent & _). rewrite E2, Hr1. cbn [mbind option_bind negb].
    destruct (op_flush_ok w2 p) as (w3 & E3 & Hsent3 & _ & _). rewrite E3. cbn [mbind option_bind]. eexists w3, s. split; [done|]. split_and!; try done.
    + apply (in_same_trans _ w1); [exact Hi1|]. apply (in_same_trans _ w2); [exact (dx_write _ _ _ _ _ E2)|exact (dx_flush _ _ _ E3)].
    + rewrite Hsent3, decide_True by done. rewrite Hsent, Hpend, decide_True, Hr1 by done. by rewrite Hp1, Hs1.
    + intros p' Hne. rewrite Hsent3, decide_False, Hsent by done. apply Hc.
  - eexists w1, _. split; [done|]. split_and!; try done.
    + by apply (server_mark_ok s id p a).
    + intros _. apply lookup_insert_eq.
    + by rewrite app_nil_r.
    + intros p' _. apply Hc.
Qed.

(** The table is kept by every send. *)
Lemma server_send_inv w s f w' s' r : server_inv s -> server_xsend w s f = Some (w', s', r) -> server_inv s'.
Proof.
  intros Hs. unfold server_xsend. destruct (fr_more f); [by intros [= <- <- <-]|].
  destruct (sv_out s !! fr_routing_id f) as [[p a]|] eqn:El; [|by intros [= <- <- <-]].
  destruct (op_check_write w p) as [[w1 b]|]; [|done]. cbn [mbind option_bind].
  destruct b; cbn [negb]; [|by intros [= <- <- <-]; apply (server_mark_ok s _ p a)].
  destruct (op_write w1 p _) as [[w2 b]|]; [|done]. cbn [mbind option_bind]. destruct b; cbn [negb]; [|by intros [= <- <- <-]].
  destruct (op_flush w2 p); [|done]. cbn [mbind option_bind]. by intros [= <- <- <-].
Qed.

Lemma server_recv_spec w s : server_inv s -> fq_between w (sv_fq s) ->
  exists w' s' r, server_xrecv w s = Some (w', s', r) /\ server_inv s' /\ fq_between w' (sv_fq s') /\ sv_out s' = sv_out s /\ sv_ids s' = sv_ids s /\
    match r with
    | None => drops multipart w w' /\ forall p, fq_is_active (sv_fq s) p -> ip_queue w' p = []
    | Some f => exists p id a g w1, sv_out s !! id = Some (p, a) /\ id_ok id /\ f = set_routing_id g id /\ fr_more g = false /\ drops multipart w w1 /\
        ip_queue w1 p = g :: ip_queue w' p /\ forall p', p' <> p -> ip_queue w' p' = ip_queue w1 p'
    end.
Proof.
  intros Hs Hb. unfold server_xrecv. destruct (recv_single_spec w (sv_fq s) Hb) as (w' & q' & r & -> & Hb' & Hm & Hr). cbn [mbind option_bind].
  pose proof (server_set_fq_ok s q' Hs (proj1 Hb') Hm) as Hs'. destruct r as [[p g]|].
  - destruct Hr as (Hin & Hg & w1 & Hd & Hq & Ho). destruct (server_peer s p Hs Hin) as (id & a & Hi & Hl & Hok & Ep).
    eexists w', _, _. split; [done|]. cbn [sv_fq sv_out sv_ids]. split_and!; try done. exists p, id, a, g, w1. split_and!; try done; try apply Hok.
    unfold sv_pipe_id in *. cbn [sv_ids]. by rewrite Ep.
  - eexists w', _, _. split; [done|]. done.
Qed.

(** ** The states of a SERVER socket *)

Inductive server_reach : server -> Prop :=
| sr_new random : server_reach (server_new random)
| sr_attach s p s' : server_reach s -> p ∉ a_items (fq_pipes (sv_fq s)) -> server_xattach_pipe s p = Some s' -> server_reach s'
| sr_terminated s p s' : server_reach s -> p ∈ a_items (fq_pipes (sv_fq s)) -> server_xpipe_terminated s p = Some s' -> server_reach s'
| sr_read_activated s p s' : server_reach s -> p ∈ a_items (fq_pipes (sv_fq s)) -> ~ fq_is_active (sv_fq s) p ->
    server_xread_activated s p = Some s' -> server_reach s'
| sr_write_activated s p s' : server_reach s -> p ∈ a_items (fq_pipes (sv_fq s)) -> server_xwrite_activated s p = Some s' -> server_reach s'
| sr_send w s f w' s' r : server_reach s -> server_xsend w s f = Some (w', s', r) -> server_reach s'
| sr_recv w s w' s' r : server_reach s -> fq_between w (sv_fq s) -> server_xrecv w s = Some (w', s', r) -> server_reach s'
| sr_has_in w s w' s' b : server_reach s -> server_xhas_in w s = Some (w', s', b) -> server_reach s'.

Lemma server_reach_inv s : server_reach s -> server_inv s.
Proof.
  induction 1 as [r|s p s' Hr IH Hp E|s p s' Hr IH Hp E|s p s' Hr IH Hp Hna E|s p s' Hr IH Hp E|w s f w' s' r Hr IH E|w s w' s' r Hr IH Hb E|w s w' s' b Hr IH E].
  - apply server_new_inv.
  - destruct (decide (sv_out s !! (sv_take_id (sv_next s)).1 = None)) as [Hf|Hf].
    + destruct (server_attach_ok s p IH Hp Hf) as (s1 & E1 & Hs1 & _). congruence.
    + unfold server_xattach_pipe in E. destruct (sv_take_id (sv_next s)) as [id next]. cbn [fst] in Hf. by rewrite bool_decide_eq_false_2 in E.
  - destruct (server_terminated_ok s p IH Hp) as (s1 & E1 & Hs1 & _). congruence.
  - unfold server_xread_activated in E. destruct (fq_activated_spec (sv_fq s) p (si_fq _ IH) Hp Hna) as (q & Eq & Hq & _ & Hm).
    rewrite Eq in E. injection E as <-. by apply server_set_fq_ok.
  - destruct (server_peer s p IH Hp) as (id & a & _ & Hl & _). unfold server_xwrite_activated in E. rewrite (server_find s p id a IH Hl) in E.
    cbn [mbind option_bind fst snd] in E. destruct a; [done|]. cbn [negb] in E. injection E as <-. by apply (server_mark_ok s id p false).
  - by apply (server_send_inv w s f w' s' r).
  - destruct (server_recv_spec w s IH Hb) as (w1 & s1 & r1 & E1 & Hs1 & _). congruence.
  - unfold server_xhas_in in E. destruct (fq_has_in_ok w (sv_fq s) (si_fq _ IH)) as (w1 & q1 & b1 & E1 & Hq1 & Hm1). rewrite E1 in E. injection E as <- <- <-.
    by apply server_set_fq_ok.
Qed.

End server.

(** ** What the socket guarantees *)

(** C27: in every reachable state a receive succeeds without failing an
    assertion; the message it returns has a single part and a routing id
    that is not zero, and it is the next message of a peer once whole
    messages of several parts are dropped.  A reply with that routing id
    goes to that peer and to no other, flushed, with its own routing id
    removed; when the pipe has no room the sender is told to try again
    and nothing is sent; after the peer has left the reply is refused. *)
Theorem server_replies {W} {IP : InPipes W} {OP : OutPipes W} {DX : Duplex W} {DL : DuplexLaws W} (w : W) (s : server) :
  server_reach (W := W) s -> fq_between w (sv_fq s) ->
  exists w' s' r, server_xrecv w s = Some (w', s', r) /\ server_reach (W := W) s' /\ fq_between w' (sv_fq s') /\
    match r with
    | None => drops multipart w w' /\ forall p, fq_is_active (sv_fq s) p -> ip_queue w' p = []
    | Some f => exists p g w1, f = set_routing_id g (fr_routing_id f) /\ 0 < fr_routing_id f < 2 ^ 32 /\ fr_more f = false /\
        drops multipart w w1 /\ ip_queue w1 p = g :: ip_queue w' p /\ (forall p', p' <> p -> ip_queue w' p' = ip_queue w1 p') /\
        (forall w2 reply, fr_more reply = false -> fr_routing_id reply = fr_routing_id f ->
          exists w3 s3, server_xsend w2 s' reply = Some (w3, s3, if op_room w2 p then SrOk else SrAgain) /\
            op_sent w3 p = op_sent w2 p ++ (if op_room w2 p then op_pending w2 p ++ [reset_routing_id reply] else []) /\
            forall p', p' <> p -> op_sent w3 p' = op_sent w2 p') /\
        (exists s3, server_xpipe_terminated s' p = Some s3 /\
          forall w2 reply, fr_more reply = false -> fr_routing_id reply = fr_routing_id f -> server_xsend w2 s3 reply = Some (w2, s3, SrHostUnreach))
    end.
Proof.
  intros Hr Hb. pose proof (server_reach_inv s Hr) as Hs. destruct (server_recv_spec w s Hs Hb) as (w' & s' & r & E & Hs' & Hb' & Ho & Hi & Hres).
  exists w', s', r. split; [done|]. split; [by apply (sr_recv w s w' s' r)|]. split; [done|]. destruct r as [f|]; [|done].
  destruct Hres as (p & id & a & g & w1 & Hl & Hok & -> & Hg & Hd & Hq & Hoth). exists p, g, w1.
  assert (fr_routing_id (set_routing_id g id) = id /\ fr_more (set_routing_id g id) = fr_more g) as [-> ->].
  { unfold set_routing_id. destruct (id =? 0) eqn:E0; [apply Z.eqb_eq in E0; destruct Hok; lia|done]. }
  rewrite <- Ho in Hl. split; [done|]. split; [exact Hok|]. split_and!; try done.
  - intros w2 reply Hm Hid. destruct (server_send_spec w2 s' reply id p a Hs' Hl Hm Hid) as (w3 & s3 & E3 & _ & _ & _ & _ & H3). by exists w3, s3.
  - assert (p ∈ a_items (fq_pipes (sv_fq s'))) as Hp by (apply (si_mem _ Hs'); eauto).
    destruct (server_terminated_ok s' p Hs' Hp) as (s3 & -> & _ & Ho3 & _). exists s3. split; [done|]. intros w2 reply Hm Hid.
    unfold server_xsend. rewrite Hm, Hid, Ho3. destruct (si_id _ Hs' _ _ _ Hl) as [Hi' _]. unfold sv_pipe_id. rewrite Hi'.
    change (default 0 (Some id)) with id. by rewrite lookup_delete_eq.
Qed.

(** A SERVER with two peers; the first has a message of two parts and one that is received. *)
Definition server_example_pipes : dpipes :=
  DPipes (list_to_map [(1, [part 1; single 2; single 3]); (2, [single 4])]) (list_to_map [(1, (1%nat, [], [])); (2, (0%nat, [], []))]) ∅.

Definition server_example : server :=
  match server_xattach_pipe (server_new 7) 1 with
  | Some s => default s (server_xattach_pipe s 2)
  | None => server_new 7
  end.

Lemma server_example_reach : server_reach (W := dpipes) server_example.
Proof.
  unfold server_example. destruct (server_xattach_pipe (server_new 7) 1) as [s1|] eqn:E1; [|vm_compute in E1; discriminate].
  assert (server_reach (W := dpipes) s1) as H1 by (apply (sr_attach (server_new 7) 1 s1 (sr_new 7)); [apply not_elem_of_nil|done]).
  destruct (server_xattach_pipe s1 2) as [s2|] eqn:E2; [|done]. apply (sr_attach s1 2 s2 H1); [|done].
  vm_compute in E1. injection E1 as <-. cbn. intros Hin. apply list_elem_of_singleton in Hin. discriminate.
Qed.

Lemma server_example_between : fq_between server_example_pipes (sv_fq server_example).
Proof.
  split; [exact (si_fq _ (server_reach_inv _ server_example_reach))|]. split; [vm_compute; reflexivity|]. intros p _.
  destruct (decide (p = 1)) as [->|Hp1].
  - exists [[part 1; single 2]; [single 3]]. split; [reflexivity|by repeat constructor].
  - destruct (decide (p = 2)) as [->|Hp2]; [exists [[single 4]]; split; [reflexivity|by repeat constructor]|].
    exists []. split; [|constructor]. cbn. by rewrite !lookup_insert_ne.
Qed.

Lemma server_replies_witness : exists w' s' f, server_xrecv server_example_pipes server_example = Some (w', s', Some f) /\
  fr_routing_id f = 8 /\ server_reach (W := dpipes) s'.
Proof.
  destruct (server_replies server_example_pipes server_example server_example_reach server_example_between) as (w' & s' & r & E & Hr & _ & Hres).
  destruct r as [f|].
  - exists w', s', f. split; [exact E|]. split; [|exact Hr]. vm_compute in E. injection E as _ _ <-. reflexivity.
  - exfalso. vm_compute in E. discriminate.
Defined.

(** ** When the routing ids run out *)

(** Peers that come and go use up the routing ids. *)
Lemma server_cycles {W} {IP : InPipes W} {OP : OutPipes W} {DX : Duplex W} {DL : DuplexLaws W} (n : nat) : Z.of_nat n < 2 ^ 32 - 2 ->
  exists s, server_reach (W := W) s /\ sv_next s = 2 + Z.of_nat n /\ sv_out s = {[1 := (1, true)]}.
Proof.
  induction n as [|n IH]; intros Hn.
  - destruct (server_xattach_pipe (server_new 1) 1) as [s|] eqn:E; [|vm_compute in E; discriminate].
    exists s. split; [apply (sr_attach (server_new 1) 1 s (sr_new 1)); [apply not_elem_of_nil|done]|]. vm_compute in E. by injection E as <-.
  - destruct IH as (s & Hr & Hnext & Hout); [lia|]. pose proof (server_reach_inv s Hr) as Hs.
    assert (sv_take_id (sv_next s) = (2 + Z.of_nat n, 2 + Z.of_nat (S n))) as Et.
    { unfold sv_take_id. rewrite Hnext. destruct (2 + Z.of_nat n =? 0) eqn:E0; [apply Z.eqb_eq in E0; lia|]. rewrite u32_small; [f_equal; lia|unfold is_u32; lia]. }
    assert (2 ∉ a_items (fq_pipes (sv_fq s))) as H2.
    { intros Hin. apply (si_mem _ Hs) in Hin as (id & a & Hl). rewrite Hout, lookup_singleton_Some in Hl. destruct Hl; congruence. }
    assert (sv_out s !! (sv_take_id (sv_next s)).1 = None) as Hfree by (rewrite Et, Hout; cbn [fst]; rewrite lookup_singleton_ne; [done|lia]).
    destruct (server_attach_ok s 2 Hs H2 Hfree) as (s1 & E1 & Hs1 & Ho1 & Hn1 & Hm1). rewrite Et in Ho1, Hn1. cbn [fst snd] in *.
    assert (2 ∈ a_items (fq_pipes (sv_fq s1))) as Hin1 by (apply Hm1; by right).
    destruct (server_terminated_ok s1 2 Hs1 Hin1) as (s2 & E2 & Hs2 & Ho2 & Hn2 & _). exists s2. split_and!.
    + by apply (sr_terminated s1 2 s2 (sr_attach s 2 s1 Hr H2 E1)).
    + congruence.
    + assert (sv_pipe_id s1 2 = 2 + Z.of_nat n) as Ep.
      { assert (sv_out s1 !! (2 + Z.of_nat n) = Some (2, true)) as Hl by (rewrite Ho1; apply lookup_insert_eq). apply (si_id _ Hs1) in Hl as [Hl _].
        unfold sv_pipe_id. by rewrite Hl. }
      rewrite Ho2, Ep, Ho1, Hout. apply delete_insert_id. rewrite lookup_singleton_ne; [done|lia].
Qed.

(** The counter of routing ids wraps around, skipping zero only: when a
    peer is still connected whose routing id comes up again, the
    assertion that the routing id is new fails, and the process ends. *)
Theorem server_id_wraps {W} {IP : InPipes W} {OP : OutPipes W} {DX : Duplex W} {DL : DuplexLaws W} :
  exists s, server_reach (W := W) s /\ 3 ∉ a_items (fq_pipes (sv_fq s)) /\ server_xattach_pipe s 3 = None.
Proof.
  destruct (server_cycles (W := W) (Z.to_nat (2 ^ 32 - 3))) as (s & Hr & Hn & Ho); [lia|]. rewrite Z2Nat.id in Hn by lia.
  pose proof (server_reach_inv s Hr) as Hs.
  assert (forall p, p <> 1 -> p ∉ a_items (fq_pipes (sv_fq s))) as Hp.
  { intros p Hne Hin. apply (si_mem _ Hs) in Hin as (id & a & Hl). rewrite Ho, lookup_singleton_Some in Hl. destruct Hl; congruence. }
  assert (sv_take_id (sv_next s) = (4294967295, 0)) as Et by (by rewrite Hn).
  destruct (server_attach_ok s 2 Hs (Hp 2 ltac:(lia))) as (s1 & E1 & Hs1 & Ho1 & Hn1 & Hm1); [rewrite Et, Ho; by rewrite lookup_singleton_ne|].
  exists s1. rewrite Et in *. cbn [fst snd] in *. split_and!.
  - by apply (sr_attach s 2 s1 Hr (Hp 2 ltac:(lia))).
  - rewrite Hm1. intros [Hin|?]; [by apply (Hp 3) in Hin|lia].
  - unfold server_xattach_pipe. rewrite Hn1. change (sv_take_id 0) with (1, 2). cbn iota beta. rewrite Ho1, Ho, bool_decide_eq_false_2; [done|].
    rewrite lookup_insert_ne, lookup_singleton_eq; done.
Qed.
