(* ===== verification/Stream.v ===== *)
(** * The STREAM socket, [stream_t] (src/src/stream.cpp)

    Talks to peers that do not speak ZMTP.  The table of peers is the one
    of [Router] ([routing_socket_base_t]); every peer gets a routing id
    from the socket.  What is received is a pair of frames, the routing id
    of the peer and its data; what is sent is such a pair. *)

From S2P Require Import Prelude Array Frame Wire Options Fq Duplex Router RouterProps Sockets.

Record stream := Stream {
  st_fq : fq;
  st_prefetched : bool;
  st_routing_id_sent : bool;
  st_prefetched_id : frame;
  st_prefetched_msg : frame;
  st_current_out : option Z;
  st_more_out : bool;
  st_ids : rids;                 (** [rd_next] is [_next_integral_routing_id] *)
  st_own_id : bytes;             (** [options.routing_id] *)
  st_raw_notify : bool;          (** [options.raw_notify] *)
}.

Definition stream_new (random : Z) : stream :=
  Stream fq_new false false fr_empty fr_empty None false (RIds ∅ (u32 random) ∅ ∅ []) [] true.

(** The destructor of [routing_socket_base_t]. *)
Definition stream_destroy (s : stream) : option unit := zmq_assert (bool_decide (rd_out (st_ids s) = ∅)) ;; Some tt.

Definition st_set_fq (s : stream) (q : fq) : stream :=
  Stream q (st_prefetched s) (st_routing_id_sent s) (st_prefetched_id s) (st_prefetched_msg s) (st_current_out s) (st_more_out s) (st_ids s)
    (st_own_id s) (st_raw_notify s).
Definition st_set_in (s : stream) (prefetched sent : bool) (id msg : frame) : stream :=
  Stream (st_fq s) prefetched sent id msg (st_current_out s) (st_more_out s) (st_ids s) (st_own_id s) (st_raw_notify s).
Definition st_set_out (s : stream) (current : option Z) (more : bool) : stream :=
  Stream (st_fq s) (st_prefetched s) (st_routing_id_sent s) (st_prefetched_id s) (st_prefetched_msg s) current more (st_ids s)
    (st_own_id s) (st_raw_notify s).
Definition st_set_ids (s : stream) (d : rids) : stream :=
  Stream (st_fq s) (st_prefetched s) (st_routing_id_sent s) (st_prefetched_id s) (st_prefetched_msg s) (st_current_out s) (st_more_out s) d
    (st_own_id s) (st_raw_notify s).
Definition st_set_own (s : stream) (id : bytes) : stream :=
  Stream (st_fq s) (st_prefetched s) (st_routing_id_sent s) (st_prefetched_id s) (st_prefetched_msg s) (st_current_out s) (st_more_out s) (st_ids s)
    id (st_raw_notify s).

(** [identify_peer]: always assign a routing id for a raw socket. *)
Definition stream_identify_peer (s : stream) (pipe : Z) (locally_initiated : bool) : option stream :=
  let d := st_ids s in
  if locally_initiated && negb (bool_decide (rd_connect d = [])) then
    let '(d, id) := extract_connect_routing_id d in
    zmq_assert (negb (has_out_pipe d id)) ;;
    let* d := add_out_pipe (set_pipe_routing_id d pipe id) id pipe in
    Some (st_set_ids s d)
  else
    let '(d, id) := next_integral_id d in
    let s := st_set_own s id in
    let* d := add_out_pipe (set_pipe_routing_id d pipe id) id pipe in
    Some (st_set_ids s d).

Definition stream_xattach_pipe (s : stream) (pipe : Z) (locally_initiated : bool) : option stream :=
  let* s := stream_identify_peer s pipe locally_initiated in
  let* q := fq_attach (st_fq s) pipe in
  Some (st_set_fq s q).

Definition stream_xpipe_terminated (s : stream) (pipe : Z) : option stream :=
  let* d := erase_out_pipe (st_ids s) pipe in
  let* q := fq_pipe_terminated (st_fq s) pipe in
  let s := st_set_fq (st_set_ids s d) q in
  Some (if bool_decide (st_current_out s = Some pipe) then st_set_out s None (st_more_out s) else s).

Definition stream_xread_activated (s : stream) (pipe : Z) : option stream :=
  let* q := fq_activated (st_fq s) pipe in Some (st_set_fq s q).

(** [routing_socket_base_t::xwrite_activated] *)
Definition stream_xwrite_activated (s : stream) (pipe : Z) : option stream :=
  let d := st_ids s in
  let* e := head (filter (fun e => e.2.1 = pipe) (map_to_list (rd_out d))) in
  zmq_assert (negb e.2.2) ;;
  Some (st_set_ids s (out_set_active d e.1 pipe true)).

Definition ZMQ_STREAM_NOTIFY : Z := 73.

(** [None] is EINVAL.  The default case is [routing_socket_base_t::xsetsockopt]. *)
Definition stream_xsetsockopt (s : stream) (option_ : Z) (optval : option bytes) : option stream :=
  if option_ =? ZMQ_STREAM_NOTIFY then
    let* v := do_setsockopt_int_as_bool_strict optval in
    Some (Stream (st_fq s) (st_prefetched s) (st_routing_id_sent s) (st_prefetched_id s) (st_prefetched_msg s) (st_current_out s) (st_more_out s)
            (st_ids s) (st_own_id s) (negb (v =? 0)))
  else if option_ =? ZMQ_CONNECT_ROUTING_ID then
    match optval with
    | None | Some [] => None
    | Some v => let d := st_ids s in Some (st_set_ids s (RIds (rd_anonymous d) (rd_next d) (rd_out d) (rd_pipe_id d) v))
    end
  else None.

Section stream.
Context {W : Type} {IP : InPipes W} {OP : OutPipes W} {DX : Duplex W} {DL : DuplexLaws W} {RP : RouterPipes W}.
Implicit Types (w : W) (s : stream) (p pipe : Z) (msg f : frame).

(** The first part is the routing id of the peer; one more frame is expected. *)
Definition stream_send_id w s msg : option (W * stream * xsend_rc) :=
  if fr_more msg then
    match lookup_out_pipe (st_ids s) (fr_body msg) with
    | None => Some (w, s, SrHostUnreach)
    | Some (pipe, _) =>
        let* (w, ok) := op_check_write w pipe in
        if negb ok then Some (w, st_set_out (st_set_ids s (out_set_active (st_ids s) (fr_body msg) pipe false)) None false, SrAgain)
        else Some (w, st_set_out s (Some pipe) true, SrOk)
    end
  else Some (w, st_set_out s (st_current_out s) true, SrOk).

(** The second part is the data; an empty one closes the connection. *)
Definition stream_send_data w s msg : option (W * stream * xsend_rc) :=
  let msg := reset_more msg in
  match st_current_out s with
  | None => Some (w, st_set_out s None false, SrOk)
  | Some pipe =>
      if bool_decide (fr_body msg = []) then Some (rp_terminate w pipe false, st_set_out s None false, SrOk)
      else
        let* (w, ok) := op_write w pipe msg in
        let* w := if (ok : bool) then op_flush w pipe else Some w in
        Some (w, st_set_out s None false, SrOk)
  end.

Definition stream_xsend w s msg : option (W * stream * xsend_rc) :=
  if negb (st_more_out s) then
    zmq_assert (bool_decide (st_current_out s = None)) ;;
    stream_send_id w s msg
  else stream_send_data w s msg.

(** [None] is EAGAIN. *)
Definition stream_xrecv w s : option (W * stream * option frame) :=
  if st_prefetched s then
    if negb (st_routing_id_sent s) then Some (w, st_set_in s true true fr_empty (st_prefetched_msg s), Some (st_prefetched_id s))
    else Some (w, st_set_in s false true (st_prefetched_id s) fr_empty, Some (st_prefetched_msg s))
  else
    let* (w, q, r) := fq_recvpipe w (st_fq s) in
    let s := st_set_fq s q in
    match r with
    | None => Some (w, st_set_in s false (st_routing_id_sent s) (st_prefetched_id s) fr_empty, None)
    | Some (pipe, msg) =>
        zmq_assert (negb (fr_more msg)) ;;
        Some (w, st_set_in s true true (st_prefetched_id s) msg, Some (id_frame (pipe_routing_id (st_ids s) pipe)))
    end.

Definition stream_xhas_in w s : option (W * stream * bool) :=
  if st_prefetched s then Some (w, s, true)
  else
    let* (w, q, r) := fq_recvpipe w (st_fq s) in
    let s := st_set_fq s q in
    match r with
    | None => Some (w, st_set_in s false (st_routing_id_sent s) (st_prefetched_id s) fr_empty, false)
    | Some (pipe, msg) =>
        zmq_assert (negb (fr_more msg)) ;;
        Some (w, st_set_in s true false (id_frame (pipe_routing_id (st_ids s) pipe)) msg, true)
    end.

Definition stream_xhas_out s : bool := true.

(** ** The invariant *)

Record stream_inv s : Prop := {
  sm_fq : fq_inv (st_fq s);
  sm_ids : ids_ok (st_ids s) (fun p => p ∈ a_items (fq_pipes (st_fq s)));
  sm_idle : st_more_out s = false -> st_current_out s = None;
  sm_current p : st_current_out s = Some p -> p ∈ a_items (fq_pipes (st_fq s));
}.

(** Whatever touches neither the peers nor the fair queue keeps it. *)
Lemma stream_inv_same s s' : stream_inv s -> st_fq s' = st_fq s -> st_ids s' = st_ids s -> (st_more_out s' = false -> st_current_out s' = None) ->
  (forall p, st_current_out s' = Some p -> p ∈ a_items (fq_pipes (st_fq s))) -> stream_inv s'.
Proof. intros [H1 H2 H3 H4] Hq Hi Ho Hc. constructor; rewrite ?Hq, ?Hi; done. Qed.

Lemma stream_set_in_inv s b b' f f' : stream_inv s -> stream_inv (st_set_in s b b' f f').
Proof. intros Hs. apply (stream_inv_same s); try done; apply Hs. Qed.

Lemma stream_set_fq_inv s q : stream_inv s -> fq_inv q -> (forall x, x ∈ a_items (fq_pipes q) <-> x ∈ a_items (fq_pipes (st_fq s))) -> stream_inv (st_set_fq s q).
Proof.
  intros [H1 H2 H3 H4] Hq Hm. constructor; cbn [st_set_fq st_fq st_ids st_more_out st_current_out]; try done.
  - apply (ids_ok_ext (st_ids s) (st_ids s) _ _ H2); try done.
  - intros p Hp. by apply Hm, H4.
Qed.

Lemma stream_mark_inv s id p a : stream_inv s -> (exists b, rd_out (st_ids s) !! id = Some (p, b)) -> stream_inv (st_set_ids s (out_set_active (st_ids s) id p a)).
Proof. intros [H1 H2 H3 H4] Hl. constructor; cbn [st_set_ids st_fq st_ids st_more_out st_current_out]; try done. by apply active_ok. Qed.

Lemma stream_add_inv s p id d s1 : stream_inv s -> p ∉ a_items (fq_pipes (st_fq s)) -> ids_ok d (fun x => x ∈ a_items (fq_pipes (st_fq s))) -> id <> [] ->
  st_fq s1 = st_fq s -> st_more_out s1 = st_more_out s -> st_current_out s1 = st_current_out s ->
  (let* d := add_out_pipe (set_pipe_routing_id d p id) id p in Some (st_set_ids s1 d)) = None \/
  exists s', (let* d := add_out_pipe (set_pipe_routing_id d p id) id p in Some (st_set_ids s1 d)) = Some s' /\ st_fq s' = st_fq s /\
    st_more_out s' = st_more_out s /\ st_current_out s' = st_current_out s /\ ids_ok (st_ids s') (fun x => x ∈ a_items (fq_pipes (st_fq s)) \/ x = p) /\
    rd_pipe_id (st_ids s') !! p = Some id.
Proof.
  intros Hs Hp Hd Hne Hq Hm Hc. destruct (decide (rd_out d !! id = None)) as [Hf|Hf].
  - destruct (add_ok d _ p id Hd Hp Hf Hne) as (d' & -> & Hok & _ & _ & Hi). right. cbn [mbind option_bind]. eexists. split; [done|]. cbn. split_and!; try done; congruence.
  - left. unfold add_out_pipe. cbn [set_pipe_routing_id rd_out]. by rewrite bool_decide_eq_false_2.
Qed.

Lemma stream_attach_inv s p loc s' : stream_inv s -> p ∉ a_items (fq_pipes (st_fq s)) -> stream_xattach_pipe s p loc = Some s' -> stream_inv s'.
Proof.
  intros Hs Hp. pose proof Hs as [Hq Hi Ho Hc]. unfold stream_xattach_pipe.
  assert (forall r, (r = None \/ exists s1, r = Some s1 /\ st_fq s1 = st_fq s /\ st_more_out s1 = st_more_out s /\ st_current_out s1 = st_current_out s /\
      ids_ok (st_ids s1) (fun x => x ∈ a_items (fq_pipes (st_fq s)) \/ x = p) /\ exists id, rd_pipe_id (st_ids s1) !! p = Some id) ->
    (let* s1 := r in let* q := fq_attach (st_fq s1) p in Some (st_set_fq s1 q)) = Some s' -> stream_inv s') as Hgo.
  { intros r [->|(s1 & -> & E1 & E2 & E3 & Hi1 & _)]; [done|]. cbn [mbind option_bind]. rewrite E1.
    destruct (fq_attach_spec (st_fq s) p Hq Hp) as (q & -> & Hq' & _ & Hm). cbn [mbind option_bind]. intros [= <-].
    constructor; cbn [st_set_fq st_fq st_ids st_more_out st_current_out]; try done.
    - by apply (ids_ok_ext (st_ids s1) (st_ids s1) _ _ Hi1).
    - intros Hm1. rewrite E3. apply Ho. congruence.
    - intros p' Hp'. apply Hm. left. apply Hc. congruence. }
  apply Hgo. unfold stream_identify_peer. destruct (loc && negb (bool_decide (rd_connect (st_ids s) = []))) eqn:El.
  - apply andb_true_iff in El as [_ El]. apply negb_true_iff, bool_decide_eq_false_1 in El. unfold extract_connect_routing_id. cbn iota beta. set (d := RIds _ _ _ _ _).
    destruct (negb (has_out_pipe d _)); [|by left]. assert (ids_ok d (fun x => x ∈ a_items (fq_pipes (st_fq s)))) as Hd by (by apply (ids_ok_ext (st_ids s) d _ _ Hi)).
    destruct (stream_add_inv s p _ d s Hs Hp Hd El eq_refl eq_refl eq_refl) as [->|(s2 & -> & ? & ? & ? & ? & ?)]; [by left|right]. exists s2. split_and!; eauto.
  - unfold next_integral_id. cbn iota beta. set (d := RIds _ _ _ _ _). set (id := 0 :: _).
    assert (ids_ok d (fun x => x ∈ a_items (fq_pipes (st_fq s)))) as Hd by (by apply (ids_ok_ext (st_ids s) d _ _ Hi)).
    destruct (stream_add_inv s p id d (st_set_own s id) Hs Hp Hd ltac:(done) eq_refl eq_refl eq_refl) as [->|(s2 & -> & ? & ? & ? & ? & ?)]; [by left|right]. exists s2. split_and!; eauto.
Qed.

Lemma stream_terminated_ok s p : stream_inv s -> p ∈ a_items (fq_pipes (st_fq s)) -> exists s', stream_xpipe_terminated s p = Some s' /\ stream_inv s' /\
  (forall x, x ∈ a_items (fq_pipes (st_fq s')) <-> x ∈ a_items (fq_pipes (st_fq s)) /\ x <> p).
Proof.
  intros [Hq Hi Ho Hc] Hp. unfold stream_xpipe_terminated. destruct (erase_ok _ _ p Hi Hp) as (id & d & _ & -> & Hd & _). cbn [mbind option_bind].
  destruct (fq_pipe_terminated_spec (st_fq s) p Hq Hp) as (q & -> & Hq' & _ & Hm & _). cbn [mbind option_bind]. eexists. split; [done|].
  assert (ids_ok d (fun x => x ∈ a_items (fq_pipes q))) as Hd' by (by apply (ids_ok_ext d d _ _ Hd)).
  cbn [st_set_fq st_set_ids st_current_out st_more_out]. case_bool_decide as E; (split; [|exact Hm]); constructor; cbn; try done.
  intros p' Hp'. apply Hm. split; [by apply Hc|congruence].
Qed.

(** Sending the two frames of a message to a peer. *)
Lemma stream_send_spec w s id p a : stream_inv s -> st_more_out s = false -> rd_out (st_ids s) !! id = Some (p, a) ->
  exists w1 s1, stream_xsend w s (id_frame id) = Some (w1, s1, if op_room w p then SrOk else SrAgain) /\ in_same w w1 /\ st_fq s1 = st_fq s /\ out_same w w1 /\
    (forall x, op_room w1 x = op_room w x) /\ st_more_out s1 = op_room w p /\
    (op_room w p = false -> rd_out (st_ids s1) !! id = Some (p, false)) /\
    (op_room w p = true -> st_current_out s1 = Some p).
Proof.
  intros Hs Hm Hl. unfold stream_xsend. rewrite Hm. cbn [negb]. rewrite (sm_idle _ Hs Hm). cbn. unfold stream_send_id.
  change (fr_more (id_frame id)) with true. cbn iota. unfold lookup_out_pipe. change (fr_body (id_frame id)) with id. rewrite Hl.
  destruct (op_check_write_ok w p) as (w1 & E & Hc). rewrite E. cbn [mbind option_bind].
  destruct (op_room w p); cbn [negb]; eexists w1, _; (split; [done|]); (split; [exact (dx_check_write _ _ _ _ E)|]); cbn;
    split_and!; try done; try (intros x; apply Hc); try (intros x; destruct (Hc x) as (? & ? & _); by split).
  - intros _. apply lookup_insert_eq.
Qed.

Lemma stream_send_data_spec w s p f : st_more_out s = true -> st_current_out s = Some p -> fr_body f <> [] -> op_room w p = true ->
  exists w1 s1, stream_xsend w s f = Some (w1, s1, SrOk) /\ in_same w w1 /\ s1 = st_set_out s None false /\
    op_sent w1 p = op_sent w p ++ op_pending w p ++ [reset_more f] /\ forall p', p' <> p -> op_sent w1 p' = op_sent w p'.
Proof.
  intros Hm Hc Hb Hr. unfold stream_xsend. rewrite Hm. cbn [negb]. unfold stream_send_data. rewrite Hc. change (fr_body (reset_more f)) with (fr_body f).
  rewrite bool_decide_eq_false_2 by done.
  destruct (op_write_ok w p (reset_more f)) as (w1 & E1 & Hpend & Hsent & _). rewrite E1, Hr. cbn [mbind option_bind].
  destruct (op_flush_ok w1 p) as (w2 & E2 & Hs2 & _ & _). rewrite E2. cbn [mbind option_bind]. eexists w2, _. split; [done|].
  split; [apply (in_same_trans _ w1); [exact (dx_write _ _ _ _ _ E1)|exact (dx_flush _ _ _ E2)]|]. split; [done|]. split.
  - by rewrite Hs2, decide_True, Hsent, Hpend, decide_True, Hr.
  - intros p' Hne. by rewrite Hs2, decide_False, Hsent.
Qed.

(** ** Receiving *)

(** The engines of raw connections give messages of one part. *)
Definition raw_between w (q : fq) : Prop := fq_between w q /\ forall p, fq_is_active q p -> Forall (fun f => fr_more f = false) (ip_queue w p).

Lemma raw_recv w q : raw_between w q -> exists w' q' r, fq_recvpipe w q = Some (w', q', r) /\ raw_between w' q' /\
  (forall x, x ∈ a_items (fq_pipes q') <-> x ∈ a_items (fq_pipes q)) /\
  match r with
  | None => (forall p, fq_is_active q p -> ip_queue w p = []) /\ forall p, ip_queue w' p = ip_queue w p
  | Some (p, f) => p ∈ a_items (fq_pipes q) /\ fr_more f = false /\ ip_queue w p = f :: ip_queue w' p /\ forall p', p' <> p -> ip_queue w' p' = ip_queue w p'
  end.
Proof.
  intros [Hb Hsingle]. destruct (fq_recv_start w q Hb) as (w' & q' & r & E & Hm & Hr). exists w', q', r. split; [done|]. destruct r as [[p f]|].
  - destruct Hr as (Hact & msg & rest & Hmsg & Hrest & Hq & Hq1 & Ho & Hat & _ & Hsh1 & _).
    pose proof (Hsingle p Hact) as Hall. rewrite Hq in Hall. apply Forall_cons_1 in Hall as [Hf Hall].
    destruct msg as [|g msg]; cbn [is_message] in Hmsg; [|by rewrite Hf in Hmsg]. cbn [fq_at app] in *. split; [|split_and!; try done].
    + split; [done|]. intros p' Hp'. destruct (decide (p' = p)) as [->|Hne]; [by rewrite Hq1|]. rewrite Ho by done. apply Hsingle. by apply Hsh1.
    + by eapply in_part_mem.
    + by rewrite Hq1.
  - destruct Hr as (Hall & Hsame & Hb' & Hz). split; [|done]. split; [done|]. intros p (k & Hk & _). lia.
Qed.

Lemma stream_recv_spec w s : stream_inv s -> raw_between w (st_fq s) -> st_prefetched s = false ->
  exists w' s' r, stream_xrecv w s = Some (w', s', r) /\ stream_inv s' /\ raw_between w' (st_fq s') /\ st_ids s' = st_ids s /\
    st_more_out s' = st_more_out s /\
    match r with
    | None => st_prefetched s' = false /\ forall p, fq_is_active (st_fq s) p -> ip_queue w p = []
    | Some f => exists p id a g, rd_out (st_ids s) !! id = Some (p, a) /\ f = id_frame id /\ ip_queue w p = g :: ip_queue w' p /\
        (forall p', p' <> p -> ip_queue w' p' = ip_queue w p') /\
        exists s2, stream_xrecv w' s' = Some (w', s2, Some g) /\ stream_inv s2 /\ raw_between w' (st_fq s2) /\ st_ids s2 = st_ids s /\
          st_prefetched s2 = false /\ st_more_out s2 = st_more_out s
    end.
Proof.
  intros Hs Hb Hpre. pose proof Hs as [Hq Hi Ho Hc]. unfold stream_xrecv. rewrite Hpre.
  destruct (raw_recv w (st_fq s) Hb) as (w' & q' & r & -> & Hb' & Hm & Hr). cbn [mbind option_bind].
  pose proof (stream_set_fq_inv s q' Hs (proj1 (proj1 Hb')) Hm) as Hs'. destruct r as [[p g]|].
  - destruct Hr as (Hin & Hg & Hqp & Hoth). rewrite Hg. cbn [negb]. apply (io_mem _ _ Hi) in Hin as (id & a & Hl).
    assert (pipe_routing_id (st_ids s) p = id) as Ep by (unfold pipe_routing_id; by rewrite (io_id _ _ Hi _ _ _ Hl)).
    eexists w', _, _. split; [done|]. cbn [st_set_fq st_set_in st_ids st_fq st_more_out st_prefetched st_routing_id_sent negb st_prefetched_msg st_prefetched_id].
    rewrite Ep. split; [by apply (stream_set_in_inv (st_set_fq s q'))|]. split_and!; try done. exists p, id, a, g. split_and!; try done.
    eexists. split; [done|]. split_and!; try done. by apply (stream_set_in_inv (st_set_in (st_set_fq s q') _ _ _ _)), stream_set_in_inv.
  - eexists w', _, _. split; [done|]. cbn. split; [by apply (stream_set_in_inv (st_set_fq s q'))|]. split_and!; try done. apply Hr.
Qed.

(** ** The states of a STREAM socket *)

Inductive stream_reach : stream -> Prop :=
| sm_new random : stream_reach (stream_new random)
| sm_attach s p loc s' : stream_reach s -> p ∉ a_items (fq_pipes (st_fq s)) -> stream_xattach_pipe s p loc = Some s' -> stream_reach s'
| sm_terminated s p s' : stream_reach s -> p ∈ a_items (fq_pipes (st_fq s)) -> stream_xpipe_terminated s p = Some s' -> stream_reach s'
| sm_read_activated s p s' : stream_reach s -> p ∈ a_items (fq_pipes (st_fq s)) -> ~ fq_is_active (st_fq s) p ->
    stream_xread_activated s p = Some s' -> stream_reach s'
| sm_write_activated s p s' : stream_reach s -> p ∈ a_items (fq_pipes (st_fq s)) -> stream_xwrite_activated s p = Some s' -> stream_reach s'
| sm_setsockopt s o v s' : stream_reach s -> stream_xsetsockopt s o v = Some s' -> stream_reach s'
| sm_send w s f w' s' r : stream_reach s -> stream_xsend w s f = Some (w', s', r) -> stream_reach s'
| sm_recv w s w' s' r : stream_reach s -> raw_between w (st_fq s) -> stream_xrecv w s = Some (w', s', r) -> stream_reach s'
| sm_has_in w s w' s' b : stream_reach s -> raw_between w (st_fq s) -> stream_xhas_in w s = Some (w', s', b) -> stream_reach s'.

Lemma stream_send_inv w s f w' s' r : stream_inv s -> stream_xsend w s f = Some (w', s', r) -> stream_inv s'.
Proof.
  intros Hs. pose proof Hs as [Hq Hi Ho Hc]. unfold stream_xsend. destruct (st_more_out s) eqn:Em; cbn [negb].
  - unfold stream_send_data. destruct (st_current_out s) as [p|]; [|by intros [= <- <- <-]; apply (stream_inv_same s)].
    case_bool_decide; [by intros [= <- <- <-]; apply (stream_inv_same s)|].
    destruct (op_write w p _) as [[w1 b]|]; [|done]. cbn [mbind option_bind].
    destruct (if b then _ else _) as [w2|]; [|done]. cbn [mbind option_bind]. intros [= <- <- <-]. by apply (stream_inv_same s).
  - rewrite (Ho eq_refl). cbn. unfold stream_send_id. destruct (fr_more f); [|intros [= <- <- <-]; apply (stream_inv_same s); try done].
    unfold lookup_out_pipe. destruct (rd_out (st_ids s) !! fr_body f) as [[p a]|] eqn:El; [|by intros [= <- <- <-]].
    destruct (op_check_write w p) as [[w1 b]|]; [|done]. cbn [mbind option_bind]. destruct b; cbn [negb]; intros [= <- <- <-].
    + apply (stream_inv_same s); try done. cbn. intros p' [= <-]. apply (io_mem _ _ Hi). eauto.
    + apply (stream_inv_same (st_set_ids s (out_set_active (st_ids s) (fr_body f) p false))); try done. by apply stream_mark_inv; [|eauto].
Qed.

Lemma stream_reach_inv s : stream_reach s -> stream_inv s.
Proof.
  induction 1 as [r|s p loc s' Hr IH Hp E|s p s' Hr IH Hp E|s p s' Hr IH Hp Hna E|s p s' Hr IH Hp E|s o v s' Hr IH E|w s f w' s' r Hr IH E|w s w' s' r Hr IH Hb E|w s w' s' b Hr IH Hb E].
  - constructor; cbn; [apply fq_new_inv| |done|done]. constructor; cbn; try (by intros ???; rewrite lookup_empty); try (by intros ??; rewrite lookup_empty).
    intros p. split; [by intros ?%not_elem_of_nil|]. intros (id & a & H). by rewrite lookup_empty in H.
  - by apply (stream_attach_inv s p loc).
  - destruct (stream_terminated_ok s p IH Hp) as (s1 & E1 & Hs1 & _). congruence.
  - unfold stream_xread_activated in E. destruct (fq_activated_spec (st_fq s) p (sm_fq _ IH) Hp Hna) as (q & Eq & Hq & _ & Hm).
    rewrite Eq in E. injection E as <-. by apply stream_set_fq_inv.
  - unfold stream_xwrite_activated in E. destruct (head _) as [[id [p' a]]|] eqn:Eh; [|done]. cbn [mbind option_bind fst snd] in E.
    destruct a; [done|]. cbn [negb] in E. injection E as <-. apply head_Some_elem_of in Eh. apply list_elem_of_filter in Eh as [Ep Eh].
    cbn in Ep. subst p'. apply elem_of_map_to_list in Eh. apply stream_mark_inv; [done|eauto].
  - unfold stream_xsetsockopt in E. destruct (o =? ZMQ_STREAM_NOTIFY).
    + destruct (do_setsockopt_int_as_bool_strict v); [|done]. cbn [mbind option_bind] in E. injection E as <-. apply (stream_inv_same s); try done; apply IH.
    + destruct (o =? ZMQ_CONNECT_ROUTING_ID); [|done]. destruct v as [[|b l]|]; [done| |done]. injection E as <-.
      destruct IH as [H1 H2 H3 H4]. constructor; cbn; try done. by apply (ids_ok_ext (st_ids s) _ _ _ H2).
  - by apply (stream_send_inv w s f w' s' r).
  - destruct (st_prefetched s) eqn:Ep.
    + unfold stream_xrecv in E. rewrite Ep in E. destruct (negb (st_routing_id_sent s)); injection E as <- <- <-; by apply stream_set_in_inv.
    + destruct (stream_recv_spec w s IH Hb Ep) as (w1 & s1 & r1 & E1 & Hs1 & _). congruence.
  - unfold stream_xhas_in in E. destruct (st_prefetched s); [congruence|]. destruct (raw_recv w (st_fq s) Hb) as (w1 & q1 & r1 & E1 & Hb1 & Hm1 & _).
    rewrite E1 in E. cbn [mbind option_bind] in E. pose proof (stream_set_fq_inv s q1 IH (proj1 (proj1 Hb1)) Hm1) as Hs1.
    destruct r1 as [[p g]|]; [destruct (negb (fr_more g)); [|done]|]; injection E as <- <- <-; by apply stream_set_in_inv.
Qed.

End stream.

(** ** What the socket guarantees *)

(** C28: in every reachable state a receive between two messages gives the
    routing id of a connected peer and then the next piece of its data,
    unchanged and without taking anything from the others; sending that
    routing id and data writes the data to that peer and to no other, and
    flushes it; when the pipe has no room the routing id is refused with
    EAGAIN and the socket expects a routing id again; empty data closes
    the connection of that peer. *)
Theorem stream_exchange {W} {IP : InPipes W} {OP : OutPipes W} {DX : Duplex W} {DL : DuplexLaws W} {RP : RouterPipes W} (w : W) (s : stream) :
  stream_reach (W := W) s -> raw_between w (st_fq s) -> st_prefetched s = false -> st_more_out s = false ->
  exists w' s' r, stream_xrecv w s = Some (w', s', r) /\
    match r with
    | None => forall p, fq_is_active (st_fq s) p -> ip_queue w p = []
    | Some f => exists p g s2, stream_xrecv w' s' = Some (w', s2, Some g) /\ ip_queue w p = g :: ip_queue w' p /\
        (forall p', p' <> p -> ip_queue w' p' = ip_queue w p') /\
        (forall w2, exists w3 s3, stream_xsend w2 s2 f = Some (w3, s3, if op_room w2 p then SrOk else SrAgain) /\ out_same w2 w3 /\
          (op_room w2 p = false -> st_more_out s3 = false) /\
          (op_room w2 p = true -> forall data,
            (fr_body data <> [] -> exists w4 s4, stream_xsend w3 s3 data = Some (w4, s4, SrOk) /\ st_more_out s4 = false /\
              op_sent w4 p = op_sent w2 p ++ op_pending w2 p ++ [reset_more data] /\ forall p', p' <> p -> op_sent w4 p' = op_sent w2 p') /\
            (fr_body data = [] -> exists s4, stream_xsend w3 s3 data = Some (rp_terminate w3 p false, s4, SrOk) /\ st_more_out s4 = false)))
    end.
Proof.
  intros Hr Hb Hpre Hmo. pose proof (stream_reach_inv s Hr) as Hs.
  destruct (stream_recv_spec w s Hs Hb Hpre) as (w' & s' & r & E & _ & _ & _ & _ & Hres). exists w', s', r. split; [done|]. destruct r as [f|]; [|apply Hres].
  destruct Hres as (p & id & a & g & Hl & -> & Hq & Ho & s2 & E2 & Hs2 & _ & Hids2 & _ & Hm2). exists p, g, s2. split_and!; try done.
  intros w2. rewrite <- Hids2 in Hl. destruct (stream_send_spec w2 s2 id p a Hs2) as (w3 & s3 & E3 & _ & _ & Hout & Hroom & Hmo3 & _ & Hcur); [congruence|done|].
  exists w3, s3. split; [done|]. split; [done|]. split; [congruence|]. intros Hr2 data. rewrite Hr2 in Hmo3. specialize (Hcur Hr2). split.
  - intros Hd. destruct (stream_send_data_spec w3 s3 p data Hmo3 Hcur Hd) as (w4 & s4 & E4 & _ & -> & Hsent & Hoth); [by rewrite Hroom|].
    exists w4, (st_set_out s3 None false). split_and!; try done; [rewrite Hsent; by destruct (Hout p) as [-> ->]|]. intros p' Hne. rewrite Hoth by done. apply Hout.
  - intros Hd. unfold stream_xsend. rewrite Hmo3. cbn [negb]. unfold stream_send_data. rewrite Hcur. change (fr_body (reset_more data)) with (fr_body data).
    rewrite bool_decide_eq_true_2 by done. eexists. by split.
Qed.

(** A STREAM with two peers, the second without room. *)
Definition stream_example_pipes : dpipes :=
  DPipes (list_to_map [(1, [single 3; single 5]); (2, [single 4])]) (list_to_map [(1, (1%nat, [], [])); (2, (0%nat, [], []))]) ∅.

Definition stream_example : stream :=
  match stream_xattach_pipe (stream_new 7) 1 false with
  | Some s => default s (stream_xattach_pipe s 2 false)
  | None => stream_new 7
  end.

Lemma stream_example_reach : stream_reach (W := dpipes) stream_example.
Proof.
  unfold stream_example. destruct (stream_xattach_pipe (stream_new 7) 1 false) as [s1|] eqn:E1; [|vm_compute in E1; discriminate].
  assert (stream_reach (W := dpipes) s1) as H1 by (apply (sm_attach (stream_new 7) 1 false s1 (sm_new 7)); [apply not_elem_of_nil|done]).
  destruct (stream_xattach_pipe s1 2 false) as [s2|] eqn:E2; [|done]. apply (sm_attach s1 2 false s2 H1); [|done].
  vm_compute in E1. injection E1 as <-. cbn. intros Hin. apply list_elem_of_singleton in Hin. discriminate.
Qed.

Lemma stream_example_between : raw_between stream_example_pipes (st_fq stream_example).
Proof.
  assert (forall p, exists msgs, ip_queue stream_example_pipes p = concat msgs /\ Forall (fun m => is_message m = true) msgs /\
    Forall (fun f => fr_more f = false) (ip_queue stream_example_pipes p)) as Hall.
  { intros p. destruct (decide (p = 1)) as [->|Hp1]; [exists [[single 3]; [single 5]]; split; [reflexivity|split; by repeat constructor]|].
    destruct (decide (p = 2)) as [->|Hp2]; [exists [[single 4]]; split; [reflexivity|split; by repeat constructor]|].
    assert (ip_queue stream_example_pipes p = []) as E by (cbn; by rewrite !lookup_insert_ne). exists []. rewrite E. repeat constructor. }
  split; [split; [exact (sm_fq _ (stream_reach_inv _ stream_example_reach))|split; [vm_compute; reflexivity|]]|]; intros p _;
    destruct (Hall p) as (msgs & H1 & H2 & H3); [by exists msgs|done].
Qed.

Lemma stream_exchange_witness : exists w' s' f, stream_xrecv stream_example_pipes stream_example = Some (w', s', Some f) /\ fr_body f = [0; 0; 0; 0; 7].
Proof.
  destruct (stream_exchange stream_example_pipes stream_example stream_example_reach stream_example_between eq_refl eq_refl) as (w' & s' & r & E & _).
  destruct r as [f|].
  - exists w', s', f. split; [exact E|]. vm_compute in E. injection E as _ _ <-. reflexivity.
  - exfalso. vm_compute in E. discriminate.
Defined.

(** ** A message of one part *)

Section out_of_step.
Context {W : Type} {IP : InPipes W} {OP : OutPipes W} {DX : Duplex W} {DL : DuplexLaws W} {RP : RouterPipes W}.

Fixpoint stream_send_all (w : W) (s : stream) (fs : list frame) : option (W * stream * list xsend_rc) :=
  match fs with
  | [] => Some (w, s, [])
  | f :: fs =>
      let* (w, s, r) := stream_xsend w s f in
      let* (w, s, rs) := stream_send_all w s fs in
      Some (w, s, r :: rs)
  end.

(** Without a peer the second part is dropped. *)
Lemma stream_send_dropped (w : W) s f : st_more_out s = true -> st_current_out s = None -> stream_xsend w s f = Some (w, st_set_out s None false, SrOk).
Proof. intros Hm Hc. unfold stream_xsend, stream_send_data. by rewrite Hm, Hc. Qed.

(** A message of one part is taken, and another part is expected. *)
Lemma stream_send_lone (w : W) s f : st_more_out s = false -> st_current_out s = None -> fr_more f = false ->
  stream_xsend w s f = Some (w, st_set_out s None true, SrOk).
Proof. intros Hm Hc Hf. unfold stream_xsend, stream_send_id. by rewrite Hm, Hc, Hf. Qed.

Lemma stream_out_of_step (w : W) s msgs : st_more_out s = true -> st_current_out s = None ->
  Forall (fun m => fr_more m.2 = false) msgs ->
  exists s', stream_send_all w s (concat ((fun m : frame * frame => [m.1; m.2]) <$> msgs)) = Some (w, s', replicate (2 * length msgs) SrOk) /\
    st_more_out s' = true /\ st_current_out s' = None.
Proof.
  revert s. induction msgs as [|[i d] msgs IH]; intros s Hm Hc Hall; [by exists s|]. apply Forall_cons_1 in Hall as [Hd Hall]. cbn [snd] in Hd.
  rewrite fmap_cons. cbn [concat app stream_send_all fst snd]. rewrite stream_send_dropped by done. cbn [mbind option_bind].
  rewrite stream_send_lone by done. cbn [mbind option_bind].
  destruct (IH (st_set_out (st_set_out s None false) None true) eq_refl eq_refl Hall) as (s' & E & H1 & H2). exists s'. rewrite E. cbn [mbind option_bind].
  split; [|done]. replace (2 * length ((i, d) :: msgs))%nat with (S (S (2 * length msgs))) by (simpl; lia). reflexivity.
Qed.
End out_of_step.

(** A message of one part (a routing id without data) is to be ignored,
    but the socket still expects one more frame: it takes the routing id
    of the next message for the data and its data for a routing id.  No
    message that is sent afterwards reaches a peer, however many there
    are, and every send reports success. *)
Theorem stream_loses_step {W} {IP : InPipes W} {OP : OutPipes W} {DX : Duplex W} {DL : DuplexLaws W} {RP : RouterPipes W}
    (w : W) (s : stream) (f : frame) (msgs : list (frame * frame)) :
  stream_reach (W := W) s -> st_more_out s = false -> fr_more f = false -> Forall (fun m => fr_more m.1 = true /\ fr_more m.2 = false) msgs ->
  exists s', stream_send_all w s (f :: concat ((fun m : frame * frame => [m.1; m.2]) <$> msgs)) = Some (w, s', SrOk :: replicate (2 * length msgs) SrOk).
Proof.
  intros Hr Hm Hf Hall. pose proof (sm_idle _ (stream_reach_inv s Hr) Hm) as Hc. cbn [stream_send_all]. rewrite stream_send_lone by done. cbn [mbind option_bind].
  destruct (stream_out_of_step w (st_set_out s None true) msgs) as (s' & E & _); [done|done| |].
  { revert Hall. apply Forall_impl. by intros m [_ H]. }
  exists s'. by rewrite E.
Qed.
