(* ===== verification/Session.v ===== *)
(** * Sessions, [session_base_t] (src/src/session_base.cpp)

    A session stands between the engine of a connection and its socket: a
    pipe to the socket, a pipe to the ZAP handler, pipes that it is leaving
    behind, and at most one engine.  It survives the loss of its engine
    when it is the side that connects, and it ends only when all of its
    pipes have.  The pipes are any [SessionPipes]; what the session asks
    of its engine, its owner, its timer and its connecters is recorded in
    the order it happens ([ss_acts]). *)

From S2P Require Import Prelude Frame Options.

(** What a session does to its pipes besides reading and writing. *)
Class SessionPipes (W : Type) := {
  sp_terminate : W -> Z -> bool -> W;   (** pipe, delay *)
  sp_hiccup : W -> Z -> W;
}.

(** Nothing but reading takes frames from a pipe, until the pipe is told
    to terminate; nothing touches another pipe. *)
Class SessionPipesLaws (W : Type) `{InPipes W} `{OutPipes W} `{SessionPipes W} := {
  sp_in_laws :: InPipesLaws W;
  sp_write_in w p f : exists w' b, op_write w p f = Some (w', b) /\ forall p', ip_queue w' p' = ip_queue w p';
  sp_rollback_in w p : exists w', op_rollback w p = Some w' /\ forall p', ip_queue w' p' = ip_queue w p';
  sp_flush_in w p : exists w', op_flush w p = Some w' /\ forall p', ip_queue w' p' = ip_queue w p';
  sp_terminate_in w p d p' : p' <> p -> ip_queue (sp_terminate w p d) p' = ip_queue w p';
  sp_hiccup_in w p p' : ip_queue (sp_hiccup w p) p' = ip_queue w p';
}.

(** What the session asks of others. *)
Inductive act :=
| a_plug | a_engine_terminate | a_restart_output | a_restart_input | a_zap_msg_available   (** its engine *)
| a_terminate                                (** [own_t::terminate] *)
| a_process_term (linger : Z)                (** [own_t::process_term] *)
| a_add_timer (ivl : Z) | a_cancel_timer     (** the linger timer *)
| a_start_connecting (wait : bool)
| a_term_endpoint                            (** [send_term_endpoint] *)
| a_bind (pipe : Z).                         (** [send_bind] *)

Record session := Session {
  ss_active : bool;
  ss_pipe : option Z;
  ss_zap_pipe : option Z;
  ss_terminating_pipes : gset Z;
  ss_incomplete_in : bool;
  ss_pending : bool;
  ss_engine : bool;                (** [_engine != NULL] *)
  ss_has_linger_timer : bool;
  ss_is_terminating : bool;        (** [own_t::_terminating] *)
  ss_acts : list act;
}.

(** The options and the address a session looks at. *)
Record session_options := SOpts {
  so_raw_socket : bool;
  so_immediate : bool;             (** [options.immediate == 1] *)
  so_reconnect_ivl : Z;
  so_resubscribes : bool;          (** the type is SUB, XSUB or DISH *)
  so_datagrams : bool;             (** the protocol is pgm, epgm, norm or udp *)
}.

Inductive error_reason := protocol_error_reason | connection_error_reason | timeout_error_reason.

Definition session_new (active : bool) : session := Session active None None ∅ false false false false false [].

Definition ss_log (s : session) (a : act) : session :=
  Session (ss_active s) (ss_pipe s) (ss_zap_pipe s) (ss_terminating_pipes s) (ss_incomplete_in s) (ss_pending s) (ss_engine s) (ss_has_linger_timer s)
    (ss_is_terminating s) (ss_acts s ++ [a]).
Definition ss_set_pipe (s : session) (p : option Z) : session :=
  Session (ss_active s) p (ss_zap_pipe s) (ss_terminating_pipes s) (ss_incomplete_in s) (ss_pending s) (ss_engine s) (ss_has_linger_timer s)
    (ss_is_terminating s) (ss_acts s).
Definition ss_set_zap (s : session) (p : option Z) : session :=
  Session (ss_active s) (ss_pipe s) p (ss_terminating_pipes s) (ss_incomplete_in s) (ss_pending s) (ss_engine s) (ss_has_linger_timer s)
    (ss_is_terminating s) (ss_acts s).
Definition ss_set_leaving (s : session) (ps : gset Z) : session :=
  Session (ss_active s) (ss_pipe s) (ss_zap_pipe s) ps (ss_incomplete_in s) (ss_pending s) (ss_engine s) (ss_has_linger_timer s)
    (ss_is_terminating s) (ss_acts s).
Definition ss_set_incomplete (s : session) (b : bool) : session :=
  Session (ss_active s) (ss_pipe s) (ss_zap_pipe s) (ss_terminating_pipes s) b (ss_pending s) (ss_engine s) (ss_has_linger_timer s)
    (ss_is_terminating s) (ss_acts s).
Definition ss_set_pending (s : session) (b : bool) : session :=
  Session (ss_active s) (ss_pipe s) (ss_zap_pipe s) (ss_terminating_pipes s) (ss_incomplete_in s) b (ss_engine s) (ss_has_linger_timer s)
    (ss_is_terminating s) (ss_acts s).
Definition ss_set_engine (s : session) (b : bool) : session :=
  Session (ss_active s) (ss_pipe s) (ss_zap_pipe s) (ss_terminating_pipes s) (ss_incomplete_in s) (ss_pending s) b (ss_has_linger_timer s)
    (ss_is_terminating s) (ss_acts s).
Definition ss_set_timer (s : session) (b : bool) : session :=
  Session (ss_active s) (ss_pipe s) (ss_zap_pipe s) (ss_terminating_pipes s) (ss_incomplete_in s) (ss_pending s) (ss_engine s) b
    (ss_is_terminating s) (ss_acts s).

(** [own_t::process_term]: from now on the session is terminating. *)
Definition ss_own_process_term (s : session) (linger : Z) : session :=
  let s := ss_log s (a_process_term linger) in
  Session (ss_active s) (ss_pipe s) (ss_zap_pipe s) (ss_terminating_pipes s) (ss_incomplete_in s) (ss_pending s) (ss_engine s) (ss_has_linger_timer s)
    true (ss_acts s).

(** [if (_has_linger_timer) { cancel_timer (linger_timer_id); _has_linger_timer = false; }] *)
Definition ss_cancel_linger (s : session) : session :=
  if ss_has_linger_timer s then ss_set_timer (ss_log s a_cancel_timer) false else s.

Definition ss_no_pipes (s : session) : bool :=
  bool_decide (ss_pipe s = None) && bool_decide (ss_zap_pipe s = None) && bool_decide (ss_terminating_pipes s = ∅).

(** The destructor: the timer is cancelled, the engine terminated. *)
Definition session_destroy (s : session) : option session :=
  zmq_assert (bool_decide (ss_pipe s = None)) ;;
  zmq_assert (bool_decide (ss_zap_pipe s = None)) ;;
  let s := ss_cancel_linger s in
  Some (if ss_engine s then ss_log s a_engine_terminate else s).

Definition session_attach_pipe (s : session) (pipe : Z) : option session :=
  zmq_assert (negb (ss_is_terminating s)) ;;
  zmq_assert (bool_decide (ss_pipe s = None)) ;;
  Some (ss_set_pipe s (Some pipe)).

Section session.
Context {W : Type} {IP : InPipes W} {OP : OutPipes W} {SP : SessionPipes W}.
Implicit Types (w : W) (s : session) (p pipe : Z) (msg f : frame) (o : session_options).

(** ** What engines call *)

(** [None] is EAGAIN. *)
Definition session_pull_msg w s : option (W * session * option frame) :=
  match ss_pipe s with
  | None => Some (w, s, None)
  | Some pipe =>
      let* (w, r) := ip_read w pipe in
      match r with
      | None => Some (w, s, None)
      | Some msg => Some (w, ss_set_incomplete s (fr_more msg), Some msg)
      end
  end.

(** Commands other than subscriptions are taken and ignored; [false] is EAGAIN. *)
Definition session_push_msg w s msg : option (W * bool) :=
  if fr_is_command msg && negb (fr_is_subscribe msg) && negb (fr_is_cancel msg) then Some (w, true)
  else match ss_pipe s with None => Some (w, false) | Some pipe => op_write w pipe msg end.

Definition session_flush w s : option W := match ss_pipe s with Some p => op_flush w p | None => Some w end.
Definition session_rollback w s : option W := match ss_pipe s with Some p => op_rollback w p | None => Some w end.

(** [while (_incomplete_in)]: the rest of a message that was read in part. *)
Fixpoint clean_loop (fuel : nat) w s : option (W * session) :=
  if ss_incomplete_in s then
    match fuel with
    | O => None
    | S fuel' =>
        let* (w, s, r) := session_pull_msg w s in
        zmq_assert (bool_decide (is_Some r)) ;;     (** errno_assert (rc == 0) *)
        clean_loop fuel' w s
    end
  else Some (w, s).

Definition clean_pipes w s : option (W * session) :=
  let* pipe := ss_pipe s in
  let* w := op_rollback w pipe in
  let* w := op_flush w pipe in
  clean_loop (S (length (ip_queue w pipe))) w s.

(** [zap_connect] makes the pipe to the handler; [Zap] says what goes through it. *)
Definition session_zap_connect s (peer : option bool) (new_pipe : Z) w : option (W * session * bool) :=
  match ss_zap_pipe s with
  | Some _ => Some (w, s, true)
  | None =>
      match peer with
      | None => Some (w, s, false)            (** ECONNREFUSED *)
      | Some recv_routing_id =>
          let s := ss_log (ss_set_zap s (Some new_pipe)) (a_bind new_pipe) in
          if recv_routing_id then
            let* (w, ok) := op_write w new_pipe (Frame type_vsm flag_routing_id []) in
            zmq_assert (ok : bool) ;;
            let* w := op_flush w new_pipe in
            Some (w, s, true)
          else Some (w, s, true)
      end
  end.

(** ** The life of the connection *)

Definition session_process_plug s : session := if ss_active s then ss_log s (a_start_connecting false) else s.

(** The pipe to the socket is made when there is none. *)
Definition make_pipe s (new_pipe : Z) : session :=
  if bool_decide (ss_pipe s = None) && negb (ss_is_terminating s) then ss_log (ss_set_pipe s (Some new_pipe)) (a_bind new_pipe) else s.

(** An engine is attached. *)
Definition session_process_attach s (new_pipe : Z) : option session :=
  let s := make_pipe s new_pipe in
  zmq_assert (negb (ss_engine s)) ;;
  Some (ss_log (ss_set_engine s true) a_plug).

(** For delayed connections the pipe is terminated, and made again later. *)
Definition session_reconnect w s o : W * session :=
  let '(w, s) :=
    match ss_pipe s with
    | Some pipe =>
        if so_immediate o && negb (so_datagrams o) then
          let w := sp_terminate (sp_hiccup w pipe) pipe false in
          (w, ss_cancel_linger (ss_set_pipe (ss_set_leaving s ({[pipe]} ∪ ss_terminating_pipes s)) None))
        else (w, s)
    | None => (w, s)
    end in
  let s := if negb (so_reconnect_ivl o =? -1) then ss_log s (a_start_connecting true) else ss_log s a_term_endpoint in
  match ss_pipe s with
  | Some pipe => if so_resubscribes o then (sp_hiccup w pipe, s) else (w, s)
  | None => (w, s)
  end.

(** [pipe->check_read ()], if there is one. *)
Definition check_read_if w (pipe : option Z) : option W :=
  match pipe with None => Some w | Some p => let* (w, _) := ip_check_read w p in Some w end.

Definition terminate_if w (pipe : option Z) : W := match pipe with None => w | Some p => sp_terminate w p false end.

(** The switch of [engine_error]: a session that connects tries again unless the peer broke the protocol. *)
Definition session_after_error w s o (reason : error_reason) : W * session :=
  let lost :=
    if ss_pending s then (terminate_if (terminate_if w (ss_pipe s)) (ss_zap_pipe s), s) else (w, ss_log s a_terminate) in
  match reason with
  | timeout_error_reason | connection_error_reason => if ss_active s then session_reconnect w s o else lost
  | protocol_error_reason => lost
  end.

(** The engine is gone; what was half done is removed from the pipe. *)
Definition session_engine_error w s o (reason : error_reason) : option (W * session) :=
  let s := ss_set_engine s false in
  let* (w, s) := match ss_pipe s with Some _ => clean_pipes w s | None => Some (w, s) end in
  let '(w, s) := session_after_error w s o reason in
  let* w := check_read_if w (ss_pipe s) in
  let* w := check_read_if w (ss_zap_pipe s) in
  Some (w, s).

(** ** Events of the pipes *)

Definition session_knows s pipe : bool :=
  bool_decide (ss_pipe s = Some pipe) || bool_decide (ss_zap_pipe s = Some pipe) || bool_decide (pipe ∈ ss_terminating_pipes s).

(** The session without one of its pipes. *)
Definition without_pipe s pipe : session :=
  if bool_decide (ss_pipe s = Some pipe) then ss_cancel_linger (ss_set_pipe s None)
  else if bool_decide (ss_zap_pipe s = Some pipe) then ss_set_zap s None
  else ss_set_leaving s (ss_terminating_pipes s ∖ {[pipe]}).

(** A raw connection ends with its pipe. *)
Definition end_raw s o : session :=
  if negb (ss_is_terminating s) && so_raw_socket o then
    ss_log (if ss_engine s then ss_set_engine (ss_log s a_engine_terminate) false else s) a_terminate
  else s.

Definition session_pipe_terminated s o pipe : option session :=
  zmq_assert (session_knows s pipe) ;;
  let s := end_raw (without_pipe s pipe) o in
  Some (if ss_pending s && ss_no_pipes s then ss_own_process_term (ss_set_pending s false) 0 else s).

(** Without an engine the pipe to the socket is looked at, whichever pipe
    was activated; [None] also when there is no such pipe. *)
Definition session_read_activated w s pipe : option (W * session) :=
  if negb (bool_decide (ss_pipe s = Some pipe)) && negb (bool_decide (ss_zap_pipe s = Some pipe)) then
    zmq_assert (bool_decide (pipe ∈ ss_terminating_pipes s)) ;;
    Some (w, s)
  else if negb (ss_engine s) then
    let* p := ss_pipe s in
    let* (w, _) := ip_check_read w p in
    Some (w, s)
  else Some (w, ss_log s (if bool_decide (ss_pipe s = Some pipe) then a_restart_output else a_zap_msg_available)).

Definition session_write_activated s pipe : option session :=
  if negb (bool_decide (ss_pipe s = Some pipe)) then
    zmq_assert (bool_decide (pipe ∈ ss_terminating_pipes s)) ;;
    Some s
  else Some (if ss_engine s then ss_log s a_restart_input else s).

(** ** The end *)

Definition session_process_term w s (linger : Z) : option (W * session) :=
  zmq_assert (negb (ss_pending s)) ;;
  if ss_no_pipes s then Some (w, ss_own_process_term s 0)
  else
    let s := ss_set_pending s true in
    let* (w, s) :=
      match ss_pipe s with
      | None => Some (w, s)
      | Some pipe =>
          let* s :=
            if 0 <? linger then
              zmq_assert (negb (ss_has_linger_timer s)) ;;
              Some (ss_set_timer (ss_log s (a_add_timer linger)) true)
            else Some s in
          let w := sp_terminate w pipe (negb (linger =? 0)) in
          let* w := if negb (ss_engine s) then check_read_if w (Some pipe) else Some w in
          Some (w, s)
      end in
    Some (terminate_if w (ss_zap_pipe s), s).

(** The linger period expired: the pipe is to terminate although there may be messages in it. *)
Definition session_timer_event w s : option (W * session) :=
  let s := ss_set_timer s false in
  let* pipe := ss_pipe s in
  Some (sp_terminate w pipe false, s).

End session.
