(* ===== verification/SessionProps.v ===== *)
(** * The life of a session (src/src/session_base.cpp)

    The states a session reaches by the commands of its owner, the calls
    of its engine and the events of its pipes, in any order and over pipes
    in any state. *)

From S2P Require Import Prelude Frame Duplex Session.

Section props.
Context {W : Type} {IP : InPipes W} {OP : OutPipes W} {SP : SessionPipes W} {SL : SessionPipesLaws W}.
Implicit Types (w : W) (s : session) (p pipe : Z) (o : session_options).

(** The pipes of a session. *)
Definition pipes_of s : gset Z := option_to_set (ss_pipe s) ∪ option_to_set (ss_zap_pipe s) ∪ ss_terminating_pipes s.

(** ** Reachable states *)

(** Engines are attached one at a time, pipes are new when they are made.
    A pipe the session did not ask to terminate ends with a delimiter,
    which follows whole messages: it is not in the middle of one. *)
Inductive session_step o : session -> session -> Prop :=
| ss_attach_pipe s p s' : p ∉ pipes_of s -> session_attach_pipe s p = Some s' -> session_step o s s'
| ss_plug s : session_step o s (session_process_plug s)
| ss_attach s p s' : p ∉ pipes_of s -> session_process_attach s p = Some s' -> session_step o s s'
| ss_pull w s w' s' r : ss_engine s = true -> session_pull_msg w s = Some (w', s', r) -> session_step o s s'
| ss_zap w s peer p w' s' b : ss_engine s = true -> p ∉ pipes_of s -> session_zap_connect s peer p w = Some (w', s', b) -> session_step o s s'
| ss_error w s reason w' s' : ss_engine s = true -> session_engine_error w s o reason = Some (w', s') -> session_step o s s'
| ss_terminated s p s' : p ∈ pipes_of s -> (ss_pipe s = Some p -> ss_incomplete_in s = false \/ ss_pending s = true) ->
    session_pipe_terminated s o p = Some s' -> session_step o s s'
| ss_read w s p w' s' : p ∈ pipes_of s -> session_read_activated w s p = Some (w', s') -> session_step o s s'
| ss_write s p s' : session_write_activated s p = Some s' -> session_step o s s'
| ss_term w s linger w' s' : ss_is_terminating s = false -> session_process_term w s linger = Some (w', s') -> session_step o s s'
| ss_timer w s w' s' : ss_has_linger_timer s = true -> session_timer_event w s = Some (w', s') -> session_step o s s'.

Inductive session_reach o : session -> Prop :=
| sr_new active : session_reach o (session_new active)
| sr_step s s' : session_reach o s -> session_step o s s' -> session_reach o s'.

(** ** The invariant *)

Definition is_process_term (a : act) : Prop := match a with a_process_term _ => True | _ => False end.

#[local] Instance is_process_term_dec a : Decision (is_process_term a).
Proof. destruct a; apply _. Defined.

(** How often [own_t::process_term] was called. *)
Definition process_terms s : nat := length (base.filter is_process_term (ss_acts s)).

Record session_base s : Prop := {
  sv_distinct p : ss_pipe s = Some p -> ss_zap_pipe s <> Some p /\ p ∉ ss_terminating_pipes s;
  sv_zap p : ss_zap_pipe s = Some p -> p ∉ ss_terminating_pipes s;
  sv_timer : ss_has_linger_timer s = true -> ss_pending s = true /\ is_Some (ss_pipe s);
  sv_pending : ss_pending s = true -> ss_is_terminating s = false;
  sv_ended : ss_is_terminating s = true -> ss_pipe s = None /\ ss_terminating_pipes s = ∅;
  sv_once : process_terms s = if ss_is_terminating s then 1%nat else 0%nat;
}.

(** A session waits to end only as long as it has pipes. *)
Definition session_inv s : Prop := session_base s /\ (ss_pending s = true -> ss_no_pipes s = false).

Lemma process_terms_log s a : process_terms (ss_log s a) = (process_terms s + if decide (is_process_term a) then 1 else 0)%nat.
Proof. unfold process_terms. cbn [ss_log ss_acts]. rewrite list.filter_app, length_app. f_equal. cbn. by case_decide. Qed.

Lemma elem_of_pipes s p : p ∈ pipes_of s <-> ss_pipe s = Some p \/ ss_zap_pipe s = Some p \/ p ∈ ss_terminating_pipes s.
Proof. unfold pipes_of. rewrite !elem_of_union, !elem_of_option_to_set. tauto. Qed.

Lemma no_pipes_spec s : ss_no_pipes s = true <-> ss_pipe s = None /\ ss_zap_pipe s = None /\ ss_terminating_pipes s = ∅.
Proof. unfold ss_no_pipes. rewrite !andb_true_iff, !bool_decide_eq_true. tauto. Qed.

Lemma no_pipes_empty s : ss_no_pipes s = true <-> pipes_of s = ∅.
Proof.
  rewrite no_pipes_spec, (elem_of_equiv_empty_L (pipes_of s)). split.
  - intros (E1 & E2 & E3) x. rewrite elem_of_pipes, E1, E2, E3. set_solver.
  - intros Hno. split_and!.
    + destruct (ss_pipe s) as [p|] eqn:E; [|done]. exfalso. apply (Hno p), elem_of_pipes. by left.
    + destruct (ss_zap_pipe s) as [p|] eqn:E; [|done]. exfalso. apply (Hno p), elem_of_pipes. right. by left.
    + apply elem_of_equiv_empty_L. intros x Hx. apply (Hno x), elem_of_pipes. by right; right.
Qed.

Lemma no_pipes_false s p : p ∈ pipes_of s -> ss_no_pipes s = false.
Proof. intros Hp. destruct (ss_no_pipes s) eqn:E; [|done]. apply no_pipes_empty in E. set_solver. Qed.

Lemma session_new_inv active : session_inv (session_new active).
Proof. split; [constructor|]; done. Qed.

(** Recording an action, and the fields the invariant does not speak of. *)
Lemma ss_log_base s a : ~ is_process_term a -> session_base s -> session_base (ss_log s a).
Proof. intros Ha [H1 H2 H3 H4 H5 H6]. constructor; try done. rewrite process_terms_log, decide_False by done. rewrite H6. cbn. lia. Qed.

Lemma ss_log_inv s a : ~ is_process_term a -> session_inv s -> session_inv (ss_log s a).
Proof. intros Ha [Hb Hp]. split; [by apply ss_log_base|done]. Qed.

Lemma ss_incomplete_inv s b : session_inv s -> session_inv (ss_set_incomplete s b).
Proof. intros [[H1 H2 H3 H4 H5 H6] Hp]. by split; [constructor|]. Qed.

Lemma ss_engine_base s b : session_base s -> session_base (ss_set_engine s b).
Proof. intros [H1 H2 H3 H4 H5 H6]. by constructor. Qed.

Lemma ss_engine_inv s b : session_inv s -> session_inv (ss_set_engine s b).
Proof. intros [Hb Hp]. split; [by apply ss_engine_base|done]. Qed.

Lemma ss_timer_off_base s : session_base s -> session_base (ss_set_timer s false).
Proof. intros [H1 H2 H3 H4 H5 H6]. by constructor. Qed.

Lemma ss_timer_off_inv s : session_inv s -> session_inv (ss_set_timer s false).
Proof. intros [Hb Hp]. split; [by apply ss_timer_off_base|done]. Qed.

Lemma ss_cancel_fields s : ss_pipe (ss_cancel_linger s) = ss_pipe s /\ ss_zap_pipe (ss_cancel_linger s) = ss_zap_pipe s /\
  ss_terminating_pipes (ss_cancel_linger s) = ss_terminating_pipes s /\ ss_pending (ss_cancel_linger s) = ss_pending s /\
  ss_is_terminating (ss_cancel_linger s) = ss_is_terminating s /\ ss_incomplete_in (ss_cancel_linger s) = ss_incomplete_in s /\
  process_terms (ss_cancel_linger s) = process_terms s /\ ss_engine (ss_cancel_linger s) = ss_engine s /\ ss_has_linger_timer (ss_cancel_linger s) = false /\
  ss_active (ss_cancel_linger s) = ss_active s.
Proof.
  unfold ss_cancel_linger. destruct (ss_has_linger_timer s) eqn:E; [|by split_and!]. split_and!; try done.
  change (process_terms (ss_set_timer (ss_log s a_cancel_timer) false)) with (process_terms (ss_log s a_cancel_timer)). rewrite process_terms_log, decide_False by (intros []). lia.
Qed.

(** A new pipe. *)
Lemma ss_new_pipe_inv s p : session_inv s -> ss_pipe s = None -> ss_is_terminating s = false -> p ∉ pipes_of s -> session_inv (ss_set_pipe s (Some p)).
Proof.
  intros [[H1 H2 H3 H4 H5 H6] _] Hn Ht Hp. rewrite elem_of_pipes in Hp. split; [constructor|]; cbn; try done.
  - intros p' [= <-]. tauto.
  - intros Hx. destruct (H3 Hx). split; [done|by eexists].
  - congruence.
Qed.

Lemma ss_new_zap_inv s p : session_inv s -> ss_zap_pipe s = None -> p ∉ pipes_of s -> session_inv (ss_set_zap s (Some p)).
Proof.
  intros [[H1 H2 H3 H4 H5 H6] _] Hn Hp. rewrite elem_of_pipes in Hp. split; [constructor|]; cbn; try done.
  - intros p' Hp'. split; [|by apply (H1 p')]. intros [= ->]. tauto.
  - intros p' [= <-]. tauto.
  - intros _. apply (no_pipes_false _ p). rewrite elem_of_pipes. right. by left.
Qed.

(** ** Cleaning the pipes *)

(** When a message was read in part, the rest of it is in the pipe. *)
Definition rest_there w s : Prop := ss_incomplete_in s = true -> exists p msg rest, ss_pipe s = Some p /\ ip_queue w p = msg ++ rest /\ is_message msg = true.

Lemma ss_incomplete_same s : ss_incomplete_in s = false -> ss_set_incomplete s false = s.
Proof. destruct s. cbn. by intros ->. Qed.

(** Pulling a message changes the mark only. *)
Lemma session_pull_spec w s : exists w' s' r, session_pull_msg w s = Some (w', s', r) /\
  match r with
  | None => s' = s /\ (forall p, ss_pipe s = Some p -> ip_queue w p = []) /\ forall p, ip_queue w' p = ip_queue w p
  | Some f => s' = ss_set_incomplete s (fr_more f) /\ exists p, ss_pipe s = Some p /\ ip_queue w p = f :: ip_queue w' p /\
      forall p', p' <> p -> ip_queue w' p' = ip_queue w p'
  end.
Proof.
  unfold session_pull_msg. destruct (ss_pipe s) as [p|] eqn:Ep; [|exists w, s, None; by split_and!].
  destruct (ip_read_ok w p) as (w' & -> & Hq). cbn [mbind option_bind]. destruct (ip_queue w p) as [|f l] eqn:E; cbn [head tail] in *.
  - exists w', s, None. split; [done|]. split_and!; [done|by intros p' [= <-]|]. intros p'. rewrite Hq. case_decide; congruence.
  - eexists w', _, (Some f). split; [done|]. split; [done|]. exists p. split; [done|]. split; [by rewrite Hq, decide_True|]. intros p' Hne. by rewrite Hq, decide_False.
Qed.

Lemma clean_loop_spec fuel : forall w s p msg rest, ss_pipe s = Some p -> ss_incomplete_in s = true -> ip_queue w p = msg ++ rest -> is_message msg = true ->
  (length msg <= fuel)%nat ->
  exists w', clean_loop fuel w s = Some (w', ss_set_incomplete s false) /\ ip_queue w' p = rest /\ forall p', p' <> p -> ip_queue w' p' = ip_queue w p'.
Proof.
  induction fuel as [|fuel IH]; intros w s p msg rest Hp Hi Hq Hmsg Hlen; [destruct msg; [done|simpl in Hlen; lia]|]. cbn [clean_loop]. rewrite Hi.
  destruct (session_pull_spec w s) as (w1 & s1 & r & -> & Hr). cbn [mbind option_bind]. destruct msg as [|g msg]; [done|].
  destruct r as [f|]; [|destruct Hr as (_ & He & _); by rewrite (He p Hp) in Hq].
  destruct Hr as (-> & p1 & Hp1 & Hq1 & Ho1). assert (p1 = p) as -> by congruence. rewrite Hq in Hq1. injection Hq1 as <- Hq1. cbn [bool_decide is_message] in *.
  rewrite bool_decide_eq_true_2 by (by eexists). destruct msg as [|h msg]; cbn [is_message app] in *.
  - apply negb_true_iff in Hmsg. rewrite Hmsg. destruct fuel; cbn [clean_loop ss_set_incomplete ss_incomplete_in]; exists w1; by split_and!.
  - apply andb_true_iff in Hmsg as [Hg Hmsg]. rewrite Hg.
    destruct (IH w1 (ss_set_incomplete s true) p (h :: msg) rest Hp eq_refl (eq_sym Hq1) Hmsg) as (w' & -> & Hr' & Ho'); [simpl in *; lia|].
    exists w'. split_and!; try done. intros p' Hne. by rewrite Ho', Ho1.
Qed.

(** Nothing of a message that was read in part stays behind. *)
Lemma clean_pipes_spec w s p : ss_pipe s = Some p -> rest_there w s -> exists w', clean_pipes w s = Some (w', ss_set_incomplete s false) /\
  (forall p', p' <> p -> ip_queue w' p' = ip_queue w p') /\
  if ss_incomplete_in s then exists msg, is_message msg = true /\ ip_queue w p = msg ++ ip_queue w' p else ip_queue w' p = ip_queue w p.
Proof.
  intros Hp Hrest. unfold clean_pipes. rewrite Hp. cbn [mbind option_bind].
  destruct (sp_rollback_in w p) as (w1 & -> & H1). cbn [mbind option_bind]. destruct (sp_flush_in w1 p) as (w2 & -> & H2). cbn [mbind option_bind].
  destruct (ss_incomplete_in s) eqn:Ei.
  - destruct (Hrest Ei) as (p' & msg & rest & Hp' & Hq & Hmsg). assert (p' = p) as -> by congruence.
    destruct (clean_loop_spec (S (length (ip_queue w2 p))) w2 s p msg rest Hp Ei) as (w' & -> & Hr & Ho); [by rewrite H2, H1|done|rewrite H2, H1, Hq, length_app; lia|].
    exists w'. split; [done|]. split; [intros p' Hne; by rewrite Ho, H2, H1|]. exists msg. split; [done|]. by rewrite Hq, Hr.
  - cbn [clean_loop]. rewrite Ei. exists w2. rewrite ss_incomplete_same by done. split; [done|]. split; intros; by rewrite H2, H1.
Qed.

(** If the rest is not there, cleaning fails its assertion. *)
Lemma clean_pipes_fails w s p : ss_pipe s = Some p -> ss_incomplete_in s = true -> ip_queue w p = [] -> clean_pipes w s = None.
Proof.
  intros Hp Hi Hq. unfold clean_pipes. rewrite Hp. cbn [mbind option_bind].
  destruct (sp_rollback_in w p) as (w1 & -> & H1). cbn [mbind option_bind]. destruct (sp_flush_in w1 p) as (w2 & -> & H2). cbn [mbind option_bind clean_loop]. rewrite Hi.
  destruct (session_pull_spec w2 s) as (w3 & s3 & r & -> & Hr). cbn [mbind option_bind]. destruct r as [f|].
  - destruct Hr as (_ & p' & Hp' & Hq' & _). assert (p' = p) as -> by congruence. rewrite H2, H1, Hq in Hq'. done.
  - by rewrite bool_decide_eq_false_2 by (by intros []).
Qed.

(** ** The operations keep the invariant *)

(** Whatever [clean_pipes] does to the pipe, the session only forgets the half-read message. *)
Lemma clean_loop_session fuel : forall w s w' s', clean_loop fuel w s = Some (w', s') -> s' = ss_set_incomplete s false.
Proof.
  induction fuel as [|fuel IH]; intros w s w' s'; cbn [clean_loop]; destruct (ss_incomplete_in s) eqn:Ei; try done;
    try (intros [= <- <-]; by rewrite ss_incomplete_same).
  destruct (session_pull_spec w s) as (w1 & s1 & r & -> & Hr). cbn [mbind option_bind]. destruct r as [f|]; [|by rewrite bool_decide_eq_false_2 by (by intros [])].
  rewrite bool_decide_eq_true_2 by (by eexists). destruct Hr as (-> & _). intros Hrun. by apply IH in Hrun as ->.
Qed.

Lemma clean_pipes_session w s w' s' : clean_pipes w s = Some (w', s') -> s' = ss_set_incomplete s false.
Proof.
  unfold clean_pipes. destruct (ss_pipe s) as [p|]; [|done]. cbn [mbind option_bind].
  destruct (op_rollback w p) as [w1|]; [|done]. cbn [mbind option_bind]. destruct (op_flush w1 p) as [w2|]; [|done]. cbn [mbind option_bind].
  apply clean_loop_session.
Qed.

(** What trying again leaves of the session. *)
Lemma reconnect_inv w s o : session_inv s -> session_inv (session_reconnect w s o).2 /\ pipes_of (session_reconnect w s o).2 = pipes_of s /\
  ss_engine (session_reconnect w s o).2 = ss_engine s /\ ss_incomplete_in (session_reconnect w s o).2 = ss_incomplete_in s /\
  ss_pending (session_reconnect w s o).2 = ss_pending s.
Proof.
  intros Hs. unfold session_reconnect.
  assert (forall w1 s1, session_inv s1 -> let s2 := (let s := if negb (so_reconnect_ivl o =? -1) then ss_log s1 (a_start_connecting true) else ss_log s1 a_term_endpoint in
      match ss_pipe s with Some pipe => if so_resubscribes o then (sp_hiccup w1 pipe, s) else (w1, s) | None => (w1, s) end).2 in
    session_inv s2 /\ pipes_of s2 = pipes_of s1 /\ ss_engine s2 = ss_engine s1 /\ ss_incomplete_in s2 = ss_incomplete_in s1 /\ ss_pending s2 = ss_pending s1) as Hend.
  { intros w1 s1 Hs1. cbv zeta. destruct (negb _); cbn [ss_log ss_pipe]; destruct (ss_pipe s1); destruct (so_resubscribes o); cbn [snd];
      (split; [apply ss_log_inv; [intros []|done]|done]). }
  destruct (ss_pipe s) as [p|] eqn:Ep; [|exact (Hend w s Hs)].
  destruct (so_immediate o && negb (so_datagrams o)); [|exact (Hend w s Hs)].
  set (s0 := ss_set_pipe (ss_set_leaving s ({[p]} ∪ ss_terminating_pipes s)) None).
  destruct (ss_cancel_fields s0) as (E1 & E2 & E3 & E4 & E5 & E6 & E7 & E8 & E9 & E10).
  assert (pipes_of (ss_cancel_linger s0) = pipes_of s) as Epipes.
  { unfold pipes_of. rewrite E1, E2, E3, Ep. subst s0. cbn. set_solver. }
  assert (session_inv (ss_cancel_linger s0)) as Hs0.
  { destruct Hs as [[H1 H2 H3 H4 H5 H6] Hp]. split.
    - constructor; rewrite ?E1, ?E2, ?E3, ?E4, ?E5, ?E7, ?E9; try done; subst s0; cbn.
      + intros p' Hz. apply not_elem_of_union. split; [|by apply H2]. rewrite elem_of_singleton. intros ->. destruct (H1 p Ep) as [Hz' _]. congruence.
      + intros Ht. destruct (H5 Ht). congruence.
    - intros _. apply (no_pipes_false _ p). rewrite Epipes, elem_of_pipes. by left. }
  destruct (Hend (sp_terminate (sp_hiccup w p) p false) _ Hs0) as (R1 & R2 & R3 & R4 & R5). cbv zeta in *.
  split_and!; [exact R1|etrans; [exact R2|exact Epipes]|etrans; [exact R3|exact E8]|etrans; [exact R4|exact E6]|etrans; [exact R5|exact E4]].
Qed.

Lemma after_error_inv w s o reason : session_inv s -> session_inv (session_after_error w s o reason).2 /\
  pipes_of (session_after_error w s o reason).2 = pipes_of s /\ ss_engine (session_after_error w s o reason).2 = ss_engine s /\
  ss_incomplete_in (session_after_error w s o reason).2 = ss_incomplete_in s /\ ss_pending (session_after_error w s o reason).2 = ss_pending s.
Proof.
  intros Hs. unfold session_after_error. pose proof (reconnect_inv w s o Hs) as Hr. destruct reason, (ss_active s), (ss_pending s) eqn:Ep; cbn [snd]; try exact Hr;
    (split_and!; [|done..]); try exact Hs; (apply ss_log_inv; [intros []|exact Hs]).
Qed.

(** What it asks for last, and the pipe it keeps. *)
Definition again o : act := if negb (so_reconnect_ivl o =? -1) then a_start_connecting true else a_term_endpoint.

Lemma ss_log_last s a : list.last (ss_acts (ss_log s a)) = Some a.
Proof. apply last_snoc. Qed.

Lemma reconnect_asks w s o : list.last (ss_acts (session_reconnect w s o).2) = Some (again o) /\
  forall p, ss_pipe (session_reconnect w s o).2 = Some p -> ip_queue (session_reconnect w s o).1 p = ip_queue w p.
Proof.
  assert (forall w1 s1, let r := (let s := if negb (so_reconnect_ivl o =? -1) then ss_log s1 (a_start_connecting true) else ss_log s1 a_term_endpoint in
      match ss_pipe s with Some pipe => if so_resubscribes o then (sp_hiccup w1 pipe, s) else (w1, s) | None => (w1, s) end) in
    list.last (ss_acts r.2) = Some (again o) /\ ss_pipe r.2 = ss_pipe s1 /\ forall p, ip_queue r.1 p = ip_queue w1 p) as Hend.
  { intros w1 s1. cbv zeta. unfold again.
    destruct (negb _); change (ss_pipe (ss_log s1 _)) with (ss_pipe s1); destruct (ss_pipe s1) eqn:E1, (so_resubscribes o); cbn [fst snd];
      (split; [apply ss_log_last|split; [exact E1|]]); intros p; try done; apply sp_hiccup_in. }
  unfold session_reconnect. destruct (ss_pipe s) as [p|] eqn:Ep; [|destruct (Hend w s) as (R1 & R2 & R3); split; [exact R1|intros; apply R3]].
  destruct (so_immediate o && negb (so_datagrams o)); [|destruct (Hend w s) as (R1 & R2 & R3); split; [exact R1|intros; apply R3]].
  set (s0 := ss_set_pipe _ None). destruct (ss_cancel_fields s0) as (E1 & _).
  destruct (Hend (sp_terminate (sp_hiccup w p) p false) (ss_cancel_linger s0)) as (R1 & R2 & R3). split; [exact R1|].
  intros p' Hp'. rewrite E1 in R2. cbv zeta in R2. cbn [ss_set_pipe ss_pipe s0] in R2. congruence.
Qed.

Lemma check_read_if_ok w (pipe : option Z) : exists w', check_read_if w pipe = Some w' /\ forall p, ip_queue w' p = ip_queue w p.
Proof. destruct pipe as [p|]; cbn; [|by exists w]. destruct (ip_check_ok w p) as (w' & -> & Hq). by exists w'. Qed.

(** What is asked of others when an engine is lost. *)
Definition asked_after_error s s' o (reason : error_reason) : Prop :=
  if ss_active s && negb (match reason with protocol_error_reason => true | _ => false end) then list.last (ss_acts s') = Some (again o)
  else if ss_pending s then ss_acts s' = ss_acts s else ss_acts s' = ss_acts s ++ [a_terminate].

Lemma engine_error_spec w s o reason : session_inv s -> rest_there w s ->
  exists w' s', session_engine_error w s o reason = Some (w', s') /\ session_inv s' /\ ss_engine s' = false /\ ss_incomplete_in s' = false /\
    ss_pending s' = ss_pending s /\ pipes_of s' = pipes_of s /\ asked_after_error s s' o reason /\
    (forall p, ss_pending s = false -> ss_pipe s = Some p -> ss_pipe s' = Some p ->
      if ss_incomplete_in s then exists msg, is_message msg = true /\ ip_queue w p = msg ++ ip_queue w' p else ip_queue w' p = ip_queue w p).
Proof.
  intros Hs Hrest. unfold session_engine_error. set (s0 := ss_set_engine s false). set (s1 := ss_set_incomplete s0 false).
  assert (exists w1, (match ss_pipe s0 with Some _ => clean_pipes w s0 | None => Some (w, s0) end) = Some (w1, s1) /\
    forall p, ss_pipe s = Some p -> (if ss_incomplete_in s then exists msg, is_message msg = true /\ ip_queue w p = msg ++ ip_queue w1 p else ip_queue w1 p = ip_queue w p)) as (w1 & -> & Hq).
  { subst s1. change (ss_pipe s0) with (ss_pipe s). destruct (ss_pipe s) as [p|] eqn:Ep.
    - destruct (clean_pipes_spec w s0 p Ep Hrest) as (w1 & -> & _ & H). exists w1. split; [done|]. intros p' [= <-]. exact H.
    - exists w. split; [|done]. rewrite ss_incomplete_same; [done|]. change (ss_incomplete_in s0) with (ss_incomplete_in s).
      destruct (ss_incomplete_in s) eqn:Ei; [|done]. destruct (Hrest Ei) as (p & _ & _ & Hp & _). congruence. }
  cbn [mbind option_bind]. assert (session_inv s1) as Hs1 by (by apply ss_incomplete_inv, ss_engine_inv).
  destruct (after_error_inv w1 s1 o reason Hs1) as (A1 & A2 & A3 & A4 & A5).
  assert (asked_after_error s (session_after_error w1 s1 o reason).2 o reason /\
    forall p, ss_pending s = false -> ss_pipe (session_after_error w1 s1 o reason).2 = Some p -> ip_queue (session_after_error w1 s1 o reason).1 p = ip_queue w1 p) as [Hask Hkeep].
  { unfold asked_after_error, session_after_error. change (ss_active s1) with (ss_active s). change (ss_pending s1) with (ss_pending s).
    destruct (reconnect_asks w1 s1 o) as [R1 R2].
    destruct reason, (ss_active s), (ss_pending s); cbn [andb negb fst snd]; split; try done; by intros; apply R2. }
  destruct (session_after_error w1 s1 o reason) as [w2 s2] eqn:E2. cbn [fst snd] in *.
  destruct (check_read_if_ok w2 (ss_pipe s2)) as (w3 & -> & H3). cbn [mbind option_bind].
  destruct (check_read_if_ok w3 (ss_zap_pipe s2)) as (w4 & -> & H4). cbn [mbind option_bind]. exists w4, s2.
  split_and!; try done. intros p Hp Hpipe Hpipe'. specialize (Hq p Hpipe). specialize (Hkeep p Hp Hpipe').
  by rewrite H4, H3, Hkeep.
Qed.

(** The loss of an engine keeps the invariant however it comes about. *)
Lemma engine_error_inv w s o reason w' s' : session_inv s -> session_engine_error w s o reason = Some (w', s') -> session_inv s'.
Proof.
  intros Hs. unfold session_engine_error. set (s0 := ss_set_engine s false).
  destruct (match ss_pipe s0 with Some _ => _ | None => _ end) as [[w1 s1]|] eqn:E; [|done]. cbn [mbind option_bind].
  assert (session_inv s1) as Hs1.
  { destruct (ss_pipe s0) as [p|]; [apply clean_pipes_session in E as ->; by apply ss_incomplete_inv, ss_engine_inv|injection E as _ <-; by apply ss_engine_inv]. }
  destruct (after_error_inv w1 s1 o reason Hs1) as (A1 & _). destruct (session_after_error w1 s1 o reason) as [w2 s2]. cbn [snd] in A1.
  destruct (check_read_if_ok w2 (ss_pipe s2)) as (w3 & -> & _). cbn [mbind option_bind].
  destruct (check_read_if_ok w3 (ss_zap_pipe s2)) as (w4 & -> & _). cbn [mbind option_bind]. by intros [= <- <-].
Qed.

(** ** The end of a pipe *)

Lemma without_pipe_spec s p : session_inv s -> p ∈ pipes_of s -> session_base (without_pipe s p) /\ pipes_of (without_pipe s p) = pipes_of s ∖ {[p]} /\
  ss_pending (without_pipe s p) = ss_pending s /\ ss_is_terminating (without_pipe s p) = ss_is_terminating s /\
  process_terms (without_pipe s p) = process_terms s /\ ss_engine (without_pipe s p) = ss_engine s.
Proof.
  intros [[H1 H2 H3 H4 H5 H6] _] Hp. rewrite elem_of_pipes in Hp. unfold without_pipe. case_bool_decide as E1; [|case_bool_decide as E2].
  - set (s0 := ss_set_pipe s None). destruct (ss_cancel_fields s0) as (F1 & F2 & F3 & F4 & F5 & F6 & F7 & F8 & F9 & F10).
    destruct (H1 p E1) as [Hz Hl]. split_and!; try done.
    + constructor; rewrite ?F1, ?F2, ?F3, ?F4, ?F5, ?F7, ?F9; done || (cbn; intros Ht; by destruct (H5 Ht)).
    + apply set_eq. intros x. rewrite elem_of_difference, !elem_of_pipes, F1, F2, F3, E1, elem_of_singleton. cbn. split.
      * intros [?|[Hx|Hx]]; [done|split; [tauto|congruence]|split; [tauto|congruence]].
      * intros [[?|[?|?]] Hne]; [congruence|tauto|tauto].
  - split_and!; try done.
    + constructor; cbn; done || (intros p' Hp'; split; [done|by apply (H1 p')]).
    + apply set_eq. intros x. rewrite elem_of_difference, !elem_of_pipes, elem_of_singleton. cbn. pose proof (H2 p E2) as Hl. split.
      * intros [Hx|[?|Hx]]; [split; [tauto|congruence]|done|split; [tauto|congruence]].
      * intros [[?|[?|?]] Hne]; [tauto|congruence|tauto].
  - assert (p ∈ ss_terminating_pipes s) as Hl by tauto. split_and!; try done.
    + constructor; cbn; try done.
      * intros p' Hp'. destruct (H1 p' Hp'). split; [done|set_solver].
      * intros p' Hp'. specialize (H2 p' Hp'). set_solver.
      * intros Ht. destruct (H5 Ht) as [? ->]. split; [done|set_solver].
    + apply set_eq. intros x. rewrite elem_of_difference, !elem_of_pipes, elem_of_singleton. cbn. rewrite elem_of_difference, elem_of_singleton. split.
      * intros [Hx|[Hx|[Hx ?]]]; (split; [tauto|congruence]).
      * tauto.
Qed.

Lemma end_raw_spec s o : session_base s -> session_base (end_raw s o) /\ pipes_of (end_raw s o) = pipes_of s /\ ss_pending (end_raw s o) = ss_pending s /\
  ss_is_terminating (end_raw s o) = ss_is_terminating s /\ ss_no_pipes (end_raw s o) = ss_no_pipes s.
Proof.
  intros Hs. unfold end_raw. destruct (negb _ && _); [|by split_and!]. destruct (ss_engine s); (split; [|by split_and!]); apply ss_log_base; try (intros []); try done.
  by apply ss_engine_base, ss_log_base; [intros []|].
Qed.

(** The session ends with its last pipe if it was told to, and not before. *)
Lemma pipe_terminated_spec s o p : session_inv s -> p ∈ pipes_of s -> exists s', session_pipe_terminated s o p = Some s' /\ session_inv s' /\
  pipes_of s' = pipes_of s ∖ {[p]} /\
  if ss_pending s && bool_decide (pipes_of s ⊆ {[p]}) then ss_pending s' = false /\ ss_is_terminating s' = true
  else ss_pending s' = ss_pending s /\ ss_is_terminating s' = ss_is_terminating s.
Proof.
  intros Hs Hp. destruct (without_pipe_spec s p Hs Hp) as (B & Hpipes & Hpend & Hterm & Honce & Heng).
  unfold session_pipe_terminated. assert (session_knows s p = true) as ->.
  { unfold session_knows. rewrite elem_of_pipes in Hp. rewrite !orb_true_iff, !bool_decide_eq_true. tauto. }
  destruct (end_raw_spec (without_pipe s p) o B) as (B2 & P2 & Q2 & T2 & N2). set (s1 := without_pipe s p) in *. set (s2 := end_raw s1 o) in *.
  assert (ss_no_pipes s2 = bool_decide (pipes_of s ⊆ {[p]})) as En.
  { rewrite N2. apply eq_true_iff_eq. rewrite no_pipes_empty, Hpipes, bool_decide_eq_true. split; [apply empty_difference_subseteq_L|apply subseteq_empty_difference_L]. }
  eexists. split; [done|]. rewrite Q2, Hpend, En. destruct (ss_pending s && bool_decide (pipes_of s ⊆ {[p]})) eqn:E.
  - apply andb_true_iff in E as [Ep Es]. rewrite Es in En. apply no_pipes_spec in En as (N1' & N2' & N3').
    destruct B2 as [H1 H2 H3 H4 H5 H6]. split; [split; [constructor|]|]; cbn; try done.
    + intros Ht. destruct (H3 Ht) as [_ [q Hq]]. congruence.
    + change (process_terms (ss_log (ss_set_pending s2 false) (a_process_term 0)) = 1%nat). rewrite process_terms_log, decide_True by done.
      change (process_terms (ss_set_pending s2 false)) with (process_terms s2). rewrite H6, T2, Hterm. destruct Hs as [Hb _]. by rewrite (sv_pending _ Hb Ep).
    + split; [|done]. rewrite <- Hpipes, <- P2. done.
  - split; [split; [done|]|].
    + intros Hx. rewrite En. rewrite Q2, Hpend in Hx. by rewrite Hx in E.
    + split; [congruence|]. split; congruence.
Qed.

(** ** The command to terminate *)

Lemma process_term_spec w s linger : session_inv s -> ss_pending s = false -> ss_is_terminating s = false ->
  exists w' s', session_process_term w s linger = Some (w', s') /\ session_inv s' /\ pipes_of s' = pipes_of s /\ ss_incomplete_in s' = ss_incomplete_in s /\
    if ss_no_pipes s then ss_pending s' = false /\ ss_is_terminating s' = true
    else ss_pending s' = true /\ ss_is_terminating s' = false /\ ss_has_linger_timer s' = (0 <? linger) && bool_decide (is_Some (ss_pipe s)).
Proof.
  intros [[H1 H2 H3 H4 H5 H6] Hno] Hp Ht. unfold session_process_term. rewrite Hp. cbn [negb].
  assert (ss_has_linger_timer s = false) as Hti by (destruct (ss_has_linger_timer s); [destruct (H3 eq_refl); congruence|done]).
  destruct (ss_no_pipes s) eqn:En.
  - apply no_pipes_spec in En as (E1 & E2 & E3). eexists w, _. split; [done|]. split; [split; [constructor|]|]; cbn; try done; try congruence.
    change (process_terms (ss_log s (a_process_term 0)) = 1%nat). rewrite process_terms_log, decide_True by done. by rewrite H6, Ht.
  - assert (session_inv (ss_set_pending s true)) as Hi by (split; [constructor; cbn; try done; rewrite Hti; done|intros _; exact En]).
    destruct (ss_pipe s) as [p|] eqn:Ep; cbn [ss_pipe ss_set_pending]; rewrite ?Ep; cbn [mbind option_bind].
    + set (s1 := ss_set_pending s true) in *.
      assert (exists s2, (if 0 <? linger then zmq_assert (negb (ss_has_linger_timer s1)) ;; Some (ss_set_timer (ss_log s1 (a_add_timer linger)) true) else Some s1) = Some s2 /\
        session_inv s2 /\ pipes_of s2 = pipes_of s /\ ss_incomplete_in s2 = ss_incomplete_in s /\ ss_pending s2 = true /\ ss_is_terminating s2 = false /\
        ss_has_linger_timer s2 = (0 <? linger)) as (s2 & -> & Hs2 & F1 & F2 & F3 & F4 & F5).
      { destruct (0 <? linger); [|by eexists; split_and!]. change (ss_has_linger_timer s1) with (ss_has_linger_timer s). rewrite Hti. cbn [negb].
        eexists. split; [done|]. split; [|by split_and!].
        destruct (ss_log_inv s1 (a_add_timer linger) ltac:(intros []) Hi) as [[G1 G2 G3 G4 G5 G6] Gn]. split; [|exact Gn].
        constructor; cbn; done. }
      cbn [mbind option_bind].
      assert (exists w2, (if negb (ss_engine s2) then check_read_if (sp_terminate w p (negb (linger =? 0))) (Some p) else Some (sp_terminate w p (negb (linger =? 0)))) = Some w2) as (w2 & ->).
      { destruct (negb (ss_engine s2)); [|by eexists]. destruct (check_read_if_ok (sp_terminate w p (negb (linger =? 0))) (Some p)) as (w2 & -> & _). by eexists. }
      cbn [mbind option_bind]. eexists _, s2. split; [done|]. split_and!; try done. rewrite F5. by rewrite andb_true_r.
    + eexists _, _. split; [done|]. split; [exact Hi|]. split_and!; try done. cbn. rewrite Hti. by rewrite andb_false_r.
Qed.

Lemma make_pipe_inv s p : session_inv s -> p ∉ pipes_of s -> session_inv (make_pipe s p).
Proof.
  intros Hs Hp. unfold make_pipe. destruct (bool_decide_reflect (ss_pipe s = None)); [|done]. destruct (ss_is_terminating s) eqn:Et; [done|]. cbn [andb negb].
  apply ss_log_inv; [intros []|by apply ss_new_pipe_inv].
Qed.

Lemma session_step_inv o s s' : session_inv s -> session_step o s s' -> session_inv s'.
Proof.
  intros Hs. destruct 1 as [s p s' Hp E|s|s p s' Hp E|w s w' s' r He E|w s peer p w' s' b He Hp E|w s reason w' s' He E|s p s' Hp Hw E|w s p w' s' Hp E|s p s' E|w s linger w' s' Ht E|w s w' s' Ht E].
  - unfold session_attach_pipe in E. destruct (ss_is_terminating s) eqn:Et; [done|]. cbn [negb] in E. destruct (bool_decide_reflect (ss_pipe s = None)); [|done].
    injection E as <-. by apply ss_new_pipe_inv.
  - unfold session_process_plug. destruct (ss_active s); [|done]. by apply ss_log_inv; [intros []|].
  - unfold session_process_attach in E. pose proof (make_pipe_inv s p Hs Hp) as Hs1. set (s1 := make_pipe s p) in *.
    destruct (ss_engine s1); [done|]. cbn [negb] in E. injection E as <-. apply ss_log_inv; [intros []|by apply ss_engine_inv].
  - destruct (session_pull_spec w s) as (w1 & s1 & r1 & E1 & Hr). rewrite E1 in E. injection E as <- <- <-.
    destruct r1; [destruct Hr as [-> _]; by apply ss_incomplete_inv|by destruct Hr as [-> _]].
  - unfold session_zap_connect in E. destruct (ss_zap_pipe s) eqn:Ez; [congruence|]. destruct peer as [recv|]; [|congruence].
    assert (session_inv (ss_log (ss_set_zap s (Some p)) (a_bind p))) as Hn by (apply ss_log_inv; [intros []|by apply ss_new_zap_inv]).
    destruct recv; [|congruence]. destruct (op_write w p _) as [[w1 [|]]|]; [|done..]. cbn [mbind option_bind] in E.
    destruct (op_flush w1 p); [|done]. cbn [mbind option_bind] in E. congruence.
  - by apply (engine_error_inv w s o reason w').
  - destruct (pipe_terminated_spec s o p Hs Hp) as (s1 & E1 & Hs1 & _). congruence.
  - unfold session_read_activated in E. destruct (negb _ && negb _).
    + destruct (bool_decide (p ∈ ss_terminating_pipes s)); [|done]. congruence.
    + destruct (negb (ss_engine s)).
      * destruct (ss_pipe s) as [q|]; [|done]. cbn [mbind option_bind] in E. destruct (ip_check_read w q) as [[w1 b]|]; [|done]. cbn [mbind option_bind] in E. congruence.
      * injection E as <- <-. apply ss_log_inv; [by case_bool_decide; intros []|done].
  - unfold session_write_activated in E. destruct (negb (bool_decide (ss_pipe s = Some p))).
    + destruct (bool_decide (p ∈ ss_terminating_pipes s)); [|done]. congruence.
    + injection E as <-. destruct (ss_engine s); [|done]. by apply ss_log_inv; [intros []|].
  - destruct (ss_pending s) eqn:Ep; [unfold session_process_term in E; by rewrite Ep in E|].
    destruct (process_term_spec w s linger Hs Ep Ht) as (w1 & s1 & E1 & Hs1 & _). congruence.
  - unfold session_timer_event in E. cbn [ss_pipe ss_set_timer] in E. destruct (ss_pipe s) as [p|]; [|done]. cbn [mbind option_bind] in E. injection E as <- <-.
    by apply ss_timer_off_inv.
Qed.

Lemma session_reach_inv o s : session_reach o s -> session_inv s.
Proof. induction 1 as [active|s s' _ IH Hstep]; [apply session_new_inv|by apply (session_step_inv o s)]. Qed.

(** The pipes end one after the other. *)
Fixpoint pipes_terminated s o (ps : list Z) : option session :=
  match ps with
  | [] => Some s
  | p :: ps => let* s := session_pipe_terminated s o p in pipes_terminated s o ps
  end.

Lemma pipes_terminated_spec o ps : forall s, session_inv s -> ss_pending s = true -> NoDup ps -> (forall p, p ∈ ps -> p ∈ pipes_of s) -> (exists p, p ∈ pipes_of s /\ p ∉ ps) ->
  exists s', pipes_terminated s o ps = Some s' /\ session_inv s' /\ ss_pending s' = true /\ pipes_of s' = pipes_of s ∖ list_to_set ps.
Proof.
  induction ps as [|p ps IH]; intros s Hs Hp Hnd Hin Hleft.
  - exists s. split_and!; try done. cbn. by rewrite difference_empty_L.
  - apply list.NoDup_cons in Hnd as [Hp' Hnd]. destruct (pipe_terminated_spec s o p Hs) as (s1 & E1 & Hs1 & P1 & Hr); [apply Hin; by left|].
    destruct Hleft as (q & Hq & Hq'). apply not_elem_of_cons in Hq' as [Hne Hq']. rewrite Hp in Hr.
    rewrite bool_decide_eq_false_2 in Hr by (intros Hsub; apply Hsub, elem_of_singleton in Hq; congruence). cbn [andb] in Hr.
    destruct (IH s1 Hs1) as (s' & E & Hs' & Hpend & Hpipes); [tauto|done| | |].
    + intros x Hx. rewrite P1, elem_of_difference, elem_of_singleton. split; [apply Hin; by right|]. intros ->. done.
    + exists q. split; [|done]. rewrite P1, elem_of_difference, elem_of_singleton. done.
    + exists s'. cbn [pipes_terminated]. rewrite E1. cbn [mbind option_bind]. split_and!; try done. rewrite Hpipes, P1. cbn. apply set_eq. intros x. set_solver.
Qed.

End props.

(** ** What a session guarantees *)

(** C11: in every reachable state no assertion of the session fails: not
    when the timer fires, when a pipe ends, when the command to terminate
    arrives, when a pipe it talks to has room again; not when a pipe has
    something to read, unless it is the pipe to the ZAP handler, the
    engine is gone and the pipe to the socket too; and not when the
    engine is lost, provided the rest of a half-read message is in the
    pipe. *)
Theorem session_safe {W} {IP : InPipes W} {OP : OutPipes W} {SP : SessionPipes W} {SL : SessionPipesLaws W}
    (o : session_options) (s : session) (w : W) (p : Z) :
  session_reach (W := W) o s ->
  (ss_has_linger_timer s = true -> is_Some (session_timer_event w s)) /\
  (p ∈ pipes_of s -> is_Some (session_pipe_terminated s o p)) /\
  (ss_pending s = false -> ss_is_terminating s = false -> forall linger, is_Some (session_process_term w s linger)) /\
  (ss_pipe s = Some p \/ p ∈ ss_terminating_pipes s -> is_Some (session_write_activated s p)) /\
  (p ∈ pipes_of s -> ss_zap_pipe s <> Some p \/ ss_engine s = true \/ is_Some (ss_pipe s) -> is_Some (session_read_activated w s p)) /\
  (rest_there w s -> forall reason, is_Some (session_engine_error w s o reason)).
Proof.
  intros Hr. pose proof (session_reach_inv o s Hr) as Hs. pose proof Hs as [Hb _]. split_and!.
  - intros Ht. destruct (sv_timer _ Hb Ht) as [_ [q Hq]]. unfold session_timer_event. cbn [ss_pipe ss_set_timer]. rewrite Hq. by eexists.
  - intros Hp. destruct (pipe_terminated_spec s o p Hs Hp) as (s' & E & _). by eexists.
  - intros Hp Ht linger. destruct (process_term_spec w s linger Hs Hp Ht) as (w' & s' & E & _). by eexists.
  - intros Hp. unfold session_write_activated. case_bool_decide as E; cbn [negb]; [by eexists|]. rewrite bool_decide_eq_true_2 by tauto. by eexists.
  - intros Hp Hok. apply elem_of_pipes in Hp. unfold session_read_activated.
    destruct (negb _ && negb _) eqn:E.
    + apply andb_true_iff in E as [E1 E2]. apply negb_true_iff, bool_decide_eq_false_1 in E1. apply negb_true_iff, bool_decide_eq_false_1 in E2.
      rewrite bool_decide_eq_true_2 by tauto. by eexists.
    + destruct (ss_engine s) eqn:Ee; cbn [negb]; [by eexists|].
      assert (is_Some (ss_pipe s)) as [q Hq].
      { destruct Hok as [Hz|[?|?]]; [|done..]. destruct Hp as [Hp|[?|Hp]]; [by eexists|done|].
        apply andb_false_iff in E. rewrite !negb_false_iff, !bool_decide_eq_true in E. destruct E as [E|E]; [by eexists|done]. }
      rewrite Hq. cbn [mbind option_bind]. destruct (ip_check_ok w q) as (w' & -> & _). by eexists.
  - intros Hrest reason. destruct (engine_error_spec w s o reason Hs Hrest) as (w' & s' & E & _). by eexists.
Qed.

(** when the engine is lost nothing of a message it had read in part
    stays behind: the next engine reads on after the end of that message.
    A session that connects tries again, or tells its socket that it gave
    up, unless the peer broke the protocol; another session asks its
    owner to be terminated, unless it already waits to end. *)
Theorem session_engine_lost {W} {IP : InPipes W} {OP : OutPipes W} {SP : SessionPipes W} {SL : SessionPipesLaws W}
    (o : session_options) (s : session) (w : W) (reason : error_reason) :
  session_reach (W := W) o s -> ss_engine s = true -> rest_there w s ->
  exists w' s', session_engine_error w s o reason = Some (w', s') /\ session_reach (W := W) o s' /\ ss_engine s' = false /\ ss_incomplete_in s' = false /\
    pipes_of s' = pipes_of s /\ asked_after_error s s' o reason /\
    forall p, ss_pending s = false -> ss_pipe s = Some p -> ss_pipe s' = Some p ->
      if ss_incomplete_in s then exists msg, is_message msg = true /\ ip_queue w p = msg ++ ip_queue w' p else ip_queue w' p = ip_queue w p.
Proof.
  intros Hr He Hrest. destruct (engine_error_spec w s o reason (session_reach_inv o s Hr) Hrest) as (w' & s' & E & _ & H1 & H2 & _ & H3 & H4 & H5).
  exists w', s'. split_and!; try done. apply (sr_step o s s' Hr). by apply (ss_error o w s reason w' s').
Qed.

(** C10: a session that is told to terminate ends when the last of its
    pipes has ended, in whatever order they do, and not before; it then
    calls its owner's part of the termination, and it does so exactly
    once.  The linger timer is not left running, and the destructor's
    assertions hold. *)
Theorem session_ends {W} {IP : InPipes W} {OP : OutPipes W} {SP : SessionPipes W} {SL : SessionPipesLaws W}
    (o : session_options) (s : session) (w : W) (linger : Z) (ps : list Z) (last_ : Z) :
  session_reach (W := W) o s -> ss_pending s = false -> ss_is_terminating s = false ->
  NoDup (ps ++ [last_]) -> (forall p, p ∈ ps ++ [last_] <-> p ∈ pipes_of s) ->
  exists w1 s1 s2 s3, session_process_term w s linger = Some (w1, s1) /\
    pipes_terminated s1 o ps = Some s2 /\ ss_pending s2 = true /\ process_terms s2 = 0%nat /\
    session_pipe_terminated s2 o last_ = Some s3 /\ ss_is_terminating s3 = true /\ process_terms s3 = 1%nat /\ pipes_of s3 = ∅ /\
    ss_has_linger_timer s3 = false /\ is_Some (session_destroy s3).
Proof.
  intros Hr Hp Ht Hnd Hall. pose proof (session_reach_inv o s Hr) as Hs.
  assert (last_ ∈ pipes_of s) as Hlast by (apply Hall, elem_of_app; right; by left).
  destruct (process_term_spec w s linger Hs Hp Ht) as (w1 & s1 & E1 & Hs1 & P1 & _ & Hres). rewrite (no_pipes_false s last_ Hlast) in Hres. destruct Hres as (Hp1 & Ht1 & _).
  apply list.NoDup_app in Hnd as (Hnd & Hdis & _). assert (last_ ∉ ps) as Hl by (intros H; apply (Hdis _ H); by left).
  destruct (pipes_terminated_spec o ps s1 Hs1 Hp1 Hnd) as (s2 & E2 & Hs2 & Hp2 & P2).
  { intros p H. rewrite P1. apply Hall, elem_of_app. by left. }
  { exists last_. by rewrite P1. }
  assert (pipes_of s2 = {[last_]}) as P3.
  { rewrite P2, P1. apply set_eq. intros x. rewrite elem_of_difference, elem_of_list_to_set, elem_of_singleton, <- Hall, elem_of_app, list_elem_of_singleton.
    split; [tauto|]. intros ->. tauto. }
  destruct (pipe_terminated_spec s2 o last_ Hs2) as (s3 & E3 & Hs3 & P4 & Hres); [rewrite P3; by apply elem_of_singleton|].
  rewrite Hp2, P3, bool_decide_eq_true_2 in Hres by done. cbn [andb] in Hres. destruct Hres as [Hp3 Ht3].
  assert (pipes_of s3 = ∅) as P5 by (rewrite P4, P3; apply difference_diag_L).
  pose proof (proj1 Hs2) as B2. pose proof (proj1 Hs3) as B3. exists w1, s1, s2, s3. split_and!; try done.
  - rewrite (sv_once _ B2). by rewrite (sv_pending _ B2 Hp2).
  - by rewrite (sv_once _ B3), Ht3.
  - destruct (ss_has_linger_timer s3) eqn:E; [|done]. destruct (sv_timer _ B3 E) as [H _]. congruence.
  - apply no_pipes_empty, no_pipes_spec in P5 as (N1 & N2 & _). unfold session_destroy. rewrite N1, N2. cbn. by eexists.
Qed.

(** ** Concrete sessions *)

(** The simple pipes of [Duplex]: a pipe that is told to terminate gives no more frames. *)
#[export] Instance dpipes_session : SessionPipes dpipes := {
  sp_terminate w p _ := DPipes (<[p := []]> (dp_in w)) (dp_shut (dp_out w) p) (dp_closing w);
  sp_hiccup w p := w;
}.

#[export] Instance dpipes_session_laws : SessionPipesLaws dpipes.
Proof.
  constructor; [apply dpipes_in_laws|..].
  - intros w p f. destruct (op_write_ok (W := dpipes) w p f) as (w' & E & _). exists w', (op_room w p). split; [done|]. intros p'. apply (dx_write w p f w' _ E).
  - intros w p. destruct (op_rollback_ok (W := dpipes) w p) as (w' & E & _). exists w'. split; [done|]. intros p'. apply (dx_rollback w p w' E).
  - intros w p. destruct (op_flush_ok (W := dpipes) w p) as (w' & E & _). exists w'. split; [done|]. intros p'. apply (dx_flush w p w' E).
  - intros w p d p' Hne. cbn. by rewrite lookup_insert_ne.
  - done.
Qed.

Definition example_options : session_options := SOpts false false 100 false false.

(** A session that connects, with an engine, its pipe to the socket and a pipe to the ZAP handler. *)
Definition session_example : session := Session true (Some 1) (Some 2) ∅ false false true false false [a_bind 1; a_plug; a_bind 2].

Definition example_wires : dpipes := DPipes (list_to_map [(1, [Frame type_vsm flag_more [1]; Frame type_vsm 0 [2]; Frame type_vsm 0 [3]])]) (list_to_map [(1, (9%nat, [], []))]) ∅.

Lemma session_example_reach : session_reach (W := dpipes) example_options session_example.
Proof.
  apply (sr_step _ (Session true (Some 1) None ∅ false false true false false [a_bind 1; a_plug])).
  - apply (sr_step _ (session_new true)); [constructor|]. apply (ss_attach _ _ 1); [apply not_elem_of_empty|reflexivity].
  - apply (ss_zap _ example_wires _ (Some false) 2 example_wires _ true); [reflexivity| |reflexivity]. rewrite elem_of_pipes. cbn. intros [?|[?|?]]; [congruence|done|by apply not_elem_of_empty in H].
Qed.

(** The engine reads the first of two parts. *)
Definition session_half_read : session := ss_set_incomplete session_example true.
Definition half_wires : dpipes := DPipes (<[1 := [Frame type_vsm 0 [2]; Frame type_vsm 0 [3]]]> (dp_in example_wires)) (dp_out example_wires) ∅.

Lemma session_half_read_reach : session_reach (W := dpipes) example_options session_half_read.
Proof.
  apply (sr_step _ session_example _ session_example_reach). apply (ss_pull _ example_wires _ half_wires _ (Some (Frame type_vsm flag_more [1]))); [reflexivity|].
  vm_compute. reflexivity.
Qed.

Lemma session_safe_witness : is_Some (session_pipe_terminated session_half_read example_options 2) /\
  is_Some (session_engine_error half_wires session_half_read example_options connection_error_reason).
Proof.
  destruct (session_safe example_options session_half_read half_wires 2 session_half_read_reach) as (_ & H2 & _ & _ & _ & H6). split.
  - apply H2, elem_of_pipes. right. by left.
  - apply H6. intros _. exists 1, [Frame type_vsm 0 [2]], [Frame type_vsm 0 [3]]. repeat split.
Defined.

Lemma session_engine_lost_witness : exists w' s', session_engine_error half_wires session_half_read example_options connection_error_reason = Some (w', s') /\
  ip_queue w' 1 = [Frame type_vsm 0 [3]] /\ list.last (ss_acts s') = Some (a_start_connecting true).
Proof.
  destruct (session_engine_lost example_options session_half_read half_wires connection_error_reason session_half_read_reach eq_refl) as (w' & s' & E & _ & _ & _ & _ & Ha & Hq).
  - intros _. exists 1, [Frame type_vsm 0 [2]], [Frame type_vsm 0 [3]]. repeat split.
  - exists w', s'. split; [exact E|]. split; [|exact Ha]. vm_compute in E. injection E as <- <-. reflexivity.
Defined.

Lemma session_ends_witness : exists w1 s1 s2 s3, session_process_term half_wires session_half_read 30 = Some (w1, s1) /\
  session_pipe_terminated s1 example_options 1 = Some s2 /\ session_pipe_terminated s2 example_options 2 = Some s3 /\ process_terms s2 = 0%nat /\ process_terms s3 = 1%nat.
Proof.
  destruct (session_ends example_options session_half_read half_wires 30 [1] 2 session_half_read_reach eq_refl eq_refl) as (w1 & s1 & s2 & s3 & E1 & E2 & _ & N2 & E3 & _ & N3 & _).
  - repeat constructor; rewrite ?list_elem_of_singleton; [lia|apply not_elem_of_nil].
  - intros p. rewrite elem_of_pipes, elem_of_app, !list_elem_of_singleton. cbn. split.
    + intros [->| ->]; [by left|right; by left].
    + intros [[= <-]|[[= <-]|H]]; [by left|by right|by apply not_elem_of_empty in H].
  - exists w1, s1, s2, s3. split_and!; try assumption. cbn [pipes_terminated] in E2. destruct (session_pipe_terminated s1 example_options 1); [exact E2|discriminate E2].
Defined.

(** ** Assertions that fail *)

(** The engine has read a part of a message when the session is told to
    terminate without lingering.  The pipe is told to terminate and gives
    no more frames; when the connection is lost before the pipe has ended,
    the rest of the message cannot be read, and the process ends. *)
Theorem session_lost_while_ending : exists w1 s1, session_process_term half_wires session_half_read 0 = Some (w1, s1) /\
  session_reach (W := dpipes) example_options s1 /\ ss_engine s1 = true /\ session_engine_error w1 s1 example_options connection_error_reason = None.
Proof.
  destruct (session_process_term half_wires session_half_read 0) as [[w1 s1]|] eqn:E; [|vm_compute in E; discriminate]. exists w1, s1. split; [done|].
  split; [apply (sr_step _ _ _ session_half_read_reach); by apply (ss_term _ half_wires _ 0 w1 s1)|]. vm_compute in E. injection E as <- <-. split; vm_compute; reflexivity.
Qed.

(** A session of a bound socket whose pipe the socket has ended (a second
    peer of a PAIR) and whose engine was lost while the ZAP handler was
    asked: when the answer arrives, the pipe to the socket is looked at,
    and there is none. *)
Theorem session_late_zap_reply : exists s, session_reach (W := dpipes) example_options s /\ ss_pending s = false /\ 2 ∈ pipes_of s /\
  forall w : dpipes, session_read_activated w s 2 = None.
Proof.
  exists (Session false None (Some 2) ∅ false false false false false [a_bind 1; a_plug; a_bind 2; a_terminate]). split_and!; try done.
  - set (s1 := Session false (Some 1) None ∅ false false true false false [a_bind 1; a_plug]).
    set (s2 := Session false (Some 1) (Some 2) ∅ false false true false false [a_bind 1; a_plug; a_bind 2]).
    set (s3 := Session false None (Some 2) ∅ false false true false false [a_bind 1; a_plug; a_bind 2]).
    apply (sr_step _ s3); [apply (sr_step _ s2); [apply (sr_step _ s1); [apply (sr_step _ (session_new false)); [constructor|]|]|]|].
    + apply (ss_attach _ _ 1); [apply not_elem_of_empty|reflexivity].
    + apply (ss_zap _ example_wires _ (Some false) 2 example_wires _ true); [reflexivity| |reflexivity]. rewrite elem_of_pipes. cbn. intros [?|[?|H]]; [congruence|done|by apply not_elem_of_empty in H].
    + apply (ss_terminated _ _ 1); [rewrite elem_of_pipes; by left|by left|reflexivity].
    + apply (ss_error _ example_wires _ connection_error_reason example_wires); [reflexivity|vm_compute; reflexivity].
Qed.

(** An engine that is attached to a session that is already ending can
    still connect it to the ZAP handler: the destructor then finds the
    pipe. *)
Theorem session_zap_while_ending : exists s, session_reach (W := dpipes) example_options s /\ ss_is_terminating s = true /\ session_destroy s = None.
Proof.
  exists (Session true None (Some 2) ∅ false false true false true [a_process_term 0; a_plug; a_bind 2]). split_and!; try done.
  set (s1 := Session true None None ∅ false false false false true [a_process_term 0]). set (s2 := Session true None None ∅ false false true false true [a_process_term 0; a_plug]).
  apply (sr_step _ s2); [apply (sr_step _ s1); [apply (sr_step _ (session_new true)); [constructor|]|]|].
  - apply (ss_term _ example_wires _ 0 example_wires); [reflexivity|reflexivity].
  - apply (ss_attach _ _ 2); [apply not_elem_of_empty|reflexivity].
  - apply (ss_zap _ example_wires _ (Some false) 2 example_wires _ true); [reflexivity|apply not_elem_of_empty|reflexivity].
Qed.
