(* ===== verification/Greeting.v ===== *)
(** * The greeting of ZMTP connections (src/src/zmtp_engine.cpp)

    Both sides send the header of a ZMTP/1 routing id frame, which newer
    peers recognise as a signature, and then as much of their greeting as
    what they have received allows.  What arrives decides the protocol
    version, and for ZMTP/3 the security mechanism.  Data arrive in pieces
    of any size; an engine that has to wait is called again when there is
    more.  Arming the poller and the handshake timer are left out. *)

From Stdlib Require Import String.
From S2P Require Import Prelude Wire Options Mechanism Frame Codec V1.

Definition signature_size : nat := 10.
Definition v2_greeting_size : nat := 12.
Definition v3_greeting_size : nat := 64.
Definition revision_pos : nat := 10.
Definition ZMTP_1_0 : Z := 0.
Definition ZMTP_2_0 : Z := 1.

(** The options the engine looks at; whether GSSAPI is compiled in;
    whether the session asks a ZAP handler. *)
Record greeting_options := GOpts {
  go_type : Z;
  go_mechanism : Z;
  go_routing_id : bytes;
  go_as_server : bool;
  go_zap_enabled : bool;
  go_gssapi : bool;
}.

(** [_greeting_size], what was received, and all that was put in
    [_greeting_send], written to the socket or not. *)
Record greeting := Greeting { gr_size : nat; gr_recv : bytes; gr_sent : bytes }.

(** [plug_internal]: the length and flags of the routing id message, in the long format. *)
Definition greeting_signature (o : greeting_options) : bytes :=
  255 :: put_uint64 (Z.of_nat (length (go_routing_id o)) + 1) ++ [127].

Definition greeting_new (o : greeting_options) : greeting := Greeting v2_greeting_size [] (greeting_signature o).

(** A name in 20 bytes, padded with zeros. *)
Definition padded_name (name : bytes) : bytes := name ++ replicate (20 - length name) 0.

Definition null_name : bytes := Eval vm_compute in ascii_bytes "NULL".
Definition plain_name : bytes := Eval vm_compute in ascii_bytes "PLAIN".
Definition gssapi_name : bytes := Eval vm_compute in ascii_bytes "GSSAPI".
Definition curve_name : bytes := Eval vm_compute in ascii_bytes "CURVE".

(** [None] when the assertion on the mechanism fails. *)
Definition mechanism_field (mechanism : Z) : option bytes :=
  if mechanism =? ZMQ_NULL then Some (padded_name null_name)
  else if mechanism =? ZMQ_PLAIN then Some (padded_name plain_name)
  else if mechanism =? ZMQ_GSSAPI then Some (padded_name gssapi_name)
  else if mechanism =? ZMQ_CURVE then Some (padded_name curve_name)
  else None.

Definition is_old_revision (revision : Z) : bool := (revision =? ZMTP_1_0) || (revision =? ZMTP_2_0).

Definition receive_greeting_versioned (o : greeting_options) (g : greeting) : option greeting :=
  (** the major version number *)
  let g := if (length (gr_sent g) =? signature_size)%nat then Greeting (gr_size g) (gr_recv g) (gr_sent g ++ [3]) else g in
  if (signature_size <? length (gr_recv g))%nat && (length (gr_sent g) =? signature_size + 1)%nat then
    let* revision := gr_recv g !! revision_pos in
    if is_old_revision revision then Some (Greeting (gr_size g) (gr_recv g) (gr_sent g ++ [u8 (go_type o)]))
    else
      let* name := mechanism_field (go_mechanism o) in
      Some (Greeting v3_greeting_size (gr_recv g) (gr_sent g ++ [0] ++ name ++ replicate 32 0))
  else Some g.

(** What a read of the socket gives: data, or an error ([None]); when
    nothing is there, EAGAIN.  A read takes at most what is asked for. *)
Abbreviation arrivals := (list (option bytes)).

Inductive greeting_result := GrWait | GrError | GrUnversioned | GrVersioned.

Fixpoint receive_greeting (fuel : nat) (o : greeting_options) (g : greeting) (input : arrivals) : option (greeting * arrivals * greeting_result) :=
  if (gr_size g <=? length (gr_recv g))%nat then Some (g, input, GrVersioned)
  else
    match fuel, input with
    | O, _ => None
    | _, [] => Some (g, [], GrWait)
    | _, None :: input => Some (g, input, GrError)
    | S fuel', Some data :: input =>
        let n := (gr_size g - length (gr_recv g))%nat in
        let input := match drop n data with [] => input | rest => Some rest :: input end in
        let g := Greeting (gr_size g) (gr_recv g ++ take n data) (gr_sent g) in
        let* first := gr_recv g !! 0%nat in
        if negb (first =? 255) then Some (g, input, GrUnversioned)
        else if (length (gr_recv g) <? signature_size)%nat then receive_greeting fuel' o g input
        else
          let* tenth := gr_recv g !! 9%nat in
          if Z.land tenth 1 =? 0 then Some (g, input, GrUnversioned)
          else
            let* g := receive_greeting_versioned o g in
            receive_greeting fuel' o g input
    end.

(** ** The choice of the protocol *)

Inductive mechanism_choice :=
| use_null | use_plain_server | use_plain_client | use_curve_server | use_curve_client | use_gssapi_server | use_gssapi_client.

(** How the engine goes on: with the encoder and decoder of ZMTP/1 or
    ZMTP/2, or with a mechanism for ZMTP/3.  For an unversioned peer, the
    encoder that is sending the routing id, the bytes for the decoder, and
    whether a subscription is injected. *)
Inductive handshake_choice :=
| use_v1_unversioned (e : encoder v1_enc_state) (pending : bytes) (subscription_required : bool)
| use_v1 | use_v2 | use_v3 (m : mechanism_choice).

Inductive handshake_end :=
| HsWait                                      (** more data needed *)
| HsConnectionError
| HsProtocolError (mechanism_mismatch : bool)
| HsReady (c : handshake_choice).

Definition routing_id_frame (o : greeting_options) : frame :=
  Frame (if Z.of_nat (length (go_routing_id o)) <=? max_vsm_size then type_vsm else type_lmsg) 0 (go_routing_id o).

(** The header of the routing id message was sent already: the header that
    the encoder makes is thrown away. *)
Definition handshake_v1_0_unversioned (o : greeting_options) (g : greeting) : option handshake_end :=
  if go_zap_enabled o then Some (HsProtocolError false)
  else
    let header_size := if 255 <=? Z.of_nat (length (go_routing_id o)) + 1 then 10 else 2 in
    let* e := enc_load_msg v1_enc_step v1_encoder_new (routing_id_frame o) in
    let* (tmp, e) := enc_encode v1_enc_step e false header_size in
    zmq_assert (Z.of_nat (length tmp) =? header_size) ;;
    Some (HsReady (use_v1_unversioned e (gr_recv g) ((go_type o =? ZMQ_PUB) || (go_type o =? ZMQ_XPUB)))).

Definition handshake_v1_0 (o : greeting_options) : handshake_end :=
  if go_zap_enabled o then HsProtocolError false else HsReady use_v1.

Definition handshake_v2_0 (o : greeting_options) : handshake_end :=
  if go_zap_enabled o then HsProtocolError false else HsReady use_v2.

(** The mechanisms must be the same. *)
Definition handshake_v3_0 (o : greeting_options) (g : greeting) : handshake_end :=
  let named name := bool_decide (take 20 (drop 12 (gr_recv g)) = padded_name name) in
  let m := go_mechanism o in
  if (m =? ZMQ_NULL) && named null_name then HsReady (use_v3 use_null)
  else if (m =? ZMQ_PLAIN) && named plain_name then HsReady (use_v3 (if go_as_server o then use_plain_server else use_plain_client))
  else if (m =? ZMQ_CURVE) && named curve_name then HsReady (use_v3 (if go_as_server o then use_curve_server else use_curve_client))
  else if go_gssapi o && (m =? ZMQ_GSSAPI) && named gssapi_name then
    HsReady (use_v3 (if go_as_server o then use_gssapi_server else use_gssapi_client))
  else HsProtocolError true.

Definition select_handshake (o : greeting_options) (g : greeting) (unversioned : bool) : option handshake_end :=
  if unversioned then handshake_v1_0_unversioned o g
  else
    let* revision := gr_recv g !! revision_pos in
    if revision =? ZMTP_1_0 then Some (handshake_v1_0 o)
    else if revision =? ZMTP_2_0 then Some (handshake_v2_0 o)
    else Some (handshake_v3_0 o g).

(** A greeting is at most 64 bytes, and every read but the last takes one at least. *)
Definition greeting_fuel : nat := 65.

Definition engine_handshake (o : greeting_options) (g : greeting) (input : arrivals) : option (greeting * arrivals * handshake_end) :=
  zmq_assert (length (gr_recv g) <? gr_size g)%nat ;;
  let* (g, input, r) := receive_greeting greeting_fuel o g input in
  match r with
  | GrWait => Some (g, input, HsWait)
  | GrError => Some (g, input, HsConnectionError)
  | GrUnversioned => let* e := select_handshake o g true in Some (g, input, e)
  | GrVersioned => let* e := select_handshake o g false in Some (g, input, e)
  end.

(** ** What a greeting means, all of it at once *)

(** The bytes a side sends once it has received [input]. *)
Definition greeting_reply (o : greeting_options) (input : bytes) : option bytes :=
  match input !! 9%nat with
  | None => Some (greeting_signature o)
  | Some tenth =>
      if bool_decide (head input <> Some 255) || (Z.land tenth 1 =? 0) then Some (greeting_signature o)
      else
        match input !! revision_pos with
        | None => Some (greeting_signature o ++ [3%Z])
        | Some revision =>
            if is_old_revision revision then Some (greeting_signature o ++ [3; u8 (go_type o)])
            else let* name := mechanism_field (go_mechanism o) in Some (greeting_signature o ++ [3; 0] ++ name ++ replicate 32 0)
        end
  end.

(** What the bytes received so far say of the peer. *)
Definition greeting_verdict (input : bytes) : greeting_result :=
  match input with
  | [] => GrWait
  | first :: _ =>
      if negb (first =? 255) then GrUnversioned
      else
        match input !! 9%nat with
        | None => GrWait
        | Some tenth =>
            if Z.land tenth 1 =? 0 then GrUnversioned
            else
              match input !! revision_pos with
              | None => GrWait
              | Some revision =>
                  if ((if is_old_revision revision then v2_greeting_size else v3_greeting_size) <=? length input)%nat then GrVersioned else GrWait
              end
        end
  end.

(** The size of the peer's greeting, as far as it is known. *)
Definition size_for (l : bytes) : nat :=
  match l !! revision_pos with Some r => if is_old_revision r then v2_greeting_size else v3_greeting_size | None => v2_greeting_size end.

(** ** Receiving in pieces *)

(** A greeting of which part has been received and which is not decided. *)
Record gr_ok (o : greeting_options) (g : greeting) : Prop := {
  go_room : (length (gr_recv g) < gr_size g)%nat;
  go_wait : greeting_verdict (gr_recv g) = GrWait;
  go_sent : greeting_reply o (gr_recv g) = Some (gr_sent g);
  go_size : gr_size g = size_for (gr_recv g);
}.

Lemma greeting_signature_length o : length (greeting_signature o) = 10%nat.
Proof. done. Qed.

Lemma greeting_new_ok o : gr_ok o (greeting_new o).
Proof. constructor; try done. cbn. unfold v2_greeting_size. lia. Qed.

Lemma mechanism_field_length m name : mechanism_field m = Some name -> length name = 20%nat.
Proof. unfold mechanism_field. repeat case_match; by intros [= <-]. Qed.

(** The old greeting stays when more is received, once the peer is known. *)
Lemma verdict_app l m : greeting_verdict l <> GrWait -> greeting_verdict (l ++ m) = greeting_verdict l.
Proof.
  unfold greeting_verdict. destruct l as [|first l]; [done|]. cbn [app]. destruct (negb (first =? 255)); [done|].
  destruct ((first :: l) !! 9%nat) as [tenth|] eqn:E9; [|done]. rewrite app_comm_cons, (lookup_app_l_Some _ _ _ _ E9).
  destruct (Z.land tenth 1 =? 0); [done|]. destruct ((first :: l) !! revision_pos) as [r|] eqn:E10; [|done].
  rewrite (lookup_app_l_Some _ _ _ _ E10). destruct (_ <=? length (first :: l))%nat eqn:El; [|done]. intros _.
  apply Nat.leb_le in El. rewrite (proj2 (Nat.leb_le _ (length _))); [done|]. rewrite length_app. lia.
Qed.

Lemma reply_app o l m : greeting_verdict l <> GrWait -> greeting_reply o (l ++ m) = greeting_reply o l.
Proof.
  unfold greeting_verdict, greeting_reply. destruct l as [|first l]; [done|]. cbn [app head]. destruct (negb (first =? 255)) eqn:E0.
  - intros _. apply negb_true_iff, Z.eqb_neq in E0. rewrite bool_decide_eq_true_2 by congruence. cbn [orb].
    by destruct ((first :: l ++ m) !! 9%nat), ((first :: l) !! 9%nat).
  - destruct ((first :: l) !! 9%nat) as [tenth|] eqn:E9; [|done]. rewrite app_comm_cons, (lookup_app_l_Some _ _ _ _ E9).
    destruct (Z.land tenth 1 =? 0); [by rewrite !orb_true_r|]. destruct ((first :: l) !! revision_pos) as [r|] eqn:E10; [|done].
    by rewrite (lookup_app_l_Some _ _ _ _ E10).
Qed.

(** The data among what arrives. *)
Definition data_of (input : arrivals) : bytes := concat ((fun d => default [] d) <$> input).

Definition only_data (input : arrivals) : Prop := Forall (fun d : option bytes => exists c, d = Some c /\ c <> []) input.

(** A versioned peer: what is received so far and the reply agree. *)
Lemma versioned_ok o g tenth : is_Some (mechanism_field (go_mechanism o)) ->
  head (gr_recv g) = Some 255 -> gr_recv g !! 9%nat = Some tenth -> (Z.land tenth 1 =? 0) = false ->
  (gr_sent g = greeting_signature o \/ gr_sent g = greeting_signature o ++ [3%Z]) /\ gr_size g = v2_greeting_size \/
  (is_Some (gr_recv g !! revision_pos) /\ greeting_reply o (gr_recv g) = Some (gr_sent g) /\
   gr_size g = size_for (gr_recv g)) ->
  exists g', receive_greeting_versioned o g = Some g' /\ gr_recv g' = gr_recv g /\ greeting_reply o (gr_recv g) = Some (gr_sent g') /\
    gr_size g' = size_for (gr_recv g).
Proof.
  intros [name Hm] Hh H9 Ht Hcase. unfold receive_greeting_versioned, size_for in *.
  assert (greeting_reply o (gr_recv g) = match gr_recv g !! revision_pos with
    | None => Some (greeting_signature o ++ [3%Z])
    | Some r => if is_old_revision r then Some (greeting_signature o ++ [3; u8 (go_type o)]) else Some (greeting_signature o ++ [3; 0] ++ name ++ replicate 32 0) end) as Hrep.
  { unfold greeting_reply. rewrite H9, Hh, bool_decide_eq_false_2, Ht by (intros []; done). cbn [orb]. rewrite Hm. done. }
  pose proof (mechanism_field_length _ _ Hm) as Hl.
  assert (is_Some (gr_recv g !! revision_pos) <-> (signature_size < length (gr_recv g))%nat) as H10 by apply lookup_lt_is_Some.
  destruct Hcase as [[Hs Hz]|(Hsome & Hr & Hz)].
  - assert ((if (length (gr_sent g) =? signature_size)%nat then Greeting (gr_size g) (gr_recv g) (gr_sent g ++ [3]) else g) =
      Greeting v2_greeting_size (gr_recv g) (greeting_signature o ++ [3%Z])) as ->.
    { destruct g as [z r sn]. cbn in *. subst z. by destruct Hs as [-> | ->]. }
    cbn [gr_recv gr_sent gr_size]. change (length (greeting_signature o ++ [3%Z]) =? signature_size + 1)%nat with true. rewrite andb_true_r, Hrep.
    destruct (signature_size <? length (gr_recv g))%nat eqn:El; [apply Nat.ltb_lt, H10 in El as [r Hrev]|].
    + rewrite Hrev. cbn [mbind option_bind]. destruct (is_old_revision r); [|rewrite Hm; cbn [mbind option_bind]]; eexists; (split; [done|]); cbn; by rewrite <- ?app_assoc.
    + assert (gr_recv g !! revision_pos = None) as ->; [|by eexists]. apply eq_None_not_Some. intros Hx%H10. apply Nat.ltb_ge in El. lia.
  - rewrite Hr in Hrep. destruct Hsome as [r Hrev]. rewrite Hrev in *. assert (length (gr_sent g) = 12 \/ length (gr_sent g) = 64)%nat as Hlen.
    { destruct (is_old_revision r); injection Hrep as ->; [by left|right]. change (12 + length (name ++ replicate 32 0%Z) = 64)%nat. by rewrite length_app, Hl. }
    rewrite (proj2 (Nat.eqb_neq (length (gr_sent g)) signature_size)) by (unfold signature_size; lia).
    rewrite (proj2 (Nat.eqb_neq (length (gr_sent g)) (signature_size + 1))) by (unfold signature_size; lia). rewrite andb_false_r. exists g. done.
Qed.

Lemma gr_ok_sent o g : gr_ok o g -> gr_recv g !! revision_pos = None ->
  (gr_sent g = greeting_signature o \/ gr_sent g = greeting_signature o ++ [3%Z]) /\ gr_size g = v2_greeting_size.
Proof.
  intros [_ _ Hs Hz] H10. unfold size_for in Hz. rewrite H10 in Hz. split; [|done]. revert Hs. unfold greeting_reply. rewrite H10.
  destruct (gr_recv g !! 9%nat); [|by intros [= <-]; left]. case_match; intros [= <-]; auto.
Qed.

(** A peer that turns out to be unversioned has got the signature only. *)
Lemma unversioned_ok o g c : gr_ok o g -> greeting_verdict (gr_recv g ++ c) = GrUnversioned ->
  greeting_reply o (gr_recv g ++ c) = Some (gr_sent g).
Proof.
  intros [_ Hw Hs _]. assert (forall l, greeting_verdict l = GrUnversioned -> greeting_reply o l = Some (greeting_signature o)) as Hu.
  { intros l. unfold greeting_verdict, greeting_reply. destruct l as [|f l]; [done|]. cbn [head].
    destruct (negb (f =? 255)) eqn:Ef.
    - intros _. apply negb_true_iff, Z.eqb_neq in Ef. rewrite bool_decide_eq_true_2 by congruence. by case_match.
    - destruct ((f :: l) !! 9%nat) as [t|]; [|done]. destruct (Z.land t 1 =? 0); [by rewrite orb_true_r|]. by repeat case_match. }
  intros H. rewrite (Hu _ H). rewrite <- Hs. symmetry. unfold greeting_reply, greeting_verdict in *. destruct (gr_recv g) as [|f l]; [done|].
  cbn [app] in *. destruct (negb (f =? 255)); [done|]. destruct ((f :: l) !! 9%nat) as [t|] eqn:E9; [|done].
  rewrite app_comm_cons, (lookup_app_l_Some _ _ _ _ E9) in H. destruct (Z.land t 1 =? 0); [done|]. by repeat case_match.
Qed.

Lemma gr_size_max o g : gr_ok o g -> (gr_size g <= v3_greeting_size)%nat.
Proof. intros [_ _ _ ->]. unfold size_for, v3_greeting_size, v2_greeting_size. repeat case_match; lia. Qed.

(** Less than a signature: nothing is known yet. *)
Lemma short_ok o g l : gr_ok o g -> gr_recv g `prefix_of` l -> head l = Some 255 -> (length l < signature_size)%nat ->
  gr_ok o (Greeting (gr_size g) l (gr_sent g)).
Proof.
  intros Hok [c ->] Hf Hs. unfold signature_size in Hs.
  assert (forall k, (9 <= k)%nat -> (gr_recv g ++ c) !! k = None) as Hn by (intros k ?; apply lookup_ge_None; lia).
  assert (forall k, (9 <= k)%nat -> gr_recv g !! k = None) as Hn' by (intros k ?; apply lookup_ge_None; rewrite length_app in Hs; lia).
  destruct (gr_ok_sent _ _ Hok (Hn' revision_pos ltac:(unfold revision_pos; lia))) as [_ Hz]. destruct Hok as [_ _ Ho _].
  constructor; cbn [gr_recv gr_sent gr_size]; unfold greeting_verdict, greeting_reply, revision_pos in *.
  - rewrite Hz. unfold v2_greeting_size. lia.
  - destruct (gr_recv g ++ c) as [|f l]; [done|]. injection Hf as ->. by rewrite (Hn 9%nat) by lia.
  - rewrite (Hn' 9%nat) in Ho by lia. by rewrite (Hn 9%nat) by lia.
  - unfold size_for, revision_pos. by rewrite (Hn 10%nat), Hz by lia.
Qed.

Lemma size_for_mono l m : (size_for l <= size_for (l ++ m))%nat.
Proof.
  unfold size_for, v3_greeting_size, v2_greeting_size. destruct (l !! revision_pos) eqn:E; [by rewrite (lookup_app_l_Some _ _ _ _ E)|].
  repeat case_match; lia.
Qed.

(** A versioned peer: the reply goes on, until the greeting is complete. *)
Lemma versioned_read_ok o g l tenth : is_Some (mechanism_field (go_mechanism o)) -> gr_ok o g -> gr_recv g `prefix_of` l ->
  head l = Some 255 -> l !! 9%nat = Some tenth -> (Z.land tenth 1 =? 0) = false ->
  exists g2, receive_greeting_versioned o (Greeting (gr_size g) l (gr_sent g)) = Some g2 /\ gr_recv g2 = l /\ greeting_reply o l = Some (gr_sent g2) /\
    (gr_size g <= gr_size g2)%nat /\ gr_size g2 = size_for l /\
    ((gr_size g2 <= length l)%nat /\ greeting_verdict l = GrVersioned \/ gr_ok o g2).
Proof.
  intros Hm Hok [c ->] Hf Ht Et.
  destruct (versioned_ok o (Greeting (gr_size g) (gr_recv g ++ c) (gr_sent g)) tenth) as (g2 & Hv & Hr & Hp & Hz); [done..| |].
  - cbn [gr_recv gr_sent gr_size]. destruct (gr_recv g !! revision_pos) as [r|] eqn:E10; [|left; by apply gr_ok_sent].
    right. unfold size_for. rewrite (lookup_app_l_Some _ _ _ _ E10). destruct Hok as [_ _ Hs Hz]. unfold size_for in Hz. rewrite E10 in Hz. split; [done|]. split; [|done].
    rewrite <- Hs. unfold greeting_reply. rewrite (lookup_app_l_Some _ _ _ _ E10), E10.
    destruct (lookup_lt_is_Some_2 (gr_recv g) 9) as [t E9]; [apply lookup_lt_Some in E10; unfold revision_pos in E10; lia|].
    rewrite (lookup_app_l_Some _ _ _ _ E9), E9. by destruct (gr_recv g).
  - exists g2. cbn [gr_recv] in *.
    assert (gr_size g <= gr_size g2)%nat as Hmono by (rewrite Hz, (go_size _ _ Hok); apply size_for_mono).
    set (l := gr_recv g ++ c) in *. do 5 (split; [done|]).
    assert (greeting_verdict l = if (11 <=? length l)%nat && (size_for l <=? length l)%nat then GrVersioned else GrWait) as Hw.
    { unfold greeting_verdict, size_for. destruct l as [|f l']; [done|]. injection Hf as ->. cbn [negb Z.eqb Pos.eqb]. rewrite Ht, Et.
      destruct ((255 :: l') !! revision_pos) as [r|] eqn:E10.
      - apply lookup_lt_Some in E10. unfold revision_pos in E10. by rewrite (proj2 (Nat.leb_le 11 _)) by lia.
      - apply lookup_ge_None in E10. unfold revision_pos in E10. by rewrite (proj2 (Nat.leb_gt 11 _)) by lia. }
    assert (11 < size_for l)%nat as H11 by (unfold size_for, v2_greeting_size, v3_greeting_size; repeat case_match; lia).
    destruct (size_for l <=? length l)%nat eqn:Ez.
    + apply Nat.leb_le in Ez. left. rewrite Hw, Hz. by rewrite (proj2 (Nat.leb_le 11 _)) by lia.
    + apply Nat.leb_gt in Ez. rewrite andb_false_r in Hw. right. by constructor; rewrite Hr, ?Hz.
Qed.

(** However the input comes in pieces, and whatever was received before:
    the engine has read a part of what there was to read, and both what it
    says of the peer and what it has sent are those of that part.  When it
    waits it has read everything. *)
Lemma receive_spec o : is_Some (mechanism_field (go_mechanism o)) -> forall fuel g input,
  gr_ok o g -> only_data input -> (v3_greeting_size - length (gr_recv g) < fuel)%nat ->
  exists g' rest r, receive_greeting fuel o g input = Some (g', rest, r) /\ r = greeting_verdict (gr_recv g') /\
    greeting_reply o (gr_recv g') = Some (gr_sent g') /\ gr_recv g ++ data_of input = gr_recv g' ++ data_of rest /\ only_data rest /\
    (r = GrWait -> rest = [] /\ gr_ok o g') /\ (r = GrVersioned -> length (gr_recv g') = size_for (gr_recv g')).
Proof.
  intros Hm. induction fuel as [|fuel IH]; intros g input Hok Hin Hfuel; [lia|]. cbn [receive_greeting].
  pose proof (go_room _ _ Hok) as Hroom. pose proof (gr_size_max _ _ Hok) as Hmax. rewrite (proj2 (Nat.leb_gt _ _)) by done.
  destruct input as [|x input].
  - exists g, [], GrWait. rewrite app_nil_r. split; [done|]. split; [symmetry; apply Hok|]. split; [apply Hok|]. done.
  - apply list.Forall_cons_1 in Hin as [(data & -> & Hd) Hin]. set (n := (gr_size g - length (gr_recv g))%nat).
    set (rest := match drop n data with [] => input | r => Some r :: input end).
    assert (only_data rest) as Hrest.
    { unfold rest. destruct (drop n data) eqn:Ed; [done|]. constructor; [|done]. by eexists. }
    assert (data_of rest = drop n data ++ data_of input) as Hdata by (unfold rest; by destruct (drop n data)).
    assert (forall l, (l ++ take n data) ++ data_of rest = l ++ data_of (Some data :: input)) as Hsplit.
    { intros l. rewrite Hdata, <- app_assoc, (app_assoc (take n data)), take_drop. done. }
    assert (0 < length (take n data))%nat as Hgrow.
    { rewrite length_take. destruct data; [done|]. cbn [length]. lia. }
    set (l := gr_recv g ++ take n data). assert (gr_recv g `prefix_of` l) as Hpre by (by eexists).
    assert (length (gr_recv g) < length l)%nat as Hlt by (unfold l; rewrite length_app; lia).
    cbn [gr_recv]. fold l. destruct (l !! 0%nat) as [first|] eqn:E0; [|apply lookup_ge_None in E0; lia]. cbn [mbind option_bind].
    assert (greeting_verdict l = GrUnversioned -> exists g' r' r, Some (Greeting (gr_size g) l (gr_sent g), rest, GrUnversioned) = Some (g', r', r) /\ r = greeting_verdict (gr_recv g') /\
    greeting_reply o (gr_recv g') = Some (gr_sent g') /\ gr_recv g ++ data_of (Some data :: input) = gr_recv g' ++ data_of r' /\ only_data r' /\ (r = GrWait -> r' = [] /\ gr_ok o g') /\
       (r = GrVersioned -> length (gr_recv g') = size_for (gr_recv g'))) as Hun.
    { intros Hu. exists (Greeting (gr_size g) l (gr_sent g)), rest, GrUnversioned. split; [done|]. split; [done|]. split; [by apply (unversioned_ok o g (take n data))|].
      split; [symmetry; apply Hsplit|done]. }
    assert (head l = Some first) as Hh by (by destruct l). rewrite <- (Hsplit (gr_recv g)). fold l.
    destruct (negb (first =? 255)) eqn:Ef.
    { rewrite <- (Hsplit (gr_recv g)) in Hun. apply Hun. unfold greeting_verdict. destruct l; [done|]. injection E0 as ->. by rewrite Ef. }
    apply negb_false_iff, Z.eqb_eq in Ef as ->. destruct (length l <? signature_size)%nat eqn:Es.
    { apply Nat.ltb_lt in Es. apply (IH (Greeting (gr_size g) l (gr_sent g))); [by apply short_ok|done|cbn [gr_recv]; lia]. }
    apply Nat.ltb_ge in Es. destruct (lookup_lt_is_Some_2 l 9) as [tenth Ht]; [unfold signature_size in Es; lia|].
    rewrite Ht. cbn [mbind option_bind]. destruct (Z.land tenth 1 =? 0) eqn:Et.
    { rewrite <- (Hsplit (gr_recv g)) in Hun. apply Hun. unfold greeting_verdict. destruct l as [|f l']; [done|]. injection Hh as ->. cbn [negb Z.eqb Pos.eqb]. by rewrite Ht, Et. }
    destruct (versioned_read_ok o g l tenth) as (g2 & Hv & Hr & Hp & Hmono & Hsz & [[Hz Hver]|Hok2]); try done; rewrite Hv; cbn [mbind option_bind].
    + exists g2, rest, GrVersioned. split; [destruct fuel; cbn [receive_greeting]; by rewrite (proj2 (Nat.leb_le _ _)) by (by rewrite Hr)|].
      rewrite Hr. do 5 (split; [done|]). intros _. rewrite <- Hsz. apply Nat.le_antisymm; [|done].
      unfold l. rewrite length_app, length_take. lia.
    + rewrite <- Hr. apply IH; [done..|]. rewrite Hr. lia.
Qed.

(** ** One engine, called whenever there is more *)

Fixpoint handshakes (o : greeting_options) (g : greeting) (turns : list arrivals) : option (greeting * arrivals * handshake_end) :=
  match turns with
  | [] => Some (g, [], HsWait)
  | input :: turns =>
      let* (g, rest, e) := engine_handshake o g input in
      match e with HsWait => handshakes o g turns | _ => Some (g, rest ++ concat turns, e) end
  end.

Lemma data_of_app a b : data_of (a ++ b) = data_of a ++ data_of b.
Proof. unfold data_of. by rewrite fmap_app, concat_app. Qed.

(** The assertion holds: the encoder's header has the size that is thrown
    away, and what is left in it is the routing id. *)
Lemma unversioned_ready o g : handshake_v1_0_unversioned o g =
  Some (if go_zap_enabled o then HsProtocolError false
        else HsReady (use_v1_unversioned (Encoder [] V1E_size_ready false (Some (routing_id_frame o))) (gr_recv g)
               ((go_type o =? ZMQ_PUB) || (go_type o =? ZMQ_XPUB)))).
Proof.
  unfold handshake_v1_0_unversioned. destruct (go_zap_enabled o); [done|].
  unfold enc_load_msg, enc_encode, enc_step. cbn [v1_encoder_new en_msg en_next en_write en_new_msg v1_enc_step routing_id_frame fr_body].
  set (size := Z.of_nat (length (go_routing_id o)) + 1).
  destruct (Z.ltb_spec size 255); [rewrite (proj2 (Z.leb_gt _ _)) by done|rewrite (proj2 (Z.leb_le _ _)) by lia]; done.
Qed.

Lemma select_versioned o g : is_Some (gr_recv g !! revision_pos) -> exists e, select_handshake o g false = Some e /\ e <> HsWait.
Proof.
  intros [r Hr]. unfold select_handshake, handshake_v1_0, handshake_v2_0, handshake_v3_0. rewrite Hr. cbn [mbind option_bind].
  repeat case_match; by eexists.
Qed.

(** [engine_handshake] decides, and never fails but on the mechanism. *)
Lemma handshake_spec o g input : is_Some (mechanism_field (go_mechanism o)) -> gr_ok o g -> only_data input ->
  exists g' rest e, engine_handshake o g input = Some (g', rest, e) /\ gr_recv g ++ data_of input = gr_recv g' ++ data_of rest /\ only_data rest /\
    greeting_reply o (gr_recv g') = Some (gr_sent g') /\
    match greeting_verdict (gr_recv g') with
    | GrWait => e = HsWait /\ rest = [] /\ gr_ok o g'
    | GrUnversioned => select_handshake o g' true = Some e /\ e <> HsWait
    | _ => length (gr_recv g') = size_for (gr_recv g') /\ select_handshake o g' false = Some e /\ e <> HsWait
    end.
Proof.
  intros Hm Hok Hin. unfold engine_handshake. rewrite (proj2 (Nat.ltb_lt _ _)) by apply (go_room _ _ Hok).
  destruct (receive_spec o Hm greeting_fuel g input) as (g' & rest & r & -> & -> & Hs & Hd & Ho & Hw & Hv); [done..|unfold v3_greeting_size, greeting_fuel; lia|].
  cbn [mbind option_bind]. destruct (greeting_verdict (gr_recv g')) eqn:Ev.
  - exists g', rest, HsWait. rewrite Ev. by destruct (Hw eq_refl).
  - by unfold greeting_verdict in Ev; repeat case_match.
  - unfold select_handshake. rewrite unversioned_ready. cbn [mbind option_bind]. eexists g', rest, _. split; [done|].
    rewrite Ev, unversioned_ready. do 4 (split; [done|]). by destruct (go_zap_enabled o).
  - specialize (Hv eq_refl). destruct (select_versioned o g') as (e & He & Hne).
    { apply lookup_lt_is_Some. rewrite Hv. unfold size_for, v2_greeting_size, v3_greeting_size, revision_pos. repeat case_match; lia. }
    exists g', rest, e. rewrite Ev, He. done.
Qed.

Lemma size_for_decided l m : greeting_verdict l = GrVersioned -> size_for (l ++ m) = size_for l.
Proof.
  unfold greeting_verdict, size_for. destruct l as [|f l]; [done|]. destruct (negb _); [done|].
  destruct ((f :: l) !! 9%nat); [|done]. destruct (Z.land _ 1 =? 0); [done|]. destruct ((f :: l) !! revision_pos) as [r|] eqn:E; [|done].
  by rewrite (lookup_app_l_Some _ _ _ _ E).
Qed.

Lemma handshakes_spec o turns : is_Some (mechanism_field (go_mechanism o)) -> forall g, gr_ok o g -> Forall only_data turns ->
  let input := gr_recv g ++ data_of (concat turns) in
  exists g' rest e, handshakes o g turns = Some (g', rest, e) /\ gr_recv g' ++ data_of rest = input /\ greeting_reply o input = Some (gr_sent g') /\
    match greeting_verdict input with
    | GrWait => e = HsWait /\ rest = []
    | GrUnversioned => select_handshake o g' true = Some e /\ e <> HsWait
    | _ => gr_recv g' = take (size_for input) input /\ select_handshake o g' false = Some e /\ e <> HsWait
    end.
Proof.
  intros Hm. induction turns as [|t turns IH]; intros g Hok Ht input; cbn [handshakes concat] in *.
  - exists g, [], HsWait. assert (input = gr_recv g) as Hi by apply app_nil_r. rewrite Hi, (go_wait _ _ Hok). split; [done|].
    split; [apply app_nil_r|]. split; [apply Hok|done].
  - apply list.Forall_cons_1 in Ht as [Hd Ht]. destruct (handshake_spec o g t Hm Hok Hd) as (g' & rest & e & -> & Hrecv & Hrest & Hs & He).
    cbn [mbind option_bind]. assert (input = gr_recv g' ++ data_of (rest ++ concat turns)) as Hinput.
    { unfold input. by rewrite !data_of_app, !app_assoc, Hrecv. }
    destruct (greeting_verdict (gr_recv g')) eqn:Ev.
    + destruct He as (-> & -> & Hok'). destruct (IH g' Hok' Ht) as (g2 & rest' & e & -> & H1 & H2 & H3).
      exists g2, rest', e. rewrite Hinput. done.
    + by unfold greeting_verdict in Ev; repeat case_match.
    + exists g', (rest ++ concat turns), e. destruct He as [He Hne]. rewrite Hinput, verdict_app, reply_app, Ev by (by rewrite Ev).
      split; [by destruct e|]. done.
    + exists g', (rest ++ concat turns), e. destruct He as (Hl & He & Hne). rewrite Hinput, verdict_app, reply_app, Ev by (by rewrite Ev).
      split; [by destruct e|]. do 2 (split; [done|]). rewrite size_for_decided, <- Hl, take_app_length by done. done.
Qed.

(** C29: A greeting may arrive in pieces of any size, over any number of
    turns of the I/O loop: what the engine has sent, and whether it waits,
    takes the peer for a ZMTP/1 peer without a version or goes on to a
    handshake, depend on the bytes only.  No assertion fails; a versioned
    greeting is read to its last byte and no further; every other byte
    that came is still there for the decoder. *)
Theorem greeting_chunks (o : greeting_options) (turns : list arrivals) :
  is_Some (mechanism_field (go_mechanism o)) -> Forall only_data turns ->
  let input := data_of (concat turns) in
  exists g rest e, handshakes o (greeting_new o) turns = Some (g, rest, e) /\ gr_recv g ++ data_of rest = input /\
    greeting_reply o input = Some (gr_sent g) /\
    match greeting_verdict input with
    | GrWait => e = HsWait /\ rest = []
    | GrUnversioned => select_handshake o g true = Some e /\ e <> HsWait
    | _ => gr_recv g = take (size_for input) input /\ select_handshake o g false = Some e /\ e <> HsWait
    end.
Proof. intros Hm Ht input. exact (handshakes_spec o turns Hm _ (greeting_new_ok o) Ht). Qed.

Definition greeting_example : greeting_options := GOpts 5 ZMQ_PLAIN [65; 66] true false false.

(** A ZMTP/2 peer, a few bytes at a time, and the start of its first message. *)
Definition chunks_example : list arrivals :=
  [[Some [255; 0; 0]; Some [0; 0; 0; 0; 0; 1]]; []; [Some [127; 1; 5; 0]; Some [2; 7; 8]]].

Lemma greeting_chunks_witness :
  exists g rest e, handshakes greeting_example (greeting_new greeting_example) chunks_example = Some (g, rest, e) /\
    gr_recv g = [255; 0; 0; 0; 0; 0; 0; 0; 1; 127; 1; 5] /\ data_of rest = [0; 2; 7; 8] /\ e = HsReady use_v2 /\
    gr_sent g = [255; 0; 0; 0; 0; 0; 0; 0; 3; 127; 3; 5].
Proof.
  destruct (greeting_chunks greeting_example chunks_example) as (g & rest & e & H1 & H2 & H3 & H4 & H5 & H6).
  - by eexists.
  - repeat constructor; by eexists.
  - exists g, rest, e. split; [exact H1|]. vm_compute in H1. by simplify_eq.
Defined.

(** ** Two of these engines on a connection *)

(** The whole greeting of a side. *)
Definition greeting_full (o : greeting_options) : bytes :=
  greeting_signature o ++ [3; 0] ++ default [] (mechanism_field (go_mechanism o)) ++ replicate 32 0.

Definition mechanism_of (o : greeting_options) : mechanism_choice :=
  if go_mechanism o =? ZMQ_NULL then use_null
  else if go_mechanism o =? ZMQ_PLAIN then (if go_as_server o then use_plain_server else use_plain_client)
  else if go_mechanism o =? ZMQ_CURVE then (if go_as_server o then use_curve_server else use_curve_client)
  else (if go_as_server o then use_gssapi_server else use_gssapi_client).

(** The same mechanism at both ends, and one that is compiled in. *)
Definition greeting_outcome (o peer : greeting_options) : handshake_end :=
  if (go_mechanism o =? go_mechanism peer) && (negb (go_mechanism o =? ZMQ_GSSAPI) || go_gssapi o)
  then HsReady (use_v3 (mechanism_of o)) else HsProtocolError true.

Record peers := Peers { pe_a : greeting; pe_a_end : handshake_end; pe_b : greeting; pe_b_end : handshake_end }.

Definition peers_new (oa ob : greeting_options) : peers := Peers (greeting_new oa) HsWait (greeting_new ob) HsWait.

(** Of what one side has sent and the other not received, some bytes arrive. *)
Inductive peers_step (oa ob : greeting_options) : peers -> peers -> Prop :=
| deliver_to_a s n data g rest e :
    pe_a_end s = HsWait -> data = take n (drop (length (gr_recv (pe_a s))) (gr_sent (pe_b s))) -> data <> [] ->
    engine_handshake oa (pe_a s) [Some data] = Some (g, rest, e) ->
    peers_step oa ob s (Peers g e (pe_b s) (pe_b_end s))
| deliver_to_b s n data g rest e :
    pe_b_end s = HsWait -> data = take n (drop (length (gr_recv (pe_b s))) (gr_sent (pe_a s))) -> data <> [] ->
    engine_handshake ob (pe_b s) [Some data] = Some (g, rest, e) ->
    peers_step oa ob s (Peers (pe_a s) (pe_a_end s) g e).

Lemma greeting_full_length o : is_Some (mechanism_field (go_mechanism o)) -> length (greeting_full o) = 64%nat.
Proof.
  intros [name Hn]. unfold greeting_full. rewrite Hn. change (12 + length (name ++ replicate 32 0%Z) = 64)%nat.
  by rewrite length_app, (mechanism_field_length _ _ Hn).
Qed.

(** What a side answers to the beginning of the other's greeting. *)
Definition sent_after (n : nat) : nat := if (n <? 10)%nat then 10 else if (n =? 10)%nat then 11 else 64.

Lemma reply_full o peer l : is_Some (mechanism_field (go_mechanism o)) -> l `prefix_of` greeting_full peer ->
  greeting_reply o l = Some (take (sent_after (length l)) (greeting_full o)).
Proof.
  intros [name Hn] [m Hl]. unfold greeting_reply, sent_after.
  destruct (l !! 9%nat) as [t|] eqn:E9.
  - pose proof (lookup_lt_Some _ _ _ E9) as H9. rewrite (proj2 (Nat.ltb_ge _ 10)) by lia.
    assert (t = 127) as ->.
    { pose proof (lookup_app_l_Some _ m _ _ E9) as H. rewrite <- Hl in H. by injection H. }
    assert (head l = Some 255) as ->.
    { destruct l; [done|]. by injection Hl as <-. }
    rewrite bool_decide_eq_false_2 by (intros []; done). change (Z.land 127 1 =? 0) with false. cbn [orb].
    destruct (l !! revision_pos) as [r|] eqn:E10.
    + pose proof (lookup_lt_Some _ _ _ E10) as H10. unfold revision_pos in H10. rewrite (proj2 (Nat.eqb_neq _ 10)) by lia.
      assert (r = 3) as ->.
      { pose proof (lookup_app_l_Some _ m _ _ E10) as H. rewrite <- Hl in H. by injection H. }
      change (is_old_revision 3) with false. cbn iota. rewrite Hn. cbn [mbind option_bind].
      rewrite take_ge by (rewrite greeting_full_length; [done|by eexists]). unfold greeting_full. by rewrite Hn.
    + apply lookup_ge_None in E10. unfold revision_pos in E10. by rewrite (proj2 (Nat.eqb_eq _ 10)) by lia.
  - apply lookup_ge_None in E9. by rewrite (proj2 (Nat.ltb_lt _ 10)) by lia.
Qed.

Lemma verdict_full peer l : is_Some (mechanism_field (go_mechanism peer)) -> l `prefix_of` greeting_full peer ->
  greeting_verdict l = if (length l <? 64)%nat then GrWait else GrVersioned.
Proof.
  intros Hp [m Hl]. unfold greeting_verdict. destruct l as [|f l]; [done|]. injection Hl as <- Hl. cbn [negb Z.eqb Pos.eqb].
  assert (greeting_full peer = (255 :: l) ++ m) as Hl' by (cbn [app]; by rewrite <- Hl).
  destruct ((255 :: l) !! 9%nat) as [t|] eqn:E9; [|apply lookup_ge_None in E9; by rewrite (proj2 (Nat.ltb_lt _ 64)) by lia].
  assert (t = 127) as ->.
  { pose proof (lookup_app_l_Some _ m _ _ E9) as H. rewrite <- Hl' in H. by injection H. }
  change (Z.land 127 1 =? 0) with false. cbn iota.
  destruct ((255 :: l) !! revision_pos) as [r|] eqn:E10; [|apply lookup_ge_None in E10; unfold revision_pos in E10; by rewrite (proj2 (Nat.ltb_lt _ 64)) by lia].
  assert (r = 3) as ->.
  { pose proof (lookup_app_l_Some _ m _ _ E10) as H. rewrite <- Hl' in H. by injection H. }
  change (is_old_revision 3) with false. cbn iota. unfold v3_greeting_size. rewrite Nat.ltb_antisym. by destruct (64 <=? _)%nat.
Qed.

Lemma outcome_full o peer g : is_Some (mechanism_field (go_mechanism o)) -> is_Some (mechanism_field (go_mechanism peer)) ->
  gr_recv g = greeting_full peer -> select_handshake o g false = Some (greeting_outcome o peer).
Proof.
  intros Hm [name Hn] Hg. unfold select_handshake. rewrite Hg. change (greeting_full peer !! revision_pos) with (Some 3).
  cbn [mbind option_bind]. change (3 =? ZMTP_1_0) with false. change (3 =? ZMTP_2_0) with false. cbn iota. f_equal.
  assert (take 20 (drop 12 (gr_recv g)) = name) as Hname.
  { rewrite Hg. unfold greeting_full. rewrite Hn. change (take 20 (name ++ replicate 32 0%Z) = name).
    by rewrite <- (mechanism_field_length _ _ Hn), take_app_length. }
  unfold handshake_v3_0, greeting_outcome, mechanism_of. rewrite Hname.
  revert Hm Hn. unfold mechanism_field. destruct (Z.eqb_spec (go_mechanism o) ZMQ_NULL) as [->|]; [|
    destruct (Z.eqb_spec (go_mechanism o) ZMQ_PLAIN) as [->|]; [|
    destruct (Z.eqb_spec (go_mechanism o) ZMQ_GSSAPI) as [->|]; [|
    destruct (Z.eqb_spec (go_mechanism o) ZMQ_CURVE) as [->|]; [|by intros []]]]]; intros _;
  (destruct (Z.eqb_spec (go_mechanism peer) ZMQ_NULL) as [->|]; [|
    destruct (Z.eqb_spec (go_mechanism peer) ZMQ_PLAIN) as [->|]; [|
    destruct (Z.eqb_spec (go_mechanism peer) ZMQ_GSSAPI) as [->|]; [|
    destruct (Z.eqb_spec (go_mechanism peer) ZMQ_CURVE) as [->|]; [|done]]]]);
  intros [= <-]; cbn; by destruct (go_gssapi o).
Qed.

(** One side, when the other is such an engine too. *)
Record side_ok (o peer : greeting_options) (g : greeting) (e : handshake_end) : Prop := {
  so_recv : gr_recv g `prefix_of` greeting_full peer;
  so_sent : gr_sent g = take (sent_after (length (gr_recv g))) (greeting_full o);
  so_end : match e with HsWait => gr_ok o g | _ => gr_recv g = greeting_full peer /\ e = greeting_outcome o peer end;
}.

Lemma side_sent_length o peer g e : is_Some (mechanism_field (go_mechanism o)) -> side_ok o peer g e ->
  length (gr_sent g) = sent_after (length (gr_recv g)).
Proof.
  intros Hm [_ -> _]. rewrite length_take, greeting_full_length by done. unfold sent_after. repeat case_match; lia.
Qed.

Lemma side_new o peer : is_Some (mechanism_field (go_mechanism o)) -> side_ok o peer (greeting_new o) HsWait.
Proof. intros Hm. constructor; [apply prefix_nil|done|apply greeting_new_ok]. Qed.

(** The next part of the other's greeting is taken as a whole. *)
Lemma side_step o peer g data : is_Some (mechanism_field (go_mechanism o)) -> is_Some (mechanism_field (go_mechanism peer)) ->
  side_ok o peer g HsWait -> data <> [] -> gr_recv g ++ data `prefix_of` greeting_full peer ->
  exists g' e, engine_handshake o g [Some data] = Some (g', [], e) /\ gr_recv g' = gr_recv g ++ data /\ side_ok o peer g' e.
Proof.
  intros Hm Hp [_ _ Hok] Hd Hpre.
  destruct (handshake_spec o g [Some data] Hm Hok) as (g' & rest & e & Hh & Hrecv & Hrest & Hs & He); [repeat constructor; by eexists|].
  change (data_of [Some data]) with (data ++ []) in Hrecv. rewrite app_nil_r in Hrecv.
  assert (gr_recv g' `prefix_of` greeting_full peer) as Hpre' by (etrans; [|exact Hpre]; rewrite Hrecv; by eexists).
  rewrite (verdict_full peer) in He by done. rewrite (reply_full o peer) in Hs by done. injection Hs as Hs.
  destruct (length (gr_recv g') <? 64)%nat eqn:El.
  - destruct He as (-> & -> & Hok'). rewrite app_nil_r in Hrecv. exists g', HsWait. do 2 (split; [done|]). by constructor.
  - apply Nat.ltb_ge in El. destruct He as (_ & He & Hne). pose proof (greeting_full_length peer Hp) as H64.
    assert (gr_recv g' = greeting_full peer) as Hfull.
    { destruct Hpre' as [m Hl]. assert (m = []) as ->; [|by rewrite app_nil_r in Hl].
      apply (f_equal length) in Hl. rewrite length_app, H64 in Hl. apply nil_length_inv. lia. }
    assert (data_of rest = []) as Hnil.
    { apply nil_length_inv. destruct Hpre as [m Hl]. apply (f_equal length) in Hl. rewrite Hrecv, !length_app, H64 in Hl. lia. }
    rewrite Hnil, app_nil_r in Hrecv. assert (rest = []) as ->.
    { destruct rest as [|x rest]; [done|]. apply list.Forall_cons_1 in Hrest as [(c & -> & Hc) _]. by destruct c. }
    rewrite (outcome_full o peer) in He by done. injection He as <-. exists g', (greeting_outcome o peer).
    do 2 (split; [done|]). constructor; [done..|]. by destruct (greeting_outcome o peer).
Qed.

Definition peers_ok (oa ob : greeting_options) (s : peers) : Prop :=
  side_ok oa ob (pe_a s) (pe_a_end s) /\ side_ok ob oa (pe_b s) (pe_b_end s) /\
  (length (gr_recv (pe_a s)) <= length (gr_sent (pe_b s)))%nat /\ (length (gr_recv (pe_b s)) <= length (gr_sent (pe_a s)))%nat.

Definition received (s : peers) : nat := length (gr_recv (pe_a s)) + length (gr_recv (pe_b s)).

(** What is left of the other side's bytes continues what was received. *)
Lemma side_next o peer g e g2 e2 n : side_ok o peer g e -> side_ok peer o g2 e2 -> (length (gr_recv g) <= length (gr_sent g2))%nat ->
  gr_recv g ++ take n (drop (length (gr_recv g)) (gr_sent g2)) `prefix_of` greeting_full peer.
Proof.
  intros [[m Hl] _ _] [_ Hs _] Hle. set (k := length (gr_recv g)) in *.
  assert (gr_recv g = take k (gr_sent g2)) as Hr.
  { rewrite Hs in Hle |- *. rewrite take_take. rewrite length_take in Hle. rewrite Nat.min_l by lia. rewrite Hl. symmetry. by apply take_app_length. }
  rewrite Hr at 1. rewrite take_take_drop, Hs. rewrite take_take. apply prefix_take.
Qed.

Lemma sent_after_mono n m : (n <= m)%nat -> (sent_after n <= sent_after m)%nat.
Proof. unfold sent_after. destruct (Nat.ltb_spec n 10), (Nat.ltb_spec m 10), (Nat.eqb_spec n 10), (Nat.eqb_spec m 10); lia. Qed.

Lemma side_take o peer g g2 e2 n g' rest e : is_Some (mechanism_field (go_mechanism o)) -> is_Some (mechanism_field (go_mechanism peer)) ->
  side_ok o peer g HsWait -> side_ok peer o g2 e2 ->
  (length (gr_recv g) <= length (gr_sent g2))%nat -> (length (gr_recv g2) <= length (gr_sent g))%nat ->
  let data := take n (drop (length (gr_recv g)) (gr_sent g2)) in
  data <> [] -> engine_handshake o g [Some data] = Some (g', rest, e) ->
  side_ok o peer g' e /\ (length (gr_recv g) < length (gr_recv g') <= length (gr_sent g2))%nat /\ (length (gr_recv g2) <= length (gr_sent g'))%nat.
Proof.
  intros Hm Hp Hok Hok2 Hle Hle2 data Hd Hh.
  destruct (side_step o peer g data Hm Hp Hok Hd) as (g1 & e1 & Hh1 & Hr & Hok1); [by eapply side_next|].
  rewrite Hh in Hh1. injection Hh1 as -> -> ->. apply (f_equal length) in Hr. rewrite length_app in Hr.
  assert (0 < length data)%nat as Hpos by (destruct data; [done|simpl; lia]).
  assert (length data <= length (gr_sent g2) - length (gr_recv g))%nat as Hmax by (unfold data; rewrite length_take, length_drop; lia).
  rewrite (side_sent_length _ _ _ _ Hm Hok) in Hle2. rewrite (side_sent_length _ _ _ _ Hm Hok1).
  pose proof (sent_after_mono (length (gr_recv g)) (length (gr_recv g1)) ltac:(lia)). split; [done|]. lia.
Qed.

Lemma peers_step_ok oa ob s s' : is_Some (mechanism_field (go_mechanism oa)) -> is_Some (mechanism_field (go_mechanism ob)) ->
  peers_ok oa ob s -> peers_step oa ob s s' -> peers_ok oa ob s' /\ (received s < received s')%nat.
Proof.
  intros Ha Hb Hs Hst. revert Hs. destruct Hst as [s n data g rest e He -> Hd Hh|s n data g rest e He -> Hd Hh]; intros (Hoa & Hob & Hla & Hlb);
    unfold peers_ok, received; cbn [pe_a pe_b pe_a_end pe_b_end].
  - rewrite He in Hoa. destruct (side_take oa ob (pe_a s) (pe_b s) (pe_b_end s) n g rest e) as (? & ? & ?); try done. split_and!; try done; lia.
  - rewrite He in Hob. destruct (side_take ob oa (pe_b s) (pe_a s) (pe_a_end s) n g rest e) as (? & ? & ?); try done. split_and!; try done; lia.
Qed.

Lemma received_max oa ob s : is_Some (mechanism_field (go_mechanism oa)) -> is_Some (mechanism_field (go_mechanism ob)) ->
  peers_ok oa ob s -> (received s <= 128)%nat.
Proof.
  intros Ha Hb ([[m Hl] _ _] & [[m' Hl'] _ _] & _). apply (f_equal length) in Hl, Hl'.
  rewrite length_app, greeting_full_length in Hl, Hl' by done. unfold received. lia.
Qed.

(** With bytes on the way to a side that waits there is a step. *)
Lemma side_can_step o peer g g2 e2 : is_Some (mechanism_field (go_mechanism o)) -> is_Some (mechanism_field (go_mechanism peer)) ->
  side_ok o peer g HsWait -> side_ok peer o g2 e2 -> (length (gr_recv g) < length (gr_sent g2))%nat ->
  exists n data r, data = take n (drop (length (gr_recv g)) (gr_sent g2)) /\ data <> [] /\ engine_handshake o g [Some data] = Some r.
Proof.
  intros Hm Hp Hok Hok2 Hlt. set (data := take 1 (drop (length (gr_recv g)) (gr_sent g2))).
  assert (data <> []) as Hd.
  { intros Hnil. assert (length data = 0%nat) as H0 by (by rewrite Hnil). unfold data in H0. rewrite length_take, length_drop in H0. lia. }
  destruct (side_step o peer g data Hm Hp Hok Hd) as (g' & e & Hh & _); [apply (side_next o peer g HsWait g2 e2); [done|done|lia]|].
  exists 1%nat, data, (g', [], e). done.
Qed.

Lemma side_done o peer g e : is_Some (mechanism_field (go_mechanism peer)) -> side_ok o peer g e -> length (gr_recv g) = 64%nat ->
  gr_recv g = greeting_full peer /\ e = greeting_outcome o peer.
Proof.
  intros Hp [Hpre _ He] Hl. destruct e; [|done..]. pose proof (go_wait _ _ He) as Hw.
  rewrite (verdict_full peer), Hl in Hw by done. done.
Qed.

(** Each has answered all of the other's answers: that is the whole greeting. *)
Lemma sent_after_fix n m : n = sent_after m -> m = sent_after n -> n = 64%nat /\ m = 64%nat.
Proof.
  unfold sent_after. destruct (Nat.ltb_spec n 10), (Nat.ltb_spec m 10), (Nat.eqb_spec n 10), (Nat.eqb_spec m 10); lia.
Qed.

Lemma side_decided o peer g e : side_ok o peer g e -> e = HsWait \/ e = greeting_outcome o peer.
Proof. intros [_ _ He]. destruct e; [by left|right; apply He..]. Qed.

(** A side with nothing more to take has all that the other has sent. *)
Lemma side_has_all o peer g e g2 e2 : is_Some (mechanism_field (go_mechanism o)) -> is_Some (mechanism_field (go_mechanism peer)) ->
  side_ok o peer g e -> side_ok peer o g2 e2 -> (length (gr_recv g) <= length (gr_sent g2))%nat ->
  (exists n data r, e = HsWait /\ data = take n (drop (length (gr_recv g)) (gr_sent g2)) /\ data <> [] /\ engine_handshake o g [Some data] = Some r) \/
  length (gr_recv g) = sent_after (length (gr_recv g2)).
Proof.
  intros Hm Hp Hok Hok2 Hle. pose proof (side_sent_length _ _ _ _ Hp Hok2) as Hs.
  destruct (decide (length (gr_recv g) < length (gr_sent g2))%nat) as [Hlt|]; [|right; lia].
  destruct (decide (length (gr_recv g) = 64%nat)) as [H64|H64]; [right; revert Hs; unfold sent_after; repeat case_match; lia|].
  assert (e = HsWait) as ->.
  { pose proof (so_end _ _ _ _ Hok) as He. destruct e; [done|exfalso; destruct He as [Hf _]; by rewrite Hf, greeting_full_length in H64..]. }
  left. destruct (side_can_step _ _ _ _ _ Hm Hp Hok Hok2 Hlt) as (n & data & r & ? & ? & ?). by exists n, data, r.
Qed.

(** C5: Two of these engines that send their greetings to each other agree,
    whatever pieces their bytes arrive in and whoever is served first: the
    exchange takes no more steps than the 128 bytes there are, it stops only
    when each side has the whole greeting of the other, and then both have
    chosen ZMTP/3 with the mechanism they have in common, or both have
    given up because there is none.  No side decides anything else on the
    way. *)
Theorem greeting_agreement (oa ob : greeting_options) (k : nat) (s : peers) :
  is_Some (mechanism_field (go_mechanism oa)) -> is_Some (mechanism_field (go_mechanism ob)) ->
  nsteps (peers_step oa ob) k (peers_new oa ob) s ->
  (k <= 128)%nat /\
  (pe_a_end s = HsWait \/ pe_a_end s = greeting_outcome oa ob) /\ (pe_b_end s = HsWait \/ pe_b_end s = greeting_outcome ob oa) /\
  ((exists s', peers_step oa ob s s') \/
   gr_recv (pe_a s) = greeting_full ob /\ gr_recv (pe_b s) = greeting_full oa /\
   pe_a_end s = greeting_outcome oa ob /\ pe_b_end s = greeting_outcome ob oa).
Proof.
  intros Ha Hb Hsteps.
  assert (peers_ok oa ob s /\ (k <= received s)%nat) as [Hok Hk].
  { assert (peers_ok oa ob (peers_new oa ob)) as Hok by (split_and!; [by apply side_new..|cbn; lia|cbn; lia]).
    assert (forall k x y, nsteps (peers_step oa ob) k x y -> peers_ok oa ob x -> peers_ok oa ob y /\ (k + received x <= received y)%nat) as Hind.
    { clear -Ha Hb. intros k x y. induction 1 as [x|k x y z Hxy _ IH]; intros Hx; [by split|].
      destruct (peers_step_ok _ _ _ _ Ha Hb Hx Hxy) as [Hy Hlt]. destruct (IH Hy). split; [done|lia]. }
    destruct (Hind _ _ _ Hsteps Hok). split; [done|lia]. }
  pose proof (received_max _ _ _ Ha Hb Hok). destruct Hok as (Hoa & Hob & Hla & Hlb). split; [lia|].
  split; [by eapply side_decided|]. split; [by eapply side_decided|].
  destruct (side_has_all _ _ _ _ _ _ Ha Hb Hoa Hob Hla) as [(n & data & [[g rest] e] & He & Hd & Hne & Hh)|Hla'].
  { left. eexists. by eapply deliver_to_a. }
  destruct (side_has_all _ _ _ _ _ _ Hb Ha Hob Hoa Hlb) as [(n & data & [[g rest] e] & He & Hd & Hne & Hh)|Hlb'].
  { left. eexists. by eapply deliver_to_b. }
  right. destruct (sent_after_fix _ _ Hla' Hlb') as [H1 H2].
  destruct (side_done _ _ _ _ Hb Hoa H1) as [-> ->], (side_done _ _ _ _ Ha Hob H2) as [-> ->]. done.
Qed.

Definition agreement_client : greeting_options := GOpts 5 ZMQ_PLAIN [] false false false.

Lemma greeting_agreement_witness : exists s,
  nsteps (peers_step greeting_example agreement_client) 4 (peers_new greeting_example agreement_client) s /\
  pe_a_end s = HsReady (use_v3 use_plain_server) /\ pe_b_end s = HsReady (use_v3 use_plain_client) /\
  (pe_a_end s = HsWait \/ pe_a_end s = greeting_outcome greeting_example agreement_client).
Proof.
  assert (exists s, nsteps (peers_step greeting_example agreement_client) 4 (peers_new greeting_example agreement_client) s /\
    pe_a_end s = HsReady (use_v3 use_plain_server) /\ pe_b_end s = HsReady (use_v3 use_plain_client)) as (s & H & Hea & Heb).
  { eexists. split.
    - eapply nsteps_l; [eapply (deliver_to_a _ _ _ 10); [reflexivity|reflexivity|discriminate|vm_compute; reflexivity]|].
      eapply nsteps_l; [eapply (deliver_to_b _ _ _ 11); [reflexivity|reflexivity|discriminate|vm_compute; reflexivity]|].
      eapply nsteps_l; [eapply (deliver_to_a _ _ _ 54); [reflexivity|reflexivity|discriminate|vm_compute; reflexivity]|].
      eapply nsteps_l; [eapply (deliver_to_b _ _ _ 64); [reflexivity|reflexivity|discriminate|vm_compute; reflexivity]|].
      apply nsteps_O.
    - done. }
  exists s. split; [exact H|]. split; [exact Hea|]. split; [exact Heb|].
  apply (greeting_agreement greeting_example agreement_client 4 s); [by eexists|by eexists|exact H].
Defined.

(** ** A ZMTP/1 peer *)

(** Its first frame is a routing id without [more]: this is how it is told apart. *)
Lemma v1_peer_verdict f tail : Z.land (fr_flags f) flag_more = 0 -> greeting_verdict (v1_wire f ++ tail) = GrUnversioned.
Proof.
  intros Hf. rewrite v1_wire_split. unfold v1_size_field, v1_kept_flags. rewrite Hf.
  destruct (Z.ltb_spec (Z.of_nat (length (fr_body f)) + 1) 255) as [Hl|].
  - unfold greeting_verdict. cbn [app]. rewrite u8_small by (unfold is_u8; lia). by rewrite (proj2 (Z.eqb_neq _ 255)) by lia.
  - done.
Qed.

(** What the encoder goes on with, after the signature. *)
Lemma unversioned_drain f bufs : Forall (fun b : bool * Z => 1 <= b.2) bufs -> (length (fr_body f) < length bufs)%nat ->
  exists e', enc_drain v1_enc_step (Encoder [] V1E_size_ready false (Some f)) bufs = Some (fr_body f, e') /\ en_msg e' = None.
Proof.
  intros Hb Hl.
  destruct (enc_drain_ok v1_enc_step V1E_message_ready bufs (Encoder [] V1E_size_ready false (Some f))) as (e' & H & _ & Hm).
  - by constructor.
  - done.
  - done.
  - by exists e'.
Qed.

(** A peer that speaks ZMTP/1 and knows nothing of greetings sends the
    frame of its routing id first.  It is recognised, in whatever pieces
    the frame arrives; every byte it sent is left for the ZMTP/1 decoder;
    and what the engine sends it, the signature and then what the encoder
    has left of the routing id message whatever buffers it writes to, the
    peer's decoder reads as one frame with the routing id. *)
Theorem greeting_v1_peer (o : greeting_options) (f : frame) (tail : bytes) (turns : list arrivals)
    (can_alloc : Z -> bool) (max_msg_size : Z) (bufs : list (bool * Z)) (avs : list Z) (more : list (Z * Z)) :
  is_Some (mechanism_field (go_mechanism o)) -> go_zap_enabled o = false -> Forall only_data turns ->
  data_of (concat turns) = v1_wire f ++ tail -> Z.land (fr_flags f) flag_more = 0 ->
  v1_size_ok can_alloc max_msg_size (Z.of_nat (length (go_routing_id o))) ->
  Forall (fun b => 1 <= b.2) bufs -> (length (go_routing_id o) < length bufs)%nat ->
  length avs = (10 + length (go_routing_id o))%nat ->
  exists g rest e e' subscription_required ty,
    handshakes o (greeting_new o) turns = Some (g, rest, HsReady (use_v1_unversioned e (gr_recv g) subscription_required)) /\
    gr_recv g ++ data_of rest = v1_wire f ++ tail /\
    enc_drain v1_enc_step e bufs = Some (go_routing_id o, e') /\ en_msg e' = None /\
    dec_bytes (v1_dec_step can_alloc max_msg_size) v1_decoder_new (zip (gr_sent g ++ go_routing_id o) avs ++ more) =
      (let* (d, ms, err) := dec_bytes (v1_dec_step can_alloc max_msg_size) v1_decoder_new more in
       Some (d, Frame ty flag_more (go_routing_id o) :: ms, err)).
Proof.
  intros Hm Hz Ht Hin Hf Hok Hb Hl Ha.
  destruct (handshakes_spec o turns Hm _ (greeting_new_ok o) Ht) as (g & rest & e & Hh & Hr & Hs & He).
  cbn [greeting_new gr_recv] in Hr, Hs, He. rewrite app_nil_l in Hr, Hs, He. rewrite Hin in Hr, Hs, He.
  rewrite v1_peer_verdict in He by done. destruct He as [He _]. unfold select_handshake in He. rewrite unversioned_ready, Hz in He. injection He as <-.
  pose proof (unversioned_ok o (greeting_new o) (v1_wire f ++ tail) (greeting_new_ok o) (v1_peer_verdict f tail Hf)) as Hsig.
  cbn [greeting_new gr_recv gr_sent app] in Hsig. rewrite Hsig in Hs. injection Hs as Hs.
  destruct (unversioned_drain (routing_id_frame o) bufs Hb Hl) as (e' & He' & Hm').
  set (rid := go_routing_id o) in *.
  destruct (v1_decode_long can_alloc max_msg_size (Z.of_nat (length rid)) (take 9 avs)
    (zip (127 :: rid) (drop 9 avs) ++ more)) as [ty Hty]; [lia|done|rewrite length_take; lia|].
  eexists g, rest, _, e', _, ty. do 4 (split; [done|]). rewrite <- Hs.
  replace (zip (greeting_signature o ++ rid) avs ++ more)
    with (zip (255 :: put_uint64 (Z.of_nat (length rid) + 1)) (take 9 avs) ++ zip (127 :: rid) (drop 9 avs) ++ more).
  - rewrite Hty, v1_decode_body; [done| |rewrite length_drop; cbn [length]; lia].
    destruct Hok as [Hmax _]. unfold sizeof_content in Hmax. unfold is_u64. lia.
  - rewrite app_assoc, <- zip_with_app by (rewrite length_take, Ha; change (length (255 :: put_uint64 (Z.of_nat (length rid) + 1))) with 9%nat; lia). rewrite take_drop. done.
Qed.

Definition v1_peer_example : list arrivals := [[Some [4; 0]; Some [70]]; [Some [71; 72; 1; 0]]].

Lemma greeting_v1_peer_witness :
  exists g rest e s d ms, handshakes greeting_example (greeting_new greeting_example) v1_peer_example =
    Some (g, rest, HsReady (use_v1_unversioned e (gr_recv g) s)) /\ gr_recv g ++ data_of rest = [4; 0; 70; 71; 72; 1; 0] /\
  dec_bytes (v1_dec_step (fun _ => true) 1000) v1_decoder_new (zip (gr_sent g ++ [65; 66]) (replicate 12 1) ++ []) = Some (d, ms, None) /\
  fr_body <$> ms = [[65; 66]].
Proof.
  destruct (greeting_v1_peer greeting_example (Frame type_vsm 0 [70; 71; 72]) [1; 0] v1_peer_example (fun _ => true) 1000
    (replicate 3 (false, 10)) (replicate 12 1) []) as (g & rest & e & e' & s & ty & H1 & H2 & _ & _ & H3).
  - by eexists.
  - done.
  - repeat constructor; by eexists.
  - done.
  - done.
  - unfold v1_size_ok, sizeof_content. cbn. split_and!; [lia|lia|done].
  - by repeat (apply List.Forall_cons; [done|]).
  - cbn. lia.
  - done.
  - exists g, rest, e, s, v1_decoder_new, [Frame ty flag_more [65; 66]]. split; [exact H1|]. split; [exact H2|]. split; [exact H3|done].
Defined.
