(* ===== verification/Engine.v ===== *)
(** * Engines of stream connections (src/src/stream_engine_base.cpp, src/src/zmtp_engine.cpp)

    From the moment the greeting has chosen how to go on ([Greeting]).  The
    engine reads and decodes what the network brings and hands the messages
    to [_process_msg]; it asks [_next_msg] for messages, encodes them and
    writes.  A session that has no room stops the input, with the message
    that it refused kept in the decoder, until [restart_input].  Decoder,
    encoder, mechanism, session and network are parameters.  Metadata of
    messages and the events for monitors are left out. *)

From Stdlib Require Import String.
From S2P Require Import Prelude Wire Frame Codec Options Mechanism Handshake Session.

Inductive timer_id := handshake_timer | heartbeat_ivl_timer | heartbeat_timeout_timer | heartbeat_ttl_timer.

(** What the engine asks of the poller, and its last word to the session. *)
Inductive engine_act :=
| ea_add_timer (id : timer_id) (ms : Z) | ea_cancel_timer (id : timer_id)
| ea_set_pollin | ea_reset_pollin | ea_set_pollout | ea_reset_pollout | ea_rm_fd
| ea_engine_error (reason : error_reason).

Inductive read_result := RdData (data : bytes) | RdAgain | RdError.

(** The session and the network; [None] of a push is success. *)
Class EngineEnv (W : Type) := {
  ev_push : W -> frame -> W * option errno;
  ev_pull : W -> W * option frame;
  ev_rollback : W -> W;
  ev_flush : W -> W;
  ev_read : W -> Z -> W * read_result;
  ev_write : W -> bytes -> W * option Z;
  ev_do : W -> engine_act -> W;
}.

(** The mechanism; it may use the session's pipe to the ZAP handler. *)
Class EngineMech (M W : Type) := {
  em_status : M -> mech_status;
  em_next : W -> M -> option (W * M * option frame);
  em_process : W -> M -> frame -> option (W * M * option errno);
  em_zap_msg_available : W -> M -> option (W * M * option errno);
  em_encode : M -> frame -> option (M * option frame);
  em_decode : M -> frame -> option (M * (frame + errno));
  em_user_id : M -> bytes;
  em_peer_routing_id : M -> frame;
}.

(** The values of [_next_msg] and [_process_msg]. *)
Inductive next_fn :=
| n_routing_id_msg | n_pull_msg_from_session | n_handshake_command | n_pull_and_encode | n_produce_ping | n_produce_pong.
Inductive process_fn :=
| p_routing_id_msg | p_push_msg_to_session | p_handshake_command | p_write_credential | p_decode_and_push | p_push_one.

Record engine_options := EOpts {
  eo_routing_id : bytes;
  eo_recv_routing_id : bool;
  eo_notify_connect : bool;
  eo_notify_disconnect : bool;
  eo_heartbeat_ttl : Z;          (** in tenths of a second *)
  eo_heartbeat_interval : Z;
  eo_heartbeat_timeout : Z;
  eo_out_batch_size : Z;
}.

(** The constructor: a timeout of -1 is the interval. *)
Definition heartbeat_timeout_of (o : engine_options) : Z :=
  if 0 <? eo_heartbeat_interval o then (if eo_heartbeat_timeout o =? -1 then eo_heartbeat_interval o else eo_heartbeat_timeout o) else 0.

Definition ping_name : bytes := Eval vm_compute in ascii_bytes "PING".
Definition pong_name : bytes := Eval vm_compute in ascii_bytes "PONG".
Definition subscribe_name : bytes := Eval vm_compute in ascii_bytes "SUBSCRIBE".
Definition cancel_name : bytes := Eval vm_compute in ascii_bytes "CANCEL".

Definition set_flag (f : frame) (flag : Z) : frame := MkFrame (fr_type f) (Z.lor (fr_flags f) flag) (fr_body f) (fr_group f) (fr_routing_id f).

(** The name of a command decides its kind; [None] when it is malformed. *)
Definition command_kind (f : frame) : option frame :=
  match fr_body f with
  | [] => None
  | cmd_name_size :: rest =>
      if Z.of_nat (length (fr_body f)) <? cmd_name_size + 1 then None
      else
        let named name := (cmd_name_size =? Z.of_nat (length name)) && bool_decide (take (length name) rest = name) in
        let f := if named ping_name then set_flag f cmd_ping else f in
        let f := if named pong_name then set_flag f cmd_pong else f in
        let f := if named subscribe_name then set_flag f cmd_subscribe else f in
        Some (if named cancel_name then set_flag f cmd_cancel else f)
  end.

Definition is_heartbeat (f : frame) : bool := fr_is_ping f || fr_is_pong f.

(** [ping_cmd_name_size], [ping_ttl_len], [ping_max_ctx_len] *)
Definition ping_cmd_name_size : nat := 5.
Definition ping_ttl_len : Z := 7.
Definition ping_max_ctx_len : Z := 16.

Definition ping_frame (o : engine_options) : frame :=
  Frame type_vsm flag_command (4 :: ping_name ++ [u8 (Z.shiftr (eo_heartbeat_ttl o) 8); u8 (eo_heartbeat_ttl o)]).

Record in_state (DS : Type) := Input {
  in_decoder : decoder DS;
  in_alloc : allocator;
  in_place : bool;
  in_data : bytes;          (** the [_insize] bytes at [_inpos] *)
  in_msg : frame;           (** [_decoder->msg ()] *)
  in_stopped : bool;
}.
Arguments Input {DS}. Arguments in_decoder {DS}. Arguments in_alloc {DS}. Arguments in_place {DS}.
Arguments in_data {DS}. Arguments in_msg {DS}. Arguments in_stopped {DS}.

Record out_state (ES : Type) := Output {
  ou_encoder : encoder ES;
  ou_data : bytes;          (** the [_outsize] bytes at [_outpos] *)
  ou_stopped : bool;
}.
Arguments Output {ES}. Arguments ou_encoder {ES}. Arguments ou_data {ES}. Arguments ou_stopped {ES}.

(** The timers that run, and the answer to the last PING. *)
Record beats := Beats { bt_interval : bool; bt_timeout : bool; bt_ttl : bool; bt_pong : frame }.

Record stream_engine (DS ES M : Type) := Engine {
  eg_in : in_state DS;
  eg_out : out_state ES;
  eg_mech : option M;
  eg_next : next_fn;
  eg_process : process_fn;
  eg_beats : beats;
  eg_subscription_required : bool;
  eg_io_error : bool;
}.
Arguments Engine {DS ES M}. Arguments eg_in {DS ES M}. Arguments eg_out {DS ES M}. Arguments eg_mech {DS ES M}.
Arguments eg_next {DS ES M}. Arguments eg_process {DS ES M}. Arguments eg_beats {DS ES M}.
Arguments eg_subscription_required {DS ES M}. Arguments eg_io_error {DS ES M}.

Section engine.
Context {DS ES M W : Type} {EV : EngineEnv W} {EM : EngineMech M W}.
Context (dstep : DS -> bytes -> Z -> step_result DS) (estep : ES -> frame -> bytes * ES * bool).
Context (o : engine_options).
(** What lies in memory behind a message. *)
Context (behind : nat -> Z).

Abbreviation engine := (stream_engine DS ES M).
Implicit Types (w : W) (g : engine) (m : M) (f : frame).

Definition set_in g i : engine := Engine i (eg_out g) (eg_mech g) (eg_next g) (eg_process g) (eg_beats g) (eg_subscription_required g) (eg_io_error g).
Definition set_out g u : engine := Engine (eg_in g) u (eg_mech g) (eg_next g) (eg_process g) (eg_beats g) (eg_subscription_required g) (eg_io_error g).
Definition set_mech g m : engine := Engine (eg_in g) (eg_out g) (Some m) (eg_next g) (eg_process g) (eg_beats g) (eg_subscription_required g) (eg_io_error g).
Definition set_next g n : engine := Engine (eg_in g) (eg_out g) (eg_mech g) n (eg_process g) (eg_beats g) (eg_subscription_required g) (eg_io_error g).
Definition set_process g p : engine := Engine (eg_in g) (eg_out g) (eg_mech g) (eg_next g) p (eg_beats g) (eg_subscription_required g) (eg_io_error g).
Definition set_beats g b : engine := Engine (eg_in g) (eg_out g) (eg_mech g) (eg_next g) (eg_process g) b (eg_subscription_required g) (eg_io_error g).
Definition set_io_error g : engine := Engine (eg_in g) (eg_out g) (eg_mech g) (eg_next g) (eg_process g) (eg_beats g) (eg_subscription_required g) true.

Definition set_in_msg g f : engine :=
  let i := eg_in g in set_in g (Input (in_decoder i) (in_alloc i) (in_place i) (in_data i) f (in_stopped i)).
Definition set_in_stopped g b : engine :=
  let i := eg_in g in set_in g (Input (in_decoder i) (in_alloc i) (in_place i) (in_data i) (in_msg i) b).
Definition set_out_stopped g b : engine :=
  let u := eg_out g in set_out g (Output (ou_encoder u) (ou_data u) b).

(** ** Messages to send *)

Definition pull_and_encode w g : option (W * engine * option frame) :=
  let* m := eg_mech g in
  match ev_pull w with
  | (w, None) => Some (w, g, None)
  | (w, Some f) => let* (m, r) := em_encode m f in Some (w, set_mech g m, r)
  end.

Definition produce_ping_message w g : option (W * engine * option frame) :=
  let* m := eg_mech g in
  let* (m, r) := em_encode m (ping_frame o) in
  let g := set_next (set_mech g m) n_pull_and_encode in
  let b := eg_beats g in
  if negb (bt_timeout b) && (0 <? heartbeat_timeout_of o) then
    Some (ev_do w (ea_add_timer heartbeat_timeout_timer (heartbeat_timeout_of o)), set_beats g (Beats (bt_interval b) true (bt_ttl b) (bt_pong b)), r)
  else Some (w, g, r).

Definition produce_pong_message w g : option (W * engine * option frame) :=
  let* m := eg_mech g in
  let b := eg_beats g in
  let* (m, r) := em_encode m (bt_pong b) in
  let g := set_beats g (Beats (bt_interval b) (bt_timeout b) (bt_ttl b) fr_empty) in
  Some (w, set_next (set_mech g m) n_pull_and_encode, r).

(** A push that only a pipe that is shut down is expected to refuse:
    whether to go on. *)
Definition push_or_bail w f : option (W * bool) :=
  match ev_push w f with
  | (w, None) => Some (w, true)
  | (w, Some EAGAIN) => Some (w, false)
  | (w, Some _) => None
  end.

Definition mechanism_ready w g : option (W * engine) :=
  let* m := eg_mech g in
  let b := eg_beats g in
  let (w, g) :=
    if (0 <? eo_heartbeat_interval o) && negb (bt_interval b)
    then (ev_do w (ea_add_timer heartbeat_ivl_timer (eo_heartbeat_interval o)), set_beats g (Beats true (bt_timeout b) (bt_ttl b) (bt_pong b)))
    else (w, g) in
  let* (w, ok) := if eo_recv_routing_id o then push_or_bail w (em_peer_routing_id m) else Some (w, true) in
  if negb ok then Some (w, g)
  else
    let* (w, ok) := if eo_notify_connect o then push_or_bail w fr_empty else Some (w, true) in
    if negb ok then Some (w, g)
    else
      let w := if eo_recv_routing_id o || eo_notify_connect o then ev_flush w else w in
      Some (w, set_process (set_next g n_pull_and_encode) p_write_credential).

Definition next_handshake_command w g : option (W * engine * option frame) :=
  let* m := eg_mech g in
  match em_status m with
  | mech_ready => let* (w, g) := mechanism_ready w g in pull_and_encode w g
  | mech_error => Some (w, g, None)
  | handshaking =>
      let* (w, m, r) := em_next w m in
      Some (w, set_mech g m, option_map (fun f => set_flag f flag_command) r)
  end.

Definition routing_id_msg w g : option (W * engine * option frame) :=
  let ty := if Z.of_nat (length (eo_routing_id o)) <=? max_vsm_size then type_vsm else type_lmsg in
  Some (w, set_next g n_pull_msg_from_session, Some (Frame ty 0 (eo_routing_id o))).

(** [(this->*_next_msg) (&_tx_msg)]; no message is -1. *)
Definition next_msg w g : option (W * engine * option frame) :=
  match eg_next g with
  | n_routing_id_msg => routing_id_msg w g
  | n_pull_msg_from_session => let (w, r) := ev_pull w in Some (w, g, r)
  | n_handshake_command => next_handshake_command w g
  | n_pull_and_encode => pull_and_encode w g
  | n_produce_ping => produce_ping_message w g
  | n_produce_pong => produce_pong_message w g
  end.

(** The loop that fills the batch; [own] while there is no [_outpos] yet. *)
Fixpoint out_fill (fuel : nat) w g (own : bool) : option (W * engine) :=
  let size := Z.of_nat (length (ou_data (eg_out g))) in
  if size <? eo_out_batch_size o then
    match fuel with
    | O => None
    | S fuel' =>
        let* (w, g, r) := next_msg w g in
        match r with
        | None => Some (w, g)
        | Some f =>
            let u := eg_out g in
            let* e := enc_load_msg estep (ou_encoder u) f in
            let* (out, e) := enc_encode estep e own (if own then eo_out_batch_size o else eo_out_batch_size o - size) in
            zmq_assert (0 <? length out)%nat ;;
            out_fill fuel' w (set_out g (Output e (ou_data u ++ out) (ou_stopped u))) false
        end
    end
  else Some (w, g).

(** Every message adds a byte at least. *)
Definition out_fuel : nat := S (Z.to_nat (eo_out_batch_size o)).

Definition out_event w g : option (W * engine) :=
  zmq_assert (negb (eg_io_error g)) ;;
  let* (w, g) :=
    match ou_data (eg_out g) with
    | _ :: _ => Some (w, g)
    | [] =>
        let u := eg_out g in
        let* (out, e) := enc_encode estep (ou_encoder u) true (eo_out_batch_size o) in
        out_fill out_fuel w (set_out g (Output e out (ou_stopped u))) (bool_decide (en_msg (ou_encoder u) = None))
    end in
  match ou_data (eg_out g) with
  | [] => Some (ev_do w ea_reset_pollout, set_out_stopped g true)
  | data =>
      match ev_write w data with
      | (w, None) => Some (ev_do w ea_reset_pollout, g)
      | (w, Some nbytes) =>
          let u := eg_out g in
          Some (w, set_out g (Output (ou_encoder u) (drop (Z.to_nat nbytes) data) (ou_stopped u)))
      end
  end.

Definition restart_output w g : option (W * engine) :=
  if eg_io_error g then Some (w, g)
  else
    let (w, g) := if ou_stopped (eg_out g) then (ev_do w ea_set_pollout, set_out_stopped g false) else (w, g) in
    out_event w g.

(** ** Messages received *)

(** A byte of a message, or behind it. *)
Definition byte_at f (k : nat) : Z := default (behind (k - length (fr_body f))) (fr_body f !! k).

Definition process_heartbeat_message w g : option (W * engine) :=
  let msg := in_msg (eg_in g) in
  if fr_is_ping msg then
    let remote_heartbeat_ttl := u16 ((256 * byte_at msg ping_cmd_name_size + byte_at msg (ping_cmd_name_size + 1)) * 100) in
    let b := eg_beats g in
    let '(w, ttl) :=
      if negb (bt_ttl b) && (0 <? remote_heartbeat_ttl)
      then (ev_do w (ea_add_timer heartbeat_ttl_timer remote_heartbeat_ttl), true) else (w, bt_ttl b) in
    let context_len := Z.min (u64 (Z.of_nat (length (fr_body msg)) - ping_ttl_len)) ping_max_ctx_len in
    let context := (fun k => byte_at msg (Z.to_nat ping_ttl_len + k)) <$> seq 0 (Z.to_nat context_len) in
    let pong := Frame type_vsm flag_command (4 :: pong_name ++ context) in
    out_event w (set_next (set_beats g (Beats (bt_interval b) (bt_timeout b) ttl pong)) n_produce_pong)
  else Some (w, g).

(** Its result is not looked at. *)
Definition process_command_message w g : option (W * engine) :=
  match command_kind (in_msg (eg_in g)) with
  | None => Some (w, g)
  | Some msg =>
      let g := set_in_msg g msg in
      if is_heartbeat msg then process_heartbeat_message w g else Some (w, g)
  end.

(** Both timers that wait for the peer. *)
Definition cancel_waiting w g : W * engine :=
  let b := eg_beats g in
  let w := if bt_timeout b then ev_do w (ea_cancel_timer heartbeat_timeout_timer) else w in
  let w := if bt_ttl b then ev_do w (ea_cancel_timer heartbeat_ttl_timer) else w in
  (w, set_beats g (Beats (bt_interval b) false false (bt_pong b))).

(** Of the functions that follow the result is [errno], [None] for 0. *)
Definition push_in_msg w g : W * option errno := ev_push w (in_msg (eg_in g)).

Definition decode_and_push w g : option (W * engine * option errno) :=
  let* m := eg_mech g in
  let* (m, r) := em_decode m (in_msg (eg_in g)) in
  let g := set_mech g m in
  match r with
  | inr e => Some (w, g, Some e)
  | inl msg =>
      let (w, g) := cancel_waiting w (set_in_msg g msg) in
      let* (w, g) := if fr_is_command msg then process_command_message w g else Some (w, g) in
      match push_in_msg w g with
      | (w, Some EAGAIN) => Some (w, set_process g p_push_one, Some EAGAIN)
      | (w, rc) => Some (w, g, rc)
      end
  end.

Definition push_one_then_decode_and_push w g : option (W * engine * option errno) :=
  match push_in_msg w g with
  | (w, None) => Some (w, set_process g p_decode_and_push, None)
  | (w, Some e) => Some (w, g, Some e)
  end.

Definition user_credential (user_id : bytes) : frame :=
  Frame (if Z.of_nat (length user_id) <=? max_vsm_size then type_vsm else type_lmsg) flag_credential user_id.

Definition write_credential w g : option (W * engine * option errno) :=
  let* m := eg_mech g in
  let '(w, rc) := match em_user_id m with [] => (w, None) | credential => ev_push w (user_credential credential) end in
  match rc with
  | Some e => Some (w, g, Some e)
  | None => decode_and_push w (set_process g p_decode_and_push)
  end.

Definition process_handshake_command w g : option (W * engine * option errno) :=
  let* m := eg_mech g in
  let* (w, m, rc) := em_process w m (in_msg (eg_in g)) in
  let g := set_mech g m in
  match rc with
  | Some e => Some (w, g, Some e)
  | None =>
      match em_status m with
      | mech_error => Some (w, g, Some EPROTO)
      | st =>
          let* (w, g) := match st with mech_ready => mechanism_ready w g | _ => Some (w, g) end in
          let* (w, g) := if ou_stopped (eg_out g) then restart_output w g else Some (w, g) in
          Some (w, g, None)
      end
  end.

Definition process_routing_id_msg w g : option (W * engine * option errno) :=
  let* (w, g) :=
    if eo_recv_routing_id o then
      let g := set_in_msg g (set_flag (in_msg (eg_in g)) flag_routing_id) in
      let (w, rc) := push_in_msg w g in
      zmq_assert (bool_decide (rc = None)) ;; Some (w, g)
    else Some (w, set_in_msg g fr_empty) in
  let* w :=
    if eg_subscription_required g then
      let (w, rc) := ev_push w (Frame type_vsm 0 [1]) in
      zmq_assert (bool_decide (rc = None)) ;; Some w
    else Some w in
  Some (w, set_process g p_push_msg_to_session, None).

(** [(this->*_process_msg) (_decoder->msg ())] *)
Definition process_msg w g : option (W * engine * option errno) :=
  match eg_process g with
  | p_routing_id_msg => process_routing_id_msg w g
  | p_push_msg_to_session => let (w, rc) := push_in_msg w g in Some (w, g, rc)
  | p_handshake_command => process_handshake_command w g
  | p_write_credential => write_credential w g
  | p_decode_and_push => decode_and_push w g
  | p_push_one => push_one_then_decode_and_push w g
  end.

(** [while (_insize > 0)] *)
Fixpoint in_loop (fuel : nat) w g : option (W * engine * option errno) :=
  let i := eg_in g in
  match in_data i, fuel with
  | [], _ => Some (w, g, None)
  | _, O => None
  | data, S fuel' =>
      let* (d, rc, processed) := dec_decode dstep (in_decoder i) (in_place i) data 0 in
      zmq_assert (processed <=? Z.of_nat (length data)) ;;
      let i' msg := Input d (in_alloc i) false (drop (Z.to_nat processed) data) msg (in_stopped i) in
      match rc with
      | RcZero => Some (w, set_in g (i' (in_msg i)), None)
      | RcError e => Some (w, set_in g (i' (in_msg i)), Some e)
      | RcMsg msg =>
          let* (w, g, rc) := process_msg w (set_in g (i' msg)) in
          match rc with None => in_loop fuel' w g | Some e => Some (w, g, Some e) end
      end
  end.

(** Every message uses a byte at least. *)
Definition in_fuel g : nat := S (length (in_data (eg_in g))).

(** ** The calls of the poller and of the session

    The engine that is left is [None] when it has destroyed itself. *)

Definition unplug w g : W :=
  let b := eg_beats g in
  let w := if bt_ttl b then ev_do w (ea_cancel_timer heartbeat_ttl_timer) else w in
  let w := if bt_timeout b then ev_do w (ea_cancel_timer heartbeat_timeout_timer) else w in
  let w := if bt_interval b then ev_do w (ea_cancel_timer heartbeat_ivl_timer) else w in
  if eg_io_error g then w else ev_do w ea_rm_fd.

Definition error w g (reason : error_reason) : W :=
  let w := if eo_notify_disconnect o then (ev_push (ev_rollback w) fr_empty).1 else w in
  unplug (ev_do (ev_flush w) (ea_engine_error reason)) g.

(** The buffer is filled when it is empty. *)
Definition fill_input w g : W * engine * read_result :=
  let i := eg_in g in
  match in_data i with
  | _ :: _ => (w, g, RdData (in_data i))
  | [] =>
      let '(a, in_place, bufsize) := dec_get_buffer (in_decoder i) (in_alloc i) in
      let (w, r) := ev_read w bufsize in
      match r with
      | RdData data => (w, set_in g (Input (in_decoder i) (al_resize a (Z.of_nat (length data))) in_place data (in_msg i) (in_stopped i)), r)
      | _ => (w, set_in g (Input (in_decoder i) a in_place [] (in_msg i) (in_stopped i)), r)
      end
  end.

Definition in_event_internal w g : option (W * option engine * bool) :=
  zmq_assert (negb (eg_io_error g)) ;;
  if in_stopped (eg_in g) then Some (ev_do w ea_rm_fd, Some (set_io_error g), true)
  else
    match fill_input w g with
    | (w, g, RdError) => Some (error w g connection_error_reason, None, false)
    | (w, g, RdAgain) => Some (w, Some g, true)
    | (w, g, RdData _) =>
        let* (w, g, rc) := in_loop (in_fuel g) w g in
        match rc with
        | None => Some (ev_flush w, Some g, true)
        | Some EAGAIN => Some (ev_flush (ev_do w ea_reset_pollin), Some (set_in_stopped g true), true)
        | Some _ => Some (error w g protocol_error_reason, None, false)
        end
    end.

Definition restart_input w g : option (W * option engine * bool) :=
  zmq_assert (in_stopped (eg_in g)) ;;
  let* (w, g, rc) := process_msg w g in
  match rc with
  | Some EAGAIN => Some (ev_flush w, Some g, true)
  | Some _ => Some (error w g protocol_error_reason, None, false)
  | None =>
      let* (w, g, rc) := in_loop (in_fuel g) w g in
      match rc with
      | Some EAGAIN => Some (ev_flush w, Some g, true)
      | _ =>
          if eg_io_error g then Some (error w g connection_error_reason, None, false)
          else
            match rc with
            | Some _ => Some (error w g protocol_error_reason, None, false)
            | None =>
                let* (w, g, alive) := in_event_internal (ev_flush (ev_do w ea_set_pollin)) (set_in_stopped g false) in
                Some (w, g, alive)
            end
      end
  end.

(** Timers other than that of the greeting. *)
Definition timer_event w g (id : timer_id) : option (W * option engine) :=
  let b := eg_beats g in
  match id with
  | heartbeat_ivl_timer =>
      let* (w, g) := out_event w (set_next g n_produce_ping) in
      Some (ev_do w (ea_add_timer heartbeat_ivl_timer (eo_heartbeat_interval o)), Some g)
  | heartbeat_ttl_timer => Some (error w (set_beats g (Beats (bt_interval b) (bt_timeout b) false (bt_pong b))) timeout_error_reason, None)
  | heartbeat_timeout_timer => Some (error w (set_beats g (Beats (bt_interval b) false (bt_ttl b) (bt_pong b))) timeout_error_reason, None)
  | handshake_timer => Some (error w g timeout_error_reason, None)
  end.

Definition zap_msg_available w g : option (W * option engine) :=
  let* m := eg_mech g in
  let* (w, m, rc) := em_zap_msg_available w m in
  let g := set_mech g m in
  match rc with
  | Some _ => Some (error w g protocol_error_reason, None)
  | None =>
      let* (w, r, alive) := if in_stopped (eg_in g) then restart_input w g else Some (w, Some g, true) in
      match r with
      | Some g => if (alive : bool) && ou_stopped (eg_out g) then let* (w, g) := restart_output w g in Some (w, Some g) else Some (w, Some g)
      | None => Some (w, None)
      end
  end.

(** A call of the poller or the session, in any order.  A poller reports
    an error of the connection with [in_event] even when the input has been
    reset; it reports nothing once the engine has removed its descriptor
    ([rm_fd]). *)
Inductive engine_call :=
| call_in_event | call_out_event | call_restart_input | call_restart_output | call_timer (id : timer_id).

Definition engine_step w g (c : engine_call) : option (W * option engine) :=
  match c with
  | call_in_event => if eg_io_error g then Some (w, Some g) else let* (w, r, alive) := in_event_internal w g in Some (w, r)
  | call_out_event => if eg_io_error g then Some (w, Some g) else let* (w, g) := out_event w g in Some (w, Some g)
  | call_restart_input => let* (w, r, alive) := restart_input w g in Some (w, r)
  | call_restart_output => let* (w, g) := restart_output w g in Some (w, Some g)
  | call_timer id => timer_event w g id
  end.

Fixpoint engine_calls w g (cs : list engine_call) : option (W * option engine) :=
  match cs with
  | [] => Some (w, Some g)
  | c :: cs =>
      let* (w, r) := engine_step w g c in
      match r with Some g => engine_calls w g cs | None => Some (w, None) end
  end.

End engine.
