(* ===== verification/EngineOut.v ===== *)
(** * What an engine sends

    The laws of the session, the network and the mechanism that the theorems
    about engines rely on, and the output half of the engine: whatever is
    called, and however little the network takes at a time, what was written
    and what waits in the buffer and in the encoder is the encoding of the
    messages pulled from the session, in order, with heartbeats between
    them. *)

From Stdlib Require Import String.
From S2P Require Import Prelude Wire Frame Codec Options Mechanism Handshake Session Engine.

(** What there is to see of a session and a network: the messages the
    session took, the bytes that were received, the messages it gave, and
    the bytes that were sent. *)
Record view := View { vw_pushed : list frame; vw_received : bytes; vw_pulled : list frame; vw_written : bytes }.

Class EngineEnvLaws (W : Type) `{EngineEnv W} := {
  ev_view : W -> view;
  law_push w f : ev_view (ev_push w f).1 =
    match (ev_push w f).2 with
    | None => View (vw_pushed (ev_view w) ++ [f]) (vw_received (ev_view w)) (vw_pulled (ev_view w)) (vw_written (ev_view w))
    | Some _ => ev_view w
    end;
  law_pull w : ev_view (ev_pull w).1 =
    match (ev_pull w).2 with
    | Some f => View (vw_pushed (ev_view w)) (vw_received (ev_view w)) (vw_pulled (ev_view w) ++ [f]) (vw_written (ev_view w))
    | None => ev_view w
    end;
  law_rollback w : ev_view (ev_rollback w) = ev_view w;
  law_flush w : ev_view (ev_flush w) = ev_view w;
  law_do w a : ev_view (ev_do w a) = ev_view w;
  law_read w n : 1 <= n ->
    match ev_read w n with
    | (w', RdData data) => data <> [] /\ Z.of_nat (length data) <= n /\
        ev_view w' = View (vw_pushed (ev_view w)) (vw_received (ev_view w) ++ data) (vw_pulled (ev_view w)) (vw_written (ev_view w))
    | (w', _) => ev_view w' = ev_view w
    end;
  law_write w data :
    match ev_write w data with
    | (w', Some n) => 0 <= n <= Z.of_nat (length data) /\
        ev_view w' = View (vw_pushed (ev_view w)) (vw_received (ev_view w)) (vw_pulled (ev_view w)) (vw_written (ev_view w) ++ take (Z.to_nat n) data)
    | (w', None) => ev_view w' = ev_view w
    end;
}.

(** A mechanism after its handshake: encoding and decoding do not fail an
    assertion, and each has a state of its own. *)
Class EngineMechLaws (M W : Type) `{EngineMech M W} := {
  em_in_state : Type;
  em_out_state : Type;
  em_in : M -> em_in_state;
  em_out : M -> em_out_state;
  em_dec : em_in_state -> frame -> em_in_state * (frame + errno);
  em_enc : em_out_state -> frame -> em_out_state * option frame;
  law_decode m f : exists m', em_decode m f = Some (m', (em_dec (em_in m) f).2) /\
    em_in m' = (em_dec (em_in m) f).1 /\ em_out m' = em_out m /\ em_user_id m' = em_user_id m;
  law_refuses p f : (em_dec p f).2 <> inr EAGAIN;
  law_encode m f : exists m', em_encode m f = Some (m', (em_enc (em_out m) f).2) /\
    em_out m' = (em_enc (em_out m) f).1 /\ em_in m' = em_in m /\ em_user_id m' = em_user_id m;
}.

(** The encodings of messages, one after the other; a message that the
    mechanism cannot encode is left out. *)
Fixpoint encode_all {S : Type} (enc : S -> frame -> S * option frame) (s : S) (fs : list frame) : S * list frame :=
  match fs with
  | [] => (s, [])
  | f :: fs =>
      let (s, r) := enc s f in
      let (s, l) := encode_all enc s fs in
      (s, match r with Some f => f :: l | None => l end)
  end.

Lemma encode_all_app {S} (enc : S -> frame -> S * option frame) fs gs : forall s,
  encode_all enc s (fs ++ gs) =
  ((encode_all enc (encode_all enc s fs).1 gs).1, (encode_all enc s fs).2 ++ (encode_all enc (encode_all enc s fs).1 gs).2).
Proof.
  induction fs as [|f fs IH]; intros s; cbn [app encode_all].
  - cbn [fst snd app]. by destruct (encode_all enc s gs).
  - destruct (enc s f) as [s1 r]. rewrite IH. destruct (encode_all enc s1 fs) as [s2 l]. cbn [fst snd]. by destruct r.
Qed.

(** The heartbeats of an engine. *)
Definition pong_frame (f : frame) : Prop := exists context, (length context <= 16)%nat /\ f = Frame type_vsm flag_command (4 :: pong_name ++ context).
Definition heartbeat_sent (o : engine_options) (f : frame) : Prop := f = ping_frame o \/ pong_frame f.

(** A message to send and whether it comes from the session. *)
Definition from_session (fs : list (bool * frame)) : list frame := (base.filter (fun p => p.1 = true) fs).*2.

Lemma from_session_app fs gs : from_session (fs ++ gs) = from_session fs ++ from_session gs.
Proof. unfold from_session. by rewrite list.filter_app, fmap_app. Qed.

Section out.
Context {DS ES M W : Type} {EV : EngineEnv W} {EM : EngineMech M W} {EVL : EngineEnvLaws W} {EML : EngineMechLaws M W}.
Context (estep : ES -> frame -> bytes * ES * bool) (s0 : ES) (o : engine_options) (behind : nat -> Z).

(** The encoder has one state between messages, and sends something for
    every message. *)
Context (two_pieces : forall f, (estep s0 f).2 = false -> (estep (estep s0 f).1.2 f).2 = true).
Context (one_state : forall f, enc_after estep s0 f = s0).
Context (some_bytes : forall f, (estep s0 f).1.1 <> []).
Context (batch_ok : 1 <= eo_out_batch_size o).

Abbreviation engine := (stream_engine DS ES M).
Implicit Types (w : W) (g : engine) (m : M) (f : frame).

(** Between messages, or after one: the message goes on with [enc_after]. *)
Definition steady_next g : Prop :=
  match eg_next g with n_pull_and_encode | n_produce_ping => True | n_produce_pong => pong_frame (bt_pong (eg_beats g)) | _ => False end.

(** What sending leaves alone. *)
Record out_frame w g w' g' : Prop := {
  of_pushed : vw_pushed (ev_view w') = vw_pushed (ev_view w);
  of_received : vw_received (ev_view w') = vw_received (ev_view w);
  of_in : eg_in g' = eg_in g;
  of_process : eg_process g' = eg_process g;
  of_io_error : eg_io_error g' = eg_io_error g;
  of_mech : match eg_mech g, eg_mech g' with Some m, Some m' => em_in m' = em_in m /\ em_user_id m' = em_user_id m | None, None => True | _, _ => False end;
}.

Lemma out_frame_refl w g : out_frame w g w g.
Proof. constructor; try done. by destruct (eg_mech g). Qed.

Lemma out_frame_trans w g w1 g1 w2 g2 : out_frame w g w1 g1 -> out_frame w1 g1 w2 g2 -> out_frame w g w2 g2.
Proof.
  intros [] []. constructor; [congruence..|]. destruct (eg_mech g), (eg_mech g1), (eg_mech g2); try done. intuition congruence.
Qed.

(** A call of [_next_msg]: [x] is what it took, to be encoded. *)
Lemma next_msg_spec w g m : eg_mech g = Some m -> steady_next g ->
  exists w' g' m' r x, next_msg o w g = Some (w', g', r) /\ out_frame w g w' g' /\ eg_mech g' = Some m' /\ eg_out g' = eg_out g /\
    steady_next g' /\ vw_pulled (ev_view w') = vw_pulled (ev_view w) ++ from_session x /\ vw_written (ev_view w') = vw_written (ev_view w) /\
    Forall (fun p => p.1 = false -> heartbeat_sent o p.2) x /\
    encode_all em_enc (em_out m) x.*2 = (em_out m', match r with Some f => [f] | None => [] end).
Proof.
  intros Hm Hn. unfold next_msg, steady_next in *. destruct (eg_next g) eqn:En; try done.
  - unfold pull_and_encode. rewrite Hm. cbn [mbind option_bind]. pose proof (law_pull w) as Hv. destruct (ev_pull w) as [w1 [f|]]; cbn [fst snd] in Hv.
    + destruct (law_encode m f) as (m' & -> & Ho & Hi & Hu). cbn [mbind option_bind].
      exists w1, (set_mech g m'), m', (em_enc (em_out m) f).2, [(true, f)]. split; [done|]. rewrite Hv. cbn [eg_mech set_mech eg_next].
      rewrite En. split; [|split_and!; try done].
      * constructor; rewrite ?Hv; try done. cbn [eg_mech set_mech]. by rewrite Hm.
      * by constructor.
      * cbn [fmap list_fmap encode_all snd]. rewrite Ho. by destruct (em_enc (em_out m) f) as [? []].
    + exists w1, g, m, None, []. rewrite Hv, En. split; [done|]. split_and!; try done; [|by rewrite app_nil_r].
      constructor; rewrite ?Hv; try done. by rewrite Hm.
  - unfold produce_ping_message. rewrite Hm. cbn [mbind option_bind]. destruct (law_encode m (ping_frame o)) as (m' & -> & Ho & Hi & Hu). cbn [mbind option_bind].
    assert (encode_all em_enc (em_out m) [ping_frame o] = (em_out m', match (em_enc (em_out m) (ping_frame o)).2 with Some f => [f] | None => [] end)) as Henc.
    { cbn [encode_all]. rewrite Ho. by destruct (em_enc (em_out m) (ping_frame o)) as [? []]. }
    assert (Forall (fun p => p.1 = false -> heartbeat_sent o p.2) [(false, ping_frame o)]) as Hb by (repeat constructor).
    destruct (negb _ && _); eexists _, _, m', _, [(false, ping_frame o)]; (split; [done|]); cbn; rewrite ?law_do, app_nil_r;
      (split; [constructor; cbn; rewrite ?law_do, ?Hm; done|]); split_and!; done.
  - unfold produce_pong_message. rewrite Hm. cbn [mbind option_bind]. set (pong := bt_pong (eg_beats g)) in *.
    destruct (law_encode m pong) as (m' & -> & Ho & Hi & Hu). cbn [mbind option_bind].
    eexists _, _, m', _, [(false, pong)]. split; [done|]. cbn. rewrite app_nil_r. split; [constructor; cbn; rewrite ?Hm; done|]. split_and!; try done.
    + constructor; [intros _; by right|constructor].
    + rewrite Ho. by destruct (em_enc (em_out m) pong) as [? []].
Qed.

(** What was sent since a moment when [t0] was written or waiting, [pl0]
    was pulled and the mechanism was in state [p0]. *)
Context (t0 : bytes) (pl0 : list frame) (p0 : em_out_state).

Record sent_ok w g (fs : list (bool * frame)) : Prop := {
  sk_mech : exists m, eg_mech g = Some m /\ em_out m = (encode_all em_enc p0 fs.*2).1;
  sk_enc : enc_ok estep s0 (ou_encoder (eg_out g));
  sk_wire : vw_written (ev_view w) ++ ou_data (eg_out g) ++ en_rest estep (ou_encoder (eg_out g)) =
    t0 ++ enc_wires estep s0 (encode_all em_enc p0 fs.*2).2;
  sk_pulled : vw_pulled (ev_view w) = pl0 ++ from_session fs;
  sk_beats : Forall (fun p => p.1 = false -> heartbeat_sent o p.2) fs;
  sk_next : steady_next g;
}.

Lemma enc_wires_app l r : enc_wires estep s0 (l ++ r) = enc_wires estep s0 l ++ enc_wires estep s0 r.
Proof. by rewrite !(enc_wires_one estep s0 _ one_state), fmap_app, concat_app. Qed.

(** A call of [_next_msg] and the message, if any, not yet encoded. *)
Lemma next_msg_sent w g fs : sent_ok w g fs ->
  exists w' g' r x, next_msg o w g = Some (w', g', r) /\ out_frame w g w' g' /\ eg_out g' = eg_out g /\
    (match r with
     | None => sent_ok w' g' (fs ++ x)
     | Some f => forall e out, enc_ok estep s0 e -> out ++ en_rest estep e = enc_wire estep s0 f -> en_rest estep (ou_encoder (eg_out g)) = [] ->
         sent_ok w' (set_out g' (Output e (ou_data (eg_out g) ++ out) (ou_stopped (eg_out g)))) (fs ++ x)
     end).
Proof.
  intros [(m & Hm & Ho) He Hw Hp Hb Hn].
  destruct (next_msg_spec w g m Hm Hn) as (w1 & g1 & m1 & r & x & Hnext & Hf & Hm1 & Hout & Hn1 & Hpl & Hwr & Hbx & Henc).
  exists w1, g1, r, x. split; [done|]. split; [done|]. split; [done|].
  assert (encode_all em_enc p0 (fs ++ x).*2 = (em_out m1, (encode_all em_enc p0 fs.*2).2 ++ match r with Some f => [f] | None => [] end)) as Hall.
  { by rewrite fmap_app, encode_all_app, <- Ho, Henc. }
  assert (Forall (fun p => p.1 = false -> heartbeat_sent o p.2) (fs ++ x)) as Hb' by (by apply Forall_app_2).
  destruct r as [f|].
  - intros e out Hok Hrest Hnil. constructor; cbn [eg_mech eg_out set_out ou_encoder ou_data]; try done.
    + exists m1. by rewrite Hall.
    + rewrite Hall, Hwr. cbn [snd]. rewrite enc_wires_app, (app_assoc t0), <- Hw, Hnil, app_nil_r, <- !app_assoc, Hrest.
      cbn [enc_wires]. by rewrite app_nil_r.
    + by rewrite Hpl, Hp, from_session_app, app_assoc.
  - constructor; try done.
    + exists m1. by rewrite Hall.
    + by rewrite Hout.
    + rewrite Hall, Hwr, Hout, app_nil_r. done.
    + by rewrite Hpl, Hp, from_session_app, app_assoc.
Qed.

Lemma out_fill_spec fuel : forall w g own fs, sent_ok w g fs ->
  (Z.of_nat (length (ou_data (eg_out g))) < eo_out_batch_size o -> en_msg (ou_encoder (eg_out g)) = None) ->
  eo_out_batch_size o - Z.of_nat (length (ou_data (eg_out g))) < Z.of_nat fuel -> (own = true -> ou_data (eg_out g) = []) ->
  exists w' g' x, out_fill estep o fuel w g own = Some (w', g') /\ out_frame w g w' g' /\ sent_ok w' g' (fs ++ x).
Proof.
  induction fuel as [|fuel IH]; intros w g own fs Hok Hidle Hfuel Hown; cbn [out_fill].
  { rewrite (proj2 (Z.ltb_ge _ _)) by lia. exists w, g, []. rewrite app_nil_r. split; [done|]. by split; [apply out_frame_refl|]. }
  destruct (Z.ltb_spec (Z.of_nat (length (ou_data (eg_out g)))) (eo_out_batch_size o)) as [Hlt|]; [|
    exists w, g, []; rewrite app_nil_r; split; [done|]; by split; [apply out_frame_refl|]].
  specialize (Hidle Hlt). destruct (next_msg_sent w g fs Hok) as (w1 & g1 & r & x & -> & Hf & Hout & Hr). cbn [mbind option_bind].
  destruct r as [f|]; [|by exists w1, g1, x].
  rewrite Hout. destruct Hok as [_ He _ _ _ _].
  destruct (enc_load_msg_ok estep (fun s => s = s0) ltac:(intros s f' ->; apply two_pieces) s0 _ f eq_refl He Hidle) as (e1 & -> & Hm1 & Hok1 & Hr1).
  cbn [mbind option_bind]. rewrite one_state in Hok1. set (size := Z.of_nat (length (ou_data (eg_out g)))) in *.
  assert ((if own then eo_out_batch_size o else eo_out_batch_size o - size) = eo_out_batch_size o - size) as Hsize.
  { destruct own; [|done]. unfold size. rewrite Hown by done. simpl. lia. }
  destruct (enc_encode_ok estep s0 e1 f own (if own then eo_out_batch_size o else eo_out_batch_size o - size) Hm1 Hok1) as (out & e2 & Henc & Hok2 & _ & Hrest & Hne & _); [lia|].
  rewrite Henc. cbn [mbind option_bind]. rewrite Hr1 in Hrest, Hne.
  assert (enc_wire estep s0 f <> []) as Hwire by (unfold enc_wire; intros [Hnil _]%app_eq_nil; by eapply some_bytes).
  specialize (Hne Hwire). assert (0 < length out)%nat as Hpos by (destruct out; [done|simpl; lia]). rewrite (proj2 (Nat.ltb_lt _ _)) by done.
  assert (en_rest estep (ou_encoder (eg_out g)) = []) as Hnil by (unfold en_rest; by rewrite Hidle).
  pose proof (Hr e2 out Hok2 Hrest Hnil) as Hsent.
  edestruct (IH _ _ false _ Hsent) as (w2 & g2 & y & -> & Hf2 & Hs2); cbn [eg_out set_out ou_data ou_encoder].
  - intros Hl. rewrite length_app in Hl. eapply enc_encode_room; [exact Henc|]. rewrite Hsize. lia.
  - rewrite length_app. lia.
  - done.
  - exists w2, g2, (x ++ y). split; [done|]. rewrite app_assoc. split; [|done]. eapply out_frame_trans; [exact Hf|].
    destruct Hf2. by constructor.
Qed.

(** One call of [out_event]. *)
Lemma out_event_spec w g fs : sent_ok w g fs -> eg_io_error g = false ->
  exists w' g' x, out_event estep o w g = Some (w', g') /\ out_frame w g w' g' /\ sent_ok w' g' (fs ++ x).
Proof.
  intros Hok Hio. unfold out_event. rewrite Hio. cbn [negb].
  assert (exists w1 g1 x, match ou_data (eg_out g) with
    | _ :: _ => Some (w, g)
    | [] => let* (out, e) := enc_encode estep (ou_encoder (eg_out g)) true (eo_out_batch_size o) in
        out_fill estep o (out_fuel o) w (set_out g (Output e out (ou_stopped (eg_out g)))) (bool_decide (en_msg (ou_encoder (eg_out g)) = None))
    end = Some (w1, g1) /\ out_frame w g w1 g1 /\ sent_ok w1 g1 (fs ++ x)) as (w1 & g1 & x & -> & Hf & Hs).
  { destruct (ou_data (eg_out g)) as [|b data] eqn:Ed; [|exists w, g, []; rewrite app_nil_r; split; [done|]; by split; [apply out_frame_refl|]].
    destruct Hok as [Hm He Hw Hp Hb Hn]. rewrite Ed in Hw. cbn [app] in Hw.
    assert (exists out e, enc_encode estep (ou_encoder (eg_out g)) true (eo_out_batch_size o) = Some (out, e) /\ enc_ok estep s0 e /\
      out ++ en_rest estep e = en_rest estep (ou_encoder (eg_out g)) /\ (en_msg (ou_encoder (eg_out g)) = None -> out = [])) as (out & e & Henc & He' & Hr & Hnil).
    { destruct (en_msg (ou_encoder (eg_out g))) as [f|] eqn:Em.
      - destruct (enc_encode_ok estep s0 _ f true (eo_out_batch_size o) Em He) as (out & e & ? & ? & _ & ? & _); [lia|]. by exists out, e.
      - unfold enc_encode. rewrite Em. eexists [], _. done. }
    rewrite Henc. cbn [mbind option_bind].
    destruct (out_fill_spec (out_fuel o) w (set_out g (Output e out (ou_stopped (eg_out g)))) (bool_decide (en_msg (ou_encoder (eg_out g)) = None)) fs)
      as (w1 & g1 & x & Hfill & Hf & Hs); cbn [eg_out set_out ou_data ou_encoder].
    - constructor; cbn [eg_mech eg_out set_out ou_data ou_encoder]; try done. by rewrite Hr.
    - intros Hl. by eapply enc_encode_room.
    - unfold out_fuel. lia.
    - intros Hb'. apply bool_decide_eq_true in Hb'. by apply Hnil.
    - exists w1, g1, x. split; [done|]. split; [|done]. destruct Hf. by constructor. }
  cbn [mbind option_bind]. destruct (ou_data (eg_out g1)) as [|b data] eqn:Ed.
  - eexists _, _, x. split; [done|]. split.
    + eapply out_frame_trans; [exact Hf|]. constructor; cbn; rewrite ?law_do; try done. by destruct (eg_mech g1).
    + destruct Hs. constructor; cbn; rewrite ?law_do; done.
  - pose proof (law_write w1 (b :: data)) as Hwr. destruct (ev_write w1 (b :: data)) as [w2 [n|]].
    + destruct Hwr as [Hn Hv]. eexists _, _, x. split; [done|]. split.
      * eapply out_frame_trans; [exact Hf|]. constructor; cbn; rewrite ?Hv; try done. by destruct (eg_mech g1).
      * destruct Hs as [Hm He Hw Hp Hb Hnx]. constructor; cbn [eg_mech eg_out set_out ou_data ou_encoder]; rewrite ?Hv; try done.
        cbn [vw_written]. rewrite <- Hw, Ed, <- app_assoc. f_equal. rewrite app_assoc, take_drop. done.
    + eexists _, _, x. split; [done|]. split.
      * eapply out_frame_trans; [exact Hf|]. constructor; rewrite ?law_do, ?Hwr; try done. by destruct (eg_mech g1).
      * destruct Hs as [Hm He Hw Hp Hb Hnx]. by constructor; rewrite ?law_do, ?Hwr.
Qed.

Lemma restart_output_spec w g fs : sent_ok w g fs ->
  exists w' g' x, restart_output estep o w g = Some (w', g') /\ out_frame w g w' g' /\ sent_ok w' g' (fs ++ x).
Proof.
  intros Hok. unfold restart_output. destruct (eg_io_error g) eqn:Hio; [exists w, g, []; rewrite app_nil_r; split; [done|]; by split; [apply out_frame_refl|]|].
  destruct (ou_stopped (eg_out g)); [|by apply out_event_spec].
  destruct (out_event_spec (ev_do w ea_set_pollout) (set_out_stopped g false) fs) as (w1 & g1 & x & H & Hf & Hs).
  - destruct Hok. by constructor; rewrite ?law_do.
  - done.
  - exists w1, g1, x. split; [done|]. split; [|done]. destruct Hf as [H1 H2 H3 H4 H5 H6]. rewrite law_do in H1, H2. by constructor.
Qed.
End out.
