(* ===== verification/EngineIn.v ===== *)
(** * What an engine receives

    The input half of the engine: in whatever pieces the bytes arrive, and
    however often the session has no room, it is given the messages that
    the decoder makes of all the bytes, each decoded by the mechanism once,
    in order, none lost and none twice, after the credential of the peer.
    [engine_fault] names the calls in which an assertion fails. *)

From Stdlib Require Import String.
From S2P Require Import Prelude Wire Frame Codec Options Mechanism Handshake Session Engine EngineOut.

(** The kind of a command is noted in its flags. *)
Definition received_as (f : frame) : frame := if fr_is_command f then default f (command_kind f) else f.

(** What the mechanism makes of a sequence of messages, up to the first
    that it refuses. *)
Fixpoint deliver {S : Type} (dec : S -> frame -> S * (frame + errno)) (s : S) (ms : list frame) : S * list frame * bool :=
  match ms with
  | [] => (s, [], true)
  | f :: ms =>
      match dec s f with
      | (s, inr _) => (s, [], false)
      | (s, inl f) => let '(s, l, ok) := deliver dec s ms in (s, received_as f :: l, ok)
      end
  end.

Lemma deliver_snoc {S} (dec : S -> frame -> S * (frame + errno)) f ms : forall s s1 l, deliver dec s ms = (s1, l, true) ->
  deliver dec s (ms ++ [f]) =
  match dec s1 f with (s2, inr _) => (s2, l, false) | (s2, inl f) => (s2, l ++ [received_as f], true) end.
Proof.
  induction ms as [|g ms IH]; intros s s1 l; cbn [deliver app].
  - intros [= <- <-]. by destruct (dec s f) as [s2 [f'|e]].
  - destruct (dec s g) as [s2 [g'|e]]; [|done]. destruct (deliver dec s2 ms) as [[s3 l3] ok] eqn:E. intros [= <- <- ->].
    rewrite (IH _ _ _ E). by destruct (dec s3 f) as [s4 [f'|e]].
Qed.

Lemma deliver_app {S} (dec : S -> frame -> S * (frame + errno)) f ms s s1 f1 l : dec s f = (s1, inl f1) ->
  (deliver dec s1 ms).1.2 = l -> (deliver dec s (f :: ms)).1.2 = received_as f1 :: l.
Proof. intros Hd Hl. cbn [deliver]. rewrite Hd. destruct (deliver dec s1 ms) as [[s2 l2] ok]. cbn in *. by subst. Qed.

(** A PING, as the engine answers it. *)
Definition is_ping_command (f : frame) : bool := fr_is_command f && fr_is_ping f.

Lemma set_flag_command f flag : fr_is_command f = true -> fr_is_command (set_flag f flag) = true.
Proof.
  unfold fr_is_command, set_flag. cbn [fr_flags]. rewrite !negb_true_iff, !Z.eqb_neq. intros H H0. apply H.
  rewrite Z.land_lor_distr_l in H0. by apply Z.lor_eq_0_iff in H0 as [? _].
Qed.

Lemma received_command f : fr_is_command f = true -> fr_is_command (received_as f) = true.
Proof.
  intros H. unfold received_as. rewrite H. unfold command_kind. destruct (fr_body f) as [|n rest]; [done|].
  destruct (_ <? _); cbn [default from_option]; [done|]. repeat case_match; rewrite ?set_flag_command; try done; by repeat apply set_flag_command.
Qed.

Section input.
Context {DS ES M W : Type} {EV : EngineEnv W} {EM : EngineMech M W} {EVL : EngineEnvLaws W} {EML : EngineMechLaws M W}.
Context (dstep : DS -> bytes -> Z -> step_result DS) (estep : ES -> frame -> bytes * ES * bool) (s0 : ES) (o : engine_options) (behind : nat -> Z).
Context (two_pieces : forall f, (estep s0 f).2 = false -> (estep (estep s0 f).1.2 f).2 = true).
Context (one_state : forall f, enc_after estep s0 f = s0).
Context (some_bytes : forall f, (estep s0 f).1.1 <> []).
Context (batch_ok : 1 <= eo_out_batch_size o).
Context (t0 : bytes) (pl0 : list frame) (po0 : em_out_state (M := M) (W := W)).

Abbreviation engine := (stream_engine DS ES M).
Abbreviation sent_ok := (sent_ok estep s0 o t0 pl0 po0).
Implicit Types (w : W) (g : engine) (m : M) (f : frame).

(** What processing a message leaves alone. *)
Record in_frame w g f w' g' : Prop := {
  if_received : vw_received (ev_view w') = vw_received (ev_view w);
  if_in : eg_in g' = eg_in (set_in_msg g f);
  if_io_error : eg_io_error g' = eg_io_error g;
}.

Lemma in_frame_msg w g f w' g' : in_frame w g f w' g' -> in_msg (eg_in g') = f.
Proof. by intros [_ -> _]. Qed.

(** A PING is answered, whatever its size; after an error of the
    connection the assertion of [out_event] fails. *)
Lemma process_heartbeat_spec w g fs : sent_ok w g fs ->
  (exists w' g' x, process_heartbeat_message estep o behind w g = Some (w', g') /\ out_frame w g w' g' /\ sent_ok w' g' (fs ++ x)) \/
  (eg_io_error g = true /\ fr_is_ping (in_msg (eg_in g)) = true /\ process_heartbeat_message estep o behind w g = None).
Proof.
  intros Hok. unfold process_heartbeat_message.
  destruct (fr_is_ping _) eqn:Hping;
    [|left; exists w, g, []; rewrite app_nil_r; split; [done|]; by split; [apply out_frame_refl|]].
  destruct (eg_io_error g) eqn:Hio; [right; split; [done|]; split; [done|]|left].
  { case_match. unfold out_event. cbn. by rewrite Hio. }
  set (ttl := u16 _). set (b := eg_beats g).
  assert (exists w1 t, (if negb (bt_ttl b) && (0 <? ttl) then (ev_do w (ea_add_timer heartbeat_ttl_timer ttl), true) else (w, bt_ttl b)) = (w1, t) /\
    ev_view w1 = ev_view w) as (w1 & t & -> & Hv).
  { destruct (_ && _); eexists _, _; (split; [done|]); by rewrite ?law_do. }
  match goal with |- context [Frame type_vsm flag_command (4 :: pong_name ++ ?c)] => set (context := c) end.
  destruct (out_event_spec estep s0 o two_pieces one_state some_bytes batch_ok t0 pl0 po0 w1
    (set_next (set_beats g (Beats (bt_interval b) (bt_timeout b) t (Frame type_vsm flag_command (4 :: pong_name ++ context)))) n_produce_pong) fs)
    as (w2 & g2 & x & H & Hf & Hs).
  - destruct Hok as [Hm He Hw Hp Hb Hn]. constructor; rewrite ?Hv; try done. cbn. exists context. split; [|done].
    unfold context. rewrite length_fmap, length_seq. unfold ping_max_ctx_len. lia.
  - done.
  - exists w2, g2, x. split; [done|]. split; [|done]. destruct Hf as [H1 H2 H3 H4 H5 H6]. rewrite Hv in H1, H2. by constructor.
Qed.

Lemma sent_ok_in w g f fs : sent_ok w g fs -> sent_ok w (set_in_msg g f) fs.
Proof. intros []. by constructor. Qed.

Lemma process_command_spec w g fs : sent_ok w g fs -> fr_is_command (in_msg (eg_in g)) = true ->
  (exists w' g' x, process_command_message estep o behind w g = Some (w', g') /\ out_frame w (set_in_msg g (received_as (in_msg (eg_in g)))) w' g' /\ sent_ok w' g' (fs ++ x)) \/
  (eg_io_error g = true /\ is_ping_command (received_as (in_msg (eg_in g))) = true /\ process_command_message estep o behind w g = None).
Proof.
  intros Hok Hcmd. pose proof (received_command _ Hcmd) as Hrc. unfold is_ping_command. rewrite Hrc. clear Hrc.
  unfold process_command_message, received_as. rewrite Hcmd.
  destruct (command_kind (in_msg (eg_in g))) as [f|]; cbn [default from_option id andb]; [|left].
  - destruct (is_heartbeat f).
    + by apply process_heartbeat_spec, sent_ok_in.
    + left. exists w, (set_in_msg g f), []. rewrite app_nil_r. split; [done|]. split; [apply out_frame_refl|by apply sent_ok_in].
  - exists w, g, []. rewrite app_nil_r. split; [done|]. split; [|done].
    assert (set_in_msg g (in_msg (eg_in g)) = g) as -> by (by destruct g as [[]]). apply out_frame_refl.
Qed.

Lemma cancel_waiting_spec w g : exists w' b, cancel_waiting w g = (w', set_beats g b) /\ ev_view w' = ev_view w /\ bt_pong b = bt_pong (eg_beats g).
Proof.
  unfold cancel_waiting. eexists _, _. split; [done|]. split; [|done]. by destruct (bt_timeout _), (bt_ttl _); rewrite ?law_do.
Qed.

(** The mechanism decodes [f] to a PING. *)
Definition pings (p : em_in_state (M := M) (W := W)) f : Prop := exists p1 f1, em_dec p f = (p1, inl f1) /\ is_ping_command (received_as f1) = true.

(** [decode_and_push]: the mechanism decodes the message once. *)
Lemma decode_and_push_spec w g m fs : sent_ok w g fs -> eg_mech g = Some m ->
  (eg_io_error g = true /\ pings (em_in m) (in_msg (eg_in g)) /\ decode_and_push estep o behind w g = None) \/
  exists w' g' rc m' x, decode_and_push estep o behind w g = Some (w', g', rc) /\ sent_ok w' g' (fs ++ x) /\
    eg_mech g' = Some m' /\ em_user_id m' = em_user_id m /\ em_in m' = (em_dec (em_in m) (in_msg (eg_in g))).1 /\
    match (em_dec (em_in m) (in_msg (eg_in g))).2 with
    | inr e => rc = Some e /\ in_frame w g (in_msg (eg_in g)) w' g' /\ vw_pushed (ev_view w') = vw_pushed (ev_view w) /\ eg_process g' = eg_process g
    | inl f => in_frame w g (received_as f) w' g' /\
        vw_pushed (ev_view w') = vw_pushed (ev_view w) ++ (match rc with None => [received_as f] | _ => [] end) /\
        eg_process g' = match rc with Some EAGAIN => p_push_one | _ => eg_process g end
    end.
Proof.
  intros Hok Hm. unfold pings, decode_and_push. rewrite Hm. cbn [mbind option_bind].
  destruct (law_decode m (in_msg (eg_in g))) as (m1 & -> & Hi & Ho & Hu). cbn [mbind option_bind].
  assert (sent_ok w (set_mech g m1) fs) as Hok1.
  { destruct Hok as [(m2 & Hm2 & Ho2) He Hw Hp Hb Hn]. rewrite Hm in Hm2. injection Hm2 as <-. constructor; try done. exists m1. by rewrite Ho. }
  destruct (em_dec (em_in m) (in_msg (eg_in g))) as [p1 [f|e]]; cbn [fst snd] in *.
  - destruct (cancel_waiting_spec w (set_in_msg (set_mech g m1) f)) as (w1 & b & -> & Hv & Hpong).
    set (g1 := set_beats (set_in_msg (set_mech g m1) f) b).
    assert (sent_ok w1 g1 fs) as Hok2.
    { destruct Hok1 as [Hm1 He Hw Hp Hb Hn]. constructor; rewrite ?Hv; try done. unfold steady_next, g1 in *. cbn in *. by rewrite Hpong. }
    assert ((exists w2 g2 x, (if fr_is_command f then process_command_message estep o behind w1 g1 else Some (w1, g1)) = Some (w2, g2) /\
      out_frame w1 (set_in_msg g1 (received_as f)) w2 g2 /\ sent_ok w2 g2 (fs ++ x)) \/
      (eg_io_error g = true /\ is_ping_command (received_as f) = true /\ (if fr_is_command f then process_command_message estep o behind w1 g1 else Some (w1, g1)) = None))
      as [(w2 & g2 & x & -> & Hf & Hok3)|(Hio & Hping & ->)]; cycle 2.
    { left. split; [done|]. split; [by exists p1, f|done]. }
    { destruct (fr_is_command f) eqn:Ec; [by apply process_command_spec|left].
      - exists w1, g1, []. rewrite app_nil_r. split; [done|]. split; [|done]. unfold received_as. rewrite Ec. by apply out_frame_refl. }
    right. cbn [mbind option_bind]. destruct Hf as [F1 F2 F3 F4 F5 F6]. cbn in F6. destruct (eg_mech g2) as [m2|] eqn:Em2; [|done]. destruct F6 as [F6 F7].
    unfold push_in_msg. rewrite F3. change (in_msg (eg_in (set_in_msg g1 (received_as f)))) with (received_as f).
    pose proof (law_push w2 (received_as f)) as Hpush. destruct (ev_push w2 (received_as f)) as [w3 rc] eqn:Epush. cbn [fst snd] in Hpush.
    exists w3, (match rc with Some EAGAIN => set_process g2 p_push_one | _ => g2 end), rc, m2, x.
    split; [by destruct rc as [[]|]|].
    assert (ev_view w3 = match rc with None => View (vw_pushed (ev_view w2) ++ [received_as f]) (vw_received (ev_view w2)) (vw_pulled (ev_view w2)) (vw_written (ev_view w2)) | _ => ev_view w2 end) as Hv3 by done.
    assert (sent_ok w3 g2 (fs ++ x)) as Hok4 by (destruct Hok3; constructor; rewrite ?Hv3; by destruct rc).
    split; [destruct rc as [[]|]; try done; by destruct Hok4|]. split; [by destruct rc as [[]|]|].
    split; [congruence|]. split; [congruence|]. split; [constructor|].
    + rewrite Hv3. transitivity (vw_received (ev_view w2)); [by destruct rc|]. by rewrite F2, Hv.
    + transitivity (eg_in g2); [by destruct rc as [[]|]|done].
    + transitivity (eg_io_error g2); [by destruct rc as [[]|]|done].
    + split; [|destruct rc as [[]|]; done]. rewrite Hv3. destruct rc; cbn [vw_pushed]; by rewrite F1, Hv, ?app_nil_r.
  - right. exists w, (set_mech g m1), (Some e), m1, []. rewrite app_nil_r. split; [done|]. split; [done|]. split; [done|]. split; [done|]. split; [done|].
    split; [done|]. split; [|done]. constructor; try done. by destruct g as [[]].
Qed.

(** ** The state between two messages *)

Context (d0 : decoder DS) (uid : bytes) (p0 : em_in_state (M := M) (W := W)) (rc0 : bytes) (pu0 : list frame).

(** The credential of the peer comes first. *)
Definition credentials : list frame := match uid with [] => [] | _ => [user_credential uid] end.

(** All that the session is to be given for [ms]. *)
Definition due (ms : list frame) : list frame := match ms with [] => [] | _ => credentials ++ (deliver em_dec p0 ms).1.2 end.

(** The messages [ms] were decoded, the session took [l], the mechanism is
    in state [p]; with [waiting] the session has refused the last one,
    which the decoder keeps as [f]. *)
Inductive taken : process_fn -> em_in_state (M := M) (W := W) -> list frame -> frame -> bool -> list frame -> Prop :=
| tk_start f : taken p_write_credential p0 [] f false []
| tk_start_wait f : taken p_write_credential p0 [f] f true []
| tk_run p ms l f : ms <> [] -> deliver em_dec p0 ms = (p, l, true) -> taken p_decode_and_push p ms f false (credentials ++ l)
| tk_wait p ms l f : deliver em_dec p0 ms = (p, l ++ [f], true) -> taken p_push_one p ms f true (credentials ++ l).

(** The last of [ms] is to be processed. *)
Inductive ready : process_fn -> em_in_state (M := M) (W := W) -> list frame -> frame -> list frame -> Prop :=
| rd_start f : ready p_write_credential p0 [f] f []
| rd_run p ms l f : deliver em_dec p0 ms = (p, l, true) -> ready p_decode_and_push p (ms ++ [f]) f (credentials ++ l)
| rd_again p ms l f : deliver em_dec p0 ms = (p, l ++ [f], true) -> ready p_push_one p ms f (credentials ++ l).

Lemma taken_next pr p ms f f' l : taken pr p ms f false l -> ready pr p (ms ++ [f']) f' l.
Proof. inversion 1; subst; by constructor. Qed.

Lemma taken_mech pr p ms f l : taken pr p ms f false l -> exists l', deliver em_dec p0 ms = (p, l', true).
Proof. inversion 1; subst; by eexists. Qed.

Lemma taken_again pr p ms f l : taken pr p ms f true l -> ready pr p ms f l.
Proof. inversion 1; subst; by constructor. Qed.

Lemma taken_due pr p ms f b l : taken pr p ms f b l -> l `prefix_of` due ms.
Proof.
  destruct 1 as [f|f|p ms l f Hne H|p ms l f H]; try apply prefix_nil.
  - unfold due. rewrite H. by destruct ms.
  - unfold due. rewrite H. destruct ms; [by destruct l|]. apply prefix_app. by eexists.
Qed.

(** All of it, or all but the last message. *)
Lemma taken_all pr p ms f l : taken pr p ms f false l -> l = due ms.
Proof. inversion 1 as [| |? ? ? ? Hne Hd|]; subst; [done|]. unfold due. rewrite Hd. by destruct ms. Qed.

Lemma deliver_init ms f p l : deliver em_dec p0 (ms ++ [f]) = (p, l, true) -> exists p', deliver em_dec p0 ms = (p', take (length ms) l, true) /\ length l = S (length ms).
Proof.
  revert l. generalize p0. induction ms as [|f0 ms IH]; intros q l; cbn [app deliver].
  - destruct (em_dec q f) as [q1 [f1|e]]; [|done]. intros [= <- <-]. by eexists.
  - destruct (em_dec q f0) as [q1 [f1|e]]; [|done]. destruct (deliver em_dec q1 (ms ++ [f])) as [[q2 l2] ok] eqn:E. intros [= <- <- ->].
    destruct (IH _ _ E) as (p' & -> & Hl). exists p'. cbn [length take]. by rewrite Hl.
Qed.

Lemma taken_waiting pr p ms f l : taken pr p ms f true l -> exists ms' f', ms = ms' ++ [f'] /\ due ms' `prefix_of` l.
Proof.
  inversion 1 as [|f0|p1 ms1 l1 f1 H0|p1 ms1 l1 f1 Hd]; subst.
  - exists [], f. split; [done|apply prefix_nil].
  - destruct ms as [|f' ms' _] using rev_ind; [by destruct l1|]. exists ms', f'. split; [done|].
    destruct (deliver_init _ _ _ _ Hd) as (p' & Hd' & Hl). unfold due. rewrite Hd'. cbn [fst snd].
    rewrite length_app in Hl. cbn in Hl. rewrite take_app_le, firstn_all2 by lia. destruct ms'; [apply prefix_nil|done].
Qed.

(** [decode_and_push] on the next message. *)
Lemma decode_and_push_taken w g m fs ms l : sent_ok w g fs -> eg_mech g = Some m ->
  eg_process g = p_decode_and_push -> deliver em_dec p0 ms = (em_in m, l, true) -> vw_pushed (ev_view w) = pu0 ++ credentials ++ l ->
  (eg_io_error g = true /\ pings (em_in m) (in_msg (eg_in g)) /\ decode_and_push estep o behind w g = None) \/
  exists w' g' rc m' f' x l', decode_and_push estep o behind w g = Some (w', g', rc) /\ sent_ok w' g' (fs ++ x) /\ in_frame w g f' w' g' /\
    eg_mech g' = Some m' /\ em_user_id m' = em_user_id m /\ vw_pushed (ev_view w') = pu0 ++ l' /\
    match rc with
    | None => taken (eg_process g') (em_in m') (ms ++ [in_msg (eg_in g)]) f' false l'
    | Some EAGAIN => taken (eg_process g') (em_in m') (ms ++ [in_msg (eg_in g)]) f' true l'
    | Some _ => l' `prefix_of` due (ms ++ [in_msg (eg_in g)])
    end.
Proof.
  intros Hok Hm Hpr Hdel Hpu.
  destruct (decode_and_push_spec w g m fs Hok Hm) as [?|(w1 & g1 & rc & m1 & x & -> & Hok1 & Hm1 & Hu1 & Hi1 & Hcase)]; [by left|right].
  pose proof (deliver_snoc em_dec (in_msg (eg_in g)) ms p0 _ _ Hdel) as Hsnoc.
  pose proof (law_refuses (em_in m) (in_msg (eg_in g))) as Href.
  destruct (em_dec (em_in m) (in_msg (eg_in g))) as [p1 [f|e]]; cbn [fst snd] in *.
  - destruct Hcase as (Hf & Hpush & Hpr1). exists w1, g1, rc, m1, (received_as f), x, (credentials ++ l ++ match rc with None => [received_as f] | _ => [] end).
    do 5 (split; [done|]). split; [by rewrite Hpush, Hpu, <- !app_assoc|]. rewrite <- Hi1 in Hsnoc. rewrite Hpr in Hpr1.
    assert (credentials ++ l `prefix_of` due (ms ++ [in_msg (eg_in g)])) as Hdue.
    { unfold due. rewrite Hsnoc. cbn [fst snd]. destruct (ms ++ _) eqn:E; [by apply app_eq_nil in E as []|]. apply prefix_app. by eexists. }
    destruct rc as [e|]; [|rewrite Hpr1; constructor; [by intros []%app_eq_nil|done]]. rewrite app_nil_r. destruct e; try done. rewrite Hpr1. by constructor.
  - destruct Hcase as (-> & Hf & Hpush & Hpr1). exists w1, g1, (Some e), m1, (in_msg (eg_in g)), x, (credentials ++ l).
    do 5 (split; [done|]). split; [by rewrite Hpush, Hpu|].
    assert (credentials ++ l `prefix_of` due (ms ++ [in_msg (eg_in g)])) as Hdue by (unfold due; rewrite Hsnoc; by destruct (ms ++ _) eqn:E; [apply app_eq_nil in E as []|]).
    by destruct e.
Qed.

(** One message, whatever [_process_msg] is. *)
Lemma process_msg_spec w g m fs ms l : sent_ok w g fs -> eg_mech g = Some m -> em_user_id m = uid ->
  ready (eg_process g) (em_in m) ms (in_msg (eg_in g)) l -> vw_pushed (ev_view w) = pu0 ++ l ->
  (eg_io_error g = true /\ eg_process g <> p_push_one /\ pings (em_in m) (in_msg (eg_in g)) /\ process_msg estep o behind w g = None) \/
  exists w' g' rc m' f' x l', process_msg estep o behind w g = Some (w', g', rc) /\ sent_ok w' g' (fs ++ x) /\ in_frame w g f' w' g' /\
    eg_mech g' = Some m' /\ em_user_id m' = em_user_id m /\ vw_pushed (ev_view w') = pu0 ++ l' /\
    match rc with
    | None => taken (eg_process g') (em_in m') ms f' false l'
    | Some EAGAIN => taken (eg_process g') (em_in m') ms f' true l'
    | Some _ => l' `prefix_of` due ms
    end.
Proof.
  intros Hok Hm Hu Hr Hpu. unfold process_msg. inversion Hr as [f Hpr Hp Hms Hf Hl|p ms1 l1 f Hdel Hpr Hp Hms Hf Hl|p ms1 l1 f Hdel Hpr Hp Hms Hf Hl]; subst.
  - unfold write_credential. rewrite Hm. cbn [mbind option_bind]. rewrite app_nil_r in Hpu.
    assert (exists w1 rc, match em_user_id m with [] => (w, None) | credential => ev_push w (user_credential credential) end = (w1, rc) /\
      ev_view w1 = View (vw_pushed (ev_view w) ++ match rc with None => credentials | _ => [] end) (vw_received (ev_view w)) (vw_pulled (ev_view w)) (vw_written (ev_view w)))
      as (w1 & rc & -> & Hv).
    { unfold credentials. rewrite Hu. destruct uid as [|b uid'] eqn:Eu.
      - exists w, None. split; [done|]. rewrite app_nil_r. by destruct (ev_view w).
      - pose proof (law_push w (user_credential (b :: uid'))) as Hpush. destruct (ev_push w _) as [w1 rc]. cbn [fst snd] in Hpush.
        exists w1, rc. split; [done|]. rewrite Hpush. destruct rc; [|done]. rewrite app_nil_r. by destruct (ev_view w). }
    assert (sent_ok w1 g fs) as Hok1 by (destruct Hok; constructor; rewrite ?Hv; done).
    destruct rc as [e|].
    + right. exists w1, g, (Some e), m, (in_msg (eg_in g)), [], []. rewrite app_nil_r. split; [done|]. split; [done|]. split; [|do 2 (split; [done|]); split].
      * constructor; [by rewrite Hv|by destruct g as [[]]|done].
      * rewrite Hv. cbn [vw_pushed]. by rewrite Hpu, app_nil_r.
      * assert ([] `prefix_of` due [in_msg (eg_in g)]) by apply prefix_nil. destruct e; try done. rewrite <- Hpr, <- Hp. by constructor.
    + destruct (decode_and_push_taken w1 (set_process g p_decode_and_push) m fs [] [])
        as [(? & ? & ?)|(w2 & g2 & rc & m2 & f2 & x & l2 & H & Hok2 & Hf2 & Hm2 & Hu2 & Hpu2 & Ht)]; try done.
      * destruct Hok1. by constructor.
      * cbn [deliver]. by rewrite Hp.
      * rewrite Hv. cbn [vw_pushed]. by rewrite Hpu, app_nil_r.
      * left. done.
      * right. exists w2, g2, rc, m2, f2, x, l2. split; [done|]. split; [done|]. split; [|done].
        destruct Hf2 as [F1 F2 F3]. constructor; [by rewrite F1, Hv|done|done].
  - destruct (decode_and_push_taken w g m fs ms1 l1) as [(? & ? & ?)|(w2 & g2 & rc & m2 & f2 & x & l2 & ?)]; try done; [by left|right]. by exists w2, g2, rc, m2, f2, x, l2.
  - right. unfold push_one_then_decode_and_push, push_in_msg. pose proof (law_push w (in_msg (eg_in g))) as Hpush.
    destruct (ev_push w (in_msg (eg_in g))) as [w1 [e|]]; cbn [fst snd] in Hpush.
    + exists w1, g, (Some e), m, (in_msg (eg_in g)), [], (credentials ++ l1). rewrite app_nil_r. split; [done|].
      split; [destruct Hok; constructor; rewrite ?Hpush; done|]. split; [constructor; [by rewrite Hpush|by destruct g as [[]]|done]|].
      do 2 (split; [done|]). split; [by rewrite Hpush|]. rewrite <- Hpr.
      assert (taken p_push_one (em_in m) ms (in_msg (eg_in g)) true (credentials ++ l1)) as Ht by (by constructor).
      pose proof (taken_due _ _ _ _ _ _ Ht). by destruct e.
    + exists w1, (set_process g p_decode_and_push), None, m, (in_msg (eg_in g)), [], (credentials ++ l1 ++ [in_msg (eg_in g)]). rewrite app_nil_r. split; [done|].
      split; [destruct Hok; constructor; rewrite ?Hpush; done|]. split; [constructor; [by rewrite Hpush|by destruct g as [[]]|done]|].
      do 2 (split; [done|]). split; [rewrite Hpush; cbn [vw_pushed]; by rewrite Hpu, <- !app_assoc|]. constructor; [|done]. intros ->. cbn in Hdel. by destruct l1.
Qed.

(** ** The loop over the data *)

Context (step_progress : forall s b a, wants_bytes (dstep s b a) \/ exists s', dstep s b a = SNext 0 s' /\ wants_bytes (dstep s' [] a)).
Context (no_again : forall s b a, dstep s b a <> SFail EAGAIN).

Record input_ok w g (waiting : bool) (ms l : list frame) : Prop := {
  ik_mech : exists m, eg_mech g = Some m /\ em_user_id m = uid /\ taken (eg_process g) (em_in m) ms (in_msg (eg_in g)) waiting l;
  ik_bytes : exists used avs, vw_received (ev_view w) = rc0 ++ used ++ in_data (eg_in g) /\ length avs = length used /\
    dec_bytes dstep d0 (zip used avs) = Some (in_decoder (eg_in g), ms, None);
  ik_dec : dec_ok (in_decoder (eg_in g));
  ik_alloc : 1 <= al_size (in_alloc (eg_in g)) /\ 1 <= al_max (in_alloc (eg_in g));
  ik_place : in_place (eg_in g) = true -> Z.of_nat (length (in_data (eg_in g))) <= dc_to_read (in_decoder (eg_in g));
  ik_pushed : vw_pushed (ev_view w) = pu0 ++ l;
}.

(** The end of the connection: what the session has is the beginning of
    what the bytes are. *)
Definition input_end w : Prop := exists used rest avs d ms e l,
  vw_received (ev_view w) = rc0 ++ used ++ rest /\ length avs = length used /\ dec_bytes dstep d0 (zip used avs) = Some (d, ms, e) /\
  l `prefix_of` due ms /\ vw_pushed (ev_view w) = pu0 ++ l.

(** After one message. *)
Definition input_after w g (rc : option errno) : Prop :=
  match rc with
  | None => exists ms l, input_ok w g false ms l
  | Some EAGAIN => exists ms l, input_ok w g true ms l
  | Some _ => input_end w
  end.

Lemma process_msg_ok w g m fs ms l used avs : sent_ok w g fs -> eg_mech g = Some m -> em_user_id m = uid ->
  ready (eg_process g) (em_in m) ms (in_msg (eg_in g)) l ->
  vw_received (ev_view w) = rc0 ++ used ++ in_data (eg_in g) -> length avs = length used ->
  dec_bytes dstep d0 (zip used avs) = Some (in_decoder (eg_in g), ms, None) ->
  dec_ok (in_decoder (eg_in g)) -> 1 <= al_size (in_alloc (eg_in g)) /\ 1 <= al_max (in_alloc (eg_in g)) ->
  (in_place (eg_in g) = true -> Z.of_nat (length (in_data (eg_in g))) <= dc_to_read (in_decoder (eg_in g))) ->
  vw_pushed (ev_view w) = pu0 ++ l ->
  (eg_io_error g = true /\ eg_process g <> p_push_one /\ pings (em_in m) (in_msg (eg_in g)) /\ process_msg estep o behind w g = None) \/
  exists w' g' rc x, process_msg estep o behind w g = Some (w', g', rc) /\ sent_ok w' g' (fs ++ x) /\ input_after w' g' rc /\
    in_data (eg_in g') = in_data (eg_in g) /\ in_decoder (eg_in g') = in_decoder (eg_in g) /\ in_stopped (eg_in g') = in_stopped (eg_in g) /\
    eg_io_error g' = eg_io_error g /\
    (rc = None -> exists m' l', eg_mech g' = Some m' /\ deliver em_dec p0 ms = (em_in m', l', true)).
Proof.
  intros Hok Hm Hu Hr Hrecv Ha Hdec Hd Hal Hip Hpu.
  destruct (process_msg_spec w g m fs ms l) as [?|(w1 & g1 & rc & m1 & f1 & x & l1 & -> & Hok1 & Hf & Hm1 & Hu1 & Hpu1 & Ht)]; [done..|by left|right].
  exists w1, g1, rc, x. split; [done|]. split; [done|]. destruct Hf as [F1 F2 F3]. rewrite F2. split.
  2: { do 4 (split; [done|]). intros ->. destruct (taken_mech _ _ _ _ _ Ht) as (l' & Hl'). by exists m1, l'. }
  assert (forall b, taken (eg_process g1) (em_in m1) ms f1 b l1 -> input_ok w1 g1 b ms l1) as Hin.
  { intros b Htk. constructor; rewrite ?F2, ?F1, ?F3; try done.
    - exists m1. split; [done|]. split; [congruence|done].
    - by exists used, avs. }
  assert (l1 `prefix_of` due ms -> input_end w1) as Hend.
  { intros Hl. exists used, (in_data (eg_in g)), avs, (in_decoder (eg_in g)), ms, None, l1. by rewrite F1. }
  destruct rc as [e|]; [|by exists ms, l1; apply Hin]. destruct e; try (by apply Hend). by exists ms, l1; apply Hin.
Qed.

(** One of the messages that the decoder makes of the data in the buffer,
    after those in [ms], is a PING. *)
Definition ping_behind g (ms : list frame) : Prop := exists m used avs d ms' e,
  eg_mech g = Some m /\ used `prefix_of` in_data (eg_in g) /\ length avs = length used /\
  dec_bytes dstep (in_decoder (eg_in g)) (zip used avs) = Some (d, ms', e) /\
  Exists (fun f => is_ping_command f = true) (deliver em_dec (em_in m) (ms ++ ms')).1.2.

(** The mechanism has decoded the message once. *)
Lemma deliver_step p ms l msg p' l' : deliver em_dec p0 ms = (p, l, true) -> deliver em_dec p0 (ms ++ [msg]) = (p', l', true) ->
  exists f1, em_dec p msg = (p', inl f1).
Proof.
  intros Hd. rewrite (deliver_snoc em_dec msg ms p0 _ _ Hd). destruct (em_dec p msg) as [p1 [f1|e]]; [|done]. intros [= <- _]. by exists f1.
Qed.

Lemma ping_first g m msg n avs d : eg_mech g = Some m -> (n <= length (in_data (eg_in g)))%nat -> length avs = n ->
  dec_bytes dstep (in_decoder (eg_in g)) (zip (take n (in_data (eg_in g))) avs) = Some (d, [msg], None) -> pings (em_in m) msg -> ping_behind g [].
Proof.
  intros Hm Hn Ha Hd (p1 & f1 & He & Hp). exists m, (take n (in_data (eg_in g))), avs, d, [msg], None.
  split; [done|]. split; [apply prefix_take|]. split; [by rewrite length_take, Ha, Nat.min_l|]. split; [done|].
  cbn [app deliver]. rewrite He. by left.
Qed.

Lemma ping_later g m n avs d msg g1 m1 f1 : eg_mech g = Some m -> (n <= length (in_data (eg_in g)))%nat -> length avs = n ->
  dec_bytes dstep (in_decoder (eg_in g)) (zip (take n (in_data (eg_in g))) avs) = Some (d, [msg], None) -> em_dec (em_in m) msg = (em_in m1, inl f1) ->
  eg_mech g1 = Some m1 -> in_decoder (eg_in g1) = d -> in_data (eg_in g1) = drop n (in_data (eg_in g)) -> ping_behind g1 [] -> ping_behind g [].
Proof.
  intros Hm Hn Ha Hd He Hm1 Hd1 Hn1 (m2 & used & avs2 & d2 & ms2 & e2 & Hm2 & Hu & Ha2 & Hdec2 & Hp).
  rewrite Hm1 in Hm2. injection Hm2 as <-. rewrite Hd1 in Hdec2. rewrite Hn1 in Hu.
  exists m, (take n (in_data (eg_in g)) ++ used), (avs ++ avs2), d2, (msg :: ms2), e2. split; [done|].
  split; [rewrite <- (take_drop n (in_data (eg_in g))) at 2; by apply prefix_app|].
  assert (length (take n (in_data (eg_in g))) = n) as Hl by (rewrite length_take; lia).
  split; [by rewrite !length_app, Hl, Ha, Ha2|].
  rewrite zip_with_app by congruence. rewrite dec_bytes_app, Hd. cbn [mbind option_bind]. rewrite Hdec2. split; [done|].
  cbn [app] in *. rewrite (deliver_app em_dec msg ms2 (em_in m) _ f1 _ He eq_refl). by right.
Qed.

Lemma in_loop_spec fuel : forall w g fs ms l, sent_ok w g fs -> input_ok w g false ms l -> (length (in_data (eg_in g)) < fuel)%nat ->
  (eg_io_error g = true /\ ping_behind g [] /\ in_loop dstep estep o behind fuel w g = None) \/
  exists w' g' rc x, in_loop dstep estep o behind fuel w g = Some (w', g', rc) /\ sent_ok w' g' (fs ++ x) /\ input_after w' g' rc /\
    in_stopped (eg_in g') = in_stopped (eg_in g) /\ eg_io_error g' = eg_io_error g /\ (rc = None -> in_data (eg_in g') = []).
Proof.
  induction fuel as [|fuel IH]; intros w g fs ms l Hok Hin Hfuel; [lia|]. cbn [in_loop].
  destruct (in_data (eg_in g)) as [|b0 data0] eqn:Edata.
  { right. exists w, g, None, []. rewrite app_nil_r. split; [done|]. split; [done|]. split; [by exists ms, l|done]. }
  rewrite <- Edata in *. set (data := in_data (eg_in g)) in *.
  destruct Hin as [(m & Hm & Hu & Ht) (used & avs & Hrecv & Ha & Hdec) Hd Hal Hip Hpu].
  destruct (dec_decode_spec dstep step_progress (in_decoder (eg_in g)) (in_place (eg_in g)) data 0 Hd) as (d' & rc & n & avs' & -> & Hn & Hn1 & Havs' & Hrc & Hrun); [by rewrite Edata|done|].
  cbn [mbind option_bind]. rewrite (proj2 (Z.leb_le _ _)), Nat2Z.id by lia.
  assert (vw_received (ev_view w) = rc0 ++ (used ++ take n data) ++ drop n data) as Hrecv'.
  { rewrite Hrecv, <- !app_assoc, take_drop. done. }
  assert (length (avs ++ avs') = length (used ++ take n data)) as Ha' by (rewrite !length_app, length_take; lia).
  assert (dec_bytes dstep d0 (zip (used ++ take n data) (avs ++ avs')) = Some (d', ms ++ (rc_out rc).1, (rc_out rc).2)) as Hdec'.
  { rewrite zip_with_app by done. rewrite dec_bytes_app, Hdec. cbn [mbind option_bind]. by rewrite Hrun. }
  destruct rc as [|msg|e]; cbn [rc_out fst snd] in Hdec'.
  - destruct Hrc as [Hlen Hd']. right. eexists _, _, None, []. rewrite app_nil_r. split; [done|]. split; [by destruct Hok|].
    rewrite app_nil_r in Hdec'. split; [|split; [done|split; [done|intros _; cbn; by rewrite drop_ge by lia]]].
    exists ms, l. constructor; try done; [by exists m|]. by exists (used ++ take n data), (avs ++ avs').
  - match goal with |- context [process_msg _ _ _ w ?x] => set (g1 := x) end.
    destruct (process_msg_ok w g1 m fs (ms ++ [msg]) l (used ++ take n data) (avs ++ avs'))
      as [(Hio & _ & Hping & ->)|(w2 & g2 & rc & x & -> & Hok2 & Hafter & Hdata & Hdec2 & Hstop & Hio2 & Hone)]; try done.
    + by destruct Hok.
    + by eapply taken_next.
    + left. split; [done|]. split; [|done]. by apply (ping_first g m msg n avs' d').
    + cbn [mbind option_bind]. destruct rc as [e|]; [right; by exists w2, g2, (Some e), x|].
      destruct Hafter as (ms2 & l2 & Hin2).
      destruct (IH w2 g2 (fs ++ x) ms2 l2 Hok2 Hin2) as [(Hio3 & Hping & ->)|(w3 & g3 & rc & y & -> & Hok3 & Hafter3 & Hstop3 & Hio3 & Hnil)].
      { rewrite Hdata. cbn. rewrite length_drop. lia. }
      * left. split; [by rewrite Hio2 in Hio3|]. split; [|done].
        destruct (Hone eq_refl) as (m2 & l3 & Hm2 & Hd2). destruct (taken_mech _ _ _ _ _ Ht) as (l4 & Hd4).
        destruct (deliver_step _ _ _ _ _ _ Hd4 Hd2) as (f1 & Hf1). by eapply (ping_later g m n avs' d' msg g2 m2 f1).
      * right. exists w3, g3, rc, (x ++ y). rewrite app_assoc. split; [done|]. split; [done|]. split; [done|].
        split; [by rewrite Hstop3, Hstop|]. split; [by rewrite Hio3, Hio2|done].
  - right. eexists _, _, (Some e), []. rewrite app_nil_r. split; [done|]. split; [by destruct Hok|].
    assert (input_end w) as Hend.
    { exists (used ++ take n data), (drop n data), (avs ++ avs'), d', ms, (Some e), l. rewrite app_nil_r in Hdec'.
      split; [done|]. split; [done|]. split; [done|]. split; [by eapply taken_due|done]. }
    split; [|done]. destruct e; try done. exfalso. destruct (dec_bytes_error dstep _ _ _ _ _ Hrun) as (s & b & a & Hs). by eapply no_again.
Qed.

(** ** The calls *)

(** A live engine between two calls: an error of the connection is noted
    when the input is stopped, and then the input stays so. *)
Definition engine_ok w g : Prop := exists fs ms l b, sent_ok w g fs /\ input_ok w g b ms l /\ in_stopped (eg_in g) = b /\
  (eg_io_error g = true -> b = true).

(** An engine that is gone: [w0] and [g0] are from before its last words. *)
Definition engine_end w : Prop := exists w0 g0 fs tail, sent_ok w0 g0 fs /\ input_end w0 /\ (tail = [] \/ tail = [fr_empty]) /\
  ev_view w = View (vw_pushed (ev_view w0) ++ tail) (vw_received (ev_view w0)) (vw_pulled (ev_view w0)) (vw_written (ev_view w0)).

Definition engine_after w (r : option engine) : Prop := match r with Some g => engine_ok w g | None => engine_end w end.

Lemma error_spec w g reason : exists tail, (tail = [] \/ tail = [fr_empty]) /\
  ev_view (error o w g reason) = View (vw_pushed (ev_view w) ++ tail) (vw_received (ev_view w)) (vw_pulled (ev_view w)) (vw_written (ev_view w)).
Proof.
  unfold error. set (w1 := if eo_notify_disconnect o then _ else w).
  assert (forall w2, ev_view (unplug w2 g) = ev_view w2) as Hun.
  { intros w2. unfold unplug. by destruct (bt_ttl _), (bt_timeout _), (bt_interval _), (eg_io_error g); rewrite ?law_do. }
  rewrite Hun, law_do, law_flush. unfold w1. destruct (eo_notify_disconnect o).
  - rewrite law_push, law_rollback. destruct (ev_push (ev_rollback w) fr_empty).2; [|exists [fr_empty]; by split; [right|]].
    exists []. rewrite app_nil_r. split; [by left|]. by destruct (ev_view w).
  - exists []. rewrite app_nil_r. split; [by left|]. by destruct (ev_view w).
Qed.

Lemma error_end w g fs reason : sent_ok w g fs -> input_end w -> engine_end (error o w g reason).
Proof. intros Hok He. destruct (error_spec w g reason) as (tail & Ht & Hv). by exists w, g, fs, tail. Qed.

Lemma input_ok_end w g b ms l : input_ok w g b ms l -> input_end w.
Proof.
  intros [(m & _ & _ & Ht) (used & avs & Hr & Ha & Hd) _ _ _ Hp]. exists used, (in_data (eg_in g)), avs, (in_decoder (eg_in g)), ms, None, l.
  do 3 (split; [done|]). split; [by eapply taken_due|done].
Qed.

Lemma engine_ok_end w g : engine_ok w g -> exists fs, sent_ok w g fs /\ input_end w.
Proof. intros (fs & ms & l & b & Hok & Hin & _ & _). exists fs. split; [done|by eapply input_ok_end]. Qed.

Lemma input_view w w' g b ms l : ev_view w' = ev_view w -> input_ok w g b ms l -> input_ok w' g b ms l.
Proof. intros Hv []. by constructor; rewrite ?Hv. Qed.

Lemma sent_view w w' g fs : ev_view w' = ev_view w -> sent_ok w g fs -> sent_ok w' g fs.
Proof. intros Hv []. by constructor; rewrite ?Hv. Qed.

Lemma input_stopped w g b c ms l : input_ok w g b ms l -> input_ok w (set_in_stopped g c) b ms l.
Proof. intros []. by constructor. Qed.

Lemma sent_stopped w g c fs : sent_ok w g fs -> sent_ok w (set_in_stopped g c) fs.
Proof. intros []. by constructor. Qed.

Lemma fill_input_spec w g fs ms l : sent_ok w g fs -> input_ok w g false ms l ->
  exists w' g' r, fill_input w g = (w', g', r) /\ sent_ok w' g' fs /\ input_ok w' g' false ms l /\ in_stopped (eg_in g') = in_stopped (eg_in g) /\
    eg_io_error g' = eg_io_error g.
Proof.
  intros Hok Hin. unfold fill_input. destruct (in_data (eg_in g)) as [|b data] eqn:Ed; [|by eexists _, _, _].
  destruct Hin as [(m & Hm & Hu & Ht) (used & avs & Hrecv & Ha & Hdec) Hd [Hal Ham] Hip Hpu]. unfold dec_get_buffer.
  set (a1 := al_allocate (in_alloc (eg_in g))).
  assert (1 <= al_size a1 /\ 1 <= al_max a1) as [Ha1 Ham1] by (unfold a1, al_allocate; destruct (al_shared _); simpl; lia).
  assert (exists ip bufsize, (if al_size a1 <=? dc_to_read (in_decoder (eg_in g)) then (a1, true, dc_to_read (in_decoder (eg_in g))) else (a1, false, al_size a1))
    = (a1, ip, bufsize) /\ 1 <= bufsize /\ (ip = true -> bufsize = dc_to_read (in_decoder (eg_in g)))) as (ip & bufsize & -> & Hb & Hip1).
  { unfold dec_ok in Hd. destruct (al_size a1 <=? _); eexists _, _; split; done || lia. }
  pose proof (law_read w bufsize Hb) as Hread. destruct (ev_read w bufsize) as [w1 [data| |]].
  - destruct Hread as (Hne & Hlen & Hv). eexists _, _, _. split; [done|]. split; [|split; [|done]].
    + destruct Hok. by constructor; rewrite ?Hv.
    + assert (0 < length data)%nat by (destruct data; [done|simpl; lia]).
      constructor; rewrite ?Hv; try done; cbn [eg_in set_in in_alloc in_place in_data in_decoder al_resize al_size al_max].
      * by exists m.
      * exists used, avs. split; [|done]. cbn [vw_received]. by rewrite Hrecv, Ed, app_nil_r, app_assoc.
      * lia.
      * intros Hi. rewrite <- Hip1 by done. lia.
  - eexists _, _, _. split; [done|]. split; [|split; [|done]].
    + destruct Hok. by constructor; rewrite ?Hread.
    + constructor; rewrite ?Hread; try done; [by exists m|exists used, avs; by rewrite <- Ed|]. cbn. unfold dec_ok in Hd. lia.
  - eexists _, _, _. split; [done|]. split; [|split; [|done]].
    + destruct Hok. by constructor; rewrite ?Hread.
    + constructor; rewrite ?Hread; try done; [by exists m|exists used, avs; by rewrite <- Ed|]. cbn. unfold dec_ok in Hd. lia.
Qed.

Lemma in_event_spec w g : engine_ok w g -> eg_io_error g = false ->
  exists w' r b, in_event_internal dstep estep o behind w g = Some (w', r, b) /\ engine_after w' r.
Proof.
  intros (fs & ms & l & b & Hok & Hin & Hb & _) Hio. unfold in_event_internal. rewrite Hio. cbn [negb].
  destruct (in_stopped (eg_in g)) eqn:Hst; subst b.
  { eexists _, _, _. split; [done|]. exists fs, ms, l, true. assert (ev_view (ev_do w ea_rm_fd) = ev_view w) as Hv by apply law_do.
    split; [eapply sent_view; [exact Hv|]; by destruct Hok|]. split; [|done]. eapply input_view; [exact Hv|]. by destruct Hin. }
  destruct (fill_input_spec w g fs ms l Hok Hin) as (w1 & g1 & r & -> & Hok1 & Hin1 & Hst1 & Hio1). destruct r.
  - destruct (in_loop_spec (in_fuel g1) w1 g1 fs ms l Hok1 Hin1) as [(Hio2 & _)|(w2 & g2 & rc & x & -> & Hok2 & Hafter & Hst2 & Hio2 & Hnil)];
      [unfold in_fuel; lia|by rewrite Hio1, Hio in Hio2|].
    cbn [mbind option_bind]. destruct rc as [e|].
    + destruct e; try (eexists _, _, _; split; [done|]; by eapply error_end).
      destruct Hafter as (ms2 & l2 & Hin2). eexists _, _, _. split; [done|]. exists (fs ++ x), ms2, l2, true.
      assert (ev_view (ev_flush (ev_do w2 ea_reset_pollin)) = ev_view w2) as Hv by (by rewrite law_flush, law_do).
      split; [by eapply sent_view; [exact Hv|apply sent_stopped]|]. split; [by eapply input_view; [exact Hv|apply input_stopped]|done].
    + destruct Hafter as (ms2 & l2 & Hin2). eexists _, _, _. split; [done|]. exists (fs ++ x), ms2, l2, false.
      split; [by eapply sent_view; [apply law_flush|]|]. split; [by eapply input_view; [apply law_flush|]|]. split; congruence.
  - eexists _, _, _. split; [done|]. exists fs, ms, l, false. split; [done|]. split; [done|]. split; congruence.
  - eexists _, _, _. split; [done|]. eapply error_end; [done|by eapply input_ok_end].
Qed.

(** A PING waits behind a message that the session has refused; that
    message has been decoded already when it only has to be pushed. *)
Definition ping_waits g : Prop :=
  ping_behind g (match eg_process g with p_push_one => [] | _ => [in_msg (eg_in g)] end).

Lemma ping_now g m : eg_mech g = Some m -> eg_process g <> p_push_one -> pings (em_in m) (in_msg (eg_in g)) -> ping_waits g.
Proof.
  intros Hm Hp (p1 & f1 & He & Hping). exists m, [], [], (in_decoder (eg_in g)), [], None. split; [done|]. split; [apply prefix_nil|].
  do 2 (split; [done|]). destruct (eg_process g); try done; cbn [app deliver]; rewrite He; by left.
Qed.

(** The refused message was processed, and the PING is behind it. *)
Lemma ping_after g m ms l g1 m1 : eg_mech g = Some m -> taken (eg_process g) (em_in m) ms (in_msg (eg_in g)) true l ->
  eg_mech g1 = Some m1 -> (exists l', deliver em_dec p0 ms = (em_in m1, l', true)) ->
  in_decoder (eg_in g1) = in_decoder (eg_in g) -> in_data (eg_in g1) = in_data (eg_in g) -> ping_behind g1 [] -> ping_waits g.
Proof.
  intros Hm Ht Hm1 (l' & Hdel) Hd Hn (m2 & used & avs & d & ms2 & e & Hm2 & Hu & Ha & Hdec & Hp). rewrite Hm1 in Hm2. injection Hm2 as <-.
  rewrite Hd in Hdec. rewrite Hn in Hu. exists m, used, avs, d, ms2, e. do 4 (split; [done|]).
  inversion Ht as [|f Hpr Hp0 Hms Hf Hl| |p ms1 l1 f Hdel1 Hpr Hp1 Hms Hf Hl]; subst.
  - assert (exists f1, em_dec (em_in m) (in_msg (eg_in g)) = (em_in m1, inl f1)) as (f1 & Hf1).
    { cbn [deliver] in Hdel. rewrite Hp0 in Hdel. destruct (em_dec (em_in m) _) as [p1 [f1|e1]]; [|done]. exists f1. congruence. }
    cbn [app] in *. rewrite (deliver_app em_dec _ ms2 (em_in m) _ f1 _ Hf1 eq_refl). by right.
  - rewrite Hdel1 in Hdel. injection Hdel as Hpm _. by rewrite Hpm.
Qed.

(** The calls that make an assertion fail: the input of an engine that has
    not stopped it is restarted; and after an error of the connection the
    engine is to send, because the timer of the heartbeats expires or
    because a PING is to be answered. *)
Inductive engine_fault g : engine_call -> Prop :=
| ef_restart : in_stopped (eg_in g) = false -> engine_fault g call_restart_input
| ef_ping : eg_io_error g = true -> in_stopped (eg_in g) = true -> ping_waits g -> engine_fault g call_restart_input
| ef_timer : eg_io_error g = true -> in_stopped (eg_in g) = true -> engine_fault g (call_timer heartbeat_ivl_timer).

Lemma restart_input_spec w g : engine_ok w g -> in_stopped (eg_in g) = true ->
  (eg_io_error g = true /\ ping_waits g /\ restart_input dstep estep o behind w g = None) \/
  exists w' r b, restart_input dstep estep o behind w g = Some (w', r, b) /\ engine_after w' r.
Proof.
  intros (fs & ms & l & b & Hok & Hin & Hb & _) Hst. rewrite Hst in Hb. subst b. unfold restart_input. rewrite Hst.
  destruct Hin as [(m & Hm & Hu & Ht) (used & avs & Hrecv & Ha & Hdec) Hd Hal Hip Hpu].
  destruct (process_msg_ok w g m fs ms l used avs)
    as [(Hio & Hpr & Hping & ->)|(w1 & g1 & rc & x & -> & Hok1 & Hafter & Hdata & Hdec1 & Hst1 & Hio1 & Hone)]; try done; [by apply taken_again| |].
  { left. split; [done|]. split; [by eapply ping_now|done]. }
  assert (forall w g fs ms l, sent_ok w g fs -> input_ok w g true ms l -> in_stopped (eg_in g) = true -> engine_ok (ev_flush w) g) as Hwait.
  { intros w' g' fs' ms' l' ? ? ?. exists fs', ms', l', true. split; [by eapply sent_view; [apply law_flush|]|]. split; [by eapply input_view; [apply law_flush|]|done]. }
  cbn [mbind option_bind]. destruct rc as [e|].
  { right. destruct e; try (eexists _, _, _; split; [done|]; by eapply error_end).
    destruct Hafter as (ms1 & l1 & Hin1). eexists _, _, _. split; [done|]. eapply Hwait; [done..|congruence]. }
  destruct Hafter as (ms1 & l1 & Hin1).
  destruct (in_loop_spec (in_fuel g1) w1 g1 (fs ++ x) ms1 l1 Hok1 Hin1)
    as [(Hio2 & Hping & ->)|(w2 & g2 & rc & y & -> & Hok2 & Hafter & Hst2 & Hio2 & _)]; [unfold in_fuel; lia| |right].
  { left. split; [congruence|]. split; [|done]. destruct (Hone eq_refl) as (m1 & l' & Hm1 & Hdel). eapply (ping_after g m ms l g1 m1); try done. by exists l'. }
  cbn [mbind option_bind]. destruct rc as [e|].
  { assert (e <> EAGAIN -> exists w' r b, (if eg_io_error g2 then Some (error o w2 g2 connection_error_reason, None, false)
      else Some (error o w2 g2 protocol_error_reason, None, false)) = Some (w', r, b) /\ engine_after w' r) as Hgone.
    { intros He. assert (input_end w2) as Hend by (by destruct e). destruct (eg_io_error g2); eexists _, _, _; (split; [done|]); by eapply error_end. }
    destruct e; try (by apply Hgone). destruct Hafter as (ms2 & l2 & Hin2). eexists _, _, _. split; [done|]. eapply Hwait; [done..|congruence]. }
  destruct Hafter as (ms2 & l2 & Hin2). destruct (eg_io_error g2) eqn:Hio3.
  { eexists _, _, _. split; [done|]. eapply error_end; [done|by eapply input_ok_end]. }
  set (w3 := ev_flush (ev_do w2 ea_set_pollin)). assert (ev_view w3 = ev_view w2) as Hv by (unfold w3; by rewrite law_flush, law_do).
  destruct (in_event_spec w3 (set_in_stopped g2 false)) as (w4 & r & b & -> & Hr).
  - exists ((fs ++ x) ++ y), ms2, l2, false. split; [by eapply sent_view; [exact Hv|apply sent_stopped]|].
    split; [by eapply input_view; [exact Hv|apply input_stopped]|]. split; [done|]. cbn. by rewrite Hio3.
  - done.
  - by eexists _, _, _.
Qed.

Lemma input_frame w g b ms l w' g' : input_ok w g b ms l -> out_frame w g w' g' -> input_ok w' g' b ms l.
Proof.
  intros [(m & Hm & Hu & Ht) (used & avs & Hrecv & Ha & Hdec) Hd Hal Hip Hpu] [F1 F2 F3 F4 F5 F6].
  rewrite Hm in F6. destruct (eg_mech g') as [m'|] eqn:Em; [|done]. destruct F6 as [F6 F7].
  constructor; rewrite ?F1, ?F3, ?F5; try done.
  - exists m'. split; [done|]. split; [congruence|]. by rewrite F4, F6.
  - exists used, avs. by rewrite F2.
Qed.

Lemma out_ok w g x w' g' fs ms l b : sent_ok w' g' (fs ++ x) -> out_frame w g w' g' -> input_ok w g b ms l ->
  in_stopped (eg_in g) = b -> (eg_io_error g = true -> b = true) -> engine_ok w' g'.
Proof.
  intros Hs Hf Hin Hb Hio. exists (fs ++ x), ms, l, b. split; [done|]. split; [by eapply input_frame|].
  by rewrite (of_in _ _ _ _ Hf), (of_io_error _ _ _ _ Hf).
Qed.

Lemma timer_event_ok w g id : engine_ok w g -> (id = heartbeat_ivl_timer -> eg_io_error g = false) ->
  exists w' r, timer_event estep o w g id = Some (w', r) /\ engine_after w' r.
Proof.
  intros Hok Hid. assert (forall b reason, engine_end (error o w (set_beats g b) reason)) as Herr.
  { intros b reason. destruct (engine_ok_end w g Hok) as (fs & Hs & He). destruct (error_spec w (set_beats g b) reason) as (tail & Ht & Hv). by exists w, g, fs, tail. }
  destruct Hok as (fs & ms & l & b & Hs & Hin & Hb & Hio). destruct id; cbn [timer_event].
  - eexists _, _. split; [done|]. specialize (Herr (eg_beats g) timeout_error_reason). by assert (set_beats g (eg_beats g) = g) as Hg by (by destruct g); rewrite Hg in Herr.
  - destruct (out_event_spec estep s0 o two_pieces one_state some_bytes batch_ok t0 pl0 po0 w (set_next g n_produce_ping) fs) as (w1 & g1 & x & -> & Hf & Hs1).
    + destruct Hs. by constructor.
    + by apply Hid.
    + eexists _, _. split; [done|].
      assert (engine_ok w1 g1) as (fs1 & ms1 & l1 & b1 & Hs2 & Hin2 & Hb2) by (eapply out_ok; [done..| |done|done]; by destruct Hin).
      assert (ev_view (ev_do w1 (ea_add_timer heartbeat_ivl_timer (eo_heartbeat_interval o))) = ev_view w1) as Hv by apply law_do.
      exists fs1, ms1, l1, b1. split; [by eapply sent_view|]. split; [by eapply input_view|done].
  - eexists _, _. split; [done|exact (Herr _ _)].
  - eexists _, _. split; [done|exact (Herr _ _)].
Qed.

Lemma engine_step_ok w g c : engine_ok w g ->
  (engine_fault g c /\ engine_step dstep estep o behind w g c = None) \/
  exists w' r, engine_step dstep estep o behind w g c = Some (w', r) /\ engine_after w' r.
Proof.
  intros Hok. pose proof Hok as (fs & ms & l & b & Hs & Hin & Hb & Hio). destruct c as [| | | |id]; cbn [engine_step].
  - right. destruct (eg_io_error g) eqn:Eio; [by eexists _, _|]. destruct (in_event_spec w g) as (w1 & r & c & -> & Hr); [done..|]. by eexists _, _.
  - right. destruct (eg_io_error g) eqn:Eio; [by eexists _, _|].
    destruct (out_event_spec estep s0 o two_pieces one_state some_bytes batch_ok t0 pl0 po0 w g fs Hs Eio) as (w1 & g1 & x & -> & Hf & Hs1).
    eexists _, _. split; [done|]. eapply out_ok; try done. by rewrite Eio.
  - destruct (in_stopped (eg_in g)) eqn:Est.
    + destruct (restart_input_spec w g) as [(Hio1 & Hping & ->)|(w1 & r & c & -> & Hr)]; [done..|left|right; by eexists _, _].
      split; [by constructor|done].
    + left. split; [by constructor|]. unfold restart_input. by rewrite Est.
  - right. destruct (restart_output_spec estep s0 o two_pieces one_state some_bytes batch_ok t0 pl0 po0 w g fs Hs) as (w1 & g1 & x & -> & Hf & Hs1).
    eexists _, _. split; [done|]. by eapply out_ok.
  - assert ((id = heartbeat_ivl_timer /\ eg_io_error g = true) \/ (id = heartbeat_ivl_timer -> eg_io_error g = false)) as [[-> Eio]|Hn]
      by (destruct id, (eg_io_error g); (by left) || (by right)).
    + left. split; [constructor; [done|]; rewrite Hb; by apply Hio|]. cbn [timer_event]. unfold out_event. cbn. by rewrite Eio.
    + right. by apply timer_event_ok.
Qed.

(** Calls go well to the end, or to the first that makes an assertion
    fail. *)
Lemma engine_calls_ok cs : forall w g, engine_ok w g -> exists cs1 cs2 w' r, cs = cs1 ++ cs2 /\
  engine_calls dstep estep o behind w g cs1 = Some (w', r) /\ engine_after w' r /\
  (cs2 = [] \/ exists g' c cs3, cs2 = c :: cs3 /\ r = Some g' /\ engine_fault g' c /\ engine_step dstep estep o behind w' g' c = None).
Proof.
  induction cs as [|c cs IH]; intros w g Hok.
  { exists [], [], w, (Some g). split; [done|]. split; [done|]. split; [done|by left]. }
  destruct (engine_step_ok w g c Hok) as [[Hf Hn]|(w1 & r & E & Hr)].
  { exists [], (c :: cs), w, (Some g). split; [done|]. split; [done|]. split; [done|]. right. by exists g, c, cs. }
  destruct r as [g1|].
  - destruct (IH w1 g1 Hr) as (cs1 & cs2 & w2 & r & -> & Hrun & Hafter & Hend).
    exists (c :: cs1), cs2, w2, r. cbn [engine_calls]. rewrite E. by cbn [mbind option_bind].
  - exists (c :: cs), [], w1, None. rewrite app_nil_r. cbn [engine_calls]. rewrite E. cbn [mbind option_bind].
    split; [done|]. split; [done|]. split; [done|by left].
Qed.
End input.
