(* ===== verification/EngineProps.v ===== *)
(** * Engines of ZMTP/3 connections

    What the two halves of [Engine] come to for the ZMTP/2 framing that
    ZMTP/3 uses, from the moment the mechanism is ready. *)

From Stdlib Require Import String.
From S2P Require Import Prelude Wire Frame Codec V2 Options Mechanism Handshake Session Engine EngineOut EngineIn.

Lemma v2_some_bytes f : (v2_enc_step V2E_message_ready f).1.1 <> [].
Proof. cbn [v2_enc_step]. by destruct (255 <? _). Qed.

Lemma v2_no_again can_alloc max zc s b a : v2_dec_step can_alloc max zc s b a <> SFail EAGAIN.
Proof.
  assert (forall flags size, v2_size_ready can_alloc max zc flags size a <> SFail EAGAIN) as Hs.
  { intros flags size. unfold v2_size_ready. destruct (_ && _); [done|]. by destruct (if _ || _ then _ else _). }
  destruct s; cbn [v2_dec_step]; repeat case_match; try done; by apply Hs.
Qed.

Section props.
Context {M W : Type} {EV : EngineEnv W} {EM : EngineMech M W} {EVL : EngineEnvLaws W} {EML : EngineMechLaws M W}.
Context (can_alloc : Z -> bool) (max_msg_size : Z) (zero_copy : bool) (o : engine_options) (behind : nat -> Z).

Abbreviation dstep := (v2_dec_step can_alloc max_msg_size zero_copy).
Abbreviation v2_engine := (stream_engine v2_dec_state v2_enc_state M).

(** As [mechanism_ready] leaves the engine. *)
Record engine_ready (g : v2_engine) (m : M) : Prop := {
  er_mech : eg_mech g = Some m;
  er_process : eg_process g = p_write_credential;
  er_next : eg_next g = n_pull_and_encode;
  er_stopped : in_stopped (eg_in g) = false;
  er_decoder : dec_ok (in_decoder (eg_in g));
  er_alloc : 1 <= al_size (in_alloc (eg_in g)) /\ 1 <= al_max (in_alloc (eg_in g));
  er_place : in_place (eg_in g) = true -> Z.of_nat (length (in_data (eg_in g))) <= dc_to_read (in_decoder (eg_in g));
  er_encoder : enc_ok v2_enc_step V2E_message_ready (ou_encoder (eg_out g));
  er_io_error : eg_io_error g = false;
}.

(** What is written, in the buffer, and left in the encoder. *)
Definition all_sent (w : W) (g : v2_engine) : bytes :=
  vw_written (ev_view w) ++ ou_data (eg_out g) ++ en_rest v2_enc_step (ou_encoder (eg_out g)).

(** The calls [cs1] go well; they are all of [cs], or the next one makes an
    assertion fail and is one of those that do. *)
Definition calls_upto (w : W) (g : v2_engine) (cs cs1 : list engine_call) (w' : W) (r : option v2_engine) : Prop :=
  engine_calls dstep v2_enc_step o behind w g cs1 = Some (w', r) /\
  (cs = cs1 \/ exists g' c cs2, cs = cs1 ++ c :: cs2 /\ r = Some g' /\ engine_fault (W := W) dstep g' c /\
    engine_step dstep v2_enc_step o behind w' g' c = None).

Lemma v2_engine_calls w g m rc0 cs : 1 <= eo_out_batch_size o -> engine_ready g m -> vw_received (ev_view w) = rc0 ++ in_data (eg_in g) ->
  exists cs1 w' r, calls_upto w g cs cs1 w' r /\
    engine_after dstep v2_enc_step V2E_message_ready o (all_sent w g) (vw_pulled (ev_view w)) (em_out m) (in_decoder (eg_in g)) (em_user_id m) (em_in m) rc0
      (vw_pushed (ev_view w)) w' r.
Proof.
  intros Hb Hr Hrecv.
  edestruct (engine_calls_ok dstep v2_enc_step V2E_message_ready o behind ltac:(intros f H; by apply v2_two_pieces) v2_next_message v2_some_bytes Hb
    (all_sent w g) (vw_pulled (ev_view w)) (em_out m) (in_decoder (eg_in g)) (em_user_id m) (em_in m) rc0 (vw_pushed (ev_view w))
    (v2_step_progress _ _ _) (v2_no_again _ _ _) cs w g) as (cs1 & cs2 & w1 & r & Hcs & Hrun & Hafter & Hend); cycle 1.
  - exists cs1, w1, r. split; [split; [done|]|done]. rewrite Hcs. destruct Hend as [->|(g1 & c & cs3 & -> & ?)]; [left; by rewrite app_nil_r|right].
    by exists g1, c, cs3.
  - destruct Hr as [H1 H2 H3 H4 H5 H6 H7 H8 H9]. exists [], [], [], false. split; [|split; [|by rewrite H9]].
    + constructor; try done; [by exists m|by rewrite app_nil_r|by rewrite app_nil_r|unfold steady_next; by rewrite H3].
    + constructor; try done; [|by exists [], []|by rewrite app_nil_r]. exists m. rewrite H2. split; [done|]. split; [done|]. constructor.
Qed.

(** C6: The session is given exactly the messages of the stream.  Whatever
    the sizes of the reads, and in whatever order the poller (which may
    report an error of the connection while the input is stopped), the
    timers and the session call the engine: all that it has received is
    decoded up to the data still in its buffer; the session got the
    credential of the peer and then the messages as the mechanism decodes
    them, each once and in order; when the session has refused a message
    the input has stopped, and that message is the only one missing.  An
    engine that fails leaves the session with a beginning of the stream,
    and at most the notification of the disconnect.  No assertion fails but
    in the calls of [engine_fault], up to which all this holds: the session
    restarts an input that is not stopped, or an engine that has noted an
    error of the connection is made to send, by the timer of the heartbeats
    or by a PING among the messages that wait. *)
Theorem engine_receives (w : W) (g : v2_engine) (m : M) (rc0 : bytes) (cs : list engine_call) :
  1 <= eo_out_batch_size o -> engine_ready g m -> vw_received (ev_view w) = rc0 ++ in_data (eg_in g) ->
  exists cs1 w' r used rest avs d ms e l tail,
    calls_upto w g cs cs1 w' r /\
    vw_received (ev_view w') = rc0 ++ used ++ rest /\ length avs = length used /\
    dec_bytes dstep (in_decoder (eg_in g)) (zip used avs) = Some (d, ms, e) /\
    vw_pushed (ev_view w') = vw_pushed (ev_view w) ++ l ++ tail /\ l `prefix_of` due (em_user_id m) (em_in m) ms /\
    match r with
    | None => tail = [] \/ tail = [fr_empty]
    | Some g' => tail = [] /\ e = None /\ rest = in_data (eg_in g') /\ d = in_decoder (eg_in g') /\
        if in_stopped (eg_in g') then exists ms' f, ms = ms' ++ [f] /\ due (em_user_id m) (em_in m) ms' `prefix_of` l
        else l = due (em_user_id m) (em_in m) ms
    end.
Proof.
  intros Hb Hr Hrecv. destruct (v2_engine_calls w g m rc0 cs Hb Hr Hrecv) as (cs1 & w1 & r & Hcs & Hafter). destruct r as [g1|].
  - destruct Hafter as (fs & ms & l & b & _ & [(m1 & _ & _ & Ht) (used & avs & H1 & H2 & H3) _ _ _ Hp] & Hst & _).
    exists cs1, w1, (Some g1), used, (in_data (eg_in g1)), avs, (in_decoder (eg_in g1)), ms, None, l, []. rewrite app_nil_r.
    split; [done|]. do 4 (split; [done|]). split; [by eapply taken_due|]. do 4 (split; [done|]). rewrite Hst.
    destruct b; [by eapply taken_waiting|by eapply taken_all].
  - destruct Hafter as (w0 & g0 & fs & tail & _ & (used & rest & avs & d & ms & e & l & H1 & H2 & H3 & H4 & H5) & Ht & Hv).
    exists cs1, w1, None, used, rest, avs, d, ms, e, l, tail. rewrite Hv. cbn [vw_received vw_pushed]. split; [done|]. do 3 (split; [done|]).
    split; [by rewrite H5, app_assoc|]. done.
Qed.

(** C4: Everything that is pulled from the session is sent.  Whatever is
    called, and however little the network takes at a time: the bytes that
    were written, those in the buffer of the engine and those left in the
    encoder are together the encodings of the messages pulled from the
    session, in order, with the PINGs and PONGs of the engine between them
    and nothing else; what an engine that fails has written is a beginning
    of that.  No assertion fails but in the calls of [engine_fault], up to
    which this holds. *)
Theorem engine_sends (w : W) (g : v2_engine) (m : M) (rc0 : bytes) (cs : list engine_call) :
  1 <= eo_out_batch_size o -> engine_ready g m -> vw_received (ev_view w) = rc0 ++ in_data (eg_in g) ->
  exists cs1 w' r fs, calls_upto w g cs cs1 w' r /\
    vw_pulled (ev_view w') = vw_pulled (ev_view w) ++ from_session fs /\
    Forall (fun p => p.1 = false -> heartbeat_sent o p.2) fs /\
    let sent := all_sent w g ++ enc_wires v2_enc_step V2E_message_ready (encode_all em_enc (em_out m) fs.*2).2 in
    match r with
    | Some g' => all_sent w' g' = sent
    | None => vw_written (ev_view w') `prefix_of` sent
    end.
Proof.
  intros Hb Hr Hrecv. destruct (v2_engine_calls w g m rc0 cs Hb Hr Hrecv) as (cs1 & w1 & r & Hcs & Hafter). destruct r as [g1|].
  - destruct Hafter as (fs & ms & l & b & [_ _ Hw Hp Hbt _] & _). by exists cs1, w1, (Some g1), fs.
  - destruct Hafter as (w0 & g0 & fs & tail & [_ _ Hw Hp Hbt _] & _ & _ & Hv). exists cs1, w1, None, fs. rewrite Hv. cbn [vw_pulled vw_written].
    do 3 (split; [done|]). cbv zeta. rewrite <- Hw. by eexists.
Qed.

(** When no call makes an assertion fail, all calls are made. *)
Lemma calls_upto_all w g cs cs1 w1 r1 w' r : calls_upto w g cs cs1 w1 r1 -> engine_calls dstep v2_enc_step o behind w g cs = Some (w', r) ->
  cs1 = cs /\ w1 = w' /\ r1 = r.
Proof.
  intros [Hrun Hend] Hall. assert (cs = cs1) as ->; [|by rewrite Hrun in Hall; injection Hall].
  destruct Hend as [|(g1 & c & cs2 & -> & -> & _ & Hn)]; [done|exfalso]. revert w g Hrun Hall.
  induction cs1 as [|c1 cs1 IH]; intros w g; cbn [app engine_calls].
  - intros [= -> ->]. by rewrite Hn.
  - destruct (engine_step dstep v2_enc_step o behind w g c1) as [[w2 [g2|]]|]; cbn [mbind option_bind]; [apply IH|done|done].
Qed.
End props.

(** ** A session and a network *)

(** The session has room for so many messages; the network brings chunks,
    and takes what the limits say, everything when there are none. *)
Record net := Net { nt_view : view; nt_room : nat; nt_in : list bytes; nt_out : list frame; nt_limits : list nat; nt_acts : list engine_act }.

Definition net_set (w : net) (v : view) : net := Net v (nt_room w) (nt_in w) (nt_out w) (nt_limits w) (nt_acts w).

#[export] Instance net_env : EngineEnv net := {
  ev_push w f :=
    let v := nt_view w in
    match nt_room w with
    | O => (w, Some EAGAIN)
    | S n => (Net (View (vw_pushed v ++ [f]) (vw_received v) (vw_pulled v) (vw_written v)) n (nt_in w) (nt_out w) (nt_limits w) (nt_acts w), None)
    end;
  ev_pull w :=
    let v := nt_view w in
    match nt_out w with
    | [] => (w, None)
    | f :: l => (Net (View (vw_pushed v) (vw_received v) (vw_pulled v ++ [f]) (vw_written v)) (nt_room w) (nt_in w) l (nt_limits w) (nt_acts w), Some f)
    end;
  ev_rollback w := w;
  ev_flush w := w;
  ev_read w n :=
    let v := nt_view w in
    match nt_in w with
    | (b :: chunk) :: l =>
        let data := b :: take (Z.to_nat n - 1) chunk in
        let l := match drop (Z.to_nat n - 1) chunk with [] => l | rest => rest :: l end in
        (Net (View (vw_pushed v) (vw_received v ++ data) (vw_pulled v) (vw_written v)) (nt_room w) l (nt_out w) (nt_limits w) (nt_acts w), RdData data)
    | _ => (w, RdAgain)
    end;
  ev_write w data :=
    let v := nt_view w in
    let '(n, l) := match nt_limits w with [] => (length data, []) | n :: l => (Nat.min n (length data), l) end in
    (Net (View (vw_pushed v) (vw_received v) (vw_pulled v) (vw_written v ++ take n data)) (nt_room w) (nt_in w) (nt_out w) l (nt_acts w), Some (Z.of_nat n));
  ev_do w a := Net (nt_view w) (nt_room w) (nt_in w) (nt_out w) (nt_limits w) (nt_acts w ++ [a]);
}.

#[export] Instance net_laws : EngineEnvLaws net.
Proof.
  refine {| ev_view := nt_view |}.
  - intros w f. cbn. by destruct (nt_room w).
  - intros w. cbn. by destruct (nt_out w).
  - done.
  - done.
  - done.
  - intros w n Hn. cbn. destruct (nt_in w) as [|[|b chunk] l]; [done..|]. split; [done|]. split; [|done]. cbn [length]. rewrite length_take. lia.
  - intros w data. cbn. destruct (nt_limits w) as [|n l]; cbn [nt_view]; rewrite Nat2Z.id; (split; [lia|done]).
Defined.

(** The mechanism of a connection without security: it knows the user. *)
#[export] Instance open_mech : EngineMech bytes net := {
  em_status _ := mech_ready;
  em_next w m := Some (w, m, None);
  em_process w m f := Some (w, m, None);
  em_zap_msg_available w m := Some (w, m, None);
  em_encode m f := Some (m, Some f);
  em_decode m f := Some (m, inl f);
  em_user_id m := m;
  em_peer_routing_id _ := fr_empty;
}.

#[export] Instance open_mech_laws : EngineMechLaws bytes net.
Proof.
  refine {| em_in := fun _ => tt; em_out := fun _ => tt; em_dec := fun _ f => (tt, inl f); em_enc := fun _ f => (tt, Some f) |}.
  - intros m f. by exists m.
  - done.
  - intros m f. by exists m.
Defined.

Definition engine_example_options (ivl ttl : Z) : engine_options := EOpts [] false false true ttl ivl (-1) 16.

Definition engine_example (running : bool) : stream_engine v2_dec_state v2_enc_state bytes :=
  Engine (Input v2_decoder_new (Allocator_ false 64 64) false [] fr_empty false) (Output v2_encoder_new [] false) (Some [117]) n_pull_and_encode p_write_credential
    (Beats running false false fr_empty) false false.

Definition net_example (room : nat) (chunks : list bytes) (out : list frame) : net := Net (View [] [] [] []) room chunks out [3; 2; 30; 30]%nat [].

Abbreviation example_calls w g ivl ttl cs :=
  (engine_calls (v2_dec_step (fun _ => true) 1000 false) v2_enc_step (engine_example_options ivl ttl) (fun k => 100 + Z.of_nat k) w g cs).

(** Two messages and a PING arrive in pieces, and the session takes the
    credential and one message before it is full. *)
Definition pieces_example : list bytes := [[0; 2; 7]; [8; 4; 7; 4; 80; 73; 78; 71; 0; 9; 1; 1]; [33]].

Lemma engine_ready_example running : engine_ready (engine_example running) [117].
Proof. by constructor. Qed.

Definition stop_calls : list engine_call := [call_in_event; call_in_event; call_out_event; call_in_event; call_restart_output].

Lemma engine_receives_witness : exists w g,
  example_calls (net_example 2 pieces_example [Frame type_vsm 0 [5; 6]]) (engine_example true) 0 0 stop_calls = Some (w, Some g) /\
  vw_pushed (nt_view w) = [user_credential [117]; Frame type_vsm 0 [7; 8]] /\ in_stopped (eg_in g) = true.
Proof.
  destruct (engine_receives (fun _ => true) 1000 false (engine_example_options 0 0) (fun k => 100 + Z.of_nat k) (net_example 2 pieces_example [Frame type_vsm 0 [5; 6]])
    (engine_example true) [117] [] stop_calls) as (cs1 & w & r & used & rest & avs & d & ms & e & l & tail & H & _).
  - cbn. lia.
  - apply engine_ready_example.
  - done.
  - eapply calls_upto_all in H; [|vm_compute; reflexivity]. eexists _, _. split; [vm_compute; reflexivity|]. split; reflexivity.
Defined.

Lemma engine_sends_witness : exists w g fs,
  example_calls (net_example 9 pieces_example [Frame type_vsm 0 [5; 6]]) (engine_example true) 1000 300 (stop_calls ++ [call_timer heartbeat_ivl_timer]) = Some (w, Some g) /\
  vw_pulled (nt_view w) = from_session fs /\
  vw_written (nt_view w) = [0; 2; 5; 6] ++ [4; 5; 4; 80; 79; 78; 71] ++ [4; 7; 4; 80; 73; 78; 71; 1; 44].
Proof.
  destruct (engine_sends (fun _ => true) 1000 false (engine_example_options 1000 300) (fun k => 100 + Z.of_nat k) (net_example 9 pieces_example [Frame type_vsm 0 [5; 6]])
    (engine_example true) [117] [] (stop_calls ++ [call_timer heartbeat_ivl_timer])) as (cs1 & w & r & fs & H & Hp & _ & Hs).
  - cbn. lia.
  - apply engine_ready_example.
  - done.
  - eapply calls_upto_all in H; [|vm_compute; reflexivity]. destruct H as (_ & -> & ->). eexists _, _, fs. split; [vm_compute; reflexivity|].
    split; [exact Hp|reflexivity].
Defined.

(** ** Where assertions fail, and other findings *)

Section faults.
Context {DS ES M W : Type} {EV : EngineEnv W} {EM : EngineMech M W}.
Context (dstep : DS -> bytes -> Z -> step_result DS) (estep : ES -> frame -> bytes * ES * bool) (o : engine_options) (behind : nat -> Z).

(** A connection that breaks while its input is stopped is noticed by the
    poller; the timer of the heartbeats goes on, and when it expires the
    assertion of [out_event] fails. *)
Theorem heartbeat_after_io_error (w : W) (g : stream_engine DS ES M) : in_stopped (eg_in g) = true -> eg_io_error g = false -> bt_interval (eg_beats g) = true ->
  exists w' g', in_event_internal dstep estep o behind w g = Some (w', Some g', true) /\ bt_interval (eg_beats g') = true /\
    forall w'', timer_event estep o w'' g' heartbeat_ivl_timer = None.
Proof.
  intros Hst Hio Hb. unfold in_event_internal. rewrite Hio, Hst. cbn [negb]. eexists _, _. split; [done|]. split; [done|].
  intros w''. cbn [timer_event]. unfold out_event. done.
Qed.

(** An engine whose input is stopped reads no PONG: its timer expires and
    the session makes a new connection, with the pipe that is still full.
    When there is room in the pipe the session restarts the input of the
    new engine, which has not stopped it: the assertion fails. *)
Theorem restart_of_new_engine (w : W) (g g2 : stream_engine DS ES M) (s : session) (pipe : Z) :
  in_stopped (eg_in g) = true -> in_stopped (eg_in g2) = false -> ss_pipe s = Some pipe -> ss_engine s = true ->
  (exists w', timer_event estep o w g heartbeat_timeout_timer = Some (w', None)) /\
  session_write_activated s pipe = Some (ss_log s a_restart_input) /\ restart_input dstep estep o behind w g2 = None.
Proof.
  intros _ H2 Hp He. split; [by eexists|]. unfold session_write_activated, restart_input. rewrite Hp, He, H2.
  by rewrite bool_decide_eq_true_2.
Qed.

(** A ROUTER whose pipe is full when the handshake ends: the engine leaves
    it at that, and its input is not stopped. *)
Theorem mechanism_ready_refused (w w' : W) (g : stream_engine DS ES M) (m : M) :
  eo_recv_routing_id o = true -> eo_heartbeat_interval o = 0 -> eg_mech g = Some m -> ev_push w (em_peer_routing_id m) = (w', Some EAGAIN) ->
  mechanism_ready o w g = Some (w', g).
Proof. intros Hr Hh Hm Hpush. unfold mechanism_ready. rewrite Hm. cbn [mbind option_bind]. rewrite Hh, Hr. cbn. unfold push_or_bail. by rewrite Hpush. Qed.
End faults.

(** The connection breaks while the session has no room for a message and
    a PING waits behind it: when there is room again the engine is to answer
    the PING, and the assertion of [out_event] fails. *)
Theorem ping_after_io_error : exists w g,
  example_calls (net_example 1 [concat pieces_example] []) (engine_example false) 0 0 [call_in_event; call_in_event] = Some (w, Some g) /\
  eg_io_error g = true /\
  example_calls (Net (nt_view w) 9 [] [] [] []) g 0 0 [call_restart_input] = None.
Proof. eexists _, _. split; [vm_compute; reflexivity|]. split; vm_compute; reflexivity. Qed.

(** A time to live of 65.6 seconds is within what the option allows, and
    the peer waits for 64 milliseconds. *)
Theorem ping_ttl_wraps : exists w g,
  process_heartbeat_message v2_enc_step (engine_example_options 1000 0) (fun _ => 0) (net_example 9 [] [])
    (set_in_msg (engine_example true) (set_flag (ping_frame (engine_example_options 1000 656)) cmd_ping)) = Some (w, g) /\
  nt_acts w = [ea_add_timer heartbeat_ttl_timer 64].
Proof. eexists _, _. split; [vm_compute; reflexivity|reflexivity]. Qed.

(** A PING that is shorter than a PING has to be: the engine answers with
    the 16 bytes that lie in memory behind it. *)
Theorem short_ping_leaks : exists w g,
  engine_calls (v2_dec_step (fun _ => true) 1000 false) v2_enc_step (engine_example_options 0 0) (fun k => 100 + Z.of_nat k)
    (Net (View [] [] [] []) 9 [[4; 5; 4; 80; 73; 78; 71]] [] [] []) (engine_example true) [call_in_event; call_out_event] = Some (w, Some g) /\
  vw_written (nt_view w) = [4; 21; 4; 80; 79; 78; 71] ++ ((fun k => 100 + Z.of_nat k) <$> seq 2 16).
Proof. eexists _, _. split; [vm_compute; reflexivity|reflexivity]. Qed.

(** A malformed command: [process_command_message] fails, and the command
    is passed on as if it had not. *)
Theorem malformed_command_passed : exists w g,
  engine_calls (v2_dec_step (fun _ => true) 1000 false) v2_enc_step (engine_example_options 0 0) (fun k => 100 + Z.of_nat k)
    (Net (View [] [] [] []) 9 [[4; 2; 9; 80]] [] [] []) (engine_example true) [call_in_event] = Some (w, Some g) /\
  command_kind (Frame type_vsm flag_command [9; 80]) = None /\
  vw_pushed (nt_view w) = [user_credential [117]; Frame type_vsm flag_command [9; 80]].
Proof. eexists _, _. split; [vm_compute; reflexivity|]. split; reflexivity. Qed.

(** The routing id of a ZMTP/2 peer that finds the pipe full: the assertion
    fails, where [mechanism_ready] bails out. *)
Theorem routing_id_refused {DS ES M W : Type} {EV : EngineEnv W} {EM : EngineMech M W} (estep : ES -> frame -> bytes * ES * bool) (o : engine_options)
    (behind : nat -> Z) (w w' : W) (g : stream_engine DS ES M) :
  eg_process g = p_routing_id_msg -> eo_recv_routing_id o = true ->
  ev_push w (set_flag (in_msg (eg_in g)) flag_routing_id) = (w', Some EAGAIN) -> process_msg estep o behind w g = None.
Proof.
  intros Hp Hr Hpush. unfold process_msg, process_routing_id_msg, push_in_msg. rewrite Hp, Hr.
  cbn. rewrite Hpush. done.
Qed.
