(* ===== verification/Text.v ===== *)
(** * Text of the C library

    Strings that end with a zero, and decimal numbers: what the sources use
    of strlen, atoi, sprintf and std::string::rfind. *)

From S2P Require Import Prelude.

(** A C string ends with a zero. *)
Fixpoint c_string (l : bytes) : bytes :=
  match l with [] => [] | b :: l => if b =? 0 then [] else b :: c_string l end.

(** The last position of a byte. *)
Fixpoint rfind (b : Z) (l : bytes) : option nat :=
  match l with
  | [] => None
  | x :: l => match rfind b l with Some i => Some (S i) | None => if x =? b then Some O else None end
  end.

Definition colon : Z := 58.

Definition is_digit (b : Z) : bool := (48 <=? b) && (b <=? 57).

(** The digits at the front, after what is there already. *)
Fixpoint read_digits (acc : Z) (l : bytes) : Z :=
  match l with
  | b :: l => if is_digit b then read_digits (acc * 10 + (b - 48)) l else acc
  | [] => acc
  end.

Definition is_space (b : Z) : bool := (b =? 32) || ((9 <=? b) && (b <=? 13)).

Fixpoint skip_spaces (l : bytes) : bytes :=
  match l with b :: l' => if is_space b then skip_spaces l' else l | [] => [] end.

(** [atoi]: [strtol] keeps to the range of a long, and the result is an int. *)
Definition atoi (l : bytes) : Z :=
  let l := skip_spaces l in
  if nth 0 l 0 =? 45 then i32 (Z.max (- read_digits 0 (tail l)) (-9223372036854775808))
  else i32 (Z.min (read_digits 0 (if nth 0 l 0 =? 43 then tail l else l)) 9223372036854775807).

(** ["%d"] of a number that is not negative and has at most [fuel] digits. *)
Fixpoint print_digits (fuel : nat) (n : Z) : bytes :=
  match fuel with
  | O => []
  | S fuel' => (if n <? 10 then [] else print_digits fuel' (n / 10)) ++ [48 + n mod 10]
  end.

Definition print_port (n : Z) : bytes := print_digits 5 n.

(** ** Lemmas *)

Lemma c_string_id g : 0 ∉ g -> c_string g = g.
Proof.
  induction g as [|b g IH]; intros Hg; cbn [c_string]; [done|]. apply not_elem_of_cons in Hg as [Hb Hg].
  destruct (b =? 0) eqn:E; [lia|]. by rewrite IH.
Qed.

Lemma c_string_zero g l : 0 ∉ g -> c_string (g ++ 0 :: l) = g.
Proof.
  induction g as [|b g IH]; intros Hg; cbn [app c_string]; [done|]. apply not_elem_of_cons in Hg as [Hb Hg].
  destruct (b =? 0) eqn:E; [lia|]. by rewrite IH.
Qed.

Lemma rfind_none b l : b ∉ l -> rfind b l = None.
Proof.
  induction l as [|x l IH]; intros Hl; cbn [rfind]; [done|]. apply not_elem_of_cons in Hl as [Hx Hl]. rewrite IH by done.
  destruct (x =? b) eqn:E; [lia|done].
Qed.

Lemma rfind_last b l r : b ∉ r -> rfind b (l ++ b :: r) = Some (length l).
Proof.
  intros Hr. induction l as [|x l IH]; cbn [app rfind length]; [by rewrite rfind_none, Z.eqb_refl by done|by rewrite IH].
Qed.

Lemma rfind_some b l i : rfind b l = Some i -> (i < length l)%nat /\ nth i l 0 = b.
Proof.
  revert i. induction l as [|x l IH]; intros i; cbn [rfind]; [done|]. destruct (rfind b l) as [j|].
  - intros [= <-]. destruct (IH j eq_refl). cbn [nth length]. split; [lia|done].
  - destruct (x =? b) eqn:E; [|done]. intros [= <-]. apply Z.eqb_eq in E. cbn. split; [lia|done].
Qed.

Lemma read_digits_app acc l r : Forall (fun b => is_digit b = true) l -> read_digits acc (l ++ r) = read_digits (read_digits acc l) r.
Proof. intros H. revert acc. induction H as [|b l Hb _ IH]; intros acc; cbn [app read_digits]; [done|]. by rewrite Hb, IH. Qed.

Lemma print_digits_spec fuel n : 0 <= n < 10 ^ Z.of_nat fuel -> (0 < fuel)%nat ->
  Forall (fun b => is_digit b = true) (print_digits fuel n) /\ read_digits 0 (print_digits fuel n) = n /\ (0 < length (print_digits fuel n) <= fuel)%nat.
Proof.
  revert n. induction fuel as [|fuel IH]; intros n Hn Hf; [lia|]. cbn [print_digits].
  pose proof (Z.mod_pos_bound n 10 ltac:(lia)) as Hm. assert (is_digit (48 + n mod 10) = true) as Hd by (unfold is_digit; apply andb_true_iff; split; lia).
  destruct (n <? 10) eqn:E.
  - cbn [app read_digits length]. rewrite Hd. split; [by constructor|]. rewrite Z.mod_small by lia. lia.
  - destruct fuel as [|fuel]; [cbn in Hn; lia|]. destruct (IH (n / 10)) as (H1 & H2 & H3).
    { rewrite (Nat2Z.inj_succ (S fuel)), Z.pow_succ_r in Hn by lia. split; [apply Z.div_pos; lia|]. apply Z.div_lt_upper_bound; lia. }
    { lia. }
    rewrite read_digits_app by done. rewrite H2, length_app. cbn [read_digits length]. rewrite Hd.
    split_and!; [apply Forall_app; by split; [|constructor]| |lia|lia]. pose proof (Z.div_mod n 10 ltac:(lia)). lia.
Qed.

Lemma digit_not b x : is_digit b = true -> is_digit x = false -> b <> x.
Proof. congruence. Qed.

(** What is not a digit is not in a number. *)
Lemma print_digits_not fuel n x : 0 <= n < 10 ^ Z.of_nat fuel -> (0 < fuel)%nat -> is_digit x = false -> x ∉ print_digits fuel n.
Proof.
  intros Hn Hf Hx Hin. destruct (print_digits_spec fuel n Hn Hf) as [H _]. rewrite list.Forall_forall in H. specialize (H x Hin). congruence.
Qed.

Lemma atoi_digits l r : Forall (fun b => is_digit b = true) l -> l <> [] -> read_digits 0 l < 2147483648 -> 0 <= read_digits 0 l ->
  match r with b :: _ => is_digit b = false | [] => True end -> atoi (l ++ r) = read_digits 0 l.
Proof.
  intros Hl Hne Hmax Hmin Hr. destruct l as [|b l]; [done|]. pose proof (list.Forall_cons_1 _ _ _ Hl) as [Hb _].
  assert (read_digits 0 ((b :: l) ++ r) = read_digits 0 (b :: l)) as E.
  { rewrite read_digits_app by done. destruct r as [|x r]; [done|]. cbn [read_digits]. by rewrite Hr. }
  unfold atoi. cbn [app skip_spaces]. unfold is_digit in Hb. apply andb_true_iff in Hb as [H1 H2].
  assert (is_space b = false) as -> by (unfold is_space; apply orb_false_iff; split; [lia|apply andb_false_iff; lia]).
  cbn [nth]. rewrite (proj2 (Z.eqb_neq b 45)), (proj2 (Z.eqb_neq b 43)) by lia. cbn [app] in E. rewrite E. unfold i32. rewrite Z.mod_small; lia.
Qed.

(** [atoi] reads back a port that was printed. *)
Lemma atoi_print n r : 0 <= n < 65536 -> match r with b :: _ => is_digit b = false | [] => True end -> atoi (print_port n ++ r) = n.
Proof.
  intros Hn Hr. destruct (print_digits_spec 5 n) as (H1 & H2 & H3); [cbn; lia|lia|]. unfold print_port. rewrite atoi_digits; [done|done| |lia|lia|done].
  intros E. rewrite E in H3. cbn in H3. lia.
Qed.
