(* ===== verification/Radio.v ===== *)
(** * RADIO and DISH (src/src/radio.cpp, src/src/dish.cpp)

    Messages of one part that belong to a group.  A RADIO socket sends a
    message to the pipes that joined its group; a DISH socket keeps the
    groups it joined, tells every peer, and drops what it did not ask for.
    Their sessions make a JOIN or LEAVE a command on the wire, and a
    message its group and its body. *)

From Stdlib Require Import String.
From S2P Require Import Prelude Text Options Array Frame Codec Mechanism Fq Lb Dist Duplex Xpub Session Sockets.

Definition ZMQ_GROUP_MAX_LENGTH : Z := 15.

(** [set_group (group, length)]; [None] is EINVAL. *)
Definition fr_set_group (f : frame) (group : bytes) : option frame :=
  if ZMQ_GROUP_MAX_LENGTH <? Z.of_nat (length group) then None
  else Some (MkFrame (fr_type f) (fr_flags f) (fr_body f) (c_string group) (fr_routing_id f)).

Definition fr_is_join (f : frame) : bool := bool_decide (fr_type f = type_join).
Definition fr_is_leave (f : frame) : bool := bool_decide (fr_type f = type_leave).

(** [init_join], [init_leave] *)
Definition join_frame : frame := Frame type_join 0 [].
Definition leave_frame : frame := Frame type_leave 0 [].

(** The group of a frame that a socket makes: [set_group (group)] takes at most 15 characters. *)
Definition with_group (f : frame) (group : bytes) : frame :=
  MkFrame (fr_type f) (fr_flags f) (fr_body f) (take 15 (c_string group)) (fr_routing_id f).

(** ** RADIO *)

(** The subscriptions are a multimap: the entries of a group in the order
    they were made. *)
Record radio := Radio { rd_subscriptions : list (bytes * Z); rd_udp_pipes : list Z; rd_dist : dist; rd_lossy : bool }.

Definition radio_new : radio := Radio [] [] dist_new true.

Definition rd_set_dist (r : radio) (d : dist) : radio := Radio (rd_subscriptions r) (rd_udp_pipes r) d (rd_lossy r).
Definition rd_set_subs (r : radio) (l : list (bytes * Z)) : radio := Radio l (rd_udp_pipes r) (rd_dist r) (rd_lossy r).

(** [equal_range]: the pipes of a group. *)
Definition group_pipes (l : list (bytes * Z)) (group : bytes) : list Z := (base.filter (fun e => e.1 = group) l).*2.

(** The first entry that is [e] is erased. *)
Fixpoint erase_first {A} `{EqDecision A} (e : A) (l : list A) : list A :=
  match l with [] => [] | x :: l => if decide (x = e) then l else x :: erase_first e l end.

Definition radio_xsetsockopt (r : radio) (option_ : Z) (as_int : option Z) : radio * bool :=
  match as_int with
  | None => (r, false)
  | Some value =>
      if value <? 0 then (r, false)
      else if option_ =? ZMQ_XPUB_NODROP then (Radio (rd_subscriptions r) (rd_udp_pipes r) (rd_dist r) (value =? 0), true)
      else (r, false)
  end.

(** A message read from a pipe: a JOIN or LEAVE, or ignored. *)
Definition radio_read_msg (r : radio) (pipe : Z) (msg : frame) : radio :=
  if fr_is_join msg then rd_set_subs r (rd_subscriptions r ++ [(fr_group msg, pipe)])
  else if fr_is_leave msg then rd_set_subs r (erase_first (fr_group msg, pipe) (rd_subscriptions r))
  else r.

Definition radio_xpipe_terminated (r : radio) (pipe : Z) : option radio :=
  let* d := dist_pipe_terminated (rd_dist r) pipe in
  Some (Radio (base.filter (fun e => e.2 <> pipe) (rd_subscriptions r)) (erase_first pipe (rd_udp_pipes r)) d (rd_lossy r)).

Definition radio_xwrite_activated (r : radio) (pipe : Z) : option radio :=
  let* d := dist_activated (rd_dist r) pipe in Some (rd_set_dist r d).

Fixpoint radio_match (d : dist) (pipes : list Z) : option dist :=
  match pipes with [] => Some d | p :: pipes => let* d := dist_match d p in radio_match d pipes end.

Definition radio_xhas_out (r : radio) : bool := dist_has_out (rd_dist r).

(** ENOTSUP *)
Definition radio_xrecv (r : radio) : option frame := None.
Definition radio_xhas_in (r : radio) : bool := false.

(** ** DISH *)

(** The groups joined, in the order of a [std::set]. *)
Record dish := Dish { ds_fq : fq; ds_dist : dist; ds_subscriptions : list bytes; ds_message : option frame }.

Definition dish_new : dish := Dish fq_new dist_new [] None.

Fixpoint bytes_ltb (a b : bytes) : bool :=
  match a, b with
  | _, [] => false
  | [], _ => true
  | x :: a, y :: b => if x <? y then true else if y <? x then false else bytes_ltb a b
  end.

Fixpoint group_insert (group : bytes) (l : list bytes) : list bytes :=
  match l with
  | [] => [group]
  | g :: l' => if bytes_ltb group g then group :: l else g :: group_insert group l'
  end.

Definition ds_set_fq (s : dish) (q : fq) : dish := Dish q (ds_dist s) (ds_subscriptions s) (ds_message s).
Definition ds_set_dist (s : dish) (d : dist) : dish := Dish (ds_fq s) d (ds_subscriptions s) (ds_message s).

Definition dish_xread_activated (s : dish) (pipe : Z) : option dish := let* q := fq_activated (ds_fq s) pipe in Some (ds_set_fq s q).
Definition dish_xwrite_activated (s : dish) (pipe : Z) : option dish := let* d := dist_activated (ds_dist s) pipe in Some (ds_set_dist s d).

Definition dish_xpipe_terminated (s : dish) (pipe : Z) : option dish :=
  let* q := fq_pipe_terminated (ds_fq s) pipe in
  let* d := dist_pipe_terminated (ds_dist s) pipe in
  Some (ds_set_dist (ds_set_fq s q) d).

Definition dish_xhas_out : bool := true.
Definition dish_xsend : option unit := None.   (** ENOTSUP *)

Definition wanted_group (s : dish) (f : frame) : bool := bool_decide (fr_group f ∈ ds_subscriptions s).

Section pipes.
Context {W : Type} {IP : InPipes W} {OP : OutPipes W} {DX : Duplex W} {DL : DuplexLaws W} {PP : PubPipes W}.
Implicit Types (w : W) (r : radio) (s : dish) (msg f : frame) (pipe p : Z).

(** [while (pipe_->read (&msg))] *)
Fixpoint radio_read_loop (fuel : nat) w r pipe : option (W * radio) :=
  let* (w, m) := ip_read w pipe in
  match m with
  | None => Some (w, r)
  | Some msg => match fuel with O => None | S fuel' => radio_read_loop fuel' w (radio_read_msg r pipe msg) pipe end
  end.

Definition radio_xread_activated w r pipe : option (W * radio) := radio_read_loop (length (ip_queue w pipe)) w r pipe.

Definition radio_xattach_pipe w r pipe (subscribe_to_all : bool) : option (W * radio) :=
  let w := pp_set_nodelay w pipe in
  let* d := dist_attach (rd_dist r) pipe in
  let r := rd_set_dist r d in
  if subscribe_to_all then Some (w, Radio (rd_subscriptions r) (rd_udp_pipes r ++ [pipe]) (rd_dist r) (rd_lossy r))
  else radio_xread_activated w r pipe.

Definition radio_xsend w r msg : option (W * radio * xsend_rc) :=
  if fr_more msg then Some (w, r, SrInval)
  else
    let d := dist_unmatch (rd_dist r) in
    let* d := radio_match d (group_pipes (rd_subscriptions r) (fr_group msg)) in
    let* d := radio_match d (rd_udp_pipes r) in
    if rd_lossy r || dist_check_hwm d (pp_check_hwm w) then
      let* (w, d, _) := dist_send_to_matching w d msg in
      Some (w, rd_set_dist r d, SrOk)
    else Some (w, rd_set_dist r d, SrAgain).

(** A JOIN for every group; what does not fit is dropped. *)
Fixpoint send_groups w pipe (groups : list bytes) : option W :=
  match groups with
  | [] => op_flush w pipe
  | g :: groups => let* (w, _) := op_write w pipe (with_group join_frame g) in send_groups w pipe groups
  end.

Definition dish_xhiccuped w s pipe : option W := send_groups w pipe (ds_subscriptions s).

Definition dish_xattach_pipe w s pipe : option (W * dish) :=
  let* q := fq_attach (ds_fq s) pipe in
  let* d := dist_attach (ds_dist s) pipe in
  let s := ds_set_dist (ds_set_fq s q) d in
  let* w := dish_xhiccuped w s pipe in
  Some (w, s).

(** [false] is EINVAL. *)
Definition dish_xjoin w s (group : bytes) : option (W * dish * bool) :=
  if ZMQ_GROUP_MAX_LENGTH <? Z.of_nat (length group) then Some (w, s, false)
  else if bool_decide (group ∈ ds_subscriptions s) then Some (w, s, false)
  else
    let* (w, d, _) := dist_send_to_all w (ds_dist s) (with_group join_frame group) in
    Some (w, Dish (ds_fq s) d (group_insert group (ds_subscriptions s)) (ds_message s), true).

Definition dish_xleave w s (group : bytes) : option (W * dish * bool) :=
  if ZMQ_GROUP_MAX_LENGTH <? Z.of_nat (length group) then Some (w, s, false)
  else if negb (bool_decide (group ∈ ds_subscriptions s)) then Some (w, s, false)
  else
    let* (w, d, _) := dist_send_to_all w (ds_dist s) (with_group leave_frame group) in
    Some (w, Dish (ds_fq s) d (erase_first group (ds_subscriptions s)) (ds_message s), true).

(** The loop of [xxrecv]: the next message of a group that was joined. *)
Fixpoint dish_fetch (fuel : nat) w s : option (W * dish * option frame) :=
  let* (w, q, r) := fq_recvpipe w (ds_fq s) in
  let s := ds_set_fq s q in
  match r with
  | None => Some (w, s, None)
  | Some (_, msg) =>
      if wanted_group s msg then Some (w, s, Some msg)
      else match fuel with O => None | S fuel' => dish_fetch fuel' w s end
  end.

Definition dish_xxrecv w s : option (W * dish * option frame) := dish_fetch (fq_frames w (ds_fq s)) w s.

Definition dish_xrecv w s : option (W * dish * option frame) :=
  match ds_message s with
  | Some msg => Some (w, Dish (ds_fq s) (ds_dist s) (ds_subscriptions s) None, Some msg)
  | None => dish_xxrecv w s
  end.

Definition dish_xhas_in w s : option (W * dish * bool) :=
  match ds_message s with
  | Some _ => Some (w, s, true)
  | None =>
      let* (w, s, r) := dish_xxrecv w s in
      match r with
      | None => Some (w, s, false)
      | Some msg => Some (w, Dish (ds_fq s) (ds_dist s) (ds_subscriptions s) (Some msg), true)
      end
  end.
End pipes.

(** ** Sessions *)

Definition join_name : bytes := Eval vm_compute in 4 :: ascii_bytes "JOIN".
Definition leave_name : bytes := Eval vm_compute in 5 :: ascii_bytes "LEAVE".

(** The command of a JOIN or LEAVE from the wire, [None] for other
    messages; the inner [None] when the assertion on the group fails. *)
Definition join_leave_of (msg : frame) : option (option frame) :=
  if negb (fr_is_command msg) then None
  else if bool_decide (take 5 (fr_body msg) = join_name) then Some (fr_set_group join_frame (drop 5 (fr_body msg)))
  else if bool_decide (take 6 (fr_body msg) = leave_name) then Some (fr_set_group leave_frame (drop 6 (fr_body msg)))
  else None.

(** What goes to the wire for a message of the socket. *)
Definition command_of (msg : frame) : frame :=
  if fr_is_join msg then Frame (if Z.of_nat (length (fr_group msg)) + 5 <=? max_vsm_size then type_vsm else type_lmsg) flag_command (join_name ++ fr_group msg)
  else if fr_is_leave msg then Frame (if Z.of_nat (length (fr_group msg)) + 6 <=? max_vsm_size then type_vsm else type_lmsg) flag_command (leave_name ++ fr_group msg)
  else msg.

(** The group frame before a message. *)
Definition group_frame (group : bytes) : frame := Frame type_vsm flag_more group.

(** [_state] and [_group_msg]; a message that was closed has no data. *)
Inductive dish_state := ds_group | ds_body (group_msg : option frame).

(** [_state] and [_pending_msg] *)
Inductive radio_state := rs_group | rs_body (pending_msg : frame).

Inductive push_rc := PushOk | PushAgain | PushFault.

Section sessions.
Context {W : Type} {IP : InPipes W} {OP : OutPipes W} {SP : SessionPipes W}.
Implicit Types (w : W) (s : session) (msg f : frame).

Definition push_code (r : option (W * bool)) : option (W * push_rc) :=
  let* (w, ok) := r in Some (w, if (ok : bool) then PushOk else PushAgain).

(** [radio_session_t::push_msg] *)
Definition radio_push_msg w s msg : option (W * push_rc) :=
  match join_leave_of msg with
  | None => push_code (session_push_msg w s msg)
  | Some None => None
  | Some (Some f) => push_code (session_push_msg w s f)
  end.

Definition radio_pull_msg w s (st : radio_state) : option (W * session * radio_state * option frame) :=
  match st with
  | rs_body pending => Some (w, s, rs_group, Some pending)
  | rs_group =>
      let* (w, s, r) := session_pull_msg w s in
      match r with
      | None => Some (w, s, rs_group, None)
      | Some f => Some (w, s, rs_body f, Some (group_frame (fr_group f)))
      end
  end.

(** The message after a push: it was moved to the pipe, unless it is a
    command that the session ignores. *)
Definition pushed msg : frame := if fr_is_command msg && negb (fr_is_subscribe msg) && negb (fr_is_cancel msg) then msg else fr_empty.

(** [dish_session_t::push_msg]; the message is changed in place. *)
Definition dish_push_msg w s (st : dish_state) msg : option (W * dish_state * frame * push_rc) :=
  match st with
  | ds_group =>
      if negb (fr_more msg) then Some (w, st, msg, PushFault)
      else if ZMQ_GROUP_MAX_LENGTH <? Z.of_nat (length (fr_body msg)) then Some (w, st, msg, PushFault)
      else Some (w, ds_body (Some msg), fr_empty, PushOk)
  | ds_body group_msg =>
      let* (st, msg) :=
        match fr_group msg with
        | _ :: _ => Some (st, msg)
        | [] =>
            let* g := group_msg in
            let* msg := fr_set_group msg (fr_body g) in
            Some (ds_body None, msg)
        end in
      if fr_more msg then Some (w, st, msg, PushFault)
      else
        let* (w, rc) := push_code (session_push_msg w s msg) in
        Some (w, match rc with PushOk => ds_group | _ => st end, match rc with PushOk => pushed msg | _ => msg end, rc)
  end.

Definition dish_pull_msg w s : option (W * session * option frame) :=
  let* (w, s, r) := session_pull_msg w s in
  Some (w, s, option_map command_of r).
End sessions.
