(* ===== verification/RadioProps.v ===== *)
(** * What RADIO and DISH guarantee (src/src/radio.cpp, src/src/dish.cpp)

    A message goes to the members of its group and to no one else; a DISH
    socket receives only what it joined; and what the sessions make of
    requests and messages is undone at the other end. *)

From Stdlib Require Import String.
From S2P Require Import Prelude Text Options Array Frame Codec Wire V2 Mechanism Fq Lb Dist Duplex Xpub XpubProps Session SessionProps Sockets Radio.

(** ** Sending *)

Record radio_inv (r : radio) : Prop := {
  ri_dist : dist_inv (rd_dist r);
  ri_more : di_more (rd_dist r) = false;
  ri_subs : forall e, e ∈ rd_subscriptions r -> e.2 ∈ a_items (di_pipes (rd_dist r));
  ri_udp : forall p, p ∈ rd_udp_pipes r -> p ∈ a_items (di_pipes (rd_dist r));
  ri_nodup : NoDup (rd_udp_pipes r);
}.

(** The pipe joined the group of the message, or takes everything. *)
Definition radio_wants (r : radio) (f : frame) (p : Z) : Prop := (fr_group f, p) ∈ rd_subscriptions r \/ p ∈ rd_udp_pipes r.

Lemma elem_group_pipes l g p : p ∈ group_pipes l g <-> (g, p) ∈ l.
Proof.
  unfold group_pipes. rewrite list_elem_of_fmap. split.
  - intros ([g' p'] & -> & H). apply list_elem_of_filter in H as [H1 H2]. cbn in *. by subst.
  - intros H. exists (g, p). split; [done|]. by apply list_elem_of_filter.
Qed.

Lemma radio_match_mark d l : radio_match d l = xpub_mark d None l.
Proof. revert d. induction l as [|p l IH]; intros d; cbn [radio_match xpub_mark]; [done|]. destruct (dist_match d p); [by apply IH|done]. Qed.

Lemma dist_unmatch_inv d : dist_inv d -> dist_inv (dist_unmatch d).
Proof. intros [Ha Ho Hi]. constructor; cbn; [done|lia|done]. Qed.

(** The pipes that a message selects. *)
Lemma radio_select_spec r f : radio_inv r ->
  exists d1 d, radio_match (dist_unmatch (rd_dist r)) (group_pipes (rd_subscriptions r) (fr_group f)) = Some d1 /\ radio_match d1 (rd_udp_pipes r) = Some d /\
    dist_inv d /\ di_more d = false /\ (forall p, di_is_matching d p <-> radio_wants r f p /\ di_is_eligible (rd_dist r) p) /\
    (forall p, p ∈ a_items (di_pipes d) <-> p ∈ a_items (di_pipes (rd_dist r))).
Proof.
  intros [Hd Hm Hs Hu _]. rewrite radio_match_mark.
  destruct (xpub_mark_spec None (group_pipes (rd_subscriptions r) (fr_group f)) (dist_unmatch (rd_dist r)) (dist_unmatch_inv _ Hd) Hm)
    as (d1 & -> & Hd1 & Hm1 & Hmt1 & Hel1 & Hmem1).
  { intros p Hp%elem_group_pipes. by apply (Hs (fr_group f, p)). }
  exists d1. rewrite radio_match_mark.
  destruct (xpub_mark_spec None (rd_udp_pipes r) d1 Hd1 Hm1) as (d & -> & Hd' & Hm' & Hmt & Hel & Hmem); [intros p Hp; by apply Hmem1, Hu|].
  exists d. split_and!; try done.
  - intros p. rewrite Hmt, Hmt1, Hel1, elem_group_pipes. unfold radio_wants. cbn [marks].
    assert (~ di_is_matching (dist_unmatch (rd_dist r)) p) as Hno by apply in_part_zero.
    change (di_is_eligible (dist_unmatch (rd_dist r)) p) with (di_is_eligible (rd_dist r) p). tauto.
  - intros p. by rewrite Hmem, Hmem1.
Qed.

(** C30: A message sent on a RADIO socket goes to every pipe that joined its
    group, or takes all messages, and has room, once, however often the
    pipe joined; no other pipe gets anything, the groups stay as they are,
    and no assertion fails. *)
Theorem radio_send {W} {IP : InPipes W} {OP : OutPipes W} {DX : Duplex W} {DL : DuplexLaws W} {PP : PubPipes W} (w : W) (r : radio) (f : frame) :
  radio_inv r -> rd_lossy r = true -> fr_more f = false -> (forall p, op_pending w p = []) ->
  exists w' r', radio_xsend w r f = Some (w', r', SrOk) /\ radio_inv r' /\
    (forall p, radio_wants r f p -> di_is_eligible (rd_dist r) p -> op_room w p = true -> op_sent w' p = op_sent w p ++ [f]) /\
    (forall p, ~ radio_wants r f p \/ ~ di_is_eligible (rd_dist r) p \/ op_room w p = false -> op_sent w' p = op_sent w p) /\
    (forall p, op_pending w' p = []) /\ rd_subscriptions r' = rd_subscriptions r /\ rd_udp_pipes r' = rd_udp_pipes r.
Proof.
  intros Hr Hl Hf Hpend. destruct (radio_select_spec r f Hr) as (d1 & d & E1 & E2 & Hd & Hm & Hmt & Hmem).
  unfold radio_xsend. rewrite Hf, E1. cbn [mbind option_bind]. rewrite E2. cbn [mbind option_bind]. rewrite Hl. cbn [orb].
  destruct (dist_send_ok w d f Hd) as (w' & d' & refs & E & Hi & Hm' & Hg & Hun & _ & _ & _ & _ & Hmem'). rewrite E. cbn [mbind option_bind].
  setoid_rewrite Hmt in Hg. setoid_rewrite Hmt in Hun. unfold got_frame in Hg. rewrite Hf in Hg, Hm'.
  eexists w', _. split; [done|]. split; [|split_and!; try done].
  - destruct Hr as [_ _ Hs Hu Hnd]. constructor; cbn; try done; [intros e He; by apply Hmem', Hmem, Hs|intros p Hp; by apply Hmem', Hmem, Hu].
  - intros p Hw He Hroom. destruct (Hg p (conj Hw He) Hroom) as [_ ->]. by rewrite Hpend.
  - intros p Hp. destruct (Hun p) as [_ ->]; [tauto|done].
  - intros p. destruct (decide (op_room w p = true)) as [Hroom|Hroom].
    + destruct (decide (di_is_matching d p)) as [Hp|Hp]; [|destruct (Hun p) as [-> _]; [left; by rewrite <- Hmt|done]].
      apply Hmt in Hp. by destruct (Hg p Hp Hroom).
    + destruct (Hun p) as [-> _]; [right; by destruct (op_room w p)|done].
Qed.

(** ** Joining *)

(** What a request adds to the entries of a pipe. *)
Definition joins (p : Z) (l : list (bytes * Z)) (f : frame) : list (bytes * Z) :=
  if fr_is_join f then l ++ [(fr_group f, p)] else if fr_is_leave f then erase_first (fr_group f, p) l else l.

Lemma radio_read_subs r p f : radio_read_msg r p f = rd_set_subs r (joins p (rd_subscriptions r) f).
Proof. unfold radio_read_msg, joins. destruct (fr_is_join f); [done|]. destruct (fr_is_leave f); [done|]. by destruct r. Qed.

(** Reading a pipe applies its requests in order, whatever it sent. *)
Lemma radio_activated_spec {W} {IP : InPipes W} {IL : InPipesLaws W} (w : W) (r : radio) (p : Z) :
  exists w', radio_xread_activated w r p = Some (w', rd_set_subs r (fold_left (joins p) (ip_queue w p) (rd_subscriptions r))) /\
    ip_queue w' p = [] /\ forall p', p' <> p -> ip_queue w' p' = ip_queue w p'.
Proof.
  unfold radio_xread_activated. remember (length (ip_queue w p)) as fuel eqn:Hl. symmetry in Hl. revert w r Hl.
  induction fuel as [|fuel IH]; intros w r Hl; cbn [radio_read_loop]; destruct (ip_read_ok w p) as (w1 & -> & Hq); cbn [mbind option_bind];
    destruct (ip_queue w p) as [|f l] eqn:Ew; try done; cbn [head tail] in *.
  - exists w1. split; [by destruct r|]. split; [by rewrite Hq, decide_True|]. intros p' Hp. by rewrite Hq, decide_False.
  - destruct (IH w1 (radio_read_msg r p f)) as (w' & -> & He & Ho); [rewrite Hq, decide_True by done; simpl in Hl; lia|].
    exists w'. rewrite Hq, decide_True, radio_read_subs by done. split; [done|]. split; [done|]. intros p' Hp. by rewrite Ho, Hq, decide_False.
Qed.

(** *** The invariant is kept *)

Lemma joins_pipes p l f e : e ∈ joins p l f -> e ∈ l \/ e.2 = p.
Proof.
  unfold joins. destruct (fr_is_join f); [|destruct (fr_is_leave f); [|by left]].
  - intros [H|H%list_elem_of_singleton]%elem_of_app; [by left|right; by subst].
  - intros H. left. induction l as [|x l IH]; cbn [erase_first] in H; [done|]. destruct (decide (x = _)); [by right|].
    apply elem_of_cons in H as [->|H]; [by left|right; auto].
Qed.

Lemma fold_joins_pipes p q : forall l e, e ∈ fold_left (joins p) q l -> e ∈ l \/ e.2 = p.
Proof. induction q as [|f q IH]; intros l e; cbn [fold_left]; [by left|]. intros [H|H]%IH; [by apply joins_pipes in H|by right]. Qed.

Lemma radio_new_inv : radio_inv radio_new.
Proof. constructor; cbn; [apply dist_new_inv|done|set_solver..|constructor]. Qed.

Lemma radio_activated_inv {W} {IP : InPipes W} {IL : InPipesLaws W} (w : W) (r : radio) (p : Z) : radio_inv r -> p ∈ a_items (di_pipes (rd_dist r)) ->
  exists w' r', radio_xread_activated w r p = Some (w', r') /\ radio_inv r' /\ rd_dist r' = rd_dist r.
Proof.
  intros [Hd Hm Hs Hu Hnd] Hp. destruct (radio_activated_spec w r p) as (w' & -> & _). eexists w', _. split; [done|]. split; [|done].
  constructor; cbn; try done. intros e [He| ->]%fold_joins_pipes; [by apply Hs|done].
Qed.

Lemma radio_attach_inv {W} {IP : InPipes W} {OP : OutPipes W} {IL : InPipesLaws W} {PP : PubPipes W} (w : W) (r : radio) (p : Z) (all : bool) :
  radio_inv r -> p ∉ a_items (di_pipes (rd_dist r)) ->
  exists w' r', radio_xattach_pipe w r p all = Some (w', r') /\ radio_inv r' /\ forall x, x ∈ a_items (di_pipes (rd_dist r')) <-> x ∈ a_items (di_pipes (rd_dist r)) \/ x = p.
Proof.
  intros [Hd Hm Hs Hu Hnd] Hp. unfold radio_xattach_pipe. destruct (dist_attach_ok _ _ Hd Hp) as (d & -> & Hd' & Hm' & _ & _ & _ & Hmem). cbn [mbind option_bind].
  assert (radio_inv (rd_set_dist r d)) as Hr.
  { constructor; cbn; [done|congruence| | |done]; [intros e He; apply Hmem; left; by apply Hs|intros x Hx; apply Hmem; left; by apply Hu]. }
  destruct all.
  - eexists _, _. split; [done|]. split; [|by intros x; cbn; rewrite Hmem]. destruct Hr as [H1 H2 H3 H4 _]. constructor; cbn in *; try done.
    + intros x [Hx|Hx%list_elem_of_singleton]%elem_of_app; [by apply H4|apply Hmem; by right].
    + apply list.NoDup_app. split; [done|]. split; [|apply NoDup_singleton]. intros x Hx%Hu ->%list_elem_of_singleton. done.
  - destruct (radio_activated_inv (pp_set_nodelay w p) _ p Hr) as (w' & r' & -> & Hr' & Ed); [cbn; apply Hmem; by right|].
    exists w', r'. split; [done|]. split; [done|]. by rewrite Ed.
Qed.

Lemma radio_terminated_inv (r : radio) (p : Z) : radio_inv r -> p ∈ a_items (di_pipes (rd_dist r)) ->
  exists r', radio_xpipe_terminated r p = Some r' /\ radio_inv r' /\ forall f, ~ radio_wants r' f p.
Proof.
  intros [Hd Hm Hs Hu Hnd] Hp. unfold radio_xpipe_terminated. destruct (dist_pipe_terminated_ok _ _ Hd Hp) as (d & -> & Hd' & Hm' & _ & _ & _ & Hmem).
  cbn [mbind option_bind]. eexists. split; [done|].
  assert (forall x, x ∈ erase_first p (rd_udp_pipes r) -> x ∈ rd_udp_pipes r /\ x <> p) as Hx.
  { clear -Hnd. induction Hnd as [|y l Hy Hnd IH]; intros x; cbn [erase_first]; [by intros ?%not_elem_of_nil|].
    destruct (decide (y = p)) as [->|Hne]; [intros Hx; split; [by right|by intros ->]|].
    intros [->|Hx]%elem_of_cons; [split; [by left|done]|]. destruct (IH x Hx). split; [by right|done]. }
  assert (NoDup (erase_first p (rd_udp_pipes r))) as Hnd'.
  { clear -Hnd. induction Hnd as [|y l Hy Hnd IH]; cbn [erase_first]; [constructor|]. destruct (decide (y = p)); [done|]. constructor; [|done].
    intros H. apply Hy. clear -H. induction l as [|z l IH]; cbn [erase_first] in H; [done|]. destruct (decide (z = p)); [by right|].
    apply elem_of_cons in H as [->|H]; [by left|right; auto]. }
  split; [constructor; cbn; try done; [congruence| |]|].
  - intros e [He1 He2]%list_elem_of_filter. apply Hmem. split; [by apply Hs|done].
  - intros x [H1 H2]%Hx. apply Hmem. split; [by apply Hu|done].
  - intros f [[Hf _]%list_elem_of_filter|[_ Hf]%Hx]; done.
Qed.

(** A RADIO with two pipes; the first joined the group [7] and the second another. *)
Definition radio_example_pipes : dpipes :=
  DPipes (list_to_map [(1, [with_group join_frame [7]]); (2, [with_group join_frame [8]])]) (list_to_map [(1, (5%nat, [], [])); (2, (5%nat, [], []))]) ∅.

Definition radio_example : dpipes * radio :=
  default (radio_example_pipes, radio_new)
    (let* (w, r) := radio_xattach_pipe radio_example_pipes radio_new 1 false in radio_xattach_pipe w r 2 false).

Definition radio_message : frame := with_group (Frame type_vsm 0 [42]) [7].

Lemma radio_example_inv : radio_inv radio_example.2.
Proof.
  destruct (radio_attach_inv radio_example_pipes radio_new 1 false radio_new_inv) as (w1 & r1 & E1 & H1 & M1); [simpl; set_solver|].
  destruct (radio_attach_inv w1 r1 2 false H1) as (w2 & r2 & E2 & H2 & _); [intros Hin; apply M1 in Hin as [Hin|Hin]; [simpl in Hin; set_solver|lia]|].
  assert (radio_example.2 = r2) as ->; [|done]. unfold radio_example. rewrite E1. cbn [mbind option_bind]. by rewrite E2.
Qed.

Lemma radio_example_pending p : op_pending radio_example.1 p = [].
Proof.
  assert (dp_out radio_example.1 = dp_out radio_example_pipes) as E by reflexivity.
  change (op_pending (dp_out radio_example.1) p = []). rewrite E. cbn. unfold credit_of.
  destruct (decide (p = 1)) as [->|H1]; [by rewrite lookup_insert_eq|]. rewrite lookup_insert_ne by done.
  destruct (decide (p = 2)) as [->|H2]; [by rewrite lookup_insert_eq|]. by rewrite lookup_insert_ne by done.
Qed.

Lemma radio_send_witness : exists w' r', radio_xsend radio_example.1 radio_example.2 radio_message = Some (w', r', SrOk) /\
  op_sent w' 1 = [radio_message] /\ op_sent w' 2 = [].
Proof.
  destruct (radio_send radio_example.1 radio_example.2 radio_message radio_example_inv) as (w' & r' & E & _ & Hg & Hn & _).
  - reflexivity.
  - reflexivity.
  - apply radio_example_pending.
  - exists w', r'. split; [exact E|]. split.
    + rewrite (Hg 1); [reflexivity| | |reflexivity].
      * left. vm_compute. left.
      * exists 0%nat. split; [vm_compute; lia|reflexivity].
    + rewrite (Hn 2); [reflexivity|]. left. intros [H|H]; vm_compute in H.
      * apply elem_of_cons in H as [H|H]; [discriminate|]. apply list_elem_of_singleton in H. discriminate.
      * by apply not_elem_of_nil in H.
Defined.

(** ** Receiving *)

Section dish.
Context {W : Type} {IP : InPipes W} {OP : OutPipes W} {DX : Duplex W} {DL : DuplexLaws W}.
Implicit Types (w : W) (s : dish).

(** Pipes that carry messages of one part. *)
Definition single_parts w : Prop := forall p, Forall (fun f => fr_more f = false) (ip_queue w p).

(** A message that was not asked for. *)
Definition not_joined s (m : list frame) : Prop := exists f, m = [f] /\ wanted_group s f = false.

Definition next_joined s w w' (q' : fq) (r : option frame) : Prop :=
  match r with
  | None => drops (not_joined s) w w' /\ forall p, fq_is_active (ds_fq s) p -> ip_queue w' p = []
  | Some f => wanted_group s f = true /\ exists p w1, drops (not_joined s) w w1 /\ ip_queue w1 p = f :: ip_queue w' p /\
      forall p', p' <> p -> ip_queue w' p' = ip_queue w1 p'
  end.

Lemma dish_fetch_spec fuel : forall w s, fq_between w (ds_fq s) -> single_parts w -> (fq_frames w (ds_fq s) <= fuel)%nat ->
  exists w' q' r, dish_fetch fuel w s = Some (w', ds_set_fq s q', r) /\ fq_between w' q' /\ single_parts w' /\ next_joined s w w' q' r.
Proof.
  induction fuel as [|fuel IH]; intros w s Hb Hs Hlen; cbn [dish_fetch];
    destruct (fq_recv_start w (ds_fq s) Hb) as (w1 & q1 & r & -> & Hmem & Hr); cbn [mbind option_bind];
    destruct r as [[p f]|].
  all: try (destruct Hr as (Hall & Hsame & Hb1 & _); exists w1, q1, None; split; [done|]; split; [done|];
    split; [intros p; rewrite Hsame; apply Hs|]; split; [by apply drops_refl|intros p Hp; rewrite Hsame; auto]).
  all: destruct Hr as (Hact & msg & rest & Hmsg & Hrest & Hq & Hq1 & Ho & Hat & Hn & Hsh1 & Hsh2); [].
  all: assert (fr_more f = false) as Hf by (pose proof (Hs p) as Hp; rewrite Hq in Hp; by inversion Hp).
  all: assert (msg = []) as -> by (destruct msg; [done|]; cbn [is_message] in Hmsg; by rewrite Hf in Hmsg).
  all: cbn [app fq_at] in *.
  all: assert (single_parts w1) as Hs1 by (intros p'; destruct (decide (p' = p)) as [->|Hne]; [rewrite Hq1; pose proof (Hs p) as Hp; rewrite Hq in Hp; by inversion Hp|rewrite Ho by done; apply Hs]).
  - lia.
  - change (wanted_group (ds_set_fq s q1) f) with (wanted_group s f). destruct (wanted_group s f) eqn:Hw.
    + exists w1, q1, (Some f). split; [done|]. split; [done|]. split; [done|]. split; [done|]. exists p, w. split; [by apply drops_refl|].
      split; [by rewrite Hq, Hq1|done].
    + destruct (IH w1 (ds_set_fq s q1)) as (w' & q' & r & E & Hb' & Hs' & Hnext); [done..|cbn; lia|].
      exists w', q', r. split; [exact E|]. split; [done|]. split; [done|].
      assert (not_joined s [f]) as Hnj by (by exists f).
      assert (forall w2, drops (not_joined s) w1 w2 -> drops (not_joined s) w w2) as Hdrop.
      { intros w2 Hd. eapply (drops_cons (not_joined s) w w1 w2 p f []); [done|by rewrite Hq, Hq1|done|done]. }
      destruct r as [g|]; cbn [next_joined] in *.
      * destruct Hnext as (Hg & p2 & w2 & Hd & H). split; [done|]. exists p2, w2. split; [by apply Hdrop|done].
      * destruct Hnext as (Hd & Hall). split; [by apply Hdrop|]. intros p' Hp'.
        destruct (decide (ip_queue w p' = [])) as [He|He].
        -- apply (drops_empty (not_joined s) w w' p'); [by apply Hdrop|done].
        -- apply Hall. by apply Hsh2.
Qed.
End dish.

(** a DISH socket receives the next message of a group that it joined, and
    drops only messages of other groups on the way; when it reports that
    there is nothing, no pipe it was told to read has a message left. *)
Theorem dish_receives {W} {IP : InPipes W} {OP : OutPipes W} {DX : Duplex W} {DL : DuplexLaws W} (w : W) (s : dish) :
  ds_message s = None -> fq_between w (ds_fq s) -> single_parts w ->
  exists w' q' r, dish_xrecv w s = Some (w', ds_set_fq s q', r) /\ fq_between w' q' /\ single_parts w' /\ next_joined s w w' q' r.
Proof. intros Hm Hb Hs. unfold dish_xrecv. rewrite Hm. by apply dish_fetch_spec. Qed.

(** ** Between the sessions *)

(** A group that a socket can join: it fits, and a C string holds it. *)
Definition group_ok (g : bytes) : Prop := (length g <= 15)%nat /\ 0 ∉ g.

Lemma set_group_ok f g : group_ok g -> fr_set_group f g = Some (with_group f g).
Proof.
  intros [Hl H0]. unfold fr_set_group, with_group. assert ((ZMQ_GROUP_MAX_LENGTH <? Z.of_nat (length g)) = false) as -> by (unfold ZMQ_GROUP_MAX_LENGTH; lia).
  by rewrite c_string_id, take_ge.
Qed.

Lemma with_group_group f g : group_ok g -> fr_group (with_group f g) = g.
Proof. intros [Hl H0]. cbn. by rewrite c_string_id, take_ge. Qed.

(** What a JOIN or LEAVE becomes on the wire is read back as itself. *)
Lemma join_leave_roundtrip (leave : bool) g f : group_ok g -> let m := with_group (if leave then leave_frame else join_frame) g in
  v2_same (command_of m) f -> join_leave_of f = Some (Some m).
Proof.
  intros Hg m [Hf Hb]. assert (fr_is_command f = true) as Hc.
  { unfold fr_is_command. rewrite Hf. subst m. unfold command_of. destruct leave; reflexivity. }
  unfold join_leave_of. rewrite Hc. cbn [negb]. unfold command_of in Hb. subst m. destruct leave.
  - change (fr_is_join (with_group leave_frame g)) with false in Hb. change (fr_is_leave (with_group leave_frame g)) with true in Hb. cbv match in Hb.
    cbn [fr_body] in Hb. rewrite with_group_group in Hb by done.
    rewrite Hb. rewrite (bool_decide_eq_false_2 (take 5 _ = join_name)) by (cbn; discriminate).
    rewrite bool_decide_eq_true_2 by reflexivity. cbn. by rewrite set_group_ok.
  - change (fr_is_join (with_group join_frame g)) with true in Hb. cbv match in Hb.
    cbn [fr_body] in Hb. rewrite with_group_group in Hb by done. rewrite Hb.
    rewrite bool_decide_eq_true_2 by reflexivity. cbn. by rewrite set_group_ok.
Qed.

(** The two pushes of the session of a DISH. *)
Lemma dish_push_group {W} {IP : InPipes W} {OP : OutPipes W} {SP : SessionPipes W} (w : W) (t : session) (f : frame) :
  fr_more f = true -> (length (fr_body f) <= 15)%nat -> dish_push_msg w t ds_group f = Some (w, ds_body (Some f), fr_empty, PushOk).
Proof.
  intros Hm Hl. unfold dish_push_msg. rewrite Hm. cbn [negb]. by rewrite (proj2 (Z.ltb_ge ZMQ_GROUP_MAX_LENGTH _)) by (unfold ZMQ_GROUP_MAX_LENGTH; lia).
Qed.

Lemma dish_push_named {W} {IP : InPipes W} {OP : OutPipes W} {SP : SessionPipes W} (w : W) (t : session) (st : option frame) (f : frame) :
  fr_group f <> [] -> fr_more f = false -> fr_is_command f = false ->
  dish_push_msg w t (ds_body st) f =
    (let* (w, ok) := session_push_msg w t f in
     Some (w, if (ok : bool) then ds_group else ds_body st, if ok then fr_empty else f, if ok then PushOk else PushAgain)).
Proof.
  intros Hg Hm Hc. unfold dish_push_msg. destruct (fr_group f) eqn:Eg; [done|]. cbn [mbind option_bind]. rewrite Hm. unfold push_code.
  destruct (session_push_msg w t f) as [[w' []]|]; cbn [mbind option_bind]; try done. unfold pushed. by rewrite Hc.
Qed.

Lemma dish_push_body {W} {IP : InPipes W} {OP : OutPipes W} {SP : SessionPipes W} (w : W) (t : session) (gf f : frame) (g : bytes) :
  fr_group f = [] -> fr_body gf = g -> group_ok g -> fr_more f = false -> fr_is_command f = false ->
  dish_push_msg w t (ds_body (Some gf)) f =
    (let* (w, ok) := session_push_msg w t (with_group f g) in
     Some (w, if (ok : bool) then ds_group else ds_body None, if ok then fr_empty else with_group f g, if ok then PushOk else PushAgain)).
Proof.
  intros Hf Hgf Hg Hm Hc. unfold dish_push_msg. rewrite Hf. cbn [mbind option_bind]. rewrite Hgf, set_group_ok by done. cbn [mbind option_bind].
  change (fr_more (with_group f g)) with (fr_more f). rewrite Hm. unfold push_code.
  destruct (session_push_msg w t (with_group f g)) as [[w' []]|]; cbn [mbind option_bind]; try done.
  unfold pushed. change (fr_is_command (with_group f g)) with (fr_is_command f). by rewrite Hc.
Qed.

(** C31: What a DISH asks for and what a RADIO sends arrive: a JOIN or LEAVE
    of the DISH becomes a command on the wire that the session of the RADIO
    turns back into the same request, and a message of the RADIO becomes
    its group and its body on the wire, which the session of the DISH turns
    back into one message of that group; while the pipe of the DISH is full
    the message can be pushed again, when its group has a name. *)
Theorem radio_dish_exchange {W} {IP : InPipes W} {OP : OutPipes W} {SP : SessionPipes W} (v w : W) (s t : session) :
  (forall v1 s1 g (leave : bool), group_ok g -> let m := with_group (if leave then leave_frame else join_frame) g in
    session_pull_msg v s = Some (v1, s1, Some m) ->
    exists c, dish_pull_msg v s = Some (v1, s1, Some c) /\ forall f, v2_same c f -> radio_push_msg w t f = push_code (session_push_msg w t m)) /\
  (forall v1 s1 m, session_pull_msg v s = Some (v1, s1, Some m) -> group_ok (fr_group m) -> fr_more m = false -> fr_is_command m = false ->
    exists c, radio_pull_msg v s rs_group = Some (v1, s1, rs_body m, Some c) /\ radio_pull_msg v1 s1 (rs_body m) = Some (v1, s1, rs_group, Some m) /\
    forall c' f, v2_same c c' -> v2_same m f -> fr_group f = [] ->
      dish_push_msg w t ds_group c' = Some (w, ds_body (Some c'), fr_empty, PushOk) /\
      let f' := with_group f (fr_group m) in fr_group f' = fr_group m /\ fr_body f' = fr_body m /\
        match session_push_msg w t f' with
        | Some (w', true) => dish_push_msg w t (ds_body (Some c')) f = Some (w', ds_group, fr_empty, PushOk)
        | Some (w', false) => dish_push_msg w t (ds_body (Some c')) f = Some (w', ds_body None, f', PushAgain) /\
            (fr_group m <> [] -> forall w2, dish_push_msg w2 t (ds_body None) f' =
              (let* (w3, rc) := push_code (session_push_msg w2 t f') in
               Some (w3, match rc with PushOk => ds_group | _ => ds_body None end, match rc with PushOk => fr_empty | _ => f' end, rc)))
        | None => dish_push_msg w t (ds_body (Some c')) f = None
        end).
Proof.
  split.
  - intros v1 s1 g leave Hg m E. exists (command_of m). split; [unfold dish_pull_msg; by rewrite E|]. intros f Hf.
    unfold radio_push_msg. subst m. by rewrite (join_leave_roundtrip leave g f Hg Hf).
  - intros v1 s1 m E Hg Hm Hc. exists (group_frame (fr_group m)). split; [unfold radio_pull_msg; by rewrite E|]. split; [done|].
    intros c' f [Hcf Hcb] [Hff Hfb] Hfg. change (fr_body c' = fr_group m) in Hcb. split.
    + apply dish_push_group; [by unfold fr_more; rewrite Hcf|]. rewrite Hcb. apply Hg.
    + assert (fr_more f = false /\ fr_is_command f = false) as [Hfm Hfc].
      { destruct (v2_flags_cases m) as (r & Hr & Hk & Hmo & Hco). unfold fr_more, fr_is_command in *. rewrite Hff, Hk. rewrite Hmo in Hm. rewrite Hco in Hc. done. }
      intros f'. split; [by apply with_group_group|]. split; [done|].
      rewrite (dish_push_body w t c' f _ Hfg Hcb Hg Hfm Hfc). fold f'. destruct (session_push_msg w t f') as [[w' []]|]; cbn [mbind option_bind]; try done.
      split; [done|]. intros Hne w2. rewrite (dish_push_named w2 t None f'); [|by unfold f'; rewrite with_group_group|done|done].
      unfold push_code. by destruct (session_push_msg w2 t f') as [[w3 []]|].
Qed.

Definition exchange_session : session := Session true (Some 1) None ∅ false false true false false [].

Definition exchange_wires (q : list frame) : dpipes := DPipes (list_to_map [(1, q)]) (list_to_map [(1, (1%nat, [], []))]) ∅.

Lemma seven_ok : group_ok [7].
Proof. split; [simpl; lia|]. intros H%list_elem_of_singleton. lia. Qed.

(** The request and the message of the group [7] on the wire, and what their sessions make of them. *)
Lemma radio_dish_exchange_witness :
  (exists w', radio_push_msg (exchange_wires []) exchange_session (Frame type_vsm 2 (join_name ++ [7])) = Some (w', PushOk) /\ op_pending w' 1 = [with_group join_frame [7]]) /\
  (exists w', dish_push_msg (exchange_wires []) exchange_session (ds_body (Some (Frame type_vsm 1 [7]))) (Frame type_vsm 0 [42]) = Some (w', ds_group, fr_empty, PushOk) /\
    op_pending w' 1 = [with_group (Frame type_vsm 0 [42]) [7]]).
Proof.
  split.
  - destruct (radio_dish_exchange (exchange_wires [with_group join_frame [7]]) (exchange_wires []) exchange_session exchange_session) as [H _].
    destruct (H (exchange_wires []) exchange_session [7] false seven_ok eq_refl) as (c & Ec & Hf). injection Ec as <-.
    eexists. split; [rewrite Hf; [reflexivity|split; reflexivity]|reflexivity].
  - destruct (radio_dish_exchange (exchange_wires [radio_message]) (exchange_wires []) exchange_session exchange_session) as [_ H].
    destruct (H (exchange_wires []) exchange_session radio_message eq_refl seven_ok eq_refl eq_refl) as (c & Ec & _ & Hf). injection Ec as <-.
    destruct (Hf (Frame type_vsm 1 [7]) (Frame type_vsm 0 [42])) as (_ & _ & _ & Hpush); [split; reflexivity..|reflexivity|].
    eexists. split; [exact Hpush|reflexivity].
Defined.

(** A message of the group without a name cannot be pushed again: its group
    frame is closed, and the session reads it. *)
Lemma nameless_group_asserts {W} {IP : InPipes W} {OP : OutPipes W} {SP : SessionPipes W} (w : W) (t : session) (f : frame) :
  fr_group f = [] -> dish_push_msg w t (ds_body None) f = None.
Proof. intros H. unfold dish_push_msg. by rewrite H. Qed.

(** A JOIN whose group is too long ends the process of the RADIO. *)
Lemma long_group_asserts {W} {IP : InPipes W} {OP : OutPipes W} {SP : SessionPipes W} (w : W) (t : session) (f : frame) (g : bytes) :
  fr_is_command f = true -> fr_body f = join_name ++ g -> (15 < length g)%nat -> radio_push_msg w t f = None.
Proof.
  intros Hc Hb Hg. unfold radio_push_msg, join_leave_of. rewrite Hc, Hb. cbn [negb]. rewrite bool_decide_eq_true_2 by reflexivity.
  change (drop 5 (join_name ++ g)) with g. unfold fr_set_group, ZMQ_GROUP_MAX_LENGTH. by destruct (15 <? Z.of_nat (length g)) eqn:E; [|lia].
Qed.

(** A command between messages, such as a heartbeat, is refused: the
    engine of the DISH takes it for a protocol error. *)
Lemma heartbeat_refused {W} {IP : InPipes W} {OP : OutPipes W} {SP : SessionPipes W} (w : W) (t : session) (f : frame) :
  fr_more f = false -> dish_push_msg w t ds_group f = Some (w, ds_group, f, PushFault).
Proof. intros H. unfold dish_push_msg. by rewrite H. Qed.
