(* ===== verification/Connecter.v ===== *)
(** * Connecters (src/src/stream_connecter_base.cpp, tcp_connecter.cpp, ipc_connecter.cpp)

    A connecter opens a socket, waits for the connection, hands it to an
    engine, and tries again later when it fails.  The answers of the
    operating system are arguments; the handles and timers that the
    poller holds for the connecter are part of its state, so that using a
    handle that is not registered is an assertion that fails. *)

From S2P Require Import Prelude.

Definition INT_MAX : Z := 2147483647.

(** What the connecter asks of others. *)
Inductive cn_act :=
| ca_attach (fd : Z)              (** an engine for the session *)
| ca_terminate                    (** [own_t::terminate] *)
| ca_retried (interval : Z) | ca_closed (fd : Z) | ca_delayed | ca_connected (fd : Z).   (** socket events *)

Record connecter := Connecter {
  cn_s : option Z;                             (** [_s], [None] for retired_fd *)
  cn_handle : option Z;
  cn_reconnect_timer_started : bool;
  cn_connect_timer_started : bool;
  cn_current_reconnect_ivl : Z;
  cn_registered : gset Z;                      (** the poller: handles, *)
  cn_pollin : bool; cn_pollout : bool;         (** what the last one is polled for, *)
  cn_timers : list Z;                          (** and the ids of timers *)
  cn_next_handle : Z;
  cn_acts : list cn_act;
}.

Record cn_options := COpts { co_reconnect_ivl : Z; co_reconnect_ivl_max : Z; co_connect_timeout : Z }.

Definition reconnect_timer_id : Z := 1.
Definition connect_timer_id : Z := 2.

Definition connecter_new (o : cn_options) : connecter :=
  Connecter None None false false (co_reconnect_ivl o) ∅ false false [] 1 [].

(** The assertions of the destructors. *)
Definition connecter_destroy (c : connecter) : option unit :=
  zmq_assert (negb (cn_connect_timer_started c)) ;;
  zmq_assert (negb (cn_reconnect_timer_started c)) ;;
  zmq_assert (bool_decide (cn_handle c = None)) ;;
  zmq_assert (bool_decide (cn_s c = None)) ;; Some tt.

Definition cn_set_s (c : connecter) (s : option Z) : connecter :=
  Connecter s (cn_handle c) (cn_reconnect_timer_started c) (cn_connect_timer_started c) (cn_current_reconnect_ivl c)
    (cn_registered c) (cn_pollin c) (cn_pollout c) (cn_timers c) (cn_next_handle c) (cn_acts c).
Definition cn_set_handle (c : connecter) (h : option Z) : connecter :=
  Connecter (cn_s c) h (cn_reconnect_timer_started c) (cn_connect_timer_started c) (cn_current_reconnect_ivl c)
    (cn_registered c) (cn_pollin c) (cn_pollout c) (cn_timers c) (cn_next_handle c) (cn_acts c).
Definition cn_set_reconnect_timer (c : connecter) (b : bool) : connecter :=
  Connecter (cn_s c) (cn_handle c) b (cn_connect_timer_started c) (cn_current_reconnect_ivl c)
    (cn_registered c) (cn_pollin c) (cn_pollout c) (cn_timers c) (cn_next_handle c) (cn_acts c).
Definition cn_set_connect_timer (c : connecter) (b : bool) : connecter :=
  Connecter (cn_s c) (cn_handle c) (cn_reconnect_timer_started c) b (cn_current_reconnect_ivl c)
    (cn_registered c) (cn_pollin c) (cn_pollout c) (cn_timers c) (cn_next_handle c) (cn_acts c).
Definition cn_set_ivl (c : connecter) (ivl : Z) : connecter :=
  Connecter (cn_s c) (cn_handle c) (cn_reconnect_timer_started c) (cn_connect_timer_started c) ivl
    (cn_registered c) (cn_pollin c) (cn_pollout c) (cn_timers c) (cn_next_handle c) (cn_acts c).
Definition cn_set_poll (c : connecter) (r : gset Z) (pin pout : bool) (n : Z) : connecter :=
  Connecter (cn_s c) (cn_handle c) (cn_reconnect_timer_started c) (cn_connect_timer_started c) (cn_current_reconnect_ivl c)
    r pin pout (cn_timers c) n (cn_acts c).
Definition cn_set_timers (c : connecter) (l : list Z) : connecter :=
  Connecter (cn_s c) (cn_handle c) (cn_reconnect_timer_started c) (cn_connect_timer_started c) (cn_current_reconnect_ivl c)
    (cn_registered c) (cn_pollin c) (cn_pollout c) l (cn_next_handle c) (cn_acts c).
Definition cn_log (c : connecter) (a : cn_act) : connecter :=
  Connecter (cn_s c) (cn_handle c) (cn_reconnect_timer_started c) (cn_connect_timer_started c) (cn_current_reconnect_ivl c)
    (cn_registered c) (cn_pollin c) (cn_pollout c) (cn_timers c) (cn_next_handle c) (cn_acts c ++ [a]).

(** ** The poller *)

(** [_handle = add_fd (_s)] *)
Definition cn_add_fd (c : connecter) : connecter :=
  cn_set_handle (cn_set_poll c ({[cn_next_handle c]} ∪ cn_registered c) false false (cn_next_handle c + 1)) (Some (cn_next_handle c)).

Definition cn_is_registered (c : connecter) : bool :=
  match cn_handle c with Some h => bool_decide (h ∈ cn_registered c) | None => false end.

(** [rm_fd (_handle)] *)
Definition cn_rm_fd (c : connecter) : option connecter :=
  let* h := cn_handle c in
  zmq_assert (bool_decide (h ∈ cn_registered c)) ;;
  Some (cn_set_poll c (cn_registered c ∖ {[h]}) false false (cn_next_handle c)).

Definition cn_poll (c : connecter) (pin pout : bool) : option connecter :=
  zmq_assert (cn_is_registered c) ;; Some (cn_set_poll c (cn_registered c) pin pout (cn_next_handle c)).

Definition set_pollout (c : connecter) : option connecter := cn_poll c (cn_pollin c) true.
Definition set_pollin (c : connecter) : option connecter := cn_poll c true (cn_pollout c).
Definition reset_pollout (c : connecter) : option connecter := cn_poll c (cn_pollin c) false.
Definition reset_pollin (c : connecter) : option connecter := cn_poll c false (cn_pollout c).

Definition cn_add_timer (c : connecter) (id : Z) : connecter := cn_set_timers c (cn_timers c ++ [id]).

(** The first timer of the id; there must be one. *)
Fixpoint remove_timer (id : Z) (l : list Z) : option (list Z) :=
  match l with
  | [] => None
  | x :: l => if x =? id then Some l else let* l := remove_timer id l in Some (x :: l)
  end.

Definition cn_cancel_timer (c : connecter) (id : Z) : option connecter :=
  let* l := remove_timer id (cn_timers c) in Some (cn_set_timers c l).

(** ** stream_connecter_base_t *)

(** The interval and the next [_current_reconnect_ivl]; the remainder of a
    division by zero is undefined. *)
Definition get_new_reconnect_ivl (o : cn_options) (generate_random cur : Z) : option (Z * Z) :=
  zmq_assert (negb (co_reconnect_ivl o =? 0)) ;;
  let random_jitter := i32 (generate_random mod u32 (co_reconnect_ivl o)) in
  let interval := if cur <? INT_MAX - random_jitter then cur + random_jitter else INT_MAX in
  let cur :=
    if (0 <? co_reconnect_ivl_max o) && (co_reconnect_ivl o <? co_reconnect_ivl_max o) then
      if cur <? INT_MAX / 2 then Z.min (cur * 2) (co_reconnect_ivl_max o) else co_reconnect_ivl_max o
    else cur in
  Some (interval, cur).

Definition add_reconnect_timer (o : cn_options) (c : connecter) (generate_random : Z) : option connecter :=
  if co_reconnect_ivl o =? -1 then Some c
  else
    let* (interval, cur) := get_new_reconnect_ivl o generate_random (cn_current_reconnect_ivl c) in
    let c := cn_add_timer (cn_set_ivl c cur) reconnect_timer_id in
    Some (cn_set_reconnect_timer (cn_log c (ca_retried interval)) true).

Definition rm_handle (c : connecter) : option connecter := let* c := cn_rm_fd c in Some (cn_set_handle c None).

Definition cn_close (c : connecter) : connecter :=
  match cn_s c with Some fd => cn_set_s (cn_log c (ca_closed fd)) None | None => c end.

Definition create_engine (c : connecter) (fd : Z) : connecter := cn_log (cn_log (cn_log c (ca_attach fd)) ca_terminate) (ca_connected fd).

(** [stream_connecter_base_t::process_term]; [own_t::process_term] is in [Own]. *)
Definition base_process_term (c : connecter) : option connecter :=
  let* c :=
    if cn_reconnect_timer_started c then
      let* c := cn_cancel_timer c reconnect_timer_id in Some (cn_set_reconnect_timer c false)
    else Some c in
  let* c := match cn_handle c with Some _ => rm_handle c | None => Some c end in
  Some (cn_close c).

(** ** TCP and IPC *)

Inductive cn_kind := tcp_connecter | ipc_connecter.

(** How [open] ends: there is no socket, or there is one and it is
    connected, connecting, or cannot be connected. *)
Inductive open_result := or_no_socket | or_connected (fd : Z) | or_in_progress (fd : Z) | or_failed (fd : Z).

(** Errors of a socket, and how [getsockopt] of [SO_ERROR] ends: it reports
    an error or none, or fails itself. *)
Inductive sock_errno :=
| so_ECONNREFUSED | so_ECONNRESET | so_ECONNABORTED | so_EINTR | so_ETIMEDOUT | so_EHOSTUNREACH | so_ENETUNREACH | so_ENETDOWN | so_ENETRESET
| so_EINVAL | so_EBADF | so_ENOPROTOOPT | so_ENOTSOCK | so_ENOBUFS | so_other (n : Z).

Inductive so_result := so_error (err : option sock_errno) | so_failed (e : sock_errno).

Definition so_err (r : so_result) : option sock_errno := match r with so_error err => err | so_failed e => Some e end.

(** How setting the options of a connected socket ends; when one cannot be
    set the error of the socket is asked for. *)
Inductive tune_result := tuned | untuned (r : so_result).

(** The answers of the operating system: to [open], to the question for the
    error of the socket, and to its options; and a random number. *)
Record answers := Answers { an_open : open_result; an_error : so_result; an_tuned : tune_result; an_random : Z }.

(** [assert_success_or_recoverable] after a call that failed *)
Definition assert_recoverable (r : so_result) : option unit :=
  match so_err r with
  | None => Some tt
  | Some (so_ECONNREFUSED | so_ECONNRESET | so_ECONNABORTED | so_EINTR | so_ETIMEDOUT | so_EHOSTUNREACH | so_ENETUNREACH | so_ENETDOWN | so_ENETRESET
         | so_EINVAL) => Some tt
  | Some _ => None
  end.

(** [tune_socket]: whether all options are set *)
Definition tune_socket (t : tune_result) : option bool :=
  match t with tuned => Some true | untuned r => let* _ := assert_recoverable r in Some false end.

(** The error that [connect] sees. *)
Definition connect_error (k : cn_kind) (r : so_result) : option sock_errno :=
  match k, r with
  | ipc_connecter, so_failed so_ENOPROTOOPT => None
  | _, _ => so_err r
  end.

(** The condition of the [errno_assert] of [connect]. *)
Definition network_error (k : cn_kind) (e : sock_errno) : bool :=
  match k with
  | tcp_connecter => match e with so_EBADF | so_ENOPROTOOPT | so_ENOTSOCK | so_ENOBUFS => false | _ => true end
  | ipc_connecter =>
      match e with so_ECONNREFUSED | so_ECONNRESET | so_ETIMEDOUT | so_EHOSTUNREACH | so_ENETUNREACH | so_ENETDOWN => true | _ => false end
  end.

Definition opened (r : open_result) : option Z :=
  match r with or_no_socket => None | or_connected fd | or_in_progress fd | or_failed fd => Some fd end.

Definition cn_open (c : connecter) (r : open_result) : option connecter :=
  zmq_assert (bool_decide (cn_s c = None)) ;; Some (cn_set_s c (opened r)).

(** [connect]: the socket if it is connected.  Asking about a retired socket
    is EBADF, which asserts. *)
Definition cn_connect (k : cn_kind) (c : connecter) (a : answers) : option (connecter * option Z) :=
  let* fd := cn_s c in
  match connect_error k (an_error a) with
  | None => Some (cn_set_s c None, Some fd)
  | Some e => zmq_assert (network_error k e) ;; Some (c, None)
  end.

Definition cn_fail (o : cn_options) (c : connecter) (a : answers) : option connecter := add_reconnect_timer o (cn_close c) (an_random a).

Definition cn_out_event (k : cn_kind) (o : cn_options) (c : connecter) (a : answers) : option connecter :=
  match k with
  | tcp_connecter =>
      let* c :=
        if cn_connect_timer_started c then
          let* c := cn_cancel_timer c connect_timer_id in Some (cn_set_connect_timer c false)
        else Some c in
      let* c := rm_handle c in
      let* (c, fd) := cn_connect k c a in
      match fd with
      | None => cn_fail o c a
      | Some fd =>
          let* ok := tune_socket (an_tuned a) in
          if negb ok then cn_fail o c a else Some (create_engine c fd)
      end
  | ipc_connecter =>
      let* (c, fd) := cn_connect k c a in
      let* c := rm_handle c in
      match fd with None => cn_fail o c a | Some fd => Some (create_engine c fd) end
  end.

Definition cn_in_event := cn_out_event.

Definition add_connect_timer (o : cn_options) (c : connecter) : connecter :=
  if 0 <? co_connect_timeout o then cn_set_connect_timer (cn_add_timer c connect_timer_id) true else c.

Definition start_connecting (k : cn_kind) (o : cn_options) (c : connecter) (a : answers) : option connecter :=
  let* c := cn_open c (an_open a) in
  match an_open a with
  | or_connected _ => cn_out_event k o (cn_add_fd c) a
  | or_in_progress _ =>
      let* c := set_pollout (cn_add_fd c) in
      let c := cn_log c ca_delayed in
      Some (match k with tcp_connecter => add_connect_timer o c | ipc_connecter => c end)
  | or_no_socket | or_failed _ => cn_fail o c a
  end.

Definition process_plug (k : cn_kind) (o : cn_options) (delayed_start : bool) (c : connecter) (a : answers) : option connecter :=
  if delayed_start then add_reconnect_timer o c (an_random a) else start_connecting k o c a.

Definition base_timer_event (k : cn_kind) (o : cn_options) (c : connecter) (id : Z) (a : answers) : option connecter :=
  zmq_assert (id =? reconnect_timer_id) ;; start_connecting k o (cn_set_reconnect_timer c false) a.

Definition cn_timer_event (k : cn_kind) (o : cn_options) (c : connecter) (id : Z) (a : answers) : option connecter :=
  match k with
  | tcp_connecter =>
      if id =? connect_timer_id then
        let* c := rm_handle (cn_set_connect_timer c false) in cn_fail o c a
      else base_timer_event k o c id a
  | ipc_connecter => base_timer_event k o c id a
  end.

Definition cn_process_term (k : cn_kind) (c : connecter) : option connecter :=
  match k with
  | tcp_connecter =>
      let* c :=
        if cn_connect_timer_started c then
          let* c := cn_cancel_timer c connect_timer_id in Some (cn_set_connect_timer c false)
        else Some c in
      base_process_term c
  | ipc_connecter => base_process_term c
  end.
