(* ===== verification/ConnecterProps.v ===== *)
(** * What connecters guarantee (src/src/stream_connecter_base.cpp, tcp_connecter.cpp, ipc_connecter.cpp)

    No assertion fails but those on the errors of sockets that the code
    takes for its own mistakes, nothing stays with the poller when a
    connecter ends, at most one engine is made, and as long as there is
    none the connecter waits for a connection or for the next attempt. *)

From S2P Require Import Prelude Connecter.

(** ** Reachable states *)

Inductive cn_step (k : cn_kind) (o : cn_options) : connecter -> connecter -> Prop :=
| cs_event c c' a : cn_is_registered c = true -> cn_out_event k o c a = Some c' -> cn_step k o c c'
| cs_timer c c' id l a : remove_timer id (cn_timers c) = Some l -> cn_timer_event k o (cn_set_timers c l) id a = Some c' -> cn_step k o c c'.

(** What the poller reports to a connecter, in any order, after it is plugged. *)
Inductive cn_reach (k : cn_kind) (o : cn_options) : connecter -> Prop :=
| cr_plug c delayed a : process_plug k o delayed (connecter_new o) a = Some c -> cn_reach k o c
| cr_step c c' : cn_reach k o c -> cn_step k o c c' -> cn_reach k o c'.

Definition is_attach (a : cn_act) : bool := match a with ca_attach _ => true | _ => false end.
Definition engines (l : list cn_act) : nat := length (base.filter (fun a => is_attach a = true) l).

#[local] Arguments engines : simpl never.

Lemma engines_app l a : engines (l ++ [a]) = (engines l + if is_attach a then 1 else 0)%nat.
Proof.
  unfold engines. rewrite list.filter_app, length_app, filter_cons, filter_nil. by destruct (is_attach a). Qed.

(** A connecter has no socket, and at most the timer for the next attempt;
    or it has a socket that is registered, and at most the timer of the
    attempt.  Without a socket and a timer it made its engine, or must not
    try again. *)
Record cn_inv (k : cn_kind) (o : cn_options) (c : connecter) : Prop := {
  ci_phase : match cn_s c with
    | None => cn_handle c = None /\ cn_registered c = ∅ /\ cn_connect_timer_started c = false /\
        cn_timers c = if cn_reconnect_timer_started c then [reconnect_timer_id] else []
    | Some _ => (exists h, cn_handle c = Some h /\ cn_registered c = {[h]}) /\ cn_reconnect_timer_started c = false /\
        cn_timers c = if cn_connect_timer_started c then [connect_timer_id] else []
    end;
  ci_ipc : k = ipc_connecter -> cn_connect_timer_started c = false;
  ci_engines : (engines (cn_acts c) <= 1)%nat;
  ci_none : cn_s c <> None \/ cn_reconnect_timer_started c = true -> engines (cn_acts c) = 0%nat;
  ci_tries : cn_s c = None -> cn_reconnect_timer_started c = false -> engines (cn_acts c) = 1%nat \/ co_reconnect_ivl o = -1;
}.

(** A state between two attempts, its timer started or not. *)
Definition cn_stopped (c : connecter) : Prop :=
  cn_s c = None /\ cn_handle c = None /\ cn_registered c = ∅ /\ cn_connect_timer_started c = false /\
  cn_reconnect_timer_started c = false /\ cn_timers c = [] /\ engines (cn_acts c) = 0%nat.

(** The same with a socket that is still open. *)
Definition cn_half_stopped (c : connecter) : Prop :=
  cn_handle c = None /\ cn_registered c = ∅ /\ cn_connect_timer_started c = false /\
  cn_reconnect_timer_started c = false /\ cn_timers c = [] /\ engines (cn_acts c) = 0%nat.

(** A socket that is registered. *)
Definition cn_connecting (c : connecter) : Prop :=
  is_Some (cn_s c) /\ (exists h, cn_handle c = Some h /\ cn_registered c = {[h]}) /\ cn_reconnect_timer_started c = false /\
  cn_timers c = (if cn_connect_timer_started c then [connect_timer_id] else []) /\ engines (cn_acts c) = 0%nat.

Lemma cn_close_stopped c : cn_half_stopped c -> cn_stopped (cn_close c).
Proof. intros (? & ? & ? & ? & ? & He). unfold cn_close. destruct (cn_s c) eqn:Es; split_and!; try done. cbn. by rewrite engines_app, He. Qed.

Lemma rm_handle_connecting c : cn_connecting c -> exists c', rm_handle c = Some c' /\ cn_handle c' = None /\ cn_registered c' = ∅ /\ cn_s c' = cn_s c /\
  cn_connect_timer_started c' = cn_connect_timer_started c /\ cn_reconnect_timer_started c' = false /\ cn_timers c' = cn_timers c /\ cn_acts c' = cn_acts c.
Proof.
  intros (_ & (h & Hh & Hr) & Hrt & _). unfold rm_handle, cn_rm_fd. rewrite Hh. cbn [mbind option_bind]. rewrite Hr, bool_decide_eq_true_2 by set_solver.
  cbn [mbind option_bind]. eexists. split; [reflexivity|]. split_and!; cbn; try done. set_solver.
Qed.

(** The timer of the attempt is cancelled if it runs. *)
Definition without_connect_timer (c : connecter) : option connecter :=
  if cn_connect_timer_started c then
    let* c := cn_cancel_timer c connect_timer_id in Some (cn_set_connect_timer c false)
  else Some c.

Lemma without_connect_timer_spec c : cn_connecting c -> exists c', without_connect_timer c = Some c' /\ cn_connecting c' /\
  cn_connect_timer_started c' = false /\ cn_s c' = cn_s c /\ cn_acts c' = cn_acts c.
Proof.
  intros (Hs & Hh & Hrt & Ht & He). unfold without_connect_timer, cn_cancel_timer. destruct (cn_connect_timer_started c) eqn:Ec.
  - rewrite Ht. cbn [remove_timer]. rewrite Z.eqb_refl. cbn [mbind option_bind]. eexists. split; [reflexivity|]. by split_and!.
  - exists c. split; [done|]. split; [|done]. unfold cn_connecting. by rewrite Ec.
Qed.

Section kind.
Context (k : cn_kind) (o : cn_options).

(** The errors of sockets that the connecter is prepared for. *)
Definition tune_ok (t : tune_result) : bool := match tune_socket t with Some _ => true | None => false end.
Definition answer_ok (a : answers) : bool :=
  match connect_error k (an_error a) with
  | Some e => network_error k e
  | None => match k with tcp_connecter => tune_ok (an_tuned a) | ipc_connecter => true end
  end.
(** A connection that is made at once is asked for its error as well. *)
Definition start_ok (a : answers) : bool := match an_open a with or_connected _ => answer_ok a | _ => true end.

Hypothesis Hivl : co_reconnect_ivl o <> 0.

Lemma cn_fail_inv c a : cn_half_stopped c -> exists c', cn_fail o c a = Some c' /\ cn_inv k o c'.
Proof.
  intros Hc. unfold cn_fail, add_reconnect_timer. destruct (cn_close_stopped c Hc) as (Hs & Hh & Hr & Hct & Hrt & Ht & He).
  destruct (co_reconnect_ivl o =? -1) eqn:Ei.
  - eexists. split; [done|]. apply Z.eqb_eq in Ei. constructor; [rewrite Hs, Hrt; done|done|lia|done|by right].
  - unfold get_new_reconnect_ivl. destruct (co_reconnect_ivl o =? 0) eqn:E0; [lia|]. cbn [negb mbind option_bind]. eexists. split; [reflexivity|].
    constructor; cbn; [rewrite Hs, Ht; done|done| | |done]; rewrite engines_app, He; cbn; lia || done.
Qed.

(** Handing the socket over, or starting again. *)
Lemma cn_hand_over (ok : bool) c a fd : cn_half_stopped c -> cn_s c = None -> exists c', (if negb ok then cn_fail o c a else Some (create_engine c fd)) = Some c' /\ cn_inv k o c'.
Proof.
  intros Hc Hs. destruct ok; cbn [negb]; [|by apply cn_fail_inv]. eexists. split; [reflexivity|].
  destruct Hc as (Hh & Hr & Hct & Hrt & Ht & He).
  constructor; cbn; rewrite ?Hs; [by rewrite Hrt|done| | |]; rewrite !engines_app, He; cbn; [lia|by intros [?|?]; congruence|by left].
Qed.

Lemma cn_out_event_ok c a : cn_connecting c -> (k = ipc_connecter -> cn_connect_timer_started c = false) ->
  if answer_ok a then exists c', cn_out_event k o c a = Some c' /\ cn_inv k o c' else cn_out_event k o c a = None.
Proof.
  intros Hc Hk. unfold answer_ok, cn_out_event. destruct k eqn:Ek; rewrite <- Ek.
  - destruct (without_connect_timer_spec c Hc) as (c1 & E & Hc1 & Hct1 & Hs1 & _). unfold without_connect_timer in E. rewrite E. cbn [mbind option_bind].
    destruct (rm_handle_connecting c1 Hc1) as (c2 & -> & Hh & Hr & Hs2 & Hct2 & Hrt2 & Ht2 & Ha2). cbn [mbind option_bind].
    destruct Hc1 as ([fd Hfd] & _ & _ & Ht1 & He1). rewrite Hct1 in Ht1.
    unfold cn_connect, tune_ok. rewrite Hs2, Hfd. cbn [mbind option_bind]. rewrite Ek.
    destruct (connect_error _ _) as [e|]; [destruct (network_error _ e); [|done]|]; cbn [mbind option_bind].
    + rewrite <- Ek. apply cn_fail_inv. split_and!; try done; congruence.
    + destruct (tune_socket _) as [ok|]; [|done]. cbn [mbind option_bind]. rewrite <- Ek.
      apply cn_hand_over; [|done]. split_and!; try done; cbn; congruence.
  - specialize (Hk eq_refl). pose proof Hc as ([fd Hfd] & (h & Hh & Hr) & Hrt & Ht & He). unfold cn_connect. rewrite Hfd. cbn [mbind option_bind]. rewrite Ek.
    rewrite Hk in Ht. destruct (connect_error _ _) as [e|]; [destruct (network_error _ e); [|done]|]; cbn [mbind option_bind]; rewrite <- Ek; cycle 1.
    + unfold rm_handle, cn_rm_fd. cbn. rewrite Hh. cbn. rewrite Hr, bool_decide_eq_true_2 by set_solver. cbn.
      eexists. split; [reflexivity|].
      constructor; cbn; [split_and!; try done; [set_solver|by rewrite Hrt]|done| | |]; rewrite !engines_app, He; cbn; [lia|by intros [?|?]; congruence|by left].
    + destruct (rm_handle_connecting c Hc) as (c2 & -> & Hh2 & Hr2 & Hs2 & Hct2 & Hrt2 & Ht2 & Ha2). cbn [mbind option_bind].
      apply cn_fail_inv. split_and!; try done; congruence.
Qed.

Lemma start_connecting_ok c a : cn_stopped c ->
  if start_ok a then exists c', start_connecting k o c a = Some c' /\ cn_inv k o c' else start_connecting k o c a = None.
Proof.
  intros (Hs & Hh & Hr & Hct & Hrt & Ht & He). unfold start_ok, start_connecting, cn_open. rewrite bool_decide_eq_true_2 by done. cbn [mbind option_bind].
  assert (forall fd, cn_connecting (cn_add_fd (cn_set_s c (Some fd)))) as Hadd.
  { intros fd. split_and!; cbn; try done; [|by rewrite Hct]. exists (cn_next_handle c). split; [done|]. rewrite Hr. set_solver. }
  destruct (an_open a) as [|fd|fd|fd]; cbn [opened].
  - by apply cn_fail_inv.
  - pose proof (cn_out_event_ok (cn_add_fd (cn_set_s c (Some fd))) a (Hadd fd)) as H. cbv zeta. apply H. by intros ->.
  - unfold set_pollout, cn_poll, cn_is_registered. cbn. rewrite bool_decide_eq_true_2 by set_solver. cbn. eexists. split; [reflexivity|].
    set (c1 := cn_log _ _). assert (cn_connecting c1 /\ cn_connect_timer_started c1 = false) as [Hc1 Hct1].
    { split; [|done]. destruct (Hadd fd) as (H1 & H2 & H3 & H4 & H5). split_and!; try done. cbn. by rewrite engines_app, He. }
    clearbody c1. destruct Hc1 as ([fd' Hfd] & Hh1 & Hrt1 & Ht1 & He1). rewrite Hct1 in Ht1.
    destruct k eqn:Ek; [unfold add_connect_timer; destruct (0 <? co_connect_timeout o)|]; rewrite <- Ek; (constructor; cbn; rewrite ?Hfd, ?Hct1, ?Ht1; try done; try congruence; try lia).
  - by apply cn_fail_inv.
Qed.

Lemma cn_inv_connecting c : cn_inv k o c -> is_Some (cn_s c) -> cn_connecting c.
Proof.
  intros [Hp _ _ Hn _] [fd Hfd]. rewrite Hfd in *. destruct Hp as (Hh & Hrt & Ht). split_and!; try done. apply Hn. by left.
Qed.

Lemma cn_registered_s c : cn_inv k o c -> cn_is_registered c = true -> is_Some (cn_s c).
Proof.
  intros [Hp _ _ _ _] Hr. destruct (cn_s c); [by eexists|]. destruct Hp as (Hh & _). unfold cn_is_registered in Hr. by rewrite Hh in Hr.
Qed.

Lemma cn_timer_event_ok c id l a : cn_inv k o c -> remove_timer id (cn_timers c) = Some l ->
  if start_ok a || (id =? connect_timer_id) then exists c', cn_timer_event k o (cn_set_timers c l) id a = Some c' /\ cn_inv k o c' else cn_timer_event k o (cn_set_timers c l) id a = None.
Proof.
  intros Hi Hl. destruct (cn_s c) as [fd|] eqn:Es.
  - pose proof (cn_inv_connecting c Hi ltac:(rewrite Es; by eexists)) as Hc. destruct Hc as (_ & (h & Hh & Hr) & Hrt & Ht & He).
    destruct (cn_connect_timer_started c) eqn:Ect; rewrite Ht in Hl; [|done]. cbn [remove_timer] in Hl. destruct (connect_timer_id =? id) eqn:Eid; [|done].
    injection Hl as <-. apply Z.eqb_eq in Eid as <-. destruct k eqn:Ek; [|by rewrite (ci_ipc _ _ _ Hi) in Ect].
    unfold cn_timer_event. rewrite Z.eqb_refl, orb_true_r.
    destruct (rm_handle_connecting (cn_set_connect_timer (cn_set_timers c []) false)) as (c2 & -> & Hh2 & Hr2 & Hs2 & Hct2 & Hrt2 & Ht2 & Ha2).
    { split_and!; cbn; try done; by exists h. }
    cbn [mbind option_bind]. rewrite <- Ek. apply cn_fail_inv. split_and!; try done. by rewrite Ha2.
  - destruct Hi as [Hp _ _ Hn _]. rewrite Es in Hp. destruct Hp as (Hh & Hr & Hct & Ht).
    destruct (cn_reconnect_timer_started c) eqn:Ert; rewrite Ht in Hl; [|done]. cbn [remove_timer] in Hl. destruct (reconnect_timer_id =? id) eqn:Eid; [|done].
    injection Hl as <-. apply Z.eqb_eq in Eid as <-.
    assert (cn_timer_event k o (cn_set_timers c []) reconnect_timer_id a = start_connecting k o (cn_set_reconnect_timer (cn_set_timers c []) false) a) as -> by (by destruct k).
    change (reconnect_timer_id =? connect_timer_id) with false. rewrite orb_false_r.
    apply start_connecting_ok. split_and!; cbn; try done. apply Hn. by right.
Qed.

Lemma cn_reach_inv c : cn_reach k o c -> cn_inv k o c.
Proof.
  induction 1 as [c delayed a E|c c' _ IH Hst].
  - assert (cn_stopped (connecter_new o)) as Hn by done. destruct delayed.
    + change (cn_fail o (connecter_new o) a = Some c) in E. destruct (cn_fail_inv (connecter_new o) a) as (c2 & E2 & Hi); [by split_and!|]. congruence.
    + change (start_connecting k o (connecter_new o) a = Some c) in E. pose proof (start_connecting_ok (connecter_new o) a Hn) as H.
      destruct (start_ok a); [destruct H as (c2 & E2 & Hi)|]; congruence.
  - destruct Hst as [c c' a Hr E|c c' id l a Hl E].
    + pose proof (cn_out_event_ok c a (cn_inv_connecting c IH (cn_registered_s c IH Hr)) (ci_ipc _ _ _ IH)) as H.
      destruct (answer_ok a); [destruct H as (c2 & E2 & Hi)|]; congruence.
    + pose proof (cn_timer_event_ok c id l a IH Hl) as H. destruct (start_ok a || _); [destruct H as (c2 & E2 & Hi)|]; congruence.
Qed.

Lemma cn_process_term_ok c : cn_inv k o c ->
  exists c', cn_process_term k c = Some c' /\ connecter_destroy c' = Some tt /\ cn_registered c' = ∅ /\ cn_timers c' = [].
Proof.
  intros Hi. destruct (cn_s c) as [fd|] eqn:Es.
  - pose proof (cn_inv_connecting c Hi ltac:(rewrite Es; by eexists)) as Hc.
    assert (exists c1, cn_process_term k c = base_process_term c1 /\ cn_connecting c1 /\ cn_connect_timer_started c1 = false) as (c1 & -> & Hc1 & Hct1).
    { destruct k eqn:Ek; [|exists c; split_and!; try done; by apply (ci_ipc _ _ _ Hi)].
      destruct (without_connect_timer_spec c Hc) as (c1 & E & Hc1 & Hct1 & _). exists c1. split; [|done].
      unfold cn_process_term. unfold without_connect_timer in E. by rewrite E. }
    unfold base_process_term. destruct (rm_handle_connecting c1 Hc1) as (c2 & E2 & Hh2 & Hr2 & Hs2 & Hct2 & Hrt2 & Ht2 & Ha2).
    destruct Hc1 as (_ & (h & Hh & Hr) & Hrt & Ht & _). rewrite Hrt. cbn [mbind option_bind]. rewrite Hh, E2. cbn [mbind option_bind].
    rewrite Hct1 in *. eexists. split; [reflexivity|]. unfold cn_close, connecter_destroy.
    destruct (cn_s c2) eqn:Es2; cbn; rewrite Hct2, Hrt2, ?Hh2, ?Es2; cbn; by rewrite Ht2, Ht.
  - destruct Hi as [Hp _ _ _ _]. rewrite Es in Hp. destruct Hp as (Hh & Hr & Hct & Ht).
    assert (cn_process_term k c = base_process_term c) as -> by (unfold cn_process_term; destruct k; [by rewrite Hct|done]).
    assert (exists c1, base_process_term c = Some c1 /\ cn_s c1 = None /\ cn_handle c1 = None /\ cn_registered c1 = ∅ /\ cn_connect_timer_started c1 = false /\
      cn_reconnect_timer_started c1 = false /\ cn_timers c1 = []) as (c1 & -> & H1 & H2 & H3 & H4 & H5 & H6).
    { unfold base_process_term, cn_cancel_timer. destruct (cn_reconnect_timer_started c) eqn:Ert; [rewrite Ht|]; cbn; rewrite Hh; cbn; unfold cn_close; cbn; rewrite Es;
        eexists; by split_and!. }
    exists c1. split; [done|]. unfold connecter_destroy. by rewrite H1, H2, H4, H5.
Qed.
End kind.

(** C21: A connecter whose interval for reconnecting is not zero may be told
    of any event that the poller can report, in any order: the only
    assertions that fail are those of the code on errors of the socket that
    it takes for its own mistakes ([answer_ok], [start_ok]), and they fail
    for no other answers; it makes at most one engine, and as long as it has
    none it has a socket that is polled or a timer for the next attempt,
    unless it must not try again.  It can be told to terminate at any time,
    and then leaves neither a handle nor a timer behind, and its destructor
    finds nothing to complain about. *)
Theorem connecter_safe (k : cn_kind) (o : cn_options) (c : connecter) : co_reconnect_ivl o <> 0 -> cn_reach k o c ->
  (forall a, cn_is_registered c = true -> (is_Some (cn_out_event k o c a) <-> answer_ok k a = true)) /\
  (forall id l a, remove_timer id (cn_timers c) = Some l ->
    (is_Some (cn_timer_event k o (cn_set_timers c l) id a) <-> start_ok k a = true \/ id = connect_timer_id)) /\
  (engines (cn_acts c) <= 1)%nat /\
  (engines (cn_acts c) = 0%nat -> cn_is_registered c = true \/ reconnect_timer_id ∈ cn_timers c \/ co_reconnect_ivl o = -1) /\
  exists c', cn_process_term k c = Some c' /\ connecter_destroy c' = Some tt /\ cn_registered c' = ∅ /\ cn_timers c' = [].
Proof.
  intros Hivl Hr. pose proof (cn_reach_inv k o Hivl c Hr) as Hi. split_and!.
  - intros a Hreg. pose proof (cn_out_event_ok k o Hivl c a (cn_inv_connecting k o c Hi (cn_registered_s k o c Hi Hreg)) (ci_ipc _ _ _ Hi)) as H.
    destruct (answer_ok k a); [destruct H as (c' & -> & _)|rewrite H]; by split.
  - intros id l a Hl. pose proof (cn_timer_event_ok k o Hivl c id l a Hi Hl) as H. rewrite <- Z.eqb_eq, <- orb_true_iff.
    destruct (start_ok k a || _); [destruct H as (c' & -> & _)|rewrite H]; by split.
  - apply Hi.
  - intros He. destruct Hi as [Hp _ _ _ Ht]. destruct (cn_s c) as [fd|] eqn:Es.
    + left. destruct Hp as ((h & Hh & Hreg) & _). unfold cn_is_registered. rewrite Hh, Hreg. apply bool_decide_eq_true_2. set_solver.
    + right. destruct Hp as (_ & _ & _ & Htm). destruct (cn_reconnect_timer_started c) eqn:Ert; [left; rewrite Htm; by left|].
      right. destruct (Ht eq_refl eq_refl); [lia|done].
  - by apply (cn_process_term_ok k o).
Qed.

Definition example_cn_options : cn_options := COpts 100 1000 50.

Definition example_connecter : connecter :=
  default (connecter_new example_cn_options) (process_plug tcp_connecter example_cn_options false (connecter_new example_cn_options) (Answers (or_in_progress 5) (so_error None) tuned 7)).

Lemma connecter_safe_witness :
  is_Some (cn_out_event tcp_connecter example_cn_options example_connecter (Answers or_no_socket (so_error (Some so_ECONNREFUSED)) tuned 0)) /\
  (exists c', cn_process_term tcp_connecter example_connecter = Some c' /\ cn_timers c' = []).
Proof.
  destruct (connecter_safe tcp_connecter example_cn_options example_connecter) as (H1 & _ & _ & _ & H2).
  - vm_compute. discriminate.
  - apply (cr_plug _ _ _ false (Answers (or_in_progress 5) (so_error None) tuned 7)). reflexivity.
  - split; [apply H1; reflexivity|]. destruct H2 as (c' & E & _ & _ & Ht). by exists c'.
Defined.

(** ** Backoff *)

(** The base of the interval and the interval, for the attempts that fail one after another. *)
Fixpoint reconnect_run (o : cn_options) (rs : list Z) (cur : Z) : option (list (Z * Z)) :=
  match rs with
  | [] => Some []
  | r :: rs =>
      let* (interval, cur') := get_new_reconnect_ivl o r cur in
      let* l := reconnect_run o rs cur' in
      Some ((cur, interval) :: l)
  end.

Definition backs_off (o : cn_options) : Prop := 0 < co_reconnect_ivl_max o /\ co_reconnect_ivl o < co_reconnect_ivl_max o.

Lemma get_new_reconnect_ivl_spec o r cur : 0 < co_reconnect_ivl o <= INT_MAX -> co_reconnect_ivl_max o <= INT_MAX -> 0 < cur <= INT_MAX ->
  exists i cur', get_new_reconnect_ivl o r cur = Some (i, cur') /\ cur <= i <= INT_MAX /\ i < cur + co_reconnect_ivl o /\
    (backs_off o /\ cur <= co_reconnect_ivl_max o -> Z.min (cur * 2) (co_reconnect_ivl_max o) <= cur' <= co_reconnect_ivl_max o) /\
    (~ backs_off o -> cur' = cur).
Proof.
  unfold get_new_reconnect_ivl, backs_off, INT_MAX. intros Hi Hm Hc. destruct (co_reconnect_ivl o =? 0) eqn:E0; [lia|]. cbn [negb mbind option_bind].
  assert (u32 (co_reconnect_ivl o) = co_reconnect_ivl o) as -> by (apply Z.mod_small; lia).
  pose proof (Z.mod_pos_bound r (co_reconnect_ivl o) ltac:(lia)) as Hj. set (j := r mod co_reconnect_ivl o) in *.
  assert (i32 j = j) as -> by (unfold i32; rewrite Z.mod_small; lia).
  change (2147483647 / 2) with 1073741823. eexists _, _. split; [reflexivity|]. repeat case_match; lia.
Qed.

(** C37: The intervals between attempts to reconnect stay in the range of an
    int.  Each is at least its base, and less than the configured interval
    above it; the base starts with the configured interval and, when a
    larger maximum is set, doubles with every attempt up to that maximum. *)
Theorem reconnect_backoff (o : cn_options) (rs : list Z) : 0 < co_reconnect_ivl o <= INT_MAX -> co_reconnect_ivl_max o <= INT_MAX ->
  exists l, reconnect_run o rs (co_reconnect_ivl o) = Some l /\ length l = length rs /\
    forall n b i, l !! n = Some (b, i) -> b <= i <= INT_MAX /\ i < b + co_reconnect_ivl o /\
      (backs_off o -> Z.min (co_reconnect_ivl o * 2 ^ Z.of_nat n) (co_reconnect_ivl_max o) <= b <= co_reconnect_ivl_max o) /\
      (~ backs_off o -> b = co_reconnect_ivl o).
Proof.
  intros Hi Hm.
  assert (forall rs m cur, 0 < cur <= INT_MAX -> 0 <= m ->
    (backs_off o -> Z.min (co_reconnect_ivl o * 2 ^ m) (co_reconnect_ivl_max o) <= cur <= co_reconnect_ivl_max o) -> (~ backs_off o -> cur = co_reconnect_ivl o) ->
    exists l, reconnect_run o rs cur = Some l /\ length l = length rs /\ forall n b i, l !! n = Some (b, i) -> b <= i <= INT_MAX /\ i < b + co_reconnect_ivl o /\
      (backs_off o -> Z.min (co_reconnect_ivl o * 2 ^ (m + Z.of_nat n)) (co_reconnect_ivl_max o) <= b <= co_reconnect_ivl_max o) /\
      (~ backs_off o -> b = co_reconnect_ivl o)) as Hrun.
  { clear rs. induction rs as [|r rs IH]; intros m cur Hc Hm0 Hb Hn; cbn [reconnect_run]; [by exists []|].
    destruct (get_new_reconnect_ivl_spec o r cur Hi Hm Hc) as (i & cur' & -> & Hr1 & Hr2 & Hb' & Hn'). cbn [mbind option_bind].
    assert (2 ^ (m + 1) = 2 * 2 ^ m) as Hpow by (rewrite Z.pow_add_r by lia; lia).
    assert (backs_off o -> Z.min (co_reconnect_ivl o * 2 ^ (m + 1)) (co_reconnect_ivl_max o) <= cur' <= co_reconnect_ivl_max o) as Hb2.
    { intros Hbo. specialize (Hb Hbo). destruct Hb'; [by split; [|lia]|]. nia. }
    assert (0 < cur' <= INT_MAX) as Hc'.
    { destruct (decide (0 < co_reconnect_ivl_max o)); [destruct (decide (co_reconnect_ivl o < co_reconnect_ivl_max o))|];
        [|rewrite Hn' by (unfold backs_off; lia); done..]. specialize (Hb2 ltac:(by split)). pose proof (Z.pow_pos_nonneg 2 (m + 1)). nia. }
    destruct (IH (m + 1) cur' Hc') as (l & -> & Hl & Hall); [lia|done|intros Hbo; rewrite Hn' by done; auto|].
    cbn [mbind option_bind]. eexists. split; [reflexivity|]. split; [cbn; by rewrite Hl|]. intros [|n] b i' E; cbn in E.
    - injection E as <- <-. rewrite Z.add_0_r. auto.
    - assert (m + Z.of_nat (S n) = m + 1 + Z.of_nat n) as -> by lia. by apply Hall. }
  destruct (Hrun rs 0 (co_reconnect_ivl o)) as (l & E & Hl & Hall); try lia; [unfold backs_off; lia|]. exists l. by split_and!.
Qed.

Lemma reconnect_backoff_witness : exists l, reconnect_run example_cn_options [3; 250; 99; 7; 1] 100 = Some l /\ length l = 5%nat.
Proof.
  destruct (reconnect_backoff example_cn_options [3; 250; 99; 7; 1]) as (l & E & Hl & _); [vm_compute; split; congruence|vm_compute; congruence|]. by exists l.
Defined.

(** ** What goes wrong *)

(** An interval of zero, which the option takes, divides by zero. *)
Lemma reconnect_ivl_zero c r max timeout : add_reconnect_timer (COpts 0 max timeout) c r = None.
Proof. reflexivity. Qed.

(** Errors that do not come from mistakes of the library: the socket of a
    connection that is answered by an ICMP message of an unreachable
    protocol has the error ENOPROTOOPT, and that of one for which there is
    no memory ENOBUFS. *)
Lemma network_error_aborts e : e = so_ENOPROTOOPT \/ e = so_ENOBUFS ->
  cn_out_event tcp_connecter example_cn_options example_connecter (Answers or_no_socket (so_error (Some e)) tuned 7) = None.
Proof. by intros [-> | ->]. Qed.

(** A connected TCP socket whose options cannot be set is neither closed
    nor handed over: [connect] has already retired [_s]. *)
Lemma untuned_socket_leaks : exists c,
  cn_out_event tcp_connecter example_cn_options example_connecter (Answers or_no_socket (so_error None) (untuned (so_error (Some so_EINVAL))) 7) = Some c /\
  cn_s example_connecter = Some 5 /\ cn_s c = None /\ ~ (ca_closed 5 ∈ cn_acts c) /\ engines (cn_acts c) = 0%nat.
Proof.
  eexists. split; [reflexivity|]. split_and!; try reflexivity. intros H. vm_compute in H.
  repeat (apply elem_of_cons in H as [H|H]; [discriminate|]). by apply not_elem_of_nil in H.
Qed.
