(* ===== verification/Socks.v ===== *)
(** * Connecting through a SOCKS5 proxy (src/src/socks.cpp, socks_connecter.cpp)

    The connecter sends a greeting with the method of authentication it
    wants, perhaps a user name and a password, and a request, and waits for
    the answer to each; then the connection goes to an engine as if it had
    been made directly.  The answers of the operating system and of
    getaddrinfo are arguments. *)

From S2P Require Import Prelude Text Connecter.

Definition UINT8_MAX : Z := 255.

(** ** Encoders *)

(** [_buf], its first [_bytes_encoded] bytes, and [_bytes_written]. *)
Record socks_encoder := SocksEncoder { se_buf : bytes; se_written : nat }.

Definition se_new : socks_encoder := SocksEncoder [] 0.
Definition se_reset (_ : socks_encoder) : socks_encoder := se_new.
Definition se_pending (e : socks_encoder) : bytes := drop (se_written e) (se_buf e).
Definition se_has_pending_data (e : socks_encoder) : bool := (se_written e <? length (se_buf e))%nat.

(** The encoded bytes must fit the buffer. *)
Definition se_encode (capacity : nat) (l : bytes) : option socks_encoder :=
  zmq_assert (length l <=? capacity)%nat ;; Some (SocksEncoder l 0).

(** [output]: what [tcp_write] took, -1 for an error. *)
Definition se_output (e : socks_encoder) (rc : Z) : socks_encoder * Z :=
  (if 0 <? rc then SocksEncoder (se_buf e) (se_written e + Z.to_nat rc) else e, rc).

Definition greeting_encode (methods : bytes) : option socks_encoder :=
  se_encode 257 (5 :: u8 (Z.of_nat (length methods)) :: methods).

(** [socks_basic_auth_request_t] asserts that both fit a byte. *)
Definition auth_encode (username password : bytes) : option socks_encoder :=
  zmq_assert (Z.of_nat (length username) <=? UINT8_MAX) ;;
  zmq_assert (Z.of_nat (length password) <=? UINT8_MAX) ;;
  se_encode 513 (1 :: u8 (Z.of_nat (length username)) :: username ++ u8 (Z.of_nat (length password)) :: password).

(** What getaddrinfo, told not to look names up, makes of a host. *)
Inductive numeric_host := ipv4_host (addr : bytes) | ipv6_host (addr : bytes) | other_host.

Definition request_encode (getaddrinfo : bytes -> numeric_host) (command : Z) (hostname : bytes) (port : Z) : option socks_encoder :=
  zmq_assert (Z.of_nat (length hostname) <=? UINT8_MAX) ;;
  let address :=
    match getaddrinfo hostname with
    | ipv4_host addr => 1 :: addr
    | ipv6_host addr => 4 :: addr
    | other_host => 3 :: u8 (Z.of_nat (length hostname)) :: hostname
    end in
  se_encode 262 ([5; command; 0] ++ address ++ [port / 256; port mod 256]).

(** ** Decoders *)

(** What [tcp_read] answers: an error, also when there is nothing to read;
    or bytes, none when the peer has closed. *)
Inductive read_answer := read_error | read_bytes (l : bytes).

Definition sc_rc (r : read_answer) : Z := match r with read_error => -1 | read_bytes l => Z.of_nat (length l) end.

(** The decoder of the choice and that of the authentication are the same
    but for the version. *)
Definition two_input (version : Z) (buf : bytes) (r : read_answer) : option (bytes * Z) :=
  zmq_assert (length buf <? 2)%nat ;;
  match r with
  | read_bytes ((_ :: _) as l) =>
      zmq_assert (length l <=? 2 - length buf)%nat ;;     (** the size that is asked for *)
      let buf := buf ++ l in
      Some (buf, if negb (nth 0 buf 0 =? version) then -1 else sc_rc r)
  | _ => Some (buf, sc_rc r)
  end.

Definition two_ready (buf : bytes) : bool := (length buf =? 2)%nat.

(** The second byte *)
Definition two_decode (buf : bytes) : option Z := zmq_assert (two_ready buf) ;; Some (nth 1 buf 0).

(** The bytes of the buffer of the response are signed. *)
Definition response_capacity : nat := 262.

(** The size that [input] asks for, a size_t. *)
Definition response_want (buf : bytes) : option Z :=
  if (length buf <? 5)%nat then Some (5 - Z.of_nat (length buf))
  else
    let atyp := nth 3 buf 0 in
    if atyp =? 1 then Some (3 + 2)
    else if atyp =? 3 then Some (u64 (s8 (nth 4 buf 0) + 2))
    else if atyp =? 4 then Some (15 + 2)
    else None.

Definition atyp_ok (b : Z) : bool := (b =? 1) || (b =? 3) || (b =? 4).

(** The checks of the bytes that are there. *)
Definition response_ok (buf : bytes) : bool :=
  (nth 0 buf 0 =? 5)
  && ((length buf <? 2)%nat || (s8 (nth 1 buf 0) <=? 8))
  && ((length buf <? 3)%nat || (nth 2 buf 0 =? 0))
  && ((length buf <? 4)%nat || atyp_ok (nth 3 buf 0)).

(** [None] also when the bytes do not fit the buffer. *)
Definition response_input (buf : bytes) (r : read_answer) : option (bytes * Z) :=
  let* n := response_want buf in
  match r with
  | read_bytes ((_ :: _) as l) =>
      zmq_assert (Z.of_nat (length l) <=? n) ;;
      zmq_assert (length buf + length l <=? response_capacity)%nat ;;
      let buf := buf ++ l in
      Some (buf, if response_ok buf then sc_rc r else -1)
  | _ => Some (buf, sc_rc r)
  end.

Definition response_ready (buf : bytes) : option bool :=
  if (length buf <? 4)%nat then Some false
  else
    let atyp := nth 3 buf 0 in
    zmq_assert (atyp_ok atyp) ;;
    Some (if atyp =? 1 then (length buf =? 10)%nat
          else if atyp =? 3 then (4 <? length buf)%nat && (Z.of_nat (length buf) =? u32 (4 + 1 + s8 (nth 4 buf 0) + 2))
          else (length buf =? 22)%nat).

Definition response_decode (buf : bytes) : option Z :=
  let* ready := response_ready buf in zmq_assert (ready : bool) ;; Some (nth 1 buf 0).

(** ** The connecter *)

Inductive socks_status :=
| unplugged | waiting_for_proxy_connection | sending_greeting | waiting_for_choice | sending_basic_auth_request
| waiting_for_auth_response | sending_request | waiting_for_response.

#[export] Instance socks_status_dec : EqDecision socks_status.
Proof. solve_decision. Defined.

Definition socks_no_auth_required : Z := 0.
Definition socks_basic_auth : Z := 2.

Record socks_connecter := SocksConnecter {
  sk_base : connecter;
  sk_status : socks_status;
  sk_greeting : socks_encoder; sk_choice : bytes;            (** the coders: for a decoder, what it has read *)
  sk_auth_request : socks_encoder; sk_auth_response : bytes;
  sk_request : socks_encoder; sk_response : bytes;
}.

(** The method and the credentials, [_addr->address], and getaddrinfo. *)
Record socks_options := SocksOptions {
  so_base : cn_options; so_auth_method : Z; so_username : bytes; so_password : bytes;
  so_address : bytes; so_getaddrinfo : bytes -> numeric_host;
}.

Definition socks_new (o : socks_options) : socks_connecter :=
  SocksConnecter (connecter_new (so_base o)) unplugged se_new [] se_new [] se_new [].

Definition sk_set_base (k : socks_connecter) (c : connecter) : socks_connecter :=
  SocksConnecter c (sk_status k) (sk_greeting k) (sk_choice k) (sk_auth_request k) (sk_auth_response k) (sk_request k) (sk_response k).
Definition sk_set_status (k : socks_connecter) (s : socks_status) : socks_connecter :=
  SocksConnecter (sk_base k) s (sk_greeting k) (sk_choice k) (sk_auth_request k) (sk_auth_response k) (sk_request k) (sk_response k).
Definition sk_set_greeting (k : socks_connecter) (e : socks_encoder) : socks_connecter :=
  SocksConnecter (sk_base k) (sk_status k) e (sk_choice k) (sk_auth_request k) (sk_auth_response k) (sk_request k) (sk_response k).
Definition sk_set_choice (k : socks_connecter) (b : bytes) : socks_connecter :=
  SocksConnecter (sk_base k) (sk_status k) (sk_greeting k) b (sk_auth_request k) (sk_auth_response k) (sk_request k) (sk_response k).
Definition sk_set_auth_request (k : socks_connecter) (e : socks_encoder) : socks_connecter :=
  SocksConnecter (sk_base k) (sk_status k) (sk_greeting k) (sk_choice k) e (sk_auth_response k) (sk_request k) (sk_response k).
Definition sk_set_auth_response (k : socks_connecter) (b : bytes) : socks_connecter :=
  SocksConnecter (sk_base k) (sk_status k) (sk_greeting k) (sk_choice k) (sk_auth_request k) b (sk_request k) (sk_response k).
Definition sk_set_request (k : socks_connecter) (e : socks_encoder) : socks_connecter :=
  SocksConnecter (sk_base k) (sk_status k) (sk_greeting k) (sk_choice k) (sk_auth_request k) (sk_auth_response k) e (sk_response k).
Definition sk_set_response (k : socks_connecter) (b : bytes) : socks_connecter :=
  SocksConnecter (sk_base k) (sk_status k) (sk_greeting k) (sk_choice k) (sk_auth_request k) (sk_auth_response k) (sk_request k) b.

(** [parse_address]: the host, without its brackets, and the port. *)
Definition parse_address (address : bytes) : option (bytes * Z) :=
  let* idx := rfind colon address in
  let hostname :=
    if (idx <? 2)%nat || negb (nth 0 address 0 =? 91) || negb (nth (idx - 1) address 0 =? 93)
    then take idx address
    else take (idx - 2) (drop 1 address) in
  let port := u16 (atoi (drop (S idx) address)) in
  if port =? 0 then None else Some (hostname, port).

(** [error]: the handle leaves the poller, but [_handle] keeps it. *)
Definition sk_error (o : socks_options) (k : socks_connecter) (generate_random : Z) : option socks_connecter :=
  let* c := cn_rm_fd (sk_base k) in
  let* c := add_reconnect_timer (so_base o) (cn_close c) generate_random in
  Some (SocksConnecter c unplugged se_new [] se_new [] se_new []).

(** [reset_pollin; set_pollout; _status = status] *)
Definition sk_will_send (k : socks_connecter) (status : socks_status) : option socks_connecter :=
  let* c := reset_pollin (sk_base k) in
  let* c := set_pollout c in
  Some (sk_set_status (sk_set_base k c) status).

(** [reset_pollout; set_pollin; _status = status] *)
Definition sk_will_receive (k : socks_connecter) (status : socks_status) : option socks_connecter :=
  let* c := reset_pollout (sk_base k) in
  let* c := set_pollin c in
  Some (sk_set_status (sk_set_base k c) status).

Definition sk_send_auth (o : socks_options) (k : socks_connecter) : option socks_connecter :=
  let* e := auth_encode (so_username o) (so_password o) in
  sk_will_send (sk_set_auth_request k e) sending_basic_auth_request.

Definition sk_send_request (o : socks_options) (k : socks_connecter) (generate_random : Z) : option socks_connecter :=
  match parse_address (so_address o) with
  | None => sk_error o k generate_random
  | Some (hostname, port) =>
      let* e := request_encode (so_getaddrinfo o) 1 hostname port in
      sk_will_send (sk_set_request k e) sending_request
  end.

(** The connection goes to an engine. *)
Definition sk_connected (k : socks_connecter) : option socks_connecter :=
  let* fd := cn_s (sk_base k) in
  let* c := rm_handle (sk_base k) in
  Some (sk_set_status (sk_set_base k (cn_set_s (create_engine c fd) None)) unplugged).

Definition sk_in_event (o : socks_options) (k : socks_connecter) (r : read_answer) (generate_random : Z) : option socks_connecter :=
  zmq_assert (negb (bool_decide (sk_status k = unplugged))) ;;
  match sk_status k with
  | waiting_for_choice =>
      let* (buf, rc) := two_input 5 (sk_choice k) r in
      let k := sk_set_choice k buf in
      if (rc =? 0) || (rc =? -1) then sk_error o k generate_random
      else if two_ready buf then
        let* choice := two_decode buf in
        if negb ((choice =? socks_no_auth_required) || (choice =? socks_basic_auth)) then sk_error o k generate_random
        else if choice =? socks_basic_auth then sk_send_auth o k
        else sk_send_request o k generate_random
      else Some k
  | waiting_for_auth_response =>
      let* (buf, rc) := two_input 1 (sk_auth_response k) r in
      let k := sk_set_auth_response k buf in
      if (rc =? 0) || (rc =? -1) then sk_error o k generate_random
      else if two_ready buf then
        let* response_code := two_decode buf in
        if negb (response_code =? 0) then sk_error o k generate_random else sk_send_request o k generate_random
      else Some k
  | waiting_for_response =>
      let* (buf, rc) := response_input (sk_response k) r in
      let k := sk_set_response k buf in
      if (rc =? 0) || (rc =? -1) then sk_error o k generate_random
      else
        let* ready := response_ready buf in
        if (ready : bool) then
          let* response_code := response_decode buf in
          if negb (response_code =? 0) then sk_error o k generate_random else sk_connected k
        else Some k
  | _ => sk_error o k generate_random
  end.

(** The three states that send: [rc] is what [tcp_write] returned. *)
Definition sk_send (o : socks_options) (k : socks_connecter) (e : socks_encoder) (set : socks_connecter -> socks_encoder -> socks_connecter)
    (next : socks_status) (rc generate_random : Z) : option socks_connecter :=
  zmq_assert (se_has_pending_data e) ;;
  let (e, rc) := se_output e rc in
  let k := set k e in
  if (rc =? -1) || (rc =? 0) then sk_error o k generate_random
  else if negb (se_has_pending_data e) then sk_will_receive k next
  else Some k.

(** Whether the connection to the proxy is there. *)
Definition check_proxy_connection (r : so_result) (t : tune_result) : option bool :=
  match so_err r with
  | None => tune_socket t
  | Some (so_ECONNREFUSED | so_ECONNRESET | so_ETIMEDOUT | so_EHOSTUNREACH | so_ENETUNREACH | so_ENETDOWN | so_EINVAL) => Some false
  | Some _ => None
  end.

(** [rc] is what [tcp_write] returned. *)
Definition sk_out_event (o : socks_options) (k : socks_connecter) (r : so_result) (t : tune_result) (rc generate_random : Z) : option socks_connecter :=
  match sk_status k with
  | waiting_for_proxy_connection =>
      let* connected := check_proxy_connection r t in
      if negb connected then sk_error o k generate_random
      else
        let* e := greeting_encode [so_auth_method o] in
        Some (sk_set_status (sk_set_greeting k e) sending_greeting)
  | sending_greeting => sk_send o k (sk_greeting k) sk_set_greeting waiting_for_choice rc generate_random
  | sending_basic_auth_request => sk_send o k (sk_auth_request k) sk_set_auth_request waiting_for_auth_response rc generate_random
  | sending_request => sk_send o k (sk_request k) sk_set_request waiting_for_response rc generate_random
  | _ => None
  end.

(** [connect_to_proxy] answers like [open]. *)
Definition sk_start_connecting (o : socks_options) (k : socks_connecter) (r : open_result) (generate_random : Z) : option socks_connecter :=
  zmq_assert (bool_decide (sk_status k = unplugged)) ;;
  let* c := cn_open (sk_base k) r in
  match r with
  | or_connected _ =>
      let* c := set_pollout (cn_add_fd c) in
      Some (sk_set_status (sk_set_base k c) sending_greeting)
  | or_in_progress _ =>
      let* c := set_pollout (cn_add_fd c) in
      Some (sk_set_status (sk_set_base k (cn_log c ca_delayed)) waiting_for_proxy_connection)
  | or_no_socket | or_failed _ =>
      let* c := add_reconnect_timer (so_base o) (cn_close c) generate_random in
      Some (sk_set_base k c)
  end.

Definition sk_process_plug (o : socks_options) (delayed_start : bool) (k : socks_connecter) (r : open_result) (generate_random : Z) : option socks_connecter :=
  if delayed_start then
    let* c := add_reconnect_timer (so_base o) (sk_base k) generate_random in Some (sk_set_base k c)
  else sk_start_connecting o k r generate_random.

Definition sk_timer_event (o : socks_options) (k : socks_connecter) (id : Z) (r : open_result) (generate_random : Z) : option socks_connecter :=
  zmq_assert (id =? reconnect_timer_id) ;;
  sk_start_connecting o (sk_set_base k (cn_set_reconnect_timer (sk_base k) false)) r generate_random.

Definition sk_process_term (k : socks_connecter) : option socks_connecter :=
  let* c := base_process_term (sk_base k) in Some (sk_set_base k c).
