(* ===== verification/SocksProps.v ===== *)
(** * What the SOCKS connecter guarantees (src/src/socks.cpp, socks_connecter.cpp)

    Whatever a proxy answers, the connecter goes on or starts again, as long
    as the answers fit what it asked for; and through a proxy that grants
    the request the connection is made, however its bytes are cut. *)

From S2P Require Import Prelude Text Connecter ConnecterProps Socks.

(** What getaddrinfo gives for a numeric host, and what the options allow. *)
Definition getaddrinfo_ok (g : bytes -> numeric_host) : Prop :=
  forall h, match g h with ipv4_host a => length a = 4%nat | ipv6_host a => length a = 16%nat | other_host => True end.

Record so_ok (o : socks_options) : Prop := {
  so_ivl : co_reconnect_ivl (so_base o) <> 0;
  so_user : (length (so_username o) <= 255)%nat;
  so_pass : (length (so_password o) <= 255)%nat;
  so_host : forall h p, parse_address (so_address o) = Some (h, p) -> (length h <= 255)%nat;
  so_numeric : getaddrinfo_ok (so_getaddrinfo o);
}.

(** ** What is sent *)

Definition greeting_bytes (o : socks_options) : bytes := [5; 1; so_auth_method o].

Definition auth_bytes (o : socks_options) : bytes :=
  1 :: u8 (Z.of_nat (length (so_username o))) :: so_username o ++ u8 (Z.of_nat (length (so_password o))) :: so_password o.

Definition request_bytes (o : socks_options) (h : bytes) (p : Z) : bytes :=
  [5; 1; 0] ++ match so_getaddrinfo o h with
               | ipv4_host a => 1 :: a
               | ipv6_host a => 4 :: a
               | other_host => 3 :: u8 (Z.of_nat (length h)) :: h
               end ++ [p / 256; p mod 256].

Lemma greeting_encode_ok o : greeting_encode [so_auth_method o] = Some (SocksEncoder (greeting_bytes o) 0).
Proof. reflexivity. Qed.

Lemma se_encode_ok n l : (length l <= n)%nat -> se_encode n l = Some (SocksEncoder l 0).
Proof. intros H. unfold se_encode. by rewrite (leb_correct _ _ H). Qed.

Lemma auth_encode_ok o : so_ok o -> auth_encode (so_username o) (so_password o) = Some (SocksEncoder (auth_bytes o) 0).
Proof.
  intros [_ Hu Hp _ _]. unfold auth_encode, UINT8_MAX. destruct (Z.of_nat (length (so_username o)) <=? 255) eqn:E1; [|lia]. cbn [mbind option_bind].
  destruct (Z.of_nat (length (so_password o)) <=? 255) eqn:E2; [|lia]. cbn [mbind option_bind]. apply se_encode_ok. unfold auth_bytes. cbn [length]. rewrite length_app. cbn [length]. lia.
Qed.

Lemma request_encode_ok o h p : so_ok o -> (length h <= 255)%nat -> request_encode (so_getaddrinfo o) 1 h p = Some (SocksEncoder (request_bytes o h p) 0).
Proof.
  intros [_ _ _ _ Hn] Hh. unfold request_encode, UINT8_MAX. destruct (Z.of_nat (length h) <=? 255) eqn:E1; [|lia]. cbn [mbind option_bind]. apply se_encode_ok. unfold request_bytes.
  specialize (Hn h). destruct (so_getaddrinfo o h); cbn [length app]; rewrite ?length_app; cbn [length]; lia.
Qed.

#[local] Arguments engines : simpl never.

(** ** Safety *)

(** The socket is registered, and no timer runs. *)
Definition sk_connecting (c : connecter) : Prop := cn_connecting c /\ cn_connect_timer_started c = false.

Definition sk_polls_out (s : socks_status) : bool :=
  match s with waiting_for_proxy_connection | sending_greeting | sending_basic_auth_request | sending_request => true | _ => false end.

(** What the decoders have read, and what the encoder has left, in each state. *)
Definition sk_coders_ok (k : socks_connecter) : Prop :=
  match sk_status k with
  | unplugged | waiting_for_proxy_connection => sk_choice k = [] /\ sk_auth_response k = [] /\ sk_response k = []
  | sending_greeting => se_has_pending_data (sk_greeting k) = true /\ sk_choice k = [] /\ sk_auth_response k = [] /\ sk_response k = []
  | waiting_for_choice => (length (sk_choice k) < 2)%nat /\ sk_auth_response k = [] /\ sk_response k = []
  | sending_basic_auth_request => se_has_pending_data (sk_auth_request k) = true /\ sk_auth_response k = [] /\ sk_response k = []
  | waiting_for_auth_response => (length (sk_auth_response k) < 2)%nat /\ sk_response k = []
  | sending_request => se_has_pending_data (sk_request k) = true /\ sk_response k = []
  | waiting_for_response => sk_response k = [] \/ response_ok (sk_response k) = true
  end.

Record sk_inv (o : socks_options) (k : socks_connecter) : Prop := {
  si_plugged : sk_status k <> unplugged -> sk_connecting (sk_base k) /\ cn_pollout (sk_base k) = sk_polls_out (sk_status k) /\ sk_coders_ok k;
  si_unplugged : sk_status k = unplugged ->
    cn_s (sk_base k) = None /\ cn_registered (sk_base k) = ∅ /\ cn_connect_timer_started (sk_base k) = false /\ (engines (cn_acts (sk_base k)) <= 1)%nat /\
    (cn_timers (sk_base k) = if cn_reconnect_timer_started (sk_base k) then [reconnect_timer_id] else []) /\
    if cn_reconnect_timer_started (sk_base k) then sk_coders_ok k /\ engines (cn_acts (sk_base k)) = 0%nat
    else engines (cn_acts (sk_base k)) = 1%nat \/ co_reconnect_ivl (so_base o) = -1;
}.

(** The answers that fit what was asked for. *)
Definition read_ok (k : socks_connecter) (r : read_answer) : Prop :=
  match r with
  | read_error => True
  | read_bytes l =>
      match sk_status k with
      | waiting_for_choice => (length l <= 2 - length (sk_choice k))%nat
      | waiting_for_auth_response => (length l <= 2 - length (sk_auth_response k))%nat
      | waiting_for_response => (forall n, response_want (sk_response k) = Some n -> Z.of_nat (length l) <= n) /\ (length (sk_response k) + length l <= response_capacity)%nat
      | _ => True
      end
  end.

(** The reports of the poller, without a connection that is made at once. *)
Inductive sk_step (o : socks_options) : socks_connecter -> socks_connecter -> Prop :=
| ks_out k k' e t rc rand : cn_is_registered (sk_base k) = true -> cn_pollout (sk_base k) = true -> sk_out_event o k e t rc rand = Some k' -> sk_step o k k'
| ks_in k k' r rand : cn_is_registered (sk_base k) = true -> read_ok k r -> sk_in_event o k r rand = Some k' -> sk_step o k k'
| ks_timer k k' id l r rand : remove_timer id (cn_timers (sk_base k)) = Some l -> (forall fd, r <> or_connected fd) ->
    sk_timer_event o (sk_set_base k (cn_set_timers (sk_base k) l)) id r rand = Some k' -> sk_step o k k'.

Inductive sk_reach (o : socks_options) : socks_connecter -> Prop :=
| kr_plug k d r rand : (forall fd, r <> or_connected fd) -> sk_process_plug o d (socks_new o) r rand = Some k -> sk_reach o k
| kr_step k k' : sk_reach o k -> sk_step o k k' -> sk_reach o k'.

Lemma sk_rm_fd_spec c : cn_connecting c -> exists c', cn_rm_fd c = Some c' /\ cn_registered c' = ∅ /\ cn_s c' = cn_s c /\
  cn_connect_timer_started c' = cn_connect_timer_started c /\ cn_reconnect_timer_started c' = false /\ cn_timers c' = cn_timers c /\ cn_acts c' = cn_acts c.
Proof.
  intros (_ & (h & Hh & Hr) & Hrt & _). unfold cn_rm_fd. rewrite Hh. cbn [mbind option_bind]. rewrite Hr, bool_decide_eq_true_2 by set_solver.
  cbn [mbind option_bind]. eexists. split; [reflexivity|]. split_and!; cbn; try done. set_solver.
Qed.

Lemma sk_poll_ok c pin pout : sk_connecting c -> exists c', cn_poll c pin pout = Some c' /\ sk_connecting c' /\ cn_pollout c' = pout /\ cn_pollin c' = pin /\ cn_s c' = cn_s c.
Proof.
  intros [(Hs & (h & Hh & Hr) & Hrt & Ht & He) Hct]. unfold cn_poll, cn_is_registered. rewrite Hh, Hr, bool_decide_eq_true_2 by set_solver. cbn [mbind option_bind].
  eexists. split; [reflexivity|]. split; [|done]. split; [|done]. split_and!; try done. by exists h.
Qed.

Lemma sk_will_send_ok k s : sk_connecting (sk_base k) -> exists k', sk_will_send k s = Some k' /\ sk_connecting (sk_base k') /\ cn_pollout (sk_base k') = true /\
  cn_s (sk_base k') = cn_s (sk_base k) /\ exists c, k' = sk_set_status (sk_set_base k c) s.
Proof.
  intros Hc. unfold sk_will_send, reset_pollin, set_pollout. destruct (sk_poll_ok (sk_base k) false (cn_pollout (sk_base k)) Hc) as (c1 & -> & Hc1 & _ & _ & Hs1). cbn [mbind option_bind].
  destruct (sk_poll_ok c1 (cn_pollin c1) true Hc1) as (c2 & -> & Hc2 & Hp & _ & Hs2). cbn [mbind option_bind]. eexists. split; [reflexivity|]. split; [done|]. split; [done|]. split; [cbn; congruence|]. by eexists.
Qed.

Lemma sk_will_receive_ok k s : sk_connecting (sk_base k) -> exists k', sk_will_receive k s = Some k' /\ sk_connecting (sk_base k') /\ cn_pollout (sk_base k') = false /\
  cn_s (sk_base k') = cn_s (sk_base k) /\ exists c, k' = sk_set_status (sk_set_base k c) s.
Proof.
  intros Hc. unfold sk_will_receive, reset_pollout, set_pollin. destruct (sk_poll_ok (sk_base k) (cn_pollin (sk_base k)) false Hc) as (c1 & -> & Hc1 & Hp1 & _ & Hs1). cbn [mbind option_bind].
  destruct (sk_poll_ok c1 true (cn_pollout c1) Hc1) as (c2 & -> & Hc2 & Hp & _ & Hs2). cbn [mbind option_bind]. eexists. split; [reflexivity|]. split; [done|]. split; [cbn; congruence|]. split; [cbn; congruence|]. by eexists.
Qed.

(** A decoder of two bytes either fails, has both, or waits for the second. *)
Lemma two_input_ok version buf r : (length buf < 2)%nat -> (forall l, r = read_bytes l -> (length l <= 2 - length buf)%nat) ->
  exists buf' rc, two_input version buf r = Some (buf', rc) /\ (length buf <= length buf' <= 2)%nat.
Proof.
  intros Hb Hr. unfold two_input. rewrite (proj2 (Nat.ltb_lt _ _) Hb). cbn [mbind option_bind]. destruct r as [|[|x l]]; [eexists _, _; split; [reflexivity|lia]..|].
  specialize (Hr _ eq_refl). rewrite (leb_correct _ _ Hr). cbn [mbind option_bind]. eexists _, _. split; [reflexivity|]. rewrite length_app. lia.
Qed.

Lemma response_want_ok buf : buf = [] \/ response_ok buf = true -> is_Some (response_want buf).
Proof.
  intros H. unfold response_want. destruct (length buf <? 5)%nat eqn:El; [by eexists|]. apply Nat.ltb_ge in El.
  destruct H as [->|H]; [simpl in El; lia|]. unfold response_ok in H. apply andb_true_iff in H as [_ H].
  rewrite (proj2 (Nat.ltb_ge (length buf) 4)) in H by lia. cbn [orb] in H. unfold atyp_ok in H.
  repeat case_match; try done; by eexists.
Qed.

Lemma response_input_ok buf r : buf = [] \/ response_ok buf = true ->
  (forall l, r = read_bytes l -> (forall n, response_want buf = Some n -> Z.of_nat (length l) <= n) /\ (length buf + length l <= response_capacity)%nat) ->
  exists buf' rc, response_input buf r = Some (buf', rc) /\ (rc = 0 \/ rc = -1 \/ response_ok buf' = true).
Proof.
  intros Hb Hr. unfold response_input. destruct (response_want_ok buf Hb) as [n En]. rewrite En. cbn [mbind option_bind].
  destruct r as [|[|x l]]; [eexists _, _; split; [reflexivity|auto]..|]. destruct (Hr _ eq_refl) as [Hn Hc].
  specialize (Hn n En). rewrite (proj2 (Z.leb_le _ _) Hn). cbn [mbind option_bind]. rewrite (leb_correct _ _ Hc). cbn [mbind option_bind].
  eexists _, _. split; [reflexivity|]. destruct (response_ok (buf ++ x :: l)); auto.
Qed.

Lemma response_ready_ok buf : response_ok buf = true -> is_Some (response_ready buf).
Proof.
  unfold response_ok, response_ready. intros H. apply andb_true_iff in H as [_ H]. destruct (length buf <? 4)%nat; [by eexists|]. cbn [orb] in H. rewrite H. by eexists.
Qed.

Section inv.
Context (o : socks_options).
Hypothesis Ho : so_ok o.

(** No engine yet, and the timer for the next attempt is set. *)
Definition sk_again (c : connecter) : Prop :=
  cn_s c = None /\ cn_registered c = ∅ /\ cn_connect_timer_started c = false /\ (engines (cn_acts c) <= 1)%nat /\
  (cn_timers c = if cn_reconnect_timer_started c then [reconnect_timer_id] else []) /\
  if cn_reconnect_timer_started c then engines (cn_acts c) = 0%nat else co_reconnect_ivl (so_base o) = -1.

Lemma sk_retry c rand : cn_registered c = ∅ -> cn_connect_timer_started c = false -> cn_reconnect_timer_started c = false -> cn_timers c = [] ->
  engines (cn_acts c) = 0%nat -> exists c', add_reconnect_timer (so_base o) (cn_close c) rand = Some c' /\ sk_again c'.
Proof.
  intros Hr Hct Hrt Ht He. unfold add_reconnect_timer.
  assert (cn_s (cn_close c) = None /\ cn_registered (cn_close c) = ∅ /\ cn_connect_timer_started (cn_close c) = false /\ cn_reconnect_timer_started (cn_close c) = false /\
    cn_timers (cn_close c) = [] /\ engines (cn_acts (cn_close c)) = 0%nat) as (Hs2 & Hr2 & Hct2 & Hrt2 & Ht2 & He2).
  { unfold cn_close. destruct (cn_s c) eqn:Es; split_and!; try done; cbn; by rewrite engines_app, He. }
  destruct (co_reconnect_ivl (so_base o) =? -1) eqn:Ei.
  - eexists. split; [done|]. unfold sk_again. rewrite Hrt2. split_and!; try done; lia.
  - unfold get_new_reconnect_ivl. pose proof (so_ivl o Ho). destruct (co_reconnect_ivl (so_base o) =? 0) eqn:E0; [lia|]. cbn [negb mbind option_bind].
    eexists. split; [reflexivity|]. unfold sk_again. cbn. rewrite Ht2, engines_app, He2. cbn. split_and!; try done; lia.
Qed.

Lemma sk_again_inv k : sk_again (sk_base k) -> sk_status k = unplugged -> (cn_reconnect_timer_started (sk_base k) = true -> sk_coders_ok k) -> sk_inv o k.
Proof.
  intros (Hs & Hr & Hct & He & Ht & Hif) Hu Hc. constructor; [done|]. intros _. split_and!; try done.
  destruct (cn_reconnect_timer_started (sk_base k)); [split; [by apply Hc|done]|by right].
Qed.

Lemma sk_error_inv k rand : sk_connecting (sk_base k) -> exists k', sk_error o k rand = Some k' /\ sk_inv o k'.
Proof.
  intros [Hc Hct]. unfold sk_error. destruct (sk_rm_fd_spec _ Hc) as (c1 & -> & Hr & Hs & Hct1 & Hrt & Ht & Ha). cbn [mbind option_bind].
  destruct Hc as (_ & _ & _ & Ht0 & He). rewrite Hct in *.
  destruct (sk_retry c1 rand) as (c2 & -> & Hag); try done; try congruence. cbn [mbind option_bind]. eexists. split; [reflexivity|].
  apply sk_again_inv; done.
Qed.

Lemma sk_plugged_inv k : sk_status k <> unplugged -> sk_connecting (sk_base k) -> cn_pollout (sk_base k) = sk_polls_out (sk_status k) -> sk_coders_ok k -> sk_inv o k.
Proof. intros Hs Hc Hp Hk. by constructor. Qed.

Lemma sk_send_ok k e set next rc rand : sk_connecting (sk_base k) -> se_has_pending_data e = true ->
  (forall e', sk_base (set k e') = sk_base k) ->
  (forall e', se_has_pending_data e' = true -> sk_inv o (set k e')) ->
  (forall e' c, sk_connecting c -> cn_pollout c = false -> sk_inv o (sk_set_status (sk_set_base (set k e') c) next)) ->
  exists k', sk_send o k e set next rc rand = Some k' /\ sk_inv o k'.
Proof.
  intros Hc He Hset Hstay Hnext. unfold sk_send. rewrite He. cbn [mbind option_bind]. unfold se_output. cbv beta iota. set (e' := if 0 <? rc then _ else e). clearbody e'.
  destruct ((rc =? -1) || (rc =? 0)); [apply sk_error_inv; by rewrite Hset|].
  destruct (se_has_pending_data e') eqn:Ee; cbn [negb]; [by eauto|].
  destruct (sk_will_receive_ok (set k e') next) as (k' & E & Hc' & Hp & _ & c & ->); [by rewrite Hset|]. rewrite E. eexists. split; [done|]. by apply Hnext.
Qed.

(** The errors of sockets that the connecter is prepared for. *)
Definition proxy_answer_ok (k : socks_connecter) (e : so_result) (t : tune_result) : Prop :=
  sk_status k = waiting_for_proxy_connection -> is_Some (check_proxy_connection e t).

Lemma proxy_answer_connected k : proxy_answer_ok k (so_error None) tuned.
Proof. intros _. by eexists. Qed.

Lemma sk_out_event_ok k e t rc rand : sk_inv o k -> cn_is_registered (sk_base k) = true -> cn_pollout (sk_base k) = true ->
  proxy_answer_ok k e t -> exists k', sk_out_event o k e t rc rand = Some k' /\ sk_inv o k'.
Proof.
  intros Hi Hr Hp Hans. unfold proxy_answer_ok in Hans. destruct (decide (sk_status k = unplugged)) as [Hu|Hu].
  { apply (si_unplugged _ _ Hi) in Hu as (_ & Hreg & _). unfold cn_is_registered in Hr. destruct (cn_handle (sk_base k)); [|done]. rewrite Hreg in Hr.
    apply bool_decide_eq_true_1 in Hr. set_solver. }
  destruct (si_plugged _ _ Hi Hu) as (Hc & Hpo & Hk). rewrite Hp in Hpo. unfold sk_out_event, sk_coders_ok in *.
  destruct (sk_status k) eqn:Es; try done.
  - destruct (Hans eq_refl) as [b ->]. cbn [mbind option_bind]. destruct b; cbn [negb]; [|by apply sk_error_inv]. eexists. split; [reflexivity|]. apply sk_plugged_inv; try done.
  - destruct Hk as (He & Hk). apply sk_send_ok; try done; intros; apply sk_plugged_inv; cbn; rewrite ?Es; try done; try (by rewrite Hp); unfold sk_coders_ok; cbn; rewrite ?Es; split_and?; try done; try apply Hk.
    destruct Hk as (-> & _). cbn. lia.
  - destruct Hk as (He & Hk). apply sk_send_ok; try done; intros; apply sk_plugged_inv; cbn; rewrite ?Es; try done; try (by rewrite Hp); unfold sk_coders_ok; cbn; rewrite ?Es; split_and?; try done; try apply Hk.
    destruct Hk as (-> & _). cbn. lia.
  - destruct Hk as (He & Hk). apply sk_send_ok; try done; intros; apply sk_plugged_inv; cbn; rewrite ?Es; try done; try (by rewrite Hp); unfold sk_coders_ok; cbn; rewrite ?Es; split_and?; try done; try apply Hk.
    by left.
Qed.

Lemma sk_send_request_ok k rand : sk_connecting (sk_base k) -> sk_response k = [] ->
  exists k', sk_send_request o k rand = Some k' /\ sk_inv o k'.
Proof.
  intros Hc Hk. unfold sk_send_request. destruct (parse_address (so_address o)) as [[h p]|] eqn:Ea; [|by apply sk_error_inv].
  rewrite (request_encode_ok o h p Ho) by (by apply (so_host o Ho h p)). cbn [mbind option_bind].
  destruct (sk_will_send_ok (sk_set_request k (SocksEncoder (request_bytes o h p) 0)) sending_request Hc) as (k' & -> & Hc' & Hp & _ & c & ->).
  eexists. split; [done|]. by apply sk_plugged_inv.
Qed.

Lemma sk_send_auth_ok k : sk_connecting (sk_base k) -> sk_auth_response k = [] -> sk_response k = [] ->
  exists k', sk_send_auth o k = Some k' /\ sk_inv o k'.
Proof.
  intros Hc Ha Hk. unfold sk_send_auth. rewrite (auth_encode_ok o Ho). cbn [mbind option_bind].
  destruct (sk_will_send_ok (sk_set_auth_request k (SocksEncoder (auth_bytes o) 0)) sending_basic_auth_request Hc) as (k' & -> & Hc' & Hp & _ & c & ->).
  eexists. split; [done|]. by apply sk_plugged_inv.
Qed.

Lemma sk_connected_ok k : sk_connecting (sk_base k) -> exists k', sk_connected k = Some k' /\ sk_inv o k' /\ engines (cn_acts (sk_base k')) = 1%nat.
Proof.
  intros [Hc Hct]. unfold sk_connected. destruct (rm_handle_connecting _ Hc) as (c2 & E & Hh & Hr & Hs & Hct2 & Hrt & Ht & Ha).
  destruct Hc as ([fd Hfd] & _ & _ & Ht0 & He). rewrite Hct in *. rewrite Hfd. cbn [mbind option_bind]. rewrite E. cbn [mbind option_bind].
  eexists. split; [reflexivity|]. cbn. rewrite !engines_app, Ha, He. cbn. split; [|done].
  constructor; cbn; [done|]. intros _. rewrite !engines_app, Ha, He, Hrt, Ht, Ht0. cbn. split_and!; try done. by left.
Qed.

Lemma sk_in_event_ok k r rand : sk_inv o k -> cn_is_registered (sk_base k) = true -> read_ok k r -> exists k', sk_in_event o k r rand = Some k' /\ sk_inv o k'.
Proof.
  intros Hi Hr Hrd. destruct (decide (sk_status k = unplugged)) as [Hu|Hu].
  { apply (si_unplugged _ _ Hi) in Hu as (_ & Hreg & _). unfold cn_is_registered in Hr. destruct (cn_handle (sk_base k)); [|done]. rewrite Hreg in Hr.
    apply bool_decide_eq_true_1 in Hr. set_solver. }
  destruct (si_plugged _ _ Hi Hu) as (Hc & Hpo & Hk). unfold sk_in_event, sk_coders_ok, read_ok in *.
  destruct (sk_status k) eqn:Es; try done; cbn [negb bool_decide mbind option_bind];
    try (rewrite bool_decide_eq_false_2 by done; cbn [negb mbind option_bind]); try (by apply sk_error_inv).
  - destruct Hk as (Hl & Ha & Hk). destruct (two_input_ok 5 (sk_choice k) r Hl) as (buf & rc & -> & Hlen); [by intros l ->|]. cbn [mbind option_bind].
    destruct ((rc =? 0) || (rc =? -1)); [by apply sk_error_inv|]. unfold two_decode, two_ready.
    destruct (length buf =? 2)%nat eqn:E2; cbn [mbind option_bind].
    + destruct (negb _); [by apply sk_error_inv|]. destruct (nth 1 buf 0 =? socks_basic_auth); [by apply sk_send_auth_ok|by apply sk_send_request_ok].
    + eexists. split; [done|]. apply Nat.eqb_neq in E2. apply sk_plugged_inv; cbn; rewrite ?Es; try done. unfold sk_coders_ok. cbn. rewrite Es. split_and!; try done. lia.
  - destruct Hk as (Hl & Hk). destruct (two_input_ok 1 (sk_auth_response k) r Hl) as (buf & rc & -> & Hlen); [by intros l ->|]. cbn [mbind option_bind].
    destruct ((rc =? 0) || (rc =? -1)); [by apply sk_error_inv|]. unfold two_decode, two_ready.
    destruct (length buf =? 2)%nat eqn:E2; cbn [mbind option_bind].
    + destruct (negb _); [by apply sk_error_inv|by apply sk_send_request_ok].
    + eexists. split; [done|]. apply Nat.eqb_neq in E2. apply sk_plugged_inv; cbn; rewrite ?Es; try done. unfold sk_coders_ok. cbn. rewrite Es. split_and!; try done. lia.
  - destruct (response_input_ok (sk_response k) r Hk) as (buf & rc & -> & Hrc); [by intros l ->|]. cbn [mbind option_bind].
    destruct ((rc =? 0) || (rc =? -1)) eqn:Erc; [by apply sk_error_inv|].
    assert (response_ok buf = true) as Hok by (apply orb_false_iff in Erc as [? ?]; destruct Hrc as [?|[?|?]]; [lia|lia|done]).
    destruct (response_ready_ok buf Hok) as [ready Er]. unfold response_decode. rewrite Er. cbn [mbind option_bind]. destruct ready.
    + cbn [mbind option_bind]. destruct (negb _); [by apply sk_error_inv|]. destruct (sk_connected_ok (sk_set_response k buf) Hc) as (k' & -> & Hi' & _). by eexists.
    + eexists. split; [done|]. apply sk_plugged_inv; cbn; rewrite ?Es; try done. unfold sk_coders_ok. cbn. rewrite Es. by right.
Qed.
Lemma sk_start_ok k r rand : sk_status k = unplugged -> sk_coders_ok k -> (forall fd, r <> or_connected fd) ->
  cn_s (sk_base k) = None -> cn_registered (sk_base k) = ∅ -> cn_connect_timer_started (sk_base k) = false -> cn_reconnect_timer_started (sk_base k) = false ->
  cn_timers (sk_base k) = [] -> engines (cn_acts (sk_base k)) = 0%nat ->
  exists k', sk_start_connecting o k r rand = Some k' /\ sk_inv o k'.
Proof.
  intros Hu Hk Hr Hs Hreg Hct Hrt Ht He. unfold sk_start_connecting, cn_open. rewrite bool_decide_eq_true_2 by done. cbn [mbind option_bind].
  rewrite bool_decide_eq_true_2 by done. cbn [mbind option_bind]. unfold sk_coders_ok in Hk. rewrite Hu in Hk.
  assert (forall s, cn_registered (cn_set_s (sk_base k) s) = ∅) as Hreg' by done.
  assert (exists k', (let* c := add_reconnect_timer (so_base o) (cn_close (cn_set_s (sk_base k) (opened r))) rand in Some (sk_set_base k c)) = Some k' /\ sk_inv o k') as Hfail.
  { destruct (sk_retry (cn_set_s (sk_base k) (opened r)) rand) as (c & -> & Hc); try done. cbn [mbind option_bind]. eexists. split; [reflexivity|].
    apply sk_again_inv; [done|done|]. intros _. unfold sk_coders_ok. cbn. by rewrite Hu. }
  destruct r as [|fd|fd|fd]; [exact Hfail|by destruct (Hr fd)| |exact Hfail].
  cbn [opened]. set (c := cn_add_fd (cn_set_s (sk_base k) (Some fd))).
  assert (sk_connecting c) as Hc.
  { split; [|done]. split_and!; cbn; try done; [|by rewrite Hct]. exists (cn_next_handle (sk_base k)). split; [done|]. rewrite Hreg. set_solver. }
  unfold set_pollout. destruct (sk_poll_ok c (cn_pollin c) true Hc) as (c2 & -> & Hc2 & Hp & _). cbn [mbind option_bind]. eexists. split; [reflexivity|].
  apply sk_plugged_inv; try done. destruct Hc2 as [(H1 & H2 & H3 & H4 & H5) H6]. split; [|done]. split_and!; try done. cbn. by rewrite engines_app, H5.
Qed.

Lemma sk_timer_event_ok k id l r rand : sk_inv o k -> remove_timer id (cn_timers (sk_base k)) = Some l -> (forall fd, r <> or_connected fd) ->
  exists k', sk_timer_event o (sk_set_base k (cn_set_timers (sk_base k) l)) id r rand = Some k' /\ sk_inv o k'.
Proof.
  intros Hi Hl Hr. destruct (decide (sk_status k = unplugged)) as [Hu|Hu].
  - destruct (si_unplugged _ _ Hi Hu) as (Hs & Hreg & Hct & _ & Ht & Hif). destruct (cn_reconnect_timer_started (sk_base k)); rewrite Ht in Hl; [|done].
    cbn [remove_timer] in Hl. destruct (reconnect_timer_id =? id) eqn:Eid; [|done]. injection Hl as <-. unfold sk_timer_event.
    apply Z.eqb_eq in Eid as <-. rewrite Z.eqb_refl. cbn [mbind option_bind]. destruct Hif as [Hk He]. apply sk_start_ok; try done.
  - destruct (si_plugged _ _ Hi Hu) as (((_ & _ & _ & Ht & _) & Hct) & _). rewrite Hct in Ht. by rewrite Ht in Hl.
Qed.

Lemma sk_reach_inv k : sk_reach o k -> sk_inv o k.
Proof.
  induction 1 as [k d r rand Hr E|k k' _ IH Hst].
  - destruct d.
    + unfold sk_process_plug in E. change (add_reconnect_timer (so_base o) (sk_base (socks_new o)) rand) with (add_reconnect_timer (so_base o) (cn_close (sk_base (socks_new o))) rand) in E.
      destruct (sk_retry (sk_base (socks_new o)) rand) as (c & E2 & Hc); try done. rewrite E2 in E. cbn [mbind option_bind] in E. injection E as <-.
      by apply sk_again_inv.
    + unfold sk_process_plug in E. destruct (sk_start_ok (socks_new o) r rand) as (k2 & E2 & Hi); try done. congruence.
  - destruct Hst as [k k' e t rc rand Hreg Hp E|k k' r rand Hreg Hrd E|k k' id l r rand Hl Hr E].
    + destruct (sk_out_event_ok k e t rc rand IH Hreg Hp) as (k2 & E2 & Hi); [|congruence]. intros Hw. unfold sk_out_event in E. rewrite Hw in E.
      destruct (check_proxy_connection e t); [by eexists|done].
    + destruct (sk_in_event_ok k r rand IH Hreg Hrd) as (k2 & E2 & Hi). congruence.
    + destruct (sk_timer_event_ok k id l r rand IH Hl Hr) as (k2 & E2 & Hi). congruence.
Qed.
End inv.

(** Whatever the proxy answers, and however reads and writes fail or are
    cut, a SOCKS connecter goes on, starts again after the interval, or hands
    the connection over, once; no assertion fails.  This is for connections
    that are not made at once, answers that fit the buffer, and errors of the
    socket that the connecter does not take for its own mistakes. *)
Theorem socks_safe (o : socks_options) (k : socks_connecter) : so_ok o -> sk_reach o k ->
  (forall e t rc rand, cn_is_registered (sk_base k) = true -> cn_pollout (sk_base k) = true -> proxy_answer_ok k e t -> is_Some (sk_out_event o k e t rc rand)) /\
  (forall r rand, cn_is_registered (sk_base k) = true -> read_ok k r -> is_Some (sk_in_event o k r rand)) /\
  (forall id l r rand, remove_timer id (cn_timers (sk_base k)) = Some l -> (forall fd, r <> or_connected fd) ->
     is_Some (sk_timer_event o (sk_set_base k (cn_set_timers (sk_base k) l)) id r rand)) /\
  (engines (cn_acts (sk_base k)) <= 1)%nat /\
  (engines (cn_acts (sk_base k)) = 0%nat -> cn_is_registered (sk_base k) = true \/ reconnect_timer_id ∈ cn_timers (sk_base k) \/ co_reconnect_ivl (so_base o) = -1).
Proof.
  intros Ho Hr. pose proof (sk_reach_inv o Ho k Hr) as Hi. split_and!.
  - intros e t rc rand H1 H2 H3. by destruct (sk_out_event_ok o Ho k e t rc rand Hi H1 H2 H3) as (k' & -> & _).
  - intros r rand H1 H2. by destruct (sk_in_event_ok o Ho k r rand Hi H1 H2) as (k' & -> & _).
  - intros id l r rand H1 H2. by destruct (sk_timer_event_ok o Ho k id l r rand Hi H1 H2) as (k' & -> & _).
  - destruct (decide (sk_status k = unplugged)) as [Hu|Hu]; [by apply (si_unplugged _ _ Hi Hu)|].
    destruct (si_plugged _ _ Hi Hu) as (((_ & _ & _ & _ & He) & _) & _). lia.
  - intros He. destruct (decide (sk_status k = unplugged)) as [Hu|Hu].
    + right. destruct (si_unplugged _ _ Hi Hu) as (_ & _ & _ & _ & Ht & Hif). destruct (cn_reconnect_timer_started (sk_base k)); [left; rewrite Ht; by left|].
      right. destruct Hif; [lia|done].
    + left. destruct (si_plugged _ _ Hi Hu) as (((_ & (h & Hh & Hreg) & _) & _) & _). unfold cn_is_registered. rewrite Hh, Hreg. apply bool_decide_eq_true_2. set_solver.
Qed.

(** ** What goes wrong *)

Definition sample_options : socks_options := SocksOptions example_cn_options socks_no_auth_required [] [] [104; 58; 56; 48] (fun _ => other_host).

Lemma sample_options_ok : so_ok sample_options.
Proof.
  constructor; [vm_compute; discriminate|vm_compute; lia|vm_compute; lia| |by intros h].
  intros h p E. vm_compute in E. injection E as <- _. simpl. lia.
Qed.

(** The state after a list of events. *)
Definition sample_connecter : socks_connecter :=
  default (socks_new sample_options) (sk_start_connecting sample_options (socks_new sample_options) (or_in_progress 5) 0).

Lemma socks_safe_witness : is_Some (sk_out_event sample_options sample_connecter (so_error (Some so_ECONNREFUSED)) tuned 0 7) /\ is_Some (sk_in_event sample_options sample_connecter read_error 7).
Proof.
  destruct (socks_safe sample_options sample_connecter sample_options_ok) as (H1 & H2 & _).
  - apply (kr_plug _ _ false (or_in_progress 5) 0); [done|reflexivity].
  - split; [apply H1; [reflexivity|reflexivity|intros _; by eexists]|apply H2; [reflexivity|exact I]].
Defined.

(** A connection to the proxy that is made at once leads to a greeting that
    was never encoded: the assertion that there is something to send fails. *)
Lemma immediate_connection_asserts :
  (let* k := sk_start_connecting sample_options (socks_new sample_options) (or_connected 5) 0 in sk_out_event sample_options k (so_error None) tuned 3 0) = None.
Proof. reflexivity. Qed.

(** After an error the handle is kept though it left the poller; to
    terminate before the next attempt removes it once more. *)
Lemma terminated_after_error : exists k, sk_out_event sample_options sample_connecter (so_error (Some so_ECONNREFUSED)) tuned 0 7 = Some k /\
  cn_timers (sk_base k) = [reconnect_timer_id] /\ sk_process_term k = None.
Proof. eexists. split; [reflexivity|]. by split. Qed.

(** [input] asks for the whole rest of the response also when it has a part
    of it: a reply in three pieces, with the first bytes of the peer behind
    it, is never complete, ... *)
Lemma response_overread : exists buf,
  (let* (b, _) := response_input [] (read_bytes [5; 0; 0; 1; 10]) in
   let* (b, _) := response_input b (read_bytes [0; 0; 1; 0]) in
   let* (b, _) := response_input b (read_bytes [80; 255; 0; 0; 0]) in Some b) = Some buf /\
  response_ready buf = Some false /\ response_want buf = Some 5.
Proof. eexists. split; [reflexivity|]. by split. Qed.

(** ... and as [input] keeps asking, it writes behind its buffer. *)
Lemma response_overflow buf l : (5 <= length buf)%nat -> nth 3 buf 0 = 1 -> length l = 5%nat -> (258 <= length buf)%nat ->
  response_input buf (read_bytes l) = None.
Proof.
  intros Hb H3 Hl Hc. unfold response_input, response_want. rewrite (proj2 (Nat.ltb_ge (length buf) 5)) by lia. rewrite H3. cbn [Z.eqb Pos.eqb mbind option_bind].
  destruct l as [|x l]; [done|]. rewrite Hl. cbn [mbind option_bind]. unfold response_capacity.
  rewrite (proj2 (Nat.leb_gt (length buf + 5) 262)) by lia. reflexivity.
Qed.

(** The length of a domain name is read as a signed byte: for a name of 200
    characters [input] asks for almost the whole address space. *)
Lemma long_name_wants buf : (5 <= length buf)%nat -> nth 3 buf 0 = 3 -> nth 4 buf 0 = 200 -> response_want buf = Some 18446744073709551562.
Proof.
  intros Hb H3 H4. unfold response_want. rewrite (proj2 (Nat.ltb_ge (length buf) 5)) by lia. rewrite H3, H4. reflexivity.
Qed.
