(* ===== verification/SocksLive.v ===== *)
(** * A connection through a SOCKS proxy is made (src/src/socks.cpp, socks_connecter.cpp)

    The connecter and a proxy that grants the request, with the bytes that
    were sent and those that are still to be read, the first ones of the
    peer included. *)

From S2P Require Import Prelude Text Connecter ConnecterProps Socks SocksProps.

#[local] Arguments engines : simpl never.
#[local] Arguments se_pending : simpl never.

(** ** The answers of the proxy *)

(** A reply that grants the request: an address of one of the three kinds,
    and a port.  A domain name has less than 128 characters. *)
Definition grants (rep : bytes) : Prop :=
  nth 0 rep 0 = 5 /\ nth 1 rep 0 = 0 /\ nth 2 rep 0 = 0 /\
  (nth 3 rep 0 = 1 /\ length rep = 10%nat \/ nth 3 rep 0 = 4 /\ length rep = 22%nat \/
   nth 3 rep 0 = 3 /\ 0 <= nth 4 rep 0 < 128 /\ Z.of_nat (length rep) = 7 + nth 4 rep 0).

(** The method it chooses, its answer to the credentials, and the reply;
    then come the first bytes of the peer. *)
Definition proxy_stream (method : Z) (rep extra : bytes) : bytes := [5; method] ++ (if method =? socks_basic_auth then [1; 0] else []) ++ rep ++ extra.

Definition sent_bytes (o : socks_options) (method : Z) (h : bytes) (p : Z) : bytes :=
  greeting_bytes o ++ (if method =? socks_basic_auth then auth_bytes o else []) ++ request_bytes o h p.

(** ** The two together *)

Record socks_system := SocksSystem { sy_k : socks_connecter; sy_sent : bytes; sy_in : bytes }.

Definition sk_pending (k : socks_connecter) : bytes :=
  match sk_status k with
  | sending_greeting => se_pending (sk_greeting k)
  | sending_basic_auth_request => se_pending (sk_auth_request k)
  | sending_request => se_pending (sk_request k)
  | _ => []
  end.

(** A read of the response gets all it asks for, when there is something
    behind the reply and the first five bytes of the reply have been read
    ([response_overread] shows what happens else). *)
Definition whole_rest (extra : bytes) (k : socks_connecter) (l : bytes) : Prop :=
  extra = [] \/ (sk_status k = waiting_for_response -> (5 <= length (sk_response k))%nat -> response_want (sk_response k) = Some (Z.of_nat (length l))).

(** The connection to the proxy is there; some bytes are written; some are read. *)
Inductive sy_step (o : socks_options) (extra : bytes) : socks_system -> socks_system -> Prop :=
| sy_connected k k' s i rc rand : sk_status k = waiting_for_proxy_connection -> sk_out_event o k (so_error None) tuned rc rand = Some k' ->
    sy_step o extra (SocksSystem k s i) (SocksSystem k' s i)
| sy_write k k' s i n rand : sk_status k <> waiting_for_proxy_connection -> cn_pollout (sk_base k) = true -> (0 < n <= length (sk_pending k))%nat ->
    sk_out_event o k (so_error None) tuned (Z.of_nat n) rand = Some k' -> sy_step o extra (SocksSystem k s i) (SocksSystem k' (s ++ take n (sk_pending k)) i)
| sy_read k k' s l i rand : cn_is_registered (sk_base k) = true -> cn_pollout (sk_base k) = false -> l <> [] -> read_ok k (read_bytes l) -> whole_rest extra k l ->
    sk_in_event o k (read_bytes l) rand = Some k' -> sy_step o extra (SocksSystem k s (l ++ i)) (SocksSystem k' s i).

(** *** Decoders *)

Lemma nth_prefix (b i : bytes) j : (j < length b)%nat -> nth j (b ++ i) 0 = nth j b 0.
Proof. apply app_nth1. Qed.

Lemma two_input_prefix version x (rest buf l i : bytes) : buf ++ l ++ i = [version; x] ++ rest -> (length buf < 2)%nat -> l <> [] -> (length l <= 2 - length buf)%nat ->
  two_input version buf (read_bytes l) = Some (buf ++ l, Z.of_nat (length l)) /\
  (two_ready (buf ++ l) = true /\ buf ++ l = [version; x] /\ i = rest \/ two_ready (buf ++ l) = false /\ (length (buf ++ l) < 2)%nat).
Proof.
  intros E Hb Hl Hn. assert (nth 0 (buf ++ l) 0 = version) as H0.
  { rewrite <- (nth_prefix _ i) by (rewrite length_app; destruct l; [done|cbn; lia]). by rewrite <- app_assoc, E. }
  split.
  - unfold two_input. rewrite (proj2 (Nat.ltb_lt _ _) Hb). cbn [mbind option_bind]. destruct l as [|y l]; [done|]. rewrite (leb_correct _ _ Hn). cbn [mbind option_bind].
    by rewrite H0, Z.eqb_refl.
  - unfold two_ready. destruct (length (buf ++ l) =? 2)%nat eqn:E2; [left|right]; split; try done.
    + apply Nat.eqb_eq in E2. rewrite app_assoc in E. by apply app_inj_1 in E.
    + apply Nat.eqb_neq in E2. rewrite length_app in *. lia.
Qed.

Lemma grants_length rep : grants rep -> (7 <= length rep)%nat.
Proof. intros (_ & _ & _ & H). lia. Qed.

Lemma grants_prefix_ok rep b i : grants rep -> b ++ i = rep -> b <> [] -> response_ok b = true.
Proof.
  intros (H0 & H1 & H2 & H3) <- Hb. unfold response_ok.
  assert (0 < length b)%nat by (destruct b; [done|cbn; lia]). rewrite nth_prefix in H0 by lia. rewrite H0. cbn [andb Z.eqb Pos.eqb].
  apply andb_true_iff. split; [apply andb_true_iff; split|].
  - destruct (length b <? 2)%nat eqn:E; [done|]. apply Nat.ltb_ge in E. rewrite nth_prefix in H1 by lia. by rewrite H1.
  - destruct (length b <? 3)%nat eqn:E; [done|]. apply Nat.ltb_ge in E. rewrite nth_prefix in H2 by lia. by rewrite H2.
  - destruct (length b <? 4)%nat eqn:E; [done|]. apply Nat.ltb_ge in E. rewrite nth_prefix in H3 by lia. unfold atyp_ok.
    destruct H3 as [[-> _]|[[-> _]|[-> _]]]; done.
Qed.

(** The response is complete when all of it is there, and not before. *)
Lemma grants_ready rep b i : grants rep -> b ++ i = rep -> response_ready b = Some (bool_decide (i = [])).
Proof.
  intros Hg E. pose proof (grants_length rep Hg) as Hl. destruct Hg as (H0 & H1 & H2 & H3). unfold response_ready.
  assert (length b + length i = length rep)%nat as Hbi by (rewrite <- E; by rewrite length_app).
  destruct (length b <? 4)%nat eqn:E4.
  { apply Nat.ltb_lt in E4. rewrite bool_decide_eq_false_2; [done|]. intros ->. cbn in Hbi. lia. }
  apply Nat.ltb_ge in E4. assert (nth 3 b 0 = nth 3 rep 0) as -> by (rewrite <- E; symmetry; apply nth_prefix; lia).
  assert (forall m, (length b =? m)%nat = bool_decide (i = []) <-> (length b = m <-> length i = 0%nat)) as Hdec.
  { intros m. rewrite length_zero_iff_nil. destruct (decide (i = [])); [rewrite bool_decide_eq_true_2 by done|rewrite bool_decide_eq_false_2 by done];
      [rewrite Nat.eqb_eq|rewrite Nat.eqb_neq]; tauto. }
  destruct H3 as [[-> H3]|[[-> H3]|(-> & Hn & H3)]]; cbn [atyp_ok Z.eqb Pos.eqb orb mbind option_bind]; f_equal; [apply Hdec; lia..|].
  destruct (4 <? length b)%nat eqn:E5; cbn [andb].
  - apply Nat.ltb_lt in E5. assert (nth 4 b 0 = nth 4 rep 0) as -> by (rewrite <- E; symmetry; apply nth_prefix; lia).
    unfold s8. destruct (nth 4 rep 0 <? 128) eqn:E8; [|lia]. unfold u32. rewrite Z.mod_small by lia.
    destruct (decide (i = [])) as [->|Hi]; [rewrite bool_decide_eq_true_2 by done; cbn in Hbi; lia|rewrite bool_decide_eq_false_2 by done].
    apply Z.eqb_neq. rewrite <- length_zero_iff_nil in Hi. lia.
  - apply Nat.ltb_ge in E5. symmetry. apply bool_decide_eq_false_2. intros ->. cbn in Hbi. lia.
Qed.

Lemma response_input_prefix rep buf l i : grants rep -> buf ++ l ++ i = rep -> l <> [] ->
  (forall n, response_want buf = Some n -> Z.of_nat (length l) <= n) -> (length buf + length l <= response_capacity)%nat ->
  response_input buf (read_bytes l) = Some (buf ++ l, Z.of_nat (length l)).
Proof.
  intros Hg E Hl Hn Hc. assert (response_ok (buf ++ l) = true) as Hok.
  { apply (grants_prefix_ok rep _ i Hg); [by rewrite <- app_assoc|]. intros H. apply app_eq_nil in H. tauto. }
  unfold response_input. destruct (response_want_ok buf) as [n En].
  { destruct buf as [|x buf]; [by left|right]. by apply (grants_prefix_ok rep _ (l ++ i) Hg). }
  rewrite En. cbn [mbind option_bind]. destruct l as [|y l]; [done|]. specialize (Hn n En). rewrite (proj2 (Z.leb_le _ _) Hn). cbn [mbind option_bind].
  rewrite (leb_correct _ _ Hc). cbn [mbind option_bind]. by rewrite Hok.
Qed.

Section live.
Context (o : socks_options) (method : Z) (h : bytes) (p : Z) (rep extra : bytes) (fd : Z).
Hypothesis Ho : so_ok o.
Hypothesis Hm : method = socks_no_auth_required \/ method = socks_basic_auth.
Hypothesis Hh : parse_address (so_address o) = Some (h, p).
Hypothesis Hrep : grants rep.

(** Where the exchange is in each state of the connecter. *)
Definition sy_at (k : socks_connecter) (s i : bytes) : Prop :=
  let to_auth := greeting_bytes o ++ (if method =? socks_basic_auth then auth_bytes o else []) in
  match sk_status k with
  | unplugged => s = sent_bytes o method h p /\ i = extra /\ ca_attach fd ∈ cn_acts (sk_base k)
  | waiting_for_proxy_connection => s = [] /\ i = proxy_stream method rep extra
  | sending_greeting => s ++ se_pending (sk_greeting k) = greeting_bytes o /\ i = proxy_stream method rep extra
  | waiting_for_choice => s = greeting_bytes o /\ sk_choice k ++ i = proxy_stream method rep extra
  | sending_basic_auth_request => method = socks_basic_auth /\ s ++ se_pending (sk_auth_request k) = to_auth /\ i = [1; 0] ++ rep ++ extra
  | waiting_for_auth_response => method = socks_basic_auth /\ s = to_auth /\ sk_auth_response k ++ i = [1; 0] ++ rep ++ extra
  | sending_request => s ++ se_pending (sk_request k) = sent_bytes o method h p /\ i = rep ++ extra
  | waiting_for_response => s = sent_bytes o method h p /\ exists r, i = r ++ extra /\ sk_response k ++ r = rep /\ r <> [] /\ ((length (sk_response k) <= 5)%nat \/ extra = [])
  end.

Record sy_inv (y : socks_system) : Prop := {
  yi_inv : sk_inv o (sy_k y);
  yi_at : sy_at (sy_k y) (sy_sent y) (sy_in y);
  yi_fd : sk_status (sy_k y) <> unplugged -> cn_s (sk_base (sy_k y)) = Some fd;
}.

(** *** Encoders *)

Lemma se_pending_advance e n : se_pending (SocksEncoder (se_buf e) (se_written e + n)) = drop n (se_pending e).
Proof. unfold se_pending. cbn. by rewrite drop_drop. Qed.

Lemma se_has_pending_iff e : se_has_pending_data e = true <-> se_pending e <> [].
Proof.
  unfold se_has_pending_data, se_pending. rewrite Nat.ltb_lt. rewrite <- length_zero_iff_nil, length_drop. lia.
Qed.

(** Writing [n] bytes: the state stays while there are more, else the connecter polls for the answer. *)
Lemma sk_send_some k e set next n rand : sk_connecting (sk_base k) -> (0 < n <= length (se_pending e))%nat -> (forall e', sk_base (set k e') = sk_base k) ->
  let e' := SocksEncoder (se_buf e) (se_written e + n) in
  (n < length (se_pending e))%nat /\ sk_send o k e set next (Z.of_nat n) rand = Some (set k e') \/
  n = length (se_pending e) /\ exists k', sk_send o k e set next (Z.of_nat n) rand = Some k' /\ cn_s (sk_base k') = cn_s (sk_base k) /\
    exists c, k' = sk_set_status (sk_set_base (set k e') c) next.
Proof.
  intros Hc Hn Hset e'. unfold sk_send. rewrite (proj2 (se_has_pending_iff e)) by (intros He; rewrite He in Hn; cbn in Hn; lia). cbn [mbind option_bind].
  unfold se_output. cbv beta iota. rewrite (proj2 (Z.ltb_lt 0 (Z.of_nat n))), (proj2 (Z.eqb_neq (Z.of_nat n) (-1))), (proj2 (Z.eqb_neq (Z.of_nat n) 0)) by lia. cbn [orb].
  rewrite Nat2Z.id. fold e'. pose proof (se_pending_advance e n) as Hp. fold e' in Hp. destruct (se_has_pending_data e') eqn:Ee; cbn [negb].
  - left. split; [|done]. apply se_has_pending_iff in Ee. rewrite Hp, <- length_zero_iff_nil, length_drop in Ee. lia.
  - right. split.
    + destruct (decide (se_pending e' = [])) as [He|He]; [|apply se_has_pending_iff in He; congruence]. apply (f_equal length) in He. rewrite Hp, length_drop in He. cbn in He. lia.
    + destruct (sk_will_receive_ok (set k e') next) as (k' & -> & _ & _ & Hs & Hk'); [by rewrite Hset|]. exists k'. split; [done|]. rewrite Hset in Hs. done.
Qed.

Lemma take_pending (s l t : bytes) n : s ++ l = t -> (s ++ take n l) ++ drop n l = t.
Proof. intros <-. rewrite <- app_assoc, take_drop. done. Qed.

(** One of the three states that send. *)
Lemma sy_write_ok k s i n rand k' : sy_inv (SocksSystem k s i) -> sk_status k <> waiting_for_proxy_connection -> (0 < n <= length (sk_pending k))%nat ->
  sk_out_event o k (so_error None) tuned (Z.of_nat n) rand = Some k' -> sy_at k' (s ++ take n (sk_pending k)) i /\ cn_s (sk_base k') = Some fd /\ sk_status k' <> unplugged.
Proof.
  intros [Hi Hat Hfd] Hw Hn E. cbn [sy_k sy_sent sy_in] in *.
  assert (sk_status k <> unplugged) as Hu by (intros Hu; unfold sk_pending in Hn; rewrite Hu in Hn; cbn in Hn; lia).
  destruct (si_plugged _ _ Hi Hu) as (Hc & _ & Hk). specialize (Hfd Hu). unfold sk_out_event, sk_pending, sy_at, sk_coders_ok in *.
  destruct (sk_status k) eqn:Es; try done; cbn [length] in Hn; try lia.
  - destruct (sk_send_some k (sk_greeting k) sk_set_greeting waiting_for_choice n rand Hc Hn) as [[Hlt E2]|(Hn' & k2 & E2 & Hs & c & ->)]; [done| |];
      rewrite E in E2; injection E2 as ->; cbn; rewrite ?Es.
    + rewrite se_pending_advance. split; [|done]. split; [by apply take_pending, Hat|apply Hat].
    + split; [|split; [cbn in Hs; congruence|done]]. rewrite Hn', take_ge by lia. destruct Hat as [-> ->]. destruct Hk as (_ & -> & _). done.
  - destruct (sk_send_some k (sk_auth_request k) sk_set_auth_request waiting_for_auth_response n rand Hc Hn) as [[Hlt E2]|(Hn' & k2 & E2 & Hs & c & ->)]; [done| |];
      rewrite E in E2; injection E2 as ->; cbn; rewrite ?Es.
    + rewrite se_pending_advance. split; [|done]. split; [apply Hat|]. split; [by apply take_pending, Hat|apply Hat].
    + split; [|split; [cbn in Hs; congruence|done]]. rewrite Hn', take_ge by lia. destruct Hat as (? & -> & ->). destruct Hk as (_ & -> & _). done.
  - destruct (sk_send_some k (sk_request k) sk_set_request waiting_for_response n rand Hc Hn) as [[Hlt E2]|(Hn' & k2 & E2 & Hs & c & ->)]; [done| |];
      rewrite E in E2; injection E2 as ->; cbn; rewrite ?Es.
    + rewrite se_pending_advance. split; [|done]. split; [by apply take_pending, Hat|apply Hat].
    + split; [|split; [cbn in Hs; congruence|done]]. rewrite Hn', take_ge by lia. destruct Hat as (-> & ->). destruct Hk as (_ & ->). split; [done|]. exists rep. split_and!; try done.
      * intros ->. destruct Hrep as (? & _). done.
      * left. cbn. lia.
Qed.

Lemma sy_request_ok k s rand k' : sk_connecting (sk_base k) -> cn_s (sk_base k) = Some fd -> sk_send_request o k rand = Some k' ->
  s ++ request_bytes o h p = sent_bytes o method h p -> sy_at k' s (rep ++ extra) /\ cn_s (sk_base k') = Some fd /\ sk_status k' <> unplugged.
Proof.
  intros Hc Hs E Hsent. unfold sk_send_request in E. rewrite Hh in E. rewrite (request_encode_ok o h p Ho) in E by (by apply (so_host o Ho h p)). cbn [mbind option_bind] in E.
  destruct (sk_will_send_ok (sk_set_request k (SocksEncoder (request_bytes o h p) 0)) sending_request Hc) as (k2 & E2 & _ & _ & Hs2 & c & ->).
  rewrite E2 in E. injection E as <-. cbn in Hs2. unfold sy_at. cbn. split; [|split; [congruence|done]]. by split.
Qed.

(** What is asked for when five bytes of the reply are there is the rest. *)
Lemma response_want_rest (b r : bytes) : length b = 5%nat -> b ++ r = rep -> response_want b = Some (Z.of_nat (length r)).
Proof.
  intros Hb E. unfold response_want. rewrite Hb. cbn [Nat.ltb Nat.leb]. assert (length rep = (5 + length r)%nat) as Hlen by (rewrite <- E, length_app; lia).
  assert (nth 3 b 0 = nth 3 rep 0) as -> by (rewrite <- E; symmetry; apply nth_prefix; lia).
  assert (nth 4 b 0 = nth 4 rep 0) as -> by (rewrite <- E; symmetry; apply nth_prefix; lia).
  destruct Hrep as (_ & _ & _ & [[-> H3]|[[-> H3]|(-> & Hn & H3)]]); cbn [Z.eqb Pos.eqb]; f_equal; try lia.
  unfold s8. rewrite (proj2 (Z.ltb_lt _ _)) by lia. unfold u64. rewrite Z.mod_small; lia.
Qed.

Lemma response_want_pos (b r : bytes) n : b ++ r = rep -> r <> [] -> response_want b = Some n -> 1 <= n.
Proof.
  intros E Hr Hn. unfold response_want in Hn. destruct (length b <? 5)%nat eqn:E5; [apply Nat.ltb_lt in E5; injection Hn as <-; lia|]. apply Nat.ltb_ge in E5.
  assert (nth 3 b 0 = nth 3 rep 0) as E3 by (rewrite <- E; symmetry; apply nth_prefix; lia).
  assert (nth 4 b 0 = nth 4 rep 0) as E4 by (rewrite <- E; symmetry; apply nth_prefix; lia).
  rewrite E3, E4 in Hn. destruct Hrep as (_ & _ & _ & H3). unfold s8 in Hn.
  destruct H3 as [[Ea H3]|[[Ea H3]|(Ea & Hn4 & H3)]]; rewrite Ea in Hn; cbn [Z.eqb Pos.eqb] in Hn; injection Hn as <-; try lia.
  rewrite (proj2 (Z.ltb_lt _ _)) by lia. unfold u64. rewrite Z.mod_small; lia.
Qed.

(** A read of the response takes nothing from behind the reply. *)
Lemma read_within k (l i r : bytes) : sk_status k = waiting_for_response -> sk_response k ++ r = rep -> r <> [] ->
  (length (sk_response k) <= 5)%nat \/ extra = [] -> l ++ i = r ++ extra -> whole_rest extra k l ->
  (forall n, response_want (sk_response k) = Some n -> Z.of_nat (length l) <= n) -> exists r2, r = l ++ r2 /\ i = r2 ++ extra.
Proof.
  intros Hs Hst Hne H5 Hri Hwh Hn. assert (length l <= length r)%nat as Hle.
  { destruct (decide (extra = [])) as [->|Hx]; [apply (f_equal length) in Hri; rewrite !length_app in Hri; cbn in Hri; lia|].
    destruct Hwh as [|Hwh]; [done|]. destruct H5 as [H5|]; [|done]. pose proof (grants_length rep Hrep) as Hl. rewrite <- Hst, length_app in Hl.
    destruct (decide (length (sk_response k) = 5%nat)) as [He|He].
    - specialize (Hwh Hs ltac:(lia)). rewrite (response_want_rest _ r He Hst) in Hwh. injection Hwh. lia.
    - specialize (Hn (5 - Z.of_nat (length (sk_response k)))). unfold response_want in Hn. rewrite (proj2 (Nat.ltb_lt _ _)) in Hn by lia. specialize (Hn eq_refl). lia. }
  exists (drop (length l) r). pose proof (f_equal (take (length l)) Hri) as Ht. pose proof (f_equal (drop (length l)) Hri) as Hd.
  rewrite take_app_length in Ht. rewrite drop_app_length in Hd. rewrite take_app_le in Ht by lia. rewrite drop_app_le in Hd by lia.
  split; [|done]. rewrite Ht at 1. by rewrite take_drop.
Qed.

Lemma read_not_all k (l r2 : bytes) : sk_status k = waiting_for_response -> sk_response k ++ l ++ r2 = rep -> r2 <> [] ->
  (length (sk_response k) <= 5)%nat \/ extra = [] -> whole_rest extra k l ->
  (forall n, response_want (sk_response k) = Some n -> Z.of_nat (length l) <= n) -> (length (sk_response k ++ l) <= 5)%nat \/ extra = [].
Proof.
  intros Hs Hst Hne H5 Hwh Hn. destruct H5 as [H5|]; [|by right]. destruct Hwh as [|Hwh]; [by right|left].
  destruct (decide (length (sk_response k) = 5%nat)) as [He|He].
  - specialize (Hwh Hs ltac:(lia)). rewrite (response_want_rest _ (l ++ r2) He Hst) in Hwh. injection Hwh as Hwh. rewrite length_app in Hwh.
    destruct r2; [done|cbn in Hwh; lia].
  - specialize (Hn (5 - Z.of_nat (length (sk_response k)))). unfold response_want in Hn. rewrite (proj2 (Nat.ltb_lt _ _)) in Hn by lia.
    specialize (Hn eq_refl). rewrite length_app. lia.
Qed.

(** One of the three states that wait for an answer. *)
Lemma sy_read_ok k s l i rand k' : sy_inv (SocksSystem k s (l ++ i)) -> cn_is_registered (sk_base k) = true -> cn_pollout (sk_base k) = false -> l <> [] ->
  read_ok k (read_bytes l) -> whole_rest extra k l -> sk_in_event o k (read_bytes l) rand = Some k' -> sy_at k' s i /\ (sk_status k' <> unplugged -> cn_s (sk_base k') = Some fd).
Proof.
  intros [Hi Hat Hfd] Hr Hp Hl Hrd Hwh E. cbn [sy_k sy_sent sy_in] in *.
  assert (sk_status k <> unplugged) as Hu.
  { intros Hu. apply (si_unplugged _ _ Hi) in Hu as (_ & Hreg & _). unfold cn_is_registered in Hr. destruct (cn_handle (sk_base k)); [|done]. rewrite Hreg in Hr.
    apply bool_decide_eq_true_1 in Hr. set_solver. }
  destruct (si_plugged _ _ Hi Hu) as (Hc & Hpo & Hk). specialize (Hfd Hu). rewrite Hp in Hpo.
  assert ((Z.of_nat (length l) =? 0) = false /\ (Z.of_nat (length l) =? -1) = false) as [Hz1 Hz2].
  { destruct l; [done|]. split; apply Z.eqb_neq; cbn [length]; lia. }
  unfold sk_in_event in E. rewrite bool_decide_eq_false_2 in E by done. cbn [negb mbind option_bind] in E.
  unfold sy_at in Hat. unfold sk_coders_ok, read_ok in *. destruct (sk_status k) eqn:Es; try done.
  - destruct Hat as [-> Hst]. destruct Hk as (Hk & _). unfold proxy_stream in Hst.
    destruct (two_input_prefix 5 method _ (sk_choice k) l i Hst Hk Hl Hrd) as [E1 Hcase]. rewrite E1 in E. cbn [mbind option_bind] in E. rewrite Hz1, Hz2 in E. cbn [orb] in E.
    unfold two_decode in E. destruct Hcase as [(Hready & Hbuf & ->)|[Hready Hlt]]; rewrite Hready in E; cbn [mbind option_bind] in E.
    + rewrite Hbuf in E. cbn [nth] in E. destruct Hm as [H | H]; rewrite H in E |- *; cbn [Z.eqb socks_no_auth_required socks_basic_auth Pos.eqb orb negb] in E.
      * match type of E with sk_send_request _ ?k1 _ = _ => destruct (sy_request_ok k1 (greeting_bytes o) rand k' Hc Hfd E) as (H1 & H2 & _); [|done] end. unfold sent_bytes. by rewrite H.
      * unfold sk_send_auth in E. rewrite (auth_encode_ok o Ho) in E. cbn [mbind option_bind] in E.
        match type of E with sk_will_send ?k1 _ = _ => destruct (sk_will_send_ok k1 sending_basic_auth_request Hc) as (k2 & E2 & _ & _ & Hs2 & c & ->) end.
        rewrite E2 in E. injection E as <-. cbn in Hs2. unfold sy_at. cbn. rewrite H. split; [done|]. congruence.
    + injection E as <-. unfold sy_at. cbn. rewrite Es. split; [|done]. split; [done|]. by rewrite <- app_assoc.
  - destruct Hat as (Hb & -> & Hst). destruct Hk as (Hk & _).
    destruct (two_input_prefix 1 0 _ (sk_auth_response k) l i Hst Hk Hl Hrd) as [E1 Hcase]. rewrite E1 in E. cbn [mbind option_bind] in E. rewrite Hz1, Hz2 in E. cbn [orb] in E.
    unfold two_decode in E. destruct Hcase as [(Hready & Hbuf & ->)|[Hready Hlt]]; rewrite Hready in E; cbn [mbind option_bind] in E.
    + rewrite Hbuf in E. cbn [nth Z.eqb negb] in E. match type of E with sk_send_request _ ?k1 _ = _ => destruct (sy_request_ok k1 (greeting_bytes o ++ (if method =? socks_basic_auth then auth_bytes o else [])) rand k' Hc Hfd E) as (H1 & H2 & _); [|done] end.
      unfold sent_bytes. by rewrite <- app_assoc.
    + injection E as <-. unfold sy_at. cbn. rewrite Es. split; [|done]. split; [done|]. split; [done|]. by rewrite <- app_assoc.
  - destruct Hat as (-> & r & Hri & Hst & Hne & H5). destruct Hrd as [Hn Hcap].
    destruct (read_within k l i r Es Hst Hne H5 Hri Hwh Hn) as (r2 & -> & ->).
    rewrite (response_input_prefix rep _ l r2 Hrep Hst Hl Hn Hcap) in E. cbn [mbind option_bind] in E. rewrite Hz1, Hz2 in E. cbn [orb] in E.
    pose proof Hst as Hst2. rewrite app_assoc in Hst2. unfold response_decode in E. rewrite (grants_ready rep (sk_response k ++ l) r2 Hrep Hst2) in E. cbn [mbind option_bind] in E.
    destruct (decide (r2 = [])) as [->|Hne2].
    + rewrite bool_decide_eq_true_2 in E by done. cbn [mbind option_bind] in E. rewrite app_nil_r in Hst2. rewrite Hst2 in E. destruct Hrep as (_ & H1 & _). rewrite H1 in E. cbn [Z.eqb negb] in E.
      unfold sk_connected in E. cbn [sk_base sk_set_response] in E. rewrite Hfd in E. cbn [mbind option_bind] in E.
      destruct (rm_handle_connecting _ (proj1 Hc)) as (c2 & E2 & _ & _ & _ & _ & _ & _ & Ha). rewrite E2 in E. cbn [mbind option_bind] in E. injection E as <-.
      unfold sy_at. cbn. split; [|done]. split; [done|]. split; [done|]. rewrite Ha. set_solver.
    + rewrite bool_decide_eq_false_2 in E by done. injection E as <-. unfold sy_at. cbn. rewrite Es. split; [|done]. split; [done|]. exists r2. split_and!; try done.
      by apply (read_not_all k l r2).
Qed.

Lemma app_length_le (a b t : bytes) : a ++ b = t -> (length a <= length t)%nat /\ (length b <= length t)%nat.
Proof. intros <-. rewrite length_app. lia. Qed.

Lemma sy_at_lengths k s i : sk_inv o k -> sy_at k s i ->
  (length s <= length (sent_bytes o method h p))%nat /\ (length extra <= length i <= length (proxy_stream method rep extra))%nat /\
  (sk_status k = waiting_for_proxy_connection -> s = [] /\ i = proxy_stream method rep extra).
Proof.
  assert (length (proxy_stream method rep extra) = length ([5; method] ++ (if method =? socks_basic_auth then [1; 0] else []) ++ rep ++ extra)) as Hst by done.
  assert (length (sent_bytes o method h p) = length (greeting_bytes o ++ (if method =? socks_basic_auth then auth_bytes o else []) ++ request_bytes o h p)) as Hse by done.
  rewrite !length_app in Hst, Hse. rewrite ?(length_app rep extra) in Hst. unfold sy_at. intros Hi Hat. split; [|split; [|by intros Hw; rewrite Hw in Hat]].
  - destruct (sk_status k).
    + by destruct Hat as (-> & _).
    + destruct Hat as (-> & _). cbn. lia.
    + destruct Hat as [Hat _]. apply app_length_le in Hat. lia.
    + destruct Hat as (-> & _). lia.
    + destruct Hat as (_ & Hat & _). apply app_length_le in Hat. rewrite length_app in Hat. lia.
    + destruct Hat as (_ & -> & _). rewrite length_app. lia.
    + destruct Hat as [Hat _]. apply app_length_le in Hat. lia.
    + by destruct Hat as (-> & _).
  - pose proof (grants_length rep Hrep) as H7. pose proof (fun Hu => proj2 (proj2 (si_plugged _ _ Hi Hu))) as Hk. unfold sk_coders_ok in Hk.
    destruct (sk_status k) eqn:Es; try specialize (Hk ltac:(done)).
    + destruct Hat as (_ & -> & _). unfold proxy_stream. rewrite !length_app. lia.
    + destruct Hat as (_ & ->). lia.
    + destruct Hat as (_ & ->). lia.
    + destruct Hat as (_ & Hat). apply (f_equal length) in Hat. rewrite length_app in Hat. unfold proxy_stream in Hat |- *. destruct Hk as (Hk & _). rewrite !length_app in Hat |- *. cbn [length] in *. lia.
    + destruct Hat as (Hb & _ & ->). rewrite Hb. unfold proxy_stream. rewrite Z.eqb_refl, !length_app. lia.
    + destruct Hat as (Hb & _ & Hat). apply (f_equal length) in Hat. rewrite !length_app in Hat. destruct Hk as (Hk & _). rewrite Hb. unfold proxy_stream. rewrite Z.eqb_refl, !length_app. cbn [length] in *. lia.
    + destruct Hat as (_ & ->). rewrite length_app. lia.
    + destruct Hat as (_ & r & -> & Hat & _). apply (f_equal length) in Hat. rewrite !length_app in *. lia.
Qed.

(** What is done: the step to the greeting, what is sent, what is read. *)
Definition sy_done (y : socks_system) : nat :=
  ((if decide (sk_status (sy_k y) = waiting_for_proxy_connection) then 0 else 1) + length (sy_sent y) + (length (proxy_stream method rep extra) - length (sy_in y)))%nat.

Lemma sy_registered k : sk_inv o k -> sk_status k <> unplugged -> cn_is_registered (sk_base k) = true.
Proof.
  intros Hi Hu. destruct (si_plugged _ _ Hi Hu) as (((_ & (x & Hx & Hr) & _) & _) & _). unfold cn_is_registered. rewrite Hx, Hr. apply bool_decide_eq_true_2. set_solver.
Qed.

Lemma sy_step_inv y y' : sy_inv y -> sy_step o extra y y' -> sy_inv y' /\ (sy_done y < sy_done y')%nat.
Proof.
  intros Hy Hst. destruct Hst as [k k' s i rc rand Hw E|k k' s i n rand Hw Hp Hn E|k k' s l i rand Hr Hp Hl Hrd Hwh E].
  - destruct Hy as [Hi Hat Hfd]. cbn [sy_k sy_sent sy_in] in *. assert (sk_status k <> unplugged) as Hu by congruence.
    pose proof (si_plugged _ _ Hi Hu) as (_ & Hpo & _). rewrite Hw in Hpo.
    destruct (sk_out_event_ok o Ho k (so_error None) tuned rc rand Hi (sy_registered k Hi Hu) Hpo (proxy_answer_connected k)) as (k2 & E2 & Hi2). rewrite E in E2. injection E2 as <-.
    unfold sk_out_event in E. rewrite Hw in E. cbn [check_proxy_connection so_err tune_socket negb mbind option_bind] in E. rewrite greeting_encode_ok in E. cbn [mbind option_bind] in E. injection E as <-.
    unfold sy_at in Hat. rewrite Hw in Hat. destruct Hat as [-> ->]. split.
    + constructor; [exact Hi2|by split|]. cbn. intros _. by apply Hfd.
    + unfold sy_done. cbn [sy_k sy_sent sy_in sk_status sk_set_status]. rewrite Hw. rewrite decide_True, decide_False by done. lia.
  - pose proof Hy as [Hi Hat Hfd]. cbn [sy_k sy_sent sy_in] in *.
    assert (sk_status k <> unplugged) as Hu by (intros Hu; unfold sk_pending in Hn; rewrite Hu in Hn; cbn in Hn; lia).
    destruct (sk_out_event_ok o Ho k (so_error None) tuned (Z.of_nat n) rand Hi (sy_registered k Hi Hu) Hp (proxy_answer_connected k)) as (k2 & E2 & Hi2). rewrite E in E2. injection E2 as <-.
    destruct (sy_write_ok k s i n rand k' Hy Hw Hn E) as (Hat' & Hfd' & _). split; [by constructor|].
    pose proof (sy_at_lengths _ _ _ Hi2 Hat') as (_ & _ & Hwp). unfold sy_done. cbn [sy_k sy_sent sy_in]. rewrite (decide_False (P := sk_status k = _)) by done.
    rewrite decide_False; [rewrite length_app, length_take; lia|]. intros Hw'. destruct (Hwp Hw') as [Hnil _]. apply (f_equal length) in Hnil. rewrite length_app, length_take in Hnil. cbn in Hnil. lia.
  - pose proof Hy as [Hi Hat Hfd]. cbn [sy_k sy_sent sy_in] in *.
    destruct (sk_in_event_ok o Ho k (read_bytes l) rand Hi Hr Hrd) as (k2 & E2 & Hi2). rewrite E in E2. injection E2 as <-.
    destruct (sy_read_ok k s l i rand k' Hy Hr Hp Hl Hrd Hwh E) as [Hat' Hfd']. split; [by constructor|].
    pose proof (sy_at_lengths _ _ _ Hi Hat) as (_ & Hlen & _). pose proof (sy_at_lengths _ _ _ Hi2 Hat') as (_ & _ & Hwp). unfold sy_done. cbn [sy_k sy_sent sy_in].
    rewrite length_app in *. assert (0 < length l)%nat by (destruct l; [done|cbn; lia]).
    rewrite (decide_False (P := sk_status k' = _)); [destruct (decide _); lia|]. intros Hw'. destruct (Hwp Hw') as [_ ->]. lia.
Qed.

(** As long as there is no engine, something can happen. *)
Lemma sy_progress y : sy_inv y -> sk_status (sy_k y) <> unplugged -> exists y', sy_step o extra y y'.
Proof.
  destruct y as [k s i]. intros [Hi Hat Hfd] Hu. cbn [sy_k sy_sent sy_in] in *. destruct (si_plugged _ _ Hi Hu) as (Hc & Hpo & Hk). pose proof (sy_registered k Hi Hu) as Hr.
  assert (sk_polls_out (sk_status k) = true -> sk_status k <> waiting_for_proxy_connection -> se_pending match sk_status k with sending_greeting => sk_greeting k | sending_basic_auth_request => sk_auth_request k | _ => sk_request k end = sk_pending k ->
    sk_pending k <> [] -> exists y', sy_step o extra (SocksSystem k s i) y') as Hwrite.
  { intros Hpt Hw _ Hne. rewrite Hpt in Hpo. destruct (sk_out_event_ok o Ho k (so_error None) tuned (Z.of_nat (length (sk_pending k))) 0 Hi Hr Hpo (proxy_answer_connected k)) as (k' & E & _).
    eexists. eapply (sy_write o extra k k' s i (length (sk_pending k)) 0); [done|done| |done]. destruct (sk_pending k); [done|cbn; lia]. }
  assert (forall l i', i = l ++ i' -> l <> [] -> sk_polls_out (sk_status k) = false -> read_ok k (read_bytes l) -> whole_rest extra k l ->
    exists y', sy_step o extra (SocksSystem k s i) y') as Hread.
  { intros l i' -> Hl Hpf Hrd Hwh. rewrite Hpf in Hpo. destruct (sk_in_event_ok o Ho k (read_bytes l) 0 Hi Hr Hrd) as (k' & E & _).
    eexists. by eapply (sy_read o extra k k' s l i' 0). }
  assert (sk_status k <> waiting_for_response -> forall l, whole_rest extra k l) as Hany by (intros Hn l; by right).
  unfold sy_at, sk_coders_ok, read_ok, sk_pending in *. destruct (sk_status k) eqn:Es; try done.
  - destruct (sk_out_event_ok o Ho k (so_error None) tuned 0 0 Hi Hr Hpo (proxy_answer_connected k)) as (k' & E & _). eexists. by eapply (sy_connected o extra k k' s i 0 0).
  - apply Hwrite; try done. apply se_has_pending_iff, Hk.
  - destruct Hat as [_ Hst]. destruct Hk as (Hk & _). destruct i as [|x i]; [|apply (Hread [x] i); [done|done|done|cbn; lia|by apply Hany]].
    apply (f_equal length) in Hst. unfold proxy_stream in Hst. rewrite !length_app in Hst. cbn in Hst. lia.
  - apply Hwrite; try done. apply se_has_pending_iff, Hk.
  - destruct Hat as (_ & _ & Hst). destruct Hk as (Hk & _). destruct i as [|x i]; [|apply (Hread [x] i); [done|done|done|cbn; lia|by apply Hany]].
    apply (f_equal length) in Hst. rewrite !length_app in Hst. cbn in Hst. lia.
  - apply Hwrite; try done. apply se_has_pending_iff, Hk.
  - destruct Hat as (_ & r & -> & Hst & Hne & H5). pose proof (grants_length rep Hrep) as H7.
    assert (length (sk_response k) + length r = length rep)%nat as Hlen by (rewrite <- Hst, length_app; done).
    assert (length rep <= 262)%nat as Hcap by (destruct Hrep as (_ & _ & _ & H3); lia).
    destruct (decide (length (sk_response k) = 5%nat)) as [He|He].
    + pose proof (response_want_rest _ r He Hst) as Hw. apply (Hread r extra); [done..| |by right].
      split; [intros n; rewrite Hw; intros [= <-]; lia|]. unfold response_capacity. lia.
    + destruct r as [|x r]; [done|]. apply (Hread [x] (r ++ extra)); [done..| |].
      * split; [|unfold response_capacity; cbn [length] in *; lia]. intros n En. by apply (response_want_pos _ (x :: r)) in En.
      * destruct H5 as [H5|]; [right; intros _; lia|by left].
Qed.
End live.

(** C20: Through a proxy that accepts the method, and the credentials if it
    asks for them, and grants the request, with an address or a name of less
    than 128 characters, a connection is made: the connecter sends its
    greeting, its credentials when they are asked for and its request and
    nothing else, however the writes are cut; it reads the answers to the
    end of the reply, and leaves the bytes of the peer that may follow to
    the engine; and after a bounded number of events, from which it never
    gets stuck, an engine has the connection.  The reads may be cut in any
    way when nothing follows the reply; when something does, those of the
    first five bytes of the reply may be, and the read of the rest gets all
    it asks for ([response_overread] shows that it must). *)
Theorem socks_connects (o : socks_options) (method : Z) (rep extra h : bytes) (p fd : Z) (k : socks_connecter) (n : nat) (y : socks_system) :
  so_ok o -> method = socks_no_auth_required \/ method = socks_basic_auth -> parse_address (so_address o) = Some (h, p) -> grants rep ->
  sk_start_connecting o (socks_new o) (or_in_progress fd) 0 = Some k ->
  nsteps (sy_step o extra) n (SocksSystem k [] (proxy_stream method rep extra)) y ->
  (n <= 1 + length (sent_bytes o method h p) + length (proxy_stream method rep []))%nat /\
  ((exists y', sy_step o extra y y') \/
   sy_sent y = sent_bytes o method h p /\ sy_in y = extra /\ ca_attach fd ∈ cn_acts (sk_base (sy_k y)) /\ (engines (cn_acts (sk_base (sy_k y))) <= 1)%nat).
Proof.
  intros Ho Hm Hh Hrep E Hn. set (y0 := SocksSystem k [] (proxy_stream method rep extra)) in *.
  assert (sy_inv o method h p rep extra fd y0) as H0.
  { destruct (sk_start_ok o Ho (socks_new o) (or_in_progress fd) 0) as (k2 & E2 & Hi); try done. rewrite E in E2. injection E2 as <-.
    vm_compute in E. injection E as <-. by constructor. }
  assert (sy_inv o method h p rep extra fd y /\ (n + sy_done method rep extra y0 <= sy_done method rep extra y)%nat) as [Hy Hd].
  { clearbody y0. clear E. induction Hn as [y0|n y0 y1 y2 Hst Hn IH]; [split; [done|lia]|].
    destruct (sy_step_inv o method h p rep extra fd Ho Hm Hh Hrep y0 y1 H0 Hst) as [H1 Hlt]. destruct (IH H1) as [H2 Hle]. split; [done|lia]. }
  split.
  - destruct Hy as [Hi Hat _]. apply (sy_at_lengths o method h p rep extra fd Hrep) in Hat as (Hl1 & Hl2 & _); [|done]. unfold sy_done at 2 in Hd.
    assert (length (proxy_stream method rep extra) = length (proxy_stream method rep []) + length extra)%nat as Hx
      by (unfold proxy_stream; rewrite !length_app; cbn [length]; lia).
    destruct (decide _) in Hd; lia.
  - destruct (decide (sk_status (sy_k y) = unplugged)) as [Hu|Hu]; [right|left; by apply (sy_progress o method h p rep extra fd)].
    destruct Hy as [Hi Hat _]. unfold sy_at in Hat. rewrite Hu in Hat. destruct Hat as (H1 & H2 & H3). split_and!; try done. by apply (si_unplugged _ _ Hi Hu).
Qed.

(** A host name and a port through a proxy that wants credentials. *)
Definition example_socks : socks_options :=
  SocksOptions example_cn_options socks_basic_auth [117] [112; 119] [104; 58; 56; 48] (fun _ => other_host).

Definition example_reply : bytes := [5; 0; 0; 1; 10; 0; 0; 1; 0; 80].

Lemma example_socks_ok : so_ok example_socks.
Proof.
  constructor; [vm_compute; discriminate|vm_compute; lia|vm_compute; lia| |by intros h].
  intros h p E. vm_compute in E. injection E as <- _. simpl. lia.
Qed.

(** The reply and the first bytes of the peer come in one piece. *)
Definition example_stream : bytes := proxy_stream socks_basic_auth example_reply [255; 0; 0].

Lemma socks_connects_witness : exists k y,
  sk_start_connecting example_socks (socks_new example_socks) (or_in_progress 5) 0 = Some k /\
  nsteps (sy_step example_socks [255; 0; 0]) 8 (SocksSystem k [] example_stream) y /\
  (8 <= 1 + length (sent_bytes example_socks socks_basic_auth [104]%Z 80%Z) + length (proxy_stream socks_basic_auth example_reply []))%nat /\
  sy_sent y = [5; 1; 2; 1; 1; 117; 2; 112; 119; 5; 1; 0; 3; 1; 104; 0; 80] /\ sy_in y = [255; 0; 0].
Proof.
  destruct (sk_start_connecting example_socks (socks_new example_socks) (or_in_progress 5) 0) as [k|] eqn:E; [|vm_compute in E; discriminate].
  assert (exists y, nsteps (sy_step example_socks [255; 0; 0]) 8 (SocksSystem k [] example_stream) y /\
    sy_sent y = [5; 1; 2; 1; 1; 117; 2; 112; 119; 5; 1; 0; 3; 1; 104; 0; 80] /\ sy_in y = [255; 0; 0]) as (y & Hn & Hs & Hi).
  { vm_compute in E. injection E as <-. unfold example_stream, proxy_stream. cbn [Z.eqb socks_basic_auth Pos.eqb app example_reply].
    assert (forall y0 y1 y2 n, sy_step example_socks [255; 0; 0] y0 y1 -> nsteps (sy_step example_socks [255; 0; 0]) n y1 y2 ->
      nsteps (sy_step example_socks [255; 0; 0]) (S n) y0 y2) as Hnext by (intros; by eapply nsteps_l).
    eexists. split.
    - eapply Hnext; [eapply (sy_connected _ _ _ _ _ _ 0 0); [reflexivity|vm_compute; reflexivity]|].
      do 1 (eapply Hnext; [eapply (sy_write _ _ _ _ _ _ 3 0); [discriminate|reflexivity|vm_compute; lia|vm_compute; reflexivity]|]).
      eapply Hnext; [eapply (sy_read _ _ _ _ _ [5; 2] _ 0); [reflexivity|reflexivity|discriminate|vm_compute; lia|right; discriminate|vm_compute; reflexivity]|].
      eapply Hnext; [eapply (sy_write _ _ _ _ _ _ 6 0); [discriminate|reflexivity|vm_compute; lia|vm_compute; reflexivity]|].
      eapply Hnext; [eapply (sy_read _ _ _ _ _ [1; 0] _ 0); [reflexivity|reflexivity|discriminate|vm_compute; lia|right; discriminate|vm_compute; reflexivity]|].
      eapply Hnext; [eapply (sy_write _ _ _ _ _ _ 8 0); [discriminate|reflexivity|vm_compute; lia|vm_compute; reflexivity]|].
      eapply Hnext; [eapply (sy_read _ _ _ _ _ [5; 0; 0; 1; 10] _ 0); [reflexivity|reflexivity|discriminate| |right; intros _ H; vm_compute in H; lia|vm_compute; reflexivity]|].
      { split; [intros n Hn; vm_compute in Hn; injection Hn as <-; vm_compute; congruence|vm_compute; lia]. }
      eapply Hnext; [eapply (sy_read _ _ _ _ _ [0; 0; 1; 0; 80] _ 0); [reflexivity|reflexivity|discriminate| |right; reflexivity|vm_compute; reflexivity]|].
      { split; [intros n Hn; vm_compute in Hn; injection Hn as <-; vm_compute; congruence|vm_compute; lia]. }
      apply nsteps_O.
    - split; reflexivity. }
  destruct (socks_connects example_socks socks_basic_auth example_reply [255; 0; 0] [104] 80 5 k 8 y example_socks_ok (or_intror eq_refl) eq_refl
    ltac:(split_and!; try reflexivity; left; by split) E Hn) as [Hb _]. by exists k, y.
Defined.
