(* ===== verification/Udp.v ===== *)
(** * Datagrams (src/src/udp_engine.cpp, src/src/dgram.cpp)

    The UDP engine sends the messages of a RADIO as a group and a body in
    one datagram, gives a DISH the messages of such datagrams, and for a
    DGRAM socket carries the address of the peer in a frame of its own.
    The answers of the operating system, inet_addr and inet_ntoa are
    arguments. *)

From S2P Require Import Prelude Text Options Array Frame Codec Fq Lb Dist Duplex Xpub Router Session Sockets Radio.

Definition MAX_UDP_MSG : Z := 8192.

(** ** The session of an engine *)

(** What the engine asks of its session, the message after a push included. *)
Class UdpSession (S : Type) := {
  us_push : S -> frame -> option (S * frame * push_rc);
  us_pull : S -> option (S * option frame);
  us_reset : S -> S;
  us_flush : S -> option S;
}.

Section sessions.
Context {W : Type} {IP : InPipes W} {OP : OutPipes W} {SP : SessionPipes W}.

Definition flush_first {A} (w : W) (s : session) (a : A) : option (W * session * A) := let* w := session_flush w s in Some (w, s, a).

#[export] Instance dish_udp_session : UdpSession (W * session * dish_state) := {
  us_push '(w, s, st) f := let* (w, st, f, rc) := dish_push_msg w s st f in Some ((w, s, st), f, rc);
  us_pull '(w, s, st) := let* (w, s, r) := dish_pull_msg w s in Some ((w, s, st), r);
  us_reset '(w, s, st) := (w, s, ds_group);
  us_flush '(w, s, st) := flush_first w s st;
}.

#[export] Instance radio_udp_session : UdpSession (W * session * radio_state) := {
  us_push '(w, s, st) f := let* (w, rc) := radio_push_msg w s f in Some ((w, s, st), match rc with PushOk => pushed f | _ => f end, rc);
  us_pull '(w, s, st) := let* (w, s, st, r) := radio_pull_msg w s st in Some ((w, s, st), r);
  us_reset '(w, s, st) := (w, s, rs_group);
  us_flush '(w, s, st) := flush_first w s st;
}.

(** The session of a DGRAM socket is a plain one. *)
#[export] Instance dgram_udp_session : UdpSession (W * session * unit) := {
  us_push '(w, s, u) f := let* (w, rc) := push_code (session_push_msg w s f) in Some ((w, s, u), match rc with PushOk => pushed f | _ => f end, rc);
  us_pull '(w, s, u) := let* (w, s, r) := session_pull_msg w s in Some ((w, s, u), r);
  us_reset st := st;
  us_flush '(w, s, u) := flush_first w s u;
}.
End sessions.

(** ** Addresses *)

(** inet_addr, [None] for INADDR_NONE, and inet_ntoa. *)
Record inet := Inet { inet_addr : bytes -> option Z; inet_ntoa : Z -> bytes }.

(** Where a datagram goes: to the address of the endpoint, or to one of a message. *)
Inductive udp_dest := target_addr | raw_addr (addr port : Z).

(** A message of [init_size] and its contents. *)
Definition udp_frame (can_alloc : Z -> bool) (size flags : Z) (body : bytes) : option frame :=
  let* ty := msg_init_size can_alloc (u64 size) in Some (Frame ty flags body).

(** [sockaddr_to_msg]: the address, a colon, the port, and a zero. *)
Definition sockaddr_to_msg (can_alloc : Z -> bool) (i : inet) (addr port : Z) : option frame :=
  let body := inet_ntoa i addr ++ [colon] ++ print_port port ++ [0] in
  udp_frame can_alloc (Z.of_nat (length body)) flag_more body.

(** [resolve_raw_address]; [None] is EINVAL. *)
Definition resolve_raw_address (i : inet) (name : bytes) : option udp_dest :=
  let* delimiter := rfind colon name in
  let addr_str := take delimiter name in
  let port_str := drop (S delimiter) name in
  let port := u16 (atoi (c_string port_str)) in
  if port =? 0 then None
  else let* addr := inet_addr i (c_string addr_str) in Some (raw_addr addr port).

(** ** The engine *)

Record udp_engine := UdpEngine {
  ue_in_buffer : bytes;                        (** [_in_buffer], MAX_UDP_MSG bytes *)
  ue_raw : bool;                               (** [options.raw_socket] *)
  ue_send_enabled : bool; ue_recv_enabled : bool;
  ue_pollin : bool; ue_pollout : bool;
  ue_sent : list (udp_dest * bytes);           (** what sendto took *)
  ue_failed : bool;                            (** [error (connection_error)]: the session is told and the engine is gone *)
}.

Definition ue_set_in_buffer (e : udp_engine) (b : bytes) : udp_engine :=
  UdpEngine b (ue_raw e) (ue_send_enabled e) (ue_recv_enabled e) (ue_pollin e) (ue_pollout e) (ue_sent e) (ue_failed e).
Definition ue_set_pollin (e : udp_engine) (b : bool) : udp_engine :=
  UdpEngine (ue_in_buffer e) (ue_raw e) (ue_send_enabled e) (ue_recv_enabled e) b (ue_pollout e) (ue_sent e) (ue_failed e).
Definition ue_set_pollout (e : udp_engine) (b : bool) : udp_engine :=
  UdpEngine (ue_in_buffer e) (ue_raw e) (ue_send_enabled e) (ue_recv_enabled e) (ue_pollin e) b (ue_sent e) (ue_failed e).
Definition ue_log (e : udp_engine) (d : udp_dest * bytes) : udp_engine :=
  UdpEngine (ue_in_buffer e) (ue_raw e) (ue_send_enabled e) (ue_recv_enabled e) (ue_pollin e) (ue_pollout e) (ue_sent e ++ [d]) (ue_failed e).
Definition ue_error (e : udp_engine) : udp_engine :=
  UdpEngine (ue_in_buffer e) (ue_raw e) (ue_send_enabled e) (ue_recv_enabled e) (ue_pollin e) (ue_pollout e) (ue_sent e) true.

Section engine.
Context {S : Type} {US : UdpSession S} (can_alloc : Z -> bool) (i : inet).
Implicit Types (e : udp_engine) (s : S).

(** sendto; the test for EWOULDBLOCK compares its result and not errno, so
    every failure is an error. *)
Definition udp_send e (dest : udp_dest) (data : bytes) (sent : bool) : udp_engine :=
  if sent then ue_log e (dest, data) else ue_error e.

(** What goes into [_out_buffer], which must hold it. *)
Definition udp_out_buffer e (group body : bytes) : option bytes :=
  let l := if ue_raw e then body else u8 (Z.of_nat (length group)) :: group ++ body in
  zmq_assert (Z.of_nat (length l) <=? MAX_UDP_MSG) ;; Some l.

Definition udp_out_event e s (sent : bool) : option (udp_engine * S) :=
  let* (s, g) := us_pull s in
  match g with
  | None => Some (ue_set_pollout e false, s)
  | Some group_msg =>
      let* (s, b) := us_pull s in
      let* body_msg := b in     (** errno_assert (rc == 0) *)
      match (if ue_raw e then resolve_raw_address i (fr_body group_msg) else Some target_addr) with
      | None => Some (e, s)
      | Some dest =>
          let* l := udp_out_buffer e (fr_body group_msg) (fr_body body_msg) in
          Some (udp_send e dest l sent, s)
      end
  end.

(** [while (_session->pull_msg (&msg) == 0)] *)
Fixpoint udp_drop_loop (fuel : nat) s : option S :=
  let* (s, r) := us_pull s in
  match r with
  | None => Some s
  | Some _ => match fuel with O => None | Datatypes.S fuel' => udp_drop_loop fuel' s end
  end.

Definition udp_restart_output (fuel : nat) e s (sent : bool) : option (udp_engine * S) :=
  if negb (ue_send_enabled e) then let* s := udp_drop_loop fuel s in Some (e, s)
  else udp_out_event (ue_set_pollout e true) s sent.

(** recvfrom: the datagram, cut to the buffer, and where it came from. *)
Definition udp_received e (data : bytes) : bytes :=
  let data := take (Z.to_nat MAX_UDP_MSG) data in data ++ drop (length data) (ue_in_buffer e).

(** The first message (the bytes of [_in_buffer] are signed), and where the body is: its offset and its size;
    the inner [None] for a datagram that is ignored. *)
Definition udp_parse e (nbytes : Z) (addr port : Z) : option (option (frame * Z * Z)) :=
  if ue_raw e then
    let* msg := sockaddr_to_msg can_alloc i addr port in Some (Some (msg, 0, nbytes))
  else
    let group_size := s8 (nth 0 (ue_in_buffer e) 0) in
    let* msg := udp_frame can_alloc group_size flag_more (take (Z.to_nat group_size) (drop 1 (ue_in_buffer e))) in
    if nbytes - 1 <? group_size then Some None
    else Some (Some (msg, 1 + group_size, nbytes - 1 - group_size)).

(** The two pushes. *)
Definition udp_push e s (msg : frame) (offset size : Z) : option (udp_engine * S) :=
  let* (s, _, rc) := us_push s msg in
  match rc with
  | PushFault => None                          (** errno_assert *)
  | PushAgain => Some (ue_set_pollin e false, s)
  | PushOk =>
      let* body := udp_frame can_alloc size 0 (take (Z.to_nat size) (drop (Z.to_nat offset) (ue_in_buffer e))) in
      let* (s, _, rc) := us_push s body in
      match rc with
      | PushOk => let* s := us_flush s in Some (e, s)
      | _ => Some (ue_set_pollin e false, us_reset s)
      end
  end.

(** [r] is [None] when recvfrom fails; again every failure is an error. *)
Definition udp_in_event e s (r : option (bytes * Z * Z)) : option (udp_engine * S) :=
  match r with
  | None => Some (ue_error e, s)
  | Some (data, addr, port) =>
      let nbytes := Z.of_nat (length (take (Z.to_nat MAX_UDP_MSG) data)) in
      let e := ue_set_in_buffer e (udp_received e data) in
      let* parsed := udp_parse e nbytes addr port in
      match parsed with
      | None => Some (e, s)
      | Some (msg, offset, size) => udp_push e s msg offset size
      end
  end.

Definition udp_restart_input e s (r : option (bytes * Z * Z)) : option (udp_engine * S) :=
  if ue_recv_enabled e then udp_in_event (ue_set_pollin e true) s r else Some (e, s).
End engine.

(** ** DGRAM *)

Record dgram := Dgram { dg_pipe : option Z; dg_last_in : option Z; dg_more_out : bool }.

Definition dgram_new : dgram := Dgram None None false.
Definition dgram_destroy (s : dgram) : option unit := zmq_assert (bool_decide (dg_pipe s = None)) ;; Some tt.

(** 0, EAGAIN, EINVAL, or -1 with errno as it was. *)
Inductive dgram_rc := DgOk | DgAgain | DgInval | DgDropped.

Section dgram.
Context {W : Type} {IP : InPipes W} {OP : OutPipes W} {DX : Duplex W} {DL : DuplexLaws W} {PP : PubPipes W} {RP : RouterPipes W}.
Implicit Types (w : W) (pipe : Z).

Definition dgram_xattach_pipe w (s : dgram) pipe : W * dgram :=
  match dg_pipe s with
  | None => (w, Dgram (Some pipe) (dg_last_in s) (dg_more_out s))
  | Some _ => (rp_terminate w pipe false, s)
  end.

Definition dgram_xpipe_terminated (s : dgram) pipe : dgram :=
  if bool_decide (dg_pipe s = Some pipe) then
    Dgram None (if bool_decide (dg_last_in s = dg_pipe s) then None else dg_last_in s) (dg_more_out s)
  else s.

(** The message is [None] once it is closed; to close it again is an assertion that fails. *)
Definition dgram_xsend w (s : dgram) (msg : option frame) : option (W * dgram * option frame * dgram_rc) :=
  let* f := msg in
  match dg_pipe s with
  | None => Some (w, s, None, DgDropped)
  | Some pipe =>
      if negb (bool_decide (fr_more f = negb (dg_more_out s))) then Some (w, s, Some f, DgInval)
      else
        let* (w, ok) := op_write w pipe f in
        if negb ok then Some (w, s, Some f, DgAgain)
        else
          let* w := if negb (fr_more f) then op_flush w pipe else Some w in
          Some (w, Dgram (dg_pipe s) (dg_last_in s) (negb (dg_more_out s)), Some fr_empty, DgOk)
  end.

Definition dgram_xrecv w (s : dgram) : option (W * dgram * option frame) :=
  match dg_pipe s with
  | None => Some (w, s, None)
  | Some pipe =>
      let* (w, r) := ip_read w pipe in
      match r with
      | None => Some (w, s, None)
      | Some msg => Some (w, Dgram (dg_pipe s) (dg_pipe s) (dg_more_out s), Some msg)
      end
  end.

Definition dgram_xhas_in w (s : dgram) : option (W * bool) :=
  match dg_pipe s with None => Some (w, false) | Some pipe => ip_check_read w pipe end.

Definition dgram_xhas_out w (s : dgram) : option (W * bool) :=
  match dg_pipe s with None => Some (w, false) | Some pipe => op_check_write w pipe end.
End dgram.
