(* ===== verification/UdpProps.v ===== *)
(** * What datagrams carry (src/src/udp_engine.cpp, src/src/dgram.cpp)

    A message of a RADIO comes out of a DISH at the other end of a
    datagram, and what a DGRAM socket sends to the address it received
    from goes there. *)

From S2P Require Import Prelude Text Options Array Frame Codec Fq Lb Dist Duplex Xpub Router Session SessionProps Sockets Radio RadioProps Udp.

(** What malloc and the address functions of the system do: small messages
    fit in memory, half of the address space does not; an address that is
    printed is read back. *)
Record udp_system (can_alloc : Z -> bool) (i : inet) : Prop := {
  us_alloc : forall n, 0 <= n <= MAX_UDP_MSG -> can_alloc n = true;
  us_no_alloc : forall n, 9223372036854775808 <= n -> can_alloc n = false;
  us_inet : forall a, 0 <= a < 4294967295 -> inet_addr i (inet_ntoa i a) = Some a;
  us_colon : forall a, 0 <= a < 4294967295 -> colon ∉ inet_ntoa i a;
  us_zero : forall a, 0 <= a < 4294967295 -> 0 ∉ inet_ntoa i a;
  us_length : forall a, 0 <= a < 4294967295 -> (length (inet_ntoa i a) <= 15)%nat;
}.

Section system.
Context (can_alloc : Z -> bool) (i : inet).
Hypothesis Hsys : udp_system can_alloc i.

Lemma udp_frame_ok size flags body : 0 <= size <= MAX_UDP_MSG -> exists ty, udp_frame can_alloc size flags body = Some (Frame ty flags body).
Proof.
  intros H. unfold udp_frame, msg_init_size, MAX_UDP_MSG, u64 in *. rewrite Z.mod_small by lia. destruct (size <=? max_vsm_size); [by eexists|].
  rewrite (us_alloc _ _ Hsys) by (unfold MAX_UDP_MSG; lia). unfold sizeof_content. rewrite Z.mod_small by lia.
  rewrite (proj2 (Z.ltb_lt size (40 + size))) by lia. by eexists.
Qed.

(** The datagram is at the front of the buffer. *)
Lemma udp_received_front e data : Z.of_nat (length data) <= MAX_UDP_MSG ->
  take (Z.to_nat MAX_UDP_MSG) data = data /\ exists rest, udp_received e data = data ++ rest.
Proof.
  intros H. assert (take (Z.to_nat MAX_UDP_MSG) data = data) as E by (apply take_ge; lia).
  split; [done|]. unfold udp_received. rewrite E. by eexists.
Qed.

(** ** Groups *)

Lemma udp_parse_group e (g b rest : bytes) addr port : ue_raw e = false -> ue_in_buffer e = (u8 (Z.of_nat (length g)) :: g ++ b) ++ rest -> (length g < 128)%nat ->
  exists ty, udp_parse can_alloc i e (Z.of_nat (length (u8 (Z.of_nat (length g)) :: g ++ b))) addr port =
    Some (Some (Frame ty flag_more g, Z.of_nat (S (length g)), Z.of_nat (length b))).
Proof.
  intros Hraw Hbuf Hg. unfold udp_parse. rewrite Hraw, Hbuf. cbn [app nth]. assert (u8 (Z.of_nat (length g)) = Z.of_nat (length g)) as E8 by (unfold u8; apply Z.mod_small; lia).
  rewrite E8. unfold s8. rewrite (proj2 (Z.ltb_lt (Z.of_nat (length g)) 128)) by lia. rewrite Nat2Z.id.
  rewrite skipn_cons, skipn_O, <- app_assoc, take_app_length.
  destruct (udp_frame_ok (Z.of_nat (length g)) flag_more g) as [ty ->]; [unfold MAX_UDP_MSG; lia|]. cbn [mbind option_bind]. exists ty.
  cbn [length]. rewrite length_app. rewrite (proj2 (Z.ltb_ge _ _)) by lia. do 3 f_equal; [|lia]. f_equal. lia.
Qed.

Lemma group_datagram_length (g b : bytes) : length (u8 (Z.of_nat (length g)) :: g ++ b) = (1 + length g + length b)%nat.
Proof. cbn [length]. rewrite length_app. lia. Qed.

End system.

(** C22: A message of a RADIO with a group that can be joined, and no larger
    than a datagram, leaves the UDP engine as one datagram of its group and
    its body; the engine of a DISH that receives it gives its session one
    message of the same group and body and flushes it, or, when the pipe is
    full, stops reading and is ready for the next datagram. *)
Theorem udp_group_message {W} {IP : InPipes W} {OP : OutPipes W} {SP : SessionPipes W} (can_alloc : Z -> bool) (i : inet)
    (w v w1 : W) (s t s1 : session) (m : frame) (e e2 : udp_engine) (addr port : Z) :
  udp_system can_alloc i -> session_pull_msg w s = Some (w1, s1, Some m) -> group_ok (fr_group m) ->
  1 + Z.of_nat (length (fr_group m)) + Z.of_nat (length (fr_body m)) <= MAX_UDP_MSG -> ue_raw e = false -> ue_raw e2 = false ->
  let d := u8 (Z.of_nat (length (fr_group m))) :: fr_group m ++ fr_body m in
  let e2' := ue_set_in_buffer e2 (udp_received e2 d) in
  udp_out_event i e (w, s, rs_group) true = Some (ue_log e (target_addr, d), (w1, s1, rs_group)) /\
  exists f, fr_group f = fr_group m /\ fr_body f = fr_body m /\ fr_more f = false /\ fr_is_command f = false /\
    udp_in_event can_alloc i e2 (v, t, ds_group) (Some (d, addr, port)) =
      (let* (v1, ok) := session_push_msg v t f in
       if (ok : bool) then let* v2 := session_flush v1 t in Some (e2', (v2, t, ds_group))
       else Some (ue_set_pollin e2' false, (v1, t, ds_group))).
Proof.
  intros Hsys E Hg Hlen Hraw Hraw2 d e2'. split.
  - unfold udp_out_event. cbn [us_pull radio_udp_session]. unfold radio_pull_msg. rewrite E. cbn [mbind option_bind]. rewrite Hraw.
    unfold udp_out_buffer. rewrite Hraw. change (fr_body (group_frame (fr_group m))) with (fr_group m). rewrite group_datagram_length.
    rewrite (proj2 (Z.leb_le _ _)) by lia. done.
  - assert (Z.of_nat (length d) <= MAX_UDP_MSG) as Hd by (unfold d; rewrite group_datagram_length; lia).
    destruct (udp_received_front e2 d Hd) as [Et [rest Er]].
    assert (ue_raw e2' = false /\ ue_in_buffer e2' = d ++ rest) as [Hraw' Hbuf] by (split; [done|exact Er]).
    destruct Hg as [Hg0 Hg1]. destruct (udp_parse_group can_alloc i Hsys e2' (fr_group m) (fr_body m) rest addr port Hraw' Hbuf ltac:(lia)) as [ty Hp].
    destruct (udp_frame_ok can_alloc i Hsys (Z.of_nat (length (fr_body m))) 0 (fr_body m)) as [ty2 Hb]; [lia|].
    exists (with_group (Frame ty2 0 (fr_body m)) (fr_group m)). split; [by apply with_group_group|]. split_and!; try done.
    assert (take (Z.to_nat (Z.of_nat (length (fr_body m)))) (drop (Z.to_nat (Z.of_nat (S (length (fr_group m))))) (ue_in_buffer e2')) = fr_body m) as Hbody.
    { rewrite !Nat2Z.id, Hbuf. unfold d. cbn [app]. rewrite skipn_cons, <- !app_assoc, drop_app_length. apply take_app_length. }
    unfold udp_in_event. rewrite Et. fold e2'. fold d in Hp. rewrite Hp. cbn [mbind option_bind]. unfold udp_push.
    rewrite Hbody, Hb. cbn [us_push us_flush us_reset dish_udp_session mbind option_bind].
    rewrite dish_push_group by done. cbn [mbind option_bind].
    rewrite (dish_push_body v t _ _ (fr_group m)) by done.
    destruct (session_push_msg v t (with_group (Frame ty2 0 (fr_body m)) (fr_group m))) as [[v1 []]|]; cbn [mbind option_bind]; try done.
    unfold flush_first. by destruct (session_flush v1 t).
Qed.

(** *** Addresses *)

Lemma drop_past (x : Z) (l r : bytes) : drop (S (length l)) (l ++ x :: r) = r.
Proof. by induction l. Qed.

Lemma address_resolves can_alloc i addr port : udp_system can_alloc i -> 0 <= addr < 4294967295 -> 0 < port < 65536 ->
  exists ty body, sockaddr_to_msg can_alloc i addr port = Some (Frame ty flag_more body) /\ resolve_raw_address i body = Some (raw_addr addr port).
Proof.
  intros Hsys Ha Hp. unfold sockaddr_to_msg. set (body := inet_ntoa i addr ++ [colon] ++ print_port port ++ [0]).
  assert (0 <= port < 10 ^ Z.of_nat 5) as H5 by (cbn; lia). destruct (print_digits_spec 5 port H5 ltac:(lia)) as (Hd & Hr & Hl).
  destruct (udp_frame_ok can_alloc i Hsys (Z.of_nat (length body)) flag_more body) as [ty ->].
  { pose proof (us_length _ _ Hsys addr Ha). unfold body, print_port. rewrite !length_app. cbn [length]. unfold MAX_UDP_MSG. lia. }
  exists ty, body. split; [done|]. unfold resolve_raw_address, body.
  assert (colon ∉ print_port port ++ [0]) as Hc.
  { intros [H|H]%elem_of_app; [by apply (print_digits_not 5 port colon H5) in H; [|lia|]|]. apply list_elem_of_singleton in H. done. }
  cbn [app]. rewrite rfind_last by done. cbn [mbind option_bind].
  rewrite take_app_length.
  rewrite drop_past.
  assert (0 ∉ print_port port) as Hz by (apply (print_digits_not 5 port 0 H5); [lia|done]).
  rewrite c_string_zero by done. rewrite <- (app_nil_r (print_port port)), atoi_print by (done || lia).
  unfold u16. rewrite Z.mod_small by lia. destruct (port =? 0) eqn:E0; [lia|].
  rewrite c_string_id by (by apply (us_zero _ _ Hsys)). by rewrite (us_inet _ _ Hsys _ Ha).
Qed.

(** C23: A datagram that arrives for a DGRAM socket becomes two frames, the
    address of its sender and its contents; a message that is sent with
    that address as its first frame leaves as one datagram of its second
    frame to the address and port that the first came from. *)
Theorem udp_dgram_reply {W} {IP : InPipes W} {OP : OutPipes W} {SP : SessionPipes W} (can_alloc : Z -> bool) (i : inet)
    (v : W) (t : session) (e : udp_engine) (data : bytes) (addr port : Z) :
  udp_system can_alloc i -> ue_raw e = true -> Z.of_nat (length data) <= MAX_UDP_MSG -> 0 <= addr < 4294967295 -> 0 < port < 65536 ->
  let e' := ue_set_in_buffer e (udp_received e data) in
  exists a b, fr_more a = true /\ fr_more b = false /\ fr_body b = data /\
    udp_in_event can_alloc i e (v, t, tt) (Some (data, addr, port)) =
      (let* (v1, ok) := session_push_msg v t a in
       if negb ok then Some (ue_set_pollin e' false, (v1, t, tt))
       else
         let* (v2, ok) := session_push_msg v1 t b in
         if negb ok then Some (ue_set_pollin e' false, (v2, t, tt))
         else let* v3 := session_flush v2 t in Some (e', (v3, t, tt))) /\
    forall (w w1 w2 : W) (s s1 s2 : session) (a' b' : frame), fr_body a' = fr_body a -> Z.of_nat (length (fr_body b')) <= MAX_UDP_MSG ->
      session_pull_msg w s = Some (w1, s1, Some a') -> session_pull_msg w1 s1 = Some (w2, s2, Some b') ->
      udp_out_event i e (w, s, tt) true = Some (ue_log e (raw_addr addr port, fr_body b'), (w2, s2, tt)).
Proof.
  intros Hsys Hraw Hlen Ha Hp e'. destruct (address_resolves can_alloc i addr port Hsys Ha Hp) as (ty & body & Ea & Er).
  destruct (udp_received_front e data Hlen) as [Et [rest Erc]].
  destruct (udp_frame_ok can_alloc i Hsys (Z.of_nat (length data)) 0 data) as [ty2 Eb]; [lia|].
  exists (Frame ty flag_more body), (Frame ty2 0 data). split; [done|]. split; [done|]. split; [done|]. split.
  - unfold udp_in_event. rewrite Et. fold e'. unfold udp_parse. change (ue_raw e') with (ue_raw e). rewrite Hraw, Ea. cbn [mbind option_bind].
    assert (take (Z.to_nat (Z.of_nat (length data))) (drop (Z.to_nat 0) (ue_in_buffer e')) = data) as Hdata.
    { rewrite Nat2Z.id. change (ue_in_buffer e') with (udp_received e data). rewrite Erc. apply take_app_length. }
    unfold udp_push. rewrite Hdata, Eb. cbn [us_push us_flush us_reset dgram_udp_session mbind option_bind]. unfold push_code.
    destruct (session_push_msg v t (Frame ty flag_more body)) as [[v1 []]|]; cbn [mbind option_bind negb]; try done.
    destruct (session_push_msg v1 t (Frame ty2 0 data)) as [[v2 []]|]; cbn [mbind option_bind negb]; try done.
    unfold flush_first. by destruct (session_flush v2 t).
  - intros w w1 w2 s s1 s2 a' b' Hab Hb E1 E2. unfold udp_out_event. cbn [us_pull dgram_udp_session]. rewrite E1. cbn [mbind option_bind]. rewrite E2. cbn [mbind option_bind].
    rewrite Hraw, Hab. change (fr_body (Frame ty flag_more body)) with body. rewrite Er. cbn [mbind option_bind]. unfold udp_out_buffer. rewrite Hraw, (proj2 (Z.leb_le _ _) Hb). done.
Qed.

(** *** An example *)

(** An address in its form of one number. *)
Definition example_inet : inet :=
  Inet (fun l => match l with [] => None | _ => Some (read_digits 0 l) end) (fun a => print_digits 10 a).

Definition example_alloc (n : Z) : bool := n <=? 1000000.

Lemma example_system : udp_system example_alloc example_inet.
Proof.
  assert (forall a, 0 <= a < 4294967295 -> 0 <= a < 10 ^ Z.of_nat 10) as H10 by (intros a Ha; change (10 ^ Z.of_nat 10) with 10000000000; lia).
  constructor; unfold example_alloc, MAX_UDP_MSG; try (intros; lia); intros a Ha; cbn [inet_addr inet_ntoa example_inet];
    destruct (print_digits_spec 10 a (H10 a Ha) ltac:(lia)) as (Hd & Hr & Hl).
  - destruct (print_digits 10 a); [cbn in Hl; lia|]. by rewrite Hr.
  - apply print_digits_not; [by apply H10|lia|done].
  - apply print_digits_not; [by apply H10|lia|done].
  - lia.
Qed.

Definition udp_example (raw : bool) : udp_engine := UdpEngine [] raw true true true true [] false.

Lemma udp_group_message_witness : exists e w',
  udp_out_event example_inet (udp_example false) (exchange_wires [radio_message], exchange_session, rs_group) true = Some (e, w') /\ ue_sent e = [(target_addr, [1; 7; 42])].
Proof.
  destruct (udp_group_message example_alloc example_inet (exchange_wires [radio_message]) (exchange_wires []) (exchange_wires []) exchange_session exchange_session exchange_session
    radio_message (udp_example false) (udp_example false) 1 1 example_system) as [H _]; [reflexivity|apply seven_ok|vm_compute; congruence|reflexivity|reflexivity|].
  eexists _, _. split; [exact H|reflexivity].
Defined.

Lemma udp_dgram_reply_witness : exists a b, fr_body b = [42] /\ fr_more a = true /\
  resolve_raw_address example_inet (fr_body a) = Some (raw_addr 167772161 5555) /\
  is_Some (udp_in_event example_alloc example_inet (udp_example true) (exchange_wires [], exchange_session, tt) (Some ([42], 167772161, 5555))).
Proof.
  destruct (udp_dgram_reply example_alloc example_inet (exchange_wires []) exchange_session (udp_example true) [42] 167772161 5555 example_system) as (a & b & Ha & Hb & Hbody & Hin & _).
  - reflexivity.
  - vm_compute. congruence.
  - lia.
  - lia.
  - destruct (address_resolves example_alloc example_inet 167772161 5555 example_system) as (ty & body & _ & Er); [lia|lia|].
    exists (Frame type_vsm flag_more body), b. split; [exact Hbody|]. split; [reflexivity|]. split; [exact Er|].
    vm_compute. by eexists.
Defined.

(** ** What goes wrong *)

(** The size of the group is read as a signed byte, and a message of a
    negative size cannot be made: one byte from anyone ends the process. *)
Lemma udp_negative_group {S} {US : UdpSession S} can_alloc i (e : udp_engine) (s : S) (b addr port : Z) (rest : bytes) :
  udp_system can_alloc i -> ue_raw e = false -> 128 <= b < 256 -> udp_in_event can_alloc i e s (Some (b :: rest, addr, port)) = None.
Proof.
  intros Hsys Hraw Hb. unfold udp_in_event. set (e' := ue_set_in_buffer _ _). unfold udp_parse. change (ue_raw e') with (ue_raw e). rewrite Hraw.
  assert (nth 0 (ue_in_buffer e') 0 = b) as ->.
  { unfold e', udp_received. cbn [ue_in_buffer ue_set_in_buffer]. unfold MAX_UDP_MSG. destruct (Z.to_nat 8192) eqn:E; [lia|]. reflexivity. }
  unfold s8. rewrite (proj2 (Z.ltb_ge b 128)) by lia. unfold udp_frame, msg_init_size, u64, sizeof_content, max_vsm_size.
  assert ((b - 256) mod 18446744073709551616 = b - 256 + 18446744073709551616) as Em by (symmetry; apply (Z.mod_unique _ _ (-1)); lia).
  rewrite Em, (proj2 (Z.leb_gt _ 33)) by lia. rewrite (us_no_alloc _ _ Hsys) by lia. by rewrite andb_false_r.
Qed.

(** A group of more than 15 characters is refused by the session of a DISH, and the engine asserts that nothing is. *)
Lemma udp_long_group {W} {IP : InPipes W} {OP : OutPipes W} {SP : SessionPipes W} can_alloc i (e : udp_engine) (v : W) (t : session) (g b : bytes) addr port :
  udp_system can_alloc i -> ue_raw e = false -> (15 < length g < 128)%nat -> 1 + Z.of_nat (length g) + Z.of_nat (length b) <= MAX_UDP_MSG ->
  udp_in_event can_alloc i e (v, t, ds_group) (Some (u8 (Z.of_nat (length g)) :: g ++ b, addr, port)) = None.
Proof.
  intros Hsys Hraw Hg Hlen. set (d := u8 _ :: _). assert (Z.of_nat (length d) <= MAX_UDP_MSG) as Hd by (unfold d; rewrite group_datagram_length; lia).
  destruct (udp_received_front e d Hd) as [Et [rest Er]]. unfold udp_in_event. rewrite Et. set (e' := ue_set_in_buffer _ _).
  destruct (udp_parse_group can_alloc i Hsys e' g b rest addr port) as [ty Hp]; [done|exact Er|lia|]. fold d in Hp. rewrite Hp. cbn [mbind option_bind].
  unfold udp_push. cbn [us_push dish_udp_session]. unfold dish_push_msg. change (fr_more (Frame ty flag_more g)) with true. change (fr_body (Frame ty flag_more g)) with g. cbn [negb].
  by rewrite (proj2 (Z.ltb_lt ZMQ_GROUP_MAX_LENGTH _)) by (unfold ZMQ_GROUP_MAX_LENGTH; lia).
Qed.

(** A message that does not fit a datagram is copied past the end of the buffer. *)
Lemma udp_out_overflow {W} {IP : InPipes W} {OP : OutPipes W} {SP : SessionPipes W} i (e : udp_engine) (w w1 : W) (s s1 : session) (m : frame) sent :
  session_pull_msg w s = Some (w1, s1, Some m) -> ue_raw e = false -> MAX_UDP_MSG < 1 + Z.of_nat (length (fr_group m)) + Z.of_nat (length (fr_body m)) ->
  udp_out_event i e (w, s, rs_group) sent = None.
Proof.
  intros E Hraw Hlen. unfold udp_out_event. cbn [us_pull radio_udp_session]. unfold radio_pull_msg. rewrite E. cbn [mbind option_bind]. rewrite Hraw.
  unfold udp_out_buffer. rewrite Hraw. change (fr_body (group_frame (fr_group m))) with (fr_group m). rewrite group_datagram_length.
  by rewrite (proj2 (Z.leb_gt _ _)) by lia.
Qed.

(** A DGRAM socket whose pipe ends between the two frames of a message takes
    the next address for a body. *)
Lemma dgram_half_sent {W} {OP : OutPipes W} (w w2 : W) (p q : Z) (f g : frame) (s : dgram) :
  dg_pipe s = Some p -> dg_more_out s = true -> fr_more g = true ->
  let s2 := Dgram (Some q) (dg_last_in (dgram_xpipe_terminated s p)) (dg_more_out (dgram_xpipe_terminated s p)) in
  dgram_xsend w2 s2 (Some g) = Some (w2, s2, Some g, DgInval).
Proof.
  intros Hp Hm Hg s2. assert (dg_more_out s2 = true) as Hm2 by (unfold s2, dgram_xpipe_terminated; by rewrite Hp, bool_decide_eq_true_2 by done).
  unfold dgram_xsend. cbn [mbind option_bind]. change (dg_pipe s2) with (Some q). rewrite Hm2, Hg. by rewrite bool_decide_eq_false_2.
Qed.

(** Without a pipe the message is closed though the send fails; to send it again asserts. *)
Lemma dgram_without_pipe {W} {OP : OutPipes W} (w : W) (f : frame) :
  dgram_xsend w dgram_new (Some f) = Some (w, dgram_new, None, DgDropped) /\ dgram_xsend w dgram_new None = None.
Proof. by split. Qed.
