(* ===== verification/Poller.v ===== *)
(** * Timers of the I/O threads (src/src/poller_base.cpp)

    A poller keeps its timers in a multimap ordered by expiration, calls
    their owners when they are due, and removes them after that: while an
    owner runs, its timer and those called before it are still there.
    Iterators are modelled as the names of the nodes they point to, so that
    using one whose node is gone is an error. *)

From S2P Require Import Prelude.

Record timer_node := TimerNode { tn_expiration : Z; tn_sink : Z; tn_id : Z; tn_name : Z }.

(** The multimap, and the name of the next node. *)
Record poller_timers := PollerTimers { pt_nodes : list timer_node; pt_next : Z }.

Definition poller_timers_new : poller_timers := PollerTimers [] 0.

(** [_timers.insert]: behind the nodes that do not expire later. *)
Fixpoint node_insert (n : timer_node) (l : list timer_node) : list timer_node :=
  match l with
  | [] => [n]
  | x :: l' => if tn_expiration n <? tn_expiration x then n :: l else x :: node_insert n l'
  end.

Definition poller_add_timer (t : poller_timers) (now timeout sink id : Z) : poller_timers :=
  PollerTimers (node_insert (TimerNode (u64 (now + timeout)) sink id (pt_next t)) (pt_nodes t)) (pt_next t + 1).

Definition is_timer (sink id : Z) (n : timer_node) : bool := (tn_sink n =? sink) && (tn_id n =? id).

(** The first timer of the owner with the id; there must be one. *)
Fixpoint node_cancel (sink id : Z) (l : list timer_node) : option (list timer_node) :=
  match l with
  | [] => None
  | x :: l => if is_timer sink id x then Some l else let* l := node_cancel sink id l in Some (x :: l)
  end.

Definition poller_cancel_timer (t : poller_timers) (sink id : Z) : option poller_timers :=
  let* l := node_cancel sink id (pt_nodes t) in Some (PollerTimers l (pt_next t)).

(** What an owner does with the timers while it is called. *)
Inductive timer_op := to_add (now timeout sink id : Z) | to_cancel (sink id : Z).

Definition poller_op (t : poller_timers) (op : timer_op) : option poller_timers :=
  match op with
  | to_add now timeout sink id => Some (poller_add_timer t now timeout sink id)
  | to_cancel sink id => poller_cancel_timer t sink id
  end.

Fixpoint poller_ops (t : poller_timers) (ops : list timer_op) : option poller_timers :=
  match ops with [] => Some t | op :: ops => let* t := poller_op t op in poller_ops t ops end.

(** Iterators: the node of a name, and the name of the node behind it,
    [None] inside for the end of the map. *)
Fixpoint timer_at (name : Z) (l : list timer_node) : option timer_node :=
  match l with [] => None | x :: l => if tn_name x =? name then Some x else timer_at name l end.

Definition first_name (l : list timer_node) : option Z := tn_name <$> head l.

Fixpoint name_after (name : Z) (l : list timer_node) : option (option Z) :=
  match l with [] => None | x :: l => if tn_name x =? name then Some (first_name l) else name_after name l end.

(** [erase (begin, it)] *)
Fixpoint erase_until (it : option Z) (l : list timer_node) : list timer_node :=
  match l with [] => [] | x :: l' => if bool_decide (it = Some (tn_name x)) then l else erase_until it l' end.

Fixpoint erase_from (begin : Z) (it : option Z) (l : list timer_node) : option (list timer_node) :=
  match l with
  | [] => None
  | x :: l' => if tn_name x =? begin then Some (erase_until it l) else let* l' := erase_from begin it l' in Some (x :: l')
  end.

Section execute.
Context {H : Type} (timer_event : H -> Z -> Z -> H * list timer_op).   (** the owners: state, sink, id *)

(** The loop of [execute_timers]: where it stops, the time to wait, and who was called. *)
Fixpoint poller_loop (fuel : nat) (current : Z) (h : H) (t : poller_timers) (it : option Z) (called : list (Z * Z)) :
    option (H * poller_timers * option Z * Z * list (Z * Z)) :=
  match it with
  | None => Some (h, t, None, 0, called)
  | Some name =>
      let* n := timer_at name (pt_nodes t) in
      if current <? tn_expiration n then Some (h, t, it, tn_expiration n - current, called)
      else
        match fuel with
        | O => None
        | S fuel' =>
            let (h, ops) := timer_event h (tn_sink n) (tn_id n) in
            let* t := poller_ops t ops in
            let* it := name_after name (pt_nodes t) in
            poller_loop fuel' current h t it (called ++ [(tn_sink n, tn_id n)])
        end
  end.

Definition execute_timers (fuel : nat) (current : Z) (h : H) (t : poller_timers) : option (H * poller_timers * Z * list (Z * Z)) :=
  match pt_nodes t with
  | [] => Some (h, t, 0, [])
  | b :: _ =>
      let* (h, t, it, res, called) := poller_loop fuel current h t (Some (tn_name b)) [] in
      let* l := erase_from (tn_name b) it (pt_nodes t) in
      Some (h, PollerTimers l (pt_next t), res, called)
  end.

(** ** What it is meant to do

    A timer that is due leaves the map, then its owner is called. *)
Fixpoint execute_spec (fuel : nat) (current : Z) (h : H) (t : poller_timers) (called : list (Z * Z)) : option (H * poller_timers * Z * list (Z * Z)) :=
  match pt_nodes t with
  | [] => Some (h, t, 0, called)
  | n :: l =>
      if current <? tn_expiration n then Some (h, t, tn_expiration n - current, called)
      else
        match fuel with
        | O => None
        | S fuel' =>
            let (h, ops) := timer_event h (tn_sink n) (tn_id n) in
            let* t := poller_ops (PollerTimers l (pt_next t)) ops in
            execute_spec fuel' current h t (called ++ [(tn_sink n, tn_id n)])
        end
  end.

(** No timer that an owner sets is due at once; those that it cancels are
    set, and none has the owner and id of one that was called in this round,
    itself included. *)
Definition op_fits (current : Z) (called : list (Z * Z)) (op : timer_op) : Prop :=
  match op with
  | to_add now timeout _ _ => current < u64 (now + timeout)
  | to_cancel sink id => (sink, id) ∉ called
  end.

Fixpoint owners_fit (fuel : nat) (current : Z) (h : H) (t : poller_timers) (called : list (Z * Z)) : Prop :=
  match pt_nodes t with
  | [] => True
  | n :: l =>
      if current <? tn_expiration n then True
      else
        match fuel with
        | O => True
        | S fuel' =>
            let (h, ops) := timer_event h (tn_sink n) (tn_id n) in
            let called := called ++ [(tn_sink n, tn_id n)] in
            Forall (op_fits current called) ops /\
            match poller_ops (PollerTimers l (pt_next t)) ops with Some t => owners_fit fuel' current h t called | None => False end
        end
  end.
End execute.

(** ** Correctness *)

Definition timer_key (n : timer_node) : Z * Z := (tn_sink n, tn_id n).

(** The names of the nodes are distinct and older than the next. *)
Definition names_ok (l : list timer_node) (next : Z) : Prop := NoDup (tn_name <$> l) /\ Forall (fun n => tn_name n < next) l.

Lemma node_insert_perm n l : node_insert n l ≡ₚ n :: l.
Proof. induction l as [|x l IH]; cbn [node_insert]; [done|]. destruct (tn_expiration n <? tn_expiration x); [done|]. rewrite IH. apply perm_swap. Qed.

Lemma names_ok_perm l l' next : l ≡ₚ l' -> names_ok l next -> names_ok l' next.
Proof. intros Hp [H1 H2]. split; [by rewrite <- Hp|by rewrite <- Hp]. Qed.

Lemma names_ok_add l next n : names_ok l next -> tn_name n = next -> names_ok (n :: l) (next + 1).
Proof.
  intros [H1 H2] Hn. split.
  - cbn. constructor; [|done]. intros (x & Hx & Hin)%list_elem_of_fmap. rewrite list.Forall_forall in H2. specialize (H2 x Hin). lia.
  - constructor; [lia|]. eapply list.Forall_impl; [exact H2|]. cbn. lia.
Qed.

(** What was called is in front of what was not; it is not due later than [current]. *)
Lemma timer_insert_behind fired rest n current : Forall (fun x => tn_expiration x <= current) fired -> current < tn_expiration n ->
  node_insert n (fired ++ rest) = fired ++ node_insert n rest.
Proof.
  intros Hf Hn. induction Hf as [|x fired Hx _ IH]; cbn [app node_insert]; [done|]. rewrite (proj2 (Z.ltb_ge _ _)) by lia. by rewrite IH.
Qed.

Lemma cancel_behind fired rest sink id : (sink, id) ∉ timer_key <$> fired ->
  node_cancel sink id (fired ++ rest) = (let* l := node_cancel sink id rest in Some (fired ++ l)).
Proof.
  induction fired as [|x fired IH]; intros Hf; cbn [app node_cancel]; [by destruct (node_cancel sink id rest)|].
  rewrite fmap_cons in Hf. apply not_elem_of_cons in Hf as [Hx Hf]. unfold is_timer.
  destruct ((tn_sink x =? sink) && (tn_id x =? id)) eqn:E.
  - apply andb_true_iff in E as [E1 E2]. destruct Hx. unfold timer_key. f_equal; lia.
  - rewrite IH by done. by destruct (node_cancel sink id rest).
Qed.

Lemma node_cancel_sublist sink id l l' : node_cancel sink id l = Some l' -> l' `sublist_of` l.
Proof.
  revert l'. induction l as [|x l IH]; intros l' E; cbn [node_cancel] in E; [done|]. destruct (is_timer sink id x); [injection E as <-; by constructor|].
  destruct (node_cancel sink id l) as [l2|]; [|done]. injection E as <-. constructor. by apply IH.
Qed.

Lemma names_ok_sublist l l' next : l' `sublist_of` l -> names_ok l next -> names_ok l' next.
Proof.
  intros Hs [H1 H2]. split; [|by eapply Forall_sublist].
  eapply sublist_NoDup; [exact H1|]. by apply fmap_sublist.
Qed.

(** While the owners run, what was called stays in front. *)
Lemma ops_behind current fired ops : forall rest next, Forall (fun x => tn_expiration x <= current) fired -> names_ok (fired ++ rest) next ->
  Forall (op_fits current (timer_key <$> fired)) ops ->
  poller_ops (PollerTimers (fired ++ rest) next) ops = (let* t := poller_ops (PollerTimers rest next) ops in Some (PollerTimers (fired ++ pt_nodes t) (pt_next t))) /\
  forall t, poller_ops (PollerTimers rest next) ops = Some t -> names_ok (fired ++ pt_nodes t) (pt_next t).
Proof.
  induction ops as [|op ops IH]; intros rest next Hf Hn Hops; cbn [poller_ops]; [split; [done|by intros t [= <-]]|].
  apply list.Forall_cons_1 in Hops as [Hop Hops]. destruct op as [now timeout sink id|sink id]; cbn [poller_op op_fits mbind option_bind] in *.
  - unfold poller_add_timer. cbn [pt_nodes pt_next]. rewrite (timer_insert_behind fired rest _ current Hf) by done. apply IH; [done| |done].
    apply (names_ok_perm (TimerNode (u64 (now + timeout)) sink id next :: fired ++ rest)); [by rewrite node_insert_perm, Permutation_middle|by apply names_ok_add].
  - unfold poller_cancel_timer. cbn [pt_nodes pt_next]. rewrite cancel_behind by done. destruct (node_cancel sink id rest) as [l|] eqn:E; cbn [mbind option_bind]; [|by split].
    apply IH; [done| |done]. eapply names_ok_sublist; [|exact Hn]. apply sublist_app; [done|by apply (node_cancel_sublist sink id)].
Qed.

Lemma timer_at_behind fired n rest next : names_ok (fired ++ n :: rest) next -> timer_at (tn_name n) (fired ++ n :: rest) = Some n.
Proof.
  intros [Hn _]. induction fired as [|x fired IH]; cbn [app timer_at] in *; [by rewrite Z.eqb_refl|].
  rewrite fmap_cons in Hn. apply list.NoDup_cons in Hn as [Hx Hn]. destruct (tn_name x =? tn_name n) eqn:E; [|by apply IH].
  destruct Hx. apply Z.eqb_eq in E. rewrite E, fmap_app. apply elem_of_app. right. by left.
Qed.

Lemma name_after_behind fired n rest next : names_ok (fired ++ n :: rest) next -> name_after (tn_name n) (fired ++ n :: rest) = Some (first_name rest).
Proof.
  intros [Hn _]. induction fired as [|x fired IH]; cbn [app name_after] in *; [by rewrite Z.eqb_refl|].
  rewrite fmap_cons in Hn. apply list.NoDup_cons in Hn as [Hx Hn]. destruct (tn_name x =? tn_name n) eqn:E; [|by apply IH].
  destruct Hx. apply Z.eqb_eq in E. rewrite E, fmap_app. apply elem_of_app. right. by left.
Qed.

Lemma erase_until_behind fired rest next : names_ok (fired ++ rest) next -> erase_until (first_name rest) (fired ++ rest) = rest.
Proof.
  intros [Hn _]. induction fired as [|x fired IH]; cbn [app erase_until] in *.
  - destruct rest as [|y rest]; [done|]. cbn [erase_until first_name head]. by rewrite bool_decide_eq_true_2.
  - rewrite fmap_cons in Hn. apply list.NoDup_cons in Hn as [Hx Hn]. rewrite bool_decide_eq_false_2; [by apply IH|].
    intros E. destruct rest as [|y rest]; [done|]. injection E as E. destruct Hx. rewrite <- E, fmap_app. apply elem_of_app. right. by left.
Qed.

Lemma erase_from_behind fired rest next b : names_ok (fired ++ rest) next -> head (fired ++ rest) = Some b ->
  erase_from (tn_name b) (first_name rest) (fired ++ rest) = Some rest.
Proof.
  intros Hn Hb. pose proof (erase_until_behind fired rest next Hn) as He. destruct (fired ++ rest) as [|x l]; [done|]. injection Hb as ->.
  cbn [erase_from]. rewrite Z.eqb_refl. by rewrite He.
Qed.

(** The loop keeps step with the specification. *)
Lemma poller_loop_spec {H : Type} (timer_event : H -> Z -> Z -> H * list timer_op) current b fuel : forall h fired rest next,
  Forall (fun x => tn_expiration x <= current) fired -> names_ok (fired ++ rest) next -> head (fired ++ rest) = Some b ->
  owners_fit timer_event fuel current h (PollerTimers rest next) (timer_key <$> fired) ->
  (let* (h, t, it, res, called) := poller_loop timer_event fuel current h (PollerTimers (fired ++ rest) next) (first_name rest) (timer_key <$> fired) in
   let* l := erase_from (tn_name b) it (pt_nodes t) in Some (h, PollerTimers l (pt_next t), res, called)) =
  execute_spec timer_event fuel current h (PollerTimers rest next) (timer_key <$> fired).
Proof.
  induction fuel as [|fuel IH]; intros h fired rest next Hf Hn Hb Hfit; destruct rest as [|n rest]; cbn [first_name head fmap option_fmap option_map poller_loop execute_spec owners_fit pt_nodes pt_next mbind option_bind] in *.
  1,3: pose proof (erase_from_behind fired [] next b Hn Hb) as E0; cbn [first_name head fmap option_fmap option_map] in E0; by rewrite E0.
  - rewrite (timer_at_behind _ _ _ _ Hn). cbn [mbind option_bind]. destruct (current <? tn_expiration n); [|done].
    cbn [mbind option_bind pt_nodes pt_next]. pose proof (erase_from_behind fired (n :: rest) next b Hn Hb) as E0. cbn [first_name head fmap option_fmap option_map] in E0. by rewrite E0.
  - rewrite (timer_at_behind _ _ _ _ Hn). cbn [mbind option_bind]. destruct (current <? tn_expiration n) eqn:Ed.
    { cbn [mbind option_bind pt_nodes pt_next]. pose proof (erase_from_behind fired (n :: rest) next b Hn Hb) as E0. cbn [first_name head fmap option_fmap option_map] in E0. by rewrite E0. }
    destruct (timer_event h (tn_sink n) (tn_id n)) as [h' ops]. destruct Hfit as [Hops Hfit].
    assert (forall l, fired ++ n :: l = (fired ++ [n]) ++ l) as Eapp by (intros l; by rewrite <- app_assoc).
    assert ((timer_key <$> fired) ++ [(tn_sink n, tn_id n)] = timer_key <$> (fired ++ [n])) as Ekey by (by rewrite fmap_app). rewrite Ekey in *.
    assert (Forall (fun x => tn_expiration x <= current) (fired ++ [n])) as Hf' by (apply Forall_app; split; [done|constructor; [lia|done]]).
    rewrite (Eapp rest) in Hn |- *. destruct (ops_behind current (fired ++ [n]) ops rest next Hf' Hn Hops) as [-> Hn'].
    destruct (poller_ops (PollerTimers rest next) ops) as [[rest' next']|] eqn:Eo; cbn [mbind option_bind pt_nodes pt_next] in *; [|done].
    specialize (Hn' _ eq_refl). cbn [pt_nodes pt_next] in Hn'.
    assert (name_after (tn_name n) ((fired ++ [n]) ++ rest') = Some (first_name rest')) as ->.
    { rewrite <- (Eapp rest') in Hn' |- *. by apply (name_after_behind _ _ _ _ Hn'). }
    cbn [mbind option_bind]. apply IH; [done|done| |done]. by destruct fired.
Qed.

(** *** The specification ends *)

Fixpoint ordered (l : list timer_node) : Prop :=
  match l with [] => True | x :: l => Forall (fun y => tn_expiration x <= tn_expiration y) l /\ ordered l end.

Definition due (current : Z) (l : list timer_node) : nat := length (base.filter (fun n => tn_expiration n <= current) l).

Lemma ordered_insert n l : ordered l -> ordered (node_insert n l).
Proof.
  induction l as [|x l IH]; cbn [node_insert]; [done|]. intros [Hx Hl]. destruct (tn_expiration n <? tn_expiration x) eqn:E.
  - split; [|by split]. constructor; [lia|]. eapply list.Forall_impl; [exact Hx|]. cbn. lia.
  - split; [|by apply IH]. rewrite node_insert_perm. constructor; [lia|done].
Qed.

Lemma ordered_sublist l l' : l' `sublist_of` l -> ordered l -> ordered l'.
Proof.
  induction 1 as [|x l l' Hs IH|x l l' Hs IH]; intros Ho; [done| |]; destruct Ho as [Hx Ho]; [|by apply IH].
  split; [by eapply Forall_sublist|by apply IH].
Qed.

Lemma due_perm current l l' : l ≡ₚ l' -> due current l = due current l'.
Proof. intros Hp. unfold due. by rewrite Hp. Qed.

Lemma due_sublist current l l' : l `sublist_of` l' -> (due current l <= due current l')%nat.
Proof. unfold due. induction 1; [done| |]; rewrite ?filter_cons; repeat case_decide; cbn [length]; lia. Qed.

Lemma due_ops current called ops : forall t t', Forall (op_fits current called) ops -> poller_ops t ops = Some t' -> ordered (pt_nodes t) ->
  ordered (pt_nodes t') /\ (due current (pt_nodes t') <= due current (pt_nodes t))%nat.
Proof.
  induction ops as [|op ops IH]; intros t t' Hops E Ho; cbn [poller_ops] in E; [injection E as <-; split; [done|lia]|].
  apply list.Forall_cons_1 in Hops as [Hop Hops]. destruct op as [now timeout sink id|sink id]; cbn [poller_op op_fits mbind option_bind] in *.
  - destruct (IH _ _ Hops E) as [Ho' Hd]; [by apply ordered_insert|]. split; [done|]. unfold poller_add_timer in Hd. cbn [pt_nodes] in Hd.
    rewrite (due_perm _ _ _ (node_insert_perm _ _)) in Hd. unfold due in Hd at 2. rewrite filter_cons in Hd. cbn [tn_expiration] in Hd.
    rewrite decide_False in Hd by lia. exact Hd.
  - unfold poller_cancel_timer in E. destruct (node_cancel sink id (pt_nodes t)) as [l|] eqn:Ec; [|done]. cbn [mbind option_bind] in E.
    pose proof (node_cancel_sublist _ _ _ _ Ec) as Hs. destruct (IH _ _ Hops E) as [Ho' Hd]; [by eapply ordered_sublist|]. split; [done|]. cbn [pt_nodes] in Hd.
    assert (due current l <= due current (pt_nodes t))%nat; [|lia]. by apply due_sublist.
Qed.

Lemma execute_spec_ends {H : Type} (timer_event : H -> Z -> Z -> H * list timer_op) current fuel : forall h t called, ordered (pt_nodes t) ->
  owners_fit timer_event fuel current h t called -> (due current (pt_nodes t) <= fuel)%nat ->
  exists h' t' res called', execute_spec timer_event fuel current h t called = Some (h', t', res, called') /\
    Forall (fun n => current < tn_expiration n) (pt_nodes t') /\ res = match pt_nodes t' with n :: _ => tn_expiration n - current | [] => 0 end /\
    (length called' <= length called + due current (pt_nodes t))%nat.
Proof.
  induction fuel as [|fuel IH]; intros h t called Ho Hfit Hd; cbn [execute_spec owners_fit] in *; destruct (pt_nodes t) as [|n l] eqn:En.
  1,3: exists h, t, 0, called; rewrite En; split_and!; done || lia.
  all: destruct Ho as [Hn Ho]; destruct (current <? tn_expiration n) eqn:Ed.
  1,3: exists h, t, (tn_expiration n - current), called; rewrite En; split_and!; [done| |done|lia]; constructor; [lia|eapply list.Forall_impl; [exact Hn|cbn; lia]].
  all: assert (due current (n :: l) = S (due current l)) as Edue by (unfold due; by rewrite filter_cons, decide_True by lia).
  { lia. }
  destruct (timer_event h (tn_sink n) (tn_id n)) as [h' ops]. destruct Hfit as [Hops Hfit].
  destruct (poller_ops (PollerTimers l (pt_next t)) ops) as [t2|] eqn:Eo; [|done]. cbn [mbind option_bind].
  destruct (due_ops current _ ops _ _ Hops Eo Ho) as [Ho2 Hd2]. cbn [pt_nodes] in Hd2.
  destruct (IH h' t2 (called ++ [(tn_sink n, tn_id n)]) Ho2 Hfit ltac:(lia)) as (h3 & t3 & res & called' & E & H1 & H2 & H3).
  exists h3, t3, res, called'. split_and!; try done. rewrite length_app in H3. cbn [length] in H3. lia.
Qed.

(** C19: The loop over the timers, whose owners set and cancel timers while it
    runs, does what it is meant to do: it calls the owners of the timers
    that are due, one after another, each as if its timer had left the map,
    ends, leaves only timers that are not due, and returns the time to the
    next.  This is for owners that set no timer that is due at once, and
    cancel only timers that are set, of which none of the same owner and id
    was called in the same round. *)
Theorem poller_execute {H : Type} (timer_event : H -> Z -> Z -> H * list timer_op) (current : Z) (h : H) (t : poller_timers) :
  names_ok (pt_nodes t) (pt_next t) -> ordered (pt_nodes t) -> let fuel := due current (pt_nodes t) in owners_fit timer_event fuel current h t [] ->
  exists h' t' res called, execute_timers timer_event fuel current h t = Some (h', t', res, called) /\
    execute_spec timer_event fuel current h t [] = Some (h', t', res, called) /\
    Forall (fun n => current < tn_expiration n) (pt_nodes t') /\ res = match pt_nodes t' with n :: _ => tn_expiration n - current | [] => 0 end /\
    (length called <= due current (pt_nodes t))%nat.
Proof.
  intros Hn Ho fuel Hfit. destruct (execute_spec_ends timer_event current fuel h t [] Ho Hfit) as (h' & t' & res & called & E & H1 & H2 & H3); [done|].
  exists h', t', res, called. split_and!; try done. rewrite <- E. destruct t as [nodes next]. cbn [pt_nodes pt_next] in *. unfold execute_timers. cbn [pt_nodes].
  destruct nodes as [|b l]; [by destruct fuel|]. apply (poller_loop_spec timer_event current b fuel h [] (b :: l) next); done.
Qed.

(** An owner that sets its timer again for 10 ms later. *)
Definition example_owner (calls : Z) (sink id : Z) : Z * list timer_op := (calls + 1, [to_add 100 10 sink id]).

Definition example_timers : poller_timers := poller_add_timer (poller_add_timer (poller_add_timer poller_timers_new 80 15 1 1) 80 10 2 1) 90 30 3 1.

Lemma poller_execute_witness : exists t', execute_timers example_owner 2 100 0 example_timers = Some (2, t', 10, [(2, 1); (1, 1)]) /\
  Forall (fun n => 100 < tn_expiration n) (pt_nodes t').
Proof.
  destruct (poller_execute example_owner 100 0 example_timers) as (h' & t' & res & called & E & _ & Hnd & _).
  - split; [vm_compute; repeat constructor; set_solver|repeat constructor].
  - vm_compute. split_and!; try done; repeat constructor; discriminate.
  - cbn -[u64 Z.lt]. split_and!; repeat constructor; vm_compute; reflexivity.
  - exists t'. split; [|exact Hnd]. pose proof E as E2. vm_compute in E2. injection E2 as <- <- <- <-. exact E.
Defined.

(** ** What goes wrong *)

(** An owner that cancels its own timer while it is called, as an engine
    does that ends in a heartbeat, leaves the loop on a node that is gone. *)
Lemma cancel_while_called : execute_timers (fun (h : Z) sink id => (h, [to_cancel sink id])) 5 100 0 (poller_add_timer poller_timers_new 80 10 1 1) = None.
Proof. reflexivity. Qed.

(** An owner that is called and sets its timer again, and then has it
    cancelled in the call of another: the old node is cancelled in place of
    the new one, and the loop erases from a node that is gone. *)
Lemma cancel_after_called :
  execute_timers (fun (h : Z) sink id => (h, if sink =? 1 then [to_add 100 10 1 1] else [to_cancel 1 1])) 5 100 0
    (poller_add_timer (poller_add_timer poller_timers_new 80 5 1 1) 80 10 2 1) = None.
Proof. reflexivity. Qed.
